(* ===== verification/_CoqProject ===== *)
-Q . S2P
Prelude.v
Actor.v
Text.v
Lru.v
Float64.v
Ranking.v
Errors.v
Dtype.v
CudaDtype.v
Fp8.v
DeviceState.v
DeviceActor.v
ContextActor.v
DeviceTree.v
Completion.v
Managed.v
Streams.v
Envelope.v
Objects.v
Blas.v
Fft.v
BlasLt.v
Tensor.v
Sparse.v
Rng.v
CudnnGraph.v
Cudnn.v
Solver.v
Hopper.v
Driver.v
Pipeline.v
Sink.v
Graph.v
PinnedPool.v
NcclWorld.v
P2p.v
Collective.v
Realtime.v
Frames.v
Simulation.v
MockDevice.v
Batching.v
Scheduler.v
Moe.v
Speculative.v
SharedState.v
EmbeddingCache.v
Rag.v
NodeGraph.v
Placement.v
Sharding.v
Routing.v
Python.v
PyBlas.v
PyRng.v
PySolver.v
PyFft.v
PyCudnn.v
PyDevice.v
FlashAttn.v
FlashRequests.v
NvrtcCache.v
Nvrtc.v
PyNvrtc.v
Modules.v
TensorRt.v
Telemetry.v
CubKernels.v
CubTileOps.v
CubSource.v
Cub.v
CubResults.v
CutlassRequests.v
Cutlass.v
Replay.v
Train.v
ParallelTrain.v
