(* ===== verification/Prelude.v ===== *)
(** * atomr-accel: a verification development

    atomr-accel runs GPU work behind actors.  The foundation crate
    [crates/atomr-accel-cuda] gives each device a two-tier actor: an outer
    [DeviceActor], whose address is stable, and an inner [ContextActor], which
    owns the CUDA context and is rebuilt by the supervisor when the context is
    poisoned.  Buffers ([GpuRef]) carry the generation of the context they were
    minted under.  The context's kernel actors ([kernel/]) enqueue library calls
    on streams ([stream/]) and reply when a completion strategy ([completion/])
    resolves; pipelines ([pipeline/]) and recorded graphs ([graph/]) chain them.
    Around this are host and managed memory ([host/pinned.rs], [memory/]), device
    selection ([placement/]), several devices ([multi_device/], [p2p/],
    [kernel/collective/]), the driver layer ([sys/], [module/], [hopper/]), the
    compiler and its cache ([kernel/nvrtc.rs], [nvrtc_cache.rs]) and deterministic
    replay ([replay/]).  The other crates build on them: [atomr-accel-patterns]
    (batching, scheduling, routing, decoding), [atomr-accel-agents] (caches, shared
    state, graphs of nodes), [atomr-accel-train] (trainers, parameter server),
    [atomr-accel-flashattn] and [atomr-accel-cutlass] (kernels by dispatch key),
    [atomr-accel-cub] (device-wide primitives compiled at run time),
    [atomr-accel-cuda-realtime] (data structures, filters, simulations),
    [atomr-accel-tensorrt], [atomr-accel-telemetry] and the Python bindings
    [atomr-accel-py].

    ** How the program is modelled

    An actor is its state (a [Record] with the fields of the struct), its
    messages (an [Inductive] with the constructors of the enum), and its
    handler, a term of a state-and-effect monad of [Actor.v] that follows the
    [handle] method statement by statement.  What a handler does to the
    outside, in order, is its list of effects: a reply on a oneshot channel, a
    message told to another actor, a timer.  A oneshot sender and an
    [ActorRef] are numbers.  The runtime processes one message of a mailbox at
    a time; [run_actor] is a mailbox, and a theorem about every list of
    messages is a theorem about every interleaving of clients.  Handlers that
    can panic use [pact], in which a panic is a value.  A [tokio] task that a
    handler spawns is an effect, and what the task later sends back is one of
    the messages of the run.  Where the interleaving of two actors matters
    ([DeviceTree.v]), mailboxes and supervision are explicit and an execution
    is a list of commands.  Where the GPU, spawned tasks or clients that hold
    references interleave with an actor ([Envelope.v], [Managed.v], [Sink.v],
    [NvrtcCache.v]), an execution is a run of a step relation.

    A call of a C library that creates or destroys an object is a step of
    [Objects.v], whose state is the set of objects alive and the list of calls
    so far: an object that is used or destroyed when it is not alive makes the
    model stop, so the theorems about plans, descriptors, generators, modules,
    events and engines say that this never happens.

    Code outside the repository is a parameter: the driver's and the actor
    system's answers ([Driver], [Framework], [BuildEnv], [P2pEnv]), what each
    vendor library answers to its [n]-th call, user closures, hash functions, the
    iteration order of hash maps, clocks, the journal backend and the serializer.
    What a theorem needs of them is a class with laws ([PolicyLaw], [JournalLaw],
    [SerdeLaw], [BincodeLaw], [DiskLaw], [CompilerLaw], [CubLaw] over [CubBlock],
    [ReplyLaw], [LruLaws], [KernelLaw]) or a named hypothesis, with a concrete
    instance in the witness.

    Integers of fixed width are [Z] with the wrap-around of the release profile
    written out ([wadd], [wmul]), as the workspace does not enable overflow
    checks there; a [usize] that counts elements of a collection in memory is a
    [nat].  [f64] and [f32] are the binary64 and binary32 numbers of the
    standard library's [SpecFloat].  Recursion that is not structural runs with
    fuel computed from the input ([dispatch_fuel], [decode_fuel], [kahn_fuel],
    and the search of [P2p.v]); each has a theorem that this fuel is enough, so
    no statement is about a run that stopped early.

    ** The files

    Shared:

    - [Prelude.v]: integers, [result], list and string lemmas, stores and loops,
      tactics.
    - [Actor.v]: the handler monads, weakest preconditions, runs, invariants,
      and the reply discipline (no channel is lost, none is used twice).
    - [Text.v]: decimal and hexadecimal numbers, little-endian integers,
      self-delimiting codes, the printing of strings.  [Lru.v]: the
      least-recently-used map of the [lru] library, as the plan and kernel caches
      use it.
    - [Float64.v]: binary64, binary32 and their order; [Ranking.v]: the stable
      sort by score.
    - [Objects.v]: objects of a C library and the triples about them.

    Of [crates/atomr-accel] and [crates/atomr-accel-cuda/src]:

    - [Errors.v]: [error.rs], the error type, its text and the two deciders.
    - [Dtype.v], [Fp8.v]: the dtype tags and the low-precision codecs of
      [crates/atomr-accel/src/dtype.rs]; [CudaDtype.v]: what each element type
      is to the CUDA libraries ([dtype.rs] of the CUDA crate).
    - [DeviceState.v]: [device/state.rs] and [gpu_ref.rs].
    - [DeviceActor.v]: [device/device_actor.rs], requests of
      [device/alloc_msg.rs] and [device/alloc_dispatch.rs].
    - [ContextActor.v]: [device/context_actor.rs] and the [run] methods of
      [device/alloc_dispatch.rs].
    - [DeviceTree.v]: both tiers, their mailboxes and the supervisor.
    - [Completion.v]: [completion/]; [Managed.v]: [memory/managed.rs] and
      [advise.rs]; [PinnedPool.v]: [host/pinned.rs]; [Streams.v]: [stream/].
    - [Envelope.v]: [kernel/envelope.rs] over reference counts, a stream and
      spawned tasks, with the step relation of everything that happens to them.
      Its instances, one actor of [kernel/] each: [Blas.v], [BlasLt.v], [Fft.v],
      [Tensor.v] (with the workspace pool of [kernel/dispatch.rs]), [Sparse.v],
      [Rng.v], [Cudnn.v] over the operation graphs of [CudnnGraph.v], [Solver.v],
      [Nvrtc.v] (with the launch arguments of [kernel/dispatch.rs]).
    - [NvrtcCache.v]: [nvrtc_cache.rs], the disk cache under [Nvrtc.v].
    - [Driver.v]: [sys/cuda_driver.rs], [memory/ipc.rs], [event/mod.rs],
      [graph/child.rs], [graph/conditional.rs], [graph/dot.rs]; [Modules.v]:
      [module/mod.rs]; [Hopper.v]: [hopper/].
    - [Pipeline.v]: [pipeline/stage.rs] and [executor.rs]; [Sink.v]:
      [pipeline/sink.rs]; [Graph.v]: [graph/mod.rs], [graph/record/] and
      [kernel/record.rs].
    - [NcclWorld.v]: [multi_device/world_actor.rs]; [Collective.v]:
      [kernel/collective/]; [P2p.v]: [p2p/mod.rs].
    - [Placement.v]: [placement/mod.rs]; [Sharding.v]: [placement/sharded.rs] and
      [dispatcher.rs]; [Replay.v]: [replay/mod.rs].

    Of the blueprint crates:

    - [Batching.v], [Scheduler.v], [Speculative.v], [Moe.v]: the modules of these
      names of [crates/atomr-accel-patterns/src]; [Routing.v]: [replica_pool.rs],
      [hot_swap.rs] and [cascade.rs]; [MockDevice.v]: [mock.rs].
    - [SharedState.v], [EmbeddingCache.v], [NodeGraph.v], [Rag.v]:
      [shared_state.rs], [embedding_cache.rs], [langgraph_nodes.rs],
      [vector_index.rs] and [rag.rs] of [crates/atomr-accel-agents/src].
    - [FlashAttn.v]: [crates/atomr-accel-flashattn/src/dispatch.rs];
      [FlashRequests.v]: its request types ([fa2.rs], [fa3.rs], [varlen.rs],
      [prefill.rs], [paged.rs]) and the messages of [actor.rs].
    - [CutlassRequests.v], [Cutlass.v]: the request types, plan keys and sources of
      [crates/atomr-accel-cutlass/src], and its actor with the plan cache.
    - [Train.v]: [parameter_server.rs], [optimizer.rs] and [data_parallel.rs]
      of [crates/atomr-accel-train/src]; [ParallelTrain.v]: [tensor_parallel.rs]
      and [pipeline_parallel.rs].

    Of the crates around them:

    - [CubKernels.v], [CubTileOps.v]: the CUDA kernels that
      [crates/atomr-accel-cub/src/kernels/mod.rs] emits, as the writes of their
      threads; [CubSource.v]: their text; [Cub.v]: the actor and its tasks over
      [Nvrtc.v]; [CubResults.v]: what the launches compute on the element types.
    - [Realtime.v], [Frames.v], [Simulation.v]: the actors of
      [crates/atomr-accel-cuda-realtime/src].
    - [TensorRt.v]: [crates/atomr-accel-tensorrt/src].
    - [Telemetry.v]: [crates/atomr-accel-telemetry/src] and [observability.rs] of
      the CUDA crate.
    - [Python.v]: [errors.rs] and [buffer.rs] of [crates/atomr-accel-py/src] and
      the ask its methods share; [PyBlas.v], [PyRng.v], [PySolver.v], [PyFft.v],
      [PyCudnn.v], [PyDevice.v], [PyNvrtc.v]: [blas.rs], [rng.rs], [solver.rs],
      [fft.rs], [cudnn.rs], [device.rs] with [system.rs], [nvrtc.rs].

    ** What the theorems show

    - Device: work sent to a device is neither lost, duplicated nor reordered
      across rebuilds of the context; the stash is bounded; every reply channel
      is used at most once.  A buffer is valid exactly until the next rebuild,
      along every execution of the two tiers, and the tiers agree on readiness.
      An allocation gives a usable buffer or the documented error.
    - Kernels: along every execution of a kernel actor the buffers of what is in
      flight are alive and every request is answered once ([Envelope.v], and with it
      each of its instances); what each request answers; a plan is built
      once per shape while it is cached; the tracing envelope does what the plain
      one does.
    - Library objects: plans, descriptors, generators, scratch objects, modules,
      events and contexts are neither leaked nor used after their destruction,
      except where a theorem states the leak ([trt_objects], [refused_generator_is_leaked]).
    - cuDNN and Hopper: the strides of a layout are dense, a graph key identifies
      its graph, every graph a request builds is closed; a tensor map or a cluster
      that is accepted satisfies the documented limits.
    - Compilation: the NVRTC caches do not change what a compilation answers, and
      a handle launches exactly until the next rebuild.
    - Errors: when the two deciders agree, and an error on which they do not.
    - Memory: no pinned buffer and no workspace is shared, leaked or freed
      twice; the pools' counters are their contents; a typed view fits its buffer;
      managed memory is freed once, by its last handle, while the allocator lives.
    - Streams, pipelines, graphs: allocators rotate evenly; the type-erased
      executor is the typed composition of its stages; the streamed pipeline loses
      and reorders nothing and cannot get stuck; a capture that began is ended, and
      a graph launches exactly until the context is rebuilt.
    - Several devices: an all-reduce goes to every rank or to none; groups of a
      rank are closed by their guards, and what each collective answers; islands are
      the connected components of the peer graph; placement picks in rotation,
      or the least loaded of the devices that satisfy the hints; an entity always
      reaches the same device.
    - Patterns: batches are cut in order and answered item by item, and nothing
      waits without a timer; the scheduler is work-conserving, bounded and
      first-in-first-out per tenant; decoding terminates within its budget; the
      routing actors send each request to the replica, backend, stage or experts
      their documentation names; the mock device computes products and convolutions
      and answers every request.
    - Agents: the cache is a least-recently-used cache, write tokens are a fair
      lock, the graph runs in a topological order exactly when there is one, a
      search finds the nearest entries, a text is embedded once.
    - Training: the parameter server applies exactly the gradients within the
      staleness bound, the trainers give every sample to exactly one replica and
      sum what the shards answer.
    - Dispatch: a kernel name determines its key up to the architecture within
      one generation; the table resolves exactly the supported keys; every
      request a constructor returns resolves; a CUTLASS plan key identifies its
      request and a plan is compiled once.
    - CUB: within the sizes its kernels handle, a reduction, scan, selection,
      partition, histogram or segmented reduction gives what its request asks for in
      any order of the threads' writes, with examples of what lies outside and of what
      a sort gives; the actor answers every request once.
    - Real time: the hash map gives back what was inserted, the neighbour query is
      exact, the filter gives each pixel its convolution, particles stay in their
      bounds and pinned cloth does not move.
    - TensorRT: executing and building use only live engines and contexts and
      leave only what the library's user must destroy, but for the network.
    - Telemetry: a range is ended at most once, and by its own launch; snapshots are
      those of the last poll; activity records are delivered once, in the buffer or
      in the channel; the probes count what happened.
    - Python: a call raises without effect, or tells one request over clones of its
      buffers and returns what the actor answers within the time; a transform is told
      with the plan key its arguments name; an argument of a launch is used once; a
      builder gives back the references it kept or hands them to its request; a
      device spawned from Python has the handle of one library.
    - Data: the codecs of the low-precision floats round to nearest within their
      normal range; the tables of the CUDA libraries agree with the types.
    - Files: the journal gives back what all incarnations recorded; the kernel
      cache gives back what was inserted, and a reader sees a whole entry or none.

    Some theorems state that a path of the program cannot succeed
    ([h2d_never_enqueues], [p2p_copy_never], [nccl_never_comes_up],
    [restart_race], [pool_exhausted_by_refusals], [placement_capacity_hints],
    [gpu_path_fails]; the writing requests of [blas_outcome], [blaslt_outcome],
    [tensor_outcome], [sparse_outcome], [fill_refused], [solver_outcome],
    [cudnn_outcome], [collective_outcome], [python_blas], [python_rng],
    [python_solver] and [python_cudnn]; [one_shot_never_returns], [python_upload],
    [python_sgemm] and [python_only_blas]; the built-in ops of [graph_records]): they hold of the code as it is.

    ** What is not modelled

    What the vendors' libraries compute is a parameter, and so are the foreign
    declarations of [sys/].  Of the CUDA kernels, the texts of
    [crates/atomr-accel-cuda-realtime/src/kernels.rs] and the reductions of CUB over
    floats, whose order is the library's, are left out.  [TrtMsg] has no handler in
    the repository, and the callbacks of [plugin.rs] only forward.  The traits of
    the facade crate [crates/atomr-accel] and of [kernel/mod.rs] are the shapes of
    what their implementations do here.  [streams_pipeline.rs] is three calls of the
    streams library.  Of the Python bindings, the files besides those above wrap
    the requests of actors modelled here in the same ask, or forward to a Rust
    interface; the build tasks of [xtask/] are developer tooling. *)

From stdpp Require Export base tactics option list gmap strings numbers sorting relations.
From Stdlib Require Export ZArith Lia Ascii.
From stdpp Require Export strings.

Declare Scope accel_scope.
Delimit Scope accel_scope with accel.
Global Open Scope accel_scope.

(** ** Machine integers

    A Rust [u32] or [u64] is a [Z] in [0, 2^w).  The release profile of
    the workspace does not enable overflow checks, so [+=] on a counter wraps;
    the wrap-around is written out. *)

Definition wrap (w : Z) (x : Z) : Z := (x mod 2 ^ w)%Z.
Definition wadd (w : Z) (x y : Z) : Z := wrap w (x + y).
Definition wmul (w : Z) (x y : Z) : Z := wrap w (x * y).
(** [saturating_sub] of an unsigned integer. *)
Definition sat_sub (x y : Z) : Z := Z.max 0 (x - y).

Notation "x +₃₂ y" := (wadd 32 x y) (at level 50, left associativity) : accel_scope.
Notation "x +₆₄ y" := (wadd 64 x y) (at level 50, left associativity) : accel_scope.
Notation "x *₆₄ y" := (wmul 64 x y) (at level 40, left associativity) : accel_scope.
Notation "x *₃₂ y" := (wmul 32 x y) (at level 40, left associativity) : accel_scope.

Definition in_width (w x : Z) : Prop := (0 ≤ x < 2 ^ w)%Z.

Lemma wrap_small w x : in_width w x → wrap w x = x.
Proof. apply Z.mod_small. Qed.

Lemma wrap_in_width w x : (0 ≤ w)%Z → in_width w (wrap w x).
Proof. intros Hw. apply Z.mod_pos_bound. by apply Z.pow_pos_nonneg. Qed.

Lemma wadd_small w x y : in_width w (x + y) → wadd w x y = (x + y)%Z.
Proof. apply wrap_small. Qed.

Lemma wadd_assoc_Z w x a b : wadd w (wadd w x a) b = wrap w (x + (a + b)).
Proof.
  unfold wadd, wrap. rewrite Zplus_mod_idemp_l. f_equal; lia.
Qed.

(** [usize::next_power_of_two]; past the largest power it wraps to zero. *)
Definition next_power_of_two (x : Z) : Z :=
  let p := (2 ^ Z.log2_up x)%Z in if (p <? 2 ^ 64)%Z then p else 0%Z.

Lemma next_power_of_two_nonneg x : (0 ≤ next_power_of_two x)%Z.
Proof. unfold next_power_of_two. case_match; [apply Z.pow_nonneg|]; lia. Qed.

Lemma next_power_of_two_spec x : (1 ≤ x ≤ 2 ^ 63)%Z →
  (x ≤ next_power_of_two x)%Z ∧ (∃ k, 0 ≤ k ∧ next_power_of_two x = 2 ^ k)%Z ∧
  ∀ k, (0 ≤ k → x ≤ 2 ^ k → next_power_of_two x ≤ 2 ^ k)%Z.
Proof.
  intros Hx. unfold next_power_of_two. pose proof (Z.log2_up_nonneg x) as Hn.
  assert (Hup : (x ≤ 2 ^ Z.log2_up x)%Z).
  { destruct (Z.eq_dec x 1%Z) as [->|]; [done|]. apply (Z.log2_up_spec x). lia. }
  assert (Hle : (Z.log2_up x ≤ 63)%Z).
  { rewrite <-(Z.log2_up_pow2 63) by lia. apply Z.log2_up_le_mono, Hx. }
  assert (Hlt : (2 ^ Z.log2_up x < 2 ^ 64)%Z) by (apply Z.pow_lt_mono_r; lia).
  rewrite (proj2 (Z.ltb_lt _ _) Hlt). split_and!; [done|by exists (Z.log2_up x)|].
  intros k Hk Hxk. apply Z.pow_le_mono_r; [lia|]. rewrite <-(Z.log2_up_pow2 k) by done.
  by apply Z.log2_up_le_mono.
Qed.

(** Or-ing a field below a number shifted past it adds them. *)
Lemma lor_add_low a b n : (0 ≤ n → 0 ≤ b < 2 ^ n → Z.lor (a * 2 ^ n) b = a * 2 ^ n + b)%Z.
Proof.
  intros Hn Hb. rewrite <-Z.add_lor_land. assert (Z.land (a * 2 ^ n) b = 0)%Z as ->; [|lia].
  apply Z.bits_inj'. intros i Hi. rewrite Z.land_spec, Z.bits_0.
  destruct (Z.lt_ge_cases i n) as [Hlt|Hge].
  - by rewrite Z.mul_pow2_bits_low.
  - destruct (Z.eq_dec b 0%Z) as [->|Hb0]; [by rewrite Z.bits_0, andb_false_r|].
    rewrite (Z.bits_above_log2 b), andb_false_r; [done|lia|].
    apply Z.log2_lt_pow2; [lia|]. eapply Z.lt_le_trans; [apply Hb|]. apply Z.pow_le_mono_r; lia.
Qed.

(** ** Rust's [Result] *)

Inductive result (T E : Type) : Type :=
  | Ok (t : T)
  | Err (e : E).
Arguments Ok {_ _} _.
Arguments Err {_ _} _.

Definition is_ok {T E} (r : result T E) : bool :=
  match r with Ok _ => true | Err _ => false end.
(** The [?] of a unit result. *)
Notation "r ;? k" := (match r with Ok _ => k | Err e => Err e end)
  (at level 100, right associativity, only parsing) : accel_scope.

#[global] Instance result_ret {E} : MRet (λ T, result T E) := λ T t, Ok t.
#[global] Instance result_bind {E} : MBind (λ T, result T E) := λ T U f r,
  match r with Ok t => f t | Err e => Err e end.
(** [map_err] *)
Definition map_err {T E F} (f : E → F) (r : result T E) : result T F :=
  match r with Ok t => Ok t | Err e => Err (f e) end.

(** ** Generic list lemmas *)

Lemma bind_singleton {A B} (f : A → list B) x : [x] ≫= f = f x.
Proof. simpl. by rewrite app_nil_r. Qed.

Lemma bind_fmap_singleton {A B C} (f : A → B) (g : B → C) (h : B → list C) (l : list A) :
  (∀ x, x ∈ l → h (f x) = [g (f x)]) → (f <$> l) ≫= h = (λ x, g (f x)) <$> l.
Proof.
  induction l as [|x l IH]; intros Hh; [done|]. cbn.
  rewrite (Hh x) by (by left). cbn. f_equal.
  apply IH. intros y Hy. apply Hh. by right.
Qed.

Lemma fmap_bind {A B C} (f : B → C) (g : A → list B) (l : list A) : f <$> (l ≫= g) = l ≫= λ x, f <$> g x.
Proof. induction l as [|x l IH]; [done|]. by rewrite !bind_cons, fmap_app, IH. Qed.
Lemma bind_assoc {A B C} (f : A → list B) (g : B → list C) (l : list A) : (l ≫= f) ≫= g = l ≫= λ x, f x ≫= g.
Proof. induction l as [|x l IH]; [done|]. by rewrite !bind_cons, bind_app, IH. Qed.

(** *** Stores into a list, in order *)

Abbreviation writes T := (list (nat * T)).

Definition write_all {T} (ws : writes T) (b : list T) : list T := foldl (λ b w, <[w.1 := w.2]> b) b ws.

Lemma write_all_length {T} (ws : writes T) b : length (write_all ws b) = length b.
Proof.
  revert b. induction ws as [|w ws IH]; intros b; [done|]. cbn. unfold write_all in IH. by rewrite IH, length_insert.
Qed.

Lemma write_all_other {T} (ws : writes T) b p : p ∉ ws.*1 → write_all ws b !! p = b !! p.
Proof.
  revert b. induction ws as [|[q x] ws IH]; intros b Hp; [done|]. apply not_elem_of_cons in Hp as [Hq Hp]. cbn.
  unfold write_all in IH. rewrite IH by done. by rewrite list_lookup_insert_ne.
Qed.

Lemma write_all_at {T} (ws : writes T) b p x : NoDup ws.*1 → (p, x) ∈ ws → p < length b → write_all ws b !! p = Some x.
Proof.
  revert b. induction ws as [|[q y] ws IH]; intros b; [by intros _ ?%elem_of_nil|]. cbn.
  intros [Hq Hd]%NoDup_cons Hin Hp. apply elem_of_cons in Hin as [[= -> ->]|Hin].
  - pose proof (write_all_other ws (<[q := y]> b) q Hq) as H. unfold write_all in H. rewrite H.
    by rewrite list_lookup_insert_eq.
  - apply IH; [done|done|]. by rewrite length_insert.
Qed.

(** A list written from one end to the other. *)
Lemma write_all_seq {T} (vs : list T) b : length b = length vs →
  write_all (zip (seq 0 (length vs)) vs) b = vs.
Proof.
  intros Hl. apply list_eq. intros i. destruct (vs !! i) as [v|] eqn:Hv.
  - pose proof (lookup_lt_Some _ _ _ Hv). apply write_all_at; [|apply list_elem_of_lookup; exists i|lia].
    + rewrite fst_zip by (rewrite length_seq; lia). apply NoDup_seq.
    + apply lookup_zip_with_Some. exists i, v. by rewrite lookup_seq_lt.
  - apply lookup_ge_None in Hv. apply lookup_ge_None. rewrite write_all_length. lia.
Qed.

(** [out[i] = v], which panics out of range, and a loop of such stores that visits the
    places in order. *)
Definition store_at {T} (out : option (list T)) (i : nat) (v : option T) : option (list T) :=
  o ← out; x ← v; if i <? length o then Some (<[i := x]> o) else None.

Lemma store_loop {P T} (idx : P → nat) (value : P → option T) (f : P → T) ps out :
  (∀ p, p ∈ ps → value p = Some (f p)) → idx <$> ps = seq 0 (length out) →
  foldl (λ o p, store_at o (idx p) (value p)) (Some out) ps = Some (f <$> ps).
Proof.
  intros Hv Hi. assert (Hlt : ∀ p, p ∈ ps → idx p < length out).
  { intros p Hp. apply (list_elem_of_fmap_2 idx) in Hp. rewrite Hi in Hp. apply elem_of_seq in Hp. lia. }
  assert (Hall : ∀ qs o, qs ⊆ ps → length o = length out →
    foldl (λ o p, store_at o (idx p) (value p)) (Some o) qs = Some (write_all (zip (idx <$> qs) (f <$> qs)) o)).
  { induction qs as [|q qs IH]; intros o Hqs Ho; [done|]. cbn [foldl]. unfold store_at at 2. cbn [mbind option_bind].
    rewrite Hv by set_solver. cbn [mbind option_bind]. rewrite Ho, (proj2 (Nat.ltb_lt _ _)) by (apply Hlt; set_solver).
    rewrite IH by (rewrite ?length_insert; set_solver). done. }
  rewrite Hall by done. f_equal. rewrite Hi.
  assert (Hl : length out = length (f <$> ps)).
  { rewrite length_fmap, <-(length_fmap idx), Hi, length_seq. done. }
  rewrite Hl. by apply write_all_seq.
Qed.

(** The cells of a grid, row by row, are numbered in order. *)
Lemma seq_grid (m n : nat) : (i ← seq 0 m; (λ j, i * n + j) <$> seq 0 n) = seq 0 (m * n).
Proof.
  induction m as [|m IH]; [done|].
  rewrite seq_S, bind_app, IH, bind_singleton. cbn [Nat.add]. rewrite Nat.mul_succ_l, seq_app.
  f_equal. apply list_eq. intros j. rewrite list_lookup_fmap.
  destruct (decide (j < n)).
  - rewrite !lookup_seq_lt by lia. done.
  - rewrite !lookup_seq_ge by lia. done.
Qed.

Lemma string_app_assoc (a b c : string) : a +:+ (b +:+ c) = (a +:+ b) +:+ c.
Proof.
  induction a as [|x a IH]; [done|].
  change (String x (a +:+ (b +:+ c)) = String x ((a +:+ b) +:+ c)). by rewrite IH.
Qed.

(** ** Hints and tactics *)

Create HintDb accel discriminated.
#[export] Hint Resolve wrap_in_width : accel.

(** Case analysis on every [match], [if] and [let] in the goal. *)
Ltac split_cases :=
  repeat (case_match || case_decide || case_bool_decide); simplify_eq/=.

(** Decide a goal by the kernel's evaluator. *)
Ltac run := vm_compute; reflexivity.
