(* ===== verification/Actor.v ===== *)
(** * Actors as effectful state transformers

    The handler of an actor of [atomr_core] is a method
    [handle(&mut self, ctx, msg)]; it is modelled as a function from the
    state and the message to the new state and the effects it performs, in
    order: replies sent on oneshot channels, messages told to other actors,
    timers scheduled.  This file holds what all actors share: the
    state-and-effect monad handlers are written in, runs over a sequence of
    messages, invariants along runs, and the reply discipline. *)

From S2P Require Import Prelude.

(** ** The handler monad *)

Definition act (S E A : Type) : Type := S → A * S * list E.

#[global] Instance act_ret {S E} : MRet (act S E) := λ A a s, (a, s, []).
#[global] Instance act_bind {S E} : MBind (act S E) := λ A B k m s,
  let '(a, s1, e1) := m s in
  let '(b, s2, e2) := k a s1 in
  (b, s2, e1 ++ e2).

Definition get {S E} : act S E S := λ s, (s, s, []).
Definition put {S E} (s' : S) : act S E unit := λ _, (tt, s', []).
Definition modify {S E} (f : S → S) : act S E unit := λ s, (tt, f s, []).
Definition emit {S E} (e : E) : act S E unit := λ s, (tt, s, [e]).
Definition emits {S E} (es : list E) : act S E unit := λ s, (tt, s, es).
Definition skip {S E} : act S E unit := mret tt.

(** A handler of a part of the state. *)
Definition zoom {S T E A} (part : S → T) (set : T → S → S) (m : act T E A) : act S E A := λ s,
  let '(a, t, es) := m (part s) in (a, set t s, es).

(** The state and the effects a handler leaves behind. *)
Definition exec {S E A} (m : act S E A) (s : S) : S * list E :=
  let '(_, s', es) := m s in (s', es).

Ltac act_unfold :=
  unfold exec, mbind, act_bind, mret, act_ret, get, put, modify, emit, emits, skip in *;
  simpl in *.

(** *** Weakest preconditions *)

Definition awp {S E A} (m : act S E A) (Q : A → S → list E → Prop) (s : S) : Prop :=
  let '(a, s', es) := m s in Q a s' es.

Section awp.
Context {S E : Type}.

Lemma awp_exec {A} (m : act S E A) (Q : S → list E → Prop) s :
  awp m (λ _, Q) s → let '(s', es) := exec m s in Q s' es.
Proof. unfold awp, exec. by destruct (m s) as [[a s'] es]. Qed.

Lemma awp_exec_inv {A} (m : act S E A) (Q : S → list E → Prop) s :
  (let '(s', es) := exec m s in Q s' es) → awp m (λ _, Q) s.
Proof. unfold awp, exec. by destruct (m s) as [[a s'] es]. Qed.

Lemma awp_mono {A} (m : act S E A) (Q Q' : A → S → list E → Prop) s :
  (∀ a s' es, Q a s' es → Q' a s' es) → awp m Q s → awp m Q' s.
Proof. unfold awp. intros H. destruct (m s) as [[a s'] es]. apply H. Qed.

Lemma awp_bind {A B} (m : act S E A) (k : A → act S E B) Q s :
  awp m (λ a s1 e1, awp (k a) (λ b s2 e2, Q b s2 (e1 ++ e2)) s1) s → awp (m ≫= k) Q s.
Proof.
  unfold awp, mbind, act_bind. destruct (m s) as [[a s1] e1]. by destruct (k a s1) as [[b s2] e2].
Qed.

Lemma awp_ret {A} (a : A) (Q : A → S → list E → Prop) s : Q a s [] → awp (mret a) Q s.
Proof. done. Qed.
Lemma awp_zoom {T A} (part : S → T) (set : T → S → S) (m : act T E A) (Q : A → S → list E → Prop) s :
  awp m (λ a t es, Q a (set t s) es) (part s) → awp (zoom part set m) Q s.
Proof. unfold awp, zoom. by destruct (m (part s)) as [[a t] es]. Qed.
Lemma awp_skip (Q : unit → S → list E → Prop) s : Q () s [] → awp skip Q s.
Proof. done. Qed.
Lemma awp_get (Q : S → S → list E → Prop) s : Q s s [] → awp get Q s.
Proof. done. Qed.
Lemma awp_put s' (Q : unit → S → list E → Prop) s : Q () s' [] → awp (put s') Q s.
Proof. done. Qed.
Lemma awp_modify f (Q : unit → S → list E → Prop) s : Q () (f s) [] → awp (modify f) Q s.
Proof. done. Qed.
Lemma awp_emit e (Q : unit → S → list E → Prop) s : Q () s [e] → awp (emit e) Q s.
Proof. done. Qed.
Lemma awp_emits es (Q : unit → S → list E → Prop) s : Q () s es → awp (emits es) Q s.
Proof. done. Qed.
End awp.

Ltac awp_step :=
  lazymatch goal with
  | |- awp (mbind _ _) _ _ => apply awp_bind
  | |- awp (mret _) _ _ => apply awp_ret
  | |- awp skip _ _ => apply awp_skip
  | |- awp get _ _ => apply awp_get
  | |- awp (put _) _ _ => apply awp_put
  | |- awp (modify _) _ _ => apply awp_modify
  | |- awp (emit _) _ _ => apply awp_emit
  | |- awp (emits _) _ _ => apply awp_emits
  end; cbv beta iota.
Ltac awp_steps := repeat awp_step; rewrite ?app_nil_r; cbn [app].

(** ** Runs *)

Class Actor (S M E : Type) := handle : S → M → S * list E.

Section runs.
Context {S M E : Type} `{!Actor S M E}.

(** The actor's mailbox is processed one message at a time. *)
Fixpoint run_actor (s : S) (ms : list M) : S * list E :=
  match ms with
  | [] => (s, [])
  | m :: ms =>
    let '(s1, e1) := handle s m in
    let '(s2, e2) := run_actor s1 ms in
    (s2, e1 ++ e2)
  end.

Lemma run_actor_app s ms1 ms2 :
  run_actor s (ms1 ++ ms2) =
    let '(s1, e1) := run_actor s ms1 in
    let '(s2, e2) := run_actor s1 ms2 in (s2, e1 ++ e2).
Proof.
  revert s; induction ms1 as [|m ms1 IH]; intros s; simpl.
  - by destruct (run_actor s ms2).
  - destruct (handle s m) as [s1 e1]. rewrite IH.
    destruct (run_actor s1 ms1) as [s2 e2], (run_actor s2 ms2) as [s3 e3].
    by rewrite app_assoc.
Qed.

(** A state predicate every message preserves holds after every run. *)
Definition preserved (I : S → Prop) : Prop := ∀ s m, I s → I (handle s m).1.

Lemma run_preserved (I : S → Prop) s ms :
  preserved I → I s → I (run_actor s ms).1.
Proof.
  intros HI. revert s; induction ms as [|m ms IH]; intros s Hs; simpl; [done|].
  specialize (HI s m Hs). destruct (handle s m) as [s1 e1]; simpl in *.
  specialize (IH s1 HI). by destruct (run_actor s1 ms).
Qed.
End runs.

(** ** The reply discipline

    Every request carries the sender of a oneshot channel.  The discipline
    says where the senders go: a sender that arrives in a message is either
    used by an effect (a reply, or a message that hands it to another actor)
    or it is held in the actor's state; none is lost and none is used twice. *)

Class Replies (S M E C : Type) := {
  held : S → list C;
  arriving : M → list C;
  used : E → list C;
}.

Class ReplyLaw (S M E C : Type) `{!Actor S M E, !Replies S M E C} :=
  reply_conserved : ∀ (s : S) (m : M),
    held s ++ arriving m ≡ₚ ((handle s m).2 ≫= used) ++ held (handle s m).1.

Section replies.
Context {S M E C : Type} `{HL : ReplyLaw S M E C}.

Lemma run_replies (s : S) (ms : list M) :
  held s ++ (ms ≫= arriving) ≡ₚ
    ((run_actor s ms).2 ≫= used) ++ held (run_actor s ms).1.
Proof.
  revert s; induction ms as [|m ms IH]; intros s; simpl.
  - by rewrite app_nil_r.
  - pose proof (reply_conserved s m) as Hm.
    destruct (handle s m) as [s1 e1]; simpl in *. specialize (IH s1).
    destruct (run_actor s1 ms) as [s2 e2]; simpl in *.
    rewrite app_assoc, Hm, <-app_assoc, IH, bind_app, app_assoc. done.
Qed.

(** With distinct channels, no channel is used twice and a used channel is
    no longer held. *)
Lemma run_replies_once (s : S) (ms : list M) :
  NoDup (held s ++ (ms ≫= arriving)) →
  NoDup ((run_actor s ms).2 ≫= used) ∧
  ∀ c, c ∈ (run_actor s ms).2 ≫= used → c ∉ held (run_actor s ms).1.
Proof.
  rewrite (run_replies s ms). intros (?&Hd&?)%NoDup_app. split; [done|].
  intros c Hc Hh. by apply (Hd c).
Qed.
End replies.

(** ** Handlers that can panic

    A panic ends the handler; what it did before stays done.  The error is the
    panic message, which is what the supervisor sees. *)

Definition pact (S E A : Type) : Type := S → result A string * S * list E.

#[global] Instance pact_ret {S E} : MRet (pact S E) := λ A a s, (Ok a, s, []).
#[global] Instance pact_bind {S E} : MBind (pact S E) := λ A B k m s,
  match m s with
  | (Ok a, s1, e1) => let '(b, s2, e2) := k a s1 in (b, s2, e1 ++ e2)
  | (Err p, s1, e1) => (Err p, s1, e1)
  end.

Definition panic {S E A} (msg : string) : pact S E A := λ s, (Err msg, s, []).
(** An [act] inside a handler that can panic. *)
Definition calm {S E A} (m : act S E A) : pact S E A := λ s,
  let '(a, s', es) := m s in (Ok a, s', es).
(** [r.unwrap_or_else(|e| panic!(...))] *)
Definition or_panic {S E A} (r : result A string) (msg : string → string) : pact S E A :=
  match r with Ok a => mret a | Err e => panic (msg e) end.

(** Weakest preconditions of such handlers. *)
Definition pwp {S E A} (m : pact S E A) (Q : result A string → S → list E → Prop) (s : S) : Prop :=
  let '(r, s', es) := m s in Q r s' es.

Section pwp.
Context {S E : Type}.

Lemma pwp_run {A} (m : pact S E A) Q s r s' es : pwp m Q s → m s = (r, s', es) → Q r s' es.
Proof. unfold pwp. intros H He. by rewrite He in H. Qed.

Lemma pwp_ret {A} (a : A) Q s : Q (Ok a) s [] → pwp (mret a : pact S E A) Q s.
Proof. done. Qed.

Lemma pwp_panic {A} p Q s : Q (Err p) s [] → pwp (panic p : pact S E A) Q s.
Proof. done. Qed.

Lemma pwp_or_panic {A} (r : result A string) f Q s :
  match r with Ok a => Q (Ok a) s [] | Err e => Q (Err (f e)) s [] end →
  pwp (or_panic r f : pact S E A) Q s.
Proof. by destruct r. Qed.

Lemma pwp_bind {A B} (m : pact S E A) (k : A → pact S E B) Q s :
  pwp m (λ r s1 e1,
    match r with
    | Ok a => pwp (k a) (λ r2 s2 e2, Q r2 s2 (e1 ++ e2)) s1
    | Err p => Q (Err p) s1 e1
    end) s →
  pwp (m ≫= k) Q s.
Proof.
  unfold pwp, mbind, pact_bind. destruct (m s) as [[[a|p] s1] e1]; [|done].
  by destruct (k a s1) as [[r2 s2] e2].
Qed.

Lemma pwp_emit e (Q : result unit string → S → list E → Prop) s :
  Q (Ok ()) s [e] → pwp (calm (emit e)) Q s.
Proof. done. Qed.

Lemma pwp_modify f (Q : result unit string → S → list E → Prop) s :
  Q (Ok ()) (f s) [] → pwp (calm (modify f)) Q s.
Proof. done. Qed.

Lemma pwp_put s' (Q : result unit string → S → list E → Prop) s :
  Q (Ok ()) s' [] → pwp (calm (put s')) Q s.
Proof. done. Qed.

Lemma pwp_get (Q : result S string → S → list E → Prop) s :
  Q (Ok s) s [] → pwp (calm get) Q s.
Proof. done. Qed.

Lemma pwp_mono {A} (m : pact S E A) (Q Q' : result A string → S → list E → Prop) s :
  (∀ r s' es, Q r s' es → Q' r s' es) → pwp m Q s → pwp m Q' s.
Proof. unfold pwp. intros H. destruct (m s) as [[r s'] es]. apply H. Qed.
End pwp.

Ltac pwp_step :=
  lazymatch goal with
  | |- pwp (mbind _ _) _ _ => apply pwp_bind
  | |- pwp (mret _) _ _ => apply pwp_ret
  | |- pwp (calm (emit _)) _ _ => apply pwp_emit
  | |- pwp (calm (modify _)) _ _ => apply pwp_modify
  | |- pwp (calm (put _)) _ _ => apply pwp_put
  | |- pwp (calm get) _ _ => apply pwp_get
  | |- pwp (panic _) _ _ => apply pwp_panic
  | |- pwp (or_panic ?r _) _ _ => apply pwp_or_panic; let E := fresh "E" in destruct r eqn:E
  end; cbv beta iota.

Ltac pact_unfold :=
  unfold mbind, pact_bind, act_bind, mret, pact_ret, act_ret, calm, panic, or_panic,
    get, put, modify, emit, emits, skip in *; simpl in *.
