(* ===== verification/Text.v ===== *)
(** * Text and byte encodings

    Lemmas the components share about the texts and byte strings that the code
    builds as names and keys: decimal and hexadecimal numbers, little-endian
    integers, and self-delimiting codes, whose concatenations can be read back
    field by field. *)

From stdpp Require Import pretty.
From S2P Require Import Prelude.

(** ** Decimal numbers in names *)

Definition is_digit (c : ascii) : bool := let n := nat_of_ascii c in (48 <=? n) && (n <=? 57).
Fixpoint all_digits (s : string) : bool :=
  match s with EmptyString => true | String c s => is_digit c && all_digits s end.
Definition no_digit_head (s : string) : bool :=
  match s with EmptyString => true | String c _ => negb (is_digit c) end.

Lemma digits_app_inj a b s t :
  all_digits a → all_digits b → no_digit_head s → no_digit_head t → a +:+ s = b +:+ t → a = b ∧ s = t.
Proof.
  revert b. induction a as [|c a IH]; intros [|d b] Ha Hb Hs Ht He.
  - done.
  - change (s = String d (b +:+ t)) in He. subst s. simpl in Hs, Hb. by destruct (is_digit d).
  - change (String c (a +:+ s) = t) in He. subst t. simpl in Ht, Ha. by destruct (is_digit c).
  - change (String c (a +:+ s) = String d (b +:+ t)) in He. injection He as -> He.
    simpl in Ha, Hb. apply andb_prop_elim in Ha as [_ Ha]. apply andb_prop_elim in Hb as [_ Hb].
    destruct (IH b Ha Hb Hs Ht He) as [-> ->]. done.
Qed.

Lemma pretty_N_char_digit x : is_digit (pretty_N_char x).
Proof. unfold pretty_N_char. by repeat case_match. Qed.

Lemma pretty_N_go_digits x s : all_digits s → all_digits (pretty_N_go x s).
Proof.
  revert s. induction (N.lt_wf_0 x) as [x _ IH]; intros s Hs.
  destruct (decide (x = 0)%N) as [->|Hx]; [by rewrite pretty_N_go_0|].
  rewrite pretty_N_go_step by lia. apply IH; [by apply N.div_lt; lia|]. simpl.
  apply andb_prop_intro. split; [apply pretty_N_char_digit|done].
Qed.

Lemma pretty_Z_digits z : (0 ≤ z)%Z → all_digits (pretty z).
Proof.
  intros Hz. destruct z as [|p|p]; [done| |lia]. change (all_digits (pretty (Npos p))).
  unfold pretty, pretty_N. destruct (decide _); [done|]. by apply pretty_N_go_digits.
Qed.

Lemma pretty_app_inj x y s t :
  (0 ≤ x)%Z → (0 ≤ y)%Z → no_digit_head s → no_digit_head t →
  pretty x +:+ s = pretty y +:+ t → x = y ∧ s = t.
Proof.
  intros Hx Hy Hs Ht He. apply digits_app_inj in He as [He ->]; auto using pretty_Z_digits.
  split; [by apply (inj pretty)|done].
Qed.

(** ** Concatenation *)

Lemma string_app_cancel p s t : p +:+ s = p +:+ t → s = t.
Proof. induction p as [|c p IH]; [done|]. intros He. apply IH. by injection He. Qed.

#[global] Instance string_app_inj p : Inj (=) (=) (String.append p).
Proof. intros s t. apply string_app_cancel. Qed.

Lemma string_length_app a b : String.length (a +:+ b) = String.length a + String.length b.
Proof. induction a as [|c a IH]; [done|]. exact (f_equal S IH). Qed.

(** A suffix of known length can be cut off. *)
Lemma string_app_inj_l a b s t :
  String.length a = String.length b → a +:+ s = b +:+ t → a = b ∧ s = t.
Proof.
  revert b. induction a as [|c a IH]; intros [|d b] Hl He; try discriminate; [done|].
  injection Hl as Hl. injection He as -> He. by destruct (IH b Hl He) as [-> ->].
Qed.

(** ** Hexadecimal numbers of fixed width: [{:016x}] *)

Definition hex_digit (x : Z) : ascii :=
  ascii_of_N (Z.to_N (if (x <? 10)%Z then 48 + x else 87 + x)).

Fixpoint hex (w : nat) (x : Z) : string :=
  match w with
  | 0 => ""
  | S w => hex w (x / 16) +:+ String (hex_digit (x mod 16)) ""
  end.

Lemma hex_length w x : String.length (hex w x) = w.
Proof. revert x. induction w as [|w IH]; intros x; [done|]. change (String.length (hex w (x / 16) +:+ String (hex_digit (x mod 16)) "") = S w). rewrite string_length_app, IH. cbn. lia. Qed.

Lemma hex_digit_inj x y : (0 ≤ x < 16)%Z → (0 ≤ y < 16)%Z → hex_digit x = hex_digit y → x = y.
Proof.
  intros Hx Hy He%(f_equal N_of_ascii). unfold hex_digit in He.
  rewrite !N_ascii_embedding in He; [|destruct (Z.ltb_spec y 10); lia|destruct (Z.ltb_spec x 10); lia].
  destruct (Z.ltb_spec x 10), (Z.ltb_spec y 10); lia.
Qed.

Lemma hex_inj w x y :
  (0 ≤ x < 16 ^ Z.of_nat w)%Z → (0 ≤ y < 16 ^ Z.of_nat w)%Z → hex w x = hex w y → x = y.
Proof.
  revert x y. induction w as [|w IH]; intros x y Hx Hy He; [simpl in *; lia|].
  cbn [hex] in He. apply string_app_inj_l in He as [He Hd]; [|by rewrite !hex_length].
  rewrite Nat2Z.inj_succ, Z.pow_succ_r in Hx, Hy by lia.
  injection Hd as Hd%hex_digit_inj; try (apply Z.mod_pos_bound; lia).
  apply IH in He; [|split; [apply Z.div_pos; lia|apply Z.div_lt_upper_bound; lia]..].
  rewrite (Z.div_mod x 16), (Z.div_mod y 16) by lia. by rewrite He, Hd.
Qed.

Lemma hex_app_inj w x y s t :
  (0 ≤ x < 16 ^ Z.of_nat w)%Z → (0 ≤ y < 16 ^ Z.of_nat w)%Z →
  hex w x +:+ s = hex w y +:+ t → x = y ∧ s = t.
Proof.
  intros Hx Hy He. apply string_app_inj_l in He as [He ->]; [|by rewrite !hex_length].
  split; [by eapply hex_inj|done].
Qed.

(** ** Bytes *)

(** [str::as_bytes]. *)
Fixpoint as_bytes (s : string) : list Z :=
  match s with EmptyString => [] | String c s => Z.of_N (N_of_ascii c) :: as_bytes s end.

#[global] Instance as_bytes_inj : Inj (=) (=) as_bytes.
Proof.
  intros s. induction s as [|c s IH]; intros [|d t] He; try discriminate; [done|].
  injection He as Hc%N2Z.inj Hs. f_equal; [|auto].
  by rewrite <-(ascii_N_embedding c), <-(ascii_N_embedding d), Hc.
Qed.

Lemma as_bytes_app s t : as_bytes (s +:+ t) = as_bytes s ++ as_bytes t.
Proof. induction s as [|c s IH]; [done|]. cbn. by rewrite <-IH. Qed.

(** [to_ne_bytes] on the little-endian targets of CUDA. *)
Fixpoint le_bytes (n : nat) (x : Z) : list Z :=
  match n with 0 => [] | S n => (x mod 256)%Z :: le_bytes n (x / 256) end.

Lemma le_bytes_length n x : length (le_bytes n x) = n.
Proof. revert x. induction n as [|n IH]; intros x; [done|]. cbn. by rewrite IH. Qed.

Lemma le_bytes_inj n x y :
  (0 ≤ x < 256 ^ Z.of_nat n)%Z → (0 ≤ y < 256 ^ Z.of_nat n)%Z → le_bytes n x = le_bytes n y → x = y.
Proof.
  revert x y. induction n as [|n IH]; intros x y Hx Hy He; [simpl in *; lia|].
  injection He as Hm He. rewrite Nat2Z.inj_succ, Z.pow_succ_r in Hx, Hy by lia.
  apply IH in He; [|split; [apply Z.div_pos; lia|apply Z.div_lt_upper_bound; lia]..].
  rewrite (Z.div_mod x 256), (Z.div_mod y 256) by lia. by rewrite He, Hm.
Qed.

(** [from_le_bytes] *)
Definition from_le (l : list Z) : Z := foldr (λ b x, b + 256 * x)%Z 0%Z l.

Lemma from_le_bytes n x : (0 ≤ x < 256 ^ Z.of_nat n)%Z → from_le (le_bytes n x) = x.
Proof.
  revert x. induction n as [|n IH]; intros x Hx; [simpl in *; lia|].
  rewrite Nat2Z.inj_succ, Z.pow_succ_r in Hx by lia. cbn. change (foldr _ _ _) with (from_le (le_bytes n (x / 256))).
  rewrite IH; [|split; [apply Z.div_pos; lia|apply Z.div_lt_upper_bound; lia]].
  rewrite Z.add_comm, <-Z.div_mod by lia. done.
Qed.

(** ** Self-delimiting codes

    [Code P f] says that the values in [P] can be read back from what follows
    a prefix [f x] of a byte string. *)

Class Code {A} (P : A → Prop) (f : A → list Z) : Prop :=
  code_inj : ∀ x y s t, P x → P y → f x ++ s = f y ++ t → x = y ∧ s = t.
#[global] Hint Mode Code - - ! : typeclass_instances.

#[global] Instance le_bytes_code n : Code (in_width (8 * Z.of_nat n)) (le_bytes n).
Proof.
  assert (Hp : (256 ^ Z.of_nat n = 2 ^ (8 * Z.of_nat n))%Z).
  { rewrite Z.pow_mul_r by lia. done. }
  intros x y s t Hx Hy He. unfold in_width in *. rewrite <-Hp in Hx, Hy.
  apply app_inj_1 in He as [He ->]; [|by rewrite !le_bytes_length].
  split; [by eapply le_bytes_inj|done].
Qed.

(** A code after an injective change of its argument. *)
Lemma code_compose {A B} (P : A → Prop) (Q : B → Prop) (g : A → B) (f : B → list Z) :
  Code Q f → (∀ x, P x → Q (g x)) → (∀ x y, P x → P y → g x = g y → x = y) → Code P (λ x, f (g x)).
Proof.
  intros Hf HQ Hg x y s t Hx Hy He. apply Hf in He as [He ->]; auto.
Qed.

(** Signed integers, in two's complement. *)
Definition signed (w x : Z) : Prop := (- 2 ^ (w - 1) ≤ x < 2 ^ (w - 1))%Z.
Definition int_bytes (n : nat) (x : Z) : list Z := le_bytes n (wrap (8 * Z.of_nat n) x).

Lemma wrap_signed_inj w x y : signed w x → signed w y → wrap w x = wrap w y → x = y.
Proof.
  unfold signed, wrap. intros Hx Hy He. destruct (Z.leb_spec w 0) as [Hw|Hw].
  { rewrite (Z.pow_neg_r 2 (w - 1)) in * by lia. lia. }
  assert (Hp : (2 ^ w = 2 * 2 ^ (w - 1))%Z) by (rewrite <-Z.pow_succ_r by lia; f_equal; lia).
  pose proof (Z.div_mod x (2 ^ w) ltac:(lia)). pose proof (Z.div_mod y (2 ^ w) ltac:(lia)).
  rewrite He in *. assert (x / 2 ^ w = y / 2 ^ w)%Z; [|lia].
  pose proof (Z.mod_pos_bound y (2 ^ w) ltac:(lia)). nia.
Qed.

#[global] Instance int_code n : Code (signed (8 * Z.of_nat n)) (int_bytes n).
Proof.
  apply (code_compose _ (in_width (8 * Z.of_nat n)) (wrap (8 * Z.of_nat n)) (le_bytes n)); [apply _| |].
  - intros x _. apply wrap_in_width. lia.
  - intros x y. apply wrap_signed_inj.
Qed.

(** [i64] multiplication and addition, with the wrap-around of the release profile. *)
Definition i64_wrap (x : Z) : Z := (wrap 64 (x + 2 ^ 63) - 2 ^ 63)%Z.
Definition i64_mul (x y : Z) : Z := i64_wrap (x * y).
Definition i64_add (x y : Z) : Z := i64_wrap (x + y).

Lemma i64_wrap_signed x : signed 64 (i64_wrap x).
Proof. unfold signed, i64_wrap, wrap. pose proof (Z.mod_pos_bound (x + 2 ^ 63) (2 ^ 64)). lia. Qed.
Lemma i64_wrap_small x : signed 64 x → i64_wrap x = x.
Proof. unfold signed, i64_wrap, wrap. intros H. rewrite Z.mod_small; lia. Qed.
Lemma i64_mul_exact x y : signed 64 (x * y) → i64_mul x y = (x * y)%Z.
Proof. apply i64_wrap_small. Qed.

(** Read one field of two equal streams. *)
Tactic Notation "read" constr(code) "in" hyp(H) "as" simple_intropattern(p) :=
  apply code in H as [p H]; [|done..].

(** A code alone is injective. *)
Lemma code_inj_nil {A} {P : A → Prop} (f : A → list Z) x y : Code P f → P x → P y → f x = f y → x = y.
Proof.
  intros Hf Hx Hy He. apply (Hf x y [] []); [done..|]. by rewrite He.
Qed.

(** [Hash] of a slice: its length, then its elements. *)
Definition seq_bytes {A} (f : A → list Z) (l : list A) : list Z :=
  le_bytes 8 (Z.of_nat (length l)) ++ (l ≫= f).

#[global] Instance seq_code {A} (P : A → Prop) (f : A → list Z) :
  Code P f → Code (λ l, in_width 64 (Z.of_nat (length l)) ∧ Forall P l) (seq_bytes f).
Proof.
  intros Hf l1 l2 s t [Hn1 H1] [Hn2 H2] He. unfold seq_bytes in He. rewrite <-!app_assoc in He.
  apply (le_bytes_code 8) in He as [Hl%Nat2Z.inj He]; [|done..]. clear Hn1 Hn2. revert l2 Hl H2 He.
  induction H1 as [|x l1 Hx H1 IH]; intros [|y l2] Hl H2 He; try done.
  apply Forall_cons in H2 as [Hy H2]. rewrite !bind_cons, <-!app_assoc in He. injection Hl as Hl.
  apply Hf in He as [-> He]; [|done..]. by destruct (IH l2 Hl H2 He) as [-> ->].
Qed.

(** The derived [Hash] of an [Option]: its discriminant, then its value. *)
Definition option_bytes {A} (f : A → list Z) (o : option A) : list Z :=
  match o with None => le_bytes 8 0 | Some x => le_bytes 8 1 ++ f x end.

#[global] Instance option_code {A} (P : A → Prop) (f : A → list Z) :
  Code P f → Code (λ o, match o with None => True | Some x => P x end) (option_bytes f).
Proof.
  intros Hf [x|] [y|] s t Hx Hy He; [|discriminate He..|].
  - unfold option_bytes in He. rewrite <-!app_assoc in He. apply app_inv_head in He. by apply Hf in He as [-> ->].
  - by apply app_inv_head in He.
Qed.

(** No value's code is a prefix of another's. *)
Definition prefix_free {A} `{EqDecision A} (f : A → list Z) (l : list A) : bool :=
  forallb (λ x, forallb (λ y, bool_decide (f x `prefix_of` f y → x = y)) l) l.

Lemma prefix_free_code {A} `{EqDecision A} (f : A → list Z) (l : list A) :
  (∀ x, x ∈ l) → prefix_free f l = true → Code (λ _, True) f.
Proof.
  intros Hl Hp x y s t _ _ He.
  assert (Hxy : ∀ a b, f a `prefix_of` f b → a = b).
  { intros a b. unfold prefix_free in Hp. rewrite forallb_forall in Hp.
    specialize (Hp a (proj1 (list_elem_of_In _ _) (Hl a))). simpl in Hp. rewrite forallb_forall in Hp.
    specialize (Hp b (proj1 (list_elem_of_In _ _) (Hl b))). by apply bool_decide_eq_true_1 in Hp. }
  assert (x = y) as ->; [|split; [done|by apply app_inv_head in He]].
  destruct (app_eq_inv (f x) s (f y) t He) as [[k [Hk _]]|[k [Hk _]]].
  - symmetry. apply Hxy. by exists k.
  - apply Hxy. by exists k.
Qed.

(** ** C strings *)

(** [CString::new]: the place of the first zero byte, if there is one. *)
Fixpoint nul_position (s : string) : option Z :=
  match s with
  | EmptyString => None
  | String c s => if Nat.eqb (nat_of_ascii c) 0 then Some 0%Z else Z.succ <$> nul_position s
  end.

(** ** [{:?}] of a string *)

Definition double_quote : string := String (ascii_of_nat 34) EmptyString.
(** The escapes of the ASCII range; the bytes of other characters stay as they are. *)
Definition debug_char (c : ascii) : string :=
  let n := nat_of_ascii c in
  if n =? 34 then "\" +:+ double_quote
  else if n =? 92 then "\\"
  else if n =? 0 then "\0"
  else if n =? 9 then "\t"
  else if n =? 10 then "\n"
  else if n =? 13 then "\r"
  else if (n <? 32) || (n =? 127) then "\u{" +:+ hex (if n <? 16 then 1 else 2) (Z.of_nat n) +:+ "}"
  else String c EmptyString.
Fixpoint debug_chars (s : string) : string :=
  match s with EmptyString => "" | String c s => debug_char c +:+ debug_chars s end.
Definition debug_str (s : string) : string := double_quote +:+ debug_chars s +:+ double_quote.

(** [to_ascii_uppercase] and [to_ascii_lowercase] *)
Definition ascii_up (c : ascii) : ascii :=
  let n := nat_of_ascii c in if (97 <=? n) && (n <=? 122) then ascii_of_nat (n - 32) else c.
Definition ascii_down (c : ascii) : ascii :=
  let n := nat_of_ascii c in if (65 <=? n) && (n <=? 90) then ascii_of_nat (n + 32) else c.
Fixpoint to_ascii_uppercase (s : string) : string :=
  match s with EmptyString => "" | String c s => String (ascii_up c) (to_ascii_uppercase s) end.
Fixpoint to_ascii_lowercase (s : string) : string :=
  match s with EmptyString => "" | String c s => String (ascii_down c) (to_ascii_lowercase s) end.
