(* ===== verification/Lru.v ===== *)
(** * The interface of a bounded least-recently-used map

    The plan caches of the program ([cutlass/src/plan_cache.rs], and in
    [atomr-accel-cuda/src/kernel] the caches of [fft.rs],
    [blas_lt/heuristic.rs] and [tensor/plan_cache.rs]) are [LruCache]s of the
    crate [lru].  [LruOps] has its operations, [LruLaws] its documented
    behaviour as a list of entries, most recent first; [list_lru] is an
    instance.  The clients are proved against the interface. *)

From S2P Require Import Prelude.

Section list.
Context {K V : Type} `{EqDecision K}.

Definition entry_remove (k : K) (l : list (K * V)) : list (K * V) := filter (λ kv, kv.1 ≠ k) l.
Definition entry_find (k : K) (l : list (K * V)) : option V := snd <$> find (λ kv, bool_decide (kv.1 = k)) l.

(** [LruCache::put] with capacity [n]: an existing key is updated, a new one
    evicts the last entry of a full map. *)
Definition entry_put (n : nat) (k : K) (v : V) (l : list (K * V)) : list (K * V) := take n ((k, v) :: entry_remove k l).

Lemma entry_remove_cons k kv l :
  entry_remove k (kv :: l) = if decide (kv.1 = k) then entry_remove k l else kv :: entry_remove k l.
Proof.
  unfold entry_remove. rewrite filter_cons. destruct (decide (kv.1 = k)) as [->|].
  - by rewrite decide_False by (by intros []).
  - by rewrite decide_True.
Qed.

Lemma entry_remove_keys k l : (entry_remove k l).*1 = filter (λ x, x ≠ k) l.*1.
Proof.
  induction l as [|[x v] l IH]; [done|]. rewrite entry_remove_cons, fmap_cons, filter_cons. simpl.
  destruct (decide (x = k)) as [->|]; [by rewrite decide_False by (by intros [])|].
  by rewrite decide_True, fmap_cons, IH.
Qed.

Lemma entry_find_Some k v l : NoDup l.*1 → entry_find k l = Some v ↔ (k, v) ∈ l.
Proof.
  unfold entry_find. induction l as [|[x w] l IH]; simpl; [by split; [|intros ?%elem_of_nil]|].
  intros [Hx Hd]%NoDup_cons. rewrite elem_of_cons. case_bool_decide as Hk; simpl in *.
  - subst. split; [intros [= ->]; by left|]. intros [[= ->]|Hin]; [done|].
    destruct Hx. by apply (list_elem_of_fmap_2 fst) in Hin.
  - rewrite IH by done. split; [by right|]. by intros [[= -> ->]|].
Qed.

Lemma entry_find_None k l : entry_find k l = None ↔ k ∉ l.*1.
Proof.
  unfold entry_find. induction l as [|[x w] l IH]; simpl; [split; [set_solver|done]|].
  rewrite not_elem_of_cons. case_bool_decide as Hk; simpl in *; [subst; naive_solver|].
  rewrite IH. naive_solver.
Qed.

Lemma entry_remove_notin k l : k ∉ l.*1 → entry_remove k l = l.
Proof.
  induction l as [|[x v] l IH]; [done|]. rewrite fmap_cons, not_elem_of_cons, entry_remove_cons. simpl.
  intros [Hx Hl]. rewrite decide_False by congruence. f_equal. by apply IH.
Qed.
End list.

Class LruOps (K V C : Type) := {
  lru_new : nat → C;
  lru_get : K → C → option V * C;
  lru_put : K → V → C → C;
  lru_clear : C → C;
  lru_len : C → nat;
  (** the entries, most recently used first, and the capacity *)
  lru_entries : C → list (K * V);
  lru_cap : C → nat;
}.
#[global] Hint Mode LruOps - - ! : typeclass_instances.

Class LruLaws (K V C : Type) `{EqDecision K} `{!LruOps K V C} : Prop := {
  lru_entries_new n : lru_entries (lru_new n : C) = [] ∧ lru_cap (lru_new n : C) = n;
  lru_get_hit (c : C) k v : entry_find k (lru_entries c) = Some v →
    (lru_get k c).1 = Some v ∧ lru_entries (lru_get k c).2 = (k, v) :: entry_remove k (lru_entries c) ∧
    lru_cap (lru_get k c).2 = lru_cap c;
  lru_get_miss (c : C) k : entry_find k (lru_entries c) = None → lru_get k c = (None, c);
  lru_put_entries (c : C) k v :
    lru_entries (lru_put k v c) = entry_put (lru_cap c) k v (lru_entries c) ∧ lru_cap (lru_put k v c) = lru_cap c;
  lru_clear_entries (c : C) : lru_entries (lru_clear c) = [] ∧ lru_cap (lru_clear c) = lru_cap c;
  lru_len_entries (c : C) : lru_len c = length (lru_entries c);
}.

Section instance.
Context {K V : Type} `{EqDecision K}.

Record ListLru := { entries : list (K * V); cap : nat }.

#[export] Instance list_lru : LruOps K V ListLru := {|
  lru_new n := {| entries := []; cap := n |};
  lru_get k c :=
    match entry_find k (entries c) with
    | Some v => (Some v, {| entries := (k, v) :: entry_remove k (entries c); cap := cap c |})
    | None => (None, c)
    end;
  lru_put k v c := {| entries := entry_put (cap c) k v (entries c); cap := cap c |};
  lru_clear c := {| entries := []; cap := cap c |};
  lru_len c := length (entries c);
  lru_entries := entries;
  lru_cap := cap;
|}.

#[export] Instance list_lru_laws : LruLaws K V ListLru.
Proof. split; simpl; try done; intros c k; [intros v Hf|intros Hf]; by rewrite Hf. Qed.
End instance.
Arguments ListLru : clear implicits.

(** ** What a client can rely on *)

Section client.
Context {K V C : Type} `{LruLaws K V C}.

(** No key twice, and at most as many entries as the capacity. *)
Definition lru_wf (c : C) : Prop := NoDup (lru_entries c).*1 ∧ length (lru_entries c) ≤ lru_cap c.

Lemma lru_new_wf n : lru_wf (lru_new n).
Proof. unfold lru_wf. destruct (lru_entries_new (C := C) n) as [-> ->]. split; [constructor|simpl; lia]. Qed.

Lemma entry_remove_nodup (k : K) (l : list (K * V)) : NoDup l.*1 → NoDup (k :: (entry_remove k l).*1).
Proof.
  intros Hd. rewrite entry_remove_keys. constructor; [|by apply NoDup_filter].
  by intros [Hk _]%list_elem_of_filter.
Qed.

Lemma entry_remove_length (k : K) (v : V) (l : list (K * V)) :
  NoDup l.*1 → entry_find k l = Some v → length l = S (length (entry_remove k l)).
Proof.
  induction l as [|[x w] l IH]; [done|]. rewrite fmap_cons, entry_remove_cons. intros [Hx Hd]%NoDup_cons.
  unfold entry_find. simpl in *. case_bool_decide as Hk; simpl.
  - subst. by rewrite decide_True, entry_remove_notin by done.
  - intros Hf. rewrite decide_False by done. simpl. f_equal. by apply IH.
Qed.

Lemma lru_get_wf k c : lru_wf c → lru_wf (lru_get k c).2.
Proof.
  intros [Hd Hl]. destruct (entry_find k (lru_entries c)) as [v|] eqn:Hf.
  - unfold lru_wf. destruct (lru_get_hit c k v Hf) as (_ & -> & ->). split.
    + by apply entry_remove_nodup.
    + simpl. by rewrite <-(entry_remove_length k v).
  - by rewrite lru_get_miss.
Qed.

Lemma lru_put_wf k v c : lru_wf c → lru_wf (lru_put k v c).
Proof.
  intros [Hd Hl]. unfold lru_wf. destruct (lru_put_entries c k v) as [-> ->]. unfold entry_put. split.
  - rewrite fmap_take. eapply sublist_NoDup; [by apply entry_remove_nodup|]. apply sublist_take.
  - rewrite length_take. lia.
Qed.

(** Looking a key up does not change which keys answer what. *)
Lemma lru_get_find k k' c :
  lru_wf c → entry_find k' (lru_entries (lru_get k c).2) = entry_find k' (lru_entries c).
Proof.
  intros Hwf. pose proof (lru_get_wf k c Hwf) as [Hd' _]. destruct Hwf as [Hd _].
  destruct (entry_find k (lru_entries c)) as [v|] eqn:Hf; [|by rewrite lru_get_miss].
  destruct (lru_get_hit c k v Hf) as (_ & He & _). rewrite He in *.
  apply option_eq. intros w. rewrite !entry_find_Some by done.
  apply entry_find_Some in Hf; [|done]. rewrite elem_of_cons. unfold entry_remove. rewrite list_elem_of_filter. simpl.
  split; [by intros [[= -> ->]|[_ ?]]|]. intros Hin. destruct (decide (k' = k)) as [->|]; [left|by right].
  apply (entry_find_Some k) in Hin, Hf; [|done..]. congruence.
Qed.

(** A lookup only moves an entry. *)
Lemma entry_find_perm (k : K) (v : V) (l : list (K * V)) :
  NoDup l.*1 → entry_find k l = Some v → l ≡ₚ (k, v) :: entry_remove k l.
Proof.
  induction l as [|[x w] l IH]; [done|]. rewrite fmap_cons, entry_remove_cons. intros [Hx Hd]%NoDup_cons.
  unfold entry_find. simpl in *. case_bool_decide as Hk; simpl.
  - intros [= ->]. subst. by rewrite decide_True, entry_remove_notin by done.
  - intros Hf. rewrite decide_False by done. rewrite (IH Hd Hf) at 1. apply Permutation_swap.
Qed.

Lemma lru_get_perm k c : lru_wf c → lru_entries (lru_get k c).2 ≡ₚ lru_entries c.
Proof.
  intros [Hd _]. destruct (entry_find k (lru_entries c)) as [v|] eqn:Hf; [|by rewrite lru_get_miss].
  destruct (lru_get_hit c k v Hf) as (_ & -> & _). symmetry. by apply entry_find_perm.
Qed.

(** While there is room, an insertion forgets nothing. *)
Lemma lru_put_find k v k' c :
  lru_wf c → entry_find k (lru_entries c) = None → length (lru_entries c) < lru_cap c →
  entry_find k' (lru_entries (lru_put k v c)) = if decide (k' = k) then Some v else entry_find k' (lru_entries c).
Proof.
  intros Hwf Hk Hl. destruct (lru_put_entries c k v) as [-> _]. unfold entry_put.
  rewrite entry_remove_notin by (by apply entry_find_None). rewrite take_ge by (simpl; lia).
  unfold entry_find. simpl. case_bool_decide; case_decide; naive_solver.
Qed.
End client.

(** ** Computing each value once

    The pattern of the plan caches: look the key up, and on a miss compute the
    value and store it. *)

Section memo.
Context {K V C M : Type} `{LruLaws K V C} (key : M → K) (val : M → V).

(** The cache after a request, and whether the value was computed for it. *)
Definition memo (m : M) (c : C) : bool * C :=
  match lru_get (key m) c with
  | (Some _, c) => (false, c)
  | (None, c) => (true, lru_put (key m) (val m) c)
  end.

Fixpoint memo_run (c : C) (ms : list M) : list M * C :=
  match ms with
  | [] => ([], c)
  | m :: ms =>
    let '(b, c) := memo m c in
    let '(l, c) := memo_run c ms in (if b then m :: l else l, c)
  end.

(** The first request of every key not in [seen]. *)
Fixpoint firsts (seen : list K) (ms : list M) : list M :=
  match ms with
  | [] => []
  | m :: ms => if decide (key m ∈ seen) then firsts seen ms else m :: firsts (key m :: seen) ms
  end.

Lemma firsts_ext seen seen' ms : (∀ k, k ∈ seen ↔ k ∈ seen') → firsts seen ms = firsts seen' ms.
Proof.
  revert seen seen'. induction ms as [|m ms IH]; intros seen seen' Hs; [done|]. simpl.
  destruct (decide (key m ∈ seen)) as [Hin|Hout].
  - rewrite decide_True by (by apply Hs). by apply IH.
  - rewrite decide_False by (by rewrite <-Hs). f_equal. apply IH. intros k. rewrite !elem_of_cons. naive_solver.
Qed.

Lemma memo_entries m c :
  lru_wf c → (entry_find (key m) (lru_entries c) = None → length (lru_entries c) < lru_cap c) →
  let '(b, c') := memo m c in
  lru_wf c' ∧ lru_cap c' = lru_cap c ∧
  (b = true ↔ entry_find (key m) (lru_entries c) = None) ∧
  (∀ k, entry_find k (lru_entries c') =
    if decide (k = key m ∧ b = true) then Some (val m) else entry_find k (lru_entries c)).
Proof.
  intros Hwf Hroom. unfold memo. destruct (entry_find (key m) (lru_entries c)) as [v|] eqn:Hf.
  - destruct (lru_get_hit c _ v Hf) as (Hg & _ & Hc). pose proof (λ k, lru_get_find (key m) k c Hwf) as Hgf.
    pose proof (lru_get_wf (key m) c Hwf) as Hgw. destruct (lru_get (key m) c) as [o c1]. simpl in *. subst o.
    split_and!; [done|done|done|]. intros k. rewrite decide_False by (by intros [_ ?]). apply Hgf.
  - rewrite (lru_get_miss c _ Hf). destruct (lru_put_entries c (key m) (val m)) as [_ Hc].
    split_and!; [by apply lru_put_wf|done|done|]. intros k.
    rewrite lru_put_find by auto. repeat case_decide; naive_solver.
Qed.

Lemma entry_find_Some_key k (l : list (K * V)) : is_Some (entry_find k l) ↔ k ∈ l.*1.
Proof.
  destruct (entry_find k l) as [v|] eqn:Hf.
  - split; [|done]. intros _. destruct (decide (k ∈ l.*1)) as [|Hn]; [done|].
    apply entry_find_None in Hn. congruence.
  - apply entry_find_None in Hf. split; [by intros []|done].
Qed.

(** With room for every key that occurs, each key's value is computed for its
    first request only, and all of them are kept. *)
Lemma memo_run_spec ks c ms :
  lru_wf c → length ks ≤ lru_cap c → (∀ k, k ∈ (lru_entries c).*1 ++ (key <$> ms) → k ∈ ks) →
  (memo_run c ms).1 = firsts (lru_entries c).*1 ms ∧ lru_wf (memo_run c ms).2 ∧
  (∀ k, entry_find k (lru_entries (memo_run c ms).2) =
    match entry_find k (lru_entries c) with
    | Some v => Some v
    | None => val <$> find (λ m, bool_decide (key m = k)) ms
    end).
Proof.
  revert c. induction ms as [|m ms IH]; intros c Hwf Hlen Hks; simpl.
  { split_and!; [done|done|]. intros k. by destruct (entry_find k _). }
  assert (Hroom : entry_find (key m) (lru_entries c) = None → length (lru_entries c) < lru_cap c).
  { intros Hn%entry_find_None. eapply Nat.lt_le_trans; [|exact Hlen].
    rewrite <-(length_fmap fst). apply (submseteq_length (key m :: (lru_entries c).*1)).
    apply NoDup_submseteq; [constructor; [done|apply Hwf]|].
    intros k Hk. apply Hks. apply elem_of_cons in Hk. rewrite elem_of_app, fmap_cons, elem_of_cons. naive_solver. }
  pose proof (memo_entries m c Hwf Hroom) as Hm. destruct (memo m c) as [b c1].
  destruct Hm as (Hwf1 & Hc1 & Hb & Hf1). rewrite <-Hc1 in Hlen.
  assert (Hk1 : ∀ k, k ∈ (lru_entries c1).*1 ↔ k ∈ key m :: (lru_entries c).*1).
  { intros k. rewrite <-entry_find_Some_key, Hf1, elem_of_cons, <-entry_find_Some_key.
    destruct (decide (k = key m ∧ b = true)) as [Hd|Hd].
    - destruct Hd as [-> _]. split; [by left|done].
    - destruct (decide (k = key m)) as [->|Hne]; [|split; [by right|by intros [?|?]]].
      destruct b; [by destruct Hd|]. split; [by left|]. intros _.
      destruct (entry_find (key m) (lru_entries c)); [done|]. discriminate (proj2 Hb eq_refl). }
  destruct (IH c1 Hwf1 Hlen) as (Hl & Hwf2 & Hf2).
  { intros k. rewrite elem_of_app, Hk1, elem_of_cons. intros Hk. apply Hks.
    rewrite elem_of_app, fmap_cons, elem_of_cons. naive_solver. }
  destruct (memo_run c1 ms) as [l c2]. simpl in *. split_and!; [|done|].
  - rewrite Hl, (firsts_ext _ _ ms Hk1). destruct b.
    + rewrite decide_False; [done|]. apply entry_find_None. by apply Hb.
    + assert (key m ∈ (lru_entries c).*1) as Hin.
      { destruct (decide (key m ∈ (lru_entries c).*1)) as [|Hn]; [done|]. by apply entry_find_None, Hb in Hn. }
      rewrite decide_True by done. apply firsts_ext. intros k. rewrite elem_of_cons.
      split; [by intros [->|]|by right].
  - intros k. rewrite Hf2, Hf1.
    case_bool_decide as Hk; destruct (decide (k = key m ∧ b = true)) as [Hd|Hd]; simpl.
    + destruct Hd as [-> Hbt]. by apply Hb in Hbt as ->.
    + subst k. destruct b; [by destruct Hd|].
      destruct (entry_find (key m) (lru_entries c)); [done|]. discriminate (proj2 Hb eq_refl).
    + by destruct Hd as [-> _].
    + done.
Qed.
End memo.
