(* ===== verification/Float64.v ===== *)
(** * IEEE binary64 and binary32

    The [f64] and [f32] values of the program, as the numbers of the standard
    library's executable specification [SpecFloat] (precision 53 and maximal
    exponent 1024, precision 24 and maximal exponent 128), with the order lemmas
    the components need.  The order does not depend on the format. *)

From Stdlib Require Import Floats.SpecFloat.
From S2P Require Import Prelude.

Abbreviation f64 := spec_float.

#[global] Instance spec_float_eq_dec : EqDecision spec_float.
Proof. solve_decision. Defined.

Definition f64_zero : f64 := S754_zero false.
Definition f64_add : f64 → f64 → f64 := SFadd 53 1024.
Definition f64_div : f64 → f64 → f64 := SFdiv 53 1024.
Definition f64_mul : f64 → f64 → f64 := SFmul 53 1024.
Definition f64_sqrt : f64 → f64 := SFsqrt 53 1024.
Definition f64_ltb : f64 → f64 → bool := SFltb.
(** [n as f64] *)
Definition f64_of_Z (n : Z) : f64 := binary_normalize 53 1024 n 0 false.

(** [x as i64]: towards zero, saturating, and zero for NaN. *)
Definition f64_to_i64 (x : f64) : Z :=
  match x with
  | S754_zero _ | S754_nan => 0
  | S754_infinity true => - 2 ^ 63
  | S754_infinity false => 2 ^ 63 - 1
  | S754_finite s m e =>
    let a := Z.shiftl (Z.pos m) e in
    Z.max (- 2 ^ 63) (Z.min (2 ^ 63 - 1) (if s then - a else a))
  end%Z.
(** [x.to_bits()]; a NaN is the quiet one. *)
Definition f64_bits (x : f64) : Z :=
  let sign (s : bool) := if s then (2 ^ 63)%Z else 0%Z in
  match x with
  | S754_zero s => sign s
  | S754_infinity s => sign s + 2047 * 2 ^ 52
  | S754_nan => 2047 * 2 ^ 52 + 2 ^ 51
  | S754_finite s m e =>
    if (Z.pos m <? 2 ^ 52)%Z then sign s + Z.pos m else sign s + (e + 1075) * 2 ^ 52 + (Z.pos m - 2 ^ 52)
  end%Z.

Abbreviation f32 := spec_float.
Definition f32_zero : f32 := S754_zero false.
Definition f32_add : f32 → f32 → f32 := SFadd 24 128.
Definition f32_sub : f32 → f32 → f32 := SFsub 24 128.
Definition f32_mul : f32 → f32 → f32 := SFmul 24 128.
Definition f32_div : f32 → f32 → f32 := SFdiv 24 128.
Definition f32_sqrt : f32 → f32 := SFsqrt 24 128.
Definition f32_ltb : f32 → f32 → bool := SFltb.
(** [n as f32] *)
Definition f32_of_Z (n : Z) : f32 := binary_normalize 24 128 n 0 false.
Definition f32_neg : f32 → f32 := SFopp.
(** The literal [n/d], for [n] and [d] of few digits. *)
Definition f32_ratio (n d : Z) : f32 := f32_div (f32_of_Z n) (f32_of_Z d).
(** [f32::max] and [f32::min]: a number rather than NaN. *)
Definition f32_max (x y : f32) : f32 :=
  match x, y with S754_nan, _ => y | _, S754_nan => x | _, _ => if f32_ltb x y then y else x end.
Definition f32_min (x y : f32) : f32 :=
  match x, y with S754_nan, _ => y | _, S754_nan => x | _, _ => if f32_ltb y x then y else x end.
(** [x.clamp(lo, hi)], which panics unless [lo <= hi]; a NaN stays. *)
Definition f32_clamp (x lo hi : f32) : option f32 :=
  match lo, hi with
  | S754_nan, _ | _, S754_nan => None
  | _, _ => if f32_ltb hi lo then None else Some (if f32_ltb x lo then lo else if f32_ltb hi x then hi else x)
  end.
(** [x.floor() as t] for an integer type of range [lo, hi]: saturating, and zero for
    NaN; and [x as t], towards zero. *)
Definition f32_floor_as (lo hi : Z) (x : f32) : Z :=
  match x with
  | S754_zero _ | S754_nan => 0
  | S754_infinity s => if s then lo else hi
  | S754_finite s m e => Z.max lo (Z.min hi (Z.shiftl (if s then Z.neg m else Z.pos m) e))
  end%Z.
Definition f32_as (lo hi : Z) (x : f32) : Z :=
  match x with
  | S754_zero _ | S754_nan => 0
  | S754_infinity s => if s then lo else hi
  | S754_finite s m e => let a := Z.shiftl (Z.pos m) e in Z.max lo (Z.min hi (if s then - a else a))
  end%Z.

(** The lexicographic key of a number: sign class, exponent, significand. *)
Definition f64_key (x : f64) : option (Z * Z * Z) :=
  match x with
  | S754_nan => None
  | S754_zero _ => Some (0, 0, 0)%Z
  | S754_infinity false => Some (2, 0, 0)%Z
  | S754_infinity true => Some (-2, 0, 0)%Z
  | S754_finite false m e => Some (1, e, Z.pos m)%Z
  | S754_finite true m e => Some (-1, - e, Z.neg m)%Z
  end.

Definition key_lt (a b : Z * Z * Z) : Prop :=
  let '(a1, a2, a3) := a in let '(b1, b2, b3) := b in
  (a1 < b1 ∨ (a1 = b1 ∧ (a2 < b2 ∨ (a2 = b2 ∧ a3 < b3))))%Z.

Lemma key_lt_trans a b c : key_lt a b → key_lt b c → key_lt a c.
Proof. destruct a as [[??]?], b as [[??]?], c as [[??]?]. unfold key_lt. lia. Qed.

(** Two finite numbers of the same sign compare by exponent, then significand. *)
Lemma compare_finite m1 e1 m2 e2 :
  match Z.compare e1 e2 with
  | Lt => Lt
  | Gt => Gt
  | Eq => Pos.compare_cont Eq m1 m2
  end = Lt ↔ key_lt (1, e1, Z.pos m1)%Z (1, e2, Z.pos m2)%Z.
Proof.
  unfold key_lt. change (Pos.compare_cont Eq m1 m2) with (Pos.compare m1 m2).
  destruct (Z.compare_spec e1 e2), (Pos.compare_spec m1 m2); subst; split; (done || lia).
Qed.

Lemma compare_finite_neg m1 e1 m2 e2 :
  match Z.compare e1 e2 with
  | Lt => Gt
  | Gt => Lt
  | Eq => CompOpp (Pos.compare_cont Eq m1 m2)
  end = Lt ↔ key_lt (-1, - e1, Z.neg m1)%Z (-1, - e2, Z.neg m2)%Z.
Proof.
  unfold key_lt. change (Pos.compare_cont Eq m1 m2) with (Pos.compare m1 m2).
  destruct (Z.compare_spec e1 e2), (Pos.compare_spec m1 m2); subst; simpl; split; (done || lia).
Qed.

Lemma f64_ltb_key x y :
  f64_ltb x y = true ↔ ∃ a b, f64_key x = Some a ∧ f64_key y = Some b ∧ key_lt a b.
Proof.
  assert (H : ∀ c a b, (match c with Lt => true | _ => false end = true ↔ c = Lt) ∧
    ((∃ a' b', Some a = Some a' ∧ Some b = Some b' ∧ key_lt a' b') ↔ key_lt a b)).
  { intros [] a b; naive_solver. }
  unfold f64_ltb, SFltb, SFcompare.
  destruct x as [[]|[]| |[] m1 e1], y as [[]|[]| |[] m2 e2]; simpl;
    try (split; [done|intros (? & ? & ? & ? & ?); simplify_eq; done || (unfold key_lt in *; lia)]);
    try (split; [intros _; eexists _, _; split_and!; [done..|unfold key_lt; lia]|done]).
  - rewrite (proj1 (H _ (0,0,0)%Z (0,0,0)%Z)), (proj2 (H Eq _ _)). apply compare_finite_neg.
  - rewrite (proj1 (H _ (0,0,0)%Z (0,0,0)%Z)), (proj2 (H Eq _ _)). apply compare_finite.
Qed.

Lemma f64_ltb_trans x y z : f64_ltb x y = true → f64_ltb y z = true → f64_ltb x z = true.
Proof.
  rewrite !f64_ltb_key. intros (a & b & Hx & Hy & ?) (b' & c & Hy' & Hz & ?).
  rewrite Hy in Hy'. simplify_eq. exists a, c. split_and!; [done..|by eapply key_lt_trans].
Qed.

Lemma f64_ltb_irrefl x : f64_ltb x x = false.
Proof.
  apply not_true_is_false. intros (a & b & Ha & Hb & H)%f64_ltb_key. rewrite Ha in Hb. simplify_eq.
  destruct b as [[??]?]. unfold key_lt in H. lia.
Qed.

(** Numbers other than NaN are totally ordered. *)
Definition is_nan (x : f64) : bool := match x with S754_nan => true | _ => false end.

Lemma f64_key_total x : is_nan x = false → is_Some (f64_key x).
Proof. destruct x as [|[]| |[]]; done. Qed.

Lemma f64_ltb_asym x y : f64_ltb x y = true → f64_ltb y x = false.
Proof.
  intros H. apply not_true_is_false. intros H'. pose proof (f64_ltb_trans _ _ _ H H') as Hx.
  by rewrite f64_ltb_irrefl in Hx.
Qed.

(** Not being below is transitive. *)
Lemma f64_geb_trans x y z :
  is_nan y = false → f64_ltb x y = false → f64_ltb y z = false → f64_ltb x z = false.
Proof.
  intros Hy Hxy Hyz. apply not_true_is_false. intros (a & c & Ha & Hc & Hlt)%f64_ltb_key.
  destruct (f64_key_total y Hy) as [b Hb].
  assert (¬ key_lt a b). { intros Hl. rewrite (proj2 (f64_ltb_key x y)) in Hxy; [done|by exists a, b]. }
  assert (¬ key_lt b c). { intros Hl. rewrite (proj2 (f64_ltb_key y z)) in Hyz; [done|by exists b, c]. }
  destruct a as [[??]?], b as [[??]?], c as [[??]?]. unfold key_lt in *. lia.
Qed.
