(* ===== verification/Ranking.v ===== *)
(** * Ranking by score

    The sort [sort_by(|a, b| b.partial_cmp(a).unwrap_or(Equal))] that the vector
    index and the mixture of experts rank with: stable, largest score first.  It is
    written as an insertion sort; [rank_unique] says that a stable sort of scores
    without NaN can give nothing else.  With a NaN the comparison is not an order
    and the standard library leaves the result unspecified, so no theorem is about
    that case. *)

From S2P Require Import Prelude Float64.

Section rank.
Context {A : Type} (score : A → f32).

(** [x] comes before the elements it precedes, which all stood behind it, and
    before its equals. *)
Fixpoint insert_ranked (x : A) (l : list A) : list A :=
  match l with
  | [] => [x]
  | y :: l => if f32_ltb (score x) (score y) then y :: insert_ranked x l else x :: y :: l
  end.
Fixpoint rank (l : list A) : list A :=
  match l with [] => [] | x :: l => insert_ranked x (rank l) end.

Definition no_nan (l : list A) : Prop := Forall (λ x, is_nan (score x) = false) l.
(** Never below what follows. *)
Definition above (x y : A) : Prop := f32_ltb (score x) (score y) = false.
Definition ranked (l : list A) : Prop := StronglySorted above l.
(** The elements that score as [z] does. *)
Definition ties (z : A) (l : list A) : list A :=
  filter (λ x, f32_ltb (score x) (score z) = false ∧ f32_ltb (score z) (score x) = false) l.

Lemma insert_ranked_perm x l : insert_ranked x l ≡ₚ x :: l.
Proof. induction l as [|y l IH]; simpl; [done|]. case_match; [|done]. rewrite IH. apply Permutation_swap. Qed.

Lemma rank_perm l : rank l ≡ₚ l.
Proof. induction l as [|x l IH]; simpl; [done|]. by rewrite insert_ranked_perm, IH. Qed.

Lemma rank_no_nan l : no_nan l → no_nan (rank l).
Proof. unfold no_nan. by rewrite rank_perm. Qed.

Lemma insert_ranked_sorted x l : no_nan (x :: l) → ranked l → ranked (insert_ranked x l).
Proof.
  intros Hn Hl. apply Forall_cons in Hn as [Hx Hn]. induction Hl as [|y l Hl IH Hy]; simpl.
  { repeat constructor. }
  apply Forall_cons in Hn as [Hny Hn]. destruct (f32_ltb (score x) (score y)) eqn:Hlt.
  - constructor; [by apply IH|]. rewrite insert_ranked_perm. constructor; [|done]. by apply f64_ltb_asym.
  - constructor; [by constructor|]. constructor; [done|]. eapply Forall_impl; [exact Hy|].
    intros z Hz. by apply (f64_geb_trans _ (score y)).
Qed.

Lemma rank_sorted l : no_nan l → ranked (rank l).
Proof.
  intros Hn. induction l as [|x l IH]; simpl; [constructor|]. apply Forall_cons in Hn as [Hx Hn].
  apply insert_ranked_sorted; [constructor; [done|by apply rank_no_nan]|by apply IH].
Qed.

Lemma insert_ranked_ties z x l :
  is_nan (score z) = false → ties z (insert_ranked x l) = ties z (x :: l).
Proof.
  intros Hz. induction l as [|y l IH]; [done|]. cbn [insert_ranked].
  destruct (f32_ltb (score x) (score y)) eqn:Hlt; [|done].
  unfold ties in *. rewrite (filter_cons _ y), IH, !filter_cons.
  destruct (decide (_ ∧ _)) as [[Hyz Hzy]|]; [|done]. destruct (decide (_ ∧ _)) as [[Hxz Hzx]|]; [|done].
  pose proof (f64_geb_trans _ _ _ Hz Hxz Hzy) as Hc. unfold f64_ltb, f32_ltb in *. congruence.
Qed.

Lemma rank_ties z l : is_nan (score z) = false → ties z (rank l) = ties z l.
Proof.
  intros Hz. induction l as [|x l IH]; [done|]. cbn [rank]. rewrite insert_ranked_ties by done.
  unfold ties in *. rewrite !filter_cons, IH. done.
Qed.

Lemma ranked_unique l1 l2 :
  no_nan l1 → l1 ≡ₚ l2 → ranked l1 → ranked l2 → (∀ z, z ∈ l1 → ties z l1 = ties z l2) → l1 = l2.
Proof.
  revert l2. induction l1 as [|x l1 IH]; intros l2 Hn Hp H1 H2 Ht; [by apply Permutation_nil in Hp as ->|].
  destruct l2 as [|y l2]; [by symmetry in Hp; apply Permutation_nil in Hp|].
  apply StronglySorted_inv in H1 as [H1 Hx]. apply StronglySorted_inv in H2 as [H2 Hy].
  assert (Hself : ∀ z, f32_ltb (score z) (score z) = false) by (intros z; apply f64_ltb_irrefl).
  assert (Hxy : x = y ∨ (above x y ∧ above y x)).
  { assert (x ∈ y :: l2) as [->|Hx2]%elem_of_cons by (rewrite <-Hp; left); [by left|].
    assert (y ∈ x :: l1) as [->|Hy1]%elem_of_cons by (rewrite Hp; left); [by left|].
    rewrite Forall_forall in Hx, Hy. right. split; [by apply Hx|by apply Hy]. }
  assert (x = y) as <-.
  { destruct Hxy as [?|[Ha Hb]]; [done|]. specialize (Ht x ltac:(left)). unfold ties in Ht.
    rewrite !filter_cons, decide_True, decide_True in Ht by done. by injection Ht. }
  f_equal. apply Forall_cons in Hn as [_ Hn].
  apply IH; [done|by apply Permutation_cons_inv in Hp|done|done|].
  intros z Hz. specialize (Ht z ltac:(by right)). unfold ties in *. rewrite !filter_cons in Ht.
  case_decide; [by injection Ht|done].
Qed.

(** The stable descending sort of scores without NaN is unique. *)
Lemma rank_unique l l' :
  no_nan l → l' ≡ₚ l → ranked l' → (∀ z, z ∈ l → ties z l' = ties z l) → l' = rank l.
Proof.
  intros Hn Hp Hr Ht. apply ranked_unique; [unfold no_nan; by rewrite Hp|by rewrite Hp, rank_perm|done|by apply rank_sorted|].
  intros z Hz. rewrite Hp in Hz. rewrite rank_ties; [by apply Ht|]. unfold no_nan in Hn.
  rewrite Forall_forall in Hn. by apply Hn.
Qed.

(** The first [k]: they are of the list, as many as there are up to [k], in
    descending order, and nothing left out is above one of them. *)
Lemma rank_take k l :
  no_nan l →
  ∃ rest, l ≡ₚ take k (rank l) ++ rest ∧ length (take k (rank l)) = k `min` length l ∧
    ranked (take k (rank l)) ∧ ∀ x y, x ∈ take k (rank l) → y ∈ rest → above x y.
Proof.
  intros Hn. exists (drop k (rank l)). pose proof (rank_sorted l Hn) as Hr.
  rewrite <-(take_drop k (rank l)) in Hr. apply StronglySorted_app in Hr as (Hab & Ht & _). split_and!.
  - by rewrite take_drop, rank_perm.
  - rewrite length_take. by rewrite (Permutation_length (rank_perm l)).
  - done.
  - intros x y Hx Hy. by apply Hab.
Qed.
End rank.
