(* ===== verification/Errors.v ===== *)
(** * Error taxonomy and supervision deciders

    Models [crates/atomr-accel-cuda/src/error.rs]: the [GpuError] enum, its
    [Display] text (the [#[error(..)]] attributes), the panic-string decider
    [decider]/[decide_str] the supervisor uses, and the typed decider
    [DeviceSupervisor::decide].  The supervision directives are the
    constructors of [atomr_core::supervision::Directive] the file names. *)

From S2P Require Import Prelude.

Inductive GpuError : Type :=
  | ContextPoisoned (msg : string)
  | OutOfMemory (msg : string)
  | Unrecoverable (msg : string)
  | GpuRefStale (msg : string)
  | Driver (msg : string)
  | Cublas (msg : string)
  | LibraryError (lib : string) (msg : string)
  | Timeout.

#[global] Instance GpuError_eq_dec : EqDecision GpuError.
Proof. solve_decision. Defined.

Definition CONTEXT_POISONED_TAG : string := "ContextPoisoned".
Definition OUT_OF_MEMORY_TAG : string := "OutOfMemory".
Definition UNRECOVERABLE_TAG : string := "Unrecoverable".

(** [Display] of the error, which is also [panic_message]. *)
Definition panic_message (e : GpuError) : string :=
  match e with
  | ContextPoisoned m => "ContextPoisoned: " +:+ m
  | OutOfMemory m => "OutOfMemory: " +:+ m
  | Unrecoverable m => "Unrecoverable: " +:+ m
  | GpuRefStale m => "GpuRef stale: " +:+ m
  | Driver m => "cudarc driver error: " +:+ m
  | Cublas m => "cudarc cuBLAS error: " +:+ m
  | LibraryError l m => "cudarc " +:+ l +:+ " error: " +:+ m
  | Timeout => "ask timed out before GPU completion"
  end.

Inductive Directive : Type := Restart | Resume | Stop | Escalate.

#[global] Instance Directive_eq_dec : EqDecision Directive.
Proof. solve_decision. Defined.

(** [str::contains] *)
Fixpoint contains (s pat : string) : bool :=
  String.prefix pat s ||
  match s with
  | EmptyString => false
  | String _ s' => contains s' pat
  end.

(** The closure [decider()] returns, and [DeviceSupervisor::decide_str]. *)
Definition decide_str (panic_msg : string) : Directive :=
  if contains panic_msg CONTEXT_POISONED_TAG then Restart
  else if contains panic_msg OUT_OF_MEMORY_TAG then Resume
  else if contains panic_msg UNRECOVERABLE_TAG then Stop
  else Escalate.

(** [DeviceSupervisor::decide] *)
Definition decide_err (err : GpuError) : Directive :=
  match err with
  | ContextPoisoned _ => Restart
  | OutOfMemory _ => Resume
  | Unrecoverable _ => Stop
  | Timeout | GpuRefStale _ | Driver _ | LibraryError _ _ => Escalate
  | Cublas _ => Escalate
  end.

(** [device_supervisor_strategy]: the configuration handed to the runtime. *)
Record SupervisorStrategy := {
  max_retries : nat;
  within_secs : nat;
  strategy_decider : string → Directive;
}.

Definition device_supervisor_strategy : SupervisorStrategy :=
  {| max_retries := 3; within_secs := 60; strategy_decider := decide_str |}.

(** ** Substring search *)

Fixpoint str_mem (c : Ascii.ascii) (s : string) : bool :=
  match s with
  | EmptyString => false
  | String d s' => Ascii.eqb c d || str_mem c s'
  end.

Lemma prefix_app_sep pat a c b :
  str_mem c pat = false →
  String.prefix pat (a +:+ String c b) = String.prefix pat a.
Proof.
  revert a; induction pat as [|p pat IH]; intros a Hc; [by destruct a|].
  simpl in Hc. apply orb_false_iff in Hc as [Hcp Hc]. apply Ascii.eqb_neq in Hcp.
  destruct a as [|x a]; simpl.
  - change (EmptyString +:+ String c b) with (String c b). simpl.
    destruct (Ascii.ascii_dec p c) as [->|]; done.
  - change (String x a +:+ String c b) with (String x (a +:+ String c b)). simpl.
    destruct (Ascii.ascii_dec p x); [by apply IH|done].
Qed.

#[local] Arguments String.prefix : simpl never.

(** A pattern without the separator [c] occurs on one side of it. *)
Lemma contains_app_sep pat a c b :
  str_mem c pat = false → pat ≠ EmptyString →
  contains (a +:+ String c b) pat = contains a pat || contains b pat.
Proof.
  intros Hc Hne.
  assert (Hnil : String.prefix pat EmptyString = false) by (by destruct pat).
  assert (Hcb : ∀ s, String.prefix pat (String c s) = false).
  { intros s. change (String c s) with (EmptyString +:+ String c s).
    by rewrite prefix_app_sep. }
  induction a as [|x a IH].
  - change (EmptyString +:+ String c b) with (String c b). simpl.
    by rewrite Hcb, Hnil.
  - transitivity (String.prefix pat (String x a +:+ String c b)
                  || contains (a +:+ String c b) pat); [done|].
    rewrite prefix_app_sep by done. rewrite IH. simpl. by rewrite orb_assoc.
Qed.

(** ** The two deciders *)

Definition mentions_tag (s : string) : bool :=
  contains s CONTEXT_POISONED_TAG || contains s OUT_OF_MEMORY_TAG
  || contains s UNRECOVERABLE_TAG.

(** The free text an error carries. *)
Definition payloads (e : GpuError) : list string :=
  match e with
  | ContextPoisoned m | OutOfMemory m | Unrecoverable m | GpuRefStale m
  | Driver m | Cublas m => [m]
  | LibraryError l m => [l; m]
  | Timeout => []
  end.

(** Each message is [head ++ " " ++ rest], and no tag contains a blank. *)
Definition tag_like (pat : string) : Prop :=
  str_mem " "%char pat = false ∧ str_mem ":"%char pat = false ∧ pat ≠ EmptyString.

Lemma tag_like_tags :
  tag_like CONTEXT_POISONED_TAG ∧ tag_like OUT_OF_MEMORY_TAG ∧ tag_like UNRECOVERABLE_TAG.
Proof. by repeat split. Qed.

Lemma prefix_app pat x : String.prefix pat (pat +:+ x) = true.
Proof.
  induction pat as [|p pat IH]; [by destruct x|].
  change ((if ascii_dec p p then String.prefix pat (pat +:+ x) else false) = true).
  by destruct (ascii_dec p p).
Qed.

Lemma contains_prefix pat x : contains (pat +:+ x) pat = true.
Proof.
  generalize (prefix_app pat x). by destruct (pat +:+ x); cbn [contains]; intros ->.
Qed.

Lemma contains_blank pat a b :
  tag_like pat →
  contains (a +:+ String " "%char b) pat = contains a pat || contains b pat.
Proof. intros (? & _ & ?). by apply contains_app_sep. Qed.

(** What a tag matches in the message of an error. *)
Lemma contains_message pat e :
  tag_like pat →
  contains (panic_message e) pat =
    contains (match e with
              | ContextPoisoned _ => "ContextPoisoned:"
              | OutOfMemory _ => "OutOfMemory:"
              | Unrecoverable _ => "Unrecoverable:"
              | GpuRefStale _ => "GpuRef stale:"
              | Driver _ => "cudarc driver error:"
              | Cublas _ => "cudarc cuBLAS error:"
              | LibraryError _ _ => "cudarc error:"
              | Timeout => "ask timed out before GPU completion"
              end) pat
    || existsb (λ m, contains m pat) (payloads e).
Proof.
  intros Ht. destruct e as [m|m|m|m|m|m|l m|]; cbn [payloads existsb]; rewrite ?orb_false_r;
    try done.
  - apply (contains_blank pat "ContextPoisoned:" m Ht).
  - apply (contains_blank pat "OutOfMemory:" m Ht).
  - apply (contains_blank pat "Unrecoverable:" m Ht).
  - apply (contains_blank pat "GpuRef stale:" m Ht).
  - apply (contains_blank pat "cudarc driver error:" m Ht).
  - apply (contains_blank pat "cudarc cuBLAS error:" m Ht).
  - transitivity (contains "cudarc" pat || contains (l +:+ " error: " +:+ m) pat).
    { apply (contains_blank pat "cudarc" (l +:+ " error: " +:+ m) Ht). }
    transitivity (contains "cudarc" pat || (contains l pat || contains ("error: " +:+ m) pat)).
    { f_equal. apply (contains_blank pat l ("error: " +:+ m) Ht). }
    rewrite (contains_blank pat "error:" m Ht : contains ("error: " +:+ m) pat = _).
    rewrite (contains_blank pat "cudarc" "error:" Ht : contains "cudarc error:" pat = _).
    by destruct (contains "cudarc" pat), (contains l pat), (contains "error:" pat).
Qed.

Lemma payloads_clean pat e :
  (∀ m, mentions_tag m = false → contains m pat = false) →
  Forall (λ m, mentions_tag m = false) (payloads e) →
  existsb (λ m, contains m pat) (payloads e) = false.
Proof. intros Hpat. induction 1; simpl; [done|]. by rewrite Hpat. Qed.

Lemma mentions_tag_false m :
  mentions_tag m = false →
  contains m CONTEXT_POISONED_TAG = false ∧ contains m OUT_OF_MEMORY_TAG = false ∧
  contains m UNRECOVERABLE_TAG = false.
Proof. unfold mentions_tag. rewrite !orb_false_iff. tauto. Qed.

(** Decider agreement: for every error whose free text mentions none of
    the three tags, the string decider applied to the panic message takes the
    same decision as the typed decider. *)
Theorem decide_str_agrees (e : GpuError) :
  Forall (λ m, mentions_tag m = false) (payloads e) →
  decide_str (panic_message e) = decide_err e.
Proof.
  intros Hp. destruct tag_like_tags as (H1 & H2 & H3).
  unfold decide_str. rewrite !contains_message by done.
  rewrite !payloads_clean by first [done | intros m (?&?&?)%mentions_tag_false; done].
  rewrite !orb_false_r. by destruct e.
Qed.

Lemma decide_str_agrees_witness :
  Forall (λ m, mentions_tag m = false) (payloads (LibraryError "cublas" "status 7")) ∧
  decide_str (panic_message (LibraryError "cublas" "status 7")) = Escalate.
Proof.
  split; [repeat constructor|].
  apply (decide_str_agrees (LibraryError "cublas" "status 7")). repeat constructor.
Defined.

(** Decider divergence: the two deciders are not the same function.  A
    library error whose message quotes a driver's "OutOfMemory" is resumed by
    the string decider and escalated by the typed one, and an unrecoverable
    error that quotes a poisoned context restarts instead of stopping. *)
Theorem decide_str_diverges :
  decide_str (panic_message (LibraryError "cudnn" "OutOfMemory in workspace")) = Resume ∧
  decide_err (LibraryError "cudnn" "OutOfMemory in workspace") = Escalate ∧
  decide_str (panic_message (Unrecoverable "retries exhausted: ContextPoisoned")) = Restart ∧
  decide_err (Unrecoverable "retries exhausted: ContextPoisoned") = Stop.
Proof. by vm_compute. Qed.
