(* ===== verification/Dtype.v ===== *)
(** * Element types

    Models the runtime dtype tag of [crates/atomr-accel/src/dtype.rs]. *)

From S2P Require Import Prelude.

Inductive DType : Type :=
  | F32 | F64 | F16 | Bf16
  | I8 | I16 | I32 | I64
  | U8 | U16 | U32 | U64
  | F8E4m3 | F8E5m2 | F4E2m1.

#[global] Instance DType_eq_dec : EqDecision DType.
Proof. solve_decision. Defined.

Definition size_bytes (d : DType) : nat :=
  match d with
  | F32 | I32 | U32 => 4
  | F64 | I64 | U64 => 8
  | F16 | Bf16 | I16 | U16 => 2
  | I8 | U8 | F8E4m3 | F8E5m2 | F4E2m1 => 1
  end.

Definition dtype_name (d : DType) : string :=
  match d with
  | F32 => "f32" | F64 => "f64" | F16 => "f16" | Bf16 => "bf16"
  | I8 => "i8" | I16 => "i16" | I32 => "i32" | I64 => "i64"
  | U8 => "u8" | U16 => "u16" | U32 => "u32" | U64 => "u64"
  | F8E4m3 => "f8_e4m3" | F8E5m2 => "f8_e5m2" | F4E2m1 => "f4_e2m1"
  end.

Definition is_float (d : DType) : bool :=
  match d with F32 | F64 | F16 | Bf16 | F8E4m3 | F8E5m2 | F4E2m1 => true | _ => false end.

Definition is_integer (d : DType) : bool :=
  match d with I8 | I16 | I32 | I64 | U8 | U16 | U32 | U64 => true | _ => false end.

Definition is_signed (d : DType) : bool :=
  match d with
  | I8 | I16 | I32 | I64 | F32 | F64 | F16 | Bf16 | F8E4m3 | F8E5m2 | F4E2m1 => true
  | _ => false
  end.

#[global] Instance dtype_name_inj : Inj (=) (=) dtype_name.
Proof. intros x y. by destruct x, y. Qed.

Lemma float_xor_integer d : is_float d = negb (is_integer d).
Proof. by destruct d. Qed.
