(* ===== verification/CudaDtype.v ===== *)
(** * Element types of the CUDA crate

    Models [crates/atomr-accel-cuda/src/dtype.rs] (with every cargo feature
    enabled) and the [AccelDtype] implementations of
    [crates/atomr-accel/src/dtype.rs]: what an element type is to the runtime and
    to each vendor library, and which operations accept it.  The foreign
    enumerations are inductive types with the variants the crate uses. *)

From S2P Require Import Prelude Dtype.

(** The types that implement [AccelDtype]: the tagged primitives and the two
    complex types of the CUDA crate. *)
Inductive Elem : Type := Prim (d : DType) | C32 | C64.

#[global] Instance Elem_eq_dec : EqDecision Elem.
Proof. solve_decision. Defined.

(** [AccelDtype::NAME], [SIZE], [KIND] and [Scalar]. *)
Definition NAME (e : Elem) : string :=
  match e with Prim d => dtype_name d | C32 => "complex64" | C64 => "complex128" end.
Definition SIZE (e : Elem) : nat :=
  match e with Prim d => size_bytes d | C32 => 8 | C64 => 16 end.
Definition KIND (e : Elem) : DType :=
  match e with Prim d => d | C32 => F32 | C64 => F64 end.
Definition Scalar (e : Elem) : DType :=
  match e with
  | Prim (F8E4m3 | F8E5m2 | F4E2m1) => F32
  | Prim d => d
  | C32 => F32
  | C64 => F64
  end.

Inductive cudaDataType : Type :=
  | CUDA_R_32F | CUDA_R_64F | CUDA_R_16F | CUDA_R_16BF
  | CUDA_R_8I | CUDA_R_8U | CUDA_R_32I | CUDA_R_32U | CUDA_R_64I | CUDA_R_64U
  | CUDA_R_8F_E4M3 | CUDA_R_8F_E5M2 | CUDA_C_32F | CUDA_C_64F.

#[global] Instance cudaDataType_eq_dec : EqDecision cudaDataType.
Proof. solve_decision. Defined.

Definition cuda_type_tag (t : cudaDataType) : string :=
  match t with
  | CUDA_R_32F => "CUDA_R_32F" | CUDA_R_64F => "CUDA_R_64F" | CUDA_R_16F => "CUDA_R_16F"
  | CUDA_R_16BF => "CUDA_R_16BF" | CUDA_R_8I => "CUDA_R_8I" | CUDA_R_8U => "CUDA_R_8U"
  | CUDA_R_32I => "CUDA_R_32I" | CUDA_R_32U => "CUDA_R_32U" | CUDA_R_64I => "CUDA_R_64I"
  | CUDA_R_64U => "CUDA_R_64U" | CUDA_R_8F_E4M3 => "CUDA_R_8F_E4M3"
  | CUDA_R_8F_E5M2 => "CUDA_R_8F_E5M2" | CUDA_C_32F => "CUDA_C_32F" | CUDA_C_64F => "CUDA_C_64F"
  end.

(** The bytes of an element as the CUDA headers define each type: the number in
    the name, twice for a complex type. *)
Definition cuda_type_bytes (t : cudaDataType) : nat :=
  match t with
  | CUDA_R_8I | CUDA_R_8U | CUDA_R_8F_E4M3 | CUDA_R_8F_E5M2 => 1
  | CUDA_R_16F | CUDA_R_16BF => 2
  | CUDA_R_32F | CUDA_R_32I | CUDA_R_32U => 4
  | CUDA_R_64F | CUDA_R_64I | CUDA_R_64U | CUDA_C_32F => 8
  | CUDA_C_64F => 16
  end.

Inductive cublasComputeType : Type := CUBLAS_COMPUTE_32F | CUBLAS_COMPUTE_64F | CUBLAS_COMPUTE_32I.

Inductive cudnnDataType : Type :=
  | CUDNN_DATA_FLOAT | CUDNN_DATA_DOUBLE | CUDNN_DATA_HALF | CUDNN_DATA_BFLOAT16
  | CUDNN_DATA_INT8 | CUDNN_DATA_UINT8 | CUDNN_DATA_INT32 | CUDNN_DATA_INT64
  | CUDNN_DATA_FP8_E4M3 | CUDNN_DATA_FP8_E5M2.

Inductive ncclDataType : Type :=
  | ncclFloat32 | ncclFloat64 | ncclFloat16 | ncclBfloat16
  | ncclInt8 | ncclUint8 | ncclInt32 | ncclUint32 | ncclInt64 | ncclUint64
  | ncclFloat8e4m3 | ncclFloat8e5m2.

(** The types that implement [CudaDtype]. *)
Definition is_cuda_dtype (e : Elem) : bool :=
  match e with Prim (I16 | U16 | F4E2m1) => false | _ => true end.

(** The methods of [CudaDtype]; [None] where there is no implementation. *)
Definition cuda_data_type (e : Elem) : option cudaDataType :=
  match e with
  | Prim F32 => Some CUDA_R_32F | Prim F64 => Some CUDA_R_64F
  | Prim I8 => Some CUDA_R_8I | Prim U8 => Some CUDA_R_8U
  | Prim I32 => Some CUDA_R_32I | Prim U32 => Some CUDA_R_32U
  | Prim I64 => Some CUDA_R_64I | Prim U64 => Some CUDA_R_64U
  | Prim F16 => Some CUDA_R_16F | Prim Bf16 => Some CUDA_R_16BF
  | Prim F8E4m3 => Some CUDA_R_8F_E4M3 | Prim F8E5m2 => Some CUDA_R_8F_E5M2
  | C32 => Some CUDA_C_32F | C64 => Some CUDA_C_64F
  | Prim (I16 | U16 | F4E2m1) => None
  end.

Definition cublas_compute_type (e : Elem) : option cublasComputeType :=
  match e with
  | Prim (F32 | F16 | Bf16 | F8E4m3 | F8E5m2) | C32 => Some CUBLAS_COMPUTE_32F
  | Prim F64 | C64 => Some CUBLAS_COMPUTE_64F
  | Prim (I8 | U8 | I32 | U32 | I64 | U64) => Some CUBLAS_COMPUTE_32I
  | Prim (I16 | U16 | F4E2m1) => None
  end.

Definition cuda_type_name (e : Elem) : option string :=
  match e with
  | Prim F32 => Some "float" | Prim F64 => Some "double"
  | Prim I8 => Some "char" | Prim U8 => Some "unsigned char"
  | Prim I32 => Some "int" | Prim U32 => Some "unsigned int"
  | Prim I64 => Some "long long" | Prim U64 => Some "unsigned long long"
  | Prim F16 => Some "__half" | Prim Bf16 => Some "__nv_bfloat16"
  | Prim F8E4m3 => Some "__nv_fp8_e4m3" | Prim F8E5m2 => Some "__nv_fp8_e5m2"
  | C32 => Some "cuComplex" | C64 => Some "cuDoubleComplex"
  | Prim (I16 | U16 | F4E2m1) => None
  end.

(** The two methods that panic for some implementors; the error is the panic
    message, and a type without an implementation has no such call. *)
Definition cudnn_data_type (e : Elem) : option (result cudnnDataType string) :=
  match e with
  | Prim F32 => Some (Ok CUDNN_DATA_FLOAT) | Prim F64 => Some (Ok CUDNN_DATA_DOUBLE)
  | Prim I8 => Some (Ok CUDNN_DATA_INT8) | Prim U8 => Some (Ok CUDNN_DATA_UINT8)
  | Prim I32 => Some (Ok CUDNN_DATA_INT32) | Prim U32 => Some (Ok CUDNN_DATA_INT32)
  | Prim I64 => Some (Ok CUDNN_DATA_INT64) | Prim U64 => Some (Ok CUDNN_DATA_INT64)
  | Prim F16 => Some (Ok CUDNN_DATA_HALF) | Prim Bf16 => Some (Ok CUDNN_DATA_BFLOAT16)
  | Prim F8E4m3 => Some (Ok CUDNN_DATA_FP8_E4M3) | Prim F8E5m2 => Some (Ok CUDNN_DATA_FP8_E5M2)
  | C32 => Some (Err "C32 is not a cuDNN tensor element type")
  | C64 => Some (Err "C64 is not a cuDNN tensor element type")
  | Prim (I16 | U16 | F4E2m1) => None
  end.

Definition nccl_data_type (e : Elem) : option (result ncclDataType string) :=
  match e with
  | Prim F32 => Some (Ok ncclFloat32) | Prim F64 => Some (Ok ncclFloat64)
  | Prim I8 => Some (Ok ncclInt8) | Prim U8 => Some (Ok ncclUint8)
  | Prim I32 => Some (Ok ncclInt32) | Prim U32 => Some (Ok ncclUint32)
  | Prim I64 => Some (Ok ncclInt64) | Prim U64 => Some (Ok ncclUint64)
  | Prim F16 => Some (Ok ncclFloat16) | Prim Bf16 => Some (Ok ncclBfloat16)
  | Prim F8E4m3 => Some (Ok ncclFloat8e4m3) | Prim F8E5m2 => Some (Ok ncclFloat8e5m2)
  | C32 => Some (Err "C32 is not an NCCL reduce element type")
  | C64 => Some (Err "C64 is not an NCCL reduce element type")
  | Prim (I16 | U16 | F4E2m1) => None
  end.

(** The marker traits: the types each library's requests accept. *)
Inductive Marker : Type :=
  | GemmSupported | CudnnSupported | FftSupported | RngFloatSupported | RngIntSupported
  | NcclReduceSupported | SolverSupported | SparseSupported | TensorSupported
  | AxpyDotNrm2Supported | GemvSupported | GerSupported | GeamSupported | SyrkSupported
  | TrsmSupported.

Definition supported (k : Marker) : list Elem :=
  match k with
  | GemmSupported => [Prim F32; Prim F64; Prim I8; Prim I32; Prim F16; Prim Bf16; Prim F8E4m3; Prim F8E5m2]
  | CudnnSupported =>
    [Prim F8E4m3; Prim F8E5m2; Prim F32; Prim F64; Prim I8; Prim U8; Prim I32; Prim I64; Prim F16; Prim Bf16]
  | FftSupported => [Prim F32; Prim F64; C32; C64; Prim F16]
  | RngFloatSupported => [Prim F32; Prim F64]
  | RngIntSupported => [Prim U32; Prim U64]
  | AxpyDotNrm2Supported => [Prim F32; Prim F64; Prim F16; Prim Bf16]
  | GemvSupported | GerSupported | GeamSupported | SyrkSupported | TrsmSupported => [Prim F32; Prim F64]
  | NcclReduceSupported =>
    [Prim F8E4m3; Prim F8E5m2; Prim F32; Prim F64; Prim I8; Prim U8; Prim I32; Prim U32; Prim I64;
     Prim U64; Prim F16; Prim Bf16]
  | SolverSupported => [Prim F32; Prim F64]
  | SparseSupported | TensorSupported => [Prim F32; Prim F64; Prim F16; Prim Bf16]
  end.

(** A table's answer is total on the types a marker accepts. *)
Definition total_at {A} (f : Elem → option (result A string)) (e : Elem) : Prop :=
  ∃ a, f e = Some (Ok a).

Ltac by_supported :=
  repeat match goal with
  | H : _ ∈ _ :: _ |- _ => apply elem_of_cons in H as [->|H]
  | H : _ ∈ [] |- _ => by apply not_elem_of_nil in H
  end.

(** The dtype tables agree: every type a library's requests accept implements
    [CudaDtype]; the CUDA data type of a type determines it and describes elements
    of exactly its size; and a type accepted by cuDNN (by NCCL's reductions) has a
    cuDNN (an NCCL) data type, which no other accepted type shares, so neither
    table panics or confuses two types that its library accepts. *)
Theorem dtype_tables_typed :
  (∀ k e, e ∈ supported k → is_cuda_dtype e = true) ∧
  (∀ e, is_cuda_dtype e = true ↔ is_Some (cuda_data_type e)) ∧
  (∀ e t, cuda_data_type e = Some t → cuda_type_bytes t = SIZE e) ∧
  (∀ e1 e2 t, cuda_data_type e1 = Some t → cuda_data_type e2 = Some t → e1 = e2) ∧
  (∀ e, e ∈ supported CudnnSupported → total_at cudnn_data_type e) ∧
  (∀ e1 e2, e1 ∈ supported CudnnSupported → e2 ∈ supported CudnnSupported →
     cudnn_data_type e1 = cudnn_data_type e2 → e1 = e2) ∧
  (∀ e, e ∈ supported NcclReduceSupported → total_at nccl_data_type e) ∧
  (∀ e1 e2, e1 ∈ supported NcclReduceSupported → e2 ∈ supported NcclReduceSupported →
     nccl_data_type e1 = nccl_data_type e2 → e1 = e2).
Proof.
  split_and!.
  - intros [] e He; cbn in He; by_supported; done.
  - intros [[]| |]; cbn; split; try done; try (by eexists); by intros [].
  - intros [[]| |] t; cbn; intros; by simplify_eq.
  - intros [[]| |] [[]| |] t; cbn; intros; by simplify_eq.
  - intros e He; cbn in He; by_supported; by eexists.
  - intros e1 e2 H1 H2; cbn in H1, H2; by_supported; intros; by simplify_eq/=.
  - intros e He; cbn in He; by_supported; by eexists.
  - intros e1 e2 H1 H2; cbn in H1, H2; by_supported; intros; by simplify_eq/=.
Qed.

(** The complex types carry the tag of their lane, whose size is half of theirs. *)
Lemma complex_kind_size e : size_bytes (KIND e) = SIZE e ↔ e ≠ C32 ∧ e ≠ C64.
Proof. destruct e as [d| |]; cbn; naive_solver. Qed.

(** The scalar of a type is [f32] or [f64] except for these. *)
Lemma scalar_f32_f64 e :
  e ∈ supported AxpyDotNrm2Supported →
  (Scalar e = F32 ∨ Scalar e = F64) ↔ (e ≠ Prim F16 ∧ e ≠ Prim Bf16).
Proof. intros He; cbn in He; by_supported; cbn; naive_solver. Qed.
