(* ===== verification/Fp8.v ===== *)
(** * The 8-bit and 4-bit float codecs

    Models [F8E4m3], [F8E5m2] and [F4E2m1] of [crates/atomr-accel/src/dtype.rs].
    An [f32] is its 32-bit pattern and a code its byte; [as u8] keeps the low
    byte, and a shift by a [u32] uses the low five bits of the amount, which is
    what the release profile compiles [>>] to (with overflow checks, an amount
    of 32 or more panics).  [f32_units], [e4m3_units] and [e5m2_units] are the
    values the patterns stand for, as multiples of the smallest positive [f32]. *)

From S2P Require Import Prelude.
Open Scope Z_scope.

Definition as_u8 (x : Z) : Z := wrap 8 x.
Definition shr32 (x shift : Z) : Z := Z.shiftr x (Z.land shift 31).

(** ** f32 patterns *)

Definition f32_sign (x : Z) : Z := Z.shiftr x 31.
Definition f32_exponent (x : Z) : Z := Z.land (Z.shiftr x 23) 255.
Definition f32_mantissa (x : Z) : Z := Z.land x 8388607.
Definition f32_abs (x : Z) : Z := Z.land x 2147483647.
Definition is_nan32 (x : Z) : bool := 2139095040 <? f32_abs x.
Definition f32_NAN : Z := 2143289344.
Definition f32_INFINITY : Z := 2139095040.
Definition f32_NEG_INFINITY : Z := 4286578688.

(** [x.clamp(-max, max)] of a pattern that is not a NaN: patterns of one sign are
    ordered like the values they stand for. *)
Definition f32_clamp (x max : Z) : Z :=
  if max <? f32_abs x then Z.lor (Z.shiftl (f32_sign x) 31) max else x.

Definition f32_units (x : Z) : Z :=
  (if f32_sign x =? 1 then -1 else 1) *
  (if f32_exponent x =? 0 then f32_mantissa x else (f32_mantissa x + 2 ^ 23) * 2 ^ (f32_exponent x - 1)).

(** [mant.leading_zeros()] of a [u8]. *)
Definition leading_zeros8 (m : Z) : Z := if m =? 0 then 8 else 7 - Z.log2 m.

Module E4m3.
Definition ZERO : Z := 0.
Definition ONE : Z := 56.
Definition NAN : Z := 127.

Definition from_f32 (x : Z) : Z :=
  if is_nan32 x then NAN
  else
    let clamped := f32_clamp x 1138753536 (* 448.0 *) in
    let bits := clamped in
    let sign := as_u8 (Z.shiftl (as_u8 (Z.shiftr bits 31)) 7) in
    if f32_abs clamped =? 0 then sign
    else
      let f32_exp := Z.land (Z.shiftr bits 23) 255 - 127 in
      let f32_mant := Z.land bits 8388607 in
      let e4_exp := f32_exp + 7 in
      if e4_exp <=? 0 then
        let shift := 21 + (1 - e4_exp) in
        let m := as_u8 (shr32 (Z.lor f32_mant 8388608) shift) in
        Z.lor sign (Z.land m 7)
      else
        let mant := as_u8 (Z.shiftr f32_mant 20) in
        let round_bit := as_u8 (Z.land (Z.shiftr f32_mant 19) 1) in
        let sticky := if Z.land f32_mant 524287 =? 0 then 0 else 1 in
        let m0 := Z.land mant 7 in
        let up := (round_bit =? 1) && ((sticky =? 1) || (Z.land m0 1 =? 1)) in
        let m1 := if up then wadd 8 m0 1 else m0 in
        let carry := up && (m1 =? 8) in
        let m := if carry then 0 else m1 in
        let e := if carry then wadd 8 (as_u8 e4_exp) 1 else as_u8 e4_exp in
        if 15 <=? e then Z.lor sign 126
        else Z.lor (Z.lor sign (Z.shiftl e 3)) m.

Definition to_f32 (b : Z) : Z :=
  let sign := Z.land (Z.shiftr b 7) 1 in
  let exp := Z.land (Z.shiftr b 3) 15 in
  let mant := Z.land b 7 in
  if (exp =? 0) && (mant =? 0) then Z.shiftl sign 31
  else if (exp =? 15) && (mant =? 7) then f32_NAN
  else
    let em :=
      if exp =? 0 then
        let lz := leading_zeros8 mant - 5 in
        (1 - 7 - lz, Z.land (Z.shiftl mant (lz + 1)) 7)
      else (exp - 7, mant) in
    Z.lor (Z.lor (Z.shiftl sign 31) (Z.shiftl (em.1 + 127) 23)) (Z.shiftl em.2 20).

(** The value of a code that is not a NaN: 4 exponent bits with bias 7, 3 bits of
    mantissa. *)
Definition units (b : Z) : Z :=
  let exp := (b / 8) mod 16 in
  (if b <? 128 then 1 else -1) *
  (if exp =? 0 then (b mod 8) * 2 ^ 140 else (b mod 8 + 8) * 2 ^ (exp + 139)).

Definition is_code (b : Z) : bool := (0 <=? b) && (b <? 256) && negb (b mod 128 =? 127).
End E4m3.

Module E5m2.
Definition ZERO : Z := 0.
Definition ONE : Z := 60.
Definition NAN : Z := 126.
Definition INFINITY : Z := 124.

Definition from_f32 (x : Z) : Z :=
  if is_nan32 x then NAN
  else
    let bits := x in
    let sign := as_u8 (Z.shiftl (as_u8 (Z.shiftr bits 31)) 7) in
    let f32_exp := Z.land (Z.shiftr bits 23) 255 - 127 in
    let f32_mant := Z.land bits 8388607 in
    if f32_abs x =? 0 then sign
    else
      let e5_exp := f32_exp + 15 in
      if 31 <=? e5_exp then Z.lor sign 124
      else if e5_exp <=? 0 then
        let shift := 22 + (1 - e5_exp) in
        let m := as_u8 (shr32 (Z.lor f32_mant 8388608) shift) in
        Z.lor sign (Z.land m 3)
      else
        let mant := as_u8 (Z.shiftr f32_mant 21) in
        let round_bit := as_u8 (Z.land (Z.shiftr f32_mant 20) 1) in
        let sticky := if Z.land f32_mant 1048575 =? 0 then 0 else 1 in
        let m0 := Z.land mant 3 in
        let up := (round_bit =? 1) && ((sticky =? 1) || (Z.land m0 1 =? 1)) in
        let m1 := if up then wadd 8 m0 1 else m0 in
        let carry := up && (m1 =? 4) in
        let m := if carry then 0 else m1 in
        let e := if carry then wadd 8 (as_u8 e5_exp) 1 else as_u8 e5_exp in
        if 31 <=? e then Z.lor sign 124
        else Z.lor (Z.lor sign (Z.shiftl e 2)) m.

Definition to_f32 (b : Z) : Z :=
  let sign := Z.land (Z.shiftr b 7) 1 in
  let exp := Z.land (Z.shiftr b 2) 31 in
  let mant := Z.land b 3 in
  if (exp =? 0) && (mant =? 0) then Z.shiftl sign 31
  else if exp =? 31 then
    (if mant =? 0 then (if sign =? 1 then f32_NEG_INFINITY else f32_INFINITY) else f32_NAN)
  else
    let em :=
      if exp =? 0 then
        let lz := leading_zeros8 mant - 6 in
        (1 - 15 - lz, Z.land (Z.shiftl mant (lz + 1)) 3)
      else (exp - 15, mant) in
    Z.lor (Z.lor (Z.shiftl sign 31) (Z.shiftl (em.1 + 127) 23)) (Z.shiftl em.2 21).

(** The value of a finite code: 5 exponent bits with bias 15, 2 bits of mantissa. *)
Definition units (b : Z) : Z :=
  let exp := (b / 4) mod 32 in
  (if b <? 128 then 1 else -1) *
  (if exp =? 0 then (b mod 4) * 2 ^ 133 else (b mod 4 + 4) * 2 ^ (exp + 132)).

Definition is_code (b : Z) : bool := (0 <=? b) && (b <? 256) && ((b / 4) mod 32 <? 31).
End E5m2.

Module E2m1.
Definition ZERO : Z := 0.
Definition ONE : Z := 4.

(** [to_f32], in halves: every value of the format is a multiple of 0.5. *)
Definition to_halves (b : Z) : Z :=
  let n := Z.land b 15 in
  let sign := if Z.land (Z.shiftr n 3) 1 =? 1 then -1 else 1 in
  let exp := Z.land (Z.shiftr n 1) 3 in
  let mant := Z.land n 1 in
  let value :=
    if exp =? 0 then (if mant =? 0 then 0 else 1)
    else (2 + mant) * 2 ^ (exp - 1) in
  sign * value.
End E2m1.

(** Decision over all bytes. *)
Definition bytes : list Z := Z.of_nat <$> seq 0 256.
Lemma all_bytes (P : Z → bool) : forallb P bytes = true → ∀ b, 0 <= b < 256 → P b = true.
Proof.
  intros H b Hb. rewrite forallb_forall in H. apply H.
  replace b with (Z.of_nat (Z.to_nat b)) by lia. apply in_map, in_seq. lia.
Qed.

(** ** Fields of a pattern *)

Section fields.
Local Ltac Zify.zify_post_hook ::= Z.div_mod_to_equations.
Lemma f32_fields x : 0 <= x < 2 ^ 32 →
  0 <= x / 2 ^ 31 < 2 ∧ 0 <= (x / 2 ^ 23) mod 256 < 256 ∧ 0 <= x mod 2 ^ 23 < 2 ^ 23 ∧
  x = x / 2 ^ 31 * 2 ^ 31 + (x / 2 ^ 23) mod 256 * 2 ^ 23 + x mod 2 ^ 23.
Proof. lia. Qed.

Context (s E M : Z) (Hs : 0 <= s < 2) (HE : 0 <= E < 256) (HM : 0 <= M < 2 ^ 23).
Let x := s * 2 ^ 31 + E * 2 ^ 23 + M.

Lemma f32_sign_of : f32_sign x = s.
Proof using Hs HE HM. unfold f32_sign, x. rewrite Z.shiftr_div_pow2 by lia. lia. Qed.

Lemma f32_exponent_of : f32_exponent x = E.
Proof using Hs HE HM.
  unfold f32_exponent, x. rewrite Z.shiftr_div_pow2 by lia. change 255 with (Z.ones 8).
  rewrite Z.land_ones by lia. lia.
Qed.

Lemma f32_mantissa_of : f32_mantissa x = M.
Proof using Hs HE HM.
  unfold f32_mantissa, x. change 8388607 with (Z.ones 23). rewrite Z.land_ones by lia. lia.
Qed.

Lemma f32_abs_of : f32_abs x = E * 2 ^ 23 + M.
Proof using Hs HE HM.
  unfold f32_abs, x. change 2147483647 with (Z.ones 31). rewrite Z.land_ones by lia. lia.
Qed.
End fields.

(** ** Rounding on a grid *)

(** Rounding [M] to a multiple of [2^q], ties to even: the bits above [q], plus one
    when the bit below is set and either the rest is not zero or the result is odd. *)
Definition rne (q M : Z) : Z :=
  M / 2 ^ q +
  (if ((M / 2 ^ (q - 1)) mod 2 =? 1) && (negb (M mod 2 ^ (q - 1) =? 0) || ((M / 2 ^ q) mod 2 =? 1)) then 1 else 0).

Lemma rne_half q M : 1 <= q → 0 <= M → 2 * Z.abs (M - rne q M * 2 ^ q) <= 2 ^ q.
Proof.
  intros Hq HM. unfold rne.
  assert (H2 : 2 ^ q = 2 * 2 ^ (q - 1)) by (rewrite <-Z.pow_succ_r by lia; f_equal; lia).
  assert (0 < 2 ^ (q - 1)) by (apply Z.pow_pos_nonneg; lia).
  assert (Hd : M / 2 ^ q = M / 2 ^ (q - 1) / 2).
  { rewrite Z.div_div by lia. f_equal. lia. }
  pose proof (Z.div_mod M (2 ^ (q - 1)) ltac:(lia)).
  pose proof (Z.mod_pos_bound M (2 ^ (q - 1)) ltac:(lia)).
  pose proof (Z.div_mod (M / 2 ^ (q - 1)) 2 ltac:(lia)).
  pose proof (Z.mod_pos_bound (M / 2 ^ (q - 1)) 2 ltac:(lia)).
  rewrite Hd, H2 in *. set (g := 2 ^ (q - 1)) in *. set (h := M / g) in *. set (r := M mod g) in *.
  set (k := h / 2) in *. set (t := h mod 2) in *.
  destruct (Z.eqb_spec t 1); destruct (Z.eqb_spec r 0); destruct (Z.eqb_spec (k mod 2) 1); cbn; nia.
Qed.

(** A grid point within half a step is nearest among all numbers that are on the
    grid or outside the binade. *)
Lemma grid_nearest g n k X U :
  0 < g → n * g <= X <= 2 * n * g → 2 * Z.abs (X - k * g) <= g →
  U <= n * g ∨ 2 * n * g <= U ∨ (∃ j, U = j * g) →
  Z.abs (X - k * g) <= Z.abs (X - U).
Proof.
  intros Hg HX Hk.
  assert (Hgrid : ∀ j, Z.abs (X - k * g) <= Z.abs (X - j * g)).
  { intros j. destruct (Z.eq_dec j k) as [->|Hne]; [lia|].
    assert (g <= Z.abs (j * g - k * g)) by nia. lia. }
  intros [HU|[HU|[j ->]]]; [|
    |apply Hgrid].
  - specialize (Hgrid n). lia.
  - specialize (Hgrid (2 * n)). lia.
Qed.

(** ** E4M3 *)

Lemma or_fields w k s e m :
  0 <= w → 0 <= k → 0 <= e < 2 ^ k → 0 <= m < 2 ^ w →
  Z.lor (Z.lor (s * 2 ^ (w + k)) (Z.shiftl e w)) m = s * 2 ^ (w + k) + e * 2 ^ w + m.
Proof.
  intros Hw Hk He Hm. rewrite Z.shiftl_mul_pow2 by lia.
  assert (0 < 2 ^ w) by (apply Z.pow_pos_nonneg; lia).
  assert (Hp : 2 ^ (w + k) = 2 ^ k * 2 ^ w) by (rewrite Z.add_comm, Z.pow_add_r; lia).
  rewrite (lor_add_low s (e * 2 ^ w)) by (rewrite ?Hp; nia).
  rewrite Hp, Z.mul_assoc, <-Z.mul_add_distr_r. rewrite lor_add_low by lia. lia.
Qed.

Lemma land_ones_mod x n o : 0 <= n → o = 2 ^ n - 1 → Z.land x o = x mod 2 ^ n.
Proof. intros Hn ->. rewrite <-Z.land_ones by done. f_equal. rewrite Z.ones_equiv. lia. Qed.

Lemma as_u8_small x : 0 <= x < 256 → as_u8 x = x.
Proof. apply Z.mod_small. Qed.

(** The increment of [from_f32] is that of [rne]. *)
Lemma rne_step q w M :
  1 <= q → 0 <= w → 0 <= M < 2 ^ (q + w) → w <= 7 →
  let m0 := Z.land (as_u8 (Z.shiftr M q)) (2 ^ w - 1) in
  let round_bit := as_u8 (Z.land (Z.shiftr M (q - 1)) 1) in
  let sticky := if Z.land M (2 ^ (q - 1) - 1) =? 0 then 0 else 1 in
  let up := (round_bit =? 1) && ((sticky =? 1) || (Z.land m0 1 =? 1)) in
  0 <= rne q M <= 2 ^ w ∧ (if up then wadd 8 m0 1 else m0) = rne q M ∧ (up = false → rne q M < 2 ^ w).
Proof.
  intros Hq Hw HM Hw7. cbn zeta.
  assert (Hw8 : 2 ^ w <= 128) by (change 128 with (2 ^ 7); apply Z.pow_le_mono_r; lia).
  assert (Hm : 0 <= M / 2 ^ q < 2 ^ w).
  { split; [apply Z.div_pos; lia|]. apply Z.div_lt_upper_bound; [lia|]. rewrite <-Z.pow_add_r by lia. lia. }
  rewrite !Z.shiftr_div_pow2 by lia.
  rewrite (as_u8_small (M / 2 ^ q)) by lia.
  rewrite (land_ones_mod (M / 2 ^ q) w) by lia. rewrite (Z.mod_small (M / 2 ^ q)) by done.
  rewrite !(land_ones_mod _ 1 1) by done. rewrite (land_ones_mod _ (q - 1)) by lia. change (2 ^ 1) with 2.
  rewrite as_u8_small by (pose proof (Z.mod_pos_bound (M / 2 ^ (q - 1)) 2 ltac:(lia)); lia).
  unfold rne. destruct (Z.eqb_spec (M mod 2 ^ (q - 1)) 0); cbn [negb Z.eqb orb andb];
    destruct (_ =? 1); destruct ((M / 2 ^ q) mod 2 =? 1); cbn; unfold wadd, wrap;
    rewrite ?(Z.mod_small (M / 2 ^ q + 1)) by lia; split_and!; (done || lia).
Qed.

Lemma from_f32_normal s E M :
  0 <= s < 2 → 121 <= E → 0 <= M < 2 ^ 23 → E * 2 ^ 23 + M < 1131937792 (* 248.0 *) →
  E4m3.from_f32 (s * 2 ^ 31 + E * 2 ^ 23 + M) = s * 2 ^ 7 + (E - 120) * 2 ^ 3 + rne 20 M.
Proof.
  intros Hs HE HM Hmax. assert (HE' : E <= 134) by lia.
  unfold E4m3.from_f32, is_nan32, f32_clamp. rewrite f32_abs_of by lia.
  rewrite !(proj2 (Z.ltb_ge _ _)) by lia. rewrite f32_abs_of by lia.
  rewrite (proj2 (Z.eqb_neq _ 0)) by lia.
  set (x := s * 2 ^ 31 + E * 2 ^ 23 + M).
  change (Z.shiftr x 31) with (f32_sign x). change (Z.land (Z.shiftr x 23) 255) with (f32_exponent x).
  change (Z.land x 8388607) with (f32_mantissa x). unfold x.
  rewrite f32_sign_of, f32_exponent_of, f32_mantissa_of by lia. clear x.
  rewrite (proj2 (Z.leb_gt _ _)) by lia.
  rewrite (as_u8_small s), (Z.shiftl_mul_pow2 s 7), (as_u8_small (s * 2 ^ 7)) by lia.
  destruct (rne_step 20 3 M) as (Hr & Heq & Hlt); [lia..|]. cbn zeta in *.
  change (2 ^ 3 - 1) with 7 in *. change (20 - 1) with 19 in *. change (2 ^ 19 - 1) with 524287 in *.
  rewrite Heq. set (up := _ && _) in *. clearbody up. change (2 ^ 3) with 8 in *.
  replace (E - 127 + 7) with (E - 120) by lia. rewrite as_u8_small by lia.
  destruct (up && (rne 20 M =? 8)) eqn:Hc.
  - apply andb_true_iff in Hc as [_ Hc%Z.eqb_eq].
    assert (E <= 133).
    { destruct (Z.le_gt_cases E 133); [done|]. pose proof (rne_half 20 M). lia. }
    unfold wadd, wrap. rewrite Z.mod_small by lia. rewrite (proj2 (Z.leb_gt _ _)) by lia.
    rewrite (or_fields 3 4) by lia. lia.
  - rewrite (proj2 (Z.leb_gt _ _)) by lia. rewrite (or_fields 3 4); [lia..|].
    destruct up; cbn in Hc; [apply Z.eqb_neq in Hc; lia|]. specialize (Hlt eq_refl). lia.
Qed.

(** A number of significand below [2 * n] lies on the grid of a binade or outside
    the binade. *)
Lemma float_grid n m ex e0 e :
  0 <= n → - (2 * n) < m < 2 * n → 0 <= e0 → 1 <= e → 1 <= ex →
  m * 2 ^ (ex + e0) <= n * 2 ^ (e + e0) ∨ 2 * n * 2 ^ (e + e0) <= m * 2 ^ (ex + e0) ∨
  ∃ j, m * 2 ^ (ex + e0) = j * 2 ^ (e + e0).
Proof.
  intros Hn Hm He0 He Hex. destruct (Z.le_gt_cases e ex) as [Hle|Hlt].
  - right; right. exists (m * 2 ^ (ex - e)).
    rewrite <-Z.mul_assoc, <-Z.pow_add_r by lia. do 2 f_equal. lia.
  - left. replace (e + e0) with (Z.succ (e - 1 + e0)) by lia. rewrite Z.pow_succ_r by lia.
    assert (2 ^ (ex + e0) <= 2 ^ (e - 1 + e0)) by (apply Z.pow_le_mono_r; lia).
    assert (0 < 2 ^ (ex + e0)) by (apply Z.pow_pos_nonneg; lia). nia.
Qed.

Lemma in_range (lo : nat) n z : Z.of_nat lo <= z < Z.of_nat lo + Z.of_nat n →
  In z (Z.of_nat <$> seq lo n).
Proof. intros Hz. replace z with (Z.of_nat (Z.to_nat z)) by lia. apply in_map, in_seq. lia. Qed.

Lemma code_grid n m exp e0 e sg u :
  0 <= m < n → 0 <= exp → 0 <= e0 → 1 <= e → sg = 1 ∨ sg = -1 →
  u = sg * (if exp =? 0 then m * 2 ^ (1 + e0) else (m + n) * 2 ^ (exp + e0)) →
  u <= n * 2 ^ (e + e0) ∨ 2 * n * 2 ^ (e + e0) <= u ∨ ∃ j, u = j * 2 ^ (e + e0).
Proof.
  intros Hm Hexp He0 He Hsg ->. destruct (Z.eqb_spec exp 0); rewrite Z.mul_assoc; apply float_grid; lia.
Qed.

Lemma e4_grid e b u : 1 <= e → u = E4m3.units b ∨ u = - E4m3.units b →
  u <= 8 * 2 ^ (e + 139) ∨ 2 * 8 * 2 ^ (e + 139) <= u ∨ ∃ j, u = j * 2 ^ (e + 139).
Proof.
  intros He Hu. pose proof (Z.mod_pos_bound b 8). pose proof (Z.mod_pos_bound (b / 8) 16).
  apply (code_grid 8 (b mod 8) ((b / 8) mod 16) 139 e
    ((if b <? 128 then 1 else -1) * (if decide (u = E4m3.units b) then 1 else -1)));
    [lia..|destruct (b <? 128), (decide _); lia|].
  unfold E4m3.units in *. change (1 + 139) with 140. case_decide; [lia|]. destruct Hu; [done|lia].
Qed.

Lemma e4_units_of s e k : 0 <= s < 2 → 1 <= e → 0 <= k <= 8 → e * 8 + k < 127 →
  E4m3.is_code (s * 2 ^ 7 + e * 2 ^ 3 + k) = true ∧
  E4m3.units (s * 2 ^ 7 + e * 2 ^ 3 + k) = (if s =? 1 then -1 else 1) * ((k + 8) * 2 ^ (e + 139)).
Proof.
  intros Hs He Hk Hmax.
  assert (Hcheck : forallb (λ s, forallb (λ e, forallb (λ k,
    (127 <=? e * 8 + k) || E4m3.is_code (s * 2 ^ 7 + e * 2 ^ 3 + k) &&
    (E4m3.units (s * 2 ^ 7 + e * 2 ^ 3 + k) =? (if s =? 1 then -1 else 1) * ((k + 8) * 2 ^ (e + 139))))
      (Z.of_nat <$> seq 0 9)) (Z.of_nat <$> seq 1 15)) [0; 1] = true) by run.
  rewrite forallb_forall in Hcheck. specialize (Hcheck s ltac:(cbn; lia)).
  rewrite forallb_forall in Hcheck.
  specialize (Hcheck e ltac:(apply in_range; lia)).
  rewrite forallb_forall in Hcheck.
  specialize (Hcheck k ltac:(apply in_range; lia)).
  rewrite (proj2 (Z.leb_gt _ _)) in Hcheck by lia. cbn [orb] in Hcheck.
  apply andb_true_iff in Hcheck as [? ?%Z.eqb_eq]. done.
Qed.

(** What is left of an encoding's correctness once its result is known. *)
Lemma encoded_nearest q w s E M (units : Z → Z) c b :
  1 <= q → 0 <= w → q + w = 23 → 0 <= s < 2 → 1 <= E < 256 → 0 <= M < 2 ^ 23 →
  units c = (if s =? 1 then -1 else 1) * ((rne q M + 2 ^ w) * 2 ^ (E - 1 + q)) →
  (∀ u, u = units b ∨ u = - units b →
     u <= 2 ^ w * 2 ^ (E - 1 + q) ∨ 2 * 2 ^ w * 2 ^ (E - 1 + q) <= u ∨ ∃ j, u = j * 2 ^ (E - 1 + q)) →
  let x := s * 2 ^ 31 + E * 2 ^ 23 + M in
  Z.abs (f32_units x - units c) <= Z.abs (f32_units x - units b).
Proof.
  intros Hq Hw Hqw Hs HE HM Hc Hb x. unfold f32_units, x.
  rewrite f32_sign_of, f32_exponent_of, f32_mantissa_of, (proj2 (Z.eqb_neq E 0)), Hc by lia. clear x Hc.
  assert (0 < 2 ^ (E - 1)) by (apply Z.pow_pos_nonneg; lia).
  assert (0 < 2 ^ q) by (apply Z.pow_pos_nonneg; lia).
  assert (Hg : 2 ^ (E - 1 + q) = 2 ^ q * 2 ^ (E - 1)) by (rewrite Z.pow_add_r by lia; lia).
  assert (H23 : 2 ^ 23 = 2 ^ w * 2 ^ q) by (rewrite <-Z.pow_add_r by lia; f_equal; lia).
  pose proof (rne_half q M Hq ltac:(lia)) as Hh.
  assert (Hmain : ∀ U, U <= 2 ^ w * 2 ^ (E - 1 + q) ∨ 2 * 2 ^ w * 2 ^ (E - 1 + q) <= U ∨
      (∃ j, U = j * 2 ^ (E - 1 + q)) →
    Z.abs ((M + 2 ^ 23) * 2 ^ (E - 1) - (rne q M + 2 ^ w) * 2 ^ (E - 1 + q)) <=
      Z.abs ((M + 2 ^ 23) * 2 ^ (E - 1) - U)).
  { intros U. apply (grid_nearest _ (2 ^ w)); rewrite Hg; [nia|rewrite H23 in *; nia|].
    replace ((M + 2 ^ 23) * 2 ^ (E - 1) - (rne q M + 2 ^ w) * (2 ^ q * 2 ^ (E - 1)))
      with ((M - rne q M * 2 ^ q) * 2 ^ (E - 1)) by (rewrite H23; ring).
    rewrite Z.abs_mul, (Z.abs_eq (2 ^ (E - 1))) by lia. nia. }
  destruct (Z.eqb_spec s 1).
  - specialize (Hmain (- units b) (Hb _ (or_intror eq_refl))). lia.
  - specialize (Hmain (units b) (Hb _ (or_introl eq_refl))). lia.
Qed.

Lemma e4_nearest x b :
  0 <= x < 2 ^ 32 → 1015021568 (* 2^-6 *) <= f32_abs x < 1131937792 (* 248 *) →
  E4m3.is_code (E4m3.from_f32 x) = true ∧
  Z.abs (f32_units x - E4m3.units (E4m3.from_f32 x)) <= Z.abs (f32_units x - E4m3.units b).
Proof.
  intros Hx Hr. destruct (f32_fields x Hx) as (Hs & HE & HM & Hfields).
  revert Hr. rewrite Hfields, f32_abs_of by lia. intros Hr.
  set (s := x / 2 ^ 31) in *. set (E := (x / 2 ^ 23) mod 256) in *. set (M := x mod 2 ^ 23) in *.
  clearbody s E M. clear x Hx Hfields.
  rewrite from_f32_normal by lia.
  destruct (rne_step 20 3 M) as (Hk & _ & _); [lia..|]. change (2 ^ 3) with 8 in Hk.
  assert (Hfit : (E - 120) * 8 + rne 20 M < 127).
  { destruct (Z.le_gt_cases E 133); [lia|]. pose proof (rne_half 20 M). lia. }
  destruct (e4_units_of s (E - 120) (rne 20 M)) as [Hcode Hunits]; [lia..|].
  split; [done|]. replace (E - 120 + 139) with (E - 1 + 20) in Hunits by lia.
  apply (encoded_nearest 20 3); [lia..|exact Hunits|].
  intros u Hu. replace (E - 1 + 20) with (E - 120 + 139) by lia. apply (e4_grid _ b); [lia|done].
Qed.

(** ** E5M2 *)

Lemma from_f32_normal5 s E M :
  0 <= s < 2 → 113 <= E → 0 <= M < 2 ^ 23 → E * 2 ^ 23 + M < 1198522368 (* 61440.0 *) →
  E5m2.from_f32 (s * 2 ^ 31 + E * 2 ^ 23 + M) = s * 2 ^ 7 + (E - 112) * 2 ^ 2 + rne 21 M.
Proof.
  intros Hs HE HM Hmax. assert (HE' : E <= 142) by lia.
  unfold E5m2.from_f32, is_nan32. rewrite f32_abs_of by lia.
  rewrite !(proj2 (Z.ltb_ge _ _)) by lia. rewrite (proj2 (Z.eqb_neq _ 0)) by lia.
  set (x := s * 2 ^ 31 + E * 2 ^ 23 + M).
  change (Z.shiftr x 31) with (f32_sign x). change (Z.land (Z.shiftr x 23) 255) with (f32_exponent x).
  change (Z.land x 8388607) with (f32_mantissa x). unfold x.
  rewrite f32_sign_of, f32_exponent_of, f32_mantissa_of by lia. clear x.
  rewrite !(proj2 (Z.leb_gt _ _)) by lia.
  rewrite (as_u8_small s), (Z.shiftl_mul_pow2 s 7), (as_u8_small (s * 2 ^ 7)) by lia.
  destruct (rne_step 21 2 M) as (Hr & Heq & Hlt); [lia..|]. cbn zeta in *.
  change (2 ^ 2 - 1) with 3 in *. change (21 - 1) with 20 in *. change (2 ^ 20 - 1) with 1048575 in *.
  rewrite Heq. set (up := _ && _) in *. clearbody up. change (2 ^ 2) with 4 in *.
  replace (E - 127 + 15) with (E - 112) by lia. rewrite as_u8_small by lia.
  destruct (up && (rne 21 M =? 4)) eqn:Hc.
  - apply andb_true_iff in Hc as [_ Hc%Z.eqb_eq].
    assert (E <= 141).
    { destruct (Z.le_gt_cases E 141); [done|]. pose proof (rne_half 21 M). lia. }
    unfold wadd, wrap. rewrite Z.mod_small by lia. rewrite (proj2 (Z.leb_gt _ _)) by lia.
    rewrite (or_fields 2 5) by lia. lia.
  - rewrite (proj2 (Z.leb_gt _ _)) by lia. rewrite (or_fields 2 5); [lia..|].
    destruct up; cbn in Hc; [apply Z.eqb_neq in Hc; lia|]. specialize (Hlt eq_refl). lia.
Qed.

Lemma e5_grid e b u : 1 <= e → u = E5m2.units b ∨ u = - E5m2.units b →
  u <= 4 * 2 ^ (e + 132) ∨ 2 * 4 * 2 ^ (e + 132) <= u ∨ ∃ j, u = j * 2 ^ (e + 132).
Proof.
  intros He Hu. pose proof (Z.mod_pos_bound b 4). pose proof (Z.mod_pos_bound (b / 4) 32).
  apply (code_grid 4 (b mod 4) ((b / 4) mod 32) 132 e
    ((if b <? 128 then 1 else -1) * (if decide (u = E5m2.units b) then 1 else -1)));
    [lia..|destruct (b <? 128), (decide _); lia|].
  unfold E5m2.units in *. change (1 + 132) with 133. case_decide; [lia|]. destruct Hu; [done|lia].
Qed.

Lemma e5_units_of s e k : 0 <= s < 2 → 1 <= e → 0 <= k <= 4 → e * 4 + k < 124 →
  E5m2.is_code (s * 2 ^ 7 + e * 2 ^ 2 + k) = true ∧
  E5m2.units (s * 2 ^ 7 + e * 2 ^ 2 + k) = (if s =? 1 then -1 else 1) * ((k + 4) * 2 ^ (e + 132)).
Proof.
  intros Hs He Hk Hmax.
  assert (Hcheck : forallb (λ s, forallb (λ e, forallb (λ k,
    (124 <=? e * 4 + k) || E5m2.is_code (s * 2 ^ 7 + e * 2 ^ 2 + k) &&
    (E5m2.units (s * 2 ^ 7 + e * 2 ^ 2 + k) =? (if s =? 1 then -1 else 1) * ((k + 4) * 2 ^ (e + 132))))
      (Z.of_nat <$> seq 0 5)) (Z.of_nat <$> seq 1 31)) [0; 1] = true) by run.
  rewrite forallb_forall in Hcheck. specialize (Hcheck s ltac:(cbn; lia)).
  rewrite forallb_forall in Hcheck. specialize (Hcheck e ltac:(apply in_range; lia)).
  rewrite forallb_forall in Hcheck. specialize (Hcheck k ltac:(apply in_range; lia)).
  rewrite (proj2 (Z.leb_gt _ _)) in Hcheck by lia. cbn [orb] in Hcheck.
  apply andb_true_iff in Hcheck as [? ?%Z.eqb_eq]. done.
Qed.

Lemma e5_nearest x b :
  0 <= x < 2 ^ 32 → 947912704 (* 2^-14 *) <= f32_abs x < 1198522368 (* 61440 *) →
  E5m2.is_code (E5m2.from_f32 x) = true ∧
  Z.abs (f32_units x - E5m2.units (E5m2.from_f32 x)) <= Z.abs (f32_units x - E5m2.units b).
Proof.
  intros Hx Hr. destruct (f32_fields x Hx) as (Hs & HE & HM & Hfields).
  revert Hr. rewrite Hfields, f32_abs_of by lia. intros Hr.
  set (s := x / 2 ^ 31) in *. set (E := (x / 2 ^ 23) mod 256) in *. set (M := x mod 2 ^ 23) in *.
  clearbody s E M. clear x Hx Hfields.
  rewrite from_f32_normal5 by lia.
  destruct (rne_step 21 2 M) as (Hk & _ & _); [lia..|]. change (2 ^ 2) with 4 in Hk.
  assert (Hfit : (E - 112) * 4 + rne 21 M < 124).
  { destruct (Z.le_gt_cases E 141); [lia|]. pose proof (rne_half 21 M). lia. }
  destruct (e5_units_of s (E - 112) (rne 21 M)) as [Hcode Hunits]; [lia..|].
  split; [done|]. replace (E - 112 + 132) with (E - 1 + 21) in Hunits by lia.
  apply (encoded_nearest 21 2); [lia..|exact Hunits|].
  intros u Hu. replace (E - 1 + 21) with (E - 112 + 132) by lia. apply (e5_grid _ b); [lia|done].
Qed.

(** ** The theorems *)

Definition e4_trips (b : Z) : bool :=
  Bool.eqb (E4m3.from_f32 (E4m3.to_f32 b) =? b)
    (negb ((4 <=? b mod 128) && (b mod 128 <? 8) || (120 <=? b mod 128) && (b mod 128 <? 126) || (b =? 255))).
Definition e5_trips (b : Z) : bool :=
  Bool.eqb (E5m2.from_f32 (E5m2.to_f32 b) =? b)
    (negb ((2 <=? b mod 128) && (b mod 128 <? 4) || (124 <? b mod 128) && negb (b =? 126))).



(** C20 (fp8 encoding rounds to nearest): for every [f32] of magnitude from the
    smallest normal code value up to the last one that rounds to a finite code
    below the point where the encoder saturates (248 for E4M3, 61440 for E5M2),
    [from_f32] is a finite code and no finite code is closer to the argument. *)
Theorem fp8_encodes_nearest (x : Z) (Hx : 0 <= x < 2 ^ 32) :
  (1015021568 (* 2^-6 *) <= f32_abs x < 1131937792 (* 248.0 *) →
   E4m3.is_code (E4m3.from_f32 x) = true ∧
   ∀ b, E4m3.is_code b = true →
     Z.abs (f32_units x - E4m3.units (E4m3.from_f32 x)) <= Z.abs (f32_units x - E4m3.units b)) ∧
  (947912704 (* 2^-14 *) <= f32_abs x < 1198522368 (* 61440.0 *) →
   E5m2.is_code (E5m2.from_f32 x) = true ∧
   ∀ b, E5m2.is_code b = true →
     Z.abs (f32_units x - E5m2.units (E5m2.from_f32 x)) <= Z.abs (f32_units x - E5m2.units b)).
Proof.
  split; intros Hr; (split; [|intros b Hb]).
  - by apply (e4_nearest x 0).
  - by apply e4_nearest.
  - by apply (e5_nearest x 0).
  - by apply e5_nearest.
Qed.

Lemma fp8_encodes_nearest_witness :
  E4m3.from_f32 1091567616 (* 9.0 *) = 81 ∧ E4m3.is_code (E4m3.from_f32 1091567616) = true.
Proof.
  split; [run|]. apply (fp8_encodes_nearest 1091567616); [lia|]. split; [|done]. by vm_compute.
Defined.

(** *** What the codecs do outside that range *)

(** Decoding is exact on the normal codes and doubles the subnormal ones. *)
Lemma e4_decode_value b : 0 <= b < 256 → E4m3.is_code b = true →
  f32_units (E4m3.to_f32 b) = (if (b / 8) mod 16 =? 0 then 2 else 1) * E4m3.units b.
Proof.
  intros Hb Hc.
  assert (H := all_bytes (λ b, negb (E4m3.is_code b) || (f32_units (E4m3.to_f32 b) =?
    (if (b / 8) mod 16 =? 0 then 2 else 1) * E4m3.units b)) ltac:(run) b Hb).
  cbn beta in H. rewrite Hc in H. by apply Z.eqb_eq.
Qed.

Lemma e5_decode_value b : 0 <= b < 256 → E5m2.is_code b = true →
  f32_units (E5m2.to_f32 b) = (if (b / 4) mod 32 =? 0 then 2 else 1) * E5m2.units b.
Proof.
  intros Hb Hc.
  assert (H := all_bytes (λ b, negb (E5m2.is_code b) || (f32_units (E5m2.to_f32 b) =?
    (if (b / 4) mod 32 =? 0 then 2 else 1) * E5m2.units b)) ltac:(run) b Hb).
  cbn beta in H. rewrite Hc in H. by apply Z.eqb_eq.
Qed.

(** 256.0 is the code 120, but the encoder answers the largest code (448.0); a
    magnitude below the subnormals gives the low mantissa bits; and the one of the
    4-bit format decodes to 2. *)
Example e4_encode_256 : E4m3.units 120 = f32_units 1132462080 ∧ E4m3.from_f32 1132462080 = 126.
Proof. split; run. Qed.
Example e4_encode_tiny : E4m3.from_f32 922746887 (* 2^-17 and 7 units more *) = 7.
Proof. run. Qed.
Example e2_one : E2m1.to_halves E2m1.ONE = 4 ∧ E2m1.to_halves 2 = 2.
Proof. split; run. Qed.
