(* ===== verification/DeviceState.v ===== *)
(** * Shared device state and generation-checked buffers

    Models [device/state.rs] ([DeviceState]) and [gpu_ref.rs] ([GpuRef]) of
    [crates/atomr-accel-cuda/src].  A CUDA context, stream and device slice
    are opaque identifiers.  [Weak::upgrade] is the [option DeviceState]
    handed to [access]; the reference count of a slice is explicit, because
    kernels unwrap the [Arc] they get from [access]. *)

From S2P Require Import Prelude Errors.

Abbreviation ctx_id := nat (only parsing).
Abbreviation stream_id := nat (only parsing).
Abbreviation slice_id := nat (only parsing).

Record DeviceState := {
  device_id : Z;
  generation : Z;
  accepting_ops : bool;
  current_ctx : option ctx_id;
  (** The values sent on [generation_tx], oldest first. *)
  published : list Z;
}.

Definition DeviceState_new (id : Z) : DeviceState :=
  {| device_id := id; generation := 0; accepting_ops := true;
     current_ctx := None; published := [] |}.

(** [fetch_add(1)] on an [AtomicU64], then a publication on the watch channel. *)
Definition bump_generation (s : DeviceState) : DeviceState * Z :=
  let new := generation s +₆₄ 1 in
  ({| device_id := device_id s; generation := new; accepting_ops := accepting_ops s;
      current_ctx := current_ctx s; published := published s ++ [new] |}, new).

Definition begin_shutdown (s : DeviceState) : DeviceState :=
  {| device_id := device_id s; generation := generation s; accepting_ops := false;
     current_ctx := current_ctx s; published := published s |}.

Definition install_context (c : ctx_id) (s : DeviceState) : DeviceState :=
  {| device_id := device_id s; generation := generation s; accepting_ops := accepting_ops s;
     current_ctx := Some c; published := published s |}.

Definition clear_context (s : DeviceState) : DeviceState :=
  {| device_id := device_id s; generation := generation s; accepting_ops := accepting_ops s;
     current_ctx := None; published := published s |}.

(** ** GpuRef *)

Record GpuRef := {
  slice : slice_id;
  ref_generation : Z;
  last_write_stream : option stream_id;
}.

(** [GpuRef::new] *)
Definition GpuRef_new (sl : slice_id) (s : DeviceState) : GpuRef :=
  {| slice := sl; ref_generation := generation s; last_write_stream := None |}.

(** [GpuRef::access]; the second argument is [self.inner.state.upgrade()]. *)
Definition access (r : GpuRef) (state : option DeviceState) : result slice_id GpuError :=
  match state with
  | None => Err (GpuRefStale "device state dropped")
  | Some st =>
    if negb (accepting_ops st) then Err (GpuRefStale "device shutting down")
    else if negb (generation st =? ref_generation r)%Z then Err (GpuRefStale "context rebuilt")
    else Ok (slice r)
  end.

Arguments access : simpl never.

(** [access] succeeds on a live, accepting device of the same generation. *)
Lemma access_Ok r st sl :
  access r (Some st) = Ok sl ↔
    accepting_ops st = true ∧ generation st = ref_generation r ∧ sl = slice r.
Proof.
  unfold access. destruct (accepting_ops st); simpl; [|naive_solver].
  destruct (Z.eqb_spec (generation st) (ref_generation r)); simpl; naive_solver.
Qed.

(** [GpuRef::device_id] *)
Definition ref_device_id (state : option DeviceState) : option Z := device_id <$> state.

(** [GpuRef::record_write] *)
Definition record_write (st : stream_id) (r : GpuRef) : GpuRef :=
  {| slice := slice r; ref_generation := ref_generation r; last_write_stream := Some st |}.

(** ** The operations on a [DeviceState] in the order they happen *)

Inductive state_op : Type :=
  | BumpGeneration
  | BeginShutdown
  | InstallContext (c : ctx_id)
  | ClearContext.

#[global] Instance state_op_eq_dec : EqDecision state_op.
Proof. solve_decision. Defined.

Definition apply_op (s : DeviceState) (op : state_op) : DeviceState :=
  match op with
  | BumpGeneration => (bump_generation s).1
  | BeginShutdown => begin_shutdown s
  | InstallContext c => install_context c s
  | ClearContext => clear_context s
  end.

Definition apply_ops : DeviceState → list state_op → DeviceState := foldl apply_op.

Definition bumps (ops : list state_op) : Z :=
  Z.of_nat (length (filter (λ op, op = BumpGeneration) ops)).

Lemma bumps_nonneg ops : (0 ≤ bumps ops)%Z.
Proof. unfold bumps. lia. Qed.

Lemma bumps_cons op ops :
  bumps (op :: ops) = (if decide (op = BumpGeneration) then 1 + bumps ops else bumps ops)%Z.
Proof. unfold bumps. rewrite filter_cons. case_decide; simpl; lia. Qed.

Lemma bumps_zero ops : bumps ops = 0%Z ↔ BumpGeneration ∉ ops.
Proof.
  induction ops as [|op ops IH]; [split; [intros _ H; inversion H|done]|].
  rewrite bumps_cons, not_elem_of_cons, <-IH. pose proof (bumps_nonneg ops).
  case_decide; subst; split; intros; naive_solver lia.
Qed.

(** The generation counts the bumps, modulo 2^64. *)
Lemma apply_ops_generation s ops :
  in_width 64 (generation s) →
  generation (apply_ops s ops) = wrap 64 (generation s + bumps ops).
Proof.
  revert s; induction ops as [|op ops IH]; intros s Hs.
  - unfold bumps; simpl. by rewrite Z.add_0_r, wrap_small.
  - change (apply_ops s (op :: ops)) with (apply_ops (apply_op s op) ops).
    assert (in_width 64 (generation (apply_op s op))).
    { destruct op; simpl; try done. by apply wrap_in_width. }
    rewrite IH, bumps_cons by done.
    destruct op; simpl; try done.
    change (wadd 64 (wadd 64 (generation s) 1) (bumps ops) = wrap 64 (generation s + (1 + bumps ops))).
    apply wadd_assoc_Z.
Qed.

(** Fewer than 2^64 operations leave the generation as it was only if none bumped it. *)
Lemma apply_ops_same_generation s ops :
  in_width 64 (generation s) → (bumps ops < 2 ^ 64)%Z →
  generation (apply_ops s ops) = generation s ↔ bumps ops = 0%Z.
Proof.
  intros Hw Hb. rewrite apply_ops_generation by done. pose proof (bumps_nonneg ops). unfold wrap, in_width in *.
  split; [|intros ->; rewrite Z.add_0_r; by apply Z.mod_small].
  intros He. destruct (decide (generation s + bumps ops < 2 ^ 64)%Z).
  - rewrite Z.mod_small in He; lia.
  - replace (generation s + bumps ops)%Z
      with ((generation s + bumps ops - 2 ^ 64) + 1 * 2 ^ 64)%Z in He by lia.
    rewrite Z_mod_plus_full, Z.mod_small in He; lia.
Qed.

Lemma apply_ops_accepting s ops :
  accepting_ops (apply_ops s ops) = accepting_ops s && bool_decide (BeginShutdown ∉ ops).
Proof.
  revert s; induction ops as [|op ops IH]; intros s.
  - rewrite bool_decide_true by (apply not_elem_of_nil). by rewrite andb_true_r.
  - change (apply_ops s (op :: ops)) with (apply_ops (apply_op s op) ops). rewrite IH.
    destruct op; cbn [apply_op bump_generation begin_shutdown install_context clear_context
      fst accepting_ops]; try (f_equal; apply bool_decide_ext; set_solver).
    rewrite (bool_decide_false (_ ∉ _ :: _)), andb_false_r; [done|]. set_solver.
Qed.

(** A reference minted on a live state, seen after a sequence of operations. *)
Lemma access_ops (s : DeviceState) (sl sl' : slice_id) (ops : list state_op) :
  in_width 64 (generation s) → accepting_ops s = true → (bumps ops < 2 ^ 64)%Z →
  access (GpuRef_new sl s) (Some (apply_ops s ops)) = Ok sl' ↔
    bumps ops = 0%Z ∧ BeginShutdown ∉ ops ∧ sl' = sl.
Proof.
  intros Hw Hacc Hb. rewrite access_Ok, apply_ops_accepting, Hacc.
  cbn [GpuRef_new ref_generation slice andb]. rewrite bool_decide_eq_true.
  rewrite apply_ops_same_generation by done. tauto.
Qed.

(** A buffer is valid exactly until the next rebuild: a [GpuRef] minted on a
    live device state is accessible after any sequence of fewer than 2^64
    operations if and only if none of them bumped the generation or began the
    shutdown; otherwise [access] answers a [GpuRefStale] error and never the
    slice. *)
Theorem access_until_rebuild (s : DeviceState) (sl : slice_id) (ops : list state_op) :
  in_width 64 (generation s) → accepting_ops s = true → (bumps ops < 2 ^ 64)%Z →
  (access (GpuRef_new sl s) (Some (apply_ops s ops)) = Ok sl ↔
     BumpGeneration ∉ ops ∧ BeginShutdown ∉ ops) ∧
  (∀ sl', access (GpuRef_new sl s) (Some (apply_ops s ops)) = Ok sl' → sl' = sl).
Proof.
  intros Hw Hacc Hb. rewrite <-bumps_zero, access_ops by done. split; [tauto|].
  intros sl'. rewrite access_ops by done. tauto.
Qed.

Lemma access_until_rebuild_witness :
  access (GpuRef_new 7 (DeviceState_new 0))
    (Some (apply_ops (DeviceState_new 0) [InstallContext 1; ClearContext])) = Ok 7.
Proof.
  destruct (access_until_rebuild (DeviceState_new 0) 7 [InstallContext 1; ClearContext])
    as [[_ H] _]; [done|done|done|].
  apply H. split; by apply (bool_decide_unpack _).
Defined.

(** ** Reference counts of device slices *)

(** The strong count of each [Arc<CudaSlice>]. *)
Abbreviation arcs := (gmap slice_id nat).

Definition strong_count (h : arcs) (sl : slice_id) : nat := default 0 (h !! sl).
Definition arc_clone (sl : slice_id) (h : arcs) : arcs := <[sl := S (strong_count h sl)]> h.
Definition arc_drop (sl : slice_id) (h : arcs) : arcs := <[sl := pred (strong_count h sl)]> h.

(** [Arc::try_unwrap]: succeeds when the argument is the only strong
    reference; otherwise the argument comes back in the error (and the callers
    drop it). *)
Definition try_unwrap (sl : slice_id) (h : arcs) : bool * arcs :=
  if decide (strong_count h sl = 1) then (true, arc_drop sl h) else (false, arc_drop sl h).

(** A live [GpuRef] holds one strong reference on its slice. *)
Definition holds (h : arcs) (r : GpuRef) : Prop := 1 ≤ strong_count h (slice r).

Lemma strong_count_clone h sl : strong_count (arc_clone sl h) sl = S (strong_count h sl).
Proof. unfold arc_clone, strong_count at 1. by rewrite lookup_insert_eq. Qed.

Lemma arc_drop_clone h sl :
  strong_count (arc_drop sl (arc_clone sl h)) sl = strong_count h sl.
Proof.
  unfold arc_drop, strong_count at 1. rewrite lookup_insert_eq. cbn.
  by rewrite strong_count_clone.
Qed.

Lemma arc_drop_clone_all h sl sl' :
  strong_count (arc_drop sl (arc_clone sl h)) sl' = strong_count h sl'.
Proof.
  destruct (decide (sl = sl')) as [<-|Hne]; [apply arc_drop_clone|].
  unfold arc_drop, arc_clone, strong_count at 1. by rewrite !lookup_insert_ne.
Qed.

(** Unwrapping a clone taken from a live reference always fails. *)
Lemma try_unwrap_clone h r :
  holds h r → (try_unwrap (slice r) (arc_clone (slice r) h)).1 = false.
Proof.
  unfold holds, try_unwrap. rewrite strong_count_clone. intros. by rewrite decide_False by lia.
Qed.

Lemma strong_count_clone_ne h sl sl' : sl ≠ sl' → strong_count (arc_clone sl h) sl' = strong_count h sl'.
Proof. intros. unfold arc_clone, strong_count at 1. by rewrite lookup_insert_ne. Qed.

Lemma holds_clone h sl r : holds h r → holds (arc_clone sl h) r.
Proof.
  unfold holds. destruct (decide (sl = slice r)) as [->|Hne].
  - rewrite strong_count_clone. lia.
  - by rewrite strong_count_clone_ne.
Qed.
