(* ===== verification/DeviceActor.v ===== *)
(** * DeviceActor: the stable outer tier

    Models [crates/atomr-accel-cuda/src/device/device_actor.rs] with the request
    payloads of [device/alloc_dispatch.rs] and [device/alloc_msg.rs].  The
    handler is one function: the translation of the deprecated per-dtype
    messages, then the dispatch on readiness.  Work that arrives while the
    context is being built waits in [pending]; [ContextReady] drains it.
    A [oneshot::Sender] is a channel number. *)

From S2P Require Import Prelude Actor Errors Dtype DeviceState.

(** ** Requests *)

Inductive HostBuf : Type :=
  | Owned (v : list Z)
  | Pinned (v : list Z).

Definition HostBuf_len (b : HostBuf) : nat :=
  match b with Owned v => length v | Pinned p => length p end.

Record AllocReq := { al_dtype : DType; al_len : nat; al_reply : nat }.
Record CopyToHostReq :=
  { th_dtype : DType; th_src : GpuRef; th_dst : HostBuf; th_reply : nat }.
Record CopyFromHostReq :=
  { fh_dtype : DType; fh_src : HostBuf; fh_dst : GpuRef; fh_reply : nat }.

(** [alpha] and [beta] are passed through, as the bits of an [f32]. *)
Record SgemmRequest :=
  { sg_a : GpuRef; sg_b : GpuRef; sg_c : GpuRef; sg_m : Z; sg_n : Z; sg_k : Z;
    sg_alpha : Z; sg_beta : Z; sg_reply : nat }.

Record DeviceLoad :=
  { free_bytes : Z; total_bytes : Z; active_streams : Z; queue_depth : Z;
    compute_cap : Z * Z }.

(** The kernel actors of one context incarnation; an [ActorRef] is a number
    and [extras] the location of the shared registry. *)
Record KernelChildren :=
  { blas : nat; cudnn : option nat; fft : option nat; rng : option nat;
    solver : option nat; nvrtc : option nat; extras : nat }.

(** ** Messages *)

Inductive DeviceMsg : Type :=
  | Alloc (r : AllocReq)
  | CopyToHost (r : CopyToHostReq)
  | CopyFromHost (r : CopyFromHostReq)
  (* deprecated per-dtype variants *)
  | Allocate (len : nat) (reply : nat)
  | AllocateF32 (len : nat) (reply : nat)
  | AllocateF64 (len : nat) (reply : nat)
  | AllocateI8 (len : nat) (reply : nat)
  | AllocateI32 (len : nat) (reply : nat)
  | AllocateI64 (len : nat) (reply : nat)
  | AllocateU8 (len : nat) (reply : nat)
  | AllocateU32 (len : nat) (reply : nat)
  | AllocateU64 (len : nat) (reply : nat)
  | AllocateF16 (len : nat) (reply : nat)
  | AllocateBf16 (len : nat) (reply : nat)
  | CopyToHostF32 (src : GpuRef) (dst : HostBuf) (reply : nat)
  | CopyFromHostF32 (src : HostBuf) (dst : GpuRef) (reply : nat)
  | CopyToHostF64 (src : GpuRef) (dst : HostBuf) (reply : nat)
  | CopyFromHostF64 (src : HostBuf) (dst : GpuRef) (reply : nat)
  | CopyToHostI32 (src : GpuRef) (dst : HostBuf) (reply : nat)
  | CopyFromHostI32 (src : HostBuf) (dst : GpuRef) (reply : nat)
  | CopyToHostU32 (src : GpuRef) (dst : HostBuf) (reply : nat)
  | CopyFromHostU32 (src : HostBuf) (dst : GpuRef) (reply : nat)
  | CopyToHostU8 (src : GpuRef) (dst : HostBuf) (reply : nat)
  | CopyFromHostU8 (src : HostBuf) (dst : GpuRef) (reply : nat)
  | Sgemm (r : SgemmRequest)
  | SnapshotContext (reply : nat)
  | SnapshotStream (reply : nat)
  | SnapshotChildren (reply : nat)
  | WatchGeneration (reply : nat)
  | Stats (reply : nat)
  | ContextReady (children : KernelChildren)
  | ContextLost.

(** The part of [ContextMsg] the device actor sends. *)
Inductive ContextMsg : Type :=
  | CtxAlloc (r : AllocReq)
  | CtxCopyToHost (r : CopyToHostReq)
  | CtxCopyFromHost (r : CopyFromHostReq)
  | CtxSnapshotStream (reply : nat).

(** A stashed closure [move |c, _b| c.tell(m)] is the message [m] it tells. *)
Inductive WorkRequest : Type :=
  | Boxed (m : ContextMsg)
  | WSgemm (r : SgemmRequest)
  | WSnapshotContext (reply : nat).

(** ** State and effects *)

Record DeviceConfig :=
  { cfg_device_id : Z; mock_mode : bool; pending_queue_capacity : nat;
    enabled_libraries : Z }.

Record Device := {
  config : DeviceConfig;
  dstate : DeviceState;
  context_ref : option nat;
  children : option KernelChildren;
  pending : list WorkRequest;
}.

Inductive DeviceEff : Type :=
  | TellContext (c : nat) (m : ContextMsg)
  | TellBlas (b : nat) (r : SgemmRequest)
  | ReplySgemm (reply : nat) (r : result unit GpuError)
  | ReplyContext (reply : nat) (c : option ctx_id)
  | ReplyStream (reply : nat) (s : option stream_id)
  | ReplyChildren (reply : nat) (k : option KernelChildren)
  | ReplyWatch (reply : nat)
  | ReplyLoad (reply : nat) (l : DeviceLoad)
  (** A closure dropped with its sender inside: the receiver sees [Err]. *)
  | DropClosure (m : ContextMsg).

Definition DeviceActor_new (cfg : DeviceConfig) : Device :=
  {| config := cfg; dstate := DeviceState_new (cfg_device_id cfg); context_ref := None;
     children := None; pending := [] |}.

Definition DeviceConfig_new (id : Z) : DeviceConfig :=
  {| cfg_device_id := id; mock_mode := false; pending_queue_capacity := 1024;
     enabled_libraries := 1 |}.
Definition DeviceConfig_mock (id : Z) : DeviceConfig :=
  {| cfg_device_id := id; mock_mode := true; pending_queue_capacity := 1024;
     enabled_libraries := 1 |}.
Definition with_libraries (libs : Z) (c : DeviceConfig) : DeviceConfig :=
  {| cfg_device_id := cfg_device_id c; mock_mode := mock_mode c;
     pending_queue_capacity := pending_queue_capacity c; enabled_libraries := libs |}.

Definition set_pending (q : list WorkRequest) (d : Device) : Device :=
  {| config := config d; dstate := dstate d; context_ref := context_ref d;
     children := children d; pending := q |}.
Definition set_children (k : option KernelChildren) (d : Device) : Device :=
  {| config := config d; dstate := dstate d; context_ref := context_ref d;
     children := k; pending := pending d |}.
Definition set_context_ref (c : option nat) (d : Device) : Device :=
  {| config := config d; dstate := dstate d; context_ref := c;
     children := children d; pending := pending d |}.
Definition set_state (s : DeviceState) (d : Device) : Device :=
  {| config := config d; dstate := s; context_ref := context_ref d;
     children := children d; pending := pending d |}.

(** ** Operations *)

Definition enqueue_pending (w : WorkRequest) : act Device DeviceEff unit :=
  d ← get;
  if decide (pending_queue_capacity (config d) ≤ length (pending d)) then
    match w with
    | WSgemm r => emit (ReplySgemm (sg_reply r) (Err (Unrecoverable "device pending queue full")))
    | WSnapshotContext reply => emit (ReplyContext reply None)
    | Boxed m => emit (DropClosure m)
    end
  else put (set_pending (pending d ++ [w]) d).

(** One iteration of the drain loop. *)
Definition run_work (s : DeviceState) (c : nat) (k : KernelChildren) (w : WorkRequest) : DeviceEff :=
  match w with
  | Boxed m => TellContext c m
  | WSgemm r => TellBlas (blas k) r
  | WSnapshotContext reply => ReplyContext reply (current_ctx s)
  end.

Definition drain_pending : act Device DeviceEff unit :=
  d ← get;
  match children d, context_ref d with
  | Some k, Some c =>
    emits (run_work (dstate d) c k <$> pending d);; modify (set_pending [])
  | _, _ => skip
  end.

(** [pre_start] once [ctx.spawn] has returned the child's reference. *)
Definition pre_start (c : nat) : act Device DeviceEff unit :=
  modify (set_context_ref (Some c)).

(** The translation stage: every deprecated variant becomes a generic one. *)
Definition translate (m : DeviceMsg) : DeviceMsg :=
  let alloc t len reply := Alloc {| al_dtype := t; al_len := len; al_reply := reply |} in
  let copy_to_host t src dst reply :=
    CopyToHost {| th_dtype := t; th_src := src; th_dst := dst; th_reply := reply |} in
  let copy_from_host t src dst reply :=
    CopyFromHost {| fh_dtype := t; fh_src := src; fh_dst := dst; fh_reply := reply |} in
  match m with
  | Allocate len reply | AllocateF32 len reply => alloc F32 len reply
  | AllocateF64 len reply => alloc F64 len reply
  | AllocateI8 len reply => alloc I8 len reply
  | AllocateI32 len reply => alloc I32 len reply
  | AllocateI64 len reply => alloc I64 len reply
  | AllocateU8 len reply => alloc U8 len reply
  | AllocateU32 len reply => alloc U32 len reply
  | AllocateU64 len reply => alloc U64 len reply
  | AllocateF16 len reply => alloc F16 len reply
  | AllocateBf16 len reply => alloc Bf16 len reply
  | CopyToHostF32 src dst reply => copy_to_host F32 src dst reply
  | CopyToHostF64 src dst reply => copy_to_host F64 src dst reply
  | CopyToHostI32 src dst reply => copy_to_host I32 src dst reply
  | CopyToHostU32 src dst reply => copy_to_host U32 src dst reply
  | CopyToHostU8 src dst reply => copy_to_host U8 src dst reply
  | CopyFromHostF32 src dst reply => copy_from_host F32 src dst reply
  | CopyFromHostF64 src dst reply => copy_from_host F64 src dst reply
  | CopyFromHostI32 src dst reply => copy_from_host I32 src dst reply
  | CopyFromHostU32 src dst reply => copy_from_host U32 src dst reply
  | CopyFromHostU8 src dst reply => copy_from_host U8 src dst reply
  | other => other
  end.

Definition snapshot_load (d : Device) : DeviceLoad :=
  {| free_bytes := 0; total_bytes := 0; active_streams := 0;
     queue_depth := wrap 32 (Z.of_nat (length (pending d))); compute_cap := (0, 0)%Z |}.

(** Forward to the context actor when ready, stash otherwise. *)
Definition forward_or_stash (m : ContextMsg) : act Device DeviceEff unit :=
  d ← get;
  match context_ref d, children d with
  | Some c, Some _ => emit (TellContext c m)
  | _, _ => enqueue_pending (Boxed m)
  end.

Definition device_handle (msg : DeviceMsg) : act Device DeviceEff unit :=
  d ← get;
  match translate msg with
  | Alloc r => forward_or_stash (CtxAlloc r)
  | CopyToHost r => forward_or_stash (CtxCopyToHost r)
  | CopyFromHost r => forward_or_stash (CtxCopyFromHost r)
  | Sgemm r =>
    match children d with
    | Some k => emit (TellBlas (blas k) r)
    | None => enqueue_pending (WSgemm r)
    end
  | SnapshotContext reply => emit (ReplyContext reply (current_ctx (dstate d)))
  | SnapshotStream reply =>
    match context_ref d with
    | Some c => emit (TellContext c (CtxSnapshotStream reply))
    | None => emit (ReplyStream reply None)
    end
  | SnapshotChildren reply => emit (ReplyChildren reply (children d))
  | WatchGeneration reply => emit (ReplyWatch reply)
  | Stats reply => emit (ReplyLoad reply (snapshot_load d))
  | ContextReady k => modify (set_children (Some k));; drain_pending
  | ContextLost => modify (set_children None)
  | _ => skip (* unreachable: [translate] leaves no deprecated variant *)
  end.

#[global] Instance device_actor : Actor Device DeviceMsg DeviceEff :=
  λ d m, exec (device_handle m) d.

Definition stop_work (w : WorkRequest) : DeviceEff :=
  match w with
  | Boxed m => DropClosure m
  | WSgemm r => ReplySgemm (sg_reply r) (Err (GpuRefStale "device shutting down"))
  | WSnapshotContext reply => ReplyContext reply None
  end.

Definition post_stop : act Device DeviceEff unit :=
  modify (λ d, set_state (begin_shutdown (dstate d)) d);;
  d ← get;
  emits (stop_work <$> pending d);; modify (set_pending []).

(** ** The extras registry

    [KernelChildren] clones share one [Arc<RwLock<HashMap<TypeId, _>>>]; the
    registry lives at the location [extras] of a store. *)

Abbreviation registry := (gmap nat (gmap nat Z)).

Definition register_extra (k : KernelChildren) (ty : nat) (v : Z) (h : registry) : registry :=
  <[extras k := <[ty := v]> (default ∅ (h !! extras k))]> h.
Definition extra (k : KernelChildren) (ty : nat) (h : registry) : option Z :=
  default ∅ (h !! extras k) !! ty.
Definition extras_len (k : KernelChildren) (h : registry) : nat :=
  size (default ∅ (h !! extras k)).

(** ** Well-formedness *)

(** After [pre_start]: work waits only while there are no kernel actors, it
    fits the capacity, and only boxed work and SGEMMs are ever stashed. *)
Definition stashable (w : WorkRequest) : Prop :=
  match w with
  | Boxed (CtxSnapshotStream _) | WSnapshotContext _ => False
  | _ => True
  end.

Record device_wf (d : Device) : Prop := {
  wf_started : is_Some (context_ref d);
  wf_idle : is_Some (children d) → pending d = [];
  wf_bounded : length (pending d) ≤ pending_queue_capacity (config d);
  wf_stash : Forall stashable (pending d);
}.

(** The work a message carries, and the work an effect hands on. *)
Definition work_of (m : DeviceMsg) : list WorkRequest :=
  match translate m with
  | Alloc r => [Boxed (CtxAlloc r)]
  | CopyToHost r => [Boxed (CtxCopyToHost r)]
  | CopyFromHost r => [Boxed (CtxCopyFromHost r)]
  | Sgemm r => [WSgemm r]
  | _ => []
  end.

Definition forwarded (e : DeviceEff) : list WorkRequest :=
  match e with
  | TellContext _ (CtxSnapshotStream _) => []
  | TellContext _ m => [Boxed m]
  | TellBlas _ r => [WSgemm r]
  | _ => []
  end.

(** A refusal: the queue was full. *)
Definition is_refusal (e : DeviceEff) : bool :=
  match e with DropClosure _ | ReplySgemm _ _ => true | _ => false end.

(** The deprecated variants do exactly what the generic ones do. *)
Lemma translate_idem m : translate (translate m) = translate m.
Proof. by destruct m. Qed.

Lemma handle_translate d m : handle d m = handle d (translate m).
Proof. unfold handle, device_actor, device_handle. by rewrite translate_idem. Qed.

(** Only the generic variants are left to consider. *)
Definition generic (m : DeviceMsg) : Prop := translate m = m.

Lemma translate_generic m : generic (translate m).
Proof. apply translate_idem. Qed.

Ltac device_cases m d :=
  rewrite ?(handle_translate d m); unfold work_of;
  generalize (translate_generic m); generalize (translate m); clear m;
  intros m Hgen; destruct d as [cfg st cref kids pend]; destruct m; try discriminate Hgen;
  unfold handle, device_actor, device_handle, forward_or_stash, enqueue_pending,
    drain_pending, exec in *; act_unfold; unfold exec in *.

(** The effects of a drain hand on the stashed work, in order. *)
Lemma drain_forwarded s c k q :
  Forall stashable q → (run_work s c k <$> q) ≫= forwarded = q.
Proof.
  induction 1 as [|w q Hw _ IH]; [done|]. cbn. rewrite IH.
  destruct w as [[]| |]; try done.
Qed.

Lemma drain_no_refusal s c k q :
  existsb is_refusal (run_work s c k <$> q) = false.
Proof. induction q as [|w q IH]; [done|]. cbn. rewrite IH. by destruct w. Qed.

(** One message: well-formedness is kept, and the work queue grows by the
    message's work unless it is refused. *)
Lemma device_step d m :
  device_wf d →
  device_wf (handle d m).1 ∧
  config (handle d m).1 = config d ∧
  ((existsb is_refusal (handle d m).2 = false ∧
    pending d ++ work_of m = ((handle d m).2 ≫= forwarded) ++ pending (handle d m).1) ∨
   (pending_queue_capacity (config d) ≤ length (pending d) ∧
    pending d = ((handle d m).2 ≫= forwarded) ++ pending (handle d m).1)).
Proof.
  intros [[c Hc] Hidle Hlen Hst]. device_cases m d; simpl in *; subst.
  all: try (destruct kids as [k|]; [rewrite Hidle in * by eauto|]).
  all: simpl in *; try case_decide; simpl.
  all: split_and!; try done.
  all: try match goal with |- device_wf _ => constructor end; simpl;
    try (intros [? ?]; discriminate).
  all: rewrite ?length_app; simpl; rewrite ?app_nil_r, ?drain_forwarded, ?drain_no_refusal by done.
  all: rewrite ?Forall_app, ?Forall_singleton; simpl; auto with lia.
Qed.

Lemma device_step_wf : preserved device_wf.
Proof. intros d m Hd. apply (device_step d m Hd). Qed.

Lemma started_wf cfg c : device_wf (exec (pre_start c) (DeviceActor_new cfg)).1.
Proof. constructor; simpl; eauto with lia. Qed.

(** ** FIFO hand-over across context rebuilds *)

(** A message not answered by a refusal is accepted. *)
Lemma device_step_accepted d m :
  device_wf d → existsb is_refusal (handle d m).2 = false →
  pending d ++ work_of m = ((handle d m).2 ≫= forwarded) ++ pending (handle d m).1.
Proof.
  intros [[c Hc] Hidle Hlen Hst]. device_cases m d; simpl in *; subst.
  all: try (destruct kids as [k|]; [rewrite Hidle in * by eauto|]).
  all: simpl in *; try case_decide; simpl; try done.
  all: intros _; rewrite ?app_nil_r, ?drain_forwarded by done; done.
Qed.

Lemma device_run d ms :
  device_wf d →
  device_wf (run_actor d ms).1 ∧
  ((run_actor d ms).2 ≫= forwarded) ++ pending (run_actor d ms).1
    `sublist_of` pending d ++ (ms ≫= work_of) ∧
  (existsb is_refusal (run_actor d ms).2 = false →
   pending d ++ (ms ≫= work_of) =
     ((run_actor d ms).2 ≫= forwarded) ++ pending (run_actor d ms).1).
Proof.
  revert d; induction ms as [|m ms IH]; intros d Hd; simpl.
  { rewrite app_nil_r. auto. }
  destruct (device_step d m Hd) as (Hwf & _ & Hstep).
  pose proof (device_step_accepted d m Hd) as Hacc.
  destruct (handle d m) as [d1 e1]; simpl in *.
  specialize (IH d1 Hwf) as (Hwf2 & Hsub & Heq).
  destruct (run_actor d1 ms) as [d2 e2]; simpl in *.
  split; [done|]. rewrite bind_app, <-!app_assoc, existsb_app. split.
  - destruct Hstep as [[_ Hq]|[_ Hq]].
    + rewrite (app_assoc (pending d)), Hq, <-app_assoc. by apply sublist_app.
    + rewrite Hq, <-!app_assoc. apply sublist_app; [done|].
      etrans; [exact Hsub|]. apply sublist_app; [done|]. by apply sublist_inserts_l.
  - intros [Hn1 Hn2]%orb_false_iff.
    rewrite (app_assoc (pending d)), Hacc, <-app_assoc by done. f_equal. by apply Heq.
Qed.

(** C1 (work survives context rebuilds, in order): from the moment the device
    actor has started, whatever [ContextReady] and [ContextLost] messages are
    interleaved with the requests, the work handed to the context and BLAS
    actors followed by the work still stashed is a subsequence of the work
    submitted, and it is all of it, in submission order and without
    repetition, whenever no request was refused by a full queue. *)
Theorem device_fifo (cfg : DeviceConfig) (c : nat) (ms : list DeviceMsg) :
  let d0 := (exec (pre_start c) (DeviceActor_new cfg)).1 in
  let '(d, es) := run_actor d0 ms in
  (es ≫= forwarded) ++ pending d `sublist_of` ms ≫= work_of ∧
  (existsb is_refusal es = false → (es ≫= forwarded) ++ pending d = ms ≫= work_of).
Proof.
  intros d0. pose proof (device_run d0 ms (started_wf cfg c)) as (_ & Hsub & Heq).
  destruct (run_actor d0 ms) as [d es]; simpl in *.
  split; [done|]. intros. symmetry. by apply Heq.
Qed.

(** The stash is bounded and empty when ready: in every state reached
    from the start, at most [pending_queue_capacity] items wait, and none
    waits while the kernel actors are live; a request is refused only when
    the queue is full. *)
Theorem device_pending_bounded (cfg : DeviceConfig) (c : nat) (ms : list DeviceMsg) (m : DeviceMsg) :
  let d := (run_actor (exec (pre_start c) (DeviceActor_new cfg)).1 ms).1 in
  length (pending d) ≤ pending_queue_capacity (config d) ∧
  (is_Some (children d) → pending d = []) ∧
  (existsb is_refusal (handle d m).2 = true →
   length (pending d) = pending_queue_capacity (config d)).
Proof.
  intros d.
  assert (Hd : device_wf d) by (apply run_preserved; [apply device_step_wf|apply started_wf]).
  destruct (device_step d m Hd) as (_ & _ & [[Hno _]|[Hfull _]]); destruct Hd; split_and!; auto.
  - intros Hr. by rewrite Hno in Hr.
  - intros _. lia.
Qed.

(** ** Reply channels *)

Definition ctx_reply (m : ContextMsg) : nat :=
  match m with
  | CtxAlloc r => al_reply r
  | CtxCopyToHost r => th_reply r
  | CtxCopyFromHost r => fh_reply r
  | CtxSnapshotStream reply => reply
  end.

Definition work_reply (w : WorkRequest) : nat :=
  match w with
  | Boxed m => ctx_reply m
  | WSgemm r => sg_reply r
  | WSnapshotContext reply => reply
  end.

Definition msg_replies (m : DeviceMsg) : list nat :=
  match translate m with
  | Alloc r => [al_reply r]
  | CopyToHost r => [th_reply r]
  | CopyFromHost r => [fh_reply r]
  | Sgemm r => [sg_reply r]
  | SnapshotContext c | SnapshotStream c | SnapshotChildren c | WatchGeneration c | Stats c => [c]
  | _ => []
  end.

Definition eff_reply (e : DeviceEff) : nat :=
  match e with
  | TellContext _ m | DropClosure m => ctx_reply m
  | TellBlas _ r => sg_reply r
  | ReplySgemm c _ | ReplyContext c _ | ReplyStream c _ | ReplyChildren c _
  | ReplyWatch c | ReplyLoad c _ => c
  end.

#[global] Instance device_replies : Replies Device DeviceMsg DeviceEff nat :=
  {| held d := work_reply <$> pending d; arriving := msg_replies; used e := [eff_reply e] |}.

Lemma run_work_reply s c k q :
  (run_work s c k <$> q) ≫= (λ e, [eff_reply e]) = work_reply <$> q.
Proof. induction q as [|w q IH]; [done|]. cbn. rewrite IH. by destruct w as [[]| |]. Qed.

Lemma stop_work_reply q :
  (stop_work <$> q) ≫= (λ e, [eff_reply e]) = work_reply <$> q.
Proof. induction q as [|w q IH]; [done|]. cbn. rewrite IH. by destruct w as [[]| |]. Qed.

Lemma msg_replies_translate m : msg_replies m = msg_replies (translate m).
Proof. unfold msg_replies. by rewrite translate_idem. Qed.

#[global] Instance device_reply_law : ReplyLaw Device DeviceMsg DeviceEff nat.
Proof.
  intros d m. cbn [held arriving used device_replies]. rewrite msg_replies_translate.
  device_cases m d; simpl; try destruct cref as [c|]; try destruct kids as [k|]; simpl;
    try case_decide; simpl; rewrite ?fmap_app, ?app_nil_r, ?run_work_reply; simpl;
    rewrite ?app_nil_r; try done; by rewrite Permutation_app_comm.
Qed.

(** Every request is answered once: the reply channels of all requests ever
    submitted are, once the actor has stopped, exactly the channels its
    effects used, each as often as it arrived: every sender was answered,
    handed to a kernel or context actor, or dropped with its closure, and
    nothing is left in the stash. *)
Theorem device_replies_once (cfg : DeviceConfig) (ms : list DeviceMsg) :
  let '(d, es) := run_actor (DeviceActor_new cfg) ms in
  let '(d', es') := exec post_stop d in
  (ms ≫= msg_replies) ≡ₚ (eff_reply <$> es ++ es') ∧ pending d' = [] ∧
  accepting_ops (dstate d') = false.
Proof.
  pose proof (run_replies (DeviceActor_new cfg) ms) as Hr.
  destruct (run_actor (DeviceActor_new cfg) ms) as [d es]. act_unfold.
  split; [|done]. rewrite app_nil_r, fmap_app. simpl in Hr. rewrite Hr.
  assert (Hb : ∀ l : list DeviceEff, l ≫= (λ e, [eff_reply e]) = eff_reply <$> l).
  { intros l. induction l as [|e l IH]; [done|]. cbn. by rewrite <-IH. }
  by rewrite <-!Hb, stop_work_reply.
Qed.
