(* ===== verification/ContextActor.v ===== *)
(** * ContextActor: the inner tier that owns the CUDA context

    Models [crates/atomr-accel-cuda/src/device/context_actor.rs] with the
    [run] methods of [device/alloc_dispatch.rs].  What the driver and the
    actor system answer while one message is handled is a [Driver]; which
    libraries were compiled in is a [Features].  Strong counts of device
    slices are explicit ([DeviceState.arcs]). *)

From stdpp Require Import pretty.
From S2P Require Import Prelude Actor Errors Dtype DeviceState DeviceActor.

(** ** The environment *)

(** The compile-time features that gate the library actors. *)
Record Features :=
  { feat_cudnn : bool; feat_cufft : bool; feat_curand : bool; feat_cusolver : bool;
    feat_nvrtc : bool }.

(** What CUDA and the actor system answer. *)
Record Driver := {
  drv_context : result ctx_id string;
  drv_stream : result stream_id string;
  (** A fresh stream for the named child. *)
  drv_acquire : string → result stream_id string;
  (** The reference of the spawned child. *)
  drv_spawn : string → result nat string;
  drv_alloc : result slice_id string;
  (** The elements read by a device-to-host copy. *)
  drv_dtoh : result (list Z) string;
  drv_htod : result unit string;
  (** The location of a fresh extras registry. *)
  drv_extras : nat;
}.

(** [EnabledLibraries] bits. *)
Definition LIB_BLAS : Z := Z.shiftl 1 0.
Definition LIB_CUDNN : Z := Z.shiftl 1 1.
Definition LIB_CUFFT : Z := Z.shiftl 1 2.
Definition LIB_CURAND : Z := Z.shiftl 1 3.
Definition LIB_CUSOLVER : Z := Z.shiftl 1 4.
Definition LIB_NVRTC : Z := Z.shiftl 1 6.
(** [bitflags]' [contains] *)
Definition lib_contains (libs flag : Z) : bool := (Z.land libs flag =? flag)%Z.

(** ** State, messages, effects *)

Inductive CtxMsg : Type :=
  | Init
  | FromDevice (m : ContextMsg)
  (** [AllocateF32] ... [AllocateBf16]: the dtype is in the variant's name. *)
  | LegacyAllocate (t : DType) (len : nat) (reply : nat)
  (** [CopyToHostF32] ... [CopyToHostU8] *)
  | LegacyCopyToHost (t : DType) (src : GpuRef) (dst : HostBuf) (reply : nat)
  (** [CopyFromHostF32] ... [CopyFromHostU8] *)
  | LegacyCopyFromHost (t : DType) (src : HostBuf) (dst : GpuRef) (reply : nat).

Record Ctx := {
  cstate : DeviceState;
  cconfig : DeviceConfig;
  cstream : option stream_id;
  (** The context the stream allocator mints streams on. *)
  allocator : option ctx_id;
  cchildren : option KernelChildren;
  (** Strong counts and lengths of the device slices. *)
  heap : arcs;
  lens : gmap slice_id nat;
}.

Inductive CtxEff : Type :=
  | TellParent (m : DeviceMsg)
  | Spawned (name : string) (stream : option stream_id)
  | ReplySnapshot (reply : nat) (s : option stream_id)
  | ReplyAlloc (reply : nat) (r : result GpuRef GpuError)
  | ReplyHost (reply : nat) (r : result HostBuf GpuError)
  (** The copy is on the stream: the completion task owns the reply, the
      buffer to return and the slices to keep alive. *)
  | AwaitCopy (reply : nat) (buf : HostBuf) (kept : list slice_id)
  | RecordWrite (dst : GpuRef) (s : stream_id).

(** [Props::create] builds every incarnation from the shared state. *)
Definition Ctx_new (s : DeviceState) (cfg : DeviceConfig) (h : arcs) (l : gmap slice_id nat) : Ctx :=
  {| cstate := s; cconfig := cfg; cstream := None; allocator := None; cchildren := None;
     heap := h; lens := l |}.

Definition with_cstate (f : DeviceState → DeviceState) (c : Ctx) : Ctx :=
  {| cstate := f (cstate c); cconfig := cconfig c; cstream := cstream c;
     allocator := allocator c; cchildren := cchildren c; heap := heap c; lens := lens c |}.
Definition set_cstream (s : option stream_id) (c : Ctx) : Ctx :=
  {| cstate := cstate c; cconfig := cconfig c; cstream := s;
     allocator := allocator c; cchildren := cchildren c; heap := heap c; lens := lens c |}.
Definition set_allocator (a : option ctx_id) (c : Ctx) : Ctx :=
  {| cstate := cstate c; cconfig := cconfig c; cstream := cstream c;
     allocator := a; cchildren := cchildren c; heap := heap c; lens := lens c |}.
Definition set_cchildren (k : option KernelChildren) (c : Ctx) : Ctx :=
  {| cstate := cstate c; cconfig := cconfig c; cstream := cstream c;
     allocator := allocator c; cchildren := k; heap := heap c; lens := lens c |}.
Definition set_heap (h : arcs) (l : gmap slice_id nat) (c : Ctx) : Ctx :=
  {| cstate := cstate c; cconfig := cconfig c; cstream := cstream c;
     allocator := allocator c; cchildren := cchildren c; heap := h; lens := l |}.

(** ** Bringing the context up *)

Section handler.
Context (F : Features) (dr : Driver).

Abbreviation handler A := (pact Ctx CtxEff A).

(** [ctx.spawn(props, name).unwrap_or_else(|e| panic!("Unrecoverable: spawn {what}: {e}"))] *)
Definition spawn (name what : string) (st : option stream_id) : handler nat :=
  r ← or_panic (drv_spawn dr name) (λ e, "Unrecoverable: spawn " +:+ what +:+ ": " +:+ e);
  calm (emit (Spawned name st));;
  mret r.

(** [PerActorAllocator::with_context(ctx).acquire(..)] *)
Definition acquire (name : string) : handler stream_id :=
  or_panic (drv_acquire dr name) (λ e, "ContextPoisoned: new_stream: " +:+ e).

(** A library child that is compiled in and enabled gets a stream of its own. *)
Definition spawn_lib (feature : bool) (libs flag : Z) (name what : string) : handler (option nat) :=
  if feature && lib_contains libs flag then
    s ← acquire name;
    r ← spawn name what (Some s);
    mret (Some r)
  else mret None.

(** The mock stub of a library child: no stream. *)
Definition spawn_stub (feature : bool) (libs flag : Z) (name what : string) : handler (option nat) :=
  if feature && lib_contains libs flag then
    r ← spawn name what None;
    mret (Some r)
  else mret None.

Definition init_mock (cfg : DeviceConfig) : handler unit :=
  let libs := enabled_libraries cfg in
  calm (modify (with_cstate (λ s, (bump_generation s).1)));;
  stub ← spawn "blas" "mock BlasActor" None;
  solver_stub ← spawn_stub (feat_cusolver F) libs LIB_CUSOLVER "solver" "mock SolverActor";
  nvrtc_stub ← spawn_stub (feat_nvrtc F) libs LIB_NVRTC "nvrtc" "mock NvrtcActor";
  let k := {| blas := stub; cudnn := None; fft := None; rng := None; solver := solver_stub;
              nvrtc := nvrtc_stub; extras := drv_extras dr |} in
  calm (modify (set_cchildren (Some k)));;
  calm (emit (TellParent (ContextReady k))).

Definition init_real (cfg : DeviceConfig) : handler unit :=
  let id := pretty (cfg_device_id cfg) in
  let libs := enabled_libraries cfg in
  cuda_ctx ← or_panic (drv_context dr)
    (λ e, CONTEXT_POISONED_TAG +:+ ": CudaContext::new(" +:+ id +:+ ") failed: " +:+ e);
  stream ← or_panic (drv_stream dr)
    (λ e, CONTEXT_POISONED_TAG +:+ ": new_stream failed on device " +:+ id +:+ ": " +:+ e);
  calm (modify (with_cstate (λ s, (bump_generation s).1)));;
  calm (modify (with_cstate (install_context cuda_ctx)));;
  calm (modify (set_cstream (Some stream)));;
  calm (modify (set_allocator (Some cuda_ctx)));;
  blas_stream ← (if lib_contains libs LIB_BLAS then acquire "blas" else mret stream);
  blas_ref ← spawn "blas" "BlasActor" (Some blas_stream);
  cudnn_ref ← spawn_lib (feat_cudnn F) libs LIB_CUDNN "cudnn" "CudnnActor";
  fft_ref ← spawn_lib (feat_cufft F) libs LIB_CUFFT "fft" "FftActor";
  rng_ref ← spawn_lib (feat_curand F) libs LIB_CURAND "rng" "RngActor";
  solver_ref ← spawn_lib (feat_cusolver F) libs LIB_CUSOLVER "solver" "SolverActor";
  nvrtc_ref ← spawn_lib (feat_nvrtc F) libs LIB_NVRTC "nvrtc" "NvrtcActor";
  let k := {| blas := blas_ref; cudnn := cudnn_ref; fft := fft_ref; rng := rng_ref;
              solver := solver_ref; nvrtc := nvrtc_ref; extras := drv_extras dr |} in
  calm (modify (set_cchildren (Some k)));;
  calm (emit (TellParent (ContextReady k))).

Definition run_init : handler unit :=
  c ← calm get;
  if mock_mode (cconfig c) then init_mock (cconfig c) else init_real (cconfig c).

(** ** Allocation and copies *)

(** The new slice has one owner, the reference about to be sent. *)
Definition mint (sl : slice_id) (len : nat) : handler GpuRef :=
  c ← calm get;
  calm (put (set_heap (<[sl := 1]> (heap c)) (<[sl := len]> (lens c)) c));;
  mret (GpuRef_new sl (cstate c)).

Definition alloc_oom (len : nat) (e : string) : GpuError :=
  OutOfMemory ("alloc " +:+ pretty len +:+ ": " +:+ e).

(** [ContextActor::alloc], of the deprecated variants *)
Definition alloc (len : nat) : handler (result GpuRef GpuError) :=
  c ← calm get;
  if mock_mode (cconfig c) then mret (Err (Unrecoverable "alloc not supported in mock mode"))
  else match cstream c with
       | None => mret (Err (GpuRefStale "context not ready"))
       | Some _ =>
         match drv_alloc dr with
         | Ok sl => r ← mint sl len; mret (Ok r)
         | Err e => mret (Err (alloc_oom len e))
         end
       end.

(** [AllocReq::run] *)
Definition AllocReq_run (r : AllocReq) (stream : option stream_id) (mock : bool) : handler unit :=
  if mock then
    calm (emit (ReplyAlloc (al_reply r) (Err (Unrecoverable "alloc not supported in mock mode"))))
  else match stream with
       | None => calm (emit (ReplyAlloc (al_reply r) (Err (GpuRefStale "context not ready"))))
       | Some _ =>
         match drv_alloc dr with
         | Ok sl => g ← mint sl (al_len r); calm (emit (ReplyAlloc (al_reply r) (Ok g)))
         | Err e => calm (emit (ReplyAlloc (al_reply r) (Err (alloc_oom (al_len r) e))))
         end
       end.

Definition slice_len (c : Ctx) (sl : slice_id) : nat := default 0 (lens c !! sl).

Definition fill (b : HostBuf) (v : list Z) : HostBuf :=
  match b with Owned _ => Owned v | Pinned _ => Pinned v end.

Definition len_mismatch (src dst : nat) : GpuError :=
  Unrecoverable ("memcpy len mismatch: src=" +:+ pretty src +:+ " dst=" +:+ pretty dst).

Definition run_copy_to_host (stream : stream_id) (src : GpuRef) (dst : HostBuf) (reply : nat) : handler unit :=
  c ← calm get;
  match access src (Some (cstate c)) with
  | Err e => calm (emit (ReplyHost reply (Err e)))
  | Ok sl =>
    (* [s.clone()] *)
    calm (put (set_heap (arc_clone sl (heap c)) (lens c) c));;
    let drop_clone := calm (modify (λ c, set_heap (arc_drop sl (heap c)) (lens c) c)) in
    if negb (slice_len c sl =? HostBuf_len dst) then
      calm (emit (ReplyHost reply (Err (len_mismatch (slice_len c sl) (HostBuf_len dst)))));;
      drop_clone
    else match drv_dtoh dr with
         | Err e =>
           calm (emit (ReplyHost reply (Err (LibraryError "driver" ("memcpy_dtoh: " +:+ e)))));;
           drop_clone
         | Ok v => calm (emit (AwaitCopy reply (fill dst v) [sl]))
         end
  end.

(** [dst] stays alive until the function returns: its strong reference is
    counted in [heap] throughout. *)
Definition run_copy_from_host (stream : stream_id) (src : HostBuf) (dst : GpuRef) (reply : nat) : handler unit :=
  c ← calm get;
  match access dst (Some (cstate c)) with
  | Err e => calm (emit (ReplyHost reply (Err e)))
  | Ok sl =>
    calm (put (set_heap (arc_clone sl (heap c)) (lens c) c));;
    let drop_clone := calm (modify (λ c, set_heap (arc_drop sl (heap c)) (lens c) c)) in
    if negb (slice_len c sl =? HostBuf_len src) then
      calm (emit (ReplyHost reply (Err (len_mismatch (HostBuf_len src) (slice_len c sl)))));;
      drop_clone
    else
      c1 ← calm get;
      let '(unwrapped, h) := try_unwrap sl (heap c1) in
      calm (put (set_heap h (lens c1) c1));;
      if negb unwrapped then
        calm (emit (ReplyHost reply
          (Err (Unrecoverable "H2D destination has multiple live references"))))
      else match drv_htod dr with
           | Err e => calm (emit (ReplyHost reply (Err (LibraryError "driver" ("memcpy_htod: " +:+ e)))))
           | Ok _ =>
             calm (emit (RecordWrite dst stream));;
             calm (emit (AwaitCopy reply src [sl]))
           end
  end.

(** [self.stream.clone().expect("ctx not ready")] *)
Definition expect_stream : handler stream_id :=
  c ← calm get;
  match cstream c with Some s => mret s | None => panic "ctx not ready" end.

Definition context_handle (m : CtxMsg) : handler unit :=
  match m with
  | Init => run_init
  | FromDevice (CtxSnapshotStream reply) =>
    c ← calm get; calm (emit (ReplySnapshot reply (cstream c)))
  | FromDevice (CtxAlloc r) =>
    c ← calm get; AllocReq_run r (cstream c) (mock_mode (cconfig c))
  | FromDevice (CtxCopyToHost r) =>
    s ← expect_stream; run_copy_to_host s (th_src r) (th_dst r) (th_reply r)
  | FromDevice (CtxCopyFromHost r) =>
    s ← expect_stream; run_copy_from_host s (fh_src r) (fh_dst r) (fh_reply r)
  | LegacyAllocate _ len reply =>
    r ← alloc len; calm (emit (ReplyAlloc reply r))
  | LegacyCopyToHost _ src dst reply => s ← expect_stream; run_copy_to_host s src dst reply
  | LegacyCopyFromHost _ src dst reply => s ← expect_stream; run_copy_from_host s src dst reply
  end.

End handler.

(** [pre_start] tells itself [Init]. *)
Definition context_pre_start : list CtxMsg := [Init].

(** [post_restart]: the messages to the parent and to itself. *)
Definition context_post_restart : list DeviceMsg * list CtxMsg := ([ContextLost], [Init]).

Definition context_post_stop (c : Ctx) : Ctx * list DeviceMsg :=
  (with_cstate clear_context (set_cchildren None (set_allocator None (set_cstream None c))),
   [ContextLost]).

(** ** Initialisation *)

Definition ready_notice (e : CtxEff) : option KernelChildren :=
  match e with TellParent (ContextReady k) => Some k | _ => None end.

Definition is_tell (e : CtxEff) : bool :=
  match e with TellParent _ => true | _ => false end.

Definition spawn_name (e : CtxEff) : option string :=
  match e with Spawned n _ => Some n | _ => None end.

(** What [Init] may have done to the shared state when it stops. *)
Definition bumped (c : Ctx) (s : DeviceState) : Prop :=
  s = (bump_generation (cstate c)).1 ∨
  ∃ cu, s = install_context cu (bump_generation (cstate c)).1.

(** A panic message of [Init]: it asks for a restart, or a child's spawn failed. *)
Definition init_panic (dr : Driver) (p : string) : Prop :=
  (∃ x, p = CONTEXT_POISONED_TAG +:+ x) ∨
  (∃ name what e, drv_spawn dr name = Err e ∧
     what ∈ ["mock BlasActor"; "mock SolverActor"; "mock NvrtcActor"; "BlasActor"; "CudnnActor";
             "FftActor"; "RngActor"; "SolverActor"; "NvrtcActor"] ∧
     p = "Unrecoverable: spawn " +:+ what +:+ ": " +:+ e).

(** The library children one configuration asks for, in spawn order. *)
Definition wanted (F : Features) (cfg : DeviceConfig) : list string :=
  let lib (feature : bool) (flag : Z) (name : string) :=
    if feature && lib_contains (enabled_libraries cfg) flag then [name] else [] in
  if mock_mode cfg then
    "blas" :: lib (feat_cusolver F) LIB_CUSOLVER "solver" ++ lib (feat_nvrtc F) LIB_NVRTC "nvrtc"
  else
    "blas" :: lib (feat_cudnn F) LIB_CUDNN "cudnn" ++ lib (feat_cufft F) LIB_CUFFT "fft" ++
      lib (feat_curand F) LIB_CURAND "rng" ++ lib (feat_cusolver F) LIB_CUSOLVER "solver" ++
      lib (feat_nvrtc F) LIB_NVRTC "nvrtc".

Definition init_post (F : Features) (dr : Driver) (c : Ctx)
    (r : result unit string) (c' : Ctx) (es : list CtxEff) : Prop :=
  cconfig c' = cconfig c ∧
  match r with
  | Ok _ =>
    bumped c (cstate c') ∧
    ∃ k es1, cchildren c' = Some k ∧ es = es1 ++ [TellParent (ContextReady k)] ∧
      existsb is_tell es1 = false ∧ omap spawn_name es1 = wanted F (cconfig c)
  | Err p =>
    (cstate c' = cstate c ∨ bumped c (cstate c')) ∧ cchildren c' = cchildren c ∧
    existsb is_tell es = false ∧ init_panic dr p
  end.

Lemma spawn_wp dr name what st (Q : result nat string → Ctx → list CtxEff → Prop) c :
  (∀ r, drv_spawn dr name = Ok r → Q (Ok r) c [Spawned name st]) →
  (∀ e, drv_spawn dr name = Err e → Q (Err ("Unrecoverable: spawn " +:+ what +:+ ": " +:+ e)) c []) →
  pwp (spawn dr name what st) Q c.
Proof. intros Hok Herr. unfold spawn. repeat pwp_step; auto. Qed.

Lemma acquire_wp dr name (Q : result stream_id string → Ctx → list CtxEff → Prop) c :
  (∀ s, Q (Ok s) c []) → (∀ x, Q (Err (CONTEXT_POISONED_TAG +:+ x)) c []) →
  pwp (acquire dr name) Q c.
Proof.
  intros Hok Herr. unfold acquire. pwp_step; [apply Hok|]. apply (Herr (": new_stream: " +:+ _)).
Qed.

(** Both kinds of library child: spawned exactly when compiled in and enabled. *)
Lemma spawn_lib_wp dr feature libs flag name what
    (Q : result (option nat) string → Ctx → list CtxEff → Prop) c :
  (∀ r es, existsb is_tell es = false →
     omap spawn_name es = (if feature && lib_contains libs flag then [name] else []) →
     Q (Ok r) c es) →
  (∀ x, Q (Err (CONTEXT_POISONED_TAG +:+ x)) c []) →
  (∀ e, drv_spawn dr name = Err e → Q (Err ("Unrecoverable: spawn " +:+ what +:+ ": " +:+ e)) c []) →
  pwp (spawn_lib dr feature libs flag name what) Q c.
Proof.
  intros Hok Hp Herr. unfold spawn_lib.
  destruct (feature && lib_contains libs flag); [|pwp_step; by apply Hok].
  pwp_step. apply acquire_wp; [intros s|done]. pwp_step. apply spawn_wp; [intros r Hr|done].
  pwp_step. by apply Hok.
Qed.

Lemma spawn_stub_wp dr feature libs flag name what
    (Q : result (option nat) string → Ctx → list CtxEff → Prop) c :
  (∀ r es, existsb is_tell es = false →
     omap spawn_name es = (if feature && lib_contains libs flag then [name] else []) →
     Q (Ok r) c es) →
  (∀ e, drv_spawn dr name = Err e → Q (Err ("Unrecoverable: spawn " +:+ what +:+ ": " +:+ e)) c []) →
  pwp (spawn_stub dr feature libs flag name what) Q c.
Proof.
  intros Hok Herr. unfold spawn_stub.
  destruct (feature && lib_contains libs flag); [|pwp_step; by apply Hok].
  pwp_step. apply spawn_wp; [intros r Hr|done]. pwp_step. by apply Hok.
Qed.

Lemma existsb_tell_app es1 es2 :
  existsb is_tell es1 = false → existsb is_tell es2 = false → existsb is_tell (es1 ++ es2) = false.
Proof. intros. by rewrite existsb_app, !orb_false_iff. Qed.
#[local] Hint Resolve existsb_tell_app : core.

(** The branches of [init_post] at the end of a run and at a panic. *)
Lemma init_post_ok F dr c c' k es1 :
  cconfig c' = cconfig c → bumped c (cstate c') → cchildren c' = Some k →
  existsb is_tell es1 = false → omap spawn_name es1 = wanted F (cconfig c) →
  init_post F dr c (Ok ()) c' (es1 ++ [TellParent (ContextReady k)]).
Proof. intros. split; [done|]. split; [done|]. eauto 8. Qed.

Lemma init_post_poisoned F dr c c' es x :
  cconfig c' = cconfig c → cstate c' = cstate c ∨ bumped c (cstate c') →
  cchildren c' = cchildren c → existsb is_tell es = false →
  init_post F dr c (Err (CONTEXT_POISONED_TAG +:+ x)) c' es.
Proof. intros. split; [done|]. split_and!; [done..|]. left. eauto. Qed.

Lemma init_post_spawn F dr c c' es name what e :
  cconfig c' = cconfig c → bumped c (cstate c') → cchildren c' = cchildren c →
  existsb is_tell es = false → drv_spawn dr name = Err e →
  what ∈ ["mock BlasActor"; "mock SolverActor"; "mock NvrtcActor"; "BlasActor"; "CudnnActor";
          "FftActor"; "RngActor"; "SolverActor"; "NvrtcActor"] →
  init_post F dr c (Err ("Unrecoverable: spawn " +:+ what +:+ ": " +:+ e)) c' es.
Proof. intros. split; [done|]. split_and!; [by right|done..|]. right. eauto 8. Qed.

Ltac tells := simpl; repeat apply existsb_tell_app; first [assumption | reflexivity].
Ltac init_panics :=
  intros; simpl;
  first [ apply init_post_poisoned | eapply init_post_spawn; [| | | |eassumption|] ];
  try done; try tells; try (by apply (bool_decide_unpack _));
  first [ by left | right; by right; eexists | by right; eexists | by left | by right; left ].

Lemma init_mock_spec F dr c :
  mock_mode (cconfig c) = true → pwp (init_mock F dr (cconfig c)) (init_post F dr c) c.
Proof.
  intros Hm. unfold init_mock. do 3 pwp_step.
  apply spawn_wp; [intros stub Hs|init_panics]. pwp_step.
  apply spawn_stub_wp; [intros so es1 Ht1 Hn1|init_panics]. pwp_step.
  apply spawn_stub_wp; [intros nv es2 Ht2 Hn2|init_panics]. do 3 pwp_step.
  simpl. rewrite app_assoc.
  apply (init_post_ok F dr c _ _ (Spawned "blas" None :: es1 ++ es2)); try done; try tells.
  - by left.
  - cbn. rewrite omap_app, Hn1, Hn2. unfold wanted. by rewrite Hm.
Qed.

Lemma blas_stream_wp dr (b : bool) st (Q : result stream_id string → Ctx → list CtxEff → Prop) c :
  (∀ s, Q (Ok s) c []) → (∀ x, Q (Err (CONTEXT_POISONED_TAG +:+ x)) c []) →
  pwp (if b then acquire dr "blas" else mret st) Q c.
Proof. destruct b; intros; [by apply acquire_wp|by apply pwp_ret]. Qed.

Lemma init_real_spec F dr c :
  mock_mode (cconfig c) = false → pwp (init_real F dr (cconfig c)) (init_post F dr c) c.
Proof.
  intros Hm. unfold init_real. do 2 pwp_step; [|init_panics]. do 2 pwp_step; [|init_panics].
  do 9 pwp_step.
  apply blas_stream_wp; [intros bs|init_panics]. pwp_step.
  apply spawn_wp; [intros stub Hs|init_panics]. pwp_step.
  apply spawn_lib_wp; [intros r1 es1 Ht1 Hn1|init_panics..]. pwp_step.
  apply spawn_lib_wp; [intros r2 es2 Ht2 Hn2|init_panics..]. pwp_step.
  apply spawn_lib_wp; [intros r3 es3 Ht3 Hn3|init_panics..]. pwp_step.
  apply spawn_lib_wp; [intros r4 es4 Ht4 Hn4|init_panics..]. pwp_step.
  apply spawn_lib_wp; [intros r5 es5 Ht5 Hn5|init_panics..]. do 3 pwp_step.
  simpl. rewrite !app_assoc.
  match goal with |- init_post _ _ _ _ _ (?e :: ?es ++ _) =>
    change (e :: es ++ ?x) with ((e :: es) ++ x) end.
  eapply init_post_ok; try done; try tells.
  - right. by eexists.
  - cbn. rewrite !omap_app, Hn1, Hn2, Hn3, Hn4, Hn5. unfold wanted. rewrite Hm, <-!app_assoc.
    reflexivity.
Qed.

Lemma run_init_spec F dr c : pwp (run_init F dr) (init_post F dr c) c.
Proof.
  unfold run_init. do 2 pwp_step. case_match; [by apply init_mock_spec|by apply init_real_spec].
Qed.

(** The library children of an incarnation are those its configuration asks for and the
    crate was compiled with; without a GPU there are stubs of two. *)
Definition is_some {A} (o : option A) : bool := match o with Some _ => true | None => false end.
Definition children_of (F : Features) (cfg : DeviceConfig) (k : KernelChildren) : Prop :=
  let stub (feature : bool) flag := feature && lib_contains (enabled_libraries cfg) flag in
  let real (feature : bool) flag := negb (mock_mode cfg) && stub feature flag in
  is_some (cudnn k) = real (feat_cudnn F) LIB_CUDNN ∧ is_some (fft k) = real (feat_cufft F) LIB_CUFFT ∧
  is_some (rng k) = real (feat_curand F) LIB_CURAND ∧ is_some (solver k) = stub (feat_cusolver F) LIB_CUSOLVER ∧
  is_some (nvrtc k) = stub (feat_nvrtc F) LIB_NVRTC.

Lemma spawn_lib_some dr feature libs flag name what
    (Q : result (option nat) string → Ctx → list CtxEff → Prop) c :
  (∀ r es, is_some r = feature && lib_contains libs flag → Q (Ok r) c es) → (∀ e es, Q (Err e) c es) →
  pwp (spawn_lib dr feature libs flag name what) Q c ∧ pwp (spawn_stub dr feature libs flag name what) Q c.
Proof.
  intros Hok Herr. unfold spawn_lib, spawn_stub, acquire, spawn.
  destruct (feature && lib_contains libs flag); split; repeat pwp_step; auto.
Qed.

Lemma init_children F dr c :
  pwp (run_init F dr) (λ r c' _, ∀ k, r = Ok () → cchildren c' = Some k → children_of F (cconfig c) k) c.
Proof.
  unfold run_init. do 2 pwp_step. unfold children_of. destruct (mock_mode (cconfig c)).
  - unfold init_mock, spawn.
    repeat first [pwp_step | apply spawn_lib_some; [intros ? ? ?|done]]; try done.
    intros k _ [= <-]; cbn; auto.
  - unfold init_real, spawn, acquire.
    repeat first [pwp_step | apply spawn_lib_some; [intros ? ? ?|done] | destruct (lib_contains _ LIB_BLAS)]; try done.
    all: intros k _ [= <-]; cbn; auto.
Qed.

(** An initialisation failure restarts the context, or stops it when a child
    could not be spawned, as long as no spawn error quotes a tag. *)
Definition clean_spawns (dr : Driver) : Prop :=
  ∀ name e, drv_spawn dr name = Err e → mentions_tag e = false.

Lemma decide_str_poisoned x : decide_str (CONTEXT_POISONED_TAG +:+ x) = Restart.
Proof. unfold decide_str. by rewrite contains_prefix. Qed.

Lemma decide_str_spawn what e :
  mentions_tag e = false →
  what ∈ ["mock BlasActor"; "mock SolverActor"; "mock NvrtcActor"; "BlasActor"; "CudnnActor";
          "FftActor"; "RngActor"; "SolverActor"; "NvrtcActor"] →
  decide_str ("Unrecoverable: spawn " +:+ what +:+ ": " +:+ e) = Stop.
Proof.
  intros (H1 & H2 & _)%mentions_tag_false Hw. destruct tag_like_tags as (T1 & T2 & T3).
  assert (Hc : ∀ pat, tag_like pat →
    contains ("Unrecoverable: spawn " +:+ what +:+ ": " +:+ e) pat =
    contains ("Unrecoverable: spawn " +:+ what +:+ ":") pat || contains e pat).
  { intros pat Hpat.
    replace ("Unrecoverable: spawn " +:+ what +:+ ": " +:+ e)
      with (("Unrecoverable: spawn " +:+ what +:+ ":") +:+ String " "%char e)
      by (by rewrite <-!string_app_assoc).
    by apply contains_blank. }
  unfold decide_str. rewrite !Hc, H1, H2, !orb_false_r by done. clear Hc.
  repeat (apply elem_of_cons in Hw as [->|Hw]; [vm_compute; reflexivity|]).
  inversion Hw.
Qed.

Lemma init_panic_directive dr p :
  clean_spawns dr → init_panic dr p → decide_str p = Restart ∨ decide_str p = Stop.
Proof.
  intros Hc [[x ->]|(name & what & e & Hs & Hw & ->)].
  - left. apply decide_str_poisoned.
  - right. apply decide_str_spawn; eauto.
Qed.

(** ** Copies *)

(** A host-to-device copy never happens: while the destination buffer is
    alive, which it is during the whole call, the copy always answers an error
    and nothing is put on the stream: the slice to unwrap is a clone of the one
    the destination still holds.  The buffers' reference counts are left as
    they were. *)
Theorem h2d_never_enqueues (F : Features) (dr : Driver) (c : Ctx) (s : stream_id)
    (r : CopyFromHostReq) :
  cstream c = Some s → holds (heap c) (fh_dst r) →
  ∃ (e : GpuError) (c' : Ctx),
    context_handle F dr (FromDevice (CtxCopyFromHost r)) c =
      (Ok (), c', [ReplyHost (fh_reply r) (Err e)]) ∧
    ∀ sl, strong_count (heap c') sl = strong_count (heap c) sl.
Proof.
  intros Hs Hh. unfold context_handle, expect_stream, run_copy_from_host. pact_unfold. rewrite Hs.
  destruct (access (fh_dst r) (Some (cstate c))) as [sl|e] eqn:Ha; [|by eexists _, _].
  apply access_Ok in Ha as (_ & _ & ->).
  lazymatch goal with |- context [if negb (?a =? ?b) then _ else _] =>
    destruct (negb (a =? b)) end; simpl.
  - eexists _, _. split; [done|]. intros. apply arc_drop_clone_all.
  - pose proof (try_unwrap_clone _ _ Hh) as Hu.
    unfold try_unwrap in *. case_decide; simpl in *; [done|].
    eexists _, _. split; [done|]. intros. apply arc_drop_clone_all.
Qed.

(** A driver on which everything works, for concrete runs. *)
Definition driver_ok : Driver :=
  {| drv_context := Ok 1; drv_stream := Ok 2; drv_acquire := λ _, Ok 3; drv_spawn := λ _, Ok 4;
     drv_alloc := Ok 5; drv_dtoh := Ok []; drv_htod := Ok (); drv_extras := 0 |}.
Definition features_default : Features :=
  {| feat_cudnn := false; feat_cufft := false; feat_curand := false; feat_cusolver := false;
     feat_nvrtc := false |}.

(** A context brought up by [Init], with one allocated slice of two elements. *)
Definition ctx_ready : Ctx :=
  (context_handle features_default driver_ok
     (FromDevice (CtxAlloc {| al_dtype := F32; al_len := 2; al_reply := 0 |}))
     (context_handle features_default driver_ok Init
        (Ctx_new (DeviceState_new 0) (DeviceConfig_new 0) ∅ ∅)).1.2).1.2.

Lemma h2d_never_enqueues_witness :
  let dst := GpuRef_new 5 (cstate ctx_ready) in
  let req := {| fh_dtype := F32; fh_src := Owned [7; 8]%Z; fh_dst := dst; fh_reply := 9 |} in
  access dst (Some (cstate ctx_ready)) = Ok 5 ∧ drv_htod driver_ok = Ok () ∧
  ∃ e c', context_handle features_default driver_ok (FromDevice (CtxCopyFromHost req)) ctx_ready =
    (Ok (), c', [ReplyHost 9 (Err e)]).
Proof.
  intros dst req. split_and!; [vm_compute; reflexivity|done|].
  destruct (h2d_never_enqueues features_default driver_ok ctx_ready 2 req) as (e & c' & He & _);
    [vm_compute; reflexivity|vm_compute; lia|].
  by exists e, c'.
Defined.

(** ** Allocation *)

(** The deprecated variants answer exactly what the generic request does. *)
Lemma legacy_alloc_agrees F dr c t len reply :
  context_handle F dr (LegacyAllocate t len reply) c =
  context_handle F dr
    (FromDevice (CtxAlloc {| al_dtype := t; al_len := len; al_reply := reply |})) c.
Proof.
  unfold context_handle, alloc, AllocReq_run, mint. pact_unfold.
  destruct (mock_mode (cconfig c)); [done|]. destruct (cstream c); [|done].
  by destruct (drv_alloc dr).
Qed.

(** An allocation yields a usable buffer or an error: in mock mode, without a
    stream, and when the driver refuses, the request is answered with the
    matching error and the state is unchanged; otherwise the reply carries a
    reference that passes [access] on the accepting device, whose slice has
    the requested length and exactly one owner.  The deprecated per-dtype
    variants answer the same. *)
Theorem alloc_spec (F : Features) (dr : Driver) (c : Ctx) (r : AllocReq) (t : DType) :
  let m := FromDevice (CtxAlloc r) in
  context_handle F dr (LegacyAllocate t (al_len r) (al_reply r)) c = context_handle F dr m c ∧
  (∃ c' res, context_handle F dr m c = (Ok (), c', [ReplyAlloc (al_reply r) res]) ∧
    match res with
    | Err e => c' = c ∧
      ((mock_mode (cconfig c) = true ∧ e = Unrecoverable "alloc not supported in mock mode") ∨
       (mock_mode (cconfig c) = false ∧ cstream c = None ∧ e = GpuRefStale "context not ready") ∨
       (∃ msg, drv_alloc dr = Err msg ∧ e = alloc_oom (al_len r) msg))
    | Ok g =>
      mock_mode (cconfig c) = false ∧ is_Some (cstream c) ∧ drv_alloc dr = Ok (slice g) ∧
      (accepting_ops (cstate c) = true → access g (Some (cstate c')) = Ok (slice g)) ∧
      strong_count (heap c') (slice g) = 1 ∧ slice_len c' (slice g) = al_len r
    end).
Proof.
  intros m. split.
  { rewrite (legacy_alloc_agrees F dr c t). by destruct r. }
  subst m. unfold context_handle, AllocReq_run, mint. pact_unfold.
  destruct (mock_mode (cconfig c)) eqn:Hm; [eexists _, _; split; [done|simpl; tauto]|].
  destruct (cstream c) as [s|] eqn:Hs; [|eexists _, _; split; [done|simpl; tauto]].
  destruct (drv_alloc dr) as [sl|e] eqn:Ha; eexists _, _; (split; [done|]); simpl.
  - split_and!; try done.
    + intros. by apply access_Ok.
    + unfold strong_count. by rewrite lookup_insert_eq.
    + unfold slice_len; simpl. by rewrite lookup_insert_eq.
  - split; [done|]. right; right. by eexists.
Qed.
