(* ===== verification/DeviceTree.v ===== *)
(** * The two-tier supervision tree

    The outer [DeviceActor] and the inner [ContextActor] with the mailboxes
    between them and the [DeviceState] they share.  An execution is a list of
    commands: a client sends, an actor takes the next message of its mailbox,
    a kernel child's failure reaches the context.  The supervisor's decision
    on a panic is [decide_str]; a mailbox survives the restart of its actor,
    and the restart budget may turn a restart into a stop. *)

From S2P Require Import Prelude Actor Errors Dtype DeviceState DeviceActor ContextActor.

Inductive Status : Type := Running | Stopped | Escalated.

#[global] Instance Status_eq_dec : EqDecision Status.
Proof. solve_decision. Defined.

Record Tree := {
  t_dev : Device;
  t_ctx : Ctx;
  dev_box : list DeviceMsg;
  ctx_box : list CtxMsg;
  status : Status;
}.

(** The actor system's side of a failure: whether it still has restart budget
    and whether it runs [post_stop] of the failed incarnation. *)
Record Framework := { budget : bool; cleanup : bool }.

Inductive Command : Type :=
  | ClientSends (m : DeviceMsg)
  | RunDevice
  | RunContext (dr : Driver) (fw : Framework)
  (** A kernel child failed with this message and the failure escalated. *)
  | ChildFails (p : string) (fw : Framework).

Inductive Event : Type :=
  | Quiet
  | ContextDid (m : CtxMsg)
  | ContextPanicked (m : CtxMsg) (d : Directive)
  | ContextFailed (d : Directive).

(** The device's effects that are messages to the context. *)
Definition to_ctx (e : DeviceEff) : option CtxMsg :=
  match e with TellContext _ m => Some (FromDevice m) | _ => None end.
Definition to_dev (e : CtxEff) : option DeviceMsg :=
  match e with TellParent m => Some m | _ => None end.

(** Both tiers hold the same [Arc<DeviceState>]. *)
Definition sync_ctx (t : Tree) : Ctx := with_cstate (λ _, dstate (t_dev t)) (t_ctx t).

Definition put_ctx (c : Ctx) (t : Tree) : Tree :=
  {| t_dev := set_state (cstate c) (t_dev t); t_ctx := c; dev_box := dev_box t;
     ctx_box := ctx_box t; status := status t |}.

Definition post (dm : list DeviceMsg) (cm : list CtxMsg) (t : Tree) : Tree :=
  {| t_dev := t_dev t; t_ctx := t_ctx t; dev_box := dev_box t ++ dm;
     ctx_box := ctx_box t ++ cm; status := status t |}.

Definition set_status (s : Status) (t : Tree) : Tree :=
  {| t_dev := t_dev t; t_ctx := t_ctx t; dev_box := dev_box t; ctx_box := ctx_box t; status := s |}.

Definition pop_ctx (q : list CtxMsg) (t : Tree) : Tree :=
  {| t_dev := t_dev t; t_ctx := t_ctx t; dev_box := dev_box t; ctx_box := q; status := status t |}.

(** A new incarnation from [Props], then [post_restart]. *)
Definition restart (fw : Framework) (c : Ctx) (t : Tree) : Tree :=
  let '(c1, lost) := if cleanup fw then context_post_stop c else (c, []) in
  let c2 := Ctx_new (cstate c1) (cconfig c1) (heap c1) (lens c1) in
  let '(dm, cm) := context_post_restart in
  post (lost ++ dm) cm (put_ctx c2 t).

Definition stop (c : Ctx) (t : Tree) : Tree :=
  let '(c1, lost) := context_post_stop c in
  set_status Stopped (post lost [] (put_ctx c1 t)).

(** The supervisor of the context. *)
Definition supervise (p : string) (fw : Framework) (c : Ctx) (t : Tree) : Tree :=
  match decide_str p with
  | Restart => if budget fw then restart fw c t else stop c t
  | Resume => put_ctx c t
  | Stop => stop c t
  | Escalate => set_status Escalated (put_ctx c t)
  end.

Definition tree_step (F : Features) (t : Tree) (cmd : Command) : Tree * Event :=
  match status t, cmd with
  | Running, ClientSends m => (post [m] [] t, Quiet)
  | Running, RunDevice =>
    match dev_box t with
    | [] => (t, Quiet)
    | m :: q =>
      let '(d, es) := handle (t_dev t) m in
      ({| t_dev := d; t_ctx := t_ctx t; dev_box := q;
          ctx_box := ctx_box t ++ omap to_ctx es; status := Running |}, Quiet)
    end
  | Running, RunContext dr fw =>
    match ctx_box t with
    | [] => (t, Quiet)
    | m :: q =>
      let '(r, c, es) := context_handle F dr m (sync_ctx t) in
      let t1 := post (omap to_dev es) [] (pop_ctx q t) in
      match r with
      | Ok _ => (put_ctx c t1, ContextDid m)
      | Err p => (supervise p fw c t1, ContextPanicked m (decide_str p))
      end
    end
  | Running, ChildFails p fw => (supervise p fw (sync_ctx t) t, ContextFailed (decide_str p))
  | _, _ => (t, Quiet)
  end.

Fixpoint tree_run (F : Features) (t : Tree) (cmds : list Command) : Tree * list Event :=
  match cmds with
  | [] => (t, [])
  | cmd :: cmds =>
    let '(t1, e) := tree_step F t cmd in
    let '(t2, es) := tree_run F t1 cmds in (t2, e :: es)
  end.

(** [DeviceActor::pre_start] has spawned the context, whose own [pre_start]
    has sent [Init]. *)
Definition tree_start (cfg : DeviceConfig) : Tree :=
  {| t_dev := (exec (pre_start 1) (DeviceActor_new cfg)).1;
     t_ctx := Ctx_new (DeviceState_new (cfg_device_id cfg)) cfg ∅ ∅;
     dev_box := []; ctx_box := context_pre_start; status := Running |}.

(** ** The shared state moves by [Init] only *)

Definition is_init (m : CtxMsg) : bool := match m with Init => true | _ => false end.

(** An [Init] that ran, completed or not. *)
Definition init_ran (e : Event) : bool :=
  match e with ContextDid m | ContextPanicked m _ => is_init m | _ => false end.
(** An [Init] that completed. *)
Definition rebuilt (e : Event) : bool :=
  match e with ContextDid m => is_init m | _ => false end.

Definition inits (es : list Event) : Z := Z.of_nat (length (filter (λ e, Is_true (init_ran e)) es)).

(** Every other message leaves the shared state, the children and the stream
    alone, tells the parent nothing, and panics only for want of a stream. *)
Definition quiet (c : Ctx) {A} (r : result A string) (c' : Ctx) (es : list CtxEff) : Prop :=
  cconfig c' = cconfig c ∧ cstate c' = cstate c ∧ cchildren c' = cchildren c ∧
  omap to_dev es = [] ∧ ∀ p, r = Err p → p = "ctx not ready".

Lemma quiet_handle F dr m c :
  is_init m = false → pwp (context_handle F dr m) (quiet c) c.
Proof.
  intros Hm. destruct m as [|[r|r|r|reply]|t len reply|t src dst reply|t src dst reply];
    try discriminate Hm; unfold context_handle, expect_stream, AllocReq_run, alloc, mint,
    run_copy_to_host, run_copy_from_host, try_unwrap; repeat (pwp_step || case_match); split_and!; naive_solver.
Qed.

Lemma to_dev_no_tell es : existsb is_tell es = false → omap to_dev es = [].
Proof. induction es as [|[]]; simpl; [done|discriminate|..]; auto. Qed.

(** [Init] performs at most one rebuild of the shared state. *)
Lemma bumped_ops c s :
  bumped c s → ∃ ops, s = apply_ops (cstate c) ops ∧ BeginShutdown ∉ ops ∧ bumps ops = 1%Z.
Proof.
  intros [->|[cu ->]].
  - exists [BumpGeneration]. split_and!; [done|by apply (bool_decide_unpack _)|done].
  - exists [BumpGeneration; InstallContext cu].
    split_and!; [done| |done]. rewrite !not_elem_of_cons. split_and!; [done..|apply not_elem_of_nil].
Qed.

(** The operations a message of the context performs on the shared state. *)
Lemma context_ops F dr m c r c' es :
  context_handle F dr m c = (r, c', es) →
  ∃ ops, cstate c' = apply_ops (cstate c) ops ∧ BeginShutdown ∉ ops ∧
    (bumps ops <= if is_init m then 1 else 0)%Z ∧
    (is_init m = true → is_ok r = true → bumps ops = 1%Z).
Proof.
  intros H. destruct (is_init m) eqn:Hm.
  - destruct m; try discriminate Hm. pose proof (pwp_run _ _ _ _ _ _ (run_init_spec F dr c) H) as [_ Hp].
    destruct r as [[]|p].
    + destruct Hp as [(ops & -> & ? & ?)%bumped_ops _]. exists ops. split_and!; auto; lia.
    + destruct Hp as [[->|(ops & -> & ? & ?)%bumped_ops] _].
      * exists []. split_and!; try done. by apply (bool_decide_unpack _).
      * exists ops. split_and!; try done; lia.
  - pose proof (pwp_run _ _ _ _ _ _ (quiet_handle F dr m c Hm) H) as (_ & -> & _).
    exists []. split_and!; try done. by apply (bool_decide_unpack _).
Qed.

Lemma context_readiness F dr m c r c' es :
  context_handle F dr m c = (r, c', es) →
  cconfig c' = cconfig c ∧
  ((∃ k, is_init m = true ∧ r = Ok () ∧ cchildren c' = Some k ∧ omap to_dev es = [ContextReady k]) ∨
   (cchildren c' = cchildren c ∧ omap to_dev es = [] ∧
    if is_init m then ∃ p, r = Err p ∧ init_panic dr p else ∀ p, r = Err p → p = "ctx not ready")).
Proof.
  intros H. destruct (is_init m) eqn:Hm.
  - destruct m; try discriminate Hm. pose proof (pwp_run _ _ _ _ _ _ (run_init_spec F dr c) H) as [? Hp].
    split; [done|]. destruct r as [[]|p].
    + destruct Hp as (_ & k & es1 & ? & -> & Ht & _). left. exists k. split_and!; try done.
      by rewrite omap_app, to_dev_no_tell.
    + destruct Hp as (_ & ? & ? & ?). right. split_and!; eauto using to_dev_no_tell.
  - pose proof (pwp_run _ _ _ _ _ _ (quiet_handle F dr m c Hm) H) as (? & _ & ? & ? & ?). auto.
Qed.

Lemma apply_ops_app s ops1 ops2 : apply_ops s (ops1 ++ ops2) = apply_ops (apply_ops s ops1) ops2.
Proof. apply foldl_app. Qed.

Lemma bumps_app ops1 ops2 : bumps (ops1 ++ ops2) = (bumps ops1 + bumps ops2)%Z.
Proof. unfold bumps. rewrite filter_app, length_app. lia. Qed.

(** What a step or a run does to the shared state. *)
Definition moves (s s' : DeviceState) (n : Z) (b : bool) : Prop :=
  ∃ ops, s' = apply_ops s ops ∧ BeginShutdown ∉ ops ∧ (bumps ops <= n)%Z ∧
    (b = true → bumps ops ≠ 0%Z).

Lemma moves_refl s n : (0 <= n)%Z → moves s s n false.
Proof. exists []. split_and!; try done; apply not_elem_of_nil. Qed.

Lemma moves_trans s1 s2 s3 n1 n2 b1 b2 :
  moves s1 s2 n1 b1 → moves s2 s3 n2 b2 → moves s1 s3 (n1 + n2) (b1 || b2).
Proof.
  intros (ops1 & -> & ? & ? & Hb1) (ops2 & -> & ? & ? & Hb2). exists (ops1 ++ ops2).
  rewrite apply_ops_app, bumps_app, not_elem_of_app.
  pose proof (bumps_nonneg ops1). pose proof (bumps_nonneg ops2). split_and!; auto; [lia|].
  intros [?|?]%orb_true_iff; naive_solver lia.
Qed.

Lemma moves_clear s : moves s (clear_context s) 0 false.
Proof.
  exists [ClearContext]. split_and!; try done. rewrite not_elem_of_cons.
  split; [done|apply not_elem_of_nil].
Qed.

Lemma handle_dstate d m : dstate (handle d m).1 = dstate d.
Proof.
  device_cases m d; try destruct cref; try destruct kids; simpl; try case_decide; done.
Qed.

Lemma supervise_moves p fw c t :
  moves (cstate c) (dstate (t_dev (supervise p fw c t))) 0 false.
Proof.
  unfold supervise, restart, stop. destruct (decide_str p), (budget fw), (cleanup fw); simpl;
    first [by apply moves_refl|apply moves_clear].
Qed.

Lemma tree_step_moves F t cmd t' e :
  tree_step F t cmd = (t', e) →
  moves (dstate (t_dev t)) (dstate (t_dev t')) (if init_ran e then 1 else 0) (rebuilt e).
Proof.
  unfold tree_step.
  destruct (status t); [|intros [= <- <-]; by apply moves_refl..].
  destruct cmd as [m| |dr fw|p fw]; [intros [= <- <-]; by apply moves_refl|..].
  - destruct (dev_box t) as [|m q]; [intros [= <- <-]; by apply moves_refl|].
    pose proof (handle_dstate (t_dev t) m) as Hd.
    destruct (handle (t_dev t) m) as [d es]. intros [= <- <-]. simpl in *. rewrite Hd. by apply moves_refl.
  - destruct (ctx_box t) as [|m q]; [intros [= <- <-]; by apply moves_refl|].
    destruct (context_handle F dr m (sync_ctx t)) as [[r c] es] eqn:Hc.
    apply context_ops in Hc as (ops & Hs & Hsd & Hb & Hok).
    assert (Hm : moves (dstate (t_dev t)) (cstate c) (if is_init m then 1 else 0)
              (is_ok r && is_init m)).
    { exists ops. split_and!; auto. intros [??]%andb_true_iff. rewrite Hok by done. lia. }
    destruct r as [[]|p]; intros [= <- <-]; simpl in *; [done|].
    rewrite <-(Z.add_0_r (if is_init m then 1 else 0)), <-(orb_false_r false).
    eapply moves_trans; [done|apply supervise_moves].
  - intros [= <- <-]. apply (supervise_moves p fw (sync_ctx t)).
Qed.

Lemma inits_cons e es : inits (e :: es) = ((if init_ran e then 1 else 0) + inits es)%Z.
Proof. unfold inits. rewrite filter_cons. destruct (init_ran e); simpl; lia. Qed.

Lemma tree_run_moves F t cmds t' es :
  tree_run F t cmds = (t', es) →
  moves (dstate (t_dev t)) (dstate (t_dev t')) (inits es) (existsb rebuilt es).
Proof.
  revert t es; induction cmds as [|cmd cmds IH]; intros t es; simpl.
  { intros [= <- <-]. by apply moves_refl. }
  destruct (tree_step F t cmd) as [t1 e] eqn:H1. destruct (tree_run F t1 cmds) as [t2 es1] eqn:H2.
  intros [= <- <-]. rewrite inits_cons. simpl.
  eapply moves_trans; [by eapply tree_step_moves|by apply IH].
Qed.



(** ** Readiness *)

(** What a message tells the device about the kernel actors. *)
Definition notice (k : option KernelChildren) (m : DeviceMsg) : option KernelChildren :=
  match m with ContextReady k' => Some k' | ContextLost => None | _ => k end.

Definition is_notice (m : DeviceMsg) : bool :=
  match m with ContextReady _ | ContextLost => true | _ => false end.

(** Clients send requests, not notices, and no spawn error quotes a tag. *)
Definition fair (cmd : Command) : Prop :=
  match cmd with
  | ClientSends m => is_notice m = false
  | RunContext dr _ => clean_spawns dr
  | _ => True
  end.

Definition ready_inv (t : Tree) : Prop :=
  foldl notice (children (t_dev t)) (dev_box t) = cchildren (t_ctx t) ∧
  (status t = Running → is_Some (cchildren (t_ctx t)) ∨ Init ∈ ctx_box t).

Lemma handle_children d m : children (handle d m).1 = notice (children d) m.
Proof.
  assert (Hn : notice (children d) m = notice (children d) (translate m)) by (by destruct m).
  rewrite Hn, (handle_translate d m). generalize (translate_generic m).
  generalize (translate m). clear m Hn. intros m Hgen.
  destruct d as [cfg st cref kids pend]; destruct m; try discriminate Hgen;
    unfold handle, device_actor, device_handle, forward_or_stash, enqueue_pending,
      drain_pending, exec; act_unfold; try destruct cref; try destruct kids; simpl;
    try case_decide; done.
Qed.

Lemma notice_id k m : is_notice m = false → notice k m = k.
Proof. by destruct m. Qed.

(** Whatever the supervisor decides, the invariant is restored: a restart
    queues [Init] behind the waiting messages. *)
Lemma supervise_ready p fw c t :
  foldl notice (children (t_dev t)) (dev_box t) = cchildren c →
  (decide_str p = Resume → is_Some (cchildren c) ∨ Init ∈ ctx_box t) →
  ready_inv (supervise p fw c t).
Proof.
  intros Hv Hr. unfold ready_inv, supervise, restart, stop.
  destruct (decide_str p) eqn:Hd, (budget fw), (cleanup fw); simpl;
    rewrite ?foldl_app; simpl; split; try done; auto;
    intros _; right; apply elem_of_app; right; by left.
Qed.

Lemma tree_step_ready F t cmd :
  fair cmd → ready_inv t → ready_inv (tree_step F t cmd).1.
Proof.
  intros Hf [Hv Hr]. unfold tree_step. destruct (status t) eqn:Hst; [|by split; simpl; rewrite ?Hst; auto..].
  destruct cmd as [m| |dr fw|p fw]; simpl in Hf.
  - split; simpl; [|rewrite app_nil_r; auto]. by rewrite foldl_app, Hv; simpl; rewrite notice_id.
  - destruct (dev_box t) as [|m q] eqn:Hq; [by split; simpl; rewrite ?Hq; auto|].
    pose proof (handle_children (t_dev t) m) as Hc. destruct (handle (t_dev t) m) as [d es].
    simpl in *. split; simpl; [by rewrite Hc|].
    intros _. destruct (Hr eq_refl) as [?|?]; [by left|right]. apply elem_of_app. by left.
  - destruct (ctx_box t) as [|m q] eqn:Hq; [by split; simpl; rewrite ?Hq; auto|].
    destruct (context_handle F dr m (sync_ctx t)) as [[r c] es] eqn:Hc.
    apply context_readiness in Hc as [_ [(k & Hm & -> & Hk & Ht)|(Hk & Ht & Hm)]].
    + split; simpl; [by rewrite foldl_app, Ht, Hk|]. rewrite Hk. eauto.
    + assert (Hq' : is_init m = false → is_Some (cchildren c) ∨ Init ∈ q).
      { intros Hi. rewrite Hk. simpl. destruct (Hr eq_refl) as [?|Hin]; [by left|right].
        apply elem_of_cons in Hin as [<-|?]; done. }
      destruct r as [[]|p]; simpl.
      * destruct (is_init m); [by destruct Hm as (? & ? & ?)|].
        split; simpl; [by rewrite foldl_app, Ht, Hk|]. rewrite app_nil_r. auto.
      * apply supervise_ready; simpl; [by rewrite foldl_app, Ht, Hk|]. rewrite app_nil_r.
        intros Hres. destruct (is_init m); [|by auto].
        destruct Hm as (p' & [= <-] & Hp). destruct (init_panic_directive dr p Hf Hp); congruence.
  - apply supervise_ready; simpl; auto.
Qed.

(** The two tiers agree on readiness: in every tree reached from the start,
    once the device has read its mailbox its kernel actors are those of the
    live context incarnation (none while it is being rebuilt), and a running
    context without kernel actors always has an [Init] waiting, so that no
    failure leaves the device silently without a context. *)
Theorem tree_readiness (F : Features) (cfg : DeviceConfig) (cmds : list Command) :
  Forall fair cmds →
  let t := (tree_run F (tree_start cfg) cmds).1 in
  foldl notice (children (t_dev t)) (dev_box t) = cchildren (t_ctx t) ∧
  (status t = Running → is_Some (cchildren (t_ctx t)) ∨ Init ∈ ctx_box t).
Proof.
  intros Hf. assert (H0 : ready_inv (tree_start cfg)).
  { split; [done|]. intros _. right. by left. }
  revert H0. generalize (tree_start cfg). induction Hf as [|cmd cmds Hc _ IH]; intros t Ht; [done|].
  simpl. pose proof (tree_step_ready F t cmd Hc Ht) as H1.
  destruct (tree_step F t cmd) as [t1 e]. specialize (IH t1 H1).
  by destruct (tree_run F t1 cmds).
Qed.

Definition fw0 : Framework := {| budget := true; cleanup := true |}.

Lemma tree_readiness_witness :
  let t := (tree_run features_default (tree_start (DeviceConfig_mock 0))
              [RunContext driver_ok fw0; ClientSends (Alloc {| al_dtype := F32; al_len := 1; al_reply := 0 |});
               RunDevice; RunDevice; RunContext driver_ok fw0]).1 in
  foldl notice (children (t_dev t)) (dev_box t) = cchildren (t_ctx t) ∧ children (t_dev t) ≠ None.
Proof.
  intros t. split; [|by vm_compute].
  apply (tree_readiness features_default (DeviceConfig_mock 0)
    [RunContext driver_ok fw0; ClientSends (Alloc {| al_dtype := F32; al_len := 1; al_reply := 0 |});
     RunDevice; RunDevice; RunContext driver_ok fw0]).
  repeat constructor; intros ? ? ?; discriminate.
Defined.

(** ** Which libraries a tree runs *)

(** Clients send requests, not notices. *)
Definition client (cmd : Command) : Prop :=
  match cmd with ClientSends m => is_notice m = false | _ => True end.

Definition libraries_inv (F : Features) (cfg : DeviceConfig) (t : Tree) : Prop :=
  cconfig (t_ctx t) = cfg ∧
  (∀ k, cchildren (t_ctx t) = Some k → children_of F cfg k) ∧
  (∀ k, ContextReady k ∈ dev_box t → children_of F cfg k) ∧
  (∀ k, children (t_dev t) = Some k → children_of F cfg k).

Lemma supervise_libraries F cfg p fw c t : cconfig c = cfg → (∀ k, cchildren c = Some k → children_of F cfg k) →
  (∀ k, ContextReady k ∈ dev_box t → children_of F cfg k) →
  (∀ k, children (t_dev t) = Some k → children_of F cfg k) → libraries_inv F cfg (supervise p fw c t).
Proof.
  intros Hc Hk Hb Hd. unfold libraries_inv, supervise, restart, stop.
  destruct (decide_str p), (budget fw), (cleanup fw); simpl; split_and!; try done;
    intros k; rewrite ?elem_of_app, ?list_elem_of_singleton; naive_solver set_solver.
Qed.

Lemma tree_step_libraries F cfg t cmd : client cmd → libraries_inv F cfg t → libraries_inv F cfg (tree_step F t cmd).1.
Proof.
  intros Hf Ht. pose proof Ht as (Hc & Hk & Hb & Hd). unfold tree_step. destruct (status t); [|done..].
  destruct cmd as [m| |dr fw|p fw]; simpl in Hf.
  - split_and!; simpl; try done. intros k [?|Hin]%elem_of_app; [by apply Hb|].
    apply list_elem_of_singleton in Hin. by subst.
  - destruct (dev_box t) as [|m q] eqn:Hq; [done|].
    pose proof (handle_children (t_dev t) m) as Hch. destruct (handle (t_dev t) m) as [d es]. simpl in *.
    split_and!; simpl; try done; [intros k Hin; apply Hb; by right|].
    intros k. rewrite Hch. destruct m; simpl; try apply Hd; intros [=]; subst; apply Hb; by left.
  - destruct (ctx_box t) as [|m q] eqn:Hq; [done|].
    destruct (context_handle F dr m (sync_ctx t)) as [[r c] es] eqn:Hm.
    pose proof (context_readiness F dr m _ _ _ _ Hm) as [Hcc Hcases].
    assert ((∀ k, cchildren c = Some k → children_of F cfg k) ∧
      ∀ k, ContextReady k ∈ dev_box t ++ omap to_dev es → children_of F cfg k) as [H1 H2].
    { destruct Hcases as [(k & Hi & -> & Hck & Ho)|(-> & -> & _)]; [|by rewrite app_nil_r].
      assert (children_of F cfg k).
      { destruct m; try discriminate Hi. pose proof (pwp_run _ _ _ _ _ _ (init_children F dr (sync_ctx t)) Hm) as Hn.
        rewrite <-Hc. by apply (Hn k). }
      rewrite Hck, Ho. split; [by intros ? [= <-]|].
      intros k' [?|Hin]%elem_of_app; [by apply Hb|]. apply list_elem_of_singleton in Hin. by simplify_eq. }
    simpl in Hcc. rewrite Hc in Hcc. destruct r as [[]|p]; [by split_and!|]. by apply supervise_libraries.
  - by apply supervise_libraries.
Qed.

Lemma tree_run_libraries F cfg cmds : Forall client cmds → libraries_inv F cfg (tree_run F (tree_start cfg) cmds).1.
Proof.
  intros Hf. assert (H0 : libraries_inv F cfg (tree_start cfg)).
  { split_and!; try done; intros k; cbn; set_solver. }
  revert H0. generalize (tree_start cfg). induction Hf as [|cmd cmds Hc _ IH]; intros t Ht; [done|].
  simpl. pose proof (tree_step_libraries F cfg t cmd Hc Ht) as H1.
  destruct (tree_step F t cmd) as [t1 e]. specialize (IH t1 H1). by destruct (tree_run F t1 cmds).
Qed.

(** ** A restart overtaken by a copy *)

(** A waiting copy turns a restart into an escalation: when a device-to-host
    copy is already in the context's mailbox at a poisoned-context restart, it is
    handled before the [Init] the restart queued; with no stream it panics, the
    device is escalated to its own supervisor, and the copy is never answered,
    although the context could have been rebuilt. *)
Theorem restart_race (reply : nat) :
  let copy := {| th_dtype := F32; th_src := GpuRef_new 5 (DeviceState_new 0);
                 th_dst := Owned []; th_reply := reply |} in
  let cmds := [RunContext driver_ok fw0; RunDevice; ClientSends (CopyToHost copy); RunDevice;
    ChildFails "ContextPoisoned: illegal address" fw0; RunContext driver_ok fw0] in
  let '(t, es) := tree_run features_default (tree_start (DeviceConfig_new 0)) cmds in
  es = [ContextDid Init; Quiet; Quiet; Quiet; ContextFailed Restart;
        ContextPanicked (FromDevice (CtxCopyToHost copy)) Escalate] ∧
  status t = Escalated ∧ ctx_box t = [Init].
Proof. by vm_compute. Qed.
