(* ===== verification/Completion.v ===== *)
(** * Completion strategies

    Models [crates/atomr-accel-cuda/src/completion]: how the future a kernel task
    awaits learns that the work before it on the stream is done.  The driver's
    answers are parameters: whether a host function can be launched and whether
    it fires, whether an event can be recorded, and which queries of the event
    find it complete.  [elapsed i] is the clock at the [i]-th query, counted from
    the start of the loop; times are in one unit. *)

From S2P Require Import Prelude Errors.

(** [std::panic::catch_unwind] around a driver call. *)
Inductive Caught (A : Type) : Type := Returned (a : A) | Unwound.
Arguments Returned {A} _.
Arguments Unwound {A}.

Record PolledCompletion := { interval : Z; timeout : option Z }.

(** Times in nanoseconds: five minutes, and fifty microseconds. *)
Definition PolledCompletion_new (interval : Z) : PolledCompletion :=
  {| interval := interval; timeout := Some (300 * 1000000000)%Z |}.
Definition PolledCompletion_default : PolledCompletion := PolledCompletion_new 50000.

Section host_fn.
(** [HostFnCompletion::await_completion]: the launch's error, and what the
    callback's channel gives ([None] when it is dropped without firing). *)
Definition host_fn_await (launch : result unit string) (rx : option (result unit GpuError)) :
    result unit GpuError :=
  match launch with
  | Err e => Err (Driver ("cuLaunchHostFunc failed: " +:+ e))
  | Ok _ =>
    match rx with
    | Some r => r
    | None => Err (Driver "host-function callback dropped without firing")
    end
  end.
(** [wake_trampoline] sends [Ok]. *)
Definition wake_trampoline (data_null : bool) : option (result unit GpuError) :=
  if data_null then None else Some (Ok tt).
End host_fn.

(** [SyncCompletion]: the blocking task's join, and the synchronisation. *)
Definition sync_await (join : result (result unit string) string) : result unit GpuError :=
  match join with
  | Err e => Err (Driver ("sync-completion task: " +:+ e))
  | Ok (Err e) => Err (Driver ("cudaStreamSynchronize: " +:+ e))
  | Ok (Ok _) => Ok tt
  end.

Section polled.
Context (p : PolledCompletion).
(** The [i]-th query of the event, and the clock before it is compared. *)
Context (is_complete : nat → Caught bool) (elapsed : nat → Z).

Definition query (i : nat) : bool := match is_complete i with Returned b => b | Unwound => false end.

(** The loop from the [i]-th query on; [None] when the fuel runs out. *)
Fixpoint poll (fuel i : nat) : option (result unit GpuError) :=
  match fuel with
  | 0 => None
  | S fuel =>
    if query i then Some (Ok tt)
    else
      match timeout p with
      | Some t => if (t <=? elapsed i)%Z then Some (Err Timeout) else poll fuel (S i)
      | None => poll fuel (S i)
      end
  end.

Definition polled_await (record_event : Caught (result unit string)) (fuel : nat) : option (result unit GpuError) :=
  match record_event with
  | Returned (Ok _) => poll fuel 0
  | Returned (Err e) => Some (Err (LibraryError "driver" ("PolledCompletion: record_event: " +:+ e)))
  | Unwound => Some (Err (Unrecoverable "PolledCompletion: CUDA driver not loadable"))
  end.

(** The first query that ends the loop. *)
Definition stops (i : nat) : Prop := query i = true ∨ ∃ t, timeout p = Some t ∧ (t ≤ elapsed i)%Z.

Lemma poll_first n : ∀ fuel i, n < fuel →
  (∀ j, j < n → ¬ stops (i + j)) → stops (i + n) →
  poll fuel i = Some (if query (i + n) then Ok tt else Err Timeout).
Proof.
  induction n as [|n IH]; intros [|fuel] i Hf Hno Hstop; [lia| |lia|]; cbn [poll].
  - rewrite Nat.add_0_r in *. destruct (query i) eqn:Hq; [done|].
    destruct Hstop as [|(t & -> & Ht)]; [congruence|]. by rewrite (proj2 (Z.leb_le _ _)).
  - specialize (Hno 0 ltac:(lia)) as H0. rewrite Nat.add_0_r in H0. unfold stops in H0.
    destruct (query i); [by destruct H0; left|].
    assert (Hrec : poll fuel (S i) = Some (if query (i + S n) then Ok tt else Err Timeout)).
    { replace (i + S n) with (S i + n) in * by lia. apply IH; [lia| |done].
      intros j Hj. replace (S i + j) with (i + S j) by lia. apply Hno. lia. }
    destruct (timeout p) as [t|]; [|done]. destruct (Z.leb_spec t (elapsed i)); [|done].
    destruct H0. right. eauto.
Qed.

(** With a clock that advances by the interval at each query, the timeout ends the
    loop within this many queries. *)
Definition polls_needed (t : Z) : nat := S (Z.to_nat (t / interval p)).

Lemma stops_by t : timeout p = Some t → (0 < interval p)%Z →
  (∀ i, (Z.of_nat i * interval p ≤ elapsed i)%Z) → stops (polls_needed t).
Proof.
  intros Ht Hi Hclock. right. exists t. split; [done|]. etrans; [|apply Hclock].
  unfold polls_needed. pose proof (Z.mod_pos_bound t (interval p) Hi).
  pose proof (Z.div_mod t (interval p) ltac:(lia)).
  destruct (Z.le_gt_cases 0 (t / interval p)); [rewrite Nat2Z.inj_succ, Z2Nat.id by lia; nia|nia].
Qed.
End polled.

#[global] Instance stops_dec p c e i : Decision (stops p c e i).
Proof.
  unfold stops. apply or_dec; [apply _|]. destruct (timeout p) as [t|].
  - destruct (decide (t ≤ e i)%Z); [left; eauto|right]. by intros (t' & [= <-] & ?).
  - right. by intros (t & ? & _).
Defined.

(** The first of finitely many stops. *)
Lemma first_stop p c e n :
  (∀ j, j < n → ¬ stops p c e j) ∨ ∃ m, m < n ∧ stops p c e m ∧ ∀ j, j < m → ¬ stops p c e j.
Proof.
  induction n as [|n [IH|(m & Hm & Hs)]]; [left; lia| |right; exists m; split; [lia|done]].
  destruct (decide (stops p c e n)) as [Hn|Hn]; [right; exists n; split; [lia|done]|left].
  intros j Hj. destruct (decide (j = n)) as [->|]; [done|]. apply IH. lia.
Qed.

(** A polled completion always resolves: with a timeout and a clock that
    advances at least by the interval between queries, the polling loop ends at
    some query no later than the timeout divided by the interval, plus one,
    whatever the driver answers; it resolves with success exactly when that last
    query finds the event complete, and all earlier ones found it incomplete
    before the timeout. *)
Theorem polled_resolves (p : PolledCompletion) is_complete elapsed t :
  timeout p = Some t → (0 < interval p)%Z → (∀ i, (Z.of_nat i * interval p ≤ elapsed i)%Z) →
  ∃ n, n ≤ polls_needed p t ∧
    (∀ fuel, n < fuel → polled_await p is_complete elapsed (Returned (Ok tt)) fuel =
       Some (if query is_complete n then Ok tt else Err Timeout)) ∧
    (∀ j, j < n → query is_complete j = false ∧ (elapsed j < t)%Z) ∧
    (query is_complete n = false → (t ≤ elapsed n)%Z).
Proof.
  intros Ht Hi Hclock. pose proof (stops_by p is_complete elapsed t Ht Hi Hclock) as Hs.
  assert (∃ n, n ≤ polls_needed p t ∧ stops p is_complete elapsed n ∧ ∀ j, j < n → ¬ stops p is_complete elapsed j)
    as (n & Hn & Hstop & Hno).
  { destruct (first_stop p is_complete elapsed (polls_needed p t)) as [Hno|(m & Hm & ? & ?)].
    - by exists (polls_needed p t).
    - exists m. split; [lia|done]. }
  exists n. split_and!; [done| | |].
  - intros fuel Hf. cbn [polled_await]. by rewrite (poll_first p is_complete elapsed n fuel 0).
  - intros j Hj. specialize (Hno j Hj). unfold stops in Hno. split.
    + destruct (query is_complete j); [by destruct Hno; left|done].
    + destruct (Z.lt_ge_cases (elapsed j) t); [done|]. destruct Hno. right. eauto.
  - intros Hq. destruct Hstop as [?|(t' & Ht' & ?)]; [congruence|]. rewrite Ht in Ht'. by injection Ht' as ->.
Qed.

Lemma polled_resolves_witness :
  ∃ n, n ≤ polls_needed {| interval := 50; timeout := Some 100%Z |} 100.
Proof.
  destruct (polled_resolves {| interval := 50; timeout := Some 100%Z |} (λ _, Returned false)
    (λ i, (Z.of_nat i * 50)%Z) 100 eq_refl) as (n & Hn & _); [done|simpl; lia|]. by exists n.
Defined.

(** A success of any strategy comes from the driver: the host function fired, the
    event was complete, the stream was synchronised. *)
Lemma host_fn_ok launch rx : host_fn_await launch rx = Ok tt ↔ is_ok launch = true ∧ rx = Some (Ok tt).
Proof. destruct launch, rx as [[[]|]|]; naive_solver. Qed.

Lemma sync_ok join : sync_await join = Ok tt ↔ ∃ u, join = Ok (Ok u).
Proof. destruct join as [[[]|]|]; naive_solver. Qed.

(** Without a timeout the loop runs as long as the event is incomplete. *)
Lemma poll_unbounded p c e fuel i :
  timeout p = None → (∀ j, query c j = false) → poll p c e fuel i = None.
Proof. intros Ht Hq. revert i. induction fuel as [|fuel IH]; intros i; [done|]. simpl. by rewrite Hq, Ht. Qed.
