(* ===== verification/Managed.v ===== *)
(** * Managed memory

    Models [managed.rs], [advise.rs] and [prefetch.rs] of
    [crates/atomr-accel-cuda/src/memory]: the allocator actor, its messages, and
    the reference-counted [ManagedRef] handles that clients clone and drop.  What
    the CUDA runtime and driver answer comes with the step; a pointer the runtime
    returns is not one that is in use.  A reply that nobody receives is a reply
    whose handle is dropped at once. *)

From stdpp Require Import pretty.
From S2P Require Import Prelude Actor Errors Completion.

Inductive ManagedFlags : Type := AttachGlobal | AttachHost.
Definition flags_raw (f : ManagedFlags) : Z := match f with AttachGlobal => 1 | AttachHost => 2 end.

Inductive PrefetchTarget : Type := ToDevice (id : Z) | Cpu.
(** A [CUmemLocation]: its type, and the id, which stays zero. *)
Inductive LocationType : Type := LocDevice | LocHost.
Definition driver_location (t : PrefetchTarget) : LocationType * Z :=
  match t with ToDevice _ => (LocDevice, 0%Z) | Cpu => (LocHost, 0%Z) end.

Inductive MemAdvice : Type :=
  | SetReadMostly | UnsetReadMostly
  | SetPreferredLocation (t : PrefetchTarget) | UnsetPreferredLocation
  | SetAccessedBy (t : PrefetchTarget) | UnsetAccessedBy (t : PrefetchTarget).

Definition advice_raw (a : MemAdvice) : string * (LocationType * Z) :=
  match a with
  | SetReadMostly => ("CU_MEM_ADVISE_SET_READ_MOSTLY", (LocHost, 0%Z))
  | UnsetReadMostly => ("CU_MEM_ADVISE_UNSET_READ_MOSTLY", (LocHost, 0%Z))
  | SetPreferredLocation t => ("CU_MEM_ADVISE_SET_PREFERRED_LOCATION", driver_location t)
  | UnsetPreferredLocation => ("CU_MEM_ADVISE_UNSET_PREFERRED_LOCATION", (LocHost, 0%Z))
  | SetAccessedBy t => ("CU_MEM_ADVISE_SET_ACCESSED_BY", driver_location t)
  | UnsetAccessedBy t => ("CU_MEM_ADVISE_UNSET_ACCESSED_BY", driver_location t)
  end.

Record ManagedStats := { allocations : Z; bytes_allocated : Z }.

(** [ManagedRefInner], and a handle: [None] is a handle without memory. *)
Record ManagedRefInner := { ptr : Z; bytes : Z; elements : Z }.
Abbreviation ManagedRef := (option ManagedRefInner).

Inductive ManagedMsg : Type :=
  | AllocateManagedF32 (len : Z) (flags : ManagedFlags) (reply : nat)
  | PrefetchF32 (mem : ManagedRef) (target : PrefetchTarget) (reply : nat)
  | AdviseF32 (mem : ManagedRef) (advice : MemAdvice) (reply : nat)
  | Stats (reply : nat).

(** The actor, and the strong counts of the live allocations. *)
Record Managed := {
  system_alive : bool;
  stats : ManagedStats;
  counts : gmap Z nat;
}.

Inductive ManagedEff : Type :=
  | Malloc (bytes flags : Z)
  | Prefetch (ptr bytes : Z) (loc : LocationType * Z)
  | Advise (ptr bytes : Z) (advice : string) (loc : LocationType * Z)
  | Free (ptr : Z)
  | ReplyAlloc (reply : nat) (r : result ManagedRefInner GpuError)
  | ReplyUnit (reply : nat) (r : result unit GpuError)
  | ReplyStats (reply : nat) (s : ManagedStats).

Definition set_counts (c : gmap Z nat) (m : Managed) : Managed :=
  {| system_alive := system_alive m; stats := stats m; counts := c |}.
Definition refcount (m : Managed) (p : Z) : nat := default 0 (counts m !! p).

Definition Managed_new : Managed :=
  {| system_alive := true; stats := {| allocations := 0; bytes_allocated := 0 |}; counts := ∅ |}.

(** What [cudaMallocManaged] answers: a status other than success, or the pointer
    it wrote. *)
Abbreviation MallocAnswer := (Caught (result Z string)).

Definition checked_mul (x y : Z) : option Z := if (x * y <? 2 ^ 64)%Z then Some (x * y)%Z else None.

Section actor.
(** The driver's answers to this step's calls. *)
Context (malloc : MallocAnswer) (driver : result unit GpuError).

Abbreviation mact := (act Managed ManagedEff).

Definition allocate_f32 (len : Z) (flags : ManagedFlags) : mact (result ManagedRefInner GpuError) :=
  match checked_mul len 4 with
  | None => mret (Err (Unrecoverable "managed alloc: len * size_of overflowed"))
  | Some bytes =>
    emit (Malloc bytes (flags_raw flags));;
    match malloc with
    | Unwound => mret (Err (Unrecoverable "cudaMallocManaged: CUDA runtime not loadable"))
    | Returned (Err status) => mret (Err (OutOfMemory ("cudaMallocManaged(" +:+ pretty bytes +:+ "B): " +:+ status)))
    | Returned (Ok p) =>
      if (p =? 0)%Z then mret (Err (Unrecoverable "cudaMallocManaged returned null"))
      else
        modify (λ m, {| system_alive := system_alive m;
                        stats := {| allocations := allocations (stats m) +₆₄ 1;
                                    bytes_allocated := bytes_allocated (stats m) +₆₄ bytes |};
                        counts := <[p := 1]> (counts m) |});;
        mret (Ok {| ptr := p; bytes := bytes; elements := len |})
    end
  end.

(** [ManagedRef::clone] and the drop of a handle: the last one frees the memory
    while the system is alive. *)
Definition clone_ref (r : ManagedRef) : mact unit :=
  match r with
  | None => skip
  | Some i => modify (λ m, set_counts (<[ptr i := S (refcount m (ptr i))]> (counts m)) m)
  end.
Definition drop_ref (r : ManagedRef) : mact unit :=
  match r with
  | None => skip
  | Some i =>
    m ← get;
    match refcount m (ptr i) with
    | 0 => skip
    | 1 =>
      put (set_counts (delete (ptr i) (counts m)) m);;
      if system_alive m then emit (Free (ptr i)) else skip
    | S n => put (set_counts (<[ptr i := n]> (counts m)) m)
    end
  end.

Definition invalid (op : string) : GpuError := Unrecoverable (op +:+ ": invalid ManagedRef").
Definition stopped (op : string) : GpuError := Unrecoverable (op +:+ ": allocator stopped").

Definition managed_handle (msg : ManagedMsg) : mact unit :=
  match msg with
  | AllocateManagedF32 len flags reply =>
    r ← allocate_f32 len flags;
    emit (ReplyAlloc reply r)
  | PrefetchF32 mem target reply =>
    m ← get;
    match mem with
    | None => emit (ReplyUnit reply (Err (invalid "PrefetchF32")))
    | Some i =>
      if negb (system_alive m) then emit (ReplyUnit reply (Err (stopped "PrefetchF32")))
      else emits [Prefetch (ptr i) (bytes i) (driver_location target); ReplyUnit reply driver]
    end;;
    drop_ref mem
  | AdviseF32 mem advice reply =>
    m ← get;
    match mem with
    | None => emit (ReplyUnit reply (Err (invalid "AdviseF32")))
    | Some i =>
      if negb (system_alive m) then emit (ReplyUnit reply (Err (stopped "AdviseF32")))
      else
        let al := advice_raw advice in
        emits [Advise (ptr i) (bytes i) al.1 al.2; ReplyUnit reply driver]
    end;;
    drop_ref mem
  | Stats reply => m ← get; emit (ReplyStats reply (stats m))
  end.

Definition post_stop : mact unit :=
  modify (λ m, {| system_alive := false; stats := stats m; counts := counts m |}).
End actor.

(** Host views of a handle. *)
Definition is_valid (m : Managed) (r : ManagedRef) : bool :=
  match r with Some _ => system_alive m | None => false end.
Definition len (r : ManagedRef) : Z := match r with Some i => elements i | None => 0 end.
(** The elements [as_slice] and [as_mut_slice] expose: address and count. *)
Definition as_slice (m : Managed) (r : ManagedRef) : option (Z * Z) :=
  match r with Some i => if system_alive m then Some (ptr i, elements i) else None | None => None end.

(** ** Executions *)

(** The handle a message carries. *)
Definition carried (msg : ManagedMsg) : ManagedRef :=
  match msg with PrefetchF32 r _ _ | AdviseF32 r _ _ => r | _ => None end.

(** A handle that exists. *)
Definition owned (m : Managed) (r : ManagedRef) : Prop :=
  match r with Some i => 1 ≤ refcount m (ptr i) | None => True end.

Inductive mstep : Managed → list ManagedEff → Managed → Prop :=
  | MMsg msg malloc driver m m' es :
      owned m (carried msg) →
      (∀ p, malloc = Returned (Ok p) → refcount m p = 0) →
      exec (managed_handle malloc driver msg) m = (m', es) → mstep m es m'
  | MClone r m m' es : owned m r → exec (clone_ref r) m = (m', es) → mstep m es m'
  | MDrop r m m' es : owned m r → exec (drop_ref r) m = (m', es) → mstep m es m'
  | MStop m m' es : exec post_stop m = (m', es) → mstep m es m'.

Inductive msteps : Managed → list ManagedEff → Managed → Prop :=
  | MRefl m : msteps m [] m
  | MStep m1 e1 m2 e2 m3 : mstep m1 e1 m2 → msteps m2 e2 m3 → msteps m1 (e1 ++ e2) m3.

Definition minted (e : ManagedEff) : list Z :=
  match e with ReplyAlloc _ (Ok i) => [ptr i] | _ => [] end.
Definition freed (e : ManagedEff) : list Z := match e with Free p => [p] | _ => [] end.

(** The live allocations, each with a count of at least one. *)
Definition live (m : Managed) : list Z := (map_to_list (counts m)).*1.
Definition minv (m : Managed) : Prop := ∀ p n, counts m !! p = Some n → 1 ≤ n.

Lemma elem_of_live m p : minv m → p ∈ live m ↔ 1 ≤ refcount m p.
Proof.
  intros Hm. unfold live, refcount. rewrite list_elem_of_fmap. split.
  - intros ([q n] & -> & Hq%elem_of_map_to_list). simpl. rewrite Hq. by apply (Hm q).
  - intros Hn. destruct (counts m !! p) as [n|] eqn:Hp; [|simpl in Hn; lia].
    exists (p, n). by rewrite elem_of_map_to_list.
Qed.

Lemma live_insert_new m p n : counts m !! p = None →
  (map_to_list (<[p := n]> (counts m))).*1 ≡ₚ p :: live m.
Proof. intros Hp. by rewrite map_to_list_insert. Qed.

Lemma live_delete m p n : counts m !! p = Some n →
  live m ≡ₚ p :: live (set_counts (delete p (counts m)) m).
Proof.
  intros Hp. unfold live. cbn [counts set_counts]. rewrite <-(insert_delete_id (counts m) p n Hp) at 1.
  rewrite map_to_list_insert by apply lookup_delete_eq. done.
Qed.

Lemma live_update m p n k : counts m !! p = Some n →
  live (set_counts (<[p := k]> (counts m)) m) ≡ₚ live m.
Proof.
  intros Hp. rewrite (live_delete m p n Hp). unfold live. cbn [counts set_counts]. rewrite <-insert_delete_eq, map_to_list_insert by apply lookup_delete_eq.
  done.
Qed.

(** What one step does to the live allocations. *)
Definition mpost (m : Managed) (es : list ManagedEff) (m' : Managed) : Prop :=
  minv m' ∧
  (system_alive m = true → live m ++ (es ≫= minted) ≡ₚ (es ≫= freed) ++ live m') ∧
  (system_alive m = false → es ≫= freed = [] ∧ system_alive m' = false) ∧
  allocations (stats m') = wrap 64 (allocations (stats m) + Z.of_nat (length (es ≫= minted))).

Lemma refcount_Some m p n : refcount m p = S n → counts m !! p = Some (S n).
Proof. unfold refcount. destruct (counts m !! p); simpl; [by intros ->|done]. Qed.

Lemma wrap_alloc m : in_width 64 (allocations (stats m)) →
  allocations (stats m) = wrap 64 (allocations (stats m) + Z.of_nat (length (@nil Z))).
Proof. intros Hw. cbn. rewrite Z.add_0_r. by rewrite wrap_small. Qed.

Lemma drop_ref_post r m :
  minv m → in_width 64 (allocations (stats m)) →
  awp (drop_ref r) (λ _ m' es, mpost m es m' ∧ es ≫= minted = [] ∧ stats m' = stats m ∧
    system_alive m' = system_alive m) m.
Proof.
  intros Hm Hw. unfold drop_ref. destruct r as [i|]; awp_steps.
  2:{ split; [|done]. split_and!; [done|by rewrite app_nil_r|done|exact (wrap_alloc _ Hw)]. }
  destruct (refcount m (ptr i)) as [|[|n]] eqn:Hc; awp_steps.
  - split; [|done]. split_and!; [done|by rewrite app_nil_r|done|exact (wrap_alloc _ Hw)].
  - apply refcount_Some in Hc. destruct (system_alive m) eqn:Ha; awp_steps; (split; [|done]).
    + split_and!; [|intros _; cbn; rewrite app_nil_r; exact (live_delete m _ 1 Hc)|by rewrite Ha|exact (wrap_alloc _ Hw)].
      intros p n. cbn. rewrite lookup_delete_Some. intros [_ Hp]. by apply (Hm p).
    + split_and!; [|by rewrite Ha|done|exact (wrap_alloc _ Hw)].
      intros p n. cbn. rewrite lookup_delete_Some. intros [_ Hp]. by apply (Hm p).
  - apply refcount_Some in Hc. split; [|done].
    split_and!; [|intros _; cbn; rewrite app_nil_r; symmetry; exact (live_update m _ _ (S n) Hc)|done|exact (wrap_alloc _ Hw)].
    intros p k. cbn. rewrite lookup_insert_Some. intros [[_ <-]|[_ Hp]]; [lia|by apply (Hm p)].
Qed.

Lemma clone_ref_post r m : minv m → in_width 64 (allocations (stats m)) → owned m r →
  awp (clone_ref r) (λ _ m' es, mpost m es m') m.
Proof.
  intros Hm Hw Ho. unfold clone_ref. destruct r as [i|]; awp_steps.
  2:{ split_and!; [done|by rewrite app_nil_r|done|exact (wrap_alloc _ Hw)]. }
  simpl in Ho. destruct (refcount m (ptr i)) as [|n] eqn:Hc; [lia|]. apply refcount_Some in Hc.
  split_and!; [|intros _; cbn; rewrite app_nil_r; symmetry; exact (live_update m _ _ (S (S n)) Hc)|done|exact (wrap_alloc _ Hw)].
  intros p k. cbn. rewrite lookup_insert_Some. intros [[_ <-]|[_ Hp]]; [lia|by apply (Hm p)].
Qed.

Lemma allocate_post malloc len flags reply m :
  minv m → in_width 64 (allocations (stats m)) → (∀ p, malloc = Returned (Ok p) → refcount m p = 0) →
  awp (managed_handle malloc (Ok tt) (AllocateManagedF32 len flags reply)) (λ _ m' es, mpost m es m') m.
Proof.
  intros Hm Hw Hfresh. cbn [managed_handle]. unfold allocate_f32.
  assert (Hsame : ∀ es, es ≫= minted = [] → es ≫= freed = [] → mpost m es m).
  { intros es H1 H2. split_and!; [done|by rewrite H1, H2, app_nil_r|by rewrite H2|]. rewrite H1. exact (wrap_alloc _ Hw). }
  destruct (checked_mul len 4) as [b|]; awp_steps; [|by apply Hsame].
  destruct malloc as [[p|e]|]; [|awp_steps; by apply Hsame..].
  destruct (p =? 0)%Z; awp_steps; [by apply Hsame|].
  specialize (Hfresh p eq_refl). assert (Hp : counts m !! p = None).
  { unfold refcount in Hfresh. destruct (counts m !! p) as [n|] eqn:Hp; [|done]. simpl in Hfresh.
    apply Hm in Hp. lia. }
  split_and!.
  - intros q n. cbn. rewrite lookup_insert_Some. intros [[_ <-]|[_ Hq]]; [lia|by apply (Hm q)].
  - intros _. change (live m ++ [p] ≡ₚ (map_to_list (<[p := 1]> (counts m))).*1).
    rewrite live_insert_new by done. by rewrite Permutation_app_comm.
  - done.
  - done.
Qed.

Lemma mstep_post m es m' :
  mstep m es m' → minv m → in_width 64 (allocations (stats m)) → mpost m es m'.
Proof.
  intros Hs Hm Hw. destruct Hs as [msg malloc driver m m' es Hown Hfresh Hex|r m m' es Hown Hex|r m m' es Hown Hex|m m' es Hex].
  - assert (Hdrop : ∀ r pre, pre ≫= minted = [] → pre ≫= freed = [] →
      awp (emits pre;; drop_ref r) (λ _ m' es, mpost m es m') m).
    { intros r pre H1 H2. awp_steps. eapply awp_mono, drop_ref_post; [|done|done].
      intros _ m1 e1 [(Hi & Ha & Hd & Hn) _]. unfold mpost. rewrite !bind_app, H1, H2. done. }
    assert (Hp : awp (managed_handle malloc driver msg) (λ _ m' es, mpost m es m') m).
    { destruct msg as [len flags reply|mem target reply|mem advice reply|reply].
      - by apply allocate_post.
      - cbn [managed_handle]. apply awp_bind, awp_get.
        destruct mem as [i|]; [destruct (system_alive m); cbn [negb]|]; by apply Hdrop.
      - cbn [managed_handle]. apply awp_bind, awp_get.
        destruct mem as [i|]; [destruct (system_alive m); cbn [negb]|]; by apply Hdrop.
      - cbn [managed_handle]. awp_steps. split_and!; [done|by rewrite app_nil_r|done|exact (wrap_alloc _ Hw)]. }
    apply awp_exec in Hp. by rewrite Hex in Hp.
  - pose proof (clone_ref_post r m Hm Hw Hown) as Hp. apply awp_exec in Hp. by rewrite Hex in Hp.
  - pose proof (drop_ref_post r m Hm Hw) as Hp. apply (awp_mono _ _ (λ _ m' es, mpost m es m')) in Hp; [|tauto].
    apply awp_exec in Hp. by rewrite Hex in Hp.
  - unfold post_stop in Hex. act_unfold. injection Hex as <- <-.
    split_and!; [done|by rewrite app_nil_r|done|exact (wrap_alloc _ Hw)].
Qed.

Lemma wrap_in m es m' : mpost m es m' → in_width 64 (allocations (stats m')).
Proof. intros (_ & _ & _ & ->). by apply (wrap_in_width 64). Qed.

Lemma alive_back m es m' : mstep m es m' → minv m → in_width 64 (allocations (stats m)) →
  system_alive m' = true → system_alive m = true.
Proof.
  intros Hs Hm Hw Ha. destruct (system_alive m) eqn:He; [done|].
  destruct (mstep_post _ _ _ Hs Hm Hw) as (_ & _ & Hd & _). destruct (Hd He) as [_ ?]. congruence.
Qed.

Lemma msteps_post m es m' :
  msteps m es m' → minv m → in_width 64 (allocations (stats m)) →
  minv m' ∧ in_width 64 (allocations (stats m')) ∧ (system_alive m' = true → system_alive m = true) ∧
  (system_alive m' = true → live m ++ (es ≫= minted) ≡ₚ (es ≫= freed) ++ live m') ∧
  (system_alive m = false → es ≫= freed = [] ∧ system_alive m' = false) ∧
  allocations (stats m') = wrap 64 (allocations (stats m) + Z.of_nat (length (es ≫= minted))).
Proof.
  induction 1 as [m|m1 e1 m2 e2 m3 H1 H2 IH]; intros Hm Hw.
  { split_and!; [done|done|done|by rewrite app_nil_r|done|exact (wrap_alloc _ Hw)]. }
  pose proof (mstep_post _ _ _ H1 Hm Hw) as Hp. pose proof (wrap_in _ _ _ Hp) as Hw2.
  pose proof (alive_back _ _ _ H1 Hm Hw) as Hback. destruct Hp as (Hm2 & Hl & Hd & Hn).
  destruct (IH Hm2 Hw2) as (Hm3 & Hw3 & Hb3 & Hl3 & Hd3 & Hn3). split_and!; [done|done|auto| | |].
  - intros Ha. rewrite !bind_app, app_assoc, (Hl (Hback (Hb3 Ha))), <-app_assoc, (Hl3 Ha), app_assoc. done.
  - intros Ha. destruct (Hd Ha) as [He Ha2]. destruct (Hd3 Ha2) as [He3 ?]. by rewrite bind_app, He, He3.
  - rewrite Hn3, Hn, bind_app, length_app. unfold wrap. rewrite Zplus_mod_idemp_l. f_equal. lia.
Qed.

(** C4 (managed memory is freed exactly once, while the allocator lives): along
    every execution of the allocator and its clients, as long as the actor has not
    stopped, the allocations handed out are those freed and those that still have
    a handle, so nothing is freed twice, early or never; once it has stopped
    nothing is freed any more and every handle is invalid and shows no elements;
    and the statistics count the allocations, modulo the word size. *)
Theorem managed_memory (es : list ManagedEff) (m : Managed) :
  msteps Managed_new es m →
  (system_alive m = true →
     (es ≫= minted) ≡ₚ (es ≫= freed) ++ live m ∧ ∀ p, p ∈ live m ↔ 1 ≤ refcount m p) ∧
  (system_alive m = false → ∀ es' m', msteps m es' m' →
     es' ≫= freed = [] ∧ ∀ r, is_valid m' r = false ∧ as_slice m' r = None) ∧
  allocations (stats m) = wrap 64 (Z.of_nat (length (es ≫= minted))).
Proof.
  intros Hs. assert (H0 : minv Managed_new) by (intros p n; cbn; by rewrite lookup_empty).
  destruct (msteps_post _ _ _ Hs H0) as (Hm & Hw & _ & Hl & _ & Hn); [done|]. split_and!; [| |exact Hn].
  - intros Ha. split; [by apply Hl|]. intros p. by apply elem_of_live.
  - intros Ha es' m' Hs'. destruct (msteps_post _ _ _ Hs' Hm Hw) as (_ & _ & _ & _ & Hd & _).
    destruct (Hd Ha) as [? Hf]. split; [done|]. intros r. unfold is_valid, as_slice. rewrite Hf. by destruct r.
Qed.

(** A handle is allocated, the actor stops and the handle is dropped. *)
Definition leaked_ref : ManagedRefInner := {| ptr := 4096; bytes := 40; elements := 10 |}.
Definition managed_one : Managed :=
  {| system_alive := true; stats := {| allocations := 1; bytes_allocated := 40 |}; counts := {[4096%Z := 1]} |}.
Definition alloc_effs : list ManagedEff := [Malloc 40 1; ReplyAlloc 0 (Ok leaked_ref)].

Lemma alloc_one : msteps Managed_new alloc_effs managed_one.
Proof.
  eapply (MStep _ alloc_effs _ []); [|apply MRefl].
  apply (MMsg (AllocateManagedF32 10 AttachGlobal 0) (Returned (Ok 4096%Z)) (Ok tt)); [done| |run].
  intros p [= <-]. run.
Qed.

Lemma managed_memory_witness : 4096%Z ∈ live managed_one.
Proof.
  destruct (managed_memory _ _ alloc_one) as [H _]. destruct (H eq_refl) as [_ Hl]. apply Hl. vm_compute. lia.
Defined.

(** Stopping the allocator frees nothing, and what is dropped afterwards is never
    freed. *)
Example stopped_memory_leaks :
  ∃ m, msteps Managed_new alloc_effs m ∧ system_alive m = true ∧
    ∃ m', msteps m [] m' ∧ live m = [4096%Z] ∧ live m' = [] ∧ system_alive m' = false.
Proof.
  exists managed_one. split; [apply alloc_one|]. split; [done|]. eexists. split_and!; [|run| |].
  - eapply (MStep _ [] _ [] _ (MStop _ _ _ eq_refl)). eapply (MStep _ [] _ [] _); [|apply MRefl].
    apply (MDrop (Some leaked_ref)); [by vm_compute|]. unfold drop_ref. act_unfold. reflexivity.
  - run.
  - run.
Qed.

(** Every prefetch and every advice goes to the location with id 0. *)
Lemma location_id_zero t : (driver_location t).2 = 0%Z.
Proof. by destruct t. Qed.
