(* ===== verification/Streams.v ===== *)
(** * Stream allocators

    Models [mod.rs], [pool.rs], [per_actor.rs] and [single.rs] of
    [crates/atomr-accel-cuda/src/stream].  An allocator is a [StreamAllocator], the
    trait's [acquire]; the streams' strong counts are those the allocators' clients
    see, and the driver's answer to [new_stream] comes with the call.  The hints
    are not read. *)

From S2P Require Import Prelude Actor DeviceState.

Inductive Priority : Type := Low | Normal | High.
Inductive WorkloadKind : Type := ShortLatencyBound | LongThroughputBound.
Record ActorHints := { priority : Priority; workload : WorkloadKind }.
Definition default_hints : ActorHints := {| priority := Normal; workload := ShortLatencyBound |}.

(** The strong counts of streams. *)
Abbreviation stream_arcs := arcs.

(** [StreamAllocator]: [acquire] gives a stream, with the count it raised, or panics
    with a text. *)
Class StreamAllocator (A : Type) := {
  acquire : ActorHints → result stream_id string → A → stream_arcs → result stream_id string * A * stream_arcs;
}.

(** ** One stream *)

Record SingleStreamAllocator := { single : stream_id }.
#[global] Instance single_allocator : StreamAllocator SingleStreamAllocator :=
  {| acquire _ _ s h := (Ok (single s), s, arc_clone (single s) h) |}.

(** ** A pool, in rotation *)

Record PooledAllocator := { pool : list stream_id; cursor : Z }.

(** [PooledAllocator::new] asserts that there is a stream. *)
Definition PooledAllocator_new (streams : list stream_id) : result PooledAllocator string :=
  match streams with
  | [] => Err "PooledAllocator requires at least one stream"
  | _ => Ok {| pool := streams; cursor := 0 |}
  end.

Definition new_stream_panic (e : string) : string := "ContextPoisoned: new_stream: " +:+ e.

(** [with_size]: the driver's answers in order, one for each stream. *)
Fixpoint mint (count : nat) (answers : list (result stream_id string)) : result (list stream_id) string :=
  match count, answers with
  | 0, _ => Ok []
  | S count, Ok s :: answers => match mint count answers with Ok l => Ok (s :: l) | Err e => Err e end
  | S _, Err e :: _ => Err (new_stream_panic e)
  | S _, [] => Err (new_stream_panic "no answer")
  end.
Definition with_size (count : nat) (answers : list (result stream_id string)) : result PooledAllocator string :=
  if count =? 0 then Err "PooledAllocator requires count >= 1"
  else match mint count answers with Ok l => PooledAllocator_new l | Err e => Err e end.

Definition pooled_size (p : PooledAllocator) : nat := length (pool p).

#[global] Instance pooled_allocator : StreamAllocator PooledAllocator := {|
  acquire _ _ p h :=
    let idx := Z.to_nat (cursor p mod Z.of_nat (length (pool p))) in
    let p' := {| pool := pool p; cursor := cursor p +₆₄ 1 |} in
    match pool p !! idx with
    | Some s => (Ok s, p', arc_clone s h)
    | None => (Err "attempt to calculate the remainder with a divisor of zero", p, h)
    end
|}.

(** ** A stream per actor *)

Inductive PerActorAllocator : Type :=
  | Shared (stream : stream_id)
  | Fresh (minted : list stream_id).

#[global] Instance per_actor_allocator : StreamAllocator PerActorAllocator := {|
  acquire _ answer a h :=
    match a with
    | Shared s => (Ok s, a, arc_clone s h)
    | Fresh minted =>
      match answer with
      | Ok s => (Ok s, Fresh (minted ++ [s]), arc_clone s h)
      | Err e => (Err (new_stream_panic e), a, h)
      end
    end
|}.

(** [live_streams] forgets the streams that are gone. *)
Definition live_streams (a : PerActorAllocator) (h : stream_arcs) : nat * PerActorAllocator :=
  match a with
  | Shared _ => (1, a)
  | Fresh minted =>
    let g := filter (λ s, 0 < strong_count h s) minted in
    (length g, Fresh g)
  end.

(** ** Rotation *)

(** [n] kernel actors start, one after the other. *)
Fixpoint acquire_n {A} `{StreamAllocator A} (n : nat) (a : A) (h : stream_arcs) : list (result stream_id string) * A * stream_arcs :=
  match n with
  | 0 => ([], a, h)
  | S n =>
    let '(r, a1, h1) := acquire default_hints (Err "") a h in
    let '(rs, a2, h2) := acquire_n n a1 h1 in (r :: rs, a2, h2)
  end.

Lemma pooled_acquire_n n p h :
  pool p ≠ [] → (0 ≤ cursor p)%Z → (cursor p + Z.of_nat n ≤ 2 ^ 64)%Z →
  (acquire_n n p h).1.1 =
    (λ i, default (Err "") (Ok <$> pool p !! (i `mod` length (pool p)))) <$> seq (Z.to_nat (cursor p)) n.
Proof.
  revert p h. induction n as [|n IH]; intros p h Hne Hc Hw; [done|]. cbn [acquire_n acquire pooled_allocator].
  assert (Hlen : 0 < length (pool p)) by (destruct (pool p); simpl; [done|lia]).
  assert (Hidx : Z.to_nat (cursor p mod Z.of_nat (length (pool p))) = Z.to_nat (cursor p) `mod` length (pool p)).
  { rewrite Z2Nat.inj_mod by lia. by rewrite Nat2Z.id. }
  rewrite Hidx. pose proof (Nat.mod_upper_bound (Z.to_nat (cursor p)) (length (pool p))) as Hb.
  destruct (lookup_lt_is_Some_2 (pool p) (Z.to_nat (cursor p) `mod` length (pool p))) as [s Hs]; [lia|].
  rewrite Hs. cbn [seq]. rewrite fmap_cons, Hs.
  destruct n as [|n]; [done|].
  assert (Hcur : (cursor p +₆₄ 1 = cursor p + 1)%Z) by (apply wadd_small; unfold in_width; lia).
  specialize (IH {| pool := pool p; cursor := cursor p +₆₄ 1 |} (arc_clone s h)). cbn [pool cursor] in IH.
  rewrite Hcur in IH |- *. destruct (acquire_n (S n) _ _) as [[rs p2] h2]. cbn [fst] in *.
  rewrite IH by (done || lia). cbn [fst]. f_equal. f_equal. f_equal. lia.
Qed.

(** How often index [j] comes up among the first [n] of a rotation of [k]. *)
Definition uses (k n j : nat) : nat := length (filter (λ i, i `mod` k = j) (seq 0 n)).

Lemma div_mod_succ n k : 0 < k →
  (n mod k < k - 1 ∧ S n / k = n / k ∧ S n mod k = S (n mod k)) ∨
  (n mod k = k - 1 ∧ S n / k = S (n / k) ∧ S n mod k = 0).
Proof.
  intros Hk. pose proof (Nat.div_mod_eq n k) as Hn. pose proof (Nat.mod_upper_bound n k ltac:(lia)) as Hb.
  destruct (decide (n mod k = k - 1)) as [He|Hne].
  - right. split; [done|]. destruct (Nat.div_mod_unique k (S n / k) (S (n / k)) (S n mod k) 0) as [? ?];
      [by apply Nat.mod_upper_bound; lia|lia| |done]. rewrite <-Nat.div_mod_eq. nia.
  - left. split; [lia|]. destruct (Nat.div_mod_unique k (S n / k) (n / k) (S n mod k) (S (n mod k))) as [? ?];
      [by apply Nat.mod_upper_bound; lia|lia| |done]. rewrite <-Nat.div_mod_eq. lia.
Qed.

Lemma uses_count k n j : j < k → uses k n j = n / k + (if decide (j < n mod k) then 1 else 0).
Proof.
  intros Hj. unfold uses. induction n as [|n IH].
  - rewrite Nat.Div0.div_0_l, Nat.Div0.mod_0_l. simpl. destruct (decide (j < 0)); lia.
  - rewrite seq_S, filter_app, length_app, IH. cbn [Nat.add]. rewrite filter_cons, filter_nil.
    destruct (div_mod_succ n k ltac:(lia)) as [(Hr & -> & ->)|(Hr & -> & ->)]; repeat case_decide; simpl; lia.
Qed.

(** ** Per-actor streams *)

(** What clients do: start an actor, stop one, ask for the live streams. *)
Inductive StreamOp : Type := Start (s : stream_id) | Stop (s : stream_id) | Ask.

Definition stream_step (a : PerActorAllocator) (h : stream_arcs) (op : StreamOp) : PerActorAllocator * stream_arcs * list nat :=
  match op with
  | Start s => let '(_, a', h') := acquire default_hints (Ok s) a h in (a', h', [])
  | Stop s => (a, arc_drop s h, [])
  | Ask => let '(n, a') := live_streams a h in (a', h, [n])
  end.

Fixpoint stream_run (a : PerActorAllocator) (h : stream_arcs) (ops : list StreamOp) : PerActorAllocator * stream_arcs * list nat :=
  match ops with
  | [] => (a, h, [])
  | op :: ops =>
    let '(a1, h1, n1) := stream_step a h op in
    let '(a2, h2, n2) := stream_run a1 h1 ops in (a2, h2, n1 ++ n2)
  end.

(** The streams started, in order, and the answers [Ask] should give: how many of
    those started so far still have a reference. *)
Definition starts (ops : list StreamOp) : list stream_id :=
  omap (λ op, match op with Start s => Some s | _ => None end) ops.
Definition alive (h : stream_arcs) (l : list stream_id) : list stream_id := filter (λ s, 0 < strong_count h s) l.
Fixpoint live_answers (h : stream_arcs) (started : list stream_id) (ops : list StreamOp) : list nat :=
  match ops with
  | [] => []
  | Start s :: ops => live_answers (arc_clone s h) (started ++ [s]) ops
  | Stop s :: ops => live_answers (arc_drop s h) started ops
  | Ask :: ops => length (alive h started) :: live_answers h started ops
  end.

Lemma strong_count_drop_le h s s' : strong_count (arc_drop s h) s' ≤ strong_count h s'.
Proof.
  unfold arc_drop, strong_count at 1. destruct (decide (s = s')) as [<-|Hne].
  - rewrite lookup_insert_eq. simpl. lia.
  - by rewrite lookup_insert_ne.
Qed.

Lemma alive_less (h h' : stream_arcs) l1 l2 :
  (∀ s, strong_count h' s ≤ strong_count h s) → alive h l1 = alive h l2 → alive h' l1 = alive h' l2.
Proof.
  intros Hle He. assert (H : ∀ l, alive h' l = alive h' (alive h l)).
  { intros l. unfold alive. rewrite list_filter_filter. apply list_filter_iff. intros s. specialize (Hle s). lia. }
  by rewrite (H l1), (H l2), He.
Qed.

Lemma alive_clone h s l : s ∉ l → alive (arc_clone s h) l = alive h l.
Proof.
  intros Hs. unfold alive. induction l as [|x l IH]; [done|]. apply not_elem_of_cons in Hs as [Hx Hl].
  rewrite !filter_cons, IH by done. by rewrite strong_count_clone_ne.
Qed.

Lemma stream_run_live minted started h ops :
  alive h minted = alive h started → minted ⊆ started → NoDup (started ++ starts ops) →
  (stream_run (Fresh minted) h ops).2 = live_answers h started ops.
Proof.
  revert minted started h. induction ops as [|op ops IH]; intros minted started h Ha Hsub Hnd; [done|].
  cbn [stream_run live_answers]. destruct op as [s|s|]; cbn [stream_step acquire per_actor_allocator live_streams].
  - cbn [starts omap list_omap] in Hnd. change (NoDup (started ++ [s] ++ starts ops)) in Hnd. rewrite app_assoc in Hnd.
    assert (Hs : s ∉ started).
    { apply NoDup_app in Hnd as [Hnd _]. apply NoDup_app in Hnd as (_ & Hd & _). intros Hin. apply (Hd s Hin). by left. }
    specialize (IH (minted ++ [s]) (started ++ [s]) (arc_clone s h)).
    destruct (stream_run (Fresh (minted ++ [s])) (arc_clone s h) ops) as [[a2 h2] n2]. cbn [snd app] in *.
    apply IH; [|set_solver|done]. unfold alive. rewrite !filter_app.
    change (alive (arc_clone s h) minted ++ alive (arc_clone s h) [s] = alive (arc_clone s h) started ++ alive (arc_clone s h) [s]).
    rewrite (alive_clone h s minted), (alive_clone h s started), Ha by set_solver. done.
  - specialize (IH minted started (arc_drop s h)). destruct (stream_run (Fresh minted) (arc_drop s h) ops) as [[a2 h2] n2].
    cbn [snd app] in *. apply IH; [|done|done]. apply alive_less with h; [apply strong_count_drop_le|done].
  - specialize (IH (alive h minted) started h). change (filter _ minted) with (alive h minted).
    destruct (stream_run (Fresh (alive h minted)) h ops) as [[a2 h2] n2]. cbn [snd app] in *. rewrite IH; [|..].
    + by rewrite Ha.
    + rewrite <-Ha. unfold alive. rewrite list_filter_filter. apply list_filter_iff. tauto.
    + unfold alive. intros x [_ Hx]%list_elem_of_filter. by apply Hsub.
    + done.
Qed.

(** Stream allocation: a pool of [k] streams hands them out in rotation, so of
    [n] kernel actors each stream serves [n / k] or one more, the first streams the
    extra ones, as long as the cursor does not wrap; and a per-actor allocator that
    mints a stream for each actor answers, at any time, how many of the streams it
    minted still have a reference, whatever actors start and stop in between. *)
Theorem stream_allocation (streams : list stream_id) (n : nat) (h : stream_arcs) (ops : list StreamOp) :
  streams ≠ [] → (Z.of_nat n ≤ 2 ^ 64)%Z → NoDup (starts ops) →
  (∃ p, PooledAllocator_new streams = Ok p ∧
    (acquire_n n p h).1.1 = (λ i, default (Err "") (Ok <$> streams !! (i `mod` length streams))) <$> seq 0 n) ∧
  (∀ j, j < length streams →
     uses (length streams) n j = n / length streams + (if decide (j < n mod length streams) then 1 else 0)) ∧
  (stream_run (Fresh []) ∅ ops).2 = live_answers ∅ [] ops.
Proof.
  intros Hne Hn Hnd. split_and!.
  - eexists. split; [by destruct streams|]. rewrite pooled_acquire_n; cbn [pool cursor]; [|by destruct streams|lia|lia].
    by destruct streams.
  - intros j Hj. by apply uses_count.
  - by apply stream_run_live.
Qed.

Lemma stream_allocation_witness :
  (stream_run (Fresh []) ∅ [Start 4; Start 5; Ask; Stop 4; Ask; Start 6; Ask]).2 = [2; 1; 2] ∧ uses 2 5 0 = 3.
Proof.
  destruct (stream_allocation [8; 9] 5 ∅ [Start 4; Start 5; Ask; Stop 4; Ask; Start 6; Ask]) as (_ & Hu & ->);
    [done|done|by apply (bool_decide_unpack _)|]. split; [by vm_compute|]. rewrite Hu by (simpl; lia). reflexivity.
Defined.
