(* ===== verification/Envelope.v ===== *)
(** * The kernel envelope: buffers, streams, tasks and replies

    Models [crates/atomr-accel-cuda/src/kernel/envelope.rs], the body shared by
    all kernel actors: operands are checked and their [Arc]s cloned, a write
    target is unwrapped, the kernel is enqueued on the actor's stream, and a
    spawned task awaits the completion, replies and then drops the clones.

    The state an actor works on is a [Gpu]: the strong counts of the slices, the
    live [GpuRef] handles, the operations in flight on the stream, and the
    spawned tasks.  The step relation [kstep] says what happens to it: the actor
    handles a message, clients allocate, clone and drop handles, operations
    finish in stream order, completions resolve.  A kernel actor is an instance
    of [KernelActor], and the theorems at the end hold of every instance of
    [KernelLaw] along every execution.  What the library answers to a call is a
    parameter.  Tasks are not cancelled while the runtime lives. *)

From S2P Require Import Prelude Actor Errors DeviceState.

(** ** Calls, operations, tasks *)

(** A call's arguments: numbers (integers, the bits of a scalar), device buffers,
    and the tags of the library's enumerations. *)
Inductive Arg : Type := AInt (v : Z) | ADev (sl : slice_id) | ATag (t : string).
Record Call := { cname : string; cargs : list Arg }.
Definition call_slices (c : Call) : list slice_id :=
  omap (λ a, match a with ADev sl => Some sl | _ => None end) (cargs c).

(** The value of a successful reply: unit, or the content of a result box the
    library wrote. *)
Inductive Value : Type := Done | Boxed (v : Z).

Record KernelInfo := { op_name : string; library : string; info_stream : stream_id; dtype : option string }.

Record Op := { op_id : nat; op_call : Call }.
Record Task := {
  t_op : nat;
  t_keep : list slice_id;   (* [keep_alive] *)
  t_out : Value;
  t_reply : nat;
  t_trace : option KernelInfo;
}.

Record Gpu := {
  heap : arcs;
  refs : gmap slice_id nat;   (* live handles, all clones of one [GpuRef] *)
  dev : option DeviceState;   (* what [Weak::upgrade] gives *)
  queue : list Op;
  next_op : nat;
  tasks : list Task;
}.

Inductive TraceEvent : Type :=
  | BeforeEnqueue
  | AfterEnqueue (r : result unit GpuError)
  | BeforeComplete
  | AfterComplete (r : result unit GpuError).

Inductive KEff : Type :=
  | Reply (ch : nat) (r : result Value GpuError)
  | DropSender (ch : nat)
  | RecordWrite (sl : slice_id)
  | Built (c : Call)             (* a library object (a plan) is created *)
  | Enqueue (c : Call)
  | Panicked (msg : string)    (* the handler's panic, seen by the supervisor *)
  | Trace (info : KernelInfo) (e : TraceEvent).

Definition set_heap (h : arcs) (g : Gpu) : Gpu :=
  {| heap := h; refs := refs g; dev := dev g; queue := queue g; next_op := next_op g; tasks := tasks g |}.
Definition set_refs (r : gmap slice_id nat) (g : Gpu) : Gpu :=
  {| heap := heap g; refs := r; dev := dev g; queue := queue g; next_op := next_op g; tasks := tasks g |}.
Definition set_dev (d : option DeviceState) (g : Gpu) : Gpu :=
  {| heap := heap g; refs := refs g; dev := d; queue := queue g; next_op := next_op g; tasks := tasks g |}.
Definition set_queue (q : list Op) (g : Gpu) : Gpu :=
  {| heap := heap g; refs := refs g; dev := dev g; queue := q; next_op := next_op g; tasks := tasks g |}.
Definition set_tasks (l : list Task) (g : Gpu) : Gpu :=
  {| heap := heap g; refs := refs g; dev := dev g; queue := queue g; next_op := next_op g; tasks := l |}.

Definition clone_all (l : list slice_id) (h : arcs) : arcs := foldr arc_clone h l.
Definition drop_all (l : list slice_id) (h : arcs) : arcs := foldr arc_drop h l.

(** The envelope's options; [nvtx_range_name] only labels a profiler range. *)
Record KernelEnvelope := {
  lib_tag : string;
  env_op_name : string;
  env_dtype : option string;
  trace : bool;
  nvtx_range_name : option string;
}.

Definition KernelEnvelope_new (lib_tag : string) : KernelEnvelope :=
  {| lib_tag := lib_tag; env_op_name := lib_tag; env_dtype := None; trace := false; nvtx_range_name := None |}.
Definition with_op_name (o : string) (e : KernelEnvelope) : KernelEnvelope :=
  {| lib_tag := lib_tag e; env_op_name := o; env_dtype := env_dtype e; trace := trace e;
     nvtx_range_name := nvtx_range_name e |}.
Definition with_dtype (d : string) (e : KernelEnvelope) : KernelEnvelope :=
  {| lib_tag := lib_tag e; env_op_name := env_op_name e; env_dtype := Some d; trace := trace e;
     nvtx_range_name := nvtx_range_name e |}.
Definition with_trace (e : KernelEnvelope) : KernelEnvelope :=
  {| lib_tag := lib_tag e; env_op_name := env_op_name e; env_dtype := env_dtype e; trace := true;
     nvtx_range_name := nvtx_range_name e |}.
Definition with_nvtx (n : string) (e : KernelEnvelope) : KernelEnvelope :=
  {| lib_tag := lib_tag e; env_op_name := env_op_name e; env_dtype := env_dtype e; trace := trace e;
     nvtx_range_name := Some n |}.

Definition info (stream : stream_id) (e : KernelEnvelope) : KernelInfo :=
  {| op_name := env_op_name e; library := lib_tag e; info_stream := stream; dtype := env_dtype e |}.

Definition annotate_error (e : GpuError) (lib_tag : string) : GpuError :=
  match e with Driver msg => LibraryError lib_tag msg | other => other end.

(** ** The envelope *)

(** [access_all_n]: the operands are checked in order; the clones of an operand
    list that fails are dropped with it. *)
Fixpoint access_list (d : option DeviceState) (rs : list GpuRef) : result (list slice_id) GpuError :=
  match rs with
  | [] => Ok []
  | r :: rs =>
    match access r d with
    | Err e => Err e
    | Ok sl => match access_list d rs with Err e => Err e | Ok l => Ok (sl :: l) end
    end
  end.

(** [r.access()?] of each buffer in turn, the slices unused. *)
Definition check_access (rs : list GpuRef) (dev : option DeviceState) : result unit GpuError :=
  match access_list dev rs with Ok _ => Ok tt | Err e => Err e end.

Fixpoint remove_one (sl : slice_id) (l : list slice_id) : list slice_id :=
  match l with
  | [] => []
  | x :: l => if decide (x = sl) then l else x :: remove_one sl l
  end.

Section kernel.
Context {S : Type}.
(** The actor's stream, and the text of the library's refusal of a call. *)
Context (stream : stream_id) (answer : Call → option string).

Abbreviation kact := (act (S * Gpu) KEff).

Definition get_gpu : kact Gpu := s ← get; mret s.2.
Definition on_gpu (f : Gpu → Gpu) : kact unit := modify (λ s, (s.1, f s.2)).

Definition access_all (rs : list GpuRef) : kact (result (list slice_id) GpuError) :=
  g ← get_gpu;
  match access_list (dev g) rs with
  | Err e => mret (Err e)
  | Ok l => on_gpu (λ g, set_heap (clone_all l (heap g)) g);; mret (Ok l)
  end.

Definition drop_clones (l : list slice_id) : kact unit := on_gpu (λ g, set_heap (drop_all l (heap g)) g).

(** [Arc::try_unwrap] of a clone: [true] when it was the only reference, and the
    owned slice then counts as its own holder; otherwise the clone is dropped. *)
Definition unwrap (sl : slice_id) : kact bool :=
  g ← get_gpu;
  let bh := try_unwrap sl (heap g) in
  on_gpu (set_heap (if bh.1 then arc_clone sl bh.2 else bh.2));;
  mret bh.1.

(** The write targets in order; [held] are the clones, and the error is the
    message of the target that is shared, with the clones left. *)
Fixpoint unwrap_all (targets : list (GpuRef * string)) (held : list slice_id) :
    kact (result unit (string * list slice_id)) :=
  match targets with
  | [] => mret (Ok tt)
  | t :: targets =>
    unwrap (slice t.1) ≫= λ b : bool,
      if b then unwrap_all targets held else mret (Err (t.2, remove_one (slice t.1) held))
  end.

(** The library call of an enqueue closure: the operation is on the stream, or
    the closure's error. *)
Definition lib_call (to_err : string → GpuError) (c : Call) : kact (result nat GpuError) :=
  match answer c with
  | Some e => mret (Err (to_err e))
  | None =>
    g ← get_gpu;
    on_gpu (λ g, {| heap := heap g; refs := refs g; dev := dev g;
                    queue := queue g ++ [{| op_id := next_op g; op_call := c |}];
                    next_op := next_op g + 1; tasks := tasks g |});;
    emit (Enqueue c);;
    mret (Ok (next_op g))
  end.

Definition spawn_task (t : Task) : kact unit := on_gpu (λ g, set_tasks (tasks g ++ [t]) g).

(** The free function [run_kernel]; [keep] are the clones the closure captured. *)
Definition run_kernel (lib : string) (out : Value) (reply : nat) (keep : list slice_id)
    (enqueue : kact (result nat GpuError)) : kact unit :=
  r ← enqueue;
  match r with
  | Err e => drop_clones keep;; emit (Reply reply (Err (annotate_error e lib)))
  | Ok op => spawn_task {| t_op := op; t_keep := keep; t_out := out; t_reply := reply; t_trace := None |}
  end.

Definition trace_event (e : KernelEnvelope) (ev : TraceEvent) : kact unit :=
  if trace e then emit (Trace (info stream e) ev) else skip.

(** [KernelEnvelope::run_kernel] *)
Definition envelope_run_kernel (e : KernelEnvelope) (out : Value) (reply : nat) (keep : list slice_id)
    (enqueue : kact (result nat GpuError)) : kact unit :=
  trace_event e BeforeEnqueue;;
  r ← enqueue;
  match r with
  | Err err =>
    drop_clones keep;;
    trace_event e (AfterEnqueue (Err (annotate_error err (lib_tag e))));;
    emit (Reply reply (Err (annotate_error err (lib_tag e))))
  | Ok op =>
    trace_event e (AfterEnqueue (Ok tt));;
    spawn_task {| t_op := op; t_keep := keep; t_out := out; t_reply := reply;
                  t_trace := if trace e then Some (info stream e) else None |}
  end.

(** The operands are accessed in the order they are checked, and the write targets
    among them unwrapped; [k] gets the clones. *)
Definition with_operands (operands : list GpuRef) (targets : list (GpuRef * string)) (reply : nat)
    (k : list slice_id → kact unit) : kact unit :=
  r ← access_all operands;
  match r with
  | Err e => emit (Reply reply (Err e))
  | Ok clones =>
    u ← unwrap_all targets clones;
    match u with
    | Err ml => emit (Reply reply (Err (Unrecoverable ml.1)));; drop_clones ml.2
    | Ok _ => k clones
    end
  end.

(** The pattern of the kernel actors' requests: the operands and targets, the
    recorded writes, the call (or the panic of the enqueue closure), and the reply. *)
Definition kernel_request (lib : string) (operands : list GpuRef) (targets : list (GpuRef * string))
    (writes : list slice_id) (to_err : string → GpuError) (c : result Call string) (out : Value)
    (reply : nat) : kact unit :=
  with_operands operands targets reply (λ clones,
    emits (RecordWrite <$> writes);;
    match c with
    | Ok c => run_kernel lib out reply clones (lib_call to_err c)
    | Err p => drop_clones clones;; emits [DropSender reply; Panicked p]
    end).

(** *** The spawned task *)

Definition deliver (t : Task) (r : result unit GpuError) : result Value GpuError :=
  match r with Ok _ => Ok (t_out t) | Err e => Err e end.

(** The completion of a task's stream position resolves with [r]. *)
Definition resolve_task (t : Task) (r : result unit GpuError) : kact unit :=
  match t_trace t with
  | None => skip
  | Some i => emits [Trace i BeforeComplete; Trace i (AfterComplete r)]
  end;;
  emit (Reply (t_reply t) (deliver t r));;
  drop_clones (t_keep t).

(** ** Executions *)

(** What a message of a kernel actor owns: its handles and its reply sender. *)
Class KernelActor (M : Type) := {
  operands : M → list GpuRef;
  reply_of : M → nat;
  khandle : M → kact unit;
}.

Context {M : Type} `{!KernelActor M}.

Definition handles (g : Gpu) (sl : slice_id) : nat := default 0 (refs g !! sl).

(** Dropping the last handle of a buffer drops the [Arc] it holds. *)
Definition drop_ref (sl : slice_id) (g : Gpu) : Gpu :=
  match handles g sl with
  | 0 => g
  | 1 => set_heap (arc_drop sl (heap g)) (set_refs (<[sl := 0]> (refs g)) g)
  | n => set_refs (<[sl := pred n]> (refs g)) g
  end.

(** The handler runs while the message's handles live; they drop at its end. *)
Definition deliver_msg (m : M) : kact unit :=
  khandle m;; on_gpu (λ g, foldr drop_ref g (slice <$> operands m)).

Definition in_flight (g : Gpu) (t : Task) : Prop := t_op t ∈ op_id <$> queue g.

(** [early] says whether a completion may fail while its operation is still in
    flight ([cuLaunchHostFunc] refused, the timeout of [PolledCompletion]). *)
Inductive kstep (early : bool) : S * Gpu → list nat → list KEff → S * Gpu → Prop :=
  | KDeliver m s g s' es :
      Forall (λ sl, 1 ≤ handles g sl) (slice <$> operands m) →
      exec (deliver_msg m) (s, g) = (s', es) →
      kstep early (s, g) [reply_of m] es s'
  | KAlloc sl s g :
      handles g sl = 0 → strong_count (heap g) sl = 0 →
      kstep early (s, g) [] [] (s, set_heap (arc_clone sl (heap g)) (set_refs (<[sl := 1]> (refs g)) g))
  | KClone sl s g :
      1 ≤ handles g sl →
      kstep early (s, g) [] [] (s, set_refs (<[sl := handles g sl + 1]> (refs g)) g)
  | KDrop sl s g : kstep early (s, g) [] [] (s, drop_ref sl g)
  | KDevice d s g : kstep early (s, g) [] [] (s, set_dev d g)
  | KStreamDone s g : kstep early (s, g) [] [] (s, set_queue (tail (queue g)) g)
  | KResolve i t r s g s' es :
      tasks g !! i = Some t →
      (in_flight g t → early = true ∧ ∃ e, r = Err e) →
      exec (resolve_task t r) (s, set_tasks (delete i (tasks g)) g) = (s', es) →
      kstep early (s, g) [] es s'.

(** Executions, with the channels that arrived and the effects in order. *)
Inductive ksteps (early : bool) : S * Gpu → list nat → list KEff → S * Gpu → Prop :=
  | KRefl s : ksteps early s [] [] s
  | KStep s1 a1 e1 s2 a2 e2 s3 :
      kstep early s1 a1 e1 s2 → ksteps early s2 a2 e2 s3 → ksteps early s1 (a1 ++ a2) (e1 ++ e2) s3.
End kernel.

Definition Gpu_new (d : option DeviceState) : Gpu :=
  {| heap := ∅; refs := ∅; dev := d; queue := []; next_op := 0; tasks := [] |}.

(** ** Counting references *)

Definition count (sl : slice_id) (l : list slice_id) : nat := length (filter (λ x, x = sl) l).

Lemma count_cons sl x l : count sl (x :: l) = (if decide (x = sl) then 1 else 0) + count sl l.
Proof. unfold count. rewrite filter_cons. by case_decide. Qed.

Lemma count_app sl l1 l2 : count sl (l1 ++ l2) = count sl l1 + count sl l2.
Proof. unfold count. by rewrite filter_app, length_app. Qed.

Lemma count_elem sl l : sl ∈ l → 1 ≤ count sl l.
Proof.
  induction l as [|x l IH]; [by intros ?%not_elem_of_nil|]. rewrite count_cons.
  intros [->|Hl]%elem_of_cons; [rewrite decide_True by done; lia|]. specialize (IH Hl). lia.
Qed.

Lemma strong_count_drop h sl : strong_count (arc_drop sl h) sl = pred (strong_count h sl).
Proof. unfold arc_drop, strong_count at 1. by rewrite lookup_insert_eq. Qed.

Lemma strong_count_drop_ne h sl sl' : sl ≠ sl' → strong_count (arc_drop sl h) sl' = strong_count h sl'.
Proof. intros. unfold arc_drop, strong_count at 1. by rewrite lookup_insert_ne. Qed.

Lemma clone_all_count l h sl : strong_count (clone_all l h) sl = strong_count h sl + count sl l.
Proof.
  induction l as [|x l IH]; simpl; [done|]. rewrite count_cons. case_decide; subst.
  - rewrite strong_count_clone, IH. lia.
  - by rewrite strong_count_clone_ne, IH.
Qed.

Lemma drop_all_count l h sl : strong_count (drop_all l h) sl = strong_count h sl - count sl l.
Proof.
  induction l as [|x l IH]; simpl; [unfold count; simpl; lia|]. rewrite count_cons. case_decide; subst.
  - rewrite strong_count_drop, IH. lia.
  - by rewrite strong_count_drop_ne, IH.
Qed.

Lemma remove_one_count x l sl : x ∈ l →
  (if decide (x = sl) then 1 else 0) + count sl (remove_one x l) = count sl l.
Proof.
  induction l as [|y l IH]; [by intros ?%not_elem_of_nil|]. intros Hx. simpl.
  rewrite count_cons. destruct (decide (y = x)) as [->|Hne].
  - by case_decide.
  - apply elem_of_cons in Hx as [->|Hx]; [done|]. rewrite count_cons, <-(IH Hx). lia.
Qed.

(** ** The pattern of a request *)

Definition sent (e : KEff) : list nat :=
  match e with Reply ch _ => [ch] | DropSender ch => [ch] | _ => [] end.

Lemma sent_record (l : list slice_id) : (RecordWrite <$> l) ≫= sent = [].
Proof. by induction l. Qed.

(** What one message of an actor does to the [Gpu]: either nothing is launched
    and its channel is used, or one operation is on the stream, held by one new
    task that owns the channel and clones of every buffer of the call. *)
Definition kpost (reply : nat) (g g' : Gpu) (es : list KEff) : Prop :=
  refs g' = refs g ∧
  ((queue g' = queue g ∧ tasks g' = tasks g ∧
    (∀ sl, strong_count (heap g') sl = strong_count (heap g) sl) ∧ es ≫= sent = [reply]) ∨
   (∃ op t, queue g' = queue g ++ [op] ∧ tasks g' = tasks g ++ [t] ∧ t_op t = op_id op ∧
      t_reply t = reply ∧ call_slices (op_call op) ⊆ t_keep t ∧
      (∀ sl, strong_count (heap g') sl = strong_count (heap g) sl + count sl (t_keep t)) ∧
      es ≫= sent = [])).

Lemma access_list_Ok d rs l : access_list d rs = Ok l → l = slice <$> rs.
Proof.
  revert l; induction rs as [|r rs IH]; intros l; simpl; [by intros [= <-]|].
  destruct (access r d) as [sl|] eqn:Ha; [|done].
  destruct (access_list d rs) as [l'|]; [|done]. intros [= <-].
  destruct d as [st|]; [|done]. apply access_Ok in Ha as (_ & _ & ->). by rewrite (IH l').
Qed.

Section request.
Context {S : Type} (stream : stream_id) (answer : Call → option string).

(** Unwrapping a clone while the message still owns the handle fails. *)
Lemma unwrap_all_shared t ts held (s : S) g :
  2 ≤ strong_count (heap g) (slice t.1) →
  unwrap_all (t :: ts) held (s, g) =
    (Err (t.2, remove_one (slice t.1) held), (s, set_heap (arc_drop (slice t.1) (heap g)) g), []).
Proof.
  intros Hc. cbn [unwrap_all]. unfold unwrap, get_gpu, on_gpu, try_unwrap.
  act_unfold. rewrite decide_False by lia. done.
Qed.

(** A request whose target's handle is live is refused, whatever would follow. *)
Lemma with_operands_shared ops t ts reply k (s : S) g :
  Forall (holds (heap g)) ops → t.1 ∈ ops →
  awp (with_operands ops (t :: ts) reply k) (λ _ s' es,
    s'.1 = s ∧ kpost reply g s'.2 es ∧
    es = [Reply reply (Err match access_list (dev g) ops with Err e => e | Ok _ => Unrecoverable t.2 end)]) (s, g).
Proof.
  intros Hh Ht. unfold with_operands, access_all, get_gpu, on_gpu. awp_steps. cbn [snd].
  destruct (access_list (dev g) ops) as [l|e] eqn:Ha; awp_steps;
    [apply access_list_Ok in Ha as ->|split_and!; [done| |done]; split; [done|by left]].
  unfold awp at 1. assert (Hin : slice t.1 ∈ slice <$> ops) by (by apply list_elem_of_fmap_2).
  assert (Hone : 1 ≤ strong_count (heap g) (slice t.1)).
  { rewrite Forall_forall in Hh. by apply Hh. }
  rewrite unwrap_all_shared.
  2:{ cbn. rewrite clone_all_count. pose proof (count_elem _ _ Hin). lia. }
  unfold drop_clones, on_gpu. awp_steps. cbn [fst snd]. split_and!; [done| |done].
  split; [done|]. left. split_and!; [done|done| |done].
  intros sl. cbn. rewrite drop_all_count.
  pose proof (remove_one_count (slice t.1) (slice <$> ops) sl Hin).
  destruct (decide (slice t.1 = sl)) as [->|Hne].
  - rewrite strong_count_drop, clone_all_count. lia.
  - rewrite strong_count_drop_ne, clone_all_count by done. lia.
Qed.

(** The functional behaviour of a request whose handles are live. *)
Lemma kernel_request_spec lib ops targets writes to_err c out reply (s : S) g :
  Forall (holds (heap g)) ops → targets.*1 ⊆ ops → (∀ c', c = Ok c' → call_slices c' ⊆ slice <$> ops) →
  awp (kernel_request answer lib ops targets writes to_err c out reply) (λ _ s' es,
    s'.1 = s ∧ kpost reply g s'.2 es ∧
    match access_list (dev g) ops with
    | Err e => es = [Reply reply (Err e)]
    | Ok _ =>
      match targets with
      | t :: _ => es = [Reply reply (Err (Unrecoverable t.2))]
      | [] =>
        match c with
        | Err p => es = (RecordWrite <$> writes) ++ [DropSender reply; Panicked p]
        | Ok c =>
          match answer c with
          | Some e => es = (RecordWrite <$> writes) ++ [Reply reply (Err (annotate_error (to_err e) lib))]
          | None => es = (RecordWrite <$> writes) ++ [Enqueue c] ∧
            queue s'.2 = queue g ++ [{| op_id := next_op g; op_call := c |}] ∧
            tasks s'.2 = tasks g ++ [{| t_op := next_op g; t_keep := slice <$> ops; t_out := out;
                                        t_reply := reply; t_trace := None |}]
          end
        end
      end
    end) (s, g).
Proof.
  intros Hh Ht Hc. destruct targets as [|t ts].
  2:{ eapply awp_mono, with_operands_shared; [|done|apply Ht; by left].
      intros _ s' es (-> & Hp & ->). split_and!; [done|done|]. by destruct (access_list _ _). }
  unfold kernel_request, with_operands, access_all, get_gpu, on_gpu. awp_steps. cbn [snd].
  destruct (access_list (dev g) ops) as [l|e] eqn:Ha; awp_steps;
    [apply access_list_Ok in Ha as ->|split_and!; [done| |done]; split; [done|by left]].
  cbn [unwrap_all]. awp_steps. destruct c as [c|p].
  2:{ unfold drop_clones, on_gpu. awp_steps. cbn [fst snd]. split_and!; [done| |done]. split; [done|].
      left. split_and!; [done|done| |by rewrite bind_app, sent_record].
      intros sl. cbn. rewrite drop_all_count, clone_all_count. lia. }
  unfold run_kernel, lib_call. awp_steps.
  destruct (answer c) as [e|]; unfold drop_clones, spawn_task, get_gpu, on_gpu; awp_steps; cbn [fst snd];
    (split; [done|]); (split; [|done]); (split; [done|]).
  - left. split_and!; [done|done| |by rewrite bind_app, sent_record].
    intros sl. cbn. rewrite drop_all_count, clone_all_count. lia.
  - right. eexists _, _. split_and!; [done|done|done|done|by apply Hc| |by rewrite bind_app, sent_record].
    intros sl. cbn. by rewrite clone_all_count.
Qed.

(** Whatever the handles, a request leaves the actor's own state and builds
    nothing. *)
Definition built (e : KEff) : option Call := match e with Built c => Some c | _ => None end.

Lemma unwrap_all_quiet targets held (st : S * Gpu) :
  awp (unwrap_all targets held) (λ _ st' es, st'.1 = st.1 ∧ es = []) st.
Proof.
  revert st. induction targets as [|t ts IH]; intros st; cbn [unwrap_all]; [by awp_steps|].
  unfold unwrap, get_gpu, on_gpu. awp_steps. destruct (try_unwrap _ _) as [[] h]; cbn [fst snd].
  - eapply awp_mono, IH. by intros r st' es [-> ->].
  - by awp_steps.
Qed.

Lemma with_operands_inner (R : S → Prop) ops targets reply k (st : S * Gpu) :
  R st.1 → (∀ clones st1, st1.1 = st.1 → awp (k clones) (λ _ st' _, R st'.1) st1) →
  awp (with_operands ops targets reply k) (λ _ st' _, R st'.1) st.
Proof.
  intros HR Hk. unfold with_operands, access_all, get_gpu, on_gpu. awp_steps.
  destruct (access_list _ _); awp_steps; [|done]. eapply awp_mono, unwrap_all_quiet. cbn [fst].
  intros r st1 es1 [Hst ->]. destruct r as [[]|ml]; [by apply Hk|].
  unfold drop_clones, on_gpu. awp_steps. cbn. by rewrite Hst.
Qed.

Lemma kernel_request_quiet lib ops targets writes to_err c out reply (st : S * Gpu) :
  awp (kernel_request answer lib ops targets writes to_err c out reply)
    (λ _ st' es, st'.1 = st.1 ∧ omap built es = []) st.
Proof.
  unfold kernel_request, with_operands, access_all, get_gpu, on_gpu. awp_steps.
  destruct (access_list _ _); awp_steps; [|done].
  eapply awp_mono, unwrap_all_quiet. cbn [fst]. intros r st1 es1 [Hst ->]. rewrite <-Hst.
  assert (Hrec : omap built (RecordWrite <$> writes) = []) by (by induction writes).
  destruct r as [[]|ml]; [|unfold drop_clones, on_gpu; by awp_steps].
  awp_steps. destruct c as [c|p]; [|unfold drop_clones, on_gpu; awp_steps; by rewrite omap_app, Hrec].
  unfold run_kernel, lib_call, get_gpu, on_gpu. awp_steps.
  destruct (answer c); unfold drop_clones, spawn_task, on_gpu; awp_steps; by rewrite omap_app, Hrec.
Qed.
End request.

(** ** Safety and conservation for every kernel actor *)

Class KernelLaw (S M : Type) `{!KernelActor (S := S) M} :=
  khandle_post : ∀ (m : M) (st : S) (g : Gpu),
    Forall (holds (heap g)) (operands m) →
    awp (khandle m) (λ _ st' es, kpost (reply_of m) g st'.2 es) (st, g).

(** The reference counts are those of the handles and of the tasks, and every
    operation in flight has a task that holds its buffers (when completions do
    not fail early). *)
Definition ginv (early : bool) (g : Gpu) : Prop :=
  (∀ sl, strong_count (heap g) sl =
     (if decide (handles g sl = 0) then 0 else 1) + count sl (tasks g ≫= t_keep)) ∧
  (early = false → ∀ op, op ∈ queue g →
     ∃ t, t ∈ tasks g ∧ t_op t = op_id op ∧ call_slices (op_call op) ⊆ t_keep t).

Lemma handles_set g sl sl' n :
  handles (set_refs (<[sl := n]> (refs g)) g) sl' = if decide (sl = sl') then n else handles g sl'.
Proof.
  unfold handles. cbn. case_decide; subst; [by rewrite lookup_insert_eq|by rewrite lookup_insert_ne].
Qed.

(** Two states with the same buffers, operations and tasks. *)
Lemma ginv_ext early g g' :
  refs g' = refs g → queue g' = queue g → tasks g' = tasks g →
  (∀ sl, strong_count (heap g') sl = strong_count (heap g) sl) → ginv early g → ginv early g'.
Proof.
  intros Hr Hq Ht Hs [H1 H2]. split.
  - intros sl. rewrite Hs, H1, Ht. unfold handles. by rewrite Hr.
  - by rewrite Hq, Ht.
Qed.

Lemma ginv_drop_ref early g sl : ginv early g → ginv early (drop_ref sl g).
Proof.
  intros [H1 H2]. unfold drop_ref. pose proof (H1 sl) as Hc.
  destruct (handles g sl) as [|[|n]] eqn:Hh; [done| |]; (split; [|exact H2]); intros sl'.
  - change (handles (set_heap _ (set_refs (<[sl:=0]> (refs g)) g)) sl')
      with (handles (set_refs (<[sl:=0]> (refs g)) g) sl').
    rewrite handles_set. cbn [heap set_heap tasks set_refs]. destruct (decide (sl = sl')) as [<-|Hne].
    + rewrite strong_count_drop, Hc. repeat case_decide; lia.
    + rewrite strong_count_drop_ne by done. apply H1.
  - rewrite handles_set. cbn [heap tasks set_refs]. rewrite H1.
    destruct (decide (sl = sl')) as [<-|Hne]; [|done]. rewrite Hh. by rewrite !decide_False.
Qed.

Lemma ginv_drop_refs early g l : ginv early g → ginv early (foldr drop_ref g l).
Proof. intros. induction l; simpl; [done|]. by apply ginv_drop_ref. Qed.

Lemma drop_ref_frame sl g : tasks (drop_ref sl g) = tasks g ∧ queue (drop_ref sl g) = queue g.
Proof. unfold drop_ref. by destruct (handles g sl) as [|[]]. Qed.

Lemma drop_refs_frame l g :
  tasks (foldr drop_ref g l) = tasks g ∧ queue (foldr drop_ref g l) = queue g.
Proof.
  induction l as [|sl l [IH1 IH2]]; simpl; [done|].
  destruct (drop_ref_frame sl (foldr drop_ref g l)) as [-> ->]. done.
Qed.

Lemma ginv_kpost early reply g g' es : ginv early g → kpost reply g g' es → ginv early g'.
Proof.
  intros [H1 H2] [Hr [(Hq & Ht & Hs & _)|(op & t & Hq & Ht & Hop & _ & Hsub & Hs & _)]].
  { by apply (ginv_ext early g). }
  split.
  - intros sl. rewrite Hs, H1, Ht, bind_app, count_app.
    change ([t] ≫= t_keep) with (t_keep t ++ []). rewrite app_nil_r.
    unfold handles. rewrite Hr. lia.
  - intros He op'. rewrite Hq, Ht. rewrite elem_of_app, list_elem_of_singleton. intros [Hin| ->].
    + destruct (H2 He _ Hin) as (t' & ? & ?). exists t'. rewrite elem_of_app. tauto.
    + exists t. rewrite elem_of_app, list_elem_of_singleton. tauto.
Qed.

Lemma ginv_holds early g r : ginv early g → 1 ≤ handles g (slice r) → holds (heap g) r.
Proof. intros [H1 _] Hh. unfold holds. rewrite H1, decide_False by lia. lia. Qed.

Lemma count_bind_delete (ts : list Task) i t sl : ts !! i = Some t →
  count sl (ts ≫= t_keep) = count sl (t_keep t) + count sl (delete i ts ≫= t_keep).
Proof.
  revert i; induction ts as [|x ts IH]; intros [|i]; try done; intros Hi; rewrite bind_cons, count_app.
  - by injection Hi as ->.
  - change (delete (S i) (x :: ts)) with (x :: delete i ts).
    rewrite bind_cons, count_app, (IH i Hi). lia.
Qed.

(** A task whose operation is not in flight lets go of its clones. *)
Lemma ginv_resolve early g i t :
  tasks g !! i = Some t → (early = false → ¬ in_flight g t) → ginv early g →
  ginv early (set_heap (drop_all (t_keep t) (heap g)) (set_tasks (delete i (tasks g)) g)).
Proof.
  intros Hi Hnf [H1 H2]. split; cbn [heap set_heap tasks set_tasks queue].
  - intros sl. rewrite drop_all_count, H1, (count_bind_delete _ _ _ _ Hi).
    change (handles (set_heap _ _) sl) with (handles g sl). lia.
  - intros He op Hop. destruct (H2 He op Hop) as (t' & Ht' & Hid & Hsub). exists t'. split_and!; [|done|done].
    rewrite (delete_Permutation _ _ _ Hi) in Ht'. apply elem_of_cons in Ht' as [->|?]; [|done].
    exfalso. apply (Hnf He). unfold in_flight. rewrite Hid. by apply list_elem_of_fmap_2.
Qed.

Lemma resolve_task_run {S} (t : Task) r (s : S) g :
  ∃ es, exec (resolve_task t r) (s, g) = ((s, set_heap (drop_all (t_keep t) (heap g)) g), es) ∧
    es ≫= sent = [t_reply t].
Proof. unfold resolve_task, drop_clones, on_gpu. destruct (t_trace t); act_unfold; eauto. Qed.

Section safety.
Context {S M : Type} `{HL : KernelLaw S M}.

Definition g_replies (g : Gpu) : list nat := t_reply <$> tasks g.

Lemma deliver_msg_post (m : M) (s : S) g :
  awp (khandle m) (λ _ st' es, kpost (reply_of m) g st'.2 es) (s, g) →
  awp (deliver_msg m) (λ _ st' es,
    ∃ g1, kpost (reply_of m) g g1 es ∧ st'.2 = foldr drop_ref g1 (slice <$> operands m)) (s, g).
Proof.
  intros H. unfold deliver_msg, on_gpu. apply awp_bind. eapply awp_mono, H.
  intros [] st' es Hp. apply awp_modify. rewrite app_nil_r. cbn. eauto.
Qed.

Lemma kstep_inv early (st st' : S * Gpu) arr es :
  kstep early st arr es st' → ginv early st.2 →
  ginv early st'.2 ∧ g_replies st.2 ++ arr ≡ₚ (es ≫= sent) ++ g_replies st'.2.
Proof.
  intros Hs Hg. destruct Hs as [m s g st' es Hown Hex|sl s g Hh Hc|sl s g Hh|sl s g|d s g|s g
    |i t r s g st' es Hi Hearly Hex]; cbn [snd] in *.
  - assert (Hpost : awp (khandle m) (λ _ st' es, kpost (reply_of m) g st'.2 es) (s, g)).
    { apply khandle_post. rewrite Forall_forall. intros r Hr. apply (ginv_holds early); [done|].
      rewrite Forall_forall in Hown. apply Hown. by apply list_elem_of_fmap_2. }
    apply deliver_msg_post in Hpost. apply awp_exec in Hpost. rewrite Hex in Hpost.
    destruct Hpost as (g1 & Hpost & Hg1). rewrite Hg1. split.
    + apply ginv_drop_refs. by apply (ginv_kpost _ _ _ _ _ Hg Hpost).
    + unfold g_replies. destruct (drop_refs_frame (slice <$> operands m) g1) as [-> _].
      destruct Hpost as [_ [(_ & -> & _ & ->)|(op & t & _ & -> & _ & Hr & _ & _ & ->)]];
        [by rewrite Permutation_app_comm|]. rewrite fmap_app. cbn. by rewrite Hr.
  - rewrite app_nil_r. split; [|done]. destruct Hg as [H1 H2]. split; [|exact H2]. intros sl'.
    change (handles (set_heap ?h ?g) ?x) with (handles g x). rewrite handles_set.
    cbn [heap set_heap tasks set_refs]. specialize (H1 sl'). destruct (decide (sl = sl')) as [<-|Hne].
    + rewrite strong_count_clone, Hc in *. rewrite Hh in H1. repeat case_decide; lia.
    + by rewrite strong_count_clone_ne.
  - rewrite app_nil_r. split; [|done]. destruct Hg as [H1 H2]. split; [|exact H2]. intros sl'.
    rewrite handles_set. cbn [heap set_heap tasks set_refs]. specialize (H1 sl').
    destruct (decide (sl = sl')) as [<-|Hne]; [|done]. rewrite H1. repeat case_decide; lia.
  - split; [by apply ginv_drop_ref|]. unfold g_replies. destruct (drop_ref_frame sl g) as [-> _].
    by rewrite app_nil_r.
  - split; [exact Hg|]. by rewrite app_nil_r.
  - split; [|by rewrite app_nil_r]. destruct Hg as [H1 H2]. split; [exact H1|].
    intros He op Hop. apply (H2 He). cbn in Hop. by destruct (queue g); [|right].
  - destruct (resolve_task_run t r s (set_tasks (delete i (tasks g)) g)) as (es' & Hrun & Hsent).
    rewrite Hrun in Hex. injection Hex as <- <-. split.
    + apply ginv_resolve; [done| |done]. intros -> Hf. by destruct (Hearly Hf).
    + rewrite app_nil_r, Hsent. unfold g_replies. cbn [tasks set_tasks set_heap snd].
      by rewrite (delete_Permutation _ _ _ Hi) at 1.
Qed.

Lemma ksteps_inv early (st st' : S * Gpu) arr es :
  ksteps early st arr es st' → ginv early st.2 →
  ginv early st'.2 ∧ g_replies st.2 ++ arr ≡ₚ (es ≫= sent) ++ g_replies st'.2.
Proof.
  induction 1 as [st|s1 a1 e1 s2 a2 e2 s3 H1 _ IH]; intros Hg.
  { split; [done|]. by rewrite app_nil_r. }
  destruct (kstep_inv _ _ _ _ _ H1 Hg) as [Hg2 Hp1]. destruct (IH Hg2) as [Hg3 Hp2].
  split; [done|]. rewrite bind_app, app_assoc, Hp1, <-app_assoc, Hp2, app_assoc. done.
Qed.

Lemma ginv_new early d : ginv early (Gpu_new d).
Proof. split; [done|]. intros _ op Hop. by apply not_elem_of_nil in Hop. Qed.
End safety.

(** ** The theorems *)

(** The smallest kernel actor: a request that reads one buffer. *)
Section probe.
Context (answer : Call → option string).

Record Probe := { probe_buf : GpuRef; probe_reply : nat }.
Definition probe_call (m : Probe) : Call := {| cname := "probe"; cargs := [ADev (slice (probe_buf m))] |}.
#[global] Instance probe_actor : KernelActor (S := unit) Probe := {|
  operands m := [probe_buf m];
  reply_of := probe_reply;
  khandle m := kernel_request answer "probe" [probe_buf m] [] [] Driver (Ok (probe_call m)) Done (probe_reply m);
|}.
#[global] Instance probe_law : KernelLaw unit Probe.
Proof.
  intros m [] g Hh. eapply awp_mono, kernel_request_spec; [|done|set_solver|by intros c' [= <-]].
  cbn. tauto.
Qed.

(** A buffer is allocated and the request sent with its only handle. *)
Definition probe_device : DeviceState := DeviceState_new 0.
Definition probe_msg : Probe := {| probe_buf := GpuRef_new 5 probe_device; probe_reply := 9 |}.
Definition probe_sent : Gpu :=
  (exec (deliver_msg probe_msg) (tt, set_heap {[5 := 1]} (set_refs {[5 := 1]} (Gpu_new (Some probe_device))))).1.2.
End probe.

Lemma probe_run early :
  ksteps (M := Probe) (KernelActor0 := probe_actor (λ _, None)) early (tt, Gpu_new (Some probe_device))
    [9] [Enqueue (probe_call probe_msg)] (tt, probe_sent (λ _, None)).
Proof.
  eapply (KStep early _ [] [] _ [9] [_]); [by apply (KAlloc (KernelActor0 := probe_actor (λ _, None)) early 5)|].
  eapply (KStep early _ [9] [_] _ [] []); [|apply KRefl].
  apply (KDeliver (KernelActor0 := probe_actor (λ _, None)) early probe_msg); [|by vm_compute]. by repeat constructor.
Qed.

(** C3 (no kernel outlives its buffers): along every execution of a kernel actor
    (messages, clients cloning and dropping handles, rebuilds, operations
    finishing, completions) in which no completion fails early, each buffer of
    each operation still in flight is alive, and a live handle's buffer is alive;
    conversely a buffer without handles that no spawned task holds is freed. *)
Theorem kernel_memory_safe {S M : Type} `{!KernelActor (S := S) M, !KernelLaw S M} st d st' g arr es :
  ksteps false (st, Gpu_new d) arr es (st', g) →
  (∀ op sl, op ∈ queue g → sl ∈ call_slices (op_call op) → 1 ≤ strong_count (heap g) sl) ∧
  (∀ sl, 1 ≤ handles g sl → 1 ≤ strong_count (heap g) sl) ∧
  (∀ sl, handles g sl = 0 → sl ∉ tasks g ≫= t_keep → strong_count (heap g) sl = 0).
Proof.
  intros Hrun. destruct (ksteps_inv _ _ _ _ _ Hrun (ginv_new _ _)) as [[H1 H2] _]. cbn in H1, H2.
  split_and!.
  - intros op sl Hop Hsl. destruct (H2 eq_refl op Hop) as (t & Ht & _ & Hsub). rewrite H1.
    assert (1 ≤ count sl (tasks g ≫= t_keep)); [|lia].
    apply count_elem, list_elem_of_bind. exists t. split; [by apply Hsub|done].
  - intros sl Hsl. rewrite H1, decide_False; lia.
  - intros sl Hsl Hno. rewrite H1, decide_True by done.
    destruct (count sl (tasks g ≫= t_keep)) eqn:Hc; [done|]. exfalso. apply Hno. revert Hc.
    generalize (tasks g ≫= t_keep). intros l. induction l as [|x l IH]; [done|]. rewrite count_cons.
    case_decide; subst; [by left|]. intros. right. by apply IH.
Qed.

Lemma kernel_memory_safe_witness :
  queue (probe_sent (λ _, None)) ≠ [] ∧ 1 ≤ strong_count (heap (probe_sent (λ _, None))) 5.
Proof.
  split; [by vm_compute|].
  destruct (kernel_memory_safe (KernelActor0 := probe_actor (λ _, None)) tt (Some probe_device) tt
    (probe_sent (λ _, None)) _ _ (probe_run false)) as [H _].
  apply (H {| op_id := 0; op_call := probe_call probe_msg |}); vm_compute; left.
Defined.

(** When a completion fails early the buffer of the running kernel is freed. *)
Example early_failure_frees :
  ∃ es g, ksteps (M := Probe) (KernelActor0 := probe_actor (λ _, None)) true
      (tt, Gpu_new (Some probe_device)) [9] es (tt, g) ∧
    op_call <$> queue g = [probe_call probe_msg] ∧ strong_count (heap g) 5 = 0.
Proof.
  eexists _, _. split.
  - eapply (KStep true _ [] [] _ [9] _); [by apply (KAlloc (KernelActor0 := probe_actor (λ _, None)) true 5)|].
    eapply (KStep true _ [9] _ _ [] _); [apply (KDeliver (KernelActor0 := probe_actor (λ _, None)) true probe_msg);
      [by repeat constructor|by vm_compute]|].
    eapply (KStep true _ [] _ _ [] []); [|apply KRefl].
    apply (KResolve (KernelActor0 := probe_actor (λ _, None)) true 0 {| t_op := 0; t_keep := [5]; t_out := Done; t_reply := 9; t_trace := None |}
      (Err Timeout)); [done|eauto|by vm_compute].
  - by vm_compute.
Qed.

(** C13 (every request is answered once): along every execution of a kernel actor,
    whatever the library answers and however completions end, the channels that
    arrived are those answered or dropped together with those of the tasks still
    waiting; so with distinct channels none is used twice, and once no task
    waits every channel has been used. *)
Theorem kernel_replies_once {S M : Type} `{!KernelActor (S := S) M, !KernelLaw S M} early st d st' g arr es :
  ksteps early (st, Gpu_new d) arr es (st', g) →
  arr ≡ₚ (es ≫= sent) ++ (t_reply <$> tasks g) ∧
  (NoDup arr → NoDup (es ≫= sent)) ∧
  (tasks g = [] → ∀ ch, ch ∈ arr → ch ∈ es ≫= sent).
Proof.
  intros Hrun. destruct (ksteps_inv _ _ _ _ _ Hrun (ginv_new _ _)) as [_ Hp]. cbn in Hp.
  fold (g_replies g). split_and!; [done| |].
  - rewrite Hp. by intros (? & _)%NoDup_app.
  - intros Ht ch. unfold g_replies in Hp. rewrite Hp, Ht. cbn. by rewrite app_nil_r.
Qed.

Lemma kernel_replies_once_witness :
  [9] ≡ₚ ([Enqueue (probe_call probe_msg)] ≫= sent) ++ (t_reply <$> tasks (probe_sent (λ _, None))).
Proof.
  apply (kernel_replies_once (KernelActor0 := probe_actor (λ _, None)) false tt (Some probe_device) tt
    (probe_sent (λ _, None)) _ _ (probe_run false)).
Defined.

(** *** Observation does not disturb *)

Definition is_trace (e : KEff) : bool := match e with Trace _ _ => true | _ => false end.
Definition untrace (es : list KEff) : list KEff := filter (λ e, is_trace e = false) es.
Definition untrace_gpu (g : Gpu) : Gpu :=
  set_tasks ((λ t, {| t_op := t_op t; t_keep := t_keep t; t_out := t_out t; t_reply := t_reply t;
                      t_trace := None |}) <$> tasks g) g.

Lemma untrace_id l : untrace l = l → filter (λ x, is_trace x = true) l = [].
Proof.
  intros Hl. rewrite <-Hl. unfold untrace. rewrite list_filter_filter. clear Hl.
  induction l as [|x l IH]; [done|]. rewrite filter_cons. case_decide; [|done]. destruct H. congruence.
Qed.

Lemma untrace_app l1 l2 : untrace (l1 ++ l2) = untrace l1 ++ untrace l2.
Proof. apply filter_app. Qed.

Lemma untrace_gpu_spawn l t g :
  untrace_gpu (set_tasks (l ++ [t]) g) =
    untrace_gpu (set_tasks (l ++ [{| t_op := t_op t; t_keep := t_keep t; t_out := t_out t;
      t_reply := t_reply t; t_trace := None |}]) g).
Proof. unfold untrace_gpu, set_tasks. cbn. by rewrite !fmap_app. Qed.

(** The envelope is the free function: an envelope, whatever its options, does
    to the device, the tasks and the reply channel what [run_kernel] with its
    library tag does, for every enqueue body; without a trace the two runs are
    equal, and with one the events around an enqueue that emits none are
    [before_enqueue] first and [after_enqueue] with the body's annotated
    outcome. *)
Theorem envelope_is_run_kernel {S : Type} (stream : stream_id) (e : KernelEnvelope) out reply keep
    (enqueue : act (S * Gpu) KEff (result nat GpuError)) (s : S * Gpu) :
  let '(_, s1, e1) := envelope_run_kernel stream e out reply keep enqueue s in
  let '(_, s2, e2) := run_kernel (lib_tag e) out reply keep enqueue s in
  s1.1 = s2.1 ∧ untrace_gpu s1.2 = untrace_gpu s2.2 ∧ untrace e1 = untrace e2 ∧
  (trace e = false → s1 = s2 ∧ e1 = e2) ∧
  (trace e = true → untrace (enqueue s).2 = (enqueue s).2 →
     filter (λ x, is_trace x = true) e1 =
       [Trace (info stream e) BeforeEnqueue;
        Trace (info stream e) (AfterEnqueue
          (match (enqueue s).1.1 with
           | Ok _ => Ok tt | Err err => Err (annotate_error err (lib_tag e)) end))]).
Proof.
  unfold envelope_run_kernel, run_kernel, trace_event, spawn_task, drop_clones, on_gpu.
  destruct (trace e) eqn:Htr; act_unfold; destruct (enqueue s) as [[[op|err] s1] e1];
    cbn [fst snd]; rewrite ?app_nil_r; split_and!; try done; try apply untrace_gpu_spawn.
  - unfold untrace. rewrite filter_cons, filter_app. cbn. by rewrite app_nil_r.
  - intros _ Hid%untrace_id. rewrite filter_cons, filter_app, Hid. done.
  - unfold untrace. rewrite filter_cons, !filter_app. done.
  - intros _ Hid%untrace_id. rewrite filter_cons, filter_app, Hid. done.
Qed.
