(* ===== verification/Objects.v ===== *)
(** * Objects of a C library

    The actors of [kernel/tensor] and [kernel/sparse] build objects of their library
    (descriptors, plans) one from another, and destroy by hand what was built
    when a later call fails.  This file has what they share: the calls the
    library saw, in order, with the check that no object is used or destroyed
    unless it is alive, and a triple [builds own m owned]: [m] takes over the
    objects [own] and leaves [owned a] alive when it returns [Ok a], and none of
    them otherwise.  What the library answers to its [n]-th call is a parameter. *)

From S2P Require Import Prelude Actor Errors Envelope.

Definition Obj := nat.

(** A call, with the objects among its arguments. *)
Record ObjCall := { oname : string; ouses : list Obj; oargs : list Arg }.

Inductive LibEvent : Type :=
  | Ran (c : ObjCall)
  | Created (o : Obj) (c : ObjCall)
  | Destroyed (o : Obj).

(** How many calls were made (an object is the number of the call that made it),
    and what happened. *)
Record Lib := { calls : nat; events : list LibEvent }.
Definition Lib_new : Lib := {| calls := 0; events := [] |}.

(** The live objects after some events, if every object was alive when used. *)
Definition event_ok (L : gset Obj) (e : LibEvent) : option (gset Obj) :=
  match e with
  | Ran c => if decide (Forall (.∈ L) (ouses c)) then Some L else None
  | Created o c => if decide (Forall (.∈ L) (ouses c) ∧ o ∉ L) then Some ({[o]} ∪ L) else None
  | Destroyed o => if decide (o ∈ L) then Some (L ∖ {[o]}) else None
  end.
Fixpoint replay (L : gset Obj) (es : list LibEvent) : option (gset Obj) :=
  match es with [] => Some L | e :: es => event_ok L e ≫= λ L, replay L es end.
Definition live (l : Lib) : option (gset Obj) := replay ∅ (events l).

Section calls.
Context {E : Type} (lib_answer : nat → ObjCall → result Z string).

Abbreviation lact := (act Lib E).

Definition log (e : LibEvent) (l : Lib) : Lib := {| calls := calls l; events := events l ++ [e] |}.
Definition next_call : lact nat :=
  l ← get; put {| calls := S (calls l); events := events l |};; mret (calls l).

(** A call that makes no object, and one that does. *)
Definition run_call (c : ObjCall) : lact (result Z string) :=
  n ← next_call; modify (log (Ran c));; mret (lib_answer n c).
Definition create (c : ObjCall) : lact (result Obj string) :=
  n ← next_call;
  match lib_answer n c with
  | Ok _ => modify (log (Created n c));; mret (Ok n)
  | Err e => modify (log (Ran c));; mret (Err e)
  end.
(** The answer of a destroying call is dropped everywhere. *)
Definition destroys (os : list Obj) : lact unit :=
  modify (λ l, {| calls := calls l; events := events l ++ (Destroyed <$> os) |}).

(** [r.map_err(|e| { destroy...; err })?] *)
Definition or_cleanup {A B F} (r : result A string) (err : string → F) (cleanup : list Obj)
    (k : A → lact (result B F)) : lact (result B F) :=
  match r with
  | Ok a => k a
  | Err e => destroys cleanup;; mret (Err (err e))
  end.

(** One object per call, in order; those made so far are destroyed, last first,
    when one is refused, with that call's error. [k] gets them in order. *)
Fixpoint create_all {B F} (specs : list ((string → F) * ObjCall)) (made : list Obj)
    (k : list Obj → lact (result B F)) : lact (result B F) :=
  match specs with
  | [] => k (rev made)
  | s :: specs =>
    r ← create s.2;
    or_cleanup r s.1 made (λ o, create_all specs (o :: made) k)
  end.
End calls.

(** ** Ownership *)

Lemma replay_app L es1 es2 : replay L (es1 ++ es2) = replay L es1 ≫= λ L, replay L es2.
Proof. revert L. induction es1 as [|e es1 IH]; intros L; [done|]. cbn. destruct (event_ok L e); cbn; [apply IH|done]. Qed.

Lemma live_log l e : live (log e l) = live l ≫= λ L, event_ok L e.
Proof. unfold live. cbn. rewrite replay_app. destruct (replay _ _) as [L|]; [|done]. cbn. by destruct (event_ok L e). Qed.

Lemma replay_destroyed (os : list Obj) (L : gset Obj) :
  NoDup os → list_to_set os ⊆ L → replay L (Destroyed <$> os) = Some (L ∖ list_to_set os).
Proof.
  revert L. induction os as [|o os IH]; intros L; [intros _ _; cbn; f_equal; set_solver|].
  intros [Ho Hd]%NoDup_cons Hsub. cbn. rewrite decide_True by set_solver. cbn.
  rewrite IH by set_solver. f_equal. set_solver.
Qed.

(** The live objects are [L], and later objects are new. *)
Definition lib_ok (l : Lib) (L : gset Obj) : Prop := live l = Some L ∧ set_Forall (λ o, o < calls l) L.

Lemma lib_new_ok : lib_ok Lib_new ∅.
Proof. split; [done|]. intros o Ho. set_solver. Qed.

Definition objs (os : list Obj) : gset Obj := list_to_set os.

Definition builds {E A F} (own : list Obj) (m : act Lib E (result A F)) (owned : A → list Obj) : Prop :=
  ∀ l L, lib_ok l L → NoDup own → objs own ⊆ L →
  awp m (λ r l' es, es = [] ∧ calls l ≤ calls l' ∧ ∃ L', lib_ok l' L' ∧
    match r with
    | Ok a => NoDup (owned a) ∧ objs (owned a) ⊆ L' ∧ L' ∖ objs (owned a) = L ∖ objs own
    | Err _ => L' = L ∖ objs own
    end) l.

Section rules.
Context {E : Type} (lib_answer : nat → ObjCall → result Z string).

Lemma destroyed_ok (os : list Obj) n l L :
  lib_ok l L → NoDup os → objs os ⊆ L → calls l ≤ n →
  lib_ok {| calls := n; events := events l ++ (Destroyed <$> os) |} (L ∖ objs os).
Proof.
  intros [Hl Hb] Hd Hsub Hn. split.
  - unfold live in *. cbn. rewrite replay_app, Hl. cbn. by apply replay_destroyed.
  - intros o Ho. cbn. assert (Hx : o ∈ L) by set_solver. specialize (Hb o Hx). cbn in Hb. lia.
Qed.
Lemma destroys_spec (os : list Obj) l L :
  lib_ok l L → NoDup os → objs os ⊆ L →
  awp (E := E) (destroys os) (λ _ l' es, es = [] ∧ calls l' = calls l ∧ lib_ok l' (L ∖ objs os)) l.
Proof. intros. unfold destroys. awp_steps. split_and!; [done|done|]. by apply destroyed_ok. Qed.

Lemma builds_ret {A F} (own : list Obj) (a : A) (owned : A → list Obj) :
  own ≡ₚ owned a → builds (E := E) (F := F) own (mret (Ok a)) owned.
Proof.
  intros Hp l L Hl Hd Hsub. awp_steps. split_and!; [done|lia|]. exists L. split; [done|].
  unfold objs in *. rewrite <-Hp. by split_and!.
Qed.

Lemma cleanup_spec {A F} (own cleanup : list Obj) (err : F) (owned : A → list Obj) :
  cleanup ≡ₚ own → builds (E := E) own (destroys cleanup;; mret (Err err)) owned.
Proof.
  intros Hp l L Hl Hd Hsub. unfold objs in *. rewrite <-Hp in *. apply awp_bind.
  eapply awp_mono, destroys_spec; [|done..]. intros _ l' es (-> & Hc & Hl'). awp_steps.
  split_and!; [done|lia|]. exists (L ∖ objs cleanup). split; [done|]. unfold objs. by rewrite Hp.
Qed.

Lemma uses_live (own : list Obj) uses (L : gset Obj) : objs own ⊆ L → uses ⊆ own → Forall (.∈ L) uses.
Proof. intros Hsub Hu. apply Forall_forall. intros o Ho. apply Hsub, elem_of_list_to_set. by apply Hu. Qed.

(** The two kinds of calls on live objects, with the answer. *)
Lemma run_call_spec c l L :
  lib_ok l L → Forall (.∈ L) (ouses c) →
  awp (E := E) (run_call lib_answer c) (λ r l' es, es = [] ∧ r = lib_answer (calls l) c ∧ calls l' = S (calls l) ∧ lib_ok l' L) l.
Proof.
  intros [Hl Hb] Hu. unfold run_call, next_call. awp_steps. split_and!; [done|done|done|]. split.
  - rewrite live_log. unfold live in *. cbn. rewrite Hl. cbn. by rewrite decide_True.
  - intros o Ho. cbn. specialize (Hb o Ho). cbn in Hb. lia.
Qed.
Lemma created_ok c l L :
  lib_ok l L → Forall (.∈ L) (ouses c) →
  calls l ∉ L ∧ lib_ok (log (Created (calls l) c) {| calls := S (calls l); events := events l |}) ({[calls l]} ∪ L).
Proof.
  intros [Hl Hb] Hu. assert (Hn : calls l ∉ L) by (intros Ho%Hb; cbn in Ho; lia). split; [done|]. split.
  - rewrite live_log. unfold live in *. cbn. rewrite Hl. cbn. by rewrite decide_True.
  - intros o [->%elem_of_singleton|Ho']%elem_of_union; cbn; [lia|]. specialize (Hb o Ho'). cbn in Hb. lia.
Qed.
Lemma create_spec c l L :
  lib_ok l L → Forall (.∈ L) (ouses c) →
  awp (E := E) (create lib_answer c) (λ r l' es, es = [] ∧ calls l' = S (calls l) ∧
    match r with
    | Ok o => o = calls l ∧ o ∉ L ∧ lib_ok l' ({[o]} ∪ L)
    | Err e => lib_answer (calls l) c = Err e ∧ lib_ok l' L
    end) l.
Proof.
  intros Hl Hu. unfold create, next_call. awp_steps. destruct (lib_answer _ _) as [z|e]; awp_steps.
  - split_and!; [done|done|done|by eapply created_ok|by eapply created_ok].
  - split_and!; [done|done|done|]. eapply (run_call_spec c) in Hl; [|done].
    unfold run_call, next_call in Hl. unfold awp, mbind, act_bind, get, put, modify, mret, act_ret in Hl. cbn in Hl. by apply Hl.
Qed.

(** A call on live objects. *)
Lemma builds_run {B F} own c (err : string → F) cleanup k (owned : B → list Obj) :
  ouses c ⊆ own → cleanup ≡ₚ own → (∀ z, builds own (k z) owned) →
  builds (E := E) own (r ← run_call lib_answer c; or_cleanup r err cleanup k) owned.
Proof.
  intros Hu Hp Hk l L Hl Hd Hsub. apply awp_bind. eapply awp_mono, run_call_spec; [|done|by eapply uses_live].
  intros r l1 es (-> & _ & Hc1 & Hl1). cbn [app].
  eapply (awp_mono _ (λ r l' es, es = [] ∧ calls l1 ≤ calls l' ∧ ∃ L', lib_ok l' L' ∧ _)).
  { intros r' l' es (-> & Hc & HL). split_and!; [done|lia|exact HL]. }
  destruct r as [z|e]; [by apply Hk|by apply (cleanup_spec own)].
Qed.

(** A call that makes an object from live ones: it is owned from then on. *)
Lemma builds_create {B F} own c (err : string → F) cleanup k (owned : B → list Obj) :
  ouses c ⊆ own → cleanup ≡ₚ own → (∀ o, o ∉ own → builds (o :: own) (k o) owned) →
  builds (E := E) own (r ← create lib_answer c; or_cleanup r err cleanup k) owned.
Proof.
  intros Hu Hp Hk l L Hl Hd Hsub. apply awp_bind. eapply awp_mono, create_spec; [|done|by eapply uses_live].
  intros [o|e] l1 es (-> & Hc1 & Hr); cbn [app or_cleanup].
  - destruct Hr as (-> & Hn & Hl1). assert (Ho : calls l ∉ own) by (intros Ho; apply Hn, Hsub; by apply elem_of_list_to_set).
    eapply awp_mono; [|apply (Hk (calls l) Ho _ _ Hl1)]; [|by constructor|unfold objs in *; cbn; set_solver].
    intros r l' es (-> & Hc & L' & HL' & Hr). split_and!; [done|lia|]. exists L'. split; [done|].
    unfold objs in *. cbn in Hr.
    assert (({[calls l]} ∪ L) ∖ ({[calls l]} ∪ list_to_set own) = L ∖ list_to_set own) as <- by set_solver. done.
  - destruct Hr as [_ Hl1]. eapply awp_mono; [|by apply (cleanup_spec own)].
    intros r l' es (-> & Hc & HL). split_and!; [done|lia|exact HL].
Qed.

Lemma create_all_builds {B F} specs made (k : list Obj → act Lib E (result B F)) owned :
  (∀ s, s ∈ specs → ouses s.2 = []) →
  (∀ ds, length ds = length made + length specs → builds (rev ds) (k ds) owned) →
  builds made (create_all lib_answer specs made k) owned.
Proof.
  revert made. induction specs as [|s specs IH]; intros made Hu Hk; cbn [create_all].
  - specialize (Hk (rev made)). rewrite rev_involutive in Hk. apply Hk. rewrite length_rev. cbn. lia.
  - apply builds_create; [rewrite Hu by (by left); set_solver|done|]. intros o _.
    apply IH; [intros s' Hs'; apply Hu; by right|]. intros ds Hd. apply Hk. rewrite Hd. cbn. lia.
Qed.

(** Chains that continue alike run alike. *)
Lemma create_all_ext {B F} specs made (k k' : list Obj → act Lib E (result B F)) l :
  (∀ ds l, k ds l = k' ds l) → create_all lib_answer specs made k l = create_all lib_answer specs made k' l.
Proof.
  intros Hk. revert made l. induction specs as [|s specs IH]; intros made l; cbn [create_all]; [apply Hk|].
  unfold mbind, act_bind. destruct (create _ _ l) as [[[o|e] l1] es]; cbn [or_cleanup]; [by rewrite IH|done].
Qed.

(** Passing on what was built. *)
Lemma builds_bind {A B F} own (m : act Lib E (result A F)) (k : A → act Lib E (result B F)) owned owned' :
  builds own m owned → (∀ a, builds (owned a) (k a) owned') →
  builds own (r ← m; match r with Ok a => k a | Err e => mret (Err e) end) owned'.
Proof.
  intros Hm Hk l L Hl Hd Hsub. apply awp_bind. eapply awp_mono, Hm; [|done..].
  intros r l1 es (-> & Hc & L1 & Hl1 & Hr). destruct r as [a|e].
  - destruct Hr as (Hda & Ha & Hrest). eapply awp_mono, (Hk a l1 L1); [|done..].
    intros r l2 es2 (-> & Hc2 & L2 & Hl2 & Hr). split_and!; [done|lia|]. exists L2. split; [done|].
    rewrite <-Hrest. done.
  - awp_steps. split_and!; [done|lia|]. eauto.
Qed.
End rules.
