(* ===== verification/Blas.v ===== *)
(** * The cuBLAS actor

    Models [crates/atomr-accel-cuda/src/kernel/blas] ([mod.rs], [gemm.rs],
    [gemm_strided_batched.rs], [l1.rs], [l2.rs], [l3.rs]) and the status check of
    [sys/cublas.rs].  A request is the struct of its operation; a typed message
    carries the element type, which the dispatch traits restrict.  Scalars are
    their bits, the enumerations of cuBLAS their variants' names.  What cuBLAS
    answers to a call ([None] for success, otherwise the status as printed) and
    what it writes into a result box are parameters. *)

From S2P Require Import Prelude Actor Errors Dtype CudaDtype DeviceState DeviceActor Envelope.

Definition LIB : string := "cublas".

(** ** Requests *)

Record GemmRequest := {
  g_a : GpuRef; g_b : GpuRef; g_c : GpuRef;
  g_m : Z; g_n : Z; g_k : Z; g_alpha : Z; g_beta : Z;
  g_trans_a : string; g_trans_b : string;
  g_lda : Z; g_ldb : Z; g_ldc : Z;
  g_reply : nat;
}.

Record GemmStridedBatchedRequest := {
  gs_gemm : GemmRequest;   (* the fields of the same names *)
  gs_stride_a : Z; gs_stride_b : Z; gs_stride_c : Z; gs_batch_size : Z;
}.

(** Two vectors of [n] elements. *)
Record AxpyRequest := {
  ax_n : Z; ax_alpha : Z; ax_x : GpuRef; ax_incx : Z; ax_y : GpuRef; ax_incy : Z; ax_reply : nat;
}.
Record ScalRequest := { sc_n : Z; sc_alpha : Z; sc_x : GpuRef; sc_incx : Z; sc_reply : nat }.
Record Nrm2Request := { n2_n : Z; n2_x : GpuRef; n2_incx : Z; n2_reply : nat }.
Record DotRequest := {
  dot_n : Z; dot_x : GpuRef; dot_incx : Z; dot_y : GpuRef; dot_incy : Z; dot_reply : nat;
}.
Record AsumRequest := { as_n : Z; as_x : GpuRef; as_incx : Z; as_reply : nat }.
Record IamaxRequest := { im_n : Z; im_x : GpuRef; im_incx : Z; im_reply : nat }.
Record CopyRequest := {
  cp_n : Z; cp_x : GpuRef; cp_incx : Z; cp_y : GpuRef; cp_incy : Z; cp_reply : nat;
}.
Record SwapRequest := {
  sw_n : Z; sw_x : GpuRef; sw_incx : Z; sw_y : GpuRef; sw_incy : Z; sw_reply : nat;
}.
Record RotRequest := {
  rot_n : Z; rot_x : GpuRef; rot_incx : Z; rot_y : GpuRef; rot_incy : Z; rot_c : Z; rot_s : Z;
  rot_reply : nat;
}.
Record GemvRequest := {
  gv_trans : string; gv_m : Z; gv_n : Z; gv_alpha : Z; gv_beta : Z;
  gv_a : GpuRef; gv_lda : Z; gv_x : GpuRef; gv_incx : Z; gv_y : GpuRef; gv_incy : Z; gv_reply : nat;
}.
Record GerRequest := {
  gr_m : Z; gr_n : Z; gr_alpha : Z; gr_x : GpuRef; gr_incx : Z; gr_y : GpuRef; gr_incy : Z;
  gr_a : GpuRef; gr_lda : Z; gr_reply : nat;
}.
Record GeamRequest := {
  ga_trans_a : string; ga_trans_b : string; ga_m : Z; ga_n : Z; ga_alpha : Z; ga_a : GpuRef; ga_lda : Z;
  ga_beta : Z; ga_b : GpuRef; ga_ldb : Z; ga_c : GpuRef; ga_ldc : Z; ga_reply : nat;
}.
Record SyrkRequest := {
  sy_uplo : string; sy_trans : string; sy_n : Z; sy_k : Z; sy_alpha : Z; sy_a : GpuRef; sy_lda : Z;
  sy_beta : Z; sy_c : GpuRef; sy_ldc : Z; sy_reply : nat;
}.
Record TrsmRequest := {
  tr_side : string; tr_uplo : string; tr_trans : string; tr_diag : string; tr_m : Z; tr_n : Z;
  tr_alpha : Z; tr_a : GpuRef; tr_lda : Z; tr_b : GpuRef; tr_ldb : Z; tr_reply : nat;
}.

Inductive BlasL1Op : Type :=
  | Axpy (r : AxpyRequest) | Scal (r : ScalRequest) | Nrm2 (r : Nrm2Request) | Dot (r : DotRequest)
  | Asum (r : AsumRequest) | Iamax (r : IamaxRequest) | Iamin (r : IamaxRequest)
  | Copy (r : CopyRequest) | Swap (r : SwapRequest) | Rot (r : RotRequest).
Inductive BlasL2Op : Type := Gemv (r : GemvRequest) | Ger (r : GerRequest).
Inductive BlasL3Op : Type := Geam (r : GeamRequest) | Syrk (r : SyrkRequest) | Trsm (r : TrsmRequest).

(** [BlasMsg]; the element type is that of the boxed request. *)
Inductive BlasMsg : Type :=
  | Gemm (T : DType) (r : GemmRequest)
  | L1 (T : DType) (o : BlasL1Op)
  | L2 (T : DType) (o : BlasL2Op)
  | L3 (T : DType) (o : BlasL3Op)
  | GemmStridedBatched (T : DType) (r : GemmStridedBatchedRequest)
  | Sgemm (r : SgemmRequest)   (* the request of [DeviceMsg] *).

Definition is_full (T : DType) : bool := match T with F32 | F64 => true | _ => false end.
Definition is_full_or_half (T : DType) : bool := match T with F32 | F64 | F16 | Bf16 => true | _ => false end.

(** Which requests implement a dispatch trait, and so can be boxed in a message. *)
Definition dispatchable (m : BlasMsg) : bool :=
  match m with
  | Gemm T _ | GemmStridedBatched T _ | L1 T (Axpy _ | Scal _) => is_full_or_half T
  | L1 T _ | L2 T _ | L3 T _ => is_full T
  | Sgemm _ => true
  end.

Definition blas_op_name (m : BlasMsg) : string :=
  match m with
  | Gemm _ _ => "gemm"
  | GemmStridedBatched _ _ => "gemm_strided_batched"
  | L1 _ (Axpy _) => "axpy" | L1 _ (Scal _) => "scal" | L1 _ (Nrm2 _) => "nrm2" | L1 _ (Dot _) => "dot"
  | L1 _ (Asum _) => "asum" | L1 _ (Iamax _) => "iamax" | L1 _ (Iamin _) => "iamin"
  | L1 _ (Copy _) => "copy" | L1 _ (Swap _) => "swap" | L1 _ (Rot _) => "rot"
  | L2 _ (Gemv _) => "gemv" | L2 _ (Ger _) => "ger"
  | L3 _ (Geam _) => "geam" | L3 _ (Syrk _) => "syrk" | L3 _ (Trsm _) => "trsm"
  | Sgemm _ => "sgemm"
  end.

(** ** The library calls *)

(** [T::cuda_data_type()] *)
Definition type_tag (T : DType) : Arg :=
  ATag (match cuda_data_type (Prim T) with Some t => cuda_type_tag t | None => "" end).

(** [scalar_data_type]: the scalar of [half::f16] and [half::bf16] is the type
    itself, for which it panics. *)
Definition scalar_data_type (T : DType) : result cudaDataType string :=
  if decide (Scalar (Prim T) = F32) then Ok CUDA_R_32F
  else if decide (Scalar (Prim T) = F64) then Ok CUDA_R_64F
  else Err ("Unrecoverable: scalar type for " +:+ dtype_name T +:+ " is not f32/f64").

(** [sys::cublas::check] *)
Definition check (op : string) (status : string) : GpuError := LibraryError LIB (op +:+ ": " +:+ status).

Definition dev (r : GpuRef) : Arg := ADev (slice r).

(** The enqueue closure's call: the entry point of [sys/cublas.rs] or of the safe
    layer, and its arguments in order. *)
Definition with_scalar (T : DType) (k : Arg → Call) : result Call string :=
  match scalar_data_type T with Ok t => Ok (k (ATag (cuda_type_tag t))) | Err p => Err p end.

Definition axpy_ex (T : DType) (r : AxpyRequest) : result Call string :=
  with_scalar T (λ st, {| cname := "cublasAxpyEx";
    cargs := [AInt (ax_n r); AInt (ax_alpha r); st; dev (ax_x r); type_tag T; AInt (ax_incx r);
              dev (ax_y r); type_tag T; AInt (ax_incy r); st] |}).
Definition scal_ex (T : DType) (r : ScalRequest) : result Call string :=
  with_scalar T (λ st, {| cname := "cublasScalEx";
    cargs := [AInt (sc_n r); AInt (sc_alpha r); st; dev (sc_x r); type_tag T; AInt (sc_incx r); st] |}).
Definition nrm2_ex (T : DType) (r : Nrm2Request) : result Call string :=
  with_scalar T (λ st, {| cname := "cublasNrm2Ex";
    cargs := [AInt (n2_n r); dev (n2_x r); type_tag T; AInt (n2_incx r); st; type_tag T] |}).
Definition dot_ex (T : DType) (r : DotRequest) : result Call string :=
  with_scalar T (λ st, {| cname := "cublasDotEx";
    cargs := [AInt (dot_n r); dev (dot_x r); type_tag T; AInt (dot_incx r);
              dev (dot_y r); type_tag T; AInt (dot_incy r); st; type_tag T] |}).
Definition asum_ex (T : DType) (r : AsumRequest) : result Call string :=
  with_scalar T (λ st, {| cname := "cublasAsumEx";
    cargs := [AInt (as_n r); dev (as_x r); type_tag T; AInt (as_incx r); st; type_tag T] |}).
Definition iamax_ex (T : DType) (find_min : bool) (r : IamaxRequest) : result Call string :=
  Ok {| cname := if find_min then "cublasIaminEx" else "cublasIamaxEx";
        cargs := [AInt (im_n r); dev (im_x r); type_tag T; AInt (im_incx r)] |}.
Definition copy_ex (T : DType) (r : CopyRequest) : result Call string :=
  Ok {| cname := "cublasCopyEx";
        cargs := [AInt (cp_n r); dev (cp_x r); type_tag T; AInt (cp_incx r);
                  dev (cp_y r); type_tag T; AInt (cp_incy r)] |}.
Definition swap_ex (T : DType) (r : SwapRequest) : result Call string :=
  Ok {| cname := "cublasSwapEx";
        cargs := [AInt (sw_n r); dev (sw_x r); type_tag T; AInt (sw_incx r);
                  dev (sw_y r); type_tag T; AInt (sw_incy r)] |}.
Definition rot_ex (T : DType) (r : RotRequest) : result Call string :=
  with_scalar T (λ st, {| cname := "cublasRotEx";
    cargs := [AInt (rot_n r); dev (rot_x r); type_tag T; AInt (rot_incx r);
              dev (rot_y r); type_tag T; AInt (rot_incy r); AInt (rot_c r); AInt (rot_s r); st; type_tag T] |}).

(** The letter of a typed entry point: [S] for [f32], [D] for [f64]. *)
Definition typed (T : DType) (op : string) : string :=
  "cublas" +:+ (match T with F32 => "S" | _ => "D" end) +:+ op.

Definition gemv_call (T : DType) (r : GemvRequest) : Call :=
  {| cname := "gemv";
     cargs := [type_tag T; ATag (gv_trans r); AInt (gv_m r); AInt (gv_n r); AInt (gv_alpha r); AInt (gv_lda r);
               AInt (gv_incx r); AInt (gv_beta r); AInt (gv_incy r); dev (gv_a r); dev (gv_x r); dev (gv_y r)] |}.
Definition ger_call (T : DType) (r : GerRequest) : Call :=
  {| cname := typed T "ger_v2";
     cargs := [AInt (gr_m r); AInt (gr_n r); AInt (gr_alpha r); dev (gr_x r); AInt (gr_incx r);
               dev (gr_y r); AInt (gr_incy r); dev (gr_a r); AInt (gr_lda r)] |}.
Definition geam_call (T : DType) (r : GeamRequest) : Call :=
  {| cname := typed T "geam";
     cargs := [ATag (ga_trans_a r); ATag (ga_trans_b r); AInt (ga_m r); AInt (ga_n r); AInt (ga_alpha r);
               dev (ga_a r); AInt (ga_lda r); AInt (ga_beta r); dev (ga_b r); AInt (ga_ldb r);
               dev (ga_c r); AInt (ga_ldc r)] |}.
Definition syrk_call (T : DType) (r : SyrkRequest) : Call :=
  {| cname := typed T "syrk_v2";
     cargs := [ATag (sy_uplo r); ATag (sy_trans r); AInt (sy_n r); AInt (sy_k r); AInt (sy_alpha r);
               dev (sy_a r); AInt (sy_lda r); AInt (sy_beta r); dev (sy_c r); AInt (sy_ldc r)] |}.
Definition trsm_call (T : DType) (r : TrsmRequest) : Call :=
  {| cname := typed T "trsm_v2";
     cargs := [ATag (tr_side r); ATag (tr_uplo r); ATag (tr_trans r); ATag (tr_diag r); AInt (tr_m r);
               AInt (tr_n r); AInt (tr_alpha r); dev (tr_a r); AInt (tr_lda r); dev (tr_b r); AInt (tr_ldb r)] |}.

(** [GemmConfig] and the buffers *)
Definition gemm_args (T : DType) (r : GemmRequest) : list Arg :=
  [type_tag T; ATag (g_trans_a r); ATag (g_trans_b r); AInt (g_m r); AInt (g_n r); AInt (g_k r);
   AInt (g_alpha r); AInt (g_lda r); AInt (g_ldb r); AInt (g_beta r); AInt (g_ldc r)].
Definition gemm_call (T : DType) (r : GemmRequest) : Call :=
  {| cname := "gemm"; cargs := gemm_args T r ++ [dev (g_a r); dev (g_b r); dev (g_c r)] |}.
Definition gemm_strided_batched_call (T : DType) (r : GemmStridedBatchedRequest) : Call :=
  let g := gs_gemm r in
  {| cname := "gemm_strided_batched";
     cargs := gemm_args T g ++
       [AInt (gs_batch_size r); AInt (gs_stride_a r); AInt (gs_stride_b r); AInt (gs_stride_c r);
        dev (g_a g); dev (g_b g); dev (g_c g)] |}.

(** ** Dispatch *)

(** What a [dispatch_*] function does, as the arguments of the shared pattern: the
    operands in the order they are checked, the write targets in the order they
    are unwrapped, with their messages, the text of an error, the call, whether the
    reply is the content of a result box, and the reply channel. *)
Record Dispatch := {
  d_operands : list GpuRef;
  d_targets : list (GpuRef * string);
  d_err : string → GpuError;
  d_call : result Call string;
  d_boxed : bool;
  d_reply : nat;
}.

Definition shared_msg (what : string) : string := what +:+ " has more than one live reference".

Definition dispatch_axpy (T : DType) (r : AxpyRequest) : Dispatch :=
  {| d_operands := [ax_x r; ax_y r]; d_targets := [(ax_y r, shared_msg "AXPY target buffer Y")];
     d_err := check "cublasAxpyEx"; d_call := axpy_ex T r; d_boxed := false; d_reply := ax_reply r |}.
Definition dispatch_scal (T : DType) (r : ScalRequest) : Dispatch :=
  {| d_operands := [sc_x r]; d_targets := [(sc_x r, shared_msg "SCAL target buffer X")];
     d_err := check "cublasScalEx"; d_call := scal_ex T r; d_boxed := false; d_reply := sc_reply r |}.
Definition dispatch_nrm2 (T : DType) (r : Nrm2Request) : Dispatch :=
  {| d_operands := [n2_x r]; d_targets := []; d_err := check "cublasNrm2Ex"; d_call := nrm2_ex T r;
     d_boxed := true; d_reply := n2_reply r |}.
Definition dispatch_dot (T : DType) (r : DotRequest) : Dispatch :=
  {| d_operands := [dot_x r; dot_y r]; d_targets := []; d_err := check "cublasDotEx"; d_call := dot_ex T r;
     d_boxed := true; d_reply := dot_reply r |}.
Definition dispatch_asum (T : DType) (r : AsumRequest) : Dispatch :=
  {| d_operands := [as_x r]; d_targets := []; d_err := check "cublasAsumEx"; d_call := asum_ex T r;
     d_boxed := true; d_reply := as_reply r |}.
Definition dispatch_iamax_impl (T : DType) (r : IamaxRequest) (find_min : bool) : Dispatch :=
  {| d_operands := [im_x r]; d_targets := [];
     d_err := check (if find_min then "cublasIaminEx" else "cublasIamaxEx");
     d_call := iamax_ex T find_min r; d_boxed := true; d_reply := im_reply r |}.
Definition dispatch_copy (T : DType) (r : CopyRequest) : Dispatch :=
  {| d_operands := [cp_x r; cp_y r]; d_targets := [(cp_y r, shared_msg "COPY target buffer Y")];
     d_err := check "cublasCopyEx"; d_call := copy_ex T r; d_boxed := false; d_reply := cp_reply r |}.
Definition dispatch_swap (T : DType) (r : SwapRequest) : Dispatch :=
  {| d_operands := [sw_x r; sw_y r];
     d_targets := [(sw_x r, shared_msg "SWAP buffer X"); (sw_y r, shared_msg "SWAP buffer Y")];
     d_err := check "cublasSwapEx"; d_call := swap_ex T r; d_boxed := false; d_reply := sw_reply r |}.
Definition dispatch_rot (T : DType) (r : RotRequest) : Dispatch :=
  {| d_operands := [rot_x r; rot_y r];
     d_targets := [(rot_x r, shared_msg "ROT buffer X"); (rot_y r, shared_msg "ROT buffer Y")];
     d_err := check "cublasRotEx"; d_call := rot_ex T r; d_boxed := false; d_reply := rot_reply r |}.

Definition dispatch_gemv (T : DType) (r : GemvRequest) : Dispatch :=
  {| d_operands := [gv_a r; gv_x r; gv_y r]; d_targets := [(gv_y r, shared_msg "GEMV target buffer Y")];
     d_err := λ e, LibraryError LIB ("gemv enqueue: " +:+ e); d_call := Ok (gemv_call T r);
     d_boxed := false; d_reply := gv_reply r |}.
Definition dispatch_ger (T : DType) (r : GerRequest) : Dispatch :=
  {| d_operands := [gr_a r; gr_x r; gr_y r]; d_targets := [(gr_a r, shared_msg "GER target matrix A")];
     d_err := check (typed T "ger_v2"); d_call := Ok (ger_call T r); d_boxed := false; d_reply := gr_reply r |}.
Definition dispatch_geam (T : DType) (r : GeamRequest) : Dispatch :=
  {| d_operands := [ga_a r; ga_b r; ga_c r]; d_targets := [(ga_c r, shared_msg "GEAM target buffer C")];
     d_err := check (typed T "geam"); d_call := Ok (geam_call T r); d_boxed := false; d_reply := ga_reply r |}.
Definition dispatch_syrk (T : DType) (r : SyrkRequest) : Dispatch :=
  {| d_operands := [sy_a r; sy_c r]; d_targets := [(sy_c r, shared_msg "SYRK target buffer C")];
     d_err := check (typed T "syrk_v2"); d_call := Ok (syrk_call T r); d_boxed := false;
     d_reply := sy_reply r |}.
Definition dispatch_trsm (T : DType) (r : TrsmRequest) : Dispatch :=
  {| d_operands := [tr_a r; tr_b r]; d_targets := [(tr_b r, shared_msg "TRSM target buffer B")];
     d_err := check (typed T "trsm_v2"); d_call := Ok (trsm_call T r); d_boxed := false;
     d_reply := tr_reply r |}.
Definition dispatch_gemm (T : DType) (r : GemmRequest) : Dispatch :=
  {| d_operands := [g_a r; g_b r; g_c r];
     d_targets := [(g_c r, "GEMM target buffer C has more than one live reference; " +:+
                           "caller must hold the unique GpuRef to write to it")];
     d_err := λ e, LibraryError LIB ("gemm enqueue: " +:+ e); d_call := Ok (gemm_call T r);
     d_boxed := false; d_reply := g_reply r |}.
Definition dispatch_strided_batched (T : DType) (r : GemmStridedBatchedRequest) : Dispatch :=
  let g := gs_gemm r in
  {| d_operands := [g_a g; g_b g; g_c g];
     d_targets := [(g_c g, "GEMM strided-batched target buffer C has more than one live reference; " +:+
                           "caller must hold the unique GpuRef to write to it")];
     d_err := λ e, LibraryError LIB ("gemm_strided_batched enqueue: " +:+ e);
     d_call := Ok (gemm_strided_batched_call T r); d_boxed := false; d_reply := g_reply g |}.

(** The legacy message becomes an untransposed, packed [GemmRequest<f32>]. *)
Definition sgemm_to_gemm (r : SgemmRequest) : GemmRequest :=
  {| g_a := sg_a r; g_b := sg_b r; g_c := sg_c r; g_m := sg_m r; g_n := sg_n r; g_k := sg_k r;
     g_alpha := sg_alpha r; g_beta := sg_beta r; g_trans_a := "CUBLAS_OP_N"; g_trans_b := "CUBLAS_OP_N";
     g_lda := sg_m r; g_ldb := sg_k r; g_ldc := sg_m r; g_reply := sg_reply r |}.

Definition dispatch_l1 (T : DType) (o : BlasL1Op) : Dispatch :=
  match o with
  | Axpy r => dispatch_axpy T r
  | Scal r => dispatch_scal T r
  | Nrm2 r => dispatch_nrm2 T r
  | Dot r => dispatch_dot T r
  | Asum r => dispatch_asum T r
  | Iamax r => dispatch_iamax_impl T r false
  | Iamin r => dispatch_iamax_impl T r true
  | Copy r => dispatch_copy T r
  | Swap r => dispatch_swap T r
  | Rot r => dispatch_rot T r
  end.

Definition blas_dispatch (m : BlasMsg) : Dispatch :=
  match m with
  | Gemm T r => dispatch_gemm T r
  | L1 T o => dispatch_l1 T o
  | L2 T (Gemv r) => dispatch_gemv T r
  | L2 T (Ger r) => dispatch_ger T r
  | L3 T (Geam r) => dispatch_geam T r
  | L3 T (Syrk r) => dispatch_syrk T r
  | L3 T (Trsm r) => dispatch_trsm T r
  | GemmStridedBatched T r => dispatch_strided_batched T r
  | Sgemm r => dispatch_gemm F32 (sgemm_to_gemm r)
  end.

(** ** The actor *)

(** [BlasInner]; the handle, stream and completion of [Real] are parameters. *)
Inductive BlasInner : Type := Real | Mock.

Section actor.
(** What cuBLAS answers to a call and what it writes into the result box. *)
Context (answer : Call → option string) (result_of : Call → Z).

Definition out_value (d : Dispatch) : Value :=
  if d_boxed d then match d_call d with Ok c => Boxed (result_of c) | Err _ => Done end else Done.

Definition run_dispatch (d : Dispatch) : act (BlasInner * Gpu) KEff unit :=
  kernel_request answer LIB (d_operands d) (d_targets d) ((λ t, slice t.1) <$> d_targets d)
    (d_err d) (d_call d) (out_value d) (d_reply d).

(** [mock_reply] drops the boxed request, and with it the sender. *)
Definition handle_msg (m : BlasMsg) : act (BlasInner * Gpu) KEff unit :=
  s ← get;
  match s.1 with
  | Mock =>
    match m with
    | Sgemm r => emit (Reply (sg_reply r) (Err (Unrecoverable "Sgemm not supported in mock mode")))
    | _ => emit (DropSender (d_reply (blas_dispatch m)))
    end
  | Real => run_dispatch (blas_dispatch m)
  end.

#[global] Instance blas_actor : KernelActor (S := BlasInner) BlasMsg := {|
  operands m := d_operands (blas_dispatch m);
  reply_of m := d_reply (blas_dispatch m);
  khandle := handle_msg;
|}.
End actor.

(** ** Well-formed dispatches *)

Definition d_wf (d : Dispatch) : Prop :=
  (d_targets d).*1 ⊆ d_operands d ∧
  ∀ c, d_call d = Ok c → call_slices c ⊆ slice <$> d_operands d.

Lemma with_scalar_Ok T k c : with_scalar T k = Ok c → ∃ t, c = k (ATag t).
Proof. unfold with_scalar. destruct (scalar_data_type T); intros [= <-]. eauto. Qed.

Lemma dispatch_wf m : d_wf (blas_dispatch m).
Proof.
  split.
  - destruct m as [| |? []|? []| |]; try destruct o; cbn; set_solver.
  - destruct m as [| |? []|? []| |]; try destruct o; intros c Hc; cbn in Hc;
      first [apply with_scalar_Ok in Hc as [tag ->]|injection Hc as <-]; cbn; set_solver.
Qed.

Section laws.
Context (answer : Call → option string) (result_of : Call → Z).

(** What a message of a real actor does, on every branch. *)
Definition blas_effects (g : Gpu) (d : Dispatch) : list KEff :=
  match access_list (Envelope.dev g) (d_operands d) with
  | Err e => [Reply (d_reply d) (Err e)]
  | Ok _ =>
    match d_targets d, d_call d with
    | (_, msg) :: _, _ => [Reply (d_reply d) (Err (Unrecoverable msg))]
    | [], Err p => [DropSender (d_reply d); Panicked p]
    | [], Ok c =>
      match answer c with
      | Some e => [Reply (d_reply d) (Err (annotate_error (d_err d e) LIB))]
      | None => [Enqueue c]
      end
    end
  end.

Lemma run_dispatch_spec d st g : d_wf d → Forall (holds (heap g)) (d_operands d) →
  awp (run_dispatch answer result_of d) (λ _ st' es,
    st'.1 = st ∧ kpost (d_reply d) g st'.2 es ∧ es = blas_effects g d ∧
    (∀ c, es = [Enqueue c] → ∃ op, tasks st'.2 = tasks g ++
       [{| t_op := op; t_keep := slice <$> d_operands d; t_out := out_value result_of d;
           t_reply := d_reply d; t_trace := None |}])) (st, g).
Proof.
  intros [Ht Hc] Hh. eapply awp_mono, kernel_request_spec; [|done|done|done].
  intros _ st' es (? & ? & He). split; [done|]. split; [done|]. unfold blas_effects.
  destruct (access_list _ _); [|by subst]. destruct (d_targets d) as [|[tgt msg] ts]; [|by subst].
  destruct (d_call d) as [c|]; [|by subst]. destruct (answer c); [by subst|].
  destruct He as (-> & _ & ->). split; [done|]. intros c' [= <-]. eauto.
Qed.

#[global] Instance blas_law : @KernelLaw BlasInner BlasMsg (blas_actor answer result_of).
Proof.
  intros m [] g Hh.
  - cbn [khandle blas_actor reply_of]. unfold handle_msg. awp_steps. cbn [fst].
    eapply awp_mono, run_dispatch_spec; [|apply dispatch_wf|done]. cbn. tauto.
  - cbn [khandle blas_actor reply_of]. unfold handle_msg. awp_steps. cbn [fst].
    destruct m; awp_steps; (split; [done|]); by left.
Qed.
End laws.

(** ** What the actor does with a message *)

(** The operations that only read buffers. *)
Definition is_reduction (m : BlasMsg) : bool :=
  match m with L1 _ (Nrm2 _ | Dot _ | Asum _ | Iamax _ | Iamin _) => true | _ => false end.

Lemma scalar_full T : is_full T = true → ∃ t, scalar_data_type T = Ok t.
Proof. destruct T; try done; eexists; by vm_compute. Qed.

(** A reduction has no target, a call named by its error, and a boxed reply. *)
Lemma reduction_dispatch m : is_reduction m = true → dispatchable m = true →
  d_targets (blas_dispatch m) = [] ∧ d_boxed (blas_dispatch m) = true ∧
  ∃ c, d_call (blas_dispatch m) = Ok c ∧ ∀ e, d_err (blas_dispatch m) e = LibraryError LIB (cname c +:+ ": " +:+ e).
Proof.
  destruct m as [|T o| | | |]; try done. intros Hred Hd.
  assert (HT : is_full T = true) by (by destruct o). clear Hd. destruct (scalar_full T HT) as [t Ht].
  destruct o; try done; (split_and!; [done|done|]); cbn [blas_dispatch dispatch_l1 d_call dispatch_nrm2
    dispatch_dot dispatch_asum dispatch_iamax_impl]; unfold nrm2_ex, dot_ex, asum_ex, with_scalar;
    rewrite ?Ht; by eexists.
Qed.

Lemma write_dispatch m : is_reduction m = false →
  ∃ r msg ts, d_targets (blas_dispatch m) = (r, msg) :: ts.
Proof. destruct m as [|T o|T []|T []| |]; try destruct o; intros; try done; cbn; eauto. Qed.

(** C22 (only reductions reach cuBLAS): a message sent to a real actor by a client
    that holds its buffers is refused with the first stale buffer's error; a
    reduction is otherwise called with exactly its operands kept alive and its
    result box as the reply, or refused with cuBLAS's status under the entry
    point's name; and every operation that writes a buffer, whatever its operands
    and parameters, is answered that its target has more than one live reference
    and never calls cuBLAS. *)
Theorem blas_outcome answer result_of (m : BlasMsg) (g : Gpu) :
  dispatchable m = true → Forall (holds (heap g)) (d_operands (blas_dispatch m)) →
  let '((st', g'), es) := exec (handle_msg answer result_of m) (Real, g) in
  let ch := d_reply (blas_dispatch m) in
  st' = Real ∧
  match access_list (Envelope.dev g) (d_operands (blas_dispatch m)) with
  | Err e => es = [Reply ch (Err e)] ∧ queue g' = queue g
  | Ok slices =>
    if is_reduction m then
      ∃ c, d_call (blas_dispatch m) = Ok c ∧
        match answer c with
        | Some e => es = [Reply ch (Err (LibraryError LIB (cname c +:+ ": " +:+ e)))]
        | None => es = [Enqueue c] ∧ ∃ op, tasks g' = tasks g ++
            [{| t_op := op; t_keep := slices; t_out := Boxed (result_of c); t_reply := ch; t_trace := None |}]
        end
    else ∃ msg, es = [Reply ch (Err (Unrecoverable msg))] ∧ queue g' = queue g ∧
           msg ∈ (d_targets (blas_dispatch m)).*2
  end.
Proof.
  intros Hd Hh. pose proof (run_dispatch_spec answer result_of _ Real g (dispatch_wf m) Hh) as Hs.
  assert (Hrun : handle_msg answer result_of m (Real, g) = run_dispatch answer result_of (blas_dispatch m) (Real, g)).
  { unfold handle_msg. act_unfold. by destruct (run_dispatch _ _ _ _) as [[[] ?] ?]. }
  unfold exec. rewrite Hrun. unfold awp in Hs.
  destruct (run_dispatch _ _ _ _) as [[[] [st' g']] es]. cbn [fst snd] in Hs.
  destruct Hs as (-> & Hpost & -> & Htask). split; [done|]. revert Hpost Htask. unfold blas_effects.
  destruct (access_list _ _) as [l|e] eqn:Ha; [apply access_list_Ok in Ha as ->|].
  2:{ intros [_ [(? & _)|(op & t & _ & _ & _ & _ & _ & _ & ?)]] _; done. }
  destruct (is_reduction m) eqn:Hred.
  - destruct (reduction_dispatch m Hred Hd) as (-> & Hbox & c & Hc & Herr). rewrite Hc.
    unfold out_value. rewrite Hbox, Hc. intros _ Htask. exists c. split; [done|].
    destruct (answer c) as [e|]; [by rewrite Herr|]. split; [done|]. by apply (Htask c).
  - destruct (write_dispatch m Hred) as (r & msg & ts & ->).
    intros [_ [(? & _)|(op & t & _ & _ & _ & _ & _ & _ & ?)]] _; [|done].
    exists msg. cbn. split_and!; [done|done|by left].
Qed.

Definition blas_device : DeviceState := DeviceState_new 0.
Definition blas_gpu : Gpu :=
  set_heap {[1 := 1; 2 := 1; 3 := 1]} (Gpu_new (Some blas_device)).
Definition buffer (sl : slice_id) : GpuRef := GpuRef_new sl blas_device.
(** A legacy sgemm whose caller holds the only reference of each buffer. *)
Definition sgemm_alone : BlasMsg :=
  Sgemm {| sg_a := buffer 1; sg_b := buffer 2; sg_c := buffer 3; sg_m := 2; sg_n := 2; sg_k := 2;
           sg_alpha := 1; sg_beta := 0; sg_reply := 7 |}.

Lemma blas_outcome_witness :
  ∃ msg, (exec (handle_msg (λ _, None) (λ _, 0%Z) sgemm_alone) (Real, blas_gpu)).2 =
    [Reply 7 (Err (Unrecoverable msg))].
Proof.
  assert (H := blas_outcome (λ _, None) (λ _, 0%Z) sgemm_alone blas_gpu eq_refl).
  destruct (exec _ _) as [[st' g'] es].
  destruct H as (_ & msg & He & _); [|by exists msg]. repeat constructor; vm_compute; lia.
Defined.

(** A half-precision axpy or scal has no scalar type: its enqueue would panic. *)
Example half_axpy_panics : is_ok (scalar_data_type F16) = false ∧ is_ok (scalar_data_type Bf16) = false.
Proof. split; run. Qed.

(** A message that type-checks gives a library call exactly when it is not a
    half-precision axpy or scal. *)
Definition half_scalar (m : BlasMsg) : bool :=
  match m with L1 (F16 | Bf16) (Axpy _ | Scal _) => true | _ => false end.

Lemma blas_call_built m :
  dispatchable m = true → is_ok (d_call (blas_dispatch m)) = negb (half_scalar m).
Proof. destruct m as [|[] o|? []|? []| |]; try destruct o; by vm_compute. Qed.
