(* ===== verification/Fft.v ===== *)
(** * The cuFFT actor and its plan cache

    Models [crates/atomr-accel-cuda/src/kernel/fft.rs].  A plan is the call of
    the safe layer that built it; whether cuFFT builds a plan or accepts an
    execution is a parameter, and so is the hash of the standard library's
    [DefaultHasher].  The plan cache is any [LruOps]. *)

From stdpp Require Import pretty.
From S2P Require Import Prelude Actor Text Lru Errors Dtype DeviceState Envelope.

Definition LIB : string := "cufft".
Definition DEFAULT_CACHE_SIZE : nat := 64.

Inductive FftDirection : Type := Forward | Inverse.
Inductive FftKind : Type := R2C | C2R | C2C | D2Z | Z2D | Z2Z.

#[global] Instance FftKind_eq_dec : EqDecision FftKind.
Proof. solve_decision. Defined.

Definition fft_kind_name (k : FftKind) : string :=
  match k with R2C => "R2C" | C2R => "C2R" | C2C => "C2C" | D2Z => "D2Z" | Z2D => "Z2D" | Z2Z => "Z2Z" end.
Definition cufft_type (k : FftKind) : string := "CUFFT_" +:+ fft_kind_name k.
Definition scalar_dtype (k : FftKind) : DType :=
  match k with R2C | C2R | C2C => F32 | D2Z | Z2D | Z2Z => F64 end.

(** [CUFFT_FORWARD] and [CUFFT_INVERSE] *)
Definition direction_int (d : FftDirection) : Z := match d with Forward => -1 | Inverse => 1 end.

(** ** Plan keys *)

Record PlanKey := {
  rank : Z;
  dims : Z * Z * Z;
  kind : FftKind;
  key_dtype : DType;
  batch : Z;
  many_layout : option Z;
}.

#[global] Instance PlanKey_eq_dec : EqDecision PlanKey.
Proof. solve_decision. Defined.

Definition plan_1d (n : Z) (k : FftKind) (b : Z) : PlanKey :=
  {| rank := 1; dims := (n, 0, 0)%Z; kind := k; key_dtype := scalar_dtype k; batch := b; many_layout := None |}.
Definition plan_2d (nx ny : Z) (k : FftKind) : PlanKey :=
  {| rank := 2; dims := (nx, ny, 0)%Z; kind := k; key_dtype := scalar_dtype k; batch := 1; many_layout := None |}.
Definition plan_3d (nx ny nz : Z) (k : FftKind) : PlanKey :=
  {| rank := 3; dims := (nx, ny, nz); kind := k; key_dtype := scalar_dtype k; batch := 1; many_layout := None |}.

(** [{key:?}] *)
Definition debug_dtype (d : DType) : string := match d with F32 => "F32" | _ => "F64" end.
Definition debug_plan_key (k : PlanKey) : string :=
  let '(x, y, z) := dims k in
  "PlanKey { rank: " +:+ pretty (rank k) +:+ ", dims: [" +:+ pretty x +:+ ", " +:+ pretty y +:+ ", " +:+
  pretty z +:+ "], kind: " +:+ fft_kind_name (kind k) +:+ ", dtype: " +:+ debug_dtype (key_dtype k) +:+
  ", batch: " +:+ pretty (batch k) +:+ ", many_layout: " +:+
  (match many_layout k with None => "None" | Some s => "Some(" +:+ pretty s +:+ ")" end) +:+ " }".

Record FftPlanMany := {
  m_rank : Z; m_dims : Z * Z * Z;
  in_embed : option (Z * Z * Z); in_stride : Z; in_dist : Z;
  out_embed : option (Z * Z * Z); out_stride : Z; out_dist : Z;
  m_kind : FftKind; m_batch : Z;
}.

(** What [hash] feeds to the hasher: an [i32] as its four bytes; an array as its
    length and its elements; an option as its discriminant and its content. *)
Definition i32_bytes : Z → list Z := int_bytes 4.
Definition dims_bytes (d : Z * Z * Z) : list Z :=
  let '(x, y, z) := d in le_bytes 8 3 ++ i32_bytes x ++ i32_bytes y ++ i32_bytes z.
Definition embed_bytes (e : option (Z * Z * Z)) : list Z :=
  match e with None => le_bytes 8 0 | Some d => le_bytes 8 1 ++ dims_bytes d end.
Definition layout_bytes (b : FftPlanMany) : list Z :=
  embed_bytes (in_embed b) ++ i32_bytes (in_stride b) ++ i32_bytes (in_dist b) ++
  embed_bytes (out_embed b) ++ i32_bytes (out_stride b) ++ i32_bytes (out_dist b).

(** ** Plans *)

(** A call that builds a plan; its arguments are numbers and tags. *)
Record PlanCall := { pname : string; pargs : list (Z + string) }.
Definition parg (a : Z + string) : Arg := match a with inl x => AInt x | inr t => ATag t end.
Definition plan_args (p : PlanCall) : list Arg := ATag (pname p) :: (parg <$> pargs p).
Definition plan_as_call (p : PlanCall) : Call := {| cname := pname p; cargs := parg <$> pargs p |}.

Definition build_simple_plan (k : PlanKey) : PlanCall :=
  let '(x, y, z) := dims k in
  let t := inr (cufft_type (kind k)) in
  if (rank k =? 1)%Z then {| pname := "plan_1d"; pargs := [inl x; t; inl (batch k)] |}
  else if (rank k =? 2)%Z then {| pname := "plan_2d"; pargs := [inl x; inl y; t] |}
  else if (rank k =? 3)%Z then {| pname := "plan_3d"; pargs := [inl x; inl y; inl z; t] |}
  else {| pname := "plan_1d"; pargs := [inl 1%Z; t; inl 1%Z] |}.

(** The first [rank] of three numbers; beyond three the slice index panics. *)
Definition first_dims (r : Z) (d : Z * Z * Z) : list (Z + string) :=
  let '(x, y, z) := d in take (Z.to_nat r) [inl x; inl y; inl z].
Definition embed_args (r : Z) (e : option (Z * Z * Z)) : list (Z + string) :=
  match e with None => [inr "null"] | Some d => first_dims r d end.
Definition build_plan_many (b : FftPlanMany) : result PlanCall string :=
  if (3 <? m_rank b)%Z then
    Err ("range end index " +:+ pretty (m_rank b) +:+ " out of range for slice of length 3")
  else Ok {| pname := "plan_many";
    pargs := first_dims (m_rank b) (m_dims b) ++ embed_args (m_rank b) (in_embed b) ++
      [inl (in_stride b); inl (in_dist b)] ++ embed_args (m_rank b) (out_embed b) ++
      [inl (out_stride b); inl (out_dist b); inr (cufft_type (m_kind b)); inl (m_batch b)] |}.

(** ** Messages *)

(** [FftRequest<T, I, O>]; the types are phantom. *)
Record FftRequest := {
  plan_key : PlanKey; direction : FftDirection; input : GpuRef; output : GpuRef; fft_reply : nat;
}.

Inductive FftMsg : Type :=
  | Exec (r : FftRequest)
  | Forward1dR2C (n batch : Z) (src dst : GpuRef) (reply : nat)
  | Inverse1dC2R (n batch : Z) (src dst : GpuRef) (reply : nat)
  | Exec1dC2C (n batch : Z) (dir : FftDirection) (src dst : GpuRef) (reply : nat)
  | Forward2dR2C (nx ny : Z) (src dst : GpuRef) (reply : nat).

Definition msg_key (m : FftMsg) : PlanKey :=
  match m with
  | Exec r => plan_key r
  | Forward1dR2C n b _ _ _ => plan_1d n R2C b
  | Inverse1dC2R n b _ _ _ => plan_1d n C2R b
  | Exec1dC2C n b _ _ _ _ => plan_1d n C2C b
  | Forward2dR2C nx ny _ _ _ => plan_2d nx ny R2C
  end.
Definition msg_src (m : FftMsg) : GpuRef :=
  match m with
  | Exec r => input r
  | Forward1dR2C _ _ s _ _ | Inverse1dC2R _ _ s _ _ | Exec1dC2C _ _ _ s _ _ | Forward2dR2C _ _ s _ _ => s
  end.
Definition msg_dst (m : FftMsg) : GpuRef :=
  match m with
  | Exec r => output r
  | Forward1dR2C _ _ _ d _ | Inverse1dC2R _ _ _ d _ | Exec1dC2C _ _ _ _ d _ | Forward2dR2C _ _ _ d _ => d
  end.
Definition msg_reply (m : FftMsg) : nat :=
  match m with
  | Exec r => fft_reply r
  | Forward1dR2C _ _ _ _ c | Inverse1dC2R _ _ _ _ c | Exec1dC2C _ _ _ _ _ c | Forward2dR2C _ _ _ _ c => c
  end.

(** [exec_kernel] *)
Definition exec_call (plan : PlanCall) (k : FftKind) (d : FftDirection) (src dst : GpuRef) : Call :=
  {| cname := "cufftExec" +:+ fft_kind_name k;
     cargs := plan_args plan ++ [ADev (slice src); ADev (slice dst)] ++
       match k with C2C | Z2Z => [AInt (direction_int d)] | _ => [] end |}.

(** The legacy variants' targets, with their messages, in the order they are
    unwrapped, and the name in the error. *)
Definition legacy_targets (m : FftMsg) : list (GpuRef * string) :=
  match m with
  | Exec _ => []
  | Forward1dR2C _ _ _ d _ => [(d, "FFT dst has multiple live references")]
  | Inverse1dC2R _ _ s d _ =>
    [(s, "FFT C2R src has multiple live references"); (d, "FFT C2R dst has multiple live references")]
  | Exec1dC2C _ _ _ s d _ =>
    [(s, "FFT C2C src has multiple live references"); (d, "FFT C2C dst has multiple live references")]
  | Forward2dR2C _ _ _ d _ => [(d, "FFT 2D dst has multiple live references")]
  end.
Definition exec_label (m : FftMsg) : string :=
  match m with
  | Exec r => "exec_" +:+ fft_kind_name (kind (plan_key r))
  | Forward1dR2C _ _ _ _ _ => "exec_r2c"
  | Inverse1dC2R _ _ _ _ _ => "exec_c2r"
  | Exec1dC2C _ _ _ _ _ _ => "exec_c2c"
  | Forward2dR2C _ _ _ _ _ => "exec_r2c (2d)"
  end.
Definition msg_direction (m : FftMsg) : FftDirection :=
  match m with Exec r => direction r | Exec1dC2C _ _ d _ _ _ => d | _ => Forward end.
Definition msg_call (plan : PlanCall) (m : FftMsg) : Call :=
  exec_call plan (kind (msg_key m)) (msg_direction m) (msg_src m) (msg_dst m).

(** ** The actor *)

Inductive FftInner (C : Type) : Type := Real (plans : C) | Mock.
Arguments Real {C} _.
Arguments Mock {C}.

Section actor.
Context {C : Type} `{!LruOps PlanKey PlanCall C}.
(** What cuFFT says to a plan's construction and to an execution. *)
Context (plan_answer : PlanCall → option string) (answer : Call → option string).
(** [DefaultHasher::new()] fed with bytes. *)
Context (sip : list Z → Z).

Abbreviation kact := (act (FftInner C * Gpu) KEff).

Definition layout_seed (b : FftPlanMany) : Z := sip (layout_bytes b).
Definition many_key (b : FftPlanMany) : PlanKey :=
  {| rank := m_rank b; dims := m_dims b; kind := m_kind b; key_dtype := scalar_dtype (m_kind b);
     batch := m_batch b; many_layout := Some (layout_seed b) |}.

Definition set_plans (c : C) : kact unit := modify (λ s, (Real c, s.2)).

(** Look the key up; on a miss build, wrap the error, and insert. *)
Definition get_or_build (key : PlanKey) (label : string) (build : result PlanCall string) :
    kact (result PlanCall GpuError) :=
  s ← get;
  match s.1 with
  | Mock => mret (Err (Unrecoverable "fft mock"))
  | Real plans =>
    let oc := lru_get key plans in
    set_plans oc.2;;
    match oc.1 with
    | Some plan => mret (Ok plan)
    | None =>
      match build with
      | Err p => emit (Panicked p);; mret (Err (Unrecoverable p))
      | Ok plan =>
        match plan_answer plan with
        | Some e => mret (Err (LibraryError LIB (label +:+ " " +:+ debug_plan_key key +:+ ": " +:+ e)))
        | None =>
          emit (Built (plan_as_call plan));;
          set_plans (lru_put key plan oc.2);;
          mret (Ok plan)
        end
      end
    end
  end.

Definition get_or_create_plan (key : PlanKey) : kact (result PlanCall GpuError) :=
  get_or_build key "plan" (Ok (build_simple_plan key)).
(** [ensure_plan_many] *)
Definition ensure_plan_many (b : FftPlanMany) : kact (result PlanCall GpuError) :=
  get_or_build (many_key b) "plan_many" (build_plan_many b).

Definition run_plan (m : FftMsg) (plan : PlanCall) : kact unit :=
  kernel_request answer LIB [msg_src m; msg_dst m] (legacy_targets m) [slice (msg_dst m)]
    (λ e, LibraryError LIB (exec_label m +:+ ": " +:+ e)) (Ok (msg_call plan m)) Done (msg_reply m).

(** [reply_mock] *)
Definition reply_mock (m : FftMsg) : kact unit :=
  match m with
  | Exec r => emit (DropSender (fft_reply r))
  | _ => emit (Reply (msg_reply m) (Err (Unrecoverable "FftActor in mock mode")))
  end.

(** A plan that cannot be built: [Exec] dispatches with a sentinel plan, the legacy
    variants reply with the error. *)
Definition no_plan (m : FftMsg) (e : GpuError) : kact unit :=
  match m with
  | Exec r => emit (Reply (fft_reply r) (Err (Unrecoverable "FftDispatchCtx.plan downcast to CudaFft failed")))
  | _ => emit (Reply (msg_reply m) (Err e))
  end.

Definition fft_handle (m : FftMsg) : kact unit :=
  s ← get;
  match s.1 with
  | Mock => reply_mock m
  | Real _ =>
    r ← get_or_create_plan (msg_key m);
    match r with
    | Err e => no_plan m e
    | Ok plan => run_plan m plan
    end
  end.

#[global] Instance fft_actor : KernelActor (S := FftInner C) FftMsg := {|
  operands m := [msg_src m; msg_dst m];
  reply_of := msg_reply;
  khandle := fft_handle;
|}.
End actor.

(** ** Keys *)

Definition i32 : Z → Prop := signed 32.
Definition dims_i32 (d : Z * Z * Z) : Prop := let '(x, y, z) := d in i32 x ∧ i32 y ∧ i32 z.
Definition embed_i32 (e : option (Z * Z * Z)) : Prop := match e with None => True | Some d => dims_i32 d end.
Definition many_i32 (b : FftPlanMany) : Prop :=
  embed_i32 (in_embed b) ∧ i32 (in_stride b) ∧ i32 (in_dist b) ∧
  embed_i32 (out_embed b) ∧ i32 (out_stride b) ∧ i32 (out_dist b).

#[global] Instance i32_code : Code i32 i32_bytes.
Proof. apply (int_code 4). Qed.

#[global] Instance dims_code : Code dims_i32 dims_bytes.
Proof.
  intros [[x y] z] [[x' y'] z'] s t (Hx & Hy & Hz) (Hx' & Hy' & Hz'). unfold dims_bytes.
  rewrite <-!app_assoc. intros He%app_inv_head.
  apply i32_code in He as [-> He]; [|done..]. apply i32_code in He as [-> He]; [|done..].
  by apply i32_code in He as [-> ->].
Qed.

#[global] Instance embed_code : Code embed_i32 embed_bytes.
Proof.
  assert (H01 : ∀ s t, le_bytes 8 0 ++ s = le_bytes 8 1 ++ t → False) by (intros s t He; vm_compute in He; done).
  intros [d|] [d'|] s t Hd Hd' He; unfold embed_bytes in He; rewrite <-?app_assoc in He.
  - apply app_inv_head in He. by apply dims_code in He as [-> ->].
  - symmetry in He. by apply H01 in He.
  - by apply H01 in He.
  - by apply app_inv_head in He as ->.
Qed.

Lemma layout_bytes_inj b b' :
  many_i32 b → many_i32 b' → layout_bytes b = layout_bytes b' →
  in_embed b = in_embed b' ∧ in_stride b = in_stride b' ∧ in_dist b = in_dist b' ∧
  out_embed b = out_embed b' ∧ out_stride b = out_stride b' ∧ out_dist b = out_dist b'.
Proof.
  intros (?&?&?&?&?&?) (?&?&?&?&?&?). unfold layout_bytes. intros He.
  apply embed_code in He as [-> He]; [|done..]. apply i32_code in He as [-> He]; [|done..].
  apply i32_code in He as [-> He]; [|done..]. apply embed_code in He as [-> He]; [|done..].
  apply i32_code in He as [-> He]; [|done..].
  assert (out_dist b = out_dist b'); [|done].
  rewrite <-(app_nil_r (i32_bytes (out_dist b))), <-(app_nil_r (i32_bytes (out_dist b'))) in He.
  by apply i32_code in He as [-> _].
Qed.

(** A layout's key determines the layout, as far as the hash does. *)
Lemma many_key_inj sip b b' :
  many_i32 b → many_i32 b' → (sip (layout_bytes b) = sip (layout_bytes b') → layout_bytes b = layout_bytes b') →
  many_key sip b = many_key sip b' → b = b'.
Proof.
  intros Hb Hb' Hsip Hk. unfold many_key, layout_seed in Hk. injection Hk as ??? _ ? Hs.
  destruct (layout_bytes_inj b b' Hb Hb' (Hsip Hs)) as (?&?&?&?&?&?). destruct b, b'; simpl in *. by subst.
Qed.

(** No layout shares its key with a simple plan. *)
Lemma many_key_not_simple sip b k : many_layout k = None → many_key sip b ≠ k.
Proof. intros Hk He. by rewrite <-He in Hk. Qed.

(** ** What the actor does with a message *)

Section laws.
Context {C : Type} `{HL : LruLaws PlanKey PlanCall C}.
Context (plan_answer : PlanCall → option string) (answer : Call → option string).

(** The plan of a key: the cached one, or the one built for it. *)
Definition resolve_plan (c : C) (k : PlanKey) : result PlanCall string :=
  match entry_find k (lru_entries c) with
  | Some p => Ok p
  | None => match plan_answer (build_simple_plan k) with
            | Some e => Err e
            | None => Ok (build_simple_plan k)
            end
  end.

Definition plan_error (k : PlanKey) (e : string) : GpuError :=
  LibraryError LIB ("plan " +:+ debug_plan_key k +:+ ": " +:+ e).

(** The cache is the memo of [build_simple_plan] as long as every build succeeds. *)
Lemma get_or_create_plan_spec (c : C) k (g : Gpu) :
  awp (get_or_create_plan plan_answer k) (λ r st es,
    st.2 = g ∧ (∃ c', st.1 = Real c' ∧
      (plan_answer (build_simple_plan k) = None → memo id build_simple_plan k c = (
         if entry_find k (lru_entries c) is Some _ then false else true, c'))) ∧
    r = (match resolve_plan c k with Ok p => Ok p | Err e => Err (plan_error k e) end) ∧
    es = (match entry_find k (lru_entries c), plan_answer (build_simple_plan k) with
          | None, None => [Built (plan_as_call (build_simple_plan k))] | _, _ => [] end)) (Real c, g).
Proof.
  unfold get_or_create_plan, get_or_build, set_plans, resolve_plan, memo. awp_steps. cbn [fst snd id].
  destruct (entry_find k (lru_entries c)) as [p|] eqn:Hf.
  - destruct (lru_get_hit c k p Hf) as (Hg & _ & _). destruct (lru_get k c) as [o c1]. cbn in Hg. subst o.
    cbn [fst snd]. awp_steps. split_and!; eauto.
  - rewrite (lru_get_miss c k Hf). cbn [fst snd]. awp_steps.
    destruct (plan_answer (build_simple_plan k)) as [e|]; awp_steps; split_and!; eauto; by eexists.
Qed.

(** What a message of a real actor does, on every branch. *)
Definition fft_effects (c : C) (g : Gpu) (m : FftMsg) : list KEff :=
  match resolve_plan c (msg_key m) with
  | Err e =>
    [Reply (msg_reply m) (Err
       match m with
       | Exec _ => Unrecoverable "FftDispatchCtx.plan downcast to CudaFft failed"
       | _ => plan_error (msg_key m) e
       end)]
  | Ok plan =>
    (if entry_find (msg_key m) (lru_entries c) is None then [Built (plan_as_call plan)] else []) ++
    match access_list (dev g) [msg_src m; msg_dst m] with
    | Err e => [Reply (msg_reply m) (Err e)]
    | Ok _ =>
      match m, legacy_targets m with
      | Exec r, _ =>
        RecordWrite (slice (output r)) ::
        match answer (msg_call plan m) with
        | Some e => [Reply (fft_reply r) (Err (LibraryError LIB
            ("exec_" +:+ fft_kind_name (kind (plan_key r)) +:+ ": " +:+ e)))]
        | None => [Enqueue (msg_call plan m)]
        end
      | _, (_, msg) :: _ => [Reply (msg_reply m) (Err (Unrecoverable msg))]
      | _, [] => []
      end
    end
  end.

Lemma msg_call_slices plan m :
  call_slices (msg_call plan m) = [slice (msg_src m); slice (msg_dst m)].
Proof.
  unfold call_slices, msg_call, exec_call, plan_args. cbn [cargs].
  rewrite !omap_app. cbn [omap list_omap].
  assert (Hp : ∀ l, omap (λ a, match a with ADev sl => Some sl | _ => None end) (parg <$> l) = []).
  { induction l as [|[] l IH]; done. }
  change (list_omap _ _ _ (parg <$> pargs plan)) with
    (omap (λ a, match a with ADev sl => Some sl | _ => None end) (parg <$> pargs plan)).
  rewrite Hp. by destruct (kind (msg_key m)).
Qed.

Lemma fft_handle_spec (c : C) m (g : Gpu) :
  Forall (holds (heap g)) [msg_src m; msg_dst m] →
  awp (fft_handle plan_answer answer m) (λ _ st es,
    (∃ c', st.1 = Real c' ∧
      (plan_answer (build_simple_plan (msg_key m)) = None → memo id build_simple_plan (msg_key m) c = (
         if entry_find (msg_key m) (lru_entries c) is Some _ then false else true, c'))) ∧
    kpost (msg_reply m) g st.2 es ∧ es = fft_effects c g m) (Real c, g).
Proof.
  intros Hh. unfold fft_handle. awp_steps. cbn [fst snd]. awp_steps.
  eapply awp_mono, get_or_create_plan_spec. intros r [st1 g1] e1 (Hg & (c' & Hst & Hmemo) & -> & ->).
  cbn in Hg, Hst. subst. unfold fft_effects.
  assert (He : ∀ p, resolve_plan c (msg_key m) = Ok p →
    match entry_find (msg_key m) (lru_entries c), plan_answer (build_simple_plan (msg_key m)) with
    | None, None => [Built (plan_as_call (build_simple_plan (msg_key m)))] | _, _ => [] end =
    if entry_find (msg_key m) (lru_entries c) is None then [Built (plan_as_call p)] else []).
  { intros p. unfold resolve_plan. destruct (entry_find _ _); [done|]. by destruct (plan_answer _); intros [= <-]. }
  assert (He' : ∀ e, resolve_plan c (msg_key m) = Err e →
    match entry_find (msg_key m) (lru_entries c), plan_answer (build_simple_plan (msg_key m)) with
    | None, None => [Built (plan_as_call (build_simple_plan (msg_key m)))] | _, _ => [] end = []).
  { intros e. unfold resolve_plan. destruct (entry_find _ _); [done|]. by destruct (plan_answer _). }
  destruct (resolve_plan c (msg_key m)) as [plan|e].
  - rewrite (He plan eq_refl). clear He He'. unfold run_plan.
    eapply awp_mono, kernel_request_spec; [|done|destruct m; cbn; set_solver|].
    2:{ intros c0 [= <-]. by rewrite msg_call_slices. }
    intros _ [st2 g2] e2 (Hst2 & Hk & Heff). cbn in Hst2, Hk. subst. split_and!; [eauto| |].
    + destruct Hk as [Hr Hk]. split; [done|]. cbn [snd].
      destruct (entry_find _ _); [done|]. exact Hk.
    + f_equal. destruct (access_list _ _); [|done]. destruct m; try exact Heff. cbn in Heff.
      destruct (answer _); [done|]. by destruct Heff as [-> _].
  - rewrite (He' e eq_refl). clear He He'. unfold no_plan.
    destruct m; awp_steps; (split_and!; [eauto| |done]); (split; [done|]); by left.
Qed.

#[global] Instance fft_law : @KernelLaw (FftInner C) FftMsg (fft_actor plan_answer answer).
Proof.
  intros m [c|] g Hh; cbn [khandle fft_actor reply_of operands] in *.
  - eapply awp_mono, fft_handle_spec; [|done]. cbn. tauto.
  - unfold fft_handle. awp_steps. cbn [fst].
    destruct m; awp_steps; (split; [done|]); by left.
Qed.

(** The cache and the plans built, whatever happens to the request itself. *)
Lemma fft_handle_memo (c : C) m (g : Gpu) :
  plan_answer (build_simple_plan (msg_key m)) = None →
  awp (fft_handle plan_answer answer m) (λ _ st es,
    let '(b, c') := memo msg_key (λ m, build_simple_plan (msg_key m)) m c in
    st.1 = Real c' ∧ omap built es = if b then [plan_as_call (build_simple_plan (msg_key m))] else []) (Real c, g).
Proof.
  intros Hb. unfold fft_handle. awp_steps. cbn [fst snd]. awp_steps.
  eapply awp_mono, get_or_create_plan_spec. intros r [st1 g1] e1 (_ & (c' & Hst & Hmemo) & Hr & ->).
  cbn [fst] in Hst. subst st1.
  change (memo msg_key _ m c) with (memo id build_simple_plan (msg_key m) c). rewrite (Hmemo Hb). rewrite Hb in *.
  unfold resolve_plan in Hr. rewrite Hb in Hr.
  destruct (entry_find (msg_key m) (lru_entries c)) as [p|]; subst r;
    (eapply awp_mono; [|apply kernel_request_quiet]); intros _ st2 e2 [-> He2];
    by rewrite ?omap_app, He2.
Qed.

#[global] Instance fft_mailbox : Actor (FftInner C * Gpu) FftMsg KEff :=
  λ s m, exec (fft_handle plan_answer answer m) s.

Lemma fft_run_memo ms (c : C) (g : Gpu) :
  (∀ k, plan_answer (build_simple_plan k) = None) →
  let '(l, c') := memo_run msg_key (λ m, build_simple_plan (msg_key m)) c ms in
  (run_actor (Real c, g) ms).1.1 = Real c' ∧
  omap built (run_actor (Real c, g) ms).2 = (λ m, plan_as_call (build_simple_plan (msg_key m))) <$> l.
Proof.
  intros Hb. revert c g. induction ms as [|m ms IH]; intros c g; [done|]. cbn [memo_run run_actor].
  pose proof (fft_handle_memo c m g (Hb _)) as Hm. unfold handle, fft_mailbox, exec.
  unfold awp in Hm. destruct (fft_handle _ _ m _) as [[[] [s1 g1]] e1].
  destruct (memo _ _ m c) as [b c1]. cbn [fst] in Hm. destruct Hm as [-> He].
  specialize (IH c1 g1). destruct (memo_run _ _ c1 ms) as [l c2].
  destruct (run_actor (Real c1, g1) ms) as [[s2 g2] e2]. cbn [fst snd] in *. destruct IH as [-> He2].
  split; [done|]. rewrite omap_app, He, He2. by destruct b.
Qed.
End laws.

(** ** The theorems *)

(** Each plan is built once and serves its own key: a fresh cuFFT actor that
    receives any messages, of at most 64 distinct plan keys, for which cuFFT can
    build plans, builds the plan of a key when its first message arrives and never
    again, in the order the keys appear; afterwards every key that occurred is
    cached with the plan described by that key. *)
Theorem fft_plans_once {C : Type} `{LruLaws PlanKey PlanCall C} plan_answer answer (ms : list FftMsg) (ks : list PlanKey) g :
  (∀ k, plan_answer (build_simple_plan k) = None) →
  length ks ≤ DEFAULT_CACHE_SIZE → (∀ m, m ∈ ms → msg_key m ∈ ks) →
  let fresh : FftInner C := Real (lru_new DEFAULT_CACHE_SIZE) in
  let '((st, _), es) := run_actor (Actor0 := fft_mailbox plan_answer answer) (fresh, g) ms in
  omap built es = (λ m, plan_as_call (build_simple_plan (msg_key m))) <$> firsts msg_key [] ms ∧
  ∃ c, st = Real c ∧ ∀ k, entry_find k (lru_entries c) =
    if decide (k ∈ msg_key <$> ms) then Some (build_simple_plan k) else None.
Proof.
  intros Hb Hks Hms fresh. pose proof (fft_run_memo plan_answer answer ms (lru_new (C := C) DEFAULT_CACHE_SIZE) g Hb) as Hrun.
  destruct (lru_entries_new (C := C) DEFAULT_CACHE_SIZE) as [He Hc].
  destruct (memo_run_spec msg_key (λ m, build_simple_plan (msg_key m)) ks (lru_new (C := C) DEFAULT_CACHE_SIZE) ms)
    as (Hl & _ & Hf); [apply lru_new_wf|by rewrite Hc| |].
  { intros k. rewrite He. cbn. by intros (m & -> & Hm)%list_elem_of_fmap; apply Hms. }
  rewrite He in Hl, Hf. destruct (memo_run _ _ _ ms) as [l c]. cbn [fst snd] in Hl, Hf.
  unfold fresh. destruct (run_actor _ ms) as [[st g'] es]. cbn [fst snd] in Hrun. destruct Hrun as [-> ->].
  split; [by rewrite Hl|]. exists c. split; [done|]. intros k. rewrite Hf. cbn.
  destruct (find _ ms) as [m|] eqn:Hfind.
  - apply find_some in Hfind as [Hin Hk%bool_decide_eq_true]. subst k.
    rewrite decide_True by (by apply list_elem_of_fmap_2, list_elem_of_In). done.
  - rewrite decide_False; [done|]. intros (m & -> & Hm)%list_elem_of_fmap.
    apply list_elem_of_In in Hm. by apply (find_none _ _ Hfind), bool_decide_eq_false in Hm.
Qed.

Definition fft_device : DeviceState := DeviceState_new 0.
Definition fft_buf (sl : slice_id) : GpuRef := GpuRef_new sl fft_device.
Definition fft_gpu : Gpu := set_heap {[1 := 1; 2 := 1]} (Gpu_new (Some fft_device)).
Definition fft_req (n : Z) (ch : nat) : FftMsg :=
  Exec {| plan_key := plan_1d n C2C 1; direction := Forward; input := fft_buf 1; output := fft_buf 2;
          fft_reply := ch |}.

Lemma fft_plans_once_witness :
  omap built (run_actor (Actor0 := fft_mailbox (C := ListLru PlanKey PlanCall) (λ _, None) (λ _, None))
    (Real (lru_new DEFAULT_CACHE_SIZE), fft_gpu) [fft_req 8 1; fft_req 16 2; fft_req 8 3]).2 =
  [plan_as_call (build_simple_plan (plan_1d 8 C2C 1)); plan_as_call (build_simple_plan (plan_1d 16 C2C 1))].
Proof.
  pose proof (fft_plans_once (C := ListLru PlanKey PlanCall) (λ _, None) (λ _, None)
    [fft_req 8 1; fft_req 16 2; fft_req 8 3] [plan_1d 8 C2C 1; plan_1d 16 C2C 1] fft_gpu (λ _, eq_refl)) as H.
  cbn zeta in H. destruct (run_actor _ _) as [[st g'] es]. destruct H as [He _].
  - cbn. unfold DEFAULT_CACHE_SIZE. lia.
  - intros m. rewrite !elem_of_cons. intros [->|[->|[->|Hm]]]; [set_solver..|by apply not_elem_of_nil in Hm].
  - cbn [snd]. rewrite He. run.
Defined.

(** What an FFT message does, on every branch: with the plan resolved from the
    cache or built, an [Exec] request checks both buffers, marks the output
    written and calls cuFFT with that plan in the request's direction, or answers
    its refusal; a plan that cannot be built is answered with the sentinel's error
    for [Exec] and with cuFFT's for the legacy messages; and a legacy message never
    reaches cuFFT: its target always has another live reference. *)
Theorem fft_outcome {C : Type} `{LruLaws PlanKey PlanCall C} plan_answer answer (c : C) (m : FftMsg) (g : Gpu) :
  holds (heap g) (msg_src m) → holds (heap g) (msg_dst m) →
  let es := (exec (fft_handle plan_answer answer m) (Real c, g)).2 in
  match resolve_plan plan_answer c (msg_key m) with
  | Err e => es = [Reply (msg_reply m) (Err
      (if m is Exec _ then Unrecoverable "FftDispatchCtx.plan downcast to CudaFft failed"
       else plan_error (msg_key m) e))]
  | Ok plan =>
    match access_list (dev g) [msg_src m; msg_dst m] with
    | Err e => Reply (msg_reply m) (Err e) ∈ es
    | Ok _ =>
      match m with
      | Exec r =>
        RecordWrite (slice (output r)) ∈ es ∧
        match answer (exec_call plan (kind (plan_key r)) (direction r) (input r) (output r)) with
        | None => Enqueue (exec_call plan (kind (plan_key r)) (direction r) (input r) (output r)) ∈ es
        | Some e => Reply (fft_reply r)
            (Err (LibraryError LIB ("exec_" +:+ fft_kind_name (kind (plan_key r)) +:+ ": " +:+ e))) ∈ es
        end
      | _ => (∃ msg, Reply (msg_reply m) (Err (Unrecoverable msg)) ∈ es) ∧ ∀ call, Enqueue call ∉ es
      end
    end
  end.
Proof.
  intros Hs Hd es. pose proof (fft_handle_spec plan_answer answer c m g) as Hspec.
  assert (es = fft_effects plan_answer answer c g m) as ->.
  { unfold es, exec. unfold awp in Hspec. destruct (fft_handle _ _ _ _) as [[[] st] es0].
    apply Hspec. by repeat constructor. }
  clear Hspec. unfold fft_effects. destruct (resolve_plan _ _ _) as [plan|e]; [|by destruct m].
  assert (Hb : ∀ call, Enqueue call ∉ (if entry_find (msg_key m) (lru_entries c) is None
    then [Built (plan_as_call plan)] else [])).
  { intros call. destruct (entry_find _ _); set_solver. }
  set (pre := if entry_find _ _ is None then _ else _) in *. clearbody pre.
  destruct (access_list _ _); [|set_solver].
  assert (Hleg : ∀ ch msg, let l := pre ++ [Reply ch (Err (Unrecoverable msg))] in
    (∃ msg', Reply ch (Err (Unrecoverable msg')) ∈ l) ∧ ∀ call, Enqueue call ∉ l).
  { intros ch msg l. split; [exists msg; set_solver|]. intros call. specialize (Hb call). set_solver. }
  destruct m; cbn [legacy_targets]; try apply Hleg.
  split; [set_solver|]. unfold msg_call. cbn [msg_key msg_direction msg_src msg_dst].
  destruct (answer _); set_solver.
Qed.

Lemma fft_outcome_witness :
  Enqueue (exec_call (build_simple_plan (plan_1d 8 C2C 1)) C2C Forward (fft_buf 1) (fft_buf 2)) ∈
    (exec (fft_handle (C := ListLru PlanKey PlanCall) (λ _, None) (λ _, None) (fft_req 8 1))
      (Real (lru_new DEFAULT_CACHE_SIZE), fft_gpu)).2.
Proof.
  pose proof (fft_outcome (C := ListLru PlanKey PlanCall) (λ _, None) (λ _, None) (lru_new DEFAULT_CACHE_SIZE)
    (fft_req 8 1) fft_gpu) as H.
  cbn zeta in H. apply H; unfold holds; vm_compute; lia.
Defined.

(** The key of a [FftPlanMany] layout, sent in an [Exec] request, is built as a
    simple plan, never as the layout's. *)
Lemma many_key_builds_simple sip b p :
  build_plan_many b = Ok p → pname p = "plan_many" ∧ pname (build_simple_plan (many_key sip b)) ≠ "plan_many".
Proof.
  unfold build_plan_many. destruct (3 <? m_rank b)%Z; [done|]. intros [= <-]. split; [done|].
  unfold build_simple_plan. cbn [many_key dims rank]. destruct (m_dims b) as [[x y] z].
  by repeat case_match.
Qed.
