(* ===== verification/BlasLt.v ===== *)
(** * cuBLASLt: workspace pool, epilogues, heuristic cache and actor

    Models [crates/atomr-accel-cuda/src/kernel/blas_lt] ([workspace.rs],
    [epilogue.rs], [heuristic.rs], [matmul.rs] and [mod.rs]).  A slab is an
    identity and a length; what the driver answers to an allocation comes with it,
    and it does not hand out more memory than there are addresses.  The heuristic
    cache is any [LruOps].  The actor is an instance of [Envelope.v]. *)

From stdpp Require Import pretty.
From S2P Require Import Prelude Actor Lru Errors Dtype DeviceState Envelope.

(** ** The workspace pool *)

Module Workspace.

Definition DEFAULT_POOL_CAPACITY_PER_CLASS : nat := 4.

Definition size_class (bytes : Z) : Z := next_power_of_two (Z.max bytes 1024).

Record Slab := { slab_id : nat; slab_len : Z }.
Record WorkspaceLease := { slab : Slab; class : Z }.

Record WorkspacePool := { free : gmap Z (list Slab); per_class_capacity : nat; bytes_pooled : Z }.
Definition with_capacity (per_class : nat) : WorkspacePool :=
  {| free := ∅; per_class_capacity := per_class `max` 1; bytes_pooled := 0 |}.
Definition WorkspacePool_new : WorkspacePool := with_capacity DEFAULT_POOL_CAPACITY_PER_CLASS.

Definition saturating_add (x y : Z) : Z := Z.min (x + y) (2 ^ 64 - 1).

(** [Vec::pop] *)
Definition pop {A} (l : list A) : option (A * list A) :=
  match rev l with [] => None | x :: r => Some (x, rev r) end.

(** [acquire]; the answer is that of [stream.alloc], consulted when no slab of the
    class is free. *)
Definition ws_acquire (requested : Z) (answer : result nat string) (p : WorkspacePool) :
    result WorkspaceLease GpuError * WorkspacePool :=
  let c := size_class (Z.max requested 1) in
  match pop (default [] (free p !! c)) with
  | Some (s, rest) =>
    (Ok {| slab := s; class := c |},
     {| free := <[c := rest]> (free p); per_class_capacity := per_class_capacity p;
        bytes_pooled := sat_sub (bytes_pooled p) (slab_len s) |})
  | None =>
    (match answer with
     | Ok i => Ok {| slab := {| slab_id := i; slab_len := c |}; class := c |}
     | Err e => Err (OutOfMemory ("cublaslt workspace alloc " +:+ pretty c +:+ "B: " +:+ e))
     end, p)
  end.

(** The drop of a lease, with the slabs whose memory is freed. *)
Definition drop_lease (l : WorkspaceLease) (p : WorkspacePool) : WorkspacePool * list Slab :=
  let bucket := default [] (free p !! class l) in
  if length bucket <? per_class_capacity p then
    ({| free := <[class l := bucket ++ [slab l]]> (free p); per_class_capacity := per_class_capacity p;
        bytes_pooled := saturating_add (bytes_pooled p) (slab_len (slab l)) |}, [])
  else
    ({| free := <[class l := bucket]> (free p); per_class_capacity := per_class_capacity p;
        bytes_pooled := bytes_pooled p |}, [slab l]).

Definition all_slabs (m : gmap Z (list Slab)) : list Slab := mjoin (map_to_list m).*2.
Definition pooled_slabs (p : WorkspacePool) : nat := length (all_slabs (free p)).
Definition pooled_bytes (p : WorkspacePool) : Z := bytes_pooled p.

(** *** Executions: the pool, and the leases that are held *)

Record World := { pool : WorkspacePool; leases : list WorkspaceLease }.

Definition bytes (l : list Slab) : Z := foldr (λ s n, slab_len s + n)%Z 0%Z l.
Definition held (w : World) : list Slab := all_slabs (free (pool w)) ++ (slab <$> leases w).

(** A step, with the slabs the driver allocated and those freed. *)
Inductive ws_step : World → list Slab → list Slab → World → Prop :=
  | WPooled requested answer w l p :
      pop (default [] (free (pool w) !! size_class (Z.max requested 1))) ≠ None →
      ws_acquire requested answer (pool w) = (Ok l, p) → ws_step w [] [] {| pool := p; leases := l :: leases w |}
  | WFresh requested answer w l p :
      pop (default [] (free (pool w) !! size_class (Z.max requested 1))) = None →
      ws_acquire requested answer (pool w) = (Ok l, p) → (bytes (held w) + class l < 2 ^ 64)%Z →
      ws_step w [slab l] [] {| pool := p; leases := l :: leases w |}
  | WRefused requested answer w e p :
      ws_acquire requested answer (pool w) = (Err e, p) → ws_step w [] [] {| pool := p; leases := leases w |}
  | WDrop i w l p fs :
      leases w !! i = Some l → drop_lease l (pool w) = (p, fs) →
      ws_step w [] fs {| pool := p; leases := delete i (leases w) |}.

Inductive ws_steps : World → list Slab → list Slab → World → Prop :=
  | WRefl w : ws_steps w [] [] w
  | WSnoc w a f w1 a1 f1 w2 : ws_steps w a f w1 → ws_step w1 a1 f1 w2 → ws_steps w (a ++ a1) (f ++ f1) w2.

(** *** Size classes *)

Lemma size_class_spec b : (0 ≤ b ≤ 2 ^ 63)%Z →
  (b ≤ size_class b)%Z ∧ (1024 ≤ size_class b)%Z ∧ (∃ k, 0 ≤ k ∧ size_class b = 2 ^ k)%Z ∧
  ∀ k, (0 ≤ k → b ≤ 2 ^ k → 1024 ≤ 2 ^ k → size_class b ≤ 2 ^ k)%Z.
Proof.
  intros Hb. unfold size_class. destruct (next_power_of_two_spec (Z.max b 1024)) as (Hle & Hpow & Hmin); [lia|].
  split_and!; [lia|lia|done|]. intros k Hk H1 H2. apply Hmin; lia.
Qed.

(** *** The slabs of a map of buckets *)

Lemma all_slabs_insert m k b : all_slabs (<[k := b]> m) ≡ₚ b ++ all_slabs (delete k m).
Proof.
  unfold all_slabs. rewrite <-insert_delete_eq. rewrite map_to_list_insert by apply lookup_delete_eq. done.
Qed.
Lemma all_slabs_lookup m k : all_slabs m ≡ₚ default [] (m !! k) ++ all_slabs (delete k m).
Proof.
  destruct (m !! k) as [b|] eqn:Hk; simpl; [|by rewrite delete_id].
  by rewrite <-all_slabs_insert, insert_id.
Qed.

Lemma pop_Some {A} (l : list A) x r : pop l = Some (x, r) → l = r ++ [x].
Proof.
  unfold pop. destruct (rev l) as [|y t] eqn:Hr; [done|]. intros [= -> <-].
  by rewrite <-(rev_involutive l), Hr.
Qed.

Lemma bytes_cons s l : bytes (s :: l) = (slab_len s + bytes l)%Z.
Proof. done. Qed.
Lemma bytes_app l1 l2 : bytes (l1 ++ l2) = (bytes l1 + bytes l2)%Z.
Proof. induction l1 as [|s l1 IH]; simpl; lia. Qed.
#[local] Instance bytes_perm : Proper ((≡ₚ) ==> (=)) bytes.
Proof. induction 1; simpl; lia. Qed.

(** *** The invariant *)

(** Buckets hold at most their capacity of slabs of their class, a lease's slab
    has its class, and the counter is the pool's bytes. *)
Record wshape (w : World) : Prop := {
  w_buckets : ∀ k b, free (pool w) !! k = Some b →
    length b ≤ per_class_capacity (pool w) ∧ Forall (λ s, slab_len s = k) b;
  w_leases : Forall (λ l, slab_len (slab l) = class l) (leases w);
  w_bytes : bytes_pooled (pool w) = bytes (all_slabs (free (pool w)));
}.

(** What the driver handed out fits in the address space. *)
Definition sized (l : list Slab) : Prop := Forall (λ s, 0 ≤ slab_len s)%Z l ∧ (bytes l < 2 ^ 64)%Z.
Definition winv (w : World) : Prop := wshape w ∧ sized (held w).

#[local] Instance sized_perm : Proper ((≡ₚ) ==> iff) sized.
Proof. intros l l' Hl. unfold sized. by rewrite Hl. Qed.

Lemma bytes_nonneg l : Forall (λ s, 0 ≤ slab_len s)%Z l → (0 ≤ bytes l)%Z.
Proof. induction 1; simpl; lia. Qed.

Lemma sized_app l1 l2 : sized (l1 ++ l2) → sized l1 ∧ sized l2.
Proof.
  intros [[H1 H2]%Forall_app Hb]. rewrite bytes_app in Hb.
  pose proof (bytes_nonneg _ H1). pose proof (bytes_nonneg _ H2). split; (split; [done|lia]).
Qed.

Lemma wshape_bucket w k : wshape w →
  length (default [] (free (pool w) !! k)) ≤ per_class_capacity (pool w) ∧
  Forall (λ s, slab_len s = k) (default [] (free (pool w) !! k)).
Proof. intros H. destruct (free (pool w) !! k) as [b|] eqn:Hk; simpl; [by apply (w_buckets w H)|]. split; [lia|done]. Qed.

(** Replacing one bucket. *)
Lemma wshape_insert w k b ls n :
  wshape w → length b ≤ per_class_capacity (pool w) → Forall (λ s, slab_len s = k) b →
  Forall (λ l, slab_len (slab l) = class l) ls → n = (bytes b + bytes (all_slabs (delete k (free (pool w)))))%Z →
  wshape {| pool := {| free := <[k := b]> (free (pool w)); per_class_capacity := per_class_capacity (pool w);
                       bytes_pooled := n |}; leases := ls |}.
Proof.
  intros H Hb Hk Hls ->. split; cbn [pool free leases per_class_capacity bytes_pooled]; [|done|].
  - intros k' b'. rewrite lookup_insert_Some. intros [[<- <-]|[_ Hl]]; [done|by apply (w_buckets w H)].
  - by rewrite all_slabs_insert, bytes_app.
Qed.

(** A step keeps the shape, and loses no slab and invents none. *)
Lemma wstep_shape w a f w' : winv w → ws_step w a f w' → wshape w' ∧ held w ++ a ≡ₚ held w' ++ f.
Proof.
  intros [Hw Hz] Hs. pose proof (sized_app _ _ Hz) as [Hzp _].
  destruct Hs as [req ans w l p Hp Ha|req ans w l p Hp Ha _|req ans w e p Ha|i w l p fs Hi Hd].
  - unfold ws_acquire in Ha. set (c := size_class _) in *. destruct (pop _) as [[s r]|] eqn:Hpop; [|done].
    injection Ha as <- <-. apply pop_Some in Hpop. pose proof (wshape_bucket w c Hw) as [Hlen Hfor].
    pose proof (all_slabs_lookup (free (pool w)) c) as Hall. rewrite Hpop in Hlen, Hfor, Hall.
    rewrite length_app in Hlen. apply Forall_app in Hfor as [Hfor [Hs _]%Forall_cons].
    rewrite Hall in Hzp. destruct Hzp as [[[H1 _]%Forall_app H2]%Forall_app _].
    split; [apply wshape_insert; cbn; try done|].
    + lia.
    + constructor; [done|apply (w_leases w Hw)].
    + rewrite (w_bytes w Hw), Hall, !bytes_app. cbn. unfold sat_sub.
      pose proof (bytes_nonneg _ H1). pose proof (bytes_nonneg _ H2). lia.
    + unfold held. cbn. rewrite all_slabs_insert, Hall, !app_nil_r, <-!app_assoc.
      apply Permutation_app_head. apply (Permutation_middle (all_slabs _)).
  - unfold ws_acquire in Ha. rewrite Hp in Ha. destruct ans as [i|]; [|done]. injection Ha as <- <-.
    split; [split; cbn; [apply (w_buckets w Hw)| |apply (w_bytes w Hw)]|].
    + constructor; [done|apply (w_leases w Hw)].
    + unfold held. cbn. rewrite app_nil_r, <-app_assoc. apply Permutation_app_head.
      by rewrite <-Permutation_cons_append.
  - unfold ws_acquire in Ha. destruct (pop _) as [[]|]; [done|]. destruct ans; [done|]. injection Ha as _ <-.
    split; [by destruct w|]. by destruct w.
  - pose proof (wshape_bucket w (class l) Hw) as [Hlen Hfor].
    pose proof (all_slabs_lookup (free (pool w)) (class l)) as Hall.
    pose proof (proj1 (Forall_lookup _ _) (w_leases w Hw) i l Hi) as Hl.
    assert (Hls : slab <$> leases w ≡ₚ slab l :: (slab <$> delete i (leases w))).
    { by rewrite (delete_Permutation _ _ _ Hi) at 1. }
    assert (Hdel : Forall (λ l, slab_len (slab l) = class l) (delete i (leases w))).
    { apply (Forall_delete _ _ _ (w_leases w Hw)). }
    unfold held in Hz. rewrite Hls in Hz. destruct Hz as [[_ [_ Hrest]%Forall_cons]%Forall_app Hz].
    apply bytes_nonneg in Hrest. rewrite Hall, !bytes_app, bytes_cons in Hz.
    unfold drop_lease in Hd. destruct (length _ <? _) eqn:Hcap; injection Hd as <- <-.
    + apply Nat.ltb_lt in Hcap. split; [apply wshape_insert; try done|].
      * rewrite length_app. simpl. lia.
      * apply Forall_app. by repeat constructor.
      * cbn. rewrite (w_bytes w Hw), Hall, !bytes_app. cbn. unfold saturating_add.
        lia.
      * unfold held. cbn. rewrite all_slabs_insert, Hall, Hls, !app_nil_r, <-!app_assoc.
        apply Permutation_app_head. symmetry. apply (Permutation_middle (all_slabs _)).
    + split; [apply wshape_insert; try done; by rewrite (w_bytes w Hw), Hall, bytes_app|].
      unfold held. cbn. rewrite all_slabs_insert, Hall, Hls, app_nil_r, <-!app_assoc.
      do 2 apply Permutation_app_head. apply Permutation_cons_append.
Qed.

Lemma wstep_inv w a f w' : winv w → ws_step w a f w' → winv w'.
Proof.
  intros Hw Hs. destruct (wstep_shape _ _ _ _ Hw Hs) as [Hshape Hheld]. split; [done|].
  apply (sized_app (held w') f). rewrite <-Hheld. destruct Hw as [_ [Hz1 Hz2]].
  destruct Hs as [req ans w l p Hp Ha|req ans w l p Hp Ha Hb|req ans w e p Ha|i w l p fs Hi Hd];
    rewrite ?app_nil_r; [by split| |by split..].
  unfold ws_acquire in Ha. rewrite Hp in Ha. destruct ans as [i|]; [|done]. injection Ha as <- <-.
  unfold sized. rewrite Forall_app, bytes_app. cbn. split.
  - split; [done|]. constructor; [|done]. cbn. apply next_power_of_two_nonneg.
  - cbn in Hb. lia.
Qed.

Definition world_new (per_class : nat) : World := {| pool := with_capacity per_class; leases := [] |}.

Lemma wsteps_inv n a f w : ws_steps (world_new n) a f w →
  winv w ∧ a ≡ₚ f ++ held w ∧ per_class_capacity (pool w) = n `max` 1.
Proof.
  intros Hs. remember (world_new n) as w0 eqn:Hw0.
  induction Hs as [w|w a f w1 a1 f1 w2 Hs IH Hs1]; subst.
  { split; [|done]. split; [|by split; [constructor|]]. split; [|constructor|done]; intros k b Hk; cbn in Hk; by rewrite lookup_empty in Hk. }
  destruct (IH eq_refl) as (Hw & Ha & Hc). split; [by eapply wstep_inv|].
  destruct (wstep_shape _ _ _ _ Hw Hs1) as [_ Hheld]. split.
  - rewrite Ha, <-!app_assoc, Hheld. by rewrite (Permutation_app_comm (held w2)).
  - rewrite <-Hc. by destruct Hs1 as [req ans w l p Hp Hacq|req ans w l p Hp Hacq Hb|req ans w e p Hacq|i w l p fs Hi Hd];
      [unfold ws_acquire in Hacq..|unfold drop_lease in Hd]; repeat case_match; simplify_eq.
Qed.

(** C23 (no workspace is lost or shared): along every execution of acquisitions and
    drops, with whatever sizes and whatever refusals of the driver, the slabs the
    driver handed out are, without repetition of any, those it got back, those in
    the pool and those of the leases held; so two leases never share a slab. A
    lease has at least the size asked for (up to 2^63 bytes), no bucket exceeds
    its capacity, and the byte counter is the size of the pooled slabs. *)
Theorem workspace_conserved n a f w :
  ws_steps (world_new n) a f w →
  a ≡ₚ f ++ all_slabs (free (pool w)) ++ (slab <$> leases w) ∧
  (NoDup a → NoDup (slab <$> leases w)) ∧
  (∀ k b, free (pool w) !! k = Some b → length b ≤ n `max` 1 ∧ Forall (λ s, slab_len s = k) b) ∧
  pooled_bytes (pool w) = bytes (all_slabs (free (pool w))) ∧
  ∀ requested answer l p, (0 ≤ requested ≤ 2 ^ 63)%Z → ws_acquire requested answer (pool w) = (Ok l, p) →
    slab_len (slab l) = class l ∧ (requested ≤ class l)%Z ∧ (∃ k, 0 ≤ k ∧ class l = 2 ^ k)%Z.
Proof.
  intros Hs. destruct (wsteps_inv _ _ _ _ Hs) as ([Hw Hz] & Ha & Hc).
  split; [done|]. split.
  { rewrite Ha. unfold held. rewrite !NoDup_app. tauto. }
  split; [intros k b Hk; rewrite <-Hc; by apply (w_buckets w Hw)|]. split; [apply (w_bytes w Hw)|].
  intros req ans l p Hreq Hacq.
  pose proof (size_class_spec (req `max` 1) ltac:(lia)) as (Hle & _ & Hpow & _).
  assert (slab_len (slab l) = class l ∧ class l = size_class (req `max` 1)) as [Hl1 Hl2].
  { unfold ws_acquire in Hacq. destruct (pop _) as [[s r]|] eqn:Hp; [|destruct ans; [by injection Hacq as <- _|done]].
    injection Hacq as <- _. split; [|done]. apply pop_Some in Hp. cbn.
    pose proof (wshape_bucket w (size_class (req `max` 1)) Hw) as [_ Hf]. rewrite Hp in Hf.
    apply Forall_app in Hf as [_ [Hf _]%Forall_cons]. done. }
  split; [done|]. rewrite Hl2. split; [lia|done].
Qed.

(** Acquire 1500 bytes, drop, and ws_acquire 2000: the slab is reused. *)
Definition ws_slab : Slab := {| slab_id := 5; slab_len := 2048 |}.
Definition ws_lease : WorkspaceLease := {| slab := ws_slab; class := 2048 |}.
Definition ws_pool (b : list Slab) (n : Z) : WorkspacePool :=
  {| free := {[2048%Z := b]}; per_class_capacity := 4; bytes_pooled := n |}.

Lemma workspace_conserved_witness :
  pooled_bytes (ws_pool [] 0) = 0%Z ∧ NoDup (slab <$> [ws_lease]).
Proof.
  assert (H : ws_steps (world_new 4) [ws_slab] [] {| pool := ws_pool [] 0; leases := [ws_lease] |}).
  { apply (WSnoc _ [ws_slab] [] {| pool := ws_pool [ws_slab] 2048; leases := [] |} [] []).
    - apply (WSnoc _ [ws_slab] [] {| pool := with_capacity 4; leases := [ws_lease] |} [] []).
      + apply (WSnoc _ [] [] (world_new 4) [ws_slab] []); [apply WRefl|].
        apply (WFresh 1500 (Ok 5) (world_new 4) ws_lease (with_capacity 4)); by vm_compute.
      + by apply (WDrop 0 {| pool := with_capacity 4; leases := [ws_lease] |} ws_lease (ws_pool [ws_slab] 2048) []).
    - by apply (WPooled 2000 (Err "") {| pool := ws_pool [ws_slab] 2048; leases := [] |} ws_lease (ws_pool [] 0)). }
  apply workspace_conserved in H as (_ & Hn & _ & Hb & _). split; [done|]. apply Hn. repeat constructor; set_solver.
Defined.
End Workspace.

(** ** Epilogues *)

Inductive Epilogue : Type :=
  | NoEpilogue | Relu | Bias | ReluBias | ReluAux | ReluAuxBias | Gelu | GeluAux | GeluBias | GeluAuxBias
  | DRelu | DReluBgrad | DGelu | DGeluBgrad | BgradA | BgradB.

#[global] Instance Epilogue_eq_dec : EqDecision Epilogue.
Proof. solve_decision. Defined.

Definition to_cublas (e : Epilogue) : string :=
  "CUBLASLT_EPILOGUE_" +:+
  match e with
  | NoEpilogue => "DEFAULT"
  | Relu => "RELU"
  | Bias => "BIAS"
  | ReluBias => "RELU_BIAS"
  | ReluAux => "RELU_AUX"
  | ReluAuxBias => "RELU_AUX_BIAS"
  | Gelu => "GELU"
  | GeluAux => "GELU_AUX"
  | GeluBias => "GELU_BIAS"
  | GeluAuxBias => "GELU_AUX_BIAS"
  | DRelu | DReluBgrad => "DRELU_BGRAD"
  | DGelu | DGeluBgrad => "DGELU_BGRAD"
  | BgradA => "BGRADA"
  | BgradB => "BGRADB"
  end.

Definition uses_bias (e : Epilogue) : bool :=
  match e with Bias | ReluBias | ReluAuxBias | GeluBias | GeluAuxBias => true | _ => false end.
Definition uses_aux (e : Epilogue) : bool :=
  match e with
  | ReluAux | ReluAuxBias | GeluAux | GeluAuxBias | DRelu | DReluBgrad | DGelu | DGeluBgrad => true
  | _ => false
  end.
Definition produces_bias_grad (e : Epilogue) : bool :=
  match e with BgradA | BgradB | DReluBgrad | DGeluBgrad => true | _ => false end.

Inductive Activation : Type := ActRelu | ActGelu.

(** The activation of [dispatch_safe_path]. *)
Definition epilogue_activation (e : Epilogue) : option Activation :=
  match e with
  | Relu | ReluBias | ReluAux | ReluAuxBias => Some ActRelu
  | Gelu | GeluBias | GeluAux | GeluAuxBias => Some ActGelu
  | _ => None
  end.

(** ** Scales *)

(** The pointers of the four matrices' scales. *)
Record ScaleSet := { scale_a : option Z; scale_b : option Z; scale_c : option Z; scale_d : option Z }.
Definition ScaleSet_empty : ScaleSet := {| scale_a := None; scale_b := None; scale_c := None; scale_d := None |}.
Definition with_a (p : Z) (s : ScaleSet) : ScaleSet :=
  {| scale_a := Some p; scale_b := scale_b s; scale_c := scale_c s; scale_d := scale_d s |}.
Definition with_b (p : Z) (s : ScaleSet) : ScaleSet :=
  {| scale_a := scale_a s; scale_b := Some p; scale_c := scale_c s; scale_d := scale_d s |}.
Definition with_c (p : Z) (s : ScaleSet) : ScaleSet :=
  {| scale_a := scale_a s; scale_b := scale_b s; scale_c := Some p; scale_d := scale_d s |}.
Definition with_d (p : Z) (s : ScaleSet) : ScaleSet :=
  {| scale_a := scale_a s; scale_b := scale_b s; scale_c := scale_c s; scale_d := Some p |}.
Definition scales_empty (s : ScaleSet) : bool :=
  bool_decide (scale_a s = None) && bool_decide (scale_b s = None) &&
  bool_decide (scale_c s = None) && bool_decide (scale_d s = None).

(** [apply]: the attributes set, in order, up to the first the library refuses. *)
Definition set_scale (answer : string → Z → option string) (attr : string) (p : option Z)
    (k : list (string * Z) * result unit string) : list (string * Z) * result unit string :=
  match p with
  | None => k
  | Some p =>
    match answer attr p with
    | Some e => ([], Err e)
    | None => ((attr, p) :: k.1, k.2)
    end
  end.
Definition scales_apply (answer : string → Z → option string) (s : ScaleSet) :
    list (string * Z) * result unit string :=
  set_scale answer "A_SCALE_POINTER" (scale_a s)
    (set_scale answer "B_SCALE_POINTER" (scale_b s)
      (set_scale answer "C_SCALE_POINTER" (scale_c s)
        (set_scale answer "D_SCALE_POINTER" (scale_d s) ([], Ok tt)))).

(** ** The heuristic cache *)

Record HeuristicKey := {
  hk_m : Z; hk_n : Z; hk_k : Z; hk_dtype : DType; hk_transa : bool; hk_transb : bool;
  hk_epilogue : Epilogue; sm_arch : Z;
}.

#[global] Instance HeuristicKey_eq_dec : EqDecision HeuristicKey.
Proof. solve_decision. Defined.

Record HeuristicEntry := { algo : Z; h_workspace_size : Z; waves_count : Z }.

Definition DEFAULT_HEURISTIC_CAPACITY : nat := 256.
Definition DEFAULT_TOP_K : nat := 3.

Section cache.
Context {C : Type} `{!LruOps HeuristicKey HeuristicEntry C}.

Record HeuristicCacheRef := { h_inner : C; top_k : nat }.
Definition h_with_capacity (capacity : nat) : HeuristicCacheRef :=
  {| h_inner := lru_new (capacity `max` 1); top_k := DEFAULT_TOP_K |}.
Definition default_size : HeuristicCacheRef := h_with_capacity DEFAULT_HEURISTIC_CAPACITY.
Definition h_get (k : HeuristicKey) (c : HeuristicCacheRef) : option HeuristicEntry * HeuristicCacheRef :=
  let r := lru_get k (h_inner c) in (r.1, {| h_inner := r.2; top_k := top_k c |}).
Definition h_insert (k : HeuristicKey) (e : HeuristicEntry) (c : HeuristicCacheRef) : HeuristicCacheRef :=
  {| h_inner := lru_put k e (h_inner c); top_k := top_k c |}.
Definition h_len (c : HeuristicCacheRef) : nat := lru_len (h_inner c).
Definition h_is_empty (c : HeuristicCacheRef) : bool := h_len c =? 0.
End cache.
Arguments HeuristicCacheRef : clear implicits.

(** ** Requests *)

Definition LIB : string := "cublaslt".

(** [MatmulConfig] of the safe layer; scalars are the bits of an [f32]. *)
Record MatmulConfig := {
  c_transa : bool; c_transb : bool; c_transc : bool; c_m : Z; c_n : Z; c_k : Z; c_alpha : Z;
  c_lda : Z; c_ldb : Z; c_beta : Z; c_ldc : Z;
  stride_a : option Z; stride_b : option Z; stride_c : option Z; stride_bias : option Z; batch_size : option Z;
}.

(** [MatmulRequest<T>] with the element type [T]; [mm_alpha] and [mm_beta] are
    [T::Scalar] converted to [f32]. *)
Record MatmulRequest := {
  mm_dtype : DType;
  mm_a : GpuRef; mm_b : GpuRef; mm_c : GpuRef; mm_d : option GpuRef;
  mm_m : Z; mm_n : Z; mm_k : Z; mm_alpha : Z; mm_beta : Z; transa : bool; transb : bool;
  lda : Z; ldb : Z; ldc : Z; ldd : Z;
  epilogue : Epilogue; bias : option GpuRef; gelu_aux : option GpuRef; scales : ScaleSet;
  workspace_size : Z; mm_reply : nat;
}.

Inductive BlasLtMsg : Type :=
  | Matmul (r : MatmulRequest)
  | MatmulF32 (cfg : MatmulConfig) (a b c : GpuRef) (bias : option GpuRef) (act : option Activation) (reply : nat).

Definition bool_arg (b : bool) : Arg := AInt (if b then 1 else 0)%Z.
Definition opt_arg (o : option Z) : Arg := match o with None => ATag "None" | Some z => AInt z end.
Definition config_args (c : MatmulConfig) : list Arg :=
  [bool_arg (c_transa c); bool_arg (c_transb c); bool_arg (c_transc c); AInt (c_m c); AInt (c_n c); AInt (c_k c);
   AInt (c_alpha c); AInt (c_lda c); AInt (c_ldb c); AInt (c_beta c); AInt (c_ldc c);
   opt_arg (stride_a c); opt_arg (stride_b c); opt_arg (stride_c c); opt_arg (stride_bias c); opt_arg (batch_size c)].
Definition activation_arg (a : option Activation) : Arg :=
  ATag match a with None => "None" | Some ActRelu => "Relu" | Some ActGelu => "Gelu" end.

(** [blas_lt.matmul(cfg, a, b, c, bias, activation)] *)
Definition matmul_call (cfg : MatmulConfig) (a b c : GpuRef) (bias : option GpuRef) (act : option Activation) : Call :=
  {| cname := "matmul";
     cargs := config_args cfg ++ [ADev (slice a); ADev (slice b); ADev (slice c);
       match bias with None => ATag "None" | Some g => ADev (slice g) end; activation_arg act] |}.

(** The configuration of [dispatch_safe_path]; the [as u64] of a negative size wraps. *)
Definition request_config (r : MatmulRequest) : MatmulConfig :=
  {| c_transa := transa r; c_transb := transb r; c_transc := false;
     c_m := wrap 64 (mm_m r); c_n := wrap 64 (mm_n r); c_k := wrap 64 (mm_k r); c_alpha := mm_alpha r;
     c_lda := lda r; c_ldb := ldb r; c_beta := mm_beta r; c_ldc := ldc r;
     stride_a := None; stride_b := None; stride_c := None; stride_bias := None; batch_size := None |}.

Definition HeuristicKey_new (m n k : Z) (d : DType) (ta tb : bool) (e : Epilogue) (sm : Z) : HeuristicKey :=
  {| hk_m := m; hk_n := n; hk_k := k; hk_dtype := d; hk_transa := ta; hk_transb := tb; hk_epilogue := e;
     sm_arch := sm |}.
Definition request_key (sm : Z) (r : MatmulRequest) : HeuristicKey :=
  HeuristicKey_new (mm_m r) (mm_n r) (mm_k r) (mm_dtype r) (transa r) (transb r) (epilogue r) sm.

(** The element types with an [impl BlasLtDispatch], with the name in the error of
    those that are not wired. *)
Definition unwired (d : DType) : option string :=
  match d with F64 => Some "f64" | F8E4m3 => Some "fp8e4m3" | F8E5m2 => Some "fp8e5m2" | _ => None end.
Definition lt_dispatchable (m : BlasLtMsg) : bool :=
  match m with
  | Matmul r => match mm_dtype r with F32 | F64 | F16 | Bf16 | F8E4m3 | F8E5m2 => true | _ => false end
  | MatmulF32 _ _ _ _ _ _ _ => true
  end.

Definition c_shared : string := "BlasLt C has multiple live references".
Definition matmul_err (e : string) : GpuError := LibraryError LIB ("matmul: " +:+ e).
Definition unwired_msg (d : string) : string :=
  "BlasLtActor: matmul<" +:+ d +:+ "> not yet implemented (Phase 1 sys-level wiring pending)".

(** The handles a message owns, and those that are checked. *)
Definition checked_refs (m : BlasLtMsg) : list GpuRef :=
  match m with
  | Matmul r => [mm_a r; mm_b r; mm_c r] ++ option_list (bias r)
  | MatmulF32 _ a b c bias _ _ => [a; b; c] ++ option_list bias
  end.
Definition owned (m : BlasLtMsg) : list GpuRef :=
  checked_refs m ++ match m with Matmul r => option_list (mm_d r) ++ option_list (gelu_aux r) | _ => [] end.
Definition lt_reply (m : BlasLtMsg) : nat :=
  match m with Matmul r => mm_reply r | MatmulF32 _ _ _ _ _ _ c => c end.

(** ** The actor *)

Inductive BlasLtInner (C : Type) : Type :=
  | Real (workspace_pool : Workspace.WorkspacePool) (heuristic_cache : HeuristicCacheRef C) (sm_arch : Z)
  | Mock.
Arguments Real {C} _ _ _.
Arguments Mock {C}.

Section actor.
Context {C : Type} `{!LruOps HeuristicKey HeuristicEntry C}.
Context (answer : Call → option string).

Abbreviation kact := (act (BlasLtInner C * Gpu) KEff).

(** The device answers its compute capability's major number, or refuses. *)
Definition lt_props (cuda : result unit string) (major : option Z) : result (BlasLtInner C) string :=
  match cuda with
  | Err e => Err ("ContextPoisoned: CudaBlasLT::new failed: " +:+ e)
  | Ok _ => Ok (Real Workspace.WorkspacePool_new default_size (default 0 ((λ m, wmul 32 (wrap 32 m) 10) <$> major))%Z)
  end.

Definition run_matmul (m : BlasLtMsg) (c : GpuRef) (call : Call) : kact unit :=
  kernel_request answer LIB (checked_refs m) [(c, c_shared)] [slice c] matmul_err (Ok call) Done (lt_reply m).

(** [dispatch_safe_path]: the cache is consulted, and its answer dropped. *)
Definition dispatch_safe_path (r : MatmulRequest) (w : Workspace.WorkspacePool) (h : HeuristicCacheRef C) (sm : Z) :
    kact unit :=
  let q := h_get (request_key sm r) h in
  modify (λ s, (Real w q.2 sm, s.2));;
  run_matmul (Matmul r) (mm_c r)
    (matmul_call (request_config r) (mm_a r) (mm_b r) (mm_c r) (bias r) (epilogue_activation (epilogue r))).

(** [BlasLtActor::handle] *)
Definition lt_handle (m : BlasLtMsg) : kact unit :=
  s ← get;
  match s.1, m with
  | Mock, Matmul r => emit (DropSender (mm_reply r))
  | Mock, MatmulF32 _ _ _ _ _ _ ch => emit (Reply ch (Err (Unrecoverable "BlasLtActor in mock mode")))
  | Real w h sm, Matmul r =>
    match unwired (mm_dtype r) with
    | Some d => emit (Reply (mm_reply r) (Err (Unrecoverable (unwired_msg d))))
    | None => dispatch_safe_path r w h sm
    end
  | Real _ _ _, MatmulF32 cfg a b c bias act _ => run_matmul m c (matmul_call cfg a b c bias act)
  end.

#[global] Instance blaslt_actor : KernelActor (S := BlasLtInner C) BlasLtMsg := {|
  operands := owned;
  reply_of := lt_reply;
  khandle := lt_handle;
|}.
End actor.

Lemma owned_checked (h : arcs) m : Forall (holds h) (owned m) → Forall (holds h) (checked_refs m).
Proof. by intros [H _]%Forall_app. Qed.

Lemma config_slices cfg rest : call_slices {| cname := "matmul"; cargs := config_args cfg ++ rest |} =
  call_slices {| cname := "matmul"; cargs := rest |}.
Proof. unfold call_slices. cbn [cargs]. rewrite omap_app. by destruct cfg as [??????????? [] [] [] [] []]. Qed.

(** What a well-formed request that is not refused early does. *)
Lemma run_matmul_spec {C} answer (m : BlasLtMsg) cfg a b c bs act (st : BlasLtInner C) g :
  checked_refs m = [a; b; c] ++ option_list bs → Forall (holds (heap g)) (checked_refs m) →
  awp (run_matmul answer m c (matmul_call cfg a b c bs act)) (λ _ st' es,
    st'.1 = st ∧ kpost (lt_reply m) g st'.2 es ∧
    es = [Reply (lt_reply m) (Err match access_list (dev g) (checked_refs m) with
                                  | Err e => e
                                  | Ok _ => Unrecoverable c_shared
                                  end)]) (st, g).
Proof.
  intros Hm Hh. eapply awp_mono, kernel_request_spec; [|done| |].
  - intros _ st' es (-> & Hp & He). split_and!; [done|done|]. cbn in He. by destruct (access_list _ _).
  - rewrite Hm. cbn. set_solver.
  - intros _ [= <-]. rewrite Hm. unfold matmul_call. rewrite config_slices. by destruct bs, act as [[]|].
Qed.

(** What a real or a mock actor does with a message. *)
Definition lt_effects {C} (g : Gpu) (st : BlasLtInner C) (m : BlasLtMsg) : KEff :=
  match st, m with
  | Mock, Matmul r => DropSender (mm_reply r)
  | Mock, MatmulF32 _ _ _ _ _ _ ch => Reply ch (Err (Unrecoverable "BlasLtActor in mock mode"))
  | Real _ _ _, _ =>
    Reply (lt_reply m) (Err
      match match m with Matmul r => unwired (mm_dtype r) | _ => None end, access_list (dev g) (checked_refs m) with
      | Some d, _ => Unrecoverable (unwired_msg d)
      | None, Err e => e
      | None, Ok _ => Unrecoverable c_shared
      end)
  end.

(** The state after a message: the cache may have been consulted. *)
Definition lt_after {C} `{!LruOps HeuristicKey HeuristicEntry C} (st : BlasLtInner C) (m : BlasLtMsg) : BlasLtInner C :=
  match st, m with
  | Real w h sm, Matmul r =>
    match unwired (mm_dtype r) with Some _ => st | None => Real w (h_get (request_key sm r) h).2 sm end
  | _, _ => st
  end.

Lemma lt_handle_spec {C} `{!LruOps HeuristicKey HeuristicEntry C} answer m (st : BlasLtInner C) g :
  Forall (holds (heap g)) (owned m) →
  awp (lt_handle answer m) (λ _ st' es,
    st'.1 = lt_after st m ∧ kpost (lt_reply m) g st'.2 es ∧ es = [lt_effects g st m]) (st, g).
Proof.
  intros Hh%owned_checked. unfold lt_handle. awp_steps. cbn [fst]. unfold lt_effects, lt_after.
  destruct st as [w h sm|], m as [r|cfg a b c bs act ch]; cbn [lt_reply].
  - destruct (unwired (mm_dtype r)) as [d|]; [awp_steps; (split_and!; [done| |done]); split; [done|by left]|].
    unfold dispatch_safe_path. awp_steps. cbn [snd]. eapply awp_mono, run_matmul_spec; [|done|done]. by cbn.
  - eapply awp_mono, run_matmul_spec; [|done|done]. by cbn.
  - awp_steps. (split_and!; [done| |done]); split; [done|by left].
  - awp_steps. (split_and!; [done| |done]); split; [done|by left].
Qed.

#[global] Instance blaslt_law {C} `{!LruOps HeuristicKey HeuristicEntry C} answer :
  @KernelLaw (BlasLtInner C) BlasLtMsg (blaslt_actor answer).
Proof. intros m st g Hh. eapply awp_mono; [|by apply lt_handle_spec]. cbn. tauto. Qed.

(** No matrix product reaches cuBLASLt: a message whose sender holds its
    buffers is never enqueued. A real actor answers it with one error, in this
    order: the element type is not wired, the first stale buffer's error, the
    output has more than one live reference (always, since the message itself
    holds one); a mock actor answers the deprecated message and drops the other's
    sender. The workspace pool is never used, and the heuristic cache, empty
    when the actor is created, stays as it is. *)
Theorem blaslt_outcome {C} `{LruLaws HeuristicKey HeuristicEntry C} answer m (st : BlasLtInner C) g :
  Forall (holds (heap g)) (owned m) →
  (∀ w h sm, st = Real w h sm → lru_entries (h_inner h) = []) →
  let '((st', g'), es) := exec (lt_handle answer m) (st, g) in
  st' = st ∧ queue g' = queue g ∧ tasks g' = tasks g ∧ es = [lt_effects g st m].
Proof.
  intros Hh He. pose proof (lt_handle_spec answer m st g Hh) as Hs. unfold awp in Hs. unfold exec.
  destruct (lt_handle answer m (st, g)) as [[u [st' g']] es]. cbn [fst snd] in *.
  destruct Hs as (-> & [_ [(Hq & Ht & _)|(op & t & _ & _ & _ & _ & _ & _ & Hn)]] & ->).
  - split_and!; try done. destruct st as [w h sm|], m as [r|]; try done. cbn. destruct (unwired _); [done|].
    unfold h_get. rewrite lru_get_miss by (by rewrite (He w h sm)). by destruct h.
  - exfalso. revert Hn. unfold lt_effects. by destruct st, m.
Qed.

Definition lt_gpu : Gpu := set_heap {[1 := 1; 2 := 1; 3 := 1]} (Gpu_new (Some (DeviceState_new 0))).
Definition lt_buffer (sl : slice_id) : GpuRef := GpuRef_new sl (DeviceState_new 0).
(** A product whose caller holds the only reference of each buffer. *)
Definition matmul_alone (d : DType) (e : Epilogue) : BlasLtMsg :=
  Matmul {| mm_dtype := d; mm_a := lt_buffer 1; mm_b := lt_buffer 2; mm_c := lt_buffer 3; mm_d := None;
            mm_m := 2; mm_n := 2; mm_k := 2; mm_alpha := 1065353216; mm_beta := 0; transa := false; transb := false;
            lda := 2; ldb := 2; ldc := 2; ldd := 2; epilogue := e; bias := None; gelu_aux := None;
            scales := ScaleSet_empty; workspace_size := 0; mm_reply := 7 |}.

Lemma blaslt_outcome_witness :
  (exec (lt_handle (C := ListLru HeuristicKey HeuristicEntry) (λ _, None) (matmul_alone F32 Relu))
     (Real Workspace.WorkspacePool_new default_size 90, lt_gpu)).2 =
  [Reply 7 (Err (Unrecoverable c_shared))].
Proof.
  assert (H := blaslt_outcome (C := ListLru HeuristicKey HeuristicEntry) (λ _, None) (matmul_alone F32 Relu)
    (Real Workspace.WorkspacePool_new default_size 90) lt_gpu).
  destruct (exec _ _) as [[st' g'] es]. destruct H as (_ & _ & _ & ->); [| |by vm_compute].
  - repeat constructor; vm_compute; lia.
  - by intros w h sm [= <- <- <-].
Defined.

(** ** The tables *)

(** An epilogue with a bias runs with the safe layer's bias pointer; those of the
    backward pass run without an activation, as the default does. *)
Lemma epilogue_tables e :
  (produces_bias_grad e = true → uses_bias e = false ∧ epilogue_activation e = None) ∧
  (uses_aux e = true → epilogue_activation e = None → to_cublas e ∈ ["CUBLASLT_EPILOGUE_DRELU_BGRAD"; "CUBLASLT_EPILOGUE_DGELU_BGRAD"]).
Proof. destruct e; split; intros; try done; set_solver. Qed.

Example backward_runs_plain :
  ∀ r, epilogue r ∈ [DRelu; DGelu; BgradA] → epilogue_activation (epilogue r) = epilogue_activation NoEpilogue.
Proof. intros r. rewrite !elem_of_cons. intros [-> | [-> | [-> | []%elem_of_nil]]]; done. Qed.

(** Two epilogues the library does not distinguish differ only in the request of
    the bias gradient. *)
Lemma to_cublas_inj e1 e2 : to_cublas e1 = to_cublas e2 →
  uses_bias e1 = uses_bias e2 ∧ uses_aux e1 = uses_aux e2 ∧ epilogue_activation e1 = epilogue_activation e2 ∧
  (produces_bias_grad e1 = produces_bias_grad e2 → e1 = e2).
Proof. destruct e1, e2; by vm_compute. Qed.

(** The scales that are set are exactly those present, unless one is refused. *)
Lemma scales_apply_ok answer s l : scales_apply answer s = (l, Ok tt) →
  l.*2 = option_list (scale_a s) ++ option_list (scale_b s) ++ option_list (scale_c s) ++ option_list (scale_d s) ∧
  (scales_empty s = true ↔ l = []).
Proof.
  destruct s as [[a|] [b|] [c|] [d|]]; unfold scales_apply, set_scale; cbn; intros Hs;
    repeat (destruct (answer _ _); cbn in *; [by simplify_eq|]); simplify_eq; by split; [|split].
Qed.
