(* ===== verification/Tensor.v ===== *)
(** * cuTENSOR: plans, their cache, workspaces and the actor

    Models [crates/atomr-accel-cuda/src/kernel/tensor] ([mod.rs], [contract.rs],
    [reduce.rs], [permute.rs], [elementwise.rs], [plan_cache.rs],
    [compute_desc.rs], [autotune.rs]) and the [WorkspacePool] of
    [kernel/dispatch.rs].  The five requests are five records; each is planned by
    the library calls of its file, over [Objects.v], and cached under its key in
    any [LruOps].  A [CachedPlan] is shared by the cache and the kernels in flight
    and destroys its objects when the last of them lets go.  The actor is an
    instance of [Envelope.v].

    Parameters are what cuTENSOR answers, the codes of its operators, and the
    hasher; an extent, a mode and a stride are the integers of the vectors, a
    scalar is its bits.  The library's handle outlives the actor's messages, and
    its mutex is not contended: the actor is the only user. *)

From S2P Require Import Prelude Actor Text Lru Errors Dtype CudaDtype Float64 DeviceState Envelope Objects.

Definition LIB : string := "cutensor".

(** ** Data *)

Inductive ComputeDesc : Type := F32 | F64 | MinF32 | MinF64 | MinF16 | MinBf16 | Tf32 | C32F.
#[global] Instance ComputeDesc_eq_dec : EqDecision ComputeDesc.
Proof. solve_decision. Defined.

Definition compute_tag_name (c : ComputeDesc) : string :=
  match c with
  | F32 => "F32" | F64 => "F64" | MinF32 => "MinF32" | MinF64 => "MinF64"
  | MinF16 => "MinF16" | MinBf16 => "MinBf16" | Tf32 => "Tf32" | C32F => "C32F"
  end.
Definition compute_desc_tag (c : ComputeDesc) : Z :=
  match c with
  | F32 => 1 | F64 => 2 | MinF32 => 4 | MinF64 => 8 | MinF16 => 16 | MinBf16 => 32 | Tf32 => 64 | C32F => 128
  end.
(** The symbols of the library. *)
Definition resolve_compute_desc (c : ComputeDesc) : string :=
  match c with
  | F32 => "CUTENSOR_R_32F" | F64 => "CUTENSOR_R_64F"
  | MinF32 => "CUTENSOR_R_MIN_32F" | MinF64 => "CUTENSOR_R_MIN_64F"
  | MinF16 => "CUTENSOR_R_MIN_16F" | MinBf16 => "CUTENSOR_R_MIN_16BF"
  | Tf32 => "CUTENSOR_R_MIN_TF32" | C32F => "CUTENSOR_C_32F"
  end.

(** A [T: TensorSupported] is a dtype. *)
Definition default_compute_for (d : DType) : ComputeDesc :=
  if decide (dtype_name d = "f32") then MinF32
  else if decide (dtype_name d = "f64") then MinF64
  else if decide (dtype_name d = "f16") then MinF32
  else if decide (dtype_name d = "bf16") then MinF32
  else MinF32.

(** A variant of [cutensorOperator_t], by name. *)
Definition Operator := string.
Definition IDENTITY : Operator := "CUTENSOR_OP_IDENTITY".

Record OperandSpec := { buf : GpuRef; extent : list Z; stride : list Z; modes : list Z }.

Record ContractRequest := {
  co_dtype : DType; co_a : OperandSpec; co_b : OperandSpec; co_c : OperandSpec;
  co_alpha : Z; co_beta : Z; co_compute : ComputeDesc; co_alignment : Z; co_reply : nat }.
Record ReductionRequest := {
  re_dtype : DType; re_a : OperandSpec; re_c : OperandSpec; re_alpha : Z; re_beta : Z;
  op_reduce : Operator; re_compute : ComputeDesc; re_alignment : Z; re_reply : nat }.
Record PermutationRequest := {
  pe_dtype : DType; pe_a : OperandSpec; pe_b : OperandSpec; pe_alpha : Z;
  pe_op_a : Operator; pe_compute : ComputeDesc; pe_alignment : Z; pe_reply : nat }.
Record ElementwiseBinaryRequest := {
  bi_dtype : DType; bi_a : OperandSpec; bi_c : OperandSpec; bi_d : OperandSpec; bi_alpha : Z; bi_gamma : Z;
  bi_op_a : Operator; bi_op_c : Operator; bi_op_ac : Operator;
  bi_compute : ComputeDesc; bi_alignment : Z; bi_reply : nat }.
Record ElementwiseTrinaryRequest := {
  tr_dtype : DType; tr_a : OperandSpec; tr_b : OperandSpec; tr_c : OperandSpec; tr_d : OperandSpec;
  tr_alpha : Z; tr_beta : Z; tr_gamma : Z;
  tr_op_a : Operator; tr_op_b : Operator; tr_op_c : Operator; tr_op_ab : Operator; tr_op_abc : Operator;
  tr_compute : ComputeDesc; tr_alignment : Z; tr_reply : nat }.

Definition ContractRequest_new (d : DType) (a b c : OperandSpec) (alpha beta : Z) (reply : nat) : ContractRequest :=
  {| co_dtype := d; co_a := a; co_b := b; co_c := c; co_alpha := alpha; co_beta := beta;
     co_compute := default_compute_for d; co_alignment := 16; co_reply := reply |}.
Definition with_compute (k : ComputeDesc) (r : ContractRequest) : ContractRequest :=
  {| co_dtype := co_dtype r; co_a := co_a r; co_b := co_b r; co_c := co_c r; co_alpha := co_alpha r;
     co_beta := co_beta r; co_compute := k; co_alignment := co_alignment r; co_reply := co_reply r |}.
Definition ReductionRequest_new d (a c : OperandSpec) (alpha beta : Z) (op : Operator) (reply : nat) : ReductionRequest :=
  {| re_dtype := d; re_a := a; re_c := c; re_alpha := alpha; re_beta := beta; op_reduce := op;
     re_compute := default_compute_for d; re_alignment := 16; re_reply := reply |}.
Definition PermutationRequest_new d (a b : OperandSpec) (alpha : Z) (reply : nat) : PermutationRequest :=
  {| pe_dtype := d; pe_a := a; pe_b := b; pe_alpha := alpha; pe_op_a := IDENTITY;
     pe_compute := default_compute_for d; pe_alignment := 16; pe_reply := reply |}.
Definition ElementwiseBinaryRequest_new d (a c dd : OperandSpec) (alpha gamma : Z) (op_ac : Operator) (reply : nat) :
    ElementwiseBinaryRequest :=
  {| bi_dtype := d; bi_a := a; bi_c := c; bi_d := dd; bi_alpha := alpha; bi_gamma := gamma;
     bi_op_a := IDENTITY; bi_op_c := IDENTITY; bi_op_ac := op_ac;
     bi_compute := default_compute_for d; bi_alignment := 16; bi_reply := reply |}.
Definition ElementwiseTrinaryRequest_new d (a b c dd : OperandSpec) (alpha beta gamma : Z) (op_ab op_abc : Operator)
    (reply : nat) : ElementwiseTrinaryRequest :=
  {| tr_dtype := d; tr_a := a; tr_b := b; tr_c := c; tr_d := dd; tr_alpha := alpha; tr_beta := beta; tr_gamma := gamma;
     tr_op_a := IDENTITY; tr_op_b := IDENTITY; tr_op_c := IDENTITY; tr_op_ab := op_ab; tr_op_abc := op_abc;
     tr_compute := default_compute_for d; tr_alignment := 16; tr_reply := reply |}.

(** A boxed [dyn TensorDispatch]. *)
Inductive TensorOp : Type :=
  | OpContract (r : ContractRequest)
  | OpReduce (r : ReductionRequest)
  | OpPermute (r : PermutationRequest)
  | OpBinary (r : ElementwiseBinaryRequest)
  | OpTrinary (r : ElementwiseTrinaryRequest).
Inductive TensorMsg : Type :=
  | TOp (o : TensorOp)
  | Contract (a b c : OperandSpec) (alpha beta : Z) (reply : nat).

(** ** Plans *)

Inductive OpKind : Type := KContract | KReduce | KElementwiseBinary | KElementwiseTrinary | KPermutation.
#[global] Instance OpKind_eq_dec : EqDecision OpKind.
Proof. solve_decision. Defined.
Definition op_kind_tag (k : OpKind) : string :=
  match k with
  | KContract => "contract" | KReduce => "reduce" | KElementwiseBinary => "ewbin"
  | KElementwiseTrinary => "ewtri" | KPermutation => "permute"
  end.

Record PlanKey := {
  op_kind : OpKind; modes_hash : Z; extents_hash : Z; alignment : Z; key_tag : Z; dtype_tag : string; algo : Z }.
#[global] Instance PlanKey_eq_dec : EqDecision PlanKey.
Proof. solve_decision. Defined.

Record CachedPlan := { plan : Obj; pref : Obj; op : Obj; descs : list Obj; workspace_size : Z }.
#[global] Instance CachedPlan_eq_dec : EqDecision CachedPlan.
Proof. solve_decision. Defined.

(** What the drop of a plan destroys, in order. *)
Definition plan_objs (p : CachedPlan) : list Obj := plan p :: pref p :: op p :: descs p.

Definition DEFAULT_PLAN_CACHE_SIZE : nat := 256.
Definition I32_MIN : Z := - 2 ^ 31.
Definition I64_MIN : Z := - 2 ^ 63.

(** *** Keys *)

Section keys.
(** [DefaultHasher::new()] fed with bytes; an operator cast to [u32]. *)
Context (sip : list Z → Z) (op_code : Operator → Z).

(** A slice hashes its length, then its elements. *)
Definition ints_bytes (width : nat) (l : list Z) : list Z := seq_bytes (int_bytes width) l.
Definition hash_i32s (l : list Z) : Z := sip (ints_bytes 4 l).
Definition hash_i64s (l : list Z) : Z := sip (ints_bytes 8 l).

(** The operands' lists with the least integer between them. *)
Fixpoint separated (sep : Z) (ls : list (list Z)) : list Z :=
  match ls with
  | [] => []
  | [l] => l
  | l :: ls => l ++ sep :: separated sep ls
  end.

Definition build_key (kind : OpKind) (d : DType) (specs : list OperandSpec) (align : Z) (tag : Z) (algo : Z) : PlanKey :=
  {| op_kind := kind; modes_hash := hash_i32s (separated I32_MIN (modes <$> specs));
     extents_hash := hash_i64s (separated I64_MIN (extent <$> specs)); alignment := align; key_tag := tag;
     dtype_tag := dtype_name d; algo := algo |}.

Definition mix (o : Operator) (prime : Z) : Z := wmul 32 (op_code o) prime.

Definition build_contract_key (r : ContractRequest) (algo : Z) : PlanKey :=
  build_key KContract (co_dtype r) [co_a r; co_b r; co_c r] (co_alignment r) (compute_desc_tag (co_compute r)) algo.
Definition build_reduction_key (r : ReductionRequest) : PlanKey :=
  build_key KReduce (re_dtype r) [re_a r; re_c r] (re_alignment r)
    (Z.lxor (compute_desc_tag (re_compute r)) (mix (op_reduce r) 0x9E3779B9)) 0.
Definition build_permutation_key (r : PermutationRequest) : PlanKey :=
  build_key KPermutation (pe_dtype r) [pe_a r; pe_b r] (pe_alignment r)
    (Z.lxor (compute_desc_tag (pe_compute r)) (mix (pe_op_a r) 0x27d4eb2f)) 0.
Definition build_binary_key (r : ElementwiseBinaryRequest) : PlanKey :=
  build_key KElementwiseBinary (bi_dtype r) [bi_a r; bi_c r; bi_d r] (bi_alignment r)
    (Z.lxor (compute_desc_tag (bi_compute r))
      (Z.lxor (Z.lxor (mix (bi_op_a r) 0x85ebca77) (mix (bi_op_c r) 0xc2b2ae3d)) (mix (bi_op_ac r) 0x27d4eb2f))) 0.
Definition build_trinary_key (r : ElementwiseTrinaryRequest) : PlanKey :=
  build_key KElementwiseTrinary (tr_dtype r) [tr_a r; tr_b r; tr_c r; tr_d r] (tr_alignment r)
    (Z.lxor (compute_desc_tag (tr_compute r))
      (Z.lxor (Z.lxor (Z.lxor (Z.lxor (mix (tr_op_a r) 0x85ebca77) (mix (tr_op_b r) 0xc2b2ae3d))
        (mix (tr_op_c r) 0x27d4eb2f)) (mix (tr_op_ab r) 0x9e3779b9)) (mix (tr_op_abc r) 0x6a09e667))) 0.
End keys.

(** *** Building a plan *)

Section build.
Context (lib_answer : nat → ObjCall → result Z string).

Abbreviation lact := (act Lib KEff).

Definition lib_err (what : string) (e : string) : GpuError := LibraryError LIB (what +:+ e).

(** A list passed by pointer, and the null pointer for no strides. *)
Definition list_args (l : list Z) : list Arg := ATag "list" :: (AInt <$> l).
Definition stride_args (l : list Z) : list Arg := match l with [] => [ATag "null"] | _ => list_args l end.
Definition desc_call (d : DType) (align : Z) (s : OperandSpec) : ObjCall :=
  {| oname := "cutensorCreateTensorDescriptor"; ouses := [];
     oargs := [AInt (wrap 32 (Z.of_nat (length (extent s))))] ++ list_args (extent s) ++ stride_args (stride s) ++
              [ATag (dtype_name d); AInt align] |}.

(** One descriptor per operand, in order. *)
Definition desc_specs (d : DType) (align : Z) (specs : list (string * OperandSpec)) : list ((string → GpuError) * ObjCall) :=
  (λ s, (lib_err ("CreateTensorDescriptor(" +:+ s.1 +:+ "): "), desc_call d align s.2)) <$> specs.
Definition create_descs {B} (d : DType) (align : Z) (specs : list (string * OperandSpec))
    (k : list Obj → lact (result B GpuError)) : lact (result B GpuError) :=
  create_all lib_answer (desc_specs d align specs) [] k.

(** The preference, the workspace estimate and the plan of an operation. *)
Definition finish_plan (algo_name : string) (op : Obj) (ds : list Obj) : lact (result CachedPlan GpuError) :=
  let made := op :: rev ds in
  r ← create lib_answer {| oname := "cutensorCreatePlanPreference"; ouses := [];
                           oargs := [ATag algo_name; ATag "CUTENSOR_JIT_MODE_NONE"] |};
  or_cleanup r (lib_err "CreatePlanPreference: ") made (λ pref,
    r ← run_call lib_answer {| oname := "cutensorEstimateWorkspaceSize"; ouses := [op; pref];
                               oargs := [ATag "CUTENSOR_WORKSPACE_DEFAULT"] |};
    or_cleanup r (lib_err "EstimateWorkspaceSize: ") (pref :: made) (λ ws,
      r ← create lib_answer {| oname := "cutensorCreatePlan"; ouses := [op; pref]; oargs := [AInt ws] |};
      or_cleanup r (lib_err "CreatePlan: ") (pref :: made) (λ plan,
        mret (Ok {| plan := plan; pref := pref; op := op; descs := ds; workspace_size := ws |})))).

(** The operation on the descriptors, and then the plan; the error's name. *)
Definition build_plan_of (d : DType) (align : Z) (specs : list (string * OperandSpec)) (label : string)
    (op_call : list Obj → ObjCall) (algo_name : string) : lact (result CachedPlan GpuError) :=
  create_descs d align specs (λ ds,
    r ← create lib_answer (op_call ds);
    or_cleanup r (lib_err (label +:+ ": ")) (rev ds) (λ o, finish_plan algo_name o ds)).

(** A descriptor with its modes and the operator applied to it. *)
Definition with_modes (s : OperandSpec) (o : list Arg) : list Arg := list_args (modes s) ++ o.
Definition compute_arg (c : ComputeDesc) : list Arg := [ATag (resolve_compute_desc c)].

Definition contraction_call (r : ContractRequest) (ds : list Obj) : ObjCall :=
  {| oname := "cutensorCreateContraction"; ouses := ds ++ option_list (last ds);
     oargs := with_modes (co_a r) [ATag IDENTITY] ++ with_modes (co_b r) [ATag IDENTITY] ++
              with_modes (co_c r) [ATag IDENTITY] ++ with_modes (co_c r) [] ++ compute_arg (co_compute r) |}.
Definition contract_build_plan (algo : option string) (r : ContractRequest) : lact (result CachedPlan GpuError) :=
  build_plan_of (co_dtype r) (co_alignment r) [("A", co_a r); ("B", co_b r); ("C", co_c r)] "CreateContraction"
    (contraction_call r) (default "CUTENSOR_ALGO_DEFAULT" algo).

Definition reduction_call (r : ReductionRequest) (ds : list Obj) : ObjCall :=
  {| oname := "cutensorCreateReduction"; ouses := ds ++ option_list (last ds);
     oargs := with_modes (re_a r) [ATag IDENTITY] ++ with_modes (re_c r) [ATag IDENTITY] ++
              with_modes (re_c r) [ATag (op_reduce r)] ++ compute_arg (re_compute r) |}.
Definition reduce_build_plan (r : ReductionRequest) : lact (result CachedPlan GpuError) :=
  build_plan_of (re_dtype r) (re_alignment r) [("A", re_a r); ("C", re_c r)] "CreateReduction"
    (reduction_call r) "CUTENSOR_ALGO_DEFAULT".

Definition permutation_call (r : PermutationRequest) (ds : list Obj) : ObjCall :=
  {| oname := "cutensorCreatePermutation"; ouses := ds;
     oargs := with_modes (pe_a r) [ATag (pe_op_a r)] ++ with_modes (pe_b r) [] ++ compute_arg (pe_compute r) |}.
Definition permute_build_plan (r : PermutationRequest) : lact (result CachedPlan GpuError) :=
  build_plan_of (pe_dtype r) (pe_alignment r) [("A", pe_a r); ("B", pe_b r)] "CreatePermutation"
    (permutation_call r) "CUTENSOR_ALGO_DEFAULT".

Definition binary_call (r : ElementwiseBinaryRequest) (ds : list Obj) : ObjCall :=
  {| oname := "cutensorCreateElementwiseBinary"; ouses := ds;
     oargs := with_modes (bi_a r) [ATag (bi_op_a r)] ++ with_modes (bi_c r) [ATag (bi_op_c r)] ++
              with_modes (bi_d r) [ATag (bi_op_ac r)] ++ compute_arg (bi_compute r) |}.
Definition build_binary_plan (r : ElementwiseBinaryRequest) : lact (result CachedPlan GpuError) :=
  build_plan_of (bi_dtype r) (bi_alignment r) [("A", bi_a r); ("C", bi_c r); ("D", bi_d r)] "CreateElementwiseBinary"
    (binary_call r) "CUTENSOR_ALGO_DEFAULT".

Definition trinary_call (r : ElementwiseTrinaryRequest) (ds : list Obj) : ObjCall :=
  {| oname := "cutensorCreateElementwiseTrinary"; ouses := ds;
     oargs := with_modes (tr_a r) [ATag (tr_op_a r)] ++ with_modes (tr_b r) [ATag (tr_op_b r)] ++
              with_modes (tr_c r) [ATag (tr_op_c r)] ++
              with_modes (tr_d r) [ATag (tr_op_ab r); ATag (tr_op_abc r)] ++ compute_arg (tr_compute r) |}.
Definition build_trinary_plan (r : ElementwiseTrinaryRequest) : lact (result CachedPlan GpuError) :=
  build_plan_of (tr_dtype r) (tr_alignment r) [("A", tr_a r); ("B", tr_b r); ("C", tr_c r); ("D", tr_d r)]
    "CreateElementwiseTrinary" (trinary_call r) "CUTENSOR_ALGO_DEFAULT".
End build.

(** ** The plan cache and the workspaces *)

Record TensorDispatchCtx (C : Type) := {
  lib : Lib;
  plan_cache : C;
  flying : list CachedPlan;   (* the plans kernels in flight keep alive *)
  buckets : list Z;           (* sizes of the workspaces *)
}.
Arguments lib {C} _.
Arguments plan_cache {C} _.
Arguments flying {C} _.
Arguments buckets {C} _.

Section ctx.
Context {C : Type} `{!LruOps PlanKey CachedPlan C}.
(** What cuTENSOR answers, and what an allocation of a workspace does. *)
Context (lib_answer : nat → ObjCall → result Z string) (alloc : Z → option string).
Context (sip : list Z → Z) (op_code : Operator → Z).

Abbreviation cact := (act (TensorDispatchCtx C) KEff).

Definition set_lib (l : Lib) (c : TensorDispatchCtx C) : TensorDispatchCtx C :=
  {| lib := l; plan_cache := plan_cache c; flying := flying c; buckets := buckets c |}.
Definition set_cache (k : C) (c : TensorDispatchCtx C) : TensorDispatchCtx C :=
  {| lib := lib c; plan_cache := k; flying := flying c; buckets := buckets c |}.
Definition set_flying (l : list CachedPlan) (c : TensorDispatchCtx C) : TensorDispatchCtx C :=
  {| lib := lib c; plan_cache := plan_cache c; flying := l; buckets := buckets c |}.
Definition set_buckets (l : list Z) (c : TensorDispatchCtx C) : TensorDispatchCtx C :=
  {| lib := lib c; plan_cache := plan_cache c; flying := flying c; buckets := l |}.

Definition on_lib {A} (m : act Lib KEff A) : cact A := zoom lib set_lib m.

Definition cached_plans (k : C) : list CachedPlan := (lru_entries k).*2.
Definition held_plans (c : TensorDispatchCtx C) : list CachedPlan := cached_plans (plan_cache c) ++ flying c.

(** A reference to a plan goes; the last one destroys its objects. *)
Definition drop_plan (p : CachedPlan) : cact unit :=
  c ← get;
  if decide (p ∈ held_plans c) then skip else on_lib (destroys (plan_objs p)).
Fixpoint drop_plans (ps : list CachedPlan) : cact unit :=
  match ps with [] => skip | p :: ps => drop_plan p;; drop_plans ps end.

(** [PlanCache::put]: what the map lets go of is dropped. *)
Definition put_plan (key : PlanKey) (p : CachedPlan) : cact unit :=
  c ← get;
  let k := lru_put key p (plan_cache c) in
  put (set_cache k c);;
  drop_plans (filter (λ q, q ∉ cached_plans k) (cached_plans (plan_cache c))).

(** [get_or_build_plan] and its siblings. *)
Definition get_or_build (key : PlanKey) (build : act Lib KEff (result CachedPlan GpuError)) :
    cact (result CachedPlan GpuError) :=
  c ← get;
  let oc := lru_get key (plan_cache c) in
  put (set_cache oc.2 c);;
  match oc.1 with
  | Some p => mret (Ok p)
  | None =>
    r ← on_lib build;
    match r with
    | Err e => mret (Err e)
    | Ok p => put_plan key p;; mret (Ok p)
    end
  end.

(** [WorkspacePool::ensure] *)
Definition ensure (n : Z) : cact (result Z GpuError) :=
  if decide (n = 0%Z) then mret (Ok 0%Z)
  else
    let bucket_size := next_power_of_two n in
    c ← get;
    if decide (bucket_size ∈ buckets c) then mret (Ok bucket_size)
    else
      match alloc bucket_size with
      | Some e => mret (Err (OutOfMemory ("cutensor workspace: " +:+ e)))
      | None => modify (set_buckets (buckets c ++ [bucket_size]));; mret (Ok bucket_size)
      end.

(** [WorkspacePool::with_bucket]: the workspace given to the closure. *)
Definition with_bucket (n : Z) (c : TensorDispatchCtx C) : option Z :=
  if decide (n = 0%Z) then None
  else if decide (next_power_of_two n ∈ buckets c) then Some (next_power_of_two n) else None.

(** ** The operations *)

(** What the five [execute] functions have in common: the operands in the order
    they are checked, the target last; the dimension checks with their messages;
    the target's message; the key and the construction of the plan; the
    execution with the workspace's arguments, when it takes one. *)
Record OpSpec := {
  s_specs : list OperandSpec;
  s_target : OperandSpec;
  s_dims : list (OperandSpec * string);
  s_shared : string;
  s_key : PlanKey;
  s_build : act Lib KEff (result CachedPlan GpuError);
  s_workspace : bool;
  s_call : CachedPlan → list Arg → Call;
  s_label : string;
  s_reply : nat;
}.

Definition ws_args (c : TensorDispatchCtx C) (p : CachedPlan) : list Arg :=
  match with_bucket (workspace_size p) c with
  | Some b => [ATag "workspace"; AInt b; AInt (workspace_size p)]
  | None => [ATag "null"; AInt 0]
  end.
Definition dev_arg (s : OperandSpec) : Arg := ADev (slice (buf s)).
Definition plan_call (f : string) (args : list Arg) (p : CachedPlan) (ws : list Arg) : Call :=
  {| cname := f; cargs := AInt (Z.of_nat (plan p)) :: args ++ ws |}.

Definition contract_execute (r : ContractRequest) : OpSpec := {|
  s_specs := [co_a r; co_b r; co_c r];
  s_target := co_c r;
  s_dims := [(co_a r, "Contract: a.extent.len != a.modes.len"); (co_b r, "Contract: b.extent.len != b.modes.len");
             (co_c r, "Contract: c.extent.len != c.modes.len")];
  s_shared := "Contract c has multiple live references";
  s_key := build_contract_key sip r 0;
  s_build := contract_build_plan lib_answer None r;
  s_workspace := true;
  s_call := plan_call "cutensorContract"
    [AInt (co_alpha r); dev_arg (co_a r); dev_arg (co_b r); AInt (co_beta r); dev_arg (co_c r); dev_arg (co_c r)];
  s_label := "Contract: ";
  s_reply := co_reply r;
|}.

Definition reduce_execute (r : ReductionRequest) : OpSpec := {|
  s_specs := [re_a r; re_c r];
  s_target := re_c r;
  s_dims := [(re_a r, "Reduce: a.extent.len != a.modes.len"); (re_c r, "Reduce: c.extent.len != c.modes.len")];
  s_shared := "Reduce c has multiple live references";
  s_key := build_reduction_key sip op_code r;
  s_build := reduce_build_plan lib_answer r;
  s_workspace := true;
  s_call := plan_call "cutensorReduce"
    [AInt (re_alpha r); dev_arg (re_a r); AInt (re_beta r); dev_arg (re_c r); dev_arg (re_c r)];
  s_label := "Reduce: ";
  s_reply := re_reply r;
|}.

Definition permute_execute (r : PermutationRequest) : OpSpec := {|
  s_specs := [pe_a r; pe_b r];
  s_target := pe_b r;
  s_dims := (λ s, (s, "Permutation: extent/modes length mismatch")) <$> [pe_a r; pe_b r];
  s_shared := "Permutation b has multiple live references";
  s_key := build_permutation_key sip op_code r;
  s_build := permute_build_plan lib_answer r;
  s_workspace := false;
  s_call := plan_call "cutensorPermute" [AInt (pe_alpha r); dev_arg (pe_a r); dev_arg (pe_b r)];
  s_label := "Permute: ";
  s_reply := pe_reply r;
|}.

Definition execute_binary (r : ElementwiseBinaryRequest) : OpSpec := {|
  s_specs := [bi_a r; bi_c r; bi_d r];
  s_target := bi_d r;
  s_dims := (λ s, (s, "ElementwiseBinary: extent/modes length mismatch")) <$> [bi_a r; bi_c r; bi_d r];
  s_shared := "ElementwiseBinary d has multiple live references";
  s_key := build_binary_key sip op_code r;
  s_build := build_binary_plan lib_answer r;
  s_workspace := false;
  s_call := plan_call "cutensorElementwiseBinaryExecute"
    [AInt (bi_alpha r); dev_arg (bi_a r); AInt (bi_gamma r); dev_arg (bi_c r); dev_arg (bi_d r)];
  s_label := "ElementwiseBinary: ";
  s_reply := bi_reply r;
|}.

Definition execute_trinary (r : ElementwiseTrinaryRequest) : OpSpec := {|
  s_specs := [tr_a r; tr_b r; tr_c r; tr_d r];
  s_target := tr_d r;
  s_dims := (λ s, (s, "ElementwiseTrinary: extent/modes length mismatch")) <$> [tr_a r; tr_b r; tr_c r; tr_d r];
  s_shared := "ElementwiseTrinary d has multiple live references";
  s_key := build_trinary_key sip op_code r;
  s_build := build_trinary_plan lib_answer r;
  s_workspace := false;
  s_call := plan_call "cutensorElementwiseTrinaryExecute"
    [AInt (tr_alpha r); dev_arg (tr_a r); AInt (tr_beta r); dev_arg (tr_b r); AInt (tr_gamma r); dev_arg (tr_c r);
     dev_arg (tr_d r)];
  s_label := "ElementwiseTrinary: ";
  s_reply := tr_reply r;
|}.

Definition op_spec (o : TensorOp) : OpSpec :=
  match o with
  | OpContract r => contract_execute r
  | OpReduce r => reduce_execute r
  | OpPermute r => permute_execute r
  | OpBinary r => execute_binary r
  | OpTrinary r => execute_trinary r
  end.

Definition obtain (o : OpSpec) : cact (result CachedPlan GpuError) := get_or_build (s_key o) (s_build o).

(** The first operand whose extents and modes differ in number. *)
Definition dims_error (o : OpSpec) : option string :=
  snd <$> find (λ sm, negb (bool_decide (length (extent sm.1) = length (modes sm.1)))) (s_dims o).

(** ** The actor *)

Inductive TensorInner : Type := Real (ctx : TensorDispatchCtx C) | Mock.
Context (answer : Call → option string).

Abbreviation kact := (act (TensorInner * Gpu) KEff).

(** A step on a real actor's context. *)
Definition on_ctx {A} (c : TensorDispatchCtx C) (m : cact A) : kact A := zoom (λ _, c) (λ c s, (Real c, s.2)) m.
Definition get_ctx (c0 : TensorDispatchCtx C) : kact (TensorDispatchCtx C) :=
  s ← get; mret match s.1 with Real c => c | Mock => c0 end.

(** From the lookup of the plan on, the target being unwrapped. *)
Definition launch (o : OpSpec) (ctx : TensorDispatchCtx C) (clones : list slice_id) : kact unit :=
  r ← on_ctx ctx (obtain o);
  match r with
  | Err e => emit (Reply (s_reply o) (Err e));; drop_clones clones
  | Ok p =>
    c ← get_ctx ctx;
    w ← on_ctx c (if s_workspace o then ensure (workspace_size p) else mret (Ok 0%Z));
    c ← get_ctx c;
    match w with
    | Err e => emit (Reply (s_reply o) (Err e));; on_ctx c (drop_plan p);; drop_clones clones
    | Ok _ =>
      emit (RecordWrite (slice (buf (s_target o))));;
      run_kernel LIB Done (s_reply o) clones
        (x ← lib_call answer (λ e, LibraryError LIB (s_label o +:+ e))
               (s_call o p (if s_workspace o then ws_args c p else []));
         match x with
         | Ok i => on_ctx c (modify (set_flying (p :: flying c)));; mret (Ok i)
         | Err e => mret (Err e)
         end)
    end
  end.

(** The body of [execute], [execute_binary] and [execute_trinary]. *)
Definition execute (o : OpSpec) (ctx : TensorDispatchCtx C) : kact unit :=
  match dims_error o with
  | Some msg => emit (Reply (s_reply o) (Err (Unrecoverable msg)))
  | None => with_operands (buf <$> s_specs o) [(buf (s_target o), s_shared o)] (s_reply o) (launch o ctx)
  end.

(** The request a message stands for. *)
Definition msg_spec (m : TensorMsg) : OpSpec :=
  match m with
  | TOp o => op_spec o
  | Contract a b c alpha beta reply => contract_execute (ContractRequest_new Dtype.F32 a b c alpha beta reply)
  end.

Definition tensor_mock : GpuError := Unrecoverable "TensorActor in mock mode".

(** [TensorActor::handle] *)
Definition tensor_handle (m : TensorMsg) : kact unit :=
  s ← get;
  match s.1 with
  | Mock => emit (Reply (s_reply (msg_spec m)) (Err tensor_mock))
  | Real ctx => execute (msg_spec m) ctx
  end.

#[global] Instance tensor_actor : KernelActor (S := TensorInner) TensorMsg := {|
  operands m := buf <$> s_specs (msg_spec m);
  reply_of m := s_reply (msg_spec m);
  khandle := tensor_handle;
|}.

(** [TensorActor::props]: the handle is created when the actor starts. *)
Definition tensor_props (cutensor : result unit string) : result TensorInner string :=
  match cutensor with
  | Err e => Err ("ContextPoisoned: cutensorCreate failed: " +:+ e)
  | Ok _ => Ok (Real {| lib := Lib_new; plan_cache := lru_new (DEFAULT_PLAN_CACHE_SIZE `max` 1); flying := []; buckets := [] |})
  end.
End ctx.
Arguments TensorInner : clear implicits.
Arguments Real {C} _.
Arguments Mock {C}.

(** ** Plans are all or nothing *)

Section plans.
Context (lib_answer : nat → ObjCall → result Z string).

Lemma finish_plan_builds algo_name op ds : builds (op :: rev ds) (finish_plan lib_answer algo_name op ds) plan_objs.
Proof.
  unfold finish_plan. apply builds_create; [set_solver|done|]. intros pref _.
  apply builds_run; [cbn; set_solver|done|]. intros ws.
  apply builds_create; [cbn; set_solver|done|]. intros plan _.
  apply builds_ret. unfold plan_objs. cbn. by rewrite <-(Permutation_rev ds).
Qed.

Lemma build_plan_builds d align specs label op_call algo_name :
  (∀ ds, length ds = length specs → ouses (op_call ds) ⊆ ds) →
  builds [] (build_plan_of lib_answer d align specs label op_call algo_name) plan_objs.
Proof.
  intros Hu. apply create_all_builds; [by intros s (? & -> & _)%list_elem_of_fmap|].
  intros ds Hd. unfold desc_specs in Hd. rewrite length_fmap in Hd.
  apply builds_create; [|done|intros o _; apply finish_plan_builds].
  intros o Ho%Hu; [|done]. by rewrite <-(Permutation_rev ds).
Qed.

(** Each request's plan, on success, owns exactly the objects that were made for
    it, and a request that fails leaves none. *)
Lemma op_build_builds sip op_code (o : TensorOp) :
  builds [] (s_build (op_spec lib_answer sip op_code o)) plan_objs.
Proof.
  assert (Hlast : ∀ ds : list Obj, ds ++ option_list (last ds) ⊆ ds).
  { intros ds x [Hx|Hx]%elem_of_app; [done|]. destruct (last ds) as [y|] eqn:Hl; [|by apply elem_of_nil in Hx].
    cbn in Hx. apply list_elem_of_singleton in Hx as ->. apply last_Some in Hl as [l' ->].
    apply elem_of_app. right. by left. }
  destruct o; apply build_plan_builds; intros ds _; cbn; done || apply Hlast.
Qed.
End plans.

(** ** The plan cache with kernels in flight *)

Section cache.
Context {C : Type} `{HL : LruLaws PlanKey CachedPlan C}.
Context (lib_answer : nat → ObjCall → result Z string).

Abbreviation ctx := (TensorDispatchCtx C).

(** The plans [ps] that are held by hand, those of the cache and those in flight
    are made of the live objects, no two of them share an object, and the cache
    is in order. *)
Record pinv (n : nat) (c : ctx) (ps : list CachedPlan) : Prop := {
  pi_lib : lib_ok (lib c) (objs ((ps ++ held_plans c) ≫= plan_objs));
  pi_whole : ∀ p, p ∈ ps ++ held_plans c → NoDup (plan_objs p);
  pi_apart : ∀ p q, p ∈ ps ++ held_plans c → q ∈ ps ++ held_plans c → p ≠ q → ∀ o, o ∈ plan_objs p → o ∉ plan_objs q;
  pi_ps : NoDup ps;
  pi_cached : NoDup (cached_plans (plan_cache c));
  pi_wf : lru_wf (plan_cache c);
  pi_cap : lru_cap (plan_cache c) = n;
}.

Lemma elem_of_objs o (ps : list CachedPlan) : o ∈ objs (ps ≫= plan_objs) ↔ ∃ p, p ∈ ps ∧ o ∈ plan_objs p.
Proof. unfold objs. rewrite elem_of_list_to_set, list_elem_of_bind. naive_solver. Qed.

(** The same plans, held otherwise. *)
Lemma pinv_same n c ps c' ps' :
  pinv n c ps → lib c' = lib c → (∀ p, p ∈ ps' ++ held_plans c' ↔ p ∈ ps ++ held_plans c) →
  NoDup ps' → NoDup (cached_plans (plan_cache c')) → lru_wf (plan_cache c') → lru_cap (plan_cache c') = n →
  pinv n c' ps'.
Proof.
  intros [H1 H2 H3 H4 H5 H6 H7] Hl Hs Hp Hc Hw Hn. split; [|..|done|done|done|done].
  - rewrite Hl. assert (objs ((ps' ++ held_plans c') ≫= plan_objs) = objs ((ps ++ held_plans c) ≫= plan_objs)) as ->; [|done].
    apply set_eq. intros o. rewrite !elem_of_objs. naive_solver.
  - intros p. rewrite Hs. apply H2.
  - intros p q. rewrite !Hs. apply H3.
Qed.

(** Letting go of a plan. *)
Lemma drop_plan_spec n c p ps :
  pinv n c (p :: ps) →
  awp (drop_plan p) (λ _ c' es, es = [] ∧ pinv n c' ps ∧ plan_cache c' = plan_cache c ∧ flying c' = flying c) c.
Proof.
  intros H. destruct (proj1 (NoDup_cons _ _) (pi_ps _ _ _ H)) as [Hp Hps]. unfold drop_plan. awp_steps.
  destruct (decide (p ∈ held_plans c)) as [Hin|Hout].
  - awp_steps. split_and!; [done| |done|done]. apply (pinv_same n c (p :: ps)); try done; try apply H.
    intros q. rewrite elem_of_app. cbn. rewrite elem_of_cons, elem_of_app. naive_solver.
  - apply awp_zoom. eapply awp_mono, (destroys_spec (plan_objs p) (lib c)); [|apply (pi_lib _ _ _ H)| |].
    + intros _ l es (-> & _ & Hl). split_and!; [done| |done|done]. destruct H as [H1 H2 H3 H4 H5 H6 H7].
      split; try done; cbn [lib set_lib].
      * assert (objs ((ps ++ held_plans (set_lib l c)) ≫= plan_objs) =
          objs (((p :: ps) ++ held_plans c) ≫= plan_objs) ∖ objs (plan_objs p)) as ->; [|done].
        apply set_eq. intros o. rewrite elem_of_difference, !elem_of_objs. unfold objs. rewrite elem_of_list_to_set.
        change (held_plans (set_lib l c)) with (held_plans c). split.
        { intros (q & Hq & Ho). split; [exists q; split; [by right|done]|]. intros Hop.
          apply (H3 p q) in Hop; [done|by left|by right|]. intros ->.
          apply elem_of_app in Hq as [?|?]; done. }
        intros [(q & Hq & Ho) Hno]. exists q. split; [|done]. cbn in Hq. apply elem_of_cons in Hq as [->|?]; done.
      * intros q Hq. apply H2. by right.
      * intros q q' Hq Hq'. apply H3; by right.
    + apply (pi_whole _ _ _ H). by left.
    + intros o Ho. apply elem_of_objs. exists p. split; [by left|]. by apply elem_of_list_to_set in Ho.
Qed.

Lemma drop_plans_spec n c ps qs :
  pinv n c (ps ++ qs) →
  awp (drop_plans ps) (λ _ c' es, es = [] ∧ pinv n c' qs ∧ plan_cache c' = plan_cache c ∧ flying c' = flying c) c.
Proof.
  revert c. induction ps as [|p ps IH]; intros c H; cbn [drop_plans]; [by awp_steps|].
  apply awp_bind. eapply awp_mono, drop_plan_spec; [|exact H]. intros _ c1 es (-> & H1 & Hk & Hf).
  eapply awp_mono, (IH c1 H1). intros _ c2 es (-> & H2 & Hk2 & Hf2). by rewrite Hk2, Hf2.
Qed.

(** Inserting a plan no one else has. *)
Lemma put_plan_spec n c key p :
  1 ≤ n → p ∉ held_plans c → pinv n c [p] →
  awp (put_plan key p) (λ _ c' es, es = [] ∧ pinv n c' [] ∧ flying c' = flying c ∧
    plan_cache c' = lru_put key p (plan_cache c) ∧ p ∈ cached_plans (plan_cache c')) c.
Proof.
  intros Hn Hp H. unfold put_plan. awp_steps. set (k := lru_put key p (plan_cache c)).
  pose proof (lru_put_entries (plan_cache c) key p) as [He Hc]. fold k in He, Hc.
  assert (Hpk : cached_plans k = p :: (take (n - 1) (entry_remove key (lru_entries (plan_cache c)))).*2).
  { unfold cached_plans. rewrite He. unfold entry_put. rewrite (pi_cap _ _ _ H). destruct n; [lia|]. cbn.
    by rewrite Nat.sub_0_r. }
  assert (Hsub : (take (n - 1) (entry_remove key (lru_entries (plan_cache c)))).*2 `sublist_of` cached_plans (plan_cache c)).
  { apply fmap_sublist. etrans; [apply sublist_take|]. apply sublist_filter. }
  assert (Hpc : p ∉ cached_plans (plan_cache c)) by (intros Hin; apply Hp, elem_of_app; by left).
  eapply awp_mono, (drop_plans_spec n (set_cache k c) _ []).
  - intros _ c' es (-> & H' & -> & ->). split_and!; try done. cbn. rewrite Hpk. by left.
  - rewrite app_nil_r. apply (pinv_same n c [p]); try done.
    + intros q. change (held_plans (set_cache k c)) with (cached_plans k ++ flying c).
      unfold held_plans. rewrite Hpk, !elem_of_app, !list_elem_of_filter, elem_of_cons.
      set (T := (take _ _).*2) in *. rewrite list_elem_of_singleton.
      assert (HT : q ∈ T → q ∈ cached_plans (plan_cache c)) by (intros Hq; by eapply elem_of_sublist).
      destruct (decide (q = p)), (decide (q ∈ T)); tauto.
    + apply NoDup_filter, (pi_cached _ _ _ H).
    + cbn. rewrite Hpk. constructor; [by intros Hin; apply Hpc; eapply elem_of_sublist|].
      eapply sublist_NoDup; [apply (pi_cached _ _ _ H)|done].
    + apply lru_put_wf, H.
    + cbn. by rewrite Hc, (pi_cap _ _ _ H).
Qed.

(** A plan that was just built. *)
Lemma pinv_built n c l L' p :
  pinv n c [] → lib_ok l L' → NoDup (plan_objs p) → objs (plan_objs p) ⊆ L' →
  L' ∖ objs (plan_objs p) = objs (held_plans c ≫= plan_objs) → p ∉ held_plans c ∧ pinv n (set_lib l c) [p].
Proof.
  intros [H1 H2 H3 _ H5 H6 H7] Hl Hd Hsub HLd. cbn [app] in *.
  assert (Hnew : ∀ q o, q ∈ held_plans c → o ∈ plan_objs q → o ∉ plan_objs p).
  { intros q o Hq Ho Hop. assert (Hin : o ∈ objs (held_plans c ≫= plan_objs)) by (apply elem_of_objs; eauto).
    rewrite <-HLd in Hin. apply elem_of_difference in Hin as [_ Hn]. by apply Hn, elem_of_list_to_set. }
  assert (Hp : p ∉ held_plans c) by (intros Hp; apply (Hnew p (plan p) Hp); by left).
  split; [done|]. split; try done; cbn [lib set_lib app].
  - change (held_plans (set_lib l c)) with (held_plans c).
    assert (objs ((p :: held_plans c) ≫= plan_objs) = L') as ->; [|done].
    rewrite bind_cons. unfold objs in *. rewrite list_to_set_app_L, <-HLd. symmetry. by apply union_difference_L.
  - intros q. change (held_plans (set_lib l c)) with (held_plans c). intros [->|Hq]%elem_of_cons; [done|by apply H2].
  - intros q q'. change (held_plans (set_lib l c)) with (held_plans c).
    intros [->|Hq]%elem_of_cons [->|Hq']%elem_of_cons Hne o Ho.
    + done.
    + intros Ho'. exact (Hnew q' o Hq' Ho' Ho).
    + exact (Hnew q o Hq Ho).
    + exact (H3 q q' Hq Hq' Hne o Ho).
  - apply NoDup_singleton.
Qed.

(** Obtaining a plan keeps the invariant, and the plan is then cached under its key. *)
Lemma get_or_build_spec n c key build :
  1 ≤ n → builds [] build plan_objs → pinv n c [] →
  awp (get_or_build key build) (λ r c' es, es = [] ∧ pinv n c' [] ∧ flying c' = flying c ∧
    match r with
    | Ok p => entry_find key (lru_entries (plan_cache c')) = Some p
    | Err _ => entry_find key (lru_entries (plan_cache c)) = None ∧ plan_cache c' = plan_cache c
    end) c.
Proof.
  intros Hn Hb H. unfold get_or_build. awp_steps.
  pose proof (pi_wf _ _ _ H) as Hwf. destruct (entry_find key (lru_entries (plan_cache c))) as [p|] eqn:Hf.
  - destruct (lru_get_hit (plan_cache c) key p Hf) as (Hg & _ & Hcap).
    pose proof (lru_get_find key key (plan_cache c) Hwf) as Hfind.
    pose proof (lru_get_perm key (plan_cache c) Hwf) as Hperm. pose proof (lru_get_wf key (plan_cache c) Hwf) as Hw.
    destruct (lru_get key (plan_cache c)) as [o k]. cbn in *. subst o. awp_steps. split_and!; [done| |done|].
    + assert (Hpl : cached_plans k ≡ₚ cached_plans (plan_cache c)) by (unfold cached_plans; by rewrite Hperm).
      apply (pinv_same n c []); try done.
      * intros q. change (held_plans (set_cache k c)) with (cached_plans k ++ flying c).
        unfold held_plans. by rewrite Hpl.
      * constructor.
      * change (NoDup (cached_plans k)). rewrite Hpl. apply (pi_cached _ _ _ H).
      * cbn. by rewrite Hcap, (pi_cap _ _ _ H).
    + cbn. by rewrite Hfind.
  - rewrite (lru_get_miss (plan_cache c) key Hf). cbn [fst snd].
    assert (set_cache (plan_cache c) c = c) as -> by (by destruct c).
    apply awp_bind, awp_zoom. eapply awp_mono, Hb; [|apply (pi_lib _ _ _ H)|constructor|done].
    intros r l es (-> & _ & L' & Hl & Hr). destruct r as [p|e].
    + destruct Hr as (Hd & Hsub & HLd). unfold objs at 3 in HLd. cbn in HLd. rewrite difference_empty_L in HLd.
      destruct (pinv_built n c l L' p H Hl Hd Hsub HLd) as [Hp Hpi]. awp_steps.
      eapply awp_mono, put_plan_spec; [|done|exact Hp|exact Hpi].
      intros _ c' es (-> & H' & Hfl & Hk & _). awp_steps. split_and!; [done|done|done|].
      rewrite Hk. cbn. destruct (lru_put_entries (plan_cache c) key p) as [-> _]. unfold entry_put.
      rewrite (pi_cap _ _ _ H). destruct n; [lia|]. unfold entry_find. cbn. by rewrite bool_decide_eq_true_2.
    + awp_steps. split_and!; [done| |done|done|done]. destruct H as [H1 H2 H3 H4 H5 H6 H7]. split; try done.
      unfold objs at 2 in Hr. cbn in Hr. rewrite difference_empty_L in Hr. by subst L'.
Qed.

Context (alloc : Z → option string) (sip : list Z → Z) (op_code : Operator → Z).

Lemma cached_held key (c : ctx) p : entry_find key (lru_entries (plan_cache c)) = Some p → lru_wf (plan_cache c) → p ∈ held_plans c.
Proof.
  intros Hf [Hd _]. apply entry_find_Some in Hf; [|done]. apply elem_of_app. left.
  by apply (list_elem_of_fmap_2 snd) in Hf.
Qed.

(** One more reference to a plan that is held, by hand or by a kernel. *)
Lemma pinv_take n c p : p ∈ held_plans c → pinv n c [] → pinv n c [p] ∧ pinv n (set_flying (p :: flying c) c) [].
Proof.
  intros Hp H. split; (apply (pinv_same n c []); [done|done| | |apply (pi_cached _ _ _ H)|apply H|apply H]).
  - intros q. cbn. rewrite elem_of_cons. naive_solver.
  - apply NoDup_singleton.
  - intros q. unfold held_plans in *. cbn. rewrite elem_of_app in Hp. rewrite !elem_of_app, elem_of_cons. naive_solver.
  - constructor.
Qed.

Lemma ensure_spec m n c ps : pinv n c ps →
  awp (ensure alloc m) (λ r c' es, es = [] ∧ pinv n c' ps ∧ plan_cache c' = plan_cache c ∧ flying c' = flying c ∧
    ∀ b, r = Ok b → m ≠ 0%Z → b = next_power_of_two m ∧ with_bucket m c' = Some b) c.
Proof.
  intros H. unfold ensure, with_bucket. destruct (decide (m = 0%Z)) as [->|Hm]; [by awp_steps|]. awp_steps.
  destruct (decide (next_power_of_two m ∈ buckets c)) as [Hin|Hout].
  { awp_steps. split_and!; try done. intros b [= <-] _. by rewrite decide_True. }
  destruct (alloc (next_power_of_two m)); awp_steps; split_and!; try done.
  - destruct H. by split.
  - intros b [= <-] _. cbn. rewrite decide_True; [done|]. apply elem_of_app. right. by left.
Qed.

Lemma lib_call_inner {S} answer err call (s : S * Gpu) :
  awp (lib_call answer err call) (λ _ s' _, s'.1 = s.1) s.
Proof. unfold lib_call, get_gpu, on_gpu. destruct (answer call); by awp_steps. Qed.

Lemma launch_inv answer n o c clones g :
  1 ≤ n → pinv n c [] →
  awp (launch alloc answer (op_spec lib_answer sip op_code o) c clones) (λ _ s' _,
    ∃ c', s'.1 = Real c' ∧ pinv n c' []) (Real c, g).
Proof.
  intros Hn H. unfold launch. apply awp_bind, awp_zoom.
  eapply awp_mono, get_or_build_spec; [|done|apply op_build_builds|exact H].
  intros r c1 es (-> & H1 & _ & Hr). destruct r as [p|e].
  2:{ unfold drop_clones, on_gpu. awp_steps. by exists c1. }
  pose proof (cached_held _ _ _ Hr (pi_wf _ _ _ H1)) as Hp. unfold get_ctx. awp_steps. cbn [fst snd].
  apply awp_zoom. set (o' := op_spec lib_answer sip op_code o) in *.
  apply (awp_mono _ (λ w c2 es2, pinv n c2 [] ∧ p ∈ held_plans c2)).
  2:{ destruct (s_workspace o'); [|by awp_steps]. eapply awp_mono, ensure_spec; [|exact H1].
      intros w c2 es2 (_ & H2 & Hk & Hf & _). split; [done|]. unfold held_plans. by rewrite Hk, Hf. }
  intros w c2 es2 [H2 Hp2]. destruct (pinv_take n c2 p Hp2 H2) as [H2p H2f]. awp_steps. destruct w as [z|e].
  - awp_steps. unfold run_kernel. awp_steps. eapply awp_mono, lib_call_inner.
    intros x s3 es3 Hs3. destruct x as [i|e]; awp_steps.
    + apply awp_zoom. unfold spawn_task, on_gpu. awp_steps. cbn [fst snd]. eauto.
    + unfold drop_clones, on_gpu. awp_steps. cbn. exists c2. by rewrite Hs3.
  - awp_steps. apply awp_zoom. eapply awp_mono, drop_plan_spec; [|exact H2p].
    intros _ c3 es3 (_ & H3 & _). unfold drop_clones, on_gpu. awp_steps. cbn. eauto.
Qed.

(** Kernels are launched, their targets unwrapped, with whatever answers; and their
    tasks end. *)
Inductive plan_step : ctx → ctx → Prop :=
  | PLaunch answer o clones g c c' :
      (exec (launch alloc answer (op_spec lib_answer sip op_code o) c clones) (Real c, g)).1.1 = Real c' → plan_step c c'
  | PFinish i p c :
      flying c !! i = Some p → plan_step c (exec (drop_plan p) (set_flying (delete i (flying c)) c)).1.

Definition ctx_new (cap : nat) : ctx :=
  {| lib := Lib_new; plan_cache := lru_new (cap `max` 1); flying := []; buckets := [] |}.

Lemma plan_step_inv n c c' : 1 ≤ n → pinv n c [] → plan_step c c' → pinv n c' [].
Proof.
  intros Hn H Hs. destruct Hs as [answer o clones g c c' He|i p c Hi].
  - pose proof (launch_inv answer n o c clones g Hn H) as Hl. apply awp_exec in Hl. destruct (exec _ _) as [[i g'] es].
    cbn in He. subst. by destruct Hl as (? & [= <-] & ?).
  - assert (Hd : pinv n (set_flying (delete i (flying c)) c) [p]).
    { apply (pinv_same n c []); try done; try apply H; [|apply NoDup_singleton].
      intros q. unfold held_plans. cbn. rewrite elem_of_cons, !elem_of_app.
      rewrite (delete_Permutation _ _ _ Hi) at 2. rewrite elem_of_cons. tauto. }
    pose proof (drop_plan_spec _ _ _ _ Hd) as Hdrop. apply awp_exec in Hdrop. destruct (exec _ _). tauto.
Qed.

(** C24 (plans are neither leaked nor destroyed in use): along every execution of
    kernels launched through the plan cache and of kernels that finish, whatever
    cuTENSOR and the allocator answer, the library never sees an object that is
    not alive, used or destroyed twice; its live objects are exactly those of the
    plans in the cache and of the kernels in flight, no two of which share one;
    and the cache keeps within its capacity. *)
Theorem plans_conserved cap c :
  rtc plan_step (ctx_new cap) c →
  (∃ L, live (lib c) = Some L ∧ ∀ o, o ∈ L ↔ ∃ p, p ∈ held_plans c ∧ o ∈ plan_objs p) ∧
  (∀ p q, p ∈ held_plans c → q ∈ held_plans c → p ≠ q → ∀ o, o ∈ plan_objs p → o ∉ plan_objs q) ∧
  length (cached_plans (plan_cache c)) ≤ cap `max` 1.
Proof.
  intros Hs. assert (H : pinv (cap `max` 1) c []).
  { remember (ctx_new cap) as c0 eqn:Hc0. assert (H0 : pinv (cap `max` 1) c0 []).
    { subst. destruct (lru_entries_new (C := C) (cap `max` 1)) as [He Hc].
      assert (Hh : held_plans (ctx_new cap) = []) by (unfold held_plans, cached_plans; cbn; by rewrite He).
      split; cbn [app lib plan_cache ctx_new]; rewrite ?Hh.
      - apply lib_new_ok.
      - by intros p ?%elem_of_nil.
      - by intros p q ?%elem_of_nil.
      - constructor.
      - unfold cached_plans. rewrite He. constructor.
      - apply lru_new_wf.
      - done. }
    clear Hc0. induction Hs as [|c1 c2 c3 H1 _ IH]; [done|]. apply IH. eapply plan_step_inv; [lia|done|done]. }
  split; [|split].
  - destruct H as [[Hl _] _ _ _ _ _ _]. eexists. split; [exact Hl|]. intros o. apply elem_of_objs.
  - apply H.
  - destruct H as [_ _ _ _ _ [_ Hwf] Hcap]. unfold cached_plans. rewrite length_fmap. lia.
Qed.
End cache.

(** ** Keys *)

Section separated.
Context (sep : Z).

Lemma separated_inj ls1 ls2 :
  length ls1 = length ls2 → Forall (λ l, sep ∉ l) ls1 → Forall (λ l, sep ∉ l) ls2 →
  separated sep ls1 = separated sep ls2 → ls1 = ls2.
Proof.
  assert (Hcut : ∀ l1 l2 r1 r2, sep ∉ l1 → sep ∉ l2 → l1 ++ sep :: r1 = l2 ++ sep :: r2 → l1 = l2 ∧ r1 = r2).
  { induction l1 as [|x l1 IH]; intros [|y l2] r1 r2 H1 H2 He; cbn in He.
    - by injection He.
    - injection He as -> _. by destruct H2; left.
    - injection He as -> _. by destruct H1; left.
    - injection He as -> He. apply not_elem_of_cons in H1 as [_ H1], H2 as [_ H2]. by destruct (IH l2 r1 r2 H1 H2 He) as [-> ->]. }
  revert ls2. induction ls1 as [|l1 ls1 IH]; intros [|l2 ls2] Hl H1 H2 He; try done.
  apply Forall_cons in H1 as [Hl1 H1], H2 as [Hl2 H2]. injection Hl as Hl.
  destruct ls1 as [|m1 ls1], ls2 as [|m2 ls2]; try done; cbn [separated] in He; [by subst|].
  apply Hcut in He as [-> He]; [|done..]. f_equal. by apply IH.
Qed.
End separated.

Lemma ints_bytes_inj w l1 l2 :
  in_width 64 (Z.of_nat (length l1)) → in_width 64 (Z.of_nat (length l2)) →
  Forall (signed (8 * Z.of_nat w)) l1 → Forall (signed (8 * Z.of_nat w)) l2 →
  ints_bytes w l1 = ints_bytes w l2 → l1 = l2.
Proof.
  intros Hn1 Hn2 H1 H2. by apply (code_inj_nil (ints_bytes w) _ _ (seq_code _ _ (int_code w))).
Qed.

(** The vectors of a request are in memory, and no mode or extent is the least
    integer of its type. *)
Definition valid_operands (specs : list OperandSpec) : Prop :=
  Forall (λ s, Forall (λ m, I32_MIN < m < 2 ^ 31)%Z (modes s) ∧ Forall (λ e, I64_MIN < e < 2 ^ 63)%Z (extent s)) specs ∧
  in_width 64 (Z.of_nat (length (separated I32_MIN (modes <$> specs)))) ∧
  in_width 64 (Z.of_nat (length (separated I64_MIN (extent <$> specs)))).

Lemma separated_forall (P : Z → Prop) sep ls : P sep → Forall (Forall P) ls → Forall P (separated sep ls).
Proof.
  intros Hs. induction 1 as [|l ls Hl Hls IH]; [constructor|]. cbn [separated].
  destruct ls; [done|]. apply Forall_app. by split; [|constructor].
Qed.

(** Two requests with as many operands and the same hashes have the same modes and
    extents, unless the hasher collides on them. *)
Lemma hashes_inj sip s1 s2 :
  length s1 = length s2 → valid_operands s1 → valid_operands s2 →
  (∀ b1 b2, b1 ∈ [ints_bytes 4 (separated I32_MIN (modes <$> s1)); ints_bytes 8 (separated I64_MIN (extent <$> s1))] →
    b2 ∈ [ints_bytes 4 (separated I32_MIN (modes <$> s2)); ints_bytes 8 (separated I64_MIN (extent <$> s2))] →
    sip b1 = sip b2 → b1 = b2) →
  hash_i32s sip (separated I32_MIN (modes <$> s1)) = hash_i32s sip (separated I32_MIN (modes <$> s2)) →
  hash_i64s sip (separated I64_MIN (extent <$> s1)) = hash_i64s sip (separated I64_MIN (extent <$> s2)) →
  modes <$> s1 = modes <$> s2 ∧ extent <$> s1 = extent <$> s2.
Proof.
  intros Hl (H1 & Hm1 & He1) (H2 & Hm2 & He2) Hsip Hm He.
  assert (Hsep : ∀ {f : OperandSpec → list Z} {s : list OperandSpec} {sep hi : Z},
    (sep < hi)%Z → Forall (λ s, Forall (λ m, sep < m < hi)%Z (f s)) s →
    Forall (λ l, sep ∉ l) (f <$> s) ∧ Forall (λ m, sep ≤ m < hi)%Z (separated sep (f <$> s))).
  { intros f s sep hi Hlt Hf. split.
    - apply Forall_fmap. eapply Forall_impl; [exact Hf|]. intros x Hx Hin. rewrite Forall_forall in Hx. specialize (Hx _ Hin). lia.
    - apply separated_forall; [lia|]. apply Forall_fmap. eapply Forall_impl; [exact Hf|]. intros x Hx.
      eapply Forall_impl; [exact Hx|]. intros m. cbn. lia. }
  assert (Hspl : ∀ s, Forall (λ s, Forall (λ m, I32_MIN < m < 2 ^ 31)%Z (modes s) ∧ Forall (λ e, I64_MIN < e < 2 ^ 63)%Z (extent s)) s →
    (Forall (λ l, I32_MIN ∉ l) (modes <$> s) ∧ Forall (signed (8 * Z.of_nat 4)) (separated I32_MIN (modes <$> s))) ∧
    (Forall (λ l, I64_MIN ∉ l) (extent <$> s) ∧ Forall (signed (8 * Z.of_nat 8)) (separated I64_MIN (extent <$> s)))).
  { intros s Hs. split; apply Hsep; try done; eapply Forall_impl; try exact Hs; cbn; tauto. }
  destruct (Hspl s1 H1) as [[] []], (Hspl s2 H2) as [[] []]. split.
  - apply Hsip in Hm; [|by left..]. apply (ints_bytes_inj 4) in Hm; [|done..].
    apply (separated_inj I32_MIN) in Hm; [done|by rewrite !length_fmap|done|done].
  - apply Hsip in He; [|right; by left..]. apply (ints_bytes_inj 8) in He; [|done..].
    apply (separated_inj I64_MIN) in He; [done|by rewrite !length_fmap|done|done].
Qed.

(** *** What a plan depends on *)

Definition op_specs (o : TensorOp) : list OperandSpec :=
  match o with
  | OpContract r => [co_a r; co_b r; co_c r]
  | OpReduce r => [re_a r; re_c r]
  | OpPermute r => [pe_a r; pe_b r]
  | OpBinary r => [bi_a r; bi_c r; bi_d r]
  | OpTrinary r => [tr_a r; tr_b r; tr_c r; tr_d r]
  end.
Definition op_ops (o : TensorOp) : list Operator :=
  match o with
  | OpContract r => []
  | OpReduce r => [op_reduce r]
  | OpPermute r => [pe_op_a r]
  | OpBinary r => [bi_op_a r; bi_op_c r; bi_op_ac r]
  | OpTrinary r => [tr_op_a r; tr_op_b r; tr_op_c r; tr_op_ab r; tr_op_abc r]
  end.
Definition op_compute (o : TensorOp) : ComputeDesc :=
  match o with
  | OpContract r => co_compute r | OpReduce r => re_compute r | OpPermute r => pe_compute r
  | OpBinary r => bi_compute r | OpTrinary r => tr_compute r
  end.

Section build_ext.
Context (lib_answer : nat → ObjCall → result Z string).

Lemma build_plan_ext d align specs specs' label f f' algo_name l :
  Forall2 (λ s s', s.1 = s'.1 ∧ desc_call d align s.2 = desc_call d align s'.2) specs specs' → (∀ ds, f ds = f' ds) →
  build_plan_of lib_answer d align specs label f algo_name l = build_plan_of lib_answer d align specs' label f' algo_name l.
Proof.
  intros Hs Hf. unfold build_plan_of, create_descs.
  assert (desc_specs d align specs = desc_specs d align specs') as ->.
  { unfold desc_specs. induction Hs as [|[n s] [n' s'] ss ss' [Hn Hd] _ IH]; [done|]. cbn in *. by rewrite Hn, Hd, IH. }
  apply create_all_ext. intros ds l1. by rewrite Hf.
Qed.
End build_ext.

(** Whether the tags of two requests of a kind tell their operators apart. *)
Definition tags_apart (sip : list Z → Z) (op_code : Operator → Z) (o1 o2 : TensorOp) : Prop :=
  let tag o := key_tag (s_key (op_spec (λ _ _, Ok 0%Z) sip op_code o)) in
  tag o1 = tag o2 → op_ops o1 = op_ops o2 ∧ op_compute o1 = op_compute o2.

(** With one operator of a code below 64 they do: no two of the 512 sums coincide. *)
Definition all_computes : list ComputeDesc := [F32; F64; MinF32; MinF64; MinF16; MinBf16; Tf32; C32F].
Definition one_tag (prime : Z) (cn : ComputeDesc * Z) : Z := Z.lxor (compute_desc_tag cn.1) (wmul 32 cn.2 prime).
Definition tag_grid : list (ComputeDesc * Z) := c ← all_computes; (λ n, (c, Z.of_nat n)) <$> seq 0 64.
Definition tags_distinct (prime : Z) : bool :=
  let tagged := (λ x, (x, one_tag prime x)) <$> tag_grid in
  forallb (λ x, forallb (λ y, if (x.2 =? y.2)%Z then bool_decide (x.1 = y.1) else true) tagged) tagged.

Lemma one_tag_inj prime c1 c2 x1 x2 :
  tags_distinct prime = true → (0 ≤ x1 < 64)%Z → (0 ≤ x2 < 64)%Z →
  one_tag prime (c1, x1) = one_tag prime (c2, x2) → c1 = c2 ∧ x1 = x2.
Proof.
  intros Hd H1 H2 Ht. unfold tags_distinct in Hd. rewrite forallb_forall in Hd.
  assert (Hin : ∀ c x, (0 ≤ x < 64)%Z → In ((c, x), one_tag prime (c, x)) ((λ x, (x, one_tag prime x)) <$> tag_grid)).
  { intros c x Hx. apply list_elem_of_In, (list_elem_of_fmap_2 (λ x, (x, one_tag prime x))), list_elem_of_bind.
    exists c. split.
    - apply list_elem_of_fmap. exists (Z.to_nat x). rewrite elem_of_seq, Z2Nat.id by lia. split; [done|lia].
    - unfold all_computes. rewrite !elem_of_cons. destruct c; tauto. }
  specialize (Hd _ (Hin c1 x1 H1)). rewrite forallb_forall in Hd. specialize (Hd _ (Hin c2 x2 H2)).
  cbn [fst snd] in Hd. rewrite Ht, Z.eqb_refl in Hd. apply bool_decide_eq_true_1 in Hd. by injection Hd.
Qed.

Lemma compute_desc_tag_inj c1 c2 : compute_desc_tag c1 = compute_desc_tag c2 → c1 = c2.
Proof. by destruct c1, c2. Qed.

Lemma tags_distinct_reduce : tags_distinct 0x9E3779B9 = true.
Proof. run. Qed.
Lemma tags_distinct_permute : tags_distinct 0x27d4eb2f = true.
Proof. run. Qed.

Lemma tags_apart_small sip op_code o1 o2 :
  (∀ p q, op_code p = op_code q → p = q) → (∀ p, 0 ≤ op_code p < 64)%Z →
  match o1, o2 with
  | OpContract _, OpContract _ | OpReduce _, OpReduce _ | OpPermute _, OpPermute _ => tags_apart sip op_code o1 o2
  | _, _ => True
  end.
Proof.
  intros Hinj Hb.
  destruct o1 as [r1|r1|r1|r1|r1], o2 as [r2|r2|r2|r2|r2]; try exact Logic.I; unfold tags_apart.
  - intros He. split; [done|]. by apply compute_desc_tag_inj.
  - intros He. change (one_tag 0x9E3779B9 (re_compute r1, op_code (op_reduce r1)) =
      one_tag 0x9E3779B9 (re_compute r2, op_code (op_reduce r2))) in He.
    destruct (one_tag_inj _ _ _ _ _ tags_distinct_reduce (Hb _) (Hb _) He) as [Hc Ho%Hinj]. cbn. by rewrite Hc, Ho.
  - intros He. change (one_tag 0x27d4eb2f (pe_compute r1, op_code (pe_op_a r1)) =
      one_tag 0x27d4eb2f (pe_compute r2, op_code (pe_op_a r2))) in He.
    destruct (one_tag_inj _ _ _ _ _ tags_distinct_permute (Hb _) (Hb _) He) as [Hc Ho%Hinj]. cbn. by rewrite Hc, Ho.
Qed.

Section reuse.
Context (lib_answer : nat → ObjCall → result Z string) (sip : list Z → Z) (op_code : Operator → Z).

Abbreviation spec_of := (op_spec lib_answer sip op_code).

(** A cached plan is the plan that would be built: two requests with the same
    key, the same strides and valid vectors have their plans built by exactly the
    same library calls, with the same outcome, from every state of the library;
    so a plan found in the cache is the one the request needs. It supposes that
    the hasher does not collide on the two requests and that the mix of the
    operators tells theirs apart (which it does for contractions, reductions and
    permutations, for operator codes below 64). *)
Theorem cached_plan_fits (o1 o2 : TensorOp) l :
  s_key (spec_of o1) = s_key (spec_of o2) →
  stride <$> op_specs o1 = stride <$> op_specs o2 →
  valid_operands (op_specs o1) → valid_operands (op_specs o2) →
  (∀ b1 b2,
    b1 ∈ [ints_bytes 4 (separated I32_MIN (modes <$> op_specs o1)); ints_bytes 8 (separated I64_MIN (extent <$> op_specs o1))] →
    b2 ∈ [ints_bytes 4 (separated I32_MIN (modes <$> op_specs o2)); ints_bytes 8 (separated I64_MIN (extent <$> op_specs o2))] →
    sip b1 = sip b2 → b1 = b2) →
  tags_apart sip op_code o1 o2 →
  s_build (spec_of o1) l = s_build (spec_of o2) l.
Proof.
  intros Hk Hst Hv1 Hv2 Hsip Htag.
  assert (Htags : op_ops o1 = op_ops o2 ∧ op_compute o1 = op_compute o2).
  { apply Htag. apply (f_equal key_tag) in Hk. by destruct o1, o2. }
  clear Htag. assert (Hlen : length (op_specs o1) = length (op_specs o2)).
  { apply (f_equal length) in Hst. by rewrite !length_fmap in Hst. }
  assert (Hme : modes <$> op_specs o1 = modes <$> op_specs o2 ∧ extent <$> op_specs o1 = extent <$> op_specs o2).
  { apply (hashes_inj sip); try done.
    - apply (f_equal modes_hash) in Hk. by destruct o1, o2.
    - apply (f_equal extents_hash) in Hk. by destruct o1, o2. }
  clear Hv1 Hv2 Hsip Hlen. destruct Htags as [Hops Hc], Hme as [Hm He].
  destruct o1 as [r1|r1|r1|r1|r1], o2 as [r2|r2|r2|r2|r2]; try discriminate Hk;
    injection Hk as _ _ Hal _ Hd; apply dtype_name_inj in Hd; cbn in Hops, Hc, Hm, He, Hst, Hal, Hd; simplify_eq;
    cbn [s_build op_spec contract_execute reduce_execute permute_execute execute_binary execute_trinary];
    unfold contract_build_plan, reduce_build_plan, permute_build_plan, build_binary_plan, build_trinary_plan;
    rewrite Hd, Hal; apply build_plan_ext; repeat constructor; cbn; unfold desc_call; try congruence;
    intros ds; unfold contraction_call, reduction_call, permutation_call, binary_call, trinary_call, with_modes; congruence.
Qed.
End reuse.

(** ** What the actor answers *)

Section outcome.
Context {C : Type} `{!LruOps PlanKey CachedPlan C}.
Context (lib_answer : nat → ObjCall → result Z string) (alloc : Z → option string).
Context (sip : list Z → Z) (op_code : Operator → Z) (answer : Call → option string).

Abbreviation spec_of := (msg_spec lib_answer sip op_code).
Abbreviation thandle := (tensor_handle (C := C) lib_answer alloc sip op_code answer).

Definition tensor_effects (g : Gpu) (st : TensorInner C) (m : TensorMsg) : list KEff :=
  let o := spec_of m in
  [Reply (s_reply o) (Err
    match st with
    | Mock => tensor_mock
    | Real _ =>
      match dims_error o, access_list (dev g) (buf <$> s_specs o) with
      | Some msg, _ => Unrecoverable msg
      | None, Err e => e
      | None, Ok _ => Unrecoverable (s_shared o)
      end
    end)].

Lemma target_operand m : buf (s_target (spec_of m)) ∈ buf <$> s_specs (spec_of m).
Proof. apply list_elem_of_fmap_2. destruct m as [[]|]; cbn; rewrite !elem_of_cons; tauto. Qed.

Lemma tensor_handle_spec m (st : TensorInner C) g :
  Forall (holds (heap g)) (buf <$> s_specs (spec_of m)) →
  awp (thandle m) (λ _ st' es,
    st'.1 = st ∧ kpost (s_reply (spec_of m)) g st'.2 es ∧ es = tensor_effects g st m) (st, g).
Proof.
  intros Hh. unfold tensor_handle, tensor_effects. awp_steps. cbn [fst]. destruct st as [ctx|].
  2:{ awp_steps. split_and!; [done| |done]. split; [done|by left]. }
  unfold execute. destruct (dims_error _) as [msg|].
  - awp_steps. split_and!; [done| |done]. split; [done|by left].
  - eapply awp_mono, with_operands_shared; [|done|apply target_operand]. intros _ s' es (-> & Hp & ->). done.
Qed.

#[global] Instance tensor_law :
  KernelLaw (TensorInner C) TensorMsg (KernelActor0 := tensor_actor lib_answer alloc sip op_code answer).
Proof. intros m st g Hh. eapply awp_mono; [|by apply tensor_handle_spec]. cbn. tauto. Qed.

(** No message reaches cuTENSOR: the sender's handle of the target makes the
    unwrapping fail, so no plan is ever built, cached or run. The reply is, in this
    order, the mock actor's error, the first operand with a wrong number of modes,
    the first stale buffer, or the shared target. *)
Theorem tensor_outcome m (st : TensorInner C) g :
  Forall (holds (heap g)) (buf <$> s_specs (spec_of m)) →
  let '((st', g'), es) := exec (thandle m) (st, g) in
  st' = st ∧ queue g' = queue g ∧ tasks g' = tasks g ∧ es = tensor_effects g st m.
Proof.
  intros Hh. pose proof (tensor_handle_spec m st g Hh) as Hs. apply awp_exec in Hs.
  destruct (exec _ _) as [[st' g'] es]. cbn in Hs. destruct Hs as (-> & [_ Hp] & ->).
  destruct Hp as [(Hq & Ht & _)|(op & t & _ & _ & _ & _ & _ & _ & Hn)]; [done|discriminate Hn].
Qed.
End outcome.

(** *** Witnesses *)

Definition toy_device : DeviceState := DeviceState_new 0.
Definition operand (sl : slice_id) (ms es ss : list Z) : OperandSpec :=
  {| buf := GpuRef_new sl toy_device; extent := es; stride := ss; modes := ms |}.
Definition matmul (ss : list Z) : TensorOp :=
  OpContract (ContractRequest_new Dtype.F32 (operand 1 [105; 107]%Z [4; 8]%Z ss) (operand 2 [107; 106]%Z [8; 2]%Z [])
    (operand 3 [105; 106]%Z [4; 2]%Z []) 1 0 9).
Definition row_sum : TensorOp :=
  OpReduce (ReductionRequest_new Dtype.F32 (operand 1 [105; 107]%Z [4; 8]%Z []) (operand 3 [105]%Z [4]%Z []) 1 0 "CUTENSOR_OP_ADD" 10).
Definition toy_sip : list Z → Z := foldl (λ h b, wrap 64 (h * 1099511628211 + b)) 7%Z.
Definition toy_code (o : Operator) : Z := if decide (o = IDENTITY) then 1%Z else 3%Z.
(** Every call succeeds, with a workspace of 100 bytes. *)
Definition toy_lib (_ : nat) (_ : ObjCall) : result Z string := Ok 100%Z.
Definition toy_step := plan_step (C := ListLru PlanKey CachedPlan) toy_lib (λ _, None) toy_sip toy_code.
Definition toy_launch (o : TensorOp) (c : TensorDispatchCtx (ListLru PlanKey CachedPlan)) :=
  exec (launch (λ _, None) (λ _, None) (op_spec toy_lib toy_sip toy_code o) c [])
    (Real c, Gpu_new (Some toy_device)).
Definition inner_ctx {C} (c : TensorDispatchCtx C) (i : TensorInner C) : TensorDispatchCtx C :=
  match i with Real c => c | Mock => c end.

(** A cache of one plan: a contraction in flight whose plan a reduction evicts. *)
Definition toy_ctx0 := ctx_new (C := ListLru PlanKey CachedPlan) 1.
Definition toy_ctx1 := inner_ctx toy_ctx0 (toy_launch (matmul []) toy_ctx0).1.1.
Definition toy_ctx2 := inner_ctx toy_ctx1 (toy_launch row_sum toy_ctx1).1.1.
Definition toy_ctx3 := (exec (drop_plan (default {| plan := 0; pref := 0; op := 0; descs := []; workspace_size := 0 |}
  (flying toy_ctx2 !! 1))) (set_flying (delete 1 (flying toy_ctx2)) toy_ctx2)).1.

Lemma toy_steps : rtc toy_step toy_ctx0 toy_ctx3.
Proof.
  eapply rtc_l; [apply (PLaunch toy_lib (λ _, None) toy_sip toy_code (λ _, None) (matmul []) [] (Gpu_new (Some toy_device)) toy_ctx0 toy_ctx1); by vm_compute|].
  eapply rtc_l; [apply (PLaunch toy_lib (λ _, None) toy_sip toy_code (λ _, None) row_sum [] (Gpu_new (Some toy_device)) toy_ctx1 toy_ctx2); by vm_compute|].
  eapply rtc_l; [|apply rtc_refl].
  apply (PFinish toy_lib (λ _, None) toy_sip toy_code 1). by vm_compute.
Qed.

Lemma plans_conserved_witness :
  length (cached_plans (plan_cache toy_ctx3)) ≤ 1 ∧ length (events (lib toy_ctx2)) = 13 ∧
  length (events (lib toy_ctx3)) = 19.
Proof.
  split; [|split; by vm_compute]. apply (plans_conserved toy_lib (λ _, None) toy_sip toy_code 1 toy_ctx3 toy_steps).
Defined.

Lemma cached_plan_fits_witness :
  s_build (op_spec toy_lib toy_sip toy_code (matmul [])) Lib_new =
  s_build (op_spec toy_lib toy_sip toy_code (OpContract (ContractRequest_new Dtype.F32
    (operand 4 [105; 107]%Z [4; 8]%Z []) (operand 5 [107; 106]%Z [8; 2]%Z []) (operand 6 [105; 106]%Z [4; 2]%Z []) 2 1 11))) Lib_new.
Proof.
  apply (cached_plan_fits toy_lib toy_sip toy_code).
  - by vm_compute.
  - done.
  - split_and!; repeat constructor; by vm_compute.
  - split_and!; repeat constructor; by vm_compute.
  - intros b1 b2. rewrite !elem_of_cons.
    intros [->|[->|[]%elem_of_nil]] [->|[->|[]%elem_of_nil]] Hs; try exact eq_refl; vm_compute in Hs; discriminate Hs.
  - by intros _.
Defined.

(** Strides are not part of the key, yet the plan depends on them: a request may
    get the plan of another layout. *)
Example strides_share_a_plan :
  s_key (op_spec toy_lib toy_sip toy_code (matmul [])) = s_key (op_spec toy_lib toy_sip toy_code (matmul [8; 1]%Z)) ∧
  (exec (s_build (op_spec toy_lib toy_sip toy_code (matmul []))) Lib_new).1.(events) ≠
  (exec (s_build (op_spec toy_lib toy_sip toy_code (matmul [8; 1]%Z))) Lib_new).1.(events).
Proof. split; [by vm_compute|]. intros He. vm_compute in He. discriminate He. Qed.

Definition toy_gpu : Gpu := set_heap {[1 := 1; 2 := 1; 3 := 1]} (Gpu_new (Some toy_device)).

Example contraction_refused :
  (exec (tensor_handle (C := ListLru PlanKey CachedPlan) toy_lib (λ _, None) toy_sip toy_code (λ _, None) (TOp (matmul [])))
    (Real toy_ctx0, toy_gpu)).2 = [Reply 9 (Err (Unrecoverable "Contract c has multiple live references"))].
Proof. by vm_compute. Qed.

(** Where the target is unwrapped, the plan runs with the workspace of its size class. *)
Example contraction_launched :
  (toy_launch (matmul []) toy_ctx0).2 =
    [RecordWrite 3; Enqueue {| cname := "cutensorContract"; cargs :=
       [AInt 6; AInt 1; ADev 1; ADev 2; AInt 0; ADev 3; ADev 3; ATag "workspace"; AInt 128; AInt 100] |}].
Proof. by vm_compute. Qed.

(** ** Autotuning *)

Module Autotune.

(** The algorithms that are tried, the default first. *)
Definition TOP_K_ALGOS : list string :=
  ["CUTENSOR_ALGO_DEFAULT"; "CUTENSOR_ALGO_GETT"; "CUTENSOR_ALGO_TGETT"; "CUTENSOR_ALGO_TTGT"].

Section pick.
Context {M : Type} (measure : M → string → option f64 * M).

(** One turn of the loop of [autotune_pick]. *)
Definition better (best : option (string * f64)) (a : string) (t : option f64) : option (string * f64) :=
  match t, best with
  | Some t, Some (_, bt) => if f64_ltb t bt then Some (a, t) else best
  | Some t, None => Some (a, t)
  | None, _ => best
  end.
Fixpoint pick_from (best : option (string * f64)) (as_ : list string) (m : M) : option (string * f64) * M :=
  match as_ with
  | [] => (best, m)
  | a :: as_ => let '(t, m) := measure m a in pick_from (better best a t) as_ m
  end.
Definition autotune_pick (m : M) : option string * M :=
  let '(best, m) := pick_from None TOP_K_ALGOS m in (fst <$> best, m).

(** The measurements that are made. *)
Fixpoint measured (as_ : list string) (m : M) : list (string * f64) :=
  match as_ with
  | [] => []
  | a :: as_ => let '(t, m) := measure m a in option_list ((a,.) <$> t) ++ measured as_ m
  end.

(** The pick was measured, nothing measured is less, and it is the best so far or less. *)
Lemma pick_from_spec best as_ m :
  match (pick_from best as_ m).1 with
  | None => best = None ∧ measured as_ m = []
  | Some w =>
    match best with None => w ∈ measured as_ m | Some b => w = b ∨ (w ∈ measured as_ m ∧ f64_ltb w.2 b.2 = true) end ∧
    ∀ x, x ∈ measured as_ m → f64_ltb x.2 w.2 = false
  end.
Proof.
  revert best m. induction as_ as [|a as_ IH]; intros best m; cbn [pick_from measured].
  { destruct best as [w|]; [|done]. split; [by left|]. by intros x ?%elem_of_nil. }
  destruct (measure m a) as [t m1]. specialize (IH (better best a t) m1).
  destruct (pick_from (better best a t) as_ m1).1 as [w|].
  2:{ destruct t as [t|], best as [[b bt]|]; cbn in *; try (by destruct IH); by destruct IH, (f64_ltb t bt). }
  destruct t as [t|]; cbn [fmap option_fmap option_map option_list app]; [|by destruct best].
  destruct IH as [Hin Hmin]. destruct best as [[b bt]|]; cbn [better] in Hin.
  - destruct (f64_ltb t bt) eqn:Hlt; (split; [|intros x [->|Hx]%elem_of_cons; [cbn|by apply Hmin]]).
    + right. destruct Hin as [->|[Hin Hw]]; [split; [by left|done]|]. split; [by right|]. cbn in *.
      by eapply f64_ltb_trans.
    + destruct Hin as [->|[_ Hw]]; [apply f64_ltb_irrefl|by apply f64_ltb_asym].
    + destruct Hin as [->|[Hin Hw]]; [by left|right]. split; [by right|done].
    + destruct (f64_ltb t w.2) eqn:Ht; [|done]. destruct Hin as [->|[_ Hw]]; [by cbn in Ht; rewrite Ht in Hlt|].
      cbn in Hw. by rewrite (f64_ltb_trans _ _ _ Ht Hw) in Hlt.
  - split; [destruct Hin as [->|[? _]]; [by left|by right]|]. intros x [->|Hx]%elem_of_cons; [|by apply Hmin].
    destruct Hin as [->|[_ Hw]]; [apply f64_ltb_irrefl|by apply f64_ltb_asym].
Qed.

(** The algorithm picked was measured, and none measured is faster; there is none
    exactly when every measurement failed. *)
Lemma autotune_pick_spec m :
  match (autotune_pick m).1 with
  | None => measured TOP_K_ALGOS m = []
  | Some a => ∃ t, (a, t) ∈ measured TOP_K_ALGOS m ∧ ∀ a' t', (a', t') ∈ measured TOP_K_ALGOS m → f64_ltb t' t = false
  end.
Proof.
  unfold autotune_pick. pose proof (pick_from_spec None TOP_K_ALGOS m) as H.
  destruct (pick_from None TOP_K_ALGOS m) as [[[a t]|] m']; cbn [fst snd fmap option_fmap option_map] in *; [|tauto].
  exists t. destruct H as [Hin Hmin]. split; [done|]. intros a' t' Hx. apply (Hmin _ Hx).
Qed.
End pick.
End Autotune.
