(* ===== verification/Sparse.v ===== *)
(** * cuSPARSE: sparse matrices, descriptors and the actor

    Models [crates/atomr-accel-cuda/src/kernel/sparse] and the guards of
    [sys/cusparse.rs].  The two implemented products build three descriptors,
    size a workspace and enqueue; the descriptors are then owned by the kernel's
    task.  Their library calls are over [Objects.v]; the actor is an instance of
    [Envelope.v].  The six boxed requests are refused by the code, after looking
    at their operands.

    Parameters are what cuSPARSE and the allocator answer.  An index and a
    dimension are [i64] values; a scalar is its bits. *)

From stdpp Require Import pretty.
From S2P Require Import Prelude Actor Text Errors Dtype DeviceState Envelope Objects.

Definition LIB : string := "cusparse".

(** ** Matrices *)

Inductive SparseIndex : Type := I32 | I64.
Definition cusparse_index_type (i : SparseIndex) : string :=
  match i with I32 => "CUSPARSE_INDEX_32I" | I64 => "CUSPARSE_INDEX_64I" end.

Inductive SparseFormat : Type := FCsr | FCoo | FCsc | FBlockedEll | FBsr.
Definition as_str (f : SparseFormat) : string :=
  match f with FCsr => "csr" | FCoo => "coo" | FCsc => "csc" | FBlockedEll => "blocked_ell" | FBsr => "bsr" end.

Inductive SparseMatrix : Type :=
  | Csr (rows cols nnz : Z) (row_offsets col_indices values : GpuRef)
  | Coo (rows cols nnz : Z) (row_indices col_indices values : GpuRef)
  | Csc (rows cols nnz : Z) (col_offsets row_indices values : GpuRef)
  | BlockedEll (rows cols ell_block_size ell_cols : Z) (col_indices values : GpuRef)
  | Bsr (block_rows block_cols block_size nnz_blocks : Z) (row_offsets col_indices values : GpuRef).

Definition format (m : SparseMatrix) : SparseFormat :=
  match m with
  | Csr _ _ _ _ _ _ => FCsr | Coo _ _ _ _ _ _ => FCoo | Csc _ _ _ _ _ _ => FCsc
  | BlockedEll _ _ _ _ _ _ => FBlockedEll | Bsr _ _ _ _ _ _ _ => FBsr
  end.
Definition rows (m : SparseMatrix) : Z :=
  match m with
  | Csr r _ _ _ _ _ | Coo r _ _ _ _ _ | Csc r _ _ _ _ _ | BlockedEll r _ _ _ _ _ => r
  | Bsr br _ bs _ _ _ _ => i64_mul br bs
  end.
Definition cols (m : SparseMatrix) : Z :=
  match m with
  | Csr _ c _ _ _ _ | Coo _ c _ _ _ _ | Csc _ c _ _ _ _ | BlockedEll _ c _ _ _ _ => c
  | Bsr _ bc bs _ _ _ _ => i64_mul bc bs
  end.
Definition matrix_refs (m : SparseMatrix) : list GpuRef :=
  match m with
  | Csr _ _ _ a b c | Coo _ _ _ a b c | Csc _ _ _ a b c => [a; b; c]
  | BlockedEll _ _ _ _ a b => [a; b]
  | Bsr _ _ _ _ a b c => [a; b; c]
  end.

(** ** Requests *)

Inductive SparseOp : Type := OSpMv | OSpMm | OSpGemm | OSpSv | OSddmm | ODenseToSparse | OSparseToDense | OConvert.
Definition op_str (o : SparseOp) : string :=
  match o with
  | OSpMv => "spmv" | OSpMm => "spmm" | OSpGemm => "spgemm" | OSpSv => "spsv" | OSddmm => "sddmm"
  | ODenseToSparse => "dense_to_sparse" | OSparseToDense => "sparse_to_dense" | OConvert => "convert"
  end.

Inductive SpMvOp : Type := NonTranspose | Transpose | ConjugateTranspose.
Definition op_raw (o : SpMvOp) : string :=
  match o with
  | NonTranspose => "CUSPARSE_OPERATION_NON_TRANSPOSE" | Transpose => "CUSPARSE_OPERATION_TRANSPOSE"
  | ConjugateTranspose => "CUSPARSE_OPERATION_CONJUGATE_TRANSPOSE"
  end.
Inductive DenseOrder : Type := ColMajor | RowMajor.
Definition order_raw (o : DenseOrder) : string :=
  match o with ColMajor => "CUSPARSE_ORDER_COL" | RowMajor => "CUSPARSE_ORDER_ROW" end.
Inductive SpSvFill : Type := Upper | Lower.
Inductive SpSvDiag : Type := NonUnit | Unit.
Inductive ConvertKind : Type := DenseToSparse | SparseToDense.

Inductive SpMvAlg : Type := MvDefault | MvCsr | MvCoo.
Definition mv_alg_raw (a : SpMvAlg) : string :=
  match a with
  | MvDefault => "CUSPARSE_SPMV_ALG_DEFAULT" | MvCsr => "CUSPARSE_SPMV_CSR_ALG1" | MvCoo => "CUSPARSE_SPMV_COO_ALG1"
  end.
Inductive SpMmAlg : Type := MmDefault | MmCsr | MmBlockedEll.
Definition mm_alg_raw (a : SpMmAlg) : string :=
  match a with
  | MmDefault => "CUSPARSE_SPMM_ALG_DEFAULT" | MmCsr => "CUSPARSE_SPMM_CSR_ALG2"
  | MmBlockedEll => "CUSPARSE_SPMM_BLOCKED_ELL_ALG1"
  end.

Record SpMvRequest := { mv_dtype : DType; mv_matrix : SparseMatrix; mv_x : GpuRef; mv_y : GpuRef;
  mv_alpha : Z; mv_beta : Z; mv_op : SpMvOp; mv_alg : SpMvAlg; mv_reply : nat }.
Record SpMmRequest := { mm_dtype : DType; mm_matrix : SparseMatrix; mm_b : GpuRef; mm_c : GpuRef;
  mm_b_cols : Z; mm_ldb : Z; mm_ldc : Z; mm_alpha : Z; mm_beta : Z;
  mm_op_a : SpMvOp; mm_op_b : SpMvOp; mm_order : DenseOrder; mm_alg : SpMmAlg; mm_reply : nat }.
Record SpGemmRequest := { gm_dtype : DType; gm_a : SparseMatrix; gm_b : SparseMatrix; gm_c : SparseMatrix;
  gm_alpha : Z; gm_beta : Z; gm_op_a : SpMvOp; gm_op_b : SpMvOp; gm_reply : nat }.
Record SpSvRequest := { sv_dtype : DType; sv_matrix : SparseMatrix; sv_x : GpuRef; sv_y : GpuRef;
  sv_alpha : Z; sv_op : SpMvOp; sv_fill : SpSvFill; sv_diag : SpSvDiag; sv_reply : nat }.
Record SddmmRequest := { dd_dtype : DType; dd_a : GpuRef; dd_a_rows : Z; dd_a_cols : Z; dd_lda : Z;
  dd_b : GpuRef; dd_b_rows : Z; dd_b_cols : Z; dd_ldb : Z; dd_c : SparseMatrix; dd_alpha : Z; dd_beta : Z;
  dd_op_a : SpMvOp; dd_op_b : SpMvOp; dd_order : DenseOrder; dd_reply : nat }.
Record ConvertRequest := { cv_dtype : DType; cv_kind : ConvertKind; cv_dense : GpuRef; cv_rows : Z; cv_cols : Z;
  cv_ld : Z; cv_order : DenseOrder; cv_sparse : SparseMatrix; cv_reply : nat }.

Definition SpMvRequest_new d m x y alpha beta reply : SpMvRequest :=
  {| mv_dtype := d; mv_matrix := m; mv_x := x; mv_y := y; mv_alpha := alpha; mv_beta := beta;
     mv_op := NonTranspose; mv_alg := MvDefault; mv_reply := reply |}.
Definition SpMmRequest_new d m b c b_cols ldb ldc alpha beta reply : SpMmRequest :=
  {| mm_dtype := d; mm_matrix := m; mm_b := b; mm_c := c; mm_b_cols := b_cols; mm_ldb := ldb; mm_ldc := ldc;
     mm_alpha := alpha; mm_beta := beta; mm_op_a := NonTranspose; mm_op_b := NonTranspose; mm_order := ColMajor;
     mm_alg := MmDefault; mm_reply := reply |}.
Definition SpGemmRequest_new d a b c alpha beta reply : SpGemmRequest :=
  {| gm_dtype := d; gm_a := a; gm_b := b; gm_c := c; gm_alpha := alpha; gm_beta := beta;
     gm_op_a := NonTranspose; gm_op_b := NonTranspose; gm_reply := reply |}.
Definition SpSvRequest_new d m x y alpha fill diag reply : SpSvRequest :=
  {| sv_dtype := d; sv_matrix := m; sv_x := x; sv_y := y; sv_alpha := alpha; sv_op := NonTranspose;
     sv_fill := fill; sv_diag := diag; sv_reply := reply |}.
Definition SddmmRequest_new d a ar ac lda b br bc ldb c alpha beta reply : SddmmRequest :=
  {| dd_dtype := d; dd_a := a; dd_a_rows := ar; dd_a_cols := ac; dd_lda := lda; dd_b := b; dd_b_rows := br;
     dd_b_cols := bc; dd_ldb := ldb; dd_c := c; dd_alpha := alpha; dd_beta := beta; dd_op_a := NonTranspose;
     dd_op_b := NonTranspose; dd_order := ColMajor; dd_reply := reply |}.
Definition dense_to_sparse d dense rows cols ld order sparse reply : ConvertRequest :=
  {| cv_dtype := d; cv_kind := DenseToSparse; cv_dense := dense; cv_rows := rows; cv_cols := cols; cv_ld := ld;
     cv_order := order; cv_sparse := sparse; cv_reply := reply |}.
Definition sparse_to_dense d sparse dense rows cols ld order reply : ConvertRequest :=
  {| cv_dtype := d; cv_kind := SparseToDense; cv_dense := dense; cv_rows := rows; cv_cols := cols; cv_ld := ld;
     cv_order := order; cv_sparse := sparse; cv_reply := reply |}.

(** A boxed [dyn SparseDispatch]. *)
Inductive SparseReq : Type :=
  | BSpMv (r : SpMvRequest) | BSpMm (r : SpMmRequest) | BSpGemm (r : SpGemmRequest)
  | BSpSv (r : SpSvRequest) | BSddmm (r : SddmmRequest) | BConvert (r : ConvertRequest).

Definition op_name (r : SparseReq) : SparseOp :=
  match r with
  | BSpMv _ => OSpMv | BSpMm _ => OSpMm | BSpGemm _ => OSpGemm | BSpSv _ => OSpSv | BSddmm _ => OSddmm
  | BConvert c => match cv_kind c with DenseToSparse => ODenseToSparse | SparseToDense => OSparseToDense end
  end.
Definition req_dtype (r : SparseReq) : DType :=
  match r with
  | BSpMv r => mv_dtype r | BSpMm r => mm_dtype r | BSpGemm r => gm_dtype r
  | BSpSv r => sv_dtype r | BSddmm r => dd_dtype r | BConvert r => cv_dtype r
  end.
Definition req_name (r : SparseReq) : string :=
  match r with
  | BSpMv _ => "SpMvRequest" | BSpMm _ => "SpMmRequest" | BSpGemm _ => "SpGemmRequest"
  | BSpSv _ => "SpSvRequest" | BSddmm _ => "SddmmRequest" | BConvert _ => "ConvertRequest"
  end.
Definition req_reply (r : SparseReq) : nat :=
  match r with
  | BSpMv r => mv_reply r | BSpMm r => mm_reply r | BSpGemm r => gm_reply r
  | BSpSv r => sv_reply r | BSddmm r => dd_reply r | BConvert r => cv_reply r
  end.
Definition req_refs (r : SparseReq) : list GpuRef :=
  match r with
  | BSpMv r => matrix_refs (mv_matrix r) ++ [mv_x r; mv_y r]
  | BSpMm r => matrix_refs (mm_matrix r) ++ [mm_b r; mm_c r]
  | BSpGemm r => matrix_refs (gm_a r) ++ matrix_refs (gm_b r) ++ matrix_refs (gm_c r)
  | BSpSv r => matrix_refs (sv_matrix r) ++ [sv_x r; sv_y r]
  | BSddmm r => [dd_a r; dd_b r] ++ matrix_refs (dd_c r)
  | BConvert r => cv_dense r :: matrix_refs (cv_sparse r)
  end.

(** [reply_unimplemented] *)
Definition unimplemented (op dtype : string) : GpuError :=
  LibraryError LIB (op +:+ "<" +:+ dtype +:+ ">: dispatch impl pending Phase 4.1 (descriptor wiring)").

(** The messages; a [CsrMatrix] has 32-bit indices and [f32] values. *)
Record CsrMatrix := { row_offsets : GpuRef; col_indices : GpuRef; values : GpuRef; m_rows : Z; m_cols : Z; m_nnz : Z }.
Inductive SparseMsg : Type :=
  | Op (r : SparseReq)
  | SpMv (csr : CsrMatrix) (x y : GpuRef) (alpha beta : Z) (reply : nat)
  | SpMm (csr : CsrMatrix) (b c : GpuRef) (b_cols ldb ldc alpha beta : Z) (reply : nat).

(** ** Guarded descriptors

    The constructors of [descriptor.rs] return a guard that destroys its descriptor
    when it drops; an index type and an element type are passed by their tags. *)

Section guards.
Context (lib_answer : nat → ObjCall → result Z string).

(** [sys::cusparse::ok] on a creating call. *)
Definition guarded (what : string) (args : list Arg) : act Lib KEff (result Obj GpuError) :=
  r ← create lib_answer {| oname := what; ouses := []; oargs := args |};
  mret (map_err (λ e, LibraryError LIB (what +:+ ": " +:+ e)) r).
Definition guard_drop (o : Obj) : act Lib KEff unit := destroys [o].

Definition index_args (i : SparseIndex) (twice : bool) (d : DType) : list Arg :=
  ATag <$> (cusparse_index_type i :: (if twice then [cusparse_index_type i] else []) ++
            ["CUSPARSE_INDEX_BASE_ZERO"; dtype_name d]).
Definition sized (l : list Z) (ps : list slice_id) : list Arg := (AInt <$> l) ++ (ADev <$> ps).

Definition create_csr d i (rows cols nnz : Z) (ro ci vs : slice_id) :=
  guarded "cusparseCreateCsr" (sized [rows; cols; nnz] [ro; ci; vs] ++ index_args i true d).
Definition create_coo d i (rows cols nnz : Z) (ri ci vs : slice_id) :=
  guarded "cusparseCreateCoo" (sized [rows; cols; nnz] [ri; ci; vs] ++ index_args i false d).
Definition create_csc d i (rows cols nnz : Z) (co ri vs : slice_id) :=
  guarded "cusparseCreateCsc" (sized [rows; cols; nnz] [co; ri; vs] ++ index_args i true d).
Definition create_blocked_ell d i (rows cols block ell_cols : Z) (ci vs : slice_id) :=
  guarded "cusparseCreateBlockedEll" (sized [rows; cols; block; ell_cols] [ci; vs] ++ index_args i false d).
Definition create_dn_vec (d : DType) (size : Z) (vs : slice_id) :=
  guarded "cusparseCreateDnVec" (sized [size] [vs] ++ [ATag (dtype_name d)]).
Definition create_dn_mat (d : DType) (rows cols ld : Z) (vs : slice_id) (order : DenseOrder) :=
  guarded "cusparseCreateDnMat" (sized [rows; cols; ld] [vs] ++ [ATag (dtype_name d); ATag (order_raw order)]).

(** A guard owns its descriptor until it drops. *)
Lemma guarded_builds what args : builds [] (guarded what args) (λ o, [o]).
Proof.
  assert (Hk : ∀ o : Obj, o ∉ [] → builds (E := KEff) (F := GpuError) [o] (mret (Ok o)) (λ o, [o])).
  { intros o _. by apply builds_ret. }
  assert (H := builds_create (E := KEff) lib_answer [] {| oname := what; ouses := []; oargs := args |}
    (λ e, LibraryError LIB (what +:+ ": " +:+ e)) [] (λ o, mret (Ok o)) (λ o, [o])
    ltac:(by intros o) ltac:(done) Hk).
  intros l L Hl Hd Hs. specialize (H l L Hl Hd Hs). unfold guarded. apply awp_bind. revert H.
  unfold awp, mbind, act_bind. destruct (create _ _ l) as [[[o|e] l1] e1]; cbn; [done|].
  unfold destroys, modify, mret, act_ret, mbind, act_bind. cbn. rewrite !app_nil_r. by destruct l1.
Qed.

Lemma guard_drop_spec o l L : lib_ok l L → o ∈ L →
  awp (guard_drop o) (λ _ l' _, lib_ok l' (L ∖ {[o]})) l.
Proof.
  intros Hl Ho. unfold guard_drop. eapply awp_mono, (destroys_spec [o]); [|exact Hl|apply NoDup_singleton|].
  - intros _ l' es (_ & _ & H). unfold objs in H. cbn in H. by rewrite union_empty_r_L in H.
  - unfold objs. set_solver.
Qed.
End guards.

(** ** The two products *)

Record SparseCtx := {
  lib : Lib;
  workspace : option Z;         (* its length *)
  flying : list (list Obj);     (* the descriptors tasks own *)
}.
Inductive SparseInner : Type := Real (ctx : SparseCtx) | Mock.

Definition set_lib (l : Lib) (c : SparseCtx) : SparseCtx := {| lib := l; workspace := workspace c; flying := flying c |}.
Definition set_workspace (w : option Z) (c : SparseCtx) : SparseCtx := {| lib := lib c; workspace := w; flying := flying c |}.
Definition set_flying (f : list (list Obj)) (c : SparseCtx) : SparseCtx :=
  {| lib := lib c; workspace := workspace c; flying := f |}.

Section actor.
Context (lib_answer : nat → ObjCall → result Z string) (alloc : Z → option string) (answer : Call → option string).

Abbreviation lact := (act Lib KEff).
Abbreviation cact := (act SparseCtx KEff).
Abbreviation kact := (act (SparseInner * Gpu) KEff).

Definition lib_err (what : string) (e : string) : GpuError := LibraryError LIB (what +:+ e).
Definition buf_arg (r : GpuRef) : Arg := ADev (slice r).

Definition ensure_workspace (needed : Z) : cact (result unit GpuError) :=
  c ← get;
  if (needed <=? default 0 (workspace c))%Z then mret (Ok tt)
  else
    match alloc (Z.max needed 1) with
    | Some e => mret (Err (OutOfMemory ("cusparse workspace (" +:+ pretty needed +:+ "B): " +:+ e)))
    | None => put (set_workspace (Some (Z.max needed 1)) c);; mret (Ok tt)
    end.

(** What [handle_spmv] and [handle_spmm] differ in. *)
Record Product := {
  p_operands : list GpuRef;
  p_target : GpuRef;
  p_shared : string;
  p_descs : list ((string → GpuError) * ObjCall);
  p_name : string;
  p_ops : list Arg;      (* the operations *)
  p_alg : string;
  p_alpha : Z;
  p_beta : Z;
  p_reply : nat;
}.

Definition csr_refs (m : CsrMatrix) : list GpuRef := [row_offsets m; col_indices m; values m].
Definition csr_desc (m : CsrMatrix) : ObjCall :=
  {| oname := "cusparseCreateCsr"; ouses := [];
     oargs := [AInt (m_rows m); AInt (m_cols m); AInt (m_nnz m)] ++ (buf_arg <$> csr_refs m) ++
              (ATag <$> ["CUSPARSE_INDEX_32I"; "CUSPARSE_INDEX_32I"; "CUSPARSE_INDEX_BASE_ZERO"; "CUDA_R_32F"]) |}.
Definition vec_desc (n : Z) (r : GpuRef) : ObjCall :=
  {| oname := "cusparseCreateDnVec"; ouses := []; oargs := [AInt n; buf_arg r; ATag "CUDA_R_32F"] |}.
Definition mat_desc (rows cols ld : Z) (r : GpuRef) : ObjCall :=
  {| oname := "cusparseCreateDnMat"; ouses := [];
     oargs := [AInt rows; AInt cols; AInt ld; buf_arg r; ATag "CUDA_R_32F"; ATag "CUSPARSE_ORDER_COL"] |}.

Definition handle_spmv (csr : CsrMatrix) (x y : GpuRef) (alpha beta : Z) (reply : nat) : Product := {|
  p_operands := csr_refs csr ++ [x; y];
  p_target := y;
  p_shared := "SpMv y has multiple live references";
  p_descs := [(lib_err "CreateCsr: ", csr_desc csr); (lib_err "CreateDnVec(x): ", vec_desc (m_cols csr) x);
              (lib_err "CreateDnVec(y): ", vec_desc (m_rows csr) y)];
  p_name := "SpMV"; p_ops := [ATag (op_raw NonTranspose)]; p_alg := mv_alg_raw MvDefault;
  p_alpha := alpha; p_beta := beta; p_reply := reply;
|}.
Definition handle_spmm (csr : CsrMatrix) (b c : GpuRef) (b_cols ldb ldc alpha beta : Z) (reply : nat) : Product := {|
  p_operands := csr_refs csr ++ [b; c];
  p_target := c;
  p_shared := "SpMm c has multiple live references";
  p_descs := [(lib_err "CreateCsr: ", csr_desc csr); (lib_err "CreateDnMat(b): ", mat_desc (m_cols csr) b_cols ldb b);
              (lib_err "CreateDnMat(c): ", mat_desc (m_rows csr) b_cols ldc c)];
  p_name := "SpMM"; p_ops := [ATag (op_raw NonTranspose); ATag (op_raw NonTranspose)]; p_alg := mm_alg_raw MmDefault;
  p_alpha := alpha; p_beta := beta; p_reply := reply;
|}.

(** The arguments of the size query and of the execution. *)
Definition product_args (p : Product) : list Arg :=
  p_ops p ++ [AInt (p_alpha p); AInt (p_beta p); ATag "CUDA_R_32F"; ATag (p_alg p)].
Definition buffer_call (p : Product) (ds : list Obj) : ObjCall :=
  {| oname := "cusparse" +:+ p_name p +:+ "_bufferSize"; ouses := ds; oargs := product_args p |}.
Definition run_of (p : Product) (ds : list Obj) : ObjCall :=
  {| oname := "cusparse" +:+ p_name p; ouses := ds; oargs := product_args p |}.
(** The same execution on the stream, with the buffers the descriptors point to. *)
Definition stream_call (p : Product) (ws : Z) : Call :=
  {| cname := "cusparse" +:+ p_name p; cargs := product_args p ++ (buf_arg <$> p_operands p) ++ [ATag "workspace"; AInt ws] |}.

(** From the descriptors to the size of the workspace. *)
Definition prepare (p : Product) : lact (result (list Obj * Z) GpuError) :=
  create_all lib_answer (p_descs p) [] (λ ds,
    r ← run_call lib_answer (buffer_call p ds);
    or_cleanup r (lib_err (p_name p +:+ "_bufferSize: ")) (rev ds) (λ n, mret (Ok (ds, n)))).

Definition on_lib {A} (m : lact A) : cact A := zoom lib set_lib m.
Definition on_ctx {A} (c : SparseCtx) (m : cact A) : kact A := zoom (λ _, c) (λ c s, (Real c, s.2)) m.
Definition get_ctx (c0 : SparseCtx) : kact SparseCtx := s ← get; mret match s.1 with Real c => c | Mock => c0 end.

(** The enqueue closure; a failure destroys the descriptors, a success leaves them
    to the task's guard. *)
Definition enqueue (p : Product) (c : SparseCtx) (ds : list Obj) (ws : Z) : kact (result nat GpuError) :=
  x ← lib_call answer (lib_err (p_name p +:+ ": ")) (stream_call p ws);
  match x with
  | Ok i => on_ctx c (on_lib (modify (log (Ran (run_of p ds))));; modify (λ c, set_flying (ds :: flying c) c));; mret (Ok i)
  | Err e => on_ctx c (on_lib (modify (log (Ran (run_of p ds)));; destroys (rev ds)));; mret (Err e)
  end.

(** From the descriptors on, the target being unwrapped. The closure expects that
    there is a workspace. *)
Definition launch (p : Product) (c : SparseCtx) (clones : list slice_id) : kact unit :=
  r ← on_ctx c (on_lib (prepare p));
  c ← get_ctx c;
  match r with
  | Err e => emit (Reply (p_reply p) (Err e));; drop_clones clones
  | Ok (ds, n) =>
    w ← on_ctx c (ensure_workspace n);
    c ← get_ctx c;
    match w with
    | Err e => on_ctx c (on_lib (destroys (rev ds)));; emit (Reply (p_reply p) (Err e));; drop_clones clones
    | Ok _ =>
      emit (RecordWrite (slice (p_target p)));;
      match workspace c with
      | None => drop_clones clones;; emits [DropSender (p_reply p); Panicked "workspace ensured"]
      | Some ws => run_kernel LIB Done (p_reply p) clones (enqueue p c ds ws)
      end
    end
  end.

Definition run_product (p : Product) (c : SparseCtx) : kact unit :=
  with_operands (p_operands p) [(p_target p, p_shared p)] (p_reply p) (launch p c).

(** [SparseDispatch::dispatch] of the six requests: the operands are looked at and
    the request refused. *)
Definition dispatch (r : SparseReq) : kact unit :=
  emit (Reply (req_reply r) (Err (unimplemented (req_name r) (dtype_name (req_dtype r))))).

Definition sparse_mock : GpuError := Unrecoverable "SparseActor in mock mode".
Definition mock_reply (m : SparseMsg) : kact unit :=
  match m with
  | Op r => emit (DropSender (req_reply r))
  | SpMv _ _ _ _ _ ch | SpMm _ _ _ _ _ _ _ _ ch => emit (Reply ch (Err sparse_mock))
  end.

(** [SparseActor::handle] *)
Definition sparse_handle (m : SparseMsg) : kact unit :=
  s ← get;
  match s.1 with
  | Mock => mock_reply m
  | Real c =>
    match m with
    | Op r => dispatch r
    | SpMv csr x y alpha beta ch => run_product (handle_spmv csr x y alpha beta ch) c
    | SpMm csr b cm b_cols ldb ldc alpha beta ch => run_product (handle_spmm csr b cm b_cols ldb ldc alpha beta ch) c
    end
  end.

Definition msg_refs (m : SparseMsg) : list GpuRef :=
  match m with
  | Op r => req_refs r
  | SpMv csr x y _ _ _ => csr_refs csr ++ [x; y]
  | SpMm csr b c _ _ _ _ _ _ => csr_refs csr ++ [b; c]
  end.
Definition msg_reply (m : SparseMsg) : nat :=
  match m with Op r => req_reply r | SpMv _ _ _ _ _ ch | SpMm _ _ _ _ _ _ _ _ ch => ch end.

#[global] Instance sparse_actor : KernelActor (S := SparseInner) SparseMsg := {|
  operands := msg_refs;
  reply_of := msg_reply;
  khandle := sparse_handle;
|}.

(** [SparseActor::props]: the handle is destroyed again when its stream is refused. *)
Definition sparse_props (create set_stream : result unit string) : result SparseInner string * bool :=
  match create with
  | Err e => (Err ("ContextPoisoned: cusparseCreate failed: " +:+ e), false)
  | Ok _ =>
    match set_stream with
    | Err e => (Err ("ContextPoisoned: cusparseSetStream failed: " +:+ e), true)
    | Ok _ => (Ok (Real {| lib := Lib_new; workspace := None; flying := [] |}), false)
    end
  end.
End actor.

(** ** Descriptors *)

Section descriptors.
Context (lib_answer : nat → ObjCall → result Z string) (alloc : Z → option string).

(** The products of the two implemented messages. *)
Definition msg_product (m : SparseMsg) : option Product :=
  match m with
  | Op _ => None
  | SpMv csr x y alpha beta ch => Some (handle_spmv csr x y alpha beta ch)
  | SpMm csr b c b_cols ldb ldc alpha beta ch => Some (handle_spmm csr b c b_cols ldb ldc alpha beta ch)
  end.

Lemma msg_product_descs m p : msg_product m = Some p → length (p_descs p) = 3 ∧ ∀ s, s ∈ p_descs p → ouses s.2 = [].
Proof.
  destruct m; [done|..]; intros [= <-]; (split; [done|]); intros s; cbn; rewrite !elem_of_cons;
    by intros [->|[->|[->|[]%elem_of_nil]]].
Qed.

Lemma prepare_builds p : (∀ s, s ∈ p_descs p → ouses s.2 = []) → builds [] (prepare lib_answer p) fst.
Proof.
  intros Hu. apply create_all_builds; [done|]. intros ds _.
  apply builds_run; [|done|intros n; apply builds_ret; cbn; by rewrite <-Permutation_rev].
  intros o Ho. by rewrite <-(Permutation_rev ds).
Qed.

Lemma prepare_length p l ds n l' es : prepare lib_answer p l = (Ok (ds, n), l', es) → length ds = length (p_descs p).
Proof.
  unfold prepare. assert (Hgen : ∀ specs made l, 
    awp (E := KEff) (create_all lib_answer specs made (λ ds, r ← run_call lib_answer (buffer_call p ds);
      or_cleanup r (lib_err (p_name p +:+ "_bufferSize: ")) (rev ds) (λ n, mret (Ok (ds, n)))))
    (λ r _ _, ∀ ds n, r = Ok (ds, n) → length ds = length made + length specs) l).
  { induction specs as [|s specs IH]; intros made l0; cbn [create_all].
    - unfold run_call, next_call. awp_steps. destruct (lib_answer _ _) as [z|e]; cbn [or_cleanup].
      + awp_steps. intros ds' n' [= <- _]. rewrite length_rev. cbn. lia.
      + unfold destroys. by awp_steps.
    - unfold create, next_call. awp_steps. destruct (lib_answer _ _) as [z|e]; awp_steps; cbn [or_cleanup].
      + eapply awp_mono, IH. intros r l1 es1 H ds' n' Hr. rewrite (H ds' n' Hr). cbn. lia.
      + unfold destroys. by awp_steps. }
  intros Hp. specialize (Hgen (p_descs p) [] l). unfold awp in Hgen. rewrite Hp in Hgen. by apply (Hgen ds n).
Qed.

(** The live objects are the descriptors of the kernels in flight and [leaked]. *)
Definition sinv (c : SparseCtx) (leaked : list Obj) : Prop :=
  NoDup (mjoin (flying c) ++ leaked) ∧ lib_ok (lib c) (objs (mjoin (flying c) ++ leaked)).

Definition panics (es : list KEff) : nat := length (omap (λ e, match e with Panicked m => Some m | _ => None end) es).

Lemma panics_app es1 es2 : panics (es1 ++ es2) = panics es1 + panics es2.
Proof. unfold panics. by rewrite omap_app, length_app. Qed.

(** Descriptors that are held by hand. *)
Definition sheld (c : SparseCtx) (ds leaked : list Obj) : Prop :=
  NoDup (ds ++ mjoin (flying c) ++ leaked) ∧ lib_ok (lib c) (objs (ds ++ mjoin (flying c) ++ leaked)).

Lemma sheld_destroy c ds leaked :
  sheld c ds leaked →
  awp (on_lib (destroys (rev ds))) (λ _ c' es, es = [] ∧ sinv c' leaked ∧ workspace c' = workspace c) c.
Proof.
  intros [Hd Hl]. apply awp_zoom. assert (Hrev : objs (rev ds) = objs ds).
  { unfold objs. by rewrite <-(Permutation_rev ds). }
  pose proof Hd as (Hd1 & Hd2 & Hd3)%NoDup_app.
  eapply awp_mono, (destroys_spec (rev ds)); [|exact Hl|by rewrite <-(Permutation_rev ds)|].
  - intros _ l es (-> & _ & Hl'). split_and!; [done| |done]. split; [done|]. cbn [lib set_lib flying].
    assert (objs (mjoin (flying c) ++ leaked) = objs (ds ++ mjoin (flying c) ++ leaked) ∖ objs (rev ds)) as ->; [|done].
    rewrite Hrev. unfold objs. rewrite (list_to_set_app_L ds). apply set_eq. intros o.
    rewrite elem_of_difference, elem_of_union, !elem_of_list_to_set. specialize (Hd2 o). tauto.
  - rewrite Hrev. unfold objs. rewrite list_to_set_app_L. set_solver.
Qed.

Lemma prepare_spec p c leaked :
  (∀ s, s ∈ p_descs p → ouses s.2 = []) → sinv c leaked →
  awp (on_lib (prepare lib_answer p)) (λ r c' es, es = [] ∧ workspace c' = workspace c ∧
    match r with
    | Ok dn => sheld c' dn.1 leaked ∧ length dn.1 = length (p_descs p)
    | Err _ => sinv c' leaked
    end) c.
Proof.
  intros Hu [Hd Hl]. apply awp_zoom. pose proof (prepare_builds p Hu (lib c) _ Hl) as Hb.
  specialize (Hb ltac:(constructor) ltac:(done)).
  pose proof (prepare_length p (lib c)) as Hlen. unfold awp in *.
  destruct (prepare lib_answer p (lib c)) as [[[[ds n]|e] l] es]; destruct Hb as (-> & _ & L' & Hl' & Hr).
  - destruct Hr as (Hds & Hsub & HL). split_and!; [done|done| |by eapply Hlen].
    unfold objs at 3 in HL. cbn in HL. rewrite difference_empty_L in HL. cbn [fst] in *. unfold sheld. cbn [lib set_lib flying].
    assert (Hdis : ∀ o, o ∈ ds → o ∉ mjoin (flying c) ++ leaked).
    { intros o Ho Hin. apply (elem_of_list_to_set (C := gset Obj)) in Hin, Ho. fold (objs (mjoin (flying c) ++ leaked)) in Hin.
      rewrite <-HL in Hin. unfold objs in Hin. set_solver. }
    split; [by apply NoDup_app|].
    assert (objs (ds ++ mjoin (flying c) ++ leaked) = L') as ->; [|done].
    unfold objs in *. rewrite list_to_set_app_L, <-HL. symmetry. by apply union_difference_L.
  - split_and!; [done|done|]. split; [done|]. cbn [lib set_lib flying]. unfold objs at 2 in Hr. cbn in Hr.
    rewrite difference_empty_L in Hr. by subst.
Qed.

(** The workspace only grows; it is missing only if nothing was ever asked for. *)
Lemma ensure_workspace_spec needed c :
  awp (ensure_workspace alloc needed) (λ r c' es, es = [] ∧ lib c' = lib c ∧ flying c' = flying c ∧
    (default 0 (workspace c) ≤ default 0 (workspace c'))%Z ∧ (is_Some (workspace c) → is_Some (workspace c')) ∧
    match r with
    | Ok _ => (needed ≤ default 0 (workspace c'))%Z ∧ (workspace c' = None ↔ workspace c = None ∧ (needed ≤ 0)%Z)
    | Err _ => c' = c
    end) c.
Proof.
  unfold ensure_workspace. awp_steps. destruct (Z.leb_spec needed (default 0%Z (workspace c))) as [Hle|Hlt].
  - awp_steps. split_and!; try done. split; [|tauto]. intros Hn. by rewrite Hn in Hle.
  - destruct (alloc _); awp_steps; split_and!; try done; cbn; try lia.
    split; [done|]. intros [Hn ?]. rewrite Hn in Hlt. cbn in Hlt. lia.
Qed.

Lemma sinv_same c c' leaked : lib c' = lib c → flying c' = flying c → sinv c leaked → sinv c' leaked.
Proof. unfold sinv. by intros -> ->. Qed.
Lemma sheld_same c c' ds leaked : lib c' = lib c → flying c' = flying c → sheld c ds leaked → sheld c' ds leaked.
Proof. unfold sheld. by intros -> ->. Qed.

Lemma sheld_run c call ds leaked :
  ouses call ⊆ ds → sheld c ds leaked → sheld (set_lib (log (Ran call) (lib c)) c) ds leaked.
Proof.
  intros Hu [Hd [Hl Hb]]. split; [done|]. split; [|exact Hb]. cbn [lib set_lib]. rewrite live_log, Hl. cbn.
  rewrite decide_True; [done|]. eapply uses_live; [|exact Hu]. unfold objs. rewrite list_to_set_app_L. set_solver.
Qed.

Lemma enqueue_spec answer p c ds ws leaked (s : SparseInner * Gpu) :
  sheld c ds leaked → s.1 = Real c →
  awp (enqueue answer p c ds ws) (λ _ s' es, panics es = 0 ∧ ∃ c', s'.1 = Real c' ∧ sinv c' leaked) s.
Proof.
  intros Hs Hc. pose proof (sheld_run c (run_of p ds) ds leaked ltac:(done) Hs) as Hr.
  unfold enqueue, lib_call, get_gpu, on_gpu. awp_steps. destruct (answer _) as [e|]; awp_steps.
  - apply awp_zoom, awp_zoom. awp_steps.
    pose proof (sheld_destroy _ _ _ Hr) as Hd. unfold awp, on_lib, zoom in Hd. cbn in Hd.
    unfold destroys in *. awp_steps. cbn in Hd. destruct Hd as (_ & Hd & _). split; [done|]. by eexists.
  - apply awp_zoom. awp_steps. apply awp_zoom. awp_steps. split; [done|]. eexists. split; [done|].
    destruct Hr as [Hd Hl]. cbn [lib set_lib flying] in *. unfold sinv. cbn. by rewrite <-app_assoc.
Qed.

Lemma launch_spec answer p c clones g leaked :
  length (p_descs p) = 3 → (∀ s, s ∈ p_descs p → ouses s.2 = []) → sinv c leaked →
  awp (launch lib_answer alloc answer p c clones) (λ _ s' es,
    ∃ c' more, s'.1 = Real c' ∧ sinv c' (leaked ++ more) ∧ length more = 3 * panics es) (Real c, g).
Proof.
  intros Hlen Hu Hs. unfold launch. apply awp_bind, awp_zoom. eapply awp_mono, prepare_spec; [|done|exact Hs].
  intros r c1 es (-> & _ & Hr). unfold get_ctx. awp_steps. cbn [fst snd]. destruct r as [[ds n]|e].
  2:{ unfold drop_clones, on_gpu. awp_steps. exists c1, []. rewrite app_nil_r. by split_and!. }
  cbn [fst] in Hr. destruct Hr as [Hh Hds]. apply awp_bind, awp_zoom. eapply awp_mono, ensure_workspace_spec.
  intros w c2 es2 (-> & Hl & Hf & _). pose proof (sheld_same c1 c2 ds leaked Hl Hf Hh) as Hh2. awp_steps. cbn [fst snd].
  destruct w as [[]|e].
  - awp_steps. destruct (workspace c2) as [ws|].
    + unfold run_kernel. awp_steps. eapply awp_mono, (enqueue_spec answer p c2 ds ws leaked); [|exact Hh2|done].
      intros x s3 es3 (Hp & c3 & Hc3 & Hs3). unfold drop_clones, spawn_task, on_gpu.
      destruct x; awp_steps; cbn [fst]; (exists c3, []; rewrite app_nil_r; split_and!; [done|done|]).
      * change (panics (RecordWrite (slice (p_target p)) :: es3)) with (panics es3). by rewrite Hp.
      * change (panics (RecordWrite (slice (p_target p)) :: ?l)) with (panics l). by rewrite panics_app, Hp.
    + unfold drop_clones, on_gpu. awp_steps. cbn [fst]. exists c2, ds. split_and!; [done| |rewrite Hds, Hlen; done].
      destruct Hh2 as [Hd2 Hl2]. unfold sinv.
      assert (Hp : mjoin (flying c2) ++ leaked ++ ds ≡ₚ ds ++ mjoin (flying c2) ++ leaked).
      { rewrite app_assoc. apply Permutation_app_comm. }
      unfold objs in *. rewrite Hp. done.
  - awp_steps. apply awp_zoom. eapply awp_mono, sheld_destroy; [|exact Hh2].
    intros _ c3 es3 (-> & Hs3 & _). unfold drop_clones, on_gpu. awp_steps. cbn [fst]. exists c3, [].
    rewrite app_nil_r. by split_and!.
Qed.

(** A message is handled with its target unwrapped, with whatever answers; and the
    task of a kernel ends. *)
Inductive desc_step : SparseCtx → list KEff → SparseCtx → Prop :=
  | SLaunch answer m p clones g c c' g' es :
      msg_product m = Some p →
      exec (launch lib_answer alloc answer p c clones) (Real c, g) = ((Real c', g'), es) → desc_step c es c'
  | SFinish i ds c :
      flying c !! i = Some ds →
      desc_step c [] (exec (on_lib (destroys (rev ds))) (set_flying (delete i (flying c)) c)).1.
Inductive desc_steps : SparseCtx → list KEff → SparseCtx → Prop :=
  | SRefl c : desc_steps c [] c
  | SSnoc c1 es1 c2 es2 c3 : desc_steps c1 es1 c2 → desc_step c2 es2 c3 → desc_steps c1 (es1 ++ es2) c3.

Definition sparse_new : SparseCtx := {| lib := Lib_new; workspace := None; flying := [] |}.

Lemma join_delete {A} (l : list (list A)) i ds : l !! i = Some ds → ds ++ mjoin (delete i l) ≡ₚ mjoin l.
Proof.
  revert i. induction l as [|x l IH]; intros [|i]; try done; cbn; [by intros [= ->]|].
  intros Hi. rewrite <-(IH i Hi). apply Permutation_app_swap_app.
Qed.

Lemma desc_step_inv c es c' leaked :
  desc_step c es c' → sinv c leaked → ∃ more, sinv c' (leaked ++ more) ∧ length more = 3 * panics es.
Proof.
  intros Hs Hi. destruct Hs as [answer m p clones g c c' g' es Hp He|i ds c Hds].
  - destruct (msg_product_descs m p Hp) as [Hlen Hu].
    pose proof (launch_spec answer p c clones g leaked Hlen Hu Hi) as Hl. apply awp_exec in Hl. rewrite He in Hl.
    destruct Hl as (c1 & more & [= <-] & ? & ?). eauto.
  - exists []. rewrite app_nil_r. split; [|done].
    assert (Hh : sheld (set_flying (delete i (flying c)) c) ds leaked).
    { destruct Hi as [Hd Hl]. unfold sheld. cbn [flying set_flying lib].
      assert (Hp : ds ++ mjoin (delete i (flying c)) ++ leaked ≡ₚ mjoin (flying c) ++ leaked).
      { rewrite app_assoc. f_equiv. by apply join_delete. }
      unfold objs in *. by rewrite Hp. }
    pose proof (sheld_destroy _ _ _ Hh) as Hd. apply awp_exec in Hd. destruct (exec _ _). tauto.
Qed.

(** Descriptors are destroyed exactly once: along every execution of the two
    sparse products with unwrapped targets and of their kernels' completions,
    whatever cuSPARSE and the allocator answer, no descriptor is used or destroyed
    after its destruction, and those alive are the ones that the kernels in flight
    own, which are all distinct, and three for every panic of a handler. So without
    panics nothing leaks, whichever call failed. *)
Theorem descriptors_conserved es c :
  desc_steps sparse_new es c →
  ∃ leaked L, live (lib c) = Some L ∧ NoDup (mjoin (flying c) ++ leaked) ∧
    (∀ o, o ∈ L ↔ o ∈ mjoin (flying c) ∨ o ∈ leaked) ∧ length leaked = 3 * panics es.
Proof.
  intros Hs. assert (H : ∃ leaked, sinv c leaked ∧ length leaked = 3 * panics es).
  { remember sparse_new as c0 eqn:Hc0. induction Hs as [c|c1 es1 c2 es2 c3 _ IH H1].
    - subst. exists []. split; [|done]. split; [constructor|apply lib_new_ok].
    - destruct (IH Hc0) as (leaked & Hi & Hl). destruct (desc_step_inv _ _ _ _ H1 Hi) as (more & Hi' & Hm).
      exists (leaked ++ more). split; [done|]. rewrite length_app, panics_app. lia. }
  destruct H as (leaked & [Hd [Hl _]] & Hlen). exists leaked. eexists. split; [exact Hl|]. split_and!; [done| |done].
  intros o. unfold objs. rewrite elem_of_list_to_set, elem_of_app. done.
Qed.
End descriptors.

(** ** What the actor answers *)

Section outcome.
Context (lib_answer : nat → ObjCall → result Z string) (alloc : Z → option string) (answer : Call → option string).

Abbreviation shandle := (sparse_handle lib_answer alloc answer).

Definition shared_msg (m : SparseMsg) : string :=
  match m with Op _ => "" | SpMv _ _ _ _ _ _ => "SpMv y has multiple live references"
             | SpMm _ _ _ _ _ _ _ _ _ => "SpMm c has multiple live references" end.
Definition sparse_effects (g : Gpu) (st : SparseInner) (m : SparseMsg) : list KEff :=
  match st, m with
  | Mock, Op r => [DropSender (req_reply r)]
  | Mock, _ => [Reply (msg_reply m) (Err sparse_mock)]
  | Real _, Op r => [Reply (req_reply r) (Err (unimplemented (req_name r) (dtype_name (req_dtype r))))]
  | Real _, _ =>
    [Reply (msg_reply m) (Err match access_list (dev g) (msg_refs m) with
                              | Err e => e
                              | Ok _ => Unrecoverable (shared_msg m)
                              end)]
  end.

Lemma sparse_handle_spec m (st : SparseInner) g :
  Forall (holds (heap g)) (msg_refs m) →
  awp (shandle m) (λ _ st' es, st'.1 = st ∧ kpost (msg_reply m) g st'.2 es ∧ es = sparse_effects g st m) (st, g).
Proof.
  intros Hh. unfold sparse_handle, dispatch. awp_steps. cbn [fst].
  assert (Hk : ∀ es, es ≫= sent = [msg_reply m] → kpost (msg_reply m) g g es) by (split; [done|by left]).
  destruct st as [c|], m as [r|csr x y alpha beta ch|csr b cm b_cols ldb ldc alpha beta ch];
    cbn [mock_reply]; try (awp_steps; split_and!; [done|by apply Hk|done]).
  - eapply awp_mono, with_operands_shared; [|exact Hh|]; [by intros _ s' es (-> & Hp & ->)|]. cbn. rewrite !elem_of_cons. tauto.
  - eapply awp_mono, with_operands_shared; [|exact Hh|]; [by intros _ s' es (-> & Hp & ->)|]. cbn. rewrite !elem_of_cons. tauto.
Qed.

#[global] Instance sparse_law :
  KernelLaw SparseInner SparseMsg (KernelActor0 := sparse_actor lib_answer alloc answer).
Proof. intros m st g Hh. eapply awp_mono; [|by apply sparse_handle_spec]. cbn. tauto. Qed.

(** No product reaches cuSPARSE, and the boxed requests are refused as pending. *)
Theorem sparse_outcome m (st : SparseInner) g :
  Forall (holds (heap g)) (msg_refs m) →
  let '((st', g'), es) := exec (shandle m) (st, g) in
  st' = st ∧ queue g' = queue g ∧ tasks g' = tasks g ∧ es = sparse_effects g st m.
Proof.
  intros Hh. pose proof (sparse_handle_spec m st g Hh) as Hs. apply awp_exec in Hs.
  destruct (exec _ _) as [[st' g'] es]. cbn in Hs. destruct Hs as (-> & [_ Hp] & ->).
  destruct Hp as [(Hq & Ht & _)|(op & t & _ & _ & _ & _ & _ & _ & Hn)]; [done|]. by destruct st, m.
Qed.
End outcome.

(** *** Witnesses *)

Definition toy_device : DeviceState := DeviceState_new 0.
Definition toy_ref (sl : slice_id) : GpuRef := GpuRef_new sl toy_device.
Definition toy_csr : CsrMatrix :=
  {| row_offsets := toy_ref 1; col_indices := toy_ref 2; values := toy_ref 3; m_rows := 4; m_cols := 4; m_nnz := 6 |}.
Definition toy_mv : Product := handle_spmv toy_csr (toy_ref 4) (toy_ref 5) 1 0 9.
Definition toy_gpu : Gpu := Gpu_new (Some toy_device).
(** A size query answers 0 for the first product and 512 later. *)
Definition toy_lib (n : nat) (_ : ObjCall) : result Z string := Ok (if n <? 4 then 0%Z else 512%Z).
Definition toy_launch (c : SparseCtx) := exec (launch toy_lib (λ _, None) (λ _, None) toy_mv c []) (Real c, toy_gpu).
Definition inner_ctx (c : SparseCtx) (i : SparseInner) : SparseCtx := match i with Real c => c | Mock => c end.

(** A workspace of size zero is never allocated, and the closure panics: the three
    descriptors are lost. *)
Definition toy_ctx1 : SparseCtx := inner_ctx sparse_new (toy_launch sparse_new).1.1.
Example empty_workspace_panics :
  (toy_launch sparse_new).2 = [RecordWrite 5; DropSender 9; Panicked "workspace ensured"] ∧
  live (lib toy_ctx1) = Some {[0; 1; 2]}.
Proof. split; by vm_compute. Qed.

(** With a workspace the product runs, and its task then destroys its descriptors. *)
Definition toy_ctx2 : SparseCtx := inner_ctx toy_ctx1 (toy_launch toy_ctx1).1.1.
Definition toy_ctx3 : SparseCtx :=
  (exec (on_lib (destroys (rev [4; 5; 6]))) (set_flying (delete 0 (flying toy_ctx2)) toy_ctx2)).1.

Lemma toy_desc_steps : desc_steps toy_lib (λ _, None) sparse_new ((toy_launch sparse_new).2 ++ (toy_launch toy_ctx1).2) toy_ctx3.
Proof.
  rewrite <-(app_nil_r ((toy_launch sparse_new).2 ++ _)). eapply SSnoc; [|by apply (SFinish toy_lib (λ _, None) 0 [4; 5; 6] toy_ctx2); vm_compute].
  eapply (SSnoc toy_lib (λ _, None) sparse_new (toy_launch sparse_new).2 toy_ctx1).
  - apply (SSnoc toy_lib (λ _, None) sparse_new [] sparse_new); [apply SRefl|].
    apply (SLaunch toy_lib (λ _, None) (λ _, None) (SpMv toy_csr (toy_ref 4) (toy_ref 5) 1 0 9) toy_mv [] toy_gpu _ _ (toy_launch sparse_new).1.2); by vm_compute.
  - apply (SLaunch toy_lib (λ _, None) (λ _, None) (SpMv toy_csr (toy_ref 4) (toy_ref 5) 1 0 9) toy_mv [] toy_gpu _ _ (toy_launch toy_ctx1).1.2); by vm_compute.
Qed.

Lemma descriptors_conserved_witness : ∃ leaked L,
  live (lib toy_ctx3) = Some L ∧ (∀ o, o ∈ L ↔ o ∈ mjoin (flying toy_ctx3) ∨ o ∈ leaked) ∧ length leaked = 3.
Proof.
  destruct (descriptors_conserved toy_lib (λ _, None) _ _ toy_desc_steps) as (leaked & L & Hl & _ & Ho & Hlen).
  exists leaked, L. split; [exact Hl|]. split; [exact Ho|]. rewrite Hlen. by vm_compute.
Defined.

(** ** The capture-mode operations of [graph/record/cusparse.rs] *)

Module Capture.
Record SpMvOp := { gv_csr : CsrMatrix; gv_x : GpuRef; gv_y : GpuRef; gv_alpha : Z; gv_beta : Z }.
Record SpMmOp := { gm_csr : CsrMatrix; gm_b : GpuRef; gm_c : GpuRef; gm_b_cols : Z; gm_ldb : Z; gm_ldc : Z; gm_alpha : Z; gm_beta : Z }.
Definition validate_csr (c : CsrMatrix) (dev : option DeviceState) : result unit GpuError :=
  if ((m_rows c <=? 0) || (m_cols c <=? 0) || (m_nnz c <? 0))%Z then
    Err (Unrecoverable ("CsrMatrix: invalid dims (rows=" +:+ pretty (m_rows c) +:+ ", cols=" +:+ pretty (m_cols c) +:+
      ", nnz=" +:+ pretty (m_nnz c) +:+ ")"))
  else check_access [row_offsets c; col_indices c; values c] dev.
Definition record_spmv (o : SpMvOp) (dev : option DeviceState) : result unit GpuError :=
  validate_csr (gv_csr o) dev ;? check_access [gv_x o; gv_y o] dev ;?
  Err (Unrecoverable "graph::record::cusparse::SpMv: cuSPARSE capture-mode entry not yet wired (Phase 4 will revisit when the actor surface expands)").
Definition record_spmm (o : SpMmOp) (dev : option DeviceState) : result unit GpuError :=
  validate_csr (gm_csr o) dev ;? check_access [gm_b o; gm_c o] dev ;?
  if ((gm_b_cols o <=? 0) || (gm_ldb o <=? 0) || (gm_ldc o <=? 0))%Z then
    Err (Unrecoverable ("SpMm: non-positive (b_cols, ldb, ldc) = (" +:+ pretty (gm_b_cols o) +:+ ", " +:+ pretty (gm_ldb o) +:+
      ", " +:+ pretty (gm_ldc o) +:+ ")"))
  else Err (Unrecoverable "graph::record::cusparse::SpMm: cuSPARSE capture-mode entry not yet wired").

(** A matrix passes when its dimensions are positive and its buffers usable. *)
Lemma validate_csr_ok c dev : validate_csr c dev = Ok tt ↔
  (0 < m_rows c ∧ 0 < m_cols c ∧ 0 ≤ m_nnz c)%Z ∧ is_ok (access_list dev [row_offsets c; col_indices c; values c]) = true.
Proof.
  unfold validate_csr, check_access.
  destruct (Z.leb_spec (m_rows c) 0), (Z.leb_spec (m_cols c) 0), (Z.ltb_spec (m_nnz c) 0); cbn [orb];
    try (split; [done|lia]).
  destruct (access_list _ _); cbn; split; (done || naive_solver lia).
Qed.
End Capture.
