(* ===== verification/Rng.v ===== *)
(** * cuRAND: generators, distributions and the actor

    Models [crates/atomr-accel-cuda/src/kernel/rng] ([mod.rs], [dist.rs],
    [sobol.rs], [host.rs]) and the wrappers of [sys/curand.rs].  The actor owns one
    generator, an object of the library ([Objects.v]); [SetGenerator] replaces it
    in place.  Fills are requests of [Envelope.v].

    Parameters are what cuRAND answers and how a float is printed.  Seeds and
    counts are integers, the parameters of a distribution are floats. *)

From Stdlib Require Import Floats.SpecFloat.
From stdpp Require Import pretty.
From S2P Require Import Prelude Actor Errors Dtype Float64 DeviceState Envelope Objects.

Definition LIB : string := "curand".

(** ** Generators *)

Inductive RngGeneratorKind : Type :=
  | PseudoDefault | Philox4_32_10 | XorWow | Mrg32K3A | Mtgp32
  | Sobol32 | ScrambledSobol32 | Sobol64 | ScrambledSobol64.

Definition is_quasi (k : RngGeneratorKind) : bool :=
  match k with Sobol32 | ScrambledSobol32 | Sobol64 | ScrambledSobol64 => true | _ => false end.
Definition is_quasi_64 (k : RngGeneratorKind) : bool :=
  match k with Sobol64 | ScrambledSobol64 => true | _ => false end.
Definition to_sys (k : RngGeneratorKind) : string :=
  match k with
  | PseudoDefault => "CURAND_RNG_PSEUDO_DEFAULT" | Philox4_32_10 => "CURAND_RNG_PSEUDO_PHILOX4_32_10"
  | XorWow => "CURAND_RNG_PSEUDO_XORWOW" | Mrg32K3A => "CURAND_RNG_PSEUDO_MRG32K3A"
  | Mtgp32 => "CURAND_RNG_PSEUDO_MTGP32" | Sobol32 => "CURAND_RNG_QUASI_SOBOL32"
  | ScrambledSobol32 => "CURAND_RNG_QUASI_SCRAMBLED_SOBOL32" | Sobol64 => "CURAND_RNG_QUASI_SOBOL64"
  | ScrambledSobol64 => "CURAND_RNG_QUASI_SCRAMBLED_SOBOL64"
  end.
(** [{kind:?}] *)
Definition debug_kind (k : RngGeneratorKind) : string :=
  match k with
  | PseudoDefault => "PseudoDefault" | Philox4_32_10 => "Philox4_32_10" | XorWow => "XorWow" | Mrg32K3A => "Mrg32K3A"
  | Mtgp32 => "Mtgp32" | Sobol32 => "Sobol32" | ScrambledSobol32 => "ScrambledSobol32" | Sobol64 => "Sobol64"
  | ScrambledSobol64 => "ScrambledSobol64"
  end.
Definition max_dimensions (k : RngGeneratorKind) : option Z :=
  match k with
  | Sobol32 | ScrambledSobol32 => Some 20000%Z
  | Sobol64 | ScrambledSobol64 => Some 20000%Z
  | _ => None
  end.

Section gen.
Context {E : Type} (lib_answer : nat → ObjCall → result Z string).

Abbreviation lact := (act Lib E).

Definition unit_call (name : string) (g : Obj) (args : list Arg) : lact (result unit string) :=
  r ← run_call lib_answer {| oname := name; ouses := [g]; oargs := args |};
  mret (match r with Ok _ => Ok tt | Err e => Err e end).
Definition set_stream (g : Obj) : lact (result unit string) := unit_call "curandSetStream" g [].
Definition set_seed (g : Obj) (seed : Z) : lact (result unit string) :=
  unit_call "curandSetPseudoRandomGeneratorSeed" g [AInt seed].
Definition create_generator (host : bool) (k : RngGeneratorKind) : lact (result Obj string) :=
  create lib_answer {| oname := if host then "curandCreateGeneratorHost" else "curandCreateGenerator"; ouses := [];
                       oargs := [ATag (to_sys k)] |}.
Definition destroy_generator (g : Obj) : lact unit := destroys [g].

(** [construct_generator]; nothing is destroyed when a later call is refused. *)
Definition construct_generator (k : RngGeneratorKind) (seed : Z) : lact (result Obj string) :=
  r ← create_generator false k;
  match r with
  | Err e => mret (Err e)
  | Ok g =>
    r ← set_stream g;
    match r with
    | Err e => mret (Err e)
    | Ok _ =>
      if is_quasi k then mret (Ok g)
      else
        r ← set_seed g seed;
        match r with Err e => mret (Err e) | Ok _ => mret (Ok g) end
    end
  end.
End gen.

(** ** Distributions *)

(** Scalars of [f32] and [f64] are numbers of their format. *)
Inductive Distribution : Type :=
  | Uniform (lo hi : f64)
  | Normal (mean std : f64)
  | LogNormal (mean std : f64)
  | Poisson (lambda : f64)
  | Exponential (lambda : f64)
  | Beta (alpha beta : f64)
  | Cauchy (loc scale : f64)
  | Gamma (shape scale : f64)
  | Discrete (weights : GpuRef).

(** The two types that implement [RngDispatch]. *)
Inductive RngFloat : Type := Rf32 | Rf64.
(** [Into<f64>]: the same value in the wider format. *)
Definition into_f64 (t : RngFloat) (x : f64) : f64 :=
  match t, x with
  | Rf32, S754_finite s m e => binary_normalize 53 1024 (if s then Z.neg m else Z.pos m) e s
  | _, x => x
  end.

Record FillRequest := { fr_type : RngFloat; fr_buf : GpuRef; fr_dist : Distribution; fr_reply : nat }.

Inductive RngMsg : Type :=
  | Fill (r : FillRequest)
  | SetSeed (seed : Z) (reply : nat)
  | SetGenerator (kind : RngGeneratorKind) (reply : nat)
  | FillUniformF32 (dst : GpuRef) (reply : nat)
  | FillUniformF64 (dst : GpuRef) (reply : nat)
  | FillUniformU32 (dst : GpuRef) (reply : nat)
  | FillNormalF32 (dst : GpuRef) (mean std : f64) (reply : nat)
  | FillNormalF64 (dst : GpuRef) (mean std : f64) (reply : nat)
  | FillLogNormalF32 (dst : GpuRef) (mean std : f64) (reply : nat)
  | Reseed (seed : Z) (reply : nat).

Definition dist_refs (d : Distribution) : list GpuRef := match d with Discrete w => [w] | _ => [] end.
Definition msg_refs (m : RngMsg) : list GpuRef :=
  match m with
  | Fill r => fr_buf r :: dist_refs (fr_dist r)
  | FillUniformF32 d _ | FillUniformF64 d _ | FillUniformU32 d _ | FillNormalF32 d _ _ _ | FillNormalF64 d _ _ _
  | FillLogNormalF32 d _ _ _ => [d]
  | SetSeed _ _ | SetGenerator _ _ | Reseed _ _ => []
  end.
Definition msg_reply (m : RngMsg) : nat :=
  match m with
  | Fill r => fr_reply r
  | SetSeed _ ch | SetGenerator _ ch | Reseed _ ch | FillUniformF32 _ ch | FillUniformF64 _ ch | FillUniformU32 _ ch
  | FillNormalF32 _ _ _ ch | FillNormalF64 _ _ _ ch | FillLogNormalF32 _ _ _ ch => ch
  end.

(** ** The actor *)

Inductive RngInner : Type := Real (lib : Lib) (gen : Obj) (kind : RngGeneratorKind) | Mock.

Section actor.
Context (lib_answer : nat → ObjCall → result Z string) (answer : Call → option string) (show_f64 : f64 → string).

Abbreviation kact := (act (RngInner * Gpu) KEff).
Abbreviation lact := (act Lib KEff).

(** A step on a real actor's library. *)
Definition on_lib {A} (l : Lib) (g : Obj) (k : RngGeneratorKind) (m : lact A) : kact A :=
  zoom (λ _, l) (λ l s, (Real l g k, s.2)) m.

Definition lib_err (what e : string) : GpuError := LibraryError LIB (what +:+ ": " +:+ e).
Definition shared : string := "RNG dst has multiple live references".
Definition u32_tag : string := "u32".
Definition float_tag (t : RngFloat) : string := match t with Rf32 => "f32" | Rf64 => "f64" end.

(** A float's bits do not matter here: the call carries its printed value. *)
Definition float_arg (x : f64) : Arg := ATag (show_f64 x).

(** The bodies of [enqueue_uniform], [enqueue_normal], [enqueue_log_normal] and
    [fill_uniform_u32]: the destination is unwrapped, a refusal is checked, and the
    generator fills it. *)
Definition enqueue (l : Lib) (g : Obj) (k : RngGeneratorKind) (dst : GpuRef) (refusal : option GpuError)
    (name : string) (args : list Arg) (reply : nat) : kact unit :=
  with_operands [dst] [(dst, shared)] reply (λ clones,
    match refusal with
    | Some e => emit (Reply reply (Err e));; drop_clones clones
    | None =>
      emit (RecordWrite (slice dst));;
      run_kernel LIB Done reply clones
        (on_lib l g k (modify (log (Ran {| oname := name; ouses := [g]; oargs := args |})));;
         lib_call answer (lib_err name) {| cname := name; cargs := AInt (Z.of_nat g) :: ADev (slice dst) :: args |})
    end).

Definition not_unit (lo hi : f64) : GpuError :=
  LibraryError LIB ("Uniform(" +:+ show_f64 lo +:+ "," +:+ show_f64 hi +:+
    "): non-(0,1] bounds need an affine transform kernel (Phase 1: not wired)").
Definition f64_one : f64 := f64_of_Z 1.
Definition poisson_refused : GpuError :=
  LibraryError LIB "Poisson<T> not yet wired for floats (Phase 1: use FillRequest<u32> + Poisson)".
Definition not_wired : GpuError :=
  LibraryError LIB "distribution not yet wired (Phase 1: needs custom kernel / NVRTC)".

(** [fill_float] *)
Definition fill_float (l : Lib) (g : Obj) (k : RngGeneratorKind) (r : FillRequest) : kact unit :=
  let t := fr_type r in
  match fr_dist r with
  | Uniform lo hi =>
    let lo_f := into_f64 t lo in
    let hi_f := into_f64 t hi in
    let trivial := SFeqb lo_f f64_zero && SFeqb hi_f f64_one in
    enqueue l g k (fr_buf r) (if trivial then None else Some (not_unit lo_f hi_f)) "fill_uniform"
      [ATag (float_tag t)] (fr_reply r)
  | Normal mean std =>
    enqueue l g k (fr_buf r) None "fill_normal" [ATag (float_tag t); float_arg mean; float_arg std] (fr_reply r)
  | LogNormal mean std =>
    enqueue l g k (fr_buf r) None "fill_log_normal" [ATag (float_tag t); float_arg mean; float_arg std] (fr_reply r)
  | Poisson _ => emit (Reply (fr_reply r) (Err poisson_refused))
  | Exponential _ | Beta _ _ | Cauchy _ _ | Gamma _ _ | Discrete _ => emit (Reply (fr_reply r) (Err not_wired))
  end.
Definition fill_uniform_u32 (l : Lib) (g : Obj) (k : RngGeneratorKind) (dst : GpuRef) (reply : nat) : kact unit :=
  enqueue l g k dst None "fill_uniform_u32" [ATag u32_tag] reply.

(** The [SetSeed] and [Reseed] arm. *)
Definition reseed (l : Lib) (g : Obj) (k : RngGeneratorKind) (seed : Z) (reply : nat) : kact unit :=
  r ← (if is_quasi k then mret (Ok tt)
       else r ← on_lib l g k (set_seed lib_answer g seed); mret (map_err (lib_err "set_seed") r));
  emit (Reply reply (match r with Ok _ => Ok Done | Err e => Err e end)).

(** The [SetGenerator] arm: the old generator is destroyed first. *)
Definition replace_generator (g : Obj) (kind : RngGeneratorKind) : lact (result Obj string) :=
  destroy_generator g;; construct_generator lib_answer kind 0.
Definition set_generator (l : Lib) (g : Obj) (k : RngGeneratorKind) (kind : RngGeneratorKind) (reply : nat) : kact unit :=
  s ← get;
  let '(r, l', _) := replace_generator g kind l in
  match r with
  | Ok g' => put (Real l' g' kind, s.2);; emit (Reply reply (Ok Done))
  | Err e => put (Real l' g k, s.2);; emit (Reply reply (Err (lib_err ("set_generator(" +:+ debug_kind kind +:+ ")") e)))
  end.

Definition rng_mock : GpuError := Unrecoverable "RngActor in mock mode".
Definition reply_mock (m : RngMsg) : kact unit :=
  match m with
  | Fill r => emit (DropSender (fr_reply r))
  | _ => emit (Reply (msg_reply m) (Err rng_mock))
  end.

Definition unit_uniform : Distribution := Uniform f64_zero f64_one.
Definition fill_of (t : RngFloat) (dst : GpuRef) (d : Distribution) (reply : nat) : FillRequest :=
  {| fr_type := t; fr_buf := dst; fr_dist := d; fr_reply := reply |}.

(** [RngActor::handle] *)
Definition rng_handle (m : RngMsg) : kact unit :=
  s ← get;
  match s.1 with
  | Mock => reply_mock m
  | Real l g k =>
    match m with
    | Fill r => fill_float l g k r
    | SetSeed seed ch | Reseed seed ch => reseed l g k seed ch
    | SetGenerator kind ch => set_generator l g k kind ch
    | FillUniformF32 dst ch => fill_float l g k (fill_of Rf32 dst unit_uniform ch)
    | FillUniformF64 dst ch => fill_float l g k (fill_of Rf64 dst unit_uniform ch)
    | FillUniformU32 dst ch => fill_uniform_u32 l g k dst ch
    | FillNormalF32 dst mean std ch => fill_float l g k (fill_of Rf32 dst (Normal mean std) ch)
    | FillNormalF64 dst mean std ch => fill_float l g k (fill_of Rf64 dst (Normal mean std) ch)
    | FillLogNormalF32 dst mean std ch => fill_float l g k (fill_of Rf32 dst (LogNormal mean std) ch)
    end
  end.

#[global] Instance rng_actor : KernelActor (S := RngInner) RngMsg := {|
  operands := msg_refs;
  reply_of := msg_reply;
  khandle := rng_handle;
|}.

(** [RngActor::props_with_kind]; the panic of a generator that cannot be built. *)
Definition props_with_kind (seed : Z) (kind : RngGeneratorKind) : result RngInner string :=
  match construct_generator (E := KEff) lib_answer kind seed Lib_new with
  | (Ok g, l, _) => Ok (Real l g kind)
  | (Err e, _, _) => Err ("ContextPoisoned: cuRAND generator init failed (" +:+ debug_kind kind +:+ "): " +:+ e)
  end.

(** The drop of the actor. *)
Definition drop_actor (i : RngInner) : Lib :=
  match i with Real l g _ => (exec (E := KEff) (destroy_generator g) l).1 | Mock => Lib_new end.

(** [RngActor::set_quasi_dimensions] *)
Definition set_quasi_dimensions (dimensions : Z) (i : RngInner) : result unit GpuError * RngInner :=
  match i with
  | Mock => (Err (Unrecoverable "RngActor in mock mode"), Mock)
  | Real l g k =>
    if is_quasi k then
      let '(r, l, _) := unit_call (E := KEff) lib_answer "curandSetQuasiRandomGeneratorDimensions" g [AInt dimensions] l in
      (map_err (lib_err ("set_quasi_random_dimensions(" +:+ pretty dimensions +:+ ")")) r, Real l g k)
    else
      (Err (LibraryError LIB ("set_quasi_dimensions called on non-quasi generator (" +:+ debug_kind k +:+
        "); SetGenerator { kind: Sobol* } first")), i)
  end.
End actor.

(** ** The life of a generator *)

Section life.
Context (lib_answer : nat → ObjCall → result Z string) (answer : Call → option string) (show_f64 : f64 → string).

Abbreviation handle_msg := (rng_handle lib_answer answer show_f64).

(** The generator is the only live object; or it is not alive, or the library saw
    an object that was not. *)
Definition alive (i : RngInner) : Prop := match i with Real l g _ => lib_ok l {[g]} | Mock => False end.
Definition dead (i : RngInner) : Prop :=
  match i with
  | Real l g _ => live l = None ∨ ∃ L, lib_ok l L ∧ g ∉ L ∧ g < calls l
  | Mock => False
  end.

Lemma live_none_log l e : live l = None → live (log e l) = None.
Proof. intros H. by rewrite live_log, H. Qed.

Lemma run_call_alive {E} l L c : lib_ok l L → ouses c ⊆ elements L →
  awp (E := E) (run_call lib_answer c) (λ _ l' es, es = [] ∧ lib_ok l' L ∧ calls l < calls l') l.
Proof.
  intros Hl Hu. eapply awp_mono, run_call_spec; [|exact Hl|].
  - intros r l' es (-> & _ & Hc & Hl'). split_and!; [done|done|lia].
  - apply Forall_forall. intros o Ho. by apply elem_of_elements, Hu.
Qed.

Lemma run_call_dead {E} l g c : live l = None ∨ (∃ L, lib_ok l L ∧ g ∉ L) → ouses c = [g] →
  awp (E := E) (run_call lib_answer c) (λ _ l' es, es = [] ∧ live l' = None) l.
Proof.
  intros Hd Hu. unfold run_call, next_call. awp_steps. split; [done|].
  destruct Hd as [Hn|(L & [Hl _] & Hg)]; [by apply live_none_log|]. rewrite live_log. unfold live in *. cbn.
  rewrite Hl. cbn. rewrite Hu, decide_False; [done|]. by intros [? _]%Forall_cons.
Qed.

Lemma log_use_dead l g c : live l = None ∨ (∃ L, lib_ok l L ∧ g ∉ L) → ouses c = [g] → live (log (Ran c) l) = None.
Proof.
  intros [Hn|(L & [Hl _] & Hg)] Hu; [by apply live_none_log|]. rewrite live_log, Hl. cbn.
  rewrite Hu, decide_False; [done|]. by intros [? _]%Forall_cons.
Qed.

(** A creation adds a new object. *)
Lemma create_generator_alive {E} host k l L : lib_ok l L →
  awp (E := E) (create_generator lib_answer host k) (λ r l' es, es = [] ∧ calls l' = S (calls l) ∧
    match r with Ok g => g = calls l ∧ g ∉ L ∧ lib_ok l' ({[g]} ∪ L) | Err _ => lib_ok l' L end) l.
Proof.
  intros [Hlive Hb]. unfold create_generator, create, next_call. awp_steps.
  assert (Hn : calls l ∉ L) by (intros Ho%Hb; cbn in Ho; lia).
  destruct (lib_answer _ _) as [z|e]; awp_steps; (split; [done|split; [done|]]); [split; [done|split; [done|]]|]; split.
  - rewrite live_log. unfold live in *. cbn. rewrite Hlive. cbn. rewrite decide_True by by split; [constructor|]. done.
  - intros o [->%elem_of_singleton|Ho]%elem_of_union; cbn; [lia|]. specialize (Hb o Ho). cbn in Hb. lia.
  - rewrite live_log. unfold live in *. cbn. by rewrite Hlive.
  - intros o Ho. cbn. specialize (Hb o Ho). cbn in Hb. lia.
Qed.

(** What is built is alive; a failure may leave a new object behind. *)
Lemma construct_spec {E} k seed l L : lib_ok l L →
  awp (E := E) (construct_generator lib_answer k seed) (λ r l' es, es = [] ∧ calls l ≤ calls l' ∧
    match r with
    | Ok g => g ∉ L ∧ lib_ok l' ({[g]} ∪ L)
    | Err _ => ∃ L', lib_ok l' L' ∧ ∀ o, o ∈ L' → o ∈ L ∨ calls l ≤ o
    end) l.
Proof.
  intros Hl. unfold construct_generator, set_stream, set_seed, unit_call.
  apply awp_bind. eapply awp_mono, create_generator_alive; [|exact Hl]. intros r l1 es (-> & Hc1 & Hr).
  destruct r as [g|e]; awp_steps; [|split; [done|split; [lia|]]; exists L; by split; [|left]].
  destruct Hr as (-> & Hn & Hl1).
  assert (Hu : [calls l] ⊆ elements ({[calls l]} ∪ L)).
  { intros o ->%list_elem_of_singleton. apply elem_of_elements. set_solver. }
  assert (Hnew : ∀ o, o ∈ {[calls l]} ∪ L → o ∈ L ∨ calls l ≤ o).
  { intros o [->%elem_of_singleton|?]%elem_of_union; [right; lia|by left]. }
  eapply awp_mono, run_call_alive; [|exact Hl1|exact Hu]. intros r l2 es (-> & Hl2 & Hc2).
  destruct r as [z'|e]; awp_steps; [|split; [done|split; [lia|eauto]]].
  destruct (is_quasi k); awp_steps; [split; [done|split; [lia|done]]|].
  eapply awp_mono, run_call_alive; [|exact Hl2|exact Hu]. intros r l3 es (-> & Hl3 & Hc3).
  destruct r as [z''|e]; awp_steps; (split; [done|split; [lia|]]); [done|eauto].
Qed.

(** A dead library stays so. *)
Lemma construct_none {E} k seed l : live l = None →
  awp (E := E) (construct_generator lib_answer k seed) (λ _ l' es, es = [] ∧ live l' = None) l.
Proof.
  intros Hn. assert (Hrun : ∀ c l, live l = None →
    awp (E := E) (run_call lib_answer c) (λ _ l' es, es = [] ∧ live l' = None) l).
  { intros c l0 H0. unfold run_call, next_call. awp_steps. split; [done|]. by apply live_none_log. }
  unfold construct_generator, create_generator, set_stream, set_seed, unit_call, create, next_call.
  awp_steps. destruct (lib_answer _ _) as [z|e]; awp_steps; [|split; [done|by apply live_none_log]].
  eapply awp_mono, Hrun; [|by apply live_none_log]. intros r l1 es (-> & H1).
  destruct r as [z'|e]; awp_steps; [|done]. destruct (is_quasi k); awp_steps; [done|].
  eapply awp_mono, Hrun; [|exact H1]. intros r l2 es (-> & H2). by destruct r; awp_steps.
Qed.

Lemma destroy_dead {E} l g : live l = None ∨ (∃ L, lib_ok l L ∧ g ∉ L) →
  awp (E := E) (destroy_generator g) (λ _ l' es, es = [] ∧ live l' = None) l.
Proof.
  intros Hd. unfold destroy_generator, destroys. awp_steps. split; [done|].
  change (live (log (Destroyed g) l) = None). rewrite live_log.
  destruct Hd as [-> |(L & [-> _] & Hg)]; [done|]. cbn. by rewrite decide_False.
Qed.

Lemma destroy_alive {E} l g : lib_ok l {[g]} →
  awp (E := E) (destroy_generator g) (λ _ l' es, es = [] ∧ calls l' = calls l ∧ lib_ok l' ∅) l.
Proof.
  intros Hl. unfold destroy_generator. eapply awp_mono, (destroys_spec [g]); [|exact Hl|apply NoDup_singleton|].
  - intros _ l' es (-> & Hc & H). split_and!; [done|done|]. unfold objs in H. cbn in H.
    by replace ({[g]} ∖ ({[g]} ∪ ∅)) with (∅ : gset Obj) in H by set_solver.
  - unfold objs. set_solver.
Qed.

(** A replacement of the generator that was refused. *)
Definition failed (m : RngMsg) (es : list KEff) : Prop :=
  match m with SetGenerator _ ch => ∃ e, es = [Reply ch (Err e)] | _ => False end.

Lemma dead_weaken l g k : dead (Real l g k) → live l = None ∨ (∃ L, lib_ok l L ∧ g ∉ L).
Proof. intros [?|(L & ? & ? & _)]; [by left|right; eauto]. Qed.

Lemma set_generator_alive l g k kind ch (s : RngInner * Gpu) : lib_ok l {[g]} →
  awp (set_generator lib_answer l g k kind ch) (λ _ s' es,
    (failed (SetGenerator kind ch) es → dead s'.1) ∧ (¬ failed (SetGenerator kind ch) es → alive s'.1)) s.
Proof.
  intros Hl. unfold set_generator. awp_steps.
  assert (Hm : awp (replace_generator lib_answer g kind) (λ r l' _,
    match r with Ok g' => lib_ok l' {[g']} | Err _ => dead (Real l' g k) end) l).
  { unfold replace_generator. apply awp_bind. eapply awp_mono, destroy_alive; [|exact Hl]. intros _ l1 es (-> & Hc & Hl1).
    eapply awp_mono, construct_spec; [|exact Hl1]. intros r l2 es2 (_ & Hc2 & Hr). destruct r as [g'|e].
    - destruct Hr as [_ Hr]. by rewrite union_empty_r_L in Hr.
    - right. destruct Hr as (L' & Hl' & Ho). exists L'. split; [done|].
      assert (g < calls l) by (apply (proj2 Hl); set_solver). split; [|lia]. intros [Hg|Hg]%Ho; [set_solver|lia]. }
  unfold awp in Hm. destruct (replace_generator _ _ _ l) as [[r l'] es]. destruct r as [g'|e]; awp_steps; cbn.
  - split; [by intros [e [=]]|done].
  - split; [done|]. intros Hn. destruct Hn. eauto.
Qed.

Lemma set_generator_dead l g k kind ch (s : RngInner * Gpu) : dead (Real l g k) →
  awp (set_generator lib_answer l g k kind ch) (λ _ s' es, dead s'.1) s.
Proof.
  intros Hd%dead_weaken. unfold set_generator. awp_steps.
  assert (Hm : awp (replace_generator lib_answer g kind) (λ _ l' _, live l' = None) l).
  { unfold replace_generator. apply awp_bind. eapply awp_mono, destroy_dead; [|exact Hd]. intros _ l1 es (-> & Hl1).
    eapply awp_mono, construct_none; [|exact Hl1]. tauto. }
  unfold awp in Hm. destruct (replace_generator _ _ _ l) as [[[g'|e] l'] es]; awp_steps; by left.
Qed.

Lemma alive_log l g c : ouses c = [g] → lib_ok l {[g]} → lib_ok (log (Ran c) l) {[g]}.
Proof.
  intros Hu [Hl Hb]. split; [|exact Hb]. rewrite live_log, Hl. cbn. rewrite Hu, decide_True; [done|].
  apply Forall_singleton. set_solver.
Qed.

(** A fill makes at most one use of the generator. *)
Lemma enqueue_keeps (R : RngInner → Prop) l g k dst refusal name args reply (s : RngInner * Gpu) :
  s.1 = Real l g k → R (Real l g k) → (∀ c, ouses c = [g] → R (Real (log (Ran c) l) g k)) →
  awp (enqueue answer l g k dst refusal name args reply) (λ _ s' _, R s'.1) s.
Proof.
  intros Hs HR Hlog. unfold enqueue. apply with_operands_inner; [by rewrite Hs|]. intros clones s1 Hs1.
  assert (HR1 : R s1.1) by (by rewrite Hs1, Hs).
  destruct refusal as [e|]; [unfold drop_clones, on_gpu; by awp_steps|]. unfold run_kernel. awp_steps.
  apply awp_zoom. awp_steps. unfold lib_call, get_gpu, on_gpu.
  destruct (answer _) as [e|]; awp_steps; unfold drop_clones, spawn_task, on_gpu; awp_steps; by apply Hlog.
Qed.

Lemma fill_keeps (R : RngInner → Prop) l g k r (s : RngInner * Gpu) :
  s.1 = Real l g k → R (Real l g k) → (∀ c, ouses c = [g] → R (Real (log (Ran c) l) g k)) →
  awp (fill_float answer show_f64 l g k r) (λ _ s' _, R s'.1) s.
Proof.
  intros Hs HR Hlog. unfold fill_float. destruct (fr_dist r); try (by apply enqueue_keeps); awp_steps; by rewrite Hs.
Qed.

Lemma reseed_keeps (R : RngInner → Prop) l g k seed ch (s : RngInner * Gpu) :
  s.1 = Real l g k → R (Real l g k) → (∀ c, ouses c = [g] →
    awp (E := KEff) (run_call lib_answer c) (λ _ l' _, R (Real l' g k)) l) →
  awp (reseed lib_answer l g k seed ch) (λ _ s' _, R s'.1) s.
Proof.
  intros Hs HR Hrun. unfold reseed. destruct (is_quasi k); awp_steps; [by rewrite Hs|].
  apply awp_zoom. unfold set_seed, unit_call. apply awp_bind. eapply awp_mono, Hrun; [|done].
  intros r l' es Hl'. by awp_steps.
Qed.

Lemma handle_keeps (R : RngInner → Prop) l g k m (s : RngInner * Gpu) :
  s.1 = Real l g k → R (Real l g k) → (∀ c, ouses c = [g] → R (Real (log (Ran c) l) g k)) →
  (∀ c, ouses c = [g] → awp (E := KEff) (run_call lib_answer c) (λ _ l' _, R (Real l' g k)) l) →
  match m with SetGenerator _ _ => True | _ => awp (handle_msg m) (λ _ s' _, R s'.1) s end.
Proof.
  intros Hs HR Hlog Hrun.
  assert (Hget : ∀ Q f, awp (f s) Q s → awp (s ← get; f s : act (RngInner * Gpu) KEff unit) Q s).
  { intros Q f H. apply awp_bind. exact H. }
  destruct m; try done; unfold rng_handle; apply Hget; rewrite Hs;
    try (by apply fill_keeps); try (by apply reseed_keeps); by apply enqueue_keeps.
Qed.

Lemma handle_alive m s : alive s.1 →
  awp (handle_msg m) (λ _ s' es, (failed m es → dead s'.1) ∧ (¬ failed m es → alive s'.1)) s.
Proof.
  destruct s as [[l g k|] gpu]; [|done]. intros Hl. cbn in Hl.
  pose proof (handle_keeps alive l g k m (Real l g k, gpu) eq_refl Hl (λ c Hc, alive_log l g c Hc Hl)) as Hk.
  specialize (Hk ltac:(intros c Hc; eapply awp_mono, run_call_alive; [by intros r l' es (_ & ? & _)|exact Hl|];
    rewrite Hc; intros o ->%list_elem_of_singleton; by apply elem_of_elements, elem_of_singleton)).
  destruct m; try (eapply awp_mono, Hk; intros ? s' es Hs; split; [intros Hf; destruct Hf|intros _; exact Hs]).
  unfold rng_handle. awp_steps.
  by apply set_generator_alive.
Qed.

Lemma handle_dead m s : dead s.1 → awp (handle_msg m) (λ _ s' _, dead s'.1) s.
Proof.
  destruct s as [[l g k|] gpu]; [|done]. intros Hd. pose proof (dead_weaken l g k Hd) as Hw.
  pose proof (handle_keeps dead l g k m (Real l g k, gpu) eq_refl Hd) as Hk.
  specialize (Hk ltac:(intros c Hc; left; by eapply log_use_dead)
    ltac:(intros c Hc; eapply awp_mono, run_call_dead; [|exact Hw|exact Hc]; intros r l' es [_ ?]; by left)).
  destruct m; try exact Hk. unfold rng_handle. awp_steps. by apply set_generator_dead.
Qed.

(** A mailbox, with the effects of each message. *)
Fixpoint rng_run (s : RngInner * Gpu) (ms : list RngMsg) : (RngInner * Gpu) * list (RngMsg * list KEff) :=
  match ms with
  | [] => (s, [])
  | m :: ms =>
    let '(s1, es) := exec (handle_msg m) s in
    let '(s2, log) := rng_run s1 ms in (s2, (m, es) :: log)
  end.

Lemma rng_run_dead s ms : dead s.1 → dead (rng_run s ms).1.1.
Proof.
  revert s. induction ms as [|m ms IH]; intros s Hd; [done|]. cbn. pose proof (handle_dead m s Hd) as H.
  apply awp_exec in H. destruct (exec _ s) as [s1 es]. specialize (IH s1 H). by destruct (rng_run s1 ms).
Qed.

Lemma rng_run_spec s ms : alive s.1 →
  (Exists (λ me, failed me.1 me.2) (rng_run s ms).2 → dead (rng_run s ms).1.1) ∧
  (¬ Exists (λ me, failed me.1 me.2) (rng_run s ms).2 → alive (rng_run s ms).1.1).
Proof.
  revert s. induction ms as [|m ms IH]; intros s Ha; [split; [by intros ?%Exists_nil|done]|]. cbn.
  pose proof (handle_alive m s Ha) as H. apply awp_exec in H. destruct (exec _ s) as [s1 es] eqn:He.
  pose proof (rng_run_dead s1 ms) as Hdead. specialize (IH s1). destruct (rng_run s1 ms) as [s2 log].
  cbn in *. rewrite Exists_cons. cbn. destruct H as [Hf Hn].
  assert (Hdec : failed m es ∨ ¬ failed m es).
  { destruct m; try (by right; intros []). cbn. destruct es as [|[ch [|e]| | | | | |] [|]]; try (by right; intros [? [=]]).
    destruct (decide (ch = reply)) as [->|]; [left; eauto|right; intros [? [= ??]]; done]. }
  destruct Hdec as [Hy|Hno].
  - specialize (Hdead (Hf Hy)). split; [done|]. intros Hx. destruct Hx. by left.
  - destruct (IH (Hn Hno)) as [IH1 IH2]. split; [intros [?|?]; [done|by apply IH1]|]. intros Hx. apply IH2.
    intros Hy. apply Hx. by right.
Qed.

Lemma props_alive seed kind i : props_with_kind lib_answer seed kind = Ok i → alive i.
Proof.
  unfold props_with_kind. intros Hp.
  pose proof (construct_spec (E := KEff) kind seed Lib_new ∅ lib_new_ok) as H. unfold awp in H.
  destruct (construct_generator _ _ _ _) as [[[g|e] l] es]; [|done]. injection Hp as <-.
  destruct H as (_ & _ & _ & H). by rewrite union_empty_r_L in H.
Qed.

(** The generator's life: an actor that started, handled any messages, with
    whatever answers of cuRAND, and stopped has used its generators only while
    they were alive, destroyed each exactly once and left none, exactly as long as
    no replacement of its generator was refused. After such a refusal the actor
    still holds the generator it destroyed, and at the latest its own end destroys
    it again. *)
Theorem generator_life seed kind i gpu ms :
  props_with_kind lib_answer seed kind = Ok i →
  let '((i', _), log) := rng_run (i, gpu) ms in
  (¬ Exists (λ me, failed me.1 me.2) log → live (drop_actor i') = Some ∅) ∧
  (Exists (λ me, failed me.1 me.2) log → live (drop_actor i') = None).
Proof.
  intros Hp. pose proof (rng_run_spec (i, gpu) ms (props_alive _ _ _ Hp)) as H.
  destruct (rng_run (i, gpu) ms) as [[i' gpu'] log]. cbn in H. destruct H as [Hd Ha]. split; intros Hx.
  - specialize (Ha Hx). destruct i' as [l g k|]; [|done]. pose proof (destroy_alive (E := KEff) l g Ha) as H.
    apply awp_exec in H. unfold drop_actor. destruct (exec _ l). by destruct H as (_ & _ & [? _]).
  - specialize (Hd Hx). destruct i' as [l g k|]; [|done].
    pose proof (destroy_dead (E := KEff) l g (dead_weaken _ _ _ Hd)) as H.
    apply awp_exec in H. unfold drop_actor. destruct (exec _ l). by destruct H.
Qed.
End life.

(** ** What the actor answers *)

Section outcome.
Context (lib_answer : nat → ObjCall → result Z string) (answer : Call → option string) (show_f64 : f64 → string).

Abbreviation handle_msg := (rng_handle lib_answer answer show_f64).

(** What each message asks for: a distribution over a buffer, or nothing. *)
Definition asked (m : RngMsg) : option (GpuRef * Distribution) :=
  match m with
  | Fill r => Some (fr_buf r, fr_dist r)
  | FillUniformF32 d _ | FillUniformF64 d _ | FillUniformU32 d _ => Some (d, unit_uniform)
  | FillNormalF32 d mean std _ | FillNormalF64 d mean std _ => Some (d, Normal mean std)
  | FillLogNormalF32 d mean std _ => Some (d, LogNormal mean std)
  | SetSeed _ _ | SetGenerator _ _ | Reseed _ _ => None
  end.
Definition fill_error (g : Gpu) (dst : GpuRef) (d : Distribution) : GpuError :=
  match d with
  | Uniform _ _ | Normal _ _ | LogNormal _ _ =>
    match access_list (dev g) [dst] with Err e => e | Ok _ => Unrecoverable shared end
  | Poisson _ => poisson_refused
  | _ => not_wired
  end.

Lemma enqueue_shared l g k dst refusal name args reply (st : RngInner) gpu : holds (heap gpu) dst →
  awp (enqueue answer l g k dst refusal name args reply) (λ _ s' es, s'.1 = st ∧ kpost reply gpu s'.2 es ∧
    es = [Reply reply (Err match access_list (dev gpu) [dst] with Err e => e | Ok _ => Unrecoverable shared end)])
    (st, gpu).
Proof. intros Hh. apply with_operands_shared; [by constructor|by left]. Qed.

Lemma fill_spec l g k r (st : RngInner) gpu : holds (heap gpu) (fr_buf r) →
  awp (fill_float answer show_f64 l g k r) (λ _ s' es, s'.1 = st ∧ kpost (fr_reply r) gpu s'.2 es ∧
    es = [Reply (fr_reply r) (Err (fill_error gpu (fr_buf r) (fr_dist r)))]) (st, gpu).
Proof.
  intros Hh. unfold fill_float, fill_error. destruct (fr_dist r); try (by apply enqueue_shared);
    awp_steps; (split; [done|split; [split; [done|by left]|done]]).
Qed.

Lemma asked_held m d dst g : asked m = Some (dst, d) → Forall (holds (heap g)) (msg_refs m) → holds (heap g) dst.
Proof. intros Ha Hh. destruct m; cbn in *; simplify_eq; by apply Forall_cons in Hh as [? _]. Qed.

Lemma fill_handled m dst d l g k gpu : asked m = Some (dst, d) → Forall (holds (heap gpu)) (msg_refs m) →
  awp (handle_msg m) (λ _ s' es, s'.1 = Real l g k ∧ kpost (msg_reply m) gpu s'.2 es ∧
    es = [Reply (msg_reply m) (Err (fill_error gpu dst d))]) (Real l g k, gpu).
Proof.
  intros Ha Hh. pose proof (asked_held _ _ _ _ Ha Hh) as Hd. unfold rng_handle. apply awp_bind, awp_get. cbn [fst].
  destruct m; cbn in Ha; simplify_eq; try (by apply (fill_spec l g k)); by apply enqueue_shared.
Qed.

(** A control message answers at once and leaves the device alone. *)
Lemma control_handled m l g k gpu : asked m = None →
  awp (handle_msg m) (λ _ s' es, s'.2 = gpu ∧ ∃ r, es = [Reply (msg_reply m) r]) (Real l g k, gpu).
Proof.
  intros Ha. unfold rng_handle. apply awp_bind, awp_get. cbn [fst].
  assert (Hr : ∀ seed ch, awp (reseed lib_answer l g k seed ch) (λ _ s' es, s'.2 = gpu ∧ ∃ r, es = [Reply ch r])
    (Real l g k, gpu)).
  { intros seed ch. unfold reseed. destruct (is_quasi k); awp_steps; [eauto|]. apply awp_zoom.
    unfold set_seed, unit_call, run_call, next_call. awp_steps. eauto. }
  destruct m; cbn in Ha; simplify_eq; try apply Hr.
  unfold set_generator. awp_steps. cbn [fst].
  destruct (replace_generator _ _ _ l) as [[[g'|e] l'] es]; awp_steps; eauto.
Qed.

#[global] Instance rng_law :
  KernelLaw RngInner RngMsg (KernelActor0 := rng_actor lib_answer answer show_f64).
Proof.
  intros m [l g k|] gpu Hh; cbn [operands reply_of khandle rng_actor] in *.
  - destruct (asked m) as [[dst d]|] eqn:Ha.
    + eapply awp_mono, fill_handled; [|done|done]. by intros _ s' es (_ & ? & _).
    + eapply awp_mono, control_handled; [|done]. intros _ s' es (-> & r & ->). split; [done|by left].
  - unfold rng_handle, reply_mock. awp_steps. destruct m; awp_steps; (split; [done|by left]).
Qed.

(** No fill reaches cuRAND: each is refused, and neither the generator nor the
    device's queue and tasks change. *)
Theorem fill_refused m dst d l g k gpu :
  asked m = Some (dst, d) → Forall (holds (heap gpu)) (msg_refs m) →
  let '((i, gpu'), es) := exec (handle_msg m) (Real l g k, gpu) in
  i = Real l g k ∧ queue gpu' = queue gpu ∧ tasks gpu' = tasks gpu ∧
  es = [Reply (msg_reply m) (Err (fill_error gpu dst d))].
Proof.
  intros Ha Hh. pose proof (fill_handled m dst d l g k gpu Ha Hh) as H. apply awp_exec in H.
  destruct (exec _ _) as [[i gpu'] es]. cbn in H. destruct H as (-> & [_ Hp] & ->).
  destruct Hp as [(Hq & Ht & _)|(op & t & _ & _ & _ & _ & _ & _ & Hn)]; [done|discriminate].
Qed.
End outcome.

(** ** The host API *)

Record HostRng := { host_gen : Obj; host_kind : RngGeneratorKind }.

Section host.
Context {E : Type} (lib_answer : nat → ObjCall → result Z string).

Abbreviation lact := (act Lib E).

(** [HostRng::new]; the generator is not destroyed when its seed is refused. *)
Definition HostRng_new (kind : RngGeneratorKind) (seed : Z) : lact (result HostRng string) :=
  r ← create_generator lib_answer true kind;
  match r with
  | Err e => mret (Err e)
  | Ok g =>
    r ← (if is_quasi kind then mret (Ok tt) else set_seed lib_answer g seed);
    mret (match r with Err e => Err e | Ok _ => Ok {| host_gen := g; host_kind := kind |} end)
  end.
Definition host_set_seed (h : HostRng) (seed : Z) : lact (result unit string) :=
  if is_quasi (host_kind h) then mret (Ok tt) else set_seed lib_answer (host_gen h) seed.

(** The seven fills of a host slice, by the function each calls. *)
Inductive HostFill : Type :=
  | HostU32 | HostU64 | HostUniformF32 | HostUniformF64
  | HostNormalF32 (mean std : Z) | HostNormalF64 (mean std : Z) | HostPoissonU32 (lambda : Z).
Definition fill_function (f : HostFill) : string :=
  match f with
  | HostU32 => "curandGenerate" | HostU64 => "curandGenerateLongLong"
  | HostUniformF32 => "curandGenerateUniform" | HostUniformF64 => "curandGenerateUniformDouble"
  | HostNormalF32 _ _ => "curandGenerateNormal" | HostNormalF64 _ _ => "curandGenerateNormalDouble"
  | HostPoissonU32 _ => "curandGeneratePoisson"
  end.
(** Floats travel as their bits. *)
Definition fill_params (f : HostFill) : list Z :=
  match f with HostNormalF32 a b | HostNormalF64 a b => [a; b] | HostPoissonU32 a => [a] | _ => [] end.
Definition host_fill (h : HostRng) (f : HostFill) (len : Z) : lact (result unit string) :=
  unit_call lib_answer (fill_function f) (host_gen h) (AInt len :: (AInt <$> fill_params f)).
Definition HostRng_drop (h : HostRng) : lact unit := destroy_generator (host_gen h).

(** One use of a host generator: it is built, used any number of times, dropped. *)
Inductive HostOp : Type := HSeed (seed : Z) | HFill (f : HostFill) (len : Z).
Definition host_op (h : HostRng) (o : HostOp) : lact (result unit string) :=
  match o with HSeed s => host_set_seed h s | HFill f n => host_fill h f n end.
Fixpoint host_ops (h : HostRng) (os : list HostOp) : lact unit :=
  match os with [] => mret tt | o :: os => host_op h o;; host_ops h os end.
Definition host_session (kind : RngGeneratorKind) (seed : Z) (os : list HostOp) : lact bool :=
  r ← HostRng_new kind seed;
  match r with
  | Err _ => mret false
  | Ok h => host_ops h os;; HostRng_drop h;; mret true
  end.

Lemma unit_call_alive name l g args L : lib_ok l L → g ∈ L →
  awp (E := E) (unit_call lib_answer name g args) (λ _ l' es, es = [] ∧ lib_ok l' L) l.
Proof.
  intros Hl Hg. unfold unit_call. apply awp_bind. eapply awp_mono, run_call_alive; [|exact Hl|].
  - intros r l' es (-> & ? & _). by awp_steps.
  - intros o ->%list_elem_of_singleton. by apply elem_of_elements.
Qed.

Lemma host_ops_alive h os l : lib_ok l {[host_gen h]} →
  awp (E := E) (host_ops h os) (λ _ l' es, es = [] ∧ lib_ok l' {[host_gen h]}) l.
Proof.
  assert (Hone : ∀ o l, lib_ok l {[host_gen h]} →
    awp (E := E) (host_op h o) (λ _ l' es, es = [] ∧ lib_ok l' {[host_gen h]}) l).
  { intros o l0 H0. assert (Hin : host_gen h ∈ ({[host_gen h]} : gset Obj)) by by apply elem_of_singleton.
    destruct o; cbn [host_op]; [|by apply unit_call_alive].
    unfold host_set_seed. destruct (is_quasi _); [by awp_steps|by apply unit_call_alive]. }
  revert l. induction os as [|o os IH]; intros l Hl; cbn [host_ops]; [by awp_steps|].
  apply awp_bind. eapply awp_mono, Hone; [|exact Hl]. intros _ l1 es (-> & H1). by apply IH.
Qed.

(** A session that starts leaves nothing behind; one that does not may leave the
    generator whose seed was refused. *)
Theorem host_session_life kind seed os :
  let '(started, l, _) := host_session kind seed os Lib_new in
  ∃ L, live l = Some L ∧ (started = true → L = ∅).
Proof.
  enough (H : awp (E := E) (host_session kind seed os) (λ st l _, ∃ L, live l = Some L ∧ (st = true → L = ∅)) Lib_new).
  { unfold awp in H. by destruct (host_session _ _ _ _) as [[??] ?]. }
  unfold host_session, HostRng_new. apply awp_bind, awp_bind.
  eapply awp_mono, create_generator_alive; [|apply lib_new_ok]. intros r l1 es (-> & _ & Hr).
  destruct r as [g|e]; awp_steps; [|destruct Hr as [Hr _]; exists ∅; by split].
  destruct Hr as (_ & _ & Hr). rewrite union_empty_r_L in Hr.
  assert (Hgo : ∀ l, lib_ok l {[g]} →
    awp (E := E) (host_ops {| host_gen := g; host_kind := kind |} os) (λ _ l _,
      awp (E := E) (HostRng_drop {| host_gen := g; host_kind := kind |};; mret true)
        (λ st l _, ∃ L, live l = Some L ∧ (st = true → L = ∅)) l) l).
  { intros l2 H2. eapply awp_mono, host_ops_alive; [|exact H2]. intros _ l3 es3 (-> & H3).
    apply awp_bind. eapply awp_mono, (destroy_alive lib_answer); [|exact H3]. intros _ l4 es4 (-> & _ & [H4 _]). awp_steps. by eauto. }
  destruct (is_quasi kind); awp_steps; [by apply Hgo|].
  eapply awp_mono, unit_call_alive; [|exact Hr|by apply elem_of_singleton]. intros r l2 es (-> & H2).
  destruct r as [x|e]; awp_steps; [by apply Hgo|]. destruct H2 as [H2 _]. exists {[g]}. by split.
Qed.
End host.

(** *** Witnesses *)

Definition toy_ref (sl : slice_id) : GpuRef := GpuRef_new sl (DeviceState_new 0).
Definition toy_gpu : Gpu := Gpu_new (Some (DeviceState_new 0)).
Definition toy_answers (n : nat) (_ : ObjCall) : result Z string := Ok 0%Z.
(** The call with the given number is refused. *)
Definition refusing (k n : nat) (_ : ObjCall) : result Z string := if n =? k then Err "CURAND_STATUS_ERROR" else Ok 0%Z.
Definition toy_msgs : list RngMsg := [SetSeed 7 1; SetGenerator Sobol32 2; SetSeed 8 3; Reseed 9 4].
Definition started (lib_answer : nat → ObjCall → result Z string) : RngInner :=
  match props_with_kind lib_answer 42 XorWow with Ok i => i | Err _ => Mock end.

Lemma generator_life_witness :
  let '((i', _), _) := rng_run toy_answers (λ _, None) (λ _, EmptyString) (started toy_answers, toy_gpu) toy_msgs in
  live (drop_actor i') = Some ∅.
Proof.
  pose proof (generator_life toy_answers (λ _, None) (λ _, EmptyString) 42 XorWow (started toy_answers) toy_gpu toy_msgs
    eq_refl) as H.
  destruct (rng_run _ _ _ _ _) as [[i' g'] log] eqn:Hr. destruct H as [H _]. apply H.
  vm_compute in Hr. injection Hr as _ _ <-. rewrite !Exists_cons, Exists_nil. cbn. intros H0.
  repeat destruct H0 as [H0|H0]; try done; by destruct H0 as [e H0].
Defined.

(** A refused creation leaves the actor with the generator it destroyed: the next
    message uses it, and the actor's end destroys it once more. *)
Example refused_generator_is_kept :
  let '((i', _), log) :=
    rng_run (refusing 4) (λ _, None) (λ _, EmptyString) (started (refusing 4), toy_gpu) toy_msgs in
  match i' with Real l g k => g = 0 ∧ k = XorWow ∧ live l = None | Mock => False end ∧
  live (drop_actor i') = None ∧
  log.*2 = [[Reply 1 (Ok Done)];
            [Reply 2 (Err (LibraryError LIB "set_generator(Sobol32): CURAND_STATUS_ERROR"))];
            [Reply 3 (Ok Done)]; [Reply 4 (Ok Done)]].
Proof. by vm_compute. Qed.

(** A refused stream leaks the generator just built, in the actor as on the host. *)
Example refused_generator_is_leaked :
  live (construct_generator (E := KEff) (refusing 1) XorWow 42 Lib_new).1.2 = Some {[0]} ∧
  live (host_session (E := KEff) (refusing 1) XorWow 42 [] Lib_new).1.2 = Some {[0]}.
Proof. by vm_compute. Qed.
