(* ===== verification/CudnnGraph.v ===== *)
(** * cuDNN: operation graphs and their keys

    Models [crates/atomr-accel-cuda/src/kernel/cudnn/graph.rs]: the
    specifications of tensors and operations, the strides a layout gives a
    tensor, the byte stream that a graph feeds to the hasher, and the plan cache.
    An [i64] is a signed integer whose products wrap; an [f64] of an operation
    is its bits, as the code hashes and stores it.  [None] is a panic (an
    assertion, an index out of range).  The hasher is a parameter. *)

From S2P Require Import Prelude Text Errors Dtype Lru.

(** ** Tags *)

Inductive TensorLayout : Type := NchwPacked | NhwcPacked | Strided.
Inductive DtypeTag : Type := TF32 | TF64 | TF16 | TBf16 | TI8 | TI32 | TU8.
Definition tag_name (t : DtypeTag) : string :=
  match t with
  | TF32 => "f32" | TF64 => "f64" | TF16 => "f16" | TBf16 => "bf16" | TI8 => "i8" | TI32 => "i32" | TU8 => "u8"
  end.
Definition tag_cudnn (t : DtypeTag) : string :=
  match t with
  | TF32 => "CUDNN_DATA_FLOAT" | TF64 => "CUDNN_DATA_DOUBLE" | TF16 => "CUDNN_DATA_HALF"
  | TBf16 => "CUDNN_DATA_BFLOAT16" | TI8 => "CUDNN_DATA_INT8" | TI32 => "CUDNN_DATA_INT32"
  | TU8 => "CUDNN_DATA_UINT8"
  end.

Inductive PointwiseMode : Type :=
  | Relu | Sigmoid | Tanh | Gelu | GeluApprox | Swish | Elu | Softplus | Identity
  | Add | Mul | Sub | Div | Min | Max | Sqrt | Rsqrt | Exp | Log | Neg | Abs.
Inductive PoolKind : Type := MaxFwd | AvgFwd | MaxBwd | AvgBwd.
Inductive NormMode : Type := BatchNorm | LayerNorm | InstanceNorm | GroupNorm | RmsNorm.
Inductive NormPhase : Type := Inference | Training | PersistentTraining.
Inductive ReduceOp : Type := RAdd | RMul | RMin | RMax | RMean | RNorm1 | RNorm2.

#[global] Instance DtypeTag_eq_dec : EqDecision DtypeTag.
Proof. solve_decision. Defined.
#[global] Instance PointwiseMode_eq_dec : EqDecision PointwiseMode.
Proof. solve_decision. Defined.
#[global] Instance PoolKind_eq_dec : EqDecision PoolKind.
Proof. solve_decision. Defined.
#[global] Instance NormMode_eq_dec : EqDecision NormMode.
Proof. solve_decision. Defined.
#[global] Instance NormPhase_eq_dec : EqDecision NormPhase.
Proof. solve_decision. Defined.
#[global] Instance ReduceOp_eq_dec : EqDecision ReduceOp.
Proof. solve_decision. Defined.

(** ** Strides *)

(** [strides[i] = strides[i + 1] * dims[i + 1]] *)
Definition set_stride (dims strides : list Z) (i : nat) : list Z :=
  <[i := i64_mul (strides !!! (i + 1)) (dims !!! (i + 1))]> strides.

Definition packed_strides (dims : list Z) (layout : TensorLayout) : option (list Z) :=
  let n := length dims in
  if n =? 0 then Some []
  else match layout with
  | NchwPacked | Strided => Some (foldl (set_stride dims) (replicate n 1%Z) (rev (seq 0 (n - 1))))
  | NhwcPacked =>
    if n <? 3 then None
    else
      let strides := <[1 := 1%Z]> (replicate n 0%Z) in
      let c := dims !!! 1 in
      let strides := <[n - 1 := c]> strides in
      let strides := foldl (set_stride dims) strides (rev (seq 2 (n - 1 - 2))) in
      Some (<[0 := i64_mul (strides !!! 2) (dims !!! 2)]> strides)
  end.

Record TensorSpec := {
  uid : Z; t_dtype : DtypeTag; dims : list Z; strides : list Z; alignment : Z; is_virtual : bool }.

Definition TensorSpec_new (u : Z) (d : DtypeTag) (ds : list Z) (layout : TensorLayout) : option TensorSpec :=
  s ← packed_strides ds layout;
  Some {| uid := u; t_dtype := d; dims := ds; strides := s; alignment := 16; is_virtual := false |}.
(** The length check is a [debug_assert]. *)
Definition with_strides (s : list Z) (t : TensorSpec) : TensorSpec :=
  {| uid := uid t; t_dtype := t_dtype t; dims := dims t; strides := s; alignment := alignment t; is_virtual := is_virtual t |}.
Definition with_alignment (a : Z) (t : TensorSpec) : TensorSpec :=
  {| uid := uid t; t_dtype := t_dtype t; dims := dims t; strides := strides t; alignment := a; is_virtual := is_virtual t |}.
Definition virtualized (t : TensorSpec) : TensorSpec :=
  {| uid := uid t; t_dtype := t_dtype t; dims := dims t; strides := strides t; alignment := alignment t; is_virtual := true |}.
Definition rank (t : TensorSpec) : nat := length (dims t).

(** ** Operations *)

Inductive OpSpec : Type :=
  | ConvFwd (x w y : Z) (spatial_dims : nat) (pre_padding post_padding stride dilation : list Z)
      (compute_dtype : DtypeTag) (alpha beta : Z)
  | ConvBwdData (dy w dx : Z) (spatial_dims : nat) (pre_padding post_padding stride dilation : list Z)
      (compute_dtype : DtypeTag) (alpha beta : Z)
  | ConvBwdFilter (x dy dw : Z) (spatial_dims : nat) (pre_padding post_padding stride dilation : list Z)
      (compute_dtype : DtypeTag) (alpha beta : Z)
  | Pointwise (mode : PointwiseMode) (x : Z) (b : option Z) (y : Z) (compute_dtype : DtypeTag) (alpha1 alpha2 : Z)
  | PoolFwd (kind : PoolKind) (x y : Z) (window pre_padding post_padding stride : list Z) (compute_dtype : DtypeTag)
  | PoolBwd (kind : PoolKind) (dy x y dx : Z) (window pre_padding post_padding stride : list Z)
      (compute_dtype : DtypeTag)
  | NormFwd (mode : NormMode) (phase : NormPhase) (x scale bias : Z) (mean var : option Z) (y : Z)
      (compute_dtype : DtypeTag) (epsilon exp_avg_factor : Z)
  | NormBwd (mode : NormMode) (x dy scale mean var dx dscale dbias : Z) (compute_dtype : DtypeTag)
  | Matmul (a b c : Z) (compute_dtype : DtypeTag)
  | Reduce (op : ReduceOp) (x y : Z) (compute_dtype : DtypeTag)
  | Reshape (x y : Z).

Record OperationGraphSpec := { tensors : list TensorSpec; ops : list OpSpec; name : string }.

Definition OperationGraphSpec_new (n : string) : OperationGraphSpec := {| tensors := []; ops := []; name := n |}.
Definition add_tensor (t : TensorSpec) (g : OperationGraphSpec) : Z * OperationGraphSpec :=
  (uid t, {| tensors := tensors g ++ [t]; ops := ops g; name := name g |}).
Definition add_op (o : OpSpec) (g : OperationGraphSpec) : OperationGraphSpec :=
  {| tensors := tensors g; ops := ops g ++ [o]; name := name g |}.

(** [build_into] is a skeleton. *)
Definition build_into (g : OperationGraphSpec) : result unit GpuError :=
  Err (LibraryError "cudnn" "OperationGraphSpec::build_into not yet wired (Phase 2 cuDNN frontend skeleton)").

(** ** The byte stream of a graph

    A derived [Hash] of a fieldless enum writes its discriminant, 8 bytes. *)

Definition disc (n : nat) : list Z := le_bytes 8 (Z.of_nat n).
Definition dtype_disc (t : DtypeTag) : nat :=
  match t with TF32 => 0 | TF64 => 1 | TF16 => 2 | TBf16 => 3 | TI8 => 4 | TI32 => 5 | TU8 => 6 end.
Definition pointwise_disc (m : PointwiseMode) : nat :=
  match m with
  | Relu => 0 | Sigmoid => 1 | Tanh => 2 | Gelu => 3 | GeluApprox => 4 | Swish => 5 | Elu => 6 | Softplus => 7
  | Identity => 8 | Add => 9 | Mul => 10 | Sub => 11 | Div => 12 | Min => 13 | Max => 14 | Sqrt => 15 | Rsqrt => 16
  | Exp => 17 | Log => 18 | Neg => 19 | Abs => 20
  end.
Definition pool_disc (k : PoolKind) : nat := match k with MaxFwd => 0 | AvgFwd => 1 | MaxBwd => 2 | AvgBwd => 3 end.
Definition norm_disc (m : NormMode) : nat :=
  match m with BatchNorm => 0 | LayerNorm => 1 | InstanceNorm => 2 | GroupNorm => 3 | RmsNorm => 4 end.
Definition phase_disc (p : NormPhase) : nat := match p with Inference => 0 | Training => 1 | PersistentTraining => 2 end.
Definition reduce_disc (r : ReduceOp) : nat :=
  match r with RAdd => 0 | RMul => 1 | RMin => 2 | RMax => 3 | RMean => 4 | RNorm1 => 5 | RNorm2 => 6 end.

Definition hash_i64 : Z → list Z := int_bytes 8.
Definition hash_usize (n : nat) : list Z := le_bytes 8 (Z.of_nat n).
Definition hash_bits : Z → list Z := le_bytes 8.
Definition hash_vec : list Z → list Z := seq_bytes hash_i64.
Definition hash_opt : option Z → list Z := option_bytes hash_i64.

Definition hash_tensor (t : TensorSpec) : list Z :=
  hash_i64 (uid t) ++ disc (dtype_disc (t_dtype t)) ++ hash_vec (dims t) ++ hash_vec (strides t) ++
  hash_i64 (alignment t) ++ [if is_virtual t then 1 else 0]%Z.

Definition hash_op (o : OpSpec) : list Z :=
  match o with
  | ConvFwd x w y sd pre post st dil d al be =>
    [0%Z] ++ hash_i64 x ++ hash_i64 w ++ hash_i64 y ++ hash_usize sd ++ hash_vec pre ++ hash_vec post ++
    hash_vec st ++ hash_vec dil ++ disc (dtype_disc d) ++ hash_bits al ++ hash_bits be
  | ConvBwdData dy w dx sd pre post st dil d al be =>
    [1%Z] ++ hash_i64 dy ++ hash_i64 w ++ hash_i64 dx ++ hash_usize sd ++ hash_vec pre ++ hash_vec post ++
    hash_vec st ++ hash_vec dil ++ disc (dtype_disc d) ++ hash_bits al ++ hash_bits be
  | ConvBwdFilter x dy dw sd pre post st dil d al be =>
    [2%Z] ++ hash_i64 x ++ hash_i64 dy ++ hash_i64 dw ++ hash_usize sd ++ hash_vec pre ++ hash_vec post ++
    hash_vec st ++ hash_vec dil ++ disc (dtype_disc d) ++ hash_bits al ++ hash_bits be
  | Pointwise m x b y d a1 a2 =>
    [3%Z] ++ disc (pointwise_disc m) ++ hash_i64 x ++ hash_opt b ++ hash_i64 y ++ disc (dtype_disc d) ++
    hash_bits a1 ++ hash_bits a2
  | PoolFwd k x y win pre post st d =>
    [4%Z] ++ disc (pool_disc k) ++ hash_i64 x ++ hash_i64 y ++ hash_vec win ++ hash_vec pre ++ hash_vec post ++
    hash_vec st ++ disc (dtype_disc d)
  | PoolBwd k dy x y dx win pre post st d =>
    [5%Z] ++ disc (pool_disc k) ++ hash_i64 dy ++ hash_i64 x ++ hash_i64 y ++ hash_i64 dx ++ hash_vec win ++
    hash_vec pre ++ hash_vec post ++ hash_vec st ++ disc (dtype_disc d)
  | NormFwd m p x s b mean var y d eps f =>
    [6%Z] ++ disc (norm_disc m) ++ disc (phase_disc p) ++ hash_i64 x ++ hash_i64 s ++ hash_i64 b ++
    hash_opt mean ++ hash_opt var ++ hash_i64 y ++ disc (dtype_disc d) ++ hash_bits eps ++ hash_bits f
  | NormBwd m x dy s mean var dx ds db d =>
    [7%Z] ++ disc (norm_disc m) ++ hash_i64 x ++ hash_i64 dy ++ hash_i64 s ++ hash_i64 mean ++ hash_i64 var ++
    hash_i64 dx ++ hash_i64 ds ++ hash_i64 db ++ disc (dtype_disc d)
  | Matmul a b c d => [8%Z] ++ hash_i64 a ++ hash_i64 b ++ hash_i64 c ++ disc (dtype_disc d)
  | Reduce r x y d => [9%Z] ++ disc (reduce_disc r) ++ hash_i64 x ++ hash_i64 y ++ disc (dtype_disc d)
  | Reshape x y => [10%Z] ++ hash_i64 x ++ hash_i64 y
  end.

(** The name is not hashed. *)
Definition graph_bytes (g : OperationGraphSpec) : list Z :=
  seq_bytes hash_tensor (tensors g) ++ seq_bytes hash_op (ops g).

(** ** Keys and the plan cache *)

Record PlanCacheKey := { op_kind : string; k_dtype : DtypeTag; signature : Z }.
#[global] Instance PlanCacheKey_eq_dec : EqDecision PlanCacheKey.
Proof. solve_decision. Defined.

(** [plan] is the backend descriptor, by a number. *)
Record CachedPlan := { p_signature : Z; p_op_kind : string; p_dtype : DtypeTag; workspace_bytes : nat; plan : option nat }.

Definition DEFAULT_PLAN_CACHE_SIZE : nat := 256.

Section cache.
Context {C : Type} `{!LruOps PlanCacheKey CachedPlan C}.
(** [DefaultHasher::new()] fed with bytes. *)
Context (sip : list Z → Z).

Definition graph_signature (g : OperationGraphSpec) : Z := sip (graph_bytes g).
Definition cache_key (kind : string) (d : DtypeTag) (g : OperationGraphSpec) : PlanCacheKey :=
  {| op_kind := kind; k_dtype := d; signature := graph_signature g |}.

Record PlanCache := { inner : C }.
Definition PlanCache_new (cap : nat) : PlanCache := {| inner := lru_new (Nat.max cap 1) |}.
Definition PlanCache_default : PlanCache := PlanCache_new DEFAULT_PLAN_CACHE_SIZE.
Definition plan_get (k : PlanCacheKey) (p : PlanCache) : option CachedPlan * PlanCache :=
  let '(o, c) := lru_get k (inner p) in (o, {| inner := c |}).
Definition plan_put (k : PlanCacheKey) (v : CachedPlan) (p : PlanCache) : PlanCache := {| inner := lru_put k v (inner p) |}.
Definition plan_len (p : PlanCache) : nat := lru_len (inner p).
Definition plan_cap (p : PlanCache) : nat := lru_cap (inner p).
Definition plan_clear (p : PlanCache) : PlanCache := {| inner := lru_clear (inner p) |}.

(** A use of the cache: a look-up, or the plan built for a graph is stored. *)
Inductive CacheUse : Type :=
  | UGet (kind : string) (d : DtypeTag) (g : OperationGraphSpec)
  | UPut (kind : string) (d : DtypeTag) (g : OperationGraphSpec) (v : CachedPlan)
  | UClear.
Definition cache_use (u : CacheUse) (p : PlanCache) : PlanCache :=
  match u with
  | UGet k d g => (plan_get (cache_key k d g) p).2
  | UPut k d g v => plan_put (cache_key k d g) v p
  | UClear => plan_clear p
  end.
End cache.
Arguments PlanCache : clear implicits.

(** ** The stride of a packed layout *)

Fixpoint volume (ds : list Z) : Z := match ds with [] => 1 | d :: ds => d * volume ds end%Z.
Definition in_bounds (ds idx : list Z) : Prop := Forall2 (λ d i, 0 ≤ i < d)%Z ds idx.
Fixpoint offset (idx strides : list Z) : Z :=
  match idx, strides with i :: idx, s :: strides => (i * s + offset idx strides)%Z | _, _ => 0%Z end.
Fixpoint row_major (ds : list Z) : list Z := match ds with [] => [] | _ :: ds => volume ds :: row_major ds end.

#[local] Arguments Z.mul : simpl never.

Lemma volume_pos ds : Forall (Z.lt 0) ds → (0 < volume ds)%Z.
Proof. induction 1 as [|d ds Hd _ IH]; cbn; [lia|by apply Z.mul_pos_pos]. Qed.

Lemma volume_app l1 l2 : volume (l1 ++ l2) = (volume l1 * volume l2)%Z.
Proof. induction l1 as [|d l1 IH]; cbn; [lia|]. rewrite IH. lia. Qed.

Lemma length_row_major ds : length (row_major ds) = length ds.
Proof. induction ds as [|d ds IH]; cbn; [done|]. by rewrite IH. Qed.

Lemma row_major_lookup ds i : i < length ds → row_major ds !! i = Some (volume (drop (S i) ds)).
Proof. revert i. induction ds as [|d ds IH]; intros [|i] Hi; cbn in *; [lia..|done|]. apply IH. lia. Qed.

Lemma offset_scale c idx ss : offset idx ((λ s, c * s)%Z <$> ss) = (c * offset idx ss)%Z.
Proof. revert idx. induction ss as [|s ss IH]; intros [|i idx]; cbn; [lia..|]. rewrite IH. lia. Qed.

(** Row-major strides number the elements. *)
Lemma row_major_offset ds idx :
  in_bounds ds idx → (0 ≤ offset idx (row_major ds) < volume ds)%Z.
Proof.
  induction 1 as [|d i ds idx Hi _ IH]; cbn; [lia|].
  assert ((i + 1) * volume ds ≤ d * volume ds)%Z by (apply Z.mul_le_mono_nonneg_r; lia).
  assert (0 ≤ i * volume ds)%Z by (apply Z.mul_nonneg_nonneg; lia). lia.
Qed.

Lemma row_major_inj ds i j :
  in_bounds ds i → in_bounds ds j → offset i (row_major ds) = offset j (row_major ds) → i = j.
Proof.
  intros Hi. revert j. induction Hi as [|d x ds i Hx Hi IH]; intros j Hj He; inversion Hj as [|? y ? j' Hy Hj']; subst; [done|].
  cbn in He. pose proof (row_major_offset ds i Hi). pose proof (row_major_offset ds j' Hj').
  assert (x = y) by nia. subst. f_equal. apply IH; [done|]. lia.
Qed.

Lemma row_major_onto ds o :
  Forall (Z.lt 0) ds → (0 ≤ o < volume ds)%Z → ∃ i, in_bounds ds i ∧ offset i (row_major ds) = o.
Proof.
  intros Hd. revert o. induction Hd as [|d ds Hd Hds IH]; intros o Ho; cbn in Ho.
  - exists []. split; [constructor|]. cbn. lia.
  - pose proof (volume_pos ds Hds) as Hv. destruct (IH (o mod volume ds)%Z) as (i & Hi & He); [by apply Z.mod_pos_bound|].
    exists (o / volume ds :: i)%Z. split.
    + constructor; [|done]. split; [apply Z.div_pos; lia|]. apply Z.div_lt_upper_bound; lia.
    + cbn. rewrite He. pose proof (Z.div_mod o (volume ds)). lia.
Qed.

(** *** The loop *)

(** One pass of the loop from position [lo + k] down to [lo]. *)
Definition fill (ds : list Z) (lo k : nat) (s : list Z) : list Z := foldl (set_stride ds) s (rev (seq lo k)).

Lemma fill_S ds lo k s : fill ds lo (S k) s = set_stride ds (fill ds (S lo) k s) lo.
Proof. unfold fill. cbn [seq rev]. by rewrite foldl_app. Qed.

Lemma length_fill ds lo k s : length (fill ds lo k s) = length s.
Proof.
  revert lo. induction k as [|k IH]; intros lo; [done|]. rewrite fill_S. unfold set_stride.
  by rewrite length_insert, IH.
Qed.

Lemma fill_other ds lo k s i : i < lo ∨ lo + k ≤ i → fill ds lo k s !! i = s !! i.
Proof.
  revert lo. induction k as [|k IH]; intros lo Hi; [done|]. rewrite fill_S. unfold set_stride.
  rewrite list_lookup_insert_ne by lia. apply IH. lia.
Qed.

(** What is in the last place times the volume of the dimensions in between. *)
Lemma fill_lookup ds lo k s c i :
  Forall (Z.lt 0) ds → (0 < c)%Z → (c * volume (drop (S lo) ds) < 2 ^ 63)%Z →
  length s = length ds → lo + k < length ds → s !! (lo + k) = Some c → lo ≤ i ≤ lo + k →
  fill ds lo k s !! i = Some (c * volume (take (lo + k - i) (drop (S i) ds)))%Z.
Proof.
  intros Hd Hc. revert lo i. induction k as [|k IH]; intros lo i Hv Hl Hk Hs Hi.
  - assert (i = lo) as -> by lia. rewrite Nat.add_0_r in *. rewrite Nat.sub_diag. unfold fill. cbn. by rewrite Hs, Z.mul_1_r.
  - assert (Hdrop : drop (S lo) ds = (ds !!! S lo) :: drop (S (S lo)) ds).
    { rewrite <-(drop_S ds (ds !!! S lo) (S lo)); [done|]. apply list_lookup_lookup_total_lt. lia. }
    assert (Hdpos : (0 < ds !!! S lo)%Z).
    { rewrite Forall_lookup in Hd. apply (Hd (S lo)). apply list_lookup_lookup_total_lt. lia. }
    assert (Hpos : ∀ l, (0 < volume (take l (drop (S (S lo)) ds)))%Z).
    { intros l. by apply volume_pos, Forall_take, Forall_drop. }
    assert (Hvol : (0 < volume (drop (S (S lo)) ds))%Z) by (by apply volume_pos, Forall_drop).
    rewrite Hdrop in Hv. cbn [volume] in Hv.
    assert (Hv' : (c * volume (drop (S (S lo)) ds) < 2 ^ 63)%Z) by nia.
    rewrite fill_S. unfold set_stride. destruct (decide (i = lo)) as [->|Hne].
    + rewrite list_lookup_insert_eq by (rewrite length_fill; lia). f_equal.
      assert (Hn : fill ds (S lo) k s !! (lo + 1) = Some (c * volume (take k (drop (S (S lo)) ds)))%Z).
      { rewrite Nat.add_1_r. rewrite (IH (S lo) (S lo)); [|done|done|lia|by rewrite <-Nat.add_succ_comm in Hs|lia].
        do 4 f_equal. lia. }
      rewrite (list_lookup_total_correct _ _ _ Hn), Nat.add_1_r.
      replace (lo + S k - lo) with (S k) by lia. rewrite Hdrop. cbn [take volume].
      rewrite i64_mul_exact; [lia|].
      assert (Hsplit := volume_app (take k (drop (S (S lo)) ds)) (drop k (drop (S (S lo)) ds))). rewrite take_drop in Hsplit.
      assert (Hrest : (0 < volume (drop k (drop (S (S lo)) ds)))%Z) by (by apply volume_pos, Forall_drop, Forall_drop).
      specialize (Hpos k). unfold signed.
      set (v := volume (take k _)) in *. set (w := volume (drop k _)) in *. clearbody v w.
      assert (v ≤ v * w)%Z by nia. assert (c * v * (ds !!! S lo) ≤ c * (v * w) * (ds !!! S lo))%Z.
      { apply Z.mul_le_mono_nonneg_r; [lia|]. apply Z.mul_le_mono_nonneg_l; lia. }
      rewrite Hsplit in Hv. split; [|nia]. assert (0 ≤ c * v * (ds !!! S lo))%Z by nia. lia.
    + rewrite list_lookup_insert_ne by done. rewrite (IH (S lo) i); [|done|done|lia|by rewrite <-Nat.add_succ_comm in Hs|lia].
      do 4 f_equal. lia.
Qed.

Lemma volume_drop ds i : Forall (Z.lt 0) ds → (0 < volume (drop i ds) ≤ volume ds)%Z.
Proof.
  intros Hd. pose proof (volume_app (take i ds) (drop i ds)) as He. rewrite take_drop in He.
  pose proof (volume_pos _ (Forall_take _ i _ Hd)). pose proof (volume_pos _ (Forall_drop _ i _ Hd)). nia.
Qed.

Lemma strides_nchw ds layout :
  layout ≠ NhwcPacked → Forall (Z.lt 0) ds → (volume ds < 2 ^ 63)%Z → packed_strides ds layout = Some (row_major ds).
Proof.
  intros Hl Hd Hv. unfold packed_strides. destruct (Nat.eqb_spec (length ds) 0) as [Hn|Hn].
  { by destruct ds. }
  assert (fill ds 0 (length ds - 1) (replicate (length ds) 1%Z) = row_major ds) as Hf.
  { apply list_eq. intros i. destruct (decide (i < length ds)) as [Hi|Hi].
    - pose proof (volume_drop ds 1 Hd). rewrite (fill_lookup _ _ _ _ 1); [|done|lia| |by rewrite length_replicate|lia| |lia].
      + rewrite row_major_lookup, Z.mul_1_l by done. rewrite take_ge by (rewrite length_drop; lia). done.
      + rewrite Z.mul_1_l. lia.
      + apply lookup_replicate_2. lia.
    - rewrite !lookup_ge_None_2; [done|rewrite length_row_major; lia|rewrite length_fill, length_replicate; lia]. }
  destruct layout; [|done|]; f_equal; exact Hf.
Qed.

(** Channels have stride one; the spatial positions are row-major over them. *)
Lemma strides_nhwc b c ss :
  ss ≠ [] → Forall (Z.lt 0) (b :: c :: ss) → (volume (b :: c :: ss) < 2 ^ 63)%Z →
  packed_strides (b :: c :: ss) NhwcPacked = Some ((c * volume ss) :: 1 :: ((λ s, c * s) <$> row_major ss))%Z.
Proof.
  intros Hss Hd Hv. assert (Hl : 0 < length ss) by (destruct ss; [done|cbn; lia]).
  set (ds := b :: c :: ss) in *. assert (Hlen : length ds = S (S (length ss))) by done.
  assert (Hpos : (0 < b ∧ 0 < c)%Z). { apply Forall_cons in Hd as [? [? _]%Forall_cons]. done. }
  assert (Hdss : Forall (Z.lt 0) ss). { by apply Forall_cons in Hd as [_ [_ ?]%Forall_cons]. }
  assert (Hvss := volume_pos ss Hdss).
  assert (Hcv : (c * volume ss < 2 ^ 63)%Z). { cbn [volume ds] in Hv. nia. }
  unfold packed_strides. rewrite Hlen. cbn [Nat.eqb]. replace (S (S (length ss)) <? 3) with false by (symmetry; apply Nat.ltb_ge; lia).
  change (ds !!! 1) with c. replace (S (S (length ss)) - 1) with (S (length ss)) by lia.
  set (s0 := <[S (length ss) := c]> (<[1 := 1%Z]> (replicate (S (S (length ss))) 0%Z))).
  assert (Hs0 : length s0 = length ds) by (unfold s0; by rewrite !length_insert, length_replicate).
  replace (S (length ss) - 2) with (length ss - 1) by lia.
  fold (fill ds 2 (length ss - 1) s0). set (s1 := fill ds 2 (length ss - 1) s0).
  assert (H1 : ∀ i, i < length ss → s1 !! (S (S i)) = Some (c * volume (drop (S i) ss))%Z).
  { intros i Hi. unfold s1. pose proof (volume_drop ss 1 Hdss).
    rewrite (fill_lookup ds 2 (length ss - 1) s0 c); [|done|lia| |done|lia| |lia].
    - cbn [drop ds]. rewrite take_ge by (rewrite length_drop; lia). done.
    - cbn [drop ds]. nia.
    - replace (2 + (length ss - 1)) with (S (length ss)) by lia. unfold s0. apply list_lookup_insert_eq.
      rewrite length_insert, length_replicate. lia. }
  assert (H2 : s1 !! 1 = Some 1%Z).
  { unfold s1. rewrite fill_other by lia. unfold s0. rewrite list_lookup_insert_ne by lia.
    apply list_lookup_insert_eq. rewrite length_replicate. lia. }
  assert (H3 : i64_mul (s1 !!! 2) (ds !!! 2) = (c * volume ss)%Z).
  { rewrite (list_lookup_total_correct _ _ _ (H1 0 Hl)). destruct ss as [|d ss]; [done|]. cbn [ds drop volume] in *.
    change (ds !!! 2) with d.
    assert (Hd0 : (0 < d)%Z) by (by apply Forall_cons in Hdss as [? _]).
    assert (Hv0 : (0 < volume ss)%Z) by (apply volume_pos; by apply Forall_cons in Hdss as [_ ?]).
    change (drop 0 ss) with ss. rewrite i64_mul_exact; [lia|].
    unfold signed. split; [|lia]. assert (0 ≤ c * volume ss * d)%Z by nia. lia. }
  rewrite H3. f_equal. apply list_eq. intros [|[|i]].
  - apply list_lookup_insert_eq. unfold s1. rewrite length_fill, Hs0. lia.
  - by rewrite list_lookup_insert_ne.
  - rewrite list_lookup_insert_ne by done. change (s1 !! S (S i) = ((λ s, c * s)%Z <$> row_major ss) !! i). rewrite list_lookup_fmap.
    destruct (decide (i < length ss)) as [Hi|Hi].
    + by rewrite H1, row_major_lookup.
    + rewrite !lookup_ge_None_2; [done|rewrite length_row_major; lia|]. unfold s1. rewrite length_fill, Hs0. lia.
Qed.

Lemma packed_strides_None ds layout : packed_strides ds layout = None ↔ layout = NhwcPacked ∧ length ds ∈ [1; 2].
Proof.
  unfold packed_strides. rewrite !elem_of_cons, elem_of_nil.
  destruct (Nat.eqb_spec (length ds) 0); [split; [done|intros [_ ?]; lia]|].
  destruct layout; [by split; [|intros [? _]]| |by split; [|intros [? _]]].
  destruct (Nat.ltb_spec (length ds) 3); split; try done; [intros _; split; [done|lia]|]. intros [_ ?]. lia.
Qed.

Lemma in_bounds_length ds i : in_bounds ds i → length i = length ds.
Proof. intros H. symmetry. by eapply Forall2_length. Qed.

(** C29 (packed strides): the strides of a layout map the elements of a tensor with
    positive dimensions whose volume fits an [i64] one to one onto the offsets
    below its volume; a layout without strides is channels-last of rank one or two. *)
Theorem packed_strides_dense ds layout :
  Forall (Z.lt 0) ds → (volume ds < 2 ^ 63)%Z →
  match packed_strides ds layout with
  | Some ss =>
    length ss = length ds ∧ (∀ i, in_bounds ds i → 0 ≤ offset i ss < volume ds)%Z ∧
    ∀ o, (0 ≤ o < volume ds)%Z → ∃ i, in_bounds ds i ∧ offset i ss = o ∧ ∀ j, in_bounds ds j → offset j ss = o → j = i
  | None => layout = NhwcPacked ∧ length ds ∈ [1; 2]
  end.
Proof.
  intros Hd Hv. destruct (packed_strides ds layout) as [ss|] eqn:He; [|by apply packed_strides_None].
  assert (Hlay : (layout = NhwcPacked ∧ ds ≠ []) ∨ ss = row_major ds).
  { destruct layout; [right|destruct ds; [right; by injection He as <-|by left]|right];
      by rewrite strides_nchw in He; simplify_eq. }
  destruct Hlay as [[-> Hne]| ->].
  2:{ split_and!; [by rewrite length_row_major|by intros; apply row_major_offset|].
      intros o Ho. destruct (row_major_onto ds o Hd Ho) as (i & Hi & Hio). exists i. split_and!; [done..|].
      intros j Hj Hjo. apply (row_major_inj ds); [done..|]. by rewrite Hjo. }
  assert (Hn : ¬ length ds ∈ [1; 2]).
  { intros Hn. assert (packed_strides ds NhwcPacked = None) as Hnone by (by apply packed_strides_None). by rewrite Hnone in He. }
  destruct ds as [|b [|c [|d sp]]]; [done|by destruct Hn; set_solver|by destruct Hn; set_solver|].
  set (sd := d :: sp) in *. rewrite strides_nhwc in He by done. injection He as <-.
  assert (Hc : (0 < c)%Z) by (by apply Forall_cons in Hd as [_ [? _]%Forall_cons]).
  assert (Hsd : Forall (Z.lt 0) sd) by (by apply Forall_cons in Hd as [_ [_ ?]%Forall_cons]).
  (* the permuted index *)
  assert (Hoff : ∀ nb ch idx, length idx = length sd →
    offset (nb :: ch :: idx) (c * volume sd :: 1 :: ((λ s, c * s) <$> row_major sd))%Z =
    offset (nb :: offset idx (row_major sd) :: [ch])%Z (row_major [b; volume sd; c])).
  { intros nb ch idx _. cbn [offset row_major volume]. rewrite offset_scale. lia. }
  assert (Hperm : ∀ nb ch idx, in_bounds (b :: c :: sd) (nb :: ch :: idx) →
    in_bounds [b; volume sd; c] [nb; offset idx (row_major sd); ch]).
  { intros nb ch idx Hi. inversion Hi as [|? ? ? ? Hb Hi1]; subst. inversion Hi1 as [|? ? ? ? Hch Hi2]; subst.
    repeat constructor; (done || by apply row_major_offset || lia). }
  assert (Hvol : volume [b; volume sd; c] = volume (b :: c :: sd)) by (cbn [volume]; lia).
  split_and!; [cbn; by rewrite length_fmap, length_row_major| |].
  - intros i Hi. pose proof Hi as Hlen%in_bounds_length. destruct i as [|nb [|ch idx]]; try done. injection Hlen as Hlen.
    rewrite Hoff by done. rewrite <-Hvol. by apply row_major_offset, Hperm.
  - intros o Ho. rewrite <-Hvol in Ho. destruct (row_major_onto [b; volume sd; c] o) as (p & Hp & Hpo); [|done|].
    { apply Forall_cons in Hd as [? _]. repeat constructor; [done|by apply volume_pos|done]. }
    inversion Hp as [|? nb ? ? Hb Hp1]; subst. inversion Hp1 as [|? q ? ? Hq Hp2]; subst.
    inversion Hp2 as [|? ch ? ? Hch Hp3]; subst. inversion Hp3; subst.
    destruct (row_major_onto sd q Hsd Hq) as (idx & Hi & Hio). exists (nb :: ch :: idx). split_and!.
    + constructor; [done|by constructor].
    + rewrite Hoff by by apply in_bounds_length. by rewrite Hio.
    + intros j Hj Hjo. pose proof Hj as Hlen%in_bounds_length. destruct j as [|nb' [|ch' idx']]; try done. injection Hlen as Hlen.
      rewrite Hoff in Hjo by done. apply (row_major_inj [b; volume sd; c]) in Hjo; [|by apply Hperm|done].
      injection Hjo as -> Hq' ->. do 2 f_equal. inversion Hj as [|? ? ? ? _ Hj1]; subst. inversion Hj1; subst.
      apply (row_major_inj sd); [done..|]. exact Hq'.
Qed.

Lemma packed_strides_dense_witness :
  Forall (Z.lt 0) [2; 3; 4; 5]%Z ∧ packed_strides [2; 3; 4; 5]%Z NhwcPacked = Some [60; 1; 15; 3]%Z ∧
  ∃ i, in_bounds [2; 3; 4; 5]%Z i ∧ offset i [60; 1; 15; 3]%Z = 17%Z.
Proof.
  assert (Hd : Forall (Z.lt 0) [2; 3; 4; 5]%Z) by by repeat constructor.
  split; [done|]. split; [by vm_compute|].
  destruct (packed_strides_dense [2; 3; 4; 5]%Z NhwcPacked Hd ltac:(by vm_compute)) as (_ & _ & Ho).
  destruct (Ho 17%Z ltac:(vm_compute; split; congruence)) as (i & Hi & He & _). by exists i.
Defined.

(** ** What a key identifies *)

Definition vec_wf (l : list Z) : Prop := in_width 64 (Z.of_nat (length l)) ∧ Forall (signed 64) l.
Definition opt_wf (o : option Z) : Prop := match o with None => True | Some x => signed 64 x end.
Definition tensor_wf (t : TensorSpec) : Prop :=
  signed 64 (uid t) ∧ vec_wf (dims t) ∧ vec_wf (strides t) ∧ signed 64 (alignment t).
(** The vectors, the integers and the bits of the numbers of an operation. *)
Definition op_values (o : OpSpec) : list (list Z) * list Z * list (option Z) * list Z :=
  match o with
  | ConvFwd a b c sd pre post st dil _ al be | ConvBwdData a b c sd pre post st dil _ al be
  | ConvBwdFilter a b c sd pre post st dil _ al be => ([pre; post; st; dil], [a; b; c], [], [Z.of_nat sd; al; be])
  | Pointwise _ x b y _ a1 a2 => ([], [x; y], [b], [a1; a2])
  | PoolFwd _ x y win pre post st _ => ([win; pre; post; st], [x; y], [], [])
  | PoolBwd _ dy x y dx win pre post st _ => ([win; pre; post; st], [dy; x; y; dx], [], [])
  | NormFwd _ _ x s b mean var y _ eps f => ([], [x; s; b; y], [mean; var], [eps; f])
  | NormBwd _ x dy s mean var dx ds db _ => ([], [x; dy; s; mean; var; dx; ds; db], [], [])
  | Matmul a b c _ => ([], [a; b; c], [], [])
  | Reduce _ x y _ | Reshape x y => ([], [x; y], [], [])
  end.
Definition op_wf (o : OpSpec) : Prop :=
  let '(vs, zs, os, bs) := op_values o in
  Forall vec_wf vs ∧ Forall (signed 64) zs ∧ Forall opt_wf os ∧ Forall (in_width 64) bs.
Definition graph_wf (g : OperationGraphSpec) : Prop :=
  (in_width 64 (Z.of_nat (length (tensors g))) ∧ Forall tensor_wf (tensors g)) ∧
  (in_width 64 (Z.of_nat (length (ops g))) ∧ Forall op_wf (ops g)).

#[global] Instance hash_i64_code : Code (signed 64) hash_i64.
Proof. exact (int_code 8). Qed.
#[global] Instance hash_bits_code : Code (in_width 64) hash_bits.
Proof. exact (le_bytes_code 8). Qed.
#[global] Instance hash_vec_code : Code vec_wf hash_vec.
Proof. apply seq_code, _. Qed.
#[global] Instance hash_opt_code : Code opt_wf hash_opt.
Proof. apply option_code, _. Qed.
#[global] Instance hash_usize_code : Code (λ n, in_width 64 (Z.of_nat n)) hash_usize.
Proof. apply (code_compose _ (in_width 64) Z.of_nat hash_bits); [apply _|done|intros; by apply Nat2Z.inj]. Qed.

#[global] Instance dtype_code : Code (λ _, True) (λ d, disc (dtype_disc d)).
Proof. apply (prefix_free_code _ [TF32; TF64; TF16; TBf16; TI8; TI32; TU8]); [intros []; set_solver|run]. Qed.
#[global] Instance pointwise_code : Code (λ _, True) (λ m, disc (pointwise_disc m)).
Proof.
  apply (prefix_free_code _ [Relu; Sigmoid; Tanh; Gelu; GeluApprox; Swish; Elu; Softplus; Identity; Add; Mul; Sub; Div;
    Min; Max; Sqrt; Rsqrt; Exp; Log; Neg; Abs]); [intros []; set_solver|run].
Qed.
#[global] Instance pool_code : Code (λ _, True) (λ k, disc (pool_disc k)).
Proof. apply (prefix_free_code _ [MaxFwd; AvgFwd; MaxBwd; AvgBwd]); [intros []; set_solver|run]. Qed.
#[global] Instance norm_code : Code (λ _, True) (λ m, disc (norm_disc m)).
Proof. apply (prefix_free_code _ [BatchNorm; LayerNorm; InstanceNorm; GroupNorm; RmsNorm]); [intros []; set_solver|run]. Qed.
#[global] Instance phase_code : Code (λ _, True) (λ p, disc (phase_disc p)).
Proof. apply (prefix_free_code _ [Inference; Training; PersistentTraining]); [intros []; set_solver|run]. Qed.
#[global] Instance reduce_code : Code (λ _, True) (λ r, disc (reduce_disc r)).
Proof. apply (prefix_free_code _ [RAdd; RMul; RMin; RMax; RMean; RNorm1; RNorm2]); [intros []; set_solver|run]. Qed.

(** Read the next field of two equal streams, whatever its type. *)
Ltac read_field H :=
  first
  [ read hash_i64_code in H as ? | read hash_vec_code in H as ? | read hash_opt_code in H as ?
  | read hash_usize_code in H as ? | read hash_bits_code in H as ? | read dtype_code in H as ?
  | read pointwise_code in H as ? | read pool_code in H as ? | read norm_code in H as ?
  | read phase_code in H as ? | read reduce_code in H as ? ].

#[global] Instance hash_tensor_code : Code tensor_wf hash_tensor.
Proof.
  intros [u1 d1 ds1 ss1 a1 v1] [u2 d2 ds2 ss2 a2 v2] s t (?&?&?&?) (?&?&?&?) He. unfold hash_tensor in He.
  cbn [uid t_dtype dims strides alignment is_virtual] in *.
  rewrite <-!app_assoc in He. do 5 read_field He. subst. injection He as Hv ->. by destruct v1, v2.
Qed.

Ltac split_wf H := repeat first [apply Forall_cons in H as [? H]].
#[global] Instance hash_op_code : Code op_wf hash_op.
Proof.
  intros o1 o2 s t H1 H2 He. unfold op_wf in *.
  destruct o1, o2; try discriminate He; cbn [op_values] in H1, H2;
    destruct H1 as (V1 & I1 & O1 & B1), H2 as (V2 & I2 & O2 & B2);
    (split_wf V1; split_wf V2; split_wf I1; split_wf I2; split_wf O1; split_wf O2; split_wf B1; split_wf B2).
  all: cbn [hash_op] in He; rewrite <-!app_assoc in He; apply app_inv_head in He; repeat (read_field He); subst; done.
Qed.

(** Equal streams are streams of the same tensors and operations. *)
Lemma graph_bytes_inj g1 g2 :
  graph_wf g1 → graph_wf g2 → graph_bytes g1 = graph_bytes g2 → tensors g1 = tensors g2 ∧ ops g1 = ops g2.
Proof.
  intros [Ht1 Ho1] [Ht2 Ho2] He. unfold graph_bytes in He.
  apply (seq_code tensor_wf hash_tensor _) in He as [Ht He]; [|done..].
  split; [done|]. by apply (code_inj_nil (seq_bytes hash_op) _ _ (seq_code op_wf hash_op _)) in He.
Qed.

Section hits.
Context {C : Type} `{!LruOps PlanCacheKey CachedPlan C} `{!LruLaws PlanCacheKey CachedPlan C}.
Context (sip : list Z → Z).

(** What was last stored under a key and not cleared. *)
Definition last_put (k : PlanCacheKey) (us : list CacheUse) : option CachedPlan :=
  foldl (λ o u, match u with
    | UPut kind d g v => if decide (cache_key sip kind d g = k) then Some v else o
    | UClear => None
    | UGet _ _ _ => o
    end) None us.
Definition cache_run (cap : nat) (us : list CacheUse) : PlanCache C :=
  foldl (λ p u, cache_use sip u p) (PlanCache_new cap) us.

Lemma last_put_snoc k us u : last_put k (us ++ [u]) =
  match u with
  | UPut kind d g v => if decide (cache_key sip kind d g = k) then Some v else last_put k us
  | UClear => None
  | UGet _ _ _ => last_put k us
  end.
Proof. unfold last_put. by rewrite foldl_app. Qed.

Lemma last_put_in k us v : last_put k us = Some v → ∃ kind d g, UPut kind d g v ∈ us ∧ cache_key sip kind d g = k.
Proof.
  induction us as [|u us IH] using rev_ind; [done|]. rewrite last_put_snoc.
  destruct u as [kind d g|kind d g w|]; [| |done].
  - intros (? & ? & ? & ? & ?)%IH. set_solver.
  - case_decide; [intros [= ->]; set_solver|]. intros (? & ? & ? & ? & ?)%IH. set_solver.
Qed.

(** The entries are among the last plans stored. *)
Lemma cache_run_inv cap us :
  lru_wf (inner (cache_run cap us)) ∧ lru_cap (inner (cache_run cap us)) = Nat.max cap 1 ∧
  ∀ k v, (k, v) ∈ lru_entries (inner (cache_run cap us)) → last_put k us = Some v.
Proof.
  induction us as [|u us (Hw & Hc & Hi)] using rev_ind.
  - cbn. split_and!; [apply lru_new_wf|by destruct (lru_entries_new (C := C) (Nat.max cap 1))|].
    intros k v. destruct (lru_entries_new (C := C) (Nat.max cap 1)) as [-> _]. by intros ?%elem_of_nil.
  - unfold cache_run in *. rewrite foldl_app. cbn [foldl]. set (p := foldl _ _ us) in *.
    destruct u as [kind d g|kind d g w|]; cbn [cache_use].
    + unfold plan_get. set (k := cache_key sip kind d g).
      assert (Hp := lru_get_perm k _ Hw). assert (Hw' := lru_get_wf k _ Hw).
      assert (Hcap : lru_cap (lru_get k (inner p)).2 = lru_cap (inner p)).
      { destruct (entry_find k (lru_entries (inner p))) as [x|] eqn:Hf; [by destruct (lru_get_hit _ _ _ Hf) as (_ & _ & ->)|].
        by rewrite lru_get_miss. }
      destruct (lru_get k (inner p)) as [o c]. cbn in *. split_and!; [done|by rewrite Hcap|].
      intros k' v Hin. rewrite last_put_snoc. apply Hi. by rewrite <-Hp.
    + unfold plan_put. cbn. set (k := cache_key sip kind d g).
      destruct (lru_put_entries (inner p) k w) as [He Hcap]. split_and!; [by apply lru_put_wf|by rewrite Hcap|].
      intros k' v. rewrite He. intros Hin%(subseteq_take _ _). rewrite last_put_snoc. fold k.
      apply elem_of_cons in Hin as [[= -> ->]|Hin]; [by rewrite decide_True|].
      apply list_elem_of_filter in Hin as [Hne Hin]. cbn in Hne. rewrite decide_False by done. by apply Hi.
    + unfold plan_clear. cbn. destruct (lru_clear_entries (inner p)) as [He Hcap]. split_and!; [|by rewrite Hcap|].
      * unfold lru_wf. rewrite He. split; [constructor|cbn; lia].
      * intros k v. rewrite He. by intros ?%elem_of_nil.
Qed.

Lemma plan_get_in k (p : PlanCache C) v : lru_wf (inner p) → (plan_get k p).1 = Some v → (k, v) ∈ lru_entries (inner p).
Proof.
  intros [Hd _]. unfold plan_get. destruct (entry_find k (lru_entries (inner p))) as [x|] eqn:Hf; [|by rewrite lru_get_miss].
  destruct (lru_get_hit _ _ _ Hf) as [He _]. destruct (lru_get _ _). cbn in *. intros [= ->]. simplify_eq.
  by apply entry_find_Some.
Qed.

(** C28 (plan keys of operation graphs): after any uses of the cache, a look-up for
    a graph answers the plan that was last stored under its key, and that plan was
    built for a graph with the same tensors and the same operations, under the same
    kind and element type, unless the hasher collides on their two byte streams. *)
Theorem plan_cache_hits cap us kind d g v :
  (plan_get (cache_key sip kind d g) (cache_run cap us)).1 = Some v →
  plan_len (cache_run cap us) ≤ Nat.max cap 1 ∧ last_put (cache_key sip kind d g) us = Some v ∧
  ∃ g', UPut kind d g' v ∈ us ∧
    (graph_wf g → graph_wf g' →
     (tensors g = tensors g' ∧ ops g = ops g') ∨
     (graph_bytes g ≠ graph_bytes g' ∧ sip (graph_bytes g) = sip (graph_bytes g'))).
Proof.
  intros Hg. destruct (cache_run_inv cap us) as (Hw & Hc & Hi). apply plan_get_in, Hi in Hg as Hp; [|done].
  destruct Hw as [_ Hl]. split_and!; [unfold plan_len; rewrite lru_len_entries; lia|done|].
  apply last_put_in in Hp as (kind' & d' & g' & Hin & [= -> -> Hs]). exists g'. split; [done|].
  intros Hg1 Hg2. destruct (decide (graph_bytes g = graph_bytes g')) as [He|Hne]; [left; by apply graph_bytes_inj|by right].
Qed.
End hits.

(** *** Witnesses *)

Definition toy_sip (l : list Z) : Z := fold_right (λ b a, (b + 31 * a) mod 2 ^ 64)%Z 7%Z l.
Definition toy_graph (n : string) (stride : Z) : OperationGraphSpec :=
  {| tensors := [{| uid := 1; t_dtype := TF32; dims := [2; 3]%Z; strides := [stride; 1]%Z; alignment := 16; is_virtual := false |};
                 {| uid := 2; t_dtype := TF32; dims := [2; 3]%Z; strides := [3; 1]%Z; alignment := 16; is_virtual := false |}];
     ops := [Pointwise Relu 1 None 2 TF32 0x3FF0000000000000 0]; name := n |}.
Definition toy_plan : CachedPlan :=
  {| p_signature := 0; p_op_kind := "activation_fwd"; p_dtype := TF32; workspace_bytes := 0; plan := None |}.
Definition toy_uses : list CacheUse :=
  [UPut "activation_fwd" TF32 (toy_graph "relu" 3) toy_plan; UGet "activation_fwd" TF32 (toy_graph "relu" 4)].

Lemma toy_graph_wf n stride : (0 <= stride < 2 ^ 62)%Z → graph_wf (toy_graph n stride).
Proof.
  intros Hs. unfold graph_wf, tensor_wf, op_wf, vec_wf, in_width, signed, toy_graph.
  cbn [tensors ops length]. split_and!; repeat constructor; cbn; lia.
Qed.

(** The name is not in the key, the strides are. *)
Example toy_keys :
  (plan_get (cache_key toy_sip "activation_fwd" TF32 (toy_graph "renamed" 3))
    (cache_run (C := ListLru _ _) toy_sip 8 toy_uses)).1 = Some toy_plan ∧
  (plan_get (cache_key toy_sip "activation_fwd" TF32 (toy_graph "relu" 4))
    (cache_run (C := ListLru _ _) toy_sip 8 toy_uses)).1 = None.
Proof. by vm_compute. Qed.

Lemma plan_cache_hits_witness :
  (plan_get (cache_key toy_sip "activation_fwd" TF32 (toy_graph "renamed" 3))
    (cache_run (C := ListLru _ _) toy_sip 8 toy_uses)).1 = Some toy_plan ∧
  ∃ g', UPut "activation_fwd" TF32 g' toy_plan ∈ toy_uses.
Proof.
  assert (Hg : (plan_get (cache_key toy_sip "activation_fwd" TF32 (toy_graph "renamed" 3))
    (cache_run (C := ListLru _ _) toy_sip 8 toy_uses)).1 = Some toy_plan) by by vm_compute.
  split; [exact Hg|].
  destruct (plan_cache_hits (C := ListLru _ _) toy_sip 8 toy_uses _ _ _ _ Hg) as (_ & _ & g' & Hin & _). by exists g'.
Defined.
