(* ===== verification/Cudnn.v ===== *)
(** * cuDNN: requests, their graphs, and the actor

    Models [crates/atomr-accel-cuda/src/kernel/cudnn] without [graph.rs] (which is
    [CudnnGraph.v]) and the descriptors of [sys/cudnn.rs].  A request builds the
    graph of its operation; its dispatch is an entry point that refuses.  An
    element type is its [DType]; the bits of an [f32], an [f64] or a scalar of the
    element type are a [Z], except where the code computes with them.  [None] is
    a panic. *)

From stdpp Require Import pretty.
From S2P Require Import Prelude Actor Text Float64 Errors Dtype DeviceState Envelope Objects Lru CudnnGraph.

Definition LIB : string := "cudnn".
Definition f64_one : Z := 0x3FF0000000000000.

(** [dtype_tag] by the name of the type; other names panic. *)
Definition dtype_tag (d : DType) : option DtypeTag :=
  match dtype_name d with
  | "f32" => Some TF32 | "f64" => Some TF64 | "f16" => Some TF16 | "bf16" => Some TBf16 | "i8" => Some TI8
  | _ => None
  end%string.

(** [g.add_tensor(TensorSpec::new(..))] *)
Definition tensor (u : Z) (d : DtypeTag) (ds : list Z) (layout : TensorLayout) (g : OperationGraphSpec) :
    option (Z * OperationGraphSpec) :=
  t ← TensorSpec_new u d ds layout; Some (add_tensor t g).
Definition virtual_tensor (u : Z) (d : DtypeTag) (ds : list Z) (layout : TensorLayout) (g : OperationGraphSpec) :
    option (Z * OperationGraphSpec) :=
  t ← TensorSpec_new u d ds layout; Some (add_tensor (virtualized t) g).

(** ** Convolutions *)

Record ConvDescParams := {
  spatial_dims : nat; pre_padding : list Z; post_padding : list Z; stride : list Z; dilation : list Z; groups : Z }.
Definition symmetric_2d (pad stride dilation : Z) : ConvDescParams :=
  {| spatial_dims := 2; pre_padding := [pad; pad]; post_padding := [pad; pad]; stride := [stride; stride];
     dilation := [dilation; dilation]; groups := 1 |}.
Definition symmetric_1d (pad stride dilation : Z) : ConvDescParams :=
  {| spatial_dims := 1; pre_padding := [pad]; post_padding := [pad]; stride := [stride];
     dilation := [dilation]; groups := 1 |}.
Definition symmetric_3d (pad stride dilation : Z) : ConvDescParams :=
  {| spatial_dims := 3; pre_padding := [pad; pad; pad]; post_padding := [pad; pad; pad];
     stride := [stride; stride; stride]; dilation := [dilation; dilation; dilation]; groups := 1 |}.
Definition with_groups (g : Z) (c : ConvDescParams) : ConvDescParams :=
  {| spatial_dims := spatial_dims c; pre_padding := pre_padding c; post_padding := post_padding c;
     stride := stride c; dilation := dilation c; groups := g |}.

Inductive ActivationKind : Type := ARelu | ASigmoid | ATanh | AGelu | AGeluApprox | ASwish | AElu | ASoftplus | AIdentity.
Definition pointwise_mode (a : ActivationKind) : PointwiseMode :=
  match a with
  | ARelu => Relu | ASigmoid => Sigmoid | ATanh => Tanh | AGelu => Gelu | AGeluApprox => GeluApprox
  | ASwish => Swish | AElu => Elu | ASoftplus => Softplus | AIdentity => Identity
  end.
Definition cudnn_legacy_mode (a : ActivationKind) : string :=
  match a with
  | ARelu | AIdentity => "CUDNN_ACTIVATION_RELU" | ASigmoid => "CUDNN_ACTIVATION_SIGMOID"
  | ATanh => "CUDNN_ACTIVATION_TANH" | AElu => "CUDNN_ACTIVATION_ELU" | ASwish => "CUDNN_ACTIVATION_SWISH"
  | AGelu | AGeluApprox => "CUDNN_ACTIVATION_RELU" | ASoftplus => "CUDNN_ACTIVATION_RELU"
  end.
Inductive EpilogueKind : Type := ENone | EBias | EBiasActivation (a : ActivationKind).

Definition bias_dims (y_dims : list Z) : list Z :=
  let out := replicate (length y_dims) 1%Z in
  if 2 <=? length y_dims then <[1 := y_dims !!! 1]> out else out.

Definition build_conv_fwd_graph (d : DtypeTag) (x_dims w_dims y_dims : list Z) (conv : ConvDescParams)
    (layout : TensorLayout) (epilogue : EpilogueKind) : option OperationGraphSpec :=
  let g := OperationGraphSpec_new "conv_fwd" in
  '(x_uid, g) ← tensor 1 d x_dims layout g;
  '(w_uid, g) ← tensor 2 d w_dims layout g;
  '(y_uid, g) ← tensor 3 d y_dims layout g;
  let g := add_op (ConvFwd x_uid w_uid y_uid (spatial_dims conv) (pre_padding conv) (post_padding conv)
    (stride conv) (dilation conv) d f64_one 0) g in
  match epilogue with
  | ENone => Some g
  | EBias =>
    '(b_uid, g) ← tensor 4 d (bias_dims y_dims) layout g;
    '(yb_uid, g) ← tensor 5 d y_dims layout g;
    Some (add_op (Pointwise Add y_uid (Some b_uid) yb_uid d f64_one f64_one) g)
  | EBiasActivation act =>
    '(b_uid, g) ← tensor 4 d (bias_dims y_dims) layout g;
    '(yb_uid, g) ← tensor 5 d y_dims layout g;
    let g := add_op (Pointwise Add y_uid (Some b_uid) yb_uid d f64_one f64_one) g in
    '(act_out, g) ← tensor 6 d y_dims layout g;
    Some (add_op (Pointwise (pointwise_mode act) yb_uid None act_out d f64_one 0) g)
  end.

Definition build_conv_bwd_data_graph (d : DtypeTag) (dy_dims w_dims dx_dims : list Z) (conv : ConvDescParams)
    (layout : TensorLayout) : option OperationGraphSpec :=
  let g := OperationGraphSpec_new "conv_bwd_data" in
  '(dy_uid, g) ← tensor 1 d dy_dims layout g;
  '(w_uid, g) ← tensor 2 d w_dims layout g;
  '(dx_uid, g) ← tensor 3 d dx_dims layout g;
  Some (add_op (ConvBwdData dy_uid w_uid dx_uid (spatial_dims conv) (pre_padding conv) (post_padding conv)
    (stride conv) (dilation conv) d f64_one 0) g).

Definition build_conv_bwd_filter_graph (d : DtypeTag) (x_dims dy_dims dw_dims : list Z) (conv : ConvDescParams)
    (layout : TensorLayout) : option OperationGraphSpec :=
  let g := OperationGraphSpec_new "conv_bwd_filter" in
  '(x_uid, g) ← tensor 1 d x_dims layout g;
  '(dy_uid, g) ← tensor 2 d dy_dims layout g;
  '(dw_uid, g) ← tensor 3 d dw_dims layout g;
  Some (add_op (ConvBwdFilter x_uid dy_uid dw_uid (spatial_dims conv) (pre_padding conv) (post_padding conv)
    (stride conv) (dilation conv) d f64_one 0) g).

(** ** Pooling, normalisation, activations *)

Inductive PoolMode : Type := PMax | PAvg | PAvgExcludePadding.
Definition pool_fwd_kind (m : PoolMode) : PoolKind := match m with PMax => MaxFwd | PAvg | PAvgExcludePadding => AvgFwd end.
Definition pool_bwd_kind (m : PoolMode) : PoolKind := match m with PMax => MaxBwd | PAvg | PAvgExcludePadding => AvgBwd end.
Record PoolParams := {
  p_mode : PoolMode; window : list Z; p_pre_padding : list Z; p_post_padding : list Z; p_stride : list Z }.
Definition pool_2d (m : PoolMode) (kernel stride padding : Z) : PoolParams :=
  {| p_mode := m; window := [kernel; kernel]; p_pre_padding := [padding; padding];
     p_post_padding := [padding; padding]; p_stride := [stride; stride] |}.

Definition build_pool_fwd_graph (d : DtypeTag) (x_dims y_dims : list Z) (layout : TensorLayout) (p : PoolParams) :
    option OperationGraphSpec :=
  let g := OperationGraphSpec_new "pool_fwd" in
  '(x_uid, g) ← tensor 1 d x_dims layout g;
  '(y_uid, g) ← tensor 2 d y_dims layout g;
  Some (add_op (PoolFwd (pool_fwd_kind (p_mode p)) x_uid y_uid (window p) (p_pre_padding p) (p_post_padding p)
    (p_stride p) d) g).
Definition build_pool_bwd_graph (d : DtypeTag) (x_dims y_dims : list Z) (layout : TensorLayout) (p : PoolParams) :
    option OperationGraphSpec :=
  let g := OperationGraphSpec_new "pool_bwd" in
  '(x_uid, g) ← tensor 1 d x_dims layout g;
  '(y_uid, g) ← tensor 2 d y_dims layout g;
  '(dy_uid, g) ← tensor 3 d y_dims layout g;
  '(dx_uid, g) ← tensor 4 d x_dims layout g;
  Some (add_op (PoolBwd (pool_bwd_kind (p_mode p)) dy_uid x_uid y_uid dx_uid (window p) (p_pre_padding p)
    (p_post_padding p) (p_stride p) d) g).

(** [dims[1]] panics below rank two. *)
Definition build_norm_fwd_graph (mode : NormMode) (phase : NormPhase) (d : DtypeTag) (ds : list Z)
    (layout : TensorLayout) (epsilon exp_avg_factor : Z) : option OperationGraphSpec :=
  let g := OperationGraphSpec_new "norm_fwd" in
  '(x_uid, g) ← tensor 1 d ds layout g;
  c ← ds !! 1;
  '(scale_uid, g) ← tensor 2 d [1; c; 1; 1]%Z layout g;
  '(bias_uid, g) ← tensor 3 d [1; c; 1; 1]%Z layout g;
  '(y_uid, g) ← tensor 4 d ds layout g;
  Some (add_op (NormFwd mode phase x_uid scale_uid bias_uid None None y_uid d epsilon exp_avg_factor) g).

Definition build_activation_fwd_graph (d : DtypeTag) (ds : list Z) (layout : TensorLayout) (kind : ActivationKind) :
    option OperationGraphSpec :=
  let g := OperationGraphSpec_new "activation_fwd" in
  '(x_uid, g) ← tensor 1 d ds layout g;
  '(y_uid, g) ← tensor 2 d ds layout g;
  Some (add_op (Pointwise (pointwise_mode kind) x_uid None y_uid d f64_one 0) g).

Inductive SoftmaxMode : Type := SInstance | SChannel.
Record LrnParams := { l_n : Z; alpha_milli : Z; beta_milli : Z; k_milli : Z }.
Definition LrnParams_new (n : Z) (alpha beta k : f64) : LrnParams :=
  let m x := f64_to_i64 (f64_mul x (f64_of_Z 1000000)) in
  {| l_n := n; alpha_milli := m alpha; beta_milli := m beta; k_milli := m k |}.

(** ** Attention *)

Inductive AttentionMask : Type := MNone | MCausal | MSlidingWindow (w : Z) | MCausalSlidingWindow (w : Z).
Record AttentionParams := {
  batch : Z; seq_q : Z; seq_kv : Z; heads_q : Z; heads_kv : Z; head_dim : Z;
  mask : AttentionMask; scale : f64; dropout : Z; dropout_seed : Z }.
Definition AttentionParams_new (batch seq_q seq_kv heads_q heads_kv head_dim : Z) : AttentionParams :=
  {| batch := batch; seq_q := seq_q; seq_kv := seq_kv; heads_q := heads_q; heads_kv := heads_kv; head_dim := head_dim;
     mask := MNone; scale := f64_div (f64_of_Z 1) (f64_sqrt (f64_of_Z head_dim)); dropout := 0; dropout_seed := 0 |}.
Definition with_mask (m : AttentionMask) (p : AttentionParams) : AttentionParams :=
  {| batch := batch p; seq_q := seq_q p; seq_kv := seq_kv p; heads_q := heads_q p; heads_kv := heads_kv p;
     head_dim := head_dim p; mask := m; scale := scale p; dropout := dropout p; dropout_seed := dropout_seed p |}.
Definition with_dropout (d seed : Z) (p : AttentionParams) : AttentionParams :=
  {| batch := batch p; seq_q := seq_q p; seq_kv := seq_kv p; heads_q := heads_q p; heads_kv := heads_kv p;
     head_dim := head_dim p; mask := mask p; scale := scale p; dropout := d; dropout_seed := seed |}.
Definition is_gqa (p : AttentionParams) : bool := negb (heads_q p =? heads_kv p)%Z.

Definition build_mha_fwd_graph (d : DtypeTag) (p : AttentionParams) (layout : TensorLayout) : option OperationGraphSpec :=
  let g := OperationGraphSpec_new "mha_fwd" in
  let q_dims := [batch p; heads_q p; seq_q p; head_dim p] in
  let k_dims := [batch p; heads_kv p; seq_kv p; head_dim p] in
  let v_dims := [batch p; heads_kv p; seq_kv p; head_dim p] in
  let o_dims := [batch p; heads_q p; seq_q p; head_dim p] in
  let qk_dims := [batch p; heads_q p; seq_q p; seq_kv p] in
  '(q_uid, g) ← tensor 1 d q_dims layout g;
  '(k_uid, g) ← tensor 2 d k_dims layout g;
  '(v_uid, g) ← tensor 3 d v_dims layout g;
  '(qk_uid, g) ← virtual_tensor 4 d qk_dims layout g;
  '(qk_softmax_uid, g) ← virtual_tensor 5 d qk_dims layout g;
  '(o_uid, g) ← tensor 6 d o_dims layout g;
  let g := add_op (Matmul q_uid k_uid qk_uid d) g in
  let g := add_op (Pointwise Identity qk_uid None qk_softmax_uid d (f64_bits (scale p)) 0) g in
  Some (add_op (Matmul qk_softmax_uid v_uid o_uid d) g).

Definition build_mha_bwd_graph (d : DtypeTag) (p : AttentionParams) (layout : TensorLayout) : option OperationGraphSpec :=
  let g := OperationGraphSpec_new "mha_bwd" in
  let q_dims := [batch p; heads_q p; seq_q p; head_dim p] in
  let k_dims := [batch p; heads_kv p; seq_kv p; head_dim p] in
  let v_dims := [batch p; heads_kv p; seq_kv p; head_dim p] in
  '(_, g) ← tensor 1 d q_dims layout g;
  '(_, g) ← tensor 2 d k_dims layout g;
  '(_, g) ← tensor 3 d v_dims layout g;
  '(_, g) ← tensor 4 d q_dims layout g;
  '(_, g) ← tensor 5 d k_dims layout g;
  '(_, g) ← tensor 6 d v_dims layout g;
  let g := add_op (Matmul 4 2 7 d) g in
  let g := add_op (Matmul 4 3 8 d) g in
  Some (add_op (Matmul 1 5 9 d) g).

(** ** Recurrent networks *)

Inductive RnnMode : Type := Rnn | RnnTanh | Lstm | Gru.
Definition rnn_op_kind (m : RnnMode) : string :=
  match m with Rnn => "rnn_relu" | RnnTanh => "rnn_tanh" | Lstm => "lstm" | Gru => "gru" end.
Definition num_gates (m : RnnMode) : Z := match m with Rnn | RnnTanh => 1 | Lstm => 4 | Gru => 3 end.
Definition has_cell_state (m : RnnMode) : bool := match m with Lstm => true | _ => false end.
Inductive RnnDirection : Type := Unidirectional | Bidirectional.
Definition factor (d : RnnDirection) : Z := match d with Unidirectional => 1 | Bidirectional => 2 end.
Record RnnParams := {
  r_mode : RnnMode; direction : RnnDirection; num_layers : Z; input_size : Z; hidden_size : Z;
  seq_length : Z; batch_size : Z; r_dropout : Z }.
Definition RnnParams_new m dir layers input hidden seq batch : RnnParams :=
  {| r_mode := m; direction := dir; num_layers := layers; input_size := input; hidden_size := hidden;
     seq_length := seq; batch_size := batch; r_dropout := 0 |}.
Definition rnn_with_dropout (d : Z) (p : RnnParams) : RnnParams :=
  {| r_mode := r_mode p; direction := direction p; num_layers := num_layers p; input_size := input_size p;
     hidden_size := hidden_size p; seq_length := seq_length p; batch_size := batch_size p; r_dropout := d |}.
Definition output_size (p : RnnParams) : Z := i64_mul (hidden_size p) (factor (direction p)).

Definition build_rnn_fwd_spec (d : DtypeTag) (p : RnnParams) (layout : TensorLayout) : option OperationGraphSpec :=
  let g := OperationGraphSpec_new "rnn_fwd" in
  let x_dims := [seq_length p; batch_size p; input_size p] in
  let h_dims := [i64_mul (num_layers p) (factor (direction p)); batch_size p; hidden_size p] in
  let y_dims := [seq_length p; batch_size p; output_size p] in
  '(_, g) ← tensor 1 d x_dims layout g;
  '(_, g) ← tensor 2 d h_dims layout g;
  '(_, g) ← tensor 3 d y_dims layout g;
  '(_, g) ← tensor 4 d h_dims layout g;
  g ← (if has_cell_state (r_mode p) then
    '(_, g) ← tensor 5 d h_dims layout g;
    '(_, g) ← tensor 6 d h_dims layout g;
    Some g
  else Some g);
  let weight_dim :=
    i64_mul (i64_mul (i64_mul (i64_mul (num_gates (r_mode p)) (hidden_size p))
      (i64_add (i64_add (input_size p) (hidden_size p)) 2)) (num_layers p)) (factor (direction p)) in
  '(_, g) ← tensor 99 d [weight_dim] layout g;
  Some g.

(** ** Requests

    One record per request struct. *)

Record ConvFwdRequest := {
  cf_dtype : DType; cf_x : GpuRef; cf_w : GpuRef; cf_y : GpuRef; cf_bias : option GpuRef; cf_x_dims : list Z;
  cf_w_dims : list Z; cf_y_dims : list Z; cf_conv : ConvDescParams; cf_layout : TensorLayout;
  cf_epilogue : EpilogueKind; cf_alpha : Z; cf_beta : Z; cf_reply : nat }.
Record ConvBwdDataRequest := {
  cd_dtype : DType; cd_dy : GpuRef; cd_w : GpuRef; cd_dx : GpuRef; cd_dy_dims : list Z; cd_w_dims : list Z;
  cd_dx_dims : list Z; cd_conv : ConvDescParams; cd_layout : TensorLayout; cd_alpha : Z; cd_beta : Z;
  cd_reply : nat }.
Record ConvBwdFilterRequest := {
  cw_dtype : DType; cw_x : GpuRef; cw_dy : GpuRef; cw_dw : GpuRef; cw_x_dims : list Z; cw_dy_dims : list Z;
  cw_dw_dims : list Z; cw_conv : ConvDescParams; cw_layout : TensorLayout; cw_alpha : Z; cw_beta : Z;
  cw_reply : nat }.
Record BatchNormRequest := {
  bn_dtype : DType; bn_phase : NormPhase; bn_x : GpuRef; bn_y : GpuRef; bn_scale : GpuRef; bn_bias : GpuRef;
  bn_running_mean : option GpuRef; bn_running_var : option GpuRef; bn_saved_mean : option GpuRef;
  bn_saved_var : option GpuRef; bn_dims : list Z; bn_layout : TensorLayout; bn_epsilon : Z;
  bn_exp_avg_factor : Z; bn_reply : nat }.
Record LayerNormRequest := {
  ln_dtype : DType; ln_x : GpuRef; ln_y : GpuRef; ln_scale : GpuRef; ln_bias : GpuRef;
  ln_saved_mean : option GpuRef; ln_saved_var : option GpuRef; ln_dims : list Z; ln_norm_axes : list Z;
  ln_layout : TensorLayout; ln_epsilon : Z; ln_reply : nat }.
Record InstanceNormRequest := {
  inm_dtype : DType; inm_x : GpuRef; inm_y : GpuRef; inm_scale : GpuRef; inm_bias : GpuRef;
  inm_saved_mean : option GpuRef; inm_saved_var : option GpuRef; inm_dims : list Z; inm_layout : TensorLayout;
  inm_epsilon : Z; inm_reply : nat }.
Record GroupNormRequest := {
  gn_dtype : DType; gn_x : GpuRef; gn_y : GpuRef; gn_scale : GpuRef; gn_bias : GpuRef;
  gn_saved_mean : option GpuRef; gn_saved_var : option GpuRef; gn_dims : list Z; gn_groups : Z;
  gn_layout : TensorLayout; gn_epsilon : Z; gn_reply : nat }.
Record NormBwdRequest := {
  nb_dtype : DType; nb_mode : NormMode; nb_x : GpuRef; nb_dy : GpuRef; nb_scale : GpuRef; nb_mean : GpuRef;
  nb_var : GpuRef; nb_dx : GpuRef; nb_dscale : GpuRef; nb_dbias : GpuRef; nb_dims : list Z;
  nb_layout : TensorLayout; nb_epsilon : Z; nb_reply : nat }.
Record PoolFwdRequest := {
  pf_dtype : DType; pf_x : GpuRef; pf_y : GpuRef; pf_x_dims : list Z; pf_y_dims : list Z;
  pf_layout : TensorLayout; pf_params : PoolParams; pf_alpha : Z; pf_beta : Z; pf_reply : nat }.
Record PoolBwdRequest := {
  pb_dtype : DType; pb_x : GpuRef; pb_y : GpuRef; pb_dy : GpuRef; pb_dx : GpuRef; pb_x_dims : list Z;
  pb_y_dims : list Z; pb_layout : TensorLayout; pb_params : PoolParams; pb_alpha : Z; pb_beta : Z;
  pb_reply : nat }.
Record ActivationFwdRequest := {
  af_dtype : DType; af_kind : ActivationKind; af_x : GpuRef; af_y : GpuRef; af_dims : list Z;
  af_layout : TensorLayout; af_alpha : Z; af_beta : Z; af_reply : nat }.
Record SoftmaxFwdRequest := {
  sf_dtype : DType; sf_mode : SoftmaxMode; sf_x : GpuRef; sf_y : GpuRef; sf_dims : list Z;
  sf_layout : TensorLayout; sf_alpha : Z; sf_beta : Z; sf_reply : nat }.
Record DropoutFwdRequest := {
  df_dtype : DType; df_x : GpuRef; df_y : GpuRef; df_mask : GpuRef; df_dims : list Z; df_layout : TensorLayout;
  df_probability : Z; df_seed : Z; df_reply : nat }.
Record LrnFwdRequest := {
  lf_dtype : DType; lf_x : GpuRef; lf_y : GpuRef; lf_dims : list Z; lf_layout : TensorLayout;
  lf_params : LrnParams; lf_alpha : Z; lf_beta : Z; lf_reply : nat }.
Record MultiHeadAttnFwdRequest := {
  mf_dtype : DType; mf_q : GpuRef; mf_k : GpuRef; mf_v : GpuRef; mf_o : GpuRef; mf_stats : option GpuRef;
  mf_bias : option GpuRef; mf_layout : TensorLayout; mf_params : AttentionParams; mf_reply : nat }.
Record MultiHeadAttnBwdRequest := {
  mb_dtype : DType; mb_q : GpuRef; mb_k : GpuRef; mb_v : GpuRef; mb_o : GpuRef; mb_do : GpuRef; mb_dq : GpuRef;
  mb_dk : GpuRef; mb_dv : GpuRef; mb_stats : GpuRef; mb_layout : TensorLayout; mb_params : AttentionParams;
  mb_reply : nat }.
Record RnnFwdRequest := {
  rf_dtype : DType; rf_x : GpuRef; rf_h_in : GpuRef; rf_c_in : option GpuRef; rf_weights : GpuRef;
  rf_y : GpuRef; rf_h_out : GpuRef; rf_c_out : option GpuRef; rf_layout : TensorLayout; rf_params : RnnParams;
  rf_reply : nat }.
Record RnnBwdRequest := {
  rb_dtype : DType; rb_x : GpuRef; rb_y : GpuRef; rb_dy : GpuRef; rb_h_in : GpuRef; rb_c_in : option GpuRef;
  rb_h_out : GpuRef; rb_c_out : option GpuRef; rb_dh_out : GpuRef; rb_dc_out : option GpuRef;
  rb_weights : GpuRef; rb_dx : GpuRef; rb_dh_in : GpuRef; rb_dc_in : option GpuRef; rb_dweights : GpuRef;
  rb_layout : TensorLayout; rb_params : RnnParams; rb_reply : nat }.

(** A boxed [dyn CudnnDispatch]. *)
Inductive CudnnOp : Type :=
  | BConvFwd (r : ConvFwdRequest)
  | BConvBwdData (r : ConvBwdDataRequest)
  | BConvBwdFilter (r : ConvBwdFilterRequest)
  | BBatchNorm (r : BatchNormRequest)
  | BLayerNorm (r : LayerNormRequest)
  | BInstanceNorm (r : InstanceNormRequest)
  | BGroupNorm (r : GroupNormRequest)
  | BNormBwd (r : NormBwdRequest)
  | BPoolFwd (r : PoolFwdRequest)
  | BPoolBwd (r : PoolBwdRequest)
  | BActivationFwd (r : ActivationFwdRequest)
  | BSoftmaxFwd (r : SoftmaxFwdRequest)
  | BDropoutFwd (r : DropoutFwdRequest)
  | BLrnFwd (r : LrnFwdRequest)
  | BMultiHeadAttnFwd (r : MultiHeadAttnFwdRequest)
  | BMultiHeadAttnBwd (r : MultiHeadAttnBwdRequest)
  | BRnnFwd (r : RnnFwdRequest)
  | BRnnBwd (r : RnnBwdRequest).

Definition req_dtype (o : CudnnOp) : DType :=
  match o with
  | BConvFwd r => cf_dtype r
  | BConvBwdData r => cd_dtype r
  | BConvBwdFilter r => cw_dtype r
  | BBatchNorm r => bn_dtype r
  | BLayerNorm r => ln_dtype r
  | BInstanceNorm r => inm_dtype r
  | BGroupNorm r => gn_dtype r
  | BNormBwd r => nb_dtype r
  | BPoolFwd r => pf_dtype r
  | BPoolBwd r => pb_dtype r
  | BActivationFwd r => af_dtype r
  | BSoftmaxFwd r => sf_dtype r
  | BDropoutFwd r => df_dtype r
  | BLrnFwd r => lf_dtype r
  | BMultiHeadAttnFwd r => mf_dtype r
  | BMultiHeadAttnBwd r => mb_dtype r
  | BRnnFwd r => rf_dtype r
  | BRnnBwd r => rb_dtype r
  end.
Definition req_reply (o : CudnnOp) : nat :=
  match o with
  | BConvFwd r => cf_reply r
  | BConvBwdData r => cd_reply r
  | BConvBwdFilter r => cw_reply r
  | BBatchNorm r => bn_reply r
  | BLayerNorm r => ln_reply r
  | BInstanceNorm r => inm_reply r
  | BGroupNorm r => gn_reply r
  | BNormBwd r => nb_reply r
  | BPoolFwd r => pf_reply r
  | BPoolBwd r => pb_reply r
  | BActivationFwd r => af_reply r
  | BSoftmaxFwd r => sf_reply r
  | BDropoutFwd r => df_reply r
  | BLrnFwd r => lf_reply r
  | BMultiHeadAttnFwd r => mf_reply r
  | BMultiHeadAttnBwd r => mb_reply r
  | BRnnFwd r => rf_reply r
  | BRnnBwd r => rb_reply r
  end.
(** [CudnnDispatch::dtype_name] *)
Definition cudnn_dtype_name (o : CudnnOp) : string := dtype_name (req_dtype o).
Definition opt_refs (rs : list (option GpuRef)) : list GpuRef := omap id rs.
(** The handles a request owns. *)
Definition req_refs (o : CudnnOp) : list GpuRef :=
  match o with
  | BConvFwd r => [cf_x r; cf_w r; cf_y r] ++ opt_refs [cf_bias r]
  | BConvBwdData r => [cd_dy r; cd_w r; cd_dx r]
  | BConvBwdFilter r => [cw_x r; cw_dy r; cw_dw r]
  | BBatchNorm r => [bn_x r; bn_y r; bn_scale r; bn_bias r] ++ opt_refs [bn_running_mean r; bn_running_var r; bn_saved_mean r; bn_saved_var r]
  | BLayerNorm r => [ln_x r; ln_y r; ln_scale r; ln_bias r] ++ opt_refs [ln_saved_mean r; ln_saved_var r]
  | BInstanceNorm r => [inm_x r; inm_y r; inm_scale r; inm_bias r] ++ opt_refs [inm_saved_mean r; inm_saved_var r]
  | BGroupNorm r => [gn_x r; gn_y r; gn_scale r; gn_bias r] ++ opt_refs [gn_saved_mean r; gn_saved_var r]
  | BNormBwd r => [nb_x r; nb_dy r; nb_scale r; nb_mean r; nb_var r; nb_dx r; nb_dscale r; nb_dbias r]
  | BPoolFwd r => [pf_x r; pf_y r]
  | BPoolBwd r => [pb_x r; pb_y r; pb_dy r; pb_dx r]
  | BActivationFwd r => [af_x r; af_y r]
  | BSoftmaxFwd r => [sf_x r; sf_y r]
  | BDropoutFwd r => [df_x r; df_y r; df_mask r]
  | BLrnFwd r => [lf_x r; lf_y r]
  | BMultiHeadAttnFwd r => [mf_q r; mf_k r; mf_v r; mf_o r] ++ opt_refs [mf_stats r; mf_bias r]
  | BMultiHeadAttnBwd r => [mb_q r; mb_k r; mb_v r; mb_o r; mb_do r; mb_dq r; mb_dk r; mb_dv r; mb_stats r]
  | BRnnFwd r => [rf_x r; rf_h_in r; rf_weights r; rf_y r; rf_h_out r] ++ opt_refs [rf_c_in r; rf_c_out r]
  | BRnnBwd r => [rb_x r; rb_y r; rb_dy r; rb_h_in r; rb_h_out r; rb_dh_out r; rb_weights r; rb_dx r; rb_dh_in r; rb_dweights r] ++ opt_refs [rb_c_in r; rb_c_out r; rb_dc_out r; rb_dc_in r]
  end.

Definition norm_bwd_kind (m : NormMode) : string :=
  match m with
  | BatchNorm => "batchnorm_bwd" | LayerNorm => "layernorm_bwd" | InstanceNorm => "instancenorm_bwd"
  | GroupNorm => "groupnorm_bwd" | RmsNorm => "rmsnorm_bwd"
  end.
Definition rnn_fwd_kind (m : RnnMode) : string :=
  match m with Rnn | RnnTanh => "rnn_fwd" | Lstm => "lstm_fwd" | Gru => "gru_fwd" end.
Definition rnn_bwd_kind (m : RnnMode) : string :=
  match m with Rnn | RnnTanh => "rnn_bwd" | Lstm => "lstm_bwd" | Gru => "gru_bwd" end.
(** [CudnnDispatch::op_kind] *)
Definition cudnn_op_kind (o : CudnnOp) : string :=
  match o with
  | BConvFwd _ => "conv_fwd"
  | BConvBwdData _ => "conv_bwd_data"
  | BConvBwdFilter _ => "conv_bwd_filter"
  | BBatchNorm _ => "batchnorm"
  | BLayerNorm _ => "layernorm"
  | BInstanceNorm _ => "instancenorm"
  | BGroupNorm _ => "groupnorm"
  | BNormBwd r => norm_bwd_kind (nb_mode r)
  | BPoolFwd _ => "pool_fwd"
  | BPoolBwd _ => "pool_bwd"
  | BActivationFwd _ => "activation_fwd"
  | BSoftmaxFwd _ => "softmax_fwd"
  | BDropoutFwd _ => "dropout_fwd"
  | BLrnFwd _ => "lrn_fwd"
  | BMultiHeadAttnFwd _ => "mha_fwd"
  | BMultiHeadAttnBwd _ => "mha_bwd"
  | BRnnFwd r => rnn_fwd_kind (r_mode (rf_params r))
  | BRnnBwd r => rnn_bwd_kind (r_mode (rb_params r))
  end.

(** *** [graph_spec]; six requests have none *)

Definition conv_fwd_spec (r : ConvFwdRequest) : option OperationGraphSpec :=
  d ← dtype_tag (cf_dtype r);
  build_conv_fwd_graph d (cf_x_dims r) (cf_w_dims r) (cf_y_dims r) (cf_conv r) (cf_layout r) (cf_epilogue r).
Definition conv_bwd_data_spec (r : ConvBwdDataRequest) : option OperationGraphSpec :=
  d ← dtype_tag (cd_dtype r);
  build_conv_bwd_data_graph d (cd_dy_dims r) (cd_w_dims r) (cd_dx_dims r) (cd_conv r) (cd_layout r).
Definition conv_bwd_filter_spec (r : ConvBwdFilterRequest) : option OperationGraphSpec :=
  d ← dtype_tag (cw_dtype r);
  build_conv_bwd_filter_graph d (cw_x_dims r) (cw_dy_dims r) (cw_dw_dims r) (cw_conv r) (cw_layout r).
Definition batch_norm_spec (r : BatchNormRequest) : option OperationGraphSpec :=
  d ← dtype_tag (bn_dtype r);
  build_norm_fwd_graph BatchNorm (bn_phase r) d (bn_dims r) (bn_layout r) (bn_epsilon r) (bn_exp_avg_factor r).
Definition layer_norm_spec (r : LayerNormRequest) : option OperationGraphSpec :=
  d ← dtype_tag (ln_dtype r);
  build_norm_fwd_graph LayerNorm Training d (ln_dims r) (ln_layout r) (ln_epsilon r) 0.
Definition instance_norm_spec (r : InstanceNormRequest) : option OperationGraphSpec :=
  d ← dtype_tag (inm_dtype r);
  build_norm_fwd_graph InstanceNorm Training d (inm_dims r) (inm_layout r) (inm_epsilon r) 0.
Definition pool_fwd_spec (r : PoolFwdRequest) : option OperationGraphSpec :=
  d ← dtype_tag (pf_dtype r);
  build_pool_fwd_graph d (pf_x_dims r) (pf_y_dims r) (pf_layout r) (pf_params r).
Definition pool_bwd_spec (r : PoolBwdRequest) : option OperationGraphSpec :=
  d ← dtype_tag (pb_dtype r);
  build_pool_bwd_graph d (pb_x_dims r) (pb_y_dims r) (pb_layout r) (pb_params r).
Definition activation_spec (r : ActivationFwdRequest) : option OperationGraphSpec :=
  dt ← dtype_tag (af_dtype r);
  let g := OperationGraphSpec_new "activation_fwd" in
  '(x_uid, g) ← tensor 1 dt (af_dims r) (af_layout r) g;
  '(y_uid, g) ← tensor 2 dt (af_dims r) (af_layout r) g;
  Some (add_op (Pointwise (pointwise_mode (af_kind r)) x_uid None y_uid dt f64_one 0) g).
Definition mha_fwd_spec (r : MultiHeadAttnFwdRequest) : option OperationGraphSpec :=
  d ← dtype_tag (mf_dtype r); build_mha_fwd_graph d (mf_params r) (mf_layout r).
Definition mha_bwd_spec (r : MultiHeadAttnBwdRequest) : option OperationGraphSpec :=
  d ← dtype_tag (mb_dtype r); build_mha_bwd_graph d (mb_params r) (mb_layout r).
Definition rnn_fwd_spec (r : RnnFwdRequest) : option OperationGraphSpec :=
  d ← dtype_tag (rf_dtype r); build_rnn_fwd_spec d (rf_params r) (rf_layout r).

(** The graph of a request that has one. *)
Definition graph_spec (o : CudnnOp) : option (option OperationGraphSpec) :=
  match o with
  | BConvFwd r => Some (conv_fwd_spec r)
  | BConvBwdData r => Some (conv_bwd_data_spec r)
  | BConvBwdFilter r => Some (conv_bwd_filter_spec r)
  | BBatchNorm r => Some (batch_norm_spec r)
  | BLayerNorm r => Some (layer_norm_spec r)
  | BInstanceNorm r => Some (instance_norm_spec r)
  | BPoolFwd r => Some (pool_fwd_spec r)
  | BPoolBwd r => Some (pool_bwd_spec r)
  | BActivationFwd r => Some (activation_spec r)
  | BMultiHeadAttnFwd r => Some (mha_fwd_spec r)
  | BMultiHeadAttnBwd r => Some (mha_bwd_spec r)
  | BRnnFwd r => Some (rnn_fwd_spec r)
  | BGroupNorm _ | BNormBwd _ | BSoftmaxFwd _ | BDropoutFwd _ | BLrnFwd _ | BRnnBwd _ => None
  end.

(** ** The actor *)

Definition req_name (o : CudnnOp) : string :=
  match o with
  | BConvFwd _ => "ConvFwdRequest"
  | BConvBwdData _ => "ConvBwdDataRequest"
  | BConvBwdFilter _ => "ConvBwdFilterRequest"
  | BBatchNorm _ => "BatchNormRequest"
  | BLayerNorm _ => "LayerNormRequest"
  | BInstanceNorm _ => "InstanceNormRequest"
  | BGroupNorm _ => "GroupNormRequest"
  | BNormBwd _ => "NormBwdRequest"
  | BPoolFwd _ => "PoolFwdRequest"
  | BPoolBwd _ => "PoolBwdRequest"
  | BActivationFwd _ => "ActivationFwdRequest"
  | BSoftmaxFwd _ => "SoftmaxFwdRequest"
  | BDropoutFwd _ => "DropoutFwdRequest"
  | BLrnFwd _ => "LrnFwdRequest"
  | BMultiHeadAttnFwd _ => "MultiHeadAttnFwdRequest"
  | BMultiHeadAttnBwd _ => "MultiHeadAttnBwdRequest"
  | BRnnFwd _ => "RnnFwdRequest"
  | BRnnBwd _ => "RnnBwdRequest"
  end.
(** What each dispatch lacks. *)
Definition missing (o : CudnnOp) : string :=
  match o with
  | BConvFwd _ => "the v9 frontend graph builder (cudnnBackendCreateDescriptor path)"
  | BMultiHeadAttnFwd _ | BMultiHeadAttnBwd _ => "the v9 fused-attention path"
  | BRnnFwd _ | BRnnBwd _ => "the v8 RNN API path"
  | _ => "the v9 frontend graph builder"
  end.
Definition skeleton (o : CudnnOp) : GpuError :=
  LibraryError LIB (req_name o +:+ " dispatch requires " +:+ missing o +:+ "; skeleton entry point only").

Record ConvParams := { c_pad : Z * Z; c_stride : Z * Z; c_dilation : Z * Z }.
Record ConvForwardRequest := {
  lc_x : GpuRef; lc_x_dims : list Z; lc_w : GpuRef; lc_w_dims : list Z; lc_y : GpuRef; lc_y_dims : list Z;
  lc_conv : ConvParams; lc_alpha : Z; lc_beta : Z; lc_reply : nat }.
Record ActivationRequest := {
  la_kind : ActivationKind; la_x : GpuRef; la_y : GpuRef; la_dims : list Z; la_alpha : Z; la_beta : Z; la_reply : nat }.
Record SoftmaxRequest := {
  ls_x : GpuRef; ls_y : GpuRef; ls_dims : list Z; ls_alpha : Z; ls_beta : Z; ls_reply : nat }.

Inductive CudnnMsg : Type :=
  | Op (o : CudnnOp)
  | ConvForward (r : ConvForwardRequest)
  | Activation (r : ActivationRequest)
  | Softmax (r : SoftmaxRequest).
Definition msg_refs (m : CudnnMsg) : list GpuRef :=
  match m with
  | Op o => req_refs o
  | ConvForward r => [lc_x r; lc_w r; lc_y r]
  | Activation r => [la_x r; la_y r]
  | Softmax r => [ls_x r; ls_y r]
  end.
Definition msg_reply (m : CudnnMsg) : nat :=
  match m with Op o => req_reply o | ConvForward r => lc_reply r | Activation r => la_reply r | Softmax r => ls_reply r end.

Section actor.
Context {C : Type} `{!LruOps PlanCacheKey CachedPlan C}.

(** The workspace is its length in bytes. *)
Inductive CudnnInner : Type := Real (plan_cache : PlanCache C) (workspace : option Z) | Mock.
Abbreviation cact := (act (CudnnInner * Gpu) KEff).

(** [CudnnActor::props], by what creating the handle answers: a panic or the actor. *)
Definition cudnn_props (create : result unit string) : result CudnnInner string :=
  match create with
  | Err e => Err ("ContextPoisoned: Cudnn::new failed: " +:+ e)
  | Ok _ => Ok (Real (PlanCache_new DEFAULT_PLAN_CACHE_SIZE) None)
  end.
Definition cudnn_mock_props : CudnnInner := Mock.

Definition cudnn_dispatch (o : CudnnOp) : cact unit := emit (Reply (req_reply o) (Err (skeleton o))).

Definition handle_legacy_conv_fwd (r : ConvForwardRequest) : cact unit :=
  emit (Reply (lc_reply r) (Err (LibraryError LIB
    "ConvForward (legacy) is deprecated; send CudnnMsg::Op(ConvFwdRequest<f32>) for v9 frontend dispatch"))).
Definition handle_legacy_activation (r : ActivationRequest) : cact unit :=
  emit (Reply (la_reply r) (Err (LibraryError LIB
    "Activation (legacy) is deprecated; send CudnnMsg::Op(ActivationFwdRequest<f32>)"))).
Definition handle_legacy_softmax (r : SoftmaxRequest) : cact unit :=
  emit (Reply (ls_reply r) (Err (LibraryError LIB
    "Softmax (legacy) is deprecated; send CudnnMsg::Op(SoftmaxFwdRequest<f32>)"))).

Definition reply_mock (m : CudnnMsg) : cact unit :=
  let err := Unrecoverable "CudnnActor in mock mode" in
  match m with
  | Op o => emit (DropSender (req_reply o))
  | ConvForward r => emit (Reply (lc_reply r) (Err err))
  | Activation r => emit (Reply (la_reply r) (Err err))
  | Softmax r => emit (Reply (ls_reply r) (Err err))
  end.

Definition cudnn_handle (m : CudnnMsg) : cact unit :=
  s ← get;
  match s.1 with
  | Mock => reply_mock m
  | Real _ _ =>
    match m with
    | Op o => cudnn_dispatch o
    | ConvForward r => handle_legacy_conv_fwd r
    | Activation r => handle_legacy_activation r
    | Softmax r => handle_legacy_softmax r
    end
  end.

#[global] Instance cudnn_actor : KernelActor (S := CudnnInner) CudnnMsg := {|
  operands := msg_refs;
  reply_of := msg_reply;
  khandle := cudnn_handle;
|}.

Definition cudnn_error (m : CudnnMsg) : GpuError :=
  match m with
  | Op o => skeleton o
  | ConvForward _ => LibraryError LIB
    "ConvForward (legacy) is deprecated; send CudnnMsg::Op(ConvFwdRequest<f32>) for v9 frontend dispatch"
  | Activation _ => LibraryError LIB "Activation (legacy) is deprecated; send CudnnMsg::Op(ActivationFwdRequest<f32>)"
  | Softmax _ => LibraryError LIB "Softmax (legacy) is deprecated; send CudnnMsg::Op(SoftmaxFwdRequest<f32>)"
  end.
Definition cudnn_effect (s : CudnnInner) (m : CudnnMsg) : KEff :=
  match s, m with
  | Mock, Op o => DropSender (req_reply o)
  | Mock, _ => Reply (msg_reply m) (Err (Unrecoverable "CudnnActor in mock mode"))
  | Real _ _, _ => Reply (msg_reply m) (Err (cudnn_error m))
  end.

(** No request reaches cuDNN: each is answered with an error, and neither the actor
    nor the device changes. *)
Lemma cudnn_outcome m s g : exec (cudnn_handle m) (s, g) = ((s, g), [cudnn_effect s m]).
Proof. by destruct s, m. Qed.

#[global] Instance cudnn_law : KernelLaw CudnnInner CudnnMsg.
Proof.
  intros m s g _. cbn [khandle cudnn_actor reply_of]. unfold cudnn_handle. awp_steps. cbn [fst].
  destruct s, m; unfold reply_mock; awp_steps; (split; [done|by left]).
Qed.
End actor.
Arguments CudnnInner : clear implicits.

(** *** The capture-mode operations of [graph/record/cudnn.rs] *)

Definition debug_dims (d : list Z) : string := "[" +:+ String.concat ", " (pretty <$> d) +:+ "]".
Definition validate_dims (d : list Z) (who : string) : result unit GpuError :=
  if existsb (λ x, (x <=? 0)%Z) d then Err (Unrecoverable (who +:+ ": non-positive dim in " +:+ debug_dims d)) else Ok tt.

Record ConvForwardOp := {
  gc_x : GpuRef; gc_x_dims : list Z; gc_w : GpuRef; gc_w_dims : list Z; gc_y : GpuRef; gc_y_dims : list Z;
  gc_conv : ConvParams; gc_alpha : Z; gc_beta : Z }.
Record ActivationOp := {
  ga_kind : ActivationKind; ga_x : GpuRef; ga_y : GpuRef; ga_dims : list Z; ga_alpha : Z; ga_beta : Z }.
Record SoftmaxOp := { gs_x : GpuRef; gs_y : GpuRef; gs_dims : list Z; gs_alpha : Z; gs_beta : Z }.

Definition record_conv (o : ConvForwardOp) (dev : option DeviceState) : result unit GpuError :=
  validate_dims (gc_x_dims o) "conv: x_dims" ;?
  validate_dims (gc_w_dims o) "conv: w_dims" ;?
  validate_dims (gc_y_dims o) "conv: y_dims" ;?
  check_access [gc_x o; gc_w o; gc_y o] dev ;?
  Err (Unrecoverable "graph::record::cudnn::ConvForward: cuDNN capture-mode entry not yet wired (Phase 3 surface only)").
Definition record_activation (o : ActivationOp) (dev : option DeviceState) : result unit GpuError :=
  validate_dims (ga_dims o) "activation: dims" ;?
  check_access [ga_x o; ga_y o] dev ;?
  Err (Unrecoverable "graph::record::cudnn::Activation: cuDNN capture-mode entry not yet wired").
Definition record_softmax (o : SoftmaxOp) (dev : option DeviceState) : result unit GpuError :=
  validate_dims (gs_dims o) "softmax: dims" ;?
  check_access [gs_x o; gs_y o] dev ;?
  Err (Unrecoverable "graph::record::cudnn::Softmax: cuDNN capture-mode entry not yet wired").

Lemma validate_dims_ok d who : validate_dims d who = Ok tt ↔ Forall (Z.lt 0) d.
Proof.
  unfold validate_dims. rewrite Forall_forall. destruct (existsb _ d) eqn:He.
  - apply existsb_exists in He as (x & Hx%list_elem_of_In & Hle%Z.leb_le). split; [done|]. intros H. specialize (H x Hx). lia.
  - split; [|done]. intros _ x Hx. apply Z.nle_gt. intros Hle. apply not_true_iff_false in He. destruct He.
    apply existsb_exists. exists x. split; [by apply list_elem_of_In|]. by apply Z.leb_le.
Qed.

(** ** The graphs are closed *)

Definition op_reads (o : OpSpec) : list Z :=
  match o with
  | ConvFwd x w _ _ _ _ _ _ _ _ _ => [x; w]
  | ConvBwdData dy w _ _ _ _ _ _ _ _ _ => [dy; w]
  | ConvBwdFilter x dy _ _ _ _ _ _ _ _ _ => [x; dy]
  | Pointwise _ x b _ _ _ _ => x :: omap id [b]
  | PoolFwd _ x _ _ _ _ _ _ => [x]
  | PoolBwd _ dy x y _ _ _ _ _ _ => [dy; x; y]
  | NormFwd _ _ x s b m v _ _ _ _ => [x; s; b] ++ omap id [m; v]
  | NormBwd _ x dy s m v _ _ _ _ => [x; dy; s; m; v]
  | Matmul a b _ _ => [a; b]
  | Reduce _ x _ _ | Reshape x _ => [x]
  end.
Definition op_writes (o : OpSpec) : list Z :=
  match o with
  | ConvFwd _ _ y _ _ _ _ _ _ _ _ | ConvBwdData _ _ y _ _ _ _ _ _ _ _ | ConvBwdFilter _ _ y _ _ _ _ _ _ _ _ => [y]
  | Pointwise _ _ _ y _ _ _ | PoolFwd _ _ y _ _ _ _ _ | PoolBwd _ _ _ _ y _ _ _ _ _ | NormFwd _ _ _ _ _ _ _ y _ _ _ => [y]
  | NormBwd _ _ _ _ _ _ dx ds db _ => [dx; ds; db]
  | Matmul _ _ c _ => [c]
  | Reduce _ _ y _ | Reshape _ y => [y]
  end.

(** No operation reads what it or a later one writes. *)
Fixpoint in_order (os : list OpSpec) : bool :=
  match os with
  | [] => true
  | o :: os => forallb (λ r, bool_decide (r ∉ (o :: os) ≫= op_writes)) (op_reads o) && in_order os
  end.
(** Identifiers are unique, every operation uses declared tensors, each is written
    once, and the operations are in an order in which they can run. *)
Definition graph_closed (g : OperationGraphSpec) : bool :=
  let us := uid <$> tensors g in
  bool_decide (NoDup us) &&
  forallb (λ o, forallb (λ u, bool_decide (u ∈ us)) (op_reads o ++ op_writes o)) (ops g) &&
  bool_decide (NoDup (ops g ≫= op_writes)) && in_order (ops g).

(** Run a builder on symbolic dimensions, when none of its layouts panics. *)
Ltac run_builder H :=
  unfold tensor, virtual_tensor, TensorSpec_new in H;
  repeat (cbn -[packed_strides lookup] in H; match type of H with
    | context [?ds !! 1] => destruct (ds !! 1); [|discriminate H]
    | context [packed_strides ?ds ?l] => let E := fresh "E" in destruct (packed_strides ds l) eqn:E; [|discriminate H]
    end);
  cbn -[packed_strides] in H.

Definition is_mha_bwd (o : CudnnOp) : bool := match o with BMultiHeadAttnBwd _ => true | _ => false end.

(** C30 (graphs of requests): whenever a request builds a graph, its identifiers are
    unique, its operations use declared tensors, write each of them once and are in
    an order in which they can run; the backward pass of attention, whose operations
    write tensors that are not declared, is the exception. *)
Theorem graph_spec_closed o g : graph_spec o = Some (Some g) → graph_closed g = negb (is_mha_bwd o).
Proof.
  destruct o; try done; cbn [graph_spec]; intros [= Hg].
  all: unfold conv_fwd_spec, conv_bwd_data_spec, conv_bwd_filter_spec, batch_norm_spec, layer_norm_spec,
    instance_norm_spec, pool_fwd_spec, pool_bwd_spec, activation_spec, mha_fwd_spec, mha_bwd_spec, rnn_fwd_spec in Hg;
    destruct (dtype_tag _) as [d|]; [|discriminate Hg]; cbn [mbind option_bind] in Hg.
  all: unfold build_conv_fwd_graph, build_conv_bwd_data_graph, build_conv_bwd_filter_graph, build_norm_fwd_graph,
    build_pool_fwd_graph, build_pool_bwd_graph, build_mha_fwd_graph, build_mha_bwd_graph, build_rnn_fwd_spec in Hg.
  all: run_builder Hg; repeat (case_match; try discriminate Hg; run_builder Hg); injection Hg as <-; by vm_compute.
Qed.

Lemma graph_spec_closed_witness :
  let r := {| mf_dtype := F16; mf_q := GpuRef_new 1 (DeviceState_new 0); mf_k := GpuRef_new 2 (DeviceState_new 0);
    mf_v := GpuRef_new 3 (DeviceState_new 0); mf_o := GpuRef_new 4 (DeviceState_new 0); mf_stats := None; mf_bias := None;
    mf_layout := NchwPacked; mf_params := AttentionParams_new 2 128 128 8 8 64; mf_reply := 9 |} in
  ∃ g, graph_spec (BMultiHeadAttnFwd r) = Some (Some g) ∧ length (tensors g) = 6 ∧ graph_closed g = true.
Proof.
  intros r. destruct (graph_spec (BMultiHeadAttnFwd r)) as [[g|]|] eqn:He; [|vm_compute in He; discriminate He..].
  exists g. split; [done|]. split; [vm_compute in He; by injection He as <-|].
  apply (graph_spec_closed (BMultiHeadAttnFwd r) g He).
Defined.

(** The scale of a head of 64 is an eighth. *)
Example scale_64 : f64_bits (scale (AttentionParams_new 2 128 128 8 8 64)) = 0x3FC0000000000000%Z.
Proof. by vm_compute. Qed.

(** ** When a graph is built *)

Definition is_norm (o : CudnnOp) : option (list Z) :=
  match o with
  | BBatchNorm r => Some (bn_dims r) | BLayerNorm r => Some (ln_dims r) | BInstanceNorm r => Some (inm_dims r)
  | _ => None
  end.
Definition spec_layout (o : CudnnOp) : TensorLayout :=
  match o with
  | BConvFwd r => cf_layout r | BConvBwdData r => cd_layout r | BConvBwdFilter r => cw_layout r
  | BBatchNorm r => bn_layout r | BLayerNorm r => ln_layout r | BInstanceNorm r => inm_layout r
  | BPoolFwd r => pf_layout r | BPoolBwd r => pb_layout r | BActivationFwd r => af_layout r
  | BMultiHeadAttnFwd r => mf_layout r | BMultiHeadAttnBwd r => mb_layout r | BRnnFwd r => rf_layout r
  | _ => Strided
  end.

Lemma strides_total ds layout : layout ≠ NhwcPacked → ∃ ss, packed_strides ds layout = Some ss.
Proof.
  intros Hl. destruct (packed_strides ds layout) as [ss|] eqn:He; [by exists ss|].
  by apply packed_strides_None in He as [? _].
Qed.

(** In the other layouts only the element type, or the rank of a normalised tensor,
    makes a request panic. *)
Lemma graph_spec_builds o s :
  graph_spec o = Some s → spec_layout o ≠ NhwcPacked → is_Some (dtype_tag (req_dtype o)) →
  (∀ ds, is_norm o = Some ds → 2 ≤ length ds) → is_Some s.
Proof.
  intros Hs Hl [d Hd] Hn. destruct o; try discriminate Hs; cbn [graph_spec] in Hs; injection Hs as <-;
    cbn [spec_layout req_dtype is_norm] in *.
  all: unfold conv_fwd_spec, conv_bwd_data_spec, conv_bwd_filter_spec, batch_norm_spec, layer_norm_spec,
    instance_norm_spec, pool_fwd_spec, pool_bwd_spec, activation_spec, mha_fwd_spec, mha_bwd_spec, rnn_fwd_spec;
    rewrite Hd; cbn [mbind option_bind].
  all: unfold build_conv_fwd_graph, build_conv_bwd_data_graph, build_conv_bwd_filter_graph, build_norm_fwd_graph,
    build_pool_fwd_graph, build_pool_bwd_graph, build_mha_fwd_graph, build_mha_bwd_graph, build_rnn_fwd_spec,
    tensor, virtual_tensor, TensorSpec_new.
  all: repeat (cbn -[packed_strides lookup]; match goal with
    | |- context [packed_strides ?ds ?l] => destruct (strides_total ds l Hl) as [? ->]
    | |- context [?ds !! 1] =>
      let E := fresh "E" in destruct (lookup_lt_is_Some_2 ds 1 (Hn ds eq_refl)) as [? E]; rewrite E
    | |- context [cf_epilogue ?r] => destruct (cf_epilogue r)
    | |- context [has_cell_state ?m] => destruct (has_cell_state m)
    end); cbn -[packed_strides lookup]; eexists; reflexivity.
Qed.

(** A recurrent network has a weight tensor of rank one: channels-last panics. *)
Lemma rnn_nhwc_panics r : rf_layout r = NhwcPacked → rnn_fwd_spec r = None.
Proof.
  intros Hl. unfold rnn_fwd_spec. destruct (dtype_tag _) as [d|]; [|done]. cbn [mbind option_bind].
  unfold build_rnn_fwd_spec, tensor, TensorSpec_new. rewrite Hl. by destruct (has_cell_state _).
Qed.

(** Types that [cudnn] takes as elements, the two with a tag of their own included,
    have no tag. *)
Example untagged : dtype_tag <$> [U8; I32; I64; F8E4m3; F8E5m2] = [None; None; None; None; None].
Proof. done. Qed.

(** ** What a graph does not say

    The signature of a graph keys the plan cache, so requests that differ only in
    these fields would share a plan. *)

Lemma pool_average_modes d x y layout w pre post st :
  let p m := {| p_mode := m; window := w; p_pre_padding := pre; p_post_padding := post; p_stride := st |} in
  build_pool_fwd_graph d x y layout (p PAvg) = build_pool_fwd_graph d x y layout (p PAvgExcludePadding) ∧
  build_pool_bwd_graph d x y layout (p PAvg) = build_pool_bwd_graph d x y layout (p PAvgExcludePadding).
Proof. done. Qed.

Lemma attention_mask_ignored d p layout m dr seed :
  build_mha_fwd_graph d (with_dropout dr seed (with_mask m p)) layout = build_mha_fwd_graph d p layout ∧
  build_mha_bwd_graph d (with_dropout dr seed (with_mask m p)) layout = build_mha_bwd_graph d p layout.
Proof. done. Qed.

Lemma rnn_nonlinearity_ignored d dir layers input hidden seq batch layout :
  rnn_fwd_kind Rnn = rnn_fwd_kind RnnTanh ∧
  build_rnn_fwd_spec d (RnnParams_new Rnn dir layers input hidden seq batch) layout =
  build_rnn_fwd_spec d (RnnParams_new RnnTanh dir layers input hidden seq batch) layout.
Proof. done. Qed.

Lemma conv_groups_ignored d x w y conv n layout e :
  build_conv_fwd_graph d x w y (with_groups n conv) layout e = build_conv_fwd_graph d x w y conv layout e.
Proof. done. Qed.

(** A product of matrices, over batches of the same shape. *)
Definition matmul_shapes (a b c : list Z) : bool :=
  match rev a, rev b, rev c with
  | k :: m :: ba, n :: k' :: bb, n' :: m' :: bc =>
    (k =? k')%Z && (m =? m')%Z && (n =? n')%Z && bool_decide (ba = bb ∧ bb = bc)
  | _, _, _ => false
  end.
Definition dims_of (g : OperationGraphSpec) (u : Z) : list Z :=
  default [] (dims <$> find (λ t, (uid t =? u)%Z) (tensors g)).
Definition matmuls_fit (g : OperationGraphSpec) : bool :=
  forallb (λ o, match o with Matmul a b c _ => matmul_shapes (dims_of g a) (dims_of g b) (dims_of g c) | _ => true end) (ops g).

(** The keys are not transposed: the shapes of attention fit only if a sequence is
    as long as a head is wide, and the heads are not grouped. *)
Lemma attention_shapes d p layout g :
  build_mha_fwd_graph d p layout = Some g →
  matmuls_fit g = (head_dim p =? seq_kv p)%Z && (heads_q p =? heads_kv p)%Z.
Proof.
  unfold build_mha_fwd_graph. intros Hg. run_builder Hg. injection Hg as <-.
  unfold matmuls_fit, matmul_shapes, dims_of. cbn.
  rewrite !Z.eqb_refl. cbn.
  destruct (Z.eqb_spec (head_dim p) (seq_kv p)) as [_|_]; cbn; [|done].
  destruct (Z.eqb_spec (heads_q p) (heads_kv p)) as [->|Hh]; [by rewrite !bool_decide_true|].
  rewrite bool_decide_false; [done|]. intros [[= ] _]. congruence.
Qed.

(** ** Backend descriptors

    The wrapper of [sys/cudnn.rs]; no code of the crate uses it yet. *)

Record BackendDescriptor := { raw : Obj; finalized : bool }.

Section backend.
Context (lib_answer : nat → ObjCall → result Z string).

Abbreviation bact := (act Lib KEff).

Definition check {A} (what : string) (r : result A string) : result A GpuError :=
  map_err (λ s, LibraryError LIB (what +:+ ": cudnnStatus=" +:+ s)) r.

Definition descriptor_create (kind : string) : bact (result BackendDescriptor GpuError) :=
  r ← create lib_answer {| oname := "cudnnBackendCreateDescriptor"; ouses := []; oargs := [ATag kind] |};
  mret (match check "cudnnBackendCreateDescriptor" r with
        | Ok o => Ok {| raw := o; finalized := false |}
        | Err e => Err e
        end).
(** [finalize] is called once; the descriptor is updated in place. *)
Definition descriptor_finalize (d : BackendDescriptor) : bact (result unit GpuError * BackendDescriptor) :=
  if finalized d then mret (Ok tt, d)
  else
    r ← run_call lib_answer {| oname := "cudnnBackendFinalize"; ouses := [raw d]; oargs := [] |};
    match check "cudnnBackendFinalize" r with
    | Ok _ => mret (Ok tt, {| raw := raw d; finalized := true |})
    | Err e => mret (Err e, d)
    end.
Definition set_attribute_raw (d : BackendDescriptor) (name attr_type : string) (count : Z) (subs : list Obj)
    (data : list Arg) : bact (result unit GpuError) :=
  r ← run_call lib_answer {| oname := "cudnnBackendSetAttribute"; ouses := raw d :: subs;
    oargs := [ATag name; ATag attr_type; AInt count] ++ data |};
  mret (match check "cudnnBackendSetAttribute" r with Ok _ => Ok tt | Err e => Err e end).
Definition set_i64 d name (v : Z) := set_attribute_raw d name "CUDNN_TYPE_INT64" 1 [] [AInt v].
Definition set_i64_array d name (vs : list Z) :=
  set_attribute_raw d name "CUDNN_TYPE_INT64" (Z.of_nat (length vs)) [] (AInt <$> vs).
Definition set_f32 d name (v : Z) := set_attribute_raw d name "CUDNN_TYPE_FLOAT" 1 [] [AInt v].
Definition set_f64 d name (v : Z) := set_attribute_raw d name "CUDNN_TYPE_DOUBLE" 1 [] [AInt v].
Definition set_dev_ptr d name (p : slice_id) := set_attribute_raw d name "CUDNN_TYPE_VOID_PTR" 1 [] [ADev p].
Definition set_descriptor d name (sub : BackendDescriptor) :=
  set_attribute_raw d name "CUDNN_TYPE_BACKEND_DESCRIPTOR" 1 [raw sub] [].
Definition set_descriptors d name (subs : list BackendDescriptor) :=
  set_attribute_raw d name "CUDNN_TYPE_BACKEND_DESCRIPTOR" (Z.of_nat (length subs)) (raw <$> subs) [].
Definition set_data_type d name (dt : string) := set_attribute_raw d name "CUDNN_TYPE_DATA_TYPE" 1 [] [ATag dt].
Definition descriptor_drop (d : BackendDescriptor) : bact unit := destroys [raw d].
Definition backend_execute (plan variant_pack : BackendDescriptor) : bact (result unit GpuError) :=
  r ← run_call lib_answer {| oname := "cudnnBackendExecute"; ouses := [raw plan; raw variant_pack]; oargs := [] |};
  mret (match check "cudnnBackendExecute" r with Ok _ => Ok tt | Err e => Err e end).

(** A descriptor that is finalized stays so, and is not finalized again. *)
Lemma finalize_once d l : finalized d = true → descriptor_finalize d l = ((Ok tt, d), l, []).
Proof. intros Hf. unfold descriptor_finalize. by rewrite Hf. Qed.

Lemma finalize_ok d l L : lib_ok l L → raw d ∈ L →
  awp (descriptor_finalize d) (λ r l' es, es = [] ∧ lib_ok l' L ∧ raw r.2 = raw d ∧
    (finalized r.2 = true ↔ r.1 = Ok tt) ∧ (finalized d = true → l' = l)) l.
Proof.
  intros [Hl Hb] Hd. unfold descriptor_finalize. destruct (finalized d) eqn:Hf.
  - awp_steps. by split_and!.
  - unfold run_call, next_call. awp_steps.
    assert (Hok : lib_ok (log (Ran {| oname := "cudnnBackendFinalize"; ouses := [raw d]; oargs := [] |})
      {| calls := S (calls l); events := events l |}) L).
    { split.
      - rewrite live_log. unfold live in *. cbn. rewrite Hl. cbn. by rewrite decide_True by by repeat constructor.
      - intros o Ho. cbn. specialize (Hb o Ho). cbn in Hb. lia. }
    destruct (lib_answer _ _); awp_steps; split_and!; try done. cbn. by rewrite Hf.
Qed.
End backend.
