(* ===== verification/Solver.v ===== *)
(** * cuSOLVER: factorisations, solves, and the actor

    Models [crates/atomr-accel-cuda/src/kernel/solver] and the statuses and entry
    points of [sys/cusolver.rs].  A request checks its buffers and takes its
    write targets, prepares scratch objects and a workspace, and enqueues in a
    closure that locks the shared cells of the actor.  The scratch objects are
    over [Objects.v]; a mutex is not reentrant, and a closure that locks one it
    holds never returns.  The actor is an instance of [Envelope.v].

    Parameters are what the library, the allocator and the copies from the device
    answer, and the addresses of the buffers.  An [i32] is a signed integer. *)

From stdpp Require Import pretty.
From S2P Require Import Prelude Actor Text Errors Dtype DeviceState Envelope Objects.

Definition LIB : string := "cusolver".

(** [status_to_result] *)
Definition status_to_result {A} (r : result A string) (op : string) : result A GpuError :=
  map_err (λ s, LibraryError LIB (op +:+ ": " +:+ s)) r.

(** ** Requests *)

Inductive Uplo : Type := Upper | Lower.
Definition as_cusolver_fill (u : Uplo) : string :=
  match u with Upper => "CUBLAS_FILL_MODE_UPPER" | Lower => "CUBLAS_FILL_MODE_LOWER" end.
Inductive EigType : Type := Type1 | Type2 | Type3.
Definition as_cusolver (e : EigType) : string :=
  match e with Type1 => "CUSOLVER_EIG_TYPE_1" | Type2 => "CUSOLVER_EIG_TYPE_2" | Type3 => "CUSOLVER_EIG_TYPE_3" end.
Inductive SparseAlgo : Type := ACholesky | AQr.

Record QrRequest := { qr_dtype : DType; qr_a : GpuRef; qr_m : Z; qr_n : Z; qr_tau : GpuRef; qr_reply : nat }.
Record LuRequest := { lu_dtype : DType; lu_a : GpuRef; lu_m : Z; lu_n : Z; lu_ipiv : GpuRef; lu_reply : nat }.
Record LuSolveRequest := { sl_dtype : DType; sl_lu : GpuRef; sl_ipiv : GpuRef; sl_b : GpuRef; sl_n : Z; sl_nrhs : Z;
  sl_trans : bool; sl_reply : nat }.
Record CholeskyRequest := { ch_dtype : DType; ch_a : GpuRef; ch_n : Z; ch_uplo : Uplo; ch_reply : nat }.
Record SvdRequest := { sv_dtype : DType; sv_a : GpuRef; sv_m : Z; sv_n : Z; sv_s : GpuRef; sv_u : option GpuRef;
  sv_vt : option GpuRef; sv_reply : nat }.
Record SyevdRequest := { sy_dtype : DType; sy_a : GpuRef; sy_n : Z; sy_uplo : Uplo; sy_w : GpuRef;
  sy_vectors : bool; sy_reply : nat }.
Record SygvdRequest := { gv_dtype : DType; gv_a : GpuRef; gv_b : GpuRef; gv_n : Z; gv_itype : EigType;
  gv_uplo : Uplo; gv_w : GpuRef; gv_vectors : bool; gv_reply : nat }.
Record HegvdRequest := { hv_dtype : DType; hv_a : GpuRef; hv_b : GpuRef; hv_n : Z; hv_itype : EigType;
  hv_uplo : Uplo; hv_w : GpuRef; hv_vectors : bool; hv_reply : nat }.
Record GetrfBatchedRequest := { gb_dtype : DType; gb_a : GpuRef; gb_n : Z; gb_batch : Z; gb_ipiv : GpuRef; gb_reply : nat }.
Record PotrfBatchedRequest := { pb_dtype : DType; pb_a : GpuRef; pb_n : Z; pb_batch : Z; pb_uplo : Uplo; pb_reply : nat }.
Record GesvdjBatchedRequest := { gj_dtype : DType; gj_a : GpuRef; gj_m : Z; gj_n : Z; gj_batch : Z; gj_s : GpuRef;
  gj_u : option GpuRef; gj_v : option GpuRef; gj_reply : nat }.
Record SparseCsrInput := { row_ptr : GpuRef; col_ind : GpuRef; values : GpuRef; csr_m : Z; csr_nnz : Z }.
Record SparseCholeskyRequest := { sc_dtype : DType; sc_a : SparseCsrInput; sc_b : GpuRef; sc_x : GpuRef; sc_tol : Z;
  sc_reorder : Z; sc_reply : nat }.
Record SparseQrRequest := { sq_dtype : DType; sq_a : SparseCsrInput; sq_b : GpuRef; sq_x : GpuRef; sq_tol : Z;
  sq_reorder : Z; sq_reply : nat }.
Record SparseLuRequest := { sp_dtype : DType; sp_a : SparseCsrInput; sp_b : GpuRef; sp_x : GpuRef; sp_tol : Z;
  sp_reorder : Z; sp_reply : nat }.

(** A boxed [dyn SolverDispatch]. *)
Inductive SolverOp : Type :=
  | BQr (r : QrRequest) | BLu (r : LuRequest) | BLuSolve (r : LuSolveRequest) | BCholesky (r : CholeskyRequest)
  | BSvd (r : SvdRequest) | BSyevd (r : SyevdRequest) | BSygvd (r : SygvdRequest) | BHegvd (r : HegvdRequest)
  | BGetrfBatched (r : GetrfBatchedRequest) | BPotrfBatched (r : PotrfBatchedRequest)
  | BGesvdjBatched (r : GesvdjBatchedRequest)
  | BSparseCholesky (r : SparseCholeskyRequest) | BSparseQr (r : SparseQrRequest) | BSparseLu (r : SparseLuRequest).

(** The messages; the deprecated ones are requests on [f32]. *)
Inductive SolverMsg : Type :=
  | Op (o : SolverOp)
  | QrFactorize (a : GpuRef) (m n : Z) (tau : GpuRef) (reply : nat)
  | LuFactorize (a : GpuRef) (m n : Z) (ipiv : GpuRef) (reply : nat)
  | LuSolve (lu ipiv b : GpuRef) (n nrhs : Z) (trans : bool) (reply : nat)
  | Cholesky (a : GpuRef) (n : Z) (uplo : Uplo) (reply : nat)
  | Svd (a : GpuRef) (m n : Z) (s : GpuRef) (u vt : option GpuRef) (reply : nat)
  | Syevd (a : GpuRef) (n : Z) (uplo : Uplo) (w : GpuRef) (compute_vectors : bool) (reply : nat).

(** The request a message stands for. *)
Definition msg_op (m : SolverMsg) : SolverOp :=
  match m with
  | Op o => o
  | QrFactorize a m n tau ch => BQr {| qr_dtype := F32; qr_a := a; qr_m := m; qr_n := n; qr_tau := tau; qr_reply := ch |}
  | LuFactorize a m n ipiv ch => BLu {| lu_dtype := F32; lu_a := a; lu_m := m; lu_n := n; lu_ipiv := ipiv; lu_reply := ch |}
  | LuSolve lu ipiv b n nrhs trans ch =>
    BLuSolve {| sl_dtype := F32; sl_lu := lu; sl_ipiv := ipiv; sl_b := b; sl_n := n; sl_nrhs := nrhs; sl_trans := trans;
                sl_reply := ch |}
  | Cholesky a n uplo ch => BCholesky {| ch_dtype := F32; ch_a := a; ch_n := n; ch_uplo := uplo; ch_reply := ch |}
  | Svd a m n s u vt ch =>
    BSvd {| sv_dtype := F32; sv_a := a; sv_m := m; sv_n := n; sv_s := s; sv_u := u; sv_vt := vt; sv_reply := ch |}
  | Syevd a n uplo w v ch =>
    BSyevd {| sy_dtype := F32; sy_a := a; sy_n := n; sy_uplo := uplo; sy_w := w; sy_vectors := v; sy_reply := ch |}
  end.
Definition op_reply (o : SolverOp) : nat :=
  match o with
  | BQr r => qr_reply r | BLu r => lu_reply r | BLuSolve r => sl_reply r | BCholesky r => ch_reply r
  | BSvd r => sv_reply r | BSyevd r => sy_reply r | BSygvd r => gv_reply r | BHegvd r => hv_reply r
  | BGetrfBatched r => gb_reply r | BPotrfBatched r => pb_reply r | BGesvdjBatched r => gj_reply r
  | BSparseCholesky r => sc_reply r | BSparseQr r => sq_reply r | BSparseLu r => sp_reply r
  end.
Definition opt_refs (rs : list (option GpuRef)) : list GpuRef := omap id rs.
Definition csr_refs (a : SparseCsrInput) : list GpuRef := [row_ptr a; col_ind a; values a].
Definition op_refs (o : SolverOp) : list GpuRef :=
  match o with
  | BQr r => [qr_a r; qr_tau r]
  | BLu r => [lu_a r; lu_ipiv r]
  | BLuSolve r => [sl_lu r; sl_ipiv r; sl_b r]
  | BCholesky r => [ch_a r]
  | BSvd r => [sv_a r; sv_s r] ++ opt_refs [sv_u r; sv_vt r]
  | BSyevd r => [sy_a r; sy_w r]
  | BSygvd r => [gv_a r; gv_b r; gv_w r]
  | BHegvd r => [hv_a r; hv_b r; hv_w r]
  | BGetrfBatched r => [gb_a r; gb_ipiv r]
  | BPotrfBatched r => [pb_a r]
  | BGesvdjBatched r => [gj_a r; gj_s r] ++ opt_refs [gj_u r; gj_v r]
  | BSparseCholesky r => csr_refs (sc_a r) ++ [sc_b r; sc_x r]
  | BSparseQr r => csr_refs (sq_a r) ++ [sq_b r; sq_x r]
  | BSparseLu r => csr_refs (sp_a r) ++ [sp_b r; sp_x r]
  end.

(** ** Scratch space *)

(** [lwork_bytes] *)
Definition lwork_bytes (d : DType) (lwork : Z) : Z := Z.min (2 ^ 64 - 1) (Z.max 0 lwork * Z.of_nat (size_bytes d)).

(** [upload_pointer_table]: the address of each matrix of a batch. *)
Definition pointer_table (base batch n size : Z) : list Z :=
  let n := Z.max n 0 in
  let stride_bytes := wmul 64 (wmul 64 n n) size in
  (λ i, Z.min (2 ^ 64 - 1) (base + wmul 64 (Z.of_nat i) stride_bytes)) <$> seq 0 (Z.to_nat (Z.max batch 0)).

(** The codes the library wrote: [check_info] and [check_info_array]. The copy or
    the synchronisation can fail. *)
Inductive ReadError : Type := ReadFailed (e : string) | SyncFailed (e : string).
Definition info_error (what op : string) (e : ReadError) : GpuError :=
  match e with
  | ReadFailed e => LibraryError LIB (op +:+ ": read " +:+ what +:+ ": " +:+ e)
  | SyncFailed e => LibraryError LIB (op +:+ ": sync after " +:+ what +:+ ": " +:+ e)
  end.
Definition check_info (op : string) (read : result (list Z) ReadError) : result unit GpuError :=
  match read with
  | Err e => Err (info_error "info" op e)
  | Ok host =>
    let code := default 0%Z (host !! 0) in
    if (code =? 0)%Z then Ok tt else Err (LibraryError LIB (op +:+ ": info=" +:+ pretty code))
  end.
Definition check_info_array (op : string) (n : nat) (read : result (list Z) ReadError) : result unit GpuError :=
  match read with
  | Err e => Err (info_error "info array" op e)
  | Ok info =>
    let host := take n info in
    match list_find (λ c, c ≠ 0%Z) host with
    | Some (idx, code) =>
      Err (LibraryError LIB (op +:+ ": batch[" +:+ pretty (Z.of_nat idx) +:+ "] info=" +:+ pretty code))
    | None => Ok tt
    end
  end.

(** ** Running a request *)

(** The checks before a launch, in order: a buffer is accessed and its [Arc]
    cloned, or an accessed one is unwrapped. *)
Inductive Check : Type :=
  | Access (r : GpuRef)
  | Take (r : GpuRef) (shared : string).
Definition opt_checks (f : GpuRef → list Check) (r : option GpuRef) : list Check := default [] (f <$> r).

(** What is prepared: an object that drops by itself; a call, whose answer is kept
    (the size of the workspace); a call whose status is ignored. *)
Inductive Prep : Type :=
  | Make (err : string → GpuError) (c : ObjCall)
  | Query (err : string → GpuError) (c : list Obj → ObjCall)
  | Ignore (c : list Obj → ObjCall).

Inductive Mutex : Type := MHandle | MWorkspace | MInfo | MSpHandle.
#[global] Instance Mutex_eq_dec : EqDecision Mutex.
Proof. solve_decision. Defined.
(** [lock] by a thread that holds [held]: [None] waits for itself. *)
Definition lock (m : Mutex) (held : list Mutex) : option (list Mutex) :=
  if decide (m ∈ held) then None else Some (m :: held).
Fixpoint lock_all (ms held : list Mutex) : option (list Mutex) :=
  match ms with [] => Some held | m :: ms => lock m held ≫= lock_all ms end.

(** How the closure checks what the library wrote; the array and the singularity
    are the request's own. *)
Inductive InfoCheck : Type :=
  | SharedInfo                  (* [check_info], which locks the shared cell *)
  | OwnInfo (n : nat)           (* [check_info_array] *)
  | Singularity.                (* of a sparse solve *)

Record Plan := {
  p_dtype : DType;
  p_checks : list Check;
  p_prep : list Prep;
  p_workspace : bool;
  p_writes : list GpuRef;
  p_locks : list Mutex;
  p_name : string;                            (* in errors *)
  p_call : Z → Z → Call;                      (* workspace, [lwork] *)
  p_info : InfoCheck;
  p_reply : nat;
}.

Record SolverCtx := {
  lib : Lib;
  workspace : option Z;         (* its length in bytes *)
  sp_handle : bool;
  flying : list (list Obj);     (* the scratch of the kernels in flight *)
  waiting : list nat;           (* replies of the handlers that wait for a mutex they hold *)
}.
Inductive SolverInner : Type := Real (ctx : SolverCtx) | Mock.
Definition SolverCtx_new : SolverCtx := {| lib := Lib_new; workspace := None; sp_handle := false; flying := []; waiting := [] |}.
Definition set_lib (l : Lib) (c : SolverCtx) : SolverCtx :=
  {| lib := l; workspace := workspace c; sp_handle := sp_handle c; flying := flying c; waiting := waiting c |}.
Definition set_workspace (w : option Z) (c : SolverCtx) : SolverCtx :=
  {| lib := lib c; workspace := w; sp_handle := sp_handle c; flying := flying c; waiting := waiting c |}.
Definition set_sp_handle (c : SolverCtx) : SolverCtx :=
  {| lib := lib c; workspace := workspace c; sp_handle := true; flying := flying c; waiting := waiting c |}.
Definition set_flying (f : list (list Obj)) (c : SolverCtx) : SolverCtx :=
  {| lib := lib c; workspace := workspace c; sp_handle := sp_handle c; flying := f; waiting := waiting c |}.
Definition set_waiting (w : list nat) (c : SolverCtx) : SolverCtx :=
  {| lib := lib c; workspace := workspace c; sp_handle := sp_handle c; flying := flying c; waiting := w |}.

Definition lib_error (e : string) : GpuError := LibraryError LIB e.

Section actor.
Context (lib_answer : nat → ObjCall → result Z string) (alloc : Z → option string) (answer : Call → option string).
(** The info codes that are read back after a call, and the singularity of a sparse
    solve; the address of a buffer. *)
Context (read_info : Call → result (list Z) ReadError) (singularity : Call → Z) (address : slice_id → Z).

Abbreviation lact := (act Lib KEff).
Abbreviation cact := (act SolverCtx KEff).
Abbreviation kact := (act (SolverInner * Gpu) KEff).

Definition on_lib {A} (m : lact A) : cact A := zoom lib set_lib m.
Definition get_ctx (c0 : SolverCtx) : kact SolverCtx := s ← get; mret match s.1 with Real c => c | Mock => c0 end.
Definition on_ctx {A} (m : cact A) : kact A :=
  zoom (λ s : SolverInner * Gpu, match s.1 with Real c => c | Mock => SolverCtx_new end) (λ c s, (Real c, s.2)) m.

Fixpoint run_checks (cs : list Check) (held : list slice_id) (reply : nat) (k : list slice_id → kact unit) : kact unit :=
  match cs with
  | [] => k held
  | Access r :: cs =>
    g ← get_gpu;
    match access r (dev g) with
    | Err e => emit (Reply reply (Err e));; drop_clones held
    | Ok sl => on_gpu (λ g, set_heap (arc_clone sl (heap g)) g);; run_checks cs (held ++ [sl]) reply k
    end
  | Take r shared :: cs =>
    unwrap (slice r) ≫= λ b : bool,
    if b then run_checks cs held reply k
    else emit (Reply reply (Err (Unrecoverable shared)));; drop_clones (remove_one (slice r) held)
  end.

Fixpoint prepare {B} (ps : list Prep) (made : list Obj) (n : Z) (k : list Obj → Z → lact (result B GpuError)) :
    lact (result B GpuError) :=
  match ps with
  | [] => k (rev made) n
  | Make err c :: ps => r ← create lib_answer c; or_cleanup r err made (λ o, prepare ps (o :: made) n k)
  | Query err c :: ps => r ← run_call lib_answer (c made); or_cleanup r err made (λ n, prepare ps made n k)
  | Ignore c :: ps => run_call lib_answer (c made);; prepare ps made n k
  end.

Definition ensure_workspace_bytes (needed : Z) : cact (result unit GpuError) :=
  c ← get;
  if (needed <=? default 0 (workspace c))%Z then mret (Ok tt)
  else
    match alloc needed with
    | Some e => mret (Err (OutOfMemory ("solver workspace (" +:+ pretty needed +:+ "B): " +:+ e)))
    | None => put (set_workspace (Some needed) c);; mret (Ok tt)
    end.

(** What the closure makes of the codes, the call being enqueued. [None]: it waits. *)
Definition check_result (p : Plan) (held : list Mutex) (c : Call) : option (result unit GpuError) :=
  match p_info p with
  | SharedInfo => _ ← lock MInfo held; Some (check_info (p_name p) (read_info c))
  | OwnInfo n => Some (check_info_array (p_name p) n (read_info c))
  | Singularity =>
    Some (if (0 <=? singularity c)%Z
          then Err (LibraryError LIB (p_name p +:+ ": singularity at row " +:+ pretty (singularity c))) else Ok tt)
  end.

(** Whether the check has waited for the stream. *)
Definition synchronized (p : Plan) (c : Call) : bool :=
  match p_info p with Singularity => true | _ => is_ok (read_info c) end.

(** The enqueue closure: what it returns, a panic, or that it waits for ever. *)
Inductive Closure : Type := Returned (r : result nat GpuError) | ClosurePanic (msg : string) | Waits.
Definition enqueue (p : Plan) (os : list Obj) (lwork : Z) : kact Closure :=
  c ← get_ctx SolverCtx_new;
  match lock_all (p_locks p) [] with
  | None => mret Waits
  | Some held =>
    if p_workspace p && negb (bool_decide (is_Some (workspace c))) then mret (ClosurePanic "workspace ensured")
    else
      let call := p_call p (default 0%Z (workspace c)) lwork in
      on_ctx (on_lib (modify (log (Ran {| oname := p_name p; ouses := os; oargs := [] |}))));;
      r ← lib_call answer (λ e, LibraryError LIB (p_name p +:+ ": " +:+ e)) call;
      match r with
      | Err e => mret (Returned (Err e))
      | Ok i =>
        match check_result p held call with
        | None => mret Waits
        | Some checked =>
          (if synchronized p call then on_gpu (set_queue []) else skip);;
          mret (Returned (match checked with Ok _ => Ok i | Err e => Err e end))
        end
      end
  end.

(** From the scratch on, the targets being owned. *)
Definition launch (p : Plan) (clones : list slice_id) : kact unit :=
  r ← on_ctx (on_lib (prepare (p_prep p) [] 0 (λ os n, mret (Ok (os, n)))));
  match r with
  | Err e => emit (Reply (p_reply p) (Err e));; drop_clones clones
  | Ok (os, lwork) =>
    w ← (if p_workspace p then on_ctx (ensure_workspace_bytes (lwork_bytes (p_dtype p) lwork)) else mret (Ok tt));
    match w with
    | Err e => on_ctx (on_lib (destroys (rev os)));; emit (Reply (p_reply p) (Err e));; drop_clones clones
    | Ok _ =>
      emits (RecordWrite <$> (slice <$> p_writes p));;
      x ← enqueue p os lwork;
      match x with
      | Waits => on_ctx (modify (λ c, set_waiting (p_reply p :: waiting c) c))
      | ClosurePanic msg =>
        on_ctx (on_lib (destroys (rev os)));; drop_clones clones;; emits [DropSender (p_reply p); Panicked msg]
      | Returned (Err e) => on_ctx (on_lib (destroys (rev os)));; run_kernel LIB Done (p_reply p) clones (mret (Err e))
      | Returned (Ok i) =>
        on_ctx (modify (λ c, set_flying (os :: flying c) c));; run_kernel LIB Done (p_reply p) clones (mret (Ok i))
      end
    end
  end.

Definition run_plan (p : Plan) : kact unit := run_checks (p_checks p) [] (p_reply p) (launch p).

(** *** The plans *)

Definition prefix (d : DType) : string := match d with F64 => "D" | _ => "S" end.
Definition dn (d : DType) (op : string) : string := "cusolverDn" +:+ prefix d +:+ op.
Definition buf (r : GpuRef) : Arg := ADev (slice r).
Definition opt_buf (r : option GpuRef) : Arg := match r with Some r => buf r | None => ATag "null" end.
Definition eig_mode (vectors : bool) : string :=
  if vectors then "CUSOLVER_EIG_MODE_VECTOR" else "CUSOLVER_EIG_MODE_NOVECTOR".
Definition shared (who what : string) : string := who +:+ " " +:+ what +:+ " has multiple live references".
(** The query of the size of the workspace of [op]. *)
Definition size_query (d : DType) (op : string) (args : list Arg) : Prep :=
  Query (λ e, lib_error (op +:+ "_bufferSize: " +:+ e))
    (λ os, {| oname := dn d (op +:+ "_bufferSize"); ouses := os; oargs := args |}).
Definition work_args (ws lwork : Z) : list Arg := [ATag "workspace"; AInt ws; AInt lwork].
Definition info_arg : Arg := ATag "info".
(** A dense factorisation with a workspace and the shared info cell. *)
Definition dense (d : DType) (checks : list Check) (op : string) (query : list Arg) (writes : list GpuRef)
    (args : Z → Z → list Arg) (reply : nat) : Plan := {|
  p_dtype := d; p_checks := checks; p_prep := [size_query d op query]; p_workspace := true; p_writes := writes;
  p_locks := [MHandle; MWorkspace; MInfo]; p_name := op;
  p_call := λ ws lwork, {| cname := dn d op; cargs := args ws lwork |}; p_info := SharedInfo; p_reply := reply |}.

Definition run_qr (r : QrRequest) : Plan :=
  let m := qr_m r in let n := qr_n r in
  dense (qr_dtype r)
    [Access (qr_a r); Access (qr_tau r); Take (qr_a r) (shared "QR" "a"); Take (qr_tau r) (shared "QR" "tau")]
    "geqrf" [AInt m; AInt n; buf (qr_a r); AInt m] [qr_a r; qr_tau r]
    (λ ws lwork, [AInt m; AInt n; buf (qr_a r); AInt m; buf (qr_tau r)] ++ work_args ws lwork ++ [info_arg]) (qr_reply r).
Definition run_lu (r : LuRequest) : Plan :=
  let m := lu_m r in let n := lu_n r in
  dense (lu_dtype r)
    [Access (lu_a r); Access (lu_ipiv r); Take (lu_a r) (shared "LU" "a"); Take (lu_ipiv r) (shared "LU" "ipiv")]
    "getrf" [AInt m; AInt n; buf (lu_a r); AInt m] [lu_a r; lu_ipiv r]
    (λ ws _, [AInt m; AInt n; buf (lu_a r); AInt m; ATag "workspace"; AInt ws; buf (lu_ipiv r); info_arg]) (lu_reply r).
Definition run_lu_solve (r : LuSolveRequest) : Plan :=
  let d := sl_dtype r in {|
  p_dtype := d;
  p_checks := [Access (sl_lu r); Access (sl_ipiv r); Access (sl_b r); Take (sl_b r) (shared "LU" "b")];
  p_prep := []; p_workspace := false; p_writes := [sl_b r]; p_locks := [MHandle; MInfo]; p_name := "getrs";
  p_call := λ _ _, {| cname := dn d "getrs"; cargs :=
    [ATag (if sl_trans r then "CUBLAS_OP_T" else "CUBLAS_OP_N"); AInt (sl_n r); AInt (sl_nrhs r); buf (sl_lu r);
     AInt (sl_n r); buf (sl_ipiv r); buf (sl_b r); AInt (sl_n r); info_arg] |};
  p_info := SharedInfo; p_reply := sl_reply r |}.
Definition run_cholesky (r : CholeskyRequest) : Plan :=
  let n := ch_n r in let fill := ATag (as_cusolver_fill (ch_uplo r)) in
  dense (ch_dtype r) [Access (ch_a r); Take (ch_a r) (shared "Cholesky" "a")]
    "potrf" [fill; AInt n; buf (ch_a r); AInt n] [ch_a r]
    (λ ws lwork, [fill; AInt n; buf (ch_a r); AInt n] ++ work_args ws lwork ++ [info_arg]) (ch_reply r).
Definition run_svd (r : SvdRequest) : Plan :=
  let m := sv_m r in let n := sv_n r in
  let job (x : option GpuRef) := ATag (if x then "A" else "N") in
  dense (sv_dtype r)
    ([Access (sv_a r); Access (sv_s r); Take (sv_a r) (shared "SVD" "a"); Take (sv_s r) (shared "SVD" "s")] ++
     opt_checks (λ u, [Access u]) (sv_u r) ++ opt_checks (λ v, [Access v]) (sv_vt r) ++
     opt_checks (λ u, [Take u (shared "SVD" "u")]) (sv_u r) ++ opt_checks (λ v, [Take v (shared "SVD" "vt")]) (sv_vt r))
    "gesvd" [AInt m; AInt n] ([sv_a r; sv_s r] ++ opt_refs [sv_u r; sv_vt r])
    (λ ws lwork, [job (sv_u r); job (sv_vt r); AInt m; AInt n; buf (sv_a r); AInt m; buf (sv_s r); opt_buf (sv_u r);
      AInt m; opt_buf (sv_vt r); AInt n] ++ work_args ws lwork ++ [ATag "null"; info_arg]) (sv_reply r).
Definition run_syevd (r : SyevdRequest) : Plan :=
  let n := sy_n r in
  let head := [ATag (eig_mode (sy_vectors r)); ATag (as_cusolver_fill (sy_uplo r)); AInt n; buf (sy_a r); AInt n; buf (sy_w r)] in
  dense (sy_dtype r)
    [Access (sy_a r); Access (sy_w r); Take (sy_a r) (shared "Syevd" "a"); Take (sy_w r) (shared "Syevd" "w")]
    "syevd" head [sy_a r; sy_w r] (λ ws lwork, head ++ work_args ws lwork ++ [info_arg]) (sy_reply r).
Definition run_sygvd (d : DType) (a b : GpuRef) (n : Z) (itype : EigType) (uplo : Uplo) (w : GpuRef) (vectors : bool)
    (reply : nat) : Plan :=
  let head := [ATag (as_cusolver itype); ATag (eig_mode vectors); ATag (as_cusolver_fill uplo); AInt n; buf a; AInt n;
    buf b; AInt n; buf w] in
  dense d
    [Access a; Access b; Access w; Take a (shared "Sygvd" "a"); Take b (shared "Sygvd" "b"); Take w (shared "Sygvd" "w")]
    "sygvd" head [a; b; w] (λ ws lwork, head ++ work_args ws lwork ++ [info_arg]) reply.

(** The array of the codes of a batch, and the table of its matrices. *)
Definition info_alloc (who : string) (batch : Z) : Prep :=
  Make (λ e, OutOfMemory (who +:+ " info: " +:+ e)) {| oname := "alloc_zeros"; ouses := []; oargs := [AInt (Z.max batch 1)] |}.
Definition upload_pointer_table (d : DType) (a : GpuRef) (batch n : Z) : list Prep :=
  let count := Z.max batch 0 in
  [Make (λ e, OutOfMemory ("ptr table (" +:+ pretty count +:+ "): " +:+ e))
     {| oname := "alloc_zeros"; ouses := []; oargs := [AInt (Z.max count 1)] |};
   Query (λ e, lib_error ("upload ptr table: " +:+ e))
     (λ os, {| oname := "memcpy_htod"; ouses := os;
               oargs := AInt <$> pointer_table (address (slice a)) batch n (Z.of_nat (size_bytes d)) |})].

Definition run_getrf_batched (r : GetrfBatchedRequest) : Plan :=
  let d := gb_dtype r in {|
  p_dtype := d;
  p_checks := [Access (gb_a r); Access (gb_ipiv r); Take (gb_a r) (shared "GetrfBatched" "a");
               Take (gb_ipiv r) (shared "GetrfBatched" "ipiv")];
  p_prep := [Make (λ e, lib_error ("CudaBlas::new: " +:+ e)) {| oname := "cublasCreate"; ouses := []; oargs := [] |}] ++
    upload_pointer_table d (gb_a r) (gb_batch r) (gb_n r) ++ [info_alloc "GetrfBatched" (gb_batch r)];
  p_workspace := false; p_writes := [gb_a r; gb_ipiv r]; p_locks := []; p_name := "getrfBatched";
  p_call := λ _ _, {| cname := "cublas" +:+ prefix d +:+ "getrfBatched"; cargs :=
    [AInt (gb_n r); ATag "table"; buf (gb_a r); AInt (gb_n r); buf (gb_ipiv r); info_arg; AInt (gb_batch r)] |};
  p_info := OwnInfo (Z.to_nat (Z.max (gb_batch r) 0)); p_reply := gb_reply r |}.
Definition run_potrf_batched (r : PotrfBatchedRequest) : Plan :=
  let d := pb_dtype r in {|
  p_dtype := d;
  p_checks := [Access (pb_a r); Take (pb_a r) (shared "PotrfBatched" "a")];
  p_prep := upload_pointer_table d (pb_a r) (pb_batch r) (pb_n r) ++ [info_alloc "PotrfBatched" (pb_batch r)];
  p_workspace := false; p_writes := [pb_a r]; p_locks := [MHandle]; p_name := "potrfBatched";
  p_call := λ _ _, {| cname := dn d "potrfBatched"; cargs :=
    [ATag (as_cusolver_fill (pb_uplo r)); AInt (pb_n r); ATag "table"; buf (pb_a r); AInt (pb_n r); info_arg;
     AInt (pb_batch r)] |};
  p_info := OwnInfo (Z.to_nat (Z.max (pb_batch r) 0)); p_reply := pb_reply r |}.
Definition run_gesvdj_batched (r : GesvdjBatchedRequest) : Plan :=
  let d := gj_dtype r in let m := gj_m r in let n := gj_n r in
  let jobz := ATag (eig_mode (match gj_u r, gj_v r with Some _, Some _ => true | _, _ => false end)) in
  let head := [jobz; AInt m; AInt n; buf (gj_a r); AInt m; buf (gj_s r); opt_buf (gj_u r); AInt m; opt_buf (gj_v r); AInt n] in
  {|
  p_dtype := d;
  p_checks := [Access (gj_a r); Access (gj_s r); Take (gj_a r) (shared "GesvdjBatched" "a");
               Take (gj_s r) (shared "GesvdjBatched" "s")] ++
    opt_checks (λ u, [Access u; Take u (shared "GesvdjBatched" "u")]) (gj_u r) ++
    opt_checks (λ v, [Access v; Take v (shared "GesvdjBatched" "v")]) (gj_v r);
  p_prep := [Make (λ e, lib_error ("CreateGesvdjInfo: " +:+ e)) {| oname := "cusolverDnCreateGesvdjInfo"; ouses := []; oargs := [] |};
             info_alloc "GesvdjBatched" (gj_batch r);
             size_query d "gesvdjBatched" (head ++ [AInt (gj_batch r)])];
  p_workspace := true; p_writes := [gj_a r; gj_s r] ++ opt_refs [gj_u r; gj_v r]; p_locks := [MHandle; MWorkspace];
  p_name := "gesvdjBatched";
  p_call := λ ws lwork, {| cname := dn d "gesvdjBatched"; cargs := head ++ work_args ws lwork ++ [info_arg; AInt (gj_batch r)] |};
  p_info := OwnInfo (Z.to_nat (Z.max (gj_batch r) 0)); p_reply := gj_reply r |}.

Definition algo_name (a : SparseAlgo) : string := match a with ACholesky => "csrlsvchol" | AQr => "csrlsvqr" end.
Definition make_descr : list Prep :=
  [Make (λ e, lib_error ("cusparseCreateMatDescr: " +:+ e)) {| oname := "cusparseCreateMatDescr"; ouses := []; oargs := [] |};
   Ignore (λ os, {| oname := "cusparseSetMatType"; ouses := os; oargs := [ATag "CUSPARSE_MATRIX_TYPE_GENERAL"] |});
   Ignore (λ os, {| oname := "cusparseSetMatIndexBase"; ouses := os; oargs := [ATag "CUSPARSE_INDEX_BASE_ZERO"] |})].
(** [run_csrlsv] after the handle; the tolerance is its bits. *)
Definition csrlsv_plan (algo : SparseAlgo) (d : DType) (a : SparseCsrInput) (b x : GpuRef) (tol reorder : Z) (reply : nat) : Plan := {|
  p_dtype := d;
  p_checks := (Access <$> csr_refs a ++ [b; x]) ++ [Take x (shared "Sparse" "x")];
  p_prep := make_descr; p_workspace := false; p_writes := [x]; p_locks := [MSpHandle]; p_name := algo_name algo;
  p_call := λ _ _, {| cname := "cusolverSp" +:+ prefix d +:+ algo_name algo; cargs :=
    [AInt (csr_m a); AInt (csr_nnz a); ATag "descr"; buf (values a); buf (row_ptr a); buf (col_ind a); buf b; AInt tol;
     AInt reorder; buf x] |};
  p_info := Singularity; p_reply := reply |}.

(** What creating a sparse handle answers. *)
Context (sp_create : option string).
Definition ensure_sp_handle : cact (result unit GpuError) :=
  c ← get;
  if sp_handle c then mret (Ok tt)
  else match sp_create with
  | Some e => mret (Err (lib_error ("SpHandle::new: " +:+ e)))
  | None => put (set_sp_handle c);; mret (Ok tt)
  end.
Definition run_csrlsv (algo : SparseAlgo) (d : DType) (a : SparseCsrInput) (b x : GpuRef) (tol reorder : Z) (reply : nat) : kact unit :=
  r ← on_ctx ensure_sp_handle;
  match r with
  | Err e => emit (Reply reply (Err e))
  | Ok _ => run_plan (csrlsv_plan algo d a b x tol reorder reply)
  end.
Definition sparse_lu (r : SparseLuRequest) : kact unit :=
  emit (Reply (sp_reply r) (Err (lib_error "csrlsvlu: cuSOLVER only ships a host-side LU; pending host bridge"))).

(** [SolverDispatch::dispatch] *)
Definition dispatch (o : SolverOp) : kact unit :=
  match o with
  | BQr r => run_plan (run_qr r)
  | BLu r => run_plan (run_lu r)
  | BLuSolve r => run_plan (run_lu_solve r)
  | BCholesky r => run_plan (run_cholesky r)
  | BSvd r => run_plan (run_svd r)
  | BSyevd r => run_plan (run_syevd r)
  | BSygvd r => run_plan (run_sygvd (gv_dtype r) (gv_a r) (gv_b r) (gv_n r) (gv_itype r) (gv_uplo r) (gv_w r) (gv_vectors r) (gv_reply r))
  | BHegvd r => run_plan (run_sygvd (hv_dtype r) (hv_a r) (hv_b r) (hv_n r) (hv_itype r) (hv_uplo r) (hv_w r) (hv_vectors r) (hv_reply r))
  | BGetrfBatched r => run_plan (run_getrf_batched r)
  | BPotrfBatched r => run_plan (run_potrf_batched r)
  | BGesvdjBatched r => run_plan (run_gesvdj_batched r)
  | BSparseCholesky r =>
    run_csrlsv ACholesky (sc_dtype r) (sc_a r) (sc_b r) (sc_x r) (sc_tol r) (sc_reorder r) (sc_reply r)
  | BSparseQr r => run_csrlsv AQr (sq_dtype r) (sq_a r) (sq_b r) (sq_x r) (sq_tol r) (sq_reorder r) (sq_reply r)
  | BSparseLu r => sparse_lu r
  end.
Definition dispatch_msg (m : SolverMsg) : kact unit := dispatch (msg_op m).
Definition solver_mock : GpuError := Unrecoverable "SolverActor in mock mode".
(** [dispatch_mock] of every request answers the same as [mock_reply]. *)
Definition dispatch_mock (o : SolverOp) : kact unit := emit (Reply (op_reply o) (Err solver_mock)).
Definition mock_reply (m : SolverMsg) : kact unit := dispatch_mock (msg_op m).

(** [SolverActor::handle] *)
Definition solver_handle (m : SolverMsg) : kact unit :=
  s ← get; match s.1 with Mock => mock_reply m | Real _ => dispatch_msg m end.

#[global] Instance solver_actor : KernelActor (S := SolverInner) SolverMsg := {|
  operands m := op_refs (msg_op m);
  reply_of m := op_reply (msg_op m);
  khandle := solver_handle;
|}.

(** [SolverActor::props], by what creating the handle and the info cell answer. *)
Definition solver_props (create info_cell : result unit string) : result SolverInner string :=
  match create, info_cell with
  | Err e, _ => Err ("ContextPoisoned: DnHandle::new failed: " +:+ e)
  | Ok _, Err e => Err ("ContextPoisoned: alloc info: " +:+ e)
  | Ok _, Ok _ => Ok (Real SolverCtx_new)
  end.
Definition solver_mock_props : SolverInner := Mock.
End actor.

(** ** Batches *)

(** A batch is cut into its matrices: when [batch] square matrices of order [n]
    fit the address space from the base of the buffer on, the uploaded table has one
    address per matrix, each matrix lies inside the buffer, and matrices do not
    overlap.  A negative or zero batch has an empty table. *)
Theorem pointer_table_cuts (base batch n size : Z) :
  (0 ≤ base)%Z → (0 ≤ n)%Z → (0 < size)%Z → (base + Z.max batch 0 * (n * n * size) < 2 ^ 64)%Z →
  length (pointer_table base batch n size) = Z.to_nat batch ∧
  (∀ (i : nat) p, pointer_table base batch n size !! i = Some p →
    (p = base + Z.of_nat i * (n * n * size) ∧ base ≤ p ∧ p + n * n * size ≤ base + batch * (n * n * size))%Z) ∧
  ∀ (i j : nat) p q, i < j → pointer_table base batch n size !! i = Some p → pointer_table base batch n size !! j = Some q →
    (p + n * n * size ≤ q)%Z.
Proof.
  intros Hb Hn Hs Hfit. set (st := (n * n * size)%Z) in *. assert (Hst : (0 ≤ st)%Z) by (unfold st; nia).
  assert (Hlook : ∀ (i : nat) p, pointer_table base batch n size !! i = Some p →
    p = (base + Z.of_nat i * st)%Z ∧ (Z.of_nat i < batch)%Z).
  { intros i p. unfold pointer_table. rewrite list_lookup_fmap. rewrite Z.max_l by done.
    destruct (_ !! i) as [x|] eqn:Hi; [|done]. apply lookup_seq in Hi as [-> Hi]. cbn [Nat.add]. intros [= <-].
    assert (Hib : (Z.of_nat i < batch)%Z) by lia. split; [|done].
    assert (Hle : (st ≤ Z.max batch 0 * st)%Z) by nia.
    assert (Hie : (Z.of_nat i * st ≤ Z.max batch 0 * st)%Z) by nia.
    assert (Hnn : (n * n ≤ st)%Z) by (unfold st; nia).
    unfold wmul. rewrite (wrap_small 64 (n * n)) by (unfold in_width; nia). fold st.
    rewrite (wrap_small 64 st), wrap_small by (unfold in_width; lia). lia. }
  split; [by unfold pointer_table; rewrite length_fmap, length_seq; lia|]. split.
  - intros i p Hp. destruct (Hlook i p Hp) as [-> Hi]. nia.
  - intros i j p q Hij Hp Hq. destruct (Hlook i p Hp) as [-> _], (Hlook j q Hq) as [-> _]. nia.
Qed.
Lemma pointer_table_cuts_witness :
  pointer_table 4096 3 2 8 = [4096; 4128; 4160]%Z ∧ (4096 + 2 * 2 * 8 ≤ 4128)%Z.
Proof.
  split; [vm_compute; reflexivity|]. destruct (pointer_table_cuts 4096 3 2 8) as (_ & _ & H); [lia..|].
  apply (H 0 1 _ _); [lia|vm_compute; reflexivity|vm_compute; reflexivity].
Defined.

(** A buffer near the end of the address space is clamped, never wrapped. *)
Example pointer_table_clamps : pointer_table (2 ^ 64 - 8) 2 2 8 = [2 ^ 64 - 8; 2 ^ 64 - 1]%Z.
Proof. vm_compute. reflexivity. Qed.

(** The workspace is never shrunk, and is as large as what is needed when it is granted. *)
Lemma solver_workspace_spec alloc needed c :
  awp (ensure_workspace_bytes alloc needed) (λ r c' es, es = [] ∧
    (default 0 (workspace c) ≤ default 0 (workspace c'))%Z ∧ (r = Ok tt → (needed ≤ default 0 (workspace c'))%Z) ∧
    (is_ok r = false → c' = c)) c.
Proof.
  unfold ensure_workspace_bytes. awp_steps. destruct (Z.leb_spec needed (default 0 (workspace c))%Z).
  - awp_steps. by split_and!.
  - destruct (alloc needed); awp_steps; cbn; split_and!; try done; lia.
Qed.
(** A request that needs none leaves the actor without one, and its closure panics. *)
Example no_workspace : (exec (ensure_workspace_bytes (λ _, None) 0) SolverCtx_new).1 = SolverCtx_new.
Proof. reflexivity. Qed.

(** ** The checks *)

(** Buffers are accessed in order, each keeping its clone, and the first that is
    taken is still owned by the message. *)
Lemma run_checks_go rs held t msg cs reply k (s : SolverInner) g g0 :
  dev g = dev g0 → refs g = refs g0 → queue g = queue g0 → tasks g = tasks g0 →
  (∀ sl, strong_count (heap g) sl = strong_count (heap g0) sl + count sl held) →
  1 ≤ strong_count (heap g0) (slice t) → slice t ∈ held ∨ t ∈ rs →
  awp (run_checks ((Access <$> rs) ++ Take t msg :: cs) held reply k) (λ _ s' es,
    s'.1 = s ∧ kpost reply g0 s'.2 es ∧
    es = [Reply reply (Err match access_list (dev g0) rs with Err e => e | Ok _ => Unrecoverable msg end)]) (s, g).
Proof.
  revert held g. induction rs as [|r rs IH]; intros held g Hd Hr Hq Ht Hc Hone Hin; cbn [fmap list_fmap app run_checks access_list].
  - destruct Hin as [Hin|Hin]; [|by apply elem_of_nil in Hin]. pose proof (count_elem _ _ Hin) as Hh.
    unfold unwrap, get_gpu, on_gpu, try_unwrap, drop_clones, on_gpu. awp_steps. cbn [fst snd].
    rewrite decide_False by (rewrite Hc; lia). awp_steps. cbn [fst snd]. split_and!; [done| |done].
    split; [done|left]. split_and!; [done|done| |done]. intros sl. cbn. rewrite drop_all_count.
    pose proof (remove_one_count (slice t) held sl Hin).
    destruct (decide (slice t = sl)) as [->|Hne].
    + rewrite strong_count_drop, Hc. lia.
    + rewrite strong_count_drop_ne, Hc by done. lia.
  - unfold get_gpu. awp_steps. cbn [fst snd]. rewrite Hd. destruct (access r (dev g0)) as [sl|e] eqn:Ha.
    + assert (sl = slice r) as ->. { destruct (dev g0); [|done]. by apply access_Ok in Ha as (_ & _ & ->). }
      unfold on_gpu. awp_steps. cbn [fst snd]. destruct (access_list (dev g0) rs) as [l|e] eqn:Hl.
      all: eapply awp_mono, (IH (held ++ [slice r]));
        [cbn; intros _ s' es (? & ? & ->); by split_and!|done..| |done|].
      all: try (intros sl; cbn; rewrite count_app, count_cons; case_decide as Heq;
        [subst; rewrite strong_count_clone, Hc; cbn; lia|rewrite strong_count_clone_ne, Hc by done; cbn; lia]).
      all: destruct Hin as [Hin|Hin]; [left; set_solver|]; apply elem_of_cons in Hin as [->|Hin]; [left; set_solver|by right].
    + unfold drop_clones, on_gpu. awp_steps. cbn [fst snd]. split_and!; [done| |done]. split; [done|left].
      split_and!; [done|done| |done]. intros sl. cbn. rewrite drop_all_count, Hc. lia.
Qed.

Lemma run_checks_shared rs t msg cs reply k (s : SolverInner) g :
  Forall (holds (heap g)) rs → t ∈ rs →
  awp (run_checks ((Access <$> rs) ++ Take t msg :: cs) [] reply k) (λ _ s' es,
    s'.1 = s ∧ kpost reply g s'.2 es ∧
    es = [Reply reply (Err match access_list (dev g) rs with Err e => e | Ok _ => Unrecoverable msg end)]) (s, g).
Proof.
  intros Hh Ht. apply (run_checks_go rs [] t msg cs reply k s g g); try done; [|by right].
  rewrite Forall_forall in Hh. by apply Hh.
Qed.

(** ** What the actor answers *)

(** The buffers a request accesses before it takes its first target, and the
    message when that is shared; none when it has no plan. *)
Definition first_take (o : SolverOp) : option (list GpuRef * string) :=
  match o with
  | BQr r => Some ([qr_a r; qr_tau r], shared "QR" "a")
  | BLu r => Some ([lu_a r; lu_ipiv r], shared "LU" "a")
  | BLuSolve r => Some ([sl_lu r; sl_ipiv r; sl_b r], shared "LU" "b")
  | BCholesky r => Some ([ch_a r], shared "Cholesky" "a")
  | BSvd r => Some ([sv_a r; sv_s r], shared "SVD" "a")
  | BSyevd r => Some ([sy_a r; sy_w r], shared "Syevd" "a")
  | BSygvd r => Some ([gv_a r; gv_b r; gv_w r], shared "Sygvd" "a")
  | BHegvd r => Some ([hv_a r; hv_b r; hv_w r], shared "Sygvd" "a")
  | BGetrfBatched r => Some ([gb_a r; gb_ipiv r], shared "GetrfBatched" "a")
  | BPotrfBatched r => Some ([pb_a r], shared "PotrfBatched" "a")
  | BGesvdjBatched r => Some ([gj_a r; gj_s r], shared "GesvdjBatched" "a")
  | BSparseCholesky r => Some (csr_refs (sc_a r) ++ [sc_b r; sc_x r], shared "Sparse" "x")
  | BSparseQr r => Some (csr_refs (sq_a r) ++ [sq_b r; sq_x r], shared "Sparse" "x")
  | BSparseLu _ => None
  end.
Definition is_sparse (o : SolverOp) : bool :=
  match o with BSparseCholesky _ | BSparseQr _ => true | _ => false end.

Section outcome.
Context (lib_answer : nat → ObjCall → result Z string) (alloc : Z → option string) (answer : Call → option string).
Context (read_info : Call → result (list Z) ReadError) (singularity : Call → Z) (address : slice_id → Z).
Context (sp_create : option string).

Abbreviation shandle := (solver_handle lib_answer alloc answer read_info singularity address sp_create).

(** The answer to a request, and the actor after it. *)
Definition solver_answer (st : SolverInner) (d : option DeviceState) (o : SolverOp) : GpuError :=
  let refusal :=
    match first_take o with
    | Some (rs, msg) => match access_list d rs with Err e => e | Ok _ => Unrecoverable msg end
    | None => lib_error "csrlsvlu: cuSOLVER only ships a host-side LU; pending host bridge"
    end in
  match st with
  | Mock => solver_mock
  | Real c =>
    if is_sparse o && negb (sp_handle c)
    then match sp_create with Some e => lib_error ("SpHandle::new: " +:+ e) | None => refusal end
    else refusal
  end.
Definition solver_after (st : SolverInner) (o : SolverOp) : SolverInner :=
  match st with
  | Mock => Mock
  | Real c =>
    if is_sparse o && negb (sp_handle c)
    then match sp_create with Some _ => Real c | None => Real (set_sp_handle c) end
    else Real c
  end.

Lemma holds_sub h (rs rs' : list GpuRef) : rs ⊆ rs' → Forall (holds h) rs' → Forall (holds h) rs.
Proof. rewrite !Forall_forall. set_solver. Qed.

Lemma run_csrlsv_spec algo d a b x tol reorder ch c g :
  Forall (holds (heap g)) (csr_refs a ++ [b; x]) →
  awp (run_csrlsv lib_answer alloc answer read_info singularity sp_create algo d a b x tol reorder ch) (λ _ s' es,
    kpost ch g s'.2 es ∧
    let refusal := match access_list (dev g) (csr_refs a ++ [b; x]) with Err e => e | Ok _ => Unrecoverable (shared "Sparse" "x") end in
    if negb (sp_handle c) then
      match sp_create with
      | Some e => s'.1 = Real c ∧ es = [Reply ch (Err (lib_error ("SpHandle::new: " +:+ e)))]
      | None => s'.1 = Real (set_sp_handle c) ∧ es = [Reply ch (Err refusal)]
      end
    else s'.1 = Real c ∧ es = [Reply ch (Err refusal)]) (Real c, g).
Proof.
  intros Hh. unfold run_csrlsv, on_ctx, ensure_sp_handle. awp_steps. apply awp_zoom. awp_steps. cbn [fst].
  assert (Hrun : ∀ c', awp (run_plan lib_answer alloc answer read_info singularity (csrlsv_plan algo d a b x tol reorder ch)) (λ _ s' es,
    kpost ch g s'.2 es ∧ s'.1 = Real c' ∧ es = [Reply ch (Err match access_list (dev g) (csr_refs a ++ [b; x]) with
      Err e => e | Ok _ => Unrecoverable (shared "Sparse" "x") end)]) (Real c', g)).
  { intros c'. unfold run_plan. cbn [csrlsv_plan p_checks p_reply].
    eapply awp_mono, run_checks_shared; [|done|set_solver]. cbn. tauto. }
  destruct (sp_handle c); cbn [negb].
  - awp_steps. cbn [fst]. eapply awp_mono, (Hrun c). tauto.
  - destruct sp_create as [e|]; awp_steps; cbn [fst].
    + split; [split; [done|by left]|done].
    + eapply awp_mono, (Hrun (set_sp_handle c)). tauto.
Qed.

(** A plan whose checks start so answers the same. *)
Lemma run_plan_shared p rs t msg cs ch c g :
  p_reply p = ch → p_checks p = (Access <$> rs) ++ Take t msg :: cs →
  Forall (holds (heap g)) rs → t ∈ rs →
  awp (run_plan lib_answer alloc answer read_info singularity p) (λ _ s' es,
    kpost ch g s'.2 es ∧ s'.1 = Real c ∧
    es = [Reply ch (Err match access_list (dev g) rs with Err e => e | Ok _ => Unrecoverable msg end)]) (Real c, g).
Proof.
  intros Hr Hp Hh Ht. unfold run_plan. rewrite Hp, Hr. eapply awp_mono, run_checks_shared; [|done..]. cbn. tauto.
Qed.

Lemma solver_handle_spec m (st : SolverInner) g :
  Forall (holds (heap g)) (op_refs (msg_op m)) →
  awp (shandle m) (λ _ s' es, kpost (op_reply (msg_op m)) g s'.2 es ∧ s'.1 = solver_after st (msg_op m) ∧
    es = [Reply (op_reply (msg_op m)) (Err (solver_answer st (dev g) (msg_op m)))]) (st, g).
Proof.
  intros Hh. unfold solver_handle. awp_steps. cbn [fst]. destruct st as [c|].
  2:{ unfold mock_reply, dispatch_mock. awp_steps. split_and!; [split; [done|by left]|done|done]. }
  unfold dispatch_msg. destruct (msg_op m) as [r|r|r|r|r|r|r|r|r|r|r|r|r|r];
    cbn [dispatch op_reply op_refs first_take is_sparse solver_after solver_answer andb] in *.
  14:{ unfold sparse_lu. awp_steps. split_and!; [split; [done|by left]|done|done]. }
  12-13: (eapply awp_mono, run_csrlsv_spec; [|done]; intros _ s' es [Hk Hs]; split; [done|]; cbn in Hs;
      destruct (sp_handle c); cbn; [done|]; destruct sp_create; cbn in *; tauto).
  all: eapply run_plan_shared; [reflexivity|reflexivity|eapply holds_sub, Hh; set_solver|set_solver].
Qed.

#[global] Instance solver_law :
  KernelLaw SolverInner SolverMsg
    (KernelActor0 := solver_actor lib_answer alloc answer read_info singularity address sp_create).
Proof. intros m st g Hh. eapply awp_mono; [|by apply solver_handle_spec]. cbn. tauto. Qed.

(** No factorisation is launched: whatever the libraries answer, a request is
    answered at once with an error: that of the first buffer that cannot be accessed,
    or that its first target is shared, since the message itself still holds it.
    Nothing is enqueued, no task is spawned and no scratch space is made; at most a
    sparse request leaves its handle behind. *)
Theorem solver_outcome m (st : SolverInner) g :
  Forall (holds (heap g)) (op_refs (msg_op m)) →
  let '((st', g'), es) := exec (shandle m) (st, g) in
  st' = solver_after st (msg_op m) ∧ queue g' = queue g ∧ tasks g' = tasks g ∧
  (∀ sl, strong_count (heap g') sl = strong_count (heap g) sl) ∧
  es = [Reply (op_reply (msg_op m)) (Err (solver_answer st (dev g) (msg_op m)))].
Proof.
  intros Hh. pose proof (solver_handle_spec m st g Hh) as Hs. apply awp_exec in Hs.
  destruct (exec _ _) as [[st' g'] es]. cbn in Hs. destruct Hs as ([_ Hp] & -> & ->).
  destruct Hp as [(Hq & Ht & Hc & _)|(op & t & _ & _ & _ & _ & _ & _ & Hn)]; [by split_and!|discriminate Hn].
Qed.

(** *** What would happen past the checks *)

(** The dense requests but the batched ones share the info cell. *)
Definition dense_plan (o : SolverOp) : option Plan :=
  match o with
  | BQr r => Some (run_qr r)
  | BLu r => Some (run_lu r)
  | BLuSolve r => Some (run_lu_solve r)
  | BCholesky r => Some (run_cholesky r)
  | BSvd r => Some (run_svd r)
  | BSyevd r => Some (run_syevd r)
  | BSygvd r => Some (run_sygvd (gv_dtype r) (gv_a r) (gv_b r) (gv_n r) (gv_itype r) (gv_uplo r) (gv_w r) (gv_vectors r) (gv_reply r))
  | BHegvd r => Some (run_sygvd (hv_dtype r) (hv_a r) (hv_b r) (hv_n r) (hv_itype r) (hv_uplo r) (hv_w r) (hv_vectors r) (hv_reply r))
  | _ => None
  end.

Lemma dense_plan_shape o p : dense_plan o = Some p →
  p_info p = SharedInfo ∧ MInfo ∈ p_locks p ∧ NoDup (p_locks p) ∧
  (p_prep p = [] ∧ p_workspace p = false ∨ ∃ op args, p_prep p = [size_query (p_dtype p) op args] ∧ p_workspace p = true).
Proof.
  destruct o; try discriminate; cbn [dense_plan]; intros [= <-]; cbn [run_qr run_lu run_lu_solve run_cholesky run_svd run_syevd
    run_sygvd dense p_info p_locks p_prep p_workspace p_dtype];
    (split; [done|]; split; [set_solver|]; split; [by apply (bool_decide_unpack (NoDup _)); vm_compute|]);
    (by left) || (right; by eexists _, _).
Qed.

Lemma lock_all_holds ms held : NoDup ms → (∀ m, m ∈ ms → m ∉ held) →
  ∃ held', lock_all ms held = Some held' ∧ ∀ m, m ∈ held' ↔ m ∈ ms ∨ m ∈ held.
Proof.
  intros Hd. revert held. induction Hd as [|m ms Hm Hd IH]; intros held Hh.
  - exists held. split; [done|]. set_solver.
  - cbn. unfold lock. rewrite decide_False by (apply Hh; by left). cbn.
    destruct (IH (m :: held)) as (held' & -> & He); [set_solver|]. exists held'. split; [done|]. set_solver.
Qed.

(** Once the targets are owned and the libraries accept every call, the closure
    locks the info cell a second time: the handler never returns, and the sender of
    the request is neither answered nor dropped. *)
Lemma dense_launch_waits o p clones c g :
  dense_plan o = Some p → (p_workspace p = true → is_Some (workspace c)) →
  (∀ i call, is_ok (lib_answer i call) = true) → (∀ n, alloc n = None) → (∀ call, answer call = None) →
  awp (launch lib_answer alloc answer read_info singularity p clones) (λ _ s' es,
    es ≫= sent = [] ∧ ∃ c', s'.1 = Real c' ∧ waiting c' = p_reply p :: waiting c) (Real c, g).
Proof.
  intros Hp Hw Hl Hal Ha. destruct (dense_plan_shape o p Hp) as (Hi & Hm & Hd & Hprep).
  destruct (lock_all_holds (p_locks p) [] Hd) as (held & Hlock & Hheld); [set_solver|].
  assert (Henq : ∀ os n c1 g1, is_Some (workspace c1) ∨ p_workspace p = false →
    awp (enqueue answer read_info singularity p os n) (λ r s' es,
      r = Waits ∧ es ≫= sent = [] ∧ ∃ c', s'.1 = Real c' ∧ waiting c' = waiting c1) (Real c1, g1)).
  { intros os n c1 g1 Hws. unfold enqueue, get_ctx. awp_steps. cbn [fst]. rewrite Hlock.
    replace (p_workspace p && negb (bool_decide (is_Some (workspace c1)))) with false
      by (destruct Hws as [Hs| ->]; [by rewrite bool_decide_true, andb_false_r|done]).
    unfold on_ctx, on_lib, lib_call, get_gpu, on_gpu, check_result, lock. rewrite Ha, Hi.
    rewrite decide_True by (apply Hheld; by left). cbn [fst snd option_bind mbind].
    repeat (awp_steps; apply awp_zoom). awp_steps. cbn. split_and!; [done|done|]. by eexists. }
  unfold launch, on_ctx, on_lib. awp_steps. repeat apply awp_zoom.
  eapply (awp_mono _ (λ r _ es, es = [] ∧ ∃ os n, r = Ok (os, n))).
  2:{ destruct Hprep as [(-> & _)|(op & args & -> & _)]; cbn [prepare].
      - awp_steps. split; [done|by eexists _, _].
      - unfold run_call, next_call, size_query. awp_steps.
        pose proof (Hl (calls (lib c)) {| oname := dn (p_dtype p) (op +:+ "_bufferSize"); ouses := []; oargs := args |}) as Hok.
        cbn [calls log] in *.
        destruct (lib_answer _ _); [|done]. cbn [or_cleanup]. awp_steps. split; [done|by eexists _, _]. }
  intros r l1 es1 (-> & os & n & ->). cbn [fst snd]. awp_steps.
  eapply (awp_mono _ (λ w s' es, w = Ok tt ∧ es = [] ∧ ∃ c', s'.1 = Real c' ∧ waiting c' = waiting c ∧
    (is_Some (workspace c') ∨ p_workspace p = false))).
  2:{ destruct (p_workspace p) eqn:Hpw.
      - apply awp_zoom. unfold ensure_workspace_bytes. awp_steps. cbn [fst].
        destruct (_ <=? _)%Z; awp_steps; [split_and!; [done|done|]; eexists; split_and!; [done|done|left; by apply Hw]|].
        rewrite Hal. awp_steps. split_and!; [done|done|]. eexists. split_and!; [done|done|by left].
      - awp_steps. split_and!; [done|done|]. eexists. split_and!; [done|done|by right]. }
  intros w [s2 g2] es2 (-> & -> & c2 & Hs2 & Hw2 & Hws). cbn in Hs2. subst s2. awp_steps.
  eapply awp_mono, Henq; [|exact Hws]. intros x [s3 g3] es3 (-> & He3 & c3 & Hs3 & Hw3). cbn in Hs3. subst s3.
  awp_steps. apply awp_zoom. awp_steps. cbn. rewrite bind_app, sent_record, He3. split; [done|].
  eexists. split; [done|]. cbn. by rewrite Hw3, Hw2.
Qed.
End outcome.

(** *** At a concrete request *)

Definition solver_device : DeviceState := DeviceState_new 0.
Definition solver_gpu : Gpu := set_heap {[1 := 1; 2 := 1]} (Gpu_new (Some solver_device)).
Definition lu_alone : SolverMsg :=
  Op (BLu {| lu_dtype := F64; lu_a := GpuRef_new 1 solver_device; lu_m := 4; lu_n := 4; lu_ipiv := GpuRef_new 2 solver_device;
             lu_reply := 7 |}).
Lemma solver_outcome_witness :
  let handle := solver_handle (λ _ _, Ok 64%Z) (λ _, None) (λ _, None) (λ _, Ok [0%Z]) (λ _, (-1)%Z) (λ _, 0%Z) None in
  (exec (handle lu_alone) (Real SolverCtx_new, solver_gpu)).2 =
    [Reply 7 (Err (Unrecoverable "LU a has multiple live references"))].
Proof.
  assert (H := solver_outcome (λ _ _, Ok 64%Z) (λ _, None) (λ _, None) (λ _, Ok [0%Z]) (λ _, (-1)%Z) (λ _, 0%Z) None
    lu_alone (Real SolverCtx_new) solver_gpu).
  cbv zeta. destruct (exec _ _) as [[st' g'] es].
  destruct H as (_ & _ & _ & _ & ->); [repeat constructor; vm_compute; lia|]. vm_compute. reflexivity.
Defined.
