(* ===== verification/Hopper.v ===== *)
(** * Hopper primitives: tensor maps, clusters, pipelines

    Models [crates/atomr-accel-cuda/src/hopper]: the descriptor of a tiled tensor
    map and its checks ([tma.rs]), cluster dimensions and launch specifications
    ([cluster.rs]), the barrier count of a pipeline ([cp_async.rs]) and the
    matrix shapes ([wgmma.rs]).  The driver's answer to an encoding is a
    parameter; what it reads from the descriptor is written out, since the code
    passes it bare pointers. *)

From stdpp Require Import pretty.
From S2P Require Import Prelude Text.

(** ** [tma.rs] *)

Module Tma.
Inductive TensorMapDataType : Type :=
  | UInt8 | UInt16 | UInt32 | Int32 | UInt64 | Int64 | Float16 | Float32 | Float64 | BFloat16 | Float32Ftz
  | TFloat32 | TFloat32Ftz | Float8E4m3 | Float8E5m2 | Float4E2m1 | Float6E2m3 | Float6E3m2.
#[global] Instance TensorMapDataType_eq_dec : EqDecision TensorMapDataType.
Proof. solve_decision. Defined.
Definition data_type_u32 (t : TensorMapDataType) : Z :=
  match t with
  | UInt8 => 0 | UInt16 => 1 | UInt32 => 2 | Int32 => 3 | UInt64 => 4 | Int64 => 5 | Float16 => 6 | Float32 => 7
  | Float64 => 8 | BFloat16 => 9 | Float32Ftz => 10 | TFloat32 => 11 | TFloat32Ftz => 12 | Float8E4m3 => 13
  | Float8E5m2 => 14 | Float4E2m1 => 15 | Float6E2m3 => 16 | Float6E3m2 => 17
  end.

Inductive TensorMapInterleave : Type := INone | IBytes16 | IBytes32.
Definition interleave_u32 (i : TensorMapInterleave) : Z := match i with INone => 0 | IBytes16 => 1 | IBytes32 => 2 end.
Inductive TensorMapSwizzle : Type := SNone | SBytes32 | SBytes64 | SBytes128.
Definition swizzle_u32 (s : TensorMapSwizzle) : Z :=
  match s with SNone => 0 | SBytes32 => 1 | SBytes64 => 2 | SBytes128 => 3 end.
Inductive TensorMapL2Promotion : Type := LNone | LBytes64 | LBytes128 | LBytes256.
Definition l2_promotion_u32 (l : TensorMapL2Promotion) : Z :=
  match l with LNone => 0 | LBytes64 => 1 | LBytes128 => 2 | LBytes256 => 3 end.
Inductive TensorMapOobFill : Type := NaZero | NanRequest.
Definition oob_fill_u32 (o : TensorMapOobFill) : Z := match o with NaZero => 0 | NanRequest => 1 end.

Record TensorMapDescriptor := {
  data_type : TensorMapDataType;
  global_address : Z;
  global_dim : list Z;
  global_strides : list Z;
  box_dim : list Z;
  element_strides : list Z;
  interleave : TensorMapInterleave;
  swizzle : TensorMapSwizzle;
  l2_promotion : TensorMapL2Promotion;
  oob_fill : TensorMapOobFill;
}.
Definition TensorMapDescriptor_new (t : TensorMapDataType) (address : Z) : TensorMapDescriptor := {|
  data_type := t; global_address := address; global_dim := []; global_strides := []; box_dim := [];
  element_strides := []; interleave := INone; swizzle := SNone; l2_promotion := LNone; oob_fill := NaZero |}.
Definition rank (d : TensorMapDescriptor) : nat := length (global_dim d).

Inductive TmaEncodeError : Type :=
  | BadRank (r : nat)
  | Mismatch (what : string) (expected got : nat)
  | UnalignedAddress (a : Z)
  | ZeroDim (what : string)
  | DriverError (code : Z).

Definition validate (d : TensorMapDescriptor) : result unit TmaEncodeError :=
  let r := rank d in
  if (r =? 0) || (5 <? r) then Err (BadRank r)
  else if negb (length (box_dim d) =? r) then Err (Mismatch "box_dim" r (length (box_dim d)))
  else if negb (length (element_strides d) =? r) then Err (Mismatch "element_strides" r (length (element_strides d)))
  else if negb (length (global_strides d) =? 0) && negb (length (global_strides d) =? r - 1)
       then Err (Mismatch "global_strides" (r - 1) (length (global_strides d)))
  else if negb (global_address d `mod` 16 =? 0)%Z then Err (UnalignedAddress (global_address d))
  else if existsb (Z.eqb 0) (global_dim d) then Err (ZeroDim "global_dim")
  else if existsb (Z.eqb 0) (box_dim d) then Err (ZeroDim "box_dim")
  else Ok tt.

(** The call of the driver; each array is a bare pointer to that many elements. *)
Record EncodeArgs := {
  e_type : Z; e_rank : Z; e_address : Z;
  e_dim : list Z; e_strides : list Z; e_box : list Z; e_steps : list Z;
  e_interleave : Z; e_swizzle : Z; e_l2 : Z; e_oob : Z;
}.
Definition encode_args (d : TensorMapDescriptor) : EncodeArgs := {|
  e_type := data_type_u32 (data_type d); e_rank := Z.of_nat (rank d); e_address := global_address d;
  e_dim := global_dim d; e_strides := global_strides d; e_box := box_dim d; e_steps := element_strides d;
  e_interleave := interleave_u32 (interleave d); e_swizzle := swizzle_u32 (swizzle d);
  e_l2 := l2_promotion_u32 (l2_promotion d); e_oob := oob_fill_u32 (oob_fill d) |}.

Section encode.
(** The opaque map, or the driver's error code. *)
Context {Map : Type} (driver : EncodeArgs → result Map Z).
Definition encode (d : TensorMapDescriptor) : result Map TmaEncodeError :=
  match validate d with
  | Err e => Err e
  | Ok _ => match driver (encode_args d) with Err c => Err (DriverError c) | Ok m => Ok m end
  end.
End encode.

(** [{:x}] *)
Definition display (e : TmaEncodeError) : string :=
  match e with
  | BadRank r => "TMA rank " +:+ pretty r +:+ " out of [1,5]"
  | Mismatch what expected got =>
    "TMA descriptor: " +:+ what +:+ ".len() = " +:+ pretty got +:+ ", expected " +:+ pretty expected
  | UnalignedAddress a => "TMA global_address 0x" +:+ hex (Z.to_nat (Z.log2 a / 4) + 1) a +:+ " is not 16-byte aligned"
  | ZeroDim field => "TMA descriptor: " +:+ field +:+ " contains a zero"
  | DriverError c => "cuTensorMapEncodeTiled returned " +:+ pretty c
  end.
End Tma.

(** ** [cluster.rs] *)

Module Cluster.
Record ClusterDim := { cx : Z; cy : Z; cz : Z }.
#[global] Instance ClusterDim_eq_dec : EqDecision ClusterDim.
Proof. solve_decision. Defined.
Definition ClusterDim_new (x y z : Z) : ClusterDim := {| cx := x; cy := y; cz := z |}.
Definition unit_dim : ClusterDim := ClusterDim_new 1 1 1.
Definition block_count (c : ClusterDim) : Z := cx c *₃₂ cy c *₃₂ cz c.

Inductive ClusterError : Type := ZeroDim | PortableLimit (n : Z) | HardLimit (n : Z) | DriverCode (c : Z).

Definition validate (c : ClusterDim) (allow_non_portable : bool) : result unit ClusterError :=
  if (cx c =? 0)%Z || (cy c =? 0)%Z || (cz c =? 0)%Z then Err ZeroDim
  else
    let n := block_count c in
    if (8 <? n)%Z && negb allow_non_portable then Err (PortableLimit n)
    else if (16 <? n)%Z then Err (HardLimit n)
    else Ok tt.

Definition display (e : ClusterError) : string :=
  match e with
  | ZeroDim => "cluster dim contains a zero"
  | PortableLimit n =>
    "cluster size " +:+ pretty n +:+ " > 8 (portable limit); set allow_non_portable=true to opt in"
  | HardLimit n => "cluster size " +:+ pretty n +:+ " > 16 (hard limit)"
  | DriverCode c => "cudaLaunchKernelExC returned " +:+ pretty c
  end.

Record LaunchSpec := {
  grid_dim : Z * Z * Z;
  block_dim : Z * Z * Z;
  cluster_dim : ClusterDim;
  shared_bytes : Z;
  allow_non_portable_cluster : bool;
}.
Definition LaunchSpec_new (grid block : Z * Z * Z) : LaunchSpec := {|
  grid_dim := grid; block_dim := block; cluster_dim := unit_dim; shared_bytes := 0; allow_non_portable_cluster := false |}.
Definition with_cluster (c : ClusterDim) (s : LaunchSpec) : result LaunchSpec ClusterError :=
  match validate c (allow_non_portable_cluster s) with
  | Err e => Err e
  | Ok _ => Ok {| grid_dim := grid_dim s; block_dim := block_dim s; cluster_dim := c; shared_bytes := shared_bytes s;
                  allow_non_portable_cluster := allow_non_portable_cluster s |}
  end.
Definition allow_non_portable (s : LaunchSpec) : LaunchSpec := {|
  grid_dim := grid_dim s; block_dim := block_dim s; cluster_dim := cluster_dim s; shared_bytes := shared_bytes s;
  allow_non_portable_cluster := true |}.
Definition with_shared_bytes (b : Z) (s : LaunchSpec) : LaunchSpec := {|
  grid_dim := grid_dim s; block_dim := block_dim s; cluster_dim := cluster_dim s; shared_bytes := b;
  allow_non_portable_cluster := allow_non_portable_cluster s |}.
Definition has_cluster (s : LaunchSpec) : bool := negb (bool_decide (cluster_dim s = unit_dim)).
Definition dsm_total_bytes (c : ClusterDim) (per_block : Z) : Z := block_count c *₆₄ per_block.
End Cluster.

(** ** [cp_async.rs], [wgmma.rs] *)

Definition mbarrier_arrival_count (stages : Z) : Z := stages *₃₂ 2.
Inductive PipelineStages : Type := Double | Triple | Quad.
Definition stage_count (p : PipelineStages) : Z := match p with Double => 2 | Triple => 3 | Quad => 4 end.

Inductive WgmmaShape : Type := M64N64K16 | M64N128K16 | M64N256K16 | M64N64K32 | M64N128K32 | M64N256K32.
Definition dims (w : WgmmaShape) : Z * Z * Z :=
  match w with
  | M64N64K16 => (64, 64, 16) | M64N128K16 => (64, 128, 16) | M64N256K16 => (64, 256, 16)
  | M64N64K32 => (64, 64, 32) | M64N128K32 => (64, 128, 32) | M64N256K32 => (64, 256, 32)
  end%Z.
Definition macro_name (w : WgmmaShape) : string :=
  match w with
  | M64N64K16 => "ATOMR_WGMMA_F16_M64N64K16" | M64N128K16 => "ATOMR_WGMMA_F16_M64N128K16"
  | M64N256K16 => "ATOMR_WGMMA_F16_M64N256K16" | M64N64K32 => "ATOMR_WGMMA_F8_M64N64K32"
  | M64N128K32 => "ATOMR_WGMMA_F8_M64N128K32" | M64N256K32 => "ATOMR_WGMMA_F8_M64N256K32"
  end.
Definition ATOMR_HOPPER_HEADER_REL_PATH : string := "include/atomr_hopper.cuh".
(** [atomr_hopper_header_path], by whether the file is there. *)
Definition atomr_hopper_header_path (manifest_dir : string) (exists_file : string → bool) : option string :=
  let p := manifest_dir +:+ "/" +:+ ATOMR_HOPPER_HEADER_REL_PATH in if exists_file p then Some p else None.

(** ** Theorems *)

(** A descriptor the driver may encode: the arrays have as many elements as the
    driver reads. *)
Definition arrays_fit (a : Tma.EncodeArgs) : Prop :=
  length (Tma.e_dim a) = Z.to_nat (Tma.e_rank a) ∧ length (Tma.e_box a) = Z.to_nat (Tma.e_rank a) ∧
  length (Tma.e_steps a) = Z.to_nat (Tma.e_rank a) ∧ length (Tma.e_strides a) = Z.to_nat (Tma.e_rank a) - 1.

Lemma existsb_zero l : existsb (Z.eqb 0) l = false ↔ Forall (λ x, x ≠ 0%Z) l.
Proof.
  rewrite Forall_forall. split.
  - intros H x Hx ->. apply not_true_iff_false in H. destruct H. apply existsb_exists. exists 0%Z.
    by rewrite <-list_elem_of_In.
  - intros H. apply not_true_iff_false. intros (x & Hx%list_elem_of_In & He%Z.eqb_eq)%existsb_exists. by apply (H x).
Qed.

Section tma.
Import Tma.

(** C32 (checked tensor maps): a descriptor passes the checks exactly when it has one
    to five dimensions, none of them zero, as many box dimensions and element strides,
    an address aligned to 16 bytes, and one stride less or none.  Then the driver
    reads within the arrays it is given, unless the tensor has several dimensions and
    no strides; and a descriptor that does not pass never reaches it. *)
Theorem tensor_map_checked {Map} (driver : EncodeArgs → result Map Z) d :
  (validate d = Ok tt ↔
    1 ≤ rank d ≤ 5 ∧ length (box_dim d) = rank d ∧ length (element_strides d) = rank d ∧
    (global_strides d = [] ∨ length (global_strides d) = rank d - 1) ∧ (global_address d mod 16 = 0)%Z ∧
    Forall (λ x, x ≠ 0%Z) (global_dim d) ∧ Forall (λ x, x ≠ 0%Z) (box_dim d)) ∧
  (validate d = Ok tt → arrays_fit (encode_args d) ∨ (1 < rank d ∧ global_strides d = [])) ∧
  (∀ e, validate d = Err e → encode driver d = Err e).
Proof.
  assert (Hv : validate d = Ok tt ↔
    1 ≤ rank d ≤ 5 ∧ length (box_dim d) = rank d ∧ length (element_strides d) = rank d ∧
    (global_strides d = [] ∨ length (global_strides d) = rank d - 1) ∧ (global_address d mod 16 = 0)%Z ∧
    Forall (λ x, x ≠ 0%Z) (global_dim d) ∧ Forall (λ x, x ≠ 0%Z) (box_dim d)).
  { rewrite <-!existsb_zero, <-length_zero_iff_nil. unfold validate.
    destruct (Nat.eqb_spec (rank d) 0), (Nat.ltb_spec 5 (rank d)); cbn [orb]; try (split; [done|lia]).
    destruct (Nat.eqb_spec (length (box_dim d)) (rank d)); cbn [negb]; [|split; [done|lia]].
    destruct (Nat.eqb_spec (length (element_strides d)) (rank d)); cbn [negb]; [|split; [done|lia]].
    destruct (Nat.eqb_spec (length (global_strides d)) 0), (Nat.eqb_spec (length (global_strides d)) (rank d - 1));
      cbn [negb andb]; try (split; [done|lia]).
    all: destruct (Z.eqb_spec (global_address d `mod` 16) 0); cbn [negb]; [|split; [done|lia]].
    all: destruct (existsb _ (global_dim d)), (existsb _ (box_dim d)); (split; [done|]) || (split; [intros _|done]);
      naive_solver lia. }
  split; [exact Hv|]. split.
  - intros (Hr & Hb & Hs & Hg & _)%Hv. unfold arrays_fit. cbn. rewrite Nat2Z.id.
    destruct Hg as [Hg|Hg]; [|left; by split_and!].
    destruct (decide (rank d = 1)); [left; rewrite Hg; cbn; split_and!; [done|done|done|lia]|right; split; [lia|done]].
  - intros e He. unfold encode. by rewrite He.
Qed.

(** Two dimensions without strides pass: the driver would read past an empty array. *)
Definition strideless : TensorMapDescriptor := {|
  data_type := Float16; global_address := 65536; global_dim := [1024; 1024]%Z; global_strides := []; box_dim := [64; 64]%Z;
  element_strides := [1; 1]%Z; interleave := INone; swizzle := SBytes128; l2_promotion := LBytes128; oob_fill := NaZero |}.
Example strideless_passes : validate strideless = Ok tt ∧ length (e_strides (encode_args strideless)) = 0.
Proof. done. Qed.
Lemma tensor_map_checked_witness : arrays_fit (encode_args strideless) ∨ (1 < rank strideless ∧ global_strides strideless = []).
Proof. apply (tensor_map_checked (Map := unit) (λ _, Ok tt)). reflexivity. Defined.

(** The numbers of the enumerations are distinct. *)
Lemma data_type_u32_inj : Inj (=) (=) data_type_u32.
Proof. intros [] []; vm_compute; congruence. Qed.
End tma.

Section cluster.
Import Cluster.

Definition cap (allow : bool) : Z := if allow then 16 else 8.

Lemma cluster_validate_spec c allow :
  (0 ≤ cx c)%Z → (0 ≤ cy c)%Z → (0 ≤ cz c)%Z →
  validate c allow = Ok tt ↔ (1 ≤ cx c)%Z ∧ (1 ≤ cy c)%Z ∧ (1 ≤ cz c)%Z ∧ (block_count c ≤ cap allow)%Z.
Proof.
  intros Hx Hy Hz. unfold validate, cap.
  destruct (Z.eqb_spec (cx c) 0), (Z.eqb_spec (cy c) 0), (Z.eqb_spec (cz c) 0); cbn [orb]; try (split; [done|lia]).
  destruct allow; cbn [negb]; rewrite ?andb_false_r, ?andb_true_r;
    destruct (Z.ltb_spec 8 (block_count c)), (Z.ltb_spec 16 (block_count c)); split; intros; (done || lia).
Qed.

(** The specifications the builder makes. *)
Inductive built : LaunchSpec → Prop :=
  | BNew g b : built (LaunchSpec_new g b)
  | BCluster c s s' : (0 ≤ cx c)%Z → (0 ≤ cy c)%Z → (0 ≤ cz c)%Z → built s → with_cluster c s = Ok s' → built s'
  | BAllow s : built s → built (allow_non_portable s)
  | BShared b s : built s → built (with_shared_bytes b s).

(** Cluster launches: however a launch specification is built, its cluster passes
    the check under its own portability flag; so it has between one block and 8, or 16
    when non-portable sizes are allowed, provided the product of its dimensions fits 32
    bits, and then its shared memory in bytes is computed without overflow. *)
Theorem launch_specs_valid s :
  built s →
  let c := cluster_dim s in let n := (cx c * cy c * cz c)%Z in
  validate c (allow_non_portable_cluster s) = Ok tt ∧
  (in_width 32 n → (1 ≤ n ≤ cap (allow_non_portable_cluster s))%Z ∧
    ∀ per_block, in_width 32 per_block → dsm_total_bytes c per_block = (n * per_block)%Z).
Proof.
  intros Hb c n.
  assert (Hv : validate c (allow_non_portable_cluster s) = Ok tt ∧ (0 ≤ cx c)%Z ∧ (0 ≤ cy c)%Z ∧ (0 ≤ cz c)%Z).
  { subst c n. induction Hb as [g b|c0 s0 s' Hx Hy Hz _ IH H|s0 _ (IH & Hx & Hy & Hz)|b s0 _ IH]; [done| | |exact IH].
    - unfold with_cluster in H. destruct (validate c0 _) as [[]|] eqn:Hc0; [|done]. by injection H as <-.
    - split; [|done]. cbn [allow_non_portable cluster_dim allow_non_portable_cluster].
      apply cluster_validate_spec; [done..|]. apply cluster_validate_spec in IH; [|done..].
      unfold cap in *. destruct (allow_non_portable_cluster s0); lia. }
  destruct Hv as (Hv & Hx & Hy & Hz). split; [done|]. intros Hn.
  apply cluster_validate_spec in Hv as (H1 & H2 & H3 & Hc); [|done..].
  assert (Hxy : (cx c * cy c ≤ n)%Z) by (subst n; nia).
  assert (Hcount : block_count c = n).
  { unfold block_count, wmul. rewrite (wrap_small 32 (cx c * cy c)) by (unfold in_width in *; nia).
    by apply wrap_small. }
  rewrite Hcount in Hc. split; [subst n; nia|]. intros b Hb'. unfold dsm_total_bytes, wmul. rewrite Hcount.
  apply wrap_small. unfold in_width, cap in *. destruct (allow_non_portable_cluster s); nia.
Qed.
Definition wide : LaunchSpec := allow_non_portable (LaunchSpec_new (128, 1, 1)%Z (256, 1, 1)%Z).
Lemma launch_specs_valid_witness :
  ∃ s, with_cluster (ClusterDim_new 3 3 1) wide = Ok s ∧ validate (cluster_dim s) (allow_non_portable_cluster s) = Ok tt.
Proof.
  eexists. split; [reflexivity|]. eapply (launch_specs_valid _).
  eapply (BCluster (ClusterDim_new 3 3 1) wide); [vm_compute; congruence..| |reflexivity]. apply BAllow, BNew.
Defined.

(** The product wraps: four billion blocks pass the portable limit. *)
Example cluster_wraps : validate (ClusterDim_new 65536 65537 1) false = Err (PortableLimit 65536) ∧
  validate (ClusterDim_new 65536 65536 1) false = Ok tt ∧ block_count (ClusterDim_new 65536 65536 1) = 0%Z.
Proof. by vm_compute. Qed.
End cluster.

(** The name of a matrix macro is that of its shape. *)
Lemma macro_name_dims w : let '(m, n, k) := dims w in
  macro_name w = "ATOMR_WGMMA_" +:+ (if (k =? 16)%Z then "F16" else "F8") +:+ "_M" +:+ pretty m +:+ "N" +:+ pretty n +:+ "K" +:+ pretty k.
Proof. by destruct w; vm_compute. Qed.
(** Every stage of a pipeline has its pair of arrivals. *)
Lemma arrivals_balanced p : mbarrier_arrival_count (stage_count p) = (2 * stage_count p)%Z.
Proof. by destruct p. Qed.
