(* ===== verification/Driver.v ===== *)
(** * The driver layer

    Models [sys/cuda_driver.rs], [memory/ipc.rs], [event/mod.rs] and the graph
    helpers [graph/child.rs], [graph/conditional.rs], [graph/dot.rs] of
    [crates/atomr-accel-cuda/src]: every driver call runs under a guard that
    turns the panic of a loader without the symbol into an error, and its status
    into another.

    Parameters are which symbols the loader finds, what the driver answers to its
    [n]-th call, the bytes of the handles it mints, and the files that are read.
    Driver objects are those of [Objects.v]. *)

From Stdlib Require Import Floats.SpecFloat.
From stdpp Require Import pretty.
From S2P Require Import Prelude Actor Text Float64 Errors Envelope Objects.

(** ** [sys/cuda_driver.rs] *)

Definition driver_check {A} (op : string) (r : result A string) : result A GpuError :=
  map_err (λ s, LibraryError "driver" (op +:+ ": " +:+ s)) r.
Definition runtime_check {A} (op : string) (r : result A string) : result A GpuError :=
  map_err (λ s, LibraryError "runtime" (op +:+ ": " +:+ s)) r.
Definition not_loadable (op : string) : GpuError := Unrecoverable (op +:+ ": CUDA driver not loadable").
(** The status of a call that returns nothing. *)
Definition void {E} (r : result Z E) : result unit E := match r with Ok _ => Ok tt | Err e => Err e end.

(** Handles of 64 opaque bytes, as the [c_char]s of the driver. *)
Record IpcHandle := { raw : list Z }.
Definition as_bytes (h : IpcHandle) : list Z := (λ c, c mod 256)%Z <$> raw h.
Definition from_bytes (b : list Z) : IpcHandle := {| raw := (λ x, if (x <? 128)%Z then x else (x - 256)%Z) <$> b |}.
(** [fxhash], which names a handle in debug output. *)
Definition fxhash (bytes : list Z) : Z := foldl (λ h b, Z.lxor h b *₆₄ 1099511628211) 14695981039346656037%Z bytes.

Section driver.
Context {E : Type} (loadable : string → bool) (lib_answer : nat → ObjCall → result Z string).
(** The bytes of the handle the driver answers with. *)
Context (blob : Z → list Z).
Abbreviation lact := (act Lib E).

Definition guarded {A} (op : string) (f : lact (result A GpuError)) : lact (result A GpuError) :=
  if loadable op then f else mret (Err (not_loadable op)).
Definition driver_call (op : string) (uses : list Obj) (args : list Arg) : lact (result Z GpuError) :=
  guarded op (r ← run_call lib_answer {| oname := op; ouses := uses; oargs := args |}; mret (driver_check op r)).
Definition driver_do (op : string) (uses : list Obj) (args : list Arg) : lact (result unit GpuError) :=
  r ← driver_call op uses args; mret (void r).
Definition driver_make (op : string) (uses : list Obj) (args : list Arg) : lact (result Obj GpuError) :=
  guarded op (r ← create lib_answer {| oname := op; ouses := uses; oargs := args |}; mret (driver_check op r)).
(** A call that ends an object: it is gone whatever is answered. *)
Definition driver_end (op : string) (o : Obj) : lact (result unit GpuError) :=
  guarded op (n ← next_call; destroys [o];; mret (void (driver_check op (lib_answer n {| oname := op; ouses := [o]; oargs := [] |})))).

Definition mem_prefetch_async_v2 (dev_ptr count : Z) (location : string) (flags : Z) (stream : nat) : lact (result unit GpuError) :=
  driver_do "cuMemPrefetchAsync_v2" [] [AInt dev_ptr; AInt count; ATag location; AInt flags; AInt (Z.of_nat stream)].
Definition mem_advise_v2 (dev_ptr count : Z) (advice location : string) : lact (result unit GpuError) :=
  driver_do "cuMemAdvise_v2" [] [AInt dev_ptr; AInt count; ATag advice; ATag location].

(** A handle whose bytes the driver wrote. *)
Definition minted {F} (r : result Z F) : result IpcHandle F :=
  match r with Ok z => Ok {| raw := blob z |} | Err e => Err e end.
Definition handle_args (h : IpcHandle) : list Arg := AInt <$> raw h.
Definition ipc_get_mem_handle (dev_ptr : Z) : lact (result IpcHandle GpuError) :=
  r ← driver_call "cuIpcGetMemHandle" [] [AInt dev_ptr]; mret (minted r).
(** The mapping and its address. *)
Definition ipc_open_mem_handle_v2 (h : IpcHandle) (flags : Z) : lact (result (Obj * Z) GpuError) :=
  guarded "cuIpcOpenMemHandle_v2" (
    n ← next_call;
    let c := {| oname := "cuIpcOpenMemHandle_v2"; ouses := []; oargs := handle_args h ++ [AInt flags] |} in
    match lib_answer n c with
    | Ok z => modify (log (Created n c));; mret (Ok (n, z))
    | Err s => modify (log (Ran c));; mret (driver_check "cuIpcOpenMemHandle_v2" (Err s))
    end).
Definition ipc_close_mem_handle (mapping : Obj) : lact (result unit GpuError) := driver_end "cuIpcCloseMemHandle" mapping.
Definition ipc_get_event_handle (event : Obj) : lact (result IpcHandle GpuError) :=
  r ← driver_call "cuIpcGetEventHandle" [event] []; mret (minted r).
Definition ipc_open_event_handle (h : IpcHandle) : lact (result Obj GpuError) :=
  driver_make "cuIpcOpenEventHandle" [] (handle_args h).
Definition runtime_ipc_get_mem_handle (dev_ptr : Z) : lact (result IpcHandle GpuError) :=
  guarded "cudaIpcGetMemHandle" (
    r ← run_call lib_answer {| oname := "cudaIpcGetMemHandle"; ouses := []; oargs := [AInt dev_ptr] |};
    mret (minted (runtime_check "cudaIpcGetMemHandle" r))).

Definition module_load_data (image : list Z) : lact (result Obj GpuError) :=
  driver_make "cuModuleLoadData" [] (AInt <$> image).
Definition module_unload (m : Obj) : lact (result unit GpuError) := driver_end "cuModuleUnload" m.
Definition module_get_function (m : Obj) (name : string) : lact (result Z GpuError) :=
  driver_call "cuModuleGetFunction" [m] [ATag name].
(** [launch_kernel] and [launch_cooperative_kernel]; [m] is the module of the function. *)
Definition launch_op (cooperative : bool) : string :=
  if cooperative then "cuLaunchCooperativeKernel" else "cuLaunchKernel".
Definition launch_kernel (cooperative : bool) (m : Obj) (args : list Arg) : lact (result unit GpuError) :=
  driver_do (launch_op cooperative) [m] args.

(** ** [memory/ipc.rs] *)

Record OpenedMem := { mapping : Obj; dev_ptr : Z; om_bytes : Z }.
Definition get_mem_handle (p : Z) : lact (result IpcHandle GpuError) := ipc_get_mem_handle p.
Definition open_mem_handle (h : IpcHandle) (bytes : Z) : lact (result OpenedMem GpuError) :=
  r ← ipc_open_mem_handle_v2 h 1;
  mret match r with Ok (o, p) => Ok {| mapping := o; dev_ptr := p; om_bytes := bytes |} | Err e => Err e end.
(** [OpenedMem::drop] *)
Definition opened_drop (m : OpenedMem) : lact unit :=
  if (dev_ptr m =? 0)%Z then skip else ipc_close_mem_handle (mapping m);; skip.

(** ** [graph/child.rs], [graph/conditional.rs] *)

(** [ChildGraphOp::record] into the graph [parent]. *)
Definition record_child (parent child : Obj) : lact (result unit GpuError) :=
  if loadable "cuGraphAddChildGraphNode" then
    r ← run_call lib_answer {| oname := "cuGraphAddChildGraphNode"; ouses := [parent; child]; oargs := [] |};
    mret (void (map_err (λ s, LibraryError "graph" ("cuGraphAddChildGraphNode: " +:+ s)) r))
  else mret (Err (Unrecoverable "ChildGraphOp::record: CUDA driver not loadable")).

Definition driver_supports_conditional : lact (result bool GpuError) :=
  if loadable "cuGraphConditionalHandleCreate" then
    r ← run_call lib_answer {| oname := "cuGraphConditionalHandleCreate"; ouses := []; oargs := [] |};
    mret (Ok match r with Err s => negb (String.eqb s "CUDA_ERROR_NOT_SUPPORTED") | Ok _ => true end)
  else mret (Err (Unrecoverable "conditional probe: CUDA driver not loadable")).

(** ** [event/mod.rs] *)

Inductive EventMsg : Type :=
  | Create (reply : nat)
  | Record_ (event : Obj) (stream : nat) (reply : nat)
  | Wait (event : Obj) (stream : nat) (reply : nat)
  | Query (event : Obj) (reply : nat)
  | ElapsedTime (start stop : Obj) (reply : nat)
  | Synchronize (event : Obj) (reply : nat)
  | GetIpcHandle (event : Obj) (reply : nat)
  | OpenIpcHandle (h : IpcHandle) (reply : nat).
Definition event_reply (m : EventMsg) : nat :=
  match m with
  | Create ch | Record_ _ _ ch | Wait _ _ ch | Query _ ch | ElapsedTime _ _ ch | Synchronize _ ch | GetIpcHandle _ ch
  | OpenIpcHandle _ ch => ch
  end.
Definition event_uses (m : EventMsg) : list Obj :=
  match m with
  | Create _ | OpenIpcHandle _ _ => []
  | Record_ e _ _ | Wait e _ _ | Query e _ | Synchronize e _ | GetIpcHandle e _ => [e]
  | ElapsedTime s e _ => [s; e]
  end.

(** What a request is answered with; a duration is in nanoseconds. *)
Inductive EventValue : Type := VDone | VEvent (e : Obj) | VBool (b : bool) | VDuration (ns : Z) | VHandle (h : IpcHandle).

(** [Duration::from_secs_f64], which panics on what is negative, too large or NaN:
    the number of nanoseconds, ties to even. *)
Definition div_round_even (n d : Z) : Z :=
  let q := (n / d)%Z in let r := (n mod d)%Z in
  if (2 * r <? d)%Z then q else if (d <? 2 * r)%Z then (q + 1)%Z else if Z.even q then q else (q + 1)%Z.
Definition duration_from_secs (x : f64) : option Z :=
  match x with
  | S754_zero _ => Some 0%Z
  | S754_finite false m e =>
    let n := (Z.pos m * 10 ^ 9)%Z in
    let ns := if (0 <=? e)%Z then (n * 2 ^ e)%Z else div_round_even n (2 ^ (- e)) in
    if (ns <? 2 ^ 64 * 10 ^ 9)%Z then Some ns else None
  | _ => None
  end.
(** [x as f64] of an [f32] *)
Definition f64_of_f32 (x : f32) : f64 :=
  match x with S754_finite s m e => binary_normalize 53 1024 (if s then Z.neg m else Z.pos m) e s | x => x end.

(** The milliseconds between two events. *)
Context (elapsed_ms : Obj → Obj → result f32 string).

Definition event_missing (op : string) : GpuError := Unrecoverable ("EventActor::" +:+ op +:+ ": CUDA driver not loadable").
Definition event_lib (what e : string) : GpuError := LibraryError "event" (what +:+ ": " +:+ e).
(** [catch_unwind] around a call of the cudarc wrapper of [sym]. *)
Definition caught {A} (op sym : string) (f : lact (result A GpuError)) : lact (result A GpuError) :=
  if loadable sym then f else mret (Err (event_missing op)).
Definition event_do (op sym what : string) (uses : list Obj) (args : list Arg) : lact (result EventValue GpuError) :=
  caught op sym (
    r ← run_call lib_answer {| oname := sym; ouses := uses; oargs := args |};
    mret match r with Ok _ => Ok VDone | Err e => Err (event_lib what e) end).

Definition open_ipc_refusal : GpuError := Unrecoverable
  "EventActor::OpenIpcHandle: cudarc 0.19 lacks CudaEvent::from_raw — use the IpcEventHandle bytes directly with cuStreamWaitEvent on the destination context".

Definition event_real (m : EventMsg) : lact (result EventValue GpuError) :=
  match m with
  | Create _ =>
    caught "Create" "cuEventCreate" (
      r ← create lib_answer {| oname := "cuEventCreate"; ouses := []; oargs := [] |};
      mret match r with Ok o => Ok (VEvent o) | Err e => Err (event_lib "new_event" e) end)
  | Record_ e st _ => event_do "Record" "cuEventRecord" "record" [e] [AInt (Z.of_nat st)]
  | Wait e st _ => event_do "Wait" "cuStreamWaitEvent" "wait" [e] [AInt (Z.of_nat st)]
  | Query e _ =>
    caught "Query" "cuEventQuery" (
      r ← run_call lib_answer {| oname := "cuEventQuery"; ouses := [e]; oargs := [] |}; mret (Ok (VBool (is_ok r))))
  | ElapsedTime s e _ =>
    caught "ElapsedTime" "cuEventElapsedTime" (
      run_call lib_answer {| oname := "cuEventElapsedTime"; ouses := [s; e]; oargs := [] |};;
      mret match elapsed_ms s e with
           | Err x => Err (event_lib "elapsed" x)
           | Ok ms =>
             match duration_from_secs (f64_div (f64_of_f32 ms) (f64_of_Z 1000)) with
             | Some ns => Ok (VDuration ns)
             | None => Err (event_missing "ElapsedTime")      (* the panic is caught too *)
             end
           end)
  | Synchronize e _ => event_do "Synchronize" "cuEventSynchronize" "synchronize" [e] []
  | GetIpcHandle e _ =>
    r ← ipc_get_event_handle e; mret match r with Ok h => Ok (VHandle h) | Err x => Err x end
  | OpenIpcHandle h _ =>
    r ← ipc_open_event_handle h; mret match r with Ok _ => Err open_ipc_refusal | Err x => Err x end
  end.
Inductive EventInner : Type := EReal | EMock.
Definition event_mock : GpuError := Unrecoverable "EventActor in mock mode".
(** [EventActor::handle]: the answer on the message's channel. *)
Definition event_handle (s : EventInner) (m : EventMsg) : lact (nat * result EventValue GpuError) :=
  match s with
  | EMock => mret (event_reply m, Err event_mock)
  | EReal => r ← event_real m; mret (event_reply m, r)
  end.
End driver.

Inductive ConditionalKind : Type := If | While.
Definition conditional_raw (k : ConditionalKind) : string :=
  match k with If => "CU_GRAPH_COND_TYPE_IF" | While => "CU_GRAPH_COND_TYPE_WHILE" end.
(** [build_params] *)
Record ConditionalParams := { p_handle : Z; p_type : string; p_size : Z; p_graph_out : Obj; p_ctx : nat }.
Definition build_params (k : ConditionalKind) (handle : Z) (ctx : nat) (out : Obj) : ConditionalParams :=
  {| p_handle := handle; p_type := conditional_raw k; p_size := 1; p_graph_out := out; p_ctx := ctx |}.
Definition graph_check {A} (op : string) (r : result A string) : result A GpuError :=
  map_err (λ s, LibraryError "graph" (op +:+ ": " +:+ s)) r.

(** ** [graph/dot.rs] *)

Module Dot.
Definition VERBOSE : Z := Z.shiftl 1 0.
Definition KERNEL_NODE : Z := Z.shiftl 1 2.
Definition MEMCPY_NODE : Z := Z.shiftl 1 3.
Definition MEMSET_NODE : Z := Z.shiftl 1 4.
Definition HOST_NODE : Z := Z.shiftl 1 5.
Definition GRAPH_NODE : Z := Z.shiftl 1 6.

Definition temp_dot_path (temp_dir : string) (pid : Z) (nanos : Z) : string :=
  temp_dir +:+ "/atomr-accel-graph-" +:+ pretty pid +:+ "-" +:+ pretty nanos +:+ ".dot".

(** The files of the temporary directory; printing writes one, which is read back and
    removed.  A path with a NUL has no C string. *)
Definition Files := gmap string string.
Fixpoint nul_position (s : string) (i : nat) : option nat :=
  match s with
  | EmptyString => None
  | String a s => if Ascii.eqb a Ascii.zero then Some i else nul_position s (S i)
  end.
Definition nul_error (i : nat) : string := "nul byte found in provided data at position: " +:+ pretty i.
Definition export_dot (loadable : bool) (print : string → Files → result Files string) (readable : string → Files → result string string)
    (path : string) (fs : Files) : result string GpuError * Files :=
  match nul_position path 0 with
  | Some i => (Err (Unrecoverable ("export_dot: bad path: " +:+ nul_error i)), fs)
  | None =>
    if loadable then
      match print path fs with
      | Err s => (Err (LibraryError "graph" ("cuGraphDebugDotPrint: " +:+ s)), fs)
      | Ok fs' =>
        match readable path fs' with
        | Err e => (Err (LibraryError "graph" ("read DOT file " +:+ path +:+ ": " +:+ e)), fs')
        | Ok dot => (Ok dot, delete path fs')
        end
      end
    else (Err (Unrecoverable "export_dot: CUDA driver not loadable"), fs)
  end.
End Dot.

(** ** Theorems *)

(** *** Handles and durations *)

Definition is_i8 (c : Z) : Prop := (-128 ≤ c < 128)%Z.
(** A handle survives the trip through its bytes, and 64 bytes through a handle. *)
Lemma ipc_handle_round_trip :
  (∀ h, Forall is_i8 (raw h) → from_bytes (as_bytes h) = h) ∧
  (∀ b, Forall (in_width 8) b → as_bytes (from_bytes b) = b).
Proof.
  split.
  - intros [r] Hr. unfold from_bytes, as_bytes. cbn in *. f_equal. induction Hr as [|c r Hc Hr IH]; [done|].
    cbn. f_equal; [|done]. unfold is_i8 in Hc. destruct (Z.ltb_spec (c mod 256) 128); Z.to_euclidean_division_equations; lia.
  - intros b Hb. unfold from_bytes, as_bytes. cbn. induction Hb as [|c b Hc Hb IH]; [done|].
    cbn. f_equal; [|done]. unfold in_width in Hc. destruct (Z.ltb_spec c 128); Z.to_euclidean_division_equations; lia.
Qed.

Lemma div_round_even_nearest n d : (0 ≤ n)%Z → (0 < d)%Z →
  (2 * Z.abs (div_round_even n d * d - n) ≤ d ∧ 0 ≤ div_round_even n d)%Z.
Proof.
  intros Hn Hd. unfold div_round_even. pose proof (Z.div_mod n d ltac:(lia)) as Hdm. pose proof (Z.mod_pos_bound n d Hd).
  assert (0 ≤ n / d)%Z by (apply Z.div_pos; lia).
  destruct (Z.ltb_spec (2 * (n mod d)) d), (Z.ltb_spec d (2 * (n mod d))), (Z.even (n / d)); split; nia.
Qed.
(** A duration is the nearest number of nanoseconds, and fits its 64 bits of seconds. *)
Lemma duration_nearest m e ns : duration_from_secs (S754_finite false m e) = Some ns →
  (0 ≤ ns < 2 ^ 64 * 10 ^ 9)%Z ∧
  (2 * Z.abs (ns * 2 ^ Z.max 0 (- e) - Z.pos m * 10 ^ 9 * 2 ^ Z.max 0 e) ≤ 2 ^ Z.max 0 (- e))%Z.
Proof.
  unfold duration_from_secs. destruct (Z.leb_spec 0 e) as [He|He]; [set (k := (_ * 2 ^ e)%Z)|set (k := div_round_even _ _)].
  all: destruct (Z.ltb_spec k (2 ^ 64 * 10 ^ 9)) as [Hk|]; intros Heq; [injection Heq as <-|done].
  - rewrite (Z.max_l 0 (- e)), (Z.max_r 0 e) by lia. pose proof (Z.pow_pos_nonneg 2 e ltac:(lia) He). subst k.
    split; [split; [nia|done]|]. rewrite Z.pow_0_r. lia.
  - rewrite (Z.max_r 0 (- e)), (Z.max_l 0 e) by lia. pose proof (Z.pow_pos_nonneg 2 (- e) ltac:(lia) ltac:(lia)).
    destruct (div_round_even_nearest (Z.pos m * 10 ^ 9) (2 ^ - e)) as [H1 H2]; [lia..|]. subst k.
    split; [done|]. rewrite Z.pow_0_r. lia.
Qed.
(** A negative time (the events in the wrong order) is reported as a missing driver. *)
Example negative_elapsed : duration_from_secs (f64_div (f64_of_f32 (f32_of_Z (-5))) (f64_of_Z 1000)) = None ∧
  duration_from_secs (f64_div (f64_of_f32 (f32_of_Z 5)) (f64_of_Z 1000)) = Some 5000000%Z.
Proof. by vm_compute. Qed.

(** *** Objects *)

Section owned.
Context {E : Type} (loadable : string → bool) (lib_answer : nat → ObjCall → result Z string).
Context (blob : Z → list Z) (elapsed_ms : Obj → Obj → result f32 string).
Abbreviation lact := (act Lib E).

(** A guarded computation, by whether its symbol is there. *)
Lemma guarded_spec {A} op (f : lact (result A GpuError)) Q l :
  (loadable op = true → awp f Q l) → (loadable op = false → Q (Err (not_loadable op)) l []) →
  awp (guarded loadable op f) Q l.
Proof. unfold guarded. destruct (loadable op); intros H1 H2; [by apply H1|by apply awp_ret, H2]. Qed.

Lemma driver_end_spec op o l L :
  lib_ok l L → o ∈ L → loadable op = true →
  awp (E := E) (driver_end loadable lib_answer op o) (λ _ l' es, es = [] ∧ lib_ok l' (L ∖ {[o]})) l.
Proof.
  clear blob elapsed_ms. intros Hl Ho Hop. apply guarded_spec; [intros _|by rewrite Hop]. unfold next_call, destroys. awp_steps. split; [done|].
  replace (L ∖ {[o]}) with (L ∖ objs [o]) by (unfold objs; set_solver).
  apply (destroyed_ok [o] _ l); [done|apply NoDup_singleton|unfold objs; set_solver|cbn; lia].
Qed.

(** Opening and dropping a mapping leaves nothing behind, unless it is at address 0. *)
Lemma mapping_closed h bytes l L :
  lib_ok l L → loadable "cuIpcCloseMemHandle" = true →
  awp (E := E) (r ← open_mem_handle loadable lib_answer h bytes;
    match r with Ok m => opened_drop loadable lib_answer m;; mret (Some m) | Err _ => mret None end) (λ r l' es,
    es = [] ∧ match r with
              | Some m => if (dev_ptr m =? 0)%Z then lib_ok l' ({[mapping m]} ∪ L) ∧ mapping m ∉ L else lib_ok l' L
              | None => lib_ok l' L
              end) l.
Proof.
  intros Hl Hclose. unfold open_mem_handle, ipc_open_mem_handle_v2. awp_steps.
  unfold guarded. destruct (loadable "cuIpcOpenMemHandle_v2"); [|by awp_steps].
  unfold next_call. awp_steps. set (c := {| oname := _ |}).
  destruct (created_ok c l L Hl) as [Hn Hcr]; [apply Forall_nil_2|]. destruct (lib_answer _ _) as [z|s]; awp_steps.
  - unfold opened_drop. cbn [dev_ptr mapping]. destruct (Z.eqb_spec z 0) as [->|Hz]; awp_steps; cbn [dev_ptr mapping];
      [by split_and!|].
    eapply awp_mono, driver_end_spec; [|exact Hcr|set_solver|done].
    intros r l' es (-> & Hl'). awp_steps. cbn [dev_ptr]. rewrite (proj2 (Z.eqb_neq _ _)) by done. split; [done|].
    replace L with (({[calls l]} ∪ L) ∖ {[calls l]}) by set_solver. exact Hl'.
  - split; [done|]. eapply (run_call_spec (E := E) lib_answer c) in Hl; [|apply Forall_nil_2].
    unfold run_call, next_call, awp, mbind, act_bind, get, put, modify, mret, act_ret in Hl. cbn in Hl. by apply Hl.
Qed.

(** Events are owned: a request on live events uses only those; it is answered on
    its own channel.  An event it answers with is new and alive, and nothing else is
    made, save that opening the handle of another process is always refused and, when
    the driver opened the event, leaves it alive with no owner. *)
Theorem events_owned s m l L :
  lib_ok l L → Forall (.∈ L) (event_uses m) →
  let '((ch, r), l', _) := event_handle (E := E) loadable lib_answer blob elapsed_ms s m l in
  ch = event_reply m ∧
  match r with
  | Ok (VEvent e) => (∃ ch, m = Create ch) ∧ e ∉ L ∧ lib_ok l' ({[e]} ∪ L)
  | Ok _ => lib_ok l' L
  | Err _ => lib_ok l' L ∨ ∃ h ch e, m = OpenIpcHandle h ch ∧ e ∉ L ∧ lib_ok l' ({[e]} ∪ L)
  end.
Proof.
  intros Hl Hu.
  enough (awp (event_handle (E := E) loadable lib_answer blob elapsed_ms s m) (λ x l' _, x.1 = event_reply m ∧
    match x.2 with
    | Ok (VEvent e) => (∃ ch, m = Create ch) ∧ e ∉ L ∧ lib_ok l' ({[e]} ∪ L)
    | Ok _ => lib_ok l' L
    | Err _ => lib_ok l' L ∨ ∃ h ch e, m = OpenIpcHandle h ch ∧ e ∉ L ∧ lib_ok l' ({[e]} ∪ L)
    end) l) as H.
  { unfold awp in H. by destruct (event_handle _ _ _ _ _ _ _) as [[[ch r] l'] es]. }
  unfold event_handle. destruct s; [|awp_steps; split; [done|by left]]. awp_steps.
  eapply (awp_mono _ (λ r l' _, match r with
    | Ok (VEvent e) => (∃ ch, m = Create ch) ∧ e ∉ L ∧ lib_ok l' ({[e]} ∪ L)
    | Ok _ => lib_ok l' L
    | Err _ => lib_ok l' L ∨ ∃ h ch e, m = OpenIpcHandle h ch ∧ e ∉ L ∧ lib_ok l' ({[e]} ∪ L)
    end)); [intros; by awp_steps|].
  assert (Hdo : ∀ op sym what args, awp (E := E) (event_do loadable lib_answer op sym what (event_uses m) args) (λ r l' _,
    match r with Ok v => v = VDone ∧ lib_ok l' L | Err _ => lib_ok l' L end) l).
  { intros op sym what args. unfold event_do, caught. destruct (loadable sym); [|by awp_steps]. awp_steps. 
    eapply awp_mono, run_call_spec; [|exact Hl|exact Hu]. intros r l' es (_ & _ & _ & Hl'). awp_steps. by destruct r. }
  destruct m as [ch|e st ch|e st ch|e ch|x y ch|e ch|e ch|h ch]; cbn [event_real event_uses] in *.
  2,3,6: eapply awp_mono, Hdo; intros [v|er] l' es; [intros [-> Hl']; done|by left].
  - unfold caught. destruct (loadable _); [|awp_steps; by left]. awp_steps.
    eapply awp_mono, create_spec; [|exact Hl|done]. intros [o|er] l' es (_ & _ & Hr); awp_steps.
    + destruct Hr as (-> & Hn & Hl'). by split_and!; [exists ch|..].
    + left. apply Hr.
  - unfold caught. destruct (loadable _); [|awp_steps; by left]. awp_steps.
    eapply awp_mono, run_call_spec; [|exact Hl|exact Hu]. intros r l' es (_ & _ & _ & Hl'). by awp_steps.
  - unfold caught. destruct (loadable _); [|awp_steps; by left]. awp_steps.
    eapply awp_mono, run_call_spec; [|exact Hl|exact Hu]. intros r l' es (_ & _ & _ & Hl'). awp_steps.
    destruct (elapsed_ms x y); [|by left]. destruct (duration_from_secs _); [done|by left].
  - unfold ipc_get_event_handle, driver_call. awp_steps. apply guarded_spec; intros _; [|by awp_steps; left]. awp_steps.
    eapply awp_mono, run_call_spec; [|exact Hl|exact Hu]. intros r l' es (_ & _ & _ & Hl'). awp_steps.
    destruct r; [done|by left].
  - unfold ipc_open_event_handle, driver_make. awp_steps. apply guarded_spec; intros _; [|by awp_steps; left]. awp_steps.
    eapply awp_mono, create_spec; [|exact Hl|done]. intros [o|er] l' es (_ & _ & Hr); awp_steps.
    + right. destruct Hr as (_ & Hn & Hl'). by eexists _, _, _.
    + left. apply Hr.
Qed.
End owned.

Lemma events_owned_witness :
  let '((ch, r), l', _) := event_handle (E := unit) (λ _, true) (λ _ _, Ok 7%Z) (λ _, []) (λ _ _, Ok f32_zero) EReal
    (OpenIpcHandle {| raw := [] |} 3) Lib_new in
  ch = 3 ∧ r = Err open_ipc_refusal ∧ (lib_ok l' ∅ ∨ ∃ h ch e, OpenIpcHandle {| raw := [] |} 3 = OpenIpcHandle h ch ∧ e ∉ (∅ : gset Obj) ∧
    lib_ok l' ({[e]} ∪ ∅)).
Proof.
  pose proof (events_owned (E := unit) (λ _, true) (λ _ _, Ok 7%Z) (λ _, []) (λ _ _, Ok f32_zero) EReal
    (OpenIpcHandle {| raw := [] |} 3) Lib_new ∅ lib_new_ok (Forall_nil_2 _)) as H.
  destruct (event_handle _ _ _ _ _ _ _) as [[[ch r] l'] es] eqn:He. 
  vm_compute in He. injection He as <- <- <- <-. destruct H as [_ H]. split_and!; [reflexivity|reflexivity|exact H].
Defined.

(** An exported graph leaves no file behind; a print that cannot be read back does. *)
Lemma export_dot_removes loadable print readable path fs dot fs' :
  Dot.export_dot loadable print readable path fs = (Ok dot, fs') → fs' !! path = None.
Proof.
  unfold Dot.export_dot. destruct (Dot.nul_position _ _); [done|]. destruct loadable; [|done].
  destruct (print path fs) as [fs1|]; [|done]. destruct (readable path fs1); [|done]. intros [= _ <-]. apply lookup_delete_eq.
Qed.
