(* ===== verification/Pipeline.v ===== *)
(** * Pipelines

    Models [stage.rs], [executor.rs] and [sink.rs] of
    [crates/atomr-accel-cuda/src/pipeline].  Stages are user code: a stage has a
    state of its own and its [enqueue] is a parameter.  The types that
    [Box<dyn Any>] erases are the codes of a universe [Ty] with decidable equality
    ([TypeId]); streams and events are opaque.  [Streamed] is the driver task of
    [spawn_pipeline] with its two bounded channels. *)

From stdpp Require Import pretty.
From S2P Require Import Prelude Actor Errors.

Section types.
(** The universe of types, with the names [std::any::type_name] prints. *)
Context {Ty : Type} {ty_eq : EqDecision Ty} (den : Ty → Type) (type_name : Ty → string).
Context {Stream Event : Type}.

(** ** Stages *)

Record PipelineStage (A B : Ty) := {
  state : Type;
  cur : state;
  stage_enqueue : state → Stream → option Event → den A → result (Event * den B) GpuError * state;
}.
Arguments state {A B} _.
Arguments cur {A B} _.
Arguments stage_enqueue {A B} _ _ _ _ _.

(** [stage.enqueue(stream, wait_for, input)], with the stage it leaves. *)
Definition enqueue {A B} (s : PipelineStage A B) (stream : Stream) (wait : option Event) (input : den A) :
    result (Event * den B) GpuError * PipelineStage A B :=
  let '(r, st) := stage_enqueue s (cur s) stream wait input in
  (r, {| state := state s; cur := st; stage_enqueue := stage_enqueue s |}).

(** What an executor does: the calls of [enqueue], with the event each returned,
    and the awaited completion. *)
Inductive PipeEff : Type :=
  | Enqueued (stream : Stream) (wait : option Event) (recorded : option Event)
  | Awaited (stream : Stream).

Definition recorded_of {T} (r : result (Event * T) GpuError) : option Event :=
  match r with Ok p => Some p.1 | Err _ => None end.

Context (await : Stream → result unit GpuError).

(** ** The two-stage executor *)

Definition run2 {A B C} (s0 : PipelineStage A B) (s1 : PipelineStage B C) (str0 str1 : Stream) (input : den A) :
    result (den C) GpuError * (PipelineStage A B * PipelineStage B C) * list PipeEff :=
  let '(r0, s0') := enqueue s0 str0 None input in
  let e0 := Enqueued str0 None (recorded_of r0) in
  match r0 with
  | Err e => (Err e, (s0', s1), [e0])
  | Ok (ev0, out0) =>
    let '(r1, s1') := enqueue s1 str1 (Some ev0) out0 in
    let e1 := Enqueued str1 (Some ev0) (recorded_of r1) in
    match r1 with
    | Err e => (Err e, (s0', s1'), [e0; e1])
    | Ok (_, out1) =>
      (match await str1 with Ok _ => Ok out1 | Err e => Err e end, (s0', s1'), [e0; e1; Awaited str1])
    end
  end.

(** ** [run_pipeline] *)

Definition zero_stages : GpuError := Unrecoverable "pipeline has zero stages".
Definition count_mismatch (n k : nat) : GpuError :=
  Unrecoverable ("stage count " +:+ pretty n +:+ " != stream count " +:+ pretty k).
Definition single_only : GpuError :=
  Unrecoverable "run_pipeline currently supports only single-stage chains; use PipelineExecutor for multi-stage heterogeneous pipelines".

(** The loop returns in its first round unless there is only one stage. *)
Definition run_pipeline {A B} (stages : list (PipelineStage A B)) (streams : list Stream) (input : den A) :
    result (den B) GpuError * list (PipelineStage A B) * list PipeEff :=
  match stages with
  | [] => (Err zero_stages, [], [])
  | st :: rest =>
    match streams with
    | str :: more =>
      if length rest =? length more then
        let '(r, st') := enqueue st str None input in
        let e0 := Enqueued str None (recorded_of r) in
        match r with
        | Err e => (Err e, st' :: rest, [e0])
        | Ok (_, out) =>
          match rest with
          | _ :: _ => (Err single_only, st' :: rest, [e0])
          | [] => (match await str with Ok _ => Ok out | Err e => Err e end, [st'], [e0; Awaited str])
          end
        end
      else (Err (count_mismatch (length stages) (length streams)), stages, [])
    | [] => (Err (count_mismatch (length stages) 0), stages, [])
    end
  end.

(** ** The N-stage executor *)

(** [Box<dyn Any + Send>] *)
Definition Any : Type := sigT den.
Definition downcast (t : Ty) (v : Any) : option (den t) :=
  match decide (projT1 v = t) with
  | left H => Some (eq_rect (projT1 v) den (projT2 v) t H)
  | right _ => None
  end.

(** [StageBox<S>] as a [dyn BoxedStage] *)
Record StageBox := { In : Ty; Out : Ty; inner : PipelineStage In Out }.

Definition stage_downcast_failed (t : Ty) : GpuError :=
  Unrecoverable ("PipelineExecutorN: stage input downcast to `" +:+ type_name t +:+ "` failed").
Definition tail_downcast_failed (t : Ty) : GpuError :=
  Unrecoverable ("PipelineExecutorN: tail downcast to `" +:+ type_name t +:+ "` failed").

Definition enqueue_boxed (b : StageBox) (stream : Stream) (wait : option Event) (input : Any) :
    result (Event * Any) GpuError * StageBox * list PipeEff :=
  match downcast (In b) input with
  | None => (Err (stage_downcast_failed (In b)), b, [])
  | Some typed =>
    let '(r, s) := enqueue (inner b) stream wait typed in
    (match r with Ok (ev, out) => Ok (ev, existT (Out b) out) | Err e => Err e end,
     {| In := In b; Out := Out b; inner := s |},
     [Enqueued stream wait (recorded_of r)])
  end.

(** The state of a [PipelineExecutorN] is its list of stages. *)
Definition push {A B} (stages : list StageBox) (s : PipelineStage A B) : list StageBox :=
  stages ++ [{| In := A; Out := B; inner := s |}].

Fixpoint run_loop (stages : list StageBox) (streams : list Stream) (wait : option Event) (payload : Any) :
    result Any GpuError * list StageBox * list PipeEff :=
  match stages, streams with
  | b :: stages, str :: streams =>
    let '(r, b', e1) := enqueue_boxed b str wait payload in
    match r with
    | Err e => (Err e, b' :: stages, e1)
    | Ok (ev, next) =>
      let '(r', stages', e2) := run_loop stages streams (Some ev) next in
      (r', b' :: stages', e1 ++ e2)
    end
  | _, _ => (Ok payload, stages, [])
  end.

Definition no_stages : GpuError := Unrecoverable "PipelineExecutorN: no stages".
Definition countN_mismatch (n k : nat) : GpuError :=
  Unrecoverable ("PipelineExecutorN: stage count " +:+ pretty n +:+ " != stream count " +:+ pretty k).

Definition run (A B : Ty) (streams : list Stream) (input : den A) (stages : list StageBox) :
    result (den B) GpuError * list StageBox * list PipeEff :=
  if length stages =? 0 then (Err no_stages, stages, [])
  else if negb (length streams =? length stages) then
    (Err (countN_mismatch (length stages) (length streams)), stages, [])
  else
    let '(r, stages', es) := run_loop stages streams None (existT A input) in
    match r, last streams with
    | Err e, _ => (Err e, stages', es)
    | Ok payload, Some tail =>
      (match await tail with
       | Err e => Err e
       | Ok _ => match downcast B payload with Some out => Ok out | None => Err (tail_downcast_failed B) end
       end, stages', es ++ [Awaited tail])
    | Ok _, None => (Err no_stages, stages', es)
    end.

(** ** Typed chains: the reference *)

Inductive Chain : Ty → Ty → Type :=
  | Last {A B} (s : PipelineStage A B) : Chain A B
  | Link {A M B} (s : PipelineStage A M) (c : Chain M B) : Chain A B.

Fixpoint erase {A B} (c : Chain A B) : list StageBox :=
  match c with
  | @Last A B s => [{| In := A; Out := B; inner := s |}]
  | @Link A M B s c => {| In := A; Out := M; inner := s |} :: erase c
  end.

(** The stages in turn, each on the output and the event of the one before. *)
Fixpoint typed_loop {A B} (c : Chain A B) (streams : list Stream) (wait : option Event) :
    den A → result (den B) GpuError * Chain A B * list PipeEff :=
  match c with
  | @Last A B s => λ input,
    match streams with
    | str :: _ =>
      let '(r, s') := enqueue s str wait input in
      (match r with Ok p => Ok p.2 | Err e => Err e end, Last s', [Enqueued str wait (recorded_of r)])
    | [] => (Err no_stages, Last s, [])
    end
  | @Link A M B s c => λ input,
    match streams with
    | str :: streams =>
      let '(r, s') := enqueue s str wait input in
      let e0 := Enqueued str wait (recorded_of r) in
      match r with
      | Err e => (Err e, Link s' c, [e0])
      | Ok (ev, out) =>
        let '(r', c', es) := typed_loop c streams (Some ev) out in (r', Link s' c', e0 :: es)
      end
    | [] => (Err no_stages, Link s c, [])
    end
  end.

Definition typed_run {A B} (c : Chain A B) (streams : list Stream) (input : den A) :
    result (den B) GpuError * Chain A B * list PipeEff :=
  let '(r, c', es) := typed_loop c streams None input in
  match r, last streams with
  | Ok out, Some tail => (match await tail with Ok _ => Ok out | Err e => Err e end, c', es ++ [Awaited tail])
  | Ok _, None => (Err no_stages, c', es)
  | Err e, _ => (Err e, c', es)
  end.

(** *** The executor is the typed composition *)

Lemma downcast_same t (v : den t) : downcast t (existT t v) = Some v.
Proof.
  unfold downcast. simpl. destruct (decide (t = t)) as [H|]; [|done]. by rewrite (proof_irrel H eq_refl).
Qed.

Lemma downcast_other t u (v : den u) : u ≠ t → downcast t (existT u v) = None.
Proof. intros Hne. unfold downcast. simpl. by destruct (decide (u = t)). Qed.

Lemma length_erase {A B} (c : Chain A B) : 0 < length (erase c).
Proof. destruct c; simpl; lia. Qed.

Lemma run_loop_typed {A B} (c : Chain A B) streams wait (input : den A) :
  length streams = length (erase c) →
  run_loop (erase c) streams wait (existT A input) =
    let '(r, c', es) := typed_loop c streams wait input in
    (match r with Ok out => Ok (existT B out) | Err e => Err e end, erase c', es).
Proof.
  revert streams wait input. induction c as [A B s|A M B s c IH]; intros [|str streams] wait input Hlen;
    try (simpl in Hlen; pose proof (length_erase c); lia); try done.
  - destruct streams; [|done]. simpl. unfold enqueue_boxed. cbn [In Out inner]. rewrite downcast_same.
    destruct (enqueue s str wait input) as [[[ev out]|e] s']; done.
  - injection Hlen as Hlen. cbn [erase run_loop typed_loop]. unfold enqueue_boxed. cbn [In Out inner].
    rewrite downcast_same. destruct (enqueue s str wait input) as [[[ev out]|e] s']; [|done].
    cbn [recorded_of]. rewrite IH by done. by destruct (typed_loop c streams (Some ev) out) as [[[r|e] c'] es].
Qed.

(** The events of the calls: each stage waits for what its predecessor recorded,
    and an awaited completion comes last. *)
Fixpoint handed_off (wait : option Event) (es : list PipeEff) : Prop :=
  match es with
  | [] => True
  | Enqueued _ w ev :: es => w = wait ∧ (es ≠ [] → is_Some ev) ∧ handed_off ev es
  | Awaited _ :: es => es = []
  end.

Definition stream_of (e : PipeEff) : Stream := match e with Enqueued s _ _ | Awaited s => s end.

Lemma run_loop_events stages streams wait payload tail :
  let '(r, _, es) := run_loop stages streams wait payload in
  handed_off wait (es ++ match r with Ok _ => [Awaited tail] | Err _ => [] end) ∧
  (stream_of <$> es) `prefix_of` streams ∧
  (length streams = length stages → is_ok r = true → stream_of <$> es = streams).
Proof.
  revert streams wait payload.
  induction stages as [|b stages IH]; intros [|str streams] wait payload; try (split_and!; [done|apply prefix_nil|done]).
  cbn [run_loop]. unfold enqueue_boxed. destruct (downcast (In b) payload) as [v|]; [|split_and!; [done|apply prefix_nil|done]].
  destruct (enqueue (inner b) str wait v) as [[[ev out]|e] s'].
  - specialize (IH streams (Some ev) (existT (Out b) out)).
    destruct (run_loop stages streams (Some ev) _) as [[r st'] es]. destruct IH as (Hh & Hp & Hall).
    split_and!; [done|by apply prefix_cons|]. intros [= Hlen] Hok. cbn. by rewrite Hall.
  - split_and!; [by split|apply prefix_cons, prefix_nil|done].
Qed.

(** A stage that does not accept its predecessor's output. *)
Lemma run_loop_mismatch {A B} (c : Chain A B) b rest streams more wait (input : den A) :
  length streams = length (erase c) → In b ≠ B →
  ∃ stages', run_loop (erase c ++ b :: rest) (streams ++ more) wait (existT A input) =
    let '(r, _, es) := typed_loop c streams wait input in
    (match r, more with
     | Ok _, _ :: _ => Err (stage_downcast_failed (In b))
     | Ok out, [] => Ok (existT B out)
     | Err e, _ => Err e
     end, stages', es).
Proof.
  intros Hlen Hne. revert streams wait input Hlen.
  induction c as [A B s|A M B s c IH]; intros [|str streams] wait input Hlen;
    try (simpl in Hlen; pose proof (length_erase c); lia); try done.
  - destruct streams; [|done]. cbn [erase typed_loop app run_loop]. unfold enqueue_boxed at 1. cbn [In Out inner].
    rewrite downcast_same. destruct (enqueue s str wait input) as [[[ev out]|e] s']; [|by eexists].
    destruct more as [|str2 more]; cbn [run_loop]; [by eexists|]. unfold enqueue_boxed.
    rewrite downcast_other by done. by eexists.
  - injection Hlen as Hlen. cbn [erase run_loop typed_loop app]. unfold enqueue_boxed. cbn [In Out inner].
    rewrite downcast_same. destruct (enqueue s str wait input) as [[[ev out]|e] s']; [|by eexists].
    cbn [recorded_of]. destruct (IH Hne streams (Some ev) out Hlen) as [st' ->].
    destruct (typed_loop c streams (Some ev) out) as [[r c'] es]. by eexists.
Qed.

(** The erased executor is the typed composition: on the stages of a chain
    whose types fit, with a stream for each, the executor's result, the states it
    leaves and the calls it makes are those of the typed chain, in which every
    stage runs on the output of the one before; the two-stage executor is the
    chain of its two stages.  Whatever the stages, each call waits for the event its
    predecessor recorded, the streams are used in order and awaited once at the end;
    and a stage whose input type is not its predecessor's output stops the run with
    the documented error after the stages before it. *)
Theorem pipeline_erasure {A B C : Ty} (c : Chain A B) (streams : list Stream) (input : den A) :
  length streams = length (erase c) →
  run A B streams input (erase c) =
    (let '(r, c', es) := typed_run c streams input in (r, erase c', es)) ∧
  (∀ (s0 : PipelineStage A B) (s1 : PipelineStage B C) str0 str1,
     let '(r, (s0', s1'), es) := run2 s0 s1 str0 str1 input in
     typed_run (Link s0 (Last s1)) [str0; str1] input = (r, Link s0' (Last s1'), es)) ∧
  (∀ D stages, let '(_, _, es) := run A D streams input stages in
     handed_off None es ∧ (stream_of <$> es) `prefix_of` (streams ++ option_list (last streams))) ∧
  (∀ b rest more D, In b ≠ B → length more = S (length rest) →
     let '(r, _, es) := typed_loop c streams None input in
     is_ok r = true → ∃ stages', run A D (streams ++ more) input (erase c ++ b :: rest) =
       (Err (stage_downcast_failed (In b)), stages', es)).
Proof.
  intros Hlen. pose proof (length_erase c) as Hpos. split_and!.
  - unfold run, typed_run. rewrite (proj2 (Nat.eqb_neq _ 0)), (proj2 (Nat.eqb_eq (length streams) _)) by lia.
    cbn [negb]. rewrite run_loop_typed by done.
    destruct (typed_loop c streams None input) as [[[out|e] c'] es]; destruct (last streams); try done.
    destruct (await _); [by rewrite downcast_same|done].
  - intros s0 s1 str0 str1. unfold run2, typed_run. cbn [typed_loop last].
    destruct (enqueue s0 str0 None input) as [[[ev0 out0]|e] s0']; [|done].
    by destruct (enqueue s1 str1 (Some ev0) out0) as [[[ev1 out1]|e] s1'].
  - intros D stages. unfold run. destruct (length stages =? 0); [split; [done|apply prefix_nil]|].
    destruct (Nat.eqb_spec (length streams) (length stages)) as [Heq|]; [|split; [done|apply prefix_nil]]. cbn [negb].
    destruct (last streams) as [tail|] eqn:Hl.
    2:{ apply last_None in Hl as ->. destruct stages; simpl; (split; [done|apply prefix_nil]). }
    pose proof (run_loop_events stages streams None (existT A input) tail) as Hev.
    destruct (run_loop stages streams None (existT A input)) as [[[payload|e] st'] es]; destruct Hev as (Hh & Hp & Hall).
    + split; [done|]. rewrite fmap_app, Hall by done. done.
    + rewrite app_nil_r in Hh. split; [done|]. by apply prefix_app_r.
  - intros b rest more D Hne Hmore.
    destruct (run_loop_mismatch c b rest streams more None input Hlen Hne) as [st' Hrun].
    destruct (typed_loop c streams None input) as [[[out|e] c'] es]; [|done]. intros _.
    unfold run. rewrite !length_app, Hlen, Hmore. cbn [length].
    rewrite (proj2 (Nat.eqb_neq _ 0)), (proj2 (Nat.eqb_eq _ _)) by lia. cbn [negb]. rewrite Hrun.
    destruct more; [done|]. by eexists.
Qed.
End types.

(** ** A concrete chain *)

Inductive demo_ty : Type := TNat | TBool.
#[global] Instance demo_ty_eq : EqDecision demo_ty.
Proof. solve_decision. Defined.
Definition demo_den (t : demo_ty) : Type := match t with TNat => nat | TBool => bool end.
Definition demo_name (t : demo_ty) : string := match t with TNat => "nat" | TBool => "bool" end.

(** Stages that count their calls; the event is the stream and the count. *)
Definition demo_stage {A B : demo_ty} (f : demo_den A → demo_den B) : PipelineStage demo_den (Stream := nat) (Event := nat * nat) A B :=
  {| state := nat; cur := 0; stage_enqueue := λ n str _ x, (Ok ((str, n), f x), S n) |}.
Definition double : PipelineStage demo_den TNat TNat := demo_stage (A := TNat) (B := TNat) (λ n, n + n).
Definition is_even : PipelineStage demo_den TNat TBool := demo_stage (A := TNat) (B := TBool) Nat.even.
Definition demo_chain : Chain demo_den TNat TBool := Link _ double (Last _ is_even).
Definition demo_run := run (Event := nat * nat) demo_den demo_name (λ _, Ok tt) TNat TBool [10; 20] 7.

Lemma pipeline_erasure_witness :
  (demo_run (erase demo_den demo_chain)).1.1 = Ok true ∧
  (demo_run (erase demo_den demo_chain)).2 = [Enqueued 10 None (Some (10, 0)); Enqueued 20 (Some (10, 0)) (Some (20, 0)); Awaited 20].
Proof.
  destruct (pipeline_erasure demo_den demo_name (λ _, Ok tt) (C := TNat) demo_chain [10; 20] 7 eq_refl) as [H _].
  unfold demo_run. rewrite H. split; reflexivity.
Defined.

(** The stages in the wrong order are rejected when the second is reached. *)
Example demo_mismatch :
  (demo_run (push demo_den (push demo_den [] is_even) double)).1.1 =
    Err (Unrecoverable "PipelineExecutorN: stage input downcast to `nat` failed").
Proof. reflexivity. Qed.

(** [run_pipeline] refuses a sequence of two stages after it enqueued the first. *)
Lemma run_pipeline_refuses {Ty} (den : Ty → Type) {Stream Event} (await : Stream → result unit GpuError) {A B : Ty}
    (s0 s1 : PipelineStage (Event := Event) den A B) rest str0 str1 more (input : den A) :
  is_ok (run_pipeline den await (s0 :: s1 :: rest) (str0 :: str1 :: more) input).1.1 = false ∧
  (length rest = length more →
     (run_pipeline den await (s0 :: s1 :: rest) (str0 :: str1 :: more) input).2 =
       [Enqueued str0 None (recorded_of (enqueue den s0 str0 None input).1)]).
Proof.
  unfold run_pipeline. cbn [length]. split.
  - destruct (_ =? _); [|done]. by destruct (enqueue den s0 str0 None input) as [[[ev out]|e] s'].
  - intros ->. rewrite Nat.eqb_refl. by destruct (enqueue den s0 str0 None input) as [[[ev out]|e] s'].
Qed.
