(* ===== verification/Sink.v ===== *)
(** * The pipeline driver

    Models [crates/atomr-accel-cuda/src/pipeline/sink.rs]: [spawn_pipeline] links a
    bounded head channel, a driver task that runs the executor of [Pipeline.v] on
    one item at a time, and a bounded tail channel.  Producers, the driver and the
    consumer interleave freely: their moves are the steps of [pstep].  The texts of
    [tokio]'s send errors are parameters. *)

From S2P Require Import Prelude Actor Errors Pipeline.

Section sink.
Context {Ty : Type} `{!EqDecision Ty} (den : Ty → Type) (type_name : Ty → string).
Context {Stream Event : Type} (await : Stream → result unit GpuError).
(** The types of the items and results, the streams, the channel capacities. *)
Context (A B : Ty) (streams : list Stream) (head_capacity tail_capacity : nat).
Context (try_send_full try_send_closed : string).

Abbreviation Executor := (list (StageBox (Event := Event) (Stream := Stream) den)).
Abbreviation Output := (result (den B) GpuError).

(** One item through the executor. *)
Definition item (ex : Executor) (i : den A) : Output * Executor :=
  let '(r, ex', _) := run den type_name await A B streams i ex in (r, ex').

(** Where the driver task is: at [in_rx.recv()], at [out_tx.send(result)], over. *)
Inductive DriverTask : Type :=
  | Receiving
  | SendingOut (r : Output)
  | Ended.

Record Pipe := {
  head : list (den A);       (** the head channel *)
  senders : bool;            (** some [PipelineSink] is left *)
  driver : DriverTask;
  executor : Executor;
  tail : list Output;        (** the tail channel *)
  source : bool;             (** the [PipelineSource] is left *)
}.

Definition spawn_pipeline (ex : Executor) : Pipe :=
  {| head := []; senders := true; driver := Receiving; executor := ex; tail := []; source := true |}.

Definition ended (p : Pipe) : bool := match driver p with Ended => true | _ => false end.
Definition head_cap : nat := head_capacity `max` 1.
Definition tail_cap : nat := tail_capacity `max` 1.

Definition set_head (h : list (den A)) (p : Pipe) : Pipe :=
  {| head := h; senders := senders p; driver := driver p; executor := executor p; tail := tail p; source := source p |}.

(** [PipelineSink::submit]: [None] while it waits for room. *)
Definition submit (i : den A) (p : Pipe) : option (result unit GpuError * Pipe) :=
  if ended p then Some (Err (Unrecoverable "PipelineSink: driver dropped"), p)
  else if length (head p) <? head_cap then Some (Ok tt, set_head (head p ++ [i]) p)
  else None.

(** [PipelineSink::try_submit] never waits. *)
Definition try_submit (i : den A) (p : Pipe) : result unit GpuError * Pipe :=
  let refused text := (Err (Unrecoverable ("PipelineSink try_submit: " +:+ text)), p) in
  if ended p then refused try_send_closed
  else if length (head p) <? head_cap then (Ok tt, set_head (head p ++ [i]) p)
  else refused try_send_full.

(** The driver's next move: [None] while it waits, and once it is over.  When it
    ends its receiver and what is queued there are dropped. *)
Definition drive (p : Pipe) : option Pipe :=
  let finish := {| head := []; senders := senders p; driver := Ended; executor := executor p;
                   tail := tail p; source := source p |} in
  match driver p with
  | Ended => None
  | Receiving =>
    match head p with
    | i :: h =>
      let '(r, ex) := item (executor p) i in
      Some {| head := h; senders := senders p; driver := SendingOut r; executor := ex;
              tail := tail p; source := source p |}
    | [] => if senders p then None else Some finish
    end
  | SendingOut r =>
    if negb (source p) then Some finish
    else if length (tail p) <? tail_cap then
      Some {| head := head p; senders := senders p; driver := Receiving; executor := executor p;
              tail := tail p ++ [r]; source := source p |}
    else None
  end.

(** [ReceiverStream::next]: the next result, or the end of the stream. *)
Definition next (p : Pipe) : option (option Output * Pipe) :=
  match tail p with
  | r :: t => Some (Some r, {| head := head p; senders := senders p; driver := driver p;
                               executor := executor p; tail := t; source := source p |})
  | [] => if ended p then Some (None, p) else None
  end.

Definition drop_sinks (p : Pipe) : Pipe :=
  {| head := head p; senders := false; driver := driver p; executor := executor p; tail := tail p; source := source p |}.
Definition drop_source (p : Pipe) : Pipe :=
  {| head := head p; senders := senders p; driver := driver p; executor := executor p; tail := []; source := false |}.

(** ** Executions *)

(** A step, with the items it accepts and the results it delivers. *)
Inductive pstep : Pipe → list (den A) → list Output → Pipe → Prop :=
  | PSubmit i p p' : senders p = true → submit i p = Some (Ok tt, p') → pstep p [i] [] p'
  | PSubmitRefused i p e p' : senders p = true → submit i p = Some (Err e, p') → pstep p [] [] p'
  | PTrySubmit i p p' : senders p = true → try_submit i p = (Ok tt, p') → pstep p [i] [] p'
  | PTryRefused i p e p' : senders p = true → try_submit i p = (Err e, p') → pstep p [] [] p'
  | PDrive p p' : drive p = Some p' → pstep p [] [] p'
  | PNext p r p' : source p = true → next p = Some (Some r, p') → pstep p [] [r] p'
  | PDone p p' : source p = true → next p = Some (None, p') → pstep p [] [] p'
  | PDropSinks p : pstep p [] [] (drop_sinks p)
  | PDropSource p : pstep p [] [] (drop_source p).

Inductive psteps : Pipe → list (den A) → list Output → Pipe → Prop :=
  | PSRefl p : psteps p [] [] p
  | PSSnoc p acc out p1 a o p2 : psteps p acc out p1 → pstep p1 a o p2 → psteps p (acc ++ a) (out ++ o) p2.

(** The reference: the items one by one. *)
Fixpoint outputs (ex : Executor) (items : list (den A)) : list Output :=
  match items with [] => [] | i :: items => let '(r, ex') := item ex i in r :: outputs ex' items end.
Fixpoint after (ex : Executor) (items : list (den A)) : Executor :=
  match items with [] => ex | i :: items => after (item ex i).2 items end.

Definition in_flight (p : Pipe) : list Output := match driver p with SendingOut r => [r] | _ => [] end.

Lemma outputs_app ex xs ys : outputs ex (xs ++ ys) = outputs ex xs ++ outputs (after ex xs) ys.
Proof.
  revert ex. induction xs as [|x xs IH]; intros ex; simpl; [done|].
  destruct (item ex x) as [r ex']. simpl. by rewrite IH.
Qed.
Lemma after_app ex xs ys : after ex (xs ++ ys) = after (after ex xs) ys.
Proof. revert ex. induction xs as [|x xs IH]; intros ex; simpl; [done|apply IH]. Qed.

Lemma length_outputs ex xs : length (outputs ex xs) = length xs.
Proof. revert ex. induction xs as [|x xs IH]; intros ex; simpl; [done|]. destruct (item ex x). simpl. by rewrite IH. Qed.

(** The state after accepting [acc] and delivering [out]: [done] were processed. *)
Definition pinv (ex0 : Executor) (acc : list (den A)) (out : list Output) (p : Pipe) : Prop :=
  ∃ done,
    executor p = after ex0 done ∧ done `prefix_of` acc ∧
    out `prefix_of` outputs ex0 done ∧
    (source p = true → out ++ tail p ++ in_flight p = outputs ex0 done) ∧
    (source p = false → tail p = []) ∧
    (ended p = false → acc = done ++ head p) ∧
    (ended p = true → head p = [] ∧ (source p = true → acc = done ∧ senders p = false)) ∧
    length (head p) ≤ head_cap ∧ length (tail p) ≤ tail_cap.

Lemma pinv_accept ex0 acc out p i :
  pinv ex0 acc out p → senders p = true → ended p = false → length (head p) < head_cap →
  pinv ex0 (acc ++ [i]) out (set_head (head p ++ [i]) p).
Proof.
  intros (dn & He & Hp & Ho & Hs & Hn & Ha & Hd & Hh & Ht) Hsn He1 Hlt. exists dn.
  unfold set_head. cbn. split_and!; try done.
  - by apply prefix_app_r.
  - intros _. rewrite (Ha He1). by rewrite app_assoc.
  - intros Hf. unfold ended in *. cbn in Hf. congruence.
  - rewrite length_app. simpl. lia.
Qed.

Lemma pinv_drive ex0 acc out p p' : pinv ex0 acc out p → drive p = Some p' → pinv ex0 acc out p'.
Proof.
  intros (dn & He & Hp & Ho & Hs & Hn & Ha & Hd & Hh & Ht) Hdr. unfold drive in Hdr.
  unfold ended, in_flight in *. destruct (driver p) as [|r|] eqn:Hdv; [| |done].
  - specialize (Ha eq_refl). destruct (head p) as [|i h] eqn:Hhd.
    + destruct (senders p) eqn:Hsn; [done|]. injection Hdr as <-. exists dn. unfold ended, in_flight. cbn.
      rewrite app_nil_r in Ha. split_and!; try done; lia.
    + destruct (item (executor p) i) as [r ex] eqn:Hit. injection Hdr as <-. exists (dn ++ [i]).
      assert (Hout : outputs ex0 (dn ++ [i]) = outputs ex0 dn ++ [r]).
      { rewrite outputs_app, <-He. simpl. by rewrite Hit. }
      unfold ended, in_flight. cbn. simpl in Hh. rewrite Hout. split_and!; try done.
      * rewrite after_app, <-He. simpl. by rewrite Hit.
      * rewrite Ha. exists h. by rewrite <-app_assoc.
      * by apply prefix_app_r.
      * intros Hsr. rewrite <-(Hs Hsr), app_nil_r. by rewrite app_assoc.
      * intros _. rewrite Ha. by rewrite <-app_assoc.
      * lia.
  - specialize (Ha eq_refl). destruct (source p) eqn:Hsr; cbn [negb] in Hdr.
    + destruct (Nat.ltb_spec (length (tail p)) tail_cap); [|done]. injection Hdr as <-. exists dn.
      unfold ended, in_flight. cbn. rewrite length_app. cbn. split_and!; try done; [|lia].
      intros _. by rewrite app_nil_r, Hs.
    + injection Hdr as <-. exists dn. unfold ended, in_flight. cbn. split_and!; try done; lia.
Qed.

Lemma pinv_step ex0 acc out p a o p' :
  pinv ex0 acc out p → pstep p a o p' → pinv ex0 (acc ++ a) (out ++ o) p'.
Proof.
  intros Hi Hst. destruct Hst as [i p p' Hsn Hs|i p e p' Hsn Hs|i p p' Hsn Hs|i p e p' Hsn Hs|p p' Hs|p r p' Hsr Hs|p p' Hsr Hs|p|p];
    rewrite ?app_nil_r.
  1, 2: unfold submit in Hs; destruct (ended p) eqn:He;
    [|destruct (Nat.ltb_spec (length (head p)) head_cap); [|done]]; simplify_eq; try done; by apply pinv_accept.
  1, 2: unfold try_submit in Hs; destruct (ended p) eqn:He;
    [|destruct (Nat.ltb_spec (length (head p)) head_cap)]; simplify_eq; try done; by apply pinv_accept.
  - by apply pinv_drive with p.
  - unfold next in Hs. destruct (tail p) as [|r1 t] eqn:Htl; [by destruct (ended p)|]. injection Hs as -> <-.
    destruct Hi as (dn & He & Hp & Ho & Hss & Hn & Ha & Hd & Hh & Ht). exists dn.
    rewrite Htl in *. pose proof (Hss Hsr) as Hall. unfold ended, in_flight in *. cbn in *. split_and!; try done.
    + exists (t ++ in_flight p). rewrite <-Hall. unfold in_flight. by rewrite <-app_assoc.
    + intros _. by rewrite <-app_assoc.
    + congruence.
    + lia.
  - unfold next in Hs. destruct (tail p); [|done]. destruct (ended p); [|done]. by injection Hs as <-.
  - destruct Hi as (dn & He & Hp & Ho & Hs & Hn & Ha & Hd & Hh & Ht). exists dn. split_and!; try done.
    intros Hf. destruct (Hd Hf) as [Hd1 Hd2]. split; [done|]. intros Hsr. split; [by apply Hd2|done].
  - destruct Hi as (dn & He & Hp & Ho & Hs & Hn & Ha & Hd & Hh & Ht). exists dn. cbn. split_and!; try done; try lia.
    intros Hf. split; [by apply Hd|done].
Qed.

Lemma psteps_inv ex0 acc out p : psteps (spawn_pipeline ex0) acc out p → pinv ex0 acc out p.
Proof.
  intros Hs. remember (spawn_pipeline ex0) as p0 eqn:E. induction Hs as [q|q acc out p1 a o p2 Hs IH Hst]; subst.
  - exists []. cbn. split_and!; try done; unfold head_cap, tail_cap; lia.
  - eapply pinv_step; [by apply IH|done].
Qed.

(** The work left: every move of the driver and every result taken lowers it. *)
Definition work (p : Pipe) : nat :=
  3 * length (head p) + 2 * length (in_flight p) + length (tail p) + (if ended p then 0 else 1).

Lemma drive_lowers p p' : drive p = Some p' → work p' < work p.
Proof.
  unfold drive, work, in_flight, ended. destruct (driver p) as [|r|] eqn:Hd; [| |done].
  - destruct (head p) as [|i h]; [destruct (senders p); [done|]; intros [= <-]; simpl; lia|].
    destruct (item (executor p) i) as [r ex]. intros [= <-]. simpl. lia.
  - destruct (negb (source p)); [intros [= <-]; simpl; lia|]. case_match; [|done].
    intros [= <-]. simpl. rewrite length_app. simpl. lia.
Qed.

Lemma next_lowers p r p' : next p = Some (Some r, p') → work p' < work p.
Proof.
  unfold next. destruct (tail p) as [|r1 t] eqn:Ht; [by destruct (ended p)|]. intros [= -> <-].
  unfold work, in_flight, ended. cbn. rewrite Ht. simpl. lia.
Qed.

(** Nothing is left to do for the driver and the consumer but to wait for more
    items, or for the end. *)
Lemma quiet_done p :
  source p = true → drive p = None → (∀ r p', next p ≠ Some (Some r, p')) →
  tail p = [] ∧ in_flight p = [] ∧ (ended p = false → head p = [] ∧ senders p = true).
Proof.
  intros Hsr Hd Hn. unfold drive in Hd. unfold next in Hn.
  destruct (tail p) as [|r t]; [|by edestruct Hn]. split; [done|].
  unfold in_flight, ended. destruct (driver p) as [|r|]; [| |done].
  - destruct (head p) as [|i h]; [|by destruct (item (executor p) i)]. destruct (senders p); done.
  - rewrite Hsr in Hd. cbn [negb length] in Hd. rewrite (proj2 (Nat.ltb_lt 0 tail_cap)) in Hd; [done|].
    unfold tail_cap. lia.
Qed.

(** C10 (the streamed pipeline loses and reorders nothing): however producers,
    driver and consumer interleave, the results delivered are a prefix of what the
    executor gives for the accepted items one after the other, an item's failure
    included; while the source is held each accepted item is delivered, in the tail
    channel, in the driver's hands or in the head channel, and the channels stay
    within their capacities; and the driver and the consumer can always go on, for
    at most [work] moves, until everything accepted is delivered and, once the
    sinks are dropped, the stream ends. *)
Theorem pipeline_stream (ex0 : Executor) (acc : list (den A)) (out : list Output) (p : Pipe) :
  psteps (spawn_pipeline ex0) acc out p →
  out `prefix_of` outputs ex0 acc ∧
  length (head p) ≤ head_cap ∧ length (tail p) ≤ tail_cap ∧
  (source p = true →
     length acc = length out + length (tail p) + length (in_flight p) + length (head p) ∧
     ((∃ p', drive p = Some p' ∧ work p' < work p) ∨
      (∃ r p', next p = Some (Some r, p') ∧ work p' < work p) ∨
      (out = outputs ex0 acc ∧ (senders p = false → next p = Some (None, p))))).
Proof.
  intros Hs. destruct (psteps_inv _ _ _ _ Hs) as (dn & He & [more ->] & Ho & Hss & Hn & Ha & Hd & Hh & Ht).
  split_and!; [|done|done|].
  { rewrite outputs_app. by apply prefix_app_r. }
  intros Hsr. pose proof (Hss Hsr) as Hall. assert (Hmore : more = head p).
  { destruct (ended p) eqn:Hen.
    - destruct (Hd eq_refl) as [-> Hacc]. destruct (Hacc Hsr) as [Hacc' _].
      rewrite <-(app_nil_r dn) in Hacc' at 2. by apply app_inv_head in Hacc'.
    - by apply (app_inv_head dn), Ha. }
  split.
  { rewrite Hmore, length_app, <-(length_outputs ex0 dn), <-Hall, !length_app. lia. }
  destruct (drive p) as [p'|] eqn:Hdr; [left; exists p'; split; [done|by apply drive_lowers]|right].
  destruct (next p) as [[[r|] p']|] eqn:Hnx.
  { left. exists r, p'. split; [done|by eapply next_lowers]. }
  all: right; destruct (quiet_done p Hsr Hdr) as (Ht0 & Hf0 & Hq); [by intros r1 p1; rewrite Hnx|].
  all: rewrite Ht0, Hf0, !app_nil_r in Hall.
  all: unfold next in Hnx; rewrite Ht0 in Hnx; destruct (ended p) eqn:Hen; try done.
  - destruct (Hd eq_refl) as [Hh0 _]. rewrite Hmore, Hh0, app_nil_r. split; [done|]. by injection Hnx as ->.
  - destruct (Hq eq_refl) as [Hh0 Hsn]. rewrite Hmore, Hh0, app_nil_r. split; [done|]. congruence.
Qed.
End sink.

(** Two items are submitted, the first is processed and received. *)
Abbreviation demo_psteps :=
  (psteps demo_den demo_name (λ _, Ok tt) TNat TBool [10; 20] 2 1 "full" "closed").
Definition demo_pipe : Pipe demo_den (Event := nat * nat) TNat TBool :=
  spawn_pipeline demo_den TNat TBool (erase demo_den demo_chain).

Lemma demo_steps : ∃ p, demo_psteps demo_pipe [7; 3] [Ok true] p ∧ source _ _ _ p = true.
Proof.
  pose (snoc := PSSnoc demo_den demo_name (λ _, Ok tt) TNat TBool [10; 20] 2 1 "full" "closed" (Event := nat * nat)).
  eexists. split.
  - eapply (snoc _ [7; 3] [] _ [] [Ok true]).
    { eapply (snoc _ [7; 3] [] _ [] []).
      { eapply (snoc _ [7; 3] [] _ [] []).
        { eapply (snoc _ [7] [] _ [3] []).
          { eapply (snoc _ [] [] _ [7] []); [apply PSRefl|by eapply PSubmit]. }
          by eapply PTrySubmit. }
        by eapply PDrive. }
      by eapply PDrive. }
    by eapply PNext.
  - reflexivity.
Qed.

Lemma pipeline_stream_witness :
  ∃ p, demo_psteps demo_pipe [7; 3] [Ok true] p ∧ length (tail _ _ _ p) + length (in_flight _ _ _ p) + length (head _ _ _ p) = 1.
Proof.
  destruct demo_steps as (p & Hs & Hsr). exists p. split; [exact Hs|].
  destruct (pipeline_stream demo_den demo_name (λ _, Ok tt) TNat TBool [10; 20] 2 1 "full" "closed" _ _ _ _ Hs)
    as (_ & _ & _ & H).
  apply (Nat.add_cancel_l _ _ 1). rewrite !Nat.add_assoc. symmetry. exact (proj1 (H Hsr)).
Defined.
