(* ===== verification/Graph.v ===== *)
(** * CUDA graphs: recording a script and replaying it

    Models [crates/atomr-accel-cuda/src/graph/mod.rs], the ops of
    [graph/record/{sgemm,memcpy,rng_fill_uniform,fft_r2c}.rs] with the recorders of
    [kernel/record.rs], and the update classification of [graph/exec_update.rs].
    Buffers and handles are the [Gpu] of [Envelope.v].  What the driver and the
    libraries answer to this message's calls comes with it ([CaptureEnv]).  An op
    that a client implements is what it captures and what it returns. *)

From S2P Require Import Prelude Actor Errors DeviceState Completion Envelope.

Abbreviation graph_id := nat (only parsing).

Definition LIB : string := "graph".

Record GraphHandle := { graph : option graph_id; handle_generation : Z }.

Record BlasSgemmOp := { a : GpuRef; b : GpuRef; c : GpuRef; m : Z; n : Z; k : Z; alpha : Z; beta : Z }.

Inductive GraphOp : Type :=
  | SgemmOp (inner : option BlasSgemmOp)
  | MemcpyOp (inner : option (GpuRef * GpuRef))
  | RngFillUniformOp (inner : option GpuRef)
  | FftR2COp (inner : option (GpuRef * GpuRef))
  | External (name : string) (nodes : list Call) (outcome : result unit GpuError).

Definition op_name (op : GraphOp) : string :=
  match op with
  | SgemmOp _ => "graph::sgemm"
  | MemcpyOp _ => "graph::memcpy"
  | RngFillUniformOp _ => "graph::rng_fill_uniform"
  | FftR2COp _ => "graph::fft_r2c"
  | External name _ _ => name
  end.

(** The handles an op holds. *)
Definition op_refs (op : GraphOp) : list GpuRef :=
  match op with
  | SgemmOp (Some o) => [a o; b o; c o]
  | MemcpyOp (Some (src, dst)) | FftR2COp (Some (src, dst)) => [src; dst]
  | RngFillUniformOp (Some dst) => [dst]
  | _ => []
  end.

Record GraphRecordCtx := { stream : option stream_id; blas : bool; rng : bool; fft : option Z }.

Inductive GraphMsg : Type :=
  | Record_ (script : list GraphOp) (reply : nat)
  | Launch (handle : GraphHandle) (reply : nat)
  | SetFftPlan (plan : Z) (reply : nat).

Inductive GraphEff : Type :=
  | BeginCapture
  | Captured (c : Call)
  | Wrote (sl : slice_id)
  | EndCapture
  | LaunchGraph (g : graph_id)
  | AwaitTask (reply : nat)      (* the task that awaits the stream and replies *)
  | ReplyRecord (reply : nat) (r : result GraphHandle GpuError)
  | ReplyLaunch (reply : nat) (r : result unit GpuError)
  | ReplyPlan (reply : nat).

(** [GraphInner::Real]; the stream and the completion strategy stay the same. *)
Record RealInner := { r_stream : stream_id; r_blas : bool; r_rng : bool; r_fft : option Z }.
Record GraphActor := { inner : option RealInner; world : Gpu }.

Definition available (r : Caught (result unit string)) : bool :=
  match r with Returned (Ok _) => true | _ => false end.
(** [GraphActor::props] and [mock_props] *)
Definition GraphActor_new (s : stream_id) (new_blas new_rng : Caught (result unit string)) (g : Gpu) : GraphActor :=
  {| inner := Some {| r_stream := s; r_blas := available new_blas; r_rng := available new_rng; r_fft := None |};
     world := g |}.
Definition GraphActor_mock (g : Gpu) : GraphActor := {| inner := None; world := g |}.

Record CaptureEnv := {
  begin_capture : Caught (result unit string);
  answer : Call → option string;                 (* the library's refusal of a call *)
  end_capture : result (option graph_id) string;
  launch : graph_id → option string;
}.

Definition require_stream (ctx : GraphRecordCtx) : result stream_id GpuError :=
  match stream ctx with
  | Some s => Ok s
  | None => Err (Unrecoverable "GraphRecordCtx: no captured stream available")
  end.

Section record.
Context (env : CaptureEnv).

Abbreviation gact := (act Gpu GraphEff).

(** The body of the four recorders: the operands in the order they are checked,
    the written one, and the library call. *)
Definition enqueue_record (operands : list GpuRef) (target : GpuRef) (shared lib refusal : string) (call : Call) :
    gact (result unit GpuError) :=
  g ← get;
  match access_list (dev g) operands with
  | Err e => mret (Err e)
  | Ok clones =>
    let h := clone_all clones (heap g) in
    let bh := try_unwrap (slice target) h in
    if bh.1 then
      put (set_heap (drop_all clones h) g);;
      match answer env call with
      | Some e => mret (Err (LibraryError lib (refusal +:+ e)))
      | None => emits [Captured call; Wrote (slice target)];; mret (Ok tt)
      end
    else
      put (set_heap (drop_all (remove_one (slice target) clones) bh.2) g);;
      mret (Err (Unrecoverable shared))
  end.

Definition drop_handles (rs : list GpuRef) : gact unit := modify (λ g, foldr drop_ref g (slice <$> rs)).

Definition dev_ (r : GpuRef) : Arg := ADev (slice r).
Definition sgemm_call (o : BlasSgemmOp) : Call :=
  {| cname := "gemm";
     cargs := [ATag "N"; ATag "N"; AInt (m o); AInt (n o); AInt (k o); AInt (alpha o); AInt (m o); AInt (k o);
               AInt (beta o); AInt (m o); dev_ (a o); dev_ (b o); dev_ (c o)] |}.

(** [take] the payload: it is dropped when the recorder returns. *)
Definition consume (rs : list GpuRef) (emptied : GraphOp) (body : gact (result unit GpuError)) :
    gact (result unit GpuError * GraphOp) :=
  r ← body;
  drop_handles rs;;
  mret (r, emptied).

(** [GraphOp::record] *)
Definition record (ctx : GraphRecordCtx) (op : GraphOp) : gact (result unit GpuError * GraphOp) :=
  let fail msg := mret (Err (Unrecoverable msg), op) in
  match op with
  | External _ nodes outcome => emits (Captured <$> nodes);; mret (outcome, op)
  | _ =>
    match require_stream ctx with
    | Err e => mret (Err e, op)
    | Ok _ =>
      match op with
      | SgemmOp inner =>
        if negb (blas ctx) then fail "SgemmOp::record: cuBLAS handle not available in ctx"
        else match inner with
        | None => fail "SgemmOp::record: already consumed"
        | Some o =>
          consume (op_refs op) (SgemmOp None)
            (enqueue_record [a o; b o; c o] (c o) "BlasRecorder: C has multiple live references"
              "cublas" "record gemm: " (sgemm_call o))
        end
      | MemcpyOp inner =>
        match inner with
        | None => fail "MemcpyOp::record: already consumed"
        | Some (src, dst) =>
          consume (op_refs op) (MemcpyOp None)
            (enqueue_record [src; dst] dst "MemcpyRecorder: dst has multiple refs"
              "driver" "record memcpy_dtod: " {| cname := "memcpy_dtod"; cargs := [dev_ src; dev_ dst] |})
        end
      | RngFillUniformOp inner =>
        if negb (rng ctx) then fail "RngFillUniformOp::record: cuRAND handle not available in ctx"
        else match inner with
        | None => fail "RngFillUniformOp::record: already consumed"
        | Some dst =>
          consume (op_refs op) (RngFillUniformOp None)
            (enqueue_record [dst] dst "RngRecorder: dst has multiple refs"
              "curand" "record fill_uniform: " {| cname := "fill_with_uniform"; cargs := [dev_ dst] |})
        end
      | FftR2COp inner =>
        match fft ctx with
        | None => fail "FftR2COp::record: no cuFFT plan installed; call GraphMsg::SetFftPlan first"
        | Some plan =>
          match inner with
          | None => fail "FftR2COp::record: already consumed"
          | Some (src, dst) =>
            consume (op_refs op) (FftR2COp None)
              (enqueue_record [src; dst] dst "FftRecorder: dst has multiple refs"
                "cufft" "record exec_r2c: " {| cname := "exec_r2c"; cargs := [AInt plan; dev_ src; dev_ dst] |})
          end
        end
      | External _ _ outcome => mret (outcome, op)
      end
    end
  end.

(** The loop of [run_record], with the script it leaves. *)
Fixpoint record_script (ctx : GraphRecordCtx) (script : list GraphOp) : gact (result unit GpuError * list GraphOp) :=
  match script with
  | [] => mret (Ok tt, [])
  | op :: script =>
    p ← record ctx op;
    match p.1 with
    | Err e => mret (Err e, p.2 :: script)
    | Ok _ => q ← record_script ctx script; mret (q.1, p.2 :: q.2)
    end
  end.

Definition state_generation (g : Gpu) : Z := default 0%Z (generation <$> dev g).
Definition from_graph (gr : graph_id) (g : Gpu) : GraphHandle :=
  {| graph := Some gr; handle_generation := state_generation g |}.

Definition run_record (ri : RealInner) (script : list GraphOp) : gact (result GraphHandle GpuError) :=
  match begin_capture env with
  | Returned (Err e) => drop_handles (script ≫= op_refs);; mret (Err (LibraryError LIB ("begin_capture: " +:+ e)))
  | Unwound =>
    drop_handles (script ≫= op_refs);; mret (Err (Unrecoverable "GraphActor::Record: CUDA driver not loadable"))
  | Returned (Ok _) =>
    emit BeginCapture;;
    let ctx := {| stream := Some (r_stream ri); blas := r_blas ri; rng := r_rng ri; fft := r_fft ri |} in
    p ← record_script ctx script;
    emit EndCapture;;
    g ← get;
    drop_handles (p.2 ≫= op_refs);;
    mret match p.1 with
         | Err e => Err e
         | Ok _ =>
           match end_capture env with
           | Ok (Some gr) => Ok (from_graph gr g)
           | Ok None => Err (LibraryError LIB "end_capture returned None")
           | Err e => Err (LibraryError LIB ("end_capture: " +:+ e))
           end
         end
  end.

Definition mock_mode : GpuError := Unrecoverable "GraphActor in mock mode".
Definition stale_graph : GpuError := GpuRefStale "graph captured against rebuilt context".
Definition synthetic : GpuError :=
  Unrecoverable "GraphActor::Launch: synthetic GraphHandle has no captured graph".

(** Run a computation on the actor's [Gpu]. *)
Definition on_world {A} (f : gact A) : act GraphActor GraphEff A := λ s,
  let '(x, g, es) := f (world s) in (x, {| inner := inner s; world := g |}, es).

Definition graph_handle (msg : GraphMsg) : act GraphActor GraphEff unit :=
  s ← get;
  match inner s, msg with
  | None, Record_ script reply =>
    emit (ReplyRecord reply (Err mock_mode));; on_world (drop_handles (script ≫= op_refs))
  | None, Launch _ reply => emit (ReplyLaunch reply (Err mock_mode))
  | None, SetFftPlan _ reply => emit (ReplyPlan reply)
  | Some ri, Record_ script reply =>
    r ← on_world (run_record ri script);
    emit (ReplyRecord reply r)
  | Some ri, SetFftPlan plan reply =>
    put {| inner := Some {| r_stream := r_stream ri; r_blas := r_blas ri; r_rng := r_rng ri; r_fft := Some plan |};
           world := world s |};;
    emit (ReplyPlan reply)
  | Some ri, Launch h reply =>
    if negb (handle_generation h =? state_generation (world s))%Z then emit (ReplyLaunch reply (Err stale_graph))
    else
      match graph h with
      | None => emit (ReplyLaunch reply (Err synthetic))
      | Some gr =>
        emit (LaunchGraph gr);;
        match launch env gr with
        | Some e => emit (ReplyLaunch reply (Err (LibraryError LIB ("launch: " +:+ e))))
        | None => emit (AwaitTask reply)
        end
      end
  end.
End record.

(** ** Updates of an instantiated graph *)

Inductive GraphExecUpdateOutcome : Type := USuccess | TopologyChanged | Other.
Definition outcome_of (r : Z) : GraphExecUpdateOutcome :=
  if (r =? 0)%Z then USuccess else if ((2 <=? r) && (r <=? 8))%Z then TopologyChanged else Other.

(** The driver's status: success, the update failure, or another. *)
Inductive UpdateStatus : Type := StSuccess | StUpdateFailure | StOther (status : string).
Definition exec_update (probe : Caught (UpdateStatus * Z)) : result GraphExecUpdateOutcome GpuError :=
  match probe with
  | Returned (StSuccess, r) => Ok (outcome_of r)
  | Returned (StUpdateFailure, _) => Ok TopologyChanged
  | Returned (StOther s, _) => Err (LibraryError LIB ("cuGraphExecUpdate_v2: " +:+ s))
  | Unwound => Err (Unrecoverable "exec_update: CUDA driver not loadable")
  end.

(** ** Handles dropped *)

(** The handles [l] are dropped: a buffer's [Arc] goes with its last handle. *)
Definition dropped (l : list slice_id) (g g' : Gpu) : Prop :=
  dev g' = dev g ∧
  (∀ sl, handles g' sl = handles g sl - count sl l) ∧
  (∀ sl, strong_count (heap g') sl =
     strong_count (heap g) sl - (if decide (1 ≤ handles g sl ∧ handles g' sl = 0) then 1 else 0)).

Lemma handles_insert g sl sl' v :
  handles (set_refs (<[sl := v]> (refs g)) g) sl' = if decide (sl = sl') then v else handles g sl'.
Proof.
  unfold handles. simpl. case_decide; subst; [by rewrite lookup_insert_eq|by rewrite lookup_insert_ne].
Qed.

Lemma dropped_refl g h : (∀ sl, strong_count h sl = strong_count (heap g) sl) → dropped [] g (set_heap h g).
Proof.
  intros Hh. split_and!; [done|intros sl; unfold count, handles; simpl; lia|].
  intros sl. simpl. rewrite Hh. rewrite decide_False; [lia|]. unfold handles. simpl. lia.
Qed.

Lemma dropped_one sl g : dropped [sl] g (drop_ref sl g).
Proof.
  unfold drop_ref. destruct (handles g sl) as [|[|h]] eqn:Hs.
  - split_and!; [done| |].
    + intros sl'. rewrite count_cons. case_decide; subst; unfold count; simpl; lia.
    + intros sl'. rewrite decide_False; lia.
  - split_and!; [done| |].
    + intros sl'. rewrite count_cons. change (handles (set_heap _ ?x) sl') with (handles x sl').
      unfold handles. simpl. case_decide; subst; unfold count; simpl.
      * rewrite lookup_insert_eq. unfold handles in Hs. rewrite Hs. done.
      * rewrite lookup_insert_ne by done. lia.
    + intros sl'. unfold handles. simpl. destruct (decide (sl = sl')) as [<-|Hne].
      * rewrite strong_count_drop, lookup_insert_eq. simpl. unfold handles in Hs. rewrite decide_True by lia. lia.
      * rewrite strong_count_drop_ne, lookup_insert_ne by done. rewrite decide_False by lia. lia.
  - split_and!; [done| |].
    + intros sl'. rewrite count_cons, handles_insert. case_decide; subst; unfold count; simpl; lia.
    + intros sl'. rewrite handles_insert. destruct (decide (sl = sl')) as [<-|]; rewrite decide_False; simpl; lia.
Qed.

Lemma dropped_trans l1 l2 g g1 g2 : dropped l1 g g1 → dropped l2 g1 g2 → dropped (l1 ++ l2) g g2.
Proof.
  intros (Hd1 & Hh1 & Hc1) (Hd2 & Hh2 & Hc2). split_and!; [congruence| |].
  - intros sl. rewrite Hh2, Hh1, count_app. lia.
  - intros sl. rewrite Hc2, Hc1. specialize (Hh1 sl). specialize (Hh2 sl).
    repeat case_decide; lia.
Qed.

Lemma dropped_perm l1 l2 g g' : l1 ≡ₚ l2 → dropped l1 g g' → dropped l2 g g'.
Proof.
  intros Hp (Hd & Hh & Hc). split_and!; [done| |done]. intros sl. rewrite Hh. unfold count. by rewrite Hp.
Qed.

Lemma dropped_all l g : dropped l g (foldr drop_ref g l).
Proof.
  induction l as [|sl l IH]; simpl.
  - pose proof (dropped_refl g (heap g) (λ _, eq_refl)) as H. by destruct g.
  - apply dropped_perm with (l ++ [sl]); [by rewrite Permutation_app_comm|].
    eapply dropped_trans; [exact IH|apply dropped_one].
Qed.

(** Live handles hold their buffers. *)
Definition live (g : Gpu) : Prop := ∀ sl, 1 ≤ handles g sl → 1 ≤ strong_count (heap g) sl.
Definition owned (g : Gpu) (rs : list GpuRef) : Prop := Forall (λ r, 1 ≤ handles g (slice r)) rs.

(** ** Recording *)

Definition builtin (op : GraphOp) : bool := match op with External _ _ _ => false | _ => true end.
Definition slices (script : list GraphOp) : list slice_id := slice <$> (script ≫= op_refs).

Lemma slices_cons op script : slices (op :: script) = (slice <$> op_refs op) ++ slices script.
Proof. unfold slices. by rewrite bind_cons, fmap_app. Qed.

(** A recorder unwraps a clone of a buffer that its own payload still holds. *)
Lemma enqueue_record_fails env ops t shared lib refusal call g :
  t ∈ ops → live g → owned g ops →
  awp (enqueue_record env ops t shared lib refusal call)
    (λ r g' es, es = [] ∧ (∃ e, r = Err e) ∧ dropped [] g g') g.
Proof.
  intros Ht Hl Ho. unfold enqueue_record. awp_steps.
  assert (Hsame : dropped [] g g) by (pose proof (dropped_all [] g); done).
  destruct (access_list (dev g) ops) as [clones|e] eqn:Ha; awp_steps; [|split_and!; [done|by eexists|done]].
  apply access_list_Ok in Ha as ->.
  assert (Hin : slice t ∈ slice <$> ops) by by apply list_elem_of_fmap_2.
  pose proof (count_elem _ _ Hin) as Hc.
  assert (1 ≤ strong_count (heap g) (slice t)) as H1.
  { apply Hl. unfold owned in Ho. rewrite Forall_forall in Ho. by apply Ho. }
  unfold try_unwrap. rewrite decide_False by (rewrite clone_all_count; lia). cbn [fst snd].
  awp_steps. split_and!; [done|by eexists|]. apply dropped_refl. intros sl. rewrite drop_all_count.
  pose proof (remove_one_count (slice t) (slice <$> ops) sl Hin) as Hr.
  destruct (decide (slice t = sl)) as [<-|Hne].
  - rewrite strong_count_drop, clone_all_count. lia.
  - rewrite strong_count_drop_ne, clone_all_count by done. lia.
Qed.

Lemma consume_fails env ops t shared lib refusal call emptied g :
  t ∈ ops → live g → owned g ops → op_refs emptied = [] →
  awp (consume ops emptied (enqueue_record env ops t shared lib refusal call))
    (λ p g' es, es = [] ∧ (∃ e, p.1 = Err e) ∧
       ∃ l, slice <$> ops ≡ₚ l ++ (slice <$> op_refs p.2) ∧ dropped l g g') g.
Proof.
  intros Ht Hl Ho He. unfold consume. apply awp_bind.
  eapply awp_mono, (enqueue_record_fails env ops t shared lib refusal call g Ht Hl Ho).
  intros r g1 es (-> & [e ->] & Hd). unfold drop_handles. awp_steps. split_and!; [done|by eexists|].
  exists (slice <$> ops). split; [cbn [snd]; by rewrite He, app_nil_r|].
  apply (dropped_trans [] _ _ _ _ Hd), dropped_all.
Qed.

Lemma record_builtin env ctx op g :
  builtin op = true → live g → owned g (op_refs op) →
  awp (record env ctx op)
    (λ p g' es, es = [] ∧ (∃ e, p.1 = Err e) ∧
       ∃ l, slice <$> op_refs op ≡ₚ l ++ (slice <$> op_refs p.2) ∧ dropped l g g') g.
Proof.
  intros Hb Hl Ho.
  assert (Hfail : ∀ e, awp (mret (Err e, op) : act Gpu GraphEff (result unit GpuError * GraphOp)) (λ p g' es, es = [] ∧ (∃ e, p.1 = Err e) ∧
    ∃ l, slice <$> op_refs op ≡ₚ l ++ (slice <$> op_refs p.2) ∧ dropped l g g') g).
  { intros e. awp_steps. split_and!; [done|by eexists|]. exists []. split; [done|apply (dropped_all [] g)]. }
  unfold record. destruct op as [inner|inner|inner|inner|name nodes outcome]; [| | | |done];
    (destruct (require_stream ctx); [|apply Hfail]).
  - destruct (negb (blas ctx)); [apply Hfail|]. destruct inner as [o|]; [|apply Hfail].
    apply consume_fails; [set_solver|done..].
  - destruct inner as [[src dst]|]; [|apply Hfail]. apply consume_fails; [set_solver|done..].
  - destruct (negb (rng ctx)); [apply Hfail|]. destruct inner as [dst|]; [|apply Hfail].
    apply consume_fails; [set_solver|done..].
  - destruct (fft ctx); [|apply Hfail]. destruct inner as [[src dst]|]; [|apply Hfail].
    apply consume_fails; [set_solver|done..].
Qed.

Definition succeeds (op : GraphOp) : bool :=
  match op with External _ _ (Ok _) => true | _ => false end.

(** The nodes captured: those of the client's ops up to the first that fails. *)
Fixpoint nodes (script : list GraphOp) : list Call :=
  match script with
  | External _ ns (Ok _) :: script => ns ++ nodes script
  | External _ ns (Err _) :: _ => ns
  | _ => []
  end.

Lemma record_script_spec env ctx script g :
  live g → owned g (script ≫= op_refs) →
  awp (record_script env ctx script)
    (λ p g' es, es = Captured <$> nodes script ∧ is_ok p.1 = forallb succeeds script ∧
       (∀ name ns e rest pre, script = pre ++ External name ns (Err e) :: rest → forallb succeeds pre = true → p.1 = Err e) ∧
       ∃ l, slices script ≡ₚ l ++ slices p.2 ∧ dropped l g g') g.
Proof.
  intros Hl Ho. induction script as [|op script IH]; cbn [record_script].
  { awp_steps. split_and!; [done|done|by intros ???? []|]. exists []. split; [done|apply (dropped_all [] g)]. }
  rewrite bind_cons in Ho. apply Forall_app in Ho as [Ho1 Ho2]. apply awp_bind.
  destruct (builtin op) eqn:Hb.
  - eapply awp_mono, (record_builtin env ctx op g Hb Hl Ho1). intros [r op'] g1 es (-> & [e He] & l & Hp & Hd).
    simpl in He. subst r. awp_steps. cbn [fst snd]. awp_steps. split_and!.
    + by destruct op.
    + by destruct op.
    + intros name ns e' rest [|op1 pre] [= -> ->]; [done|]. by destruct op1.
    + exists l. split; [|done]. cbn [snd]. by rewrite !slices_cons, Hp, app_assoc.
  - destruct op as [| | | |name ns outcome]; [done..|]. unfold record at 1. awp_steps. cbn [fst snd].
    destruct outcome as [u|e].
    + apply awp_bind. eapply awp_mono, (IH Ho2). intros [r script'] g1 es (-> & Hok & Hf & l & Hp & Hd).
      awp_steps. cbn [fst snd] in *. split_and!.
      * cbn [nodes]. by rewrite fmap_app.
      * by destruct u.
      * intros name' ns' e' rest [|op1 pre] [= He1 He2] Hpre. subst. simpl in Hpre.
        apply (Hf name' ns' e' rest pre eq_refl). by destruct u.
      * exists l. split; [|done]. by rewrite !slices_cons.
    + awp_steps. split_and!; [done|done| |].
      * intros name' ns' e' rest [|op1 pre] Heq Hpre; simplify_eq/=; done.
      * exists []. split; [done|apply (dropped_all [] g)].
Qed.

Lemma on_world_awp {A} (f : act Gpu GraphEff A) (Q : A → GraphActor → list GraphEff → Prop) s :
  awp f (λ x g es, Q x {| inner := inner s; world := g |} es) (world s) → awp (on_world f) Q s.
Proof. unfold awp, on_world. by destruct (f (world s)) as [[x g] es]. Qed.

(** What [Record] answers. *)
Definition recorded (env : CaptureEnv) (g : Gpu) (script : list GraphOp) (r : result GraphHandle GpuError) : Prop :=
  ∀ h, r = Ok h ↔
    begin_capture env = Returned (Ok tt) ∧ forallb succeeds script = true ∧
    ∃ gr, end_capture env = Ok (Some gr) ∧ h = {| graph := Some gr; handle_generation := state_generation g |}.

Lemma run_record_spec env ri script g :
  live g → owned g (script ≫= op_refs) →
  awp (run_record env ri script)
    (λ r g' es, dropped (slices script) g g' ∧ recorded env g script r ∧
       es = match begin_capture env with
            | Returned (Ok _) => BeginCapture :: (Captured <$> nodes script) ++ [EndCapture]
            | _ => []
            end ∧
       (∀ name ns e rest pre, begin_capture env = Returned (Ok tt) →
          script = pre ++ External name ns (Err e) :: rest → forallb succeeds pre = true → r = Err e)) g.
Proof.
  intros Hl Ho. unfold run_record, recorded, drop_handles. destruct (begin_capture env) as [[[]|e]|].
  2, 3: awp_steps; split_and!; [apply dropped_all| |done|done]; intros h; split; [done|by intros [? _]].
  apply awp_bind, awp_emit, awp_bind. eapply awp_mono, (record_script_spec env _ script g Hl Ho).
  intros [r script'] g1 es (-> & Hok & Hf & l & Hp & Hd). cbn [fst snd] in *. awp_steps. split_and!.
  - apply dropped_perm with (l ++ slices script'); [done|]. eapply dropped_trans; [exact Hd|apply dropped_all].
  - intros h. rewrite <-Hok. destruct r as [u|e]; simpl.
    + assert (Hgen : state_generation g1 = state_generation g) by (unfold state_generation; by rewrite (proj1 Hd)).
      unfold from_graph. rewrite Hgen. destruct (end_capture env) as [[gr|]|e']; naive_solver.
    + naive_solver.
  - done.
  - intros name ns e rest pre _ Hs Hpre. by rewrite (Hf name ns e rest pre Hs Hpre).
Qed.

(** C14 (recording a graph): a [Record] is answered once, after every capture that
    began was ended and with every handle of the script dropped and no other
    reference taken or left; it gives a graph exactly when the driver does and
    every op of the script is a client's that succeeded, so a script with one of
    the four built-in ops is never recorded; the first client op that fails decides
    the error.  The handle it gives launches on the same device exactly until the
    context is rebuilt, and each launch is answered, at once or by the task that
    awaits it. *)
Theorem graph_records (env : CaptureEnv) (s : GraphActor) (ri : RealInner) (st : DeviceState)
    (script : list GraphOp) (reply : nat) :
  inner s = Some ri → dev (world s) = Some st → in_width 64 (generation st) → live (world s) → owned (world s) (script ≫= op_refs) →
  ∃ r s', exec (graph_handle env (Record_ script reply)) s =
      (s', match begin_capture env with
           | Returned (Ok _) => BeginCapture :: (Captured <$> nodes script) ++ [EndCapture]
           | _ => []
           end ++ [ReplyRecord reply r]) ∧
    inner s' = Some ri ∧ dropped (slices script) (world s) (world s') ∧
    (∀ h, r = Ok h ↔ begin_capture env = Returned (Ok tt) ∧ forallb succeeds script = true ∧
       ∃ gr, end_capture env = Ok (Some gr) ∧ h = {| graph := Some gr; handle_generation := generation st |}) ∧
    (∀ name ns e rest pre, begin_capture env = Returned (Ok tt) →
       script = pre ++ External name ns (Err e) :: rest → forallb succeeds pre = true → r = Err e) ∧
    (∀ h ops env' later reply', r = Ok h → (bumps ops < 2 ^ 64)%Z →
       inner later = Some ri → dev (world later) = Some (apply_ops st ops) →
       exec (graph_handle env' (Launch h reply')) later =
         (later, if bool_decide (BumpGeneration ∈ ops) then [ReplyLaunch reply' (Err stale_graph)]
                 else match graph h with
                      | None => []
                      | Some gr =>
                        [LaunchGraph gr;
                         match launch env' gr with
                         | Some e => ReplyLaunch reply' (Err (LibraryError LIB ("launch: " +:+ e)))
                         | None => AwaitTask reply'
                         end]
                      end)).
Proof.
  intros Hi Hst Hw Hl Ho.
  assert (Hgen : state_generation (world s) = generation st) by (unfold state_generation; by rewrite Hst).
  pose proof (run_record_spec env ri script (world s) Hl Ho) as Hr. unfold awp in Hr.
  destruct (run_record env ri script (world s)) as [[r g'] es] eqn:Hrun.
  destruct Hr as (Hd & Hrec & -> & Hf). unfold recorded in Hrec. rewrite Hgen in Hrec.
  exists r, {| inner := inner s; world := g' |}. split_and!; [|done|done|done|done|].
  - unfold graph_handle, on_world. act_unfold. rewrite Hi. act_unfold. by rewrite Hrun, Hi.
  - intros h ops env' later reply' Hh Hb Hil Hdl. apply Hrec in Hh as (_ & _ & gr & _ & ->).
    unfold graph_handle. act_unfold. rewrite Hil. unfold state_generation. rewrite Hdl. simpl.
    pose proof (apply_ops_same_generation st ops Hw Hb) as Hsame. rewrite bumps_zero in Hsame.
    case_bool_decide as Hin.
    + rewrite (proj2 (Z.eqb_neq _ _)); [done|]. intros He. by apply Hsame in Hin.
    + rewrite (proj2 (Z.eqb_eq _ _)) by (symmetry; tauto). cbn [negb]. by destruct (launch env' gr).
Qed.

(** A client's op and a built-in fill, whose buffer has its only handle in the
    script. *)
Definition graph_device : DeviceState := DeviceState_new 0.
Definition graph_gpu : Gpu :=
  {| heap := {[5 := 1]}; refs := {[5 := 1]}; dev := Some graph_device; queue := []; next_op := 0; tasks := [] |}.
Definition graph_actor : GraphActor := GraphActor_new 0 (Returned (Ok tt)) (Returned (Ok tt)) graph_gpu.
Definition graph_env : CaptureEnv :=
  {| begin_capture := Returned (Ok tt); answer := λ _, None; end_capture := Ok (Some 3); launch := λ _, None |}.
Definition user_op : GraphOp := External "user" [{| cname := "user"; cargs := [] |}] (Ok tt).
Definition fill_script : list GraphOp := [user_op; RngFillUniformOp (Some (GpuRef_new 5 graph_device))].

Lemma graph_live sl : 1 ≤ handles graph_gpu sl → 1 ≤ strong_count (heap graph_gpu) sl.
Proof. done. Qed.

Lemma graph_records_witness :
  ∃ r s', exec (graph_handle graph_env (Record_ fill_script 9)) graph_actor =
    (s', [BeginCapture; Captured {| cname := "user"; cargs := [] |}; EndCapture; ReplyRecord 9 r]) ∧
    (∀ h, r ≠ Ok h) ∧ handles (world s') 5 = 0.
Proof.
  destruct (graph_records graph_env graph_actor {| r_stream := 0; r_blas := true; r_rng := true; r_fft := None |}
    graph_device fill_script 9) as (r & s' & Hx & _ & Hd & Hr & _ & _);
    [reflexivity|reflexivity|split; reflexivity || done|exact graph_live|by repeat constructor|].
  exists r, s'. split; [exact Hx|]. split.
  - intros h Hh. apply Hr in Hh as (_ & Hs & _). done.
  - destruct Hd as (_ & Hh & _). rewrite Hh. reflexivity.
Defined.

(** A script of client's ops is recorded. *)
Example graph_user :
  (exec (graph_handle graph_env (Record_ [user_op] 9)) graph_actor).2 =
    [BeginCapture; Captured {| cname := "user"; cargs := [] |}; EndCapture;
     ReplyRecord 9 (Ok {| graph := Some 3; handle_generation := 0 |})].
Proof. reflexivity. Qed.
