(* ===== verification/PinnedPool.v ===== *)
(** * PinnedBufferPool: page-locked host buffers

    Models [crates/atomr-accel-cuda/src/host/pinned.rs]: the pool actor, its
    accounting, the handles and their return on drop.  What [malloc_host]
    answers is an argument of each acquisition.  Sizes and counts are [usize]
    values written as [nat]; the multiplication of [into_typed], which the code
    checks, is checked against the 64-bit range. *)

From stdpp Require Import pretty.
From S2P Require Import Prelude Actor Errors.

Record PoolConfig :=
  { initial_buffers : nat; max_buffers : nat; buffer_capacity_bytes : nat; allow_oversize : bool }.

(** [Default] *)
Definition PoolConfig_default : PoolConfig :=
  {| initial_buffers := 4; max_buffers := 32; buffer_capacity_bytes := Z.to_nat (4 * 1024 * 1024);
     allow_oversize := true |}.

Record PinnedSlot := { ptr : nat; capacity_bytes : nat; oversize : bool }.

Record PinnedBufHandle := { h_slot : PinnedSlot; h_generation : Z }.

Record PinnedPoolStats :=
  { st_in_use : nat; st_free : nat; st_total : nat; st_bytes_allocated : nat }.

Record Pool := {
  pconfig : PoolConfig;
  free : list PinnedSlot;
  in_use : nat;
  total_minted : nat;
  bytes_allocated : nat;
  pgeneration : Z;
}.

Inductive PinnedPoolMsg : Type :=
  | Acquire (len_bytes : nat) (malloc : result nat string) (reply : nat)
  | InternalReturn (slot : PinnedSlot) (generation : Z)
  | PoolStats (reply : nat).

Inductive PoolEff : Type :=
  | ReplyHandle (reply : nat) (r : result PinnedBufHandle GpuError)
  | ReplyPoolStats (reply : nat) (s : PinnedPoolStats)
  | FreeHost (p : nat).

(** [props] *)
Definition Pool_new (cfg : PoolConfig) : Pool :=
  {| pconfig := cfg; free := []; in_use := 0; total_minted := 0; bytes_allocated := 0;
     pgeneration := 0 |}.

(** [PinnedSlot::new] *)
Definition PinnedSlot_new (malloc : result nat string) (cap : nat) (over : bool) :
    result PinnedSlot GpuError :=
  match malloc with
  | Ok p => Ok {| ptr := p; capacity_bytes := cap; oversize := over |}
  | Err e => Err (OutOfMemory ("pinned alloc " +:+ pretty cap +:+ "B: " +:+ e))
  end.

Definition stats (p : Pool) : PinnedPoolStats :=
  {| st_in_use := in_use p; st_free := length (free p); st_total := total_minted p;
     st_bytes_allocated := bytes_allocated p |}.

(** The counters are raised before the allocation can fail. *)
Definition count_mint (bytes : nat) (p : Pool) : Pool :=
  {| pconfig := pconfig p; free := free p; in_use := in_use p; total_minted := S (total_minted p);
     bytes_allocated := bytes_allocated p + bytes; pgeneration := pgeneration p |}.
(** The counters after a slot is gone. *)
Definition count_gone (bytes : nat) (p : Pool) : Pool :=
  {| pconfig := pconfig p; free := free p; in_use := in_use p;
     total_minted := total_minted p - 1; bytes_allocated := bytes_allocated p - bytes;
     pgeneration := pgeneration p |}.
Definition set_free (l : list PinnedSlot) (p : Pool) : Pool :=
  {| pconfig := pconfig p; free := l; in_use := in_use p; total_minted := total_minted p;
     bytes_allocated := bytes_allocated p; pgeneration := pgeneration p |}.
Definition set_in_use (n : nat) (p : Pool) : Pool :=
  {| pconfig := pconfig p; free := free p; in_use := n; total_minted := total_minted p;
     bytes_allocated := bytes_allocated p; pgeneration := pgeneration p |}.

Definition oversize_error (len cap : nat) : GpuError :=
  OutOfMemory ("pinned pool: oversize request " +:+ pretty len +:+ "B exceeds slot capacity "
    +:+ pretty cap +:+ "B").
Definition full_error (max : nat) : GpuError :=
  OutOfMemory ("pinned pool: max_buffers=" +:+ pretty max +:+ " reached").

(** The slot [try_acquire] takes, and the pool it leaves. *)
Definition take_slot (len_bytes : nat) (malloc : result nat string) (p : Pool) :
    result PinnedSlot GpuError * Pool :=
  let cap := buffer_capacity_bytes (pconfig p) in
  if cap <? len_bytes then
    if negb (allow_oversize (pconfig p)) then (Err (oversize_error len_bytes cap), p)
    else (PinnedSlot_new malloc len_bytes true, count_mint len_bytes p)
  else
    match free p with
    | slot :: rest => (Ok slot, set_free rest p)
    | [] =>
      if max_buffers (pconfig p) <=? total_minted p then
        (Err (full_error (max_buffers (pconfig p))), p)
      else (PinnedSlot_new malloc cap false, count_mint cap p)
    end.

Definition try_acquire (len_bytes : nat) (malloc : result nat string) (p : Pool) :
    result PinnedBufHandle GpuError * Pool :=
  match take_slot len_bytes malloc p with
  | (Err e, p1) => (Err e, p1)
  | (Ok slot, p1) =>
    (Ok {| h_slot := slot; h_generation := pgeneration p1 |}, set_in_use (S (in_use p1)) p1)
  end.

Definition return_slot (slot : PinnedSlot) (generation : Z) : act Pool PoolEff unit :=
  p ← get;
  if negb (generation =? pgeneration p)%Z then
    put (count_gone (capacity_bytes slot) p);; emit (FreeHost (ptr slot))
  else
    let p1 := set_in_use (in_use p - 1) p in
    if oversize slot then
      put (count_gone (capacity_bytes slot) p1);; emit (FreeHost (ptr slot))
    else put (set_free (free p1 ++ [slot]) p1).

Definition pool_handle (m : PinnedPoolMsg) : act Pool PoolEff unit :=
  match m with
  | Acquire len malloc reply =>
    p ← get;
    let '(r, p1) := try_acquire len malloc p in
    put p1;; emit (ReplyHandle reply r)
  | InternalReturn slot generation => return_slot slot generation
  | PoolStats reply => p ← get; emit (ReplyPoolStats reply (stats p))
  end.

#[global] Instance pool_actor : Actor Pool PinnedPoolMsg PoolEff := λ p m, exec (pool_handle m) p.

Definition pool_pre_restart : act Pool PoolEff unit :=
  p ← get;
  emits (FreeHost ∘ ptr <$> free p);;
  put {| pconfig := pconfig p; free := []; in_use := 0; total_minted := 0; bytes_allocated := 0;
         pgeneration := pgeneration p +₆₄ 1 |}.

(** [into_typed::<T>]: the element count and the capacity of the typed view,
    or the error after which the handle returns its slot. *)
Definition into_typed (size_of_T len : Z) (h : PinnedBufHandle) : result (Z * nat) GpuError :=
  let cap := Z.of_nat (capacity_bytes (h_slot h)) in
  let needed := (len * size_of_T)%Z in
  if (2 ^ 64 <=? needed)%Z then Err (Unrecoverable "pinned buf: len * size_of overflowed")
  else if (cap <? needed)%Z then
    Err (Unrecoverable ("pinned buf: requested " +:+ pretty len +:+ " elements (" +:+ pretty needed
      +:+ " B) exceeds capacity " +:+ pretty cap +:+ " B"))
  else Ok (len, ptr (h_slot h)).

(** ** The pool and its clients *)

(** The handles out with clients or on their way back; the pointers freed, the
    pointers [malloc_host] gave and the sizes it refused, since the start. *)
Record PoolSys :=
  { pool : Pool; handles : list PinnedBufHandle; released : list nat;
    minted : list nat; refused : list nat }.

(** Whether an acquisition reaches [malloc_host], and for how many bytes. *)
Definition asks_malloc (len : nat) (p : Pool) : option nat :=
  let cap := buffer_capacity_bytes (pconfig p) in
  if cap <? len then (if allow_oversize (pconfig p) then Some len else None)
  else match free p with
       | _ :: _ => None
       | [] => if max_buffers (pconfig p) <=? total_minted p then None else Some cap
       end.

Definition log_malloc (len : nat) (malloc : result nat string) (p : Pool) : list nat * list nat :=
  match asks_malloc len p, malloc with
  | Some _, Ok q => ([q], [])
  | Some bytes, Err _ => ([], [bytes])
  | None, _ => ([], [])
  end.

Inductive PoolOp : Type :=
  | OpAcquire (len : nat) (malloc : result nat string)
  (** The [i]-th handle is dropped and its return message is handled. *)
  | OpReturn (i : nat)
  | OpRestart.

Definition frees (e : PoolEff) : option nat := match e with FreeHost p => Some p | _ => None end.

Definition pool_step (s : PoolSys) (op : PoolOp) : PoolSys :=
  match op with
  | OpAcquire len malloc =>
    let '(r, p) := try_acquire len malloc (pool s) in
    let '(got, ref) := log_malloc len malloc (pool s) in
    {| pool := p; handles := handles s ++ match r with Ok h => [h] | Err _ => [] end;
       released := released s; minted := minted s ++ got; refused := refused s ++ ref |}
  | OpReturn i =>
    match handles s !! i with
    | None => s
    | Some h =>
      let '(p, es) := handle (pool s) (InternalReturn (h_slot h) (h_generation h)) in
      {| pool := p; handles := delete i (handles s); released := released s ++ omap frees es;
         minted := minted s; refused := refused s |}
    end
  | OpRestart =>
    let '(p, es) := exec pool_pre_restart (pool s) in
    {| pool := p; handles := handles s; released := released s ++ omap frees es;
       minted := minted s; refused := refused s |}
  end.

Definition pool_start (cfg : PoolConfig) : PoolSys :=
  {| pool := Pool_new cfg; handles := []; released := []; minted := []; refused := [] |}.

Definition pool_run : PoolSys → list PoolOp → PoolSys := foldl pool_step.

(** The pointers in circulation. *)
Definition ptrs (l : list PinnedSlot) : list nat := ptr <$> l.
Definition live (s : PoolSys) : list nat := ptrs (free (pool s)) ++ ptrs (h_slot <$> handles s).

(** ** Conservation *)

Lemma delete_ptrs (l : list PinnedBufHandle) i h :
  l !! i = Some h → ptrs (h_slot <$> l) ≡ₚ ptr (h_slot h) :: ptrs (h_slot <$> delete i l).
Proof.
  intros Hi. unfold ptrs. rewrite (delete_Permutation l i h Hi) at 1. done.
Qed.

(** What one acquisition does, branch by branch. *)
Lemma try_acquire_cases len malloc p r p' :
  try_acquire len malloc p = (r, p') →
  (∃ e, r = Err e ∧ asks_malloc len p = None ∧ p' = p) ∨
  (∃ e bytes msg, r = Err e ∧ asks_malloc len p = Some bytes ∧ malloc = Err msg ∧
     p' = count_mint bytes p) ∨
  (∃ sl rest, free p = sl :: rest ∧ asks_malloc len p = None ∧
     len ≤ buffer_capacity_bytes (pconfig p) ∧
     r = Ok {| h_slot := sl; h_generation := pgeneration p |} ∧
     p' = set_in_use (S (in_use p)) (set_free rest p)) ∨
  (∃ (q bytes : nat) (over : bool), malloc = Ok q ∧ asks_malloc len p = Some bytes ∧ len ≤ bytes ∧
     (if over then bytes = len
      else bytes = buffer_capacity_bytes (pconfig p) ∧ free p = [] ∧
           total_minted p < max_buffers (pconfig p)) ∧
     r = Ok {| h_slot := {| ptr := q; capacity_bytes := bytes; oversize := over |};
               h_generation := pgeneration p |} ∧
     p' = set_in_use (S (in_use p)) (count_mint bytes p)).
Proof.
  unfold try_acquire, take_slot, asks_malloc, PinnedSlot_new.
  destruct (Nat.ltb_spec (buffer_capacity_bytes (pconfig p)) len).
  - destruct (allow_oversize (pconfig p)); simpl; [|intros [= <- <-]; left; eauto].
    destruct malloc as [q|msg]; intros [= <- <-]; right; [right; right|left; eauto 8].
    exists q, len, true. split_and!; done || lia.
  - destruct (free p) as [|sl rest] eqn:Hf.
    + destruct (Nat.leb_spec (max_buffers (pconfig p)) (total_minted p));
        [intros [= <- <-]; left; eauto|].
      destruct malloc as [q|msg]; intros [= <- <-]; right; [right; right|left; eauto 8].
      exists q, (buffer_capacity_bytes (pconfig p)), false. split_and!; done || lia.
    + intros [= <- <-]. right; right; left. exists sl, rest. split_and!; done || lia.
Qed.

Lemma return_cases sl g p :
  handle p (InternalReturn sl g) =
    if negb (g =? pgeneration p)%Z then (count_gone (capacity_bytes sl) p, [FreeHost (ptr sl)])
    else if oversize sl then
      (count_gone (capacity_bytes sl) (set_in_use (in_use p - 1) p), [FreeHost (ptr sl)])
    else (set_free (free p ++ [sl]) (set_in_use (in_use p - 1) p), []).
Proof.
  unfold handle, pool_actor, pool_handle, return_slot. act_unfold.
  by destruct (negb _); [|destruct (oversize sl)].
Qed.

Lemma free_ptrs l : omap frees (FreeHost ∘ ptr <$> l) = ptrs l.
Proof. induction l as [|? l IH]; [done|]. cbn. by rewrite IH. Qed.

Lemma pool_step_conserves s op :
  minted s ≡ₚ released s ++ live s →
  minted (pool_step s op) ≡ₚ released (pool_step s op) ++ live (pool_step s op).
Proof.
  unfold live. intros H. destruct op as [len malloc|i|]; simpl.
  - destruct (try_acquire len malloc (pool s)) as [r p'] eqn:Ha. unfold log_malloc.
    apply try_acquire_cases in Ha
      as [(e & -> & -> & ->)|[(e & bytes & msg & -> & -> & -> & ->)|
         [(sl & rest & Hf & -> & _ & -> & ->)|(q & bytes & over & -> & -> & _ & _ & -> & ->)]]];
      simpl; rewrite ?app_nil_r, H; try done; unfold ptrs; rewrite ?fmap_app; simpl.
    + rewrite Hf. simpl. solve_Permutation.
    + solve_Permutation.
  - destruct (handles s !! i) as [h|] eqn:Hi; [|done].
    rewrite (delete_ptrs _ _ _ Hi) in H. destruct h as [sl g]; simpl in *.
    rewrite return_cases.
    destruct (negb _); [|destruct (oversize sl)]; simpl; rewrite H; unfold ptrs; rewrite ?app_nil_r, ?fmap_app; simpl;
      solve_Permutation.
  - unfold pool_pre_restart. act_unfold. rewrite app_nil_r, free_ptrs, H. solve_Permutation.
Qed.


(** ** Accounting within one generation *)

Definition caps (l : list PinnedSlot) : nat := sum_list (capacity_bytes <$> l).
Definition pooled (l : list PinnedSlot) : list PinnedSlot := filter (λ sl, oversize sl = false) l.

Record accounted (cfg : PoolConfig) (s : PoolSys) : Prop := {
  ac_config : pconfig (pool s) = cfg;
  ac_in_use : in_use (pool s) = length (handles s);
  ac_total : total_minted (pool s) = length (free (pool s)) + length (handles s) + length (refused s);
  ac_bytes : bytes_allocated (pool s) =
    caps (free (pool s)) + caps (h_slot <$> handles s) + sum_list (refused s);
  ac_gen : Forall (λ h, h_generation h = pgeneration (pool s)) (handles s);
  ac_free : Forall (λ sl, oversize sl = false ∧ capacity_bytes sl = buffer_capacity_bytes cfg)
    (free (pool s));
  ac_held : Forall (λ h, oversize (h_slot h) = false →
    capacity_bytes (h_slot h) = buffer_capacity_bytes cfg) (handles s);
  ac_max : length (free (pool s)) + length (pooled (h_slot <$> handles s)) ≤ max_buffers cfg;
}.

Lemma caps_app l1 l2 : caps (l1 ++ l2) = caps l1 + caps l2.
Proof. unfold caps. rewrite fmap_app. apply sum_list_with_app. Qed.

Lemma caps_cons sl l : caps (sl :: l) = capacity_bytes sl + caps l.
Proof. done. Qed.
Lemma caps_nil : caps [] = 0.
Proof. done. Qed.

Lemma delete_handles (l : list PinnedBufHandle) i h :
  l !! i = Some h →
  length l = S (length (delete i l)) ∧
  caps (h_slot <$> l) = capacity_bytes (h_slot h) + caps (h_slot <$> delete i l) ∧
  length (pooled (h_slot <$> l)) =
    (if oversize (h_slot h) then 0 else 1) + length (pooled (h_slot <$> delete i l)).
Proof.
  intros Hi. pose proof (delete_Permutation l i h Hi) as Hp. split_and!.
  - by rewrite Hp at 1.
  - unfold caps. by rewrite Hp at 1.
  - unfold pooled. rewrite Hp at 1. simpl. rewrite filter_cons.
    by destruct (oversize (h_slot h)).
Qed.

Lemma accounted_step cfg s op :
  op ≠ OpRestart → accounted cfg s → accounted cfg (pool_step s op).
Proof.
  intros Hop [Hc Hu Ht Hb Hg Hf Hh Hm]. destruct op as [len malloc|i|]; [..|done]; simpl.
  - destruct (try_acquire len malloc (pool s)) as [r p'] eqn:Ha. unfold log_malloc.
    apply try_acquire_cases in Ha
      as [(e & -> & -> & ->)|[(e & bytes & msg & -> & -> & -> & ->)|
         [(sl & rest & Hfr & -> & _ & -> & ->)|(q & bytes & over & -> & -> & _ & Ho & -> & ->)]]];
      [constructor; simpl; rewrite ?app_nil_r; done| | |]; try rewrite Hfr in *;
      constructor; simpl; rewrite ?fmap_app, ?length_app, ?caps_app, ?sum_list_with_app,
        ?Forall_app, ?Forall_singleton; simpl in *; rewrite ?app_nil_r; try done; try lia.
    all: unfold pooled in *; rewrite ?filter_app, ?length_app; simpl.
    + rewrite ?caps_cons, ?caps_nil in *. simpl. lia.
    + rewrite ?caps_cons, ?caps_nil in *. simpl. lia.
    + by apply Forall_cons in Hf as [_ ?].
    + apply Forall_cons in Hf as [[_ ?] _]. auto.
    + apply Forall_cons in Hf as [[Ho _] _]. rewrite filter_cons, Ho. simpl. lia.
    + rewrite ?caps_cons, ?caps_nil in *. simpl. lia.
    + split; [done|]. destruct over; naive_solver.
    + destruct over; simpl; [lia|]. destruct Ho as (_ & Hfr & Ho). rewrite Hfr in *. simpl in *.
      pose proof (length_filter (λ sl, oversize sl = false) (h_slot <$> handles s)) as Hl.
      rewrite length_fmap in Hl. rewrite Hc in Ho. simpl. lia.
  - destruct (handles s !! i) as [h|] eqn:Hi; [|by constructor].
    pose proof (delete_handles _ _ _ Hi) as (Hl & Hcap & Hp).
    pose proof (Forall_lookup_1 _ _ _ _ Hg Hi) as Hgen.
    pose proof (Forall_lookup_1 _ _ _ _ Hh Hi) as Hcp.
    rewrite return_cases, Hgen, Z.eqb_refl. simpl.
    destruct (oversize (h_slot h)) eqn:Ho; simpl in *;
      constructor; simpl; rewrite ?length_app, ?caps_app, ?Forall_app, ?Forall_singleton; simpl;
      try done; try lia; try (by apply Forall_delete); rewrite ?caps_cons, ?caps_nil; auto with lia.
Qed.

Lemma accounted_start cfg : accounted cfg (pool_start cfg).
Proof. constructor; simpl; auto with lia. Qed.

Lemma accounted_run cfg s ops :
  OpRestart ∉ ops → accounted cfg s → accounted cfg (pool_run s ops).
Proof.
  revert s; induction ops as [|op ops IH]; intros s; [done|].
  intros [Hop Hops]%not_elem_of_cons Hs. apply IH; [done|]. apply accounted_step; [congruence|done].
Qed.

(** The pool's books: between two restarts, [in_use] is the number of handles
    out, at most [max_buffers] pooled buffers exist, and [total_minted] and
    [bytes_allocated] are those of the live buffers plus those of every
    allocation [malloc_host] ever refused: refused allocations are never taken
    off the books. *)
Theorem pool_accounting (cfg : PoolConfig) (ops : list PoolOp) :
  OpRestart ∉ ops →
  let s := pool_run (pool_start cfg) ops in
  let all := free (pool s) ++ (h_slot <$> handles s) in
  in_use (pool s) = length (handles s) ∧
  length (pooled all) ≤ max_buffers cfg ∧
  total_minted (pool s) = length all + length (refused s) ∧
  bytes_allocated (pool s) = caps all + sum_list (refused s).
Proof.
  intros Hops s all.
  destruct (accounted_run cfg (pool_start cfg) ops Hops (accounted_start cfg)).
  fold s in ac_config0, ac_in_use0, ac_total0, ac_bytes0, ac_max0.
  subst all. unfold pooled in *. rewrite caps_app, filter_app, !length_app, length_fmap.
  pose proof (length_filter (λ sl, oversize sl = false) (free (pool s))). split_and!; auto; lia.
Qed.

Definition cfg2 : PoolConfig :=
  {| initial_buffers := 0; max_buffers := 2; buffer_capacity_bytes := 64; allow_oversize := true |}.

Lemma pool_accounting_witness :
  let ops := [OpAcquire 10 (Ok 1); OpAcquire 100 (Ok 2); OpReturn 0; OpAcquire 200 (Err "no memory")] in
  OpRestart ∉ ops ∧
  bytes_allocated (pool (pool_run (pool_start cfg2) ops)) =
    caps (free (pool (pool_run (pool_start cfg2) ops)) ++
          (h_slot <$> handles (pool_run (pool_start cfg2) ops))) + 200.
Proof.
  intros ops.
  assert (H : OpRestart ∉ ops).
  { subst ops. rewrite !not_elem_of_cons. split_and!; [done..|apply not_elem_of_nil]. }
  split; [done|]. apply (pool_accounting cfg2 ops H).
Defined.

Lemma refused_run cfg len e n :
  len ≤ buffer_capacity_bytes cfg → n ≤ max_buffers cfg →
  pool_run (pool_start cfg) (replicate n (OpAcquire len (Err e))) =
    {| pool := Nat.iter n (count_mint (buffer_capacity_bytes cfg)) (Pool_new cfg); handles := [];
       released := []; minted := []; refused := replicate n (buffer_capacity_bytes cfg) |}.
Proof.
  intros Hl. induction n as [|n IH]; intros Hn; [done|].
  rewrite replicate_S_end. unfold pool_run in *. rewrite foldl_app, IH by lia. simpl.
  assert (Hp : ∀ k, let p := Nat.iter k (count_mint (buffer_capacity_bytes cfg)) (Pool_new cfg) in
     pconfig p = cfg ∧ free p = [] ∧ total_minted p = k).
  { intros k; induction k as [|k (?&?&?)]; simpl; [done|]. split_and!; auto. }
  specialize (Hp n) as (Hc & Hf & Ht). simpl in *. unfold log_malloc, try_acquire, take_slot, asks_malloc.
  rewrite Hc, Hf, Ht. destruct (Nat.ltb_spec (buffer_capacity_bytes cfg) len); [lia|].
  destruct (Nat.leb_spec (max_buffers cfg) n); [lia|]. simpl.
  by rewrite <-replicate_S_end.
Qed.

(** Refused allocations use the pool up: after [max_buffers] allocations that
    [malloc_host] refused, the pool holds no memory at all, yet every later
    request for a pooled buffer is refused for ever with "max_buffers reached",
    whatever [malloc_host] would now answer. *)
Theorem pool_exhausted_by_refusals (cfg : PoolConfig) (len len' : nat) (e : string)
    (malloc : result nat string) :
  len ≤ buffer_capacity_bytes cfg → len' ≤ buffer_capacity_bytes cfg →
  let s := pool_run (pool_start cfg) (replicate (max_buffers cfg) (OpAcquire len (Err e))) in
  live s = [] ∧ minted s = [] ∧
  try_acquire len' malloc (pool s) = (Err (full_error (max_buffers cfg)), pool s).
Proof.
  intros Hl Hl' s. subst s. rewrite refused_run by done.
  assert (Hp : ∀ k, let p := Nat.iter k (count_mint (buffer_capacity_bytes cfg)) (Pool_new cfg) in
     pconfig p = cfg ∧ free p = [] ∧ total_minted p = k).
  { intros k; induction k as [|k (?&?&?)]; simpl; [done|]. split_and!; auto. }
  specialize (Hp (max_buffers cfg)) as (Hc & Hf & Ht). unfold live, try_acquire, take_slot. simpl.
  rewrite Hf, Hc, Ht. destruct (Nat.ltb_spec (buffer_capacity_bytes cfg) len'); [lia|].
  by rewrite Nat.leb_refl.
Qed.

Lemma pool_exhausted_by_refusals_witness :
  max_buffers PoolConfig_default = 32 ∧
  try_acquire 8 (Ok 1) (pool (pool_run (pool_start cfg2) (replicate 2 (OpAcquire 8 (Err "no memory"))))) =
    (Err (full_error 2), pool (pool_run (pool_start cfg2) (replicate 2 (OpAcquire 8 (Err "no memory"))))).
Proof.
  split; [done|]. apply (pool_exhausted_by_refusals cfg2 8 8 "no memory" (Ok 1)); simpl; lia.
Defined.

(** A buffer that comes back after a restart is taken off the books of the new
    generation, so that more than [max_buffers] pooled buffers come to exist. *)
Example pool_overcommit :
  let cfg := {| initial_buffers := 0; max_buffers := 1; buffer_capacity_bytes := 64;
                allow_oversize := false |} in
  let s := pool_run (pool_start cfg)
    [OpAcquire 8 (Ok 1); OpRestart; OpAcquire 8 (Ok 2); OpReturn 0; OpAcquire 8 (Ok 3)] in
  ptrs (h_slot <$> handles s) = [2; 3] ∧ in_use (pool s) = 2 ∧ total_minted (pool s) = 1.
Proof. by vm_compute. Qed.

(** ** Sizes *)

(** A typed view fits its buffer: a successful acquisition yields a buffer of
    at least the requested size, and [into_typed] succeeds exactly when the
    elements fit in it, in particular when their size in bytes does not
    overflow 64 bits; so a view never reaches past its allocation. *)
Theorem pool_typed_fits (p p' : Pool) (len_bytes : nat) (malloc : result nat string)
    (h : PinnedBufHandle) (size_of_T len : Z) :
  Forall (λ sl, capacity_bytes sl = buffer_capacity_bytes (pconfig p)) (free p) →
  try_acquire len_bytes malloc p = (Ok h, p') →
  len_bytes ≤ capacity_bytes (h_slot h) ∧
  ((Z.of_nat (capacity_bytes (h_slot h)) < 2 ^ 64)%Z →
   is_ok (into_typed size_of_T len h) = true ↔
     (len * size_of_T <= Z.of_nat (capacity_bytes (h_slot h)))%Z).
Proof.
  intros Hf Ha. split.
  - apply try_acquire_cases in Ha
      as [(e & ? & _)|[(e & bytes & msg & ? & _)|
         [(sl & rest & Hfr & _ & Hl & [= ->] & _)|(q & bytes & over & _ & _ & Hl & _ & [= ->] & _)]]];
      simpl; try done.
    rewrite Hfr in Hf. apply Forall_cons in Hf as [-> _]. done.
  - intros Hc. unfold into_typed. destruct (Z.leb_spec (2 ^ 64) (len * size_of_T)); simpl; [split; [done|lia]|].
    destruct (Z.ltb_spec (Z.of_nat (capacity_bytes (h_slot h))) (len * size_of_T)); simpl;
      split; done || lia.
Qed.

Lemma pool_typed_fits_witness :
  let h := {| h_slot := {| ptr := 1; capacity_bytes := 64; oversize := false |}; h_generation := 0 |} in
  is_ok (into_typed 4 16 h) = true ∧ is_ok (into_typed 4 17 h) = false ∧
  is_ok (into_typed 8 (2 ^ 61) h) = false ∧ 10 ≤ capacity_bytes (h_slot h).
Proof.
  intros h.
  assert (H : try_acquire 10 (Ok 1) (Pool_new cfg2) =
    (Ok h, set_in_use 1 (count_mint 64 (Pool_new cfg2)))) by done.
  split_and!; [by apply (pool_typed_fits (Pool_new cfg2) _ _ _ _ 4 16 (Forall_nil_2 _) H)|done..|simpl; lia].
Defined.
