(* ===== verification/NcclWorld.v ===== *)
(** * NcclWorldActor: one collective actor per device

    Models [crates/atomr-accel-cuda/src/multi_device/world_actor.rs]: the world
    is built once every device has a context, torn down and rebuilt when a
    device's context changes, and dispatches an all-reduce to the ranks.  What
    the devices, CUDA, NCCL and the actor system answer during one attempt to
    build is a [BuildEnv]. *)

From stdpp Require Import pretty.
From S2P Require Import Prelude Actor Errors DeviceState.

Record NcclWorldConfig := { device_ids : list Z; root : nat }.
Definition NcclWorldConfig_new (ids : list Z) : NcclWorldConfig := {| device_ids := ids; root := 0 |}.

Inductive ReduceOp : Type := Sum | Prod | Max | Min | Avg.

(** A tensor and what [device_id()] answers for it. *)
Record Tensor := { t_ref : GpuRef; t_device : option Z }.

Inductive NcclWorldMsg : Type :=
  | AllReduceF32 (tensors : list Tensor) (op : ReduceOp) (reply : nat)
  | ChildReady (device_idx : nat) (device_ref : nat)
  | DeviceContextChanged (device_idx : nat) (new_generation : Z).

Record NcclWorld := {
  nconfig : NcclWorldConfig;
  devices : list (option nat);
  collectives : list (option nat);
  built : bool;
  last_generation : list Z;
}.

Inductive NcclEff : Type :=
  | SubscribeGeneration (device_idx device_ref : nat)
  | StopCollective (c : nat)
  | ReplyAllReduce (reply : nat) (r : result unit GpuError)
  (** The task that tells each collective its tensor and joins the answers. *)
  | SpawnJoin (work : list (nat * Tensor)) (op : ReduceOp) (reply : nat).

Record BuildEnv := {
  (** The answer to [SnapshotContext]; a dropped reply is [None]. *)
  snapshot : nat → option ctx_id;
  env_stream : ctx_id → result stream_id string;
  (** [Comm::from_devices]; an unloadable NCCL is an error too. *)
  from_devices : list stream_id → result (list nat) string;
  spawn_collective : nat → result nat string;
}.

Definition NcclWorld_new (cfg : NcclWorldConfig) : NcclWorld :=
  let n := length (device_ids cfg) in
  {| nconfig := cfg; devices := replicate n None; collectives := replicate n None; built := false;
     last_generation := replicate n 0%Z |}.

Abbreviation handler := (pact NcclWorld NcclEff unit) (only parsing).

Definition set_devices (d : list (option nat)) (w : NcclWorld) : NcclWorld :=
  {| nconfig := nconfig w; devices := d; collectives := collectives w; built := built w;
     last_generation := last_generation w |}.
Definition set_collectives (c : list (option nat)) (w : NcclWorld) : NcclWorld :=
  {| nconfig := nconfig w; devices := devices w; collectives := c; built := built w;
     last_generation := last_generation w |}.
Definition set_built (b : bool) (w : NcclWorld) : NcclWorld :=
  {| nconfig := nconfig w; devices := devices w; collectives := collectives w; built := b;
     last_generation := last_generation w |}.
Definition set_last_generation (g : list Z) (w : NcclWorld) : NcclWorld :=
  {| nconfig := nconfig w; devices := devices w; collectives := collectives w; built := built w;
     last_generation := g |}.

(** [v[i] = x], which panics out of range. *)
Definition assign {A} (l : list A) (i : nat) (x : A) : option (list A) :=
  if decide (i < length l) then Some (<[i := x]> l) else None.

(** The spawn loop: stops at the first failure, keeping what it has done. *)
Fixpoint spawn_ranks (spawn : nat → result nat string) (i : nat) (comms : list nat)
    (w : NcclWorld) : NcclWorld * bool :=
  match comms with
  | [] => (w, true)
  | _ :: comms =>
    match spawn i with
    | Ok r => spawn_ranks spawn (S i) comms (set_collectives (<[i := Some r]> (collectives w)) w)
    | Err _ => (w, false)
    end
  end.

Definition try_build_world (env : BuildEnv) (w : NcclWorld) : NcclWorld :=
  if built w then w
  else match mapM id (devices w) with
  | None => w
  | Some drefs =>
    match mapM (snapshot env) drefs with
    | None => w
    | Some snaps =>
      match mapM (λ c, match env_stream env c with Ok s => Some s | Err _ => None end) snaps with
      | None => w
      | Some streams =>
        match from_devices env streams with
        | Err _ => w
        | Ok comms =>
          let '(w1, done) := spawn_ranks (spawn_collective env) 0 comms w in
          if done then set_built true w1 else w1
        end
      end
    end
  end.

(** ** All-reduce *)

Definition not_built : GpuError := Unrecoverable "NcclWorldActor: world not built yet".
Definition wrong_count (n k : nat) : GpuError :=
  Unrecoverable ("AllReduce: expected " +:+ pretty n +:+ " tensors, got " +:+ pretty k).
Definition wrong_device (i : nat) (d expected : Z) : GpuError :=
  Unrecoverable ("AllReduce: tensor[" +:+ pretty i +:+ "] on device " +:+ pretty d
    +:+ ", expected " +:+ pretty expected).

(** The validation loop over ranks [i], [i+1], ... *)
Fixpoint check_devices (i : nat) (ids : list Z) (ts : list Tensor) : option GpuError :=
  match ids, ts with
  | e :: ids, t :: ts =>
    match t_device t with
    | Some d => if negb (d =? e)%Z then Some (wrong_device i d e) else check_devices (S i) ids ts
    | None => check_devices (S i) ids ts
    end
  | _, _ => None
  end.

Definition dispatch_all_reduce_f32 (ts : list Tensor) (op : ReduceOp) (reply : nat) : handler :=
  w ← calm get;
  if negb (built w) then calm (emit (ReplyAllReduce reply (Err not_built)))
  else if negb (length ts =? length (device_ids (nconfig w))) then
    calm (emit (ReplyAllReduce reply
      (Err (wrong_count (length (device_ids (nconfig w))) (length ts)))))
  else match check_devices 0 (device_ids (nconfig w)) ts with
       | Some e => calm (emit (ReplyAllReduce reply (Err e)))
       | None =>
         match mapM id (collectives w) with
         | None => panic "called `Option::unwrap()` on a `None` value"
         | Some cs => calm (emit (SpawnJoin (zip cs ts) op reply))
         end
       end.

(** The join over the ranks' answers; [None] is a dropped reply. *)
Fixpoint join (rxs : list (option (result unit GpuError))) : result unit GpuError :=
  match rxs with
  | [] => Ok ()
  | Some (Ok _) :: rxs => join rxs
  | Some (Err e) :: _ => Err e
  | None :: _ => Err (Unrecoverable "AllReduce: a collective actor dropped its reply")
  end.

(** ** The actor *)

Definition world_handle (env : BuildEnv) (m : NcclWorldMsg) : handler :=
  match m with
  | ChildReady i dref =>
    w ← calm get;
    match assign (devices w) i (Some dref) with
    | None => panic "index out of bounds"
    | Some ds =>
      calm (put (set_devices ds w));;
      calm (emit (SubscribeGeneration i dref));;
      calm (modify (try_build_world env))
    end
  | DeviceContextChanged i g =>
    w ← calm get;
    let prev := default 0%Z (last_generation w !! i) in
    if (g <=? prev)%Z then mret ()
    else match assign (last_generation w) i g with
    | None => panic "index out of bounds"
    | Some gs =>
      calm (put (set_last_generation gs w));;
      if negb (built w) then mret ()
      else
        calm (emits (StopCollective <$> omap id (collectives w)));;
        calm (modify (set_collectives (replicate (length (collectives w)) None)));;
        calm (modify (set_built false));;
        calm (modify (try_build_world env))
    end
  | AllReduceF32 ts op reply => dispatch_all_reduce_f32 ts op reply
  end.

Arguments world_handle : simpl never.

(** [pre_start] once every device actor is spawned: the references are known,
    and each device is reported ready after a fixed delay. *)
Definition world_pre_start (refs : list nat) (w : NcclWorld) : NcclWorld * list NcclWorldMsg :=
  (set_devices (Some <$> refs) w, imap ChildReady refs).

(** Each message with what the world answers while it is handled. *)
Fixpoint world_run (w : NcclWorld) (ms : list (BuildEnv * NcclWorldMsg)) : NcclWorld * list NcclEff :=
  match ms with
  | [] => (w, [])
  | (env, m) :: ms =>
    let '(_, w1, e1) := world_handle env m w in
    let '(w2, e2) := world_run w1 ms in (w2, e1 ++ e2)
  end.

(** ** Well-formedness *)

(** [Comm::from_devices] answers one communicator per stream. *)
Definition nccl_env (env : BuildEnv) : Prop :=
  ∀ ss cs, from_devices env ss = Ok cs → length cs = length ss.

Record world_wf (w : NcclWorld) : Prop := {
  nw_devices : length (devices w) = length (device_ids (nconfig w));
  nw_collectives : length (collectives w) = length (device_ids (nconfig w));
  nw_generations : length (last_generation w) = length (device_ids (nconfig w));
  nw_built : built w = true → Forall is_Some (collectives w);
}.

Lemma spawn_ranks_spec spawn comms i w w' b :
  spawn_ranks spawn i comms w = (w', b) →
  nconfig w' = nconfig w ∧ devices w' = devices w ∧ built w' = built w ∧
  last_generation w' = last_generation w ∧
  length (collectives w') = length (collectives w) ∧
  (∀ j, j < i → collectives w' !! j = collectives w !! j) ∧
  (b = true → i + length comms ≤ length (collectives w) →
   ∀ j, i ≤ j < i + length comms → ∃ r, collectives w' !! j = Some (Some r)).
Proof.
  revert i w. induction comms as [|c comms IH]; intros i w; simpl.
  { intros [= <- <-]. split_and!; try done. lia. }
  destruct (spawn i) as [r|e]; [|intros [= <- <-]; by split_and!].
  intros (Hc & Hd & Hb & Hg & Hl & Hbefore & Hafter)%IH. simpl in *.
  rewrite length_insert in *. split_and!; try done.
  - intros j Hj. rewrite Hbefore by lia. by rewrite list_lookup_insert_ne by lia.
  - intros Htrue Hlen j Hj. destruct (decide (j = i)) as [->|].
    + exists r. rewrite Hbefore by lia. by rewrite list_lookup_insert_eq by lia.
    + apply Hafter; [done|lia..].
Qed.

Lemma all_some_lookup {A} (l : list (option A)) :
  (∀ j, j < length l → ∃ r, l !! j = Some (Some r)) → Forall is_Some l.
Proof.
  intros H. apply Forall_lookup_2. intros j x Hj.
  destruct (H j) as [r Hr]; [by eapply lookup_lt_Some|]. simplify_eq. by eexists.
Qed.

Lemma try_build_wf env w : nccl_env env → world_wf w → world_wf (try_build_world env w).
Proof.
  intros Henv Hw. unfold try_build_world. destruct (built w) eqn:Hb; [done|].
  destruct (mapM id (devices w)) as [drefs|] eqn:Hd; [|done].
  destruct (mapM (snapshot env) drefs) as [snaps|] eqn:Hs; [|done].
  destruct (mapM _ snaps) as [streams|] eqn:Hst; [|done].
  destruct (from_devices env streams) as [comms|] eqn:Hc; [|done].
  apply length_mapM in Hd, Hs, Hst. apply Henv in Hc.
  destruct (spawn_ranks _ _ _ _) as [w1 done] eqn:Hr.
  apply spawn_ranks_spec in Hr as (H1 & H2 & H3 & H4 & H5 & _ & Hall).
  destruct Hw as [W1 W2 W3 W4]. destruct done; constructor; simpl;
    rewrite ?H1, ?H2, ?H3, ?H4, ?H5; try done; try congruence.
  intros _. apply all_some_lookup. intros j Hj. apply Hall; [done|..]; lia.
Qed.

Lemma try_build_config env w : nconfig (try_build_world env w) = nconfig w.
Proof.
  unfold try_build_world. destruct (built w); [done|].
  destruct (mapM id _); [|done]. destruct (mapM (snapshot env) _); [|done].
  destruct (mapM _ _); [|done]. destruct (from_devices env _); [|done].
  destruct (spawn_ranks _ _ _ _) as [w1 []] eqn:Hr; by apply spawn_ranks_spec in Hr as (? & _).
Qed.

Definition in_range (cfg : NcclWorldConfig) (m : NcclWorldMsg) : Prop :=
  match m with
  | ChildReady i _ | DeviceContextChanged i _ => i < length (device_ids cfg)
  | AllReduceF32 _ _ _ => True
  end.

Lemma world_handle_wf env m w r w' es :
  nccl_env env → world_wf w → world_handle env m w = (r, w', es) →
  world_wf w' ∧ nconfig w' = nconfig w.
Proof.
  intros Henv Hw.
  assert (Hp : pwp (world_handle env m) (λ _ w' _, world_wf w' ∧ nconfig w' = nconfig w) w);
    [|by apply (pwp_run _ _ _ _ _ _ Hp)].
  destruct m as [ts op reply|i dref|i g]; unfold world_handle, dispatch_all_reduce_f32.
  - pwp_step. pwp_step. destruct (negb (built w)); [by pwp_step|]. destruct (negb _); [by pwp_step|].
    destruct (check_devices _ _ _); [by pwp_step|]. destruct (mapM id _); by pwp_step.
  - do 2 pwp_step. unfold assign. case_decide; [|by pwp_step]. do 5 pwp_step.
    rewrite try_build_config. split; [|done]. apply try_build_wf; [done|].
    destruct Hw; constructor; simpl; rewrite ?length_insert; done.
  - do 2 pwp_step. destruct (g <=? _)%Z; [by pwp_step|]. unfold assign. case_decide; [|by pwp_step].
    do 2 pwp_step. destruct (negb (built w)) eqn:Hb.
    { pwp_step. split; [|done]. destruct Hw; constructor; simpl; rewrite ?length_insert; done. }
    pwp_step. unfold pwp at 1. simpl. do 5 pwp_step. rewrite try_build_config. split; [|done].
    apply try_build_wf; [done|].
    destruct Hw; constructor; simpl; rewrite ?length_insert, ?length_replicate; done.
Qed.

Lemma world_run_wf ms w :
  Forall (nccl_env ∘ fst) ms → world_wf w →
  world_wf (world_run w ms).1 ∧ nconfig (world_run w ms).1 = nconfig w.
Proof.
  intros H. revert w. induction H as [|[env m] ms Henv _ IH]; intros w Hw; [done|]. simpl.
  destruct (world_handle env m w) as [[r w1] e1] eqn:Hm.
  destruct (world_handle_wf env m w r w1 e1 Henv Hw Hm) as [H1 Hc].
  destruct (IH w1 H1) as [H2 Hc2]. destruct (world_run w1 ms) as [w2 e2]; simpl in *.
  split; [done|congruence].
Qed.

Lemma world_new_wf cfg : world_wf (NcclWorld_new cfg).
Proof. constructor; simpl; by rewrite ?length_replicate. Qed.

Lemma check_devices_spec i ids ts :
  length ts = length ids →
  match check_devices i ids ts with
  | None => Forall2 (λ e t, t_device t = None ∨ t_device t = Some e) ids ts
  | Some _ => ∃ j e t d, ids !! j = Some e ∧ ts !! j = Some t ∧ t_device t = Some d ∧ d ≠ e
  end.
Proof.
  revert i ts. induction ids as [|e ids IH]; intros i [|t ts]; simpl; try done.
  intros [= Hl]. specialize (IH (S i) ts Hl).
  destruct (t_device t) as [d|] eqn:Ht; [destruct (Z.eqb_spec d e) as [->|]|]; simpl.
  2: by exists 0, e, t, d.
  all: destruct (check_devices (S i) ids ts); [destruct IH as (j & ? & ? & ? & ?); by exists (S j); eauto|].
  all: constructor; auto.
Qed.

(** C11 (an all-reduce goes to every rank or to none): in every reachable world, an
    all-reduce never hits the [unwrap] of a missing collective: it is answered
    by one error when the world is not built, the number of tensors is wrong or
    a tensor sits on another rank's device, and otherwise hands tensor [i] to
    the collective of rank [i] for every rank; the joined answer is a success
    exactly when every rank succeeded. *)
Theorem nccl_dispatch (cfg : NcclWorldConfig) (ms : list (BuildEnv * NcclWorldMsg))
    (ts : list Tensor) (op : ReduceOp) (reply : nat) :
  Forall (nccl_env ∘ fst) ms →
  let w := (world_run (NcclWorld_new cfg) ms).1 in
  let '(r, w', es) := dispatch_all_reduce_f32 ts op reply w in
  r = Ok () ∧ w' = w ∧
  ((∃ e, es = [ReplyAllReduce reply (Err e)] ∧
     (built w = false ∨ length ts ≠ length (device_ids cfg) ∨
      ∃ j e t d, device_ids cfg !! j = Some e ∧ ts !! j = Some t ∧ t_device t = Some d ∧ d ≠ e)) ∨
   (∃ cs, es = [SpawnJoin (zip cs ts) op reply] ∧ built w = true ∧
     collectives w = Some <$> cs ∧ length cs = length (device_ids cfg) ∧ length ts = length cs ∧
     Forall2 (λ e t, t_device t = None ∨ t_device t = Some e) (device_ids cfg) ts)) ∧
  (∀ rxs, join rxs = Ok () ↔ Forall (λ rx, rx = Some (Ok ())) rxs).
Proof.
  intros Hms w. destruct (world_run_wf ms (NcclWorld_new cfg) Hms (world_new_wf cfg)) as [Hw Hc].
  fold w in Hw, Hc. simpl in Hc. clearbody w.
  unfold dispatch_all_reduce_f32. pact_unfold. rewrite Hc.
  assert (Hj : ∀ rxs, join rxs = Ok () ↔ Forall (λ rx, rx = Some (Ok ())) rxs).
  { induction rxs as [|[[[]|]|] rxs IH]; simpl; rewrite ?Forall_cons; naive_solver. }
  destruct (built w) eqn:Hb; simpl; [|split_and!; try done; left; eexists; eauto].
  destruct (Nat.eqb_spec (length ts) (length (device_ids cfg))) as [Hl|Hl]; simpl;
    [|split_and!; try done; left; eexists; eauto].
  pose proof (check_devices_spec 0 _ _ Hl) as Hd.
  destruct (check_devices 0 (device_ids cfg) ts); [split_and!; try done; left; eexists; eauto|].
  destruct (mapM id (collectives w)) as [cs|] eqn:Hcs.
  - assert (collectives w = Some <$> cs) as Hco.
    { apply mapM_Some_1 in Hcs. clear -Hcs. induction Hcs; simpl; [done|]. by f_equal. }
    split_and!; try done. right. exists cs.
    destruct Hw as [_ Hlc _ _]. rewrite Hco, length_fmap, Hc in Hlc. split_and!; done || congruence.
  - exfalso. apply mapM_None_1 in Hcs. pose proof (nw_built w Hw Hb) as Hall.
    apply Exists_exists in Hcs as (x & Hx & Hn). rewrite Forall_forall in Hall.
    destruct (Hall x Hx) as [y Hy]. by simplify_eq.
Qed.

Definition env_ok : BuildEnv :=
  {| snapshot := λ d, Some d; env_stream := λ c, Ok c; from_devices := λ ss, Ok ss;
     spawn_collective := λ i, Ok (10 + i) |}.
Definition env_starting : BuildEnv :=
  {| snapshot := λ _, None; env_stream := λ c, Ok c; from_devices := λ ss, Ok ss;
     spawn_collective := λ i, Ok (10 + i) |}.

Lemma nccl_dispatch_witness :
  let t i := {| t_ref := GpuRef_new i (DeviceState_new 0); t_device := Some (Z.of_nat i) |} in
  let w := (world_run (NcclWorld_new (NcclWorldConfig_new [0; 1]%Z))
              [(env_starting, ChildReady 0 5); (env_ok, ChildReady 1 6)]).1 in
  (dispatch_all_reduce_f32 [t 0; t 1] Sum 9 w).2 = [SpawnJoin [(10, t 0); (11, t 1)] Sum 9] ∧
  (dispatch_all_reduce_f32 [t 0; t 1] Sum 9 w).1.1 = Ok ().
Proof.
  intros t w. split; [by vm_compute|].
  pose proof (nccl_dispatch (NcclWorldConfig_new [0; 1]%Z)
    [(env_starting, ChildReady 0 5); (env_ok, ChildReady 1 6)] [t 0; t 1] Sum 9) as H.
  simpl in H. apply H. repeat constructor; by intros ? ? [= ->].
Defined.

(** ** A world that is down stays down *)

Definition is_child_ready (m : NcclWorldMsg) : bool :=
  match m with ChildReady _ _ => true | _ => false end.

Lemma down_step env m w :
  is_child_ready m = false → built w = false →
  let '(r, w', es) := world_handle env m w in
  built w' = false ∧ collectives w' = collectives w ∧ devices w' = devices w ∧
  match m with
  | AllReduceF32 _ _ reply => es = [ReplyAllReduce reply (Err not_built)]
  | _ => es = []
  end.
Proof.
  intros Hm Hb. destruct m as [ts op reply|i dref|i g]; [|done|];
    unfold world_handle, dispatch_all_reduce_f32; pact_unfold; [by rewrite Hb|].
  destruct (g <=? _)%Z; [done|]. unfold assign. case_decide; [|done]. by rewrite Hb.
Qed.

Lemma down_run ms w :
  Forall (λ em, is_child_ready em.2 = false) ms → built w = false →
  built (world_run w ms).1 = false ∧
  (world_run w ms).2 =
    omap (λ em, match em.2 with
                | AllReduceF32 _ _ reply => Some (ReplyAllReduce reply (Err not_built))
                | _ => None
                end) ms.
Proof.
  intros H. revert w. induction H as [|[env m] ms Hm _ IH]; intros w Hb; [done|]. simpl in *.
  pose proof (down_step env m w Hm Hb) as Hs.
  destruct (world_handle env m w) as [[r w1] e1]. destruct Hs as (Hb1 & _ & _ & He).
  destruct (IH w1 Hb1) as [Hb2 He2]. destruct (world_run w1 ms) as [w2 e2]; simpl in *.
  split; [done|]. destruct m; subst; done.
Qed.

(** A build attempt fails while some device has no context. *)
Lemma build_blocked env w d :
  Some d ∈ devices w → snapshot env d = None → try_build_world env w = w.
Proof.
  intros Hd Hs. unfold try_build_world. destruct (built w); [done|].
  destruct (mapM id (devices w)) as [drefs|] eqn:Hds; [|done].
  destruct (mapM (snapshot env) drefs) as [snaps|] eqn:Hsn; [|done].
  exfalso. apply mapM_Some_1 in Hds, Hsn.
  apply list_elem_of_lookup in Hd as [i Hi].
  destruct (Forall2_lookup_l _ _ _ _ _ Hds Hi) as (d' & Hi' & [= ->]).
  destruct (Forall2_lookup_l _ _ _ _ _ Hsn Hi') as (? & _ & ?). congruence.
Qed.

(** A world that misses its start never comes up: the world tries to build
    when a device is reported ready, which happens once per device at a fixed
    delay after the start.  If at each of those moments some device has no
    context yet, the world is not built afterwards, and no later context
    change builds it: every all-reduce is refused for ever, even when all
    devices are up.  The same holds after a failed rebuild. *)
Theorem nccl_never_comes_up (cfg : NcclWorldConfig) (refs : list nat)
    (early : list BuildEnv) (d : nat) (ms : list (BuildEnv * NcclWorldMsg)) :
  length refs = length (device_ids cfg) → d ∈ refs →
  length early = length refs → Forall (λ env, snapshot env d = None) early →
  Forall (λ em, is_child_ready em.2 = false) ms →
  let '(w0, notices) := world_pre_start refs (NcclWorld_new cfg) in
  let '(w1, _) := world_run w0 (zip early notices) in
  built w1 = false ∧
  (world_run w1 ms).2 =
    omap (λ em, match em.2 with
                | AllReduceF32 _ _ reply => Some (ReplyAllReduce reply (Err not_built))
                | _ => None
                end) ms.
Proof.
  intros Hn Hd He Hearly Hms. simpl.
  assert (Hrun : ∀ k rs (w : NcclWorld), devices w = Some <$> refs → built w = false →
    (∀ i r, rs !! i = Some r → refs !! (k + i) = Some r) →
    built (world_run w (zip early (imap (λ i, ChildReady (k + i)) rs))).1 = false).
  { clear Hms He. induction Hearly as [|env early Henv _ IH]; intros k rs w Hw Hb Hrs; [done|].
    destruct rs as [|r rs]; [done|]. simpl.
    pose proof (Hrs 0 r eq_refl) as Hr. rewrite Nat.add_0_r in *.
    assert (Hh : world_handle env (ChildReady k r) w = (Ok (), w, [SubscribeGeneration k r])).
    { unfold world_handle. pact_unfold. unfold assign. rewrite decide_True.
      2: { rewrite Hw, length_fmap. by eapply lookup_lt_Some. }
      assert (Hi : <[k := Some r]> (devices w) = devices w).
      { apply list_insert_id. by rewrite Hw, list_lookup_fmap, Hr. }
      assert (Hset : set_devices (<[k := Some r]> (devices w)) w = w).
      { rewrite Hi. by destruct w. }
      simpl. rewrite Hset, (build_blocked env w d); [done| |done].
      rewrite Hw. by apply list_elem_of_fmap_2. }
    assert (Him : imap ((λ i, ChildReady (k + i)) ∘ S) rs = imap (λ i, ChildReady (S k + i)) rs).
    { apply imap_ext. intros. simpl. by rewrite Nat.add_succ_r. }
    rewrite Hh, Him. specialize (IH (S k) rs w Hw Hb).
    destruct (world_run w _) as [w2 e2]; simpl in *. apply IH.
    intros i r' Hi. rewrite <-Nat.add_succ_r. by apply (Hrs (S i)). }
  specialize (Hrun 0 refs (set_devices (Some <$> refs) (NcclWorld_new cfg)) eq_refl eq_refl).
  simpl in Hrun. unfold world_pre_start.
  destruct (world_run _ _) as [w1 e1]; simpl in *.
  split; [by apply Hrun|]. apply down_run; [done|by apply Hrun].
Qed.

Lemma nccl_never_comes_up_witness :
  let cfg := NcclWorldConfig_new [0; 1]%Z in
  let w1 := (world_run (world_pre_start [5; 6] (NcclWorld_new cfg)).1
    (zip [env_starting; env_starting] (world_pre_start [5; 6] (NcclWorld_new cfg)).2)).1 in
  built w1 = false ∧
  (world_run w1 [(env_ok, DeviceContextChanged 0 1); (env_ok, DeviceContextChanged 1 1);
                 (env_ok, AllReduceF32 [] Sum 3)]).2 = [ReplyAllReduce 3 (Err not_built)].
Proof.
  intros cfg w1.
  refine (nccl_never_comes_up cfg [5; 6] [env_starting; env_starting] 5
    [(env_ok, DeviceContextChanged 0 1); (env_ok, DeviceContextChanged 1 1);
     (env_ok, AllReduceF32 [] Sum 3)] _ _ _ _ _); try done; try (by repeat constructor).
Defined.
