(* ===== verification/P2p.v ===== *)
(** * Peer-to-peer topology

    Models [crates/atomr-accel-cuda/src/p2p/mod.rs]: the peer-access graph with
    its islands, and the topology actor.  The depth-first search of [islands]
    runs with fuel; [islands_spec] shows the fuel given is enough. *)

From stdpp Require Import pretty.
From S2P Require Import Prelude Actor Errors DeviceState.

Record P2pGraph := { edges : list (list bool); device_count : nat }.

Definition P2pGraph_new (n : nat) : P2pGraph :=
  {| edges := replicate n (replicate n false); device_count := n |}.

(** [self.edges[a][b]]; [None] is an index out of bounds, a panic. *)
Definition can_pair (g : P2pGraph) (a b : nat) : option bool := row ← edges g !! a; row !! b.

(** [self.edges[j][k] || self.edges[k][j]], for indices of the graph. *)
Definition linked (g : P2pGraph) (j k : nat) : bool :=
  default false (can_pair g j k) || default false (can_pair g k j).

(** The [while let Some(j) = stack.pop()] loop; the top of the stack is the head,
    [visited] is the set of marked indices. *)
Fixpoint island_loop (g : P2pGraph) (fuel : nat) (visited : gset nat) (stack : list nat)
    (island : gset nat) : option (gset nat * gset nat) :=
  match fuel with
  | 0 => None
  | S fuel =>
    match stack with
    | [] => Some (visited, island)
    | j :: stack =>
      if decide (j ∈ visited) then island_loop g fuel visited stack island
      else
        let visited := {[j]} ∪ visited in
        let next := filter (λ k, k ∉ visited ∧ linked g j k = true) (seq 0 (device_count g)) in
        island_loop g fuel visited (reverse next ++ stack) ({[j]} ∪ island)
    end
  end.

(** Each visited node pushes at most [n] nodes, and every iteration pops one. *)
Definition island_fuel (n : nat) : nat := n * n + 2.

(** The outer loop over [0..n]. *)
Fixpoint islands_from (g : P2pGraph) (nodes : list nat) (visited : gset nat) : option (list (gset nat)) :=
  match nodes with
  | [] => Some []
  | i :: nodes =>
    if decide (i ∈ visited) then islands_from g nodes visited
    else
      '(visited, island) ← island_loop g (island_fuel (device_count g)) visited [i] ∅;
      rest ← islands_from g nodes visited;
      Some (island :: rest)
  end.

Definition islands (g : P2pGraph) : option (list (gset nat)) :=
  islands_from g (seq 0 (device_count g)) ∅.

(** ** The actor *)

Inductive P2pMsg : Type :=
  | EnableAll (reply : nat)
  | CanAccess (from to : nat) (reply : nat)
  | CopyF32 (src : GpuRef) (src_device : nat) (dst : GpuRef) (dst_device : nat) (reply : nat)
  | Topology (reply : nat)
  | RefreshDevice (device_idx : nat) (new_generation : Z).

Record P2pTopology := {
  p_devices : list nat;
  contexts : list (option ctx_id);
  graph : P2pGraph;
  enabled : bool;
  (** The strong counts of the slices. *)
  p_heap : arcs;
}.

Inductive P2pEff : Type :=
  | ReplyGraph (reply : nat) (r : result P2pGraph GpuError)
  | ReplyBool (reply : nat) (b : bool)
  | ReplyTopology (reply : nat) (g : P2pGraph)
  | ReplyCopy (reply : nat) (r : result unit GpuError)
  | PeerCopy (src dst : slice_id).

(** What the devices and the driver answer. *)
Record P2pEnv := {
  p_snapshot : nat → option ctx_id;
  (** [cuDeviceCanAccessPeer], or an unloadable driver. *)
  probe : option (nat → nat → bool);
  (** [cuCtxEnablePeerAccess] succeeds or was enabled already. *)
  enable : nat → nat → bool;
  (** The shared state of the device a reference belongs to. *)
  state_of : GpuRef → option DeviceState;
  p_stream : result stream_id string;
  (** The peer copy with its event wait and synchronisation. *)
  peer_copy : result unit GpuError;
}.

Definition P2pTopology_new (devs : list nat) (h : arcs) : P2pTopology :=
  {| p_devices := devs; contexts := replicate (length devs) None;
     graph := P2pGraph_new (length devs); enabled := false; p_heap := h |}.

Definition set_contexts (c : list (option ctx_id)) (t : P2pTopology) : P2pTopology :=
  {| p_devices := p_devices t; contexts := c; graph := graph t; enabled := enabled t; p_heap := p_heap t |}.
Definition set_graph (g : P2pGraph) (t : P2pTopology) : P2pTopology :=
  {| p_devices := p_devices t; contexts := contexts t; graph := g; enabled := enabled t; p_heap := p_heap t |}.
Definition set_enabled (b : bool) (t : P2pTopology) : P2pTopology :=
  {| p_devices := p_devices t; contexts := contexts t; graph := graph t; enabled := b; p_heap := p_heap t |}.
Definition set_p_heap (h : arcs) (t : P2pTopology) : P2pTopology :=
  {| p_devices := p_devices t; contexts := contexts t; graph := graph t; enabled := enabled t; p_heap := h |}.

(** [graph.edges[i][j]] after the probe loop. *)
Definition probed (can : nat → nat → bool) (snaps : list (option ctx_id)) (i j : nat) : bool :=
  match snaps !! i, snaps !! j with
  | Some (Some _), Some sj =>
    if decide (i = j) then true else match sj with Some _ => can i j | None => false end
  | _, _ => false
  end.

(** ... and after the enabling loop. *)
Definition enabled_edge (en : nat → nat → bool) (e : nat → nat → bool) (i j : nat) : bool :=
  if decide (i = j) then e i j else e i j && en i j.

Definition build_graph (n : nat) (e : nat → nat → bool) : P2pGraph :=
  {| edges := (λ i, e i <$> seq 0 n) <$> seq 0 n; device_count := n |}.

Definition driver_missing : GpuError := Unrecoverable "P2pTopology::EnableAll: CUDA driver not loadable".

Definition enable_all (env : P2pEnv) (reply : nat) : pact P2pTopology P2pEff unit :=
  t ← calm get;
  let n := length (p_devices t) in
  let snaps := p_snapshot env <$> p_devices t in
  calm (put (set_contexts snaps t));;
  match probe env with
  | None => calm (emit (ReplyGraph reply (Err driver_missing)))
  | Some can =>
    let g := build_graph n (enabled_edge (enable env) (probed can snaps)) in
    calm (modify (set_graph g));;
    calm (modify (set_enabled true));;
    calm (emit (ReplyGraph reply (Ok g)))
  end.

Definition can_access (t : P2pTopology) (from to : nat) : bool :=
  if from =? to then true else default false (can_pair (graph t) from to).

Definition copy_f32 (env : P2pEnv) (src : GpuRef) (src_device : nat) (dst : GpuRef) (dst_device : nat)
    (reply : nat) : pact P2pTopology P2pEff unit :=
  t ← calm get;
  let fail e := calm (emit (ReplyCopy reply (Err e))) in
  if negb (enabled t) then fail (Unrecoverable "P2pTopology: call EnableAll first")
  else match can_pair (graph t) src_device dst_device with
  | None => panic "index out of bounds"
  | Some false =>
    fail (Unrecoverable ("P2pTopology: device " +:+ pretty src_device +:+ " cannot peer-access "
      +:+ pretty dst_device))
  | Some true =>
    match mjoin (contexts t !! src_device), mjoin (contexts t !! dst_device) with
    | None, _ => fail (Unrecoverable ("P2pTopology: src device " +:+ pretty src_device
        +:+ " context not available"))
    | Some _, None => fail (Unrecoverable ("P2pTopology: dst device " +:+ pretty dst_device
        +:+ " context not available"))
    | Some _, Some _ =>
      match access src (state_of env src) with
      | Err e => fail e
      | Ok s =>
        calm (modify (λ t, set_p_heap (arc_clone s (p_heap t)) t));;
        let drop_src := calm (modify (λ t, set_p_heap (arc_drop s (p_heap t)) t)) in
        match access dst (state_of env dst) with
        | Err e => fail e;; drop_src
        | Ok d =>
          t1 ← calm get;
          let '(unwrapped, h) := try_unwrap d (arc_clone d (p_heap t1)) in
          calm (put (set_p_heap h t1));;
          if negb unwrapped then
            fail (Unrecoverable "P2pCopy: dst has multiple live references");; drop_src
          else match p_stream env with
               | Err e => fail (LibraryError "driver" ("dst new_stream: " +:+ e));; drop_src
               | Ok _ =>
                 calm (emit (PeerCopy s d));;
                 calm (emit (ReplyCopy reply (peer_copy env)));; drop_src
               end
        end
      end
    end
  end.

Definition p2p_handle (env : P2pEnv) (m : P2pMsg) : pact P2pTopology P2pEff unit :=
  match m with
  | EnableAll reply => enable_all env reply
  | CanAccess from to reply => t ← calm get; calm (emit (ReplyBool reply (can_access t from to)))
  | CopyF32 src sd dst dd reply => copy_f32 env src sd dst dd reply
  | Topology reply => t ← calm get; calm (emit (ReplyTopology reply (graph t)))
  | RefreshDevice i _ =>
    t ← calm get;
    match p_devices t !! i with
    | None => mret ()
    | Some dev =>
      calm (put (set_contexts (<[i := p_snapshot env dev]> (contexts t)) t));;
      calm (modify (set_enabled false))
    end
  end.

(** ** Islands *)

Section islands.
Context (g : P2pGraph).

(** Two devices of the graph with a peer link in either direction. *)
Definition adj (j k : nat) : Prop := j < device_count g ∧ k < device_count g ∧ linked g j k = true.

Lemma linked_sym j k : linked g j k = linked g k j.
Proof. unfold linked. apply orb_comm. Qed.

Lemma adj_sym j k : adj j k → adj k j.
Proof. unfold adj. rewrite (linked_sym k j). tauto. Qed.

Definition conn : relation nat := rtc adj.

Lemma conn_sym a b : conn a b → conn b a.
Proof.
  induction 1 as [|x y z Hxy _ IH]; [done|]. eapply rtc_r; [exact IH|by apply adj_sym].
Qed.

Lemma conn_lt a b : conn a b → a < device_count g → b < device_count g.
Proof. induction 1 as [|? ? ? (?&?&?)]; auto. Qed.

(** A set of devices no link leaves. *)
Definition closed (V : gset nat) : Prop := ∀ a b, a ∈ V → adj a b → b ∈ V.

Lemma closed_conn V a b : closed V → conn a b → a ∈ V → b ∈ V.
Proof. intros HV. induction 1; eauto. Qed.

(** The state of the search from [i]: the marked nodes are the old ones and the
    island; the island is connected to [i]; what the stack holds is connected
    to [i]; and a neighbour of the island is marked or on the stack. *)
Record searching (i : nat) (V0 visited : gset nat) (stack : list nat) (island : gset nat) : Prop := {
  se_visited : visited = V0 ∪ island;
  se_island : ∀ a, a ∈ island → conn i a;
  se_stack : ∀ a, a ∈ stack → conn i a;
  se_next : ∀ a b, a ∈ island → adj a b → b ∈ visited ∨ b ∈ stack;
  se_root : i ∈ island ∨ i ∈ stack ∨ i ∈ V0;
}.

Lemma searching_pop i V0 visited j stack island :
  j ∈ visited → searching i V0 visited (j :: stack) island → searching i V0 visited stack island.
Proof.
  intros Hj [H1 H2 H3 H4 H5]. constructor; auto.
  - intros a Ha. apply H3. by right.
  - intros a b Ha Hab. destruct (H4 a b Ha Hab) as [?|[->|?]%elem_of_cons]; auto.
  - destruct H5 as [?|[[->|?]%elem_of_cons|?]]; auto. subst visited.
    apply elem_of_union in Hj as [?|?]; auto.
Qed.

Lemma searching_visit i V0 visited j stack island :
  i < device_count g → searching i V0 visited (j :: stack) island →
  searching i V0 ({[j]} ∪ visited)
    (reverse (filter (λ k, k ∉ {[j]} ∪ visited ∧ linked g j k = true) (seq 0 (device_count g))) ++ stack)
    ({[j]} ∪ island).
Proof.
  intros Hi [H1 H2 H3 H4 H5].
  assert (Hj : conn i j) by (apply H3; by left).
  pose proof (conn_lt _ _ Hj Hi) as Hjn. constructor.
  - subst. set_solver.
  - intros a [->%elem_of_singleton|?]%elem_of_union; auto.
  - intros a [Ha|Ha]%elem_of_app; [|apply H3; by right].
    apply elem_of_reverse, list_elem_of_filter in Ha as [[_ Hl] Ha%elem_of_seq].
    eapply rtc_r; [done|]. split_and!; [done|lia|done].
  - intros a b [->%elem_of_singleton|Ha]%elem_of_union Hab.
    + destruct (decide (b ∈ {[j]} ∪ visited)); [by left|right]. apply elem_of_app. left.
      destruct Hab as (_ & Hb & Hl). apply elem_of_reverse, list_elem_of_filter.
      split; [done|]. apply elem_of_seq. lia.
    + destruct (H4 a b Ha Hab) as [?|[->|?]%elem_of_cons]; [set_solver..|].
      right. apply elem_of_app. by right.
  - destruct H5 as [?|[[->|?]%elem_of_cons|?]]; [set_solver..| |auto].
    right. left. apply elem_of_app. by right.
Qed.

(** Iterations left: the stack, and the pushes of the nodes still unmarked. *)
Definition todo (visited : gset nat) (stack : list nat) : nat :=
  length stack + (device_count g - size (filter (λ k, k < device_count g) visited)) * device_count g.

Lemma todo_pop visited j stack : todo visited (j :: stack) = S (todo visited stack).
Proof. done. Qed.

Lemma filter_seq_length {P : nat → Prop} `{∀ x, Decision (P x)} m :
  length (filter P (seq 0 m)) ≤ m.
Proof. etrans; [apply length_filter|]. by rewrite length_seq. Qed.

Lemma size_below (V : gset nat) : size (filter (λ k, k < device_count g) V) ≤ device_count g.
Proof.
  trans (size (set_seq (C:=gset nat) 0 (device_count g))); [apply subseteq_size|by rewrite size_set_seq].
  intros x [Hx _]%elem_of_filter. apply elem_of_set_seq. lia.
Qed.

Lemma todo_visit visited j stack next :
  j ∉ visited → j < device_count g → length next ≤ device_count g →
  todo ({[j]} ∪ visited) (next ++ stack) < todo visited (j :: stack).
Proof.
  intros Hj Hjn Hnext. unfold todo. rewrite length_app. simpl.
  assert (Hs : size (filter (λ k, k < device_count g) ({[j]} ∪ visited)) =
    S (size (filter (λ k, k < device_count g) visited))).
  { replace (filter (λ k, k < device_count g) ({[j]} ∪ visited))
      with ({[j]} ∪ filter (λ k, k < device_count g) visited) by set_solver.
    rewrite size_union by set_solver. by rewrite size_singleton. }
  rewrite Hs. pose proof (size_below ({[j]} ∪ visited)) as Hb. rewrite Hs in Hb. nia.
Qed.

Lemma island_loop_spec fuel i V0 visited stack island :
  todo visited stack < fuel → i < device_count g → i ∉ V0 → closed V0 →
  searching i V0 visited stack island →
  ∃ X, island_loop g fuel visited stack island = Some (V0 ∪ X, X) ∧
    (∀ b, b ∈ X ↔ conn i b) ∧ closed (V0 ∪ X).
Proof.
  revert visited stack island. induction fuel as [|fuel IH]; intros visited stack island Hf Hi HiV Hc Hs;
    [lia|]. simpl. destruct stack as [|j stack].
  - destruct Hs as [-> H2 _ H4 H5]. exists island. split; [done|].
    assert (Hr : i ∈ island) by (destruct H5 as [?|[Hn|?]]; [done|by inversion Hn|done]).
    assert (Hcl : closed (V0 ∪ island)).
    { intros a b [Ha|Ha]%elem_of_union Hab; [apply elem_of_union_l; by eapply Hc|].
      destruct (H4 a b Ha Hab) as [?|Hn]; [done|by inversion Hn]. }
    split; [|done]. intros b. split; [by apply H2|]. intros Hib.
    assert (b ∈ V0 ∪ island) as [Hb|?]%elem_of_union; [|exfalso|done].
    + eapply closed_conn; [done..|set_solver].
    + apply HiV. eapply closed_conn; [done| |done]. by apply conn_sym.
  - assert (Hjn : j < device_count g).
    { eapply conn_lt; [|done]. eapply se_stack; [done|by left]. }
    destruct (decide (j ∈ visited)) as [Hj|Hj].
    + apply IH; auto; [rewrite todo_pop in Hf; lia|by eapply searching_pop].
    + apply IH; auto; [|by apply searching_visit].
      pose proof (todo_visit visited j stack
        (reverse (filter (λ k, k ∉ {[j]} ∪ visited ∧ linked g j k = true) (seq 0 (device_count g))))
        Hj Hjn) as Ht.
      rewrite length_reverse in Ht. specialize (Ht (filter_seq_length _)). lia.
Qed.

(** The outer loop: the islands found so far cover what is marked. *)
Lemma islands_from_spec nodes V :
  Forall (λ i, i < device_count g) nodes → closed V →
  ∃ l, islands_from g nodes V = Some l ∧
    (∀ X, X ∈ l → ∃ i, i ∈ nodes ∧ ∀ b, b ∈ X ↔ conn i b) ∧
    (∀ X, X ∈ l → X ## V) ∧
    (∀ i, i ∈ nodes → i ∈ V ∨ ∃ X, X ∈ l ∧ i ∈ X) ∧
    (∀ p q X Y, l !! p = Some X → l !! q = Some Y → p ≠ q → X ## Y).
Proof.
  intros Hn. revert V. induction Hn as [|i nodes Hi _ IH]; intros V HV; simpl.
  { exists []. split_and!; try done; intros *; by intros ?%elem_of_nil || (intros; by left). }
  destruct (decide (i ∈ V)) as [HiV|HiV].
  { destruct (IH V HV) as (l & -> & H1 & H2 & H3 & H4). exists l. split_and!; try done.
    - intros X HX. destruct (H1 X HX) as (j & ? & ?). exists j. split; [by right|done].
    - intros j [->|?]%elem_of_cons; auto. }
  destruct (island_loop_spec (island_fuel (device_count g)) i V V [i] ∅) as (X & Hl & HX & HcX);
    [|done..| |].
  { unfold todo, island_fuel. simpl. pose proof (size_below V). nia. }
  { constructor; set_solver. }
  rewrite Hl. simpl. destruct (IH (V ∪ X) HcX) as (l & -> & H1 & H2 & H3 & H4). simpl.
  exists (X :: l). split; [done|].
  assert (HXV : X ## V).
  { intros b Hb HbV. apply HiV. eapply closed_conn; [done| |done]. by apply conn_sym, HX. }
  split_and!.
  - intros Y [->|HY]%elem_of_cons; [exists i; split; [by left|done]|].
    destruct (H1 Y HY) as (j & ? & ?). exists j. split; [by right|done].
  - intros Y [->|HY]%elem_of_cons; [done|]. specialize (H2 Y HY). set_solver.
  - intros j [->|Hj]%elem_of_cons.
    + right. exists X. split; [by left|]. by apply HX.
    + destruct (H3 j Hj) as [[?|?]%elem_of_union|(Y & ? & ?)]; [by left| |].
      * right. exists X. split; [by left|done].
      * right. exists Y. split; [by right|done].
  - intros [|p] [|q] Y Z Hp Hq Hpq; simpl in *; simplify_eq.
    + specialize (H2 Z (list_elem_of_lookup_2 _ _ _ Hq)). set_solver.
    + specialize (H2 Y (list_elem_of_lookup_2 _ _ _ Hp)). set_solver.
    + eapply (H4 p q); eauto.
Qed.
End islands.

(** Islands are the connected components: on every graph the search terminates,
    the islands it returns are pairwise disjoint and cover all devices, and two
    devices are in the same island exactly when a chain of peer links, in either
    direction, connects them. *)
Theorem islands_spec (g : P2pGraph) :
  ∃ l, islands g = Some l ∧
    (∀ p q X Y, l !! p = Some X → l !! q = Some Y → p ≠ q → X ## Y) ∧
    (∀ a, a < device_count g ↔ ∃ X, X ∈ l ∧ a ∈ X) ∧
    (∀ X a b, X ∈ l → a ∈ X → b ∈ X ↔ rtc (adj g) a b).
Proof.
  destruct (islands_from_spec g (seq 0 (device_count g)) ∅) as (l & Hl & H1 & H2 & H3 & H4).
  { apply Forall_forall. intros x Hx%elem_of_seq. lia. }
  { intros a b Ha. set_solver. }
  exists l. split_and!; try done.
  - intros a. split.
    + intros Ha. destruct (H3 a) as [?|?]; [apply elem_of_seq; lia|set_solver|done].
    + intros (X & HX & Ha). destruct (H1 X HX) as (i & Hi%elem_of_seq & Hb).
      apply (conn_lt g i); [by apply Hb|lia].
  - intros X a b HX Ha. destruct (H1 X HX) as (i & _ & Hb). rewrite Hb.
    apply Hb in Ha. split; intros Hc; [|by etrans].
    etrans; [|exact Hc]. by apply conn_sym.
Qed.

Example islands_two :
  islands {| edges := [[true; true; false]; [false; true; false]; [false; false; true]];
             device_count := 3 |} = Some [{[0; 1]}; {[2]}].
Proof. by vm_compute. Qed.

(** ** The actor *)

Lemma can_pair_build n e i j :
  can_pair (build_graph n e) i j = if decide (i < n ∧ j < n) then Some (e i j) else None.
Proof.
  unfold can_pair, build_graph. simpl. rewrite list_lookup_fmap.
  destruct (decide (i < n)) as [Hi|Hi].
  - rewrite lookup_seq_lt by done. simpl. rewrite list_lookup_fmap.
    destruct (decide (j < n)) as [Hj|Hj].
    + rewrite lookup_seq_lt by done. by rewrite decide_True by done.
    + rewrite lookup_seq_ge by lia. by rewrite decide_False by lia.
  - rewrite lookup_seq_ge by lia. by rewrite decide_False by lia.
Qed.

(** Device [i] has a context when [EnableAll] asks. *)
Definition up (env : P2pEnv) (t : P2pTopology) (i : nat) : Prop :=
  ∃ d c, p_devices t !! i = Some d ∧ p_snapshot env d = Some c.

Lemma probed_spec can env t i j :
  probed can (p_snapshot env <$> p_devices t) i j = true ↔
    up env t i ∧ (i = j ∨ (up env t j ∧ can i j = true)).
Proof.
  unfold probed, up. rewrite !list_lookup_fmap.
  destruct (p_devices t !! i) as [di|] eqn:Hi; simpl; [|naive_solver].
  destruct (p_snapshot env di) as [ci|] eqn:Hci; [|naive_solver].
  destruct (p_devices t !! j) as [dj|] eqn:Hj; simpl.
  - case_decide; [naive_solver|]. destruct (p_snapshot env dj) eqn:Hcj; naive_solver.
  - split; [done|]. intros [_ [->|[(? & ? & ? & _) _]]]; congruence.
Qed.

(** Peer access means what it says: once [EnableAll] has run on a host with a
    driver, [CanAccess from to] answers true exactly for a device and itself and
    for pairs of devices that both had a context, that CUDA says can reach each
    other, and whose access could be enabled; indices out of range are false.
    After a context rebuild every copy is refused until [EnableAll] runs again. *)
Theorem p2p_enable (env env' : P2pEnv) (can : nat → nat → bool) (t : P2pTopology)
    (reply i reply' : nat) (g : Z) (src dst : GpuRef) (sd dd : nat) :
  probe env = Some can → i < length (p_devices t) →
  ∃ gr t', p2p_handle env (EnableAll reply) t = (Ok (), t', [ReplyGraph reply (Ok gr)]) ∧
    graph t' = gr ∧
    (∀ from to, can_access t' from to = true ↔
       from = to ∨ (up env t from ∧ up env t to ∧ can from to = true ∧ enable env from to = true)) ∧
    ∃ t'', p2p_handle env' (RefreshDevice i g) t' = (Ok (), t'', []) ∧
      p2p_handle env' (CopyF32 src sd dst dd reply') t'' =
        (Ok (), t'', [ReplyCopy reply' (Err (Unrecoverable "P2pTopology: call EnableAll first"))]).
Proof.
  intros Hp Hi. simpl. unfold enable_all. pact_unfold. rewrite Hp. simpl.
  eexists _, _. split; [done|]. split; [done|]. split.
  - intros from to. unfold can_access. simpl.
    destruct (Nat.eqb_spec from to) as [|Hne]; [naive_solver|]. rewrite can_pair_build.
    destruct (decide (from < length (p_devices t) ∧ to < length (p_devices t))) as [Hlt|Hlt]; simpl.
    + unfold enabled_edge. rewrite decide_False by done. rewrite andb_true_iff, probed_spec. naive_solver.
    + split; [done|]. intros [?|((?&?&Hf&_) & (?&?&Ht&_) & _)]; [done|].
      exfalso. apply Hlt. split; by eapply lookup_lt_Some.
  - destruct (lookup_lt_is_Some_2 _ _ Hi) as [d Hd]. cbn [p_devices set_enabled set_graph set_contexts]. rewrite Hd.
    eexists. split; [done|]. unfold copy_f32. by pact_unfold.
Qed.

Definition p2p_env_ok : P2pEnv :=
  {| p_snapshot := λ d, Some d; probe := Some (λ _ _, true); enable := λ _ _, true;
     state_of := λ _, Some (DeviceState_new 0); p_stream := Ok 1; peer_copy := Ok () |}.

Lemma p2p_enable_witness :
  let t := P2pTopology_new [7; 8] ∅ in
  let t' := (p2p_handle p2p_env_ok (EnableAll 0) t).1.2 in
  can_access t' 0 1 = true ∧ can_access t' 0 2 = false.
Proof.
  intros t t'.
  destruct (p2p_enable p2p_env_ok p2p_env_ok (λ _ _, true) t 0 0 1 5
    (GpuRef_new 0 (DeviceState_new 0)) (GpuRef_new 0 (DeviceState_new 0)) 0 0) as (gr & t1 & He & _ & Hc & _);
    [done|simpl; lia|].
  assert (t1 = t') as -> by (subst t'; by rewrite He).
  split; [|by vm_compute]. apply Hc. right. split_and!; try done; by eexists _, _.
Defined.

(** A peer copy never happens: [CopyF32] into a live buffer is always refused:
    the destination slice it unwraps is a clone of the one the destination
    reference still holds.  The only other outcome is the panic on a device
    index outside the graph. *)
Theorem p2p_copy_never (env : P2pEnv) (t : P2pTopology) (src dst : GpuRef) (sd dd reply : nat) :
  holds (p_heap t) dst →
  let '(r, t', es) := p2p_handle env (CopyF32 src sd dst dd reply) t in
  (r = Ok () ∧ (∃ e, es = [ReplyCopy reply (Err e)]) ∧
   ∀ sl, strong_count (p_heap t') sl = strong_count (p_heap t) sl) ∨
  (r = Err "index out of bounds" ∧ es = [] ∧ enabled t = true ∧ can_pair (graph t) sd dd = None).
Proof.
  intros Hh. simpl. unfold copy_f32. pact_unfold.
  destruct (enabled t); simpl; [|left; eauto].
  destruct (can_pair (graph t) sd dd) as [[]|]; simpl; [|left; eauto|right; done].
  destruct (mjoin (contexts t !! sd)), (mjoin (contexts t !! dd)); simpl; try (left; by eauto).
  destruct (access src (state_of env src)) as [s|e] eqn:Hs; simpl; [|left; eauto].
  destruct (access dst (state_of env dst)) as [d|e] eqn:Hd; simpl.
  - assert (d = slice dst) as ->.
    { destruct (state_of env dst); [|done]. by apply access_Ok in Hd as (_ & _ & ->). }
    pose proof (try_unwrap_clone _ _ (holds_clone _ s _ Hh)) as Hu. unfold try_unwrap in *.
    case_decide; simpl in *; [done|]. left. split_and!; [done|by eexists|].
    intros sl. rewrite <-(arc_drop_clone_all (p_heap t) s sl).
    unfold arc_drop at 1 3, strong_count at 1 3.
    destruct (decide (s = sl)) as [->|Hne].
    + rewrite !lookup_insert_eq. simpl. by rewrite arc_drop_clone_all.
    + rewrite !lookup_insert_ne by done. apply arc_drop_clone_all.
  - left. split_and!; [done|by eexists|]. intros. apply arc_drop_clone_all.
Qed.

Lemma p2p_copy_never_witness :
  let t := (p2p_handle p2p_env_ok (EnableAll 0) (P2pTopology_new [7; 8] {[3 := 1; 4 := 1]})).1.2 in
  let g sl := GpuRef_new sl (DeviceState_new 0) in
  holds (p_heap t) (g 4) ∧
  ((p2p_handle p2p_env_ok (CopyF32 (g 3) 0 (g 4) 1 9) t).1.1 = Ok () ∨ can_pair (graph t) 0 1 = None).
Proof.
  intros t g. assert (H : holds (p_heap t) (g 4)) by (vm_compute; lia). split; [done|].
  pose proof (p2p_copy_never p2p_env_ok t (g 3) (g 4) 0 1 9 H) as Hc.
  destruct (p2p_handle p2p_env_ok (CopyF32 (g 3) 0 (g 4) 1 9) t) as [[r t'] es].
  destruct Hc as [(-> & _)|(_ & _ & _ & ?)]; [by left|by right].
Defined.
