(* ===== verification/Collective.v ===== *)
(** * Collectives: one rank of an NCCL world

    Models [crates/atomr-accel-cuda/src/kernel/collective]: the requests, the actor
    of one rank ([mod.rs]), the scope guard of groups ([group.rs]), the probe of the
    library ([capabilities.rs]) and the custom reduction ([custom_op.rs]).  Buffers
    and handles are the [Gpu] of [Envelope.v]; unlike the other kernel actors this
    one answers when NCCL has taken the call, and spawns no task.

    What NCCL answers to a call, the size of the world and the lengths of the
    buffers are parameters.  A panic inside a handler drops the reply's sender. *)

From stdpp Require Import pretty.
From S2P Require Import Prelude Actor Errors Dtype DeviceState Envelope Objects NcclWorld.

Definition LIB : string := "nccl".
Definition nccl_error (op e : string) : GpuError := LibraryError LIB (op +:+ ": " +:+ e).

(** The types that [NcclReduceSupported] is implemented for. *)
Definition nccl_reduce_supported (d : DType) : bool :=
  match d with F32 | F64 | I8 | U8 | I32 | U32 | I64 | U64 | F16 | Bf16 => true | _ => false end.

(** ** Requests *)

Record AllReduceRequest := { ar_tensor : GpuRef; ar_op : ReduceOp; ar_reply : nat }.
Record AllGatherRequest := { ag_send : GpuRef; ag_recv : GpuRef; ag_reply : nat }.
Record BroadcastRequest := { bc_data : GpuRef; bc_root : Z; bc_reply : nat }.
Record ReduceRequest := { rd_send : GpuRef; rd_recv : option GpuRef; rd_op : ReduceOp; rd_root : Z; rd_reply : nat }.
Record ReduceScatterRequest := { rs_send : GpuRef; rs_recv : GpuRef; rs_op : ReduceOp; rs_reply : nat }.
Record AllToAllRequest := { aa_send : GpuRef; aa_recv : GpuRef; aa_count : Z; aa_reply : nat }.
Record AllToAllvRequest := {
  av_send : GpuRef;
  av_recv : GpuRef;
  send_counts : list Z;
  send_offsets : list Z;
  recv_counts : list Z;
  recv_offsets : list Z;
  av_reply : nat;
}.
Record SendRequest := { sd_data : GpuRef; sd_peer : Z; sd_reply : nat }.
Record RecvRequest := { rv_data : GpuRef; rv_peer : Z; rv_reply : nat }.

(** A boxed [dyn CollectiveDispatch] of some element type. *)
Inductive CollectiveOp : Type :=
  | BAllReduce (r : AllReduceRequest)
  | BAllGather (r : AllGatherRequest)
  | BBroadcast (r : BroadcastRequest)
  | BReduce (r : ReduceRequest)
  | BReduceScatter (r : ReduceScatterRequest)
  | BAllToAll (r : AllToAllRequest)
  | BAllToAllv (r : AllToAllvRequest)
  | BSend (r : SendRequest)
  | BRecv (r : RecvRequest).

Definition op_reply (o : CollectiveOp) : nat :=
  match o with
  | BAllReduce r => ar_reply r | BAllGather r => ag_reply r | BBroadcast r => bc_reply r | BReduce r => rd_reply r
  | BReduceScatter r => rs_reply r | BAllToAll r => aa_reply r | BAllToAllv r => av_reply r | BSend r => sd_reply r
  | BRecv r => rv_reply r
  end.
(** The handles a request owns, in the order they are accessed. *)
Definition op_refs (o : CollectiveOp) : list GpuRef :=
  match o with
  | BAllReduce r => [ar_tensor r]
  | BAllGather r => [ag_send r; ag_recv r]
  | BBroadcast r => [bc_data r]
  | BReduce r => rd_send r :: option_list (rd_recv r)
  | BReduceScatter r => [rs_send r; rs_recv r]
  | BAllToAll r => [aa_send r; aa_recv r]
  | BAllToAllv r => [av_send r; av_recv r]
  | BSend r => [sd_data r]
  | BRecv r => [rv_data r]
  end.
(** The buffer a request writes, with the refusal when it is shared. *)
Definition op_targets (o : CollectiveOp) : list (GpuRef * string) :=
  match o with
  | BAllReduce r => [(ar_tensor r, "AllReduce tensor has multiple live references")]
  | BAllGather r => [(ag_recv r, "AllGather recv buffer has multiple live references")]
  | BBroadcast r => [(bc_data r, "Broadcast data has multiple live references")]
  | BReduce r => (λ t, (t, "Reduce recv buffer has multiple live references")) <$> option_list (rd_recv r)
  | BReduceScatter r => [(rs_recv r, "ReduceScatter recv buffer has multiple live references")]
  | BAllToAll r => [(aa_recv r, "AllToAll recv buffer has multiple live references")]
  | BAllToAllv r => [(av_recv r, "AllToAllv recv buffer has multiple live references")]
  | BSend _ => []
  | BRecv r => [(rv_data r, "Recv buffer has multiple live references")]
  end.

Definition op_tag (op : ReduceOp) : string :=
  match op with Sum => "Sum" | Prod => "Prod" | Max => "Max" | Min => "Min" | Avg => "Avg" end.

(** ** The exchange of an all-to-all *)

(** How a closure ends: a panic carries its message. *)
Inductive Ran : Type := Fine | Fails (e : GpuError) | Panics (msg : string).

Definition start_call : Call := {| cname := "group_start"; cargs := [] |}.
Definition end_call : Call := {| cname := "group_end"; cargs := [] |}.
Definition slab_call (name : string) (sl : slice_id) (lo hi peer : Z) : Call :=
  {| cname := name; cargs := [ADev sl; AInt lo; AInt hi; AInt peer] |}.

(** A step of the exchange: a check, a slab cut from a buffer ([slice] panics out of
    range), or a call with its error. *)
Inductive XStep : Type :=
  | XCheck (ok : bool) (e : GpuError)
  | XCut (lo hi len : Z)
  | XCall (err : string → GpuError) (c : Call).

Definition cut_ok (lo hi len : Z) : bool := (lo <=? hi)%Z && (hi <=? len)%Z.

(** [group_start], the steps, [group_end]; an early return or a panic skips the rest. *)
Fixpoint run_steps (answer : Call → option string) (xs : list XStep) : list Call * Ran :=
  match xs with
  | [] => ([], Fine)
  | XCheck ok e :: xs => if ok then run_steps answer xs else ([], Fails e)
  | XCut lo hi len :: xs =>
    if cut_ok lo hi len then run_steps answer xs else ([], Panics "called `Option::unwrap()` on a `None` value")
  | XCall err c :: xs =>
    match answer c with
    | Some e => ([], Fails (err e))
    | None => let '(cs, r) := run_steps answer xs in (c :: cs, r)
    end
  end.

Definition grouped (xs : list XStep) : list XStep :=
  XCall (nccl_error "group_start") start_call :: xs ++ [XCall (nccl_error "group_end") end_call].

(** The rounds of [AllToAllRequest]: the slabs of [count] elements of a peer. *)
Definition a2a_round (send recv : slice_id) (slen rlen count peer : Z) : list XStep :=
  let lo := wmul 64 peer count in
  let hi := wmul 64 (wadd 64 peer 1) count in
  [XCut lo hi slen; XCut lo hi rlen;
   XCall (nccl_error ("a2a send to " +:+ pretty peer)) (slab_call "ncclSend" send lo hi peer);
   XCall (nccl_error ("a2a recv from " +:+ pretty peer)) (slab_call "ncclRecv" recv lo hi peer)].

(** The rounds of [AllToAllvRequest]: a peer with a count of zero is skipped. *)
Definition shard (name err_head overrun : string) (sl : slice_id) (len off cnt peer : Z) : list XStep :=
  if (0 <? cnt)%Z then
    let hi := wadd 64 off cnt in
    [XCheck (hi <=? len)%Z (Unrecoverable ("AllToAllv: " +:+ overrun +:+ pretty peer +:+ " overruns buffer"));
     XCut off hi len;
     XCall (nccl_error (err_head +:+ pretty peer)) (slab_call name sl off hi peer)]
  else [].
Definition a2av_round (r : AllToAllvRequest) (slen rlen : Z) (peer : nat) : list XStep :=
  let at_ (l : list Z) := default 0%Z (l !! peer) in
  shard "ncclSend" "a2av send to " "send shard for peer " (slice (av_send r)) slen
    (at_ (send_offsets r)) (at_ (send_counts r)) (Z.of_nat peer) ++
  shard "ncclRecv" "a2av recv from " "recv shard from peer " (slice (av_recv r)) rlen
    (at_ (recv_offsets r)) (at_ (recv_counts r)) (Z.of_nat peer).

Section dispatch.
Context {S : Type} (answer : Call → option string).
(** [world_size] of the rank's [Comm], and the lengths of the buffers. *)
Context (world_size : nat) (len : slice_id → Z).

Abbreviation kact := (act (S * Gpu) KEff).

(** A call that puts an operation on the stream. *)
Definition nccl_call (op : string) (c : Call) : kact (result unit GpuError) :=
  r ← lib_call answer (nccl_error op) c;
  mret (match r with Ok _ => Ok tt | Err e => Err e end).

(** Answer, then drop what was cloned. *)
Definition answer_with (reply : nat) (clones : list slice_id) (r : result unit GpuError) : kact unit :=
  emit (Reply reply (match r with Ok _ => Ok Done | Err e => Err e end));;
  drop_clones clones.

(** The operations among the calls of an exchange: group calls queue nothing. *)
Definition is_group (c : Call) : bool := String.eqb (cname c) "group_start" || String.eqb (cname c) "group_end".
Definition push_call (c : Call) : kact unit :=
  emit (Enqueue c);;
  if is_group c then skip
  else on_gpu (λ g, {| heap := heap g; refs := refs g; dev := dev g;
                       queue := queue g ++ [{| op_id := next_op g; op_call := c |}];
                       next_op := next_op g + 1; tasks := tasks g |}).
Definition exchange (reply : nat) (clones : list slice_id) (xs : list XStep) : kact unit :=
  let '(cs, r) := run_steps answer (grouped xs) in
  foldr (λ c k, push_call c;; k) skip cs;;
  match r with
  | Fine => answer_with reply clones (Ok tt)
  | Fails e => answer_with reply clones (Err e)
  | Panics p => emits [DropSender reply; Panicked p];; drop_clones clones
  end.

Definition counts_error : GpuError :=
  Unrecoverable ("AllToAllv: counts/offsets must each have length world_size (" +:+ pretty world_size +:+ ")").
Definition counts_ok (r : AllToAllvRequest) : bool :=
  (length (send_counts r) =? world_size) && (length (send_offsets r) =? world_size) &&
  (length (recv_counts r) =? world_size) && (length (recv_offsets r) =? world_size).

Definition peers : list Z := Z.of_nat <$> seq 0 world_size.

(** What follows the checks of each request. *)
Definition all_reduce_body (r : AllReduceRequest) (clones : list slice_id) : kact unit :=
  x ← nccl_call "all_reduce" {| cname := "ncclAllReduce"; cargs := [ADev (slice (ar_tensor r)); ATag (op_tag (ar_op r))] |};
  answer_with (ar_reply r) clones x.
Definition all_gather_body (r : AllGatherRequest) (clones : list slice_id) : kact unit :=
  x ← nccl_call "all_gather" {| cname := "ncclAllGather"; cargs := [ADev (slice (ag_send r)); ADev (slice (ag_recv r))] |};
  answer_with (ag_reply r) clones x.
Definition broadcast_body (r : BroadcastRequest) (clones : list slice_id) : kact unit :=
  if (2 ^ 31 <=? bc_root r)%Z then
    answer_with (bc_reply r) clones (Err (Unrecoverable ("Broadcast: root " +:+ pretty (bc_root r) +:+ " does not fit in i32")))
  else
    x ← nccl_call "broadcast_in_place" {| cname := "ncclBroadcast"; cargs := [ADev (slice (bc_data r)); AInt (bc_root r)] |};
    answer_with (bc_reply r) clones x.
Definition reduce_body (r : ReduceRequest) (clones : list slice_id) : kact unit :=
  x ← nccl_call "reduce" {| cname := "ncclReduce";
         cargs := ADev (slice (rd_send r)) :: (ADev <$> (slice <$> option_list (rd_recv r))) ++
                  [ATag (op_tag (rd_op r)); AInt (rd_root r)] |};
  answer_with (rd_reply r) clones x.
Definition reduce_scatter_body (r : ReduceScatterRequest) (clones : list slice_id) : kact unit :=
  x ← nccl_call "reduce_scatter" {| cname := "ncclReduceScatter";
         cargs := [ADev (slice (rs_send r)); ADev (slice (rs_recv r)); ATag (op_tag (rs_op r))] |};
  answer_with (rs_reply r) clones x.
Definition all_to_all_body (r : AllToAllRequest) (clones : list slice_id) : kact unit :=
  let slen := len (slice (aa_send r)) in
  let rlen := len (slice (aa_recv r)) in
  let need := wmul 64 (Z.of_nat world_size) (aa_count r) in
  if (slen <? need)%Z || (rlen <? need)%Z then
    answer_with (aa_reply r) clones (Err (Unrecoverable ("AllToAll: buffer length < world_size (" +:+ pretty world_size +:+
      ") * count (" +:+ pretty (aa_count r) +:+ ")")))
  else exchange (aa_reply r) clones (peers ≫= a2a_round (slice (aa_send r)) (slice (aa_recv r)) slen rlen (aa_count r)).
Definition all_to_all_v_body (r : AllToAllvRequest) (clones : list slice_id) : kact unit :=
  exchange (av_reply r) clones (seq 0 world_size ≫= a2av_round r (len (slice (av_send r))) (len (slice (av_recv r)))).
Definition send_body (r : SendRequest) (clones : list slice_id) : kact unit :=
  x ← nccl_call "send" {| cname := "ncclSend"; cargs := [ADev (slice (sd_data r)); AInt (sd_peer r)] |};
  answer_with (sd_reply r) clones x.
Definition recv_body (r : RecvRequest) (clones : list slice_id) : kact unit :=
  x ← nccl_call "recv" {| cname := "ncclRecv"; cargs := [ADev (slice (rv_data r)); AInt (rv_peer r)] |};
  answer_with (rv_reply r) clones x.

Definition body (o : CollectiveOp) (clones : list slice_id) : kact unit :=
  match o with
  | BAllReduce r => all_reduce_body r clones
  | BAllGather r => all_gather_body r clones
  | BBroadcast r => broadcast_body r clones
  | BReduce r => reduce_body r clones
  | BReduceScatter r => reduce_scatter_body r clones
  | BAllToAll r => all_to_all_body r clones
  | BAllToAllv r => all_to_all_v_body r clones
  | BSend r => send_body r clones
  | BRecv r => recv_body r clones
  end.

Definition coll_dispatch (o : CollectiveOp) : kact unit :=
  let run := with_operands (op_refs o) (op_targets o) (op_reply o) (body o) in
  match o with
  | BAllToAllv r => if counts_ok r then run else emit (Reply (op_reply o) (Err counts_error))
  | _ => run
  end.
End dispatch.

(** ** The actor *)

Record NcclCapabilities := { version : Z * Z * Z; has_fp8 : bool; has_nvls : bool; has_sharp : bool }.
Definition zeroed : NcclCapabilities := {| version := (0, 0, 0)%Z; has_fp8 := false; has_nvls := false; has_sharp := false |}.

(** The features [nccl-fp8] and [nccl-nvls] of the build. *)
Record NcclFeatures := { nccl_fp8 : bool; nccl_nvls : bool }.

(** [ncclGetVersion]'s answer; a panic of the loader is [None]. *)
Definition parse_version (v : Z) : Z * Z * Z :=
  if (20000 <=? v)%Z then (v ÷ 10000, Z.rem (v ÷ 100) 100, Z.rem v 100)%Z
  else (v ÷ 1000, Z.rem (v ÷ 100) 10, Z.rem v 100)%Z.
Definition supports_fp8 (v : Z * Z * Z) : bool :=
  let '(major, minor, _) := v in (2 <? major)%Z || ((major =? 2)%Z && (20 <=? minor)%Z).
Definition probe_capabilities (f : NcclFeatures) (get_version : option (result Z string)) : NcclCapabilities :=
  match default (Ok 0%Z) get_version with
  | Err _ => zeroed
  | Ok v =>
    if (v =? 0)%Z then zeroed
    else {| version := parse_version v; has_fp8 := nccl_fp8 f && supports_fp8 (parse_version v);
            has_nvls := nccl_nvls f; has_sharp := false |}
  end.

Inductive CollectiveMsg : Type :=
  | Op (o : CollectiveOp)
  | BeginGroup (reply : nat)
  | EndGroup (reply : nat)
  | QueryCapabilities (reply : nat)
  | AllReduceF32 (tensor : GpuRef) (op : ReduceOp) (reply : nat)
  | BroadcastF32 (data : GpuRef) (root : Z) (reply : nat).

Definition msg_refs (m : CollectiveMsg) : list GpuRef :=
  match m with Op o => op_refs o | AllReduceF32 t _ _ => [t] | BroadcastF32 d _ _ => [d] | _ => [] end.
Definition msg_reply (m : CollectiveMsg) : nat :=
  match m with
  | Op o => op_reply o
  | BeginGroup ch | EndGroup ch | QueryCapabilities ch | AllReduceF32 _ _ ch | BroadcastF32 _ _ ch => ch
  end.

(** The rank's communicator is a name. *)
Inductive CollectiveInner : Type := Real (comm : nat) | Mock.

(** [props_for_rank]: the factory owns the communicator until it is first run. *)
Definition spawn_rank (slot : option nat) : option nat * result CollectiveInner string :=
  match slot with
  | Some comm => (None, Ok (Real comm))
  | None => (None, Err "Unrecoverable: CollectiveActor restart with consumed Comm — NcclWorldActor must rebuild the world")
  end.

(** The effects, and the one reply that is not a [Result]. *)
Inductive CollEff : Type := Kernel (e : KEff) | Capabilities (ch : nat) (c : NcclCapabilities).
Definition lift {S A} (m : act S KEff A) : act S CollEff A := λ s, let '(a, s', es) := m s in (a, s', Kernel <$> es).

Section actor.
Context (answer : Call → option string) (world_size : nat) (len : slice_id → Z).
Context (features : NcclFeatures) (get_version : option (result Z string)).

Abbreviation cact := (act (CollectiveInner * Gpu) CollEff).

Definition mock_error : GpuError := Unrecoverable "CollectiveActor in mock mode".
Definition mock_reply (m : CollectiveMsg) : cact unit :=
  match m with
  | Op o => emit (Kernel (DropSender (op_reply o)))
  | QueryCapabilities ch => emit (Capabilities ch zeroed)
  | _ => emit (Kernel (Reply (msg_reply m) (Err mock_error)))
  end.

Definition group_call (c : Call) (reply : nat) : cact unit :=
  match answer c with
  | Some e => emit (Kernel (Reply reply (Err (nccl_error (cname c) e))))
  | None => emits [Kernel (Enqueue c); Kernel (Reply reply (Ok Done))]
  end.

Definition dispatch_on (o : CollectiveOp) : cact unit := lift (coll_dispatch answer world_size len o).

Definition handle_legacy (m : CollectiveMsg) : cact unit :=
  match m with
  | Op o => skip   (* unreachable *)
  | BeginGroup ch => group_call start_call ch
  | EndGroup ch => group_call end_call ch
  | QueryCapabilities ch => emit (Capabilities ch (probe_capabilities features get_version))
  | AllReduceF32 t op ch => dispatch_on (BAllReduce {| ar_tensor := t; ar_op := op; ar_reply := ch |})
  | BroadcastF32 d root ch => dispatch_on (BBroadcast {| bc_data := d; bc_root := root; bc_reply := ch |})
  end.

(** A request on another device is only warned about. *)
Definition coll_handle (m : CollectiveMsg) : cact unit :=
  s ← get;
  match s.1, m with
  | Mock, m => mock_reply m
  | Real _, Op o => dispatch_on o
  | Real _, m => handle_legacy m
  end.

(** *** What is answered *)

(** The request that a message stands for. *)
Definition msg_op (m : CollectiveMsg) : option CollectiveOp :=
  match m with
  | Op o => Some o
  | AllReduceF32 t op ch => Some (BAllReduce {| ar_tensor := t; ar_op := op; ar_reply := ch |})
  | BroadcastF32 d root ch => Some (BBroadcast {| bc_data := d; bc_root := root; bc_reply := ch |})
  | _ => None
  end.

(** The refusal of a request before NCCL is called, if there is one. *)
Definition refusal (dev : option DeviceState) (o : CollectiveOp) : option GpuError :=
  let refused := match access_list dev (op_refs o) with
    | Err e => Some e
    | Ok _ => (λ t, Unrecoverable t.2) <$> head (op_targets o)
    end in
  match o with
  | BAllToAllv r => if counts_ok world_size r then refused else Some (counts_error world_size)
  | _ => refused
  end.

(** The call of a request that writes nothing of this rank's. *)
Definition read_only_call (o : CollectiveOp) : option (string * Call) :=
  match o with
  | BSend r => Some ("send", {| cname := "ncclSend"; cargs := [ADev (slice (sd_data r)); AInt (sd_peer r)] |})
  | BReduce r =>
    if rd_recv r then None
    else Some ("reduce", {| cname := "ncclReduce"; cargs := [ADev (slice (rd_send r)); ATag (op_tag (rd_op r)); AInt (rd_root r)] |})
  | _ => None
  end.

Lemma target_or_read_only o : (∃ t, head (op_targets o) = Some t ∧ t.1 ∈ op_refs o ∧ op_targets o = [t]) ∨
  (op_targets o = [] ∧ ∃ x, read_only_call o = Some x).
Proof.
  destruct o as [| | |r| | | | |]; try (by left; eexists; split; [done|]; split; [set_solver|]); [|by right; eauto].
  destruct r as [s [t|] ? ? ?]; [left|right; eauto]. eexists. split; [done|]. split; [set_solver|done].
Qed.

(** What a request does to the device and answers. *)
Definition outcome (o : CollectiveOp) (g g' : Gpu) (es : list KEff) : Prop :=
  refs g' = refs g ∧ tasks g' = tasks g ∧ (∀ sl, strong_count (heap g') sl = strong_count (heap g) sl) ∧
  match refusal (dev g) o, read_only_call o with
  | Some e, _ => queue g' = queue g ∧ es = [Reply (op_reply o) (Err e)]
  | None, Some (op, c) =>
    match answer c with
    | Some e => queue g' = queue g ∧ es = [Reply (op_reply o) (Err (nccl_error op e))]
    | None => queue g' = queue g ++ [{| op_id := next_op g; op_call := c |}] ∧
        es = [Enqueue c; Reply (op_reply o) (Ok Done)]
    end
  | None, None => False
  end.

(** A request with a target: its own handle keeps the target shared. *)
Lemma writer_outcome {S} o t (s : S) g :
  op_targets o = [t] → t.1 ∈ op_refs o → Forall (holds (heap g)) (op_refs o) →
  awp (with_operands (op_refs o) (op_targets o) (op_reply o) (body answer world_size len o)) (λ _ s' es,
    s'.1 = s ∧ refs s'.2 = refs g ∧ tasks s'.2 = tasks g ∧ queue s'.2 = queue g ∧
    (∀ sl, strong_count (heap s'.2) sl = strong_count (heap g) sl) ∧
    es = [Reply (op_reply o) (Err match access_list (dev g) (op_refs o) with Err e => e | Ok _ => Unrecoverable t.2 end)]) (s, g).
Proof.
  intros Ht Hin Hh. rewrite Ht. eapply awp_mono, with_operands_shared; [|done..].
  intros _ s' es (Hs & [Hr [(Hq & Hk & Hc & _)|(op & k & _ & _ & _ & _ & _ & _ & Hn)]] & ->); [by split_and!|].
  discriminate Hn.
Qed.

(** A request without: the call is made, answered, and the clone dropped. *)
Lemma reader_outcome {S} o op c (s : S) g :
  op_targets o = [] → read_only_call o = Some (op, c) → Forall (holds (heap g)) (op_refs o) →
  awp (with_operands (op_refs o) (op_targets o) (op_reply o) (body answer world_size len o)) (λ _ s' es,
    s'.1 = s ∧ outcome o g s'.2 es) (s, g).
Proof.
  intros Ht Hc Hh. rewrite Ht. unfold with_operands, access_all, get_gpu, on_gpu, outcome, refusal. rewrite Hc, Ht.
  awp_steps. cbn [snd].
  assert (Hb : ∀ l, body answer world_size len o l =
    (nccl_call answer op c ≫= λ x, answer_with (S := S) (op_reply o) l x)).
  { intros l. destruct o as [| | |r| | | | |]; try discriminate Hc; [|by injection Hc as <- <-].
    destruct r as [sn [t|] ? ? ?]; [discriminate Hc|]. by injection Hc as <- <-. }
  assert (Hv : ∀ e, match o with BAllToAllv r => if counts_ok world_size r then e else Some (counts_error world_size) | _ => e end = e).
  { intros e. by destruct o; try discriminate Ht. }
  rewrite Hv. destruct (access_list (dev g) (op_refs o)) as [l|e] eqn:Ha; awp_steps; [|by cbn; split_and!].
  apply access_list_Ok in Ha as ->. cbn [unwrap_all]. awp_steps. rewrite Hb. unfold nccl_call, lib_call, answer_with. cbn [head].
  awp_steps. destruct (answer c) as [e|]; unfold get_gpu, drop_clones, on_gpu; awp_steps; cbn [fst snd];
    (split; [done|]); split_and!; try done; intros sl; cbn; rewrite drop_all_count, clone_all_count; lia.
Qed.

Lemma dispatch_outcome {S} o (s : S) g :
  Forall (holds (heap g)) (op_refs o) →
  awp (coll_dispatch answer world_size len o) (λ _ s' es, s'.1 = s ∧ outcome o g s'.2 es) (s, g).
Proof.
  intros Hh. assert (Hrun : (∀ r, o = BAllToAllv r → counts_ok world_size r = true) →
    awp (with_operands (op_refs o) (op_targets o) (op_reply o) (body answer world_size len o)) (λ _ s' es, s'.1 = s ∧ outcome o g s'.2 es) (s, g)).
  { intros Hok. destruct (target_or_read_only o) as [(t & Hhd & Hin & Ht)|[Ht [[op c] Hc]]].
    - eapply awp_mono, (writer_outcome o t); [|done..].
      intros _ s' es (Hs & Hr & Hk & Hq & Hc & ->). split; [done|].
      assert (Hrf : refusal (dev g) o =
        match access_list (dev g) (op_refs o) with Err e => Some e | Ok _ => Some (Unrecoverable t.2) end).
      { unfold refusal. rewrite Hhd. destruct o; try done. by rewrite (Hok _ eq_refl). }
      unfold outcome. rewrite Hrf. split_and!; [done..|]. by destruct (access_list _ _).
    - by eapply reader_outcome. }
  destruct o; cbn [coll_dispatch]; try (by apply Hrun).
  destruct (counts_ok world_size r) eqn:Hok; [apply Hrun; by intros ? [= <-]|].
  awp_steps. unfold outcome, refusal. rewrite Hok. by split_and!.
Qed.
End actor.

(** C38 (what a rank answers): a request, boxed or legacy, is refused with the reason
    that [refusal] gives (the counts, the first stale buffer, or that its own target is
    shared, since the message still holds it); the only ones that reach NCCL are sends
    and reductions that receive nothing here, and they are answered as soon as NCCL
    takes the call.  No task is spawned and no reference is kept or lost. *)
Theorem collective_outcome answer world_size len features get_version m o comm g :
  msg_op m = Some o → Forall (holds (heap g)) (op_refs o) →
  ∃ g' es, exec (coll_handle answer world_size len features get_version m) (Real comm, g) = ((Real comm, g'), Kernel <$> es) ∧
    outcome answer world_size o g g' es.
Proof.
  intros Hm Hh.
  assert (Hd : exec (coll_handle answer world_size len features get_version m) (Real comm, g) =
    exec (dispatch_on answer world_size len o) (Real comm, g)).
  { unfold exec, coll_handle. unfold mbind at 1, act_bind at 1, get at 1. cbn [fst].
    destruct m; cbn in Hm; try discriminate; injection Hm as <-; cbn [handle_legacy];
      by destruct (dispatch_on _ _ _ _ _) as [[[] s'] es]. }
  rewrite Hd. unfold dispatch_on, exec, lift.
  pose proof (dispatch_outcome answer world_size len o (Real comm) g Hh) as Ho. unfold awp in Ho.
  destruct (coll_dispatch _ _ _ _ _) as [[[] [s' g']] es]. cbn in Ho. destruct Ho as [-> Ho]. by exists g', es.
Qed.

Definition rank_device : DeviceState := DeviceState_new 0.
Definition rank_gpu : Gpu := set_heap {[1 := 1]} (set_refs {[1 := 1]} (Gpu_new (Some rank_device))).
Definition a_send : SendRequest := {| sd_data := GpuRef_new 1 rank_device; sd_peer := 1; sd_reply := 7 |}.
Lemma collective_outcome_witness :
  ∃ g' es, exec (coll_handle (λ _, None) 2 (λ _, 4%Z) {| nccl_fp8 := false; nccl_nvls := false |} None (Op (BSend a_send)))
      (Real 0, rank_gpu) = ((Real 0, g'), Kernel <$> es) ∧ outcome (λ _, None) 2 (BSend a_send) rank_gpu g' es.
Proof.
  apply (collective_outcome (λ _, None) 2 (λ _, 4%Z) {| nccl_fp8 := false; nccl_nvls := false |} None
    (Op (BSend a_send)) (BSend a_send) 0 rank_gpu); [done|]. repeat constructor; vm_compute; lia.
Defined.

(** An all-reduce of a tensor that nobody else holds is refused. *)
Example all_reduce_refused :
  (exec (coll_handle (λ _, None) 2 (λ _, 4%Z) {| nccl_fp8 := false; nccl_nvls := false |} None
     (AllReduceF32 (GpuRef_new 1 rank_device) Sum 7)) (Real 0, rank_gpu)).2 =
    [Kernel (Reply 7 (Err (Unrecoverable "AllReduce tensor has multiple live references")))].
Proof. run. Qed.

(** No task keeps the buffer: once the message has dropped its handle the send is in flight
    over a buffer that the program holds no more. *)
Example send_not_kept :
  let s := (exec (coll_dispatch (λ _, None) 2 (λ _, 4%Z) (BSend a_send)) (tt, rank_gpu)).1 in
  let g := drop_ref 1 s.2 in
  op_call <$> queue g = [{| cname := "ncclSend"; cargs := [ADev 1; AInt 1] |}] ∧ strong_count (heap g) 1 = 0.
Proof. split; run. Qed.

(** A mock actor drops a boxed request without an answer. *)
Example mock_drops :
  (exec (coll_handle (λ _, None) 2 (λ _, 4%Z) {| nccl_fp8 := false; nccl_nvls := false |} None (Op (BSend a_send)))
    (Mock, rank_gpu)).2 = [Kernel (DropSender 7)].
Proof. run. Qed.

(** A rank's factory makes one actor; a restart panics. *)
Lemma restart_panics comm : let '(slot, r) := spawn_rank (Some comm) in
  r = Ok (Real comm) ∧ ∃ e, (spawn_rank slot).2 = Err e.
Proof. split; [done|]. by eexists. Qed.

(** *** The slabs of an all-to-all *)

(** What a round of an accepted exchange calls. *)
Definition round_calls (send recv : slice_id) (count peer : Z) : list Call :=
  [slab_call "ncclSend" send (peer * count) ((peer + 1) * count) peer;
   slab_call "ncclRecv" recv (peer * count) ((peer + 1) * count) peer].

Lemma run_steps_app answer xs ys :
  run_steps answer (xs ++ ys) =
    let '(cs, r) := run_steps answer xs in
    match r with
    | Fine => let '(cs', r') := run_steps answer ys in (cs ++ cs', r')
    | _ => (cs, r)
    end.
Proof.
  induction xs as [|[ok e|lo hi len|err c] xs IH]; cbn.
  - by destruct (run_steps answer ys).
  - by destruct ok.
  - by destruct (cut_ok lo hi len).
  - destruct (answer c); [done|]. rewrite IH. destruct (run_steps answer xs) as [cs []]; [|done..].
    by destruct (run_steps answer ys).
Qed.

(** In buffers that hold a slab per peer, when NCCL takes every call, the slabs of the
    peers follow one another from the start of the buffers, and the group is closed. *)
Lemma a2a_tiles answer world_size send recv slen rlen count :
  (∀ c, answer c = None) → (0 ≤ count)%Z → (Z.of_nat world_size * count < 2 ^ 64)%Z → (Z.of_nat world_size < 2 ^ 31)%Z →
  (Z.of_nat world_size * count ≤ slen)%Z → (Z.of_nat world_size * count ≤ rlen)%Z →
  run_steps answer (grouped (peers world_size ≫= a2a_round send recv slen rlen count)) =
    (start_call :: (peers world_size ≫= round_calls send recv count) ++ [end_call], Fine).
Proof.
  intros Ha Hc Hw Hw31 Hs Hr. unfold grouped. cbn [run_steps]. rewrite Ha, run_steps_app.
  assert (Hrounds : run_steps answer (peers world_size ≫= a2a_round send recv slen rlen count) =
    (peers world_size ≫= round_calls send recv count, Fine)).
  { unfold peers. assert (Hall : Forall (λ i, i < world_size) (seq 0 world_size)).
    { rewrite Forall_forall. intros i Hi%elem_of_seq. lia. }
    induction Hall as [|i l Hi _ IH]; [done|]. rewrite !fmap_cons, !bind_cons, run_steps_app, IH.
    unfold a2a_round, round_calls, wmul. rewrite wadd_small by (unfold in_width; lia).
    rewrite !wrap_small by (unfold in_width; nia). cbn [run_steps]. unfold cut_ok.
    rewrite !(proj2 (Z.leb_le _ _)) by nia. cbn [andb]. rewrite !Ha. done. }
  rewrite Hrounds. cbn [run_steps]. by rewrite Ha.
Qed.

(** The group is closed exactly when nothing failed: a call that NCCL refuses, a shard past
    its buffer and a panic leave it open. *)
Definition no_group_call (x : XStep) : Prop := match x with XCall _ c => is_group c = false | _ => True end.
Lemma run_steps_no_end answer xs : Forall no_group_call xs → Forall (λ c, is_group c = false) (run_steps answer xs).1.
Proof.
  induction 1 as [|[ok e|lo hi len|err c] xs Hx _ IH]; cbn; [constructor|by destruct ok|by destruct (cut_ok _ _ _)|].
  destruct (answer c); [constructor|]. destruct (run_steps answer xs). by constructor.
Qed.

Lemma exchange_group answer xs :
  Forall no_group_call xs → answer start_call = None →
  let '(cs, r) := run_steps answer (grouped xs) in
  head cs = Some start_call ∧ (end_call ∈ cs ↔ r = Fine).
Proof.
  intros Hx Hs. unfold grouped. cbn [run_steps]. rewrite Hs, run_steps_app.
  pose proof (run_steps_no_end answer xs Hx) as Hn. destruct (run_steps answer xs) as [cs r]. cbn in Hn.
  assert (He : end_call ∉ start_call :: cs).
  { intros [?|Hin]%elem_of_cons; [done|]. rewrite Forall_forall in Hn. by specialize (Hn _ Hin). }
  destruct r; [|by split..]. cbn [run_steps]. destruct (answer end_call); (split; [done|]).
  - rewrite app_nil_r. by split.
  - split; [done|]. intros _. rewrite app_comm_cons, elem_of_app. right. by left.
Qed.

Lemma rounds_no_group world_size send recv slen rlen count :
  Forall no_group_call (peers world_size ≫= a2a_round send recv slen rlen count).
Proof. rewrite Forall_forall. intros x (p & Hx & _)%list_elem_of_bind. unfold a2a_round in Hx. set_solver. Qed.

(** The second receive is refused: the group that was started is never ended. *)
Example refused_recv_leaves_group :
  let answer c := if String.eqb (cname c) "ncclRecv" then Some "ncclSystemError" else None in
  run_steps answer (grouped (peers 2 ≫= a2a_round 1 2 8 8 4)) =
    ([start_call; slab_call "ncclSend" 1 0 4 0], Fails (nccl_error "a2a recv from 0" "ncclSystemError")).
Proof. run. Qed.

(** A count whose product with the world wraps passes the check on the lengths, and the
    first slab is cut past the end of the buffer. *)
Example wrapped_count_panics :
  (wmul 64 2 (2 ^ 63) =? 0)%Z = true ∧
  (run_steps (λ _, None) (grouped (peers 2 ≫= a2a_round 1 2 0 0 (2 ^ 63)))).2 =
    Panics "called `Option::unwrap()` on a `None` value".
Proof. split; run. Qed.

(** *** The version of the library *)

Lemma version_parsed major minor patch :
  (2 ≤ major)%Z → (0 ≤ minor < 100)%Z → (0 ≤ patch < 100)%Z →
  parse_version (major * 10000 + minor * 100 + patch) = (major, minor, patch).
Proof.
  intros Hm Hn Hp. unfold parse_version. rewrite (proj2 (Z.leb_le _ _)) by lia.
  rewrite !Z.quot_div_nonneg, !Z.rem_mod_nonneg by (try apply Z.div_pos; lia).
  assert (H1 : ((major * 10000 + minor * 100 + patch) / 10000 = major)%Z).
  { symmetry. apply Z.div_unique with (minor * 100 + patch)%Z; lia. }
  assert (H2 : ((major * 10000 + minor * 100 + patch) / 100 = major * 100 + minor)%Z).
  { symmetry. apply Z.div_unique with patch; lia. }
  assert (H3 : ((major * 10000 + minor * 100 + patch) mod 100 = patch)%Z).
  { symmetry. apply Z.mod_unique with (major * 100 + minor)%Z; lia. }
  assert (H4 : ((major * 100 + minor) mod 100 = minor)%Z) by (symmetry; apply Z.mod_unique with major; lia).
  by rewrite H1, H2, H3, H4.
Qed.

(** The older packing, for versions before 2.9. *)
Example old_version : parse_version 2804 = (2, 8, 4)%Z ∧ supports_fp8 (2, 8, 4)%Z = false ∧ supports_fp8 (2, 20, 5)%Z = true.
Proof. split_and!; reflexivity. Qed.

(** ** The scope guard of a group *)

Module Group.

(** The counters of a [GroupTracker], and the calls that NCCL saw. *)
Record Counts := { begins : nat; ends : nat; starts : nat; stops : nat }.
Record GroupGuard := { tracked : bool; committed : bool; inert : bool }.

Abbreviation gact := (act Counts Empty_set).

Definition count_begin (t : bool) : gact unit :=
  if t then modify (λ c, {| begins := S (begins c); ends := ends c; starts := starts c; stops := stops c |}) else skip.
Definition count_end (t : bool) : gact unit :=
  if t then modify (λ c, {| begins := begins c; ends := S (ends c); starts := starts c; stops := stops c |}) else skip.

(** [group_start] and [group_end], by what NCCL answers. *)
Definition group_start (answer : option string) : gact (result unit GpuError) :=
  match answer with
  | Some e => mret (Err (nccl_error "group_start" e))
  | None =>
    modify (λ c, {| begins := begins c; ends := ends c; starts := S (starts c); stops := stops c |});; mret (Ok tt)
  end.
Definition group_end (answer : option string) : gact (result unit GpuError) :=
  modify (λ c, {| begins := begins c; ends := ends c; starts := starts c; stops := S (stops c) |});;
  mret (match answer with Some e => Err (nccl_error "group_end" e) | None => Ok tt end).

(** [GroupGuard::begin] *)
Definition begin_ (answer : option string) (tracker : bool) : gact (result GroupGuard GpuError) :=
  r ← group_start answer;
  match r with
  | Err e => mret (Err e)
  | Ok _ => count_begin tracker;; mret (Ok {| tracked := tracker; committed := false; inert := false |})
  end.
Definition begin_inert (tracker : bool) : gact GroupGuard :=
  count_begin tracker;; mret {| tracked := tracker; committed := false; inert := true |}.

(** [Drop]: the answer of NCCL is only logged. *)
Definition drop (answer : option string) (g : GroupGuard) : gact unit :=
  if committed g then skip
  else
    count_end (tracked g);;
    if inert g then skip else (group_end answer;; skip).
(** [commit] consumes the guard, which is then dropped. *)
Definition commit (answer : option string) (g : GroupGuard) : gact (result unit GpuError) :=
  let g := {| tracked := tracked g; committed := true; inert := inert g |} in
  count_end (tracked g);;
  r ← (if inert g then mret (Ok tt) else group_end answer);
  drop answer g;;
  mret r.

(** The life of a guard: it is begun, and then committed or dropped. *)
Definition life (start stop : option string) (tracker committed : bool) : gact unit :=
  r ← begin_ start tracker;
  match r with
  | Err _ => skip
  | Ok g => if committed then (commit stop g;; skip) else drop stop g
  end.
Definition inert_life (tracker committed : bool) : gact unit :=
  g ← begin_inert tracker;
  if committed then (commit None g;; skip) else drop None g.

(** Whatever NCCL answers, a group that was started is ended once, and a tracker counts as
    many ends as begins; an inert guard calls nothing. *)
Lemma guard_balanced start stop tracker committed c :
  let '(c', _) := exec (life start stop tracker committed) c in
  starts c' - starts c = stops c' - stops c ∧ begins c' - begins c = ends c' - ends c ∧
  (starts c' = if start then starts c else S (starts c)).
Proof.
  destruct start, stop, tracker, committed; act_unfold; unfold life, begin_, group_start, count_begin, commit, drop, count_end, group_end;
    act_unfold; lia.
Qed.

Lemma inert_calls_nothing tracker committed c :
  let '(c', _) := exec (inert_life tracker committed) c in
  starts c' = starts c ∧ stops c' = stops c ∧ begins c' - begins c = ends c' - ends c.
Proof. destruct tracker, committed; unfold inert_life, begin_inert, count_begin, commit, drop, count_end; act_unfold; lia. Qed.
End Group.

(** ** The custom reduction *)

Module PreMulSum.

Record PreMulSumOp := { handle : Obj; scalar : GpuRef }.

Section ops.
Context {E : Type} (lib_answer : nat → ObjCall → result Z string).
Abbreviation lact := (act Lib E).

Definition create_call (sl : slice_id) : ObjCall :=
  {| oname := "ncclRedOpCreatePreMulSum"; ouses := []; oargs := [ADev sl; ATag "ncclScalarDevice"] |}.

(** [PreMulSumOp::new]: the scalar's buffer must be usable and not empty. *)
Definition new (dev : option DeviceState) (scalar : GpuRef) (len : Z) : lact (result PreMulSumOp GpuError) :=
  match access scalar dev with
  | Err e => mret (Err e)
  | Ok sl =>
    if (len =? 0)%Z then mret (Err (Unrecoverable "PreMulSumOp scalar buffer is empty"))
    else
      r ← create lib_answer (create_call sl);
      or_cleanup r (nccl_error "ncclRedOpCreatePreMulSum") [] (λ h, mret (Ok {| handle := h; scalar := scalar |}))
  end.
(** [destroy] consumes the op; [refused] is what NCCL answers. *)
Definition destroy (refused : option string) (o : PreMulSumOp) : lact (result unit GpuError) :=
  destroys [handle o];;
  mret (match refused with Some e => Err (nccl_error "ncclRedOpDestroy" e) | None => Ok tt end).

(** An op is one live object of NCCL until it is destroyed, and a refused one leaves nothing. *)
Lemma new_owns dev scalar len :
  builds (E := E) [] (new dev scalar len) (λ o, [handle o]).
Proof.
  assert (Herr : ∀ e, builds (E := E) (A := PreMulSumOp) (F := GpuError) [] (mret (Err e)) (λ o, [handle o])).
  { intros e l L Hl _ _. awp_steps. split_and!; [done|lia|]. exists L. split; [done|]. unfold objs. set_solver. }
  unfold new. destruct (access scalar dev) as [sl|e]; [|apply Herr]. destruct (len =? 0)%Z; [apply Herr|].
  apply builds_create; [done|done|]. intros o _. by apply builds_ret.
Qed.

(** Destroying it leaves none; there is no [Drop], so one that is dropped instead stays. *)
Lemma destroy_frees refused o l L :
  lib_ok l L → handle o ∈ L →
  awp (E := E) (destroy refused o) (λ _ l' es, es = [] ∧ lib_ok l' (L ∖ {[handle o]})) l.
Proof.
  intros Hl Ho. unfold destroy. apply awp_bind. eapply awp_mono, (destroys_spec [handle o] l L Hl).
  - intros _ l' es (-> & _ & Hl'). awp_steps. split; [done|]. unfold objs in Hl'. cbn in Hl'. by rewrite union_empty_r_L in Hl'.
  - repeat constructor. set_solver.
  - unfold objs. set_solver.
Qed.
End ops.
End PreMulSum.
