(* ===== verification/Realtime.v ===== *)
(** * Real-time data structures

    Models the host actors of [crates/atomr-accel-cuda-realtime/src] that keep or
    reduce data: the hash map ([hashmap.rs]), the uniform grid ([spatial_index.rs]),
    the sparse matrix ([sparse.rs]) and the reductions ([reduction.rs]).  A handler
    returns [None] where the code panics.  Lengths are [nat]; the products of a
    release build wrap at 64 bits.  The value a floating sum starts from is a
    parameter, as it depends on the version of the standard library; allocations
    do not fail. *)

From Stdlib Require Import Floats.SpecFloat.
From stdpp Require Import pretty.
From S2P Require Import Prelude Errors Float64.

(** [v\[lo..hi\]]; [None] when it panics. *)
Definition slice_range {A} (lo hi : Z) (v : list A) : option (list A) :=
  if (lo <=? hi)%Z && (hi <=? Z.of_nat (length v))%Z
  then Some (take (Z.to_nat (hi - lo)) (drop (Z.to_nat lo) v)) else None.

(** ** The hash map *)

Module GpuHashMap.

Record GpuHashMapConfig := { capacity : nat; key_size_bytes : nat; value_size_bytes : nat }.
Abbreviation bytes := (list Z).
Abbreviation table := (gmap bytes bytes).

Record GpuHashMapStats := { occupancy : nat; stats_capacity : nat }.
Inductive GpuHashMapMsg : Type :=
  | Insert (keys values : bytes)
  | Lookup (keys : bytes)
  | Clear
  | Stats.
Inductive Reply : Type :=
  | Inserted (r : result Z GpuError)
  | Found (r : result bytes GpuError)
  | Cleared (r : result unit GpuError)
  | StatsAre (s : GpuHashMapStats).

Section ops.
Context (config : GpuHashMapConfig).

(** [keys.chunks(n)] of a list whose length [n] divides. *)
Definition chunks (n : nat) (keys : bytes) : list bytes := reshape (replicate (length keys / n) n) keys.

Definition split_keys (keys : bytes) : result (list bytes) GpuError :=
  let n := key_size_bytes config in
  if n =? 0 then Err (Unrecoverable "GpuHashMap: key_size_bytes == 0")
  else if negb (length keys mod n =? 0) then
    Err (Unrecoverable ("GpuHashMap: keys len " +:+ pretty (length keys) +:+
      " not multiple of key_size " +:+ pretty n))
  else Ok (chunks n keys).

Lemma size_insert_le (k v : bytes) (t : table) : size (<[k := v]> t) ≤ S (size t).
Proof. rewrite map_size_insert. destruct (t !! k); cbn; lia. Qed.

(** The loop of [Insert] from the [i]-th key on. *)
Fixpoint insert_from (values : bytes) (i : nat) (ks : list bytes) (inserted : Z) (t : table) : option (table * Z) :=
  match ks with
  | [] => Some (t, inserted)
  | k :: ks =>
    if (capacity config <=? size t) && bool_decide (t !! k = None) then Some (t, inserted)
    else
      let lo := (Z.of_nat i *₆₄ Z.of_nat (value_size_bytes config)) in
      let hi := (lo +₆₄ Z.of_nat (value_size_bytes config)) in
      match slice_range lo hi values with
      | None => None
      | Some v => insert_from values (S i) ks (inserted +₃₂ 1) (<[k := v]> t)
      end
  end.

Definition values_len_error (n : nat) (values : bytes) : GpuError :=
  Unrecoverable ("GpuHashMap::Insert: values len " +:+ pretty (length values) +:+ " != " +:+ pretty n +:+
    " × value_size " +:+ pretty (value_size_bytes config)).

Definition value_of (t : table) (k : bytes) : bytes :=
  match t !! k with Some v => v | None => replicate (value_size_bytes config) 0%Z end.

Definition handle_msg (m : GpuHashMapMsg) (t : table) : option (table * Reply) :=
  match m with
  | Insert keys values =>
    match split_keys keys with
    | Err e => Some (t, Inserted (Err e))
    | Ok ks =>
      let n := length ks in
      if negb (Z.of_nat (length values) =? Z.of_nat n *₆₄ Z.of_nat (value_size_bytes config))%Z
      then Some (t, Inserted (Err (values_len_error n values)))
      else
        '(t', inserted) ← insert_from values 0 ks 0 t;
        Some (t', Inserted (Ok inserted))
    end
  | Lookup keys =>
    match split_keys keys with
    | Err e => Some (t, Found (Err e))
    | Ok ks => Some (t, Found (Ok (ks ≫= value_of t)))
    end
  | Clear => Some (∅, Cleared (Ok ()))
  | Stats => Some (t, StatsAre {| occupancy := size t; stats_capacity := capacity config |})
  end.

(** *** What it keeps *)

Definition table_wf (t : table) : Prop :=
  size t ≤ capacity config ∧
  map_Forall (λ k v, length k = key_size_bytes config ∧ length v = value_size_bytes config) t.

(** The pairs of an [Insert]: the keys with their slices of the values. *)
Definition pairs (keys values : bytes) : list (bytes * bytes) :=
  zip (chunks (key_size_bytes config) keys) (reshape (replicate (length keys / key_size_bytes config) (value_size_bytes config)) values).

(** As many pairs as fit. *)
Definition put_all (ps : list (bytes * bytes)) (t : table) : table := foldl (λ t p, <[p.1 := p.2]> t) t ps.

Lemma chunks_length n keys : length (chunks n keys) = length keys / n.
Proof. unfold chunks. by rewrite length_reshape, length_replicate. Qed.

Lemma reshape_Forall_length {A} (n m : nat) (l : list A) :
  length l = m * n → Forall (λ c, length c = n) (reshape (replicate m n) l).
Proof.
  revert l. induction m as [|m IH]; intros l Hl; [constructor|]. cbn. constructor.
  - rewrite length_take. lia.
  - apply IH. rewrite length_drop. lia.
Qed.

Lemma div_exact_nat (a n : nat) : n ≠ 0 → a mod n = 0 → a = a / n * n.
Proof. intros Hn Hm. pose proof (Nat.div_mod a n Hn). lia. Qed.

(** The pairs the loop puts: the longest prefix the capacity lets in. *)
Fixpoint fitting (ps : list (bytes * bytes)) (t : table) : nat :=
  match ps with
  | [] => 0
  | p :: ps =>
    if (capacity config <=? size t) && bool_decide (t !! p.1 = None) then 0
    else S (fitting ps (<[p.1 := p.2]> t))
  end.

Lemma fitting_le ps t : fitting ps t ≤ length ps.
Proof. revert t. induction ps as [|p ps IH]; intros t; cbn; [lia|]. case_match; [lia|]. specialize (IH (<[p.1:=p.2]> t)). lia. Qed.

Lemma insert_from_spec values i ks inserted t :
  (Z.of_nat (length values) < 2 ^ 64)%Z → length values = (i + length ks) * value_size_bytes config →
  let ps := zip ks (reshape (replicate (length ks) (value_size_bytes config)) (drop (i * value_size_bytes config) values)) in
  insert_from values i ks inserted t =
    Some (put_all (take (fitting ps t) ps) t, Nat.iter (fitting ps t) (λ x, x +₃₂ 1) inserted).
Proof.
  intros Hw. revert i inserted t. induction ks as [|k ks IH]; intros i ins t Hl; [done|].
  cbn [insert_from length replicate reshape zip zip_with fitting fst]. cbn [length] in Hl.
  set (vs := value_size_bytes config) in *.
  destruct (_ && _); [done|].
  assert (Hlo : (Z.of_nat i *₆₄ Z.of_nat vs = Z.of_nat (i * vs))%Z).
  { unfold wmul. rewrite wrap_small; [lia|]. unfold in_width. nia. }
  assert (Hhi : (Z.of_nat (i * vs) +₆₄ Z.of_nat vs = Z.of_nat (i * vs + vs))%Z).
  { rewrite wadd_small; [lia|]. unfold in_width. nia. }
  rewrite Hlo, Hhi. unfold slice_range. rewrite (proj2 (Z.leb_le _ _)), (proj2 (Z.leb_le _ _)) by nia. cbn [andb].
  replace (Z.to_nat (Z.of_nat (i * vs + vs) - Z.of_nat (i * vs))) with vs by lia. rewrite Nat2Z.id.
  rewrite IH by (unfold vs in *; lia). rewrite skipn_skipn. cbn [take put_all foldl fst snd].
  replace (S i * vs) with (vs + i * vs) by lia. rewrite !Nat.iter_succ_r. done.
Qed.

Lemma iter_count n : Nat.iter n (λ x, x +₃₂ 1) 0%Z = wrap 32 (Z.of_nat n).
Proof.
  induction n as [|n IH]; [done|]. rewrite Nat.iter_succ, IH. unfold wadd, wrap.
  rewrite Zplus_mod_idemp_l. f_equal. lia.
Qed.

Lemma pairs_fst keys values : (pairs keys values).*1 = chunks (key_size_bytes config) keys.
Proof. unfold pairs. apply fst_zip. rewrite chunks_length, length_reshape, length_replicate. done. Qed.
Lemma pairs_snd keys values :
  (pairs keys values).*2 = reshape (replicate (length keys / key_size_bytes config) (value_size_bytes config)) values.
Proof. unfold pairs. apply snd_zip. rewrite chunks_length, length_reshape, length_replicate. done. Qed.

(** [Insert] puts the longest prefix of its pairs that the capacity lets in, and
    answers how many they are. *)
Lemma hashmap_insert_spec keys values t :
  let n := length keys / key_size_bytes config in let ps := pairs keys values in
  key_size_bytes config ≠ 0 → length keys mod key_size_bytes config = 0 →
  length values = n * value_size_bytes config → (Z.of_nat (length values) < 2 ^ 64)%Z →
  handle_msg (Insert keys values) t =
    Some (put_all (take (fitting ps t) ps) t, Inserted (Ok (wrap 32 (Z.of_nat (fitting ps t))))).
Proof.
  intros n ps Hk Hm Hl Hw. cbn [handle_msg]. unfold split_keys.
  rewrite (proj2 (Nat.eqb_neq _ _) Hk), (proj2 (Nat.eqb_eq _ _) Hm). cbn [negb].
  rewrite chunks_length. change (length keys / key_size_bytes config) with n.
  unfold wmul. rewrite (wrap_small 64) by (unfold in_width; nia).
  rewrite (proj2 (Z.eqb_eq _ _)) by lia. cbn [negb].
  rewrite (insert_from_spec values 0) by (rewrite ?chunks_length; done || lia).
  rewrite chunks_length, drop_0. cbn. by rewrite iter_count.
Qed.

Lemma put_all_other ps t k : k ∉ ps.*1 → put_all ps t !! k = t !! k.
Proof.
  revert t. induction ps as [|p ps IH]; intros t Hk; [done|]. apply not_elem_of_cons in Hk as [Hp Hk]. cbn.
  unfold put_all in IH. rewrite IH by done. by rewrite lookup_insert_ne.
Qed.

(** Distinct keys: what was put is what is found. *)
Lemma put_all_found ps t : NoDup ps.*1 → ps.*1 ≫= value_of (put_all ps t) = mjoin ps.*2.
Proof.
  revert t. induction ps as [|[k v] ps IH]; intros t Hd; [done|]. cbn in Hd. apply NoDup_cons in Hd as [Hk Hd].
  cbn [fmap list_fmap fst snd]. rewrite bind_cons. cbn [put_all foldl mjoin list_join fst snd].
  pose proof (put_all_other ps (<[k := v]> t) k Hk) as Ho. unfold put_all in Ho.
  unfold value_of at 1. rewrite Ho, lookup_insert_eq. f_equal. apply IH. done.
Qed.

Lemma fitting_room ps t : size t + length ps ≤ capacity config → fitting ps t = length ps.
Proof.
  revert t. induction ps as [|[k v] ps IH]; intros t Hr; [done|]. cbn in *.
  rewrite (proj2 (Nat.leb_gt _ _)) by lia. cbn. f_equal. apply IH. pose proof (size_insert_le k v t). lia.
Qed.

(** *** The capacity and the widths *)

Lemma insert_from_wf values i ks inserted t t' n :
  (Z.of_nat (value_size_bytes config) < 2 ^ 64)%Z → Forall (λ k, length k = key_size_bytes config) ks →
  table_wf t → insert_from values i ks inserted t = Some (t', n) → table_wf t'.
Proof.
  intros Hv. revert i inserted t. induction ks as [|k ks IH]; intros i ins t Hks Hwf He; cbn in He; [by simplify_eq|].
  apply Forall_cons in Hks as [Hk Hks]. destruct (_ && _) eqn:Hfull; [by simplify_eq|].
  unfold slice_range in He. destruct (_ && _) eqn:Hr in He; [|done].
  apply andb_true_iff in Hr as [H1%Z.leb_le H2%Z.leb_le].
  eapply IH; [done| |exact He]. destruct Hwf as [Hsz Hall]. split.
  - apply andb_false_iff in Hfull as [Hf%Nat.leb_gt|Hf%bool_decide_eq_false].
    + etrans; [apply size_insert_le|]. lia.
    + rewrite map_size_insert_Some; [done|]. destruct (t !! k) eqn:E; [by eexists|done].
  - apply map_Forall_insert_2; [|done]. split; [done|].
    set (lo := wmul 64 _ _) in *. set (vs := Z.of_nat _) in *.
    assert (Hlo : in_width 64 lo) by (apply wrap_in_width; lia).
    assert (Hhi : wadd 64 lo vs = (lo + vs)%Z).
    { unfold wadd, wrap in *. unfold in_width in Hlo.
      destruct (Z.lt_ge_cases (lo + vs) (2 ^ 64)) as [|Hge]; [apply Z.mod_small; lia|].
      exfalso. revert H1. replace ((lo + vs) mod 2 ^ 64)%Z with (lo + vs - 2 ^ 64)%Z; [lia|].
      apply Zmod_unique with 1%Z; lia. }
    rewrite Hhi in *. rewrite length_take, length_drop. unfold in_width in Hlo. lia.
Qed.

Lemma table_step t m t' r :
  (Z.of_nat (value_size_bytes config) < 2 ^ 64)%Z →
  table_wf t → handle_msg m t = Some (t', r) → table_wf t'.
Proof.
  intros Hv Hwf. destruct m as [keys values|keys| |]; cbn [handle_msg].
  - unfold split_keys. destruct (key_size_bytes config =? 0) eqn:Hk; [by intros [= <- _]|].
    destruct (negb (length keys mod _ =? 0)) eqn:Hm; [by intros [= <- _]|].
    case_match; [by intros [= <- _]|]. destruct (insert_from _ _ _ _ _) as [[t1 n]|] eqn:He; [|done].
    intros [= -> _]. eapply insert_from_wf; [done| |done|exact He].
    apply Nat.eqb_neq in Hk. apply negb_false_iff, Nat.eqb_eq in Hm.
    apply reshape_Forall_length. by apply div_exact_nat.
  - destruct (split_keys keys); by intros [= <- _].
  - intros [= <- _]. split; [rewrite map_size_empty; lia|apply map_Forall_empty].
  - by intros [= <- _].
Qed.

Lemma lookup_len t keys ks :
  table_wf t → split_keys keys = Ok ks → length (ks ≫= value_of t) = length ks * value_size_bytes config.
Proof.
  intros [_ Hall] _. induction ks as [|k ks IH]; [done|]. rewrite bind_cons, length_app, IH. cbn.
  f_equal. unfold value_of. destruct (t !! k) as [v|] eqn:E; [apply (Hall k v E)|apply length_replicate].
Qed.
End ops.

(** C34 (a round trip): within the capacity and the widths of the configuration,
    inserting distinct keys answers their number, looking the same keys up then gives
    back the values, and the occupancy never passes the capacity. *)
Theorem hashmap_roundtrip config t keys values :
  let n := length keys / key_size_bytes config in
  key_size_bytes config ≠ 0 → length keys mod key_size_bytes config = 0 →
  length values = n * value_size_bytes config →
  (Z.of_nat (length values) < 2 ^ 64)%Z → (Z.of_nat (value_size_bytes config) < 2 ^ 64)%Z → (Z.of_nat n < 2 ^ 32)%Z →
  NoDup (chunks (key_size_bytes config) keys) → table_wf config t → size t + n ≤ capacity config →
  ∃ t', handle_msg config (Insert keys values) t = Some (t', Inserted (Ok (Z.of_nat n))) ∧
    handle_msg config (Lookup keys) t' = Some (t', Found (Ok values)) ∧ table_wf config t' ∧
    ∀ k, k ∉ chunks (key_size_bytes config) keys → value_of config t' k = value_of config t k.
Proof.
  intros n Hk Hm Hl Hw Hv Hn Hd Hwf Hroom.
  pose proof (hashmap_insert_spec config keys values t Hk Hm Hl Hw) as Hi.
  assert (Hps : length (pairs config keys values) = n).
  { unfold pairs. rewrite length_zip_with, chunks_length, length_reshape, length_replicate. unfold n. lia. }
  rewrite fitting_room, Hps in Hi by lia. rewrite take_ge in Hi by lia.
  rewrite wrap_small in Hi by (unfold in_width; lia).
  eexists. split; [exact Hi|]. split_and!.
  - cbn [handle_msg]. unfold split_keys.
    rewrite (proj2 (Nat.eqb_neq _ _) Hk), (proj2 (Nat.eqb_eq _ _) Hm). cbn [negb].
    rewrite <-(pairs_fst config keys values), put_all_found by (by rewrite pairs_fst).
    rewrite pairs_snd, join_reshape; [done|]. rewrite sum_list_replicate. done.
  - by eapply table_step.
  - intros k Hni. unfold value_of. by rewrite put_all_other by (by rewrite pairs_fst).
Qed.

Definition demo_config : GpuHashMapConfig := {| capacity := 2; key_size_bytes := 2; value_size_bytes := 1 |}.
Lemma hashmap_roundtrip_witness : ∃ t',
  handle_msg demo_config (Insert [1; 0; 2; 0]%Z [42; 99]%Z) ∅ = Some (t', Inserted (Ok 2%Z)) ∧
  handle_msg demo_config (Lookup [1; 0; 2; 0]%Z) t' = Some (t', Found (Ok [42; 99]%Z)).
Proof.
  destruct (hashmap_roundtrip demo_config ∅ [1; 0; 2; 0]%Z [42; 99]%Z) as (t' & H1 & H2 & _);
    [done|done|done|done|done|done| | |vm_compute; lia|by exists t'].
  - vm_compute. repeat constructor; set_solver.
  - split; [vm_compute; lia|apply map_Forall_empty].
Defined.

(** A key that is new when the table is full ends the insertion; the rest is dropped. *)
Example full_table : ∃ t,
  handle_msg demo_config (Insert [1; 0; 2; 0; 3; 0; 1; 0]%Z [42; 99; 7; 8]%Z) ∅ = Some (t, Inserted (Ok 2%Z)) ∧
  handle_msg demo_config (Lookup [1; 0; 3; 0]%Z) t = Some (t, Found (Ok [42; 0]%Z)).
Proof. eexists. split; vm_compute; reflexivity. Qed.

(** A product of the lengths past 64 bits wraps: two keys whose values are [2^63] bytes
    each are accepted with no values, and the slice of the first panics. *)
Lemma values_wrap c : capacity c ≠ 0 → key_size_bytes c = 1 → Z.of_nat (value_size_bytes c) = (2 ^ 63)%Z →
  handle_msg c (Insert [1; 2]%Z []) ∅ = None.
Proof.
  intros Hc Hk Hv.
  assert (Hs : split_keys c [1; 2]%Z = Ok [[1]; [2]]%Z) by (unfold split_keys; by rewrite Hk).
  assert (Hp : (Z.of_nat 0 =? Z.of_nat 2 *₆₄ 2 ^ 63)%Z = true) by reflexivity.
  assert (Hn : slice_range (Z.of_nat 0 *₆₄ 2 ^ 63) ((Z.of_nat 0 *₆₄ 2 ^ 63) +₆₄ 2 ^ 63) (@nil Z) = None) by reflexivity.
  cbn [handle_msg]. rewrite Hs. cbn [length]. rewrite Hv, Hp. cbn [negb insert_from].
  by rewrite map_size_empty, (proj2 (Nat.leb_gt _ _)), Hv, Hn by lia.
Qed.
End GpuHashMap.

(** ** The uniform grid *)

Module SpatialIndex.

Record CellKey := { cx : Z; cy : Z; cz : Z }.

#[global] Instance CellKey_eq_dec : EqDecision CellKey.
Proof. solve_decision. Defined.
#[global] Instance CellKey_countable : Countable CellKey.
Proof.
  refine (inj_countable' (λ k, (cx k, cy k, cz k)) (λ '(x, y, z), {| cx := x; cy := y; cz := z |}) _).
  by intros [].
Defined.

Record Point3 := { id : Z; px : f32; py : f32; pz : f32 }.
Record SpatialIndexActor := { cell_size : f32; cells : gmap CellKey (list Z); total : nat }.

Inductive SpatialMsg : Type :=
  | Rebuild (points : list Point3)
  | QueryNeighbors (x y z : f32)
  | Stats.
Record SpatialStats := { total_points : nat; occupied_cells : nat }.
Inductive Reply : Type :=
  | Rebuilt (r : result nat GpuError)
  | Neighbors (ids : list Z)
  | StatsAre (s : SpatialStats).

Definition props (size : f32) : SpatialIndexActor := {| cell_size := size; cells := ∅; total := 0 |}.

Definition I32_MIN : Z := (- 2 ^ 31)%Z.
Definition I32_MAX : Z := (2 ^ 31 - 1)%Z.
(** [i32] addition of a release build. *)
Definition i32_add (x y : Z) : Z := (wrap 32 (x + y + 2 ^ 31) - 2 ^ 31)%Z.

Definition cell_for (size x y z : f32) : CellKey :=
  let cs := f32_max size (f32_ratio 1 1000000) in
  let coordinate v := f32_floor_as I32_MIN I32_MAX (f32_div v cs) in
  {| cx := coordinate x; cy := coordinate y; cz := coordinate z |}.

(** One round of the loop of [Rebuild]. *)
Definition add_point (s : SpatialIndexActor) (p : Point3) : SpatialIndexActor :=
  let key := cell_for (cell_size s) (px p) (py p) (pz p) in
  {| cell_size := cell_size s;
     cells := <[key := default [] (cells s !! key) ++ [id p]]> (cells s);
     total := S (total s) |}.

(** The cells around a cell, in the order of the loops. *)
Definition offsets : list (Z * Z * Z) := dz ← [-1; 0; 1]%Z; dy ← [-1; 0; 1]%Z; dx ← [-1; 0; 1]%Z; [(dx, dy, dz)].
Definition shift_cell (c : CellKey) (d : Z * Z * Z) : CellKey :=
  let '(dx, dy, dz) := d in {| cx := i32_add (cx c) dx; cy := i32_add (cy c) dy; cz := i32_add (cz c) dz |}.
Definition neighborhood (c : CellKey) : list CellKey := shift_cell c <$> offsets.

Definition handle (m : SpatialMsg) (s : SpatialIndexActor) : SpatialIndexActor * Reply :=
  match m with
  | Rebuild points =>
    let s := foldl add_point {| cell_size := cell_size s; cells := ∅; total := 0 |} points in
    (s, Rebuilt (Ok (total s)))
  | QueryNeighbors x y z =>
    let center := cell_for (cell_size s) x y z in
    (s, Neighbors (neighborhood center ≫= λ k, default [] (cells s !! k)))
  | Stats => (s, StatsAre {| total_points := total s; occupied_cells := size (cells s) |})
  end.

(** *** The grid after a rebuild *)

Definition cell_of (size : f32) (p : Point3) : CellKey := cell_for size (px p) (py p) (pz p).

(** Every cell lists the points in it, in order. *)
Definition indexes (s : SpatialIndexActor) (points : list Point3) : Prop :=
  total s = length points ∧
  ∀ k, default [] (cells s !! k) = id <$> filter (λ p, cell_of (cell_size s) p = k) points.

Lemma indexes_add s points p : indexes s points → indexes (add_point s p) (points ++ [p]).
Proof.
  intros [Ht Hc]. split; [cbn; rewrite length_app; cbn; lia|]. intros k. cbn [add_point cells cell_size].
  rewrite filter_app, fmap_app, <-(Hc k). change (cell_for _ _ _ _) with (cell_of (cell_size s) p).
  destruct (decide (cell_of (cell_size s) p = k)) as [<-|Hne].
  - by rewrite lookup_insert_eq, (filter_cons_True (λ q, _ q = _)).
  - by rewrite lookup_insert_ne, (filter_cons_False (λ q, _ q = _)), app_nil_r.
Qed.

Lemma indexes_fold s points more : indexes s points → indexes (foldl add_point s more) (points ++ more).
Proof.
  revert s points. induction more as [|p more IH]; intros s points Hi; [by rewrite app_nil_r|].
  cbn. rewrite cons_middle, app_assoc. by apply IH, indexes_add.
Qed.

Lemma add_points_size s points : cell_size (foldl add_point s points) = cell_size s.
Proof. revert s. induction points as [|p points IH]; intros s; [done|]. cbn. by rewrite IH. Qed.

Lemma rebuilt_indexes s points : indexes (handle (Rebuild points) s).1 points.
Proof. apply (indexes_fold _ []). split; [done|]. intros k. cbn. by rewrite lookup_empty. Qed.

(** *** The neighbourhood *)

Lemma i32_add_inj x d d' : (-1 ≤ d ≤ 1)%Z → (-1 ≤ d' ≤ 1)%Z → i32_add x d = i32_add x d' → d = d'.
Proof. unfold i32_add, wrap. intros Hd Hd' He. 
  assert (Hm : ((x + d + 2 ^ 31) mod 2 ^ 32 = (x + d' + 2 ^ 31) mod 2 ^ 32)%Z) by lia.
  pose proof (Z.div_mod (x + d + 2 ^ 31) (2 ^ 32)). pose proof (Z.div_mod (x + d' + 2 ^ 31) (2 ^ 32)). lia.
Qed.

Lemma offsets_small d : d ∈ offsets → (-1 ≤ d.1.1 ≤ 1 ∧ -1 ≤ d.1.2 ≤ 1 ∧ -1 ≤ d.2 ≤ 1)%Z.
Proof.
  intros Hd. assert (Ha : Forall (λ d : Z * Z * Z, (-1 ≤ d.1.1 ≤ 1 ∧ -1 ≤ d.1.2 ≤ 1 ∧ -1 ≤ d.2 ≤ 1)%Z) offsets).
  { repeat constructor; done. }
  rewrite Forall_forall in Ha. by apply Ha.
Qed.

Lemma NoDup_neighborhood c : NoDup (neighborhood c).
Proof.
  apply NoDup_fmap_2_strong.
  - intros [[x y] z] [[x' y'] z'] (? & ? & ?)%offsets_small (? & ? & ?)%offsets_small He. cbn in *.
    injection He as Hx Hy Hz. apply i32_add_inj in Hx, Hy, Hz; try done. by subst.
  - apply (bool_decide_unpack (NoDup offsets)). by vm_compute.
Qed.

(** Collecting the members of distinct classes is filtering by the classes. *)
Lemma bind_filter_perm {A K} `{EqDecision K} (f : A → K) (ks : list K) (l : list A) :
  NoDup ks → (ks ≫= λ k, filter (λ x, f x = k) l) ≡ₚ filter (λ x, f x ∈ ks) l.
Proof.
  induction ks as [|k ks IH]; intros Hd.
  - induction l as [|x l IHl]; [done|]. rewrite filter_cons_False; [done|by intros ?%elem_of_nil].
  - apply NoDup_cons in Hd as [Hk Hd]. rewrite bind_cons, IH by done. clear IH.
    induction l as [|x l IHl]; [done|].
    destruct (decide (f x = k)) as [He|He], (decide (f x ∈ ks)) as [Hin|Hin].
    + by subst.
    + rewrite filter_cons_True, (filter_cons_False (λ x, f x ∈ ks)), filter_cons_True by (done || set_solver).
      cbn. by rewrite IHl.
    + rewrite filter_cons_False, (filter_cons_True (λ x, f x ∈ ks)), filter_cons_True by (done || set_solver).
      rewrite <-Permutation_middle. by rewrite IHl.
    + rewrite filter_cons_False, (filter_cons_False (λ x, f x ∈ ks)), filter_cons_False by (done || set_solver). done.
Qed.


Definition at_ (i : Z) (x : f32) : Point3 := {| id := i; px := x; py := f32_zero; pz := f32_zero |}.
(** The cell of a coordinate too large for an [i32] is the last one, and the one after it
    wraps to the first: a query there lists a point at the other end of the axis. *)
Example far_ends_meet :
  let s := (handle (Rebuild [at_ 1 (f32_of_Z (-3000000000)); at_ 2 f32_zero]) (props (f32_of_Z 1))).1 in
  (handle (QueryNeighbors (f32_of_Z 3000000000) f32_zero f32_zero) s).2 = Neighbors [1%Z].
Proof. run. Qed.

(** The query of the unit test. *)
Example unit_test :
  let s := (handle (Rebuild [at_ 1 (f32_ratio 1 2); at_ 2 (f32_ratio 12 10); at_ 3 (f32_of_Z 5)]) (props (f32_of_Z 1))).1 in
  (handle (QueryNeighbors (f32_ratio 1 2) f32_zero f32_zero) s).2 = Neighbors [1; 2]%Z.
Proof. run. Qed.
End SpatialIndex.

(** ** The sparse matrix *)

Module Coo.

Record CooEntry := { row : Z; col : Z; value : f32 }.
Record SparseConfig := { rows : nat; cols : nat }.
Record SparseStats := { stats_rows : nat; stats_cols : nat; nnz : nat }.

Section actor.
(** The kernel handle of the NVRTC actor; its answer to the compile request of a step,
    or [None] past thirty seconds. *)
Context {KernelHandle : Type} (cfg : SparseConfig).

Record GpuSparseStructureActor := {
  entries : list CooEntry;
  spmv_kernel : option KernelHandle;
  nvrtc : bool;   (* an NVRTC actor is configured *)
}.
Definition props : GpuSparseStructureActor := {| entries := []; spmv_kernel := None; nvrtc := false |}.
Definition with_nvrtc : GpuSparseStructureActor := {| entries := []; spmv_kernel := None; nvrtc := true |}.

Inductive SparseMsg : Type :=
  | SetEntries (l : list CooEntry)
  | SpMv (x : list f32)
  | Stats.
Inductive Eff : Type :=
  | AskCompile (kernel_name : string)
  | ReplySet (n : nat)
  | ReplySpMv (r : result (list f32) GpuError)
  | ReplyStats (s : SparseStats).

Definition set_kernel (k : KernelHandle) (s : GpuSparseStructureActor) : GpuSparseStructureActor :=
  {| entries := entries s; spmv_kernel := Some k; nvrtc := nvrtc s |}.

Definition ensure_kernel (compiled : option (result KernelHandle GpuError)) (s : GpuSparseStructureActor) :
    GpuSparseStructureActor * list Eff * result KernelHandle GpuError :=
  match spmv_kernel s with
  | Some k => (s, [], Ok k)
  | None =>
    if negb (nvrtc s) then (s, [], Err (Unrecoverable "GpuSparseStructureActor: no nvrtc actor configured"))
    else
      match compiled with
      | None => (s, [AskCompile "coo_spmv"], Err (Unrecoverable "NvrtcActor compile timed out"))
      | Some (Err e) => (s, [AskCompile "coo_spmv"], Err e)
      | Some (Ok k) => (set_kernel k s, [AskCompile "coo_spmv"], Ok k)
      end
  end.

(** [y\[r\] += e.value * x\[c\]] *)
Definition add_entry (x : list f32) (y : list f32) (e : CooEntry) : list f32 :=
  let r := Z.to_nat (row e) in
  let c := Z.to_nat (col e) in
  if (r <? rows cfg) && (c <? cols cfg) then
    match y !! r, x !! c with
    | Some yr, Some xc => <[r := f32_add yr (f32_mul (value e) xc)]> y
    | _, _ => y
    end
  else y.
Definition cpu_spmv (l : list CooEntry) (x : list f32) : list f32 :=
  foldl (add_entry x) (replicate (rows cfg) f32_zero) l.

Definition len_error (x : list f32) : GpuError :=
  Unrecoverable ("SpMv: x len " +:+ pretty (length x) +:+ " != cols " +:+ pretty (cols cfg)).

Definition handle (compiled : option (result KernelHandle GpuError)) (m : SparseMsg) (s : GpuSparseStructureActor) :
    GpuSparseStructureActor * list Eff :=
  match m with
  | SetEntries l => ({| entries := l; spmv_kernel := spmv_kernel s; nvrtc := nvrtc s |}, [ReplySet (length l)])
  | SpMv x =>
    if negb (length x =? cols cfg) then (s, [ReplySpMv (Err (len_error x))])
    else
      let '(s', es, r) := if nvrtc s then
          let '(s', es, r) := ensure_kernel compiled s in
          (s', es, match r with Ok _ => Ok () | Err e => Err e end)
        else (s, [], Ok ()) in
      (s', es ++ [ReplySpMv match r with Ok _ => Ok (cpu_spmv (entries s') x) | Err e => Err e end])
  | Stats => (s, [ReplyStats {| stats_rows := rows cfg; stats_cols := cols cfg; nnz := length (entries s) |}])
  end.

(** What an entry adds to row [r], if anything. *)
Definition term (x : list f32) (r : nat) (e : CooEntry) : option f32 :=
  if Z.to_nat (row e) =? r then f32_mul (value e) <$> x !! Z.to_nat (col e) else None.
(** The product of one row: its entries within the columns, in the order given. *)
Definition row_product (l : list CooEntry) (x : list f32) (r : nat) : f32 :=
  foldl f32_add f32_zero (omap (term x r) l).

Lemma add_entry_length x y e : length (add_entry x y e) = length y.
Proof. unfold add_entry. repeat case_match; by rewrite ?length_insert. Qed.

(** Neither index is out of range, so no entry within the shape is skipped. *)
Lemma add_entry_row x y e r v :
  length x = cols cfg → length y = rows cfg → y !! r = Some v →
  add_entry x y e !! r = Some (match term x r e with Some t => f32_add v t | None => v end).
Proof.
  intros Hx Hy Hv. pose proof (lookup_lt_Some _ _ _ Hv) as Hr. unfold add_entry, term.
  destruct (Nat.eqb_spec (Z.to_nat (row e)) r) as [->|He].
  - rewrite (proj2 (Nat.ltb_lt _ _)), Hv by lia. cbn [andb].
    destruct (Nat.ltb_spec (Z.to_nat (col e)) (cols cfg)) as [Hc|Hc].
    + destruct (lookup_lt_is_Some_2 x (Z.to_nat (col e))) as [xc ->]; [lia|]. by rewrite list_lookup_insert_eq.
    + by rewrite (lookup_ge_None_2 x) by lia.
  - repeat case_match; by rewrite ?list_lookup_insert_ne.
Qed.

Lemma cpu_spmv_length l x : length (cpu_spmv l x) = rows cfg.
Proof.
  unfold cpu_spmv. rewrite <-(length_replicate (rows cfg) f32_zero) at 2.
  generalize (replicate (rows cfg) f32_zero). induction l as [|e l IH]; intros y; [done|].
  cbn. by rewrite IH, add_entry_length.
Qed.

Lemma cpu_spmv_row l x r : length x = cols cfg → r < rows cfg → cpu_spmv l x !! r = Some (row_product l x r).
Proof.
  intros Hx Hr. unfold cpu_spmv, row_product.
  assert (Hg : ∀ y v, length y = rows cfg → y !! r = Some v →
    foldl (add_entry x) y l !! r = Some (foldl f32_add v (omap (term x r) l))).
  { induction l as [|e l IH]; intros y v Hy Hv; [done|]. cbn [foldl omap list_omap].
    rewrite (IH _ _ (eq_trans (add_entry_length _ _ _) Hy) (add_entry_row _ _ _ _ _ Hx Hy Hv)).
    by destruct (term x r e). }
  apply Hg; [apply length_replicate|]. by apply lookup_replicate.
Qed.
End actor.
Arguments GpuSparseStructureActor : clear implicits.

(** What each request answers: the product row by row, after the kernel has been compiled
    when an NVRTC actor is configured; the kernel itself is never launched. *)
Lemma spmv_outcome {H} cfg (compiled : option (result H GpuError)) x (s : GpuSparseStructureActor H) :
  let '(s', es) := handle cfg compiled (SpMv x) s in
  entries s' = entries s ∧
  if decide (length x = cols cfg) then
    (last es = Some (ReplySpMv (Ok (cpu_spmv cfg (entries s) x))) ∧
      (spmv_kernel s ≠ None → es = [ReplySpMv (Ok (cpu_spmv cfg (entries s) x))])) ∨
    (nvrtc s = true ∧ spmv_kernel s' = None ∧ ∃ e, last es = Some (ReplySpMv (Err e)))
  else s' = s ∧ es = [ReplySpMv (Err (len_error cfg x))].
Proof.
  cbn [handle]. destruct (decide (length x = cols cfg)) as [Hx|Hx].
  - rewrite (proj2 (Nat.eqb_eq _ _) Hx). cbn [negb]. destruct (nvrtc s) eqn:Hn; [|by cbn; split; [done|left; split]].
    unfold ensure_kernel. destruct (spmv_kernel s) as [k|] eqn:Hk; [by cbn; split; [done|left; split]|].
    rewrite Hn. destruct compiled as [[k|e]|]; cbn; (split; [done|]); [left; split|right..]; eauto; done.
  - by rewrite (proj2 (Nat.eqb_neq _ _) Hx).
Qed.

Example identity_matrix :
  cpu_spmv {| rows := 3; cols := 3 |} [{| row := 0; col := 0; value := f32_of_Z 1 |};
    {| row := 1; col := 1; value := f32_of_Z 1 |}; {| row := 2; col := 2; value := f32_of_Z 1 |}]
    [f32_of_Z 10; f32_of_Z 20; f32_of_Z 30] = [f32_of_Z 10; f32_of_Z 20; f32_of_Z 30].
Proof. run. Qed.
End Coo.

(** ** The reductions *)

Module Reduction.

Inductive ReductionKind : Type := Sum | Mean | Min | Max | ArgMax.
Inductive ReductionMsg : Type :=
  | Reduce (kind : ReductionKind) (data : list f32)
  | ReduceChannels (kind : ReductionKind) (data : list f32) (channels : nat).
Inductive Reply : Type :=
  | Reduced (r : result f32 GpuError)
  | PerChannel (r : result (list f32) GpuError).

Section ops.
Context (sum_start : f32).

(** One round of the loop of the index of the maximum. *)
Definition argmax_step (best : nat * f32) (iv : nat * f32) : nat * f32 :=
  if f32_ltb best.2 iv.2 then iv else best.
Definition argmax (data : list f32) : nat :=
  (foldl argmax_step (0, S754_infinity true) (imap pair data)).1.

Definition reduce_one (kind : ReductionKind) (data : list f32) : result f32 GpuError :=
  match data with
  | [] => Err (Unrecoverable "Reduction: empty input")
  | _ =>
    Ok match kind with
       | Sum => foldl f32_add sum_start data
       | Mean => f32_div (foldl f32_add sum_start data) (f32_of_Z (Z.of_nat (length data)))
       | Min => foldl f32_min (S754_infinity false) data
       | Max => foldl f32_max (S754_infinity true) data
       | ArgMax => f32_of_Z (Z.of_nat (argmax data))
       end
  end.

(** The elements of channel [c]; [None] when an index is out of range. *)
Definition channel (data : list f32) (channels per_chan c : nat) : option (list f32) :=
  mapM (λ i, data !! (i * channels + c)) (seq 0 per_chan).

Fixpoint reduce_all (kind : ReductionKind) (data : list f32) (channels per_chan : nat) (cs : list nat) :
    option (result (list f32) GpuError) :=
  match cs with
  | [] => Some (Ok [])
  | c :: cs =>
    chunk ← channel data channels per_chan c;
    match reduce_one kind chunk with
    | Err e => Some (Err e)
    | Ok v =>
      r ← reduce_all kind data channels per_chan cs;
      Some match r with Ok vs => Ok (v :: vs) | Err e => Err e end
    end
  end.

Definition handle (m : ReductionMsg) : option Reply :=
  match m with
  | Reduce kind data => Some (Reduced (reduce_one kind data))
  | ReduceChannels kind data channels =>
    PerChannel <$>
      (if channels =? 0 then Some (Err (Unrecoverable "ReduceChannels: channels == 0"))
       else if negb (length data mod channels =? 0) then
         Some (Err (Unrecoverable ("ReduceChannels: data len " +:+ pretty (length data) +:+
           " not divisible by " +:+ pretty channels)))
       else reduce_all kind data channels (length data / channels) (seq 0 channels))
  end.

(** *** The index of the maximum *)

(** [best] is the first of the greatest numbers of a list whose last element has index [n - 1]. *)
Definition first_max (data : list f32) (best : nat * f32) : Prop :=
  data !! best.1 = Some best.2 ∧
  ∀ j v, data !! j = Some v → f32_ltb best.2 v = false ∧ (j < best.1 → f32_ltb v best.2 = true).

Lemma argmax_fold pre data best :
  Forall (λ v, is_nan v = false) (pre ++ data) → first_max pre best →
  first_max (pre ++ data) (foldl argmax_step best (imap (λ i v, (length pre + i, v)) data)).
Proof.
  revert pre best. induction data as [|x data IH]; intros pre best Hn Hf; [by rewrite app_nil_r|].
  cbn [imap foldl]. rewrite Nat.add_0_r.
  assert (Hi : imap ((λ i v, (length pre + i, v)) ∘ S) data = imap (λ i v, (length (pre ++ [x]) + i, v)) data).
  { apply imap_ext. intros i v _. cbn. rewrite length_app. cbn. f_equal. lia. }
  rewrite Hi, cons_middle, app_assoc in *. apply IH; [done|]. clear IH Hi.
  rewrite Forall_app, Forall_app in Hn. destruct Hn as [[Hpre Hx] _]. apply Forall_singleton in Hx.
  destruct Hf as [Hb Hmax]. pose proof (lookup_lt_Some _ _ _ Hb) as Hlt. unfold argmax_step. cbn [fst snd].
  assert (Hbn : is_nan best.2 = false) by (rewrite Forall_lookup in Hpre; by eapply Hpre).
  destruct (f32_ltb best.2 x) eqn:Hlx; split; cbn [fst snd].
  - by rewrite list_lookup_middle.
  - intros j v [Hj|[Hj Hs]]%lookup_app_Some.
    + destruct (Hmax j v Hj) as [Hle _]. pose proof (lookup_lt_Some _ _ _ Hj).
      assert (Hv : is_nan v = false) by (rewrite Forall_lookup in Hpre; by eapply Hpre).
      assert (Hvx : f32_ltb v x = true).
      { apply not_false_is_true. intros Hf. exact (eq_true_false_abs _ Hlx (f64_geb_trans best.2 v x Hv Hle Hf)). }
      split; [by apply f64_ltb_asym|done].
    + assert (j - length pre = 0) as Hj0 by (apply lookup_lt_Some in Hs; cbn in Hs; lia).
      rewrite Hj0 in Hs. injection Hs as <-. split; [apply f64_ltb_irrefl|lia].
  - by rewrite lookup_app_l.
  - intros j v [Hj|[Hj Hs]]%lookup_app_Some; [by apply Hmax|].
    assert (j - length pre = 0) as Hj0 by (apply lookup_lt_Some in Hs; cbn in Hs; lia).
    rewrite Hj0 in Hs. injection Hs as <-. split; [done|lia].
Qed.

Lemma argmax_first data :
  data ≠ [] → Forall (λ v, is_nan v = false) data → ∃ v, first_max data (argmax data, v).
Proof.
  intros Hne Hn. unfold argmax. destruct data as [|x data]; [done|]. cbn [imap foldl].
  assert (Hstep : first_max [x] (0, x)).
  { split; [done|]. intros [|j] v Hj; [|done]. injection Hj as <-. split; [apply f64_ltb_irrefl|cbn; lia]. }
  assert (Hi : imap (pair ∘ S) data = imap (λ i v, (length [x] + i, v)) data) by done. rewrite Hi.
  pose proof (argmax_fold [x] data (0, x) Hn Hstep) as Hm.
  assert (Hs : argmax_step (0, S754_infinity true) (0, x) = (0, x)).
  { unfold argmax_step. cbn [snd]. destruct (f32_ltb (S754_infinity true) x) eqn:Hx; [done|].
    apply Forall_cons in Hn as [Hx' _]. by destruct x as [[]|[]| |[]]. }
  rewrite Hs. eexists. by rewrite <-surjective_pairing.
Qed.

(** *** The channels *)

Lemma reduce_one_ok kind data : data ≠ [] → ∃ v, reduce_one kind data = Ok v.
Proof. intros Hd. destruct data; [done|]. by eexists. Qed.

Lemma channel_in_range data channels per_chan c :
  length data = channels * per_chan → c < channels →
  ∃ chunk, channel data channels per_chan c = Some chunk ∧ length chunk = per_chan ∧
    ∀ i, i < per_chan → chunk !! i = data !! (i * channels + c).
Proof.
  intros Hl Hc. unfold channel.
  destruct (mapM_is_Some_2 (λ i, data !! (i * channels + c)) (seq 0 per_chan)) as [chunk Hm].
  { rewrite Forall_forall. intros i Hi%elem_of_seq. apply lookup_lt_is_Some_2. nia. }
  exists chunk. split; [done|]. apply mapM_Some in Hm.
  split; [by rewrite <-(Forall2_length _ _ _ Hm), length_seq|]. intros i Hi.
  destruct (Forall2_lookup_l _ _ _ i i Hm) as (v & Hv & He); [by apply lookup_seq_lt|]. by rewrite Hv, He.
Qed.

Definition reduces_channel (kind : ReductionKind) (data : list f32) (channels per_chan c : nat) (v : f32) : Prop :=
  ∃ chunk, length chunk = per_chan ∧ (∀ i, i < per_chan → chunk !! i = data !! (i * channels + c)) ∧
    reduce_one kind chunk = Ok v.

Lemma reduce_all_spec kind data channels per_chan cs :
  length data = channels * per_chan → per_chan ≠ 0 → Forall (λ c, c < channels) cs →
  ∃ vs, reduce_all kind data channels per_chan cs = Some (Ok vs) ∧
    Forall2 (reduces_channel kind data channels per_chan) cs vs.
Proof.
  intros Hl Hp. induction cs as [|c cs IH]; intros Hcs; [by exists []|]. cbn [reduce_all].
  apply Forall_cons in Hcs as [Hc Hcs]. destruct (IH Hcs) as (vs & Hr & Hf).
  destruct (channel_in_range data channels per_chan c Hl Hc) as (chunk & Hch & Hlen & Hat). rewrite Hch. cbn [mbind option_bind].
  destruct (reduce_one_ok kind chunk) as [v Hv]; [by destruct chunk; [cbn in Hlen; lia|]|].
  rewrite Hv, Hr. cbn. exists (v :: vs). split; [done|]. constructor; [|done]. by exists chunk.
Qed.
End ops.

(** The reductions: one value per channel, which reduces the elements that the
    channel has every [channels] places; and over numbers other than NaN the index of
    the maximum is the first place that holds a greatest element. *)
Theorem reductions_correct sum_start kind data channels per_chan :
  channels ≠ 0 → per_chan ≠ 0 → length data = channels * per_chan →
  (∃ vs, handle sum_start (ReduceChannels kind data channels) = Some (PerChannel (Ok vs)) ∧ length vs = channels ∧
    ∀ c v, vs !! c = Some v → reduces_channel sum_start kind data channels per_chan c v) ∧
  (Forall (λ v, is_nan v = false) data →
    ∃ i v, handle sum_start (Reduce ArgMax data) = Some (Reduced (Ok (f32_of_Z (Z.of_nat i)))) ∧ first_max data (i, v)).
Proof.
  intros Hc Hp Hl. split.
  - cbn [handle]. rewrite (proj2 (Nat.eqb_neq _ _) Hc). rewrite Hl, (Nat.mul_comm channels), Nat.Div0.mod_mul, Nat.div_mul by done.
    cbn [negb Nat.eqb].
    destruct (reduce_all_spec sum_start kind data channels per_chan (seq 0 channels) Hl Hp) as (vs & Hr & Hf).
    { rewrite Forall_forall. intros c Hi%elem_of_seq. lia. }
    exists vs. rewrite Hr. split; [done|]. split; [by rewrite <-(Forall2_length _ _ _ Hf), length_seq|].
    intros c v Hv. destruct (Forall2_lookup_r _ _ _ c v Hf Hv) as (c' & Hs & Hred).
    apply lookup_seq in Hs as [-> _]. done.
  - intros Hn. assert (Hd : data ≠ []) by (destruct data; [cbn in Hl; nia|done]).
    destruct (argmax_first data Hd Hn) as [v Hv]. exists (argmax data), v. split; [|done].
    cbn [handle]. by destruct data.
Qed.

Lemma reductions_correct_witness :
  let data := f32_of_Z <$> [1; 9; 4; 2; 3; 9]%Z in
  (∃ vs, handle f32_zero (ReduceChannels Max data 2) = Some (PerChannel (Ok vs)) ∧ length vs = 2) ∧
  ∃ i v, handle f32_zero (Reduce ArgMax data) = Some (Reduced (Ok (f32_of_Z (Z.of_nat i)))) ∧ first_max data (i, v).
Proof.
  destruct (reductions_correct f32_zero Max (f32_of_Z <$> [1; 9; 4; 2; 3; 9]%Z) 2 3) as [(vs & H1 & H2 & _) H3];
    [done|done|done|].
  split; [by exists vs|]. apply H3. vm_compute. repeat constructor.
Defined.

Example two_channels :
  handle f32_zero (ReduceChannels Max (f32_of_Z <$> [1; 9; 4; 2; 3; 9]%Z) 2) =
    Some (PerChannel (Ok (f32_of_Z <$> [4; 9]%Z))) ∧
  handle f32_zero (Reduce ArgMax (f32_of_Z <$> [1; 9; 4; 2; 3; 9]%Z)) = Some (Reduced (Ok (f32_of_Z 1))).
Proof. split; run. Qed.

(** The index is answered as an [f32], which cannot tell the indices past [2^24] apart. *)
Example index_rounds : f32_of_Z (2 ^ 24 + 1) = f32_of_Z (2 ^ 24).
Proof. run. Qed.

(** A NaN is passed over; a list of them has its maximum at the first place. *)
Example nan_skipped :
  handle f32_zero (Reduce ArgMax [S754_nan; f32_of_Z 3; S754_nan]) = Some (Reduced (Ok (f32_of_Z 1))) ∧
  handle f32_zero (Reduce ArgMax [S754_nan; S754_nan]) = Some (Reduced (Ok f32_zero)) ∧
  handle f32_zero (Reduce Max [S754_nan; S754_nan]) = Some (Reduced (Ok (S754_infinity true))).
Proof. split_and!; run. Qed.
End Reduction.
