(* ===== verification/Frames.v ===== *)
(** * Real-time frames

    Models the actors of [crates/atomr-accel-cuda-realtime/src] that transform frames:
    the 3×3 filter ([image_filter.rs]), on the host and through the cuDNN actor, the
    analysis passes ([multi_pass.rs]) and the chain of effects ([video_effects.rs]).
    Passes and effects are the client's functions.  [None] is a panic. *)

From Stdlib Require Import Floats.SpecFloat.
From stdpp Require Import pretty.
From S2P Require Import Prelude Actor Lru Errors Float64 DeviceState Envelope CudnnGraph Cudnn.

(** ** The filter *)

Module ImageFilter.

Record ImageFilterConfig := { width : nat; height : nat; channels : nat; kernel_3x3 : list f32 }.

(** The place of a value in the frame. *)
Definition pixel_index (w c y x ch : nat) : nat :=
  Z.to_nat (((Z.of_nat y *₆₄ Z.of_nat w) +₆₄ Z.of_nat x) *₆₄ Z.of_nat c +₆₄ Z.of_nat ch).

(** The places of the kernel in the order of the loops. *)
Definition taps : list (nat * nat) := ky ← seq 0 3; kx ← seq 0 3; [(ky, kx)].

Section convolve.
Context (cfg : ImageFilterConfig) (frame : list Z).

(** One round of the loops over the kernel: [acc += frame\[idx\] as f32 * k\[ky * 3 + kx\]]. *)
Definition add_tap (y x ch : nat) (acc : option f32) (t : nat * nat) : option f32 :=
  a ← acc;
  let sy := (Z.of_nat y + Z.of_nat t.1 - 1)%Z in
  let sx := (Z.of_nat x + Z.of_nat t.2 - 1)%Z in
  if (sy <? 0)%Z || (Z.of_nat (height cfg) <=? sy)%Z || (sx <? 0)%Z || (Z.of_nat (width cfg) <=? sx)%Z then Some a
  else
    b ← frame !! pixel_index (width cfg) (channels cfg) (Z.to_nat sy) (Z.to_nat sx) ch;
    k ← kernel_3x3 cfg !! (t.1 * 3 + t.2);
    Some (f32_add a (f32_mul (f32_of_Z b) k)).
(** [acc.clamp(0.0, 255.0) as u8] *)
Definition pixel (y x ch : nat) : option Z :=
  acc ← foldl (add_tap y x ch) (Some f32_zero) taps;
  v ← f32_clamp acc f32_zero (f32_of_Z 255);
  Some (f32_as 0 255 v).

(** [out\[idx\] = clamped], which panics out of range. *)
Definition store (out : option (list Z)) (p : nat * nat * nat) : option (list Z) :=
  o ← out;
  let '(y, x, ch) := p in
  v ← pixel y x ch;
  let i := pixel_index (width cfg) (channels cfg) y x ch in
  if i <? length o then Some (<[i := v]> o) else None.
Definition positions : list (nat * nat * nat) :=
  y ← seq 0 (height cfg); x ← seq 0 (width cfg); ch ← seq 0 (channels cfg); [(y, x, ch)].

Definition expected : Z := (Z.of_nat (width cfg) *₆₄ Z.of_nat (height cfg)) *₆₄ Z.of_nat (channels cfg).

Definition convolve : option (result (list Z) GpuError) :=
  if negb (Z.of_nat (length frame) =? expected)%Z then
    Some (Err (Unrecoverable ("ImageFilter: frame len " +:+ pretty (length frame) +:+ " != expected " +:+ pretty expected)))
  else if negb (length (kernel_3x3 cfg) =? 9) then
    Some (Err (Unrecoverable ("ImageFilter: kernel len " +:+ pretty (length (kernel_3x3 cfg)) +:+ " != 9")))
  else Ok <$> foldl store (Some (replicate (Z.to_nat expected) 0%Z)) positions.

(** *** The loop *)

Definition size : nat := width cfg * height cfg * channels cfg.

(** The value of a pixel; the reads are in range. *)
Definition value_at (p : nat * nat * nat) : Z := let '(y, x, ch) := p in default 0%Z (pixel y x ch).
Definition in_frame (p : nat * nat * nat) : Prop :=
  let '(y, x, ch) := p in y < height cfg ∧ x < width cfg ∧ ch < channels cfg.

Hypothesis fits : (Z.of_nat size < 2 ^ 64)%Z.

Lemma pixel_index_exact y x ch : in_frame (y, x, ch) →
  pixel_index (width cfg) (channels cfg) y x ch = (y * width cfg + x) * channels cfg + ch ∧
  (y * width cfg + x) * channels cfg + ch < size.
Proof using fits.
  intros (Hy & Hx & Hc). unfold size in *.
  assert (Hrow : y * width cfg + x < width cfg * height cfg) by nia.
  assert (Hlt : (y * width cfg + x) * channels cfg + ch < width cfg * height cfg * channels cfg) by nia.
  split; [|done]. unfold pixel_index.
  assert (He : (Z.of_nat y *₆₄ Z.of_nat (width cfg) = Z.of_nat (y * width cfg))%Z).
  { unfold wmul. rewrite wrap_small; unfold in_width; nia. }
  rewrite He, (wadd_small 64 (Z.of_nat _)) by (unfold in_width; nia).
  unfold wmul. rewrite wrap_small by (unfold in_width; nia). rewrite wadd_small by (unfold in_width; nia). lia.
Qed.

Lemma expected_exact : expected = Z.of_nat size.
Proof.
  unfold expected, size in *. unfold wmul at 2. destruct (channels cfg) as [|c] eqn:Hc.
  - unfold wmul. rewrite Z.mul_0_r. rewrite Nat.mul_0_r. done.
  - rewrite wrap_small by (unfold in_width; nia). unfold wmul. rewrite wrap_small by (unfold in_width; nia). lia.
Qed.

(** The positions are the places of the frame in order. *)
Lemma positions_index :
  (λ '(y, x, ch), (y * width cfg + x) * channels cfg + ch) <$> positions = seq 0 size.
Proof using cfg.
  unfold positions, size.
  rewrite (Nat.mul_comm (width cfg)), <-(seq_grid (height cfg * width cfg)), <-(seq_grid (height cfg)).
  rewrite fmap_bind, bind_assoc. apply list_bind_ext; [intros y|done].
  rewrite fmap_bind, list_fmap_bind. apply list_bind_ext; [intros x|done]. cbn.
  rewrite fmap_bind. by induction (seq 0 (channels cfg)) as [|ch l IH]; [|cbn; f_equal].
Qed.

Lemma positions_in_frame p : p ∈ positions → in_frame p.
Proof using cfg. clear fits. destruct p as [[y x] ch]. unfold positions, in_frame. set_solver by lia. Qed.

(** *** A pixel *)

Lemma f32_as_range lo hi x : (lo ≤ 0 ≤ hi)%Z → (lo ≤ f32_as lo hi x ≤ hi)%Z.
Proof. intros. destruct x as [s|[]| |s m e]; cbn; lia. Qed.

Lemma clamp_byte x : ∃ v, f32_clamp x f32_zero (f32_of_Z 255) = Some v.
Proof. by eexists. Qed.

Hypothesis frame_len : length frame = size.
Hypothesis kernel_len : length (kernel_3x3 cfg) = 9.

(** The reads of a round are in range. *)
Lemma add_tap_some y x ch a t : in_frame (y, x, ch) → t ∈ taps → ∃ a', add_tap y x ch (Some a) t = Some a'.
Proof.
  intros (Hy & Hx & Hc) Ht. assert (Htt : t.1 < 3 ∧ t.2 < 3) by (unfold taps in Ht; set_solver by lia).
  unfold add_tap. cbn [mbind option_bind]. destruct (_ || _) eqn:Hout; [by eexists|].
  rewrite !orb_false_iff, !Z.ltb_ge, !Z.leb_gt in Hout.
  set (sy := Z.to_nat _). set (sx := Z.to_nat _).
  destruct (pixel_index_exact sy sx ch) as [He Hl]; [split_and!; lia|].
  rewrite He. destruct (lookup_lt_is_Some_2 frame ((sy * width cfg + sx) * channels cfg + ch)) as [b ->]; [lia|].
  cbn [mbind option_bind]. destruct (lookup_lt_is_Some_2 (kernel_3x3 cfg) (t.1 * 3 + t.2)) as [k ->]; [lia|].
  by eexists.
Qed.

Lemma pixel_some y x ch : in_frame (y, x, ch) → ∃ v, pixel y x ch = Some v ∧ (0 ≤ v ≤ 255)%Z.
Proof.
  intros Hf. unfold pixel.
  assert (Ha : ∀ ts a, ts ⊆ taps → ∃ a', foldl (add_tap y x ch) (Some a) ts = Some a').
  { induction ts as [|t ts IH]; intros a Hts; [by eexists|]. cbn [foldl].
    destruct (add_tap_some y x ch a t Hf) as [a' Ha]; [set_solver|]. rewrite Ha. apply IH. set_solver. }
  destruct (Ha taps f32_zero) as [acc ->]; [done|]. cbn [mbind option_bind].
  destruct (clamp_byte acc) as [v ->]. eexists. split; [done|]. by apply f32_as_range.
Qed.

(** *** The frame *)

Lemma store_all ps o : length o = size → Forall in_frame ps →
  foldl store (Some o) ps =
    Some (write_all (zip ((λ '(y, x, ch), (y * width cfg + x) * channels cfg + ch) <$> ps) (value_at <$> ps)) o).
Proof.
  revert o. induction ps as [|[[y x] ch] ps IH]; intros o Ho Hps; [done|].
  apply Forall_cons in Hps as [Hp Hps]. cbn [foldl]. destruct (pixel_some y x ch Hp) as (v & Hv & _).
  destruct (pixel_index_exact y x ch Hp) as [He Hl].
  assert (Hs : store (Some o) (y, x, ch) = Some (<[(y * width cfg + x) * channels cfg + ch := v]> o)).
  { unfold store. cbn [mbind option_bind]. rewrite Hv. cbn [mbind option_bind]. rewrite He.
    by rewrite (proj2 (Nat.ltb_lt _ _)) by lia. }
  assert (Hva : value_at (y, x, ch) = v) by (unfold value_at; by rewrite Hv).
  rewrite Hs, IH by (rewrite ?length_insert; done). by rewrite !fmap_cons, Hva.
Qed.

Lemma positions_length : length positions = size.
Proof using cfg. by rewrite <-(length_fmap (λ '(y, x, ch), (y * width cfg + x) * channels cfg + ch)), positions_index, length_seq. Qed.

Lemma convolve_values : convolve = Some (Ok (value_at <$> positions)).
Proof.
  unfold convolve. rewrite expected_exact, frame_len, Z.eqb_refl. cbn [negb].
  rewrite kernel_len. cbn [Nat.eqb negb]. rewrite Nat2Z.id, store_all, positions_index; [|apply length_replicate|].
  - cbn. rewrite <-positions_length at 1. rewrite <-(length_fmap value_at positions), write_all_seq; [done|].
    by rewrite length_replicate, length_fmap, positions_length.
  - rewrite Forall_forall. apply positions_in_frame.
Qed.

Lemma positions_at y x ch : in_frame (y, x, ch) →
  positions !! ((y * width cfg + x) * channels cfg + ch) = Some (y, x, ch).
Proof using fits.
  clear frame_len kernel_len. intros Hf. destruct (pixel_index_exact y x ch Hf) as [_ Hl]. set (i := _ + ch) in *.
  destruct (lookup_lt_is_Some_2 positions i) as [[[y' x'] ch'] Hp]; [by rewrite positions_length|]. rewrite Hp. f_equal.
  assert (He : ((λ '(y, x, ch), (y * width cfg + x) * channels cfg + ch) <$> positions) !! i = Some i).
  { by rewrite positions_index, lookup_seq_lt. }
  rewrite list_lookup_fmap, Hp in He. injection He as He. unfold i in He.
  assert (Hf' : in_frame (y', x', ch')) by (apply positions_in_frame; by eapply list_elem_of_lookup_2).
  destruct Hf as (? & ? & ?), Hf' as (? & ? & ?).
  assert (y' * width cfg + x' = y * width cfg + x) by nia. assert (y' = y) by nia. assert (x' = x) by nia.
  subst. f_equal. lia.
Qed.
End convolve.

(** *** The identity kernel *)

Definition identity_kernel : list f32 := imap (λ i _, if i =? 4 then f32_of_Z 1 else f32_zero) (replicate 9 ()).

(** A byte as [f32]: multiplied by one, by zero, added to zero, and cast back. *)
Definition byte_exact (b : Z) : Prop :=
  f32_mul (f32_of_Z b) f32_zero = f32_zero ∧
  f32_add (f32_of_Z b) f32_zero = f32_of_Z b ∧
  f32_add f32_zero (f32_mul (f32_of_Z b) (f32_of_Z 1)) = f32_of_Z b ∧
  (f32_as 0 255 <$> f32_clamp (f32_of_Z b) f32_zero (f32_of_Z 255)) = Some b.

Lemma bytes_exact b : (0 ≤ b ≤ 255)%Z → byte_exact b.
Proof.
  intros Hb. assert (Ha : Forall byte_exact (seqZ 0 256)).
  { apply (bool_decide_unpack (Forall byte_exact (seqZ 0 256))). unfold byte_exact. by vm_compute. }
  rewrite Forall_forall in Ha. apply Ha, elem_of_seqZ. lia.
Qed.

Section identity.
Context (cfg : ImageFilterConfig) (frame : list Z).
Hypothesis fits : (Z.of_nat (size cfg) < 2 ^ 64)%Z.
Hypothesis frame_len : length frame = size cfg.
Hypothesis bytes : Forall (λ b, 0 ≤ b ≤ 255)%Z frame.
Hypothesis identity : kernel_3x3 cfg = identity_kernel.

(** Rounds beside the centre leave the sum as it is. *)
Lemma other_tap y x ch a t :
  in_frame cfg (y, x, ch) → t ∈ taps → t ≠ (1, 1) → (0 ≤ a ≤ 255)%Z →
  add_tap cfg frame y x ch (Some (f32_of_Z a)) t = Some (f32_of_Z a).
Proof.
  intros (Hy & Hx & Hc) Ht Hne Ha. assert (Htt : t.1 < 3 ∧ t.2 < 3) by (unfold taps in Ht; set_solver by lia).
  unfold add_tap. cbn [mbind option_bind]. destruct (_ || _) eqn:Hout; [done|].
  rewrite !orb_false_iff, !Z.ltb_ge, !Z.leb_gt in Hout.
  set (sy := Z.to_nat _). set (sx := Z.to_nat _).
  destruct (pixel_index_exact cfg fits sy sx ch) as [He Hl]; [split_and!; lia|].
  rewrite He. destruct (lookup_lt_is_Some_2 frame ((sy * width cfg + sx) * channels cfg + ch)) as [b Hb]; [lia|].
  rewrite Hb. cbn [mbind option_bind]. rewrite identity.
  assert (Hk : identity_kernel !! (t.1 * 3 + t.2) = Some f32_zero).
  { destruct t as [[|[|[|]]] [|[|[|]]]]; cbn in Htt |- *; done || lia. }
  rewrite Hk. cbn [mbind option_bind]. rewrite Forall_lookup in bytes.
  destruct (bytes_exact b (bytes _ _ Hb)) as (-> & _), (bytes_exact a Ha) as (_ & -> & _). done.
Qed.

Lemma centre_tap y x ch b :
  in_frame cfg (y, x, ch) → frame !! ((y * width cfg + x) * channels cfg + ch) = Some b →
  add_tap cfg frame y x ch (Some f32_zero) (1, 1) = Some (f32_of_Z b).
Proof.
  intros (Hy & Hx & Hc) Hb. unfold add_tap. cbn [mbind option_bind fst snd].
  rewrite (proj2 (Z.ltb_ge _ _)), (proj2 (Z.leb_gt _ _)) by lia. cbn [orb].
  rewrite (proj2 (Z.ltb_ge _ _)), (proj2 (Z.leb_gt _ _)) by lia. cbn [orb].
  replace (Z.to_nat (Z.of_nat y + Z.of_nat 1 - 1)) with y by lia.
  replace (Z.to_nat (Z.of_nat x + Z.of_nat 1 - 1)) with x by lia.
  destruct (pixel_index_exact cfg fits y x ch) as [He _]; [done|]. rewrite He, Hb, identity.
  cbn [mbind option_bind]. change (identity_kernel !! (1 * 3 + 1)) with (Some (f32_of_Z 1)). cbn [mbind option_bind].
  rewrite Forall_lookup in bytes. destruct (bytes_exact b (bytes _ _ Hb)) as (_ & _ & H & _).
  by apply (f_equal Some).
Qed.

Lemma identity_pixel y x ch b :
  in_frame cfg (y, x, ch) → frame !! ((y * width cfg + x) * channels cfg + ch) = Some b →
  pixel cfg frame y x ch = Some b.
Proof.
  intros Hf Hb. assert (Hr : (0 ≤ b ≤ 255)%Z) by (rewrite Forall_lookup in bytes; by eapply bytes).
  assert (Hs : ∀ ts a, ts ⊆ taps → (1, 1) ∉ ts → (0 ≤ a ≤ 255)%Z →
    foldl (add_tap cfg frame y x ch) (Some (f32_of_Z a)) ts = Some (f32_of_Z a)).
  { induction ts as [|t ts IH]; intros a Hts Hn Ha; [done|]. cbn [foldl].
    rewrite other_tap by (done || set_solver). apply IH; [set_solver|set_solver|done]. }
  assert (Hbefore : foldl (add_tap cfg frame y x ch) (Some f32_zero) (take 4 taps) = Some f32_zero).
  { apply (Hs (take 4 taps) 0%Z); [by apply (bool_decide_unpack (take 4 taps ⊆ taps))| |done].
    by apply (bool_decide_unpack ((1, 1) ∉ take 4 taps)). }
  unfold pixel. change taps with (take 4 taps ++ (1, 1) :: drop 5 taps). rewrite foldl_app. cbn [foldl].
  rewrite Hbefore, (centre_tap y x ch b Hf Hb), (Hs (drop 5 taps) b); [| | |done].
  - cbn [mbind option_bind]. destruct (bytes_exact b Hr) as (_ & _ & _ & Hc).
    destruct (f32_clamp _ _ _); [|done]. injection Hc as Hc. cbn. by rewrite Hc.
  - by apply (bool_decide_unpack (drop 5 taps ⊆ taps)).
  - by apply (bool_decide_unpack ((1, 1) ∉ drop 5 taps)).
Qed.
End identity.


Definition demo_cfg (k : list f32) : ImageFilterConfig := {| width := 3; height := 2; channels := 1; kernel_3x3 := k |}.

(** A kernel of ones: the sums stop at 255. *)
Example box_filter :
  convolve (demo_cfg (replicate 9 (f32_of_Z 1))) [1; 2; 3; 4; 5; 255]%Z = Some (Ok [12; 255; 255; 12; 255; 255]%Z).
Proof. run. Qed.

(** *** The actor *)

(** The address of the cuDNN actor is [true] when one was given. *)
Record ImageFilterPipeline := { config : ImageFilterConfig; cudnn : bool }.
Definition props (c : ImageFilterConfig) : ImageFilterPipeline := {| config := c; cudnn := false |}.
Definition props_with_cudnn (c : ImageFilterConfig) : ImageFilterPipeline := {| config := c; cudnn := true |}.

Inductive ImageFilterMsg : Type :=
  | Process (frame : list Z)
  | ProcessGpu (input weights output : GpuRef) (reply : nat)
  | UpdateKernel (kernel : list f32).
Inductive Eff : Type :=
  | Processed (r : result (list Z) GpuError)
  | GpuProcessed (reply : nat) (r : result unit GpuError)
  | Updated (r : result unit GpuError)
  | TellCudnn (m : CudnnMsg).

(** [u32 as i32] *)
Definition as_i32 (x : nat) : Z := (wrap 32 (Z.of_nat x + 2 ^ 31) - 2 ^ 31)%Z.

Definition conv_request (c : ImageFilterConfig) (input weights output : GpuRef) (reply : nat) : ConvForwardRequest :=
  let n := 1%Z in let ch := as_i32 (channels c) in let h := as_i32 (height c) in let w := as_i32 (width c) in
  {| lc_x := input; lc_x_dims := [n; ch; h; w]; lc_w := weights; lc_w_dims := [ch; ch; 3; 3]%Z;
     lc_y := output; lc_y_dims := [n; ch; h; w];
     lc_conv := {| c_pad := (1, 1); c_stride := (1, 1); c_dilation := (1, 1) |}%Z;
     lc_alpha := 1; lc_beta := 0; lc_reply := reply |}%Z.

Definition no_cudnn : GpuError :=
  Unrecoverable "ProcessGpu: pipeline constructed without a CudnnActor; call ImageFilterPipeline::props_with_cudnn".

Definition handle_frame (m : ImageFilterMsg) (s : ImageFilterPipeline) : option (ImageFilterPipeline * list Eff) :=
  match m with
  | Process frame => r ← convolve (config s) frame; Some (s, [Processed r])
  | ProcessGpu input weights output reply =>
    Some (s, [if cudnn s then TellCudnn (ConvForward (conv_request (config s) input weights output reply))
              else GpuProcessed reply (Err no_cudnn)])
  | UpdateKernel kernel =>
    if negb (length kernel =? 9) then Some (s, [Updated (Err (Unrecoverable "UpdateKernel: kernel must be length 9"))])
    else
      let c := {| width := width (config s); height := height (config s); channels := channels (config s);
                  kernel_3x3 := kernel |} in
      Some ({| config := c; cudnn := cudnn s |}, [Updated (Ok ())])
  end.

(** A kernel of nine weights stays one of nine, so the filter's second error is only a
    configuration's. *)
Lemma kernel_kept m s s' es :
  handle_frame m s = Some (s', es) → length (kernel_3x3 (config s)) = 9 → length (kernel_3x3 (config s')) = 9.
Proof.
  destruct m as [frame| |kernel]; cbn; [destruct (convolve _ _); [|done]| |];
    [by intros [= <- _]|by intros [= <- _]|].
  destruct (Nat.eqb_spec (length kernel) 9); by intros [= <- _].
Qed.

(** The path through cuDNN fails whatever it is given: without the actor the pipeline
    refuses, and with it the actor answers that the request it is sent is deprecated. *)
Lemma gpu_path_fails {C} `{!LruOps PlanCacheKey CachedPlan C} s input weights output reply
    (inner : CudnnInner C) (g : Gpu) :
  ∃ e, handle_frame (ProcessGpu input weights output reply) s = Some (s, [e]) ∧
    ((∃ err, e = GpuProcessed reply (Err err)) ∨
     ∃ m err, e = TellCudnn m ∧ exec (cudnn_handle m) (inner, g) = ((inner, g), [Reply reply (Err err)])).
Proof.
  cbn. eexists. split; [done|]. destruct (cudnn s); [right|left; by eexists].
  destruct inner; eexists _, _; (split; [done|]); rewrite cudnn_outcome; reflexivity.
Qed.
End ImageFilter.

(** ** Passes and effects *)

Module Passes.

(** A client's function: a pass makes a number of a frame, an effect a frame. *)
Abbreviation Pass := (list f32 → result f32 GpuError).
Abbreviation Effect := (list Z → result (list Z) GpuError).

(** The loop of [Analyze]: every pass sees the frame, and the first error ends it. *)
Fixpoint analyze (passes : list Pass) (frame : list f32) : result (list f32) GpuError :=
  match passes with
  | [] => Ok []
  | p :: passes =>
    match p frame with
    | Ok v => match analyze passes frame with Ok vs => Ok (v :: vs) | Err e => Err e end
    | Err e => Err e
    end
  end.

(** The loop of [ProcessFrame]: every effect sees what the one before it made. *)
Fixpoint process_frame (effects : list Effect) (current : list Z) : result (list Z) GpuError :=
  match effects with
  | [] => Ok current
  | e :: effects => match e current with Ok next => process_frame effects next | Err err => Err err end
  end.

Inductive VideoEffectsMsg : Type :=
  | ProcessFrame (frame : list Z)
  | UpdateEffects (effects : list Effect).
Inductive VideoReply : Type :=
  | FrameIs (r : result (list Z) GpuError)
  | EffectsSet.
(** The state is the chain of effects. *)
Definition handle_video (m : VideoEffectsMsg) (effects : list Effect) : list Effect * VideoReply :=
  match m with
  | ProcessFrame frame => (effects, FrameIs (process_frame effects frame))
  | UpdateEffects new => (new, EffectsSet)
  end.

(** An analysis gives the number of each pass, or the error of the first that fails. *)
Lemma analyze_spec passes frame :
  match analyze passes frame with
  | Ok vs => Forall2 (λ p v, p frame = Ok v) passes vs
  | Err e => ∃ before p after, passes = before ++ p :: after ∧ p frame = Err e ∧
      Forall (λ q : Pass, is_ok (q frame) = true) before
  end.
Proof.
  induction passes as [|p passes IH]; [constructor|]. cbn. destruct (p frame) as [v|e] eqn:Hp.
  - destruct (analyze passes frame) as [vs|e]; [by constructor|].
    destruct IH as (b & q & a & -> & Hq & Hb). exists (p :: b), q, a. split_and!; [done|done|].
    constructor; [by rewrite Hp|done].
  - exists [], p, passes. split_and!; [done|done|constructor].
Qed.

(** Chains compose, and stop at the first error. *)
Lemma process_frame_app e1 e2 f :
  process_frame (e1 ++ e2) f = match process_frame e1 f with Ok g => process_frame e2 g | Err e => Err e end.
Proof. revert f. induction e1 as [|e e1 IH]; intros f; [done|]. cbn. by destruct (e f). Qed.

Example chain :
  process_frame [λ f, Ok ((λ x, 255 - x)%Z <$> f); λ f, Ok ((λ x, x / 2)%Z <$> f)] [100; 200]%Z = Ok [77; 27]%Z.
Proof. reflexivity. Qed.
End Passes.
