(* ===== verification/Simulation.v ===== *)
(** * Real-time simulations

    Models the particle system ([particle.rs]), the cloth ([cloth.rs]) and the smoke
    grid ([fluid.rs]) of [crates/atomr-accel-cuda-realtime/src], in the arithmetic of
    [f32].  [None] is a panic. *)

From Stdlib Require Import Floats.SpecFloat.
From S2P Require Import Prelude Actor Errors Float64.

Record Vec3 := { x : f32; y : f32; z : f32 }.
Definition ZERO : Vec3 := {| x := f32_zero; y := f32_zero; z := f32_zero |}.
(** The same operation on the three axes. *)
Definition map2 (f : f32 → f32 → f32) (a b : Vec3) : Vec3 :=
  {| x := f (x a) (x b); y := f (y a) (y b); z := f (z a) (z b) |}.
Definition scale (k : f32) (a : Vec3) : Vec3 := {| x := f32_mul (x a) k; y := f32_mul (y a) k; z := f32_mul (z a) k |}.

(** ** Particles *)

Module Particles.

Record Particle := { position : Vec3; velocity : Vec3 }.
Record ParticleSystemConfig := { gravity : Vec3; drag : f32; bounds : option (Vec3 * Vec3); bounce : f32 }.
Definition default_config : ParticleSystemConfig :=
  {| gravity := {| x := f32_zero; y := f32_ratio (-98) 10; z := f32_zero |}; drag := f32_zero;
     bounds := None; bounce := f32_ratio 1 2 |}.

Record ParticleSystemActor := { cfg : ParticleSystemConfig; particles : list Particle }.

(** [clamp_axis]: the position and the velocity of one axis. *)
Definition clamp_axis (p v lo hi bounce : f32) : f32 * f32 :=
  if f32_ltb p lo then (lo, f32_mul (f32_neg v) bounce)
  else if f32_ltb hi p then (hi, f32_mul (f32_neg v) bounce)
  else (p, v).

Definition clamp_particle (lo hi : Vec3) (bounce : f32) (p : Particle) : Particle :=
  let cx := clamp_axis (x (position p)) (x (velocity p)) (x lo) (x hi) bounce in
  let cy := clamp_axis (y (position p)) (y (velocity p)) (y lo) (y hi) bounce in
  let cz := clamp_axis (z (position p)) (z (velocity p)) (z lo) (z hi) bounce in
  {| position := {| x := cx.1; y := cy.1; z := cz.1 |}; velocity := {| x := cx.2; y := cy.2; z := cz.2 |} |}.

(** The body of the loop of [step]. *)
Definition advance (c : ParticleSystemConfig) (dt : f32) (p : Particle) : Particle :=
  let v := map2 f32_add (velocity p) (scale dt (gravity c)) in
  let v := if f32_ltb f32_zero (drag c) then scale (f32_sub (f32_of_Z 1) (drag c)) v else v in
  let q := {| position := map2 f32_add (position p) (scale dt v); velocity := v |} in
  match bounds c with
  | Some (lo, hi) => clamp_particle lo hi (bounce c) q
  | None => q
  end.

Definition step (dt : f32) (s : ParticleSystemActor) : ParticleSystemActor :=
  {| cfg := cfg s; particles := advance (cfg s) dt <$> particles s |}.

Inductive ParticleMsg : Type :=
  | Reset (ps : list Particle)
  | Step (dt : f32)
  | Snapshot
  | UpdateConfig (c : ParticleSystemConfig).
Inductive Reply : Type :=
  | Previous (n : nat)
  | Stepped (r : result nat GpuError)
  | State (ps : list Particle)
  | Configured.

Definition handle (m : ParticleMsg) (s : ParticleSystemActor) : ParticleSystemActor * Reply :=
  match m with
  | Reset ps => ({| cfg := cfg s; particles := ps |}, Previous (length (particles s)))
  | Step dt => let s' := step dt s in (s', Stepped (Ok (length (particles s'))))
  | Snapshot => (s, State (particles s))
  | UpdateConfig c => ({| cfg := c; particles := particles s |}, Configured)
  end.

(** *** The box *)

(** Not outside of an interval; a NaN is on neither side. *)
Definition inside (lo hi p : f32) : Prop := f32_ltb p lo = false ∧ f32_ltb hi p = false.
Definition inside_box (lo hi p : Vec3) : Prop :=
  inside (x lo) (x hi) (x p) ∧ inside (y lo) (y hi) (y p) ∧ inside (z lo) (z hi) (z p).
(** The box is not inside out. *)
Definition proper (lo hi : Vec3) : Prop :=
  f32_ltb (x hi) (x lo) = false ∧ f32_ltb (y hi) (y lo) = false ∧ f32_ltb (z hi) (z lo) = false.

Lemma clamp_axis_inside p v lo hi bounce :
  f32_ltb hi lo = false → inside lo hi (clamp_axis p v lo hi bounce).1.
Proof.
  intros Hb. unfold clamp_axis, inside. destruct (f32_ltb p lo) eqn:Hl; [split; [apply f64_ltb_irrefl|done]|].
  destruct (f32_ltb hi p) eqn:Hh; split; (apply f64_ltb_irrefl || done).
Qed.

(** An axis within its bounds is left alone; on one that is not, the velocity is
    reversed and scaled. *)
Lemma clamp_axis_velocity p v lo hi bounce :
  (inside lo hi p → clamp_axis p v lo hi bounce = (p, v)) ∧
  (¬ inside lo hi p → (clamp_axis p v lo hi bounce).2 = f32_mul (f32_neg v) bounce).
Proof.
  unfold clamp_axis, inside. split.
  - by intros [-> ->].
  - destruct (f32_ltb p lo); [done|]. destruct (f32_ltb hi p); [done|]. naive_solver.
Qed.

(** The bounds: after a step no particle is outside of a box that is not inside
    out, none is lost, and between steps a snapshot shows what the step left. *)
Theorem particles_in_bounds s dt lo hi :
  bounds (cfg s) = Some (lo, hi) → proper lo hi →
  let '(s', r) := handle (Step dt) s in
  r = Stepped (Ok (length (particles s))) ∧ cfg s' = cfg s ∧
  Forall (λ p, inside_box lo hi (position p)) (particles s') ∧
  handle Snapshot s' = (s', State (particles s')).
Proof.
  intros Hb (Hx & Hy & Hz). cbn. rewrite length_fmap. split_and!; [done|done| |done].
  rewrite Forall_fmap, Forall_forall. intros p _. unfold compose, advance. rewrite Hb.
  split_and!; by apply clamp_axis_inside.
Qed.

Definition unit_box : Vec3 * Vec3 := (ZERO, {| x := f32_of_Z 1; y := f32_of_Z 1; z := f32_of_Z 1 |}).
Definition falling : ParticleSystemActor :=
  {| cfg := {| gravity := gravity default_config; drag := f32_zero; bounds := Some unit_box; bounce := f32_ratio 1 2 |};
     particles := [{| position := ZERO; velocity := ZERO |}] |}.
Lemma particles_in_bounds_witness :
  Forall (λ p, inside_box unit_box.1 unit_box.2 (position p)) (particles (handle (Step (f32_of_Z 1)) falling).1).
Proof.
  destruct (particles_in_bounds falling (f32_of_Z 1) unit_box.1 unit_box.2) as (_ & _ & H & _);
    [reflexivity|split_and!; reflexivity|exact H].
Defined.

(** A particle that falls through the floor bounces. *)
Example bounces :
  let '(s', _) := handle (Step (f32_of_Z 1)) falling in
  particles s' = [{| position := {| x := f32_zero; y := f32_zero; z := f32_zero |};
                     velocity := {| x := f32_zero; y := f32_ratio 49 10; z := f32_zero |} |}].
Proof. run. Qed.

(** The position advances by the new velocity: a fall of one second from rest under an
    acceleration of 2 is 2 long, where [v * dt + 0.5 * a * dt^2] is 1. *)
Example semi_implicit :
  let c := {| gravity := {| x := f32_of_Z 2; y := f32_zero; z := f32_zero |}; drag := f32_zero; bounds := None; bounce := f32_zero |} in
  x (position (advance c (f32_of_Z 1) {| position := ZERO; velocity := ZERO |})) = f32_of_Z 2.
Proof. run. Qed.
End Particles.

(** ** Cloth *)

Module Cloth.

Record ClothConfig := {
  width : nat;
  height : nat;
  spacing : f32;
  gravity : Vec3;
  pinned : list bool;
  stiffness : f32;
  iterations : nat;
}.
Record ClothSimulationActor := { cfg : ClothConfig; pos : list Vec3; prev : list Vec3 }.

Definition grid (c : ClothConfig) : list Vec3 :=
  j ← seq 0 (height c); i ← seq 0 (width c);
  [{| x := f32_mul (f32_of_Z (Z.of_nat i)) (spacing c); y := f32_mul (f32_of_Z (Z.of_nat j)) (spacing c); z := f32_zero |}].
Definition props (c : ClothConfig) : ClothSimulationActor := {| cfg := c; pos := grid c; prev := grid c |}.

(** [pinned.get(i).copied().unwrap_or(false)] *)
Definition is_pinned (c : ClothConfig) (i : nat) : bool := default false (pinned c !! i).

(** [2.0 * x - x_prev + g * dt2] *)
Definition verlet (g : Vec3) (dt2 : f32) (p pp : Vec3) : Vec3 :=
  map2 f32_add (map2 f32_sub (map2 (λ a _, f32_mul (f32_of_Z 2) a) p p) pp) (scale dt2 g).
Definition integrate_one (dt2 : f32) (s : ClothSimulationActor) (i : nat) : option ClothSimulationActor :=
  if is_pinned (cfg s) i then Some s
  else
    p ← pos s !! i;
    pp ← prev s !! i;
    Some {| cfg := cfg s; pos := <[i := verlet (gravity (cfg s)) dt2 p pp]> (pos s); prev := <[i := p]> (prev s) |}.

(** [constrain]: both ends of a spring move half of the way, unless pinned. *)
Definition constrain (rest stiff : f32) (s : ClothSimulationActor) (ab : nat * nat) : option ClothSimulationActor :=
  pa ← pos s !! ab.1;
  pb ← pos s !! ab.2;
  let d3 := map2 f32_sub pb pa in
  let sq := map2 f32_mul d3 d3 in
  let d := f32_max (f32_sqrt (f32_add (f32_add (x sq) (y sq)) (z sq))) (f32_ratio 1 100000000) in
  let diff := f32_mul (f32_mul (f32_div (f32_sub d rest) d) stiff) (f32_ratio 1 2) in
  let off := scale diff d3 in
  let move (i : nat) (f : f32 → f32 → f32) (l : list Vec3) : list Vec3 :=
    if is_pinned (cfg s) i then l else alter (λ p, map2 f p off) i l in
  Some {| cfg := cfg s; pos := move ab.2 f32_sub (move ab.1 f32_add (pos s)); prev := prev s |}.

(** [0..n - 1] of a [usize], which wraps at zero. *)
Definition range_pred (n : nat) : list nat := seq 0 (Z.to_nat (wrap 64 (Z.of_nat n - 1))).
Definition springs (w h : nat) : list (nat * nat) :=
  (j ← seq 0 h; i ← range_pred w; [(j * w + i, j * w + (i + 1))]) ++
  (j ← range_pred h; i ← seq 0 w; [(j * w + i, (j + 1) * w + i)]).

Definition fold_panic {A B} (f : A → B → option A) (a : A) (l : list B) : option A :=
  foldl (λ a b, a ← a; f a b) (Some a) l.

Definition step (dt : f32) (s : ClothSimulationActor) : option ClothSimulationActor :=
  let dt2 := f32_mul dt dt in
  s1 ← fold_panic (integrate_one dt2) s (seq 0 (length (pos s)));
  stiff ← f32_clamp (stiffness (cfg s)) f32_zero (f32_of_Z 1);
  fold_panic (λ s _, fold_panic (constrain (spacing (cfg s)) stiff) s (springs (width (cfg s)) (height (cfg s))))
    s1 (seq 0 (iterations (cfg s))).

Inductive ClothMsg : Type := Reset | Step (dt : f32) | Snapshot.
Inductive Reply : Type :=
  | WasReset
  | Stepped (r : result unit GpuError)
  | Positions (ps : list Vec3).
Definition handle (m : ClothMsg) (s : ClothSimulationActor) : option (ClothSimulationActor * Reply) :=
  match m with
  | Reset => Some (props (cfg s), WasReset)
  | Step dt => s' ← step dt s; Some (s', Stepped (Ok ()))
  | Snapshot => Some (s, Positions (pos s))
  end.

(** *** Pinned nodes *)

(** The actor has its nodes, and the pinned ones are where the grid has them. *)
Definition held (c : ClothConfig) (s : ClothSimulationActor) : Prop :=
  cfg s = c ∧ length (pos s) = width c * height c ∧ length (prev s) = width c * height c ∧
  ∀ i, is_pinned c i = true → pos s !! i = grid c !! i.

Lemma fold_panic_inv {A B} (f : A → B → option A) (I : A → Prop) a l :
  I a → (∀ a b, b ∈ l → I a → ∃ a', f a b = Some a' ∧ I a') → ∃ a', fold_panic f a l = Some a' ∧ I a'.
Proof.
  unfold fold_panic. revert a. induction l as [|b l IH]; intros a Ha Hf; [by exists a|]. cbn.
  destruct (Hf a b) as (a' & -> & Ha'); [by left|done|]. apply IH; [done|]. intros. apply Hf; [by right|done].
Qed.

Lemma fold_panic_none {A B} (f : A → B → option A) (a : A) b l : f a b = None → fold_panic f a (b :: l) = None.
Proof. intros Hf. unfold fold_panic. cbn. rewrite Hf. by induction l. Qed.

Lemma grid_length c : length (grid c) = width c * height c.
Proof.
  assert (Hrow : ∀ (f : nat → Vec3) k, length (i ← k; [f i]) = length k).
  { intros f k. induction k as [|i k IH]; [done|]. by rewrite bind_cons, length_app, IH. }
  assert (Hg : ∀ l, length (j ← l; i ← seq 0 (width c);
    [{| x := f32_mul (f32_of_Z (Z.of_nat i)) (spacing c); y := f32_mul (f32_of_Z (Z.of_nat j)) (spacing c); z := f32_zero |}]) =
    width c * length l).
  { induction l as [|j l IH]; [cbn; lia|]. rewrite bind_cons, length_app, IH, Hrow, length_seq. cbn. lia. }
  unfold grid. by rewrite Hg, length_seq.
Qed.

Lemma props_held c : held c (props c).
Proof. split_and!; [done|apply grid_length|apply grid_length|done]. Qed.

Lemma integrate_held c dt2 s i :
  i < width c * height c → held c s → ∃ s', integrate_one dt2 s i = Some s' ∧ held c s'.
Proof.
  intros Hi (Hc & Hp & Hv & Hpin). unfold integrate_one. rewrite Hc. destruct (is_pinned c i) eqn:Hpi; [by exists s|].
  destruct (lookup_lt_is_Some_2 (pos s) i) as [p ->]; [lia|].
  destruct (lookup_lt_is_Some_2 (prev s) i) as [pp ->]; [lia|]. eexists. split; [done|].
  split_and!; cbn; rewrite ?length_insert; [done|done|done|]. intros j Hj.
  rewrite list_lookup_insert_ne; [by apply Hpin|]. intros ->. congruence.
Qed.

Lemma move_pinned c i (f : Vec3 → Vec3) (l : list Vec3) j :
  is_pinned c j = true → (if is_pinned c i then l else alter f i l) !! j = l !! j.
Proof.
  intros Hj. destruct (is_pinned c i) eqn:Hi; [done|]. apply list_lookup_alter_ne. intros ->. congruence.
Qed.
Lemma move_length c i (f : Vec3 → Vec3) (l : list Vec3) : length (if is_pinned c i then l else alter f i l) = length l.
Proof. destruct (is_pinned c i); [done|]. apply length_alter. Qed.

Lemma constrain_held c rest stiff s ab :
  ab.1 < width c * height c → ab.2 < width c * height c → held c s →
  ∃ s', constrain rest stiff s ab = Some s' ∧ held c s'.
Proof.
  intros Ha Hb (Hc & Hp & Hv & Hpin). unfold constrain.
  destruct (lookup_lt_is_Some_2 (pos s) ab.1) as [pa ->]; [lia|].
  destruct (lookup_lt_is_Some_2 (pos s) ab.2) as [pb ->]; [lia|]. cbn [mbind option_bind]. eexists. split; [done|].
  split_and!; cbn [cfg pos prev]; rewrite ?Hc, ?move_length; [done|done|done|]. intros j Hj.
  rewrite !move_pinned by done. by apply Hpin.
Qed.

(** The springs join nodes of the grid, when it has any. *)
Lemma springs_in_grid w h ab :
  0 < w → 0 < h → (Z.of_nat (w * h) < 2 ^ 64)%Z → ab ∈ springs w h → ab.1 < w * h ∧ ab.2 < w * h.
Proof.
  intros Hw Hh Hwh. unfold springs, range_pred.
  rewrite !wrap_small by (unfold in_width; nia).
  replace (Z.to_nat (Z.of_nat w - 1)) with (w - 1) by lia. replace (Z.to_nat (Z.of_nat h - 1)) with (h - 1) by lia.
  rewrite elem_of_app, !list_elem_of_bind. setoid_rewrite list_elem_of_bind. setoid_rewrite elem_of_seq.
  intros [(j & (i & ->%list_elem_of_singleton & Hi) & Hj)|(j & (i & ->%list_elem_of_singleton & Hi) & Hj)]; cbn; nia.
Qed.

Lemma step_held c dt s :
  0 < width c → 0 < height c → (Z.of_nat (width c * height c) < 2 ^ 64)%Z → held c s →
  ∃ s', step dt s = Some s' ∧ held c s'.
Proof.
  intros Hw Hh Hwh Hs. unfold step.
  destruct (fold_panic_inv (integrate_one (f32_mul dt dt)) (held c) s (seq 0 (length (pos s))) Hs) as (s1 & -> & Hs1).
  { intros a i Hi%elem_of_seq. apply integrate_held. destruct Hs as (_ & Hl & _). lia. }
  cbn [mbind option_bind]. change (f32_clamp ?a f32_zero (f32_of_Z 1)) with
    (Some (if f32_ltb a f32_zero then f32_zero else if f32_ltb (f32_of_Z 1) a then f32_of_Z 1 else a)).
  cbn [mbind option_bind]. apply fold_panic_inv; [done|]. intros a _ _ Ha. pose proof Ha as (Hc & _). rewrite Hc.
  apply fold_panic_inv; [done|]. intros b ab Hab. apply springs_in_grid in Hab as [? ?]; [|done..].
  by apply constrain_held.
Qed.

(** The mailbox of an actor made by [props]. *)
Definition run_cloth (c : ClothConfig) (ms : list ClothMsg) : option ClothSimulationActor :=
  fold_panic (λ s m, fst <$> handle m s) (props c) ms.

(** C37 (pinned nodes): on a grid with nodes, whatever it is sent, the actor never
    panics and keeps all its nodes, and a pinned one stays where the grid put it. *)
Theorem cloth_pinned c ms :
  0 < width c → 0 < height c → (Z.of_nat (width c * height c) < 2 ^ 64)%Z →
  ∃ s, run_cloth c ms = Some s ∧ length (pos s) = width c * height c ∧
    ∀ i, is_pinned c i = true → pos s !! i = grid c !! i.
Proof.
  intros Hw Hh Hwh. destruct (fold_panic_inv (λ s m, fst <$> handle m s) (held c) (props c) ms) as (s & Hr & Hs).
  - apply props_held.
  - intros s m _ Hs. destruct m as [|dt|]; cbn.
    + eexists. split; [done|]. destruct Hs as [-> _]. apply props_held.
    + destruct (step_held c dt s Hw Hh Hwh Hs) as (s' & -> & Hs'). by exists s'.
    + by exists s.
  - exists s. destruct Hs as (_ & Hl & _ & Hp). done.
Qed.

Definition banner : ClothConfig :=
  {| width := 2; height := 2; spacing := f32_of_Z 1; gravity := {| x := f32_zero; y := f32_of_Z (-10); z := f32_zero |};
     pinned := [true; false]; stiffness := f32_of_Z 1; iterations := 1 |}.
Lemma cloth_pinned_witness : ∃ s, run_cloth banner [Step (f32_ratio 1 10); Snapshot; Step (f32_ratio 1 10)] = Some s ∧
  pos s !! 0 = grid banner !! 0.
Proof.
  destruct (cloth_pinned banner [Step (f32_ratio 1 10); Snapshot; Step (f32_ratio 1 10)]) as (s & Hr & _ & Hp);
    [cbn; lia|cbn; lia|done|]. exists s. split; [exact Hr|]. by apply Hp.
Defined.

(** A node that is not pinned falls. *)
Example banner_falls :
  (λ s, (y <$> pos s !! 0, f32_ltb (default f32_zero (y <$> pos s !! 1)) f32_zero)) <$>
    run_cloth banner [Step (f32_ratio 1 10)] = Some (Some f32_zero, true).
Proof. run. Qed.

Lemma range_pred_zero : ∃ l, range_pred 0 = 0 :: l.
Proof.
  unfold range_pred. destruct (Z.to_nat (wrap 64 (Z.of_nat 0 - 1))) as [|n] eqn:Hn; [|by eexists].
  exfalso. assert (Hz : (wrap 64 (Z.of_nat 0 - 1) = 2 ^ 64 - 1)%Z) by reflexivity. rewrite Hz in Hn. lia.
Qed.

(** A grid with no columns or no rows, but not neither, has no node and yet springs: a
    step with iterations panics. *)
Lemma empty_grid_panics c dt :
  (width c = 0 ∧ 0 < height c) ∨ (0 < width c ∧ height c = 0) → 0 < iterations c → step dt (props c) = None.
Proof.
  intros Hd Hi. destruct range_pred_zero as [l Hl].
  assert (Hn : pos (props c) = []).
  { apply nil_length_inv. cbn [pos props]. rewrite grid_length. destruct Hd as [[-> _]|[_ ->]]; lia. }
  assert (Hs : ∃ ab rest, springs (width c) (height c) = ab :: rest).
  { unfold springs. destruct Hd as [[-> Hh]|[Hw ->]].
    - destruct (height c) as [|h]; [lia|]. cbn [seq]. rewrite bind_cons, Hl, bind_cons. by eexists _, _.
    - destruct (width c) as [|w]; [lia|]. rewrite Hl, bind_cons. cbn [seq mbind list_bind]. by eexists _, _. }
  destruct Hs as (ab & rest & Hs). unfold step. rewrite Hn. cbn [length seq fold_panic foldl mbind option_bind].
  unfold fold_panic at 1. cbn [foldl mbind option_bind].
  change (f32_clamp ?a f32_zero (f32_of_Z 1)) with
    (Some (if f32_ltb a f32_zero then f32_zero else if f32_ltb (f32_of_Z 1) a then f32_of_Z 1 else a)).
  cbn [mbind option_bind cfg props]. destruct (iterations c) as [|n]; [lia|]. cbn [seq].
  apply fold_panic_none. cbn [cfg props]. rewrite Hs. apply fold_panic_none. unfold constrain.
  change (pos _) with (pos (props c)). by rewrite Hn.
Qed.
End Cloth.

(** ** Smoke *)

Module Fluid.

Record FluidConfig := { width : nat; height : nat; viscosity : f32 }.
Record FluidSimulationActor := { cfg : FluidConfig; density : list f32; vx : list f32; vy : list f32 }.

Definition props (c : FluidConfig) : FluidSimulationActor :=
  let n := width c * height c in
  {| cfg := c; density := replicate n f32_zero; vx := replicate n f32_zero; vy := replicate n f32_zero |}.

Definition idx (c : FluidConfig) (x y : nat) : nat := y * width c + x.
Definition USIZE_MAX : Z := (2 ^ 64 - 1)%Z.
Definition of_nat (n : nat) : f32 := f32_of_Z (Z.of_nat n).
Definition one : f32 := f32_of_Z 1.

(** [a * (1.0 - f) + b * f] *)
Definition lerp (a b f : f32) : f32 := f32_add (f32_mul a (f32_sub one f)) (f32_mul b f).

Definition sample (c : FluidConfig) (field : list f32) (x y : f32) : option f32 :=
  cx ← f32_clamp x f32_zero (f32_sub (of_nat (width c)) (f32_ratio 1001 1000));
  cy ← f32_clamp y f32_zero (f32_sub (of_nat (height c)) (f32_ratio 1001 1000));
  let x0 := Z.to_nat (f32_floor_as 0 USIZE_MAX cx) in
  let y0 := Z.to_nat (f32_floor_as 0 USIZE_MAX cy) in
  let fx := f32_sub cx (of_nat x0) in
  let fy := f32_sub cy (of_nat y0) in
  s00 ← field !! idx c x0 y0;
  s10 ← field !! idx c (x0 + 1) y0;
  s01 ← field !! idx c x0 (y0 + 1);
  s11 ← field !! idx c (x0 + 1) (y0 + 1);
  Some (lerp (lerp s00 s10 fx) (lerp s01 s11 fx) fy).

(** The new density of a cell. *)
Definition advect (dt : f32) (s : FluidSimulationActor) (p : nat * nat) : option f32 :=
  let '(x, y) := p in
  let i := idx (cfg s) x y in
  u ← vx s !! i;
  v ← vy s !! i;
  sample (cfg s) (density s) (f32_sub (of_nat x) (f32_mul u dt)) (f32_sub (of_nat y) (f32_mul v dt)).

(** The cells in the order of the loops, which is that of the fields. *)
Definition cells (c : FluidConfig) : list (nat * nat) := y ← seq 0 (height c); x ← seq 0 (width c); [(x, y)].

Definition step (dt : f32) (s : FluidSimulationActor) : option FluidSimulationActor :=
  d ← mapM (advect dt s) (cells (cfg s));
  let decay := f32_max (f32_sub one (f32_mul (viscosity (cfg s)) dt)) f32_zero in
  Some {| cfg := cfg s; density := d; vx := (λ v, f32_mul v decay) <$> vx s; vy := (λ v, f32_mul v decay) <$> vy s |}.

Inductive FluidMsg : Type :=
  | AddDensity (x y : nat) (amount : f32)
  | AddVelocity (x y : nat) (ax ay : f32)
  | Step (dt : f32)
  | SnapshotDensity.
Inductive Reply : Type :=
  | Added
  | Stepped (r : result unit GpuError)
  | Densities (d : list f32).

(** [field\[i\] += amount] *)
Definition add_at (i : nat) (amount : f32) (field : list f32) : option (list f32) :=
  v ← field !! i; Some (<[i := f32_add v amount]> field).
Definition in_grid (c : FluidConfig) (x y : nat) : bool := (x <? width c) && (y <? height c).

Definition handle (m : FluidMsg) (s : FluidSimulationActor) : option (FluidSimulationActor * Reply) :=
  match m with
  | AddDensity x y amount =>
    if in_grid (cfg s) x y then
      d ← add_at (idx (cfg s) x y) amount (density s);
      Some ({| cfg := cfg s; density := d; vx := vx s; vy := vy s |}, Added)
    else Some (s, Added)
  | AddVelocity x y ax ay =>
    if in_grid (cfg s) x y then
      u ← add_at (idx (cfg s) x y) ax (vx s);
      v ← add_at (idx (cfg s) x y) ay (vy s);
      Some ({| cfg := cfg s; density := density s; vx := u; vy := v |}, Added)
    else Some (s, Added)
  | Step dt => s' ← step dt s; Some (s', Stepped (Ok ()))
  | SnapshotDensity => Some (s, Densities (density s))
  end.

(** *** The fields *)

Definition sized (s : FluidSimulationActor) : Prop :=
  let n := width (cfg s) * height (cfg s) in length (density s) = n ∧ length (vx s) = n ∧ length (vy s) = n.

Lemma cells_length c : length (cells c) = width c * height c.
Proof.
  assert (Hg : (λ p, p.2 * width c + p.1) <$> cells c = seq 0 (height c * width c)).
  { rewrite <-seq_grid. unfold cells. rewrite fmap_bind. apply list_bind_ext; [intros y|done].
    rewrite fmap_bind. by induction (seq 0 (width c)) as [|x l IH]; [|cbn; f_equal]. }
  rewrite <-(length_fmap (λ p, p.2 * width c + p.1)), Hg, length_seq. lia.
Qed.

Lemma add_at_in i amount field : i < length field →
  ∃ field', add_at i amount field = Some field' ∧ length field' = length field.
Proof.
  intros Hi. unfold add_at. destruct (lookup_lt_is_Some_2 field i Hi) as [v ->].
  eexists. split; [done|]. apply length_insert.
Qed.

(** A message leaves the fields their size, and adding anywhere is safe. *)
Lemma handle_sized m s s' r : sized s → handle m s = Some (s', r) → sized s' ∧ cfg s' = cfg s.
Proof.
  intros (Hd & Hx & Hy). destruct m as [x y a|x y ax ay|dt|]; cbn; unfold in_grid, step, sized.
  1, 2: destruct (Nat.ltb_spec x (width (cfg s))), (Nat.ltb_spec y (height (cfg s))); cbn [andb];
    try (by intros [= <- _]); unfold idx.
  - destruct (add_at_in (y * width (cfg s) + x) a (density s)) as (d & -> & Hl); [nia|]. cbn. intros [= <- _].
    cbn. by rewrite Hl.
  - destruct (add_at_in (y * width (cfg s) + x) ax (vx s)) as (u & -> & Hu); [nia|].
    destruct (add_at_in (y * width (cfg s) + x) ay (vy s)) as (v & -> & Hv); [nia|]. cbn. intros [= <- _].
    cbn. by rewrite Hu, Hv.
  - destruct (mapM _ _) as [d|] eqn:Hm; [|done]. intros [= <- _]. cbn. rewrite !length_fmap.
    apply mapM_Some, Forall2_length in Hm. by rewrite <-Hm, cells_length.
  - by intros [= <- _].
Qed.

Lemma adding_is_safe s x y a b : sized s →
  is_Some (handle (AddDensity x y a) s) ∧ is_Some (handle (AddVelocity x y a b) s).
Proof.
  intros (Hd & Hx & Hy). cbn. unfold in_grid, idx.
  destruct (Nat.ltb_spec x (width (cfg s))), (Nat.ltb_spec y (height (cfg s))); cbn [andb]; try (split; by eexists).
  destruct (add_at_in (y * width (cfg s) + x) a (density s)) as (d & -> & _); [nia|].
  destruct (add_at_in (y * width (cfg s) + x) a (vx s)) as (u & -> & _); [nia|].
  destruct (add_at_in (y * width (cfg s) + x) b (vy s)) as (v & -> & _); [nia|]. split; by eexists.
Qed.

(** On a grid one cell wide the upper bound of the clamp is negative: every step panics. *)
Lemma one_column_panics s dt : sized s → width (cfg s) = 1 → 0 < height (cfg s) → step dt s = None.
Proof.
  intros (Hd & Hx & Hy) Hw Hh. unfold step.
  assert (Hc : ∃ rest, cells (cfg s) = (0, 0) :: rest).
  { unfold cells. rewrite Hw. destruct (height (cfg s)) as [|h]; [lia|]. by eexists. }
  destruct Hc as [rest ->]. cbn [mapM].
  assert (Ha : advect dt s (0, 0) = None); [|by rewrite Ha].
  unfold advect. destruct (vx s !! _); [|done]. destruct (vy s !! _); [|done]. cbn [mbind option_bind].
  unfold sample. rewrite Hw. reflexivity.
Qed.

(** Past 32769 columns the bound [w - 1.001] rounds to [w - 1], and the lower right corner reads
    past the end of the field. *)
Lemma wide_grid_panics c field :
  Z.of_nat (width c) = 32770%Z → height c = 2 → length field = width c * height c →
  sample c field (f32_of_Z 32769) (f32_of_Z 1) = None.
Proof.
  intros Hw Hh Hl. unfold sample, of_nat. rewrite Hw, Hh.
  assert (Hx : f32_clamp (f32_of_Z 32769) f32_zero (f32_sub (f32_of_Z 32770) (f32_ratio 1001 1000)) = Some (f32_of_Z 32769))
    by (vm_compute; reflexivity).
  assert (Hy : f32_clamp (f32_of_Z 1) f32_zero (f32_sub (f32_of_Z (Z.of_nat 2)) (f32_ratio 1001 1000)) = Some (f32_sub (f32_of_Z 2) (f32_ratio 1001 1000)))
    by (vm_compute; reflexivity).
  assert (Hx0 : f32_floor_as 0 USIZE_MAX (f32_of_Z 32769) = 32769%Z) by (vm_compute; reflexivity).
  assert (Hy0 : f32_floor_as 0 USIZE_MAX (f32_sub (f32_of_Z 2) (f32_ratio 1001 1000)) = 0%Z) by (vm_compute; reflexivity).
  rewrite Hx, Hy. cbn [mbind option_bind]. rewrite Hx0, Hy0. clear Hx Hy Hx0 Hy0.
  assert (HX : Z.of_nat (Z.to_nat 32769) = 32769%Z) by lia. revert HX. generalize (Z.to_nat 32769) as x0. intros x0 HX.
  rewrite (lookup_ge_None_2 field (idx c (x0 + 1) (Z.to_nat 0 + 1))) by (unfold idx; nia).
  destruct (field !! idx c x0 (Z.to_nat 0)); [|reflexivity].
  destruct (field !! idx c (x0 + 1) (Z.to_nat 0)); [|reflexivity]. by destruct (field !! idx c x0 (Z.to_nat 0 + 1)).
Qed.

(** A still fluid: densities [1 .. 16] on a grid of four by four.  The cells inside keep
    theirs, and those of the last row and column drift towards their neighbours. *)
Definition still : FluidSimulationActor :=
  {| cfg := {| width := 4; height := 4; viscosity := f32_zero |}; density := f32_of_Z <$> seqZ 1 16;
     vx := replicate 16 f32_zero; vy := replicate 16 f32_zero |}.
Example still_inside :
  (λ s, [density s !! 0; density s !! 5; density s !! 10]) <$> step one still =
    Some [Some (f32_of_Z 1); Some (f32_of_Z 6); Some (f32_of_Z 11)].
Proof. run. Qed.
Example still_edge_drifts :
  (λ s, match density s !! 15 with Some v => f32_ltb v (f32_of_Z 16) | None => false end) <$> step one still = Some true.
Proof. run. Qed.
End Fluid.
