(* ===== verification/MockDevice.v ===== *)
(** * The mock device

    Models [crates/atomr-accel-patterns/src/mock.rs], the actor that stands for the
    kernel actors on a machine without a GPU: matrix product, 3×3 convolution, real
    Fourier transform and random numbers over host vectors, in the arithmetic of [f32].
    A dimension is a [nat], and the products the release build computes wrap at 64
    bits; [None] is a panic.  Allocations do not fail, and the sine and cosine of the
    C library are parameters. *)

From Stdlib Require Import Floats.SpecFloat.
From stdpp Require Import pretty.
From S2P Require Import Prelude Errors Float64.

(** [usize] products, sums and the subscripts they give. *)
Definition usz (n : nat) : Z := Z.of_nat n.
Definition at_ (v : list f32) (i : Z) : option f32 := v !! Z.to_nat i.

Lemma wmul_nat a b : (usz (a * b) < 2 ^ 64)%Z → usz a *₆₄ usz b = usz (a * b).
Proof. intros H. unfold wmul, usz in *. rewrite wrap_small by (unfold in_width; lia). lia. Qed.
Lemma wadd_nat a b : (usz (a + b) < 2 ^ 64)%Z → usz a +₆₄ usz b = usz (a + b).
Proof. intros H. unfold usz in *. rewrite wadd_small by (unfold in_width; lia). lia. Qed.
Lemma at_nat v i : at_ v (usz i) = v !! i.
Proof. unfold at_, usz. by rewrite Nat2Z.id. Qed.

Lemma subscript i j m n : (usz (m * n) < 2 ^ 64)%Z → i < m → j < n → (usz i *₆₄ usz n) +₆₄ usz j = usz (i * n + j).
Proof.
  intros Hf Hi Hj. rewrite wmul_nat by (unfold usz in *; nia). apply wadd_nat. unfold usz in *. nia.
Qed.

(** ** Matrix product *)

Record MockSgemm := { sg_a : list f32; sg_b : list f32; sg_m : nat; sg_n : nat; sg_k : nat }.

(** [acc += a[i * k + kk] * b[kk * n + j]] *)
Definition mul_add (r : MockSgemm) (i j : nat) (acc : option f32) (kk : nat) : option f32 :=
  s ← acc;
  x ← at_ (sg_a r) ((usz i *₆₄ usz (sg_k r)) +₆₄ usz kk);
  y ← at_ (sg_b r) ((usz kk *₆₄ usz (sg_n r)) +₆₄ usz j);
  Some (f32_add s (f32_mul x y)).
Definition entry (r : MockSgemm) (p : nat * nat) : option f32 :=
  foldl (mul_add r p.1 p.2) (Some f32_zero) (seq 0 (sg_k r)).
Definition cells (m n : nat) : list (nat * nat) := i ← seq 0 m; (λ j, (i, j)) <$> seq 0 n.

Definition sgemm (r : MockSgemm) : option (result (list f32) GpuError) :=
  let mk := usz (sg_m r) *₆₄ usz (sg_k r) in
  let kn := usz (sg_k r) *₆₄ usz (sg_n r) in
  if negb (usz (length (sg_a r)) =? mk)%Z then
    Some (Err (Unrecoverable ("MockSgemm: A len " +:+ pretty (length (sg_a r)) +:+ " != m*k " +:+ pretty mk)))
  else if negb (usz (length (sg_b r)) =? kn)%Z then
    Some (Err (Unrecoverable ("MockSgemm: B len " +:+ pretty (length (sg_b r)) +:+ " != k*n " +:+ pretty kn)))
  else
    Ok <$> foldl (λ c p, store_at c (Z.to_nat ((usz p.1 *₆₄ usz (sg_n r)) +₆₄ usz p.2)) (entry r p))
                 (Some (replicate (Z.to_nat (usz (sg_m r) *₆₄ usz (sg_n r))) f32_zero)) (cells (sg_m r) (sg_n r)).

(** The specification: row by column, in the order of [k]. *)
Definition dot (xs ys : list f32) : f32 := foldl (λ s p, f32_add s (f32_mul p.1 p.2)) f32_zero (zip xs ys).
Definition row (r : MockSgemm) (i : nat) : list f32 := take (sg_k r) (drop (i * sg_k r) (sg_a r)).
Definition column (r : MockSgemm) (j : nat) : list f32 :=
  (λ kk, default f32_zero (sg_b r !! (kk * sg_n r + j))) <$> seq 0 (sg_k r).

Lemma cells_index m n : (λ p, p.1 * n + p.2) <$> cells m n = seq 0 (m * n).
Proof.
  unfold cells. rewrite fmap_bind, <-seq_grid. apply list_bind_ext; [intros i|done]. by rewrite <-list_fmap_compose.
Qed.
Lemma cells_spec m n p : p ∈ cells m n ↔ p.1 < m ∧ p.2 < n.
Proof.
  destruct p as [i j]. unfold cells. rewrite list_elem_of_bind. cbn. split.
  - intros (i' & (j' & [= -> ->] & Hj)%list_elem_of_fmap & Hi). apply elem_of_seq in Hi, Hj. lia.
  - intros [Hi Hj]. exists i. split; [|apply elem_of_seq; lia]. apply list_elem_of_fmap_2, elem_of_seq. lia.
Qed.

Section sgemm.
Context (r : MockSgemm).
Hypothesis fits_a : (usz (sg_m r * sg_k r) < 2 ^ 64)%Z.
Hypothesis fits_b : (usz (sg_k r * sg_n r) < 2 ^ 64)%Z.
Hypothesis fits_c : (usz (sg_m r * sg_n r) < 2 ^ 64)%Z.
Hypothesis len_a : length (sg_a r) = sg_m r * sg_k r.
Hypothesis len_b : length (sg_b r) = sg_k r * sg_n r.

Lemma entry_dot i j : i < sg_m r → j < sg_n r → entry r (i, j) = Some (dot (row r i) (column r j)).
Proof using fits_a fits_b len_a len_b.
  clear fits_c. intros Hi Hj. unfold entry, dot, column. cbn [fst snd].
  assert (Hrow : row r i = (λ kk, default f32_zero (sg_a r !! (i * sg_k r + kk))) <$> seq 0 (sg_k r)).
  { apply list_eq. intros kk. unfold row. rewrite list_lookup_fmap. destruct (decide (kk < sg_k r)).
    - rewrite lookup_take_lt, lookup_drop, lookup_seq_lt by done. cbn.
      destruct (lookup_lt_is_Some_2 (sg_a r) (i * sg_k r + kk)) as [x ->]; [nia|done].
    - rewrite lookup_take_ge, lookup_seq_ge by lia. done. }
  rewrite Hrow. assert (Hall : ∀ l s, (∀ kk, kk ∈ l → kk < sg_k r) →
    foldl (mul_add r i j) (Some s) l = Some (foldl (λ s p, f32_add s (f32_mul p.1 p.2)) s
      (zip ((λ kk, default f32_zero (sg_a r !! (i * sg_k r + kk))) <$> l)
           ((λ kk, default f32_zero (sg_b r !! (kk * sg_n r + j))) <$> l)))).
  { induction l as [|kk l IH]; intros s Hle; [done|]. cbn [foldl fmap list_fmap zip zip_with].
    assert (Hkk : kk < sg_k r) by (apply Hle; by left). unfold mul_add at 2. cbn [mbind option_bind].
    rewrite (subscript i kk (sg_m r) (sg_k r)), (subscript kk j (sg_k r) (sg_n r)), !at_nat by done.
    destruct (lookup_lt_is_Some_2 (sg_a r) (i * sg_k r + kk)) as [x ->]; [nia|].
    destruct (lookup_lt_is_Some_2 (sg_b r) (kk * sg_n r + j)) as [y ->]; [nia|]. cbn [mbind option_bind default].
    apply IH. set_solver. }
  apply Hall. intros kk ?%elem_of_seq. lia.
Qed.

Lemma sgemm_values : sgemm r = Some (Ok ((λ p, dot (row r p.1) (column r p.2)) <$> cells (sg_m r) (sg_n r))).
Proof.
  unfold sgemm. rewrite !wmul_nat, len_a, len_b, !Z.eqb_refl by done. cbn [negb]. unfold usz at 3. rewrite Nat2Z.id.
  rewrite (store_loop _ _ (λ p, dot (row r p.1) (column r p.2))); [done| |].
  - intros [i j] [Hi Hj]%cells_spec. by apply entry_dot.
  - rewrite length_replicate, <-cells_index. apply list_fmap_ext. intros k [i j] Hp%list_elem_of_lookup_2.
    apply cells_spec in Hp as [Hi Hj]. cbn in *. rewrite (subscript _ _ (sg_m r)) by done. unfold usz. by rewrite Nat2Z.id.
Qed.
End sgemm.

(** A product is refused when a length differs from the product of its dimensions; otherwise
    entry [(i, j)] of the answer is the dot product of row [i] and column [j], and the
    request never panics. *)
Theorem sgemm_correct r :
  (usz (sg_m r * sg_k r) < 2 ^ 64)%Z → (usz (sg_k r * sg_n r) < 2 ^ 64)%Z → (usz (sg_m r * sg_n r) < 2 ^ 64)%Z →
  if decide (length (sg_a r) = sg_m r * sg_k r ∧ length (sg_b r) = sg_k r * sg_n r) then
    ∃ c, sgemm r = Some (Ok c) ∧ length c = sg_m r * sg_n r ∧
      ∀ i j, i < sg_m r → j < sg_n r → c !! (i * sg_n r + j) = Some (dot (row r i) (column r j))
  else ∃ msg, sgemm r = Some (Err (Unrecoverable msg)).
Proof.
  intros Ha Hb Hc. case_decide as Hd.
  - destruct Hd as [La Lb]. eexists. split; [by apply sgemm_values|].
    assert (Hlen : length (cells (sg_m r) (sg_n r)) = sg_m r * sg_n r).
    { by rewrite <-(length_fmap (λ p, p.1 * sg_n r + p.2)), cells_index, length_seq. }
    split; [by rewrite length_fmap|]. intros i j Hi Hj. rewrite list_lookup_fmap.
    assert (cells (sg_m r) (sg_n r) !! (i * sg_n r + j) = Some (i, j)) as ->; [|done].
    destruct (lookup_lt_is_Some_2 (cells (sg_m r) (sg_n r)) (i * sg_n r + j)) as [[i' j'] Hp]; [rewrite Hlen; nia|].
    rewrite Hp. pose proof (f_equal (.!! (i * sg_n r + j)) (cells_index (sg_m r) (sg_n r))) as He. cbn in He.
    rewrite list_lookup_fmap, Hp, lookup_seq_lt in He by nia. injection He as He.
    apply list_elem_of_lookup_2, cells_spec in Hp as [Hi' Hj']. cbn in *.
    assert (i' = i) by nia. subst. do 2 f_equal. lia.
  - unfold sgemm. rewrite !wmul_nat by done.
    destruct (Z.eqb_spec (usz (length (sg_a r))) (usz (sg_m r * sg_k r))) as [La|]; cbn; [|by eexists].
    destruct (Z.eqb_spec (usz (length (sg_b r))) (usz (sg_k r * sg_n r))) as [Lb|]; cbn; [|by eexists].
    unfold usz in *. lia.
Qed.

(** ** Convolution *)

Record MockConv := { cv_input : list f32; cv_n : nat; cv_c : nat; cv_h : nat; cv_w : nat; kernel_3x3 : list f32 }.

(** [((ni * c + ci) * h + y) * w + x] *)
Definition nchw (r : MockConv) (p : nat * nat) (y x : Z) : Z :=
  ((((usz p.1 *₆₄ usz (cv_c r)) +₆₄ usz p.2) *₆₄ usz (cv_h r)) +₆₄ y) *₆₄ usz (cv_w r) +₆₄ x.
Definition taps : list (nat * nat) := cells 3 3.
Definition tap_y (y : nat) (t : nat * nat) : Z := (Z.of_nat y + Z.of_nat t.1 - 1)%Z.
Definition tap_x (x : nat) (t : nat * nat) : Z := (Z.of_nat x + Z.of_nat t.2 - 1)%Z.
Definition outside (r : MockConv) (sy sx : Z) : bool :=
  (sy <? 0)%Z || (usz (cv_h r) <=? sy)%Z || (sx <? 0)%Z || (usz (cv_w r) <=? sx)%Z.

Definition add_tap (r : MockConv) (p : nat * nat) (y x : nat) (acc : option f32) (t : nat * nat) : option f32 :=
  s ← acc;
  let sy := tap_y y t in
  let sx := tap_x x t in
  if outside r sy sx then Some s
  else
    v ← at_ (cv_input r) (nchw r p sy sx);
    k ← kernel_3x3 r !! (t.1 * 3 + t.2);
    Some (f32_add s (f32_mul v k)).
Definition conv_value (r : MockConv) (q : (nat * nat) * (nat * nat)) : option f32 :=
  foldl (add_tap r q.1 q.2.1 q.2.2) (Some f32_zero) taps.
(** The four loops: the channels of the batch, and the pixels of a channel. *)
Definition pixels (r : MockConv) : list ((nat * nat) * (nat * nat)) :=
  p ← cells (cv_n r) (cv_c r); (λ yx, (p, yx)) <$> cells (cv_h r) (cv_w r).
Definition conv_len (r : MockConv) : Z := ((usz (cv_n r) *₆₄ usz (cv_c r)) *₆₄ usz (cv_h r)) *₆₄ usz (cv_w r).

Definition conv (r : MockConv) : option (result (list f32) GpuError) :=
  if negb (length (kernel_3x3 r) =? 9) then
    Some (Err (Unrecoverable "MockConv: kernel must be 3x3 (length 9)"))
  else if negb (usz (length (cv_input r)) =? conv_len r)%Z then
    Some (Err (Unrecoverable ("MockConv: input len " +:+ pretty (length (cv_input r)) +:+ " != n*c*h*w " +:+ pretty (conv_len r))))
  else
    Ok <$> foldl (λ o q, store_at o (Z.to_nat (nchw r q.1 (usz q.2.1) (usz q.2.2))) (conv_value r q))
                 (Some (replicate (Z.to_nat (conv_len r)) f32_zero)) (pixels r).

Section conv.
Context (r : MockConv).
Abbreviation vol := (cv_n r * cv_c r * cv_h r * cv_w r).
Hypothesis fits : (usz vol < 2 ^ 64)%Z.

Definition place (q : (nat * nat) * (nat * nat)) : nat :=
  ((q.1.1 * cv_c r + q.1.2) * cv_h r + q.2.1) * cv_w r + q.2.2.
Definition in_batch (q : (nat * nat) * (nat * nat)) : Prop :=
  q.1.1 < cv_n r ∧ q.1.2 < cv_c r ∧ q.2.1 < cv_h r ∧ q.2.2 < cv_w r.

Lemma place_lt q : in_batch q → q.1.1 * cv_c r + q.1.2 < cv_n r * cv_c r ∧
  (q.1.1 * cv_c r + q.1.2) * cv_h r + q.2.1 < cv_n r * cv_c r * cv_h r ∧ place q < vol.
Proof using Type.
  intros (Hn & Hc & Hh & Hw). unfold place.
  assert (H1 : q.1.1 * cv_c r + q.1.2 < cv_n r * cv_c r) by nia.
  assert (H2 : (q.1.1 * cv_c r + q.1.2) * cv_h r + q.2.1 < cv_n r * cv_c r * cv_h r).
  { revert H1. generalize (q.1.1 * cv_c r + q.1.2) (cv_n r * cv_c r). intros a b Hab. nia. }
  split_and!; [done|done|]. revert H2. generalize ((q.1.1 * cv_c r + q.1.2) * cv_h r + q.2.1) (cv_n r * cv_c r * cv_h r).
  intros a b Hab. nia.
Qed.

Lemma nchw_place q : in_batch q → nchw r q.1 (usz q.2.1) (usz q.2.2) = usz (place q).
Proof using fits.
  intros Hq. destruct (place_lt q Hq) as (H1 & H2 & H3). destruct Hq as (Hn & Hc & Hh & Hw). unfold nchw.
  assert (F1 : (usz (cv_n r * cv_c r) < 2 ^ 64)%Z).
  { unfold usz in *. assert (cv_n r * cv_c r ≤ vol); [|lia].
    rewrite <-(Nat.mul_assoc (cv_n r * cv_c r)). assert (1 ≤ cv_h r * cv_w r) by nia. nia. }
  assert (F2 : (usz (cv_n r * cv_c r * cv_h r) < 2 ^ 64)%Z).
  { unfold usz in *. assert (cv_n r * cv_c r * cv_h r ≤ vol); [|lia]. generalize (cv_n r * cv_c r * cv_h r). intros. nia. }
  rewrite (subscript _ _ (cv_n r)), (subscript _ _ (cv_n r * cv_c r)), (subscript _ _ (cv_n r * cv_c r * cv_h r)) by done.
  done.
Qed.

Lemma conv_len_exact : conv_len r = usz vol.
Proof using fits.
  unfold conv_len. assert (Hz : ∀ a, (a *₆₄ usz 0 = 0)%Z) by (intros a; unfold wmul, usz; by rewrite Z.mul_0_r).
  assert (Hz' : ∀ a, (usz 0 *₆₄ a = 0)%Z) by done.
  destruct (decide (cv_w r = 0)) as [->|]; [by rewrite Hz, Nat.mul_0_r|].
  destruct (decide (cv_h r = 0)) as [->|]; [by rewrite Hz, Nat.mul_0_r|].
  assert (F2 : (usz (cv_n r * cv_c r * cv_h r) < 2 ^ 64)%Z).
  { unfold usz in *. assert (cv_n r * cv_c r * cv_h r ≤ vol); [|lia]. generalize (cv_n r * cv_c r * cv_h r). intros. nia. }
  assert (F1 : (usz (cv_n r * cv_c r) < 2 ^ 64)%Z).
  { unfold usz in *. assert (cv_n r * cv_c r ≤ cv_n r * cv_c r * cv_h r); [|lia]. generalize (cv_n r * cv_c r). intros. nia. }
  by rewrite !wmul_nat.
Qed.

Lemma pixels_spec q : q ∈ pixels r ↔ in_batch q.
Proof using Type.
  destruct q as [[n c] [y x]]. unfold pixels, in_batch. rewrite list_elem_of_bind. cbn. split.
  - intros ([n' c'] & ([y' x'] & [= -> -> -> ->] & Hyx)%list_elem_of_fmap & Hnc). apply cells_spec in Hyx, Hnc. cbn in *. tauto.
  - intros (? & ? & ? & ?). exists (n, c). split; [|by apply cells_spec]. apply list_elem_of_fmap_2. by apply cells_spec.
Qed.

Lemma pixels_place : place <$> pixels r = seq 0 vol.
Proof using Type.
  unfold pixels, place. rewrite fmap_bind. rewrite <-(Nat.mul_assoc (cv_n r * cv_c r)), <-seq_grid, <-(cells_index (cv_n r)).
  rewrite list_fmap_bind. apply list_bind_ext; [intros [n c]|done]. cbn [fst snd].
  unfold compose. rewrite <-(cells_index (cv_h r)), <-!list_fmap_compose. apply list_fmap_ext. intros _ [y x] _. unfold compose. cbn. lia.
Qed.

Hypothesis kernel_len : length (kernel_3x3 r) = 9.
Hypothesis input_len : length (cv_input r) = vol.

(** The specification: the products of the taps that fall in the channel, summed in the
    order of the kernel; the border counts as zero by being left out. *)
Definition tap_product (q : (nat * nat) * (nat * nat)) (t : nat * nat) : f32 :=
  f32_mul (default f32_zero (cv_input r !! place (q.1, (Z.to_nat (tap_y q.2.1 t), Z.to_nat (tap_x q.2.2 t)))))
          (default f32_zero (kernel_3x3 r !! (t.1 * 3 + t.2))).
Definition convolution (q : (nat * nat) * (nat * nat)) : f32 :=
  foldl (λ s t, f32_add s (tap_product q t)) f32_zero
        (filter (λ t, outside r (tap_y q.2.1 t) (tap_x q.2.2 t) = false) taps).

Lemma conv_value_spec q : in_batch q → conv_value r q = Some (convolution q).
Proof using fits kernel_len input_len.
  intros Hq. unfold conv_value, convolution. assert (Hall : ∀ ts s, ts ⊆ taps →
    foldl (add_tap r q.1 q.2.1 q.2.2) (Some s) ts =
    Some (foldl (λ s t, f32_add s (tap_product q t)) s
                (filter (λ t, outside r (tap_y q.2.1 t) (tap_x q.2.2 t) = false) ts))); [|by apply Hall].
  induction ts as [|t ts IH]; intros s Hts; [done|]. cbn [foldl]. rewrite filter_cons.
  unfold add_tap at 2. cbn [mbind option_bind]. destruct (outside _ _ _) eqn:Hout; case_decide as Hd; try done.
  { apply IH. set_solver. }
  assert (Ht : t.1 < 3 ∧ t.2 < 3) by (apply cells_spec, Hts; by left).
  unfold outside in Hout. rewrite !orb_false_iff, !Z.ltb_ge, !Z.leb_gt in Hout. unfold usz in Hout.
  set (q' := (q.1, (Z.to_nat (tap_y q.2.1 t), Z.to_nat (tap_x q.2.2 t)))).
  assert (Hq' : in_batch q') by (destruct Hq as (? & ? & ? & ?); unfold in_batch; cbn; lia).
  pose proof (nchw_place q' Hq') as Hp. unfold q' in Hp at 1 2 3. cbn [fst snd] in Hp. unfold usz in Hp at 1 2.
  rewrite !Z2Nat.id in Hp by lia. rewrite Hp, at_nat. destruct (place_lt q' Hq') as (_ & _ & Hlt).
  destruct (lookup_lt_is_Some_2 (cv_input r) (place q')) as [v Hv]; [lia|].
  destruct (lookup_lt_is_Some_2 (kernel_3x3 r) (t.1 * 3 + t.2)) as [k Hk]; [lia|].
  rewrite Hv, Hk. cbn [mbind option_bind foldl]. rewrite IH by set_solver. do 3 f_equal.
  unfold tap_product. fold q'. by rewrite Hv, Hk.
Qed.

Lemma conv_values : conv r = Some (Ok (convolution <$> pixels r)).
Proof using fits kernel_len input_len.
  unfold conv. rewrite kernel_len, conv_len_exact, input_len, Z.eqb_refl. cbn [negb Nat.eqb].
  unfold usz at 3. rewrite Nat2Z.id. rewrite (store_loop _ _ convolution); [done| |].
  - intros q Hq%pixels_spec. by apply conv_value_spec.
  - rewrite length_replicate, <-pixels_place. apply list_fmap_ext. intros k q Hq%list_elem_of_lookup_2.
    rewrite nchw_place by (by apply pixels_spec). unfold usz. by rewrite Nat2Z.id.
Qed.
End conv.

(** A convolution is refused when a length is wrong; otherwise each place of the answer
    has the convolution of its pixel, and the request never panics. *)
Theorem conv_correct r : (usz (cv_n r * cv_c r * cv_h r * cv_w r) < 2 ^ 64)%Z →
  if decide (length (kernel_3x3 r) = 9 ∧ length (cv_input r) = cv_n r * cv_c r * cv_h r * cv_w r) then
    ∃ out, conv r = Some (Ok out) ∧ length out = cv_n r * cv_c r * cv_h r * cv_w r ∧
      ∀ q, in_batch r q → out !! place r q = Some (convolution r q)
  else ∃ msg, conv r = Some (Err (Unrecoverable msg)).
Proof.
  intros Hf. case_decide as Hd.
  - destruct Hd as [Hk Hi]. eexists. split; [by apply conv_values|].
    assert (Hlen : length (pixels r) = cv_n r * cv_c r * cv_h r * cv_w r).
    { by rewrite <-(length_fmap (place r)), pixels_place, length_seq. }
    split; [by rewrite length_fmap|]. intros q Hq. rewrite list_lookup_fmap.
    apply pixels_spec in Hq as Hin. apply list_elem_of_lookup in Hin as [k Hk'].
    pose proof (lookup_lt_Some _ _ _ Hk') as Hlt. rewrite Hlen in Hlt.
    pose proof (f_equal (.!! k) (pixels_place r)) as He. cbn in He.
    rewrite list_lookup_fmap, Hk', lookup_seq_lt in He by done. injection He as ->. cbn. by rewrite Hk'.
  - unfold conv. rewrite conv_len_exact by done.
    destruct (Nat.eqb_spec (length (kernel_3x3 r)) 9) as [|]; cbn [negb]; [|by eexists].
    destruct (Z.eqb_spec (usz (length (cv_input r))) (usz (cv_n r * cv_c r * cv_h r * cv_w r))) as [|]; cbn [negb]; [|by eexists].
    unfold usz in *. lia.
Qed.

(** ** Fourier transform *)

Section fft.
Context (cosf sinf : f32 → f32).

(** [std::f32::consts::TAU] *)
Definition TAU : f32 := S754_finite false 13176795 (-21).
(** [-two_pi * k as f32 * j as f32 / n as f32] *)
Definition theta (n k j : nat) : f32 :=
  f32_div (f32_mul (f32_mul (f32_neg TAU) (f32_of_Z (usz k))) (f32_of_Z (usz j))) (f32_of_Z (usz n)).
Definition bin (input : list f32) (k : nat) : list f32 :=
  let n := length input in
  let '(re, im) := foldl (λ '(re, im) '(j, x),
      (f32_add re (f32_mul x (cosf (theta n k j))), f32_add im (f32_mul x (sinf (theta n k j)))))
    (f32_zero, f32_zero) (imap pair input) in
  [re; im].
Definition fft_r2c (input : list f32) : result (list f32) GpuError :=
  let n := length input in
  if n =? 0 then Err (Unrecoverable "MockFftR2C: empty input")
  else Ok (seq 0 (n `div` 2 + 1) ≫= bin input).

(** The answer has the shape of the library's: a real and an imaginary part for each of
    the bins up to the middle, interleaved. *)
Lemma fft_shape input : input ≠ [] → ∃ out, fft_r2c input = Ok out ∧
  length out = 2 * (length input `div` 2 + 1) ∧
  ∀ k, k < length input `div` 2 + 1 → take 2 (drop (2 * k) out) = bin input k.
Proof.
  intros Hne. unfold fft_r2c. rewrite (proj2 (Nat.eqb_neq _ _)) by (by destruct input). clear Hne. eexists. split; [done|].
  generalize (length input `div` 2 + 1). intros n. assert (Hb : ∀ k, length (bin input k) = 2).
  { intros k. unfold bin. by destruct (foldl _ _ _). }
  assert (H : ∀ a, length (seq a n ≫= bin input) = 2 * n ∧
    ∀ k, k < n → take 2 (drop (2 * k) (seq a n ≫= bin input)) = bin input (a + k)).
  { induction n as [|n IH]; intros a; [split; [done|lia]|]. cbn [seq]. rewrite bind_cons.
    destruct (IH (S a)) as [IH1 IH2]. rewrite length_app, IH1, Hb. split; [lia|]. intros [|k] Hk.
    - rewrite Nat.add_0_r, Nat.mul_0_r, drop_0. rewrite take_app_le by (by rewrite Hb). apply take_ge. by rewrite Hb.
    - rewrite drop_app_ge by (rewrite Hb; lia). rewrite Hb. replace (2 * S k - 2) with (2 * k) by lia.
      rewrite IH2 by lia. f_equal. lia. }
  destruct (H 0) as [H1 H2]. by split.
Qed.
End fft.

(** ** Random numbers *)

(** The generator and the 31 bits it gives. *)
Definition rng_init (seed : Z) : Z := wadd 64 (wmul 64 seed 0x9E3779B97F4A7C15) 1.
Definition rng_next (state : Z) : Z := wadd 64 (wmul 64 state 6364136223846793005) 1442695040888963407.
Definition rng_bits (state : Z) : Z := wrap 32 (Z.shiftr state 33).
(** [(bits as f32) / (u32::MAX as f32)] *)
Definition rng_value (bits : Z) : f32 := f32_div (f32_of_Z bits) (f32_of_Z (2 ^ 32 - 1)).
Fixpoint rng_from (state : Z) (len : nat) : list f32 :=
  match len with
  | O => []
  | S len => let state := rng_next state in rng_value (rng_bits state) :: rng_from state len
  end.
Definition rng_fill (len : nat) (seed : Z) : list f32 := rng_from (rng_init seed) len.

Lemma rng_fill_length len seed : length (rng_fill len seed) = len.
Proof. unfold rng_fill. generalize (rng_init seed). induction len as [|len IH]; intros s; [done|]. cbn. by rewrite IH. Qed.

(** A shorter fill with the same seed is a prefix of a longer one. *)
Lemma rng_fill_prefix len k seed : rng_fill len seed = take len (rng_fill (len + k) seed).
Proof.
  unfold rng_fill. generalize (rng_init seed). induction len as [|len IH]; intros s; [done|]. cbn. by rewrite <-IH.
Qed.

(** The generator gives 31 bits, not 32: the shift is by 33.  The largest of them is one
    half, so the numbers cover only the lower half of the unit interval. *)
Lemma rng_bits_31 state : in_width 64 state → (0 ≤ rng_bits state < 2 ^ 31)%Z.
Proof.
  unfold in_width, rng_bits. intros Hs.
  assert (Hsh : (0 ≤ Z.shiftr state 33 < 2 ^ 31)%Z).
  { rewrite Z.shiftr_div_pow2 by lia. split; [apply Z.div_pos; lia|]. apply Z.div_lt_upper_bound; lia. }
  rewrite wrap_small; [done|]. unfold in_width. lia.
Qed.
Lemma rng_fill_bits len seed : ∀ v, v ∈ rng_fill len seed → ∃ bits, v = rng_value bits ∧ (0 ≤ bits < 2 ^ 31)%Z.
Proof.
  unfold rng_fill. generalize (rng_init seed). induction len as [|len IH]; intros s v; cbn; [by intros ?%elem_of_nil|].
  intros [->|Hv]%elem_of_cons; [|by eapply IH]. eexists. split; [done|]. apply rng_bits_31. apply wrap_in_width. lia.
Qed.
Example rng_top : rng_value (2 ^ 31 - 1) = f32_div (f32_of_Z 1) (f32_of_Z 2).
Proof. run. Qed.

(** ** The actor *)

Inductive GpuMockMsg : Type :=
  | Sgemm (r : MockSgemm) (reply : nat)
  | Conv (r : MockConv) (reply : nat)
  | FftR2C (input : list f32) (reply : nat)
  | RngFill (len : nat) (seed : Z) (reply : nat).

(** The reply of a message, or a panic. *)
Definition handle_msg (cosf sinf : f32 → f32) (m : GpuMockMsg) : option (nat * result (list f32) GpuError) :=
  match m with
  | Sgemm r reply => (reply,.) <$> sgemm r
  | Conv r reply => (reply,.) <$> conv r
  | FftR2C input reply => Some (reply, fft_r2c cosf sinf input)
  | RngFill len seed reply => Some (reply, Ok (rng_fill len seed))
  end.
Definition reply_of (m : GpuMockMsg) : nat :=
  match m with Sgemm _ r | Conv _ r | FftR2C _ r | RngFill _ _ r => r end.

(** The products of the dimensions are lengths of vectors. *)
Definition dims_fit (m : GpuMockMsg) : Prop :=
  match m with
  | Sgemm r _ => (usz (sg_m r * sg_k r) < 2 ^ 64)%Z ∧ (usz (sg_k r * sg_n r) < 2 ^ 64)%Z ∧ (usz (sg_m r * sg_n r) < 2 ^ 64)%Z
  | Conv r _ => (usz (cv_n r * cv_c r * cv_h r * cv_w r) < 2 ^ 64)%Z
  | _ => True
  end.
Theorem mock_answers cosf sinf m : dims_fit m → ∃ r, handle_msg cosf sinf m = Some (reply_of m, r).
Proof.
  destruct m as [r rep|r rep|input rep|len seed rep]; cbn; [| |by eexists..].
  - intros (Ha & Hb & Hc). pose proof (sgemm_correct r Ha Hb Hc) as H. case_decide.
    + destruct H as (c & -> & _). by eexists.
    + destruct H as [msg ->]. by eexists.
  - intros Hf. pose proof (conv_correct r Hf) as H. case_decide.
    + destruct H as (c & -> & _). by eexists.
    + destruct H as [msg ->]. by eexists.
Qed.

Definition ints (l : list Z) : list f32 := f32_of_Z <$> l.
Example sgemm_2x2 :
  sgemm {| sg_a := ints [1; 2; 3; 4]%Z; sg_b := ints [1; 0; 0; 1]%Z; sg_m := 2; sg_n := 2; sg_k := 2 |}
  = Some (Ok (ints [1; 2; 3; 4]%Z)).
Proof. run. Qed.
(** The corner of a box filter sums the four pixels that exist. *)
Example conv_corner : ∃ out,
  conv {| cv_input := ints [1; 2; 3; 4; 5; 6; 7; 8; 9]%Z; cv_n := 1; cv_c := 1; cv_h := 3; cv_w := 3; kernel_3x3 := ints (replicate 9 1%Z) |}
  = Some (Ok (ints out)) ∧ out !! 0 = Some 12%Z ∧ out !! 4 = Some 45%Z.
Proof. exists [12; 21; 16; 27; 45; 33; 24; 39; 28]%Z. vm_compute. done. Qed.
