(* ===== verification/Batching.v ===== *)
(** * DynamicBatchingServer

    Models [crates/atomr-accel-patterns/src/batching.rs].  The batch function,
    supplied by the user, is a parameter; the instant a message is handled at
    is part of the message.  The server is proved to refine a specification
    that cuts the stream of submissions into batches. *)

From S2P Require Import Prelude Actor Errors.

Inductive BatchOverflow : Type := Reject | DropOldest.

Record BatchingStats := { flushes : Z; items_processed : Z; items_dropped : Z }.

Section batching.
Context {Req Resp : Type}.

Abbreviation answer := (result Resp GpuError).

Record BatchingConfig := {
  max_batch : nat;
  max_wait : Z;
  batch_fn : list Req → list answer;
  overflow : BatchOverflow;
}.

Inductive BatchingMsg : Type :=
  | Submit (req : Req) (reply : nat) (now : Z)
  | TimerFlush (now : Z)
  | FlushNow
  | BStats (reply : nat).

Record Server := {
  bconfig : BatchingConfig;
  pending : list (Req * nat);
  batch_started_at : option Z;
  bstats : BatchingStats;
}.

Inductive BatchEff : Type :=
  | ReplyResult (reply : nat) (r : answer)
  | ReplyBStats (reply : nat) (s : BatchingStats)
  | ScheduleTimer
  (** A panic: the request being handled is dropped. *)
  | PanicDropping (reply : nat).

Definition Server_new (cfg : BatchingConfig) : Server :=
  {| bconfig := cfg; pending := []; batch_started_at := None;
     bstats := {| flushes := 0; items_processed := 0; items_dropped := 0 |} |}.

Definition set_pending (p : list (Req * nat)) (s : Server) : Server :=
  {| bconfig := bconfig s; pending := p; batch_started_at := batch_started_at s; bstats := bstats s |}.
Definition set_started (t : option Z) (s : Server) : Server :=
  {| bconfig := bconfig s; pending := pending s; batch_started_at := t; bstats := bstats s |}.
Definition set_stats (x : BatchingStats) (s : Server) : Server :=
  {| bconfig := bconfig s; pending := pending s; batch_started_at := batch_started_at s; bstats := x |}.
Definition drop_item (s : Server) : Server :=
  set_stats {| flushes := flushes (bstats s); items_processed := items_processed (bstats s);
               items_dropped := items_dropped (bstats s) +₆₄ 1 |} s.

Definition wrong_number : GpuError := Unrecoverable "BatchFn returned wrong number of results".

(** The answers to one batch: one per item, in order. *)
Definition batch_answers (f : list Req → list answer) (batch : list (Req * nat)) :
    list (nat * answer) :=
  let results := f batch.*1 in
  if negb (length results =? length batch) then (λ c, (c, Err wrong_number)) <$> batch.*2
  else zip batch.*2 results.

Definition flush : act Server BatchEff unit :=
  s ← get;
  match pending s with
  | [] => skip
  | batch =>
    put (set_started None (set_pending [] s));;
    emits (uncurry ReplyResult <$> batch_answers (batch_fn (bconfig s)) batch);;
    if negb (length (batch_fn (bconfig s) batch.*1) =? length batch) then skip
    else modify (λ s, set_stats
      {| flushes := flushes (bstats s) +₆₄ 1;
         items_processed := items_processed (bstats s) +₆₄ Z.of_nat (length batch);
         items_dropped := items_dropped (bstats s) |} s)
  end.

Definition dropped_error : GpuError := Unrecoverable "dropped by batching overflow policy".

(** The end of [Submit], once there is room. *)
Definition push_request (req : Req) (reply : nat) (now : Z) : act Server BatchEff unit :=
  s ← get;
  put (set_pending (pending s ++ [(req, reply)]) s);;
  match pending s with
  | [] => modify (set_started (Some now));; emit ScheduleTimer
  | _ => skip
  end;;
  s ← get;
  if max_batch (bconfig s) <=? length (pending s) then flush else skip.

Definition batching_handle (m : BatchingMsg) : act Server BatchEff unit :=
  s ← get;
  match m with
  | Submit req reply now =>
    if max_batch (bconfig s) <=? length (pending s) then
      match overflow (bconfig s) with
      | Reject =>
        emit (ReplyResult reply (Err (Unrecoverable "batch full")));; modify drop_item
      | DropOldest =>
        match pending s with
        | [] => emit (PanicDropping reply) (* [remove(0)] of an empty vector *)
        | (_, oldest) :: rest =>
          put (set_pending rest s);;
          emit (ReplyResult oldest (Err dropped_error));;
          modify drop_item;;
          push_request req reply now
        end
      end
    else push_request req reply now
  | TimerFlush now =>
    match batch_started_at s with
    | None => skip
    | Some start => if (max_wait (bconfig s) <=? now - start)%Z then flush else emit ScheduleTimer
    end
  | FlushNow => flush
  | BStats reply => emit (ReplyBStats reply (bstats s))
  end.

#[global] Instance batching_actor : Actor Server BatchingMsg BatchEff :=
  λ s m, exec (batching_handle m) s.

Definition batching_post_stop : act Server BatchEff unit :=
  s ← get;
  put (set_pending [] s);;
  emits ((λ c, ReplyResult c (Err (GpuRefStale "batching server stopped"))) <$> (pending s).*2).

(** ** Specification

    The submissions, in order, are cut into consecutive batches; each batch is
    answered once, as a whole, by the batch function.  [spec_step] lists what
    one message may do to the submissions still waiting. *)

Definition submission (m : BatchingMsg) : list (Req * nat) :=
  match m with Submit req reply _ => [(req, reply)] | _ => [] end.

(** The answers to submissions among the effects. *)
Definition answers (es : list BatchEff) : list (nat * answer) :=
  omap (λ e, match e with ReplyResult c r => Some (c, r) | _ => None end) es.
Definition is_timer (e : BatchEff) : bool :=
  match e with ScheduleTimer => true | _ => false end.

Definition valid_batch (cfg : BatchingConfig) (b : list (Req * nat)) : Prop :=
  b ≠ [] ∧ length b ≤ max_batch cfg.

Lemma answers_fmap l : answers (uncurry ReplyResult <$> l) = l.
Proof. induction l as [|[c r] l IH]; [done|]. cbn. f_equal. exact IH. Qed.

Lemma answers_app es1 es2 : answers (es1 ++ es2) = answers es1 ++ answers es2.
Proof. apply omap_app. Qed.

Lemma timers_fmap l : existsb is_timer (uncurry ReplyResult <$> l) = false.
Proof. induction l as [|[c r] l IH]; [done|exact IH]. Qed.

Record server_wf (s : Server) : Prop := {
  bw_room : length (pending s) < max_batch (bconfig s);
  bw_started : pending s ≠ [] ↔ is_Some (batch_started_at s);
}.

Lemma server_wf_empty s :
  pending s = [] → batch_started_at s = None → 0 < max_batch (bconfig s) → server_wf s.
Proof.
  intros Hp Hb Hm. constructor; rewrite Hp; [done|]. rewrite Hb.
  split; [done|]. intros H. by apply is_Some_None in H.
Qed.

(** What a flush does to a server that has room for a batch. *)
Lemma flush_wp s (Q : unit → Server → list BatchEff → Prop) :
  (pending s = [] → Q () s []) →
  (∀ s' es, pending s ≠ [] → bconfig s' = bconfig s → pending s' = [] →
     batch_started_at s' = None → existsb is_timer es = false →
     answers es = batch_answers (batch_fn (bconfig s)) (pending s) → Q () s' es) →
  awp flush Q s.
Proof.
  intros H1 H2. unfold flush. do 2 awp_step. destruct (pending s) as [|p ps] eqn:Hp; [awp_steps; auto|].
  rewrite <-Hp in *. awp_steps. destruct (negb _); awp_steps; apply H2;
    rewrite ?answers_fmap, ?timers_fmap; try done; by rewrite Hp.
Qed.

(** What one message may do: keep everything waiting, or flush it as one batch;
    a timer is set when a batch is begun. *)
Definition step_post (s : Server) (sub : list (Req * nat)) (s' : Server) (es : list BatchEff) : Prop :=
  server_wf s' ∧ bconfig s' = bconfig s ∧
  ((pending s' = pending s ++ sub ∧ answers es = [] ∧
    (pending s = [] → pending s' ≠ [] → existsb is_timer es = true)) ∨
   (pending s' = [] ∧ valid_batch (bconfig s) (pending s ++ sub) ∧
    answers es = batch_answers (batch_fn (bconfig s)) (pending s ++ sub))).

Lemma push_request_wp s req reply now :
  server_wf s → awp (push_request req reply now) (λ _, step_post s [(req, reply)]) s.
Proof.
  intros [Hroom Hst]. unfold push_request. awp_steps.
  assert (Hnext : ∀ s1 e1, bconfig s1 = bconfig s → pending s1 = pending s ++ [(req, reply)] →
    is_Some (batch_started_at s1) → answers e1 = [] →
    (pending s = [] → existsb is_timer e1 = true) →
    awp (if max_batch (bconfig s1) <=? length (pending s1) then flush else skip)
      (λ _ s2 e2, step_post s [(req, reply)] s2 (e1 ++ e2)) s1).
  { intros s1 e1 Hc Hp Hsome He Ht. rewrite Hc.
    destruct (Nat.leb_spec (max_batch (bconfig s)) (length (pending s1))) as [Hfull|Hfull].
    - apply flush_wp; rewrite Hp; [by intros []%app_eq_nil|]. intros s2 e2 Hne Hc2 Hp2 Hb2 _ Ha.
      split_and!; [apply server_wf_empty; rewrite ?Hc2, ?Hc; auto; lia|congruence|].
      right. rewrite answers_app, He, Ha, Hc. split_and!; [done| |done].
      split; [done|rewrite length_app; simpl; lia].
    - awp_steps. split_and!; [constructor; rewrite ?Hc; [lia|]|done|].
      + split; [done|]. intros _. rewrite Hp. by intros []%app_eq_nil.
      + left. split_and!; try done. auto. }
  destruct (pending s) as [|x l] eqn:Hp; awp_steps.
  - by apply (Hnext _ [ScheduleTimer]).
  - apply (Hnext _ []); try done. simpl. by apply Hst.
Qed.

Lemma batching_step (s : Server) (m : BatchingMsg) :
  server_wf s → let '(s', es) := handle s m in step_post s (submission m) s' es.
Proof.
  intros Hwf. pose proof Hwf as [Hroom Hst]. apply (awp_exec (batching_handle m)).
  assert (Hkeep : ∀ es, answers es = [] → step_post s [] s es).
  { intros es He. split_and!; [done..|]. left. rewrite app_nil_r. by split_and!. }
  assert (Hflush : awp flush (λ _, step_post s []) s).
  { apply flush_wp; [auto|]. intros s' es Hne Hc Hp Hb _ Ha.
    split_and!; [apply server_wf_empty; rewrite ?Hc; auto; lia|done|].
    right. rewrite app_nil_r. split_and!; [done|split; [done|lia]|done]. }
  unfold batching_handle. do 2 awp_step. destruct m as [req reply now|now| |reply]; simpl.
  - destruct (Nat.leb_spec (max_batch (bconfig s)) (length (pending s))); [lia|]. by apply push_request_wp.
  - destruct (batch_started_at s); [|awp_steps; auto]. destruct (_ <=? _)%Z; [done|awp_steps; auto].
  - done.
  - awp_steps. auto.
Qed.

Lemma batching_run (s : Server) (ms : list BatchingMsg) :
  server_wf s →
  let '(s', es) := run_actor s ms in
  server_wf s' ∧ bconfig s' = bconfig s ∧
  ∃ batches, Forall (valid_batch (bconfig s)) batches ∧
    pending s ++ (ms ≫= submission) = mjoin batches ++ pending s' ∧
    answers es = batches ≫= batch_answers (batch_fn (bconfig s)).
Proof.
  revert s. induction ms as [|m ms IH]; intros s Hwf; simpl.
  { split_and!; [done..|]. exists []. by rewrite app_nil_r. }
  pose proof (batching_step s m Hwf) as Hstep.
  destruct (handle s m) as [s1 e1]. destruct Hstep as (Hwf1 & Hc1 & Hstep).
  specialize (IH s1 Hwf1). destruct (run_actor s1 ms) as [s2 e2].
  destruct IH as (Hwf2 & Hc2 & bs & Hbs & Hp & Ha). rewrite Hc1 in *.
  split_and!; [done|congruence|]. rewrite answers_app, Ha.
  destruct Hstep as [(Hp1 & -> & _)|(Hp1 & Hv & ->)].
  - exists bs. split_and!; [done| |done]. by rewrite <-Hp, Hp1, app_assoc.
  - exists ((pending s ++ submission m) :: bs). split_and!; [by constructor| |done].
    rewrite Hp1 in Hp. simpl in Hp. simpl. by rewrite <-app_assoc, <-Hp, app_assoc.
Qed.

Lemma server_new_wf cfg : 0 < max_batch cfg → server_wf (Server_new cfg).
Proof. intros. by apply server_wf_empty. Qed.


(** A run in which [TimerFlush] arrives only when a timer set earlier fires:
    [k] timers are running. *)
Fixpoint timed_run (s : Server) (k : nat) (ms : list BatchingMsg) : option (Server * nat) :=
  match ms with
  | [] => Some (s, k)
  | m :: ms =>
    let '(s', es) := handle s m in
    let set := length (filter (λ e, Is_true (is_timer e)) es) in
    match m, k with
    | TimerFlush _, 0 => None
    | TimerFlush _, S k => timed_run s' (k + set) ms
    | _, _ => timed_run s' (k + set) ms
    end
  end.

Lemma is_timer_count es : existsb is_timer es = true → 0 < length (filter (λ e, Is_true (is_timer e)) es).
Proof.
  induction es as [|e es IH]; [done|]. simpl. rewrite filter_cons.
  destruct (is_timer e); simpl; [lia|auto].
Qed.

(** What happens when a timer fires. *)
Lemma timer_fires s now start :
  server_wf s → batch_started_at s = Some start →
  if (max_wait (bconfig s) <=? now - start)%Z
  then pending (handle s (TimerFlush now)).1 = []
  else handle s (TimerFlush now) = (s, [ScheduleTimer]).
Proof.
  intros Hwf Hs.
  assert (He : exec flush s = exec (batching_handle (TimerFlush now)) s ∨
               (max_wait (bconfig s) <=? now - start)%Z = false).
  { unfold batching_handle. act_unfold. rewrite Hs. destruct (_ <=? _)%Z; [left|by right].
    by destruct (flush s) as [[a s'] es]. }
  unfold handle, batching_actor. destruct (max_wait (bconfig s) <=? now - start)%Z eqn:Hw.
  - destruct He as [<-|?]; [|done].
    assert (Hf : awp flush (λ _ s' _, pending s' = []) s) by (apply flush_wp; auto).
    apply awp_exec in Hf. by destruct (exec flush s).
  - unfold batching_handle. act_unfold. by rewrite Hs, Hw.
Qed.

Lemma timed_run_inv s k ms s' k' :
  server_wf s → (pending s ≠ [] → 0 < k) → timed_run s k ms = Some (s', k') →
  server_wf s' ∧ bconfig s' = bconfig s ∧ (pending s' ≠ [] → 0 < k').
Proof.
  revert s k. induction ms as [|m ms IH]; intros s k Hwf Hk; simpl; [by intros [= <- <-]|].
  pose proof (batching_step s m Hwf) as Hstep. pose proof (timer_fires s) as Hfire.
  destruct (handle s m) as [s1 e1] eqn:Hh. destruct Hstep as (Hwf1 & Hc1 & Hstep).
  assert (Hk1 : (∀ now, m ≠ TimerFlush now) → pending s1 ≠ [] →
    0 < k + length (filter (λ e, Is_true (is_timer e)) e1)).
  { intros _ Hne. destruct Hstep as [(Hp & _ & Ht)|(Hp & _)]; [|done].
    destruct (decide (pending s = [])) as [He|He]; [|specialize (Hk He); lia].
    pose proof (is_timer_count _ (Ht He Hne)). lia. }
  intros Hrun.
  assert (∃ k1, timed_run s1 k1 ms = Some (s', k') ∧ (pending s1 ≠ [] → 0 < k1)) as (k1 & Hr & Hp1).
  { destruct m as [req reply now|now| |reply]; [by eexists; eauto| |by eexists; eauto..].
    destruct k as [|k]; [done|]. eexists. split; [done|]. intros Hne.
    destruct (batch_started_at s) as [start|] eqn:Hs.
    - specialize (Hfire now start Hwf eq_refl). rewrite Hh in Hfire.
      destruct (_ <=? _)%Z; [done|]. simplify_eq. simpl. lia.
    - exfalso. destruct Hwf as [_ Hst].
      assert (Hps : pending s = []).
      { destruct (pending s); [done|]. destruct Hst as [Hst _]. rewrite Hs in Hst.
        destruct Hst as [? ?]; done. }
      revert Hh. unfold handle, batching_actor, batching_handle. act_unfold. rewrite Hs.
      intros [= <- <-]. done. }
  destruct (IH s1 k1 Hwf1 Hp1 Hr) as (? & ? & ?). split_and!; [done|congruence|done].
Qed.

(** No request waits for ever: in every run in which timers fire only if they
    were set, whenever requests wait the instant their batch began is known and
    a timer is still running; a timer that fires [max_wait] after that instant
    flushes the whole batch, and one that fires early is set again. *)
Theorem batching_timer (cfg : BatchingConfig) (ms : list BatchingMsg) (s : Server) (k : nat) (now : Z) :
  0 < max_batch cfg → timed_run (Server_new cfg) 0 ms = Some (s, k) → pending s ≠ [] →
  0 < k ∧
  ∃ start, batch_started_at s = Some start ∧
    if (max_wait cfg <=? now - start)%Z
    then pending (handle s (TimerFlush now)).1 = []
    else handle s (TimerFlush now) = (s, [ScheduleTimer]).
Proof.
  intros Hm Hrun Hne. apply timed_run_inv in Hrun as (Hwf & Hc & Hk); [|by apply server_new_wf|done].
  split; [auto|]. destruct (proj1 (bw_started s Hwf) Hne) as [start Hs].
  exists start. split; [done|]. simpl in Hc. rewrite <-Hc. by apply timer_fires.
Qed.

(** Every submitted reply channel is answered once, the waiting ones at the stop. *)
Definition reply_channels (m : BatchingMsg) : list nat :=
  match m with Submit _ reply _ | BStats reply => [reply] | _ => [] end.
Definition eff_channels (e : BatchEff) : list nat :=
  match e with
  | ReplyResult c _ | ReplyBStats c _ | PanicDropping c => [c]
  | ScheduleTimer => []
  end.

#[global] Instance batching_replies : Replies Server BatchingMsg BatchEff nat :=
  {| held s := (pending s).*2; arriving := reply_channels; used := eff_channels |}.

Lemma channels_fmap l : (uncurry ReplyResult <$> l) ≫= eff_channels = l.*1.
Proof. induction l as [|[c r] l IH]; [done|]. cbn. f_equal. exact IH. Qed.

Lemma batch_answers_channels f b : (batch_answers f b).*1 = b.*2.
Proof.
  unfold batch_answers. destruct (Nat.eqb_spec (length (f b.*1)) (length b)) as [Hl|]; simpl.
  - apply fst_zip. rewrite length_fmap. lia.
  - rewrite <-list_fmap_compose. apply list_fmap_id.
Qed.

Lemma flush_channels s (Q : unit → Server → list BatchEff → Prop) :
  (∀ s' es, (pending s).*2 ≡ₚ (es ≫= eff_channels) ++ (pending s').*2 → Q () s' es) → awp flush Q s.
Proof.
  intros HQ. unfold flush. do 2 awp_step. destruct (pending s) as [|p ps] eqn:Hp.
  { awp_steps. apply HQ. by rewrite Hp. }
  rewrite <-Hp in *. awp_steps. destruct (negb _); awp_steps; apply HQ; simpl;
    by rewrite app_nil_r, channels_fmap, batch_answers_channels.
Qed.

Lemma push_channels s req reply now (Q : unit → Server → list BatchEff → Prop) :
  (∀ s' es, (pending s).*2 ++ [reply] ≡ₚ (es ≫= eff_channels) ++ (pending s').*2 → Q () s' es) →
  awp (push_request req reply now) Q s.
Proof.
  intros HQ. unfold push_request. do 5 awp_step.
  destruct (pending s) as [|x l] eqn:Hp; awp_steps;
    (match goal with |- awp (if ?b then _ else _) _ _ => destruct b end; [apply flush_channels|awp_steps]);
    [intros s' es He| |intros s' es He|]; apply HQ; simpl in *; rewrite ?fmap_app in *; done.
Qed.

#[global] Instance batching_reply_law : ReplyLaw Server BatchingMsg BatchEff nat.
Proof.
  intros s m. cbn [held arriving used batching_replies].
  assert (H : awp (batching_handle m)
    (λ _ s' es, (pending s).*2 ++ reply_channels m ≡ₚ (es ≫= eff_channels) ++ (pending s').*2) s).
  { unfold batching_handle. do 2 awp_step.
    destruct m as [req reply now|now| |reply]; simpl; rewrite ?app_nil_r.
    - destruct (max_batch (bconfig s) <=? length (pending s)); [|by apply push_channels].
      destruct (overflow (bconfig s)); [awp_steps; by rewrite Permutation_app_comm|].
      destruct (pending s) as [|[r o] rest] eqn:Hp; [by awp_steps; rewrite Hp|]. do 6 awp_step.
      apply push_channels. intros s' es He. simpl in *. by rewrite He.
    - destruct (batch_started_at s); [|by awp_steps]. destruct (_ <=? _)%Z; [by apply flush_channels|by awp_steps].
    - by apply flush_channels.
    - awp_steps. by rewrite Permutation_app_comm. }
  apply awp_exec in H. unfold handle, batching_actor. by destruct (exec (batching_handle m) s).
Qed.

(** Every submission is answered once: whatever the configuration and the
    messages, when the server has stopped the channels its effects used are
    exactly those that arrived, each as often. *)
Theorem batching_answers_all (cfg : BatchingConfig) (ms : list BatchingMsg) :
  let '(s, es) := run_actor (Server_new cfg) ms in
  let '(s', es') := exec batching_post_stop s in
  (ms ≫= reply_channels) ≡ₚ (es ++ es') ≫= eff_channels ∧ pending s' = [].
Proof.
  pose proof (run_replies (Server_new cfg) ms) as Hr.
  destruct (run_actor (Server_new cfg) ms) as [s es].
  assert (Hr' : (ms ≫= reply_channels) ≡ₚ (es ≫= eff_channels) ++ (pending s).*2) by exact Hr.
  unfold batching_post_stop. act_unfold. split; [|done]. rewrite Hr', bind_app. apply Permutation_app; [done|].
  clear Hr Hr'. induction ((pending s).*2) as [|c l IH]; [done|]. cbn. constructor. exact IH.
Qed.
End batching.

(** Witnesses on concrete servers. *)
Definition echo (reqs : list nat) : list (result nat GpuError) := (λ x, Ok (2 * x)) <$> reqs.
Definition cfg3 : BatchingConfig (Req:=nat) (Resp:=nat) :=
  {| max_batch := 3; max_wait := 50; batch_fn := echo; overflow := DropOldest |}.


Lemma batching_timer_witness :
  timed_run (Server_new cfg3) 0 [Submit 1 10 0; TimerFlush 20; Submit 2 11 30] ≠ None ∧
  ∃ s k, timed_run (Server_new cfg3) 0 [Submit 1 10 0; TimerFlush 20; Submit 2 11 30] = Some (s, k) ∧
    0 < k ∧ pending (handle s (TimerFlush 51)).1 = [].
Proof.
  split; [by vm_compute|]. eexists _, _. split; [vm_compute; reflexivity|].
  match goal with |- _ ∧ pending (handle ?s _).1 = _ =>
    destruct (batching_timer cfg3 [Submit 1 10 0; TimerFlush 20; Submit 2 11 30] s 1 51) as (Hk & start & Hs & Hf)
  end; [simpl; lia|vm_compute; reflexivity|done|].
  split; [done|]. vm_compute in Hs. injection Hs as <-. exact Hf.
Defined.
