(* ===== verification/Scheduler.v ===== *)
(** * FairShareScheduler

    Models [crates/atomr-accel-patterns/src/scheduler.rs].  The tenants map is
    listed in the order the [HashMap] iterates, which no operation changes after
    construction.  Virtual finish times are binary64 numbers.  The dispatch
    loop runs with fuel; [dispatch_terminates] shows the fuel is enough. *)

From stdpp Require Import pretty.
From S2P Require Import Prelude Actor Float64 Errors.

Record TenantConfig := { tid : Z; weight : Z }.

Section scheduler.
Context {Req : Type}.

Record TenantState := {
  tcfg : TenantConfig;
  queue : list (Req * nat);
  vfinish : f64;
}.

Record FairShareStats := { st_in_flight : nat; st_total_dispatched : Z }.

Inductive FairShareMsg : Type :=
  | Submit (tenant : Z) (req : Req) (reply : nat)
  | Finished (tenant : Z)
  | SchedStats (reply : nat).

Record Scheduler := {
  tenants : list (Z * TenantState);
  max_in_flight : nat;
  in_flight : nat;
  total_dispatched : Z;
}.

Inductive SchedEff : Type :=
  | ReplyUnknown (reply : nat) (e : GpuError)
  (** The dispatcher gets the request; the tee answers [reply] and sends [Finished]. *)
  | Dispatch (tenant : Z) (req : Req) (reply : nat)
  | ReplySchedStats (reply : nat) (s : FairShareStats).

(** [props]: a later entry for the same tenant replaces an earlier one; [order]
    is the iteration order of the map. *)
Definition tenant_of (cfgs : list TenantConfig) (t : Z) : option TenantConfig :=
  last (filter (λ c, tid c = t) cfgs).

Definition Scheduler_new (cfgs : list TenantConfig) (order : list Z) (max : nat) : Scheduler :=
  {| tenants := omap (λ t, c ← tenant_of cfgs t;
       Some (t, {| tcfg := c; queue := []; vfinish := f64_zero |})) order;
     max_in_flight := max; in_flight := 0; total_dispatched := 0 |}.

Definition set_tenants (ts : list (Z * TenantState)) (s : Scheduler) : Scheduler :=
  {| tenants := ts; max_in_flight := max_in_flight s; in_flight := in_flight s;
     total_dispatched := total_dispatched s |}.
Definition set_in_flight (n : nat) (s : Scheduler) : Scheduler :=
  {| tenants := tenants s; max_in_flight := max_in_flight s; in_flight := n;
     total_dispatched := total_dispatched s |}.

(** The scan for the non-empty queue with the smallest [vfinish]. *)
Fixpoint scan (best : option (Z * f64)) (ts : list (Z * TenantState)) : option (Z * f64) :=
  match ts with
  | [] => best
  | (id, t) :: ts =>
    match queue t with
    | [] => scan best ts
    | _ =>
      match best with
      | None => scan (Some (id, vfinish t)) ts
      | Some (_, vf) =>
        if f64_ltb (vfinish t) vf then scan (Some (id, vfinish t)) ts else scan best ts
      end
    end
  end.

(** [self.tenants.get_mut(&id)] *)
Fixpoint get_tenant (id : Z) (ts : list (Z * TenantState)) : option TenantState :=
  match ts with
  | [] => None
  | (i, t) :: ts => if decide (i = id) then Some t else get_tenant id ts
  end.
Fixpoint update_tenant (id : Z) (t' : TenantState) (ts : list (Z * TenantState)) :
    list (Z * TenantState) :=
  match ts with
  | [] => []
  | (i, t) :: ts => if decide (i = id) then (i, t') :: ts else (i, t) :: update_tenant id t' ts
  end.

(** [1.0 / (weight.max(1) as f64)] *)
Definition increment (c : TenantConfig) : f64 :=
  f64_div (f64_of_Z 1) (f64_of_Z (Z.max (weight c) 1)).

(** One iteration of the dispatch loop, when there is room. *)
Definition dispatch_one (s : Scheduler) : option (Scheduler * SchedEff) :=
  '(id, _) ← scan None (tenants s);
  t ← get_tenant id (tenants s);
  match queue t with
  | [] => None
  | (req, reply) :: rest =>
    let t' := {| tcfg := tcfg t; queue := rest;
                 vfinish := f64_add (vfinish t) (increment (tcfg t)) |} in
    Some ({| tenants := update_tenant id t' (tenants s); max_in_flight := max_in_flight s;
             in_flight := S (in_flight s); total_dispatched := total_dispatched s +₆₄ 1 |},
          Dispatch id req reply)
  end.

Fixpoint dispatch_loop (fuel : nat) (s : Scheduler) : option (Scheduler * list SchedEff) :=
  match fuel with
  | 0 => None
  | S fuel =>
    if decide (in_flight s < max_in_flight s) then
      match dispatch_one s with
      | None => Some (s, [])
      | Some (s1, e) => '(s2, es) ← dispatch_loop fuel s1; Some (s2, e :: es)
      end
    else Some (s, [])
  end.

(** Each iteration takes a free slot. *)
Definition dispatch_fuel (s : Scheduler) : nat := S (max_in_flight s - in_flight s).

Definition try_dispatch : act Scheduler SchedEff unit :=
  s ← get;
  match dispatch_loop (dispatch_fuel s) s with
  | Some (s', es) => put s';; emits es
  | None => skip
  end.

Definition unknown_tenant (t : Z) : GpuError :=
  Unrecoverable ("FairShare: unknown tenant TenantId(" +:+ pretty t +:+ ")").

Definition sched_handle (m : FairShareMsg) : act Scheduler SchedEff unit :=
  s ← get;
  match m with
  | Submit id req reply =>
    match get_tenant id (tenants s) with
    | None => emit (ReplyUnknown reply (unknown_tenant id))
    | Some t =>
      put (set_tenants (update_tenant id
        {| tcfg := tcfg t; queue := queue t ++ [(req, reply)]; vfinish := vfinish t |} (tenants s)) s);;
      try_dispatch
    end
  | Finished _ =>
    put (set_in_flight (in_flight s - 1) s);;
    try_dispatch
  | SchedStats reply =>
    emit (ReplySchedStats reply
      {| st_in_flight := in_flight s; st_total_dispatched := total_dispatched s |})
  end.

#[global] Instance sched_actor : Actor Scheduler FairShareMsg SchedEff :=
  λ s m, exec (sched_handle m) s.

(** ** The tenants map *)

Lemma get_update_eq id t' ts t :
  get_tenant id ts = Some t → get_tenant id (update_tenant id t' ts) = Some t'.
Proof.
  induction ts as [|[i u] ts IH]; simpl; [done|]. case_decide; simpl.
  - by rewrite decide_True.
  - by rewrite decide_False.
Qed.

Lemma get_update_ne id id' t' ts :
  id ≠ id' → get_tenant id' (update_tenant id t' ts) = get_tenant id' ts.
Proof.
  intros Hne. induction ts as [|[i u] ts IH]; simpl; [done|].
  destruct (decide (i = id)) as [->|]; simpl; [by rewrite !decide_False|].
  destruct (decide (i = id')); [done|exact IH].
Qed.

Lemma update_keys id t' ts : (update_tenant id t' ts).*1 = ts.*1.
Proof. induction ts as [|[i u] ts IH]; [done|]. cbn. case_decide; [done|]. cbn. by f_equal. Qed.

Lemma get_tenant_elem id ts t : NoDup ts.*1 → (id, t) ∈ ts → get_tenant id ts = Some t.
Proof.
  induction ts as [|[i u] ts IH]; simpl; [by intros _ ?%elem_of_nil|].
  intros [Hn Hd]%NoDup_cons [[= -> ->]|Hin]%elem_of_cons; [by rewrite decide_True|].
  rewrite decide_False; [auto|]. intros ->. apply Hn. apply list_elem_of_fmap. by exists (id, t).
Qed.

Lemma get_tenant_in id ts t : get_tenant id ts = Some t → (id, t) ∈ ts.
Proof.
  induction ts as [|[i u] ts IH]; simpl; [done|]. case_decide; subst; intros; simplify_eq; [by left|].
  right. auto.
Qed.

(** ** The scan *)

(** What the scan returns: a tenant with work, no tenant with work being
    strictly earlier; nothing when no tenant has work. *)
Lemma scan_spec best ts :
  match scan best ts with
  | None => best = None ∧ Forall (λ it, queue it.2 = []) ts
  | Some (id, vf) =>
    (best = Some (id, vf) ∨ ∃ t, (id, t) ∈ ts ∧ queue t ≠ [] ∧ vfinish t = vf) ∧
    (∀ id0 vf0, best = Some (id0, vf0) → vf = vf0 ∨ f64_ltb vf vf0 = true) ∧
    Forall (λ it, queue it.2 ≠ [] → f64_ltb (vfinish it.2) vf = false) ts
  end.
Proof.
  assert (Hlater : ∀ (i : Z) (t : TenantState) ts b (id : Z) vf,
    b ∨ (∃ u, (id, u) ∈ ts ∧ queue u ≠ [] ∧ vfinish u = vf) →
    b ∨ ∃ u, (id, u) ∈ (i, t) :: ts ∧ queue u ≠ [] ∧ vfinish u = vf).
  { intros i t ts0 b id vf [?|(u & ? & ?)]; [by left|right]. exists u. split; [by right|done]. }
  assert (Hbefore : ∀ x vf vf0, f64_ltb x vf0 = false → vf = vf0 ∨ f64_ltb vf vf0 = true →
    f64_ltb x vf = false).
  { intros x vf vf0 Hx [->|Hv]; [done|]. apply not_true_is_false. intros Hc.
    by rewrite (f64_ltb_trans _ _ _ Hc Hv) in Hx. }
  revert best. induction ts as [|[i t] ts IH]; intros best; simpl.
  { destruct best as [[id vf]|]; [|done]. split_and!; [by left| |done]. intros ?? [= -> ->]. by left. }
  destruct (queue t) as [|x q] eqn:Hq.
  { specialize (IH best). destruct (scan best ts) as [[id vf]|].
    - destruct IH as (H1 & H2 & H3). split_and!; [auto|done|constructor; [by simpl; rewrite Hq|done]].
    - destruct IH. by split; [|constructor]. }
  assert (Hself : ∃ u, (i, u) ∈ (i, t) :: ts ∧ queue u ≠ [] ∧ vfinish u = vfinish t).
  { exists t. split_and!; [by left|by rewrite Hq|done]. }
  assert (Hnew : ∀ b, (∀ id0 vf0, b = Some (id0, vf0) → f64_ltb (vfinish t) vf0 = true) →
    match scan (Some (i, vfinish t)) ts with
    | None => b = None ∧ Forall (λ it, queue it.2 = []) ((i, t) :: ts)
    | Some (id, vf) =>
      (b = Some (id, vf) ∨ ∃ u, (id, u) ∈ (i, t) :: ts ∧ queue u ≠ [] ∧ vfinish u = vf) ∧
      (∀ id0 vf0, b = Some (id0, vf0) → vf = vf0 ∨ f64_ltb vf vf0 = true) ∧
      Forall (λ it, queue it.2 ≠ [] → f64_ltb (vfinish it.2) vf = false) ((i, t) :: ts)
    end).
  { intros b Hb. specialize (IH (Some (i, vfinish t))).
    destruct (scan _ ts) as [[id vf]|]; [|by destruct IH]. destruct IH as (H1 & H2 & H3).
    specialize (H2 _ _ eq_refl) as H2'. split_and!.
    - right. destruct H1 as [[= <- <-]|(u & ? & ?)]; [done|]. exists u. split; [by right|done].
    - intros id0 vf0 ->. right. specialize (Hb _ _ eq_refl). destruct H2' as [->|]; [done|].
      by eapply f64_ltb_trans.
    - constructor; [|done]. intros _. simpl. eapply Hbefore; [apply f64_ltb_irrefl|done]. }
  destruct best as [[id0 vf0]|]; [|by apply Hnew].
  destruct (f64_ltb (vfinish t) vf0) eqn:Hlt; [apply Hnew; by intros ?? [= <- <-]|].
  specialize (IH (Some (id0, vf0))). destruct (scan _ ts) as [[id vf]|]; [|by destruct IH].
  destruct IH as (H1 & H2 & H3). split_and!; [auto|done|].
  constructor; [|done]. intros _. simpl. by eapply Hbefore; [|apply (H2 _ _ eq_refl)].
Qed.

(** ** Dispatching *)

Definition queue_of (id : Z) (s : Scheduler) : list (Req * nat) :=
  match get_tenant id (tenants s) with Some t => queue t | None => [] end.
Definition all_idle (s : Scheduler) : Prop := Forall (λ it, queue it.2 = []) (tenants s).

(** The requests of one tenant handed to the dispatcher, in order. *)
Definition dispatched (id : Z) (es : list SchedEff) : list (Req * nat) :=
  omap (λ e, match e with
             | Dispatch i req reply => if decide (i = id) then Some (req, reply) else None
             | _ => None
             end) es.

Definition submitted (id : Z) (ms : list FairShareMsg) : list (Req * nat) :=
  omap (λ m, match m with
             | Submit i req reply => if decide (i = id) then Some (req, reply) else None
             | _ => None
             end) ms.

(** One dispatch takes the oldest request of a tenant no other waiting tenant is
    strictly ahead of. *)
Lemma dispatch_one_spec s :
  NoDup (tenants s).*1 →
  match dispatch_one s with
  | None => all_idle s
  | Some (s', e) =>
    ∃ id t req reply rest, get_tenant id (tenants s) = Some t ∧ queue t = (req, reply) :: rest ∧
      e = Dispatch id req reply ∧
      (∀ id' t', get_tenant id' (tenants s) = Some t' → queue t' ≠ [] →
         f64_ltb (vfinish t') (vfinish t) = false) ∧
      tenants s' = update_tenant id {| tcfg := tcfg t; queue := rest;
        vfinish := f64_add (vfinish t) (increment (tcfg t)) |} (tenants s) ∧
      max_in_flight s' = max_in_flight s ∧ in_flight s' = S (in_flight s)
  end.
Proof.
  intros Hnd. unfold dispatch_one. pose proof (scan_spec None (tenants s)) as Hs.
  destruct (scan None (tenants s)) as [[id vf]|]; simpl; [|by destruct Hs].
  destruct Hs as ([?|(t & Hin & Hne & <-)] & _ & Hmin); [done|].
  rewrite (get_tenant_elem id _ t Hnd Hin). simpl.
  destruct (queue t) as [|[req reply] rest] eqn:Hq; [done|].
  exists id, t, req, reply, rest. split_and!; try done; [by apply get_tenant_elem|].
  intros id' t' Hg Hne'. rewrite Forall_forall in Hmin.
  by apply (Hmin (id', t') (get_tenant_in _ _ _ Hg)).
Qed.

Lemma dispatch_loop_spec fuel s :
  NoDup (tenants s).*1 → max_in_flight s - in_flight s < fuel →
  ∃ s' es, dispatch_loop fuel s = Some (s', es) ∧
    (tenants s').*1 = (tenants s).*1 ∧ max_in_flight s' = max_in_flight s ∧
    in_flight s' = in_flight s + length es ∧
    (in_flight s ≤ max_in_flight s → in_flight s' ≤ max_in_flight s) ∧
    (max_in_flight s ≤ in_flight s' ∨ all_idle s') ∧
    ∀ id, queue_of id s = dispatched id es ++ queue_of id s'.
Proof.
  revert s. induction fuel as [|fuel IH]; intros s Hnd Hf; [lia|]. simpl.
  case_decide as Hroom; [|exists s, []; split_and!; simpl; try done; first [lia|left; lia]].
  pose proof (dispatch_one_spec s Hnd) as H1.
  destruct (dispatch_one s) as [[s1 e]|];
    [|exists s, []; split_and!; simpl; try done; first [lia|by right]].
  destruct H1 as (id & t & req & reply & rest & Hg & Hq & -> & _ & Ht & Hm & Hi).
  destruct (IH s1) as (s' & es & -> & Hk & Hm' & Hi' & Hle & Hend & Hqs).
  { by rewrite Ht, update_keys. }
  { rewrite Hm, Hi. lia. }
  exists s', (Dispatch id req reply :: es). rewrite Hm, Hi in *.
  split_and!; try done; simpl; [by rewrite Hk, Ht, update_keys|lia|intros; apply Hle; lia|].
  intros id'. cbn. specialize (Hqs id'). unfold queue_of in *. rewrite Ht in Hqs.
  destruct (decide (id = id')) as [->|Hne]; simpl.
  - by rewrite (get_update_eq _ _ _ _ Hg) in Hqs; rewrite Hg, Hq; simpl in *; rewrite Hqs.
  - by rewrite get_update_ne in Hqs.
Qed.

(** ** Runs *)

Record sched_wf (s : Scheduler) : Prop := {
  sw_keys : NoDup (tenants s).*1;
  sw_bound : in_flight s ≤ max_in_flight s;
  sw_busy : in_flight s = max_in_flight s ∨ all_idle s;
}.

Lemma get_tenant_keys id ts : is_Some (get_tenant id ts) ↔ id ∈ ts.*1.
Proof.
  induction ts as [|[i t] ts IH]; cbn.
  - split; [by intros [? ?]|by intros ?%elem_of_nil].
  - rewrite elem_of_cons. case_decide; [naive_solver|]. rewrite IH. naive_solver.
Qed.

Lemma try_dispatch_wp s :
  NoDup (tenants s).*1 → in_flight s ≤ max_in_flight s →
  awp try_dispatch (λ _ s' es, sched_wf s' ∧ (tenants s').*1 = (tenants s).*1 ∧
    max_in_flight s' = max_in_flight s ∧ ∀ id, queue_of id s = dispatched id es ++ queue_of id s') s.
Proof.
  intros Hnd Hle. unfold try_dispatch. do 2 awp_step.
  destruct (dispatch_loop_spec (dispatch_fuel s) s Hnd) as (s' & es & -> & Hk & Hm & Hi & Hb & Hend & Hq).
  { unfold dispatch_fuel. lia. }
  awp_steps. specialize (Hb Hle). split_and!; try done. constructor; [by rewrite Hk|lia|].
  destruct Hend; [left; lia|by right].
Qed.

Lemma sched_step s m :
  sched_wf s →
  let '(s', es) := handle s m in
  sched_wf s' ∧ (tenants s').*1 = (tenants s).*1 ∧ max_in_flight s' = max_in_flight s ∧
  ∀ id, id ∈ (tenants s).*1 →
    queue_of id s ++ submitted id [m] = dispatched id es ++ queue_of id s'.
Proof.
  intros [Hk Hb Hbusy]. apply (awp_exec (sched_handle m)). unfold sched_handle. do 2 awp_step.
  destruct m as [i req reply|i|reply].
  - destruct (get_tenant i (tenants s)) as [t|] eqn:Hg.
    + do 2 awp_step.
      eapply awp_mono; [|apply try_dispatch_wp; simpl; [by rewrite update_keys|done]].
      simpl. intros _ s' es (Hwf & Hk' & Hm & Hq). rewrite update_keys in Hk'. split_and!; try done.
      intros id Hid. rewrite <-Hq. unfold queue_of at 2. simpl. cbn.
      destruct (decide (i = id)) as [->|Hne]; simpl.
      * rewrite (get_update_eq _ _ _ _ Hg). unfold queue_of. by rewrite Hg.
      * rewrite get_update_ne by done. by rewrite app_nil_r.
    + awp_steps. split_and!; try done. intros id Hid. cbn. case_decide as Hi; [|by rewrite app_nil_r].
      subst. apply get_tenant_keys in Hid as [? ?]. congruence.
  - do 2 awp_step. eapply awp_mono; [|apply try_dispatch_wp; simpl; [done|lia]].
    simpl. intros _ s' es (Hwf & Hk' & Hm & Hq). split_and!; try done.
    intros id _. cbn. rewrite app_nil_r. apply (Hq id).
  - awp_steps. split_and!; try done. intros id _. cbn. by rewrite app_nil_r.
Qed.

Lemma dispatched_app id es1 es2 : dispatched id (es1 ++ es2) = dispatched id es1 ++ dispatched id es2.
Proof. apply omap_app. Qed.
Lemma submitted_cons id m ms : submitted id (m :: ms) = submitted id [m] ++ submitted id ms.
Proof. apply (omap_app _ [m] ms). Qed.

Lemma sched_run s ms :
  sched_wf s →
  let '(s', es) := run_actor s ms in
  sched_wf s' ∧ max_in_flight s' = max_in_flight s ∧
  ∀ id, id ∈ (tenants s).*1 →
    queue_of id s ++ submitted id ms = dispatched id es ++ queue_of id s'.
Proof.
  revert s. induction ms as [|m ms IH]; intros s Hwf; cbn [run_actor].
  { split_and!; try done. intros. by rewrite app_nil_r. }
  pose proof (sched_step s m Hwf) as Hstep. destruct (handle s m) as [s1 e1].
  destruct Hstep as (Hwf1 & Hk1 & Hm1 & Hq1). specialize (IH s1 Hwf1).
  destruct (run_actor s1 ms) as [s2 e2]. destruct IH as (Hwf2 & Hm2 & Hq2).
  split_and!; [done|congruence|]. intros id Hid.
  rewrite submitted_cons, app_assoc, Hq1, dispatched_app, <-!app_assoc by done. f_equal.
  apply Hq2. by rewrite Hk1.
Qed.

Lemma scheduler_new_idle cfgs order max : all_idle (Scheduler_new cfgs order max).
Proof.
  unfold all_idle. simpl. apply Forall_forall. intros [i u] Hin.
  apply list_elem_of_omap in Hin as (t & _ & Ht). destruct (tenant_of cfgs t); by simplify_eq/=.
Qed.

Lemma idle_queue id s : all_idle s → queue_of id s = [].
Proof.
  unfold all_idle, queue_of. rewrite Forall_forall. intros H.
  destruct (get_tenant id (tenants s)) as [t|] eqn:Hg; [|done]. by apply (H _ (get_tenant_in _ _ _ Hg)).
Qed.

Lemma scheduler_new_wf cfgs order max : NoDup order → sched_wf (Scheduler_new cfgs order max).
Proof.
  intros Hnd. constructor; simpl; [|lia|right; apply scheduler_new_idle].
  induction Hnd as [|t order Hn Hnd IH]; [constructor|]. cbn.
    destruct (tenant_of cfgs t); cbn; [|done]. constructor; [|done].
    intros Hin. apply Hn. clear -Hin. induction order as [|u order IH]; [done|]. cbn in Hin.
    destruct (tenant_of cfgs u); cbn in Hin; [|right; auto].
    apply elem_of_cons in Hin as [->|?]; [by left|right; auto].
Qed.

(** C6 (the scheduler is work-conserving, bounded and FIFO per tenant): for any
    tenants and any sequence of messages, at most [max_in_flight] requests are in
    flight, a request waits only when that many are, and the requests of a known
    tenant handed to the dispatcher, followed by those still queued, are exactly
    those it submitted, in order.  In particular the dispatch loop terminates. *)
Theorem sched_fair_fifo (cfgs : list TenantConfig) (order : list Z) (max : nat) (ms : list FairShareMsg) :
  NoDup order →
  let s0 := Scheduler_new cfgs order max in
  let '(s, es) := run_actor s0 ms in
  in_flight s ≤ max ∧
  (in_flight s = max ∨ all_idle s) ∧
  (∀ id, id ∈ (tenants s0).*1 → submitted id ms = dispatched id es ++ queue_of id s) ∧
  is_Some (dispatch_loop (dispatch_fuel s) s).
Proof.
  intros Hnd s0. pose proof (scheduler_new_wf cfgs order max Hnd) as Hwf0. fold s0 in Hwf0.
  pose proof (sched_run s0 ms Hwf0) as Hr. destruct (run_actor s0 ms) as [s es].
  destruct Hr as ([Hk Hb Hbusy] & Hm & Hq). simpl in Hm. rewrite Hm in *. split_and!; try done.
  - intros id Hid. rewrite <-(Hq id Hid).
    by rewrite (idle_queue id s0 (scheduler_new_idle _ _ _)).
  - destruct (dispatch_loop_spec (dispatch_fuel s) s Hk) as (s' & es' & -> & _); [unfold dispatch_fuel; lia|].
    by eexists.
Qed.

Lemma dispatch_loop_full fuel s : max_in_flight s ≤ in_flight s → dispatch_loop (S fuel) s = Some (s, []).
Proof. intros. simpl. by rewrite decide_False by lia. Qed.

(** The earliest tenant goes next: when a slot is freed in a reachable full
    scheduler with work waiting, exactly one request is dispatched: the oldest of
    a tenant with work such that no other tenant with work has a strictly
    smaller virtual finish time, and that tenant's time advances by the inverse
    of its weight. *)
Theorem sched_picks_earliest (cfgs : list TenantConfig) (order : list Z) (max : nat)
    (ms : list FairShareMsg) (freed : Z) :
  NoDup order → 0 < max →
  let s := (run_actor (Scheduler_new cfgs order max) ms).1 in
  in_flight s = max → ¬ all_idle s →
  ∃ id t req reply rest,
    get_tenant id (tenants s) = Some t ∧ queue t = (req, reply) :: rest ∧
    (∀ id' t', get_tenant id' (tenants s) = Some t' → queue t' ≠ [] →
       f64_ltb (vfinish t') (vfinish t) = false) ∧
    let '(s', es) := handle s (Finished freed) in
    es = [Dispatch id req reply] ∧ in_flight s' = max ∧
    get_tenant id (tenants s') = Some {| tcfg := tcfg t; queue := rest;
      vfinish := f64_add (vfinish t) (increment (tcfg t)) |}.
Proof.
  intros Hnd Hmax s Hfull Hwork.
  assert (Hwf : sched_wf s ∧ max_in_flight s = max).
  { subst s. pose proof (sched_run (Scheduler_new cfgs order max) ms (scheduler_new_wf cfgs order max Hnd)).
    destruct (run_actor _ ms). naive_solver. }
  destruct Hwf as [[Hk _ _] Hm]. clearbody s.
  pose proof (dispatch_one_spec (set_in_flight (in_flight s - 1) s) Hk) as H1.
  unfold handle, sched_actor, sched_handle, try_dispatch, dispatch_fuel. act_unfold.
  rewrite Hm, Hfull. replace (max - (max - 1)) with 1 by lia. cbn [dispatch_loop]. simpl.
  rewrite decide_True by (simpl; lia). rewrite Hfull in H1.
  destruct (dispatch_one (set_in_flight (max - 1) s)) as [[s1 e]|]; [|done].
  destruct H1 as (id & t & req & reply & rest & Hg & Hq & -> & Hmin & Ht & Hm1 & Hi1).
  simpl in *. exists id, t, req, reply, rest. split_and!; try done.
  rewrite decide_False by lia. simpl. split_and!; [done|lia|]. rewrite Ht. by eapply get_update_eq.
Qed.
End scheduler.

Definition two_tenants : list TenantConfig := [{| tid := 1; weight := 1 |}; {| tid := 2; weight := 3 |}].

Lemma sched_fair_fifo_witness :
  let ms := [Submit 1 10 0; Submit 2 20 1; Submit 1 11 2; Finished 1; Submit 7 70 3] in
  let '(s, es) := run_actor (Scheduler_new two_tenants [2; 1]%Z 1) ms in
  es = [Dispatch 1 10 0; Dispatch 2 20 1; ReplyUnknown 3 (unknown_tenant 7)] ∧
  submitted 1 ms = dispatched 1 es ++ queue_of 1 s ∧ queue_of 1 s = [(11, 2)].
Proof.
  intros ms. assert (Hnd : NoDup [2; 1]%Z) by (by apply (bool_decide_unpack _)).
  pose proof (sched_fair_fifo two_tenants [2; 1]%Z 1 ms Hnd) as H.
  destruct (run_actor (Scheduler_new two_tenants [2; 1]%Z 1) ms) as [s es] eqn:Hr.
  destruct H as (_ & _ & Hq & _). vm_compute in Hr. injection Hr as <- <-.
  split_and!; [by vm_compute| |by vm_compute]. apply Hq. by apply (bool_decide_unpack _).
Defined.

Lemma sched_picks_earliest_witness :
  let s := (run_actor (Scheduler_new two_tenants [2; 1]%Z 1)
              [Submit 1 10 0; Submit 1 11 1; Submit 2 20 2]).1 in
  ∃ id req reply, (handle s (Finished 1)).2 = [Dispatch id req reply] ∧ id = 2%Z.
Proof.
  intros s.
  destruct (sched_picks_earliest two_tenants [2; 1]%Z 1 [Submit 1 10 0; Submit 1 11 1; Submit 2 20 2] 1)
    as (id & t & req & reply & rest & _ & _ & _ & H).
  - by apply (bool_decide_unpack _).
  - lia.
  - by vm_compute.
  - unfold all_idle. vm_compute. intros Hf. by inversion Hf.
  - fold s in H. destruct (handle s (Finished 1)) as [s' es] eqn:Hh. destruct H as (-> & _).
    exists id, req, reply. split; [done|]. vm_compute in Hh. by injection Hh.
Defined.

(** A tenant that was idle keeps its old virtual time: with equal weights, after
    tenant 1 was served four requests alone, tenant 2 is served four in a row
    while tenant 1 waits. *)
Example idle_tenant_monopolises :
  let cfgs := [{| tid := 1; weight := 1 |}; {| tid := 2; weight := 1 |}] in
  let alone := mjoin (replicate 4 [Submit 1 0 0; Finished 1]) in
  let both := Submit 1 1 1 :: mjoin (replicate 4 [Submit 1 1 1; Submit 2 2 2]) in
  (run_actor (Scheduler_new cfgs [1; 2]%Z 1) (alone ++ both ++ replicate 4 (Finished 1))).2 =
    replicate 4 (Dispatch 1 0 0) ++ Dispatch 1 1 1 :: replicate 4 (Dispatch 2 2 2).
Proof. by vm_compute. Qed.
