(* ===== verification/Moe.v ===== *)
(** * The mixture-of-experts router

    Models [crates/atomr-accel-patterns/src/moe.rs].  The gate and the experts are
    the client's: an expert that drops its sender answers [None].  The exponential
    of the C library and the value a floating sum starts from are parameters. *)

From Stdlib Require Import Floats.SpecFloat.
From stdpp Require Import pretty.
From S2P Require Import Prelude Actor Errors Float64 Ranking.

Section moe.
Context (expf : f32 → f32) (sum_start : f32).
Context (gate : list f32 → result (list f32) GpuError).
Context (run_expert : nat → list f32 → option (result (list f32) GpuError)).

Record MoeConfig := { experts : list nat; top_k : nat }.

Definition softmax (scores : list f32) : list f32 :=
  let max := foldl f32_max (S754_infinity true) scores in
  let exps := (λ s, expf (f32_sub s max)) <$> scores in
  let sum := foldl f32_add sum_start exps in
  match sum with
  | S754_zero _ => replicate (length scores) f32_zero
  | _ => (λ e, f32_div e sum) <$> exps
  end.

Definition score_at (scores : list f32) (i : nat) : f32 := default S754_nan (scores !! i).

(** The indices of the experts, best score first; [idx\[..k\]] panics when there are
    fewer than [k]. *)
Definition ranking (scores : list f32) : list nat := rank (score_at scores) (seq 0 (length scores)).
Definition fan_out (k n : nat) : nat := (k `min` n) `max` 1.
Definition choose (k : nat) (scores : list f32) : result (list nat) string :=
  let idx := ranking scores in
  let k := fan_out k (length idx) in
  if k <=? length idx then Ok (take k idx) else Err "range end index 1 out of range for slice of length 0".

Inductive MoeEff : Type :=
  | Told (expert : nat) (input : list f32)
  | Reply (r : result (list f32) GpuError)
  | TaskPanicked (msg : string).   (* the reply's sender is dropped *)

Definition bad_gate (n k : nat) : GpuError :=
  Unrecoverable ("MoE: gate produced " +:+ pretty n +:+ " scores, expected " +:+ pretty k).
Definition expert_dropped : GpuError := Unrecoverable "MoE: expert dropped reply".

(** The answers in the order the experts were told. *)
Fixpoint collect (rxs : list (option (result (list f32) GpuError))) : result (list (list f32)) GpuError :=
  match rxs with
  | [] => Ok []
  | Some (Ok o) :: rxs => match collect rxs with Ok os => Ok (o :: os) | Err e => Err e end
  | Some (Err e) :: _ => Err e
  | None :: _ => Err expert_dropped
  end.

(** [blended\[i\] += v * w] along one output. *)
Definition add_scaled (acc out : list f32) (w : f32) : list f32 :=
  imap (λ i x, match out !! i with Some v => f32_add x (f32_mul v w) | None => x end) acc.
Definition blend (outputs : list (list f32)) (weights : list f32) : list f32 :=
  let n := foldr (λ o m, length o `max` m) 0 outputs in
  foldl (λ acc ow, add_scaled acc ow.1 ow.2) (replicate n f32_zero) (zip outputs weights).

(** The task a [Run] spawns. *)
Definition run (cfg : MoeConfig) (input : list f32) : list MoeEff :=
  match gate input with
  | Err e => [Reply (Err e)]
  | Ok scores =>
    if negb (length scores =? length (experts cfg)) then
      [Reply (Err (bad_gate (length scores) (length (experts cfg))))]
    else
      match choose (top_k cfg) scores with
      | Err p => [TaskPanicked p]
      | Ok chosen =>
        let weights := softmax (score_at scores <$> chosen) in
        let told := omap (λ i, experts cfg !! i) chosen in
        ((λ e, Told e input) <$> told) ++
        [Reply match collect ((λ e, run_expert e input) <$> told) with
               | Ok outputs => Ok (blend outputs weights)
               | Err e => Err e
               end]
      end
  end.

(** *** Choice *)

Lemma ranking_perm scores : ranking scores ≡ₚ seq 0 (length scores).
Proof. apply rank_perm. Qed.

Lemma choose_spec k scores :
  scores ≠ [] → Forall (λ s, is_nan s = false) scores →
  ∃ chosen rest, choose k scores = Ok chosen ∧ chosen ++ rest ≡ₚ seq 0 (length scores) ∧
    length chosen = fan_out k (length scores) ∧ ranked (score_at scores) chosen ∧
    ∀ i j, i ∈ chosen → j ∈ rest → above (score_at scores) i j.
Proof.
  intros Hne Hn. assert (Hlen : 0 < length scores) by (destruct scores; simpl; [done|lia]).
  assert (Hnn : no_nan (score_at scores) (seq 0 (length scores))).
  { unfold no_nan. rewrite Forall_forall. intros i Hi%elem_of_seq. rewrite Forall_lookup in Hn. unfold score_at.
    destruct (lookup_lt_is_Some_2 scores i) as [s Hs]; [lia|]. rewrite Hs. by apply (Hn i). }
  unfold choose, ranking. rewrite !(Permutation_length (rank_perm _ _)), !length_seq.
  destruct (rank_take (score_at scores) (fan_out k (length scores)) _ Hnn) as (rest & Hp & Hl & Hr & Ha).
  rewrite length_seq in Hl. unfold fan_out in *. rewrite (proj2 (Nat.leb_le _ _)) by lia.
  eexists _, rest. split_and!; [done|by symmetry|lia|done|done].
Qed.

(** *** The blend *)

(** Position [i] of the weighted sum of the outputs long enough to have one. *)
Definition blend_at (i : nat) (ows : list (list f32 * f32)) : f32 :=
  foldl (λ acc ow, match ow.1 !! i with Some v => f32_add acc (f32_mul v ow.2) | None => acc end) f32_zero ows.

Lemma add_scaled_lookup acc out w i :
  add_scaled acc out w !! i =
    (λ x, match out !! i with Some v => f32_add x (f32_mul v w) | None => x end) <$> acc !! i.
Proof. unfold add_scaled. by rewrite list_lookup_imap. Qed.

Lemma blend_lookup outputs weights i :
  blend outputs weights !! i =
    if decide (i < foldr (λ o m, length o `max` m) 0 outputs) then Some (blend_at i (zip outputs weights)) else None.
Proof.
  unfold blend, blend_at. set (n := foldr _ 0 outputs).
  assert (H : ∀ ows acc, foldl (λ acc ow, add_scaled acc ow.1 ow.2) acc ows !! i =
    (λ x, foldl (λ acc ow, match ow.1 !! i with Some v => f32_add acc (f32_mul v ow.2) | None => acc end) x ows) <$> acc !! i).
  { induction ows as [|ow ows IH]; intros acc; simpl; [by destruct (acc !! i)|].
    rewrite IH, add_scaled_lookup. by destruct (acc !! i). }
  rewrite H. case_decide.
  - by rewrite lookup_replicate_2.
  - rewrite lookup_ge_None_2; [done|]. rewrite length_replicate. lia.
Qed.

Lemma expert_outputs_ok os : collect (Some <$> (Ok <$> os)) = Ok os.
Proof. induction os as [|o os IH]; [done|]. cbn. by rewrite IH. Qed.

Lemma expert_outputs_fail os post :
  (∀ e, collect ((Some <$> (Ok <$> os)) ++ Some (Err e) :: post) = Err e) ∧
  collect ((Some <$> (Ok <$> os)) ++ None :: post) = Err expert_dropped.
Proof.
  induction os as [|o os [IH1 IH2]]; [done|]. split; [intros e|]; cbn; [|by rewrite IH2]. by rewrite IH1.
Qed.

Lemma omap_experts (es : list nat) chosen :
  Forall (λ i, i < length es) chosen →
  length (omap (λ i, es !! i) chosen) = length chosen ∧
  ∀ j i, chosen !! j = Some i → omap (λ i, es !! i) chosen !! j = es !! i.
Proof.
  induction 1 as [|i chosen Hi Hc [IH1 IH2]]; [done|]. destruct (lookup_lt_is_Some_2 es i Hi) as [e He].
  cbn [omap list_omap]. rewrite He. split; [simpl; by rewrite IH1|].
  intros [|j] i'; simpl; [by intros [= <-]|apply IH2].
Qed.

(** Routing to the best experts: with a score for each of at least one expert,
    none a NaN, the input goes to as many of the best-scored experts as [top_k]
    says, but at least one and at most all, best first, and none left out scores
    above one of them; the request is answered once, by the position-wise sum of
    their outputs weighted by the softmax of their scores, or by the error of the
    first, best first, that fails or drops its sender; a wrong number of scores is
    refused before any expert is told. *)
Theorem moe_routes (cfg : MoeConfig) (input scores : list f32) :
  gate input = Ok scores →
  (length scores ≠ length (experts cfg) →
     run cfg input = [Reply (Err (bad_gate (length scores) (length (experts cfg))))]) ∧
  (length scores = length (experts cfg) → scores ≠ [] → Forall (λ s, is_nan s = false) scores →
     ∃ chosen rest told r,
       chosen ++ rest ≡ₚ seq 0 (length (experts cfg)) ∧
       length chosen = fan_out (top_k cfg) (length (experts cfg)) ∧ ranked (score_at scores) chosen ∧
       (∀ i j, i ∈ chosen → j ∈ rest → above (score_at scores) i j) ∧
       length told = length chosen ∧ (∀ j i, chosen !! j = Some i → told !! j = experts cfg !! i) ∧
       run cfg input = ((λ e, Told e input) <$> told) ++ [Reply r] ∧
       (∀ os, (λ e, run_expert e input) <$> told = Some <$> (Ok <$> os) →
          ∃ out, r = Ok out ∧ ∀ i, out !! i =
            if decide (i < foldr (λ o m, length o `max` m) 0 os) then
              Some (blend_at i (zip os (softmax (score_at scores <$> chosen))))
            else None) ∧
       (∀ os e post, (λ e, run_expert e input) <$> told = (Some <$> (Ok <$> os)) ++ Some (Err e) :: post → r = Err e) ∧
       (∀ os post, (λ e, run_expert e input) <$> told = (Some <$> (Ok <$> os)) ++ None :: post → r = Err expert_dropped)).
Proof.
  intros Hg. unfold run. rewrite Hg. split.
  - intros Hne. by rewrite (proj2 (Nat.eqb_neq _ _)).
  - intros Hlen Hne Hn. rewrite (proj2 (Nat.eqb_eq _ _)) by done. cbn [negb].
    destruct (choose_spec (top_k cfg) scores Hne Hn) as (chosen & rest & -> & Hp & Hl & Hr & Ha).
    rewrite Hlen in Hp, Hl. destruct (omap_experts (experts cfg) chosen) as [Ho1 Ho2].
    { rewrite Forall_forall. intros i Hi. assert (i ∈ seq 0 (length (experts cfg))) as Hs%elem_of_seq; [|lia].
      rewrite <-Hp. apply elem_of_app. by left. }
    eexists chosen, rest, _, _. split_and!; [done..|reflexivity| | |].
    + intros os ->. rewrite expert_outputs_ok. eexists. split; [done|]. intros i. apply blend_lookup.
    + intros os e post ->. by rewrite (proj1 (expert_outputs_fail os post)).
    + intros os post ->. by rewrite (proj2 (expert_outputs_fail os post)).
Qed.
End moe.

(** Without experts an empty score list passes the check, and the task panics. *)
Example moe_no_experts expf sum_start run_expert input :
  run expf sum_start (λ _, Ok []) run_expert {| experts := []; top_k := 2 |} input =
    [TaskPanicked "range end index 1 out of range for slice of length 0"].
Proof. reflexivity. Qed.

(** Three experts, the best of which answers twice its input. *)
Definition demo_cfg : MoeConfig := {| experts := [10; 11; 12]; top_k := 1 |}.
Definition demo_scores : list f32 := f32_of_Z <$> [1; 5; 2]%Z.

Abbreviation demo_run :=
  (run (λ _, f32_of_Z 1) f32_zero (λ _, Ok demo_scores) (λ e x, Some (Ok x)) demo_cfg [f32_of_Z 3]).

Lemma moe_routes_witness :
  ∃ told r, demo_run = ((λ e, Told e [f32_of_Z 3]) <$> told) ++ [Reply r] ∧ length told = 1.
Proof.
  destruct (moe_routes (λ _, f32_of_Z 1) f32_zero (λ _, Ok demo_scores) (λ e x, Some (Ok x)) demo_cfg [f32_of_Z 3]
    demo_scores eq_refl) as [_ H].
  destruct (H eq_refl ltac:(done) ltac:(repeat constructor))
    as (chosen & rest & told & r & _ & Hl & _ & _ & Ht & _ & Hrun & _).
  exists told, r. split; [exact Hrun|]. by rewrite Ht, Hl.
Defined.

Example moe_demo : demo_run = [Told 11 [f32_of_Z 3]; Reply (Ok [f32_of_Z 3])].
Proof. by vm_compute. Qed.
