(* ===== verification/Speculative.v ===== *)
(** * SpeculativeDecoder

    Models [crates/atomr-accel-patterns/src/speculative.rs]: the draft and the
    verifier, supplied by the user, are parameters.  The decoding loop runs with
    fuel; [spec_decode_correct] shows that it always ends. *)

From S2P Require Import Prelude Errors.

Record DecodeStats := { iterations : Z; draft_tokens : Z; accepted_tokens : Z; final_len : nat }.

Definition DecodeStats_default : DecodeStats :=
  {| iterations := 0; draft_tokens := 0; accepted_tokens := 0; final_len := 0 |}.

Record SpeculativeConfig := {
  draft : list Z → nat → result (list Z) GpuError;
  verifier : list Z → list Z → result (nat * option Z) GpuError;
  k_tokens : nat;
  max_total_tokens : nat;
}.

(** What one iteration decides: go on with the tokens, stop with them, or fail. *)
Inductive Iter : Type :=
  | Continue (tokens : list Z) (st : DecodeStats)
  | Break (tokens : list Z) (st : DecodeStats)
  | Fails (e : GpuError).

Definition count_draft (n : nat) (st : DecodeStats) : DecodeStats :=
  {| iterations := iterations st +₃₂ 1; draft_tokens := draft_tokens st +₃₂ wrap 32 (Z.of_nat n);
     accepted_tokens := accepted_tokens st; final_len := final_len st |}.
Definition count_accepted (n : nat) (st : DecodeStats) : DecodeStats :=
  {| iterations := iterations st; draft_tokens := draft_tokens st;
     accepted_tokens := accepted_tokens st +₃₂ wrap 32 (Z.of_nat n); final_len := final_len st |}.
Definition set_final_len (n : nat) (st : DecodeStats) : DecodeStats :=
  {| iterations := iterations st; draft_tokens := draft_tokens st;
     accepted_tokens := accepted_tokens st; final_len := n |}.

(** The check at the end of the loop body. *)
Definition end_of_body (cfg : SpeculativeConfig) (tokens : list Z) (st : DecodeStats) : Iter :=
  if max_total_tokens cfg <=? length tokens then Break tokens st else Continue tokens st.

(** The loop body, entered with [length tokens < max_total_tokens]. *)
Definition decode_body (cfg : SpeculativeConfig) (tokens : list Z) (st : DecodeStats) : Iter :=
  let remaining := max_total_tokens cfg - length tokens in
  let k := k_tokens cfg `min` remaining in
  if k =? 0 then Break tokens st
  else match draft cfg tokens k with
  | Err e => Fails e
  | Ok [] => Break tokens st
  | Ok drafted =>
    let candidates := take (length drafted `min` remaining) drafted in
    let st := count_draft (length candidates) st in
    match verifier cfg tokens candidates with
    | Err e => Fails e
    | Ok (accepted, replacement) =>
      let acc := accepted `min` length candidates in
      let tokens := tokens ++ take acc candidates in
      let st := count_accepted acc st in
      if acc <? length candidates then
        match replacement with
        | None => Break tokens st
        | Some t =>
          end_of_body cfg (if length tokens <? max_total_tokens cfg then tokens ++ [t] else tokens) st
        end
      else end_of_body cfg tokens st
    end
  end.

Fixpoint decode_loop (cfg : SpeculativeConfig) (fuel : nat) (tokens : list Z) (st : DecodeStats) :
    option (result (list Z * DecodeStats) GpuError) :=
  match fuel with
  | 0 => None
  | S fuel =>
    if length tokens <? max_total_tokens cfg then
      match decode_body cfg tokens st with
      | Continue tokens st => decode_loop cfg fuel tokens st
      | Break tokens st => Some (Ok (tokens, set_final_len (length tokens) st))
      | Fails e => Some (Err e)
      end
    else Some (Ok (tokens, set_final_len (length tokens) st))
  end.

(** Every iteration that goes on adds a token. *)
Definition decode_fuel (cfg : SpeculativeConfig) (tokens : list Z) : nat :=
  S (max_total_tokens cfg - length tokens).

(** [SpecMsg::Decode] *)
Definition decode (cfg : SpeculativeConfig) (prefix : list Z) :
    option (result (list Z * DecodeStats) GpuError) :=
  decode_loop cfg (decode_fuel cfg prefix) prefix DecodeStats_default.

(** ** What a decoding may produce *)

(** One round: the verifier accepted [acc] of the candidates drafted for the
    tokens, and the rest of the round is at most its replacement for the first
    rejected one. *)
Inductive round (cfg : SpeculativeConfig) (tokens : list Z) : list Z → Prop :=
  | round_intro k drafted n accepted replacement rest :
      draft cfg tokens k = Ok drafted →
      verifier cfg tokens (take n drafted) = Ok (accepted, replacement) →
      (rest = [] ∨ (accepted < length (take n drafted) ∧ ∃ t, replacement = Some t ∧ rest = [t])) →
      round cfg tokens (tokens ++ take (accepted `min` length (take n drafted)) (take n drafted) ++ rest).

Lemma round_extends cfg tokens tokens' : round cfg tokens tokens' → tokens `prefix_of` tokens'.
Proof. intros []. by eexists. Qed.

Lemma decode_body_spec cfg tokens st :
  length tokens < max_total_tokens cfg →
  match decode_body cfg tokens st with
  | Continue tokens' _ =>
    round cfg tokens tokens' ∧ length tokens < length tokens' < max_total_tokens cfg
  | Break tokens' _ =>
    (tokens' = tokens ∨ round cfg tokens tokens') ∧ length tokens' ≤ max_total_tokens cfg
  | Fails e =>
    (∃ k, draft cfg tokens k = Err e) ∨
    (∃ k drafted n, draft cfg tokens k = Ok drafted ∧ verifier cfg tokens (take n drafted) = Err e)
  end.
Proof.
  intros Hlt. unfold decode_body. destruct (_ =? 0); [split; [by left|lia]|].
  destruct (draft cfg tokens _) as [[|c cs]|e] eqn:Hd; [split; [by left|lia]| |by left; eexists].
  set (n := length (c :: cs) `min` (max_total_tokens cfg - length tokens)).
  assert (Hn : length (take n (c :: cs)) = n) by (rewrite length_take; unfold n; lia).
  assert (Hpos : 0 < n) by (unfold n; cbn [length]; lia).
  assert (Hrem : n ≤ max_total_tokens cfg - length tokens) by (unfold n; lia).
  clearbody n.
  destruct (verifier cfg tokens (take n (c :: cs))) as [[accepted replacement]|e] eqn:Hv;
    [|right; eauto].
  set (acc := accepted `min` length (take n (c :: cs))).
  assert (Hacc : length (take acc (take n (c :: cs))) = acc) by (rewrite length_take; unfold acc; lia).
  assert (Hle : acc ≤ n) by (unfold acc; lia).
  assert (Hrejected : acc < n → accepted < length (take n (c :: cs))) by (unfold acc; lia).
  assert (Hround : ∀ rest, (rest = [] ∨ (accepted < length (take n (c :: cs)) ∧ ∃ t, replacement = Some t ∧ rest = [t])) →
    round cfg tokens (tokens ++ take acc (take n (c :: cs)) ++ rest)).
  { intros rest Hr. by eapply round_intro. }
  unfold end_of_body. rewrite Hn.
  destruct (Nat.ltb_spec acc n) as [Hrej|Hall].
  - destruct replacement as [t|].
    + rewrite length_app, Hacc. destruct (Nat.ltb_spec (length tokens + acc) (max_total_tokens cfg)); [|lia].
      rewrite !length_app, Hacc. simpl.
      assert (Hr : round cfg tokens ((tokens ++ take acc (take n (c :: cs))) ++ [t])).
      { rewrite <-app_assoc. apply Hround. right. split; [auto|by eexists]. }
      destruct (Nat.leb_spec (max_total_tokens cfg) (length tokens + acc + 1));
        rewrite ?length_app, ?Hacc; simpl; (split; [auto|lia]).
    + rewrite length_app, Hacc. split; [|lia]. right. rewrite <-(app_nil_r (take acc _)). apply Hround. by left.
  - rewrite length_app, Hacc.
    assert (Hr : round cfg tokens (tokens ++ take acc (take n (c :: cs)))).
    { rewrite <-(app_nil_r (take acc _)). apply Hround. by left. }
    destruct (Nat.leb_spec (max_total_tokens cfg) (length tokens + acc));
      rewrite ?length_app, ?Hacc; (split; [auto|lia]).
Qed.

Lemma decode_loop_spec cfg fuel tokens st :
  max_total_tokens cfg - length tokens < fuel →
  ∃ r, decode_loop cfg fuel tokens st = Some r ∧
    match r with
    | Ok (tokens', st') =>
      rtc (round cfg) tokens tokens' ∧ final_len st' = length tokens' ∧
      length tokens' ≤ max_total_tokens cfg `max` length tokens
    | Err e => ∃ tokens', rtc (round cfg) tokens tokens' ∧
      ((∃ k, draft cfg tokens' k = Err e) ∨ (∃ c, verifier cfg tokens' c = Err e))
    end.
Proof.
  revert tokens st. induction fuel as [|fuel IH]; intros tokens st Hf; [lia|]. simpl.
  destruct (Nat.ltb_spec (length tokens) (max_total_tokens cfg)) as [Hlt|].
  2: { eexists. split; [done|]. simpl. split_and!; [done..|lia]. }
  pose proof (decode_body_spec cfg tokens st Hlt) as Hb.
  destruct (decode_body cfg tokens st) as [tokens' st'|tokens' st'|e].
  - destruct Hb as [Hr Hlen]. destruct (IH tokens' st') as (r & -> & Hres); [lia|].
    exists r. split; [done|]. destruct r as [[tokens2 st2]|e].
    + destruct Hres as (? & ? & ?). split_and!; [by eapply rtc_l|done|lia].
    + destruct Hres as (t2 & ? & ?). exists t2. split; [by eapply rtc_l|done].
  - destruct Hb as [[->|Hr] Hlen]; eexists; (split; [done|]); simpl; split_and!; try done; try lia.
    by apply rtc_once.
  - eexists. split; [done|]. exists tokens. split; [done|].
    destruct Hb as [?|(k & dr & n & _ & ?)]; [by left|right; eauto].
Qed.

(** C31 (decoding ends and keeps within its budget): for every draft and verifier the
    decoding loop terminates; it either answers an error of the draft or of the
    verifier, or an extension of the prefix, reached by rounds in which every
    token was accepted by the verifier or is its replacement, that never exceeds
    [max_total_tokens] (or the prefix, when that is longer), with its length
    reported. *)
Theorem spec_decode_correct (cfg : SpeculativeConfig) (prefix : list Z) :
  ∃ r, decode cfg prefix = Some r ∧
    match r with
    | Ok (tokens, st) =>
      rtc (round cfg) prefix tokens ∧ prefix `prefix_of` tokens ∧
      length tokens ≤ max_total_tokens cfg `max` length prefix ∧
      final_len st = length tokens
    | Err e => ∃ tokens, prefix `prefix_of` tokens ∧
      ((∃ k, draft cfg tokens k = Err e) ∨ (∃ c, verifier cfg tokens c = Err e))
    end.
Proof.
  assert (Hpre : ∀ t t', rtc (round cfg) t t' → t `prefix_of` t').
  { induction 1 as [|? ? ? ?%round_extends]; [done|by etrans]. }
  destruct (decode_loop_spec cfg (decode_fuel cfg prefix) prefix DecodeStats_default) as (r & Hr & Hres).
  { unfold decode_fuel. lia. }
  exists r. split; [done|]. destruct r as [[tokens st]|e].
  - destruct Hres as (? & ? & ?). split_and!; auto.
  - destruct Hres as (t & ? & ?). exists t. auto.
Qed.

Example decode_example :
  let cfg := {| draft := λ p k, Ok (replicate k 1%Z); verifier := λ p c, Ok (1, Some 9%Z);
                k_tokens := 3; max_total_tokens := 6 |} in
  decode cfg [0%Z] = Some (Ok ([0; 1; 9; 1; 9; 1]%Z,
    {| iterations := 3; draft_tokens := 7; accepted_tokens := 3; final_len := 6 |})).
Proof. by vm_compute. Qed.
