(* ===== verification/SharedState.v ===== *)
(** * SharedGpuStateCoordinator: a FIFO write lock

    Models [crates/atomr-accel-agents/src/shared_state.rs].  Tokens are handed
    out one at a time; the coordinator is specified by the queue of agents that
    have asked. *)

From S2P Require Import Prelude Actor.

Inductive SharedStateMsg : Type :=
  | AcquireWrite (agent_id : Z) (reply : nat)
  | ReleaseWrite (token : Z)
  | Snapshot (reply : nat)
  | AttachState (state : nat) (reply : nat)
  | StateStats (reply : nat).

Record SharedStateStats := { current_holder : option Z; waiting : nat; tokens_issued : Z }.

Record Coordinator := {
  counter : Z;
  waiters : list (Z * nat);
  held : option (Z * Z);
  state : option nat;
}.

Inductive StateEff : Type :=
  (** [reply.send(token)]; whether the receiver still exists is not looked at. *)
  | Grant (agent_id : Z) (reply : nat) (token : Z)
  | ReplySnapshot (reply : nat) (s : option nat)
  | ReplyUnit (reply : nat)
  | ReplyStateStats (reply : nat) (s : SharedStateStats).

Definition Coordinator_new : Coordinator :=
  {| counter := 0; waiters := []; held := None; state := None |}.

Definition set_waiters (w : list (Z * nat)) (c : Coordinator) : Coordinator :=
  {| counter := counter c; waiters := w; held := held c; state := state c |}.
Definition set_held (h : option (Z * Z)) (c : Coordinator) : Coordinator :=
  {| counter := counter c; waiters := waiters c; held := h; state := state c |}.
Definition set_counter (n : Z) (c : Coordinator) : Coordinator :=
  {| counter := n; waiters := waiters c; held := held c; state := state c |}.
Definition set_state (s : option nat) (c : Coordinator) : Coordinator :=
  {| counter := counter c; waiters := waiters c; held := held c; state := s |}.

Definition issue_token (agent_id : Z) (reply : nat) : act Coordinator StateEff unit :=
  modify (λ c, set_counter (counter c +₆₄ 1) c);;
  c ← get;
  let token := counter c in
  put (set_held (Some (agent_id, token)) c);;
  emit (Grant agent_id reply token).

Definition state_handle (m : SharedStateMsg) : act Coordinator StateEff unit :=
  c ← get;
  match m with
  | AcquireWrite agent reply =>
    match held c with
    | None => issue_token agent reply
    | Some _ => put (set_waiters (waiters c ++ [(agent, reply)]) c)
    end
  | ReleaseWrite token =>
    match held c with
    | Some (_, t) =>
      if (t =? token)%Z then
        put (set_held None c);;
        match waiters c with
        | [] => skip
        | (next_id, next_reply) :: rest =>
          put (set_waiters rest (set_held None c));;
          issue_token next_id next_reply
        end
      else skip
    | None => skip
    end
  | Snapshot reply => emit (ReplySnapshot reply (state c))
  | AttachState s reply => put (set_state (Some s) c);; emit (ReplyUnit reply)
  | StateStats reply =>
    emit (ReplyStateStats reply
      {| current_holder := fst <$> held c; waiting := length (waiters c);
         tokens_issued := counter c |})
  end.

#[global] Instance state_actor : Actor Coordinator SharedStateMsg StateEff :=
  λ c m, exec (state_handle m) c.

(** ** The lock *)

Definition requests (m : SharedStateMsg) : list (Z * nat) :=
  match m with AcquireWrite a r => [(a, r)] | _ => [] end.

(** The grants, in order: agent, reply channel, token. *)
Definition grants (es : list StateEff) : list (Z * nat * Z) :=
  omap (λ e, match e with Grant a r t => Some (a, r, t) | _ => None end) es.

(** [n] tokens have been granted: the counter and the holder say so, and nobody
    waits while the lock is free. *)
Record lock_inv (n : nat) (prev : option (Z * Z)) (c : Coordinator) : Prop := {
  lk_counter : counter c = wrap 64 (Z.of_nat n);
  lk_held : held c = None ∨ held c = prev;
  lk_free : held c = None → waiters c = [];
}.

Definition holder_of (g : Z * nat * Z) : Z * Z := (g.1.1, g.2).

Definition last_grant (prev : option (Z * Z)) (gs : list (Z * nat * Z)) : option (Z * Z) :=
  match last gs with Some g => Some (holder_of g) | None => prev end.

(** One message: at most one grant, to the longest waiting agent, with the next
    token, and only when the lock is free or its token is returned. *)
Lemma lock_step n prev c m :
  lock_inv n prev c →
  let '(c', es) := handle c m in
  lock_inv (n + length (grants es)) (last_grant prev (grants es)) c' ∧
  waiters c ++ requests m = (fst <$> grants es) ++ waiters c' ∧
  (grants es = [] ∨ ∃ g, grants es = [g] ∧ g.2 = wrap 64 (Z.of_nat (S n)) ∧ held c' = Some (holder_of g) ∧
     (held c = None ∨ ∃ a t, held c = Some (a, t) ∧ m = ReleaseWrite t)) ∧
  (∀ a t, held c = Some (a, t) → m ≠ ReleaseWrite t → held c' = held c ∧ grants es = []).
Proof.
  intros [Hc Hh Hf]. apply (awp_exec (state_handle m)). unfold state_handle. do 2 awp_step.
  assert (Hnext : ∀ c0, counter c0 = counter c → (counter c0 +₆₄ 1) = wrap 64 (Z.of_nat (S n))).
  { intros c0 ->. rewrite Hc. unfold wadd, wrap. rewrite Zplus_mod_idemp_l. f_equal. lia. }
  destruct m as [agent reply|token|reply|s reply|reply].
  - destruct (held c) as [[a t]|] eqn:Heq.
    + awp_steps. split_and!; try done.
      * constructor; simpl; rewrite ?Nat.add_0_r, ?Heq; naive_solver.
      * by left.
    + unfold issue_token. awp_steps. specialize (Hf eq_refl). simpl. rewrite !Hf. split_and!; try done.
      * constructor; simpl; [|by right|done]. rewrite (Hnext c) by done. f_equal. lia.
      * right. eexists. split_and!; [done| |done|by left]. simpl. by apply (Hnext c).
  - destruct (held c) as [[a t]|] eqn:Heq; [destruct (Z.eqb_spec t token) as [->|Hne]|].
    + do 2 awp_step. destruct (waiters c) as [|[next_id next_reply] rest] eqn:Hw.
      * awp_steps. split_and!; try done.
        -- constructor; simpl; rewrite ?Nat.add_0_r, ?Heq; naive_solver.
        -- by left.
        -- intros ?? [= -> ->]. done.
      * unfold issue_token. awp_steps. split_and!; try done.
        -- constructor; simpl; [|by right|done]. rewrite (Hnext c) by done. f_equal. lia.
        -- right. eexists. split_and!; [done| |done|right; by eexists _, _]. simpl. by apply (Hnext c).
        -- intros ?? [= -> ->]. done.
    + awp_steps. split_and!; try done.
      * constructor; simpl; rewrite ?Nat.add_0_r, ?Heq; naive_solver.
      * by left.
    + awp_steps. specialize (Hf eq_refl). split_and!; try done.
      * constructor; simpl; rewrite ?Nat.add_0_r, ?Heq; naive_solver.
      * by left.
  - awp_steps. split_and!; simpl; rewrite ?app_nil_r; try done; [|by left].
    constructor; simpl; rewrite ?Nat.add_0_r, ?Heq; naive_solver.
  - awp_steps. split_and!; simpl; rewrite ?app_nil_r; try done; [|by left].
    constructor; simpl; rewrite ?Nat.add_0_r, ?Heq; naive_solver.
  - awp_steps. split_and!; simpl; rewrite ?app_nil_r; try done; [|by left].
    constructor; simpl; rewrite ?Nat.add_0_r, ?Heq; naive_solver.
Qed.

Lemma last_grant_app prev gs1 gs2 :
  last_grant (last_grant prev gs1) gs2 = last_grant prev (gs1 ++ gs2).
Proof. unfold last_grant. rewrite last_app. by destruct (last gs2), (last gs1). Qed.

Lemma grants_app es1 es2 : grants (es1 ++ es2) = grants es1 ++ grants es2.
Proof. apply omap_app. Qed.

Lemma lock_run n prev c ms :
  lock_inv n prev c →
  let '(c', es) := run_actor c ms in
  lock_inv (n + length (grants es)) (last_grant prev (grants es)) c' ∧
  waiters c ++ (ms ≫= requests) = (fst <$> grants es) ++ waiters c' ∧
  (∀ i g, grants es !! i = Some g → g.2 = wrap 64 (Z.of_nat (S (n + i)))).
Proof.
  revert n prev c. induction ms as [|m ms IH]; intros n prev c Hinv; cbn [run_actor].
  { cbn. rewrite app_nil_r, Nat.add_0_r. split_and!; done. }
  pose proof (lock_step n prev c m Hinv) as Hs. destruct (handle c m) as [c1 e1].
  destruct Hs as (Hinv1 & Hq1 & Hg1 & _). specialize (IH _ _ _ Hinv1).
  destruct (run_actor c1 ms) as [c2 e2]. destruct IH as (Hinv2 & Hq2 & Hg2).
  rewrite grants_app, length_app, last_grant_app, Nat.add_assoc in *. split_and!.
  - done.
  - cbn [mbind list_bind]. rewrite app_assoc, Hq1, <-app_assoc.
    change (list_bind _ _ requests ms) with (ms ≫= requests). rewrite Hq2, fmap_app. by rewrite app_assoc.
  - intros i g. destruct Hg1 as [Hn|(g1 & Hn & Hg1 & _)]; rewrite Hn in *; simpl in *.
    + intros Hi. rewrite (Hg2 i g Hi). by rewrite Nat.add_0_r.
    + destruct i as [|i]; simpl; intros Hi; [simplify_eq; by rewrite Nat.add_0_r|].
      rewrite (Hg2 i g Hi). f_equal. lia.
Qed.

Lemma coordinator_new_inv : lock_inv 0 None Coordinator_new.
Proof. constructor; by auto. Qed.

(** C12 (write tokens form a fair lock): along every run, the agents granted a token
    followed by those waiting are exactly the agents that asked, in order; the
    [i]-th token is [i]; while a token is held nobody else is granted one until
    that very token is returned; and whenever the lock is free nobody waits. *)
Theorem shared_state_lock (ms : list SharedStateMsg) (m : SharedStateMsg) :
  let '(c, es) := run_actor Coordinator_new ms in
  (ms ≫= requests) = (fst <$> grants es) ++ waiters c ∧
  (∀ i g, grants es !! i = Some g → g.2 = wrap 64 (Z.of_nat (S i))) ∧
  (held c = None → waiters c = []) ∧
  (∀ a t, held c = Some (a, t) → ∃ r, last (grants es) = Some (a, r, t)) ∧
  (∀ a t, held c = Some (a, t) → m ≠ ReleaseWrite t → grants (handle c m).2 = []).
Proof.
  pose proof (lock_run 0 None Coordinator_new ms coordinator_new_inv) as Hr.
  destruct (run_actor Coordinator_new ms) as [c es]. destruct Hr as (Hinv & Hq & Hg).
  split_and!; try done; [by destruct Hinv| |].
  - intros a t Hh. destruct Hinv as [_ [Hn|Hl] _]; [congruence|].
    rewrite Hl in Hh. unfold last_grant in Hh. destruct (last (grants es)) as [[[a' r] t']|]; [|done].
    unfold holder_of in Hh. simpl in Hh. simplify_eq. by eexists.
  - intros a t Hh Hm. pose proof (lock_step _ _ c m Hinv) as Hs.
    destruct (handle c m) as [c' es']. by apply Hs in Hh as [_ ?].
Qed.

(** The token of an agent whose receiver is gone is never returned: everyone
    behind it waits for ever. *)
Example lost_token :
  let '(c, es) := run_actor Coordinator_new [AcquireWrite 1 0; AcquireWrite 2 1; AcquireWrite 3 2; ReleaseWrite 1] in
  grants es = [(1%Z, 0, 1%Z); (2%Z, 1, 2%Z)] ∧ held c = Some (2, 2)%Z ∧ waiters c = [(3%Z, 2)].
Proof. by vm_compute. Qed.
