(* ===== verification/EmbeddingCache.v ===== *)
(** * EmbeddingCache: a least-recently-used cache

    Models [crates/atomr-accel-agents/src/embedding_cache.rs].  The hash of the
    standard library's [DefaultHasher] is a parameter; an embedding is an opaque
    value.  The cache, a map with a recency queue beside it, is proved to
    implement one association list ordered by recency. *)

From S2P Require Import Prelude Actor.

Section cache.
Context {V : Type} (hash_key : list Z → Z).

Record CacheStats := { hits : Z; misses : Z; cache_size : nat; capacity : nat }.
Record EmbeddingCacheConfig := { capacity_entries : nat; embedding_dim : nat }.

Inductive CacheMsg : Type :=
  | Get (key : list Z) (reply : nat)
  | Insert (key : list Z) (value : V) (reply : nat)
  | Invalidate (key : list Z) (reply : nat)
  | CStats (reply : nat).

Record Cache := {
  cconfig : EmbeddingCacheConfig;
  cache : gmap Z V;
  order : list Z;
  cstats : CacheStats;
}.

Inductive CacheEff : Type :=
  | ReplyValue (reply : nat) (v : option V)
  | ReplyDone (reply : nat)
  | ReplyRemoved (reply : nat) (b : bool)
  | ReplyCStats (reply : nat) (s : CacheStats).

Definition Cache_new (cfg : EmbeddingCacheConfig) : Cache :=
  {| cconfig := cfg; cache := ∅; order := [];
     cstats := {| hits := 0; misses := 0; cache_size := 0; capacity := capacity_entries cfg |} |}.

Definition set_cache (m : gmap Z V) (c : Cache) : Cache :=
  {| cconfig := cconfig c; cache := m; order := order c; cstats := cstats c |}.
Definition set_order (o : list Z) (c : Cache) : Cache :=
  {| cconfig := cconfig c; cache := cache c; order := o; cstats := cstats c |}.
Definition count_hit (c : Cache) : Cache :=
  {| cconfig := cconfig c; cache := cache c; order := order c;
     cstats := {| hits := hits (cstats c) +₆₄ 1; misses := misses (cstats c);
                  cache_size := cache_size (cstats c); capacity := capacity (cstats c) |} |}.
Definition count_miss (c : Cache) : Cache :=
  {| cconfig := cconfig c; cache := cache c; order := order c;
     cstats := {| hits := hits (cstats c); misses := misses (cstats c) +₆₄ 1;
                  cache_size := cache_size (cstats c); capacity := capacity (cstats c) |} |}.
Definition update_size (c : Cache) : Cache :=
  {| cconfig := cconfig c; cache := cache c; order := order c;
     cstats := {| hits := hits (cstats c); misses := misses (cstats c);
                  cache_size := size (cache c); capacity := capacity (cstats c) |} |}.

(** Removal of the first occurrence. *)
Fixpoint remove_first (k : Z) (l : list Z) : list Z :=
  match l with
  | [] => []
  | x :: l => if decide (x = k) then l else x :: remove_first k l
  end.

Definition touch (k : Z) (c : Cache) : Cache := set_order (remove_first k (order c) ++ [k]) c.

(** The eviction at the start of [Insert]. *)
Definition make_room (h : Z) (c : Cache) : Cache :=
  if decide (capacity_entries (cconfig c) ≤ size (cache c) ∧ cache c !! h = None) then
    match order c with
    | [] => c
    | victim :: rest => set_cache (delete victim (cache c)) (set_order rest c)
    end
  else c.

Definition cache_handle (m : CacheMsg) : act Cache CacheEff unit :=
  c ← get;
  match m with
  | Get key reply =>
    let h := hash_key key in
    match cache c !! h with
    | Some v => put (touch h (count_hit c));; emit (ReplyValue reply (Some v))
    | None => put (count_miss c);; emit (ReplyValue reply None)
    end
  | Insert key value reply =>
    let h := hash_key key in
    modify (make_room h);;
    modify (λ c, set_cache (<[h := value]> (cache c)) c);;
    modify (touch h);;
    modify update_size;;
    emit (ReplyDone reply)
  | Invalidate key reply =>
    let h := hash_key key in
    match cache c !! h with
    | Some _ =>
      put (update_size (set_order (remove_first h (order c)) (set_cache (delete h (cache c)) c)));;
      emit (ReplyRemoved reply true)
    | None => emit (ReplyRemoved reply false)
    end
  | CStats reply => emit (ReplyCStats reply (cstats c))
  end.

#[global] Instance cache_actor : Actor Cache CacheMsg CacheEff := λ c m, exec (cache_handle m) c.

(** ** Reference: one list, least recent first *)

Abbreviation lru := (list (Z * V)).

Definition lru_remove (h : Z) (l : lru) : lru := filter (λ kv, kv.1 ≠ h) l.
Definition lru_find (h : Z) (l : lru) : option V := snd <$> find (λ kv, bool_decide (kv.1 = h)) l.

Definition lru_step (cap : nat) (l : lru) (m : CacheMsg) : lru * list CacheEff :=
  match m with
  | Get key reply =>
    match lru_find (hash_key key) l with
    | Some v => (lru_remove (hash_key key) l ++ [(hash_key key, v)], [ReplyValue reply (Some v)])
    | None => (l, [ReplyValue reply None])
    end
  | Insert key value reply =>
    let h := hash_key key in
    let l := match lru_find h l with
             | None => if cap <=? length l then tail l else l
             | Some _ => l
             end in
    (lru_remove h l ++ [(h, value)], [ReplyDone reply])
  | Invalidate key reply =>
    match lru_find (hash_key key) l with
    | Some _ => (lru_remove (hash_key key) l, [ReplyRemoved reply true])
    | None => (l, [ReplyRemoved reply false])
    end
  | CStats reply => (l, [])
  end.

(** The replies that do not report statistics. *)
Definition not_stats (e : CacheEff) : bool := match e with ReplyCStats _ _ => false | _ => true end.

Definition implements (c : Cache) (l : lru) : Prop :=
  NoDup l.*1 ∧ order c = l.*1 ∧ cache c = list_to_map l.

(** *** The reference on lists without repeated keys *)

Lemma lru_find_lookup h l : lru_find h l = (list_to_map l : gmap Z V) !! h.
Proof.
  unfold lru_find. induction l as [|[k v] l IH]; simpl; [by rewrite lookup_empty|].
  case_bool_decide; subst; simpl; [by rewrite lookup_insert_eq|]. by rewrite lookup_insert_ne.
Qed.

Lemma remove_first_notin k l : k ∉ l → remove_first k l = l.
Proof.
  induction l as [|x l IH]; simpl; [done|]. rewrite not_elem_of_cons. intros [? ?].
  rewrite decide_False by done. f_equal. auto.
Qed.

Lemma lru_remove_cons h k v (l : lru) :
  lru_remove h ((k, v) :: l) = if decide (k = h) then lru_remove h l else (k, v) :: lru_remove h l.
Proof.
  unfold lru_remove. rewrite filter_cons. simpl. destruct (decide (k = h)) as [->|].
  - by rewrite decide_False by (by intros []).
  - by rewrite decide_True.
Qed.

Lemma lru_remove_notin h (l : lru) : h ∉ l.*1 → lru_remove h l = l.
Proof.
  induction l as [|[k v] l IH]; [done|]. rewrite fmap_cons, not_elem_of_cons, lru_remove_cons.
  intros [? ?]. rewrite decide_False by (simpl in *; congruence). f_equal. by apply IH.
Qed.

Lemma remove_first_keys h (l : lru) : NoDup l.*1 → remove_first h l.*1 = (lru_remove h l).*1.
Proof.
  induction l as [|[k v] l IH]; [done|]. rewrite fmap_cons, lru_remove_cons.
  intros [Hk Hd]%NoDup_cons. simpl in *. destruct (decide (k = h)) as [->|Hne].
  - by rewrite (lru_remove_notin h l).
  - rewrite fmap_cons. simpl. f_equal. by apply IH.
Qed.

Lemma lru_remove_map h (l : lru) :
  NoDup l.*1 → (list_to_map (lru_remove h l) : gmap Z V) = delete h (list_to_map l).
Proof.
  induction l as [|[k v] l IH]; [simpl; by rewrite delete_empty|]. rewrite fmap_cons, lru_remove_cons.
  intros [Hk Hd]%NoDup_cons. simpl in *. destruct (decide (k = h)) as [->|Hne]; simpl.
  - rewrite delete_insert_eq, (lru_remove_notin h l Hk).
    rewrite delete_id; [done|]. by apply not_elem_of_list_to_map_1.
  - rewrite delete_insert_ne by done. f_equal. by apply IH.
Qed.

Lemma lru_remove_nodup h (l : lru) : NoDup l.*1 → NoDup (lru_remove h l).*1 ∧ h ∉ (lru_remove h l).*1.
Proof.
  intros Hd. split.
  - eapply sublist_NoDup; [exact Hd|]. apply fmap_sublist. apply sublist_filter.
  - intros ([k v] & -> & [Hne _]%list_elem_of_filter)%list_elem_of_fmap. done.
Qed.

Lemma push_map h v (l : lru) :
  h ∉ l.*1 → (list_to_map (l ++ [(h, v)]) : gmap Z V) = <[h := v]> (list_to_map l).
Proof.
  intros Hn. rewrite list_to_map_app. simpl.
  rewrite insert_empty, map_union_comm; [symmetry; apply insert_union_singleton_l|].
  apply map_disjoint_singleton_r. by apply not_elem_of_list_to_map_1.
Qed.

(** ** Refinement *)

Lemma implements_size c l : implements c l → size (cache c) = length l.
Proof. intros (Hd & _ & ->). apply map_size_list_to_map, Hd. Qed.

Lemma implements_touch c l h v :
  NoDup l.*1 → order c = l.*1 → cache c = <[h := v]> (list_to_map l) →
  implements (touch h c) (lru_remove h l ++ [(h, v)]).
Proof.
  intros Hd Ho Hc. destruct (lru_remove_nodup h l Hd) as [Hd' Hn]. split_and!.
  - rewrite fmap_app. apply NoDup_app. split_and!; [done| |apply NoDup_singleton].
    intros x Hx ->%list_elem_of_singleton. done.
  - unfold touch. simpl. by rewrite fmap_app, Ho, remove_first_keys.
  - unfold touch. simpl. rewrite Hc, push_map, lru_remove_map by done. by rewrite insert_delete_eq.
Qed.

Lemma make_room_spec c l h :
  implements c l →
  implements (make_room h c)
    (match lru_find h l with
     | None => if capacity_entries (cconfig c) <=? length l then tail l else l
     | Some _ => l
     end) ∧ cconfig (make_room h c) = cconfig c ∧ cstats (make_room h c) = cstats c.
Proof.
  intros Hi. pose proof (implements_size c l Hi) as Hs. pose proof Hi as (Hd & Ho & Hc).
  unfold make_room. rewrite Hs, Hc, <-lru_find_lookup.
  destruct (lru_find h l) as [v|] eqn:Hf; [by rewrite decide_False by naive_solver|].
  destruct (Nat.leb_spec (capacity_entries (cconfig c)) (length l));
    [rewrite decide_True by done|by rewrite decide_False by (intros []; lia)].
  rewrite Ho. destruct l as [|[k w] l]; simpl; [done|]. cbn in Hd. apply NoDup_cons in Hd as [Hk Hd].
  split_and!; try done. split_and!; simpl; try done. 
  rewrite delete_insert_eq, delete_id; [done|]. by apply not_elem_of_list_to_map_1.
Qed.

Lemma cache_step c l m :
  implements c l →
  let '(c', es) := handle c m in
  let '(l', es') := lru_step (capacity_entries (cconfig c)) l m in
  implements c' l' ∧ cconfig c' = cconfig c ∧ filter (λ e, Is_true (not_stats e)) es = es'.
Proof.
  intros Hi. pose proof Hi as (Hd & Ho & Hc). unfold handle, cache_actor, cache_handle.
  destruct m as [key reply|key value reply|key reply|reply]; act_unfold.
  - rewrite (lru_find_lookup (hash_key key)), <-Hc.
    destruct (cache c !! hash_key key) as [v|] eqn:Hv; simpl; split_and!; try done.
    apply (implements_touch (count_hit c)); simpl; try done.
    rewrite <-Hc. symmetry. by apply insert_id.
  - destruct (make_room_spec c l (hash_key key) Hi) as ((Hd1 & Ho1 & Hc1) & Hcf & _).
    split_and!; [|done..]. unfold implements, update_size.
    apply (implements_touch (set_cache (<[hash_key key := value]> (cache (make_room (hash_key key) c)))
      (make_room (hash_key key) c))); simpl; [done|done|by rewrite Hc1].
  - rewrite (lru_find_lookup (hash_key key)), <-Hc.
    destruct (cache c !! hash_key key) as [v|] eqn:Hv; simpl; split_and!; try done.
    destruct (lru_remove_nodup (hash_key key) l Hd). split_and!; simpl; [done| |].
    + by rewrite Ho, remove_first_keys.
    + by rewrite Hc, lru_remove_map.
  - by split_and!.
Qed.

Fixpoint lru_run (cap : nat) (l : lru) (ms : list CacheMsg) : lru * list CacheEff :=
  match ms with
  | [] => (l, [])
  | m :: ms =>
    let '(l1, e1) := lru_step cap l m in
    let '(l2, e2) := lru_run cap l1 ms in (l2, e1 ++ e2)
  end.

Lemma cache_run c l ms :
  implements c l →
  let '(c', es) := run_actor c ms in
  let '(l', es') := lru_run (capacity_entries (cconfig c)) l ms in
  implements c' l' ∧ filter (λ e, Is_true (not_stats e)) es = es'.
Proof.
  revert c l. induction ms as [|m ms IH]; intros c l Hi; cbn [run_actor lru_run]; [done|].
  pose proof (cache_step c l m Hi) as Hs. destruct (handle c m) as [c1 e1].
  destruct (lru_step _ l m) as [l1 e1']. destruct Hs as (Hi1 & Hcf & He1).
  specialize (IH c1 l1 Hi1). rewrite Hcf in IH. destruct (run_actor c1 ms) as [c2 e2].
  destruct (lru_run _ l1 ms) as [l2 e2']. destruct IH as [Hi2 He2].
  split; [done|]. by rewrite filter_app, He1, He2.
Qed.

Lemma lru_remove_found h v (l : lru) :
  NoDup l.*1 → lru_find h l = Some v → length l = S (length (lru_remove h l)).
Proof.
  rewrite lru_find_lookup. induction l as [|[k w] l IH]; [done|].
  rewrite fmap_cons, lru_remove_cons. intros [Hk Hd]%NoDup_cons. simpl in *.
  destruct (decide (k = h)) as [->|Hne]; [by rewrite (lru_remove_notin h l)|].
  rewrite lookup_insert_ne by done. intros Hf. simpl. f_equal. by apply IH.
Qed.

Lemma lru_step_length cap l m :
  NoDup l.*1 → length l ≤ cap `max` 1 → length (lru_step cap l m).1 ≤ cap `max` 1.
Proof.
  intros Hd Hl. assert (Hr : ∀ h (l : lru), length (lru_remove h l) ≤ length l) by (intros; apply length_filter).
  destruct m as [key reply|key value reply|key reply|reply]; simpl.
  - destruct (lru_find (hash_key key) l) as [v|] eqn:Hf; simpl; [|done].
    rewrite length_app. simpl. pose proof (lru_remove_found _ _ _ Hd Hf). lia.
  - rewrite length_app. simpl. destruct (lru_find (hash_key key) l) as [v|] eqn:Hf.
    + pose proof (lru_remove_found _ _ _ Hd Hf). lia.
    + destruct (Nat.leb_spec cap (length l)).
      * pose proof (Hr (hash_key key) (tail l)). destruct l; simpl in *; lia.
      * pose proof (Hr (hash_key key) l). lia.
  - pose proof (Hr (hash_key key) l). destruct (lru_find _ _); simpl; lia.
  - done.
Qed.

Lemma lru_run_length c l ms :
  implements c l → length l ≤ capacity_entries (cconfig c) `max` 1 →
  length (lru_run (capacity_entries (cconfig c)) l ms).1 ≤ capacity_entries (cconfig c) `max` 1.
Proof.
  revert c l. induction ms as [|m ms IH]; intros c l Hi Hl; cbn [lru_run]; [done|].
  pose proof (cache_step c l m Hi) as Hs. destruct (handle c m) as [c1 e1].
  pose proof (lru_step_length (capacity_entries (cconfig c)) l m (proj1 Hi) Hl) as Hl1.
  destruct (lru_step _ l m) as [l1 e1']. destruct Hs as (Hi1 & Hcf & _). rewrite <-Hcf in *.
  specialize (IH c1 l1 Hi1 Hl1). by destruct (lru_run _ l1 ms).
Qed.

(** C7 (the cache is a least-recently-used cache): for every hash function and every
    sequence of messages, the replies to [Get], [Insert] and [Invalidate] are
    those of one list of entries ordered by last use, from which an insertion of
    a new key evicts the least recently used entry when [capacity_entries] are
    held; map and recency queue always hold the same keys, and never more than
    the capacity (one entry when the capacity is zero). *)
Theorem cache_refines_lru (cfg : EmbeddingCacheConfig) (ms : list CacheMsg) :
  let '(c, es) := run_actor (Cache_new cfg) ms in
  let '(l, es') := lru_run (capacity_entries cfg) [] ms in
  filter (λ e, Is_true (not_stats e)) es = es' ∧
  NoDup (order c) ∧ order c = l.*1 ∧ cache c = list_to_map l ∧
  (∀ k, k ∈ order c ↔ is_Some (cache c !! k)) ∧
  size (cache c) ≤ capacity_entries cfg `max` 1.
Proof.
  assert (H0 : implements (Cache_new cfg) []) by (split_and!; [constructor|done..]).
  pose proof (cache_run (Cache_new cfg) [] ms H0) as Hr.
  pose proof (lru_run_length (Cache_new cfg) [] ms H0 (Nat.le_0_l _)) as Hl. cbn [cconfig Cache_new] in *.
  destruct (run_actor (Cache_new cfg) ms) as [c es]. destruct (lru_run _ [] ms) as [l es'].
  destruct Hr as [Hi He]. pose proof (implements_size c l Hi) as Hsz. destruct Hi as (Hd & Ho & Hc).
  split_and!; try done; [by rewrite Ho| |by rewrite Hsz].
  intros k. rewrite Ho, Hc. split.
  - intros Hk. destruct ((list_to_map l : gmap Z V) !! k) eqn:Hn; [by eexists|].
    by apply not_elem_of_list_to_map_2 in Hn.
  - intros [v Hv%elem_of_list_to_map_2]. apply list_elem_of_fmap. by exists (k, v).
Qed.
End cache.
