(* ===== verification/Rag.v ===== *)
(** * The vector index and the retrieval pipeline

    Models [vector_index.rs] and [rag.rs] of [crates/atomr-accel-agents/src].  The
    pipeline asks the embedding cache of [EmbeddingCache.v] and the index; what
    other clients send between its asks is part of the run.  The embedding and the
    answering functions are the client's.  An ask can fail, by its timeout or a
    stopped actor, whether or not the message was handled.  The value a floating
    sum starts from is a parameter, as it is of the standard library. *)

From Stdlib Require Import Floats.SpecFloat.
From stdpp Require Import pretty.
From S2P Require Import Prelude Actor Errors Float64 Ranking EmbeddingCache.

(** ** [CpuVectorIndex] *)

Module VectorIndex.

Record VectorEntry := { id : Z; embedding : list f32 }.
Record CpuVectorIndex := { dim : nat; entries : list VectorEntry }.

Inductive VectorIndexMsg : Type :=
  | InsertEntry (entry : VectorEntry) (reply : nat)
  | Search (query : list f32) (top_k : nat) (reply : nat)
  | IndexStats (reply : nat).

Inductive IndexEff : Type :=
  | ReplyInserted (reply : nat) (r : result unit GpuError)
  | ReplyFound (reply : nat) (r : result (list (Z * f32)) GpuError)
  | ReplyCount (reply : nat) (n : nat).

Definition CpuVectorIndex_new (dim : nat) : CpuVectorIndex := {| dim := dim; entries := [] |}.

Section index.
Context (sum_start : f32).

Definition sum (l : list f32) : f32 := foldl f32_add sum_start l.
Definition is_zero (x : f32) : bool := match x with S754_zero _ => true | _ => false end.

Definition cosine (a b : list f32) : f32 :=
  let dot := sum (zip_with f32_mul a b) in
  let na := f32_sqrt (sum ((λ x, f32_mul x x) <$> a)) in
  let nb := f32_sqrt (sum ((λ x, f32_mul x x) <$> b)) in
  if is_zero na || is_zero nb then f32_zero else f32_div dot (f32_mul na nb).

Definition score_entries (query : list f32) (es : list VectorEntry) : list (Z * f32) :=
  (λ e, (id e, cosine (embedding e) query)) <$> es.

Definition bad_entry (n d : nat) : GpuError :=
  Unrecoverable ("vector dim " +:+ pretty n +:+ " != index dim " +:+ pretty d).
Definition bad_query (n d : nat) : GpuError :=
  Unrecoverable ("query dim " +:+ pretty n +:+ " != index dim " +:+ pretty d).

(** What [Search] finds. *)
Definition search (s : CpuVectorIndex) (query : list f32) (top_k : nat) : result (list (Z * f32)) GpuError :=
  if negb (length query =? dim s) then Err (bad_query (length query) (dim s))
  else Ok (take top_k (rank snd (score_entries query (entries s)))).

Definition index_handle (m : VectorIndexMsg) : act CpuVectorIndex IndexEff unit :=
  s ← get;
  match m with
  | InsertEntry e reply =>
    if negb (length (embedding e) =? dim s) then
      emit (ReplyInserted reply (Err (bad_entry (length (embedding e)) (dim s))))
    else
      put {| dim := dim s; entries := entries s ++ [e] |};;
      emit (ReplyInserted reply (Ok tt))
  | Search query top_k reply => emit (ReplyFound reply (search s query top_k))
  | IndexStats reply => emit (ReplyCount reply (length (entries s)))
  end.

#[global] Instance index_actor : Actor CpuVectorIndex VectorIndexMsg IndexEff := λ s m, exec (index_handle m) s.

(** The entries a run inserts. *)
Definition inserted (d : nat) (ms : list VectorIndexMsg) : list VectorEntry :=
  omap (λ m, match m with InsertEntry e _ => if length (embedding e) =? d then Some e else None | _ => None end) ms.

Lemma index_step (s : CpuVectorIndex) m :
  (handle s m).1 = {| dim := dim s; entries := entries s ++ inserted (dim s) [m] |}.
Proof.
  assert (Hsame : s = {| dim := dim s; entries := entries s ++ [] |}) by (rewrite app_nil_r; by destruct s).
  unfold handle, index_actor, index_handle. destruct m as [e reply|query top_k reply|reply]; act_unfold; try done.
  by destruct (length (embedding e) =? dim s).
Qed.

Lemma index_run (s : CpuVectorIndex) ms :
  (run_actor s ms).1 = {| dim := dim s; entries := entries s ++ inserted (dim s) ms |}.
Proof.
  revert s. induction ms as [|m ms IH]; intros s; cbn [run_actor].
  { cbn. rewrite app_nil_r. by destruct s. }
  pose proof (index_step s m) as Hs. destruct (handle s m) as [s1 e1]. simpl in Hs. subst s1.
  specialize (IH {| dim := dim s; entries := entries s ++ inserted (dim s) [m] |}).
  destruct (run_actor _ ms) as [s2 e2]. simpl in *. subst s2. f_equal.
  rewrite <-app_assoc. f_equal. unfold inserted. simpl. by case_match.
Qed.

(** Search returns the nearest entries: after any messages, a query of the
    index's dimension finds, by cosine similarity to the accepted entries, as many
    as there are up to [top_k], the nearest first and the earlier of equals first;
    no entry left out is nearer than one returned, where no score is a NaN; a query
    or an entry of another dimension is refused. *)
Theorem search_nearest (d : nat) (ms : list VectorIndexMsg) (query : list f32) (top_k : nat) :
  let s := (run_actor (CpuVectorIndex_new d) ms).1 in
  let scored := score_entries query (inserted d ms) in
  (length query ≠ d → search s query top_k = Err (bad_query (length query) d)) ∧
  (length query = d → no_nan snd scored →
     ∃ found rest, search s query top_k = Ok found ∧ scored ≡ₚ found ++ rest ∧
       length found = top_k `min` length (inserted d ms) ∧ ranked snd found ∧
       (∀ x y, x ∈ found → y ∈ rest → above snd x y) ∧
       (∀ l', l' ≡ₚ scored → ranked snd l' → (∀ z, z ∈ scored → ties snd z l' = ties snd z scored) →
          found = take top_k l')).
Proof.
  intros s scored. unfold s. rewrite index_run. unfold search. cbn [dim entries CpuVectorIndex_new app]. split.
  - intros Hne. by rewrite (proj2 (Nat.eqb_neq _ _)).
  - intros He Hn. rewrite (proj2 (Nat.eqb_eq _ _)) by done. cbn [negb].
    destruct (rank_take snd top_k scored Hn) as (rest & Hp & Hl & Hr & Ha).
    exists (take top_k (rank snd scored)), rest. split_and!; [done|done| |done|done|].
    + rewrite Hl. unfold scored, score_entries. by rewrite length_fmap.
    + intros l' Hp' Hr' Ht. by rewrite (rank_unique snd scored l').
Qed.
End index.

Definition one : f32 := f32_of_Z 1.
Definition demo_entries : list VectorIndexMsg :=
  [InsertEntry {| id := 7; embedding := [one; f32_zero] |} 0; InsertEntry {| id := 8; embedding := [f32_zero; one] |} 1;
   InsertEntry {| id := 9; embedding := [one] |} 2].

Lemma search_nearest_witness :
  search f32_zero (run_actor (Actor0 := index_actor f32_zero) (CpuVectorIndex_new 2) demo_entries).1 [f32_zero; one] 1 = Ok [(8%Z, one)].
Proof.
  destruct (search_nearest f32_zero 2 demo_entries [f32_zero; one] 1) as [_ H].
  destruct (H eq_refl) as (found & rest & -> & _ & _ & _ & _ & Hu); [by vm_compute; repeat constructor|].
  f_equal. rewrite (Hu (rank snd (score_entries f32_zero [f32_zero; one] (inserted 2 demo_entries)))).
  - by vm_compute.
  - apply rank_perm.
  - apply rank_sorted. by vm_compute; repeat constructor.
  - intros z Hz. apply rank_ties. vm_compute in Hz. set_unfold. destruct_or?; by subst.
Defined.
End VectorIndex.

(** ** [RagPipeline] *)

Module RagPipeline.
Import VectorIndex.

Record RagQuery := { text : string; q_top_k : nat }.
Record RagAnswer := { answer : string; sources : list Z; embedding_was_cached : bool }.

(** An [ask_with]: answered, or failed with the text of the error; the message of
    a failed ask may have been handled. *)
Inductive Ask : Type := Answered | Lost (handled : bool) (e : string).

Abbreviation TextCache := (EmbeddingCache.Cache (V := list f32)).
Abbreviation TextCacheMsg := (EmbeddingCache.CacheMsg (V := list f32)).

(** The client's functions, the outcome of the three asks, and what others send to
    the cache before the insertion and to the index before the search. *)
Record RagEnv := {
  embed : string → result (list f32) GpuError;
  llm : string → list Z → result string GpuError;
  ask_get : Ask; ask_insert : Ask; ask_search : Ask;
  cache_noise : list TextCacheMsg;
  index_noise : list VectorIndexMsg;
}.

Inductive RagEff : Type := Embedded (text : string) | Queried (text : string) (sources : list Z).

Section rag.
Context (hash_key : list Z → Z) (sum_start : f32) (env : RagEnv).

Record World := { w_cache : TextCache; w_index : CpuVectorIndex }.

(** [text.as_bytes()] *)
Definition as_bytes (s : string) : list Z := (λ c, Z.of_N (N_of_ascii c)) <$> String.list_ascii_of_string s.

Definition send_cache (m : TextCacheMsg) (w : World) : World :=
  {| w_cache := (handle (Actor := cache_actor hash_key) (w_cache w) m).1; w_index := w_index w |}.
Definition run_cache (ms : list TextCacheMsg) (w : World) : World :=
  {| w_cache := (run_actor (Actor0 := cache_actor hash_key) (w_cache w) ms).1; w_index := w_index w |}.
Definition run_index (ms : list VectorIndexMsg) (w : World) : World :=
  {| w_cache := w_cache w; w_index := (run_actor (Actor0 := index_actor sum_start) (w_index w) ms).1 |}.

(** What the handler of [Get] replies. *)
Definition got (c : TextCache) (key : list Z) : option (list f32) :=
  match (handle (Actor := cache_actor hash_key) c (Get key 0)).2 with
  | [ReplyValue _ v] => v
  | _ => None
  end.

Definition tell_cache (a : Ask) (m : TextCacheMsg) : act World RagEff unit :=
  match a with
  | Answered | Lost true _ => modify (send_cache m)
  | Lost false _ => skip
  end.

(** The rest of [run_rag], once there is an embedding. *)
Definition search_and_answer (q : RagQuery) (emb : list f32) (cached : bool) : act World RagEff (result RagAnswer GpuError) :=
  modify (run_index (index_noise env));;
  w ← get;
  match ask_search env with
  | Lost _ e => mret (Err (Unrecoverable ("rag: vec search: " +:+ e)))
  | Answered =>
    match search sum_start (w_index w) emb (q_top_k q `max` 1) with
    | Err e => mret (Err e)
    | Ok scored =>
      emit (Queried (text q) scored.*1);;
      mret match llm env (text q) scored.*1 with
           | Err e => Err e
           | Ok a => Ok {| answer := a; sources := scored.*1; embedding_was_cached := cached |}
           end
    end
  end.

Definition run_rag (q : RagQuery) : act World RagEff (result RagAnswer GpuError) :=
  let key := as_bytes (text q) in
  w ← get;
  tell_cache (ask_get env) (Get key 0);;
  match ask_get env with
  | Lost _ e => mret (Err (Unrecoverable ("rag: embed cache get: " +:+ e)))
  | Answered =>
    match got (w_cache w) key with
    | Some v => search_and_answer q v true
    | None =>
      emit (Embedded (text q));;
      match embed env (text q) with
      | Err e => mret (Err e)
      | Ok v =>
        modify (run_cache (cache_noise env));;
        tell_cache (ask_insert env) (Insert key v 0);;
        search_and_answer q v false
      end
    end
  end.

Lemma got_lookup c key : got c key = cache c !! hash_key key.
Proof.
  unfold got, handle, cache_actor, cache_handle. act_unfold.
  by destruct (cache c !! hash_key key).
Qed.

Lemma insert_found (w : World) key v : cache (w_cache (send_cache (Insert key v 0) w)) !! hash_key key = Some v.
Proof.
  unfold send_cache, handle, cache_actor, cache_handle. act_unfold. apply lookup_insert_eq.
Qed.

Lemma search_and_answer_index q emb cached w :
  awp (search_and_answer q emb cached) (λ r w' es,
    w_cache w' = w_cache w ∧
    w_index w' = (run_actor (Actor0 := index_actor sum_start) (w_index w) (index_noise env)).1 ∧
    (∀ a, r = Ok a → ∃ scored, ask_search env = Answered ∧
       search sum_start (w_index w') emb (q_top_k q `max` 1) = Ok scored ∧
       llm env (text q) scored.*1 = Ok (answer a) ∧ sources a = scored.*1 ∧ embedding_was_cached a = cached ∧
       es = [Queried (text q) scored.*1]) ∧
    (∀ scored e, ask_search env = Answered → search sum_start (w_index w') emb (q_top_k q `max` 1) = Ok scored →
       llm env (text q) scored.*1 = Err e → r = Err e) ∧
    (∀ e, ask_search env = Answered → search sum_start (w_index w') emb (q_top_k q `max` 1) = Err e →
       r = Err e ∧ es = []) ∧
    (∀ t, Embedded t ∉ es)) w.
Proof.
  unfold search_and_answer. awp_steps. destruct (ask_search env) as [|h e].
  - destruct (search _ _ _ _) as [scored|e] eqn:Hs; awp_steps.
    + split_and!; [done|done| | |intros e' _ He; congruence|set_solver].
      * intros a. destruct (llm env (text q) scored.*1) as [a'|] eqn:Ha; [|done]. intros [= <-].
        exists scored. by rewrite Ha.
      * intros scored' e _ Hs'. rewrite Hs in Hs'. injection Hs' as <-. by intros ->.
    + split_and!; [done|done|done|congruence| |set_solver].
      intros e' _ He. split; [congruence|done].
  - awp_steps. split_and!; [done|done|done|done|done|set_solver].
Qed.
Lemma get_keeps (w : World) key : cache (w_cache (send_cache (Get key 0) w)) = cache (w_cache w).
Proof.
  unfold send_cache, handle, cache_actor, cache_handle. act_unfold. by destruct (cache (w_cache w) !! hash_key key).
Qed.

(** The embedding a query uses, and whether it was cached. *)
Definition embedding_of (w : World) (q : RagQuery) : result (list f32) GpuError * bool :=
  match cache (w_cache w) !! hash_key (as_bytes (text q)) with
  | Some v => (Ok v, true)
  | None => (embed env (text q), false)
  end.

Lemma run_rag_spec q w :
  awp (run_rag q) (λ r w' es,
    (∀ a, r = Ok a → ∃ emb scored,
       ask_get env = Answered ∧ embedding_of w q = (Ok emb, embedding_was_cached a) ∧
       search sum_start (w_index w') emb (q_top_k q `max` 1) = Ok scored ∧
       llm env (text q) scored.*1 = Ok (answer a) ∧ sources a = scored.*1 ∧
       w_index w' = (run_actor (Actor0 := index_actor sum_start) (w_index w) (index_noise env)).1 ∧
       ((∀ e, ask_insert env ≠ Lost false e) ∨ embedding_was_cached a = true →
          cache (w_cache w') !! hash_key (as_bytes (text q)) = Some emb)) ∧
    ((∃ t, Embedded t ∈ es) ↔ ask_get env = Answered ∧ (embedding_of w q).2 = false)) w.
Proof.
  unfold run_rag. apply awp_bind, awp_get, awp_bind.
  destruct (ask_get env) as [|h e] eqn:Hg.
  2:{ unfold tell_cache. destruct h; awp_steps; (split; [done|split; [set_solver|by intros []]]). }
  unfold tell_cache at 1. apply awp_modify. rewrite got_lookup. unfold embedding_of.
  destruct (cache (w_cache w) !! hash_key (as_bytes (text q))) as [v|] eqn:Hc.
  - eapply awp_mono, search_and_answer_index. intros r w' es (Hcw & Hiw & Hok & _ & _ & Hne). split.
    + intros a Ha. destruct (Hok a Ha) as (scored & _ & Hs & Hl & Hsrc & Hcached & _).
      exists v, scored. rewrite Hcached. split_and!; [done|done|done|done|done|done|].
      intros _. by rewrite Hcw, get_keeps.
    + split; [by intros [t Ht%Hne]|by intros [_ ?]].
  - awp_steps. destruct (embed env (text q)) as [v|e]; awp_steps.
    2:{ split; [done|]. split; [done|]. intros _. eexists. by left. }
    eapply (awp_mono _ (λ _ w1 e1, e1 = [] ∧ w_index w1 = w_index w ∧
      ((∀ e, ask_insert env ≠ Lost false e) → cache (w_cache w1) !! hash_key (as_bytes (text q)) = Some v))).
    2:{ unfold tell_cache. destruct (ask_insert env) as [|[] e]; awp_steps; (split_and!; [done|done|]); intros Hl;
          [apply insert_found|apply insert_found|by edestruct Hl]. }
    intros _ w1 e1 (-> & Hiw1 & Hcw1). cbn [app]. eapply awp_mono, search_and_answer_index.
    intros r w' es (Hcw & Hiw & Hok & _ & _ & Hne). split.
    + intros a Ha. destruct (Hok a Ha) as (scored & _ & Hs & Hl & Hsrc & Hcached & _).
      exists v, scored. rewrite Hcached, Hcw. split_and!; [done|done|done|done|done|by rewrite Hiw, Hiw1|].
      intros [?|?]; [by apply Hcw1|done].
    + split; [done|]. intros _. eexists. by left.
Qed.
End rag.

(** A query answers from the nearest entries, and embeds a text once: a
    successful query answers with the client's answering function on the ids the
    index finds, at the time of the search, for the query's embedding: the cached
    one if the cache holds the text's key and the computed one otherwise.  The
    embedding function is called exactly when the key is not cached, and a query for
    the same text that follows a successful one, whose insertion was not lost,
    finds the key cached, does not call it, and on an index that has not changed
    gives the same sources. *)
Theorem rag_query (hash_key : list Z → Z) (sum_start : f32) (env : RagEnv) (q : RagQuery) (w w' : World)
    (a : RagAnswer) (es : list RagEff) :
  run_rag hash_key sum_start env q w = (Ok a, w', es) →
  (∃ emb scored, embedding_of hash_key env w q = (Ok emb, embedding_was_cached a) ∧
     search sum_start (w_index w') emb (q_top_k q `max` 1) = Ok scored ∧
     sources a = scored.*1 ∧ llm env (text q) (sources a) = Ok (answer a)) ∧
  ((∃ t, Embedded t ∈ es) ↔ embedding_was_cached a = false) ∧
  (∀ env2 r2 w2 es2, (∀ e, ask_insert env ≠ Lost false e) →
     run_rag hash_key sum_start env2 q w' = (r2, w2, es2) →
     (∀ t, Embedded t ∉ es2) ∧
     ∀ a2, r2 = Ok a2 → embedding_was_cached a2 = true ∧ (index_noise env2 = [] → sources a2 = sources a)).
Proof.
  intros Hrun. pose proof (run_rag_spec hash_key sum_start env q w) as Hs. unfold awp in Hs. rewrite Hrun in Hs.
  destruct Hs as [Hok Hemb]. destruct (Hok a eq_refl) as (emb & scored & Hg & He & Hsr & Hl & Hsrc & _ & Hc).
  split; [|split].
  - exists emb, scored. rewrite Hsrc. done.
  - rewrite Hemb, He. simpl. naive_solver.
  - intros env2 r2 w2 es2 Hins Hrun2. pose proof (run_rag_spec hash_key sum_start env2 q w') as Hs2.
    unfold awp in Hs2. rewrite Hrun2 in Hs2. destruct Hs2 as [Hok2 Hemb2].
    specialize (Hc (or_introl Hins)). unfold embedding_of in *. rewrite Hc in *. split.
    + intros t Ht. by destruct (proj1 Hemb2 (ex_intro _ t Ht)) as [_ ?].
    + intros a2 Ha2. destruct (Hok2 a2 Ha2) as (emb2 & scored2 & _ & [= <- Hca] & Hsr2 & _ & Hsrc2 & Hi2 & _).
      split; [done|]. intros Hn. rewrite Hn in Hi2. simpl in Hi2. rewrite Hi2, Hsr in Hsr2.
      injection Hsr2 as <-. congruence.
Qed.

Definition demo_env : RagEnv :=
  {| embed := λ _, Ok [f32_zero; one]; llm := λ t _, Ok ("about " +:+ t); ask_get := Answered; ask_insert := Answered;
     ask_search := Answered; cache_noise := []; index_noise := [] |}.
Definition demo_world : World :=
  {| w_cache := Cache_new {| capacity_entries := 4; embedding_dim := 2 |};
     w_index := (run_actor (Actor0 := index_actor f32_zero) (CpuVectorIndex_new 2) demo_entries).1 |}.
Definition demo_query : RagQuery := {| text := "b"; q_top_k := 0 |}.
Definition demo_answer : RagAnswer := {| answer := "about b"; sources := [8%Z]; embedding_was_cached := false |}.
Definition demo_run := run_rag (foldr Z.add 0%Z) f32_zero demo_env demo_query demo_world.

Lemma rag_query_witness :
  demo_run.1.1 = Ok demo_answer ∧ ∃ t, Embedded t ∈ demo_run.2.
Proof.
  destruct demo_run as [[r w'] es] eqn:E. assert (Hr : r = Ok demo_answer).
  { transitivity demo_run.1.1; [by rewrite E|by vm_compute]. }
  subst r. split; [done|]. unfold demo_run in E.
  destruct (rag_query _ _ _ _ _ _ _ _ E) as (_ & He & _). by apply He.
Defined.
End RagPipeline.
