(* ===== verification/NodeGraph.v ===== *)
(** * NodeGraph: topological execution of agent nodes

    Models [crates/atomr-accel-agents/src/langgraph_nodes.rs].  The order in
    which a [HashMap] lists its keys is a parameter [iter].  Kahn's loop runs
    with fuel; [topo_order_correct] shows that the fuel is enough and that the
    result is a topological order whenever there is one. *)

From stdpp Require Import pretty.
From S2P Require Import Prelude Errors.

Section graph.
Context {S : Type}.

Abbreviation node := (S → result S GpuError) (only parsing).

Record NodeGraph := {
  nodes : gmap Z (S → result S GpuError);
  edges : gmap Z (list Z);
  in_degree : gmap Z nat;
  entry : option Z;
}.

Definition NodeGraph_new : NodeGraph :=
  {| nodes := ∅; edges := ∅; in_degree := ∅; entry := None |}.

(** [entry(k).or_insert(v)] *)
Definition or_insert (k : Z) (v : nat) (m : gmap Z nat) : gmap Z nat :=
  match m !! k with Some _ => m | None => <[k := v]> m end.

Definition add_node (id : Z) (f : S → result S GpuError) (g : NodeGraph) : NodeGraph :=
  {| nodes := <[id := f]> (nodes g); edges := edges g; in_degree := or_insert id 0 (in_degree g);
     entry := entry g |}.

Definition successors (g : NodeGraph) (n : Z) : list Z := default [] (edges g !! n).

Definition add_edge (from to : Z) (g : NodeGraph) : NodeGraph :=
  {| nodes := nodes g; edges := <[from := successors g from ++ [to]]> (edges g);
     in_degree := <[to := Datatypes.S (default 0 (in_degree g !! to))]> (in_degree g);
     entry := entry g |}.

Definition set_entry (id : Z) (g : NodeGraph) : NodeGraph :=
  {| nodes := nodes g; edges := edges g; in_degree := in_degree g; entry := Some id |}.

(** The loop over the successors of a node: decrement, push at zero. *)
Fixpoint relax (succs : list Z) (in_deg : gmap Z nat) (q : list Z) : gmap Z nat * list Z :=
  match succs with
  | [] => (in_deg, q)
  | s :: succs =>
    let d := default 0 (in_deg !! s) - 1 in
    relax succs (<[s := d]> in_deg) (if d =? 0 then q ++ [s] else q)
  end.

Fixpoint kahn (g : NodeGraph) (fuel : nat) (in_deg : gmap Z nat) (q : list Z) (order : list Z)
    (seen : gset Z) : option (list Z) :=
  match fuel with
  | 0 => None
  | Datatypes.S fuel =>
    match q with
    | [] => Some order
    | n :: q =>
      if decide (n ∈ seen) then kahn g fuel in_deg q order seen
      else
        let '(in_deg, q) := relax (successors g n) in_deg q in
        kahn g fuel in_deg q (order ++ [n]) ({[n]} ∪ seen)
    end
  end.

Definition all_edges (g : NodeGraph) : list (Z * Z) :=
  map_to_list (edges g) ≫= λ us, (us.1,.) <$> us.2.

(** Every key of [in_degree] is queued at most once at the start, every edge
    queues its target at most once. *)
Definition kahn_fuel (g : NodeGraph) (start : list Z) : nat :=
  Datatypes.S (length start + length (all_edges g)).

Definition cycle_detected : GpuError := Unrecoverable "NodeGraph: cycle detected".

Definition topo_order (iter : gmap Z nat → list Z) (g : NodeGraph) : option (result (list Z) GpuError) :=
  let start := filter (λ n, in_degree g !! n = Some 0) (iter (in_degree g)) in
  order ← kahn g (kahn_fuel g start) (in_degree g) start [] ∅;
  Some (if length order =? size (nodes g) then Ok order else Err cycle_detected).

Definition missing_node (id : Z) : GpuError :=
  Unrecoverable ("NodeGraph: node NodeId(" +:+ pretty id +:+ ") missing").

(** The execution loop of [NodeGraphMsg::Run]. *)
Fixpoint run_nodes (g : NodeGraph) (order : list Z) (s : S) : result S GpuError :=
  match order with
  | [] => Ok s
  | id :: order =>
    match nodes g !! id with
    | None => Err (missing_node id)
    | Some f => match f s with Ok next => run_nodes g order next | Err e => Err e end
    end
  end.

Definition run_graph (iter : gmap Z nat → list Z) (g : NodeGraph) (s : S) : option (result S GpuError) :=
  match topo_order iter g with
  | None => None
  | Some (Err e) => Some (Err e)
  | Some (Ok order) => Some (run_nodes g order s)
  end.

(** ** Graphs built by the program *)

Inductive build_op : Type :=
  | AddNode (id : Z) (f : S → result S GpuError)
  | AddEdge (from to : Z)
  | SetEntry (id : Z).

Definition build_step (g : NodeGraph) (op : build_op) : NodeGraph :=
  match op with
  | AddNode id f => add_node id f g
  | AddEdge from to => add_edge from to g
  | SetEntry id => set_entry id g
  end.

Definition build : list build_op → NodeGraph := foldl build_step NodeGraph_new.

Definition edge (g : NodeGraph) (u s : Z) : Prop := (u, s) ∈ all_edges g.

(** The edges into [s] from nodes outside [seen]. *)
Definition cnt (es : list (Z * Z)) (seen : gset Z) (s : Z) : nat :=
  length (filter (λ e, e.2 = s ∧ e.1 ∉ seen) es).

Lemma cnt_cons es seen s u t :
  cnt ((u, t) :: es) seen s = (if decide (t = s ∧ u ∉ seen) then 1 else 0) + cnt es seen s.
Proof. unfold cnt. rewrite filter_cons. simpl. repeat case_decide; naive_solver. Qed.

#[global] Instance cnt_proper : Proper ((≡ₚ) ==> (=) ==> (=) ==> (=)) cnt.
Proof. intros es es' He seen ? <- s ? <-. unfold cnt. by rewrite He. Qed.

Lemma all_edges_insert g u ss :
  all_edges {| nodes := nodes g; edges := <[u := ss]> (edges g); in_degree := in_degree g;
               entry := entry g |} ≡ₚ
  ((u,.) <$> ss) ++ (map_to_list (delete u (edges g)) ≫= λ us, (us.1,.) <$> us.2).
Proof.
  unfold all_edges. simpl. rewrite <-insert_delete_eq, map_to_list_insert by apply lookup_delete_eq.
  done.
Qed.

Lemma all_edges_split g u :
  all_edges g ≡ₚ
  ((u,.) <$> successors g u) ++ (map_to_list (delete u (edges g)) ≫= λ us, (us.1,.) <$> us.2).
Proof.
  unfold all_edges, successors. destruct (edges g !! u) as [ss|] eqn:Hu; simpl.
  - rewrite <-(insert_id (edges g) u ss Hu) at 1.
    rewrite <-insert_delete_eq, map_to_list_insert by apply lookup_delete_eq. done.
  - by rewrite delete_id.
Qed.

Lemma all_edges_add g from to : all_edges (add_edge from to g) ≡ₚ (from, to) :: all_edges g.
Proof.
  rewrite (all_edges_split g from).
  assert (H : all_edges (add_edge from to g) ≡ₚ
    ((from,.) <$> (successors g from ++ [to])) ++
    (map_to_list (delete from (edges g)) ≫= λ us, (us.1,.) <$> us.2)) by apply all_edges_insert.
  rewrite H, fmap_app. simpl. solve_Permutation.
Qed.

Record graph_wf (g : NodeGraph) : Prop := {
  gw_degree : ∀ s, default 0 (in_degree g !! s) = cnt (all_edges g) ∅ s;
  gw_nodes : ∀ s, is_Some (nodes g !! s) → is_Some (in_degree g !! s);
  gw_targets : ∀ s, is_Some (in_degree g !! s) → is_Some (nodes g !! s) ∨ ∃ u, edge g u s;
}.

Lemma build_step_wf g op : graph_wf g → graph_wf (build_step g op).
Proof.
  intros [Hd Hn Ht]. destruct op as [id f|from to|id]; simpl; [..|by constructor].
  - constructor; simpl.
    + intros s. trans (default 0 (in_degree g !! s)); [|apply (Hd s)]. unfold or_insert. destruct (in_degree g !! id) eqn:Hi; [done|].
      destruct (decide (s = id)) as [->|]; [by rewrite lookup_insert_eq, Hi|by rewrite lookup_insert_ne].
    + intros s Hs. unfold or_insert. destruct (decide (s = id)) as [->|].
      * destruct (in_degree g !! id) eqn:Hi; [by rewrite Hi|by rewrite lookup_insert_eq].
      * rewrite lookup_insert_ne in Hs by done.
        destruct (in_degree g !! id); [auto|rewrite lookup_insert_ne by done; auto].
    + intros s Hs. destruct (decide (s = id)) as [->|]; [left; by rewrite lookup_insert_eq|].
      rewrite lookup_insert_ne by done. apply Ht. unfold or_insert in Hs.
      destruct (in_degree g !! id); [done|by rewrite lookup_insert_ne in Hs].
  - constructor.
    + intros s. rewrite all_edges_add, cnt_cons, <-Hd. simpl.
      destruct (decide (s = to)) as [->|].
      * rewrite lookup_insert_eq, decide_True by (split; [done|set_solver]). done.
      * rewrite lookup_insert_ne, decide_False by naive_solver. done.
    + intros s Hs. simpl in *. destruct (decide (s = to)) as [->|]; [by rewrite lookup_insert_eq|].
      rewrite lookup_insert_ne by done. auto.
    + intros s Hs. unfold edge. simpl in *. setoid_rewrite all_edges_add.
      destruct (decide (s = to)) as [->|]; [right; exists from; by left|].
      rewrite lookup_insert_ne in Hs by done. destruct (Ht s Hs) as [?|[u ?]]; [by left|right].
      exists u. by right.
Qed.

Lemma build_wf ops : graph_wf (build ops).
Proof.
  unfold build. assert (H0 : graph_wf NodeGraph_new).
  { constructor; simpl.
    - intros s. by rewrite lookup_empty.
    - intros s. rewrite lookup_empty. by intros [].
    - intros s. rewrite lookup_empty. by intros []. }
  revert H0. generalize NodeGraph_new. induction ops as [|op ops IH]; intros g Hg; [done|].
  apply IH. by apply build_step_wf.
Qed.

(** ** Kahn's loop *)

Definition occ (s : Z) (l : list Z) : nat := length (filter (λ x, x = s) l).

Lemma occ_cons s x l : occ s (x :: l) = (if decide (x = s) then 1 else 0) + occ s l.
Proof. unfold occ. rewrite filter_cons. by case_decide. Qed.

Lemma occ_zero s l : s ∉ l → occ s l = 0.
Proof.
  induction l as [|x l IH]; [done|]. rewrite not_elem_of_cons, occ_cons. intros [? ?].
  rewrite decide_False by congruence. auto.
Qed.

Lemma relax_spec succs in_deg q :
  let '(in_deg', q') := relax succs in_deg q in
  (∀ s, default 0 (in_deg' !! s) = default 0 (in_deg !! s) - occ s succs) ∧
  ∃ pushed, q' = q ++ pushed ∧ length pushed ≤ length succs ∧
    (∀ s, s ∈ pushed → s ∈ succs ∧ default 0 (in_deg' !! s) = 0) ∧
    (∀ s, s ∈ succs → default 0 (in_deg' !! s) = 0 → s ∈ pushed).
Proof.
  revert in_deg q. induction succs as [|x succs IH]; intros in_deg q; simpl.
  { split; [intros; unfold occ; simpl; lia|]. exists []. rewrite app_nil_r.
    split_and!; [done..|by intros ? ?%elem_of_nil|by intros ? ?%elem_of_nil]. }
  set (d := default 0 (in_deg !! x) - 1).
  specialize (IH (<[x := d]> in_deg) (if d =? 0 then q ++ [x] else q)).
  destruct (relax succs _ _) as [in_deg' q']. destruct IH as (Hdeg & pushed & -> & Hlen & Hp1 & Hp2).
  assert (Hall : ∀ s, default 0 (in_deg' !! s) = default 0 (in_deg !! s) - occ s (x :: succs)).
  { intros s. rewrite Hdeg, occ_cons. case_decide as Hs; [subst; rewrite lookup_insert_eq; simpl; lia|].
    rewrite lookup_insert_ne by done. lia. }
  split; [done|].
  assert (Hx : default 0 (in_deg' !! x) = d - occ x succs) by (rewrite Hdeg, lookup_insert_eq; done).
  destruct (Nat.eqb_spec d 0) as [Hd|Hd].
  - exists (x :: pushed). rewrite <-app_assoc. split_and!; [done|simpl; lia| |].
    + intros s [->|Hs]%elem_of_cons; [split; [by left|lia]|].
      destruct (Hp1 s Hs). split; [by right|done].
    + intros s [->|Hs]%elem_of_cons Hz; [by left|]. right. auto.
  - exists pushed. split_and!; [done|lia| |].
    + intros s Hs. destruct (Hp1 s Hs). split; [by right|done].
    + intros s [->|Hs]%elem_of_cons Hz; [|auto]. apply Hp2; [|done].
      destruct (decide (x ∈ succs)) as [|Hn]; [done|exfalso].
      rewrite (occ_zero x succs Hn) in Hx.
      lia.
Qed.

Lemma cnt_app es1 es2 seen s : cnt (es1 ++ es2) seen s = cnt es1 seen s + cnt es2 seen s.
Proof. unfold cnt. by rewrite filter_app, length_app. Qed.

Lemma cnt_from n ss seen s :
  cnt ((n,.) <$> ss) seen s = if decide (n ∈ seen) then 0 else occ s ss.
Proof.
  induction ss as [|x ss IH]; [by case_decide|]. rewrite fmap_cons, cnt_cons, IH, occ_cons.
  repeat case_decide; naive_solver.
Qed.

(** The edges that leave nodes not yet seen. *)
Definition remaining (es : list (Z * Z)) (seen : gset Z) : nat :=
  length (filter (λ e, e.1 ∉ seen) es).

Lemma rest_not_from g n e :
  e ∈ (map_to_list (delete n (edges g)) ≫= λ us, (us.1,.) <$> us.2) → e.1 ≠ n.
Proof.
  intros ([u ss] & He & Hin)%list_elem_of_bind. apply list_elem_of_fmap in He as (s & -> & _). simpl.
  apply elem_of_map_to_list in Hin. intros ->. by rewrite lookup_delete_eq in Hin.
Qed.

Lemma filter_length_ext {A} (P Q : A → Prop) `{∀ x, Decision (P x), ∀ x, Decision (Q x)} l :
  (∀ x, x ∈ l → P x ↔ Q x) → length (filter P l) = length (filter Q l).
Proof.
  induction l as [|x l IH]; intros HPQ; [done|]. rewrite !filter_cons.
  assert (Hx : P x ↔ Q x) by (apply HPQ; by left).
  specialize (IH (λ y Hy, HPQ y (list_elem_of_further _ _ _ Hy))).
  destruct (decide (P x)), (decide (Q x)); simpl; try tauto; auto.
Qed.

Lemma cnt_visit g n seen s :
  n ∉ seen →
  cnt (all_edges g) seen s = occ s (successors g n) + cnt (all_edges g) ({[n]} ∪ seen) s.
Proof.
  intros Hn. rewrite (all_edges_split g n), !cnt_app, !cnt_from.
  rewrite decide_False by done. rewrite decide_True by set_solver. simpl. f_equal.
  apply filter_length_ext. intros e He%rest_not_from. set_solver.
Qed.

Lemma remaining_visit g n seen :
  n ∉ seen →
  remaining (all_edges g) seen =
    length (successors g n) + remaining (all_edges g) ({[n]} ∪ seen).
Proof.
  intros Hn. unfold remaining. rewrite (all_edges_split g n), !filter_app, !length_app.
  assert (H1 : ∀ V ss, length (filter (λ e : Z * Z, e.1 ∉ V) ((n,.) <$> ss)) =
    if decide (n ∈ (V : gset Z)) then 0 else length ss).
  { intros V ss. induction ss as [|x ss IH]; [by case_decide|]. rewrite fmap_cons, filter_cons. simpl.
    repeat case_decide; simpl; naive_solver. }
  rewrite !H1, decide_False by done. rewrite decide_True by set_solver. simpl. f_equal.
  apply filter_length_ext. intros e He%rest_not_from. set_solver.
Qed.

Definition respects (es : list (Z * Z)) (order : list Z) : Prop :=
  ∀ i s u, order !! i = Some s → (u, s) ∈ es → ∃ j, j < i ∧ order !! j = Some u.

Record kahn_inv (g : NodeGraph) (in_deg : gmap Z nat) (q order : list Z) (seen : gset Z) : Prop := {
  ki_degree : ∀ s, default 0 (in_deg !! s) = cnt (all_edges g) seen s;
  ki_zero : ∀ s, is_Some (in_degree g !! s) → cnt (all_edges g) seen s = 0 → s ∈ q ∨ s ∈ seen;
  ki_queue : ∀ s, s ∈ q → cnt (all_edges g) seen s = 0 ∧ is_Some (in_degree g !! s);
  ki_order : NoDup order ∧ ∀ s, s ∈ order ↔ s ∈ seen;
  ki_dom : ∀ s, s ∈ seen → is_Some (in_degree g !! s);
  ki_respects : respects (all_edges g) order;
}.

Lemma cnt_zero es seen u s : cnt es seen s = 0 → (u, s) ∈ es → u ∈ seen.
Proof.
  unfold cnt. intros Hz%length_zero_iff_nil He. destruct (decide (u ∈ seen)) as [|Hn]; [done|exfalso].
  apply (not_elem_of_nil (u, s)). rewrite <-Hz. by apply list_elem_of_filter.
Qed.

Lemma cnt_pos es seen s : cnt es seen s ≠ 0 → ∃ u, (u, s) ∈ es ∧ u ∉ seen.
Proof.
  unfold cnt. intros Hz. destruct (filter _ es) as [|[u t] l] eqn:Hf; [done|].
  assert (Hin : (u, t) ∈ filter (λ e, e.2 = s ∧ e.1 ∉ seen) es) by (rewrite Hf; by left).
  apply list_elem_of_filter in Hin as [[Ht Hu] Hin]. simpl in *. subst. by exists u.
Qed.

Lemma edge_successor g n s : (n, s) ∈ all_edges g ↔ s ∈ successors g n.
Proof.
  rewrite (all_edges_split g n), elem_of_app. split.
  - intros [H|H%rest_not_from]; [|done]. apply list_elem_of_fmap in H as (x & [= ->] & ?). done.
  - intros H. left. apply list_elem_of_fmap. by exists s.
Qed.

Lemma kahn_visit g in_deg n q order seen :
  graph_wf g → n ∉ seen → kahn_inv g in_deg (n :: q) order seen →
  let '(in_deg', q') := relax (successors g n) in_deg q in
  kahn_inv g in_deg' q' (order ++ [n]) ({[n]} ∪ seen) ∧ length q' ≤ length q + length (successors g n).
Proof.
  intros Hwf Hn [Hdeg Hzero Hqueue [Hnd Hord] Hdom Hres].
  pose proof (relax_spec (successors g n) in_deg q) as Hr.
  destruct (relax (successors g n) in_deg q) as [in_deg' q'].
  destruct Hr as (Hdeg' & pushed & -> & Hlen & Hp1 & Hp2).
  destruct (Hqueue n) as [Hn0 Hnd0]; [by left|].
  assert (Hd' : ∀ s, default 0 (in_deg' !! s) = cnt (all_edges g) ({[n]} ∪ seen) s).
  { intros s. rewrite Hdeg', Hdeg, (cnt_visit g n seen s Hn). lia. }
  split; [|rewrite length_app; lia]. constructor.
  - done.
  - intros s Hs Hz. destruct (decide (cnt (all_edges g) seen s = 0)) as [Hz0|Hz0].
    + destruct (Hzero s Hs Hz0) as [[->|?]%elem_of_cons|?]; [right; set_solver|left|right; set_solver].
      apply elem_of_app. by left.
    + left. apply elem_of_app. right. apply Hp2; [|by rewrite Hd'].
      rewrite (cnt_visit g n seen s Hn), Hz in Hz0. apply edge_successor.
      destruct (decide (s ∈ successors g n)) as [Hin|Hin]; [by apply edge_successor|].
      by rewrite (occ_zero s _ Hin) in Hz0.
  - intros s [Hs|Hs]%elem_of_app.
    + destruct (Hqueue s) as [Hz ?]; [by right|]. split; [|done].
      rewrite (cnt_visit g n seen s Hn) in Hz. lia.
    + destruct (Hp1 s Hs) as [Hin Hz]. rewrite Hd' in Hz. split; [done|].
      destruct (in_degree g !! s) as [d|] eqn:Hsd; [by eexists|exfalso].
      pose proof (gw_degree g Hwf s) as Hg. rewrite Hsd in Hg. simpl in Hg.
      apply edge_successor in Hin. symmetry in Hg. apply (cnt_zero _ _ n) in Hg; [set_solver|done].
  - split.
    + apply NoDup_app. split_and!; [done| |apply NoDup_singleton].
      intros x Hx ->%list_elem_of_singleton. by apply Hn, Hord.
    + intros s. rewrite elem_of_app, list_elem_of_singleton, Hord. set_solver.
  - intros s [->%elem_of_singleton|?]%elem_of_union; auto.
  - intros i s u Hi He. apply lookup_app_Some in Hi as [Hi|[Hge Hi]].
    + destruct (Hres i s u Hi He) as (j & ? & Hj). exists j. split; [done|]. by apply lookup_app_l_Some.
    + apply list_lookup_singleton_Some in Hi as [Hi <-].
      apply (cnt_zero _ _ u) in Hn0; [|done]. apply Hord, list_elem_of_lookup in Hn0 as [j Hj].
      exists j. pose proof (lookup_lt_Some _ _ _ Hj). split; [lia|]. by apply lookup_app_l_Some.
Qed.
Lemma kahn_run g fuel in_deg q order seen :
  graph_wf g → kahn_inv g in_deg q order seen →
  length q + remaining (all_edges g) seen < fuel →
  ∃ in_deg' order' seen', kahn g fuel in_deg q order seen = Some order' ∧
    kahn_inv g in_deg' [] order' seen'.
Proof.
  intros Hwf. revert in_deg q order seen.
  induction fuel as [|fuel IH]; intros in_deg q order seen Hinv Hf; [lia|].
  destruct q as [|n q]; [by eexists _, _, _|]. cbn [kahn]. case_decide as Hn.
  - apply IH; [|simpl in Hf; lia]. destruct Hinv. constructor; auto.
    + intros s Hs Hz. destruct (ki_zero0 s Hs Hz) as [[->|?]%elem_of_cons|?]; auto.
    + intros s Hs. apply ki_queue0. by right.
  - pose proof (kahn_visit g in_deg n q order seen Hwf Hn Hinv) as Hv.
    destruct (relax (successors g n) in_deg q) as [in_deg' q']. destruct Hv as [Hinv' Hlen].
    apply IH; [done|]. rewrite (remaining_visit g n seen Hn) in Hf. simpl in Hf. lia.
Qed.

Definition start_nodes (iter : gmap Z nat → list Z) (g : NodeGraph) : list Z :=
  filter (λ n, in_degree g !! n = Some 0) (iter (in_degree g)).

Lemma kahn_start iter g :
  graph_wf g → (∀ k, k ∈ iter (in_degree g) ↔ is_Some (in_degree g !! k)) →
  kahn_inv g (in_degree g) (start_nodes iter g) [] ∅.
Proof.
  intros Hwf Hiter. pose proof (gw_degree g Hwf) as Hd. constructor.
  - done.
  - intros s [d Hs] Hz. left. apply list_elem_of_filter. rewrite Hiter. specialize (Hd s).
    rewrite Hs in *. simpl in Hd. split; [congruence|by eexists].
  - intros s [Hs ?]%list_elem_of_filter. rewrite <-Hd, Hs. split; [done|by eexists].
  - split; [apply NoDup_nil_2|set_solver].
  - set_solver.
  - intros i s u Hi. discriminate Hi.
Qed.

Lemma remaining_le es seen : remaining es seen ≤ length es.
Proof. unfold remaining. induction es as [|e es IH]; [done|]. rewrite filter_cons. case_decide; simpl; lia. Qed.

Lemma topo_order_run iter g :
  graph_wf g → (∀ k, k ∈ iter (in_degree g) ↔ is_Some (in_degree g !! k)) →
  ∃ in_deg order seen, kahn_inv g in_deg [] order seen ∧
    topo_order iter g = Some (if length order =? size (nodes g) then Ok order else Err cycle_detected).
Proof.
  intros Hwf Hiter.
  destruct (kahn_run g (kahn_fuel g (start_nodes iter g)) (in_degree g) (start_nodes iter g) [] ∅)
    as (in_deg & order & seen & Hk & Hinv); [done|by apply kahn_start| |].
  { unfold kahn_fuel. pose proof (remaining_le (all_edges g) ∅). lia. }
  exists in_deg, order, seen. split; [done|]. unfold topo_order. fold (start_nodes iter g).
  by rewrite Hk.
Qed.

(** Every edge joins two registered nodes. *)
Definition edges_registered (g : NodeGraph) : Prop :=
  ∀ u s, edge g u s → is_Some (nodes g !! u) ∧ is_Some (nodes g !! s).

(** The loop's order is complete exactly when it lists every node. *)
Lemma order_complete g in_deg order seen :
  graph_wf g → edges_registered g → kahn_inv g in_deg [] order seen →
  (length order = size (nodes g) ↔ ∀ n, n ∈ order ↔ is_Some (nodes g !! n)).
Proof.
  intros Hwf Hreg [_ _ _ [Hnd Hord] Hdom _].
  assert (Hsub : ∀ n, n ∈ order → is_Some (nodes g !! n)).
  { intros n Hn. destruct (gw_targets g Hwf n) as [?|[u He]]; [by apply Hdom, Hord|done|].
    by apply (Hreg u n). }
  assert (Hsize : length order = size (list_to_set order : gset Z)) by (by rewrite size_list_to_set).
  rewrite <-size_dom, Hsize. split.
  - intros Hlen n. split; [auto|intros Hn].
    assert (Heq : (list_to_set order : gset Z) = dom (nodes g)).
    { apply set_eq, set_subseteq_size_equiv; [|lia]. intros x. rewrite elem_of_list_to_set, elem_of_dom. auto. }
    rewrite <-(elem_of_list_to_set (C := gset Z)), Heq. by apply elem_of_dom.
  - intros Hall. f_equal. apply set_eq. intros x. by rewrite elem_of_list_to_set, elem_of_dom.
Qed.

(** A node listed by an order that respects the edges is reached by the loop. *)
Lemma respected_seen g in_deg order seen l :
  graph_wf g → edges_registered g → kahn_inv g in_deg [] order seen → respects (all_edges g) l →
  ∀ i s, l !! i = Some s → is_Some (nodes g !! s) → s ∈ order.
Proof.
  intros Hwf Hreg [_ Hzero _ [_ Hord] _ _] Hres i.
  induction (lt_wf i) as [i _ IH]. intros s Hi Hs. apply Hord.
  destruct (decide (cnt (all_edges g) seen s = 0)) as [Hz|Hz].
  - destruct (Hzero s) as [?%elem_of_nil|?]; [by apply (gw_nodes g Hwf)|done..].
  - apply cnt_pos in Hz as (u & He & Hu). destruct (Hres i s u Hi He) as (j & Hj & Hju).
    exfalso. apply Hu, Hord, (IH j Hj u Hju). by apply (Hreg u s).
Qed.

(** What running a list of nodes means: each node consumes the state the
    previous one returned, the first error ends the run. *)
Definition run_all (fs : list (S → result S GpuError)) (s : S) : result S GpuError :=
  foldl (λ r f, match r with Ok s => f s | Err e => Err e end) (Ok s) fs.

Lemma run_all_err fs e :
  foldl (λ r (f : S → result S GpuError), match r with Ok s => f s | Err e => Err e end) (Err e) fs = Err e.
Proof. by induction fs. Qed.

Lemma run_nodes_all g order s :
  (∀ n, n ∈ order → is_Some (nodes g !! n)) →
  run_nodes g order s = run_all (omap (λ n, nodes g !! n) order) s.
Proof.
  revert s. induction order as [|n order IH]; intros s Hall; [done|].
  destruct (Hall n) as [f Hf]; [by left|].
  assert (Ho : omap (λ n, nodes g !! n) (n :: order) = f :: omap (λ n, nodes g !! n) order).
  { cbn [omap list_omap]. by rewrite Hf. }
  rewrite Ho. cbn [run_nodes]. rewrite Hf. unfold run_all. cbn [foldl].
  destruct (f s) as [next|e]; [|by rewrite run_all_err]. apply IH. intros m Hm. apply Hall. by right.
Qed.

(** C8 (topological execution): for every graph built by the program whose
    edges join registered nodes, and every order in which the hash map lists
    its keys, [run] terminates.  If the nodes can be ordered so that every
    edge goes forward, [topo_order] returns such an order, without repetition,
    and the run threads the state through the nodes in that order, up to the
    first error; otherwise it answers the cycle error and runs no node. *)
Theorem topo_order_correct (iter : gmap Z nat → list Z) ops s :
  (∀ m k, k ∈ iter m ↔ is_Some (m !! k)) → edges_registered (build ops) →
  let g := build ops in
  let ordering l := NoDup l ∧ (∀ n, n ∈ l ↔ is_Some (nodes g !! n)) ∧ respects (all_edges g) l in
  ((∃ l, ordering l) ∧
    ∃ l, topo_order iter g = Some (Ok l) ∧ ordering l ∧
      run_graph iter g s = Some (run_all (omap (λ n, nodes g !! n) l) s)) ∨
  ((¬ ∃ l, (∀ n, is_Some (nodes g !! n) → n ∈ l) ∧ respects (all_edges g) l) ∧
    topo_order iter g = Some (Err cycle_detected) ∧ run_graph iter g s = Some (Err cycle_detected)).
Proof.
  intros Hiter Hreg g ordering. pose proof (build_wf ops) as Hwf. fold g in Hwf, Hreg.
  destruct (topo_order_run iter g Hwf (Hiter _)) as (in_deg & order & seen & Hinv & Ht).
  pose proof (order_complete g in_deg order seen Hwf Hreg Hinv) as Hc. unfold run_graph. rewrite Ht.
  destruct (Nat.eqb_spec (length order) (size (nodes g))) as [Hlen|Hlen].
  - left. assert (Ho : ordering order).
    { split_and!; [apply Hinv|by apply Hc|apply Hinv]. }
    split; [by exists order|]. exists order. split_and!; [done|done|].
    rewrite run_nodes_all; [done|]. intros n. by apply Hc.
  - right. split; [|done]. intros (l & Hall & Hres). apply Hlen, Hc. intros n. split.
    + intros Hn. destruct Hinv as [_ _ _ [_ Hord] Hdom _].
      destruct (gw_targets g Hwf n) as [?|[u He]]; [by apply Hdom, Hord|done|]. by apply (Hreg u n).
    + intros Hn. destruct (list_elem_of_lookup_1 l n (Hall n Hn)) as [i Hi].
      by apply (respected_seen g in_deg order seen l Hwf Hreg Hinv Hres i n Hi).
Qed.
End graph.

Definition keys_of (m : gmap Z nat) : list Z := (map_to_list m).*1.

Lemma keys_of_spec m k : k ∈ keys_of m ↔ is_Some (m !! k).
Proof.
  unfold keys_of. rewrite list_elem_of_fmap. split.
  - intros ([k' v] & -> & Hin%elem_of_map_to_list). by eexists.
  - intros [v Hv]. exists (k, v). split; [done|]. by apply elem_of_map_to_list.
Qed.

(** Two nodes, 2 before 1; the entry is set to 1. *)
Definition two_nodes : list (@build_op Z) :=
  [AddNode 1 (λ s, Ok (s + 10)%Z); AddNode 2 (λ s, Ok (s * 2)%Z); AddEdge 2 1; SetEntry 1].

Lemma two_nodes_registered : edges_registered (build two_nodes).
Proof.
  intros u s H. unfold edge in H. vm_compute in H.
  assert (Hus : (u, s) = (2%Z, 1%Z)) by (by apply list_elem_of_singleton in H). simplify_eq.
  split; eexists; reflexivity.
Qed.

Lemma topo_order_correct_witness :
  edges_registered (build two_nodes) ∧
  topo_order keys_of (build two_nodes) = Some (Ok [2; 1]%Z) ∧
  ∃ l, run_graph keys_of (build two_nodes) 5%Z = Some (run_all (omap (λ n, nodes (build two_nodes) !! n) l) 5%Z).
Proof.
  split; [apply two_nodes_registered|split; [vm_compute; reflexivity|]].
  destruct (topo_order_correct keys_of two_nodes 5%Z keys_of_spec two_nodes_registered)
    as [[_ (l & _ & _ & H)]|(_ & H & _)]; [by exists l|vm_compute in H; discriminate H].
Defined.

(** An edge to a node that was never added: an acyclic graph is refused as
    cyclic; an edge from such a node has the same effect. *)
Example unregistered_target_is_a_cycle :
  topo_order keys_of (build [AddNode 1 (λ s : Z, Ok s); AddEdge 1 2]) = Some (Err cycle_detected) ∧
  topo_order keys_of (build [AddNode 1 (λ s : Z, Ok s); AddEdge 2 1]) = Some (Err cycle_detected).
Proof. split; vm_compute; reflexivity. Qed.

(** An unregistered target can hide a cycle: the counts agree, the run fails
    on the missing node. *)
Example unregistered_target_hides_a_cycle :
  run_graph keys_of (build [AddNode 1 (λ s : Z, Ok s); AddNode 2 (λ s, Ok s); AddEdge 2 2; AddEdge 1 3]) 0%Z =
    Some (Err (missing_node 3)).
Proof. vm_compute. reflexivity. Qed.

(** The entry node plays no part: node 2 runs first although 1 is the entry. *)
Example entry_is_ignored : run_graph keys_of (build two_nodes) 5%Z = Some (Ok 20%Z).
Proof. vm_compute. reflexivity. Qed.
