(* ===== verification/Placement.v ===== *)
(** * Placement: choosing the device of a request

    Models [crates/atomr-accel-cuda/src/placement/mod.rs]: the
    [PlacementPolicy] trait as a class, the two policies of the program as its
    instances, and [PlacementActor], which is generic in the policy.  What the
    actor needs from a policy is one law, that it names a candidate: then the
    [unwrap] of the handler never panics. *)

From S2P Require Import Prelude Actor Errors DeviceActor Streams.


Record PlacementHints :=
  { min_free_bytes : Z; min_compute_cap : option (Z * Z); priority : option Priority }.

Record DeviceChoice := { ch_device_id : Z; ch_device : nat; ch_load : DeviceLoad }.

(** [choose(&self, ...)] may change what is behind the policy's own lock. *)
Class PlacementPolicy (P : Type) :=
  choose : P → PlacementHints → list (Z * DeviceLoad) → option Z * P.

Class PolicyLaw (P : Type) `{!PlacementPolicy P} :=
  choose_candidate : ∀ p h cs id, (choose p h cs).1 = Some id → id ∈ cs.*1.

(** ** Round robin *)

Record RoundRobinPolicy := { cursor : Z }.

Definition RoundRobinPolicy_default : RoundRobinPolicy := {| cursor := 0 |}.

Definition round_robin (p : RoundRobinPolicy) (h : PlacementHints) (cs : list (Z * DeviceLoad)) :
    option Z * RoundRobinPolicy :=
  match cs with
  | [] => (None, p)
  | _ =>
    let idx := (cursor p mod Z.of_nat (length cs))%Z in
    (fst <$> cs !! Z.to_nat idx, {| cursor := cursor p +₆₄ 1 |})
  end.

#[global] Instance round_robin_policy : PlacementPolicy RoundRobinPolicy := round_robin.

#[global] Instance round_robin_law : PolicyLaw RoundRobinPolicy.
Proof.
  intros p h cs id. unfold choose, round_robin_policy, round_robin. destruct cs as [|c cs]; [done|].
  intros (x & Hx & ->)%fmap_Some. apply list_elem_of_fmap. exists x. split; [done|].
  by eapply list_elem_of_lookup_2.
Qed.

(** ** Least loaded *)

Inductive LeastLoadedPolicy : Type := LeastLoaded.

(** The two [continue]s of the scan. *)
Definition ineligible (h : PlacementHints) (l : DeviceLoad) : bool :=
  (free_bytes l <? min_free_bytes h)%Z ||
  match min_compute_cap h with
  | None => false
  | Some (mj, mn) =>
    ((compute_cap l).1 <? mj)%Z || (((compute_cap l).1 =? mj)%Z && ((compute_cap l).2 <? mn)%Z)
  end.

Definition score (l : DeviceLoad) : Z := (queue_depth l + active_streams l)%Z.

Fixpoint least_scan (h : PlacementHints) (cs : list (Z * DeviceLoad)) (best : option (Z * Z)) :
    option (Z * Z) :=
  match cs with
  | [] => best
  | (id, l) :: cs =>
    if ineligible h l then least_scan h cs best
    else least_scan h cs
      match best with
      | None => Some (id, score l)
      | Some (_, s) => if (score l <? s)%Z then Some (id, score l) else best
      end
  end.

Definition least_loaded (p : LeastLoadedPolicy) (h : PlacementHints) (cs : list (Z * DeviceLoad)) :
    option Z * LeastLoadedPolicy := (fst <$> least_scan h cs None, p).

#[global] Instance least_loaded_policy : PlacementPolicy LeastLoadedPolicy := least_loaded.

(** ** The actor *)

Inductive PlacementMsg : Type :=
  | Pick (hints : PlacementHints) (reply : nat)
  | PollStats
  | StatsUpdate (slot : nat) (load : DeviceLoad).

Inductive PlacementEff : Type :=
  | ReplyPick (reply : nat) (r : result DeviceChoice GpuError)
  (** [tell(Stats)] and the task that relays the answer as [StatsUpdate slot]. *)
  | AskStats (device : nat) (slot : nat)
  (** [schedule_poll]: a task that sends [PollStats] after [millis]. *)
  | SchedulePoll (millis : Z).

Section placement.
Context {P : Type} `{!PlacementPolicy P}.

Record Placement := {
  devices : list (Z * nat);
  loads : list DeviceLoad;
  policy : P;
  poll_interval : Z;
}.

Definition no_load : DeviceLoad :=
  {| free_bytes := 0; total_bytes := 0; active_streams := 0; queue_depth := 0; compute_cap := (0, 0)%Z |}.

Definition Placement_new (ds : list (Z * nat)) (p : P) : Placement :=
  {| devices := ds; loads := replicate (length ds) no_load; policy := p; poll_interval := 250 |}.

Definition set_policy (p : P) (a : Placement) : Placement :=
  {| devices := devices a; loads := loads a; policy := p; poll_interval := poll_interval a |}.
Definition set_loads (ls : list DeviceLoad) (a : Placement) : Placement :=
  {| devices := devices a; loads := ls; policy := policy a; poll_interval := poll_interval a |}.

Definition candidates (a : Placement) : list (Z * DeviceLoad) :=
  zip_with (λ d l, (d.1, l)) (devices a) (loads a).

(** [devices.iter().position(|(d, _)| *d == id)] *)
Fixpoint position (id : Z) (ds : list (Z * nat)) : option nat :=
  match ds with
  | [] => None
  | (d, _) :: ds => if (d =? id)%Z then Some 0 else Datatypes.S <$> position id ds
  end.

Definition no_eligible_device : GpuError := Unrecoverable "placement: no eligible device".

Definition unwrap_none : string := "called `Option::unwrap()` on a `None` value".

(** [devices\[pos\]] and [loads\[pos\]] *)
Definition choice_at (a : Placement) (id : Z) (pos : nat) : option DeviceChoice :=
  match devices a !! pos, loads a !! pos with
  | Some (_, dev), Some l => Some {| ch_device_id := id; ch_device := dev; ch_load := l |}
  | _, _ => None
  end.

Definition handle_pick (h : PlacementHints) (reply : nat) : pact Placement PlacementEff unit :=
  a ← calm get;
  let '(c, p) := choose (policy a) h (candidates a) in
  calm (modify (set_policy p));;
  match c with
  | None => calm (emit (ReplyPick reply (Err no_eligible_device)))
  | Some id =>
    match position id (devices a) with
    | None => panic unwrap_none
    | Some pos =>
      match choice_at a id pos with
      | None => panic "index out of bounds"
      | Some ch => calm (emit (ReplyPick reply (Ok ch)))
      end
    end
  end.

Definition schedule_poll : act Placement PlacementEff unit :=
  a ← get; emit (SchedulePoll (poll_interval a)).

Definition pre_start : act Placement PlacementEff unit := schedule_poll.

Definition placement_handle (m : PlacementMsg) : pact Placement PlacementEff unit :=
  match m with
  | Pick h reply => handle_pick h reply
  | PollStats => calm (a ← get; emits (imap (λ i d, AskStats d.2 i) (devices a));; schedule_poll)
  | StatsUpdate slot load => calm (modify (λ a, set_loads (<[slot := load]> (loads a)) a))
  end.

(** A run stops at the first panic. *)
Fixpoint placement_run (ms : list PlacementMsg) : pact Placement PlacementEff unit :=
  match ms with
  | [] => mret ()
  | m :: ms => placement_handle m;; placement_run ms
  end.

(** ** The state along a run *)

(** The last load reported for a slot. *)
Definition latest (ms : list PlacementMsg) (i : nat) : DeviceLoad :=
  default no_load
    (last (omap (λ m, match m with StatsUpdate s l => if s =? i then Some l else None | _ => None end) ms)).

Record placement_wf (ds : list (Z * nat)) (ms : list PlacementMsg) (a : Placement) : Prop := {
  pw_devices : devices a = ds;
  pw_length : length (loads a) = length ds;
  pw_loads : ∀ i, i < length ds → loads a !! i = Some (latest ms i);
}.

Lemma placement_new_wf ds p : placement_wf ds [] (Placement_new ds p).
Proof. constructor; simpl; [done|by rewrite length_replicate|]. intros i Hi. by apply lookup_replicate_2. Qed.

Lemma candidates_ids ds ms a : placement_wf ds ms a → (candidates a).*1 = ds.*1.
Proof.
  intros [Hd Hl _]. unfold candidates. rewrite Hd. clear Hd. revert Hl. generalize (loads a).
  induction ds as [|d ds IH]; intros [|l ls] Hl; simpl in *; try done.
  f_equal. by apply IH, Nat.succ_inj.
Qed.

Lemma candidates_lookup ds ms a i id l :
  placement_wf ds ms a →
  candidates a !! i = Some (id, l) ↔ ∃ dev, ds !! i = Some (id, dev) ∧ l = latest ms i.
Proof.
  intros [Hd Hl Hls]. unfold candidates. rewrite lookup_zip_with, Hd. split.
  - intros Hi. destruct (ds !! i) as [[d dev]|] eqn:Hdi; [|done]. simpl in Hi.
    rewrite Hls in Hi by (by eapply lookup_lt_Some). simpl in Hi. simplify_eq. eauto.
  - intros (dev & Hdi & ->). rewrite Hdi. simpl. by rewrite Hls by (by eapply lookup_lt_Some).
Qed.

Lemma candidates_length ds ms a : placement_wf ds ms a → length (candidates a) = length ds.
Proof. intros H. by rewrite <-(length_fmap fst), (candidates_ids ds ms a H), length_fmap. Qed.

Lemma position_spec id ds i :
  position id ds = Some i ↔
  (∃ dev, ds !! i = Some (id, dev)) ∧ (∀ j dev, j < i → ds !! j ≠ Some (id, dev)).
Proof.
  revert i. induction ds as [|[d dv] ds IH]; intros i; simpl.
  { split; [done|]. by intros [[? ?] _]. }
  destruct (Z.eqb_spec d id) as [->|Hne].
  - split; [intros [= <-]; split; [by eexists|lia]|]. intros [_ H]. destruct i as [|i]; [done|].
    by destruct (H 0 dv (Nat.lt_0_succ i)).
  - rewrite fmap_Some. setoid_rewrite IH. split.
    + intros (k & [[dev Hk] Hf] & ->). split; [by exists dev|]. intros [|j] dev' Hj; simpl; [congruence|].
      apply Hf. lia.
    + intros [[dev Hi] Hf]. destruct i as [|i]; simpl in *; [congruence|]. exists i. split; [|done].
      split; [by exists dev|]. intros j dev' Hj. apply (Hf (Datatypes.S j) dev'). lia.
Qed.

Lemma position_elem id ds : id ∈ ds.*1 → is_Some (position id ds).
Proof.
  induction ds as [|[d dv] ds IH]; simpl; [by intros ?%elem_of_nil|].
  intros [->|H]%elem_of_cons; [by rewrite Z.eqb_refl|].
  destruct (d =? id)%Z; [done|]. destruct (IH H) as [i ->]. by eexists.
Qed.

Definition chosen (ds : list (Z * nat)) (ms : list PlacementMsg) (c : option Z) (r : result DeviceChoice GpuError) :
    Prop :=
  match c with
  | None => r = Err no_eligible_device
  | Some id => ∃ pos dev, position id ds = Some pos ∧ ds !! pos = Some (id, dev) ∧
      r = Ok {| ch_device_id := id; ch_device := dev; ch_load := latest ms pos |}
  end.

Context `{!PolicyLaw P}.

Lemma latest_skip ms m i :
  (∀ l, m ≠ StatsUpdate i l) → latest (ms ++ [m]) i = latest ms i.
Proof.
  intros Hm. unfold latest. rewrite omap_app. destruct m as [| |s l]; simpl; rewrite ?app_nil_r; try done.
  destruct (Nat.eqb_spec s i) as [->|]; [by destruct (Hm l)|by rewrite app_nil_r].
Qed.

Lemma latest_update ms i l : latest (ms ++ [StatsUpdate i l]) i = l.
Proof. unfold latest. rewrite omap_app. simpl. by rewrite Nat.eqb_refl, last_snoc. Qed.

(** One message: no panic; a pick is answered, once, with the policy's choice. *)
Lemma placement_step ds ms a m :
  placement_wf ds ms a →
  let '(r, a', es) := placement_handle m a in
  r = Ok () ∧ placement_wf ds (ms ++ [m]) a' ∧
  match m with
  | Pick h reply =>
    let '(c, p) := choose (policy a) h (candidates a) in
    policy a' = p ∧ ∃ res, es = [ReplyPick reply res] ∧ chosen ds ms c res
  | PollStats => policy a' = policy a ∧ es = imap (λ i d, AskStats d.2 i) ds ++ [SchedulePoll (poll_interval a)]
  | StatsUpdate _ _ => policy a' = policy a ∧ es = []
  end.
Proof.
  intros Hwf. pose proof Hwf as [Hd Hl Hls].
  assert (Hskip : ∀ a' : Placement, devices a' = devices a → loads a' = loads a →
    (∀ i l, m ≠ StatsUpdate i l) → placement_wf ds (ms ++ [m]) a').
  { intros a' H1 H2 Hm. constructor; [congruence|congruence|]. intros i Hi.
    rewrite H2, latest_skip by auto. auto. }
  destruct m as [h reply| |slot l]; unfold placement_handle.
  - unfold handle_pick. pose proof (choose_candidate (policy a) h (candidates a)) as Hc.
    pact_unfold. destruct (choose (policy a) h (candidates a)) as [[id|] p] eqn:Hch; simpl in *.
    + specialize (Hc id eq_refl). rewrite (candidates_ids ds ms a Hwf) in Hc.
      rewrite Hd. destruct (position_elem id ds Hc) as [pos Hp]. rewrite Hp.
      pose proof Hp as Hp'. apply position_spec in Hp' as [[dev Hdev] _].
      unfold choice_at. rewrite Hd, Hdev, Hls by (by eapply lookup_lt_Some). simpl.
      split_and!; [done|by apply Hskip|done|]. eexists. split; [done|]. by exists pos, dev.
    + split_and!; [done|by apply Hskip|done|]. by eexists.
  - unfold schedule_poll. pact_unfold. rewrite Hd. split_and!; [done|by apply Hskip|done|done].
  - pact_unfold. split_and!; [done| |done|done]. constructor; simpl; [done|by rewrite length_insert|].
    intros i Hi. destruct (decide (i = slot)) as [->|Hne].
    + rewrite list_lookup_insert_eq by lia. by rewrite latest_update.
    + rewrite list_lookup_insert_ne by done. rewrite latest_skip by congruence. auto.
Qed.

Lemma placement_run_app ms1 ms2 (a : Placement) :
  placement_run (ms1 ++ ms2) a = (placement_run ms1;; placement_run ms2) a.
Proof.
  revert a. induction ms1 as [|m ms1 IH]; intros a; simpl.
  - pact_unfold. by destruct (placement_run ms2 a) as [[[]?]?].
  - unfold mbind, pact_bind. destruct (placement_handle m a) as [[[[]|e] a1] e1]; [|done].
    rewrite IH. unfold mbind, pact_bind. destruct (placement_run ms1 a1) as [[[[]|e] a2] e2]; [|done].
    destruct (placement_run ms2 a2) as [[? ?] ?]. by rewrite app_assoc.
Qed.

Lemma placement_run_wf ds p ms :
  ∃ a es, placement_run ms (Placement_new ds p) = (Ok (), a, es) ∧ placement_wf ds ms a.
Proof.
  induction ms as [|m ms IH] using rev_ind; [by eexists _, _; split; [done|apply placement_new_wf]|].
  destruct IH as (a & es & Hr & Hwf). rewrite placement_run_app. pose proof (placement_step ds ms a m Hwf) as Hs.
  destruct (placement_handle m a) as [[r a'] es'] eqn:Hm. destruct Hs as (-> & Hwf' & _).
  exists a', (es ++ es'). split; [|done]. unfold mbind, pact_bind. rewrite Hr. simpl. pact_unfold.
  rewrite Hm. by rewrite app_nil_r.
Qed.
End placement.
Arguments Placement : clear implicits.
Arguments placement_handle : simpl never.

(** ** The scan *)

(** [best] is the first candidate of least score among the eligible of [cs]. *)
Definition best_of (h : PlacementHints) (cs : list (Z * DeviceLoad)) (best : option (Z * Z)) : Prop :=
  match best with
  | None => ∀ i id l, cs !! i = Some (id, l) → ineligible h l = true
  | Some (id, s) => ∃ i l, cs !! i = Some (id, l) ∧ ineligible h l = false ∧ s = score l ∧
      ∀ j id' l', cs !! j = Some (id', l') → ineligible h l' = false →
        (score l ≤ score l')%Z ∧ (j < i → (score l < score l')%Z)
  end.

Lemma best_of_snoc h cs id l best :
  best_of h cs best →
  best_of h (cs ++ [(id, l)])
    (if ineligible h l then best else
     match best with
     | None => Some (id, score l)
     | Some (_, s) => if (score l <? s)%Z then Some (id, score l) else best
     end).
Proof.
  assert (Hold : ∀ best, best_of h cs best → (ineligible h l = false →
      ∃ id' s, best = Some (id', s) ∧ (s ≤ score l)%Z) → best_of h (cs ++ [(id, l)]) best).
  { intros [[id' s]|] Hb Hl.
    - destruct Hb as (i & l0 & Hi & He & -> & Hmin). exists i, l0. split_and!; [by apply lookup_app_l_Some|done..|].
      intros j id2 l2 [Hj|[Hge Hj]]%lookup_app_Some He2; [by eapply Hmin|].
      apply list_lookup_singleton_Some in Hj as [Hj [= -> ->]]. destruct (Hl He2) as (? & ? & [= <- <-] & ?).
      apply lookup_lt_Some in Hi. split; [done|lia].
    - intros j id2 l2 [Hj|[Hge Hj]]%lookup_app_Some; [by eapply Hb|].
      apply list_lookup_singleton_Some in Hj as [Hj [= -> ->]].
      apply not_false_is_true. intros He. by destruct (Hl He) as (? & ? & ? & ?). }
  assert (Hnew : ineligible h l = false → (∀ j id' l', cs !! j = Some (id', l') → ineligible h l' = false →
      (score l < score l')%Z) → best_of h (cs ++ [(id, l)]) (Some (id, score l))).
  { intros Hl Hmin. exists (length cs), l. split_and!; [by apply list_lookup_middle|done..|].
    intros j id2 l2 [Hj|[Hge Hj]]%lookup_app_Some He2; [specialize (Hmin _ _ _ Hj He2); lia|].
    apply list_lookup_singleton_Some in Hj as [Hj [= -> ->]]. split; lia. }
  intros Hb. destruct (ineligible h l) eqn:Hl; [by apply Hold|]. destruct best as [[id' s]|].
  - destruct (Z.ltb_spec (score l) s) as [Hlt|Hge]; [|apply Hold; eauto].
    apply Hnew; [done|]. destruct Hb as (i & l0 & Hi & He & -> & Hmin). intros j id2 l2 Hj He2.
    destruct (Hmin j id2 l2 Hj He2). lia.
  - apply Hnew; [done|]. intros j id2 l2 Hj He2. rewrite (Hb j id2 l2 Hj) in He2. done.
Qed.

Lemma least_scan_best h cs pre best :
  best_of h pre best → best_of h (pre ++ cs) (least_scan h cs best).
Proof.
  revert pre best. induction cs as [|[id l] cs IH]; intros pre best Hb; simpl; [by rewrite app_nil_r|].
  rewrite (app_assoc pre [_] cs : pre ++ (id, l) :: cs = _). pose proof (best_of_snoc h pre id l best Hb) as Hn.
  destruct (ineligible h l); by apply IH.
Qed.

Lemma least_scan_spec h cs : best_of h cs (least_scan h cs None).
Proof. by apply (least_scan_best h cs []). Qed.

#[global] Instance least_loaded_law : PolicyLaw LeastLoadedPolicy.
Proof.
  intros [] h cs id. unfold choose, least_loaded_policy, least_loaded. simpl.
  pose proof (least_scan_spec h cs) as H. destruct (least_scan h cs None) as [[id' s]|]; [|done].
  intros [= <-]. destruct H as (i & l & Hi & _). apply list_elem_of_fmap. exists (id', l).
  split; [done|]. by eapply list_elem_of_lookup_2.
Qed.

(** ** The properties of placement *)

Definition pick_answers (es : list PlacementEff) : list (nat * result DeviceChoice GpuError) :=
  omap (λ e, match e with ReplyPick reply r => Some (reply, r) | _ => None end) es.

Definition pick_requests (ms : list PlacementMsg) : list nat :=
  omap (λ m, match m with Pick _ reply => Some reply | _ => None end) ms.

(** The answer of round robin to its [k]-th request. *)
Definition nth_choice (ds : list (Z * nat)) (ms : list PlacementMsg) (k : nat) (r : result DeviceChoice GpuError) :
    Prop :=
  let slot := Z.to_nat (wrap 64 (Z.of_nat k) mod Z.of_nat (length ds))%Z in
  match ds !! slot with
  | None => ds = [] ∧ r = Err no_eligible_device
  | Some (id, dev) => ∃ pre, pre `prefix_of` ms ∧
      r = Ok {| ch_device_id := id; ch_device := dev; ch_load := latest pre slot |}
  end.

Lemma NoDup_position ds i id dev : NoDup ds.*1 → ds !! i = Some (id, dev) → position id ds = Some i.
Proof.
  intros Hnd Hi. apply position_spec. split; [by exists dev|]. intros j dev' Hj Hj'.
  assert (i = j); [|lia]. eapply (NoDup_lookup ds.*1); [done|..]; rewrite list_lookup_fmap.
  - by rewrite Hi.
  - by rewrite Hj'.
Qed.

Lemma round_robin_choice ds ms a r k h :
  NoDup ds.*1 → placement_wf ds ms a → cursor (policy a) = wrap 64 (Z.of_nat k) →
  let '(c, p) := round_robin (policy a) h (candidates a) in
  (ds = [] ∨ cursor p = wrap 64 (Z.of_nat (S k))) ∧ (chosen ds ms c r → nth_choice ds ms k r).
Proof.
  intros Hnd Hwf Hk. unfold round_robin. pose proof (candidates_length ds ms a Hwf) as Hlen.
  destruct (candidates a) as [|c cs] eqn:Hc.
  { destruct ds as [|d ds]; [|done]. split; [by left|]. done. }
  rewrite <-Hc in Hlen |- *. rewrite Hlen, Hk. split.
  { right. simpl. unfold wadd, wrap. rewrite Zplus_mod_idemp_l. f_equal. lia. }
  set (slot := (wrap 64 (Z.of_nat k) mod Z.of_nat (length ds))%Z).
  assert (Hds : 0 < length ds) by (rewrite <-Hlen, Hc; simpl; lia).
  assert (Hslot : (0 ≤ slot < Z.of_nat (length ds))%Z) by (apply Z.mod_pos_bound; lia).
  destruct (lookup_lt_is_Some_2 ds (Z.to_nat slot)) as [[id dev] Hd]; [lia|].
  assert (Hcs : candidates a !! Z.to_nat slot = Some (id, latest ms (Z.to_nat slot))).
  { apply (candidates_lookup ds ms a _ _ _ Hwf). by exists dev. }
  rewrite Hcs. unfold nth_choice, chosen. simpl. fold slot. rewrite Hd.
  intros (pos & dev' & Hp & Hpos & ->). rewrite (NoDup_position ds _ id dev Hnd Hd) in Hp. simplify_eq.
  by exists ms.
Qed.

Lemma nth_choice_extend ds ms m k r : nth_choice ds ms k r → nth_choice ds (ms ++ [m]) k r.
Proof.
  unfold nth_choice. destruct (ds !! _) as [[id dev]|]; [|done]. intros (pre & Hp & ->).
  exists pre. split; [by apply prefix_app_r|done].
Qed.

Lemma ask_stats_answers ds : pick_answers (imap (λ i (d : Z * nat), AskStats d.2 i) ds) = [].
Proof.
  assert (H : ∀ f : nat → nat, pick_answers (imap (λ i (d : Z * nat), AskStats d.2 (f i)) ds) = []).
  { induction ds as [|d ds IH]; intros f; [done|]. apply (IH (λ i, f (S i))). }
  apply (H id).
Qed.

Lemma pick_answers_app es1 es2 : pick_answers (es1 ++ es2) = pick_answers es1 ++ pick_answers es2.
Proof. apply omap_app. Qed.

Lemma placement_run_snoc `{PlacementPolicy P} ms m a0 (a : Placement P) es a' es' :
  placement_run ms a0 = (Ok (), a, es) → placement_handle m a = (Ok (), a', es') →
  placement_run (ms ++ [m]) a0 = (Ok (), a', es ++ es').
Proof.
  intros Hr Hm. rewrite placement_run_app. unfold mbind, pact_bind. rewrite Hr. simpl. pact_unfold.
  rewrite Hm. by rewrite app_nil_r.
Qed.

(** What holds of a run under round robin; [n] counts the answers. *)
Record rr_inv (ds : list (Z * nat)) (ms : list PlacementMsg) (a : Placement RoundRobinPolicy)
    (es : list PlacementEff) : Prop := {
  rr_wf : placement_wf ds ms a;
  rr_cursor : ds = [] ∨ cursor (policy a) = wrap 64 (Z.of_nat (length (pick_answers es)));
  rr_answers : (pick_answers es).*1 = pick_requests ms;
  rr_choices : ∀ k reply r, pick_answers es !! k = Some (reply, r) → nth_choice ds ms k r;
}.

(** A message that is not a pick. *)
Lemma rr_quiet ds ms m a es a' es' :
  rr_inv ds ms a es → placement_wf ds (ms ++ [m]) a' → policy a' = policy a →
  pick_answers es' = [] → pick_requests [m] = [] → rr_inv ds (ms ++ [m]) a' (es ++ es').
Proof.
  intros [? ? Ha Hc] Hwf Hp He Hm. constructor.
  - done.
  - by rewrite pick_answers_app, He, app_nil_r, Hp.
  - unfold pick_requests in *. by rewrite pick_answers_app, He, omap_app, Hm, !app_nil_r.
  - rewrite pick_answers_app, He, app_nil_r. intros k reply r Hk. apply nth_choice_extend. eauto.
Qed.

Lemma rr_pick ds ms h reply a es a' res :
  NoDup ds.*1 → rr_inv ds ms a es → placement_wf ds (ms ++ [Pick h reply]) a' →
  (let '(c, p) := round_robin (policy a) h (candidates a) in policy a' = p ∧ chosen ds ms c res) →
  rr_inv ds (ms ++ [Pick h reply]) a' (es ++ [ReplyPick reply res]).
Proof.
  intros Hnd [Hwf Hcur Ha Hc] Hwf' Hp.
  pose proof (λ k, round_robin_choice ds ms a res k h Hnd Hwf) as Hrr.
  destruct (round_robin (policy a) h (candidates a)) as [c p] eqn:Hr. destruct Hp as [Hp Hres].
  assert (Hk : nth_choice ds ms (length (pick_answers es)) res ∧
    (ds = [] ∨ cursor p = wrap 64 (Z.of_nat (S (length (pick_answers es)))))).
  { destruct Hcur as [->|Hcur]; [|destruct (Hrr _ Hcur) as [? ?]; auto].
    split; [|by left]. destruct c; [by destruct Hres as (pos & dev & ? & ? & _)|done]. }
  constructor.
  - done.
  - rewrite pick_answers_app, length_app, Hp. simpl. rewrite Nat.add_1_r. apply Hk.
  - unfold pick_requests in *. by rewrite pick_answers_app, omap_app, fmap_app, Ha.
  - rewrite pick_answers_app. intros k reply' r' [Hk'|[Hge Hk']]%lookup_app_Some; apply nth_choice_extend.
    + by eapply Hc.
    + apply list_lookup_singleton_Some in Hk' as [Hz [= -> ->]].
      replace k with (length (pick_answers es)) by lia. apply Hk.
Qed.

Lemma rr_run ds ms :
  NoDup ds.*1 →
  ∃ a es, placement_run ms (Placement_new ds RoundRobinPolicy_default) = (Ok (), a, es) ∧ rr_inv ds ms a es.
Proof.
  intros Hnd. induction ms as [|m ms IH] using rev_ind.
  { eexists _, _. split; [done|]. constructor; [apply placement_new_wf|by right|done|done]. }
  destruct IH as (a & es & Hr & Hinv).
  pose proof (placement_step ds ms a m (rr_wf _ _ _ _ Hinv)) as Hs.
  destruct (placement_handle m a) as [[r a'] es'] eqn:Hm. destruct Hs as (-> & Hwf' & Heff).
  exists a', (es ++ es'). split; [by eapply placement_run_snoc|]. destruct m as [h reply| |slot l].
  - unfold choose, round_robin_policy in Heff.
    destruct (round_robin (policy a) h (candidates a)) as [c p] eqn:Hc.
    destruct Heff as (Hp & res & -> & Hres). apply (rr_pick _ _ _ _ a); [done..|]. by rewrite Hc.
  - destruct Heff as [? ->]. apply (rr_quiet ds ms _ a es); try done.
    by rewrite pick_answers_app, ask_stats_answers.
  - destruct Heff as [? ->]. by apply (rr_quiet ds ms _ a es).
Qed.

(** Round robin: whatever the mailbox holds, the actor never panics and
    answers every pick once, in order; the [k]-th pick gets device
    [k mod 2^64 mod n] of the fleet, with a load that was the last one
    reported for it, and the error exactly when the fleet is empty. *)
Theorem placement_round_robin (ds : list (Z * nat)) (ms : list PlacementMsg) :
  NoDup ds.*1 →
  ∃ a es, placement_run ms (Placement_new ds RoundRobinPolicy_default) = (Ok (), a, es) ∧
    (pick_answers es).*1 = pick_requests ms ∧
    ∀ k reply r, pick_answers es !! k = Some (reply, r) → nth_choice ds ms k r.
Proof.
  intros Hnd. destruct (rr_run ds ms Hnd) as (a & es & Hr & [_ _ ? ?]). by exists a, es.
Qed.

Definition two_devices : list (Z * nat) := [(7%Z, 0); (9%Z, 1)].
Definition no_hints : PlacementHints := {| min_free_bytes := 0; min_compute_cap := None; priority := None |}.

Lemma placement_round_robin_witness :
  NoDup two_devices.*1 ∧
  ∃ a es, placement_run [Pick no_hints 0; PollStats; Pick no_hints 1; Pick no_hints 2]
      (Placement_new two_devices RoundRobinPolicy_default) = (Ok (), a, es) ∧
    (pick_answers es).*1 = [0; 1; 2].
Proof.
  split; [by apply (bool_decide_unpack (NoDup two_devices.*1)); vm_compute|].
  destruct (placement_round_robin two_devices [Pick no_hints 0; PollStats; Pick no_hints 1; Pick no_hints 2])
    as (a & es & Hr & Ha & _); [by apply (bool_decide_unpack (NoDup two_devices.*1)); vm_compute|].
  by exists a, es.
Defined.

(** Least loaded: a pick under the least-loaded policy never panics and
    is answered at once: with the first of the devices of least
    [queue_depth + active_streams] among those whose last reported load
    satisfies the hints, or with the error exactly when no device satisfies
    them. *)
Theorem placement_least_loaded (ds : list (Z * nat)) (ms : list PlacementMsg) (h : PlacementHints) (reply : nat) :
  NoDup ds.*1 →
  ∃ a es a' r, placement_run ms (Placement_new ds LeastLoaded) = (Ok (), a, es) ∧
    placement_handle (Pick h reply) a = (Ok (), a', [ReplyPick reply r]) ∧
    match r with
    | Ok c => ∃ i, ds !! i = Some (ch_device_id c, ch_device c) ∧ ch_load c = latest ms i ∧
        ineligible h (latest ms i) = false ∧
        ∀ j, j < length ds → ineligible h (latest ms j) = false →
          (score (latest ms i) ≤ score (latest ms j))%Z ∧
          (j < i → (score (latest ms i) < score (latest ms j))%Z)
    | Err e => e = no_eligible_device ∧ ∀ j, j < length ds → ineligible h (latest ms j) = true
    end.
Proof.
  intros Hnd. destruct (placement_run_wf ds LeastLoaded ms) as (a & es & Hr & Hwf).
  pose proof (placement_step ds ms a (Pick h reply) Hwf) as Hs.
  destruct (placement_handle (Pick h reply) a) as [[r a'] es'] eqn:Hm. destruct Hs as (-> & _ & Hs).
  unfold choose, least_loaded_policy, least_loaded in Hs. destruct Hs as (_ & res & -> & Hres).
  exists a, es, a', res. split_and!; [done..|]. pose proof (least_scan_spec h (candidates a)) as Hb.
  assert (Hall : ∀ j, j < length ds → ∃ id, candidates a !! j = Some (id, latest ms j)).
  { intros j Hj. destruct (lookup_lt_is_Some_2 ds j Hj) as [[id dev] Hd]. exists id.
    apply (candidates_lookup ds ms a _ _ _ Hwf). by exists dev. }
  destruct (least_scan h (candidates a) None) as [[id s]|].
  - destruct Hb as (i & l & Hi & He & -> & Hmin).
    apply (candidates_lookup ds ms a _ _ _ Hwf) in Hi as (dev & Hd & ->).
    simpl in Hres. destruct Hres as (pos & dev' & Hp & Hpos & ->). rewrite (NoDup_position ds i id dev Hnd Hd) in Hp.
    simplify_eq. exists pos. split_and!; [done..|]. intros j Hj Hej. destruct (Hall j Hj) as [id' Hj'].
    by eapply Hmin.
  - simpl in Hres. subst. split; [done|]. intros j Hj. destruct (Hall j Hj) as [id' Hj']. by eapply Hb.
Qed.

Lemma placement_least_loaded_witness :
  NoDup two_devices.*1 ∧
  ∃ a es a' r, placement_run [StatsUpdate 1 no_load] (Placement_new two_devices LeastLoaded) = (Ok (), a, es) ∧
    placement_handle (Pick no_hints 3) a = (Ok (), a', [ReplyPick 3 r]).
Proof.
  split; [by apply (bool_decide_unpack (NoDup two_devices.*1)); vm_compute|].
  destruct (placement_least_loaded two_devices [StatsUpdate 1 no_load] no_hints 3)
    as (a & es & a' & r & Hr & Hm & _); [by apply (bool_decide_unpack (NoDup two_devices.*1)); vm_compute|].
  by exists a, es, a', r.
Defined.

(** A hint that asks for free memory or for a compute capability. *)
Definition demanding (h : PlacementHints) : Prop :=
  (0 < min_free_bytes h)%Z ∨
  ∃ mj mn, min_compute_cap h = Some (mj, mn) ∧ (0 < mj ∨ mj = 0 ∧ 0 < mn)%Z.

Lemma demanding_ineligible h l :
  demanding h → free_bytes l = 0%Z → compute_cap l = (0, 0)%Z → ineligible h l = true.
Proof.
  unfold ineligible. intros [Hf|(mj & mn & -> & Hc)] -> ->; apply orb_true_iff; cbn [fst snd].
  - left. by apply Z.ltb_lt.
  - right. destruct (Z.ltb_spec 0 mj), (Z.eqb_spec 0 mj), (Z.ltb_spec 0 mn); done || lia.
Qed.

Lemma latest_report ms (Q : DeviceLoad → Prop) i :
  Q no_load → (∀ s l, StatsUpdate s l ∈ ms → Q l) → Q (latest ms i).
Proof.
  intros H0 Hall. unfold latest. destruct (last _) as [l|] eqn:Hl; [|done].
  apply last_Some_elem_of, list_elem_of_omap in Hl as ([| |s l'] & Hin & Hs); try done.
  destruct (s =? i); [|done]. simplify_eq/=. by eapply Hall.
Qed.

(** Capacity hints are never satisfied: a device actor reports zero free
    bytes and compute capability (0, 0) in every load.  When all reports come
    from device actors, every least-loaded pick with a hint on memory or
    compute capability is refused, whatever the devices are. *)
Theorem placement_capacity_hints (ds : list (Z * nat)) (ms : list PlacementMsg) (h : PlacementHints) (reply : nat) :
  (∀ s l, StatsUpdate s l ∈ ms → ∃ d, l = snapshot_load d) → demanding h →
  ∃ a es a', placement_run ms (Placement_new ds LeastLoaded) = (Ok (), a, es) ∧
    placement_handle (Pick h reply) a = (Ok (), a', [ReplyPick reply (Err no_eligible_device)]).
Proof.
  intros Hsnap Hh. destruct (placement_run_wf ds LeastLoaded ms) as (a & es & Hr & Hwf).
  pose proof (placement_step ds ms a (Pick h reply) Hwf) as Hs.
  destruct (placement_handle (Pick h reply) a) as [[r a'] es'] eqn:Hm. destruct Hs as (-> & _ & Hs).
  unfold choose, least_loaded_policy, least_loaded in Hs. destruct Hs as (_ & res & -> & Hres).
  exists a, es, a'. split; [done|]. pose proof (least_scan_spec h (candidates a)) as Hb.
  destruct (least_scan h (candidates a) None) as [[id s]|]; [|by rewrite Hm, Hres].
  destruct Hb as (i & l & Hi & He & _). apply (candidates_lookup ds ms a _ _ _ Hwf) in Hi as (dev & _ & ->).
  exfalso. assert (Hl : free_bytes (latest ms i) = 0%Z ∧ compute_cap (latest ms i) = (0, 0)%Z).
  { apply latest_report; [done|]. intros s' l' Hin. by destruct (Hsnap s' l' Hin) as [d ->]. }
  destruct Hl. by rewrite demanding_ineligible in He.
Qed.

Lemma placement_capacity_hints_witness :
  let h := {| min_free_bytes := 1; min_compute_cap := None; priority := None |} in
  let l := snapshot_load (DeviceActor_new (DeviceConfig_new 0)) in
  demanding h ∧
  ∃ a es a', placement_run [StatsUpdate 0 l] (Placement_new two_devices LeastLoaded) = (Ok (), a, es) ∧
    placement_handle (Pick h 5) a = (Ok (), a', [ReplyPick 5 (Err no_eligible_device)]).
Proof.
  split; [left; reflexivity|]. apply placement_capacity_hints; [|left; reflexivity].
  intros s l' Hin%list_elem_of_singleton. simplify_eq. eexists. reflexivity.
Defined.
