(* ===== verification/Sharding.v ===== *)
(** * Sharded placement and the GPU dispatcher

    Models [placement/sharded.rs] and [dispatcher.rs] of
    [crates/atomr-accel-cuda/src].  The shard region is the library's: it hands a
    message to the handler of the shard that [shard_id] names, and every handler comes
    from the same factory.  The hash of the standard library's [DefaultHasher] is a
    parameter: it has no random seed, so it is a function of the string. *)

From stdpp Require Import pretty.
From S2P Require Import Prelude.

Module Sharding.

Record RoutedDeviceMsg (M : Type) := { entity_id : string; msg : M }.
Arguments entity_id {_}.
Arguments msg {_}.

Section sharding.
Context {M : Type} (hash : string → Z).

Record DeviceExtractor := { shard_count : nat }.
Definition DeviceExtractor_new (n : nat) : DeviceExtractor := {| shard_count := n `max` 1 |}.

(** [h.finish() as usize % self.shard_count] *)
Definition shard_index (e : DeviceExtractor) (id : string) : Z := (hash id mod Z.of_nat (shard_count e))%Z.
Definition shard_id (e : DeviceExtractor) (m : RoutedDeviceMsg M) : string :=
  "shard-" +:+ pretty (shard_index e (entity_id m)).

(** The handler the factory makes: the device told, if there is one. *)
Definition device_index (devices : list nat) (id : string) : Z := (hash id mod Z.of_nat (length devices))%Z.
Definition shard_handler (devices : list nat) (id : string) (m : RoutedDeviceMsg M) : list (nat * M) :=
  if decide (devices = []) then []
  else match devices !! Z.to_nat (device_index devices id) with
       | Some d => [(d, msg m)]
       | None => []
       end.

Record PlacementShardingAdapter := { extractor : DeviceExtractor; fleet : list nat }.
Definition adapter_start (devices : list nat) (shard_count : nat) : PlacementShardingAdapter :=
  let n_devices := length devices `max` 1 in
  let n_shards := if shard_count =? 0 then n_devices else shard_count in
  {| extractor := DeviceExtractor_new n_shards; fleet := devices |}.
(** Telling an entity: the region finds the shard, and its handler the device. *)
Definition tell_entity (a : PlacementShardingAdapter) (m : RoutedDeviceMsg M) : string * list (nat * M) :=
  (shard_id (extractor a) m, shard_handler (fleet a) (entity_id m) m).

Lemma extractor_positive n : 0 < shard_count (DeviceExtractor_new n).
Proof. cbn. lia. Qed.

(** A message reaches exactly one device of the fleet, unless the fleet is empty; which
    one depends on the entity and the fleet alone, not on the number of shards. *)
Theorem entity_routed devices n m : devices ≠ [] →
  ∃ d, d ∈ devices ∧ devices !! Z.to_nat (device_index devices (entity_id m)) = Some d ∧
    (tell_entity (adapter_start devices n) m).2 = [(d, msg m)] ∧
    ∀ n', (tell_entity (adapter_start devices n') m).2 = [(d, msg m)].
Proof.
  intros Hne. unfold tell_entity, adapter_start, shard_handler. cbn.
  assert (Hl : (0 < Z.of_nat (length devices))%Z) by (destruct devices; [done|cbn; lia]).
  destruct (lookup_lt_is_Some_2 devices (Z.to_nat (device_index devices (entity_id m)))) as [d Hd].
  { unfold device_index. pose proof (Z.mod_pos_bound (hash (entity_id m)) _ Hl). lia. }
  exists d. rewrite decide_False, Hd by done. split_and!; [by eapply list_elem_of_lookup_2|done..].
Qed.
Lemma empty_fleet n m : (tell_entity (adapter_start [] n) m).2 = [].
Proof. done. Qed.

(** The entities of a shard share a device when the number of shards is a multiple of the
    number of devices: the device is the shard's index modulo that number. *)
Lemma shard_device devices k id : devices ≠ [] → 0 < k →
  device_index devices id =
    (shard_index (extractor (adapter_start devices (k * length devices))) id mod Z.of_nat (length devices))%Z.
Proof.
  intros Hne Hk. assert (Hl : 0 < length devices) by (destruct devices; [done|cbn; lia]).
  unfold device_index, shard_index, adapter_start. cbn [extractor].
  rewrite (proj2 (Nat.eqb_neq _ _)) by nia. cbn [shard_count DeviceExtractor_new].
  rewrite Nat.max_l by nia. rewrite Nat2Z.inj_mul, (Z.mul_comm (Z.of_nat k)).
  rewrite Z.rem_mul_r by lia. rewrite Z.mul_comm, Z_mod_plus_full, Zmod_mod. done.
Qed.
End sharding.

(** Otherwise a shard has no device: with three shards over two devices, entities that
    hash to 0 and 3 are of one shard and reach different devices. *)
Example shard_split : let hash s := if bool_decide (s = "a") then 0%Z else 3%Z in
  let m id := {| entity_id := id; msg := () |} in
  tell_entity hash (adapter_start [7; 8] 3) (m "a") = ("shard-0", [(7, ())]) ∧
  tell_entity hash (adapter_start [7; 8] 3) (m "b") = ("shard-0", [(8, ())]).
Proof. vm_compute. done. Qed.

End Sharding.

(** ** The dispatcher *)

Module GpuDispatcher.

(** What starting the thread comes to: it cannot be spawned, its runtime cannot be built,
    it dies before it has sent the handle, or it sends the handle. *)
Inductive Startup : Type :=
  | SpawnFails (e : string)
  | BuildFails (e : string)
  | Dies
  | Yields (handle : nat).

(** The task a thread that yields runs: it waits for the sender to send or to be dropped. *)
Record Inner := { delegate : nat; throughput : Z; shutdown_tx : bool; thread_waits : bool }.

Definition dispatcher_new (s : Startup) : result Inner string :=
  match s with
  | SpawnFails e => Err e
  | BuildFails e => Err e
  | Dies => Err "GpuDispatcher thread died before yielding its runtime handle"
  | Yields h => Ok {| delegate := h; throughput := 16; shutdown_tx := true; thread_waits := true |}
  end.

(** [Drop] of the last clone: the sender is taken and used once, which ends the thread. *)
Definition drop_inner (i : Inner) : Inner * list unit :=
  if shutdown_tx i
  then ({| delegate := delegate i; throughput := throughput i; shutdown_tx := false; thread_waits := false |}, [()])
  else (i, []).

(** A dispatcher exists exactly when its thread waits for the shutdown, and its drop ends
    that wait. *)
Lemma dispatcher_life s : match dispatcher_new s with
  | Ok i => (∃ h, s = Yields h ∧ delegate i = h) ∧ thread_waits i = true ∧
            thread_waits (drop_inner i).1 = false ∧ (drop_inner i).2 = [()] ∧
            drop_inner (drop_inner i).1 = ((drop_inner i).1, [])
  | Err e => ∀ h, s ≠ Yields h
  end.
Proof. destruct s; cbn; [done..|]. split_and!; eauto. Qed.

End GpuDispatcher.
