(* ===== verification/Routing.v ===== *)
(** * Routing patterns: replica pool, hot swap, cascade

    Models [crates/atomr-accel-patterns/src/replica_pool.rs], [hot_swap.rs]
    and [cascade.rs].  The replicas, backends and stages are parameters: an
    [ActorRef] is a number, a stage is a function of the request. *)

From Stdlib Require Import Floats.SpecFloat.
From S2P Require Import Prelude Actor Errors.

(** ** [ModelReplicaPool] *)

Module ReplicaPool.

Inductive RoutingPolicy : Type := RoundRobin | LeastLoaded.

Record Pool := {
  replicas : list nat;
  policy : RoutingPolicy;
  cursor : Z;
  (** One [u32] per replica. *)
  counters : list Z;
}.

Section pool.
Context {Req : Type}.

Inductive PoolMsg : Type := Submit (req : Req) (reply : nat).

Inductive PoolEff : Type :=
  | ReplyErr (reply : nat) (e : GpuError)
  (** [replica.tell(Msg::make_submit(req, reply))] *)
  | Forward (replica : nat) (req : Req) (reply : nat).

Definition Pool_new (rs : list nat) (p : RoutingPolicy) : Pool :=
  {| replicas := rs; policy := p; cursor := 0; counters := replicate (length rs) 0%Z |}.

Definition set_cursor (c : Z) (p : Pool) : Pool :=
  {| replicas := replicas p; policy := policy p; cursor := c; counters := counters p |}.
Definition set_counters (cs : list Z) (p : Pool) : Pool :=
  {| replicas := replicas p; policy := policy p; cursor := cursor p; counters := cs |}.

Definition u32_max : Z := 2 ^ 32 - 1.

(** The loop over [counters.iter().enumerate()], from index [i]. *)
Fixpoint min_scan (cs : list Z) (i : nat) (min : Z) (min_idx : nat) : nat :=
  match cs with
  | [] => min_idx
  | v :: cs => if (v <? min)%Z then min_scan cs (S i) v i else min_scan cs (S i) min min_idx
  end.

Definition pick_replica : act Pool PoolEff (option nat) :=
  p ← get;
  let n := length (replicas p) in
  if n =? 0 then mret None
  else match policy p with
  | RoundRobin =>
    let idx := Z.to_nat (cursor p mod Z.of_nat n) in
    modify (set_cursor (cursor p +₆₄ 1));; mret (Some idx)
  | LeastLoaded => mret (Some (min_scan (counters p) 0 u32_max 0))
  end.

Definition zero_replicas : GpuError := Unrecoverable "ModelReplicaPool: zero replicas".

(** [counters\[idx\]] and [replicas\[idx\]] panic out of range. *)
Definition pool_handle (m : PoolMsg) : pact Pool PoolEff unit :=
  let '(Submit req reply) := m in
  picked ← calm pick_replica;
  match picked with
  | None => calm (emit (ReplyErr reply zero_replicas))
  | Some idx =>
    p ← calm get;
    match counters p !! idx, replicas p !! idx with
    | Some c, Some r =>
      calm (modify (set_counters (<[idx := c +₃₂ 1]> (counters p))));;
      calm (emit (Forward r req reply))
    | _, _ => panic "index out of bounds"
    end
  end.

Fixpoint pool_run (ms : list PoolMsg) : pact Pool PoolEff unit :=
  match ms with
  | [] => mret ()
  | m :: ms => pool_handle m;; pool_run ms
  end.

(** Request [k] of [ms] goes to replica [k mod n]. *)
Definition rotation (rs : list nat) (k : nat) (ms : list PoolMsg) : list PoolEff :=
  imap (λ i m, let '(Submit req reply) := m in
    match rs !! ((k + i) mod length rs) with
    | Some r => Forward r req reply
    | None => ReplyErr reply zero_replicas
    end) ms.

(** The counters after [k] requests dealt in turn. *)
Definition dealt (n k : nat) : list Z :=
  replicate (k mod n) (Z.of_nat (S (k / n))) ++ replicate (n - k mod n) (Z.of_nat (k / n)).

Lemma min_scan_skip (cs1 cs2 : list Z) i min mi :
  Forall (λ v, min ≤ v)%Z cs1 → min_scan (cs1 ++ cs2) i min mi = min_scan cs2 (length cs1 + i) min mi.
Proof.
  intros H. revert i. induction H as [|v cs1 Hv _ IH]; intros i; [done|]. simpl.
  destruct (Z.ltb_spec v min); [lia|]. rewrite IH. f_equal. lia.
Qed.

Lemma min_scan_replicate m (v : Z) i min mi :
  (v ≤ min)%Z → min_scan (replicate m v) i min mi = if (v <? min)%Z then match m with 0 => mi | _ => i end else mi.
Proof.
  intros Hv. destruct m as [|m]; simpl; [by destruct (v <? min)%Z|].
  rewrite <-(app_nil_r (replicate m v)). destruct (Z.ltb_spec v min); rewrite min_scan_skip; try done;
    apply Forall_replicate; lia.
Qed.

Lemma min_scan_dealt n k :
  0 < n → (Z.of_nat (k / n) < u32_max)%Z → min_scan (dealt n k) 0 u32_max 0 = k mod n.
Proof.
  intros Hn Hk. pose proof (Nat.mod_upper_bound k n ltac:(lia)) as Hr. unfold dealt.
  set (q := k / n) in *. set (r := k mod n) in *. destruct r as [|r'].
  - simpl. rewrite Nat.sub_0_r, min_scan_replicate by lia.
    destruct (Z.ltb_spec (Z.of_nat q) u32_max); [|lia]. by destruct n.
  - simpl. destruct (Z.ltb_spec (Z.of_nat (S q)) u32_max) as [Hlt|Hge].
    + rewrite min_scan_skip by (apply Forall_replicate; lia). rewrite min_scan_replicate, length_replicate by lia.
      destruct (Z.ltb_spec (Z.of_nat q) (Z.of_nat (S q))); [|lia].
      destruct (n - S r') eqn:?; [lia|]. simpl. lia.
    + rewrite min_scan_skip by (apply Forall_replicate; lia). rewrite min_scan_replicate, length_replicate by lia.
      destruct (Z.ltb_spec (Z.of_nat q) u32_max); [|lia]. destruct (n - S r') eqn:?; [lia|]. simpl. lia.
Qed.

Lemma dealt_next n k :
  0 < n → (Z.of_nat (k / n) < u32_max)%Z →
  dealt n k !! (k mod n) = Some (Z.of_nat (k / n)) ∧
  <[k mod n := Z.of_nat (k / n) +₃₂ 1]> (dealt n k) = dealt n (S k).
Proof.
  intros Hn Hk. pose proof (Nat.mod_upper_bound k n ltac:(lia)) as Hr.
  assert (Hw : (Z.of_nat (k / n) +₃₂ 1 = Z.of_nat (S (k / n)))%Z).
  { rewrite wadd_small; [lia|]. unfold in_width, u32_max in *. lia. }
  assert (Hsub : n - k mod n = S (n - S (k mod n))) by lia.
  unfold dealt at 1 2. rewrite Hw, Hsub. split.
  - rewrite lookup_app_r; rewrite length_replicate; [|lia]. by rewrite Nat.sub_diag.
  - rewrite insert_app_r_alt; rewrite length_replicate; [|lia]. rewrite Nat.sub_diag. simpl. unfold dealt.
    rewrite (cons_middle (Z.of_nat (S (k / n)))), app_assoc.
    change [Z.of_nat (S (k / n))] with (replicate 1 (Z.of_nat (S (k / n)))). rewrite <-replicate_add.
    rewrite Nat.add_1_r. destruct (decide (S (k mod n) = n)) as [He|He].
    + assert (Hq : S k = n * S (k / n) + 0) by (pose proof (Nat.div_mod_eq k n); lia).
      rewrite <-(Nat.mod_unique (S k) n (S (k / n)) 0), <-(Nat.div_unique (S k) n (S (k / n)) 0) by lia.
      rewrite He, Nat.sub_diag, Nat.sub_0_r. simpl. by rewrite app_nil_r.
    + assert (Hq : S k = n * (k / n) + S (k mod n)) by (pose proof (Nat.div_mod_eq k n); lia).
      by rewrite <-(Nat.mod_unique (S k) n (k / n) (S (k mod n))),
        <-(Nat.div_unique (S k) n (k / n) (S (k mod n))) by lia.
Qed.

Lemma dealt_length n k : 0 < n → length (dealt n k) = n.
Proof.
  intros Hn. pose proof (Nat.mod_upper_bound k n ltac:(lia)). unfold dealt.
  rewrite length_app, !length_replicate. lia.
Qed.

(** After [k] requests. *)
Record pool_inv (rs : list nat) (pol : RoutingPolicy) (k : nat) (p : Pool) : Prop := {
  pi_replicas : replicas p = rs;
  pi_policy : policy p = pol;
  pi_counters : length (counters p) = length rs;
  pi_state : rs = [] ∨ match pol with
    | RoundRobin => cursor p = wrap 64 (Z.of_nat k)
    | LeastLoaded => counters p = dealt (length rs) k
    end;
}.

Lemma pool_new_inv rs pol : pool_inv rs pol 0 (Pool_new rs pol).
Proof.
  constructor; simpl; try done; [by rewrite length_replicate|].
  destruct rs as [|r rs]; [by left|right]. destruct pol; [done|]. unfold dealt.
  rewrite Nat.Div0.mod_0_l, Nat.Div0.div_0_l. simpl. done.
Qed.

(** The capacity up to which both policies rotate. *)
Definition rotates (rs : list nat) (k : nat) : Prop :=
  (Z.of_nat k < 2 ^ 64)%Z ∧ (rs = [] ∨ Z.of_nat k < u32_max * Z.of_nat (length rs))%Z.

Lemma pool_pick rs pol k p :
  rs ≠ [] → rotates rs k → pool_inv rs pol k p →
  ∃ p', pick_replica p = (Some (k mod length rs), p', []) ∧
    replicas p' = rs ∧ policy p' = pol ∧ counters p' = counters p ∧
    (pol = RoundRobin → cursor p' = wrap 64 (Z.of_nat (S k))).
Proof.
  intros Hne [H64 [?|Hk]] [Hr Hp Hc Hs]; [done|].
  assert (Hn : 0 < length rs) by (destruct rs; simpl; [done|lia]).
  unfold pick_replica. act_unfold. rewrite Hr, Hp.
  destruct (Nat.eqb_spec (length rs) 0); [lia|]. destruct Hs as [?|Hs]; [done|]. destruct pol.
  - eexists. rewrite Hs, wrap_small by (unfold in_width; lia). rewrite <-Nat2Z.inj_mod, Nat2Z.id.
    split; [done|]. split_and!; try done. intros _. simpl. unfold wadd. f_equal. lia.
  - exists p. rewrite Hs, min_scan_dealt; [done|done|].
    rewrite Nat2Z.inj_div. apply Z.div_lt_upper_bound; lia.
Qed.

Lemma pool_step rs pol k p req reply :
  rotates rs k → pool_inv rs pol k p →
  ∃ p', pool_handle (Submit req reply) p =
      (Ok (), p', [match rs !! (k mod length rs) with
                   | Some r => Forward r req reply
                   | None => ReplyErr reply zero_replicas
                   end]) ∧ pool_inv rs pol (S k) p'.
Proof.
  intros Hrot Hinv. destruct (decide (rs = [])) as [->|Hne].
  - exists p. destruct Hinv as [Hr Hp Hc Hs]. unfold pool_handle, pick_replica. pact_unfold. rewrite Hr.
    simpl. split; [done|]. by constructor; auto.
  - destruct (pool_pick rs pol k p Hne Hrot Hinv) as (p1 & Hpick & Hr & Hp & Hc & Hcur).
    assert (Hn : 0 < length rs) by (destruct rs; simpl; [done|lia]).
    pose proof (Nat.mod_upper_bound k (length rs) ltac:(lia)) as Hlt.
    destruct (lookup_lt_is_Some_2 rs (k mod length rs)) as [r Hrk]; [done|].
    destruct (lookup_lt_is_Some_2 (counters p) (k mod length rs)) as [c Hck]; [by rewrite (pi_counters _ _ _ _ Hinv)|].
    unfold pool_handle. pact_unfold. rewrite Hpick. simpl. rewrite Hc, Hck, Hr, Hrk. simpl.
    eexists. split; [done|]. constructor; simpl; try done.
    + by rewrite length_insert, (pi_counters _ _ _ _ Hinv).
    + right. destruct pol; [by auto|]. destruct Hrot as [_ [?|Hk]]; [done|].
      destruct (pi_state _ _ _ _ Hinv) as [?|Hd]; [done|]. rewrite Hd in Hck |- *.
      destruct (dealt_next (length rs) k Hn) as [Hl Hi].
      { rewrite Nat2Z.inj_div. apply Z.div_lt_upper_bound; lia. }
      rewrite Hl in Hck. injection Hck as <-. done.
Qed.

Lemma pool_run_rotation rs pol k p ms :
  (ms ≠ [] → rotates rs (k + length ms - 1)) → pool_inv rs pol k p →
  ∃ p', pool_run ms p = (Ok (), p', rotation rs k ms).
Proof.
  revert k p. induction ms as [|[req reply] ms IH]; intros k p Hrot Hinv; [by exists p|].
  destruct (Hrot ltac:(done)) as [H64 Hk]. cbn [length] in H64, Hk.
  destruct (pool_step rs pol k p req reply) as (p1 & Hs & Hinv1); [|done|].
  { split; [lia|]. destruct Hk as [?|Hk]; [by left|right; lia]. }
  destruct (IH (S k) p1) as (p2 & Hr); [|done|].
  { intros Hne. split; [lia|]. destruct Hk as [?|Hk]; [by left|right]. lia. }
  exists p2. cbn [pool_run]. unfold mbind, pact_bind. rewrite Hs, Hr. f_equal. unfold rotation. simpl.
  rewrite Nat.add_0_r. f_equal. apply imap_ext. intros i [req' reply'] _. cbn beta iota.
  unfold compose. by rewrite <-(Nat.add_succ_comm k i).
Qed.
End pool.

(** The replica pool rotates: under both policies, and until a counter or
    the cursor would wrap, the pool forwards every request once, in order,
    the [k]-th to replica [k mod n]; it never panics, and it answers the error
    exactly when it has no replica.  In particular the least-loaded policy
    routes as round robin does: nothing it counts ever goes down. *)
Theorem replica_pool_rotates {Req} (rs : list nat) (pol : RoutingPolicy) (ms : list (@PoolMsg Req)) :
  (Z.of_nat (length ms) ≤ 2 ^ 64)%Z →
  rs = [] ∨ (Z.of_nat (length ms) ≤ u32_max * Z.of_nat (length rs))%Z →
  ∃ p, pool_run ms (Pool_new rs pol) = (Ok (), p, rotation rs 0 ms).
Proof.
  intros H64 Hk. apply (pool_run_rotation rs pol); [|apply pool_new_inv].
  intros Hne. assert (0 < length ms) by (destruct ms; simpl; [done|lia]).
  split; [lia|]. destruct Hk as [?|Hk]; [by left|right]. lia.
Qed.

Lemma replica_pool_rotates_witness :
  ∃ p, pool_run [Submit 5 0; Submit 6 1; Submit 7 2] (Pool_new [10; 11] LeastLoaded) =
    (Ok (), p, [Forward 10 5 0; Forward 11 6 1; Forward 10 7 2]).
Proof.
  apply (replica_pool_rotates [10; 11] LeastLoaded [Submit 5 0; Submit 6 1; Submit 7 2]).
  - vm_compute. discriminate.
  - right. vm_compute. discriminate.
Defined.

(** A replica that has not answered anything gets its share all the same:
    nothing in the pool's state depends on the replicas' progress. *)
Example least_loaded_is_blind :
  (pool_run (replicate 3 (Submit 0 0)) (Pool_new [10; 11] LeastLoaded)).2 =
  (pool_run (replicate 3 (Submit 0 0)) (Pool_new [10; 11] RoundRobin)).2.
Proof. by vm_compute. Qed.
End ReplicaPool.

(** ** [ModelHotSwapServer] *)

Module HotSwap.

Record HotSwapStats := { st_generation : Z; st_predicted : Z; st_swaps : Z }.

Record Server := { current : nat; generation : Z; predicted : Z; swaps : Z }.

Section hot_swap.
Context {Req : Type}.

Inductive HotSwapMsg : Type :=
  | Predict (req : Req) (reply : nat)
  | SwapIn (new_backend : nat) (reply : nat)
  | Stats (reply : nat).

Inductive HotSwapEff : Type :=
  (** [backend.tell(P::make_predict(req, reply))] *)
  | Forward (backend : nat) (req : Req) (reply : nat)
  | ReplyStats (reply : nat) (s : HotSwapStats).

Definition Server_new (initial : nat) : Server :=
  {| current := initial; generation := 0; predicted := 0; swaps := 0 |}.

Definition count_predict (s : Server) : Server :=
  {| current := current s; generation := generation s; predicted := predicted s +₆₄ 1; swaps := swaps s |}.
Definition swap_in (b : nat) (s : Server) : Server :=
  {| current := b; generation := generation s +₆₄ 1; predicted := predicted s; swaps := swaps s +₆₄ 1 |}.
Definition stats_of (s : Server) : HotSwapStats :=
  {| st_generation := generation s; st_predicted := predicted s; st_swaps := swaps s |}.

Definition swap_handle (m : HotSwapMsg) : act Server HotSwapEff unit :=
  match m with
  | Predict req reply => s ← get; modify count_predict;; emit (Forward (current s) req reply)
  | SwapIn b reply => modify (swap_in b);; s ← get; emit (ReplyStats reply (stats_of s))
  | Stats reply => s ← get; emit (ReplyStats reply (stats_of s))
  end.

#[global] Instance swap_actor : Actor Server HotSwapMsg HotSwapEff := λ s m, exec (swap_handle m) s.

(** The backend in charge after [ms], and the counts the statistics show. *)
Definition backend_after (initial : nat) (ms : list HotSwapMsg) : nat :=
  default initial (last (omap (λ m, match m with SwapIn b _ => Some b | _ => None end) ms)).
Definition predicts (ms : list HotSwapMsg) : nat :=
  length (omap (λ m, match m with Predict req _ => Some req | _ => None end) ms).
Definition swapped (ms : list HotSwapMsg) : nat :=
  length (omap (λ m, match m with SwapIn b _ => Some b | _ => None end) ms).

Definition server_after (initial : nat) (ms : list HotSwapMsg) : Server :=
  {| current := backend_after initial ms; generation := wrap 64 (Z.of_nat (swapped ms));
     predicted := wrap 64 (Z.of_nat (predicts ms)); swaps := wrap 64 (Z.of_nat (swapped ms)) |}.

(** The single effect of message [i] of [ms]. *)
Definition swap_effect (initial : nat) (ms : list HotSwapMsg) (i : nat) (m : HotSwapMsg) : HotSwapEff :=
  match m with
  | Predict req reply => Forward (backend_after initial (take i ms)) req reply
  | SwapIn _ reply | Stats reply => ReplyStats reply (stats_of (server_after initial (take (S i) ms)))
  end.

Lemma count_next n : wrap 64 (Z.of_nat n) +₆₄ 1 = wrap 64 (Z.of_nat (n + 1)).
Proof. unfold wadd, wrap. rewrite Zplus_mod_idemp_l. f_equal. lia. Qed.

Lemma server_after_snoc initial ms m :
  (handle (server_after initial ms) m).1 = server_after initial (ms ++ [m]) ∧
  (handle (server_after initial ms) m).2 = [swap_effect initial (ms ++ [m]) (length ms) m].
Proof.
  assert (Htake : take (length ms) (ms ++ [m]) = ms) by (by rewrite take_app_length).
  assert (Hall : take (S (length ms)) (ms ++ [m]) = ms ++ [m]) by (apply take_ge; rewrite length_app; simpl; lia).
  unfold swap_effect. rewrite Htake, Hall.
  unfold handle, swap_actor, server_after, backend_after, predicts, swapped. rewrite !omap_app, !length_app.
  destruct m; act_unfold; unfold count_predict, swap_in, stats_of; cbn [current generation predicted swaps omap list_omap length];
    rewrite ?count_next, ?app_nil_r, ?last_snoc, ?Nat.add_0_r; done.
Qed.

Lemma swap_effect_take initial ms ms' i m :
  i < length ms → swap_effect initial (ms ++ ms') i m = swap_effect initial ms i m.
Proof. intros Hi. unfold swap_effect. by rewrite !take_app_le by lia. Qed.

Lemma swap_run initial ms :
  run_actor (Server_new initial) ms = (server_after initial ms, imap (swap_effect initial ms) ms).
Proof.
  induction ms as [|m ms IH] using rev_ind; [done|]. rewrite run_actor_app, IH. simpl.
  destruct (server_after_snoc initial ms m) as [Hs He].
  destruct (handle (server_after initial ms) m) as [s es]. simpl in *. subst.
  rewrite imap_app. simpl. rewrite Nat.add_0_r. f_equal. f_equal.
  apply imap_ext. intros i m' Hi. by rewrite swap_effect_take by (by eapply lookup_lt_Some).
Qed.
End hot_swap.

(** Hot swap: every message has one effect, in mailbox order.  A request is
    forwarded to the backend of the last [SwapIn] before it (the initial
    backend when there is none), never to a later one; the statistics count
    the requests and swaps up to and including the message that asks. *)
Theorem hot_swap_routes {Req} (initial : nat) (ms : list (@HotSwapMsg Req)) (i : nat) (m : HotSwapMsg) :
  ms !! i = Some m →
  let es := (run_actor (Server_new initial) ms).2 in
  length es = length ms ∧
  match m with
  | Predict req reply => es !! i = Some (Forward (backend_after initial (take i ms)) req reply)
  | SwapIn _ reply | Stats reply =>
    es !! i = Some (ReplyStats reply
      {| st_generation := wrap 64 (Z.of_nat (swapped (take (S i) ms)));
         st_predicted := wrap 64 (Z.of_nat (predicts (take (S i) ms)));
         st_swaps := wrap 64 (Z.of_nat (swapped (take (S i) ms))) |})
  end.
Proof.
  intros Hi. rewrite swap_run. simpl. rewrite length_imap. split; [done|].
  rewrite list_lookup_imap, Hi. by destruct m.
Qed.

Lemma hot_swap_routes_witness :
  let ms := [Predict 5 0; SwapIn 2 1; Predict 5 2] in
  ms !! 2 = Some (Predict 5 2) ∧
  (run_actor (Server_new 1) ms).2 !! 2 = Some (Forward 2 5 2).
Proof.
  split; [reflexivity|].
  exact (proj2 (hot_swap_routes 1 [Predict 5 0; SwapIn 2 1; Predict 5 2] 2 (Predict 5 2) eq_refl)).
Defined.
End HotSwap.

(** ** [InferenceCascade] *)

Module Cascade.

(** [f32] is binary32; [conf >= threshold] is false when either is a NaN. *)
Abbreviation f32 := spec_float.
Definition f32_geb (x y : f32) : bool := SFleb y x.

Section cascade.
Context {Req Resp : Type}.

Record CascadeStageEntry := {
  stage : Req → result (Resp * f32) GpuError;
  confidence_threshold : f32;
}.

Record CascadeReply := { response : Resp; stage_index : nat; confidence : f32 }.

Inductive CascadeEff : Type :=
  | RunStage (idx : nat)
  | ReplyCascade (reply : nat) (r : result CascadeReply GpuError).

Definition no_stages : GpuError := Unrecoverable "InferenceCascade: no stages configured".
Definition no_response : GpuError := Unrecoverable "InferenceCascade: no stage produced a response".

(** The loop over the stages from index [idx], with what [last] holds. *)
Fixpoint cascade_loop (stages : list CascadeStageEntry) (idx : nat) (last : option (Resp * f32 * nat))
    (req : Req) (reply : nat) : list CascadeEff :=
  match stages with
  | [] =>
    match last with
    | Some (resp, conf, i) =>
      [ReplyCascade reply (Ok {| response := resp; stage_index := i; confidence := conf |})]
    | None => [ReplyCascade reply (Err no_response)]
    end
  | entry :: stages =>
    RunStage idx ::
    match stage entry req with
    | Ok (resp, conf) =>
      if f32_geb conf (confidence_threshold entry) then
        [ReplyCascade reply (Ok {| response := resp; stage_index := idx; confidence := conf |})]
      else cascade_loop stages (S idx) (Some (resp, conf, idx)) req reply
    | Err e => [ReplyCascade reply (Err e)]
    end
  end.

(** [CascadeMsg::Predict]; the actor has no state. *)
Definition predict (stages : list CascadeStageEntry) (req : Req) (reply : nat) : list CascadeEff :=
  if length stages =? 0 then [ReplyCascade reply (Err no_stages)]
  else cascade_loop stages 0 None req reply.

(** Stage [i] answers without error and below its threshold. *)
Definition hesitates (stages : list CascadeStageEntry) (req : Req) (i : nat) : Prop :=
  ∃ e resp conf, stages !! i = Some e ∧ stage e req = Ok (resp, conf) ∧
    f32_geb conf (confidence_threshold e) = false.

(** What the stage that decides answers. *)
Definition verdict (e : CascadeStageEntry) (i : nat) (req : Req) : result CascadeReply GpuError :=
  match stage e req with
  | Ok (resp, conf) => Ok {| response := resp; stage_index := i; confidence := conf |}
  | Err err => Err err
  end.

Lemma cascade_loop_spec stages idx prev req reply :
  stages ≠ [] →
  ∃ n e, stages !! n = Some e ∧ (∀ i, i < n → hesitates stages req i) ∧
    (hesitates stages req n → S n = length stages) ∧
    cascade_loop stages idx prev req reply =
      (RunStage <$> seq idx (S n)) ++ [ReplyCascade reply (verdict e (idx + n) req)].
Proof.
  revert idx prev. induction stages as [|e stages IH]; intros idx prev Hne; [done|]. clear Hne. simpl.
  destruct (stage e req) as [[resp conf]|err] eqn:He.
  - destruct (f32_geb conf (confidence_threshold e)) eqn:Hc.
    + exists 0, e. split_and!; [done|lia| |].
      * intros (e' & r & c & [= <-] & He' & Hc'). rewrite He in He'. simplify_eq. congruence.
      * simpl. unfold verdict. by rewrite He, Nat.add_0_r.
    + destruct stages as [|e2 stages].
      * exists 0, e. split_and!; [done|lia|done|]. simpl. unfold verdict. by rewrite He, Nat.add_0_r.
      * destruct (IH (S idx) (Some (resp, conf, idx))) as (n & e' & Hn & Hlt & Hlast & Hrun); [done|].
        exists (S n), e'. split_and!; [done| | |].
        -- intros [|i] Hi; [by exists e, resp, conf|]. apply (Hlt i). lia.
        -- intros Hh. simpl. f_equal. by apply Hlast.
        -- rewrite Hrun. simpl. by rewrite Nat.add_succ_r.
  - exists 0, e. split_and!; [done|lia| |].
    + intros (e' & r & c & [= <-] & He' & _). congruence.
    + simpl. unfold verdict. by rewrite He.
Qed.
End cascade.

(** Early exit: a request is answered once.  With stages configured, they
    run in order up to the first that fails or reaches its threshold, or to
    the last one; the answer is that stage's answer with its index, or its
    error; no later stage runs, and the error for "no stage produced a
    response" is never sent.  Without stages the answer is the error. *)
Theorem cascade_early_exit {Req Resp} (stages : list (@CascadeStageEntry Req Resp)) (req : Req) (reply : nat) :
  (stages = [] ∧ predict stages req reply = [ReplyCascade reply (Err no_stages)]) ∨
  ∃ n e, stages !! n = Some e ∧ (∀ i, i < n → hesitates stages req i) ∧
    (hesitates stages req n → S n = length stages) ∧
    predict stages req reply = (RunStage <$> seq 0 (S n)) ++ [ReplyCascade reply (verdict e n req)].
Proof.
  unfold predict. destruct stages as [|e stages]; [by left|right].
  destruct (cascade_loop_spec (e :: stages) 0 None req reply) as (n & e' & H); [done|]. by exists n, e'.
Qed.

(** A NaN confidence never reaches a threshold, not even a threshold of minus infinity. *)
Example nan_confidence_falls_through :
  let st v c := {| stage := λ _ : unit, Ok (v, c); confidence_threshold := S754_infinity true |} in
  predict [st 1 S754_nan; st 2 (S754_zero false); st 3 (S754_zero false)] () 0 =
    [RunStage 0; RunStage 1; ReplyCascade 0 (Ok {| response := 2; stage_index := 1; confidence := S754_zero false |})].
Proof. reflexivity. Qed.
End Cascade.
