(* ===== verification/Python.v ===== *)
(** * The Python bridge: errors, buffers, asks

    Models what the bindings of [crates/atomr-accel-py/src] share: the exceptions and
    the mapping of errors to them ([errors.rs]), the buffer classes ([buffer.rs]), and
    the shape of every method that asks an actor: the buffers' references are cloned and
    the arguments read first, then the request is told with a fresh reply channel and
    the answer is awaited for a time.  A blocking method does both; an [async] method
    does the first part and returns a future, which does the second when it is polled.

    References are those of the [Gpu] of [Envelope.v].  What the await comes to is a
    parameter of a call, and so are the lengths of the slices.  A Rust panic is the
    [PanicException] that PyO3 makes of it. *)

From Stdlib Require Import Floats.SpecFloat.
From stdpp Require Import pretty.
From S2P Require Import Prelude Actor Text Float64 Errors DeviceState Envelope.

(** ** Exceptions *)

Module Exn.

Inductive PyClass : Type :=
  | PyException
  | GpuRuntimeError
  | ContextPoisoned
  | OutOfMemory
  | Unrecoverable
  | GpuRefStale
  | LibraryError
  | AskTimeout
  | PanicException.
#[global] Instance PyClass_eq_dec : EqDecision PyClass.
Proof. solve_decision. Defined.

(** The base class; a [PanicException] is no [Exception]. *)
Definition base (c : PyClass) : option PyClass :=
  match c with
  | PyException | PanicException => None
  | GpuRuntimeError => Some PyException
  | _ => Some GpuRuntimeError
  end.
End Exn.

Record PyErr := { py_class : Exn.PyClass; py_msg : string }.

Definition map_gpu (e : GpuError) : PyErr :=
  {| py_class := match e with
       | Errors.ContextPoisoned _ => Exn.ContextPoisoned
       | Errors.OutOfMemory _ => Exn.OutOfMemory
       | Errors.Unrecoverable _ => Exn.Unrecoverable
       | Errors.GpuRefStale _ => Exn.GpuRefStale
       | Errors.LibraryError _ _ | Errors.Driver _ => Exn.LibraryError
       | Errors.Timeout => Exn.AskTimeout
       | Errors.Cublas _ => Exn.LibraryError
       end;
     py_msg := panic_message e |}.
Definition map_str (s : string) : PyErr := {| py_class := Exn.GpuRuntimeError; py_msg := s |}.
Definition py_panic (s : string) : PyErr := {| py_class := Exn.PanicException; py_msg := s |}.

(** Every error of the program has its own subclass of [GpuRuntimeError], and the
    class tells what the supervisor does. *)
Lemma map_gpu_class e : Exn.base (py_class (map_gpu e)) = Some Exn.GpuRuntimeError ∧
  decide_err e = match py_class (map_gpu e) with
    | Exn.ContextPoisoned => Restart
    | Exn.OutOfMemory => Resume
    | Exn.Unrecoverable => Stop
    | _ => Escalate
    end.
Proof. by destruct e. Qed.

(** ** Buffers *)

(** A class of the macro: the Python name and the Rust type as written. *)
Record PyBufferClass := { class_name : string; rust_ty : string }.
Definition PyGpuBufferF32 : PyBufferClass := {| class_name := "GpuBufferF32"; rust_ty := "f32" |}.
Definition PyGpuBufferF64 : PyBufferClass := {| class_name := "GpuBufferF64"; rust_ty := "f64" |}.
Definition PyGpuBufferI32 : PyBufferClass := {| class_name := "GpuBufferI32"; rust_ty := "i32" |}.
Definition PyGpuBufferU32 : PyBufferClass := {| class_name := "GpuBufferU32"; rust_ty := "u32" |}.
Definition PyGpuBufferU8 : PyBufferClass := {| class_name := "GpuBufferU8"; rust_ty := "u8" |}.
Definition PyGpuBufferC64 : PyBufferClass := {| class_name := "GpuBufferC64"; rust_ty := "C32" |}.
Definition PyGpuBufferC128 : PyBufferClass := {| class_name := "GpuBufferC128"; rust_ty := "C64" |}.

(** [inner]: [Mutex<Option<GpuRef<T>>>] *)
Record PyGpuBuffer := { buf_class : PyBufferClass; inner : option GpuRef }.
Definition PyGpuBuffer_new (c : PyBufferClass) (r : GpuRef) : PyGpuBuffer := {| buf_class := c; inner := Some r |}.

Section buffer.
Context (slice_len : slice_id → Z).

Definition ref_len (r : GpuRef) : Z := slice_len (slice r).
Definition buf_len (b : PyGpuBuffer) : Z := from_option ref_len 0%Z (inner b).
Definition buf_device_id (state : option DeviceState) (b : PyGpuBuffer) : option Z :=
  inner b ≫= λ _, ref_device_id state.
Definition buf_dtype (b : PyGpuBuffer) : string := rust_ty (buf_class b).
Definition is_stale (state : option DeviceState) (b : PyGpuBuffer) : bool :=
  match inner b with
  | Some r => negb (is_ok (access r state))
  | None => true
  end.
(** [{:?}] of an [Option<u32>] *)
Definition debug_option (o : option Z) : string :=
  match o with Some z => "Some(" +:+ pretty z +:+ ")" | None => "None" end.
Definition buf_repr (state : option DeviceState) (b : PyGpuBuffer) : string :=
  match inner b with
  | Some r => class_name (buf_class b) +:+ "(len=" +:+ pretty (ref_len r) +:+ ", device="
              +:+ debug_option (ref_device_id state) +:+ ")"
  | None => class_name (buf_class b) +:+ "(consumed)"
  end.

(** A new buffer is stale exactly when its reference can no longer be accessed. *)
Lemma stale_iff c r state : is_stale state (PyGpuBuffer_new c r) = true ↔ ∃ e, access r state = Err e.
Proof. unfold is_stale. cbn. destruct (access r state); cbn; naive_solver. Qed.
End buffer.

(** ** Arguments *)

(** [as i32]: the low 32 bits, signed. *)
Definition as_i32 (x : Z) : Z := (wrap 32 (x + 2 ^ 31) - 2 ^ 31)%Z.

(** ** Asks *)

(** A request, given the sender of its reply channel. *)
Abbreviation Request M := (nat → M).

Inductive PyEff (M : Type) : Type := Tell (m : M).
Arguments Tell {_}.

(** What [tokio::time::timeout(d, rx).await] comes to, for an actor that answers a [V]. *)
Inductive Awaited (V : Type) : Type :=
  | Answered (r : result V GpuError)
  | SenderDropped
  | Elapsed.
Arguments Answered {_}.
Arguments SenderDropped {_}.
Arguments Elapsed {_}.

(** The panic of [Duration::from_secs_f64] on a negative, infinite or too large number. *)
Definition duration_error (secs : f64) : option string :=
  match secs with
  | S754_zero _ => None
  | S754_finite true _ _ | S754_infinity true => Some "cannot convert float seconds to Duration: value is negative"
  | S754_finite false _ _ =>
    if f64_ltb secs (f64_of_Z (2 ^ 64)) then None
    else Some "cannot convert float seconds to Duration: value is either too big or NaN"
  | _ => Some "cannot convert float seconds to Duration: value is either too big or NaN"
  end.

Definition fails {A} (s : string) : result A PyErr := Err (map_str s).
Definition check (b : bool) (s : string) : result unit PyErr := if b then fails s else Ok tt.
(** The [?] of a function without effects. *)
Definition and_then {A B} (r : result A PyErr) (k : A → result B PyErr) : result B PyErr :=
  match r with Ok a => k a | Err e => Err e end.
(** [as_slice()] of a numpy array: its elements, or numpy's error. *)
Definition host {A} (src : result A string) : result A PyErr :=
  match src with Ok a => Ok a | Err e => fails e end.
Definition usize_len {A} (l : list A) : Z := Z.of_nat (length l).

Section ask.
Context {M V : Type}.
Abbreviation pyact := (act Gpu (PyEff M)).

Definition clone_ref (sl : slice_id) (g : Gpu) : Gpu := set_refs (<[sl := handles g sl + 1]> (refs g)) g.

(** [b.borrow(py).clone_ref().ok_or_else(..)?], and the drop of the clone when what
    follows returns early. *)
Definition borrowed {A} (name : string) (b : PyGpuBuffer) (k : GpuRef → pyact (result A PyErr)) :
    pyact (result A PyErr) :=
  match inner b with
  | None => mret (Err (map_str (name +:+ " consumed")))
  | Some r =>
    modify (clone_ref (slice r));;
    res ← k r;
    match res with
    | Ok a => mret (Ok a)
    | Err e => modify (drop_ref (slice r));; mret (Err e)
    end
  end.
(** The same of an [Option] of a buffer. *)
Definition borrowed_opt {A} (name : string) (b : option PyGpuBuffer) (k : option GpuRef → pyact (result A PyErr)) :
    pyact (result A PyErr) :=
  match b with
  | None => k None
  | Some b => borrowed name b (λ r, k (Some r))
  end.
(** The [?] of an argument. *)
Definition try {A B} (r : result A PyErr) (k : A → pyact (result B PyErr)) : pyact (result B PyErr) :=
  match r with Ok a => k a | Err e => mret (Err e) end.
Definition request (r : Request M) : pyact (result (Request M) PyErr) := mret (Ok r).

(** The [match] on the await, after the request is told; [what] is the actor's name in
    the text, [label] the method's. *)
Definition finish (what label : string) (timeout_secs : f64) (aw : Awaited V) : result V PyErr :=
  match duration_error timeout_secs with
  | Some p => Err (py_panic p)
  | None =>
    match aw with
    | Answered (Ok v) => Ok v
    | Answered (Err e) => Err (map_gpu e)
    | SenderDropped => Err (map_str (what +:+ " dropped reply"))
    | Elapsed => Err (map_str (label +:+ " timed out"))
    end
  end.

(** An ask without a buffer; what follows a call that succeeds. *)
Definition ask (what label : string) (timeout_secs : f64) (m : M) (aw : Awaited V) : pyact (result V PyErr) :=
  emit (Tell m);; mret (finish what label timeout_secs aw).
Definition bindr {A B} (m : pyact (result A PyErr)) (k : A → pyact (result B PyErr)) : pyact (result B PyErr) :=
  r ← m; try r k.
Definition mapr {A B} (f : A → B) (m : pyact (result A PyErr)) : pyact (result B PyErr) :=
  bindr m (λ a, mret (Ok (f a))).

(** What the await of an actor that answers no [Result] comes to. *)
Inductive Got : Type := Received (v : V) | Closed | Late.
Definition finish_got (what label : string) (timeout_secs : f64) (got : Got) : result V PyErr :=
  match duration_error timeout_secs with
  | Some p => Err (py_panic p)
  | None =>
    match got with
    | Received v => Ok v
    | Closed => Err (map_str (what +:+ " dropped reply"))
    | Late => Err (map_str (label +:+ " timed out"))
    end
  end.
Definition ask_got (what label : string) (timeout_secs : f64) (m : M) (got : Got) : pyact (result V PyErr) :=
  emit (Tell m);; mret (finish_got what label timeout_secs got).

(** The future of an [async] method, and what it does when it is polled. *)
Record Future := { fut_what : string; fut_label : string; fut_timeout : f64; fut_request : Request M }.
Definition poll_future (f : Future) (tx : nat) (aw : Awaited V) : pyact (result V PyErr) :=
  emit (Tell (fut_request f tx));; mret (finish (fut_what f) (fut_label f) (fut_timeout f) aw).
Definition future (what label : string) (timeout_secs : f64) (p : pyact (result (Request M) PyErr)) :
    pyact (result Future PyErr) :=
  r ← p;
  match r with
  | Err e => mret (Err e)
  | Ok r => mret (Ok {| fut_what := what; fut_label := label; fut_timeout := timeout_secs; fut_request := r |})
  end.

(** A blocking method. *)
Definition blocking (what label : string) (timeout_secs : f64) (p : pyact (result (Request M) PyErr))
    (tx : nat) (aw : Awaited V) : pyact (result V PyErr) :=
  f ← future what label timeout_secs p;
  match f with
  | Err e => mret (Err e)
  | Ok f => poll_future f tx aw
  end.

(** *** Preparing a request *)

Definition live (g : Gpu) (b : PyGpuBuffer) : Prop := ∀ r, inner b = Some r → 1 ≤ handles g (slice r).

(** Preparing tells nothing; it fails and leaves the references as they were, or
    succeeds with one more handle of each buffer's reference and a request [Q]. *)
Definition prepares (p : pyact (result (Request M) PyErr)) (bs : list PyGpuBuffer)
    (Q : list GpuRef → Request M → Prop) : Prop :=
  ∀ g, Forall (live g) bs →
    (∃ e, p g = (Err e, g, [])) ∨
    (∃ rs mk, inner <$> bs = Some <$> rs ∧ Q rs mk ∧ p g = (Ok mk, foldl (flip clone_ref) g (slice <$> rs), [])).

Lemma handles_clone g sl sl' : handles (clone_ref sl g) sl' = if decide (sl = sl') then handles g sl + 1 else handles g sl'.
Proof.
  unfold handles at 1, clone_ref. cbn. destruct (decide (sl = sl')) as [->|].
  - by rewrite lookup_insert_eq.
  - by rewrite lookup_insert_ne.
Qed.

Lemma live_clone g sl b : live g b → live (clone_ref sl g) b.
Proof.
  intros Hl r Hr. specialize (Hl r Hr). rewrite handles_clone. case_decide; [subst; lia|done].
Qed.

Lemma drop_clone g sl : 1 ≤ handles g sl → drop_ref sl (clone_ref sl g) = g.
Proof.
  intros Hh. unfold drop_ref. rewrite handles_clone, decide_True by done.
  destruct (handles g sl) as [|n] eqn:Hn; [lia|].
  replace (S n + 1) with (S (S n)) by lia. unfold clone_ref, set_refs. cbn. rewrite Hn, insert_insert_eq.
  assert (refs g !! sl = Some (S n)) as Hs.
  { unfold handles in Hn. destruct (refs g !! sl) as [k|]; cbn in Hn; [by subst|done]. }
  rewrite insert_id by done. by destruct g.
Qed.

Lemma prep_borrowed name b bs (k : GpuRef → pyact (result (Request M) PyErr)) Q :
  (∀ r, inner b = Some r → prepares (k r) bs (λ rs, Q (r :: rs))) →
  prepares (borrowed name b k) (b :: bs) Q.
Proof.
  intros Hk g [Hb Hbs]%Forall_cons. unfold borrowed. destruct (inner b) as [r|] eqn:Hr; [|left; by eexists].
  destruct (Hk r eq_refl (clone_ref (slice r) g)) as [[e He]|(rs & mk & Hrs & Hq & He)].
  - eapply Forall_impl; [exact Hbs|]. intros b' Hb'. by apply live_clone.
  - left. exists e. act_unfold. rewrite He. cbn. by rewrite drop_clone by (by apply Hb).
  - right. exists (r :: rs), mk. split_and!; [cbn; by rewrite Hr, Hrs|done|]. act_unfold. by rewrite He.
Qed.
Lemma prep_borrowed_opt name b bs (k : option GpuRef → pyact (result (Request M) PyErr)) Q :
  (∀ r, (b ≫= inner) = r → prepares (k r) bs (λ rs, Q (option_list r ++ rs))) →
  prepares (borrowed_opt name b k) (option_list b ++ bs) Q.
Proof.
  intros Hk. destruct b as [b|]; [|by apply Hk]. apply prep_borrowed. intros r Hr. by apply (Hk (Some r)).
Qed.
Lemma prep_try {A} (r : result A PyErr) bs k Q :
  (∀ a, r = Ok a → prepares (k a) bs Q) → prepares (try r k) bs Q.
Proof. intros Hk g Hbs. destruct r as [a|e]; cbn; [by apply Hk|]. left. by eexists. Qed.
Lemma prep_request mk Q : Q [] mk → prepares (request mk) [] Q.
Proof. intros Hq g _. right. by exists [], mk. Qed.
Lemma prep_mono p bs (Q Q' : list GpuRef → Request M → Prop) :
  (∀ rs mk, Q rs mk → Q' rs mk) → prepares p bs Q → prepares p bs Q'.
Proof. intros HQ Hp g Hg. destruct (Hp g Hg) as [H|(rs & mk & H1 & H2 & H3)]; [by left|right; eauto 10]. Qed.

(** A blocking method raises before it tells anything, with the references as they were,
    or tells exactly one request and ends as the await does. *)
Lemma blocking_spec what label timeout p bs Q tx aw g : prepares p bs Q → Forall (live g) bs →
  (∃ e, blocking what label timeout p tx aw g = (Err e, g, [])) ∨
  (∃ rs mk, inner <$> bs = Some <$> rs ∧ Q rs mk ∧
     blocking what label timeout p tx aw g =
       (finish what label timeout aw, foldl (flip clone_ref) g (slice <$> rs), [Tell (mk tx)])).
Proof.
  intros Hp Hg. unfold blocking, future. destruct (Hp g Hg) as [[e He]|(rs & mk & Hrs & Hq & He)].
  - left. exists e. act_unfold. by rewrite He.
  - right. exists rs, mk. split_and!; [done|done|]. unfold poll_future. act_unfold. by rewrite He.
Qed.
End ask.
Arguments Future : clear implicits.
Arguments Got : clear implicits.

Lemma clones_heap g l : heap (foldl (flip clone_ref) g l) = heap g ∧ dev (foldl (flip clone_ref) g l) = dev g.
Proof. revert g. induction l as [|sl l IH]; intros g; [done|]. cbn. by destruct (IH (clone_ref sl g)) as [-> ->]. Qed.

(** The references of live buffers hold their slices. *)
Lemma live_holds early g bs rs : ginv early g → Forall (live g) bs → inner <$> bs = Some <$> rs →
  Forall (holds (heap g)) rs.
Proof.
  intros Hg Hl. revert rs. induction Hl as [|b bs Hb _ IH]; intros [|r rs] [=]; [done|].
  constructor; [|by apply IH]. eapply ginv_holds; [done|]. by apply Hb.
Qed.

Lemma access_list_stale d rs e : access_list d rs = Err e → ∃ m, e = Errors.GpuRefStale m.
Proof.
  revert e. induction rs as [|r rs IH]; intros e; [done|]. cbn. destruct (access r d) as [sl|e'] eqn:Ha.
  - destruct (access_list d rs) as [|e'] eqn:Hl; [done|]. intros [= ->]. by apply IH.
  - intros [= ->]. unfold access in Ha. destruct d as [st|]; [|injection Ha as <-; by eexists].
    destruct (negb (accepting_ops st)); [injection Ha as <-; by eexists|].
    destruct (negb _); [injection Ha as <-; by eexists|done].
Qed.

(** A timeout that passes is not the [AskTimeout] of the hierarchy but the base class;
    only an actor that answers [Timeout] raises that. *)
Lemma elapsed_class {V} what label timeout : duration_error timeout = None →
  finish (V := V) what label timeout Elapsed = Err (map_str (label +:+ " timed out")).
Proof. intros Hd. unfold finish. by rewrite Hd. Qed.

(** A negative timeout panics after the request was told. *)
Example negative_timeout {M V} (mk : Request M) tx (aw : Awaited V) g :
  poll_future {| fut_what := "blas"; fut_label := "op"; fut_timeout := f64_of_Z (-1); fut_request := mk |} tx aw g =
    (Err (py_panic "cannot convert float seconds to Duration: value is negative"), g, [Tell (mk tx)]).
Proof. done. Qed.

(** ** Calls of a kernel actor *)

Section kernel.
Context {S M V : Type} `{!KernelActor (S := S) M}.

(** The request owns the references [rs] and the reply channel. *)
Definition carries (rs : list GpuRef) (mk : Request M) : Prop :=
  ∀ tx, operands (mk tx) ≡ₚ rs ∧ reply_of (mk tx) = tx.
(** The actor answers the message at once with an error that satisfies [R]. *)
Definition refuses (st : S) (R : GpuError → Prop) (m : M) : Prop :=
  ∀ g, Forall (holds (heap g)) (operands m) →
    ∃ e, (exec (khandle m) (st, g)).2 = [Reply (reply_of m) (Err e)] ∧ R e.

(** A call whose request the actor refuses: it raises without effect, or tells the
    request over clones of its buffers' references, and the actor answers an error. *)
Lemma call_refused early st R what label timeout p bs tx (aw : Awaited V) g :
  prepares p bs (λ rs mk, carries rs mk ∧ ∀ tx, refuses st R (mk tx)) → Forall (live g) bs → ginv early g →
  (∃ e, blocking what label timeout p tx aw g = (Err e, g, [])) ∨
  (∃ rs m g', inner <$> bs = Some <$> rs ∧ operands m ≡ₚ rs ∧ reply_of m = tx ∧
     g' = foldl (flip clone_ref) g (slice <$> rs) ∧
     blocking what label timeout p tx aw g = (finish what label timeout aw, g', [Tell m]) ∧
     ∃ e, (exec (khandle m) (st, g')).2 = [Reply tx (Err e)] ∧ R e).
Proof.
  intros Hp Hl Hg. destruct (blocking_spec what label timeout p bs _ tx aw g Hp Hl)
    as [He|(rs & mk & Hrs & [Hc Hr] & Hb)]; [by left|].
  right. destruct (Hc tx) as [Ho Ht]. eexists rs, (mk tx), _. split_and!; try done.
  destruct (Hr tx (foldl (flip clone_ref) g (slice <$> rs))) as (e & He & HR); [|exists e; by rewrite Ht in He].
  destruct (clones_heap g (slice <$> rs)) as [-> _]. rewrite Ho. by eapply live_holds.
Qed.
End kernel.

(** Solves [prepares] for a method: its borrows and [?]s in order, then its request. *)
Ltac prep_method := repeat first
  [ apply prep_borrowed; intros ? ? | apply prep_borrowed_opt; intros ? ? | apply prep_try; intros ? ?
  | apply prep_request ].
