(* ===== verification/PyBlas.v ===== *)
(** * The Python bridge: [Blas]

    Models [crates/atomr-accel-py/src/blas.rs].  A method clones the references of its
    buffers, reads its enumerations, fills in the defaults of lengths and leading
    dimensions, and asks the cuBLAS actor of [Blas.v]; each operation has a blocking and
    an [async] method for each of [f32] and [f64].  A scalar is its bits; the enumerations
    of cuBLAS are their variants' names. *)

From stdpp Require Import pretty.
From S2P Require Import Prelude Actor Text Float64 Errors Dtype DeviceState Envelope Blas Python.

(** ** Enumerations *)

Definition op_from_str (s : string) : result string PyErr :=
  let u := to_ascii_uppercase s in
  if bool_decide (u = "N") then Ok "CUBLAS_OP_N"
  else if bool_decide (u = "T") then Ok "CUBLAS_OP_T"
  else if bool_decide (u = "C") then Ok "CUBLAS_OP_C"
  else Err (map_str ("trans must be 'N', 'T', or 'C' (got " +:+ debug_str s +:+ ")")).
Definition fill_from_str (s : string) : result string PyErr :=
  let u := to_ascii_uppercase s in
  if bool_decide (u = "L" ∨ u = "LOWER") then Ok "CUBLAS_FILL_MODE_LOWER"
  else if bool_decide (u = "U" ∨ u = "UPPER") then Ok "CUBLAS_FILL_MODE_UPPER"
  else Err (map_str ("uplo must be 'L'/'LOWER' or 'U'/'UPPER' (got " +:+ debug_str s +:+ ")")).
Definition side_from_str (s : string) : result string PyErr :=
  let u := to_ascii_uppercase s in
  if bool_decide (u = "L" ∨ u = "LEFT") then Ok "CUBLAS_SIDE_LEFT"
  else if bool_decide (u = "R" ∨ u = "RIGHT") then Ok "CUBLAS_SIDE_RIGHT"
  else Err (map_str ("side must be 'L'/'LEFT' or 'R'/'RIGHT' (got " +:+ debug_str s +:+ ")")).
Definition diag_from_str (s : string) : result string PyErr :=
  let u := to_ascii_uppercase s in
  if bool_decide (u = "N" ∨ u = "NON_UNIT" ∨ u = "NONUNIT") then Ok "CUBLAS_DIAG_NON_UNIT"
  else if bool_decide (u = "U" ∨ u = "UNIT") then Ok "CUBLAS_DIAG_UNIT"
  else Err (map_str ("diag must be 'N'/'NON_UNIT' or 'U'/'UNIT' (got " +:+ debug_str s +:+ ")")).

(** [trans == CUBLAS_OP_N] *)
Definition is_n (t : string) : bool := bool_decide (t = "CUBLAS_OP_N").

Section methods.
Context (slice_len : slice_id → Z).

(** [n.unwrap_or_else(|| x.len() as i32)] *)
Definition len_or (x : GpuRef) (n : option Z) : Z := default (as_i32 (ref_len slice_len x)) n.

Abbreviation prep := (act Gpu (PyEff BlasMsg) (result (Request BlasMsg) PyErr)).
Abbreviation method := (nat → Awaited Value → act Gpu (PyEff BlasMsg) (result Value PyErr)).

(** ** Preparing the requests *)

Definition gemm (T : DType) (a b c : PyGpuBuffer) (m n k alpha beta : Z) (trans_a trans_b : string) (lda ldb ldc : option Z) : prep :=
  borrowed "a" a (λ a,
  borrowed "b" b (λ b,
  borrowed "c" c (λ c,
  try (op_from_str trans_a) (λ ta,
  try (op_from_str trans_b) (λ tb,
  request (λ tx, Gemm T {| g_a := a; g_b := b; g_c := c; g_m := m; g_n := n; g_k := k; g_alpha := alpha; g_beta := beta;
      g_trans_a := ta; g_trans_b := tb; g_lda := default (if is_n ta then m else k) lda;
      g_ldb := default (if is_n tb then k else n) ldb; g_ldc := default m ldc; g_reply := tx |})))))).

Definition gemm_strided_batched (T : DType) (a b c : PyGpuBuffer) (m n k stride_a stride_b stride_c batch_count alpha beta : Z) (trans_a trans_b : string)
    (lda ldb ldc : option Z) : prep :=
  borrowed "a" a (λ a,
  borrowed "b" b (λ b,
  borrowed "c" c (λ c,
  try (op_from_str trans_a) (λ ta,
  try (op_from_str trans_b) (λ tb,
  request (λ tx, GemmStridedBatched T {|
      gs_gemm := {| g_a := a; g_b := b; g_c := c; g_m := m; g_n := n; g_k := k; g_alpha := alpha; g_beta := beta;
        g_trans_a := ta; g_trans_b := tb; g_lda := default (if is_n ta then m else k) lda;
        g_ldb := default (if is_n tb then k else n) ldb; g_ldc := default m ldc; g_reply := tx |};
      gs_stride_a := stride_a; gs_stride_b := stride_b; gs_stride_c := stride_c; gs_batch_size := batch_count |})))))).

Definition axpy (T : DType) (alpha : Z) (x y : PyGpuBuffer) (n : option Z) (incx incy : Z) : prep :=
  borrowed "x" x (λ x,
  borrowed "y" y (λ y,
  request (λ tx, L1 T (Axpy {| ax_n := len_or x n; ax_alpha := alpha; ax_x := x; ax_incx := incx; ax_y := y; ax_incy := incy; ax_reply := tx |})))).

Definition dot (T : DType) (x y : PyGpuBuffer) (n : option Z) (incx incy : Z) : prep :=
  borrowed "x" x (λ x,
  borrowed "y" y (λ y,
  request (λ tx, L1 T (Dot {| dot_n := len_or x n; dot_x := x; dot_incx := incx; dot_y := y; dot_incy := incy; dot_reply := tx |})))).

Definition nrm2 (T : DType) (x : PyGpuBuffer) (n : option Z) (incx : Z) : prep :=
  borrowed "x" x (λ x,
  request (λ tx, L1 T (Nrm2 {| n2_n := len_or x n; n2_x := x; n2_incx := incx; n2_reply := tx |}))).

Definition scal (T : DType) (alpha : Z) (x : PyGpuBuffer) (n : option Z) (incx : Z) : prep :=
  borrowed "x" x (λ x,
  request (λ tx, L1 T (Scal {| sc_n := len_or x n; sc_alpha := alpha; sc_x := x; sc_incx := incx; sc_reply := tx |}))).

Definition asum (T : DType) (x : PyGpuBuffer) (n : option Z) (incx : Z) : prep :=
  borrowed "x" x (λ x,
  request (λ tx, L1 T (Asum {| as_n := len_or x n; as_x := x; as_incx := incx; as_reply := tx |}))).

Definition iamax (T : DType) (x : PyGpuBuffer) (n : option Z) (incx : Z) : prep :=
  borrowed "x" x (λ x,
  request (λ tx, L1 T (Iamax {| im_n := len_or x n; im_x := x; im_incx := incx; im_reply := tx |}))).

Definition iamin (T : DType) (x : PyGpuBuffer) (n : option Z) (incx : Z) : prep :=
  borrowed "x" x (λ x,
  request (λ tx, L1 T (Iamin {| im_n := len_or x n; im_x := x; im_incx := incx; im_reply := tx |}))).

Definition copy (T : DType) (x y : PyGpuBuffer) (n : option Z) (incx incy : Z) : prep :=
  borrowed "x" x (λ x,
  borrowed "y" y (λ y,
  request (λ tx, L1 T (Copy {| cp_n := len_or x n; cp_x := x; cp_incx := incx; cp_y := y; cp_incy := incy; cp_reply := tx |})))).

Definition swap (T : DType) (x y : PyGpuBuffer) (n : option Z) (incx incy : Z) : prep :=
  borrowed "x" x (λ x,
  borrowed "y" y (λ y,
  request (λ tx, L1 T (Swap {| sw_n := len_or x n; sw_x := x; sw_incx := incx; sw_y := y; sw_incy := incy; sw_reply := tx |})))).

Definition rot (T : DType) (x y : PyGpuBuffer) (c s : Z) (n : option Z) (incx incy : Z) : prep :=
  borrowed "x" x (λ x,
  borrowed "y" y (λ y,
  request (λ tx, L1 T (Rot {| rot_n := len_or x n; rot_x := x; rot_incx := incx; rot_y := y; rot_incy := incy; rot_c := c; rot_s := s;
      rot_reply := tx |})))).

Definition gemv (T : DType) (a x y : PyGpuBuffer) (m n alpha beta : Z) (trans : string) (lda : option Z) (incx incy : Z) : prep :=
  borrowed "a" a (λ a,
  borrowed "x" x (λ x,
  borrowed "y" y (λ y,
  try (op_from_str trans) (λ t,
  request (λ tx, L2 T (Gemv {| gv_trans := t; gv_m := m; gv_n := n; gv_alpha := alpha; gv_beta := beta; gv_a := a;
      gv_lda := default m lda; gv_x := x; gv_incx := incx; gv_y := y; gv_incy := incy; gv_reply := tx |})))))).

Definition ger (T : DType) (x y a : PyGpuBuffer) (m n alpha : Z) (lda : option Z) (incx incy : Z) : prep :=
  borrowed "x" x (λ x,
  borrowed "y" y (λ y,
  borrowed "a" a (λ a,
  request (λ tx, L2 T (Ger {| gr_m := m; gr_n := n; gr_alpha := alpha; gr_x := x; gr_incx := incx; gr_y := y; gr_incy := incy;
      gr_a := a; gr_lda := default m lda; gr_reply := tx |}))))).

Definition geam (T : DType) (a b c : PyGpuBuffer) (m n alpha beta : Z) (trans_a trans_b : string) (lda ldb ldc : option Z) : prep :=
  borrowed "a" a (λ a,
  borrowed "b" b (λ b,
  borrowed "c" c (λ c,
  try (op_from_str trans_a) (λ ta,
  try (op_from_str trans_b) (λ tb,
  request (λ tx, L3 T (Geam {| ga_trans_a := ta; ga_trans_b := tb; ga_m := m; ga_n := n; ga_alpha := alpha; ga_a := a;
      ga_lda := default (if is_n ta then m else n) lda; ga_beta := beta; ga_b := b;
      ga_ldb := default (if is_n tb then m else n) ldb; ga_c := c; ga_ldc := default m ldc; ga_reply := tx |}))))))).

Definition syrk (T : DType) (a c : PyGpuBuffer) (n k alpha beta : Z) (uplo trans : string) (lda ldc : option Z) : prep :=
  borrowed "a" a (λ a,
  borrowed "c" c (λ c,
  try (fill_from_str uplo) (λ u,
  try (op_from_str trans) (λ t,
  request (λ tx, L3 T (Syrk {| sy_uplo := u; sy_trans := t; sy_n := n; sy_k := k; sy_alpha := alpha; sy_a := a;
      sy_lda := default (if is_n t then n else k) lda; sy_beta := beta; sy_c := c; sy_ldc := default n ldc; sy_reply := tx |})))))).

Definition trsm (T : DType) (a b : PyGpuBuffer) (m n alpha : Z) (side uplo trans diag : string) (lda ldb : option Z) : prep :=
  borrowed "a" a (λ a,
  borrowed "b" b (λ b,
  try (side_from_str side) (λ s,
  try (fill_from_str uplo) (λ u,
  try (op_from_str trans) (λ t,
  try (diag_from_str diag) (λ d,
  request (λ tx, L3 T (Trsm {| tr_side := s; tr_uplo := u; tr_trans := t; tr_diag := d; tr_m := m; tr_n := n; tr_alpha := alpha;
      tr_a := a; tr_lda := default (if bool_decide (s = "CUBLAS_SIDE_LEFT") then m else n) lda;
      tr_b := b; tr_ldb := default m ldb; tr_reply := tx |})))))))).


(** ** The methods

    A blocking method asks at once.  An [async] method prepares its request when it is
    called and returns a future with the label of the blocking method. *)

Abbreviation async := (act Gpu (PyEff BlasMsg) (result (Future BlasMsg) PyErr)).
Definition later (label : string) (timeout_secs : f64) (p : prep) : async := future "blas" label timeout_secs p.
Definition asks (label : string) (timeout_secs : f64) (p : prep) : method := blocking "blas" label timeout_secs p.

Definition gemm_f32 (a b c : PyGpuBuffer) (m n k alpha beta : Z) (trans_a trans_b : string) (lda ldb ldc : option Z) (timeout_secs : f64) : method :=
  asks "gemm_f32" timeout_secs (gemm F32 a b c m n k alpha beta trans_a trans_b lda ldb ldc).
Definition gemm_f32_async (a b c : PyGpuBuffer) (m n k alpha beta : Z) (trans_a trans_b : string) (lda ldb ldc : option Z) (timeout_secs : f64) : async :=
  later "gemm_f32" timeout_secs (gemm F32 a b c m n k alpha beta trans_a trans_b lda ldb ldc).
Definition gemm_f64 (a b c : PyGpuBuffer) (m n k alpha beta : Z) (trans_a trans_b : string) (lda ldb ldc : option Z) (timeout_secs : f64) : method :=
  asks "gemm_f64" timeout_secs (gemm F64 a b c m n k alpha beta trans_a trans_b lda ldb ldc).
Definition gemm_f64_async (a b c : PyGpuBuffer) (m n k alpha beta : Z) (trans_a trans_b : string) (lda ldb ldc : option Z) (timeout_secs : f64) : async :=
  later "gemm_f64" timeout_secs (gemm F64 a b c m n k alpha beta trans_a trans_b lda ldb ldc).
Definition gemm_strided_batched_f32 (a b c : PyGpuBuffer) (m n k stride_a stride_b stride_c batch_count alpha beta : Z) (trans_a trans_b : string)
    (lda ldb ldc : option Z) (timeout_secs : f64) : method :=
  asks "gemm_strided_batched_f32" timeout_secs (gemm_strided_batched F32 a b c m n k stride_a stride_b stride_c batch_count alpha beta trans_a trans_b lda ldb ldc).
Definition gemm_strided_batched_f32_async (a b c : PyGpuBuffer) (m n k stride_a stride_b stride_c batch_count alpha beta : Z) (trans_a trans_b : string)
    (lda ldb ldc : option Z) (timeout_secs : f64) : async :=
  later "gemm_strided_batched_f32" timeout_secs (gemm_strided_batched F32 a b c m n k stride_a stride_b stride_c batch_count alpha beta trans_a trans_b lda ldb ldc).
Definition gemm_strided_batched_f64 (a b c : PyGpuBuffer) (m n k stride_a stride_b stride_c batch_count alpha beta : Z) (trans_a trans_b : string)
    (lda ldb ldc : option Z) (timeout_secs : f64) : method :=
  asks "gemm_strided_batched_f64" timeout_secs (gemm_strided_batched F64 a b c m n k stride_a stride_b stride_c batch_count alpha beta trans_a trans_b lda ldb ldc).
Definition gemm_strided_batched_f64_async (a b c : PyGpuBuffer) (m n k stride_a stride_b stride_c batch_count alpha beta : Z) (trans_a trans_b : string)
    (lda ldb ldc : option Z) (timeout_secs : f64) : async :=
  later "gemm_strided_batched_f64" timeout_secs (gemm_strided_batched F64 a b c m n k stride_a stride_b stride_c batch_count alpha beta trans_a trans_b lda ldb ldc).
Definition axpy_f32 (alpha : Z) (x y : PyGpuBuffer) (n : option Z) (incx incy : Z) (timeout_secs : f64) : method :=
  asks "axpy_f32" timeout_secs (axpy F32 alpha x y n incx incy).
Definition axpy_f32_async (alpha : Z) (x y : PyGpuBuffer) (n : option Z) (incx incy : Z) (timeout_secs : f64) : async :=
  later "axpy_f32" timeout_secs (axpy F32 alpha x y n incx incy).
Definition axpy_f64 (alpha : Z) (x y : PyGpuBuffer) (n : option Z) (incx incy : Z) (timeout_secs : f64) : method :=
  asks "axpy_f64" timeout_secs (axpy F64 alpha x y n incx incy).
Definition axpy_f64_async (alpha : Z) (x y : PyGpuBuffer) (n : option Z) (incx incy : Z) (timeout_secs : f64) : async :=
  later "axpy_f64" timeout_secs (axpy F64 alpha x y n incx incy).
Definition dot_f32 (x y : PyGpuBuffer) (n : option Z) (incx incy : Z) (timeout_secs : f64) : method :=
  asks "dot_f32" timeout_secs (dot F32 x y n incx incy).
Definition dot_f32_async (x y : PyGpuBuffer) (n : option Z) (incx incy : Z) (timeout_secs : f64) : async :=
  later "dot_f32" timeout_secs (dot F32 x y n incx incy).
Definition dot_f64 (x y : PyGpuBuffer) (n : option Z) (incx incy : Z) (timeout_secs : f64) : method :=
  asks "dot_f64" timeout_secs (dot F64 x y n incx incy).
Definition dot_f64_async (x y : PyGpuBuffer) (n : option Z) (incx incy : Z) (timeout_secs : f64) : async :=
  later "dot_f64" timeout_secs (dot F64 x y n incx incy).
Definition nrm2_f32 (x : PyGpuBuffer) (n : option Z) (incx : Z) (timeout_secs : f64) : method :=
  asks "nrm2_f32" timeout_secs (nrm2 F32 x n incx).
Definition nrm2_f32_async (x : PyGpuBuffer) (n : option Z) (incx : Z) (timeout_secs : f64) : async :=
  later "nrm2_f32" timeout_secs (nrm2 F32 x n incx).
Definition nrm2_f64 (x : PyGpuBuffer) (n : option Z) (incx : Z) (timeout_secs : f64) : method :=
  asks "nrm2_f64" timeout_secs (nrm2 F64 x n incx).
Definition nrm2_f64_async (x : PyGpuBuffer) (n : option Z) (incx : Z) (timeout_secs : f64) : async :=
  later "nrm2_f64" timeout_secs (nrm2 F64 x n incx).
Definition scal_f32 (alpha : Z) (x : PyGpuBuffer) (n : option Z) (incx : Z) (timeout_secs : f64) : method :=
  asks "scal_f32" timeout_secs (scal F32 alpha x n incx).
Definition scal_f32_async (alpha : Z) (x : PyGpuBuffer) (n : option Z) (incx : Z) (timeout_secs : f64) : async :=
  later "scal_f32" timeout_secs (scal F32 alpha x n incx).
Definition scal_f64 (alpha : Z) (x : PyGpuBuffer) (n : option Z) (incx : Z) (timeout_secs : f64) : method :=
  asks "scal_f64" timeout_secs (scal F64 alpha x n incx).
Definition scal_f64_async (alpha : Z) (x : PyGpuBuffer) (n : option Z) (incx : Z) (timeout_secs : f64) : async :=
  later "scal_f64" timeout_secs (scal F64 alpha x n incx).
Definition asum_f32 (x : PyGpuBuffer) (n : option Z) (incx : Z) (timeout_secs : f64) : method :=
  asks "asum_f32" timeout_secs (asum F32 x n incx).
Definition asum_f32_async (x : PyGpuBuffer) (n : option Z) (incx : Z) (timeout_secs : f64) : async :=
  later "asum_f32" timeout_secs (asum F32 x n incx).
Definition asum_f64 (x : PyGpuBuffer) (n : option Z) (incx : Z) (timeout_secs : f64) : method :=
  asks "asum_f64" timeout_secs (asum F64 x n incx).
Definition asum_f64_async (x : PyGpuBuffer) (n : option Z) (incx : Z) (timeout_secs : f64) : async :=
  later "asum_f64" timeout_secs (asum F64 x n incx).
Definition iamax_f32 (x : PyGpuBuffer) (n : option Z) (incx : Z) (timeout_secs : f64) : method :=
  asks "iamax_f32" timeout_secs (iamax F32 x n incx).
Definition iamax_f32_async (x : PyGpuBuffer) (n : option Z) (incx : Z) (timeout_secs : f64) : async :=
  later "iamax_f32" timeout_secs (iamax F32 x n incx).
Definition iamax_f64 (x : PyGpuBuffer) (n : option Z) (incx : Z) (timeout_secs : f64) : method :=
  asks "iamax_f64" timeout_secs (iamax F64 x n incx).
Definition iamax_f64_async (x : PyGpuBuffer) (n : option Z) (incx : Z) (timeout_secs : f64) : async :=
  later "iamax_f64" timeout_secs (iamax F64 x n incx).
Definition iamin_f32 (x : PyGpuBuffer) (n : option Z) (incx : Z) (timeout_secs : f64) : method :=
  asks "iamin_f32" timeout_secs (iamin F32 x n incx).
Definition iamin_f32_async (x : PyGpuBuffer) (n : option Z) (incx : Z) (timeout_secs : f64) : async :=
  later "iamin_f32" timeout_secs (iamin F32 x n incx).
Definition iamin_f64 (x : PyGpuBuffer) (n : option Z) (incx : Z) (timeout_secs : f64) : method :=
  asks "iamin_f64" timeout_secs (iamin F64 x n incx).
Definition iamin_f64_async (x : PyGpuBuffer) (n : option Z) (incx : Z) (timeout_secs : f64) : async :=
  later "iamin_f64" timeout_secs (iamin F64 x n incx).
Definition copy_f32 (x y : PyGpuBuffer) (n : option Z) (incx incy : Z) (timeout_secs : f64) : method :=
  asks "copy_f32" timeout_secs (copy F32 x y n incx incy).
Definition copy_f32_async (x y : PyGpuBuffer) (n : option Z) (incx incy : Z) (timeout_secs : f64) : async :=
  later "copy_f32" timeout_secs (copy F32 x y n incx incy).
Definition copy_f64 (x y : PyGpuBuffer) (n : option Z) (incx incy : Z) (timeout_secs : f64) : method :=
  asks "copy_f64" timeout_secs (copy F64 x y n incx incy).
Definition copy_f64_async (x y : PyGpuBuffer) (n : option Z) (incx incy : Z) (timeout_secs : f64) : async :=
  later "copy_f64" timeout_secs (copy F64 x y n incx incy).
Definition swap_f32 (x y : PyGpuBuffer) (n : option Z) (incx incy : Z) (timeout_secs : f64) : method :=
  asks "swap_f32" timeout_secs (swap F32 x y n incx incy).
Definition swap_f32_async (x y : PyGpuBuffer) (n : option Z) (incx incy : Z) (timeout_secs : f64) : async :=
  later "swap_f32" timeout_secs (swap F32 x y n incx incy).
Definition swap_f64 (x y : PyGpuBuffer) (n : option Z) (incx incy : Z) (timeout_secs : f64) : method :=
  asks "swap_f64" timeout_secs (swap F64 x y n incx incy).
Definition swap_f64_async (x y : PyGpuBuffer) (n : option Z) (incx incy : Z) (timeout_secs : f64) : async :=
  later "swap_f64" timeout_secs (swap F64 x y n incx incy).
Definition rot_f32 (x y : PyGpuBuffer) (c s : Z) (n : option Z) (incx incy : Z) (timeout_secs : f64) : method :=
  asks "rot_f32" timeout_secs (rot F32 x y c s n incx incy).
Definition rot_f32_async (x y : PyGpuBuffer) (c s : Z) (n : option Z) (incx incy : Z) (timeout_secs : f64) : async :=
  later "rot_f32" timeout_secs (rot F32 x y c s n incx incy).
Definition rot_f64 (x y : PyGpuBuffer) (c s : Z) (n : option Z) (incx incy : Z) (timeout_secs : f64) : method :=
  asks "rot_f64" timeout_secs (rot F64 x y c s n incx incy).
Definition rot_f64_async (x y : PyGpuBuffer) (c s : Z) (n : option Z) (incx incy : Z) (timeout_secs : f64) : async :=
  later "rot_f64" timeout_secs (rot F64 x y c s n incx incy).
Definition gemv_f32 (a x y : PyGpuBuffer) (m n alpha beta : Z) (trans : string) (lda : option Z) (incx incy : Z) (timeout_secs : f64) : method :=
  asks "gemv_f32" timeout_secs (gemv F32 a x y m n alpha beta trans lda incx incy).
Definition gemv_f32_async (a x y : PyGpuBuffer) (m n alpha beta : Z) (trans : string) (lda : option Z) (incx incy : Z) (timeout_secs : f64) : async :=
  later "gemv_f32" timeout_secs (gemv F32 a x y m n alpha beta trans lda incx incy).
Definition gemv_f64 (a x y : PyGpuBuffer) (m n alpha beta : Z) (trans : string) (lda : option Z) (incx incy : Z) (timeout_secs : f64) : method :=
  asks "gemv_f64" timeout_secs (gemv F64 a x y m n alpha beta trans lda incx incy).
Definition gemv_f64_async (a x y : PyGpuBuffer) (m n alpha beta : Z) (trans : string) (lda : option Z) (incx incy : Z) (timeout_secs : f64) : async :=
  later "gemv_f64" timeout_secs (gemv F64 a x y m n alpha beta trans lda incx incy).
Definition ger_f32 (x y a : PyGpuBuffer) (m n alpha : Z) (lda : option Z) (incx incy : Z) (timeout_secs : f64) : method :=
  asks "ger_f32" timeout_secs (ger F32 x y a m n alpha lda incx incy).
Definition ger_f32_async (x y a : PyGpuBuffer) (m n alpha : Z) (lda : option Z) (incx incy : Z) (timeout_secs : f64) : async :=
  later "ger_f32" timeout_secs (ger F32 x y a m n alpha lda incx incy).
Definition ger_f64 (x y a : PyGpuBuffer) (m n alpha : Z) (lda : option Z) (incx incy : Z) (timeout_secs : f64) : method :=
  asks "ger_f64" timeout_secs (ger F64 x y a m n alpha lda incx incy).
Definition ger_f64_async (x y a : PyGpuBuffer) (m n alpha : Z) (lda : option Z) (incx incy : Z) (timeout_secs : f64) : async :=
  later "ger_f64" timeout_secs (ger F64 x y a m n alpha lda incx incy).
Definition geam_f32 (a b c : PyGpuBuffer) (m n alpha beta : Z) (trans_a trans_b : string) (lda ldb ldc : option Z) (timeout_secs : f64) : method :=
  asks "geam_f32" timeout_secs (geam F32 a b c m n alpha beta trans_a trans_b lda ldb ldc).
Definition geam_f32_async (a b c : PyGpuBuffer) (m n alpha beta : Z) (trans_a trans_b : string) (lda ldb ldc : option Z) (timeout_secs : f64) : async :=
  later "geam_f32" timeout_secs (geam F32 a b c m n alpha beta trans_a trans_b lda ldb ldc).
Definition geam_f64 (a b c : PyGpuBuffer) (m n alpha beta : Z) (trans_a trans_b : string) (lda ldb ldc : option Z) (timeout_secs : f64) : method :=
  asks "geam_f64" timeout_secs (geam F64 a b c m n alpha beta trans_a trans_b lda ldb ldc).
Definition geam_f64_async (a b c : PyGpuBuffer) (m n alpha beta : Z) (trans_a trans_b : string) (lda ldb ldc : option Z) (timeout_secs : f64) : async :=
  later "geam_f64" timeout_secs (geam F64 a b c m n alpha beta trans_a trans_b lda ldb ldc).
Definition syrk_f32 (a c : PyGpuBuffer) (n k alpha beta : Z) (uplo trans : string) (lda ldc : option Z) (timeout_secs : f64) : method :=
  asks "syrk_f32" timeout_secs (syrk F32 a c n k alpha beta uplo trans lda ldc).
Definition syrk_f32_async (a c : PyGpuBuffer) (n k alpha beta : Z) (uplo trans : string) (lda ldc : option Z) (timeout_secs : f64) : async :=
  later "syrk_f32" timeout_secs (syrk F32 a c n k alpha beta uplo trans lda ldc).
Definition syrk_f64 (a c : PyGpuBuffer) (n k alpha beta : Z) (uplo trans : string) (lda ldc : option Z) (timeout_secs : f64) : method :=
  asks "syrk_f64" timeout_secs (syrk F64 a c n k alpha beta uplo trans lda ldc).
Definition syrk_f64_async (a c : PyGpuBuffer) (n k alpha beta : Z) (uplo trans : string) (lda ldc : option Z) (timeout_secs : f64) : async :=
  later "syrk_f64" timeout_secs (syrk F64 a c n k alpha beta uplo trans lda ldc).
Definition trsm_f32 (a b : PyGpuBuffer) (m n alpha : Z) (side uplo trans diag : string) (lda ldb : option Z) (timeout_secs : f64) : method :=
  asks "trsm_f32" timeout_secs (trsm F32 a b m n alpha side uplo trans diag lda ldb).
Definition trsm_f32_async (a b : PyGpuBuffer) (m n alpha : Z) (side uplo trans diag : string) (lda ldb : option Z) (timeout_secs : f64) : async :=
  later "trsm_f32" timeout_secs (trsm F32 a b m n alpha side uplo trans diag lda ldb).
Definition trsm_f64 (a b : PyGpuBuffer) (m n alpha : Z) (side uplo trans diag : string) (lda ldb : option Z) (timeout_secs : f64) : method :=
  asks "trsm_f64" timeout_secs (trsm F64 a b m n alpha side uplo trans diag lda ldb).
Definition trsm_f64_async (a b : PyGpuBuffer) (m n alpha : Z) (side uplo trans diag : string) (lda ldb : option Z) (timeout_secs : f64) : async :=
  later "trsm_f64" timeout_secs (trsm F64 a b m n alpha side uplo trans diag lda ldb).

(** ** What the methods do *)

(** [p] prepares an operation on the buffers [bs]. *)
Inductive prepares_op (T : DType) : prep → list PyGpuBuffer → Prop :=
  | is_gemm (a b c : PyGpuBuffer) (m n k alpha beta : Z) (trans_a trans_b : string) (lda ldb ldc : option Z) : prepares_op T (gemm T a b c m n k alpha beta trans_a trans_b lda ldb ldc) [a; b; c]
  | is_gemm_strided_batched (a b c : PyGpuBuffer) (m n k stride_a stride_b stride_c batch_count alpha beta : Z) (trans_a trans_b : string)
    (lda ldb ldc : option Z) : prepares_op T (gemm_strided_batched T a b c m n k stride_a stride_b stride_c batch_count alpha beta trans_a trans_b lda ldb ldc) [a; b; c]
  | is_axpy (alpha : Z) (x y : PyGpuBuffer) (n : option Z) (incx incy : Z) : prepares_op T (axpy T alpha x y n incx incy) [x; y]
  | is_dot (x y : PyGpuBuffer) (n : option Z) (incx incy : Z) : prepares_op T (dot T x y n incx incy) [x; y]
  | is_nrm2 (x : PyGpuBuffer) (n : option Z) (incx : Z) : prepares_op T (nrm2 T x n incx) [x]
  | is_scal (alpha : Z) (x : PyGpuBuffer) (n : option Z) (incx : Z) : prepares_op T (scal T alpha x n incx) [x]
  | is_asum (x : PyGpuBuffer) (n : option Z) (incx : Z) : prepares_op T (asum T x n incx) [x]
  | is_iamax (x : PyGpuBuffer) (n : option Z) (incx : Z) : prepares_op T (iamax T x n incx) [x]
  | is_iamin (x : PyGpuBuffer) (n : option Z) (incx : Z) : prepares_op T (iamin T x n incx) [x]
  | is_copy (x y : PyGpuBuffer) (n : option Z) (incx incy : Z) : prepares_op T (copy T x y n incx incy) [x; y]
  | is_swap (x y : PyGpuBuffer) (n : option Z) (incx incy : Z) : prepares_op T (swap T x y n incx incy) [x; y]
  | is_rot (x y : PyGpuBuffer) (c s : Z) (n : option Z) (incx incy : Z) : prepares_op T (rot T x y c s n incx incy) [x; y]
  | is_gemv (a x y : PyGpuBuffer) (m n alpha beta : Z) (trans : string) (lda : option Z) (incx incy : Z) : prepares_op T (gemv T a x y m n alpha beta trans lda incx incy) [a; x; y]
  | is_ger (x y a : PyGpuBuffer) (m n alpha : Z) (lda : option Z) (incx incy : Z) : prepares_op T (ger T x y a m n alpha lda incx incy) [x; y; a]
  | is_geam (a b c : PyGpuBuffer) (m n alpha beta : Z) (trans_a trans_b : string) (lda ldb ldc : option Z) : prepares_op T (geam T a b c m n alpha beta trans_a trans_b lda ldb ldc) [a; b; c]
  | is_syrk (a c : PyGpuBuffer) (n k alpha beta : Z) (uplo trans : string) (lda ldc : option Z) : prepares_op T (syrk T a c n k alpha beta uplo trans lda ldc) [a; c]
  | is_trsm (a b : PyGpuBuffer) (m n alpha : Z) (side uplo trans diag : string) (lda ldb : option Z) : prepares_op T (trsm T a b m n alpha side uplo trans diag lda ldb) [a; b].

(** The message owns the references of the buffers and the reply channel, and its type
    implements the dispatch. *)
Definition well_built (rs : list GpuRef) (mk : Request BlasMsg) : Prop := ∀ tx,
  d_operands (blas_dispatch (mk tx)) ≡ₚ rs ∧ d_reply (blas_dispatch (mk tx)) = tx ∧ dispatchable (mk tx) = true.

Lemma prepares_op_prepares T p bs : is_full T = true → prepares_op T p bs → prepares p bs well_built.
Proof.
  intros HT Hp. assert (Hh : is_full_or_half T = true) by (by destruct T).
  destruct Hp; unfold gemm, gemm_strided_batched, axpy, dot, nrm2, scal, asum, iamax, iamin, copy, swap, rot, gemv, ger, geam, syrk, trsm;
    prep_method; intros tx; cbn; (split_and!; [solve_Permutation|done|done]).
Qed.

(** An operation that writes is answered with an error, whatever cuBLAS would do. *)
Lemma write_refused answer result_of m g :
  is_reduction m = false → Forall (holds (heap g)) (d_operands (blas_dispatch m)) →
  ∃ e, (exec (Blas.handle_msg answer result_of m) (Real, g)).2 = [Reply (d_reply (blas_dispatch m)) (Err e)] ∧
    py_class (map_gpu e) ∈ [Exn.Unrecoverable; Exn.GpuRefStale].
Proof.
  intros Hw Hh. pose proof (run_dispatch_spec answer result_of _ Real g (dispatch_wf m) Hh) as Hs.
  unfold Blas.handle_msg. act_unfold. unfold awp in Hs. destruct (run_dispatch _ _ _ _) as [[[] st'] es].
  cbn. destruct Hs as (_ & _ & -> & _). unfold blas_effects. destruct (write_dispatch m Hw) as (r & msg & ts & ->).
  destruct (access_list _ _) as [l|e] eqn:Ha.
  - exists (Unrecoverable msg). split; [done|]. set_solver.
  - apply access_list_stale in Ha as [t ->]. eexists. split; [done|]. set_solver.
Qed.

(** C40 (a call from Python): a blocking method raises before it tells anything, leaving
    the references as they were, or it tells the cuBLAS actor exactly one request, whose
    references are clones of the buffers' and whose answer decides what it returns.  The
    actor answers every request that writes a buffer with an error, so that no writing
    method ever returns. *)
Theorem python_blas answer result_of early T p bs label timeout tx aw g :
  is_full T = true → prepares_op T p bs → Forall (live g) bs → ginv early g →
  (∃ e, asks label timeout p tx aw g = (Err e, g, [])) ∨
  (∃ rs m g', inner <$> bs = Some <$> rs ∧ d_operands (blas_dispatch m) ≡ₚ rs ∧ d_reply (blas_dispatch m) = tx ∧
     dispatchable m = true ∧ g' = foldl (flip clone_ref) g (slice <$> rs) ∧
     asks label timeout p tx aw g = (finish "blas" label timeout aw, g', [Tell m]) ∧
     (is_reduction m = false →
        ∃ e, (exec (Blas.handle_msg answer result_of m) (Real, g')).2 = [Reply tx (Err e)] ∧
          py_class (map_gpu e) ∈ [Exn.Unrecoverable; Exn.GpuRefStale])).
Proof.
  intros HT Hp Hl Hg.
  destruct (blocking_spec "blas" label timeout p bs well_built tx aw g) as [He|(rs & mk & Hrs & Hq & Hb)];
    [by eapply prepares_op_prepares|done|by left|].
  right. destruct (Hq tx) as (Ho & Hr & Hd). eexists rs, (mk tx), _. split_and!; try done.
  intros Hw. destruct (write_refused answer result_of (mk tx) (foldl (flip clone_ref) g (slice <$> rs)))
    as (e & He & Hc); [done| |exists e; by rewrite Hr in He].
  destruct (clones_heap g (slice <$> rs)) as [-> _]. rewrite Ho. by eapply live_holds.
Qed.
End methods.

Definition py_device : DeviceState := DeviceState_new 0.
Definition py_gpu : Gpu := set_heap {[1 := 1; 2 := 1]} (set_refs {[1 := 1; 2 := 1]} (Gpu_new (Some py_device))).
Definition py_buffer (sl : slice_id) : PyGpuBuffer := PyGpuBuffer_new PyGpuBufferF32 (GpuRef_new sl py_device).

Lemma py_gpu_ginv : ginv false py_gpu.
Proof.
  split; [|by intros _ op ?%elem_of_nil]. intros sl. unfold strong_count, handles. cbn.
  destruct (decide (sl = 1)) as [->|]; [by vm_compute|]. destruct (decide (sl = 2)) as [->|]; [by vm_compute|].
  by rewrite !lookup_insert_ne, !lookup_singleton_ne by done.
Qed.

Lemma python_blas_witness : ∃ e m g',
  asks "axpy_f32" (f64_of_Z 10) (axpy (λ _, 4%Z) F32 0 (py_buffer 1) (py_buffer 2) None 1 1) 7 (Answered (Err e)) py_gpu
  = (Err (map_gpu e), g', [Tell m]).
Proof.
  destruct (python_blas (λ _, 4%Z) (λ _, None) (λ _, 0%Z) false F32
    (axpy (λ _, 4%Z) F32 0 (py_buffer 1) (py_buffer 2) None 1 1) [py_buffer 1; py_buffer 2] "axpy_f32" (f64_of_Z 10) 7
    (Answered (Err Timeout)) py_gpu) as [[e He]|(rs & m & g' & _ & _ & _ & _ & _ & Ha & _)];
    [done|by constructor| |apply py_gpu_ginv|exfalso; by vm_compute in He|].
  - repeat constructor; intros r [= <-]; vm_compute; lia.
  - exists Timeout, m, g'. rewrite Ha. by vm_compute.
Defined.

(** *** Arguments *)

(** The enumerations are read without regard to case. *)
Lemma op_from_str_case s t : to_ascii_uppercase s = to_ascii_uppercase t → is_ok (op_from_str s) = true →
  op_from_str s = op_from_str t.
Proof. unfold op_from_str. intros ->. by repeat case_bool_decide. Qed.
Example op_spellings : op_from_str "t" = Ok "CUBLAS_OP_T" ∧ fill_from_str "Lower" = Ok "CUBLAS_FILL_MODE_LOWER" ∧
  diag_from_str "NonUnit" = Ok "CUBLAS_DIAG_NON_UNIT" ∧ side_from_str "x" = Err (map_str ("side must be 'L'/'LEFT' or 'R'/'RIGHT' (got " +:+ debug_str "x" +:+ ")")).
Proof. by vm_compute. Qed.

(** Without [n] a strided operation takes as many elements as the buffer has, whatever
    the stride: with a stride of two it reaches past the end of the buffer. *)
Definition reach (n inc : Z) : Z := (1 + (n - 1) * Z.abs inc)%Z.
Lemma default_n_overruns slice_len x inc : (2 ≤ ref_len slice_len x < 2 ^ 31)%Z → (2 ≤ Z.abs inc)%Z →
  (ref_len slice_len x < reach (len_or slice_len x None) inc)%Z.
Proof.
  intros Hl Hi. unfold len_or, reach. cbn [default]. unfold as_i32. rewrite wrap_small by (unfold in_width; lia). nia.
Qed.
(** With a unit stride it stays inside. *)
Lemma default_n_fits slice_len x : (0 ≤ ref_len slice_len x < 2 ^ 31)%Z →
  reach (len_or slice_len x None) 1 = ref_len slice_len x.
Proof.
  intros Hl. unfold len_or, reach. cbn [default]. unfold as_i32. rewrite wrap_small by (unfold in_width; lia). lia.
Qed.

(** The elements a matrix of [cols] columns with leading dimension [ld] reaches over, and
    the rows of what the operation [op] is applied to: the default leading dimension of
    a product is the number of rows that are stored, so a packed matrix fits. *)
Definition matrix_reach (rows cols ld : Z) : Z := if (cols =? 0)%Z then 0%Z else ((cols - 1) * ld + rows)%Z.
Definition stored (t : string) (rows cols : Z) : Z * Z := if is_n t then (rows, cols) else (cols, rows).
Lemma gemm_default_ld T a b c m n k alpha beta ta tb ra rb rc g mk g' :
  inner a = Some ra → inner b = Some rb → inner c = Some rc →
  gemm T a b c m n k alpha beta ta tb None None None g = (Ok mk, g', []) →
  ∀ tx, ∃ r, mk tx = Gemm T r ∧
    matrix_reach (stored (g_trans_a r) m k).1 (stored (g_trans_a r) m k).2 (g_lda r) = (if (stored (g_trans_a r) m k).2 =? 0 then 0 else m * k)%Z ∧
    matrix_reach (stored (g_trans_b r) k n).1 (stored (g_trans_b r) k n).2 (g_ldb r) = (if (stored (g_trans_b r) k n).2 =? 0 then 0 else k * n)%Z ∧
    matrix_reach m n (g_ldc r) = (if n =? 0 then 0 else m * n)%Z.
Proof.
  intros Ha Hb Hc Hg tx. unfold gemm, borrowed in Hg. rewrite Ha, Hb, Hc in Hg. act_unfold.
  destruct (op_from_str ta) as [oa|] eqn:Hta; cbn in Hg; [|done].
  destruct (op_from_str tb) as [ob|] eqn:Htb; cbn in Hg; [|done]. injection Hg as <- <-.
  eexists. split; [done|]. cbn. unfold matrix_reach, stored.
  destruct (is_n oa), (is_n ob); cbn; (split_and!; case_match; lia).
Qed.
