(* ===== verification/PyRng.v ===== *)
(** * The Python bridge: [RngGenerator]

    Models [crates/atomr-accel-py/src/rng.rs]: the names of the generator families and
    the methods that ask the cuRAND actor of [Rng.v].  A parameter of a distribution is
    a number of its format, as there. *)

From S2P Require Import Prelude Actor Text Float64 Errors DeviceState Envelope Objects Rng Python.

Abbreviation prep := (act Gpu (PyEff RngMsg) (result (Request RngMsg) PyErr)).
Abbreviation method := (nat → Awaited Value → act Gpu (PyEff RngMsg) (result Value PyErr)).
Abbreviation async := (act Gpu (PyEff RngMsg) (result (Future RngMsg) PyErr)).

Definition rng_kind_from_str (s : string) : result RngGeneratorKind PyErr :=
  let l := to_ascii_lowercase s in
  if bool_decide (l ∈ ["default"; "pseudo_default"]) then Ok PseudoDefault
  else if bool_decide (l ∈ ["philox"; "philox4_32_10"; "philox_4_32_10"]) then Ok Philox4_32_10
  else if bool_decide (l = "xorwow") then Ok XorWow
  else if bool_decide (l = "mrg32k3a") then Ok Mrg32K3A
  else if bool_decide (l = "mtgp32") then Ok Mtgp32
  else if bool_decide (l = "sobol32") then Ok Sobol32
  else if bool_decide (l ∈ ["scrambled_sobol32"; "scrambledsobol32"]) then Ok ScrambledSobol32
  else if bool_decide (l = "sobol64") then Ok Sobol64
  else if bool_decide (l ∈ ["scrambled_sobol64"; "scrambledsobol64"]) then Ok ScrambledSobol64
  else Err (map_str ("unknown RNG kind: " +:+ debug_str l)).

(** ** Preparing the requests *)

Definition seed_request (seed : Z) : prep := request (λ tx, SetSeed seed tx).
Definition generator_request (kind : string) : prep :=
  try (rng_kind_from_str kind) (λ k, request (λ tx, SetGenerator k tx)).
Definition fill (T : RngFloat) (buf : PyGpuBuffer) (d : Distribution) : prep :=
  borrowed "buf" buf (λ g, request (λ tx, Fill {| fr_type := T; fr_buf := g; fr_dist := d; fr_reply := tx |})).
Definition discrete (T : RngFloat) (buf weights : PyGpuBuffer) : prep :=
  borrowed "buf" buf (λ g,
  borrowed "weights" weights (λ w,
  request (λ tx, Fill {| fr_type := T; fr_buf := g; fr_dist := Discrete w; fr_reply := tx |}))).
Definition bits (buf : PyGpuBuffer) : prep := borrowed "buf" buf (λ g, request (λ tx, FillUniformU32 g tx)).

(** ** The methods *)

Definition asks (label : string) (timeout_secs : f64) (p : prep) : method := blocking "rng" label timeout_secs p.
Definition later (label : string) (timeout_secs : f64) (p : prep) : async := future "rng" label timeout_secs p.

Definition set_seed (seed : Z) (timeout_secs : f64) : method := asks "set_seed" timeout_secs (seed_request seed).
Definition set_seed_async (seed : Z) (timeout_secs : f64) : async := later "set_seed" timeout_secs (seed_request seed).
Definition set_generator (kind : string) (timeout_secs : f64) : method :=
  asks "set_generator" timeout_secs (generator_request kind).
Definition set_generator_async (kind : string) (timeout_secs : f64) : async :=
  later "set_generator" timeout_secs (generator_request kind).
Definition uniform_f32 (buf : PyGpuBuffer) (lo hi : f64) (timeout_secs : f64) : method :=
  asks "uniform_f32" timeout_secs (fill Rf32 buf (Uniform lo hi)).
Definition uniform_f32_async (buf : PyGpuBuffer) (lo hi : f64) (timeout_secs : f64) : async :=
  later "uniform_f32" timeout_secs (fill Rf32 buf (Uniform lo hi)).
Definition uniform_f64 (buf : PyGpuBuffer) (lo hi : f64) (timeout_secs : f64) : method :=
  asks "uniform_f64" timeout_secs (fill Rf64 buf (Uniform lo hi)).
Definition uniform_f64_async (buf : PyGpuBuffer) (lo hi : f64) (timeout_secs : f64) : async :=
  later "uniform_f64" timeout_secs (fill Rf64 buf (Uniform lo hi)).
Definition normal_f32 (buf : PyGpuBuffer) (mean std : f64) (timeout_secs : f64) : method :=
  asks "normal_f32" timeout_secs (fill Rf32 buf (Normal mean std)).
Definition normal_f32_async (buf : PyGpuBuffer) (mean std : f64) (timeout_secs : f64) : async :=
  later "normal_f32" timeout_secs (fill Rf32 buf (Normal mean std)).
Definition normal_f64 (buf : PyGpuBuffer) (mean std : f64) (timeout_secs : f64) : method :=
  asks "normal_f64" timeout_secs (fill Rf64 buf (Normal mean std)).
Definition normal_f64_async (buf : PyGpuBuffer) (mean std : f64) (timeout_secs : f64) : async :=
  later "normal_f64" timeout_secs (fill Rf64 buf (Normal mean std)).
Definition log_normal_f32 (buf : PyGpuBuffer) (mean std : f64) (timeout_secs : f64) : method :=
  asks "log_normal_f32" timeout_secs (fill Rf32 buf (LogNormal mean std)).
Definition log_normal_f32_async (buf : PyGpuBuffer) (mean std : f64) (timeout_secs : f64) : async :=
  later "log_normal_f32" timeout_secs (fill Rf32 buf (LogNormal mean std)).
Definition log_normal_f64 (buf : PyGpuBuffer) (mean std : f64) (timeout_secs : f64) : method :=
  asks "log_normal_f64" timeout_secs (fill Rf64 buf (LogNormal mean std)).
Definition log_normal_f64_async (buf : PyGpuBuffer) (mean std : f64) (timeout_secs : f64) : async :=
  later "log_normal_f64" timeout_secs (fill Rf64 buf (LogNormal mean std)).
Definition poisson_f32 (buf : PyGpuBuffer) (lambda : f64) (timeout_secs : f64) : method :=
  asks "poisson_f32" timeout_secs (fill Rf32 buf (Poisson lambda)).
Definition poisson_f32_async (buf : PyGpuBuffer) (lambda : f64) (timeout_secs : f64) : async :=
  later "poisson_f32" timeout_secs (fill Rf32 buf (Poisson lambda)).
Definition poisson_f64 (buf : PyGpuBuffer) (lambda : f64) (timeout_secs : f64) : method :=
  asks "poisson_f64" timeout_secs (fill Rf64 buf (Poisson lambda)).
Definition poisson_f64_async (buf : PyGpuBuffer) (lambda : f64) (timeout_secs : f64) : async :=
  later "poisson_f64" timeout_secs (fill Rf64 buf (Poisson lambda)).
Definition exponential_f32 (buf : PyGpuBuffer) (lambda : f64) (timeout_secs : f64) : method :=
  asks "exponential_f32" timeout_secs (fill Rf32 buf (Exponential lambda)).
Definition exponential_f32_async (buf : PyGpuBuffer) (lambda : f64) (timeout_secs : f64) : async :=
  later "exponential_f32" timeout_secs (fill Rf32 buf (Exponential lambda)).
Definition exponential_f64 (buf : PyGpuBuffer) (lambda : f64) (timeout_secs : f64) : method :=
  asks "exponential_f64" timeout_secs (fill Rf64 buf (Exponential lambda)).
Definition exponential_f64_async (buf : PyGpuBuffer) (lambda : f64) (timeout_secs : f64) : async :=
  later "exponential_f64" timeout_secs (fill Rf64 buf (Exponential lambda)).
Definition beta_f32 (buf : PyGpuBuffer) (alpha beta : f64) (timeout_secs : f64) : method :=
  asks "beta_f32" timeout_secs (fill Rf32 buf (Beta alpha beta)).
Definition beta_f32_async (buf : PyGpuBuffer) (alpha beta : f64) (timeout_secs : f64) : async :=
  later "beta_f32" timeout_secs (fill Rf32 buf (Beta alpha beta)).
Definition beta_f64 (buf : PyGpuBuffer) (alpha beta : f64) (timeout_secs : f64) : method :=
  asks "beta_f64" timeout_secs (fill Rf64 buf (Beta alpha beta)).
Definition beta_f64_async (buf : PyGpuBuffer) (alpha beta : f64) (timeout_secs : f64) : async :=
  later "beta_f64" timeout_secs (fill Rf64 buf (Beta alpha beta)).
Definition cauchy_f32 (buf : PyGpuBuffer) (loc scale : f64) (timeout_secs : f64) : method :=
  asks "cauchy_f32" timeout_secs (fill Rf32 buf (Cauchy loc scale)).
Definition cauchy_f32_async (buf : PyGpuBuffer) (loc scale : f64) (timeout_secs : f64) : async :=
  later "cauchy_f32" timeout_secs (fill Rf32 buf (Cauchy loc scale)).
Definition cauchy_f64 (buf : PyGpuBuffer) (loc scale : f64) (timeout_secs : f64) : method :=
  asks "cauchy_f64" timeout_secs (fill Rf64 buf (Cauchy loc scale)).
Definition cauchy_f64_async (buf : PyGpuBuffer) (loc scale : f64) (timeout_secs : f64) : async :=
  later "cauchy_f64" timeout_secs (fill Rf64 buf (Cauchy loc scale)).
Definition gamma_f32 (buf : PyGpuBuffer) (shape scale : f64) (timeout_secs : f64) : method :=
  asks "gamma_f32" timeout_secs (fill Rf32 buf (Gamma shape scale)).
Definition gamma_f32_async (buf : PyGpuBuffer) (shape scale : f64) (timeout_secs : f64) : async :=
  later "gamma_f32" timeout_secs (fill Rf32 buf (Gamma shape scale)).
Definition gamma_f64 (buf : PyGpuBuffer) (shape scale : f64) (timeout_secs : f64) : method :=
  asks "gamma_f64" timeout_secs (fill Rf64 buf (Gamma shape scale)).
Definition gamma_f64_async (buf : PyGpuBuffer) (shape scale : f64) (timeout_secs : f64) : async :=
  later "gamma_f64" timeout_secs (fill Rf64 buf (Gamma shape scale)).
Definition discrete_f32 (buf weights : PyGpuBuffer) (timeout_secs : f64) : method :=
  asks "discrete_f32" timeout_secs (discrete Rf32 buf weights).
Definition discrete_f32_async (buf weights : PyGpuBuffer) (timeout_secs : f64) : async :=
  later "discrete_f32" timeout_secs (discrete Rf32 buf weights).
Definition discrete_f64 (buf weights : PyGpuBuffer) (timeout_secs : f64) : method :=
  asks "discrete_f64" timeout_secs (discrete Rf64 buf weights).
Definition discrete_f64_async (buf weights : PyGpuBuffer) (timeout_secs : f64) : async :=
  later "discrete_f64" timeout_secs (discrete Rf64 buf weights).
Definition uniform_u32 (buf : PyGpuBuffer) (timeout_secs : f64) : method := asks "uniform_u32" timeout_secs (bits buf).
Definition uniform_u32_async (buf : PyGpuBuffer) (timeout_secs : f64) : async :=
  later "uniform_u32" timeout_secs (bits buf).

(** ** What the methods do *)

(** [p] prepares a fill of the first of the buffers [bs]. *)
Inductive prepares_fill : prep → list PyGpuBuffer → Prop :=
  | is_fill T buf d : dist_refs d = [] → prepares_fill (fill T buf d) [buf]
  | is_discrete T buf weights : prepares_fill (discrete T buf weights) [buf; weights]
  | is_bits buf : prepares_fill (bits buf) [buf].

Section refused.
Context (lib_answer : nat → ObjCall → result Z string) (answer : Call → option string) (show_f64 : f64 → string).

#[local] Instance rng : KernelActor (S := RngInner) RngMsg := rng_actor lib_answer answer show_f64.

Definition fill_class (e : GpuError) : Prop :=
  py_class (map_gpu e) ∈ [Exn.Unrecoverable; Exn.GpuRefStale; Exn.LibraryError].

Lemma fill_error_class g dst d : fill_class (fill_error g dst d).
Proof.
  unfold fill_class, fill_error. destruct (access_list (dev g) [dst]) as [|e] eqn:Ha.
  2: apply access_list_stale in Ha as [m ->].
  all: destruct d; unfold poisson_refused, not_wired; set_solver.
Qed.

Lemma asked_refused m l g k : is_Some (asked m) → refuses (Real l g k) fill_class m.
Proof.
  intros [[dst d] Ha] gpu Hh. exists (fill_error gpu dst d). split; [|apply fill_error_class].
  pose proof (fill_handled lib_answer answer show_f64 m dst d l g k gpu Ha Hh) as H. unfold awp, exec in *. cbn.
  destruct (rng_handle _ _ _ _ _) as [[[] st'] es]. by destruct H as (_ & _ & ->).
Qed.

Lemma prepares_fill_refused p bs l g k : prepares_fill p bs →
  prepares p bs (λ rs mk, carries rs mk ∧ ∀ tx, refuses (Real l g k) fill_class (mk tx)).
Proof.
  intros Hp. destruct Hp as [T buf d Hd|T buf weights|buf]; unfold fill, discrete, bits; prep_method;
    (split; [intros tx; cbn; by rewrite ?Hd|intros tx; by apply asked_refused]).
Qed.

(** A fill raises without effect, or tells one request over clones of its buffers and is
    answered with an error: no fill asked from Python ever returns. *)
Theorem python_rng early l gen k label timeout p bs tx aw g :
  prepares_fill p bs → Forall (live g) bs → ginv early g →
  (∃ e, asks label timeout p tx aw g = (Err e, g, [])) ∨
  (∃ rs m g', inner <$> bs = Some <$> rs ∧ operands m ≡ₚ rs ∧ reply_of m = tx ∧
     g' = foldl (flip clone_ref) g (slice <$> rs) ∧
     asks label timeout p tx aw g = (finish "rng" label timeout aw, g', [Tell m]) ∧
     ∃ e, (exec (khandle m) (Real l gen k, g')).2 = [Reply tx (Err e)] ∧ fill_class e).
Proof. intros Hp. by eapply call_refused, prepares_fill_refused. Qed.

(** Without a GPU a fill is dropped, so its caller sees a dropped reply. *)
Lemma mock_fill r g : (exec (khandle (Fill r)) (Mock, g)).2 = [DropSender (fr_reply r)].
Proof. done. Qed.
End refused.

(** Every family has a name, in any case. *)
Lemma rng_kinds k : ∃ s, rng_kind_from_str s = Ok k.
Proof.
  exists match k with
    | PseudoDefault => "DEFAULT" | XorWow => "XorWow" | Mrg32K3A => "MRG32k3a" | Mtgp32 => "mtgp32"
    | Philox4_32_10 => "philox" | Sobol32 => "SOBOL32" | ScrambledSobol32 => "scrambled_sobol32"
    | Sobol64 => "sobol64" | ScrambledSobol64 => "ScrambledSobol64" end.
  by destruct k; vm_compute.
Qed.

(** *** At a concrete call *)

Definition rng_gpu : Gpu := set_heap {[1 := 1]} (set_refs {[1 := 1]} (Gpu_new (Some (DeviceState_new 0)))).
Definition rng_buffer : PyGpuBuffer := PyGpuBuffer_new PyGpuBufferF32 (GpuRef_new 1 (DeviceState_new 0)).

Lemma rng_gpu_ginv : ginv false rng_gpu.
Proof.
  split; [|by intros _ op ?%elem_of_nil]. intros sl. unfold strong_count, handles. cbn.
  destruct (decide (sl = 1)) as [->|]; [by vm_compute|]. by rewrite !lookup_singleton_ne by done.
Qed.

Lemma python_rng_witness : ∃ e m g',
  asks "uniform_f32" (f64_of_Z 10) (fill Rf32 rng_buffer (Uniform f64_zero f64_one)) 7 (Answered (Err e)) rng_gpu
  = (Err (map_gpu e), g', [Tell m]).
Proof.
  destruct (python_rng (λ _ _, Ok 0%Z) (λ _, None) (λ _, EmptyString) false Lib_new 0 XorWow "uniform_f32" (f64_of_Z 10)
    (fill Rf32 rng_buffer (Uniform f64_zero f64_one)) [rng_buffer] 7 (Answered (Err Timeout)) rng_gpu)
    as [[e He]|(rs & m & g' & _ & _ & _ & _ & Ha & _)];
    [by constructor| |apply rng_gpu_ginv|exfalso; by vm_compute in He|].
  - repeat constructor; intros r [= <-]; vm_compute; lia.
  - exists Timeout, m, g'. rewrite Ha. by vm_compute.
Defined.
