(* ===== verification/PySolver.v ===== *)
(** * The Python bridge: [Solver]

    Models [crates/atomr-accel-py/src/solver.rs]: the dense and batched methods that ask
    the cuSOLVER actor of [Solver.v].  The leading dimensions of the dense methods are
    read and ignored; those of the batched ones must be [n]. *)

From stdpp Require Import pretty.
From S2P Require Import Prelude Actor Text Float64 Errors Dtype DeviceState Envelope Objects Solver Python.

Abbreviation prep := (act Gpu (PyEff SolverMsg) (result (Request SolverMsg) PyErr)).
Abbreviation method := (nat → Awaited Value → act Gpu (PyEff SolverMsg) (result Value PyErr)).

Definition uplo_from_str (s : string) : result Uplo PyErr :=
  let u := to_ascii_uppercase s in
  if bool_decide (u ∈ ["U"; "UPPER"]) then Ok Upper
  else if bool_decide (u ∈ ["L"; "LOWER"]) then Ok Lower
  else Err (map_str ("uplo must be 'U'/'UPPER' or 'L'/'LOWER' (got " +:+ debug_str s +:+ ")")).

(** ** Preparing the requests *)

Definition lu (T : DType) (a ipiv : PyGpuBuffer) (m n : Z) (lda : option Z) : prep :=
  borrowed "a" a (λ a,
  borrowed "ipiv" ipiv (λ ipiv,
  request (λ tx, Op (BLu {| lu_dtype := T; lu_a := a; lu_m := m; lu_n := n; lu_ipiv := ipiv; lu_reply := tx |})))).
Definition lu_solve (T : DType) (lu ipiv b : PyGpuBuffer) (n nrhs : Z) (ldb : option Z) (trans : bool) : prep :=
  borrowed "lu" lu (λ lu,
  borrowed "ipiv" ipiv (λ ipiv,
  borrowed "b" b (λ b,
  request (λ tx, Op (BLuSolve {| sl_dtype := T; sl_lu := lu; sl_ipiv := ipiv; sl_b := b; sl_n := n; sl_nrhs := nrhs;
    sl_trans := trans; sl_reply := tx |}))))).
Definition cholesky (T : DType) (a : PyGpuBuffer) (n : Z) (uplo : string) (lda : option Z) : prep :=
  try (uplo_from_str uplo) (λ uplo,
  borrowed "a" a (λ a,
  request (λ tx, Op (BCholesky {| ch_dtype := T; ch_a := a; ch_n := n; ch_uplo := uplo; ch_reply := tx |})))).
Definition qr (T : DType) (a tau : PyGpuBuffer) (m n : Z) (lda : option Z) : prep :=
  borrowed "a" a (λ a,
  borrowed "tau" tau (λ tau,
  request (λ tx, Op (BQr {| qr_dtype := T; qr_a := a; qr_m := m; qr_n := n; qr_tau := tau; qr_reply := tx |})))).
Definition svd (T : DType) (a s : PyGpuBuffer) (m n : Z) (u vt : option PyGpuBuffer) : prep :=
  borrowed "a" a (λ a,
  borrowed "s" s (λ s,
  borrowed_opt "u" u (λ u,
  borrowed_opt "vt" vt (λ vt,
  request (λ tx, Op (BSvd {| sv_dtype := T; sv_a := a; sv_m := m; sv_n := n; sv_s := s; sv_u := u; sv_vt := vt;
    sv_reply := tx |})))))).
Definition eigh (T : DType) (a w : PyGpuBuffer) (n : Z) (uplo : string) (lda : option Z) (compute_vectors : bool) : prep :=
  try (uplo_from_str uplo) (λ uplo,
  borrowed "a" a (λ a,
  borrowed "w" w (λ w,
  request (λ tx, Op (BSyevd {| sy_dtype := T; sy_a := a; sy_n := n; sy_uplo := uplo; sy_w := w;
    sy_vectors := compute_vectors; sy_reply := tx |}))))).

(** The check of [lda] that the batched methods make. *)
Definition dense_lda (label : string) (n : Z) (lda : option Z) : result unit PyErr :=
  match lda with
  | Some l =>
    if (l =? n)%Z then Ok tt
    else Err (map_str (label +:+ ": only lda == n is supported (got lda=" +:+ pretty l +:+ ", n=" +:+ pretty n +:+ ")"))
  | None => Ok tt
  end.
(** [info] is only kept alive. *)
Definition getrf_batched (label : string) (T : DType) (a ipiv info : PyGpuBuffer) (batch_count n : Z) (lda : option Z) : prep :=
  try (dense_lda label n lda) (λ _,
  borrowed "a" a (λ a,
  borrowed "ipiv" ipiv (λ ipiv,
  request (λ tx, Op (BGetrfBatched {| gb_dtype := T; gb_a := a; gb_n := n; gb_batch := batch_count; gb_ipiv := ipiv;
    gb_reply := tx |}))))).
Definition potrf_batched (label : string) (T : DType) (a info : PyGpuBuffer) (batch_count n : Z) (uplo : string)
    (lda : option Z) : prep :=
  try (dense_lda label n lda) (λ _,
  try (uplo_from_str uplo) (λ uplo,
  borrowed "a" a (λ a,
  request (λ tx, Op (BPotrfBatched {| pb_dtype := T; pb_a := a; pb_n := n; pb_batch := batch_count; pb_uplo := uplo;
    pb_reply := tx |}))))).
Definition gesvdj_batched (T : DType) (a s : PyGpuBuffer) (batch_count m n : Z) (u v : option PyGpuBuffer) : prep :=
  borrowed "a" a (λ a,
  borrowed "s" s (λ s,
  borrowed_opt "u" u (λ u,
  borrowed_opt "v" v (λ v,
  request (λ tx, Op (BGesvdjBatched {| gj_dtype := T; gj_a := a; gj_m := m; gj_n := n; gj_batch := batch_count; gj_s := s;
    gj_u := u; gj_v := v; gj_reply := tx |})))))).

(** ** The methods *)

Definition asks (label : string) (timeout_secs : f64) (p : prep) : method := blocking "solver" label timeout_secs p.

Definition lu_f32 (a ipiv : PyGpuBuffer) (m n : Z) (lda : option Z) (timeout_secs : f64) : method :=
  asks "lu_f32" timeout_secs (lu F32 a ipiv m n lda).
Definition lu_f64 (a ipiv : PyGpuBuffer) (m n : Z) (lda : option Z) (timeout_secs : f64) : method :=
  asks "lu_f64" timeout_secs (lu F64 a ipiv m n lda).
Definition lu_solve_f32 (lu ipiv b : PyGpuBuffer) (n nrhs : Z) (ldb : option Z) (trans : bool) (timeout_secs : f64) : method :=
  asks "lu_solve_f32" timeout_secs (lu_solve F32 lu ipiv b n nrhs ldb trans).
Definition lu_solve_f64 (lu ipiv b : PyGpuBuffer) (n nrhs : Z) (ldb : option Z) (trans : bool) (timeout_secs : f64) : method :=
  asks "lu_solve_f64" timeout_secs (lu_solve F64 lu ipiv b n nrhs ldb trans).
Definition cholesky_f32 (a : PyGpuBuffer) (n : Z) (uplo : string) (lda : option Z) (timeout_secs : f64) : method :=
  asks "cholesky_f32" timeout_secs (cholesky F32 a n uplo lda).
Definition cholesky_f64 (a : PyGpuBuffer) (n : Z) (uplo : string) (lda : option Z) (timeout_secs : f64) : method :=
  asks "cholesky_f64" timeout_secs (cholesky F64 a n uplo lda).
Definition qr_f32 (a tau : PyGpuBuffer) (m n : Z) (lda : option Z) (timeout_secs : f64) : method :=
  asks "qr_f32" timeout_secs (qr F32 a tau m n lda).
Definition qr_f64 (a tau : PyGpuBuffer) (m n : Z) (lda : option Z) (timeout_secs : f64) : method :=
  asks "qr_f64" timeout_secs (qr F64 a tau m n lda).
Definition svd_f32 (a s : PyGpuBuffer) (m n : Z) (u vt : option PyGpuBuffer) (timeout_secs : f64) : method :=
  asks "svd_f32" timeout_secs (svd F32 a s m n u vt).
Definition svd_f64 (a s : PyGpuBuffer) (m n : Z) (u vt : option PyGpuBuffer) (timeout_secs : f64) : method :=
  asks "svd_f64" timeout_secs (svd F64 a s m n u vt).
Definition eigh_f32 (a w : PyGpuBuffer) (n : Z) (uplo : string) (lda : option Z) (compute_vectors : bool) (timeout_secs : f64) : method :=
  asks "eigh_f32" timeout_secs (eigh F32 a w n uplo lda compute_vectors).
Definition eigh_f64 (a w : PyGpuBuffer) (n : Z) (uplo : string) (lda : option Z) (compute_vectors : bool) (timeout_secs : f64) : method :=
  asks "eigh_f64" timeout_secs (eigh F64 a w n uplo lda compute_vectors).
Definition getrf_batched_f32 (a ipiv info : PyGpuBuffer) (batch_count n : Z) (lda : option Z) (timeout_secs : f64) : method :=
  asks "getrf_batched_f32" timeout_secs (getrf_batched "getrf_batched_f32" F32 a ipiv info batch_count n lda).
Definition getrf_batched_f64 (a ipiv info : PyGpuBuffer) (batch_count n : Z) (lda : option Z) (timeout_secs : f64) : method :=
  asks "getrf_batched_f64" timeout_secs (getrf_batched "getrf_batched_f64" F64 a ipiv info batch_count n lda).
Definition potrf_batched_f32 (a info : PyGpuBuffer) (batch_count n : Z) (uplo : string) (lda : option Z) (timeout_secs : f64) : method :=
  asks "potrf_batched_f32" timeout_secs (potrf_batched "potrf_batched_f32" F32 a info batch_count n uplo lda).
Definition potrf_batched_f64 (a info : PyGpuBuffer) (batch_count n : Z) (uplo : string) (lda : option Z) (timeout_secs : f64) : method :=
  asks "potrf_batched_f64" timeout_secs (potrf_batched "potrf_batched_f64" F64 a info batch_count n uplo lda).
Definition gesvdj_batched_f32 (a s : PyGpuBuffer) (batch_count m n : Z) (u v : option PyGpuBuffer) (timeout_secs : f64) : method :=
  asks "gesvdj_batched_f32" timeout_secs (gesvdj_batched F32 a s batch_count m n u v).
Definition gesvdj_batched_f64 (a s : PyGpuBuffer) (batch_count m n : Z) (u v : option PyGpuBuffer) (timeout_secs : f64) : method :=
  asks "gesvdj_batched_f64" timeout_secs (gesvdj_batched F64 a s batch_count m n u v).

(** ** What the methods do *)

(** [p] prepares a factorisation or a solve over the buffers [bs]. *)
Inductive prepares_op : prep → list PyGpuBuffer → Prop :=
  | is_lu T a ipiv m n lda : prepares_op (lu T a ipiv m n lda) [a; ipiv]
  | is_lu_solve T l ipiv b n nrhs ldb trans : prepares_op (lu_solve T l ipiv b n nrhs ldb trans) [l; ipiv; b]
  | is_cholesky T a n uplo lda : prepares_op (cholesky T a n uplo lda) [a]
  | is_qr T a tau m n lda : prepares_op (qr T a tau m n lda) [a; tau]
  | is_svd T a s m n u vt : prepares_op (svd T a s m n u vt) (a :: s :: option_list u ++ option_list vt ++ [])
  | is_eigh T a w n uplo lda v : prepares_op (eigh T a w n uplo lda v) [a; w]
  | is_getrf_batched label T a ipiv info batch n lda : prepares_op (getrf_batched label T a ipiv info batch n lda) [a; ipiv]
  | is_potrf_batched label T a info batch n uplo lda : prepares_op (potrf_batched label T a info batch n uplo lda) [a]
  | is_gesvdj_batched T a s batch m n u v :
      prepares_op (gesvdj_batched T a s batch m n u v) (a :: s :: option_list u ++ option_list v ++ []).

Section refused.
Context (lib_answer : nat → ObjCall → result Z string) (alloc : Z → option string) (answer : Call → option string).
Context (read_info : Call → result (list Z) ReadError) (singularity : Call → Z) (address : slice_id → Z).
Context (sp_create : option string).

#[local] Instance solver : KernelActor (S := SolverInner) SolverMsg :=
  solver_actor lib_answer alloc answer read_info singularity address sp_create.

Definition is_dense (m : SolverMsg) : Prop := is_sparse (msg_op m) = false ∧ is_Some (first_take (msg_op m)).
Definition solver_class (e : GpuError) : Prop := py_class (map_gpu e) ∈ [Exn.Unrecoverable; Exn.GpuRefStale].

Lemma dense_refused st m : is_dense m → refuses st solver_class m.
Proof.
  intros [Hs [[rs t] Ht]] g Hh. exists (solver_answer sp_create st (dev g) (msg_op m)). split.
  - pose proof (solver_handle_spec lib_answer alloc answer read_info singularity address sp_create m st g Hh) as H.
    unfold awp, exec in *. cbn. destruct (solver_handle _ _ _ _ _ _ _ _ _) as [[[] st'] es]. by destruct H as (_ & _ & ->).
  - unfold solver_answer, solver_class. rewrite Ht, Hs. cbn. destruct st as [c|]; [|set_solver].
    destruct (access_list (dev g) rs) as [|e] eqn:Ha; [set_solver|]. apply access_list_stale in Ha as [w ->]. set_solver.
Qed.

Lemma solver_method_refused p bs st : prepares_op p bs →
  prepares p bs (λ rs mk, carries rs mk ∧ ∀ tx, refuses st solver_class (mk tx)).
Proof.
  intros Hp. destruct Hp; unfold lu, lu_solve, cholesky, qr, svd, eigh, getrf_batched, potrf_batched, gesvdj_batched;
    prep_method.
  all: split; [intros tx; cbn|intros tx; apply dense_refused; split; [reflexivity|eexists; reflexivity]].
  all: try done.
  all: split; [|done]; repeat match goal with x : option GpuRef |- _ => destruct x end; done.
Qed.

(** A method raises without effect, or tells one request over clones of its buffers and is
    answered with an error, with or without a GPU: none ever returns. *)
Theorem python_solver early st label timeout p bs tx aw g :
  prepares_op p bs → Forall (live g) bs → ginv early g →
  (∃ e, asks label timeout p tx aw g = (Err e, g, [])) ∨
  (∃ rs m g', inner <$> bs = Some <$> rs ∧ operands m ≡ₚ rs ∧ reply_of m = tx ∧
     g' = foldl (flip clone_ref) g (slice <$> rs) ∧
     asks label timeout p tx aw g = (finish "solver" label timeout aw, g', [Tell m]) ∧
     ∃ e, (exec (khandle m) (st, g')).2 = [Reply tx (Err e)] ∧ solver_class e).
Proof. intros Hp. by eapply call_refused, solver_method_refused. Qed.
End refused.

(** The leading dimension a dense method is given changes nothing. *)
Lemma dense_lda_ignored T a b m n uplo trans v lda lda' :
  lu T a b m n lda = lu T a b m n lda' ∧ qr T a b m n lda = qr T a b m n lda' ∧
  lu_solve T a b a m n lda trans = lu_solve T a b a m n lda' trans ∧
  cholesky T a n uplo lda = cholesky T a n uplo lda' ∧ eigh T a b n uplo lda v = eigh T a b n uplo lda' v.
Proof. done. Qed.

(** *** At a concrete call *)

Definition solver_buffer (sl : slice_id) : PyGpuBuffer := PyGpuBuffer_new PyGpuBufferF32 (GpuRef_new sl solver_device).
Definition py_solver_gpu : Gpu := set_refs {[1 := 1; 2 := 1]} solver_gpu.

Lemma py_solver_gpu_ginv : ginv false py_solver_gpu.
Proof.
  split; [|by intros _ op ?%elem_of_nil]. intros sl. unfold strong_count, handles. cbn.
  destruct (decide (sl = 1)) as [->|]; [by vm_compute|]. destruct (decide (sl = 2)) as [->|]; [by vm_compute|].
  by rewrite !lookup_insert_ne, !lookup_singleton_ne by done.
Qed.

Lemma python_solver_witness : ∃ e m g',
  asks "lu_f32" (f64_of_Z 60) (lu F32 (solver_buffer 1) (solver_buffer 2) 4 4 (Some 9%Z)) 7 (Answered (Err e)) py_solver_gpu
  = (Err (map_gpu e), g', [Tell m]).
Proof.
  destruct (python_solver (λ _ _, Ok 0%Z) (λ _, None) (λ _, None) (λ _, Ok [0%Z]) (λ _, 0%Z) (λ _, 0%Z) None false Mock "lu_f32"
    (f64_of_Z 60) (lu F32 (solver_buffer 1) (solver_buffer 2) 4 4 (Some 9%Z)) [solver_buffer 1; solver_buffer 2] 7
    (Answered (Err Timeout)) py_solver_gpu) as [[e He]|(rs & m & g' & _ & _ & _ & _ & Ha & _)];
    [by constructor| |apply py_solver_gpu_ginv|exfalso; by vm_compute in He|].
  - repeat constructor; intros r [= <-]; vm_compute; lia.
  - exists Timeout, m, g'. rewrite Ha. by vm_compute.
Defined.
