(* ===== verification/PyFft.v ===== *)
(** * The Python bridge: [Fft]

    Models [crates/atomr-accel-py/src/fft.rs].  The typed methods ask the cuFFT actor of
    [Fft.v] over the client's buffers.  The one-shot methods ask the device for two byte
    buffers, upload, transform and download.  A [float32] is its bits, a [complex64] the
    pair of its parts'; [as_slice] of an array is the array or numpy's error.  The
    buffers of a one-shot call are its own, and their handles are not counted. *)

From stdpp Require Import pretty.
From S2P Require Import Prelude Actor Text Float64 Lru Errors Dtype DeviceState DeviceActor ContextActor Envelope Fft Python.

(** ** Directions, kinds, plan keys *)

Definition direction_from_str (s : string) : result FftDirection PyErr :=
  let l := to_ascii_lowercase s in
  if bool_decide (l ∈ ["forward"; "fwd"; "f"]) then Ok Forward
  else if bool_decide (l ∈ ["inverse"; "inv"; "backward"; "i"]) then Ok Inverse
  else Err (map_str ("direction must be 'forward' or 'inverse' (got " +:+ debug_str l +:+ ")")).
Definition kind_from_str (s : string) : result FftKind PyErr :=
  let l := to_ascii_lowercase s in
  if bool_decide (l = "r2c") then Ok R2C
  else if bool_decide (l = "c2r") then Ok C2R
  else if bool_decide (l = "c2c") then Ok C2C
  else if bool_decide (l = "d2z") then Ok D2Z
  else if bool_decide (l = "z2d") then Ok Z2D
  else if bool_decide (l = "z2z") then Ok Z2Z
  else Err (map_str ("kind must be one of r2c|c2r|c2c|d2z|z2d|z2z (got " +:+ debug_str l +:+ ")")).

Definition plan_key_from_dims (nx : Z) (ny nz : option Z) (kind : FftKind) (batch : Z) : result PlanKey PyErr :=
  if (nx <=? 0)%Z then fails "nx must be >= 1"
  else if (batch <=? 0)%Z then fails "batch must be >= 1"
  else match ny, nz with
  | None, _ => Ok (plan_1d nx kind batch)
  | Some ny, None => if (ny <=? 0)%Z then fails "ny must be >= 1" else Ok (plan_2d nx ny kind)
  | Some ny, Some nz =>
    if (ny <=? 0)%Z || (nz <=? 0)%Z then fails "ny and nz must be >= 1" else Ok (plan_3d nx ny nz kind)
  end.

(** The checks that [plan_key_from_many] and [r2c_output_len_many] share. *)
Definition check_rank (rank batch : Z) (n : list Z) : result unit PyErr :=
  if negb ((1 <=? rank)%Z && (rank <=? 3)%Z) then fails ("rank must be 1, 2, or 3 (got " +:+ pretty rank +:+ ")")
  else if (batch <=? 0)%Z then fails "batch must be >= 1"
  else if negb (Z.of_nat (length n) =? rank)%Z
  then fails ("n must have length rank=" +:+ pretty rank +:+ " (got " +:+ pretty (length n) +:+ ")")
  else if existsb (λ d, (d <=? 0)%Z) n then fails "every n[i] must be >= 1"
  else Ok tt.
Definition check_embed (what : string) (rank : Z) (e : option (list Z)) : result unit PyErr :=
  match e with
  | None => Ok tt
  | Some e =>
    if negb (Z.of_nat (length e) =? rank)%Z
    then fails (what +:+ " must have length rank=" +:+ pretty rank +:+ " (got " +:+ pretty (length e) +:+ ")")
    else Ok tt
  end.
(** Three slots, the unused ones zero. *)
Definition pad3 (l : list Z) : Z * Z * Z := (nth 0 l 0, nth 1 l 0, nth 2 l 0)%Z.

Section keys.
Context (sip : list Z → Z).

Definition plan_key_from_many (rank : Z) (n : list Z) (inembed : option (list Z)) (istride idist : Z)
    (onembed : option (list Z)) (ostride odist : Z) (kind : FftKind) (batch : Z) : result PlanKey PyErr :=
  and_then (check_rank rank batch n) (λ _,
  and_then (check_embed "inembed" rank inembed) (λ _,
  and_then (check_embed "onembed" rank onembed) (λ _,
  if (istride <=? 0)%Z || (ostride <=? 0)%Z then fails "istride and ostride must be >= 1"
  else Ok (many_key sip {| m_rank := rank; m_dims := pad3 n;
    in_embed := pad3 <$> inembed; in_stride := istride; in_dist := idist;
    out_embed := pad3 <$> onembed; out_stride := ostride; out_dist := odist; m_kind := kind; m_batch := batch |})))).
End keys.

(** ** Asks of two actors *)

Inductive PyMsg : Type := ToDevice (m : DeviceMsg) | ToFft (m : FftMsg).
Abbreviation prep := (act Gpu (PyEff PyMsg) (result (Request PyMsg) PyErr)).
Abbreviation pyact := (act Gpu (PyEff PyMsg)).
Abbreviation method := (nat → Awaited Value → act Gpu (PyEff PyMsg) (result Value PyErr)).

(** *** Typed buffers *)

Definition required (b : option PyGpuBuffer) (what : string) : result PyGpuBuffer PyErr :=
  match b with Some b => Ok b | None => fails what end.
Definition low_kind (k : FftKind) : string := to_ascii_lowercase (fft_kind_name k).

(** [exec_typed_blocking], up to the ask. *)
Definition exec_request (key : PlanKey) (d : FftDirection) (src dst : GpuRef) : prep :=
  request (λ tx, ToFft (Exec {| plan_key := key; direction := d; input := src; output := dst; fft_reply := tx |})).

(** The match on the kind; without [complex_buf_out] a complex transform is in place: its
    target is another clone of its source. *)
Definition exec_kind (key : PlanKey) (kind : FftKind) (d : FftDirection) (real_buf complex_buf complex_buf_out : option PyGpuBuffer) : prep :=
  let needs s := low_kind kind +:+ " requires " +:+ s in
  match kind with
  | R2C | D2Z =>
    try (required real_buf (needs "real_buf (input)")) (λ r,
    try (required complex_buf (needs "complex_buf (output)")) (λ c,
    borrowed "real_buf" r (λ r, borrowed "complex_buf" c (λ c, exec_request key d r c))))
  | C2R | Z2D =>
    try (required complex_buf (needs "complex_buf (input)")) (λ c,
    try (required real_buf (needs "real_buf (output)")) (λ r,
    borrowed "complex_buf" c (λ c, borrowed "real_buf" r (λ r, exec_request key d c r))))
  | C2C | Z2Z =>
    try (required complex_buf (needs "complex_buf (input)")) (λ src,
    borrowed "complex_buf" src (λ s,
    match complex_buf_out with
    | Some o => borrowed "complex_buf_out" o (λ t, exec_request key d s t)
    | None => borrowed "complex_buf" src (λ t, exec_request key d s t)
    end))
  end.

(** The element types of a method; [label] names it without its suffix. *)
Definition check_lane (label : string) (T : DType) (kind : FftKind) : result unit PyErr :=
  let '(own, other) := match T with F32 => ("f32", "f64") | _ => ("f64", "f32") end in
  if bool_decide (scalar_dtype kind = T) then Ok tt
  else fails (label +:+ "_" +:+ own +:+ ": kind " +:+ fft_kind_name kind +:+ " is not on the " +:+ own +:+ " lane (use "
              +:+ label +:+ "_" +:+ other +:+ ")").

Definition exec_typed (T : DType) (kind : string) (real_buf complex_buf complex_buf_out : option PyGpuBuffer)
    (direction : string) (nx ny nz : option Z) (batch : Z) : prep :=
  try (kind_from_str kind) (λ kind,
  try (direction_from_str direction) (λ dir,
  try (check_lane "exec_typed" T kind) (λ _,
  try (match nx with Some nx => Ok nx | None => fails "nx is required" end) (λ nx,
  try (plan_key_from_dims nx ny nz kind batch) (λ key,
  exec_kind key kind dir real_buf complex_buf complex_buf_out))))).

Definition exec_plan_many (sip : list Z → Z) (T : DType) (real_buf complex_buf complex_buf_out : option PyGpuBuffer)
    (rank : Z) (n : list Z) (inembed : option (list Z)) (istride idist : Z) (onembed : option (list Z))
    (ostride odist batch : Z) (kind direction : string) : prep :=
  try (kind_from_str kind) (λ kind,
  try (direction_from_str direction) (λ dir,
  try (check_lane "exec_plan_many" T kind) (λ _,
  try (plan_key_from_many sip rank n inembed istride idist onembed ostride odist kind batch) (λ key,
  exec_kind key kind dir real_buf complex_buf complex_buf_out)))).

Definition asks (timeout_secs : f64) (p : prep) : method := blocking "fft" "fft exec" timeout_secs p.

Definition exec_typed_f32 kind real_buf complex_buf complex_buf_out direction nx ny nz batch timeout_secs : method :=
  asks timeout_secs (exec_typed F32 kind real_buf complex_buf complex_buf_out direction nx ny nz batch).
Definition exec_typed_f64 kind real_buf complex_buf complex_buf_out direction nx ny nz batch timeout_secs : method :=
  asks timeout_secs (exec_typed F64 kind real_buf complex_buf complex_buf_out direction nx ny nz batch).
Definition exec_plan_many_f32 sip real_buf complex_buf complex_buf_out rank n inembed istride idist onembed ostride odist
    batch kind direction timeout_secs : method :=
  asks timeout_secs (exec_plan_many sip F32 real_buf complex_buf complex_buf_out rank n inembed istride idist onembed
    ostride odist batch kind direction).
Definition exec_plan_many_f64 sip real_buf complex_buf complex_buf_out rank n inembed istride idist onembed ostride odist
    batch kind direction timeout_secs : method :=
  asks timeout_secs (exec_plan_many sip F64 real_buf complex_buf complex_buf_out rank n inembed istride idist onembed
    ostride odist batch kind direction).

(** *** Output lengths *)

Definition r2c_output_len (n : Z) : result Z PyErr :=
  if (n <=? 0)%Z then fails "n must be >= 1" else Ok (n `div` 2 + 1)%Z.
Definition r2c_output_len_2d (nx ny : Z) : result Z PyErr :=
  if (nx <=? 0)%Z || (ny <=? 0)%Z then fails "nx and ny must be >= 1" else Ok (wmul 64 nx (ny `div` 2 + 1)).
Definition r2c_output_len_3d (nx ny nz : Z) : result Z PyErr :=
  if (nx <=? 0)%Z || (ny <=? 0)%Z || (nz <=? 0)%Z then fails "nx, ny, nz must each be >= 1"
  else Ok (wmul 64 (wmul 64 nx ny) (nz `div` 2 + 1)).
Definition sat_mul (x y : Z) : Z := Z.min (2 ^ 64 - 1) (x * y).
Definition r2c_output_len_many (rank : Z) (n : list Z) (batch odist : Z) : result Z PyErr :=
  and_then (check_rank rank batch n) (λ _,
  let half := (List.last n 0 `div` 2 + 1)%Z in
  let natural_per_batch := foldl sat_mul half (take (length n - 1) n) in
  let natural_total := sat_mul natural_per_batch batch in
  let by_odist := sat_mul (Z.max odist 0) batch in
  Ok (Z.max natural_total by_odist)).

(** *** One-shot transforms *)

Definition f32_slice_to_bytes (src : list Z) : list Z := src ≫= le_bytes 4.
Definition complex32_slice_to_bytes (src : list (Z * Z)) : list Z := src ≫= λ c, le_bytes 4 c.1 ++ le_bytes 4 c.2.
Fixpoint bytes_to_f32_vec (bytes : list Z) : list Z :=
  match bytes with
  | a :: b :: c :: d :: bytes => from_le [a; b; c; d] :: bytes_to_f32_vec bytes
  | _ => []
  end.
Fixpoint bytes_to_complex32_vec (bytes : list Z) : list (Z * Z) :=
  match bytes with
  | a :: b :: c :: d :: a' :: b' :: c' :: d' :: bytes =>
    (from_le [a; b; c; d], from_le [a'; b'; c'; d']) :: bytes_to_complex32_vec bytes
  | _ => []
  end.

Definition alloc_u8_blocking (len : Z) (timeout_secs : f64) (tx : nat) (aw : Awaited GpuRef) : pyact (result GpuRef PyErr) :=
  ask "device" "fft alloc" timeout_secs
    (ToDevice (Alloc {| al_dtype := U8; al_len := Z.to_nat len; al_reply := tx |})) aw.
Definition upload_bytes_blocking (dst : GpuRef) (bytes : list Z) (timeout_secs : f64) (tx : nat) (aw : Awaited HostBuf) :
    pyact (result GpuRef PyErr) :=
  r ← ask "device" "fft upload" timeout_secs
    (ToDevice (CopyFromHost {| fh_dtype := U8; fh_src := Owned bytes; fh_dst := dst; fh_reply := tx |})) aw;
  mret (match r with Ok _ => Ok dst | Err e => Err e end).
Definition exec_fft_blocking (key : PlanKey) (d : FftDirection) (src dst : GpuRef) (timeout_secs : f64) (tx : nat)
    (aw : Awaited Value) : pyact (result Value PyErr) :=
  ask "fft" "fft exec" timeout_secs
    (ToFft (Exec {| plan_key := key; direction := d; input := src; output := dst; fft_reply := tx |})) aw.
Definition download_bytes_blocking (src : GpuRef) (len : Z) (timeout_secs : f64) (tx : nat) (aw : Awaited HostBuf) :
    pyact (result (list Z) PyErr) :=
  r ← ask "device" "fft download" timeout_secs
    (ToDevice (CopyToHost {| th_dtype := U8; th_src := src; th_dst := Owned (replicate (Z.to_nat len) 0%Z); th_reply := tx |})) aw;
  mret (match r with Ok (Owned v) => Ok v | Ok (Pinned _) => fails "unexpected pinned reply" | Err e => Err e end).

(** What the five asks of a call come to; their channels are [tx] and the next ones. *)
Record Answers := {
  src_answer : Awaited GpuRef;
  dst_answer : Awaited GpuRef;
  upload_answer : Awaited HostBuf;
  exec_answer : Awaited Value;
  download_answer : Awaited HostBuf;
}.

Definition one_shot (key : PlanKey) (d : FftDirection) (in_bytes : list Z) (in_len out_len : Z) (timeout_secs : f64)
    (tx : nat) (aw : Answers) : pyact (result (list Z) PyErr) :=
  bindr (alloc_u8_blocking in_len timeout_secs tx (src_answer aw)) (λ src,
  bindr (alloc_u8_blocking out_len timeout_secs (tx + 1) (dst_answer aw)) (λ dst,
  bindr (upload_bytes_blocking src in_bytes timeout_secs (tx + 2) (upload_answer aw)) (λ src,
  bindr (exec_fft_blocking key d src dst timeout_secs (tx + 3) (exec_answer aw)) (λ _,
  download_bytes_blocking dst out_len timeout_secs (tx + 4) (download_answer aw))))).

(** [n] of a one-dimensional transform of an array of length [total]. *)
Definition one_dim (total : Z) (n : option Z) (batch : Z) : result Z PyErr :=
  match n with
  | Some n => Ok n
  | None =>
    if negb (total `mod` batch =? 0)%Z
    then fails ("src length " +:+ pretty total +:+ " not divisible by batch " +:+ pretty batch)
    else Ok (as_i32 (total `div` batch))
  end.
(** [n >= 1] and the length [n * batch]. *)
Definition check_total (total n batch : Z) : result unit PyErr :=
  if (n <=? 0)%Z then fails "n must be >= 1"
  else if negb (total =? wmul 64 n batch)%Z
  then fails ("src length " +:+ pretty total +:+ " != n * batch (" +:+ pretty n +:+ " * " +:+ pretty batch +:+ " = "
              +:+ pretty (wmul 64 n batch) +:+ ")")
  else Ok tt.

Definition forward_1d_r2c_f32 (src : result (list Z) string) (n : option Z) (batch : Z) (timeout_secs : f64)
    (tx : nat) (aw : Answers) : pyact (result (list (Z * Z)) PyErr) :=
  try (host src) (λ src,
  try (check (batch <=? 0)%Z "batch must be >= 1") (λ _,
  try (one_dim (usize_len src) n batch) (λ n,
  try (check_total (usize_len src) n batch) (λ _,
  let total_out := wmul 64 (n `div` 2 + 1) batch in
  mapr bytes_to_complex32_vec
    (one_shot (plan_1d n R2C batch) Forward (f32_slice_to_bytes src) (wmul 64 (usize_len src) 4) (wmul 64 total_out 8)
       timeout_secs tx aw))))).
Definition inverse_1d_c2r_f32 (src : result (list (Z * Z)) string) (n batch : Z) (timeout_secs : f64)
    (tx : nat) (aw : Answers) : pyact (result (list Z) PyErr) :=
  try (check (n <=? 0)%Z "n must be >= 1") (λ _,
  try (check (batch <=? 0)%Z "batch must be >= 1") (λ _,
  try (host src) (λ src,
  let n_in_per_batch := (n `div` 2 + 1)%Z in
  let expected_in := wmul 64 n_in_per_batch batch in
  try (check (negb (usize_len src =? expected_in)%Z)
    ("src length " +:+ pretty (usize_len src) +:+ " != (n/2+1) * batch (" +:+ pretty n_in_per_batch +:+ " * "
     +:+ pretty batch +:+ " = " +:+ pretty expected_in +:+ ")")) (λ _,
  let total_out := wmul 64 n batch in
  mapr bytes_to_f32_vec
    (one_shot (plan_1d n C2R batch) Inverse (complex32_slice_to_bytes src) (wmul 64 expected_in 8) (wmul 64 total_out 4)
       timeout_secs tx aw))))).
Definition exec_1d_c2c_f32 (src : result (list (Z * Z)) string) (direction : string) (n : option Z) (batch : Z)
    (timeout_secs : f64) (tx : nat) (aw : Answers) : pyact (result (list (Z * Z)) PyErr) :=
  try (direction_from_str direction) (λ dir,
  try (check (batch <=? 0)%Z "batch must be >= 1") (λ _,
  try (host src) (λ src,
  try (one_dim (usize_len src) n batch) (λ n,
  try (check_total (usize_len src) n batch) (λ _,
  let bytes_len := wmul 64 (usize_len src) 8 in
  mapr bytes_to_complex32_vec
    (one_shot (plan_1d n C2C batch) dir (complex32_slice_to_bytes src) bytes_len bytes_len timeout_secs tx aw)))))).
Definition forward_2d_r2c_f32 (src : result (list Z) string) (nx ny : Z) (timeout_secs : f64)
    (tx : nat) (aw : Answers) : pyact (result (list (Z * Z)) PyErr) :=
  try (check ((nx <=? 0)%Z || (ny <=? 0)%Z) "nx and ny must be >= 1") (λ _,
  try (host src) (λ src,
  let total_in := wmul 64 nx ny in
  try (check (negb (usize_len src =? total_in)%Z)
    ("src length " +:+ pretty (usize_len src) +:+ " != nx * ny (" +:+ pretty nx +:+ " * " +:+ pretty ny +:+ " = "
     +:+ pretty total_in +:+ ")")) (λ _,
  let total_out := wmul 64 nx (ny `div` 2 + 1) in
  mapr bytes_to_complex32_vec
    (one_shot (plan_2d nx ny R2C) Forward (f32_slice_to_bytes src) (wmul 64 total_in 4) (wmul 64 total_out 8)
       timeout_secs tx aw)))).

(** ** What they do *)

(** *** Keys *)

(** A key is made exactly of positive dimensions; beyond one dimension the batch is lost,
    and without [ny], [nz] is. *)
Lemma plan_key_dims nx ny nz kind batch k : plan_key_from_dims nx ny nz kind batch = Ok k ↔
  (0 < nx ∧ 0 < batch)%Z ∧
  match ny, nz with
  | None, _ => k = plan_1d nx kind batch
  | Some ny, None => (0 < ny)%Z ∧ k = plan_2d nx ny kind
  | Some ny, Some nz => (0 < ny ∧ 0 < nz)%Z ∧ k = plan_3d nx ny nz kind
  end.
Proof.
  unfold plan_key_from_dims, fails. destruct (Z.leb_spec nx 0); [split; [done|lia]|].
  destruct (Z.leb_spec batch 0); [split; [done|lia]|].
  destruct ny as [ny|]; [destruct nz as [nz|]|].
  - destruct (Z.leb_spec ny 0), (Z.leb_spec nz 0); cbn; split; try done; try lia.
    + by intros [= <-].
    + by intros (_ & _ & ->).
  - destruct (Z.leb_spec ny 0); split; try done; try lia.
    + by intros [= <-].
    + by intros (_ & _ & ->).
  - split; [by intros [= <-]|by intros (_ & ->)].
Qed.

Lemma check_rank_ok rank batch n : check_rank rank batch n = Ok tt ↔
  (1 ≤ rank ≤ 3)%Z ∧ (0 < batch)%Z ∧ Z.of_nat (length n) = rank ∧ Forall (Z.lt 0) n.
Proof.
  unfold check_rank, fails.
  destruct (Z.leb_spec 1 rank), (Z.leb_spec rank 3); cbn; try (split; [done|lia]).
  destruct (Z.leb_spec batch 0); [split; [done|lia]|].
  destruct (Z.eqb_spec (Z.of_nat (length n)) rank); cbn; [|split; [done|lia]].
  assert (Hn : existsb (λ d, (d <=? 0)%Z) n = false ↔ Forall (Z.lt 0) n).
  { rewrite Forall_forall. split.
    - intros Hx d Hd. destruct (Z.leb_spec d 0); [|done].
      assert (existsb (λ d, (d <=? 0)%Z) n = true); [|congruence].
      apply existsb_exists. exists d. split; [by apply list_elem_of_In|by apply Z.leb_le].
    - intros Hx. destruct (existsb _ n) eqn:He; [|done]. apply existsb_exists in He as (d & Hd & Hle).
      apply list_elem_of_In in Hd. apply Hx in Hd. lia. }
  destruct (existsb _ n) eqn:He; split; try done.
  - intros (_ & _ & _ & HF). by apply Hn in HF.
  - intros _. split_and!; [lia..|]. by apply Hn.
Qed.

Lemma plan_key_many_ok sip rank n e1 s1 d1 e2 s2 d2 kind batch k :
  plan_key_from_many sip rank n e1 s1 d1 e2 s2 d2 kind batch = Ok k →
  check_rank rank batch n = Ok tt ∧ Fft.rank k = rank ∧ dims k = pad3 n ∧ Fft.kind k = kind ∧ Fft.batch k = batch.
Proof.
  unfold plan_key_from_many, and_then. destruct (check_rank rank batch n) as [[]|] eqn:Hr; [|done].
  destruct (check_embed _ _ e1); [|done]. destruct (check_embed _ _ e2); [|done].
  destruct (_ || _); [done|]. by intros [= <-].
Qed.

(** The plan that cuFFT gets for a layout does not have its strides, distances and
    embeddings; with two or three dimensions it does not have its batch either. *)
Theorem plan_many_layout_ignored sip rank n kind batch batch' e1 s1 d1 e2 s2 d2 e1' s1' d1' e2' s2' d2' k k' :
  plan_key_from_many sip rank n e1 s1 d1 e2 s2 d2 kind batch = Ok k →
  plan_key_from_many sip rank n e1' s1' d1' e2' s2' d2' kind batch' = Ok k' →
  (rank = 1%Z → batch = batch') → build_simple_plan k = build_simple_plan k'.
Proof.
  intros (Hc & Hr & Hd & Hk & Hb)%plan_key_many_ok (_ & Hr' & Hd' & Hk' & Hb')%plan_key_many_ok Hone.
  apply check_rank_ok in Hc as (Hrank & _). unfold build_simple_plan. rewrite Hr, Hr', Hd, Hd', Hk, Hk', Hb, Hb'.
  unfold pad3. destruct (Z.eqb_spec rank 1); [by rewrite Hone|]. by repeat case_match.
Qed.

(** A batch of eight strided columns is planned as one packed 4×4 transform. *)
Example strided_batch_ignored sip :
  match plan_key_from_many sip 2 [4; 4]%Z None 8 1 None 8 1 C2C 8 with
  | Ok k => build_simple_plan k = build_simple_plan (plan_2d 4 4 C2C)
  | Err _ => False
  end.
Proof. done. Qed.

(** *** Output lengths *)

(** The lengths agree where they do not overflow. *)
Lemma output_lengths nx ny nz : (0 < nx ∧ 0 < ny ∧ 0 < nz)%Z → (nx * ny * (nz `div` 2 + 1) < 2 ^ 64)%Z →
  r2c_output_len nz = Ok (nz `div` 2 + 1)%Z ∧
  r2c_output_len_3d nx ny nz = Ok (nx * ny * (nz `div` 2 + 1))%Z ∧
  r2c_output_len_many 3 [nx; ny; nz] 1 0 = Ok (nx * ny * (nz `div` 2 + 1))%Z.
Proof.
  intros (Hx & Hy & Hz) Hb. assert (Hh : (1 ≤ nz `div` 2 + 1)%Z) by (pose proof (Z.div_pos nz 2); lia).
  assert (Hxy : (nx * ny < 2 ^ 64)%Z) by nia.
  split_and!.
  - unfold r2c_output_len. destruct (Z.leb_spec nz 0); [lia|done].
  - unfold r2c_output_len_3d. destruct (Z.leb_spec nx 0), (Z.leb_spec ny 0), (Z.leb_spec nz 0); try lia. cbn.
    unfold wmul. by rewrite !wrap_small by (unfold in_width; rewrite ?wrap_small by (unfold in_width; nia); nia).
  - unfold r2c_output_len_many.
    rewrite (proj2 (check_rank_ok 3 1 [nx; ny; nz])) by (split_and!; [lia..|done|by repeat constructor]).
    cbn [and_then length List.last take Nat.sub foldl]. unfold sat_mul.
    assert (Hs : (nx * (nz `div` 2 + 1) < 2 ^ 64)%Z) by nia. f_equal. nia.
Qed.
(** Beyond, one wraps where the other saturates. *)
Example output_length_wraps : let n := (2 ^ 31 - 1)%Z in
  r2c_output_len_3d n n n = Ok (2 ^ 64 - 2 ^ 62 + 2 ^ 30)%Z ∧ r2c_output_len_many 3 [n; n; n] 1 0 = Ok (2 ^ 64 - 1)%Z.
Proof. by vm_compute. Qed.

(** *** Bytes *)

Lemma f32_bytes_round_trip l : Forall (in_width 32) l → bytes_to_f32_vec (f32_slice_to_bytes l) = l.
Proof.
  induction 1 as [|x l Hx _ IH]; [done|].
  trans (from_le (le_bytes 4 x) :: bytes_to_f32_vec (f32_slice_to_bytes l)); [done|].
  by rewrite IH, from_le_bytes.
Qed.
Lemma complex32_bytes_round_trip l : Forall (λ c, in_width 32 c.1 ∧ in_width 32 c.2) l →
  bytes_to_complex32_vec (complex32_slice_to_bytes l) = l.
Proof.
  induction 1 as [|[x y] l [Hx Hy] _ IH]; [done|].
  trans ((from_le (le_bytes 4 x), from_le (le_bytes 4 y)) :: bytes_to_complex32_vec (complex32_slice_to_bytes l)); [done|].
  by rewrite IH, !from_le_bytes.
Qed.
Lemma f32_bytes_length l : usize_len (f32_slice_to_bytes l) = (usize_len l * 4)%Z.
Proof.
  unfold usize_len. induction l as [|x l IH]; [done|]. unfold f32_slice_to_bytes in *.
  rewrite bind_cons, length_app, le_bytes_length. cbn [length]. lia.
Qed.
Lemma complex32_bytes_length l : usize_len (complex32_slice_to_bytes l) = (usize_len l * 8)%Z.
Proof.
  unfold usize_len. induction l as [|x l IH]; [done|]. unfold complex32_slice_to_bytes in *.
  rewrite bind_cons, !length_app, !le_bytes_length. cbn [length]. lia.
Qed.

(** *** Typed calls *)

(** The buffers of a transform, source first. *)
Definition kind_bufs (kind : FftKind) (real_buf complex_buf complex_buf_out : option PyGpuBuffer) : list PyGpuBuffer :=
  match kind with
  | R2C | D2Z => option_list real_buf ++ option_list complex_buf
  | C2R | Z2D => option_list complex_buf ++ option_list real_buf
  | C2C | Z2Z => option_list complex_buf ++ option_list (match complex_buf_out with Some o => Some o | None => complex_buf end)
  end.
(** The request is [Exec] with this key and direction, over these two references. *)
Definition executes (key : PlanKey) (d : FftDirection) (rs : list GpuRef) (mk : Request PyMsg) : Prop :=
  ∃ src dst, rs = [src; dst] ∧
    ∀ tx, mk tx = ToFft (Exec {| plan_key := key; direction := d; input := src; output := dst; fft_reply := tx |}).

Lemma exec_kind_prepares key kind d r c o :
  prepares (exec_kind key kind d r c o) (kind_bufs kind r c o) (executes key d).
Proof.
  unfold exec_kind, kind_bufs, required, exec_request.
  destruct kind, r, c, o; cbn [option_list app]; prep_method; simplify_eq; try done; prep_method;
    by eexists _, _.
Qed.

Lemma exec_typed_prepares T ks r c o ds nx ny nz batch :
  prepares (exec_typed T ks r c o ds nx ny nz batch)
    (match kind_from_str ks with Ok kind => kind_bufs kind r c o | Err _ => [] end)
    (λ rs mk, ∃ kind d nx' key, kind_from_str ks = Ok kind ∧ direction_from_str ds = Ok d ∧ scalar_dtype kind = T ∧
       nx = Some nx' ∧ plan_key_from_dims nx' ny nz kind batch = Ok key ∧ executes key d rs mk).
Proof.
  unfold exec_typed. apply prep_try. intros kind Hk. rewrite Hk. apply prep_try. intros d Hd.
  apply prep_try. intros [] Hl. apply prep_try. intros nx' Hn. apply prep_try. intros key Hkey.
  eapply prep_mono, exec_kind_prepares. intros rs mk He. exists kind, d, nx', key. split_and!; try done.
  - unfold check_lane, fails in Hl. destruct (match T with F32 => _ | _ => _ end). by case_bool_decide.
  - destruct nx as [nx0|]; [by injection Hn as ->|done].
Qed.

(** A typed call raises without effect, or tells the cuFFT actor one request with the
    named kind, direction and dimensions over clones of its buffers.  The actor does not
    ask for a target of its own: with a plan and valid buffers, cuFFT is called. *)
Theorem python_fft {C : Type} `{LruLaws PlanKey PlanCall C} plan_answer answer early T ks r c o ds nx ny nz batch
    timeout tx aw g (cache : C) :
  let bs := match kind_from_str ks with Ok kind => kind_bufs kind r c o | Err _ => [] end in
  Forall (live g) bs → ginv early g →
  (∃ e, asks timeout (exec_typed T ks r c o ds nx ny nz batch) tx aw g = (Err e, g, [])) ∨
  (∃ src dst kind d nx' key g', inner <$> bs = [Some src; Some dst] ∧
     kind_from_str ks = Ok kind ∧ direction_from_str ds = Ok d ∧ scalar_dtype kind = T ∧ nx = Some nx' ∧
     plan_key_from_dims nx' ny nz kind batch = Ok key ∧
     let m := Exec {| plan_key := key; direction := d; input := src; output := dst; fft_reply := tx |} in
     asks timeout (exec_typed T ks r c o ds nx ny nz batch) tx aw g = (finish "fft" "fft exec" timeout aw, g', [Tell (ToFft m)]) ∧
     ∀ plan l, resolve_plan plan_answer cache key = Ok plan → access_list (dev g) [src; dst] = Ok l →
       answer (exec_call plan (Fft.kind key) d src dst) = None →
       Enqueue (exec_call plan (Fft.kind key) d src dst) ∈ (exec (fft_handle plan_answer answer m) (Real cache, g')).2).
Proof.
  intros bs Hl Hg.
  destruct (blocking_spec "fft" "fft exec" timeout _ _ _ tx aw g
    (exec_typed_prepares T ks r c o ds nx ny nz batch) Hl) as [He|(rs & mk & Hrs & Hq & Hb)]; [by left|].
  right. destruct Hq as (kind & d & nx' & key & H1 & H2 & H3 & H4 & H5 & src & dst & -> & Hmk).
  eexists src, dst, kind, d, nx', key, _. split_and!; try done. cbv zeta. rewrite Hmk in Hb. split; [exact Hb|].
  intros plan l Hp Ha Hans. destruct (clones_heap g [slice src; slice dst]) as [Hheap Hdev].
  pose proof (live_holds early g bs [src; dst] Hg Hl Hrs) as Hh. apply Forall_cons in Hh as [Hs Hd].
  apply Forall_cons in Hd as [Hd _].
  pose proof (fft_outcome plan_answer answer cache
    (Exec {| plan_key := key; direction := d; input := src; output := dst; fft_reply := tx |})
    (foldl (flip clone_ref) g [slice src; slice dst])) as Ho.
  cbn [msg_src msg_dst msg_key plan_key input output direction] in Ho. rewrite Hheap, Hdev, Hp, Ha, Hans in Ho.
  by destruct (Ho Hs Hd) as [_ ?].
Qed.

(** *** One-shot calls *)

(** [m] raises, and whatever it told, it told nothing to the cuFFT actor. *)
Definition raises_early {A} (m : pyact (result A PyErr)) : Prop := ∀ g,
  ∃ e es, m g = (Err e, g, es) ∧ ∀ fm, Tell (ToFft fm) ∉ es.

Lemma try_raises {A B} (r : result A PyErr) (k : A → pyact (result B PyErr)) :
  (∀ a, r = Ok a → raises_early (k a)) → raises_early (try r k).
Proof.
  intros Hk g. destruct r as [a|e]; [by apply Hk|]. exists e, []. split; [done|]. intros fm. apply not_elem_of_nil.
Qed.
Lemma mapr_raises {A B} (f : A → B) (m : pyact (result A PyErr)) : raises_early m → raises_early (mapr f m).
Proof.
  intros Hm g. destruct (Hm g) as (e & es & He & Hn). exists e, es. split; [|done].
  unfold mapr, bindr. act_unfold. rewrite He. cbn. by rewrite app_nil_r.
Qed.
(** An ask of the device that comes to [r], and what follows it. *)
Lemma ask_raises {A B} (m : pyact (result A PyErr)) (r : result A PyErr) dm (k : A → pyact (result B PyErr)) :
  (∀ g, m g = (r, g, [Tell (ToDevice dm)])) → (∀ a, r = Ok a → raises_early (k a)) → raises_early (bindr m k).
Proof.
  intros Hm Hk g. unfold bindr. act_unfold. rewrite Hm. destruct (try_raises r k Hk g) as (e & es & He & Hn).
  rewrite He. exists e, (Tell (ToDevice dm) :: es). split; [done|].
  intros fm [?|?]%elem_of_cons; [done|by eapply Hn].
Qed.

Section one_shot.
Context (F : Features) (dr : Driver) (c : Ctx) (st : stream_id) (timeout_secs : f64) (tx : nat) (aw : Answers).
Context (Hst : cstream c = Some st).
(** The buffer the device allocated is alive when the upload reaches the context, and the
    upload is answered, if at all, with what the context answers. *)
Context (Hsrc : ∀ src, src_answer aw = Answered (Ok src) → holds (ContextActor.heap c) src).
Context (Hup : ∀ src bytes r c',
  context_handle F dr (FromDevice (CtxCopyFromHost
    {| fh_dtype := U8; fh_src := Owned bytes; fh_dst := src; fh_reply := tx + 2 |})) c = (Ok (), c', [ReplyHost (tx + 2) r]) →
  src_answer aw = Answered (Ok src) → ∀ r', upload_answer aw = Answered r' → r' = r).

Lemma upload_refused src (bytes : list Z) v : src_answer aw = Answered (Ok src) →
  finish "device" "fft upload" timeout_secs (upload_answer aw) ≠ Ok v.
Proof.
  intros Hs. unfold finish. destruct (duration_error _); [done|].
  destruct (upload_answer aw) as [r'| |] eqn:Hu; [|done..].
  destruct (h2d_never_enqueues F dr c st
    {| fh_dtype := U8; fh_src := Owned bytes; fh_dst := src; fh_reply := tx + 2 |} Hst (Hsrc src Hs)) as (e & c' & Hc & _).
  by rewrite (Hup _ _ _ _ Hc Hs _ eq_refl).
Qed.

Lemma one_shot_raises key d bytes in_len out_len : raises_early (one_shot key d bytes in_len out_len timeout_secs tx aw).
Proof.
  unfold one_shot.
  eapply (ask_raises _ (finish "device" "fft alloc" timeout_secs (src_answer aw))); [done|]. intros src Hs.
  eapply (ask_raises _ (finish "device" "fft alloc" timeout_secs (dst_answer aw))); [done|]. intros dst _.
  eapply (ask_raises _ (match finish "device" "fft upload" timeout_secs (upload_answer aw) with Ok _ => Ok src | Err e => Err e end));
    [done|].
  intros s. assert (Hs' : src_answer aw = Answered (Ok src)).
  { unfold finish in Hs. destruct (duration_error _); [done|]. destruct (src_answer aw) as [[] | |]; try done.
    by injection Hs as ->. }
  destruct (finish "device" "fft upload" timeout_secs (upload_answer aw)) as [v|] eqn:Hv; [|done].
  by apply (upload_refused src bytes) in Hv.
Qed.

(** No one-shot transform ever returns or reaches cuFFT: the context refuses every upload. *)
Theorem one_shot_never_returns srcf srcc dir n n' nx ny batch :
  raises_early (forward_1d_r2c_f32 srcf n batch timeout_secs tx aw) ∧
  raises_early (inverse_1d_c2r_f32 srcc n' batch timeout_secs tx aw) ∧
  raises_early (exec_1d_c2c_f32 srcc dir n batch timeout_secs tx aw) ∧
  raises_early (forward_2d_r2c_f32 srcf nx ny timeout_secs tx aw).
Proof.
  split_and!; repeat (apply try_raises; intros ? _); apply mapr_raises, one_shot_raises.
Qed.
End one_shot.

(** The buffers have the sizes of the arrays that go in and come out. *)
Lemma forward_1d_sizes src n batch : (usize_len src < 2 ^ 60)%Z → (0 < batch)%Z → (0 < n < 2 ^ 31)%Z → (batch < 2 ^ 31)%Z →
  check_total (usize_len src) n batch = Ok tt →
  wmul 64 (usize_len src) 4 = usize_len (f32_slice_to_bytes src) ∧
  wmul 64 (wmul 64 (n `div` 2 + 1) batch) 8 = ((n `div` 2 + 1) * batch * 8)%Z.
Proof.
  intros Hl Hb Hn Hb' Hc. rewrite f32_bytes_length. unfold check_total, fails in Hc.
  destruct (Z.leb_spec n 0); [done|]. destruct (Z.eqb_spec (usize_len src) (wmul 64 n batch)) as [He|]; [|done].
  assert (Hw : wmul 64 n batch = (n * batch)%Z) by (unfold wmul; apply wrap_small; unfold in_width; nia).
  rewrite Hw in He. assert (H0 : (0 ≤ usize_len src)%Z) by (unfold usize_len; lia).
  assert (Hp : (0 ≤ n `div` 2)%Z) by (apply Z.div_pos; lia).
  assert (Ht : ((n `div` 2 + 1) * batch < 2 ^ 60)%Z).
  { destruct (Z.eq_dec n 1%Z) as [->|Hn1]; [change (1 `div` 2)%Z with 0%Z; lia|].
    assert (n `div` 2 < n)%Z by (apply Z.div_lt; lia). nia. }
  unfold wmul. rewrite (wrap_small 64 ((n `div` 2 + 1) * batch)) by (unfold in_width; nia).
  split; apply wrap_small; unfold in_width; nia.
Qed.
