(* ===== verification/PyCudnn.v ===== *)
(** * The Python bridge: [Cudnn]

    Models [crates/atomr-accel-py/src/cudnn.rs]: the names of the enumerations, the
    methods that ask the cuDNN actor of [Cudnn.v], all over [f32] and packed [NCHW], and
    the two builders, whose object keeps references of its own until a dispatch takes
    them.  The optional references of a builder are a map from its fields' names. *)

From S2P Require Import Prelude Actor Text Float64 Errors Dtype DeviceState Envelope Lru CudnnGraph Cudnn Python.

Abbreviation prep := (act Gpu (PyEff CudnnMsg) (result (Request CudnnMsg) PyErr)).
Abbreviation method := (nat → Awaited Value → act Gpu (PyEff CudnnMsg) (result Value PyErr)).
Abbreviation async := (act Gpu (PyEff CudnnMsg) (result (Future CudnnMsg) PyErr)).

(** ** Names *)

Definition pool_mode_from_str (s : string) : result PoolMode PyErr :=
  if bool_decide (s ∈ ["max"; "Max"]) then Ok PMax
  else if bool_decide (s ∈ ["avg"; "average"; "Avg"; "AverageInclude"; "average_include"]) then Ok PAvg
  else if bool_decide (s ∈ ["avg_exclude_padding"; "AvgExcludePadding"; "AverageExclude"; "average_exclude"])
  then Ok PAvgExcludePadding
  else fails ("unknown pool mode: " +:+ s).
Definition softmax_mode_from_str (s : string) : result SoftmaxMode PyErr :=
  if bool_decide (s ∈ ["channel"; "Channel"]) then Ok SChannel
  else if bool_decide (s ∈ ["instance"; "Instance"]) then Ok SInstance
  else fails ("unknown softmax mode: " +:+ s).
Definition activation_kind_from_str (s : string) : result ActivationKind PyErr :=
  if bool_decide (s ∈ ["relu"; "Relu"]) then Ok ARelu
  else if bool_decide (s ∈ ["sigmoid"; "Sigmoid"]) then Ok ASigmoid
  else if bool_decide (s ∈ ["tanh"; "Tanh"]) then Ok ATanh
  else if bool_decide (s ∈ ["gelu"; "Gelu"]) then Ok AGelu
  else if bool_decide (s ∈ ["gelu_approx"; "GeluApprox"]) then Ok AGeluApprox
  else if bool_decide (s ∈ ["swish"; "Swish"; "silu"]) then Ok ASwish
  else if bool_decide (s ∈ ["elu"; "Elu"]) then Ok AElu
  else if bool_decide (s ∈ ["softplus"; "Softplus"]) then Ok ASoftplus
  else if bool_decide (s ∈ ["identity"; "Identity"]) then Ok AIdentity
  else fails ("unknown activation kind: " +:+ s).
Definition norm_phase_from_str (s : string) : result NormPhase PyErr :=
  if bool_decide (s ∈ ["train"; "training"; "Training"]) then Ok Training
  else if bool_decide (s ∈ ["inference"; "Inference"; "eval"]) then Ok Inference
  else if bool_decide (s ∈ ["persistent"; "PersistentTraining"; "persistent_training"]) then Ok PersistentTraining
  else fails ("unknown norm phase: " +:+ s).
Definition norm_mode_from_str (s : string) : result NormMode PyErr :=
  if bool_decide (s ∈ ["batch"; "BatchNorm"; "batch_norm"]) then Ok BatchNorm
  else if bool_decide (s ∈ ["layer"; "LayerNorm"; "layer_norm"]) then Ok LayerNorm
  else if bool_decide (s ∈ ["instance"; "InstanceNorm"; "instance_norm"]) then Ok InstanceNorm
  else if bool_decide (s ∈ ["group"; "GroupNorm"; "group_norm"]) then Ok GroupNorm
  else if bool_decide (s ∈ ["rms"; "RmsNorm"; "rms_norm"]) then Ok RmsNorm
  else fails ("unknown norm mode: " +:+ s).
Definition rnn_mode_from_str (s : string) : result RnnMode PyErr :=
  if bool_decide (s ∈ ["rnn"; "Rnn"; "rnn_relu"]) then Ok Rnn
  else if bool_decide (s ∈ ["rnn_tanh"; "RnnTanh"]) then Ok RnnTanh
  else if bool_decide (s ∈ ["lstm"; "Lstm"; "LSTM"]) then Ok Lstm
  else if bool_decide (s ∈ ["gru"; "Gru"; "GRU"]) then Ok Gru
  else fails ("unknown rnn mode: " +:+ s).
Definition rnn_direction_from_str (s : string) : result RnnDirection PyErr :=
  if bool_decide (s ∈ ["uni"; "unidirectional"; "Unidirectional"]) then Ok Unidirectional
  else if bool_decide (s ∈ ["bi"; "bidirectional"; "Bidirectional"]) then Ok Bidirectional
  else fails ("unknown rnn direction: " +:+ s).
Definition attention_mask_from_str (s : string) (window : Z) : result AttentionMask PyErr :=
  if bool_decide (s ∈ ["none"; "None"]) then Ok MNone
  else if bool_decide (s ∈ ["causal"; "Causal"]) then Ok MCausal
  else if bool_decide (s ∈ ["sliding_window"; "SlidingWindow"]) then Ok (MSlidingWindow window)
  else if bool_decide (s ∈ ["causal_sliding_window"; "CausalSlidingWindow"]) then Ok (MCausalSlidingWindow window)
  else fails ("unknown attention mask: " +:+ s).

(** ** Preparing the requests *)

Abbreviation Shape4 := (Z * Z * Z * Z)%type.
Definition dims4 (s : Shape4) : list Z := let '(a, b, c, d) := s in [a; b; c; d].
Definition list2 (p : Z * Z) : list Z := [p.1; p.2].
Definition conv_desc (pad stride dilation : Z * Z) (groups : Z) : ConvDescParams :=
  {| spatial_dims := 2; pre_padding := list2 pad; post_padding := list2 pad; Cudnn.stride := list2 stride;
     Cudnn.dilation := list2 dilation; Cudnn.groups := groups |}.
Definition pool_params (mode : PoolMode) (kernel stride pad : Z * Z) : PoolParams :=
  {| p_mode := mode; window := list2 kernel; p_pre_padding := list2 pad; p_post_padding := list2 pad;
     p_stride := list2 stride |}.
Definition rnn_params (mode : RnnMode) (direction : RnnDirection)
    (num_layers input_size hidden_size seq_length batch_size dropout : Z) : RnnParams :=
  {| r_mode := mode; Cudnn.direction := direction; Cudnn.num_layers := num_layers; Cudnn.input_size := input_size;
     Cudnn.hidden_size := hidden_size; Cudnn.seq_length := seq_length; Cudnn.batch_size := batch_size; r_dropout := dropout |}.
(** [1.0 / (head_dim as f64).sqrt()] when no scale is given. *)
Definition attn_params (batch seq_q seq_kv heads_q heads_kv head_dim : Z) (mask : AttentionMask) (scale : option f64)
    (dropout dropout_seed : Z) : AttentionParams :=
  {| Cudnn.batch := batch; Cudnn.seq_q := seq_q; Cudnn.seq_kv := seq_kv; Cudnn.heads_q := heads_q;
     Cudnn.heads_kv := heads_kv; Cudnn.head_dim := head_dim; Cudnn.mask := mask;
     Cudnn.scale := default (f64_div (f64_of_Z 1) (f64_sqrt (f64_of_Z head_dim))) scale;
     Cudnn.dropout := dropout; Cudnn.dropout_seed := dropout_seed |}.

Definition conv2d_fwd (x w y : PyGpuBuffer) (x_shape w_shape y_shape : Shape4) (pad stride dilation : Z * Z)
    (groups alpha beta : Z) : prep :=
  borrowed "x" x (λ x,
  borrowed "w" w (λ w,
  borrowed "y" y (λ y,
  request (λ tx, Op (BConvFwd {|
    cf_dtype := F32; cf_x := x; cf_x_dims := dims4 x_shape; cf_w := w; cf_w_dims := dims4 w_shape; cf_y := y;
    cf_y_dims := dims4 y_shape; cf_bias := None; cf_conv := conv_desc pad stride dilation groups;
    cf_layout := NchwPacked; cf_epilogue := ENone; cf_alpha := alpha; cf_beta := beta; cf_reply := tx |}))))).
Definition conv2d_bwd_data (dy w dx : PyGpuBuffer) (dy_shape w_shape dx_shape : Shape4)
    (pad stride dilation : Z * Z) (groups alpha beta : Z) : prep :=
  borrowed "dy" dy (λ dy,
  borrowed "w" w (λ w,
  borrowed "dx" dx (λ dx,
  request (λ tx, Op (BConvBwdData {|
    cd_dtype := F32; cd_dy := dy; cd_dy_dims := dims4 dy_shape; cd_w := w; cd_w_dims := dims4 w_shape;
    cd_dx := dx; cd_dx_dims := dims4 dx_shape; cd_conv := conv_desc pad stride dilation groups;
    cd_layout := NchwPacked; cd_alpha := alpha; cd_beta := beta; cd_reply := tx |}))))).
Definition conv2d_bwd_filter (x dy dw : PyGpuBuffer) (x_shape dy_shape dw_shape : Shape4)
    (pad stride dilation : Z * Z) (groups alpha beta : Z) : prep :=
  borrowed "x" x (λ x,
  borrowed "dy" dy (λ dy,
  borrowed "dw" dw (λ dw,
  request (λ tx, Op (BConvBwdFilter {|
    cw_dtype := F32; cw_x := x; cw_x_dims := dims4 x_shape; cw_dy := dy; cw_dy_dims := dims4 dy_shape;
    cw_dw := dw; cw_dw_dims := dims4 dw_shape; cw_conv := conv_desc pad stride dilation groups;
    cw_layout := NchwPacked; cw_alpha := alpha; cw_beta := beta; cw_reply := tx |}))))).
Definition pool2d_fwd (x y : PyGpuBuffer) (x_shape y_shape : Shape4) (kernel stride pad : Z * Z) (mode : string)
    (alpha beta : Z) : prep :=
  try (pool_mode_from_str mode) (λ mode,
  borrowed "x" x (λ x,
  borrowed "y" y (λ y,
  request (λ tx, Op (BPoolFwd {|
    pf_dtype := F32; pf_x := x; pf_y := y; pf_x_dims := dims4 x_shape; pf_y_dims := dims4 y_shape;
    pf_layout := NchwPacked; pf_params := pool_params mode kernel stride pad; pf_alpha := alpha;
    pf_beta := beta; pf_reply := tx |}))))).
Definition pool2d_bwd (x y dy dx : PyGpuBuffer) (x_shape y_shape : Shape4) (kernel stride pad : Z * Z)
    (mode : string) (alpha beta : Z) : prep :=
  try (pool_mode_from_str mode) (λ mode,
  borrowed "x" x (λ x,
  borrowed "y" y (λ y,
  borrowed "dy" dy (λ dy,
  borrowed "dx" dx (λ dx,
  request (λ tx, Op (BPoolBwd {|
    pb_dtype := F32; pb_x := x; pb_y := y; pb_dy := dy; pb_dx := dx; pb_x_dims := dims4 x_shape;
    pb_y_dims := dims4 y_shape; pb_layout := NchwPacked; pb_params := pool_params mode kernel stride pad;
    pb_alpha := alpha; pb_beta := beta; pb_reply := tx |}))))))).
Definition softmax_fwd (x y : PyGpuBuffer) (dims : list Z) (mode : string) (alpha beta : Z) : prep :=
  try (softmax_mode_from_str mode) (λ mode,
  borrowed "x" x (λ x,
  borrowed "y" y (λ y,
  request (λ tx, Op (BSoftmaxFwd {|
    sf_dtype := F32; sf_mode := mode; sf_x := x; sf_y := y; sf_dims := dims; sf_layout := NchwPacked;
    sf_alpha := alpha; sf_beta := beta; sf_reply := tx |}))))).
Definition activation_fwd (x y : PyGpuBuffer) (dims : list Z) (kind : string) (alpha beta : Z) : prep :=
  try (activation_kind_from_str kind) (λ kind,
  borrowed "x" x (λ x,
  borrowed "y" y (λ y,
  request (λ tx, Op (BActivationFwd {|
    af_dtype := F32; af_kind := kind; af_x := x; af_y := y; af_dims := dims; af_layout := NchwPacked;
    af_alpha := alpha; af_beta := beta; af_reply := tx |}))))).
Definition batch_norm (x y scale bias : PyGpuBuffer) (dims : list Z)
    (running_mean running_var saved_mean saved_var : option PyGpuBuffer) (phase : string) (epsilon exp_avg_factor : Z) : prep :=
  try (norm_phase_from_str phase) (λ phase,
  borrowed "x" x (λ x,
  borrowed "y" y (λ y,
  borrowed "scale" scale (λ scale,
  borrowed "bias" bias (λ bias,
  borrowed_opt "running_mean" running_mean (λ running_mean,
  borrowed_opt "running_var" running_var (λ running_var,
  borrowed_opt "saved_mean" saved_mean (λ saved_mean,
  borrowed_opt "saved_var" saved_var (λ saved_var,
  request (λ tx, Op (BBatchNorm {|
    bn_dtype := F32; bn_phase := phase; bn_x := x; bn_y := y; bn_scale := scale; bn_bias := bias;
    bn_running_mean := running_mean; bn_running_var := running_var; bn_saved_mean := saved_mean;
    bn_saved_var := saved_var; bn_dims := dims; bn_layout := NchwPacked; bn_epsilon := epsilon;
    bn_exp_avg_factor := exp_avg_factor; bn_reply := tx |}))))))))))).
Definition layer_norm (x y scale bias : PyGpuBuffer) (dims norm_axes : list Z)
    (saved_mean saved_var : option PyGpuBuffer) (epsilon : Z) : prep :=
  borrowed "x" x (λ x,
  borrowed "y" y (λ y,
  borrowed "scale" scale (λ scale,
  borrowed "bias" bias (λ bias,
  borrowed_opt "saved_mean" saved_mean (λ saved_mean,
  borrowed_opt "saved_var" saved_var (λ saved_var,
  request (λ tx, Op (BLayerNorm {|
    ln_dtype := F32; ln_x := x; ln_y := y; ln_scale := scale; ln_bias := bias; ln_saved_mean := saved_mean;
    ln_saved_var := saved_var; ln_dims := dims; ln_norm_axes := norm_axes; ln_layout := NchwPacked;
    ln_epsilon := epsilon; ln_reply := tx |})))))))).
Definition instance_norm (x y scale bias : PyGpuBuffer) (dims : list Z)
    (saved_mean saved_var : option PyGpuBuffer) (epsilon : Z) : prep :=
  borrowed "x" x (λ x,
  borrowed "y" y (λ y,
  borrowed "scale" scale (λ scale,
  borrowed "bias" bias (λ bias,
  borrowed_opt "saved_mean" saved_mean (λ saved_mean,
  borrowed_opt "saved_var" saved_var (λ saved_var,
  request (λ tx, Op (BInstanceNorm {|
    inm_dtype := F32; inm_x := x; inm_y := y; inm_scale := scale; inm_bias := bias;
    inm_saved_mean := saved_mean; inm_saved_var := saved_var; inm_dims := dims; inm_layout := NchwPacked;
    inm_epsilon := epsilon; inm_reply := tx |})))))))).
Definition group_norm (x y scale bias : PyGpuBuffer) (dims : list Z) (groups : Z)
    (saved_mean saved_var : option PyGpuBuffer) (epsilon : Z) : prep :=
  borrowed "x" x (λ x,
  borrowed "y" y (λ y,
  borrowed "scale" scale (λ scale,
  borrowed "bias" bias (λ bias,
  borrowed_opt "saved_mean" saved_mean (λ saved_mean,
  borrowed_opt "saved_var" saved_var (λ saved_var,
  request (λ tx, Op (BGroupNorm {|
    gn_dtype := F32; gn_x := x; gn_y := y; gn_scale := scale; gn_bias := bias; gn_saved_mean := saved_mean;
    gn_saved_var := saved_var; gn_dims := dims; gn_groups := groups; gn_layout := NchwPacked;
    gn_epsilon := epsilon; gn_reply := tx |})))))))).
Definition norm_bwd (x dy scale mean var dx dscale dbias : PyGpuBuffer) (dims : list Z) (mode : string)
    (epsilon : Z) : prep :=
  try (norm_mode_from_str mode) (λ mode,
  borrowed "x" x (λ x,
  borrowed "dy" dy (λ dy,
  borrowed "scale" scale (λ scale,
  borrowed "mean" mean (λ mean,
  borrowed "var" var (λ var,
  borrowed "dx" dx (λ dx,
  borrowed "dscale" dscale (λ dscale,
  borrowed "dbias" dbias (λ dbias,
  request (λ tx, Op (BNormBwd {|
    nb_dtype := F32; nb_mode := mode; nb_x := x; nb_dy := dy; nb_scale := scale; nb_mean := mean;
    nb_var := var; nb_dx := dx; nb_dscale := dscale; nb_dbias := dbias; nb_dims := dims;
    nb_layout := NchwPacked; nb_epsilon := epsilon; nb_reply := tx |}))))))))))).
Definition dropout_fwd (x y mask : PyGpuBuffer) (dims : list Z) (probability seed : Z) : prep :=
  borrowed "x" x (λ x,
  borrowed "y" y (λ y,
  borrowed "mask" mask (λ mask,
  request (λ tx, Op (BDropoutFwd {|
    df_dtype := F32; df_x := x; df_y := y; df_mask := mask; df_dims := dims; df_layout := NchwPacked;
    df_probability := probability; df_seed := seed; df_reply := tx |}))))).
Definition lrn_fwd (x y : PyGpuBuffer) (dims : list Z) (n : Z) (lrn_alpha lrn_beta lrn_k : f64)
    (alpha beta : Z) : prep :=
  borrowed "x" x (λ x,
  borrowed "y" y (λ y,
  request (λ tx, Op (BLrnFwd {|
    lf_dtype := F32; lf_x := x; lf_y := y; lf_dims := dims; lf_layout := NchwPacked;
    lf_params := LrnParams_new n lrn_alpha lrn_beta lrn_k; lf_alpha := alpha; lf_beta := beta; lf_reply := tx |})))).
Definition rnn_fwd (x h_in weights y h_out : PyGpuBuffer) (c_in c_out : option PyGpuBuffer)
    (mode direction : string) (num_layers input_size hidden_size seq_length batch_size dropout : Z) : prep :=
  try (rnn_mode_from_str mode) (λ mode,
  try (rnn_direction_from_str direction) (λ direction,
  borrowed "x" x (λ x,
  borrowed "h_in" h_in (λ h_in,
  borrowed "weights" weights (λ weights,
  borrowed "y" y (λ y,
  borrowed "h_out" h_out (λ h_out,
  borrowed_opt "c_in" c_in (λ c_in,
  borrowed_opt "c_out" c_out (λ c_out,
  request (λ tx, Op (BRnnFwd {|
    rf_dtype := F32; rf_x := x; rf_h_in := h_in; rf_c_in := c_in; rf_weights := weights; rf_y := y;
    rf_h_out := h_out; rf_c_out := c_out; rf_layout := NchwPacked;
    rf_params := rnn_params mode direction num_layers input_size hidden_size seq_length batch_size dropout;
    rf_reply := tx |}))))))))))).
Definition multihead_attn_fwd (q k v o : PyGpuBuffer) (batch seq_q seq_kv heads_q heads_kv head_dim : Z)
    (stats bias : option PyGpuBuffer) (mask : string) (window : Z) (scale : option f64) (dropout dropout_seed : Z) : prep :=
  try (attention_mask_from_str mask window) (λ mask,
  borrowed "q" q (λ q,
  borrowed "k" k (λ k,
  borrowed "v" v (λ v,
  borrowed "o" o (λ o,
  borrowed_opt "stats" stats (λ stats,
  borrowed_opt "bias" bias (λ bias,
  request (λ tx, Op (BMultiHeadAttnFwd {|
    mf_dtype := F32; mf_q := q; mf_k := k; mf_v := v; mf_o := o; mf_stats := stats; mf_bias := bias;
    mf_layout := NchwPacked;
    mf_params := attn_params batch seq_q seq_kv heads_q heads_kv head_dim mask scale dropout dropout_seed;
    mf_reply := tx |}))))))))).

(** ** The methods *)

Definition asks (label : string) (timeout_secs : f64) (p : prep) : method := blocking "cudnn" label timeout_secs p.
Definition later (label : string) (timeout_secs : f64) (p : prep) : async := future "cudnn" label timeout_secs p.

Definition conv2d_fwd_f32 (x w y : PyGpuBuffer) (x_shape w_shape y_shape : Shape4) (pad stride dilation : Z * Z)
    (groups alpha beta : Z) (timeout_secs : f64) : method :=
  asks "conv2d_fwd_f32" timeout_secs (conv2d_fwd x w y x_shape w_shape y_shape pad stride dilation groups alpha beta).
Definition conv2d_fwd_f32_async (x w y : PyGpuBuffer) (x_shape w_shape y_shape : Shape4)
    (pad stride dilation : Z * Z) (groups alpha beta : Z) (timeout_secs : f64) : async :=
  later "conv2d_fwd_f32" timeout_secs (conv2d_fwd x w y x_shape w_shape y_shape pad stride dilation groups alpha beta).
Definition conv2d_bwd_data_f32 (dy w dx : PyGpuBuffer) (dy_shape w_shape dx_shape : Shape4)
    (pad stride dilation : Z * Z) (groups alpha beta : Z) (timeout_secs : f64) : method :=
  asks "conv2d_bwd_data_f32" timeout_secs (conv2d_bwd_data dy w dx dy_shape w_shape dx_shape pad stride dilation groups alpha beta).
Definition conv2d_bwd_data_f32_async (dy w dx : PyGpuBuffer) (dy_shape w_shape dx_shape : Shape4)
    (pad stride dilation : Z * Z) (groups alpha beta : Z) (timeout_secs : f64) : async :=
  later "conv2d_bwd_data_f32" timeout_secs (conv2d_bwd_data dy w dx dy_shape w_shape dx_shape pad stride dilation groups alpha beta).
Definition conv2d_bwd_filter_f32 (x dy dw : PyGpuBuffer) (x_shape dy_shape dw_shape : Shape4)
    (pad stride dilation : Z * Z) (groups alpha beta : Z) (timeout_secs : f64) : method :=
  asks "conv2d_bwd_filter_f32" timeout_secs (conv2d_bwd_filter x dy dw x_shape dy_shape dw_shape pad stride dilation groups alpha beta).
Definition conv2d_bwd_filter_f32_async (x dy dw : PyGpuBuffer) (x_shape dy_shape dw_shape : Shape4)
    (pad stride dilation : Z * Z) (groups alpha beta : Z) (timeout_secs : f64) : async :=
  later "conv2d_bwd_filter_f32" timeout_secs (conv2d_bwd_filter x dy dw x_shape dy_shape dw_shape pad stride dilation groups alpha beta).
Definition pool2d_fwd_f32 (x y : PyGpuBuffer) (x_shape y_shape : Shape4) (kernel stride pad : Z * Z)
    (mode : string) (alpha beta : Z) (timeout_secs : f64) : method :=
  asks "pool2d_fwd_f32" timeout_secs (pool2d_fwd x y x_shape y_shape kernel stride pad mode alpha beta).
Definition pool2d_fwd_f32_async (x y : PyGpuBuffer) (x_shape y_shape : Shape4) (kernel stride pad : Z * Z)
    (mode : string) (alpha beta : Z) (timeout_secs : f64) : async :=
  later "pool2d_fwd_f32" timeout_secs (pool2d_fwd x y x_shape y_shape kernel stride pad mode alpha beta).
Definition pool2d_bwd_f32 (x y dy dx : PyGpuBuffer) (x_shape y_shape : Shape4) (kernel stride pad : Z * Z)
    (mode : string) (alpha beta : Z) (timeout_secs : f64) : method :=
  asks "pool2d_bwd_f32" timeout_secs (pool2d_bwd x y dy dx x_shape y_shape kernel stride pad mode alpha beta).
Definition pool2d_bwd_f32_async (x y dy dx : PyGpuBuffer) (x_shape y_shape : Shape4) (kernel stride pad : Z * Z)
    (mode : string) (alpha beta : Z) (timeout_secs : f64) : async :=
  later "pool2d_bwd_f32" timeout_secs (pool2d_bwd x y dy dx x_shape y_shape kernel stride pad mode alpha beta).
Definition softmax_fwd_f32 (x y : PyGpuBuffer) (dims : list Z) (mode : string) (alpha beta : Z)
    (timeout_secs : f64) : method :=
  asks "softmax_fwd_f32" timeout_secs (softmax_fwd x y dims mode alpha beta).
Definition softmax_fwd_f32_async (x y : PyGpuBuffer) (dims : list Z) (mode : string) (alpha beta : Z)
    (timeout_secs : f64) : async :=
  later "softmax_fwd_f32" timeout_secs (softmax_fwd x y dims mode alpha beta).
Definition activation_fwd_f32 (x y : PyGpuBuffer) (dims : list Z) (kind : string) (alpha beta : Z)
    (timeout_secs : f64) : method :=
  asks "activation_fwd_f32" timeout_secs (activation_fwd x y dims kind alpha beta).
Definition activation_fwd_f32_async (x y : PyGpuBuffer) (dims : list Z) (kind : string) (alpha beta : Z)
    (timeout_secs : f64) : async :=
  later "activation_fwd_f32" timeout_secs (activation_fwd x y dims kind alpha beta).
Definition batch_norm_f32 (x y scale bias : PyGpuBuffer) (dims : list Z)
    (running_mean running_var saved_mean saved_var : option PyGpuBuffer) (phase : string) (epsilon exp_avg_factor : Z) (timeout_secs : f64) : method :=
  asks "batch_norm_f32" timeout_secs (batch_norm x y scale bias dims running_mean running_var saved_mean saved_var phase epsilon exp_avg_factor).
Definition batch_norm_f32_async (x y scale bias : PyGpuBuffer) (dims : list Z)
    (running_mean running_var saved_mean saved_var : option PyGpuBuffer) (phase : string) (epsilon exp_avg_factor : Z) (timeout_secs : f64) : async :=
  later "batch_norm_f32" timeout_secs (batch_norm x y scale bias dims running_mean running_var saved_mean saved_var phase epsilon exp_avg_factor).
Definition layer_norm_f32 (x y scale bias : PyGpuBuffer) (dims norm_axes : list Z)
    (saved_mean saved_var : option PyGpuBuffer) (epsilon : Z) (timeout_secs : f64) : method :=
  asks "layer_norm_f32" timeout_secs (layer_norm x y scale bias dims norm_axes saved_mean saved_var epsilon).
Definition layer_norm_f32_async (x y scale bias : PyGpuBuffer) (dims norm_axes : list Z)
    (saved_mean saved_var : option PyGpuBuffer) (epsilon : Z) (timeout_secs : f64) : async :=
  later "layer_norm_f32" timeout_secs (layer_norm x y scale bias dims norm_axes saved_mean saved_var epsilon).
Definition instance_norm_f32 (x y scale bias : PyGpuBuffer) (dims : list Z)
    (saved_mean saved_var : option PyGpuBuffer) (epsilon : Z) (timeout_secs : f64) : method :=
  asks "instance_norm_f32" timeout_secs (instance_norm x y scale bias dims saved_mean saved_var epsilon).
Definition instance_norm_f32_async (x y scale bias : PyGpuBuffer) (dims : list Z)
    (saved_mean saved_var : option PyGpuBuffer) (epsilon : Z) (timeout_secs : f64) : async :=
  later "instance_norm_f32" timeout_secs (instance_norm x y scale bias dims saved_mean saved_var epsilon).
Definition group_norm_f32 (x y scale bias : PyGpuBuffer) (dims : list Z) (groups : Z)
    (saved_mean saved_var : option PyGpuBuffer) (epsilon : Z) (timeout_secs : f64) : method :=
  asks "group_norm_f32" timeout_secs (group_norm x y scale bias dims groups saved_mean saved_var epsilon).
Definition group_norm_f32_async (x y scale bias : PyGpuBuffer) (dims : list Z) (groups : Z)
    (saved_mean saved_var : option PyGpuBuffer) (epsilon : Z) (timeout_secs : f64) : async :=
  later "group_norm_f32" timeout_secs (group_norm x y scale bias dims groups saved_mean saved_var epsilon).
Definition norm_bwd_f32 (x dy scale mean var dx dscale dbias : PyGpuBuffer) (dims : list Z) (mode : string)
    (epsilon : Z) (timeout_secs : f64) : method :=
  asks "norm_bwd_f32" timeout_secs (norm_bwd x dy scale mean var dx dscale dbias dims mode epsilon).
Definition norm_bwd_f32_async (x dy scale mean var dx dscale dbias : PyGpuBuffer) (dims : list Z) (mode : string)
    (epsilon : Z) (timeout_secs : f64) : async :=
  later "norm_bwd_f32" timeout_secs (norm_bwd x dy scale mean var dx dscale dbias dims mode epsilon).
Definition dropout_fwd_f32 (x y mask : PyGpuBuffer) (dims : list Z) (probability seed : Z)
    (timeout_secs : f64) : method :=
  asks "dropout_fwd_f32" timeout_secs (dropout_fwd x y mask dims probability seed).
Definition dropout_fwd_f32_async (x y mask : PyGpuBuffer) (dims : list Z) (probability seed : Z)
    (timeout_secs : f64) : async :=
  later "dropout_fwd_f32" timeout_secs (dropout_fwd x y mask dims probability seed).
Definition lrn_fwd_f32 (x y : PyGpuBuffer) (dims : list Z) (n : Z) (lrn_alpha lrn_beta lrn_k : f64)
    (alpha beta : Z) (timeout_secs : f64) : method :=
  asks "lrn_fwd_f32" timeout_secs (lrn_fwd x y dims n lrn_alpha lrn_beta lrn_k alpha beta).
Definition lrn_fwd_f32_async (x y : PyGpuBuffer) (dims : list Z) (n : Z) (lrn_alpha lrn_beta lrn_k : f64)
    (alpha beta : Z) (timeout_secs : f64) : async :=
  later "lrn_fwd_f32" timeout_secs (lrn_fwd x y dims n lrn_alpha lrn_beta lrn_k alpha beta).
Definition rnn_fwd_f32 (x h_in weights y h_out : PyGpuBuffer) (c_in c_out : option PyGpuBuffer)
    (mode direction : string) (num_layers input_size hidden_size seq_length batch_size dropout : Z) (timeout_secs : f64) : method :=
  asks "rnn_fwd_f32" timeout_secs (rnn_fwd x h_in weights y h_out c_in c_out mode direction num_layers input_size hidden_size seq_length batch_size dropout).
Definition rnn_fwd_f32_async (x h_in weights y h_out : PyGpuBuffer) (c_in c_out : option PyGpuBuffer)
    (mode direction : string) (num_layers input_size hidden_size seq_length batch_size dropout : Z) (timeout_secs : f64) : async :=
  later "rnn_fwd_f32" timeout_secs (rnn_fwd x h_in weights y h_out c_in c_out mode direction num_layers input_size hidden_size seq_length batch_size dropout).
Definition multihead_attn_fwd_f32 (q k v o : PyGpuBuffer) (batch seq_q seq_kv heads_q heads_kv head_dim : Z)
    (stats bias : option PyGpuBuffer) (mask : string) (window : Z) (scale : option f64) (dropout dropout_seed : Z) (timeout_secs : f64) : method :=
  asks "multihead_attn_fwd_f32" timeout_secs (multihead_attn_fwd q k v o batch seq_q seq_kv heads_q heads_kv head_dim stats bias mask window scale dropout dropout_seed).
Definition multihead_attn_fwd_f32_async (q k v o : PyGpuBuffer) (batch seq_q seq_kv heads_q heads_kv head_dim : Z)
    (stats bias : option PyGpuBuffer) (mask : string) (window : Z) (scale : option f64) (dropout dropout_seed : Z) (timeout_secs : f64) : async :=
  later "multihead_attn_fwd_f32" timeout_secs (multihead_attn_fwd q k v o batch seq_q seq_kv heads_q heads_kv head_dim stats bias mask window scale dropout dropout_seed).

(** ** The builders *)

Record BwdInner (P : Type) := { refs : gmap string GpuRef; scalars : P }.
Arguments refs {_}.
Arguments scalars {_}.

(** A builder, [None] once it is consumed, beside the GPU. *)
Abbreviation bact P := (act (option (BwdInner P) * Gpu) (PyEff CudnnMsg)).
Definition with_inner_mut {P} (what : string) (f : BwdInner P → BwdInner P) : bact P (result unit PyErr) :=
  s ← get;
  match s.1 with
  | None => mret (fails (what +:+ " already consumed"))
  | Some i => put (Some (f i), s.2);; mret (Ok tt)
  end.
Definition drop_opt (r : option GpuRef) (g : Gpu) : Gpu := match r with Some r => drop_ref (slice r) g | None => g end.
(** A setter of a buffer: the builder's clone replaces the one it had, or is dropped. *)
Definition set_ref {P} (what field name : string) (buf : PyGpuBuffer) : bact P (result unit PyErr) :=
  match inner buf with
  | None => mret (fails (name +:+ " consumed"))
  | Some r =>
    modify (λ s, (s.1, clone_ref (slice r) s.2));;
    s ← get;
    match s.1 with
    | None => modify (λ s, (s.1, drop_ref (slice r) s.2));; mret (fails (what +:+ " already consumed"))
    | Some i =>
      put (Some {| refs := <[field := r]> (refs i); scalars := scalars i |}, drop_opt (refs i !! field) s.2);;
      mret (Ok tt)
    end
  end.
Definition set_scalar {P} (what : string) (f : P → P) : bact P (result unit PyErr) :=
  with_inner_mut what (λ i, {| refs := refs i; scalars := f (scalars i) |}).
Definition parsed {P A} (r : result A PyErr) (k : A → bact P (result unit PyErr)) : bact P (result unit PyErr) :=
  match r with Ok a => k a | Err e => mret (Err e) end.
Definition is_consumed {P} (b : option (BwdInner P)) : bool := match b with None => true | Some _ => false end.

Module RnnBwdInputs.

Definition what : string := "RnnBwdInputs".
Definition new : option (BwdInner RnnParams) :=
  Some {| refs := ∅; scalars := rnn_params Lstm Unidirectional 1 0 0 0 0 0 |}.
Definition set_x (buf : PyGpuBuffer) : bact RnnParams (result unit PyErr) := set_ref what "x" "x" buf.
Definition set_y (buf : PyGpuBuffer) : bact RnnParams (result unit PyErr) := set_ref what "y" "y" buf.
Definition set_dy (buf : PyGpuBuffer) : bact RnnParams (result unit PyErr) := set_ref what "dy" "dy" buf.
Definition set_h_in (buf : PyGpuBuffer) : bact RnnParams (result unit PyErr) := set_ref what "h_in" "h_in" buf.
Definition set_c_in (buf : PyGpuBuffer) : bact RnnParams (result unit PyErr) := set_ref what "c_in" "c_in" buf.
Definition set_h_out (buf : PyGpuBuffer) : bact RnnParams (result unit PyErr) := set_ref what "h_out" "h_out" buf.
Definition set_c_out (buf : PyGpuBuffer) : bact RnnParams (result unit PyErr) := set_ref what "c_out" "c_out" buf.
Definition set_dh_out (buf : PyGpuBuffer) : bact RnnParams (result unit PyErr) := set_ref what "dh_out" "dh_out" buf.
Definition set_dc_out (buf : PyGpuBuffer) : bact RnnParams (result unit PyErr) := set_ref what "dc_out" "dc_out" buf.
Definition set_weights (buf : PyGpuBuffer) : bact RnnParams (result unit PyErr) := set_ref what "weights" "weights" buf.
Definition set_dx (buf : PyGpuBuffer) : bact RnnParams (result unit PyErr) := set_ref what "dx" "dx" buf.
Definition set_dh_in (buf : PyGpuBuffer) : bact RnnParams (result unit PyErr) := set_ref what "dh_in" "dh_in" buf.
Definition set_dc_in (buf : PyGpuBuffer) : bact RnnParams (result unit PyErr) := set_ref what "dc_in" "dc_in" buf.
Definition set_dweights (buf : PyGpuBuffer) : bact RnnParams (result unit PyErr) := set_ref what "dweights" "dweights" buf.
Definition set_mode (mode : string) : bact RnnParams (result unit PyErr) :=
  parsed (rnn_mode_from_str mode) (λ m, set_scalar what (λ p,
    rnn_params m (Cudnn.direction p) (Cudnn.num_layers p) (Cudnn.input_size p) (Cudnn.hidden_size p) (Cudnn.seq_length p) (Cudnn.batch_size p) (Cudnn.r_dropout p))).
Definition set_direction (direction : string) : bact RnnParams (result unit PyErr) :=
  parsed (rnn_direction_from_str direction) (λ d, set_scalar what (λ p,
    rnn_params (Cudnn.r_mode p) d (Cudnn.num_layers p) (Cudnn.input_size p) (Cudnn.hidden_size p) (Cudnn.seq_length p) (Cudnn.batch_size p) (Cudnn.r_dropout p))).
Definition set_num_layers (num_layers : Z) : bact RnnParams (result unit PyErr) :=
  set_scalar what (λ p, rnn_params (Cudnn.r_mode p) (Cudnn.direction p) num_layers (Cudnn.input_size p) (Cudnn.hidden_size p) (Cudnn.seq_length p) (Cudnn.batch_size p) (Cudnn.r_dropout p)).
Definition set_input_size (input_size : Z) : bact RnnParams (result unit PyErr) :=
  set_scalar what (λ p, rnn_params (Cudnn.r_mode p) (Cudnn.direction p) (Cudnn.num_layers p) input_size (Cudnn.hidden_size p) (Cudnn.seq_length p) (Cudnn.batch_size p) (Cudnn.r_dropout p)).
Definition set_hidden_size (hidden_size : Z) : bact RnnParams (result unit PyErr) :=
  set_scalar what (λ p, rnn_params (Cudnn.r_mode p) (Cudnn.direction p) (Cudnn.num_layers p) (Cudnn.input_size p) hidden_size (Cudnn.seq_length p) (Cudnn.batch_size p) (Cudnn.r_dropout p)).
Definition set_seq_length (seq_length : Z) : bact RnnParams (result unit PyErr) :=
  set_scalar what (λ p, rnn_params (Cudnn.r_mode p) (Cudnn.direction p) (Cudnn.num_layers p) (Cudnn.input_size p) (Cudnn.hidden_size p) seq_length (Cudnn.batch_size p) (Cudnn.r_dropout p)).
Definition set_batch_size (batch_size : Z) : bact RnnParams (result unit PyErr) :=
  set_scalar what (λ p, rnn_params (Cudnn.r_mode p) (Cudnn.direction p) (Cudnn.num_layers p) (Cudnn.input_size p) (Cudnn.hidden_size p) (Cudnn.seq_length p) batch_size (Cudnn.r_dropout p)).
Definition set_dropout (dropout : Z) : bact RnnParams (result unit PyErr) :=
  set_scalar what (λ p, rnn_params (Cudnn.r_mode p) (Cudnn.direction p) (Cudnn.num_layers p) (Cudnn.input_size p) (Cudnn.hidden_size p) (Cudnn.seq_length p) (Cudnn.batch_size p) dropout).
End RnnBwdInputs.

Module MultiHeadAttnBwdInputs.

(** The scalars, with the scale that may be unset. *)
Record Scalars := {
  m_batch : Z; m_seq_q : Z; m_seq_kv : Z; m_heads_q : Z; m_heads_kv : Z; m_head_dim : Z;
  m_mask : AttentionMask; m_scale : option f64; m_dropout : Z; m_dropout_seed : Z }.
Definition what : string := "MultiHeadAttnBwdInputs".
Definition new : option (BwdInner Scalars) :=
  Some {| refs := ∅; scalars := Build_Scalars 0 0 0 0 0 0 MNone None 0 0 |}.
Definition set_q (buf : PyGpuBuffer) : bact Scalars (result unit PyErr) := set_ref what "q" "q" buf.
Definition set_k (buf : PyGpuBuffer) : bact Scalars (result unit PyErr) := set_ref what "k" "k" buf.
Definition set_v (buf : PyGpuBuffer) : bact Scalars (result unit PyErr) := set_ref what "v" "v" buf.
Definition set_o (buf : PyGpuBuffer) : bact Scalars (result unit PyErr) := set_ref what "o" "o" buf.
Definition set_do (buf : PyGpuBuffer) : bact Scalars (result unit PyErr) := set_ref what "do_" "do" buf.
Definition set_dq (buf : PyGpuBuffer) : bact Scalars (result unit PyErr) := set_ref what "dq" "dq" buf.
Definition set_dk (buf : PyGpuBuffer) : bact Scalars (result unit PyErr) := set_ref what "dk" "dk" buf.
Definition set_dv (buf : PyGpuBuffer) : bact Scalars (result unit PyErr) := set_ref what "dv" "dv" buf.
Definition set_stats (buf : PyGpuBuffer) : bact Scalars (result unit PyErr) := set_ref what "stats" "stats" buf.
Definition set_batch (batch : Z) : bact Scalars (result unit PyErr) :=
  set_scalar what (λ p,
    Build_Scalars batch (m_seq_q p) (m_seq_kv p) (m_heads_q p) (m_heads_kv p) (m_head_dim p) (m_mask p) (m_scale p) (m_dropout p) (m_dropout_seed p)).
Definition set_seq_q (seq_q : Z) : bact Scalars (result unit PyErr) :=
  set_scalar what (λ p,
    Build_Scalars (m_batch p) seq_q (m_seq_kv p) (m_heads_q p) (m_heads_kv p) (m_head_dim p) (m_mask p) (m_scale p) (m_dropout p) (m_dropout_seed p)).
Definition set_seq_kv (seq_kv : Z) : bact Scalars (result unit PyErr) :=
  set_scalar what (λ p,
    Build_Scalars (m_batch p) (m_seq_q p) seq_kv (m_heads_q p) (m_heads_kv p) (m_head_dim p) (m_mask p) (m_scale p) (m_dropout p) (m_dropout_seed p)).
Definition set_heads_q (heads_q : Z) : bact Scalars (result unit PyErr) :=
  set_scalar what (λ p,
    Build_Scalars (m_batch p) (m_seq_q p) (m_seq_kv p) heads_q (m_heads_kv p) (m_head_dim p) (m_mask p) (m_scale p) (m_dropout p) (m_dropout_seed p)).
Definition set_heads_kv (heads_kv : Z) : bact Scalars (result unit PyErr) :=
  set_scalar what (λ p,
    Build_Scalars (m_batch p) (m_seq_q p) (m_seq_kv p) (m_heads_q p) heads_kv (m_head_dim p) (m_mask p) (m_scale p) (m_dropout p) (m_dropout_seed p)).
Definition set_head_dim (head_dim : Z) : bact Scalars (result unit PyErr) :=
  set_scalar what (λ p,
    Build_Scalars (m_batch p) (m_seq_q p) (m_seq_kv p) (m_heads_q p) (m_heads_kv p) head_dim (m_mask p) (m_scale p) (m_dropout p) (m_dropout_seed p)).
Definition set_mask (mask : string) (window : Z) : bact Scalars (result unit PyErr) :=
  parsed (attention_mask_from_str mask window) (λ m, set_scalar what (λ p,
    Build_Scalars (m_batch p) (m_seq_q p) (m_seq_kv p) (m_heads_q p) (m_heads_kv p) (m_head_dim p) m (m_scale p) (m_dropout p) (m_dropout_seed p))).
Definition set_scale (scale : f64) : bact Scalars (result unit PyErr) :=
  set_scalar what (λ p,
    Build_Scalars (m_batch p) (m_seq_q p) (m_seq_kv p) (m_heads_q p) (m_heads_kv p) (m_head_dim p) (m_mask p) (Some scale) (m_dropout p) (m_dropout_seed p)).
Definition set_dropout (dropout : Z) : bact Scalars (result unit PyErr) :=
  set_scalar what (λ p,
    Build_Scalars (m_batch p) (m_seq_q p) (m_seq_kv p) (m_heads_q p) (m_heads_kv p) (m_head_dim p) (m_mask p) (m_scale p) dropout (m_dropout_seed p)).
Definition set_dropout_seed (seed : Z) : bact Scalars (result unit PyErr) :=
  set_scalar what (λ p,
    Build_Scalars (m_batch p) (m_seq_q p) (m_seq_kv p) (m_heads_q p) (m_heads_kv p) (m_head_dim p) (m_mask p) (m_scale p) (m_dropout p) seed).
End MultiHeadAttnBwdInputs.

(** *** Dispatching a builder *)

Definition field {P} (what name key : string) (i : BwdInner P) : result GpuRef PyErr :=
  match refs i !! key with Some g => Ok g | None => fails (what +:+ "." +:+ name +:+ " not set") end.

Definition rnn_bwd_request (i : BwdInner RnnParams) : result (Request CudnnMsg) PyErr :=
  let get name := field RnnBwdInputs.what name name i in
  and_then (get "x") (λ x,
  and_then (get "y") (λ y,
  and_then (get "dy") (λ dy,
  and_then (get "h_in") (λ h_in,
  and_then (get "h_out") (λ h_out,
  and_then (get "dh_out") (λ dh_out,
  and_then (get "weights") (λ weights,
  and_then (get "dx") (λ dx,
  and_then (get "dh_in") (λ dh_in,
  and_then (get "dweights") (λ dweights,
  Ok (λ tx, Op (BRnnBwd {|
    rb_dtype := F32; rb_x := x; rb_y := y; rb_dy := dy; rb_h_in := h_in; rb_c_in := refs i !! "c_in"; rb_h_out := h_out;
    rb_c_out := refs i !! "c_out"; rb_dh_out := dh_out; rb_dc_out := refs i !! "dc_out"; rb_weights := weights; rb_dx := dx;
    rb_dh_in := dh_in; rb_dc_in := refs i !! "dc_in"; rb_dweights := dweights; rb_layout := NchwPacked;
    rb_params := scalars i; rb_reply := tx |})))))))))))).

Definition mha_bwd_request (i : BwdInner MultiHeadAttnBwdInputs.Scalars) : result (Request CudnnMsg) PyErr :=
  let get name key := field MultiHeadAttnBwdInputs.what name key i in
  and_then (get "q" "q") (λ q,
  and_then (get "k" "k") (λ k,
  and_then (get "v" "v") (λ v,
  and_then (get "o" "o") (λ o,
  and_then (get "do" "do_") (λ do_,
  and_then (get "dq" "dq") (λ dq,
  and_then (get "dk" "dk") (λ dk,
  and_then (get "dv" "dv") (λ dv,
  and_then (get "stats" "stats") (λ stats,
  let s := scalars i in
  Ok (λ tx, Op (BMultiHeadAttnBwd {|
    mb_dtype := F32; mb_q := q; mb_k := k; mb_v := v; mb_o := o; mb_do := do_; mb_dq := dq; mb_dk := dk; mb_dv := dv;
    mb_stats := stats; mb_layout := NchwPacked;
    mb_params := attn_params s.(MultiHeadAttnBwdInputs.m_batch) s.(MultiHeadAttnBwdInputs.m_seq_q)
      s.(MultiHeadAttnBwdInputs.m_seq_kv) s.(MultiHeadAttnBwdInputs.m_heads_q) s.(MultiHeadAttnBwdInputs.m_heads_kv)
      s.(MultiHeadAttnBwdInputs.m_head_dim) s.(MultiHeadAttnBwdInputs.m_mask) s.(MultiHeadAttnBwdInputs.m_scale)
      s.(MultiHeadAttnBwdInputs.m_dropout) s.(MultiHeadAttnBwdInputs.m_dropout_seed); mb_reply := tx |}))))))))))).

Definition drop_all {P} (i : BwdInner P) (g : Gpu) : Gpu := foldl (flip drop_ref) g (slice <$> (map_to_list (refs i)).*2).
(** The builder is taken first; when a field is missing all it had is dropped. *)
Definition dispatch {P} (what label : string) (mk : BwdInner P → result (Request CudnnMsg) PyErr) (timeout_secs : f64)
    (tx : nat) (aw : Awaited Value) : bact P (result Value PyErr) :=
  s ← get;
  match s.1 with
  | None => mret (fails (what +:+ " already consumed"))
  | Some i =>
    put (None, s.2);;
    match mk i with
    | Err e => modify (λ s, (s.1, drop_all i s.2));; mret (Err e)
    | Ok r => emit (Tell (r tx));; mret (finish "cudnn" label timeout_secs aw)
    end
  end.
Definition rnn_bwd_f32 (timeout_secs : f64) (tx : nat) (aw : Awaited Value) : bact RnnParams (result Value PyErr) :=
  dispatch RnnBwdInputs.what "rnn_bwd_f32" rnn_bwd_request timeout_secs tx aw.
Definition multihead_attn_bwd_f32 (timeout_secs : f64) (tx : nat) (aw : Awaited Value) :
    bact MultiHeadAttnBwdInputs.Scalars (result Value PyErr) :=
  dispatch MultiHeadAttnBwdInputs.what "multihead_attn_bwd_f32" mha_bwd_request timeout_secs tx aw.

(** ** What the methods do *)

(** [p] prepares an operation over the buffers [bs]. *)
Inductive prepares_op : prep → list PyGpuBuffer → Prop :=
  | is_conv2d_fwd x w y x_shape w_shape y_shape pad stride dilation groups alpha beta :
      prepares_op (conv2d_fwd x w y x_shape w_shape y_shape pad stride dilation groups alpha beta) [x; w; y]
  | is_conv2d_bwd_data dy w dx dy_shape w_shape dx_shape pad stride dilation groups alpha beta :
      prepares_op (conv2d_bwd_data dy w dx dy_shape w_shape dx_shape pad stride dilation groups alpha beta)
        [dy; w; dx]
  | is_conv2d_bwd_filter x dy dw x_shape dy_shape dw_shape pad stride dilation groups alpha beta :
      prepares_op (conv2d_bwd_filter x dy dw x_shape dy_shape dw_shape pad stride dilation groups alpha beta)
        [x; dy; dw]
  | is_pool2d_fwd x y x_shape y_shape kernel stride pad mode alpha beta :
      prepares_op (pool2d_fwd x y x_shape y_shape kernel stride pad mode alpha beta) [x; y]
  | is_pool2d_bwd x y dy dx x_shape y_shape kernel stride pad mode alpha beta :
      prepares_op (pool2d_bwd x y dy dx x_shape y_shape kernel stride pad mode alpha beta) [x; y; dy; dx]
  | is_softmax_fwd x y dims mode alpha beta : prepares_op (softmax_fwd x y dims mode alpha beta) [x; y]
  | is_activation_fwd x y dims kind alpha beta : prepares_op (activation_fwd x y dims kind alpha beta) [x; y]
  | is_batch_norm x y scale bias dims running_mean running_var saved_mean saved_var phase epsilon exp_avg_factor :
      prepares_op (batch_norm x y scale bias dims running_mean running_var saved_mean saved_var phase epsilon exp_avg_factor)
        (x :: y :: scale :: bias :: option_list running_mean ++ option_list running_var ++ option_list saved_mean ++ option_list saved_var ++ [])
  | is_layer_norm x y scale bias dims norm_axes saved_mean saved_var epsilon :
      prepares_op (layer_norm x y scale bias dims norm_axes saved_mean saved_var epsilon)
        (x :: y :: scale :: bias :: option_list saved_mean ++ option_list saved_var ++ [])
  | is_instance_norm x y scale bias dims saved_mean saved_var epsilon :
      prepares_op (instance_norm x y scale bias dims saved_mean saved_var epsilon)
        (x :: y :: scale :: bias :: option_list saved_mean ++ option_list saved_var ++ [])
  | is_group_norm x y scale bias dims groups saved_mean saved_var epsilon :
      prepares_op (group_norm x y scale bias dims groups saved_mean saved_var epsilon)
        (x :: y :: scale :: bias :: option_list saved_mean ++ option_list saved_var ++ [])
  | is_norm_bwd x dy scale mean var dx dscale dbias dims mode epsilon :
      prepares_op (norm_bwd x dy scale mean var dx dscale dbias dims mode epsilon)
        [x; dy; scale; mean; var; dx; dscale; dbias]
  | is_dropout_fwd x y mask dims probability seed :
      prepares_op (dropout_fwd x y mask dims probability seed) [x; y; mask]
  | is_lrn_fwd x y dims n lrn_alpha lrn_beta lrn_k alpha beta :
      prepares_op (lrn_fwd x y dims n lrn_alpha lrn_beta lrn_k alpha beta) [x; y]
  | is_rnn_fwd x h_in weights y h_out c_in c_out mode direction num_layers input_size hidden_size seq_length batch_size dropout :
      prepares_op (rnn_fwd x h_in weights y h_out c_in c_out mode direction num_layers input_size hidden_size seq_length batch_size dropout)
        (x :: h_in :: weights :: y :: h_out :: option_list c_in ++ option_list c_out ++ [])
  | is_multihead_attn_fwd q k v o batch seq_q seq_kv heads_q heads_kv head_dim stats bias mask window scale dropout dropout_seed :
      prepares_op (multihead_attn_fwd q k v o batch seq_q seq_kv heads_q heads_kv head_dim stats bias mask window scale dropout dropout_seed)
        (q :: k :: v :: o :: option_list stats ++ option_list bias ++ []).

Section refused.
Context {C : Type} `{!LruOps PlanCacheKey CachedPlan C}.

#[local] Instance cudnn : KernelActor (S := CudnnInner C) CudnnMsg := cudnn_actor.

Definition cudnn_class (e : GpuError) : Prop := py_class (map_gpu e) = Exn.LibraryError.

Lemma op_refused (pc : PlanCache C) ws o : refuses (Real pc ws) cudnn_class (Op o).
Proof. intros g _. exists (skeleton o). split; [|done]. cbn. by rewrite cudnn_outcome. Qed.

Lemma cudnn_method_refused (pc : PlanCache C) ws p bs : prepares_op p bs →
  prepares p bs (λ rs mk, carries rs mk ∧ ∀ tx, refuses (Real pc ws) cudnn_class (mk tx)).
Proof.
  intros Hp. destruct Hp;
    unfold conv2d_fwd, conv2d_bwd_data, conv2d_bwd_filter, pool2d_fwd, pool2d_bwd, softmax_fwd, activation_fwd, batch_norm,
      layer_norm, instance_norm, group_norm, norm_bwd, dropout_fwd, lrn_fwd, rnn_fwd, multihead_attn_fwd; prep_method;
    (split; [|intros tx'; apply op_refused]); intros tx'; (split; [|done]); cbn;
    repeat match goal with x : option GpuRef |- _ => destruct x end; done.
Qed.

(** A method raises without effect, or tells one request over clones of its buffers and is
    answered with an error; without a GPU its reply is dropped.  None ever returns. *)
Theorem python_cudnn early (pc : PlanCache C) ws label timeout p bs tx aw g :
  prepares_op p bs → Forall (live g) bs → ginv early g →
  (∃ e, asks label timeout p tx aw g = (Err e, g, [])) ∨
  (∃ rs m g', inner <$> bs = Some <$> rs ∧ operands m ≡ₚ rs ∧ reply_of m = tx ∧
     g' = foldl (flip clone_ref) g (slice <$> rs) ∧
     asks label timeout p tx aw g = (finish "cudnn" label timeout aw, g', [Tell m]) ∧
     ∃ e, (exec (khandle m) (Real pc ws, g')).2 = [Reply tx (Err e)] ∧ cudnn_class e).
Proof. intros Hp. by eapply call_refused, cudnn_method_refused. Qed.

Lemma mock_dropped o g : (exec (khandle (Op o)) ((Mock : CudnnInner C), g)).2 = [DropSender (req_reply o)].
Proof. cbn. by rewrite cudnn_outcome. Qed.
End refused.

(** *** Builders *)

(** The references of a builder to a slice. *)
Definition owned (m : gmap string GpuRef) (sl : slice_id) : nat :=
  length (filter (λ r, slice r = sl) (map_to_list m).*2).
Definition owned_by {P} (b : option (BwdInner P)) (sl : slice_id) : nat := from_option (λ i, owned (refs i) sl) 0 b.
(** Beside the handles [base] of everyone else, the GPU counts those of the builder. *)
Definition counted {P} (base : slice_id → nat) (s : option (BwdInner P) * Gpu) : Prop :=
  ∀ sl, handles s.2 sl = base sl + owned_by s.1 sl.

Lemma owned_insert m k r sl : m !! k = None → owned (<[k := r]> m) sl = (if decide (slice r = sl) then 1 else 0) + owned m sl.
Proof.
  intros Hk. unfold owned. rewrite (map_to_list_insert m k r Hk). cbn. by case_decide.
Qed.
Lemma owned_replace m k r sl :
  owned (<[k := r]> m) sl + from_option (λ o, if decide (slice o = sl) then 1 else 0) 0 (m !! k)
  = (if decide (slice r = sl) then 1 else 0) + owned m sl.
Proof.
  destruct (m !! k) as [o|] eqn:Hk; cbn; [|by rewrite owned_insert, Nat.add_0_r].
  rewrite <-(insert_delete_eq m k r), owned_insert by apply lookup_delete_eq.
  rewrite <-(insert_id m k o) at 2 by done. rewrite <-(insert_delete_eq m k o), owned_insert by apply lookup_delete_eq. lia.
Qed.

Lemma handles_drop g sl sl' : handles (drop_ref sl g) sl' = handles g sl' - (if decide (sl = sl') then 1 else 0).
Proof.
  unfold drop_ref. destruct (handles g sl) as [|[|n]] eqn:Hh.
  - case_decide; subst; lia.
  - change (handles (set_heap _ (set_refs (<[sl:=0]> (Envelope.refs g)) g)) sl') with (handles (set_refs (<[sl:=0]> (Envelope.refs g)) g) sl').
    rewrite handles_set. case_decide; subst; lia.
  - rewrite handles_set. case_decide; subst; lia.
Qed.

(** Every setter keeps the count, whatever happens. *)
Lemma set_ref_counted {P} what fld name buf base (s : option (BwdInner P) * Gpu) : counted base s →
  counted base (set_ref what fld name buf s).1.2.
Proof.
  intros Hc sl. specialize (Hc sl). unfold set_ref. destruct (inner buf) as [r|]; [|exact Hc].
  destruct s as [[i|] g]; act_unfold; cbn in *.
  - pose proof (owned_replace (refs i) fld r sl) as Ho. unfold drop_opt. destruct (refs i !! fld) as [o|] eqn:Hk; cbn in *.
    + rewrite handles_drop, handles_clone. assert (Hown : (if decide (slice o = sl) then 1 else 0) ≤ owned (refs i) sl).
      { rewrite <-(insert_id (refs i) fld o) by done. rewrite <-(insert_delete_eq (refs i) fld o), owned_insert by apply lookup_delete_eq.
        lia. }
      destruct (decide (slice r = sl)) as [Hr|], (decide (slice o = sl)); rewrite ?Hr; lia.
    + rewrite handles_clone. destruct (decide (slice r = sl)) as [Hr|]; rewrite ?Hr; lia.
  - rewrite handles_drop, handles_clone. destruct (decide (slice r = sl)) as [Hr|]; rewrite ?Hr; lia.
Qed.
Lemma with_inner_counted {P} what (f : P → P) base (s : option (BwdInner P) * Gpu) : counted base s →
  counted base (set_scalar what f s).1.2.
Proof. intros Hc. unfold set_scalar, with_inner_mut. by destruct s as [[i|] g]. Qed.

Lemma drop_slices l g sl : handles (foldl (flip drop_ref) g l) sl = handles g sl - length (filter (λ x, x = sl) l).
Proof.
  revert g. induction l as [|x l IH]; intros g; [cbn; lia|].
  rewrite (filter_cons (λ x, x = sl)). cbn [foldl]. rewrite IH. unfold flip. rewrite handles_drop.
  repeat case_decide; cbn; lia.
Qed.
Lemma filter_slices (l : list GpuRef) sl : length (filter (λ x, x = sl) (slice <$> l)) = length (filter (λ r, slice r = sl) l).
Proof. induction l as [|r l IH]; [done|].
  rewrite fmap_cons, (filter_cons (λ x, x = sl)), (filter_cons (λ r, slice r = sl)). repeat case_decide; cbn; lia. Qed.

(** A dispatch consumes the builder.  When a field is missing it raises, tells nothing and
    gives back every reference that the builder kept. *)
Theorem dispatch_counted {P} what label (mk : BwdInner P → result (Request CudnnMsg) PyErr) timeout tx aw base i g :
  counted base (Some i, g) →
  let '(r, s, es) := dispatch what label mk timeout tx aw (Some i, g) in
  s.1 = None ∧
  match mk i with
  | Err e => r = Err e ∧ es = [] ∧ ∀ sl, handles s.2 sl = base sl
  | Ok m => r = finish "cudnn" label timeout aw ∧ es = [Tell (m tx)] ∧ ∀ sl, handles s.2 sl = base sl + owned (refs i) sl
  end.
Proof.
  intros Hc. unfold dispatch. act_unfold. destruct (mk i) as [m|e]; cbn; (split_and!; [done..|]); intros sl; [apply Hc|].
  unfold drop_all. rewrite drop_slices, filter_slices. specialize (Hc sl). cbn in Hc. unfold owned in Hc. lia.
Qed.

(** A second dispatch of a builder changes nothing. *)
Lemma dispatch_twice {P} what label (mk : BwdInner P → result (Request CudnnMsg) PyErr) timeout tx aw g :
  dispatch what label mk timeout tx aw (None, g) = (fails (what +:+ " already consumed"), (None, g), []).
Proof. done. Qed.

(** What a dispatch needs of its builder: ten fields of the one, nine of the other. *)
Lemma field_ok {P} what name key (i : BwdInner P) r : field what name key i = Ok r ↔ refs i !! key = Some r.
Proof. unfold field, fails. destruct (refs i !! key); naive_solver. Qed.
Definition rnn_required : list string := ["x"; "y"; "dy"; "h_in"; "h_out"; "dh_out"; "weights"; "dx"; "dh_in"; "dweights"].
Definition mha_required : list string := ["q"; "k"; "v"; "o"; "do_"; "dq"; "dk"; "dv"; "stats"].
Lemma rnn_bwd_ready i : is_ok (rnn_bwd_request i) = true ↔ Forall (λ k, is_Some (refs i !! k)) rnn_required.
Proof.
  unfold rnn_bwd_request, rnn_required, field, fails. rewrite !Forall_cons.
  repeat (case_match; cbn; [|naive_solver (inversion select (is_Some None); done)]). naive_solver.
Qed.

Lemma mha_bwd_ready i : is_ok (mha_bwd_request i) = true ↔ Forall (λ k, is_Some (refs i !! k)) mha_required.
Proof.
  unfold mha_bwd_request, mha_required, field, fails. rewrite !Forall_cons.
  repeat (case_match; cbn; [|naive_solver (inversion select (is_Some None); done)]). naive_solver.
Qed.

(** A builder that lacks one field is lost with all the others. *)
Example incomplete_builder_is_lost buf r g timeout tx aw : inner buf = Some r →
  let s := (RnnBwdInputs.set_x buf (RnnBwdInputs.new, g)).1.2 in
  let '(res, s', es) := rnn_bwd_f32 timeout tx aw s in
  res = fails "RnnBwdInputs.y not set" ∧ es = [] ∧ s'.1 = None ∧
  (RnnBwdInputs.set_y buf s').1.1 = fails "RnnBwdInputs already consumed".
Proof. intros Hb. unfold RnnBwdInputs.set_x, RnnBwdInputs.set_y, set_ref. rewrite Hb. by vm_compute. Qed.

(** *** At a concrete call *)

Definition cudnn_gpu : Gpu := set_heap {[1 := 1; 2 := 1]} (set_refs {[1 := 1; 2 := 1]} (Gpu_new (Some (DeviceState_new 0)))).
Definition cudnn_buffer (sl : slice_id) : PyGpuBuffer := PyGpuBuffer_new PyGpuBufferF32 (GpuRef_new sl (DeviceState_new 0)).

Lemma cudnn_gpu_ginv : ginv false cudnn_gpu.
Proof.
  split; [|by intros _ op ?%elem_of_nil]. intros sl. unfold strong_count, handles. cbn.
  destruct (decide (sl = 1)) as [->|]; [by vm_compute|]. destruct (decide (sl = 2)) as [->|]; [by vm_compute|].
  by rewrite !lookup_insert_ne, !lookup_singleton_ne by done.
Qed.

Lemma dispatch_counted_witness :
  let s := (RnnBwdInputs.set_x (cudnn_buffer 1) (RnnBwdInputs.new, cudnn_gpu)).1.2 in
  ∃ i g, s = (Some i, g) ∧ handles g 1 = 2 ∧ ∃ e g', rnn_bwd_f32 (f64_of_Z 60) 7 Elapsed s = (Err e, (None, g'), []) ∧ handles g' 1 = 1.
Proof.
  eexists _, _. split; [reflexivity|]. split; [reflexivity|].
  pose proof (dispatch_counted RnnBwdInputs.what "rnn_bwd_f32" rnn_bwd_request (f64_of_Z 60) 7 Elapsed
    (λ sl, handles cudnn_gpu sl) {| refs := {["x" := GpuRef_new 1 (DeviceState_new 0)]}; scalars := rnn_params Lstm Unidirectional 1 0 0 0 0 0 |}
    (clone_ref 1 cudnn_gpu)) as H.
  destruct H as (_ & _ & _ & H).
  - intros sl. cbn [fst snd]. rewrite handles_clone. unfold owned_by. cbn [from_option refs].
    rewrite <-insert_empty, owned_insert by done. cbn. destruct (decide (1 = sl)) as [<-|]; [by vm_compute|by rewrite Nat.add_0_r].
  - eexists _, _. split; [reflexivity|]. exact (H 1).
Defined.
