(* ===== verification/PyDevice.v ===== *)
(** * The Python bridge: [System] and [Device]

    Models [crates/atomr-accel-py/src/device.rs] and [system.rs]: the methods ask the
    device actor of [DeviceActor.v] for buffers, copies, products, its load and its kernel
    actors.  The elements of an array are their bits.  The methods of complex buffers are
    those of the other classes at another element type, which the device's requests of
    [DeviceActor.v] do not name, and are left out. *)

From stdpp Require Import pretty.
From S2P Require Import Prelude Actor Text Float64 Errors Dtype DeviceState DeviceActor ContextActor DeviceTree Envelope Blas Python PyBlas.

Abbreviation pyact := (act Gpu (PyEff DeviceMsg)).
Abbreviation prep := (pyact (result (Request DeviceMsg) PyErr)).
Abbreviation async := (pyact (result (Future DeviceMsg) PyErr)).

(** [actor_ref] is the device actor's number. *)
Record PyDevice := { actor_ref : nat; device_id : Z }.

(** ** Opening a system, spawning a device *)

Record PySystem := { sys_name : string }.
Definition system_open (created : result unit string) (name : string) : result PySystem PyErr :=
  match created with Ok _ => Ok {| sys_name := name |} | Err e => fails e end.
Definition spawn_config (id : Z) (mock : bool) : DeviceConfig :=
  if mock then DeviceConfig_mock id else DeviceConfig_new id.
(** [actor_of] is the actor system's answer. *)
Definition spawn_device (actor_of : DeviceConfig → string → result nat string) (id : Z) (name : option string)
    (mock : bool) : result PyDevice PyErr :=
  let actor_name := default ("device-" +:+ pretty id) name in
  match actor_of (spawn_config id mock) actor_name with
  | Ok r => Ok {| actor_ref := r; device_id := id |}
  | Err e => fails e
  end.
Definition system_repr (s : PySystem) : string := "System(name='" +:+ sys_name s +:+ "')".
Definition device_repr (d : PyDevice) : string := "Device(id=" +:+ pretty (device_id d) +:+ ")".

(** ** Allocation *)

Definition alloc_request (T : DType) (len : nat) : Request DeviceMsg :=
  λ tx, Alloc {| al_dtype := T; al_len := len; al_reply := tx |}.
Definition ask_alloc (T : DType) (len : nat) (timeout_secs : f64) (tx : nat) (aw : Awaited GpuRef) :
    pyact (result GpuRef PyErr) :=
  ask "device" "allocate" timeout_secs (alloc_request T len tx) aw.
Definition allocate (T : DType) (c : PyBufferClass) (len : nat) (timeout_secs : f64) (tx : nat) (aw : Awaited GpuRef) :
    pyact (result PyGpuBuffer PyErr) :=
  mapr (PyGpuBuffer_new c) (ask_alloc T len timeout_secs tx aw).
(** [ask_alloc_async] inside [future_into_py], and the future when it is polled. *)
Definition ask_alloc_async (T : DType) (len : nat) (timeout_secs : f64) : async :=
  future "device" "allocate" timeout_secs (request (alloc_request T len)).
Definition poll_allocate (c : PyBufferClass) (f : Future DeviceMsg) (tx : nat) (aw : Awaited GpuRef) :
    pyact (result PyGpuBuffer PyErr) :=
  mapr (PyGpuBuffer_new c) (poll_future f tx aw).

Definition allocate_f32 := allocate F32 PyGpuBufferF32.
Definition allocate_f32_async := ask_alloc_async F32.
Definition allocate_f64 := allocate F64 PyGpuBufferF64.
Definition allocate_f64_async := ask_alloc_async F64.
Definition allocate_i32 := allocate I32 PyGpuBufferI32.
Definition allocate_i32_async := ask_alloc_async I32.
Definition allocate_u32 := allocate U32 PyGpuBufferU32.
Definition allocate_u32_async := ask_alloc_async U32.
Definition allocate_u8 := allocate U8 PyGpuBufferU8.
Definition allocate_u8_async := ask_alloc_async U8.

(** ** Copies *)

Section copies.
Context (slice_len : slice_id → Z).

Definition upload_request (T : DType) (dst : PyGpuBuffer) (src : result (list Z) string) : prep :=
  try (host src) (λ host,
  borrowed "destination buffer has been" dst (λ g,
  try (check (negb (usize_len host =? ref_len slice_len g)%Z)
    ("copy_from_numpy: src len " +:+ pretty (usize_len host) +:+ " != dst len " +:+ pretty (ref_len slice_len g))) (λ _,
  request (λ tx, CopyFromHost {| fh_dtype := T; fh_src := Owned host; fh_dst := g; fh_reply := tx |})))).
Definition copy_from_numpy_typed (T : DType) (dst : PyGpuBuffer) (src : result (list Z) string) (timeout_secs : f64)
    (tx : nat) (aw : Awaited HostBuf) : pyact (result unit PyErr) :=
  mapr (λ _, tt) (blocking "device" "copy_from_numpy" timeout_secs (upload_request T dst src) tx aw).
Definition copy_from_numpy_async_typed (T : DType) (dst : PyGpuBuffer) (src : result (list Z) string) (timeout_secs : f64) : async :=
  future "device" "copy_from_numpy" timeout_secs (upload_request T dst src).
Definition poll_upload (f : Future DeviceMsg) (tx : nat) (aw : Awaited HostBuf) : pyact (result unit PyErr) :=
  mapr (λ _, tt) (poll_future f tx aw).

(** The destination is a vector of zeros as long as the buffer. *)
Definition download_request (T : DType) (src : PyGpuBuffer) : prep :=
  borrowed "source buffer has been" src (λ g,
  request (λ tx, CopyToHost {| th_dtype := T; th_src := g;
    th_dst := Owned (replicate (Z.to_nat (ref_len slice_len g)) 0%Z); th_reply := tx |})).
Definition owned (b : HostBuf) : result (list Z) PyErr :=
  match b with Owned v => Ok v | Pinned _ => fails "unexpected pinned reply" end.
Definition copy_to_numpy_with (T : DType) (src : PyGpuBuffer) (timeout_secs : f64) (tx : nat) (aw : Awaited HostBuf) :
    pyact (result (list Z) PyErr) :=
  bindr (blocking "device" "copy_to_numpy" timeout_secs (download_request T src) tx aw) (λ b, mret (owned b)).
Definition copy_to_numpy_async_with (T : DType) (src : PyGpuBuffer) (timeout_secs : f64) : async :=
  future "device" "copy_to_numpy" timeout_secs (download_request T src).
Definition poll_download (f : Future DeviceMsg) (tx : nat) (aw : Awaited HostBuf) : pyact (result (list Z) PyErr) :=
  bindr (poll_future f tx aw) (λ b, mret (owned b)).

Definition copy_from_numpy := copy_from_numpy_typed F32.
Definition copy_from_numpy_async := copy_from_numpy_async_typed F32.
Definition copy_to_numpy := copy_to_numpy_with F32.
Definition copy_to_numpy_async := copy_to_numpy_async_with F32.
Definition copy_from_numpy_f64 := copy_from_numpy_typed F64.
Definition copy_from_numpy_f64_async := copy_from_numpy_async_typed F64.
Definition copy_to_numpy_f64 := copy_to_numpy_with F64.
Definition copy_to_numpy_f64_async := copy_to_numpy_async_with F64.
Definition copy_from_numpy_i32 := copy_from_numpy_typed I32.
Definition copy_from_numpy_i32_async := copy_from_numpy_async_typed I32.
Definition copy_to_numpy_i32 := copy_to_numpy_with I32.
Definition copy_to_numpy_i32_async := copy_to_numpy_async_with I32.
Definition copy_from_numpy_u32 := copy_from_numpy_typed U32.
Definition copy_from_numpy_u32_async := copy_from_numpy_async_typed U32.
Definition copy_to_numpy_u32 := copy_to_numpy_with U32.
Definition copy_to_numpy_u32_async := copy_to_numpy_async_with U32.
Definition copy_from_numpy_u8 := copy_from_numpy_typed U8.
Definition copy_from_numpy_u8_async := copy_from_numpy_async_typed U8.
Definition copy_to_numpy_u8 := copy_to_numpy_with U8.
Definition copy_to_numpy_u8_async := copy_to_numpy_async_with U8.
End copies.

(** ** The legacy product *)

Definition sgemm_request (a b c : PyGpuBuffer) (m n k alpha beta : Z) : prep :=
  borrowed "a" a (λ a,
  borrowed "b" b (λ b,
  borrowed "c" c (λ c,
  request (λ tx, DeviceActor.Sgemm {| sg_a := a; sg_b := b; sg_c := c; sg_m := m; sg_n := n; sg_k := k; sg_alpha := alpha;
    sg_beta := beta; sg_reply := tx |})))).
Definition sgemm (a b c : PyGpuBuffer) (m n k alpha beta : Z) (timeout_secs : f64) (tx : nat) (aw : Awaited unit) :
    pyact (result unit PyErr) :=
  blocking "device" "sgemm" timeout_secs (sgemm_request a b c m n k alpha beta) tx aw.
Definition sgemm_async (a b c : PyGpuBuffer) (m n k alpha beta : Z) (timeout_secs : f64) : async :=
  future "device" "sgemm" timeout_secs (sgemm_request a b c m n k alpha beta).

(** ** Probes *)

Record DeviceLoadDict := {
  ld_free_bytes : Z; ld_total_bytes : Z; ld_active_streams : Z; ld_queue_depth : Z;
  compute_cap_major : Z; compute_cap_minor : Z;
}.
Definition load_dict (l : DeviceLoad) : DeviceLoadDict :=
  {| ld_free_bytes := free_bytes l; ld_total_bytes := total_bytes l; ld_active_streams := active_streams l;
     ld_queue_depth := queue_depth l; compute_cap_major := (compute_cap l).1; compute_cap_minor := (compute_cap l).2 |}.
Definition load_repr (l : DeviceLoadDict) : string :=
  "DeviceLoad(free=" +:+ pretty (ld_free_bytes l) +:+ ", total=" +:+ pretty (ld_total_bytes l) +:+
  ", streams=" +:+ pretty (ld_active_streams l) +:+ ", queue=" +:+ pretty (ld_queue_depth l) +:+
  ", sm=" +:+ pretty (compute_cap_major l) +:+ "." +:+ pretty (compute_cap_minor l) +:+ ")".

(** The future of [stats_async] is the blocking method's body. *)
Definition stats (timeout_secs : f64) (tx : nat) (got : Got DeviceLoad) : pyact (result DeviceLoadDict PyErr) :=
  mapr load_dict (ask_got "device" "stats" timeout_secs (Stats tx) got).
Definition stats_async (timeout_secs : f64) : async := future "device" "stats" timeout_secs (request Stats).
Definition poll_stats (f : Future DeviceMsg) (tx : nat) (got : Got DeviceLoad) : pyact (result DeviceLoadDict PyErr) :=
  mapr load_dict (ask_got (fut_what f) (fut_label f) (fut_timeout f) (fut_request f tx) got).

Definition snapshot_children (timeout_secs : f64) (tx : nat) (got : Got (option KernelChildren)) :
    pyact (result (option KernelChildren) PyErr) :=
  ask_got "device" "snapshot_children" timeout_secs (SnapshotChildren tx) got.
Definition snapshot_stream (timeout_secs : f64) (tx : nat) (got : Got (option stream_id)) :
    pyact (result (option stream_id) PyErr) :=
  ask_got "device" "snapshot_stream" timeout_secs (SnapshotStream tx) got.

(** The values of the dictionary. *)
Inductive PyVal : Type := PyBool (b : bool) | PyInt (z : Z).

Definition ready_dict (F : Features) (h : registry) (kc : option KernelChildren) : list (string * PyVal) :=
  match kc with
  | Some k =>
    [("blas", PyBool true); ("cudnn", PyBool (feat_cudnn F && is_some (cudnn k)));
     ("cufft", PyBool (feat_cufft F && is_some (fft k))); ("curand", PyBool (feat_curand F && is_some (rng k)));
     ("cusolver", PyBool (feat_cusolver F && is_some (solver k))); ("nvrtc", PyBool (feat_nvrtc F && is_some (nvrtc k)));
     ("extras", PyInt (Z.of_nat (extras_len k h)))]
  | None =>
    [("blas", PyBool false); ("cudnn", PyBool false); ("cufft", PyBool false); ("curand", PyBool false);
     ("cusolver", PyBool false); ("nvrtc", PyBool false); ("extras", PyInt 0); ("ready", PyBool false)]
  end.
Definition libraries_ready (F : Features) (h : registry) (timeout_secs : f64) (tx : nat)
    (got : Got (option KernelChildren)) : pyact (result (list (string * PyVal)) PyErr) :=
  mapr (ready_dict F h) (snapshot_children timeout_secs tx got).

(** ** Handles of the kernel actors *)

Definition require_children (timeout_secs : f64) (tx : nat) (got : Got (option KernelChildren)) :
    pyact (result KernelChildren PyErr) :=
  bindr (snapshot_children timeout_secs tx got) (λ kc,
  mret (match kc with Some k => Ok k | None => fails "device children not ready" end)).
Definition enabled (name : string) (field : KernelChildren → option nat) (timeout_secs : f64) (tx : nat)
    (got : Got (option KernelChildren)) : pyact (result nat PyErr) :=
  bindr (require_children timeout_secs tx got) (λ k,
  mret (match field k with Some h => Ok h | None => fails (name +:+ " actor not enabled on this device") end)).

Module Handle.

Definition blas (timeout_secs : f64) (tx : nat) (got : Got (option KernelChildren)) : pyact (result nat PyErr) :=
  mapr DeviceActor.blas (require_children timeout_secs tx got).
Definition cudnn := enabled "cuDNN" DeviceActor.cudnn.
Definition fft := enabled "cuFFT" DeviceActor.fft.
Definition rng := enabled "cuRAND" DeviceActor.rng.
Definition solver := enabled "cuSOLVER" DeviceActor.solver.
(** The first part of [compile_kernel] and of [compile_kernel_async]. *)
Definition nvrtc := enabled "NVRTC" DeviceActor.nvrtc.
End Handle.

(** ** What the device does with the requests *)

(** A ready device passes work on as it comes. *)
Lemma device_forwards d c k : context_ref d = Some c → children d = Some k →
  (∀ r, handle d (Alloc r) = (d, [TellContext c (CtxAlloc r)])) ∧
  (∀ r, handle d (CopyToHost r) = (d, [TellContext c (CtxCopyToHost r)])) ∧
  (∀ r, handle d (CopyFromHost r) = (d, [TellContext c (CtxCopyFromHost r)])) ∧
  (∀ r, handle d (DeviceActor.Sgemm r) = (d, [TellBlas (DeviceActor.blas k) r])).
Proof.
  intros Hc Hk. unfold handle, device_actor, device_handle, forward_or_stash, exec. act_unfold. cbn.
  by rewrite ?Hc, ?Hk.
Qed.

(** An allocation tells one request; a ready context with a slice to give answers a
    reference that makes the returned buffer one that can be used. *)
Lemma allocate_usable F dr c s sl T cl len timeout tx g :
  cstream c = Some s → mock_mode (cconfig c) = false → accepting_ops (cstate c) = true → drv_alloc dr = Ok sl →
  duration_error timeout = None →
  ∃ r c', context_handle F dr (FromDevice (CtxAlloc {| al_dtype := T; al_len := len; al_reply := tx |})) c =
    (Ok (), c', [ReplyAlloc tx (Ok r)]) ∧
  allocate T cl len timeout tx (Answered (Ok r)) g = (Ok (PyGpuBuffer_new cl r), g, [Tell (alloc_request T len tx)]) ∧
  is_stale (Some (cstate c')) (PyGpuBuffer_new cl r) = false.
Proof.
  intros Hs Hm Ha Hd Ht. eexists _, _. unfold context_handle, AllocReq_run, mint. pact_unfold. rewrite Hm, Hs, Hd.
  split_and!; [done| |].
  - unfold allocate, ask_alloc, ask, mapr, bindr, finish. act_unfold. by rewrite Ht.
  - unfold is_stale, access. cbn. rewrite Ha. cbn. by rewrite Z.eqb_refl.
Qed.

(** Without a GPU an allocation raises [Unrecoverable]. *)
Lemma allocate_mock F dr c T cl len timeout tx g : mock_mode (cconfig c) = true → duration_error timeout = None →
  ∃ e, context_handle F dr (FromDevice (CtxAlloc {| al_dtype := T; al_len := len; al_reply := tx |})) c =
    (Ok (), c, [ReplyAlloc tx (Err e)]) ∧ py_class (map_gpu e) = Exn.Unrecoverable ∧
  allocate T cl len timeout tx (Answered (Err e)) g = (Err (map_gpu e), g, [Tell (alloc_request T len tx)]).
Proof.
  intros Hm Ht. eexists. unfold context_handle, AllocReq_run. pact_unfold. rewrite Hm. split_and!; [done..|].
  unfold allocate, ask_alloc, ask, mapr, bindr, finish. act_unfold. by rewrite Ht.
Qed.

Section copying.
Context (slice_len : slice_id → Z).

Lemma upload_prepares T dst src : prepares (upload_request slice_len T dst src) [dst] (λ rs mk, ∃ r v, rs = [r] ∧ src = Ok v ∧
  usize_len v = ref_len slice_len r ∧
  ∀ tx, mk tx = CopyFromHost {| fh_dtype := T; fh_src := Owned v; fh_dst := r; fh_reply := tx |}).
Proof.
  unfold upload_request. apply prep_try. intros v Hv. apply prep_borrowed. intros r Hr. apply prep_try. intros [] Hc.
  apply prep_request. exists r, v. split_and!; [done| | |done].
  - destruct src as [w|]; cbn in Hv; [by injection Hv as ->|done].
  - unfold check, fails in Hc. by destruct (Z.eqb_spec (usize_len v) (ref_len slice_len r)).
Qed.

(** An upload raises without effect, or tells one copy of the array into a clone of the
    buffer's reference, of equal lengths, and the context answers an error: no upload
    ever returns. *)
Theorem python_upload T dst src timeout tx aw g : live g dst →
  (∃ e, copy_from_numpy_typed slice_len T dst src timeout tx aw g = (Err e, g, [])) ∨
  (∃ r v, inner dst = Some r ∧ src = Ok v ∧ usize_len v = ref_len slice_len r ∧
     let m := {| fh_dtype := T; fh_src := Owned v; fh_dst := r; fh_reply := tx |} in
     copy_from_numpy_typed slice_len T dst src timeout tx aw g =
       (match finish "device" "copy_from_numpy" timeout aw with Ok _ => Ok tt | Err e => Err e end,
        clone_ref (slice r) g, [Tell (CopyFromHost m)]) ∧
     ∀ F dr c s, cstream c = Some s → holds (ContextActor.heap c) r →
       ∃ e c', context_handle F dr (FromDevice (CtxCopyFromHost m)) c = (Ok (), c', [ReplyHost tx (Err e)])).
Proof.
  intros Hl. unfold copy_from_numpy_typed, mapr, bindr.
  destruct (blocking_spec "device" "copy_from_numpy" timeout _ _ _ tx aw g (upload_prepares T dst src))
    as [[e He]|(rs & mk & Hrs & (r & v & -> & -> & Hlen & Hmk) & Hb)]; [by constructor| |].
  - left. exists e. act_unfold. by rewrite He.
  - right. exists r, v. injection Hrs as Hr. split_and!; [done..| |].
    + act_unfold. rewrite Hb, Hmk. cbn. unfold try. by destruct (finish _ _ _ aw).
    + intros F dr c s Hs Hh. destruct (h2d_never_enqueues F dr c s
        {| fh_dtype := T; fh_src := Owned v; fh_dst := r; fh_reply := tx |} Hs Hh) as (e & c' & He & _). by exists e, c'.
Qed.

Lemma download_prepares T src : prepares (download_request slice_len T src) [src] (λ rs mk, ∃ r, rs = [r] ∧
  ∀ tx, mk tx = CopyToHost {| th_dtype := T; th_src := r;
    th_dst := Owned (replicate (Z.to_nat (ref_len slice_len r)) 0%Z); th_reply := tx |}).
Proof.
  unfold download_request. apply prep_borrowed. intros r Hr. apply prep_request. by exists r.
Qed.

(** A download raises without effect, or tells one copy into a vector of the buffer's
    length, and the context that accepts it reads the buffer's elements into the vector:
    they are what the call returns. *)
Theorem python_download T src timeout tx aw g : live g src →
  (∃ e, copy_to_numpy_with slice_len T src timeout tx aw g = (Err e, g, [])) ∨
  (∃ r, inner src = Some r ∧
     let m := {| th_dtype := T; th_src := r; th_dst := Owned (replicate (Z.to_nat (ref_len slice_len r)) 0%Z); th_reply := tx |} in
     (∀ v, duration_error timeout = None → aw = Answered (Ok (Owned v)) →
        copy_to_numpy_with slice_len T src timeout tx aw g = (Ok v, clone_ref (slice r) g, [Tell (CopyToHost m)])) ∧
     ∀ F dr c s sl v, cstream c = Some s → access r (Some (cstate c)) = Ok sl →
       Z.of_nat (ContextActor.slice_len c sl) = ref_len slice_len r → drv_dtoh dr = Ok v →
       ∃ c', context_handle F dr (FromDevice (CtxCopyToHost m)) c = (Ok (), c', [AwaitCopy tx (Owned v) [sl]])).
Proof.
  intros Hl. unfold copy_to_numpy_with, bindr.
  destruct (blocking_spec "device" "copy_to_numpy" timeout _ _ _ tx aw g (download_prepares T src))
    as [[e He]|(rs & mk & Hrs & (r & -> & Hmk) & Hb)]; [by constructor| |].
  - left. exists e. act_unfold. by rewrite He.
  - right. exists r. injection Hrs as Hr. split_and!; [done| |].
    + intros v Ht ->. act_unfold. rewrite Hb, Hmk. cbn. unfold try, finish. by rewrite Ht.
    + intros F dr c s sl v Hs Ha Hn Hd. eexists. unfold context_handle, expect_stream, run_copy_to_host. pact_unfold.
      rewrite Hs, Ha. rewrite length_replicate, <-Hn, Nat2Z.id, Nat.eqb_refl. cbn. by rewrite Hd.
Qed.
End copying.

(** ** The product *)

Lemma sgemm_prepares a b c m n k alpha beta : prepares (sgemm_request a b c m n k alpha beta) [a; b; c] (λ rs mk,
  ∃ ra rb rc, rs = [ra; rb; rc] ∧ ∀ tx, mk tx = DeviceActor.Sgemm {| sg_a := ra; sg_b := rb; sg_c := rc; sg_m := m; sg_n := n;
    sg_k := k; sg_alpha := alpha; sg_beta := beta; sg_reply := tx |}).
Proof. unfold sgemm_request. prep_method. by eexists _, _, _. Qed.

(** What the device passes to cuBLAS is refused: no product ever returns. *)
Theorem python_sgemm answer result_of early a b c m n k alpha beta timeout tx aw g :
  Forall (live g) [a; b; c] → ginv early g →
  (∃ e, sgemm a b c m n k alpha beta timeout tx aw g = (Err e, g, [])) ∨
  (∃ r g', inner <$> [a; b; c] = Some <$> [sg_a r; sg_b r; sg_c r] ∧ sg_reply r = tx ∧
     sgemm a b c m n k alpha beta timeout tx aw g = (finish "device" "sgemm" timeout aw, g', [Tell (DeviceActor.Sgemm r)]) ∧
     ∃ e, (exec (Blas.handle_msg answer result_of (Blas.Sgemm r)) (Real, g')).2 = [Reply tx (Err e)] ∧
       py_class (map_gpu e) ∈ [Exn.Unrecoverable; Exn.GpuRefStale]).
Proof.
  intros Hl Hg. destruct (blocking_spec "device" "sgemm" timeout _ _ _ tx aw g (sgemm_prepares a b c m n k alpha beta) Hl)
    as [He|(rs & mk & Hrs & (ra & rb & rc & -> & Hmk) & Hb)]; [by left|].
  right. rewrite Hmk in Hb. eexists {| sg_a := ra; sg_b := rb; sg_c := rc; sg_reply := tx |}, _.
  split; [exact Hrs|]. split; [done|]. split; [exact Hb|].
  set (r := Build_SgemmRequest _ _ _ _ _ _ _ _ _). apply (write_refused answer result_of (Blas.Sgemm r)); [done|].
  destruct (clones_heap g (slice <$> [ra; rb; rc])) as [-> _]. by eapply live_holds.
Qed.

(** ** Libraries *)

(** C33 (one library from Python): a device spawned from Python enables cuBLAS alone, so in
    every state that its two tiers reach, whatever the crate was compiled with, the
    handles of all other libraries are refused. *)
Theorem python_only_blas F id mock cmds timeout tx : Forall client cmds →
  let t := (tree_run F (tree_start (spawn_config id mock)) cmds).1 in
  ∃ kc, handle (t_dev t) (SnapshotChildren tx) = (t_dev t, [ReplyChildren tx kc]) ∧
  ∀ get, get ∈ [Handle.cudnn; Handle.fft; Handle.rng; Handle.solver; Handle.nvrtc] →
  ∀ g, ∃ e, get timeout tx (Received kc) g = (Err e, g, [Tell (SnapshotChildren tx)]).
Proof.
  intros Hc t. destruct (tree_run_libraries F (spawn_config id mock) cmds Hc) as (_ & _ & _ & Hd).
  exists (children (t_dev t)). split; [done|]. intros get Hget g. fold t in Hd.
  assert (Hl : ∀ flag, flag ∈ [LIB_CUDNN; LIB_CUFFT; LIB_CURAND; LIB_CUSOLVER; LIB_NVRTC] →
    lib_contains (enabled_libraries (spawn_config id mock)) flag = false).
  { intros flag Hf. destruct mock; set_unfold in Hf; naive_solver. }
  assert (Hn : ∀ k, children (t_dev t) = Some k → cudnn k = None ∧ fft k = None ∧ rng k = None ∧ solver k = None ∧ nvrtc k = None).
  { intros k Hk. destruct (Hd k Hk) as (H1 & H2 & H3 & H4 & H5). rewrite !Hl, ?andb_false_r in * by set_solver.
    destruct (cudnn k), (fft k), (rng k), (solver k), (nvrtc k); done. }
  clear Hd Hl. set_unfold in Hget. unfold Handle.cudnn, Handle.fft, Handle.rng, Handle.solver, Handle.nvrtc in Hget.
  destruct_or! Hget; subst get; unfold enabled, require_children, snapshot_children, ask_got, bindr, finish_got; act_unfold;
    (destruct (duration_error timeout); [by eexists|]); destruct (children (t_dev t)) as [k|]; cbn; try (by eexists);
    destruct (Hn k eq_refl) as (H1 & H2 & H3 & H4 & H5); rewrite ?H1, ?H2, ?H3, ?H4, ?H5; by eexists.
Qed.

Lemma python_only_blas_witness :
  ∃ kc, ∀ g, ∃ e, Handle.cudnn (f64_of_Z 2) 7 (Received kc) g = (Err e, g, [Tell (SnapshotChildren 7)]).
Proof.
  destruct (python_only_blas {| feat_cudnn := true; feat_cufft := true; feat_curand := true; feat_cusolver := true;
    feat_nvrtc := true |} 0 false [RunContext driver_ok fw0; RunDevice] (f64_of_Z 2) 7) as (kc & _ & H);
    [by repeat constructor|].
  exists kc. apply H. by left.
Defined.

(** Once the device is ready the handle of cuBLAS is its actor. *)
Lemma blas_handle k timeout tx g : duration_error timeout = None →
  Handle.blas timeout tx (Received (Some k)) g = (Ok (blas k), g, [Tell (SnapshotChildren tx)]).
Proof.
  intros Ht. unfold Handle.blas, require_children, snapshot_children, ask_got, mapr, bindr, finish_got. act_unfold.
  by rewrite Ht.
Qed.

(** The dictionary has its seven entries with or without a GPU. *)
Lemma ready_dict_entries F h kc : ["blas"; "cudnn"; "cufft"; "curand"; "cusolver"; "nvrtc"; "extras"] ⊆ (ready_dict F h kc).*1.
Proof. destruct kc; set_solver. Qed.

(** The load a device reports has no memory in it. *)
Lemma stats_memory d tx timeout g : duration_error timeout = None →
  ∃ l, handle d (Stats tx) = (d, [ReplyLoad tx l]) ∧
  ∃ s, stats timeout tx (Received l) g = (Ok s, g, [Tell (Stats tx)]) ∧ ld_free_bytes s = 0%Z ∧ ld_total_bytes s = 0%Z.
Proof.
  intros Ht. eexists. split; [done|]. unfold stats, ask_got, mapr, bindr, finish_got. act_unfold. rewrite Ht.
  by eexists.
Qed.
