(* ===== verification/FlashAttn.v ===== *)
(** * FlashAttention dispatch: validation, kernel names, the table

    Models [crates/atomr-accel-flashattn/src/dispatch.rs].  A [u32] field is a
    [Z]; [key_wf] says that the fields are in range.  [fp8] is the cargo
    feature of that name. *)

From stdpp Require Import pretty.
From S2P Require Import Prelude Text.

Inductive SmArch : Type := Sm80 | Sm89 | Sm90a | Sm100.
Inductive DType : Type := F16 | Bf16 | F8E4m3 | F8E5m2.

#[global] Instance SmArch_eq_dec : EqDecision SmArch.
Proof. solve_decision. Defined.
#[global] Instance DType_eq_dec : EqDecision DType.
Proof. solve_decision. Defined.

Definition nvrtc_flag (a : SmArch) : string :=
  match a with
  | Sm80 => "--gpu-architecture=sm_80"
  | Sm89 => "--gpu-architecture=sm_89"
  | Sm90a => "--gpu-architecture=sm_90a"
  | Sm100 => "--gpu-architecture=sm_100a"
  end.

Definition supports_fa3 (a : SmArch) : bool := match a with Sm90a | Sm100 => true | _ => false end.
Definition supports_fp8 (a : SmArch) : bool := match a with Sm90a | Sm100 => true | _ => false end.

Definition size_in_bytes (d : DType) : nat := match d with F16 | Bf16 => 2 | F8E4m3 | F8E5m2 => 1 end.
Definition is_fp8 (d : DType) : bool := match d with F8E4m3 | F8E5m2 => true | _ => false end.
Definition tag (d : DType) : string :=
  match d with F16 => "f16" | Bf16 => "bf16" | F8E4m3 => "e4m3" | F8E5m2 => "e5m2" end.

Record DispatchKey := {
  arch : SmArch;
  dtype : DType;
  head_dim : Z;
  causal : bool;
  varlen : bool;
  sliding_window : option Z;
  alibi : bool;
  sink : Z;
  paged : bool;
  gqa_ratio : Z;
}.

#[global] Instance DispatchKey_eq_dec : EqDecision DispatchKey.
Proof. solve_decision. Defined.

#[global] Instance SmArch_countable : Countable SmArch.
Proof.
  refine (inj_countable' (λ a, match a with Sm80 => 0 | Sm89 => 1 | Sm90a => 2 | Sm100 => 3 end)
    (λ n, match n with 0 => Sm80 | 1 => Sm89 | 2 => Sm90a | _ => Sm100 end) _). by intros [].
Defined.
#[global] Instance DType_countable : Countable DType.
Proof.
  refine (inj_countable' (λ a, match a with F16 => 0 | Bf16 => 1 | F8E4m3 => 2 | F8E5m2 => 3 end)
    (λ n, match n with 0 => F16 | 1 => Bf16 | 2 => F8E4m3 | _ => F8E5m2 end) _). by intros [].
Defined.
#[global] Instance DispatchKey_countable : Countable DispatchKey.
Proof.
  refine (inj_countable'
    (λ k, (arch k, dtype k, head_dim k, causal k, varlen k, sliding_window k, alibi k, sink k, paged k, gqa_ratio k))
    (λ '(a, d, h, c, v, w, al, s, p, g), {| arch := a; dtype := d; head_dim := h; causal := c; varlen := v;
       sliding_window := w; alibi := al; sink := s; paged := p; gqa_ratio := g |}) _). by intros [].
Defined.

Inductive DispatchError : Type :=
  | UnsupportedHeadDim (d : Z)
  | Fp8RequiresHopper (a : SmArch)
  | Fp8BackwardUnsupported
  | SinkWithoutMask
  | InvalidGqaRatio (r : Z)
  | ZeroWindow
  | PagedFlagNotSet
  | UnknownKey (k : DispatchKey).

Definition ALLOWED : list Z := [64; 80; 96; 128; 192; 256]%Z.

Definition validate_fwd (k : DispatchKey) : result unit DispatchError :=
  if negb (bool_decide (head_dim k ∈ ALLOWED)) then Err (UnsupportedHeadDim (head_dim k))
  else if is_fp8 (dtype k) && negb (supports_fp8 (arch k)) then Err (Fp8RequiresHopper (arch k))
  else if (0 <? sink k)%Z && match sliding_window k with None => true | Some _ => false end && negb (causal k)
  then Err SinkWithoutMask
  else if (gqa_ratio k =? 0)%Z then Err (InvalidGqaRatio (gqa_ratio k))
  else match sliding_window k with
  | Some w => if (w =? 0)%Z then Err ZeroWindow else Ok ()
  | None => Ok ()
  end.

Definition validate_bwd (k : DispatchKey) : result unit DispatchError :=
  match validate_fwd k with
  | Err e => Err e
  | Ok _ => if is_fp8 (dtype k) then Err Fp8BackwardUnsupported else Ok ()
  end.

Definition validate_paged (k : DispatchKey) : result unit DispatchError :=
  match validate_fwd k with
  | Err e => Err e
  | Ok _ => if negb (paged k) then Err PagedFlagNotSet else Ok ()
  end.

Definition causal_tag (k : DispatchKey) : string := if causal k then "causal" else "full".

(** The optional parts of the name, in the order they are pushed. *)
Definition gqa_part (k : DispatchKey) : string := if (1 <? gqa_ratio k)%Z then "_gqa" +:+ pretty (gqa_ratio k) else "".
Definition paged_part (k : DispatchKey) : string := (if paged k then "_paged" else "") +:+ gqa_part k.
Definition sink_part (k : DispatchKey) : string :=
  (if (0 <? sink k)%Z then "_sink" +:+ pretty (sink k) else "") +:+ paged_part k.
Definition alibi_part (k : DispatchKey) : string := (if alibi k then "_alibi" else "") +:+ sink_part k.
Definition window_part (k : DispatchKey) : string :=
  match sliding_window k with Some w => "_sw" +:+ pretty w | None => "" end +:+ alibi_part k.
Definition varlen_part (k : DispatchKey) : string := (if varlen k then "_varlen" else "") +:+ window_part k.

Definition kernel_name (k : DispatchKey) : string :=
  "atomr_flashattn::" +:+ (if supports_fa3 (arch k) then "fa3" else "fa2") +:+ "::fwd<" +:+
  tag (dtype k) +:+ ", " +:+ pretty (head_dim k) +:+ ", " +:+ causal_tag k +:+ ">" +:+ varlen_part k.

(** ** The table *)

Abbreviation DispatchTable := (gmap DispatchKey string) (only parsing).

Definition common_key (a : SmArch) (d : DType) (h : Z) (c : bool) : DispatchKey :=
  {| arch := a; dtype := d; head_dim := h; causal := c; varlen := false; sliding_window := None;
     alibi := false; sink := 0; paged := false; gqa_ratio := 1 |}.

Definition common_cells : list DispatchKey :=
  a ← [Sm80; Sm89; Sm90a; Sm100]; d ← [F16; Bf16]; h ← [64; 80; 96; 128; 192; 256]%Z; c ← [false; true];
  [common_key a d h c].

Definition fp8_cells : list DispatchKey :=
  d ← [F8E4m3; F8E5m2]; h ← [64; 128; 256]%Z; a ← [Sm90a; Sm100]; c ← [false; true];
  [common_key a d h c].

(** [if key.validate_fwd().is_ok() { entries.insert(key, key.kernel_name()) }] *)
Definition register (t : gmap DispatchKey string) (k : DispatchKey) : gmap DispatchKey string :=
  if is_ok (validate_fwd k) then <[k := kernel_name k]> t else t.

Definition build (fp8 : bool) : gmap DispatchKey string :=
  foldl register (foldl register ∅ common_cells) (if fp8 then fp8_cells else []).

Definition lookup_name (t : gmap DispatchKey string) (k : DispatchKey) : result string DispatchError :=
  match validate_fwd k with
  | Err e => Err e
  | Ok _ => match t !! k with Some name => Ok name | None => Ok (kernel_name k) end
  end.

Definition strict_lookup (t : gmap DispatchKey string) (k : DispatchKey) : result string DispatchError :=
  match t !! k with Some name => Ok name | None => Err (UnknownKey k) end.

Definition key_wf (k : DispatchKey) : Prop :=
  in_width 32 (head_dim k) ∧ in_width 32 (sink k) ∧ in_width 32 (gqa_ratio k) ∧
  (∀ w, sliding_window k = Some w → in_width 32 w).

(** ** Names determine keys *)

(** Which optional parts of a name a text may start with. *)
Ltac part_cases :=
  unfold varlen_part, window_part, alibi_part, sink_part, paged_part, gqa_part;
  repeat (case_match; simpl; try discriminate); try done.

Lemma gqa_part_head k : no_digit_head (gqa_part k). Proof. part_cases. Qed.
Lemma paged_part_head k : no_digit_head (paged_part k). Proof. part_cases. Qed.
Lemma alibi_part_head k : no_digit_head (alibi_part k). Proof. part_cases. Qed.

Lemma gqa_part_inj k1 k2 :
  (0 < gqa_ratio k1)%Z → (0 < gqa_ratio k2)%Z → gqa_part k1 = gqa_part k2 → gqa_ratio k1 = gqa_ratio k2.
Proof.
  intros H1 H2. unfold gqa_part. destruct (Z.ltb_spec 1 (gqa_ratio k1)), (Z.ltb_spec 1 (gqa_ratio k2)); try done.
  - intros He%string_app_cancel. by apply (inj pretty).
  - intros _. lia.
Qed.

Lemma paged_part_inj k1 k2 : paged_part k1 = paged_part k2 → paged k1 = paged k2 ∧ gqa_part k1 = gqa_part k2.
Proof.
  unfold paged_part. destruct (paged k1), (paged k2); try done.
  - by intros He%string_app_cancel.
  - intros He. exfalso. revert He. part_cases.
  - intros He. exfalso. revert He. part_cases.
Qed.

Lemma sink_part_inj k1 k2 :
  (0 ≤ sink k1)%Z → (0 ≤ sink k2)%Z → sink_part k1 = sink_part k2 →
  sink k1 = sink k2 ∧ paged_part k1 = paged_part k2.
Proof.
  intros H1 H2. unfold sink_part. destruct (Z.ltb_spec 0 (sink k1)), (Z.ltb_spec 0 (sink k2)).
  - rewrite <-!string_app_assoc. intros He%string_app_cancel.
    apply pretty_app_inj in He; auto using paged_part_head.
  - intros He. exfalso. revert He. part_cases.
  - intros He. exfalso. revert He. part_cases.
  - intros He. split; [lia|done].
Qed.

Lemma alibi_part_inj k1 k2 : alibi_part k1 = alibi_part k2 → alibi k1 = alibi k2 ∧ sink_part k1 = sink_part k2.
Proof.
  unfold alibi_part. destruct (alibi k1), (alibi k2); try done.
  - by intros He%string_app_cancel.
  - intros He. exfalso. revert He. part_cases.
  - intros He. exfalso. revert He. part_cases.
Qed.

Lemma window_part_inj k1 k2 :
  key_wf k1 → key_wf k2 → window_part k1 = window_part k2 →
  sliding_window k1 = sliding_window k2 ∧ alibi_part k1 = alibi_part k2.
Proof.
  intros (_ & _ & _ & H1) (_ & _ & _ & H2). unfold window_part.
  destruct (sliding_window k1) as [w1|], (sliding_window k2) as [w2|]; [..|done].
  - rewrite <-!string_app_assoc. intros He%string_app_cancel.
    destruct (H1 w1 eq_refl), (H2 w2 eq_refl). apply pretty_app_inj in He as [-> ->]; auto using alibi_part_head.
  - intros He. exfalso. revert He. part_cases.
  - intros He. exfalso. revert He. part_cases.
Qed.

Lemma varlen_part_inj k1 k2 :
  varlen_part k1 = varlen_part k2 → varlen k1 = varlen k2 ∧ window_part k1 = window_part k2.
Proof.
  unfold varlen_part. destruct (varlen k1), (varlen k2); try done.
  - by intros He%string_app_cancel.
  - intros He. exfalso. revert He. part_cases.
  - intros He. exfalso. revert He. part_cases.
Qed.

Lemma kernel_name_head k1 k2 :
  key_wf k1 → key_wf k2 → kernel_name k1 = kernel_name k2 →
  supports_fa3 (arch k1) = supports_fa3 (arch k2) ∧ dtype k1 = dtype k2 ∧ head_dim k1 = head_dim k2 ∧
  causal k1 = causal k2 ∧ varlen_part k1 = varlen_part k2.
Proof.
  intros ([H1 _] & _) ([H2 _] & _). unfold kernel_name. intros He%string_app_cancel.
  assert (Hk : supports_fa3 (arch k1) = supports_fa3 (arch k2)).
  { destruct (supports_fa3 (arch k1)), (supports_fa3 (arch k2)); done. }
  rewrite Hk in He. apply string_app_cancel, (string_app_cancel "::fwd<") in He.
  assert (Hd : dtype k1 = dtype k2) by (destruct (dtype k1), (dtype k2); done).
  rewrite Hd in He. apply string_app_cancel, (string_app_cancel ", ") in He.
  apply pretty_app_inj in He as [Hh He]; [|done..]. apply (string_app_cancel ", ") in He. unfold causal_tag in He.
  split_and!; try done; destruct (causal k1), (causal k2); try done; by injection He.
Qed.

Lemma validate_fwd_ok k :
  key_wf k → validate_fwd k = Ok () ↔
  head_dim k ∈ ALLOWED ∧ (is_fp8 (dtype k) → supports_fp8 (arch k)) ∧
  ((0 < sink k)%Z → is_Some (sliding_window k) ∨ causal k) ∧ (0 < gqa_ratio k)%Z ∧
  (∀ w, sliding_window k = Some w → (0 < w)%Z).
Proof.
  intros (_ & _ & [Hg _] & Hw). unfold validate_fwd. case_bool_decide as Hd; simpl; [|naive_solver].
  destruct (is_fp8 (dtype k)), (supports_fp8 (arch k)); simpl; try naive_solver;
  destruct (Z.ltb_spec 0 (sink k)), (Z.eqb_spec (gqa_ratio k) 0), (sliding_window k) as [w|] eqn:Hs, (causal k); simpl;
    try (destruct (Z.eqb_spec w 0)); try (pose proof (proj1 (Hw w eq_refl)));
    (split; [intros; try discriminate; split_and!; auto; try lia; try naive_solver lia|
             intros (? & Hf & Hsk & ? & Hwin); try done; exfalso; try lia;
             first [specialize (Hwin _ eq_refl); lia|by destruct (Hsk ltac:(lia)) as [[? ?]|]|by apply Hf]]).
Qed.

(** Kernel names: two valid dispatch keys have the same kernel name exactly
    when they agree on every field but the architecture, of which only the
    generation, FA2 or FA3, appears in the name. *)
Theorem flash_kernel_names (k1 k2 : DispatchKey) :
  key_wf k1 → key_wf k2 → validate_fwd k1 = Ok () → validate_fwd k2 = Ok () →
  kernel_name k1 = kernel_name k2 ↔
    supports_fa3 (arch k1) = supports_fa3 (arch k2) ∧
    k1 = {| arch := arch k1; dtype := dtype k2; head_dim := head_dim k2; causal := causal k2;
            varlen := varlen k2; sliding_window := sliding_window k2; alibi := alibi k2; sink := sink k2;
            paged := paged k2; gqa_ratio := gqa_ratio k2 |}.
Proof.
  intros Hw1 Hw2 (_ & _ & _ & Hg1 & _)%(validate_fwd_ok k1 Hw1) (_ & _ & _ & Hg2 & _)%(validate_fwd_ok k2 Hw2).
  split.
  - intros (Ha & Hd & Hh & Hc & He)%kernel_name_head; [|done..]. split; [done|].
    apply varlen_part_inj in He as [Hv He]. apply window_part_inj in He as [Hw He]; [|done..].
    apply alibi_part_inj in He as [Hal He].
    apply sink_part_inj in He as [Hs He]; [|by destruct Hw1 as (_ & [? _] & _)|by destruct Hw2 as (_ & [? _] & _)].
    apply paged_part_inj in He as [Hp He]. apply gqa_part_inj in He; [|done..].
    destruct k1, k2; simpl in *. congruence.
  - intros [Ha ->]. unfold kernel_name. simpl. by rewrite Ha.
Qed.

Lemma common_key_wf a d h c : in_width 32 h → key_wf (common_key a d h c).
Proof. intros Hh. unfold key_wf, in_width in *. simpl. split_and!; try lia. done. Qed.

Lemma flash_kernel_names_witness :
  let k1 := common_key Sm80 F16 64 true in let k2 := common_key Sm89 F16 64 true in
  validate_fwd k1 = Ok () ∧ validate_fwd k2 = Ok () ∧ kernel_name k1 = kernel_name k2.
Proof.
  split; [reflexivity|split; [reflexivity|]].
  apply (flash_kernel_names (common_key Sm80 F16 64 true) (common_key Sm89 F16 64 true)).
  - apply common_key_wf. unfold in_width. lia.
  - apply common_key_wf. unfold in_width. lia.
  - reflexivity.
  - reflexivity.
  - split; reflexivity.
Defined.

(** The cells the table registers do not have distinct names. *)
Example common_names_collide :
  length common_cells = 96 ∧ length (remove_dups (kernel_name <$> common_cells)) = 48.
Proof. by vm_compute. Qed.

(** ** The table computes names *)

Definition table_ok (t : gmap DispatchKey string) : Prop :=
  ∀ k name, t !! k = Some name → name = kernel_name k ∧ validate_fwd k = Ok ().

Lemma register_ok t k : table_ok t → table_ok (register t k).
Proof.
  unfold register. intros Ht. destruct (validate_fwd k) as [[]|e] eqn:Hv; simpl; [|done].
  intros k' name [[<- <-]|[_ Hk]]%lookup_insert_Some; [done|by apply Ht].
Qed.

Lemma registers_ok ks t : table_ok t → table_ok (foldl register t ks).
Proof. revert t. induction ks as [|k ks IH]; intros t Ht; [done|]. apply IH. by apply register_ok. Qed.

Lemma build_ok fp8 : table_ok (build fp8).
Proof. apply registers_ok, registers_ok. intros k name. by rewrite lookup_empty. Qed.

(** Dispatch: the table resolves a key exactly when the key is supported
    (a listed head dimension, fp8 on Hopper or newer only, sinks only with a
    mask, a positive GQA ratio, a positive window), to the name computed from
    the key, whether the cell is registered or not and with or without the
    fp8 cells; it never answers [UnknownKey].  The strict lookup answers the
    same name on the registered cells only. *)
Theorem flash_lookup (fp8 : bool) (k : DispatchKey) :
  key_wf k →
  (∀ name, lookup_name (build fp8) k = Ok name ↔
    name = kernel_name k ∧ head_dim k ∈ ALLOWED ∧ (is_fp8 (dtype k) → supports_fp8 (arch k)) ∧
    ((0 < sink k)%Z → is_Some (sliding_window k) ∨ causal k) ∧ (0 < gqa_ratio k)%Z ∧
    (∀ w, sliding_window k = Some w → (0 < w)%Z)) ∧
  (∀ k', lookup_name (build fp8) k ≠ Err (UnknownKey k')) ∧
  (∀ name, strict_lookup (build fp8) k = Ok name → lookup_name (build fp8) k = Ok name).
Proof.
  intros Hw. pose proof (build_ok fp8 k) as Ht.
  assert (Hl : ∀ name, lookup_name (build fp8) k = Ok name ↔ name = kernel_name k ∧ validate_fwd k = Ok ()).
  { intros name. unfold lookup_name. destruct (validate_fwd k) as [[]|e]; [|naive_solver].
    destruct (build fp8 !! k) as [n|]; [destruct (Ht n eq_refl) as [-> _]|]; naive_solver. }
  split_and!.
  - intros name. rewrite Hl. by rewrite (validate_fwd_ok k Hw).
  - intros k'. unfold lookup_name, validate_fwd. repeat case_match; congruence.
  - intros name. unfold strict_lookup. destruct (build fp8 !! k) as [n|]; [|done]. intros [= ->].
    apply Hl. by apply Ht.
Qed.

Lemma flash_lookup_witness :
  key_wf (common_key Sm90a F8E4m3 96 true) ∧
  lookup_name (build false) (common_key Sm90a F8E4m3 96 true) = Ok "atomr_flashattn::fa3::fwd<e4m3, 96, causal>".
Proof.
  split; [apply common_key_wf; unfold in_width; lia|].
  assert (Hw : key_wf (common_key Sm90a F8E4m3 96 true)) by (apply common_key_wf; unfold in_width; lia).
  apply (proj1 (flash_lookup false (common_key Sm90a F8E4m3 96 true) Hw)).
  split; [reflexivity|]. split; [unfold ALLOWED; set_solver|]. split; [done|].
  split; [discriminate|]. split; [done|discriminate].
Defined.

(** The number of registered cells, as [len] answers it. *)
Example table_sizes : size (build false) = 96 ∧ size (build true) = 120.
Proof. by vm_compute. Qed.

(** A ratio that is not a power of two passes the validation. *)
Example gqa_ratio_three :
  let k := common_key Sm80 F16 64 true in
  validate_fwd {| arch := arch k; dtype := dtype k; head_dim := head_dim k; causal := causal k; varlen := varlen k;
    sliding_window := None; alibi := false; sink := 0; paged := false; gqa_ratio := 3 |} = Ok ().
Proof. reflexivity. Qed.
