(* ===== verification/FlashRequests.v ===== *)
(** * FlashAttention requests: constructors and their dispatch keys

    Models the request types of [crates/atomr-accel-flashattn/src]: [fa2.rs],
    [fa3.rs], [varlen.rs], [paged.rs] and [prefill.rs], with the message type
    of [actor.rs] and the error type of [lib.rs].  The type parameter
    [T: GemmSupported] of a request is the value [T::dtype()]; the fields all
    requests have are one record, [Common]; reply channels are left out. *)

From Stdlib Require Import Floats.SpecFloat.
From S2P Require Import Prelude FlashAttn.

Inductive PositionBias : Type := NoBias | Alibi.

Definition requires_alibi_flag (b : PositionBias) : bool := match b with Alibi => true | NoBias => false end.

Inductive MaskKind : Type := Full | Causal | SlidingCausal (window : Z) | SlidingFull (window : Z).

Definition mask_causal (m : MaskKind) : bool := match m with Causal | SlidingCausal _ => true | _ => false end.
Definition mask_window (m : MaskKind) : option Z :=
  match m with SlidingCausal w | SlidingFull w => Some w | _ => None end.

Inductive FlashAttnError : Type :=
  | Dispatch (e : DispatchError)
  | Fa3RequiresHopper (a : SmArch)
  | Fp8MustUseFp8Request
  | EmptyBatch
  | ZeroSeqlen
  | SeqlenOverflow
  | EmptyPagedCache
  | InvalidPagedBlockSize (b : Z)
  | PagedHeadDimMismatch (cache req : Z)
  | ChunkIndexOutOfRange (index total : Z).

Record Common := {
  r_arch : SmArch;
  r_dtype : DType;
  r_head_dim : Z;
  r_gqa_ratio : Z;
  r_mask : MaskKind;
  r_bias : PositionBias;
  r_sink_tokens : Z;
  r_softmax_scale : spec_float;
}.

(** [compute_key], which the request types repeat but for two flags. *)
Definition compute_key (is_varlen is_paged : bool) (c : Common) : DispatchKey :=
  {| arch := r_arch c; dtype := r_dtype c; head_dim := r_head_dim c; causal := mask_causal (r_mask c);
     varlen := is_varlen; sliding_window := mask_window (r_mask c); alibi := requires_alibi_flag (r_bias c);
     sink := r_sink_tokens c; paged := is_paged; gqa_ratio := r_gqa_ratio c |}.

(** [key.validate_..().map_err(FlashAttnError::Dispatch)?; Ok(req)] *)
Definition checked {R} (v : result unit DispatchError) (req : R) : result R FlashAttnError :=
  match v with Ok _ => Ok req | Err e => Err (Dispatch e) end.

(** ** FA2 *)

Record Fa2FwdRequest := { f2_common : Common; dropout_p : spec_float; dropout_seed : Z }.

Definition Fa2FwdRequest_key (r : Fa2FwdRequest) : DispatchKey := compute_key false false (f2_common r).
Definition Fa2FwdRequest_new (c : Common) : result Fa2FwdRequest FlashAttnError :=
  let req := {| f2_common := c; dropout_p := S754_zero false; dropout_seed := 0 |} in
  checked (validate_fwd (Fa2FwdRequest_key req)) req.

Record Fa2BwdRequest := { b2_common : Common; recompute : bool }.

Definition Fa2BwdRequest_key (r : Fa2BwdRequest) : DispatchKey := compute_key false false (b2_common r).
Definition Fa2BwdRequest_new (c : Common) (rec : bool) : result Fa2BwdRequest FlashAttnError :=
  let req := {| b2_common := c; recompute := rec |} in
  match validate_bwd (Fa2BwdRequest_key req) with
  | Err e => Err (Dispatch e)
  | Ok _ => if is_fp8 (r_dtype c) then Err (Dispatch Fp8BackwardUnsupported) else Ok req
  end.

(** ** FA3 *)

Inductive PersistentMode : Type := Grid | Persistent (num_sms : Z).

Record Fa3FwdRequest := { f3_common : Common; persistent : PersistentMode }.

Definition Fa3FwdRequest_key (r : Fa3FwdRequest) : DispatchKey := compute_key false false (f3_common r).
Definition Fa3FwdRequest_new (c : Common) (p : PersistentMode) : result Fa3FwdRequest FlashAttnError :=
  if negb (supports_fa3 (r_arch c)) then Err (Fa3RequiresHopper (r_arch c))
  else if is_fp8 (r_dtype c) then Err Fp8MustUseFp8Request
  else let req := {| f3_common := c; persistent := p |} in
    checked (validate_fwd (Fa3FwdRequest_key req)) req.

(** [f8_common] holds the Q dtype and no bias. *)
Record Fa3FwdFp8Request := {
  f8_common : Common;
  kv_dtype : DType;
  q_scale : spec_float;
  k_scale : spec_float;
  v_scale : spec_float;
  f8_persistent : PersistentMode;
}.

Definition without_bias (c : Common) : Common :=
  {| r_arch := r_arch c; r_dtype := r_dtype c; r_head_dim := r_head_dim c; r_gqa_ratio := r_gqa_ratio c;
     r_mask := r_mask c; r_bias := NoBias; r_sink_tokens := r_sink_tokens c;
     r_softmax_scale := r_softmax_scale c |}.

Definition Fa3FwdFp8Request_key (r : Fa3FwdFp8Request) : DispatchKey :=
  compute_key false false (without_bias (f8_common r)).
Definition Fa3FwdFp8Request_new (c : Common) (kv : DType) (q k v : spec_float) (p : PersistentMode) :
    result Fa3FwdFp8Request FlashAttnError :=
  if negb (supports_fp8 (r_arch c)) then Err (Dispatch (Fp8RequiresHopper (r_arch c)))
  else if negb (is_fp8 (r_dtype c)) || negb (is_fp8 kv) then Err Fp8MustUseFp8Request
  else let req := {| f8_common := without_bias c; kv_dtype := kv; q_scale := q; k_scale := k; v_scale := v;
                     f8_persistent := p |} in
    checked (validate_fwd (Fa3FwdFp8Request_key req)) req.

(** ** Variable length *)

Record CumulativeSeqlens := {
  batch_size : Z;
  max_seqlen_q : Z;
  max_seqlen_kv : Z;
  total_q_tokens : Z;
  total_kv_tokens : Z;
}.

(** The products are [u32] multiplications. *)
Definition CumulativeSeqlens_new (batch mq mkv tq tkv : Z) : result CumulativeSeqlens FlashAttnError :=
  if (batch =? 0)%Z then Err EmptyBatch
  else if (mq =? 0)%Z || (mkv =? 0)%Z then Err ZeroSeqlen
  else if (batch *₃₂ mq <? tq)%Z then Err SeqlenOverflow
  else if (batch *₃₂ mkv <? tkv)%Z then Err SeqlenOverflow
  else Ok {| batch_size := batch; max_seqlen_q := mq; max_seqlen_kv := mkv; total_q_tokens := tq;
             total_kv_tokens := tkv |}.

Record VarlenFwdRequest := { v_common : Common; v_seqlens : CumulativeSeqlens }.

Definition VarlenFwdRequest_key (r : VarlenFwdRequest) : DispatchKey := compute_key true false (v_common r).
Definition VarlenFwdRequest_new (c : Common) (s : CumulativeSeqlens) : result VarlenFwdRequest FlashAttnError :=
  let req := {| v_common := c; v_seqlens := s |} in
  checked (validate_fwd (VarlenFwdRequest_key req)) req.

(** ** Chunked prefill *)

Record ChunkLayout := {
  chunk_q_tokens : Z;
  prefix_kv_tokens : Z;
  total_chunks : Z;
  chunk_index : Z;
}.

Definition ChunkLayout_new (q prefix total index : Z) : result ChunkLayout FlashAttnError :=
  if (q =? 0)%Z then Err ZeroSeqlen
  else if (total =? 0)%Z then Err ZeroSeqlen
  else if (total <=? index)%Z then Err (ChunkIndexOutOfRange index total)
  else Ok {| chunk_q_tokens := q; prefix_kv_tokens := prefix; total_chunks := total; chunk_index := index |}.

Definition is_final (c : ChunkLayout) : bool := (chunk_index c +₃₂ 1 =? total_chunks c)%Z.

Record ChunkedPrefillRequest := { c_common : Common; c_seqlens : CumulativeSeqlens; chunk : ChunkLayout }.

Definition ChunkedPrefillRequest_key (r : ChunkedPrefillRequest) : DispatchKey := compute_key true false (c_common r).
Definition ChunkedPrefillRequest_new (c : Common) (s : CumulativeSeqlens) (ch : ChunkLayout) :
    result ChunkedPrefillRequest FlashAttnError :=
  let req := {| c_common := c; c_seqlens := s; chunk := ch |} in
  checked (validate_fwd (ChunkedPrefillRequest_key req)) req.

(** ** Paged *)

Record PagedKvCache := {
  num_blocks : Z;
  block_size : Z;
  num_kv_heads : Z;
  cache_head_dim : Z;
  max_blocks_per_seq : Z;
}.

Definition PagedKvCache_new (blocks size heads hd max : Z) : result PagedKvCache FlashAttnError :=
  if (blocks =? 0)%Z || (size =? 0)%Z || (heads =? 0)%Z then Err EmptyPagedCache
  else if negb (bool_decide (size ∈ [8; 16; 32; 64; 128]%Z)) then Err (InvalidPagedBlockSize size)
  else if (max =? 0)%Z then Err EmptyPagedCache
  else Ok {| num_blocks := blocks; block_size := size; num_kv_heads := heads; cache_head_dim := hd;
             max_blocks_per_seq := max |}.

Record PagedAttentionRequest := {
  p_common : Common;
  p_cache : PagedKvCache;
  num_seqs : Z;
  q_tokens_per_seq : Z;
}.

Definition PagedAttentionRequest_key (r : PagedAttentionRequest) : DispatchKey := compute_key false true (p_common r).
Definition PagedAttentionRequest_new (c : Common) (kv : PagedKvCache) (seqs q : Z) :
    result PagedAttentionRequest FlashAttnError :=
  if (seqs =? 0)%Z || (q =? 0)%Z then Err EmptyBatch
  else if negb (cache_head_dim kv =? r_head_dim c)%Z then
    Err (PagedHeadDimMismatch (cache_head_dim kv) (r_head_dim c))
  else let req := {| p_common := c; p_cache := kv; num_seqs := seqs; q_tokens_per_seq := q |} in
    checked (validate_paged (PagedAttentionRequest_key req)) req.

Definition is_pure_decode (r : PagedAttentionRequest) : bool := (q_tokens_per_seq r =? 1)%Z.

(** ** Messages *)

(** The traits [FaFwdDispatch], [FaBwdDispatch] and [FaPagedFwdDispatch]. *)
Class FaFwdDispatch (R : Type) := fwd_key : R → DispatchKey.
Class FaBwdDispatch (R : Type) := bwd_key : R → DispatchKey.
Class FaPagedFwdDispatch (R : Type) := paged_key : R → DispatchKey.

#[global] Instance fa2_fwd_dispatch : FaFwdDispatch Fa2FwdRequest := Fa2FwdRequest_key.
#[global] Instance fa3_fwd_dispatch : FaFwdDispatch Fa3FwdRequest := Fa3FwdRequest_key.
#[global] Instance fa3_fp8_dispatch : FaFwdDispatch Fa3FwdFp8Request := Fa3FwdFp8Request_key.
#[global] Instance varlen_dispatch : FaFwdDispatch VarlenFwdRequest := VarlenFwdRequest_key.
#[global] Instance prefill_dispatch : FaFwdDispatch ChunkedPrefillRequest := ChunkedPrefillRequest_key.
#[global] Instance fa2_bwd_dispatch : FaBwdDispatch Fa2BwdRequest := Fa2BwdRequest_key.
#[global] Instance paged_dispatch : FaPagedFwdDispatch PagedAttentionRequest := PagedAttentionRequest_key.

(** [Box<dyn Fa..Dispatch>] *)
Inductive FlashAttnMsg : Type :=
  | Forward {R : Type} `{FaFwdDispatch R} (r : R)
  | Backward {R : Type} `{FaBwdDispatch R} (r : R)
  | PagedForward {R : Type} `{FaPagedFwdDispatch R} (r : R).

Definition inspect_key (m : FlashAttnMsg) : DispatchKey :=
  match m with Forward r => fwd_key r | Backward r => bwd_key r | PagedForward r => paged_key r end.

(** The kernel the actor's handler resolves for a message. *)
Definition resolve (fp8 : bool) (m : FlashAttnMsg) : result string DispatchError :=
  lookup_name (build fp8) (inspect_key m).

(** The messages clients can send: requests come from their constructors. *)
Inductive constructed : FlashAttnMsg → Prop :=
  | made_fa2 c r : Fa2FwdRequest_new c = Ok r → constructed (Forward r)
  | made_fa2_bwd c rec r : Fa2BwdRequest_new c rec = Ok r → constructed (Backward r)
  | made_fa3 c p r : Fa3FwdRequest_new c p = Ok r → constructed (Forward r)
  | made_fa3_fp8 c kv q k v p r : Fa3FwdFp8Request_new c kv q k v p = Ok r → constructed (Forward r)
  | made_varlen c s r : VarlenFwdRequest_new c s = Ok r → constructed (Forward r)
  | made_prefill c s ch r : ChunkedPrefillRequest_new c s ch = Ok r → constructed (Forward r)
  | made_paged c kv n q r : PagedAttentionRequest_new c kv n q = Ok r → constructed (PagedForward r).

Definition is_backward (m : FlashAttnMsg) : bool := match m with Backward _ => true | _ => false end.
Definition is_paged (m : FlashAttnMsg) : bool := match m with PagedForward _ => true | _ => false end.

Lemma checked_ok {R} v (req r : R) : checked v req = Ok r → v = Ok () ∧ r = req.
Proof. unfold checked. by destruct v as [[]|e]; [intros [= ->]|]. Qed.

Lemma validate_bwd_ok k : validate_bwd k = Ok () → validate_fwd k = Ok () ∧ is_fp8 (dtype k) = false.
Proof. unfold validate_bwd. by destruct (validate_fwd k) as [[]|e], (is_fp8 (dtype k)). Qed.

Lemma validate_paged_ok k : validate_paged k = Ok () → validate_fwd k = Ok ().
Proof. unfold validate_paged. by destruct (validate_fwd k) as [[]|e]. Qed.

Lemma validate_fwd_fp8 k : validate_fwd k = Ok () → is_fp8 (dtype k) → supports_fa3 (arch k).
Proof.
  unfold validate_fwd. destruct (negb _); [done|]. by destruct (is_fp8 (dtype k)), (arch k).
Qed.

Lemma lookup_valid fp8 k : validate_fwd k = Ok () → lookup_name (build fp8) k = Ok (kernel_name k).
Proof.
  intros Hv. unfold lookup_name. rewrite Hv. pose proof (build_ok fp8 k) as Hb.
  destruct (build fp8 !! k) as [n|]; [|done]. by destruct (Hb n eq_refl) as [-> _].
Qed.

(** The key of a constructed message is valid, and has the flags of its kind. *)
Lemma constructed_key m :
  constructed m →
  validate_fwd (inspect_key m) = Ok () ∧
  (is_backward m → is_fp8 (dtype (inspect_key m)) = false) ∧ paged (inspect_key m) = is_paged m.
Proof.
  intros Hm. destruct Hm as [c r Hr|c rec r Hr|c p r Hr|c kv q k v p r Hr|c s r Hr|c s ch r Hr|c kv n q r Hr].
  - by apply checked_ok in Hr as [Hv ->].
  - unfold Fa2BwdRequest_new in Hr. destruct (validate_bwd _) as [[]|e] eqn:Hv; [|done].
    apply validate_bwd_ok in Hv as [Hv Hf]. destruct (is_fp8 (r_dtype c)); [done|]. by injection Hr as <-.
  - unfold Fa3FwdRequest_new in Hr. repeat case_match; try done. by apply checked_ok in Hr as [Hv ->].
  - unfold Fa3FwdFp8Request_new in Hr. repeat case_match; try done. by apply checked_ok in Hr as [Hv ->].
  - by apply checked_ok in Hr as [Hv ->].
  - by apply checked_ok in Hr as [Hv ->].
  - unfold PagedAttentionRequest_new in Hr. repeat case_match; try done. apply checked_ok in Hr as [Hv ->].
    split; [by apply validate_paged_ok|done].
Qed.

Lemma seqlens_sound batch mq mkv tq tkv s :
  (0 ≤ batch)%Z → (0 ≤ mq)%Z → (0 ≤ mkv)%Z → CumulativeSeqlens_new batch mq mkv tq tkv = Ok s →
  (total_q_tokens s ≤ batch_size s * max_seqlen_q s)%Z ∧ (total_kv_tokens s ≤ batch_size s * max_seqlen_kv s)%Z.
Proof.
  intros Hb Hq Hk. unfold CumulativeSeqlens_new.
  assert (Hw : ∀ x y, (0 ≤ x → 0 ≤ y → x *₃₂ y ≤ x * y)%Z) by (intros x y ? ?; apply Z.mod_le; lia).
  pose proof (Hw batch mq Hb Hq). pose proof (Hw batch mkv Hb Hk).
  destruct (batch =? 0)%Z; [done|]. destruct ((mq =? 0)%Z || (mkv =? 0)%Z); [done|].
  destruct (Z.ltb_spec (batch *₃₂ mq) tq); [done|]. destruct (Z.ltb_spec (batch *₃₂ mkv) tkv); [done|].
  intros [= <-]. simpl. lia.
Qed.

(** Requests resolve: every request that a constructor returns resolves to
    the kernel name of its key, so the actor's lookup never fails on it; an
    fp8 request runs on FA3 only and never backward; the paged flag of the key
    is that of the message kind; and sequence lengths that were accepted fit
    the batch, token totals being at most [batch_size * max_seqlen] as
    integers, although the check multiplies in 32 bits. *)
Theorem flash_requests (fp8 : bool) (m : FlashAttnMsg) :
  constructed m →
  resolve fp8 m = Ok (kernel_name (inspect_key m)) ∧
  (is_fp8 (dtype (inspect_key m)) → supports_fa3 (arch (inspect_key m)) ∧ is_backward m = false) ∧
  paged (inspect_key m) = is_paged m ∧
  ∀ batch mq mkv tq tkv s, (0 ≤ batch)%Z → (0 ≤ mq)%Z → (0 ≤ mkv)%Z →
    CumulativeSeqlens_new batch mq mkv tq tkv = Ok s →
    (total_q_tokens s ≤ batch_size s * max_seqlen_q s)%Z ∧ (total_kv_tokens s ≤ batch_size s * max_seqlen_kv s)%Z.
Proof.
  intros (Hv & Hb & Hp)%constructed_key. split_and!; [by apply lookup_valid| |done|by apply seqlens_sound].
  intros Hf. split; [by apply validate_fwd_fp8|]. destruct (is_backward m); [|done]. by rewrite Hb in Hf.
Qed.

Definition sample_params : Common :=
  {| r_arch := Sm90a; r_dtype := Bf16; r_head_dim := 128; r_gqa_ratio := 8; r_mask := SlidingCausal 4096;
     r_bias := NoBias; r_sink_tokens := 4; r_softmax_scale := S754_zero false |}.

Lemma flash_requests_witness :
  let r := {| f2_common := sample_params; dropout_p := S754_zero false; dropout_seed := 0 |} in
  Fa2FwdRequest_new sample_params = Ok r ∧
  resolve true (Forward r) = Ok "atomr_flashattn::fa3::fwd<bf16, 128, causal>_sw4096_sink4_gqa8".
Proof.
  split; [reflexivity|].
  exact (proj1 (flash_requests true (Forward {| f2_common := sample_params; dropout_p := S754_zero false; dropout_seed := 0 |})
    (made_fa2 sample_params _ eq_refl))).
Defined.

(** A backward request resolves to the forward kernel of the same parameters. *)
Example backward_resolves_to_forward fp8 f b :
  f2_common f = b2_common b → resolve fp8 (Backward b) = resolve fp8 (Forward f).
Proof. intros H. unfold resolve. simpl. unfold fwd_key, bwd_key, fa2_fwd_dispatch, fa2_bwd_dispatch, Fa2FwdRequest_key, Fa2BwdRequest_key. by rewrite H. Qed.

(** The dtype of K and V leaves no trace in the kernel name of an fp8 request. *)
Example kv_dtype_is_forgotten fp8 c q k v p :
  let r kv := {| f8_common := c; kv_dtype := kv; q_scale := q; k_scale := k; v_scale := v; f8_persistent := p |} in
  resolve fp8 (Forward (r F8E4m3)) = resolve fp8 (Forward (r F8E5m2)).
Proof. reflexivity. Qed.

(** Lengths that fit are refused when the product passes 2^32. *)
Example seqlens_overflow : CumulativeSeqlens_new 65536 65536 65536 1 1 = Err SeqlenOverflow.
Proof. reflexivity. Qed.

(** An FA2 request for Hopper is accepted. *)
Example fa2_accepts_hopper : is_ok (Fa2FwdRequest_new sample_params) = true.
Proof. reflexivity. Qed.
