(* ===== verification/NvrtcCache.v ===== *)
(** * NvrtcCache: compiled kernels on disk

    Models [crates/atomr-accel-cuda/src/nvrtc_cache.rs]: the FNV-1a hashes of
    the cache key, the names of the entries, [get], [insert] and
    [clear_in_memory] over a file system of names and inodes, and the same file
    operations as the steps of concurrent writers.  [bincode] is a parameter
    with the law that it decodes what it encoded; the crate version, the
    environment and the failures of the file system are parameters too. *)

From stdpp Require Import pretty.
From S2P Require Import Prelude Text Errors.

(** ** The key *)

Record NvrtcCacheKey := { source_hash : Z; arch : Z; options_hash : Z }.

#[global] Instance NvrtcCacheKey_eq_dec : EqDecision NvrtcCacheKey.
Proof. solve_decision. Defined.
#[global] Instance NvrtcCacheKey_countable : Countable NvrtcCacheKey.
Proof.
  refine (inj_countable' (λ k, (source_hash k, arch k, options_hash k))
    (λ '(s, a, o), {| source_hash := s; arch := a; options_hash := o |}) _). by intros [].
Defined.

(** The [u64], [u32] and [u64] of the struct. *)
Definition key_wf (k : NvrtcCacheKey) : Prop :=
  in_width 64 (source_hash k) ∧ in_width 32 (arch k) ∧ in_width 64 (options_hash k).

Definition FNV_OFFSET_BASIS_64 : Z := 0xcbf29ce484222325.
Definition FNV_PRIME_64 : Z := 0x00000100000001b3.

Definition fnv_write (h : Z) (bytes : list Z) : Z :=
  foldl (λ h b, wmul 64 (Z.lxor h b) FNV_PRIME_64) h bytes.

Definition hash_source (src : string) : Z := fnv_write FNV_OFFSET_BASIS_64 (as_bytes src).

(** One round of the loop of [hash_options]: three writes. *)
Definition write_option (h : Z) (opt : string) : Z :=
  let bytes := as_bytes opt in
  let h := fnv_write h (le_bytes 8 (Z.of_nat (length bytes))) in
  let h := fnv_write h bytes in
  fnv_write h [0xff%Z].

Definition hash_options (opts : list string) : Z := foldl write_option FNV_OFFSET_BASIS_64 opts.

(** ** The file system *)

Abbreviation content := (list Z).

Record Fs := { names : gmap string nat; inodes : gmap nat content; next_inode : nat }.

Definition fs_content (fs : Fs) (fd : nat) : content := default [] (inodes fs !! fd).
Definition fs_read (fs : Fs) (p : string) : option content := fs_content fs <$> names fs !! p.

Definition set_content (fd : nat) (c : content) (fs : Fs) : Fs :=
  {| names := names fs; inodes := <[fd := c]> (inodes fs); next_inode := next_inode fs |}.

(** [File::create]: an existing file keeps its inode and is truncated. *)
Definition fs_create (p : string) (fs : Fs) : Fs * nat :=
  match names fs !! p with
  | Some fd => (set_content fd [] fs, fd)
  | None =>
    ({| names := <[p := next_inode fs]> (names fs); inodes := <[next_inode fs := []]> (inodes fs);
        next_inode := S (next_inode fs) |}, next_inode fs)
  end.

(** A write of [bs] at offset [off], zeros filling a gap. *)
Definition write_at (off : nat) (bs c : content) : content :=
  take off (c ++ replicate (off - length c) 0%Z) ++ bs ++ drop (off + length bs) c.

Definition fs_write (fd off : nat) (bs : content) (fs : Fs) : Fs :=
  set_content fd (write_at off bs (fs_content fs fd)) fs.

Definition set_names (n : gmap string nat) (fs : Fs) : Fs :=
  {| names := n; inodes := inodes fs; next_inode := next_inode fs |}.

(** [fs::rename] moves the name; [None] when the source does not exist. *)
Definition fs_rename (src dst : string) (fs : Fs) : option Fs :=
  match names fs !! src with
  | Some fd => Some (set_names (<[dst := fd]> (delete src (names fs))) fs)
  | None => None
  end.

Definition fs_remove (p : string) (fs : Fs) : Fs := set_names (delete p (names fs)) fs.

(** ** Paths *)

(** [PathBuf::join] of a relative name. *)
Definition join (dir name : string) : string :=
  if bool_decide (dir = "") then name
  else if bool_decide (last (as_bytes dir) = Some 47%Z) then dir +:+ name
  else dir +:+ "/" +:+ name.

Definition entry_stem (k : NvrtcCacheKey) : string :=
  hex 16 (source_hash k) +:+ "-" +:+ pretty (arch k) +:+ "-" +:+ hex 16 (options_hash k).

Definition entry_path (dir : string) (k : NvrtcCacheKey) : string := join dir (entry_stem k +:+ ".bin").

(** [final_path.with_extension("bin.tmp")]: the extension of an entry's file is
    [bin], as its stem holds no dot. *)
Definition tmp_path (dir : string) (k : NvrtcCacheKey) : string := join dir (entry_stem k +:+ ".bin.tmp").

(** [default_cache_dir]: the environment variable, the answer of the crate
    [dirs], the temporary directory. *)
Definition default_cache_dir (xdg cache : option string) (temp : string) : string :=
  let under p := join (join p "atomr-accel") "nvrtc" in
  let rest := match cache with Some c => under c | None => under temp end in
  match xdg with
  | Some p => if bool_decide (p = "") then rest else under p
  | None => rest
  end.

(** ** The cache *)

Record CachedKernel := { ptx : list Z; cubin : option (list Z); atomr_accel_version : string }.

Record NvrtcCache := {
  dir : string;
  memory : gmap NvrtcCacheKey CachedKernel;
  poisoned : bool;   (* the lock of [memory] *)
}.

(** What the operating system answers during one [insert]; [None] is success.
    A failed write leaves a prefix of the bytes in the file. *)
Record Io := {
  create_err : option string;
  write_err : option (nat * string);
  sync_err : option string;
  rename_err : option string;
  remove_ok : bool;
}.

Definition io_ok : Io :=
  {| create_err := None; write_err := None; sync_err := None; rename_err := None; remove_ok := true |}.

Definition with_dir (path : string) (created : result unit string) : result NvrtcCache GpuError :=
  match created with
  | Err e => Err (Unrecoverable ("NvrtcCache: failed to create cache dir " +:+ path +:+ ": " +:+ e))
  | Ok _ => Ok {| dir := path; memory := ∅; poisoned := false |}
  end.

Definition NvrtcCache_new (xdg cache : option string) (temp : string) (created : result unit string) :
    result NvrtcCache GpuError :=
  with_dir (default_cache_dir xdg cache temp) created.

Definition set_memory (m : gmap NvrtcCacheKey CachedKernel) (c : NvrtcCache) : NvrtcCache :=
  {| dir := dir c; memory := m; poisoned := poisoned c |}.

Definition clear_in_memory (c : NvrtcCache) : NvrtcCache :=
  if poisoned c then c else set_memory ∅ c.

(** [guard.insert] under the write lock, skipped when the lock is poisoned. *)
Definition remember (k : NvrtcCacheKey) (v : CachedKernel) (c : NvrtcCache) : NvrtcCache :=
  if poisoned c then c else set_memory (<[k := v]> (memory c)) c.

Section cache.
Context (version : string).
Context (serialize : CachedKernel → result (list Z) string) (deserialize : list Z → option CachedKernel).

Definition CachedKernel_new (ptx : list Z) (cubin : option (list Z)) : CachedKernel :=
  {| ptx := ptx; cubin := cubin; atomr_accel_version := version |}.

Definition memory_hit (k : NvrtcCacheKey) (c : NvrtcCache) : option CachedKernel :=
  if poisoned c then None else memory c !! k.

(** [get]; [readable] is whether the operating system lets the file be read. *)
Definition get (readable : bool) (k : NvrtcCacheKey) (fs : Fs) (c : NvrtcCache) :
    option CachedKernel * NvrtcCache :=
  match memory_hit k c with
  | Some hit => (Some hit, c)
  | None =>
    match (if readable then fs_read fs (entry_path (dir c) k) else None) with
    | None => (None, c)
    | Some bytes =>
      match deserialize bytes with
      | None => (None, c)
      | Some entry =>
        if bool_decide (atomr_accel_version entry = version) then (Some entry, remember k entry c)
        else (None, c)
      end
    end
  end.

Definition io_error (what path e : string) : GpuError :=
  Unrecoverable ("NvrtcCache: " +:+ what +:+ " " +:+ path +:+ ": " +:+ e).

(** The block that writes the temporary file. *)
Definition write_tmp (io : Io) (tmp : string) (bytes : list Z) (fs : Fs) : result unit GpuError * Fs :=
  match create_err io with
  | Some e => (Err (io_error "create" tmp e), fs)
  | None =>
    let '(fs, fd) := fs_create tmp fs in
    match write_err io with
    | Some (n, e) => (Err (io_error "write" tmp e), fs_write fd 0 (take n bytes) fs)
    | None =>
      let fs := fs_write fd 0 bytes fs in
      match sync_err io with
      | Some e => (Err (io_error "fsync" tmp e), fs)
      | None => (Ok tt, fs)
      end
    end
  end.

Definition rename_error (tmp final e : string) : GpuError :=
  Unrecoverable ("NvrtcCache: rename " +:+ tmp +:+ " -> " +:+ final +:+ ": " +:+ e).

(** The rename, and the clean-up when it fails. *)
Definition publish (io : Io) (tmp final : string) (fs : Fs) : result unit GpuError * Fs :=
  match rename_err io, fs_rename tmp final fs with
  | None, Some fs' => (Ok tt, fs')
  | e, _ =>
    (Err (rename_error tmp final (default "No such file or directory" e)),
     if remove_ok io then fs_remove tmp fs else fs)
  end.

Definition insert (io : Io) (k : NvrtcCacheKey) (v : CachedKernel) (fs : Fs) (c : NvrtcCache) :
    result unit GpuError * Fs * NvrtcCache :=
  match serialize v with
  | Err e => (Err (Unrecoverable ("NvrtcCache: bincode serialize: " +:+ e)), fs, c)
  | Ok bytes =>
    let final := entry_path (dir c) k in
    let tmp := tmp_path (dir c) k in
    let '(r, fs) := write_tmp io tmp bytes fs in
    match r with
    | Err e => (Err e, fs, c)
    | Ok _ =>
      let '(r, fs) := publish io tmp final fs in
      match r with
      | Err e => (Err e, fs, c)
      | Ok _ => (Ok tt, fs, remember k v c)
      end
    end
  end.

(** *** Writers in several processes

    A writer runs the file operations of one [insert]; between any two of them
    other writers may run.  One step is one system call, and the write of the
    whole buffer is a loop of writes of any length. *)

Inductive Pc := Start | Writing (fd written : nat) | Renaming | Published | Failed.
Record Writer := { wkey : NvrtcCacheKey; wbytes : list Z; pc : Pc }.

Definition set_pc (p : Pc) (w : Writer) : Writer := {| wkey := wkey w; wbytes := wbytes w; pc := p |}.

Definition wstep (d : string) (chunk : nat) (fs : Fs) (w : Writer) : Fs * Writer :=
  match pc w with
  | Start => let '(fs, fd) := fs_create (tmp_path d (wkey w)) fs in (fs, set_pc (Writing fd 0) w)
  | Writing fd n =>
    if decide (n < length (wbytes w)) then
      let bs := take (S chunk) (drop n (wbytes w)) in
      (fs_write fd n bs fs, set_pc (Writing fd (n + length bs)) w)
    else (fs, set_pc Renaming w)   (* [sync_all] *)
  | Renaming =>
    match fs_rename (tmp_path d (wkey w)) (entry_path d (wkey w)) fs with
    | Some fs' => (fs', set_pc Published w)
    | None => (fs_remove (tmp_path d (wkey w)) fs, set_pc Failed w)
    end
  | Published | Failed => (fs, w)
  end.

Definition sys_step (d : string) (s : Fs * list Writer) (ic : nat * nat) : Fs * list Writer :=
  let '(fs, ws) := s in
  match ws !! ic.1 with
  | None => s
  | Some w => let '(fs, w) := wstep d ic.2 fs w in (fs, <[ic.1 := w]> ws)
  end.

(** A schedule: which writer runs next, and how much a write writes. *)
Definition sys_run (d : string) (s : Fs * list Writer) (sched : list (nat * nat)) : Fs * list Writer :=
  foldl (sys_step d) s sched.
End cache.

(** ** Names *)

Lemma join_inj d a b : join d a = join d b → a = b.
Proof. unfold join. repeat case_bool_decide; [done|..]; by intros ?%string_app_cancel%string_app_cancel || intros ?%string_app_cancel. Qed.

(** The name of an entry can be read back, whatever follows it. *)
Lemma entry_stem_inj k1 k2 s t :
  key_wf k1 → key_wf k2 → entry_stem k1 +:+ s = entry_stem k2 +:+ t → k1 = k2 ∧ s = t.
Proof.
  intros ([??] & [??] & [??]) ([??] & [??] & [??]). unfold entry_stem.
  rewrite <-!string_app_assoc. intros He.
  apply hex_app_inj in He as [Hs He%string_app_cancel]; [|done..].
  apply pretty_app_inj in He as [Ha He%string_app_cancel]; [|done..].
  apply hex_app_inj in He as [Ho ->]; [|done..].
  split; [|done]. destruct k1, k2; simpl in *; by subst.
Qed.

Lemma entry_path_inj d k1 k2 : key_wf k1 → key_wf k2 → entry_path d k1 = entry_path d k2 → k1 = k2.
Proof. intros H1 H2 He%join_inj. by apply entry_stem_inj in He as [-> _]. Qed.

Lemma tmp_path_inj d k1 k2 : key_wf k1 → key_wf k2 → tmp_path d k1 = tmp_path d k2 → k1 = k2.
Proof. intros H1 H2 He%join_inj. by apply entry_stem_inj in He as [-> _]. Qed.

Lemma entry_path_tmp d k1 k2 : key_wf k1 → key_wf k2 → entry_path d k1 ≠ tmp_path d k2.
Proof. intros H1 H2 He%join_inj. by apply entry_stem_inj in He as [_ He]. Qed.

(** ** The file system: what an operation changes *)

(** No two names share an inode, and fresh inodes are fresh. *)
Record fs_wf (fs : Fs) : Prop := {
  fs_links : ∀ p q fd, names fs !! p = Some fd → names fs !! q = Some fd → p = q;
  fs_fresh : ∀ p fd, names fs !! p = Some fd → fd < next_inode fs;
}.

(** A name's inode and content. *)
Definition fs_view (fs : Fs) (p : string) : option (nat * content) :=
  (λ fd, (fd, fs_content fs fd)) <$> names fs !! p.

Lemma fs_read_view fs p : fs_read fs p = snd <$> fs_view fs p.
Proof. unfold fs_read, fs_view. by destruct (names fs !! p). Qed.

(** [fs'] differs from [fs] at the names in [ps] only. *)
Definition fs_frame (ps : list string) (fs fs' : Fs) : Prop :=
  ∀ q, q ∉ ps → fs_view fs' q = fs_view fs q.

Lemma fs_frame_refl ps fs : fs_frame ps fs fs.
Proof. done. Qed.

Lemma fs_frame_trans ps fs1 fs2 fs3 : fs_frame ps fs1 fs2 → fs_frame ps fs2 fs3 → fs_frame ps fs1 fs3.
Proof. intros H1 H2 q Hq. by rewrite H2, H1. Qed.

Lemma fs_frame_mono ps qs fs fs' : ps ⊆ qs → fs_frame ps fs fs' → fs_frame qs fs fs'.
Proof. intros Hs H q Hq. apply H. set_solver. Qed.

Lemma fs_view_name fs p fd : names fs !! p = Some fd → fs_view fs p = Some (fd, fs_content fs fd).
Proof. unfold fs_view. by intros ->. Qed.

(** Writing one inode changes what one name holds. *)
Lemma set_content_spec p fd c fs :
  fs_wf fs → names fs !! p = Some fd →
  fs_wf (set_content fd c fs) ∧ fs_view (set_content fd c fs) p = Some (fd, c) ∧
  fs_frame [p] fs (set_content fd c fs).
Proof.
  intros [Hl Hf] Hp. split_and!; [done| |].
  - rewrite (fs_view_name (set_content fd c fs) p fd Hp). unfold fs_content. simpl. by rewrite lookup_insert_eq.
  - intros q Hq. unfold fs_view. simpl. destruct (names fs !! q) as [fd'|] eqn:Hq'; [|done].
    unfold fs_content. simpl. rewrite lookup_insert_ne; [done|]. intros ->. apply Hq. rewrite (Hl q p fd'); set_solver.
Qed.

Lemma fs_create_spec p fs :
  fs_wf fs →
  let '(fs', fd) := fs_create p fs in fs_wf fs' ∧ fs_view fs' p = Some (fd, []) ∧ fs_frame [p] fs fs'.
Proof.
  intros Hwf. unfold fs_create. destruct (names fs !! p) as [fd|] eqn:Hp; [by apply set_content_spec|].
  destruct Hwf as [Hl Hf].
  assert (Hnew : ∀ q, names fs !! q ≠ Some (next_inode fs)) by (intros q Hq%Hf; lia).
  split_and!.
  - split; simpl; intros *; rewrite ?lookup_insert; repeat case_decide; simplify_eq/=; eauto; try naive_solver.
  - rewrite (fs_view_name _ p (next_inode fs)) by (simpl; by rewrite lookup_insert_eq).
    unfold fs_content. simpl. by rewrite lookup_insert_eq.
  - intros q Hq. unfold fs_view. simpl. rewrite lookup_insert_ne by set_solver.
    destruct (names fs !! q) as [fd'|] eqn:Hq'; [|done].
    unfold fs_content. simpl. rewrite lookup_insert_ne; [done|]. intros <-. by eapply Hnew.
Qed.

Lemma fs_view_Some fs p fd c : fs_view fs p = Some (fd, c) → names fs !! p = Some fd ∧ fs_content fs fd = c.
Proof. unfold fs_view. intros (fd' & ? & ?)%fmap_Some; by simplify_eq/=. Qed.

Lemma fs_write_spec p fd c off bs fs :
  fs_wf fs → fs_view fs p = Some (fd, c) →
  fs_wf (fs_write fd off bs fs) ∧ fs_view (fs_write fd off bs fs) p = Some (fd, write_at off bs c) ∧
  fs_frame [p] fs (fs_write fd off bs fs).
Proof. intros Hwf [Hp <-]%fs_view_Some. by apply set_content_spec. Qed.

Lemma fs_rename_spec src dst x fs :
  fs_wf fs → src ≠ dst → fs_view fs src = Some x →
  ∃ fs', fs_rename src dst fs = Some fs' ∧ fs_wf fs' ∧ fs_view fs' dst = Some x ∧ fs_view fs' src = None ∧
    fs_frame [src; dst] fs fs'.
Proof.
  intros [Hl Hf] Hne. destruct x as [fd c]. intros [Hp Hc]%fs_view_Some. unfold fs_rename. rewrite Hp.
  assert (Hsrc : ∀ q, q ≠ src → names fs !! q ≠ Some fd) by (intros q Hq Hfd; eauto).
  eexists. split_and!; [done|..].
  - split; simpl; intros *; rewrite ?lookup_insert, ?lookup_delete;
      repeat case_decide; simplify_eq/=; eauto; naive_solver.
  - rewrite (fs_view_name _ dst fd) by (simpl; by rewrite lookup_insert_eq). by rewrite <-Hc.
  - unfold fs_view. simpl. by rewrite lookup_insert_ne, lookup_delete_eq.
  - intros q Hq. unfold fs_view. simpl. by rewrite lookup_insert_ne, lookup_delete_ne by set_solver.
Qed.

Lemma fs_remove_spec p fs : fs_wf fs → fs_wf (fs_remove p fs) ∧ fs_frame [p] fs (fs_remove p fs).
Proof.
  intros [Hl Hf]. split.
  - split; simpl.
    + intros q r fd [_ Hq]%lookup_delete_Some [_ Hr]%lookup_delete_Some. by eapply Hl.
    + intros q fd [_ Hq]%lookup_delete_Some. by eapply Hf.
  - intros q Hq. unfold fs_view. simpl. by rewrite lookup_delete_ne by set_solver.
Qed.

Lemma write_at_end bs1 bs2 : write_at (length bs1) bs2 bs1 = bs1 ++ bs2.
Proof.
  unfold write_at. rewrite Nat.sub_diag. simpl. rewrite app_nil_r, firstn_all.
  rewrite drop_ge by lia. by rewrite app_nil_r.
Qed.

Lemma write_at_start bs : write_at 0 bs [] = bs.
Proof. apply (write_at_end []). Qed.

(** ** [insert] and [get] *)

Lemma write_tmp_spec io tmp bytes fs r fs' :
  fs_wf fs → write_tmp io tmp bytes fs = (r, fs') →
  fs_wf fs' ∧ fs_frame [tmp] fs fs' ∧
  match r with
  | Ok _ => ∃ fd, fs_view fs' tmp = Some (fd, bytes)
  | Err e => ∃ m, e = Unrecoverable m
  end.
Proof.
  intros Hwf. unfold write_tmp. destruct (create_err io); [intros [= <- <-]; eauto using fs_frame_refl|].
  pose proof (fs_create_spec tmp fs Hwf) as Hc. destruct (fs_create tmp fs) as [fs1 fd].
  destruct Hc as (Hwf1 & Hv1 & Hf1).
  assert (Hw : ∀ bs, fs_wf (fs_write fd 0 bs fs1) ∧ fs_view (fs_write fd 0 bs fs1) tmp = Some (fd, bs) ∧
    fs_frame [tmp] fs (fs_write fd 0 bs fs1)).
  { intros bs. destruct (fs_write_spec tmp fd [] 0 bs fs1 Hwf1 Hv1) as (? & Hv & ?).
    rewrite write_at_start in Hv. eauto using fs_frame_trans. }
  destruct (write_err io) as [[n e]|]; [|destruct (sync_err io)]; intros [= <- <-];
    edestruct Hw as (? & ? & ?); split_and!; eauto.
  all: by eexists.
Qed.

Lemma publish_spec io tmp final x fs r fs' :
  fs_wf fs → tmp ≠ final → fs_view fs tmp = Some x → publish io tmp final fs = (r, fs') →
  fs_wf fs' ∧
  match r with
  | Ok _ => fs_view fs' final = Some x ∧ fs_frame [tmp; final] fs fs'
  | Err e => fs_frame [tmp] fs fs' ∧ ∃ m, e = Unrecoverable m
  end.
Proof.
  intros Hwf Hne Hv. unfold publish.
  destruct (fs_rename_spec tmp final x fs Hwf Hne Hv) as (fs1 & -> & Hwf1 & Hv1 & _ & Hf1).
  destruct (fs_remove_spec tmp fs Hwf). destruct (rename_err io); intros [= <- <-]; [|by split_and!].
  destruct (remove_ok io); split_and!; eauto using fs_frame_refl. all: by eexists.
Qed.

Section theorems.
Context (version : string).
Context (serialize : CachedKernel → result (list Z) string) (deserialize : list Z → option CachedKernel).

(** What one [insert] does, with any failures of the operating system. *)
Lemma insert_spec io k v fs c r fs' c' :
  key_wf k → fs_wf fs → insert serialize io k v fs c = (r, fs', c') →
  fs_wf fs' ∧
  match r with
  | Ok _ => ∃ fd b, serialize v = Ok b ∧ fs_view fs' (entry_path (dir c) k) = Some (fd, b) ∧
      fs_frame [tmp_path (dir c) k; entry_path (dir c) k] fs fs' ∧ c' = remember k v c
  | Err e => fs_frame [tmp_path (dir c) k] fs fs' ∧ c' = c ∧ ∃ m, e = Unrecoverable m
  end.
Proof.
  intros Hk Hwf. unfold insert. destruct (serialize v) as [b|e];
    [|intros [= <- <- <-]; split_and!; eauto using fs_frame_refl].
  destruct (write_tmp _ _ _ _) as [r1 fs1] eqn:Hw. apply write_tmp_spec in Hw as (Hwf1 & Hf1 & Hr1); [|done].
  destruct r1 as [[]|e]; [|intros [= <- <- <-]; eauto].
  destruct Hr1 as [fd Hv1]. destruct (publish _ _ _ _) as [r2 fs2] eqn:Hp.
  eapply publish_spec in Hp as [Hwf2 Hr2]; [|done|by apply not_eq_sym, entry_path_tmp|done].
  destruct r2 as [[]|e]; intros [= <- <- <-]; (split; [done|]).
  - destruct Hr2 as [Hv2 Hf2]. exists fd, b. split_and!; [done..| |done].
    eapply fs_frame_trans; [|exact Hf2]. eapply fs_frame_mono; [|exact Hf1]. set_solver.
  - destruct Hr2 as [Hf2 Hm]. split_and!; [|done..]. by eapply fs_frame_trans.
Qed.

(** A lookup depends on the memory map and on the entry's own file only. *)
Lemma get_frame ps b k fs fs' c c' :
  fs_frame ps fs fs' → entry_path (dir c) k ∉ ps → dir c' = dir c →
  memory_hit k c' = memory_hit k c →
  (get version deserialize b k fs' c').1 = (get version deserialize b k fs c).1.
Proof.
  intros Hf Hps Hd Hm. unfold get. rewrite Hm, Hd, !fs_read_view, Hf by done.
  destruct (memory_hit k c); [done|]. repeat (case_match; simplify_eq/=); done.
Qed.

Lemma remember_hit k k2 v c :
  k2 ≠ k → memory_hit k2 (remember k v c) = memory_hit k2 c.
Proof.
  intros Hne. unfold memory_hit, remember. destruct (poisoned c) eqn:Hp; simpl; rewrite Hp; [done|].
  by rewrite lookup_insert_ne.
Qed.

(** A failed insertion changes no entry: whatever fails while a kernel is stored,
    the error is [Unrecoverable], the memory map is as before, and every lookup
    of every key, this one included, answers what it answered before: the only
    name that may have changed is the temporary file of this key. *)
Theorem nvrtc_insert_fails_cleanly (io : Io) k v fs c e fs' c' :
  key_wf k → fs_wf fs → insert serialize io k v fs c = (Err e, fs', c') →
  (∃ m, e = Unrecoverable m) ∧ c' = c ∧ fs_wf fs' ∧ fs_frame [tmp_path (dir c) k] fs fs' ∧
  ∀ b k2, key_wf k2 → get version deserialize b k2 fs' c' = get version deserialize b k2 fs c.
Proof.
  intros Hk Hwf Hi. destruct (insert_spec io k v fs c _ _ _ Hk Hwf Hi) as (Hwf' & Hf & -> & Hm).
  split_and!; [done..|]. intros b k2 Hk2. unfold get. rewrite !fs_read_view, Hf; [done|].
  apply not_elem_of_cons. split; [by apply entry_path_tmp|set_solver].
Qed.

(** The contract of [bincode]. *)
Class BincodeLaw : Prop :=
  bincode_roundtrip : ∀ v b, serialize v = Ok b → deserialize b = Some v.

(** C18 (a stored kernel is found again, and only it): after a successful [insert] the key
    is answered from memory; a process that does not have it in memory (another
    process, a restart, or after [clear_in_memory]) reads it from disk, provided
    it carries the version of the running crate, and rejects it otherwise; and
    every other key is answered as before, as no two keys share a file. *)
Theorem nvrtc_roundtrip `{!BincodeLaw} (io : Io) k v fs c fs' c' :
  key_wf k → fs_wf fs → poisoned c = false → insert serialize io k v fs c = (Ok tt, fs', c') →
  (∀ b, get version deserialize b k fs' c' = (Some v, c')) ∧
  (∀ c2, dir c2 = dir c → memory_hit k c2 = None →
    (get version deserialize true k fs' c2).1 =
      if bool_decide (atomr_accel_version v = version) then Some v else None) ∧
  memory_hit k (clear_in_memory c') = None ∧ dir (clear_in_memory c') = dir c ∧
  (∀ b k2, key_wf k2 → k2 ≠ k →
    (get version deserialize b k2 fs' c').1 = (get version deserialize b k2 fs c).1).
Proof.
  intros Hk Hwf Hp Hi. destruct (insert_spec io k v fs c _ _ _ Hk Hwf Hi) as (Hwf' & fd & b & Hs & Hv & Hf & ->).
  split_and!.
  - intros b'. unfold get, memory_hit, remember. rewrite Hp. simpl. rewrite Hp. by rewrite lookup_insert_eq.
  - intros c2 Hd Hm. unfold get. rewrite Hm, Hd, fs_read_view, Hv. simpl.
    rewrite (bincode_roundtrip v b Hs). by case_bool_decide.
  - unfold memory_hit, clear_in_memory, remember. rewrite Hp. simpl. rewrite Hp. simpl. rewrite Hp. apply lookup_empty.
  - unfold clear_in_memory, remember. rewrite Hp. simpl. by rewrite Hp.
  - intros b' k2 Hk2 Hne. eapply get_frame; [done| | |by apply remember_hit].
    + apply not_elem_of_cons. split; [by apply entry_path_tmp|]. apply not_elem_of_cons.
      split; [|set_solver]. by intros ?%entry_path_inj.
    + unfold remember. by rewrite Hp.
Qed.
End theorems.

(** ** Concurrent writers *)

Definition writer_id (w : Writer) : NvrtcCacheKey * list Z := (wkey w, wbytes w).

(** What a writer of [fs0] can rely on while it is the only one of its key. *)
Definition writer_inv (d : string) (fs0 fs : Fs) (w : Writer) : Prop :=
  let untouched := fs_read fs (entry_path d (wkey w)) = fs_read fs0 (entry_path d (wkey w)) in
  match pc w with
  | Start => untouched
  | Writing fd n =>
    n ≤ length (wbytes w) ∧ fs_view fs (tmp_path d (wkey w)) = Some (fd, take n (wbytes w)) ∧ untouched
  | Renaming => (∃ fd, fs_view fs (tmp_path d (wkey w)) = Some (fd, wbytes w)) ∧ untouched
  | Published => fs_read fs (entry_path d (wkey w)) = Some (wbytes w)
  | Failed => False
  end.

(** How many turns a writer needs at most. *)
Definition turns_left (w : Writer) : nat :=
  match pc w with
  | Start => length (wbytes w) + 3
  | Writing _ n => length (wbytes w) - n + 2
  | Renaming => 1
  | Published | Failed => 0
  end.

Definition paths_of (d : string) (k : NvrtcCacheKey) : list string := [tmp_path d k; entry_path d k].

Lemma fs_frame_read ps fs fs' p : fs_frame ps fs fs' → p ∉ ps → fs_read fs' p = fs_read fs p.
Proof. intros Hf Hp. by rewrite !fs_read_view, Hf. Qed.

Lemma entry_other d k k' : key_wf k → key_wf k' → k ≠ k' → entry_path d k ∉ paths_of d k'.
Proof.
  intros Hk Hk' Hne. apply not_elem_of_cons. split; [by apply entry_path_tmp|].
  apply not_elem_of_cons. split; [by intros ?%entry_path_inj|set_solver].
Qed.

Lemma tmp_other d k k' : key_wf k → key_wf k' → k ≠ k' → tmp_path d k ∉ paths_of d k'.
Proof.
  intros Hk Hk' Hne. apply not_elem_of_cons. split; [by intros ?%tmp_path_inj|].
  apply not_elem_of_cons. split; [by apply not_eq_sym, entry_path_tmp|set_solver].
Qed.

Lemma writer_inv_frame d fs0 fs fs' w k :
  key_wf k → key_wf (wkey w) → wkey w ≠ k → fs_frame (paths_of d k) fs fs' →
  writer_inv d fs0 fs w → writer_inv d fs0 fs' w.
Proof.
  intros Hk Hw Hne Hf. unfold writer_inv.
  rewrite (fs_frame_read _ _ _ _ Hf (entry_other d _ _ Hw Hk Hne)).
  by rewrite (Hf _ (tmp_other d _ _ Hw Hk Hne)).
Qed.

Lemma wstep_spec d n fs0 fs w :
  fs_wf fs → key_wf (wkey w) → writer_inv d fs0 fs w →
  let '(fs', w') := wstep d n fs w in
  fs_wf fs' ∧ writer_inv d fs0 fs' w' ∧ writer_id w' = writer_id w ∧
  fs_frame (paths_of d (wkey w)) fs fs' ∧ turns_left w' ≤ turns_left w - 1.
Proof.
  intros Hwf Hk. unfold writer_inv, wstep, turns_left.
  assert (Ht : entry_path d (wkey w) ∉ [tmp_path d (wkey w)]).
  { apply not_elem_of_cons. split; [by apply entry_path_tmp|set_solver]. }
  destruct (pc w) as [|fd m| | |] eqn:Hpc; [| | | |done].
  - intros He. pose proof (fs_create_spec (tmp_path d (wkey w)) fs Hwf) as Hc.
    destruct (fs_create _ fs) as [fs1 fd]. destruct Hc as (Hwf1 & Hv1 & Hf1). simpl.
    split_and!; [done|lia|done|by rewrite (fs_frame_read _ _ _ _ Hf1 Ht)|done| |lia].
    eapply fs_frame_mono, Hf1. set_solver.
  - intros (Hm & Hv & He). destruct (decide (m < length (wbytes w))) as [Hlt|Hge]; simpl.
    + destruct (fs_write_spec _ _ _ m (take (S n) (drop m (wbytes w))) fs Hwf Hv) as (Hwf1 & Hv1 & Hf1).
      assert (Hmt : m = length (take m (wbytes w))) by (rewrite length_take; lia).
      pose proof (write_at_end (take m (wbytes w)) (take (S n) (drop m (wbytes w)))) as Hw.
      rewrite <-Hmt in Hw. rewrite Hw in Hv1.
      assert (Hlen : 1 ≤ length (take (S n) (drop m (wbytes w))) ≤ length (wbytes w) - m).
      { rewrite length_take, length_drop. lia. }
      split_and!; [done| | |by rewrite (fs_frame_read _ _ _ _ Hf1 Ht)|done| |]; try lia.
      * rewrite Hv1. f_equal. f_equal. rewrite <-take_take_drop. f_equal.
        rewrite length_take, length_drop.
        destruct (Nat.le_gt_cases (S n) (length (wbytes w) - m)); [rewrite Nat.min_l by lia; done|].
        rewrite Nat.min_r by lia. rewrite !take_ge by (rewrite ?length_drop; lia). done.
      * eapply fs_frame_mono, Hf1. set_solver.
    + assert (m = length (wbytes w)) as -> by lia. rewrite firstn_all in Hv.
      split_and!; eauto using fs_frame_refl. lia.
  - intros [[fd Hv] He].
    destruct (fs_rename_spec _ (entry_path d (wkey w)) _ fs Hwf (not_eq_sym (entry_path_tmp d _ _ Hk Hk)) Hv)
      as (fs1 & -> & Hwf1 & Hv1 & _ & Hf1).
    simpl. split_and!; [done| |done|done|lia]. by rewrite fs_read_view, Hv1.
  - intros He. rewrite Hpc. split_and!; eauto using fs_frame_refl with lia.
Qed.

(** The turns a schedule gives to writer [i]. *)
Definition turns (i : nat) (sched : list (nat * nat)) : nat := length (filter (λ ic, ic.1 = i) sched).

Definition sys_inv (d : string) (fs0 : Fs) (ids : list (NvrtcCacheKey * list Z)) (s : Fs * list Writer) : Prop :=
  fs_wf s.1 ∧ writer_id <$> s.2 = ids ∧ (∀ i w, s.2 !! i = Some w → writer_inv d fs0 s.1 w) ∧
  fs_frame (ids.*1 ≫= paths_of d) fs0 s.1.

Lemma writer_at d fs0 ids s i w :
  sys_inv d fs0 ids s → s.2 !! i = Some w → ids !! i = Some (writer_id w).
Proof. intros (_ & <- & _) Hw. by rewrite list_lookup_fmap, Hw. Qed.

Lemma sys_step_spec d fs0 ids s ic :
  NoDup ids.*1 → Forall key_wf ids.*1 → sys_inv d fs0 ids s →
  sys_inv d fs0 ids (sys_step d s ic) ∧
  ∀ i w, s.2 !! i = Some w → ∃ w', (sys_step d s ic).2 !! i = Some w' ∧
    turns_left w' ≤ turns_left w - turns i [ic].
Proof.
  intros Hd Hk Hs. destruct s as [fs ws], ic as [j n].
  destruct (ws !! j) as [w|] eqn:Hj; unfold sys_step, turns; simpl; rewrite Hj.
  2:{ split; [done|]. intros i w Hi. exists w. split; [done|].
      rewrite filter_cons, decide_False by naive_solver. simpl. lia. }
  pose proof (writer_at _ _ _ _ j w Hs Hj) as Hid. pose proof Hs as (Hwf & Hids & Hinv & Hf). simpl in *.
  assert (Hkeys : ∀ i v, ws !! i = Some v → ids.*1 !! i = Some (wkey v)).
  { intros i v Hv. by rewrite list_lookup_fmap, <-Hids, list_lookup_fmap, Hv. }
  assert (Hkw : ∀ i v, ws !! i = Some v → key_wf (wkey v)).
  { intros i v Hv. eapply Forall_lookup_1; [exact Hk|by eapply Hkeys]. }
  pose proof (wstep_spec d n fs0 fs w Hwf (Hkw _ _ Hj) (Hinv _ _ Hj)) as Hw.
  destruct (wstep d n fs w) as [fs' w']. destruct Hw as (Hwf' & Hinv' & Hid' & Hf' & Ht).
  simpl. split; [split_and!; simpl|].
  - done.
  - rewrite list_fmap_insert, Hid', <-Hids. apply list_insert_id. by rewrite list_lookup_fmap, Hj.
  - intros i v. destruct (decide (i = j)) as [->|Hne].
    + rewrite list_lookup_insert_eq by (by eapply lookup_lt_Some). by intros [= <-].
    + rewrite list_lookup_insert_ne by done. intros Hv.
      eapply writer_inv_frame; [by eapply Hkw, Hj|by eapply Hkw| |exact Hf'|by eapply Hinv].
      intros He. apply Hne. eapply NoDup_lookup; [exact Hd|by apply Hkeys|]. rewrite He. by apply Hkeys.
  - eapply fs_frame_trans; [exact Hf|]. eapply fs_frame_mono; [|exact Hf'].
    intros p Hp. apply list_elem_of_bind. exists (wkey w). split; [done|].
    by eapply list_elem_of_lookup_2, Hkeys.
  - intros i v Hv. rewrite filter_cons. simpl. destruct (decide (i = j)) as [->|Hne].
    + rewrite decide_True by done. exists w'. simplify_eq.
      split; [by rewrite list_lookup_insert_eq by (by eapply lookup_lt_Some)|done].
    + rewrite decide_False by done. exists v. split; [by rewrite list_lookup_insert_ne|simpl; lia].
Qed.

Lemma sys_run_spec d fs0 ids s sched :
  NoDup ids.*1 → Forall key_wf ids.*1 → sys_inv d fs0 ids s →
  sys_inv d fs0 ids (sys_run d s sched) ∧
  ∀ i w, s.2 !! i = Some w → ∃ w', (sys_run d s sched).2 !! i = Some w' ∧
    turns_left w' ≤ turns_left w - turns i sched.
Proof.
  intros Hd Hk. revert s. induction sched as [|ic sched IH]; intros s Hs.
  - split; [done|]. intros i w Hw. exists w. split; [done|]. unfold turns. simpl. lia.
  - destruct (sys_step_spec d fs0 ids s ic Hd Hk Hs) as [Hs1 Ht1].
    destruct (IH _ Hs1) as [Hs2 Ht2]. split; [exact Hs2|]. intros i w Hw.
    destruct (Ht1 i w Hw) as (w1 & Hw1 & Hle1). destruct (Ht2 i w1 Hw1) as (w2 & Hw2 & Hle2).
    exists w2. split; [exact Hw2|]. unfold turns in *. rewrite filter_cons in *. simpl in *.
    destruct (decide (ic.1 = i)); simpl in *; lia.
Qed.

(** Writers of different keys publish atomically: any number of processes store
    kernels under pairwise different keys of one directory, their system calls
    interleaved in any order and their writes split at any point.  At every
    moment a reader of a key finds what was there before, or, once its writer
    has renamed its file, all of the writer's bytes: never a part of them.  No
    writer fails, and one that gets enough turns publishes. *)
Theorem nvrtc_atomic_publish (d : string) (fs0 : Fs) (ids : list (NvrtcCacheKey * list Z)) sched :
  fs_wf fs0 → NoDup ids.*1 → Forall key_wf ids.*1 →
  let start := (λ id, {| wkey := id.1; wbytes := id.2; pc := Start |}) <$> ids in
  let '(fs, ws) := sys_run d (fs0, start) sched in
  (∀ k, key_wf k → k ∉ ids.*1 → fs_read fs (entry_path d k) = fs_read fs0 (entry_path d k)) ∧
  (∀ i k b, ids !! i = Some (k, b) → ∃ w, ws !! i = Some w ∧ writer_id w = (k, b) ∧ pc w ≠ Failed ∧
    (pc w = Published → fs_read fs (entry_path d k) = Some b) ∧
    (pc w ≠ Published → fs_read fs (entry_path d k) = fs_read fs0 (entry_path d k)) ∧
    (length b + 3 ≤ turns i sched → pc w = Published)).
Proof.
  intros Hwf Hd Hk start.
  assert (H0 : sys_inv d fs0 ids (fs0, start)).
  { split_and!; simpl; [done| | |done].
    - unfold start. rewrite <-list_fmap_compose. etrans; [|apply list_fmap_id].
      apply list_fmap_ext. by intros ? [] _.
    - intros i w. unfold start. rewrite list_lookup_fmap. intros (? & ? & ->)%fmap_Some. done. }
  destruct (sys_run_spec d fs0 ids _ sched Hd Hk H0) as [Hs Ht].
  destruct (sys_run d (fs0, start) sched) as [fs ws]. pose proof Hs as (Hwf' & Hids & Hinv & Hf). simpl in *.
  split.
  - intros k Hkk Hn. eapply fs_frame_read; [exact Hf|]. intros (k' & Hp & Hin)%list_elem_of_bind.
    assert (k ≠ k') by (by intros ->). revert Hp. apply entry_other; [done| |done].
    by eapply Forall_forall in Hk.
  - intros i k b Hi.
    destruct (Ht i {| wkey := k; wbytes := b; pc := Start |}) as (w & Hw & Hle).
    { unfold start. by rewrite list_lookup_fmap, Hi. }
    exists w. pose proof (writer_at _ _ _ _ i w Hs Hw) as Hid. rewrite Hi in Hid.
    assert (Hk' : wkey w = k ∧ wbytes w = b) by (unfold writer_id in Hid; naive_solver). destruct Hk' as [<- <-].
    pose proof (Hinv i w Hw) as Hw'. unfold writer_inv, turns_left in *. simpl in *.
    split_and!; [done|done|..]; destruct (pc w); simpl; naive_solver lia.
Qed.

Lemma sys_step_one d fs w n : sys_step d (fs, [w]) (0, n) = let '(fs', w') := wstep d n fs w in (fs', [w']).
Proof. done. Qed.

Lemma wstep_writing d fs k b fd :
  inodes fs !! fd = Some [] →
  wstep d (length b) fs {| wkey := k; wbytes := b; pc := Writing fd 0 |} =
    if decide (0 < length b) then
      (fs_write fd 0 b fs, {| wkey := k; wbytes := b; pc := Writing fd (length b) |})
    else (fs_write fd 0 b fs, {| wkey := k; wbytes := b; pc := Renaming |}).
Proof.
  intros Hfd. unfold wstep, set_pc. cbn [pc wbytes wkey]. rewrite drop_0, take_ge by lia.
  destruct (decide (0 < length b)) as [|Hb]; [done|]. f_equal.
  destruct b; [|simpl in Hb; lia]. unfold fs_write, set_content, fs_content. rewrite Hfd. simpl.
  rewrite insert_id by done. by destruct fs.
Qed.

(** A single writer's steps are [insert]. *)
Lemma insert_is_schedule serialize k v b fs c :
  serialize v = Ok b →
  let '(r, fs1, _) := insert serialize io_ok k v fs c in
  sys_run (dir c) (fs, [{| wkey := k; wbytes := b; pc := Start |}]) [(0, 0); (0, length b); (0, 0); (0, 0)]
  = (fs1, [{| wkey := k; wbytes := b; pc := if is_ok r then Published else Failed |}]).
Proof.
  intros Hs. unfold insert. rewrite Hs. unfold write_tmp, publish, sys_run. cbn [foldl create_err io_ok].
  rewrite sys_step_one. unfold wstep at 1. cbn [pc wkey].
  destruct (fs_create (tmp_path (dir c) k) fs) as [fs1 fd] eqn:Hc.
  assert (Hfd : inodes fs1 !! fd = Some []).
  { unfold fs_create in Hc. destruct (names fs !! _); injection Hc as <- <-; simpl; by rewrite lookup_insert_eq. }
  unfold set_pc. cbn [wkey wbytes pc write_err sync_err rename_err remove_ok io_ok].
  rewrite sys_step_one, wstep_writing by done. destruct (decide (0 < length b)).
  - rewrite sys_step_one. unfold wstep at 1. cbn [pc wbytes]. rewrite decide_False by lia.
    rewrite sys_step_one. cbn. by destruct (fs_rename _ _ _).
  - rewrite sys_step_one. unfold wstep at 1. cbn. by destruct (fs_rename _ _ _).
Qed.

(** ** Two writers of the same key

    They share the temporary file.  The second [File::create] truncates what the
    first has written, the first one's rename publishes it, and the second one's
    rename fails. *)

Definition race_key : NvrtcCacheKey := {| source_hash := 1; arch := 80; options_hash := 2 |}.
Definition race_fs : Fs := {| names := ∅; inodes := ∅; next_inode := 0 |}.
Definition race_writers : list Writer :=
  replicate 2 {| wkey := race_key; wbytes := [1; 2; 3; 4]%Z; pc := Start |}.
Definition race_prefix : list (nat * nat) :=
  [(0, 0); (0, 3); (0, 0);   (* the first writer has written and synced *)
   (1, 0); (1, 1);           (* the second creates and writes two bytes *)
   (0, 0)].                  (* the first renames *)

Example race_publishes_a_part :
  fs_read (sys_run "/c" (race_fs, race_writers) race_prefix).1 (entry_path "/c" race_key) = Some [1; 2]%Z.
Proof. run. Qed.

Example race_loser_fails :
  pc <$> (sys_run "/c" (race_fs, race_writers) (race_prefix ++ [(1, 3); (1, 0); (1, 0)])).2 =
    [Published; Failed].
Proof. run. Qed.

(** ** The hashes *)

(** The bytes [hash_options] feeds to the hasher. *)
Definition option_frame (opt : string) : list Z :=
  le_bytes 8 (Z.of_nat (String.length opt)) ++ as_bytes opt ++ [0xff%Z].

Lemma as_bytes_length s : length (as_bytes s) = String.length s.
Proof. induction s as [|c s IH]; [done|]. cbn. by rewrite IH. Qed.

Lemma fnv_write_app h a b : fnv_write h (a ++ b) = fnv_write (fnv_write h a) b.
Proof. apply foldl_app. Qed.

Lemma hash_options_frames opts :
  hash_options opts = fnv_write FNV_OFFSET_BASIS_64 (opts ≫= option_frame).
Proof.
  unfold hash_options. generalize FNV_OFFSET_BASIS_64. induction opts as [|o opts IH]; intros h; [done|].
  cbn. rewrite IH. unfold option_frame. by rewrite <-as_bytes_length, !fnv_write_app.
Qed.

#[global] Instance option_frame_code : Code (λ o, in_width 64 (Z.of_nat (String.length o))) option_frame.
Proof.
  intros x y s t Hx Hy. unfold option_frame. rewrite <-!app_assoc. intros He.
  apply (le_bytes_code 8) in He as [Hl He]; [|done..].
  apply app_inj_1 in He as [He Ht]; [|rewrite !as_bytes_length; lia].
  split; [by apply (inj as_bytes)|by injection Ht].
Qed.

Lemma option_frames_inj os1 os2 :
  Forall (λ o, in_width 64 (Z.of_nat (String.length o))) os1 →
  Forall (λ o, in_width 64 (Z.of_nat (String.length o))) os2 →
  os1 ≫= option_frame = os2 ≫= option_frame → os1 = os2.
Proof.
  intros H1. revert os2. induction H1 as [|o os1 Ho H1 IH]; intros [|o2 os2] H2; cbn.
  - done.
  - intros He. discriminate He.
  - intros He. discriminate He.
  - apply Forall_cons in H2 as [Ho2 H2]. intros He. apply option_frame_code in He as [-> He]; [|done..]. f_equal. by apply IH.
Qed.

(** *** One round of FNV-1a is a bijection *)

Lemma lxor_in_width w x y : in_width w x → in_width w y → in_width w (Z.lxor x y).
Proof.
  intros [Hx Hx'] [Hy Hy']. assert (0 ≤ Z.lxor x y)%Z by (by apply Z.lxor_nonneg). split; [done|].
  destruct (Z.eq_dec (Z.lxor x y) 0%Z) as [->|Hne]; [lia|].
  assert (Hl : ∀ z, (0 ≤ z < 2 ^ w)%Z → z ≠ 0%Z → (Z.log2 z < w)%Z) by (intros z Hz Hz0; apply Z.log2_lt_pow2; lia).
  apply Z.log2_lt_pow2; [lia|]. pose proof (Z.log2_lxor x y Hx Hy).
  destruct (Z.eq_dec x 0%Z) as [->|]; [rewrite Z.lxor_0_l in *; apply Hl; lia|].
  destruct (Z.eq_dec y 0%Z) as [->|]; [rewrite Z.lxor_0_r in *; apply Hl; lia|].
  pose proof (Hl x). pose proof (Hl y). lia.
Qed.

Lemma lxor_cancel_l h x y : Z.lxor h x = Z.lxor h y → x = y.
Proof.
  intros He. apply (f_equal (Z.lxor h)) in He.
  by rewrite <-!Z.lxor_assoc, !Z.lxor_nilpotent, !Z.lxor_0_l in He.
Qed.

Definition FNV_PRIME_INVERSE : Z := 14886173955864302971.

(** The prime is odd, so multiplying by it modulo [2 ^ 64] can be undone. *)
Lemma wmul_prime_inj x y :
  in_width 64 x → in_width 64 y → wmul 64 x FNV_PRIME_64 = wmul 64 y FNV_PRIME_64 → x = y.
Proof.
  intros Hx Hy He. assert (Hi : ∀ z, in_width 64 z → wmul 64 (wmul 64 z FNV_PRIME_64) FNV_PRIME_INVERSE = z).
  { intros z Hz. unfold wmul, wrap. rewrite Zmult_mod_idemp_l, <-Z.mul_assoc, <-Zmult_mod_idemp_r.
    change (FNV_PRIME_64 * FNV_PRIME_INVERSE mod 2 ^ 64)%Z with 1%Z. rewrite Z.mul_1_r. by apply wrap_small. }
  by rewrite <-(Hi x Hx), He, (Hi y Hy).
Qed.

Definition byte_wf (b : Z) : Prop := (0 ≤ b < 256)%Z.

Lemma byte_in_width b : byte_wf b → in_width 64 b.
Proof. unfold byte_wf, in_width. lia. Qed.

Lemma fnv_write_width h bs : in_width 64 h → in_width 64 (fnv_write h bs).
Proof.
  revert h. induction bs as [|b bs IH]; intros h Hh; [done|]. apply IH. by apply wrap_in_width.
Qed.

Lemma fnv_write_inj h1 h2 bs :
  in_width 64 h1 → in_width 64 h2 → Forall byte_wf bs → fnv_write h1 bs = fnv_write h2 bs → h1 = h2.
Proof.
  intros H1 H2 Hb. revert h1 h2 H1 H2. induction Hb as [|b bs Hb _ IH]; intros h1 h2 H1 H2 He; [done|].
  apply IH in He; [|by apply wrap_in_width..].
  apply wmul_prime_inj in He; [|by apply lxor_in_width; [|apply byte_in_width]..].
  apply (lxor_cancel_l b). by rewrite !(Z.lxor_comm b).
Qed.

Lemma as_bytes_wf s : Forall byte_wf (as_bytes s).
Proof.
  induction s as [|c s IH]; constructor; [|done]. pose proof (N_ascii_bounded c). unfold byte_wf. lia.
Qed.

(** What the two hashes of a key tell apart: changing one character of a source
    always changes its hash, so the cache cannot serve a kernel for a source with
    one character edited; and the options are framed with their lengths, so that
    two lists of options that feed the hasher the same bytes are the same list:
    the hash depends on the number, the order and the boundaries of the options. *)
Theorem nvrtc_key_hashes :
  (∀ a b c1 c2, c1 ≠ c2 → hash_source (a +:+ String c1 b) ≠ hash_source (a +:+ String c2 b)) ∧
  (∀ os, hash_options os = fnv_write FNV_OFFSET_BASIS_64 (os ≫= option_frame)) ∧
  (∀ os1 os2, Forall (λ o, in_width 64 (Z.of_nat (String.length o))) (os1 ++ os2) →
    os1 ≫= option_frame = os2 ≫= option_frame → os1 = os2).
Proof.
  split_and!.
  - intros a b c1 c2 Hne He. apply Hne. unfold hash_source in He. rewrite !as_bytes_app, !fnv_write_app in He.
    cbn [as_bytes] in He. set (h := fnv_write FNV_OFFSET_BASIS_64 (as_bytes a)) in He.
    assert (Hh : in_width 64 h) by (by apply fnv_write_width).
    change (fnv_write (wmul 64 (Z.lxor h (Z.of_N (N_of_ascii c1))) FNV_PRIME_64) (as_bytes b) =
            fnv_write (wmul 64 (Z.lxor h (Z.of_N (N_of_ascii c2))) FNV_PRIME_64) (as_bytes b)) in He.
    apply fnv_write_inj in He; [|by apply wrap_in_width..|apply as_bytes_wf].
    assert (Hw : ∀ c, in_width 64 (Z.of_N (N_of_ascii c))).
    { intros c. apply byte_in_width. pose proof (N_ascii_bounded c). unfold byte_wf. lia. }
    apply wmul_prime_inj in He; [|by apply lxor_in_width..].
    apply lxor_cancel_l, N2Z.inj in He. by rewrite <-(ascii_N_embedding c1), <-(ascii_N_embedding c2), He.
  - apply hash_options_frames.
  - intros os1 os2 [H1 H2]%Forall_app. by apply option_frames_inj.
Qed.

Example hash_source_empty : hash_source "" = FNV_OFFSET_BASIS_64. Proof. run. Qed.
Example hash_source_a : hash_source "a" = 0xaf63dc4c8601ec8c%Z. Proof. run. Qed.

(** ** Instances *)

(** A serializer that keeps the law: lengths, then contents, then the version. *)
Definition tagged_serialize (v : CachedKernel) : result (list Z) string :=
  Ok (Z.of_nat (length (ptx v)) :: ptx v ++
      match cubin v with None => [0%Z] | Some b => 1%Z :: Z.of_nat (length b) :: b end ++
      as_bytes (atomr_accel_version v)).

Fixpoint of_bytes (bs : list Z) : string :=
  match bs with [] => "" | b :: bs => String (ascii_of_N (Z.to_N b)) (of_bytes bs) end.

Definition tagged_deserialize (bs : list Z) : option CachedKernel :=
  match bs with
  | n :: bs =>
    let p := take (Z.to_nat n) bs in
    match drop (Z.to_nat n) bs with
    | 0%Z :: bs => Some {| ptx := p; cubin := None; atomr_accel_version := of_bytes bs |}
    | 1%Z :: m :: bs =>
      Some {| ptx := p; cubin := Some (take (Z.to_nat m) bs);
              atomr_accel_version := of_bytes (drop (Z.to_nat m) bs) |}
    | _ => None
    end
  | [] => None
  end.

Lemma of_as_bytes s : of_bytes (as_bytes s) = s.
Proof. induction s as [|c s IH]; [done|]. cbn. by rewrite N2Z.id, ascii_N_embedding, IH. Qed.

Lemma tagged_law : BincodeLaw tagged_serialize tagged_deserialize.
Proof.
  intros [p [b|] s] bs [= <-]; unfold tagged_deserialize; cbn [ptx cubin atomr_accel_version];
    rewrite Nat2Z.id, take_app_length, drop_app_length; cbn; [|by rewrite of_as_bytes].
  by rewrite Nat2Z.id, take_app_length, drop_app_length, of_as_bytes.
Qed.

Definition some_cache : NvrtcCache := {| dir := "/c"; memory := ∅; poisoned := false |}.
Definition some_kernel : CachedKernel :=
  {| ptx := [80; 84; 88]%Z; cubin := None; atomr_accel_version := "0.3.0" |}.

Lemma race_fs_wf : fs_wf race_fs.
Proof. split; simpl; intros *; by rewrite lookup_empty. Qed.

Lemma race_key_wf : key_wf race_key.
Proof. by vm_compute. Qed.

Lemma nvrtc_roundtrip_witness :
  let r := insert tagged_serialize io_ok race_key some_kernel race_fs some_cache in
  r.1.1 = Ok tt ∧
  (get "0.3.0" tagged_deserialize true race_key r.1.2 some_cache).1 = Some some_kernel ∧
  (get "0.4.0" tagged_deserialize true race_key r.1.2 some_cache).1 = None.
Proof.
  pose proof tagged_law.
  pose proof (λ version, nvrtc_roundtrip version tagged_serialize tagged_deserialize io_ok race_key some_kernel
    race_fs some_cache _ _ race_key_wf race_fs_wf eq_refl eq_refl) as Hr.
  intros r. split; [reflexivity|]. split.
  - destruct (Hr "0.3.0") as (_ & Hd & _). exact (Hd some_cache eq_refl eq_refl).
  - destruct (Hr "0.4.0") as (_ & Hd & _). exact (Hd some_cache eq_refl eq_refl).
Defined.

(** The disk is full after two bytes. *)
Definition io_full : Io :=
  {| create_err := None; write_err := Some (2, "No space left on device"); sync_err := None;
     rename_err := None; remove_ok := true |}.

Lemma nvrtc_insert_fails_cleanly_witness :
  let r := insert tagged_serialize io_full race_key some_kernel race_fs some_cache in
  is_ok r.1.1 = false ∧ fs_read r.1.2 (tmp_path "/c" race_key) = Some [3; 80]%Z ∧
  (get "0.3.0" tagged_deserialize true race_key r.1.2 r.2).1 = None.
Proof.
  intros r. split; [reflexivity|]. split; [reflexivity|].
  destruct (nvrtc_insert_fails_cleanly "0.3.0" tagged_serialize tagged_deserialize io_full race_key some_kernel
    race_fs some_cache _ _ _ race_key_wf race_fs_wf eq_refl) as (_ & _ & _ & _ & Hg).
  exact (f_equal fst (Hg true race_key race_key_wf)).
Defined.

Definition other_key : NvrtcCacheKey := {| source_hash := 1; arch := 90; options_hash := 2 |}.

Definition two_ids : list (NvrtcCacheKey * list Z) := [(race_key, [1; 2]%Z); (other_key, [3]%Z)].
Definition two_starts : list Writer := (λ id, {| wkey := id.1; wbytes := id.2; pc := Start |}) <$> two_ids.
Definition two_sched : list (nat * nat) := [(0, 0); (1, 0); (0, 0); (1, 0); (1, 0); (1, 0); (0, 0)].

Lemma nvrtc_atomic_publish_witness :
  fs_read (sys_run "/c" (race_fs, two_starts) two_sched).1 (entry_path "/c" other_key) = Some [3]%Z.
Proof.
  assert (Hk : Forall key_wf two_ids.*1) by (repeat constructor; by vm_compute).
  assert (Hd : NoDup two_ids.*1) by (apply (bool_decide_unpack _); by vm_compute).
  pose proof (nvrtc_atomic_publish "/c" race_fs two_ids two_sched race_fs_wf Hd Hk) as Hp.
  fold two_starts in Hp. cbv zeta in Hp.
  assert (Hw : pc <$> (sys_run "/c" (race_fs, two_starts) two_sched).2 !! 1 = Some Published) by run.
  destruct (sys_run "/c" (race_fs, two_starts) two_sched) as [fs ws]. destruct Hp as [_ Hp].
  destruct (Hp 1 other_key [3]%Z eq_refl) as (w & Hw' & _ & _ & Hpub & _).
  apply Hpub. simpl in Hw. rewrite Hw' in Hw. by injection Hw.
Defined.
