(* ===== verification/Nvrtc.v ===== *)
(** * The NVRTC actor: compile and launch

    Models [crates/atomr-accel-cuda/src/kernel/nvrtc.rs] and the argument traits
    of [kernel/dispatch.rs].  NVRTC, the module loader and the launch are
    parameters; the hash of the standard library's [DefaultHasher] too.  The disk
    cache is any instance of [DiskOps]; [NvrtcCache.v] over its file system is one
    ([nvrtc_disk]).  A launch is an instance of [Envelope.v]. *)

From stdpp Require Import pretty.
From S2P Require Import NvrtcCache.
From S2P Require Import Prelude Actor Text Errors Dtype DeviceState Envelope.

Definition LIB : string := "nvrtc".

(** ** Options *)

Inductive SmArch : Type := Sm80 | Sm86 | Sm89 | Sm90 | Sm90a | Sm100 | Sm120.
Definition arch_flag (a : SmArch) : string :=
  match a with
  | Sm80 => "compute_80" | Sm86 => "compute_86" | Sm89 => "compute_89" | Sm90 => "compute_90"
  | Sm90a => "compute_90a" | Sm100 => "compute_100" | Sm120 => "compute_120"
  end.
Definition compute_capability (a : SmArch) : Z :=
  match a with
  | Sm80 => 80 | Sm86 => 86 | Sm89 => 89 | Sm90 | Sm90a => 90 | Sm100 => 100 | Sm120 => 120
  end.

Inductive CppStd : Type := Cpp14 | Cpp17 | Cpp20.
Definition std_flag (s : CppStd) : string :=
  match s with Cpp14 => "--std=c++14" | Cpp17 => "--std=c++17" | Cpp20 => "--std=c++20" end.

Record NvrtcOpts := {
  ftz : option bool; maxrregcount : option Z; opt_name : option string; use_fast_math : option bool;
  lto : bool; cpp_std : option CppStd; opt_arch : option SmArch;
  name_expressions : list string; extra_options : list string; include_paths : list string;
}.

Definition default_opts : NvrtcOpts :=
  {| ftz := None; maxrregcount := None; opt_name := None; use_fast_math := None; lto := false; cpp_std := None;
     opt_arch := None; name_expressions := []; extra_options := []; include_paths := [] |}.
Definition for_arch (a : SmArch) : NvrtcOpts :=
  {| ftz := None; maxrregcount := None; opt_name := None; use_fast_math := None; lto := false; cpp_std := None;
     opt_arch := Some a; name_expressions := []; extra_options := []; include_paths := [] |}.
Definition with_lto (o : NvrtcOpts) : NvrtcOpts :=
  {| ftz := ftz o; maxrregcount := maxrregcount o; opt_name := opt_name o; use_fast_math := use_fast_math o;
     lto := true; cpp_std := cpp_std o; opt_arch := opt_arch o; name_expressions := name_expressions o;
     extra_options := extra_options o; include_paths := include_paths o |}.
Definition with_cpp_std (s : CppStd) (o : NvrtcOpts) : NvrtcOpts :=
  {| ftz := ftz o; maxrregcount := maxrregcount o; opt_name := opt_name o; use_fast_math := use_fast_math o;
     lto := lto o; cpp_std := Some s; opt_arch := opt_arch o; name_expressions := name_expressions o;
     extra_options := extra_options o; include_paths := include_paths o |}.
Definition with_name_expression (e : string) (o : NvrtcOpts) : NvrtcOpts :=
  {| ftz := ftz o; maxrregcount := maxrregcount o; opt_name := opt_name o; use_fast_math := use_fast_math o;
     lto := lto o; cpp_std := cpp_std o; opt_arch := opt_arch o; name_expressions := name_expressions o ++ [e];
     extra_options := extra_options o; include_paths := include_paths o |}.
Definition with_extra_option (e : string) (o : NvrtcOpts) : NvrtcOpts :=
  {| ftz := ftz o; maxrregcount := maxrregcount o; opt_name := opt_name o; use_fast_math := use_fast_math o;
     lto := lto o; cpp_std := cpp_std o; opt_arch := opt_arch o; name_expressions := name_expressions o;
     extra_options := extra_options o ++ [e]; include_paths := include_paths o |}.
Definition with_include_path (p : string) (o : NvrtcOpts) : NvrtcOpts :=
  {| ftz := ftz o; maxrregcount := maxrregcount o; opt_name := opt_name o; use_fast_math := use_fast_math o;
     lto := lto o; cpp_std := cpp_std o; opt_arch := opt_arch o; name_expressions := name_expressions o;
     extra_options := extra_options o; include_paths := include_paths o ++ [p] |}.

Definition bool_text (b : bool) : string := if b then "true" else "false".

Definition build_flags (o : NvrtcOpts) : list string :=
  match ftz o with Some v => ["--ftz=" +:+ bool_text v] | None => [] end ++
  match use_fast_math o with Some true => ["--use_fast_math"] | _ => [] end ++
  match maxrregcount o with Some c => ["--maxrregcount=" +:+ pretty c] | None => [] end ++
  match cpp_std o with Some s => [std_flag s] | None => [] end ++
  (if lto o then ["-dlto"] else []) ++
  match opt_arch o with Some a => ["--gpu-architecture=" +:+ arch_flag a] | None => [] end ++
  ((λ p, "--include-path=" +:+ p) <$> include_paths o) ++ extra_options o.

(** [CompileOptions] of the compiler's safe layer. *)
Record CompileOptions := {
  co_ftz : option bool; co_maxrregcount : option Z; co_name : option string; co_fast_math : option bool;
  co_includes : list string; co_arch : option string; co_options : list string;
}.
Definition into_cudarc (o : NvrtcOpts) : CompileOptions :=
  {| co_ftz := ftz o; co_maxrregcount := maxrregcount o; co_name := opt_name o; co_fast_math := use_fast_math o;
     co_includes := include_paths o; co_arch := arch_flag <$> opt_arch o;
     co_options := match cpp_std o with Some s => [std_flag s] | None => [] end ++
       (if lto o then ["-dlto"] else []) ++ extra_options o |}.

(** ** UTF-8, as [String::from_utf8] checks it *)

Definition is_cont (b : Z) : bool := (128 <=? b)%Z && (b <=? 191)%Z.
Definition utf8_char_width (b : Z) : nat :=
  if (194 <=? b)%Z && (b <=? 223)%Z then 2
  else if (224 <=? b)%Z && (b <=? 239)%Z then 3
  else if (240 <=? b)%Z && (b <=? 244)%Z then 4 else 0.
(** The second byte of a sequence of three or four. *)
Definition second_ok (b c : Z) : bool :=
  is_cont c &&
  (if (b =? 224)%Z then (160 <=? c)%Z else if (b =? 237)%Z then (c <=? 159)%Z
   else if (b =? 240)%Z then (144 <=? c)%Z else if (b =? 244)%Z then (c <=? 143)%Z else true).

(** The error: how many bytes are valid, and how many the bad sequence has. *)
Fixpoint utf8_validate (off : nat) (bs : list Z) : option (nat * option nat) :=
  match bs with
  | [] => None
  | b :: bs1 =>
    if (b <? 128)%Z then utf8_validate (off + 1) bs1
    else match utf8_char_width b, bs1 with
    | 0, _ => Some (off, Some 1)
    | _, [] => Some (off, None)
    | 2, c :: bs2 => if is_cont c then utf8_validate (off + 2) bs2 else Some (off, Some 1)
    | n, c :: bs2 =>
      if negb (second_ok b c) then Some (off, Some 1)
      else match bs2 with
      | [] => Some (off, None)
      | d :: bs3 =>
        if negb (is_cont d) then Some (off, Some 2)
        else if n =? 3 then utf8_validate (off + 3) bs3
        else match bs3 with
        | [] => Some (off, None)
        | e :: bs4 => if is_cont e then utf8_validate (off + 4) bs4 else Some (off, Some 3)
        end
      end
    end
  end.

Definition utf8_error (e : nat * option nat) : string :=
  match e.2 with
  | Some n => "invalid utf-8 sequence of " +:+ pretty n +:+ " bytes from index " +:+ pretty e.1
  | None => "incomplete utf-8 byte sequence from index " +:+ pretty e.1
  end.

(** ** Handles, arguments, messages *)

(** A loaded function is its module's PTX and its name. *)
Record KernelHandle := {
  func : list Z * string;
  kh_generation : Z;
  src_hash : Z;
  kh_name : string;
  lowered_names : gmap string string;
  kh_ptx : option (list Z);
  kh_cubin : option (list Z);
}.
Definition lowered_name (h : KernelHandle) (expr : string) : option string := lowered_names h !! expr.

(** An element type and a buffer, or the bits of a scalar. *)
Inductive KernelArg : Type :=
  | DevSlice (d : DType) (r : GpuRef)
  | Scalar (d : DType) (v : Z)
  | Usize (v : Z)
  | DevSliceF32 (r : GpuRef) | DevSliceF64 (r : GpuRef) | DevSliceI32 (r : GpuRef) | DevSliceU32 (r : GpuRef)
  | DevSliceU8 (r : GpuRef)
  | ScalarF32 (v : Z) | ScalarF64 (v : Z) | ScalarI32 (v : Z) | ScalarU32 (v : Z) | ScalarU64 (v : Z).

Definition canonicalize (a : KernelArg) : KernelArg :=
  match a with
  | DevSlice _ _ | Scalar _ _ | Usize _ => a
  | DevSliceF32 r => DevSlice F32 r
  | DevSliceF64 r => DevSlice F64 r
  | DevSliceI32 r => DevSlice I32 r
  | DevSliceU32 r => DevSlice U32 r
  | DevSliceU8 r => DevSlice U8 r
  | ScalarF32 v => Scalar F32 v
  | ScalarF64 v => Scalar F64 v
  | ScalarI32 v => Scalar I32 v
  | ScalarU32 v => Scalar U32 v
  | ScalarU64 v => Scalar U64 v
  end.

(** The grid, the block, and the shared memory. *)
Record LaunchConfig := { grid_dim : Z * Z * Z; block_dim : Z * Z * Z; shared_mem_bytes : Z }.

(** What a compile message asks for. *)
Record Job := { j_src : string; j_kernel : string; j_opts : NvrtcOpts }.

Inductive NvrtcMsg : Type :=
  | Compile (j : Job) (reply : nat)
  | CompileAsync (j : Job) (reply : nat)
  | Launch (kernel : KernelHandle) (args : list KernelArg) (cfg : LaunchConfig) (reply : nat).

(** ** The disk cache, as the actor sees it *)

(** A lookup and an insertion, each with what the operating system does meanwhile (an [Os]);
    [disk_may d k e] says that [d] may answer [e] for [k]. *)
Class DiskOps (D : Type) := {
  Os : Type;
  disk_get : Os → NvrtcCacheKey → D → option CachedKernel * D;
  disk_insert : Os → NvrtcCacheKey → CachedKernel → D → result unit GpuError * D;
  disk_may : D → NvrtcCacheKey → CachedKernel → Prop;
  disk_ok : D → Prop;
}.
#[global] Hint Mode DiskOps ! : typeclass_instances.
Arguments Os D {_}.

(** Whatever the operating system does, a lookup answers only what was there, and an
    insertion adds nothing but its entry. *)
Class DiskLaw (D : Type) `{!DiskOps D} : Prop := {
  disk_get_sound (os : Os D) k d : disk_ok d → key_wf k →
    disk_ok (disk_get os k d).2 ∧
    (∀ e, (disk_get os k d).1 = Some e → disk_may d k e) ∧
    (∀ k' e, disk_may (disk_get os k d).2 k' e → disk_may d k' e);
  disk_insert_sound (os : Os D) k v d : disk_ok d → key_wf k →
    disk_ok (disk_insert os k v d).2 ∧
    (∀ k' e, key_wf k' → disk_may (disk_insert os k v d).2 k' e → (k' = k ∧ e = v) ∨ disk_may d k' e);
}.

(** ** The actor *)

Inductive NEff : Type :=
  | RanNvrtc (src : string) (o : CompileOptions)
  | Compiled (ch : nat) (r : result KernelHandle GpuError)
  | SpawnBlocking (j : Job) (ch : nat)
  | Kernel (e : KEff).

(** The effects of an embedded handler. *)
Definition lift_kernel {S A} (m : act S KEff A) : act S NEff A :=
  λ s, let '(a, s', es) := m s in (a, s', Kernel <$> es).

Definition lib_err (msg : string) : GpuError := LibraryError LIB msg.

Section actor.
Context {D : Type} `{!DiskOps D}.
(** The crate's version; what NVRTC makes of a source; the loader's refusals of a
    PTX and of a name in it; the launch's refusals. *)
Context (version : string) (compile_ptx : string → CompileOptions → result (list Z) string).
Context (load_module : list Z → option string) (load_function : list Z → string → option string).
Context (answer : Call → option string).
(** [DefaultHasher::new()] fed with bytes. *)
Context (sip : list Z → Z).

(** A [str] feeds its bytes and [0xff]. *)
Definition hash_src (src : string) : Z := sip (as_bytes src ++ [255%Z]).

Definition cache_key (j : Job) : NvrtcCacheKey :=
  {| source_hash := hash_source (j_src j);
     arch := default 0%Z (compute_capability <$> opt_arch (j_opts j));
     options_hash := hash_options (build_flags (j_opts j)) |}.

Definition build_lowered_names (exprs : list string) : gmap string string :=
  list_to_map (reverse ((λ e, (e, e)) <$> exprs)).

(** What a compile works on: the loaded modules by source hash, and the disk. *)
Record Caches := { modules : gmap Z (list Z); disk : option D }.
Abbreviation cact := (act Caches NEff).

Definition set_disk (d : D) (c : Caches) : Caches := {| modules := modules c; disk := Some d |}.

Definition make_handle (generation : Z) (j : Job) (m : list Z) (p cu : option (list Z)) : KernelHandle :=
  {| func := (m, j_kernel j); kh_generation := generation; src_hash := hash_src (j_src j); kh_name := j_kernel j;
     lowered_names := build_lowered_names (name_expressions (j_opts j)); kh_ptx := p; kh_cubin := cu |}.

(** [load_function], and the handle. *)
Definition load_handle (generation : Z) (j : Job) (m : list Z) (p cu : option (list Z)) :
    result KernelHandle GpuError :=
  match load_function m (j_kernel j) with
  | Some e => Err (lib_err ("load_function " +:+ j_kernel j +:+ ": " +:+ e))
  | None => Ok (make_handle generation j m p cu)
  end.

(** Step 2 of [handle_compile] *)
Definition lookup_disk (os : Os D) (k : NvrtcCacheKey) : cact (option CachedKernel) :=
  s ← get;
  match disk s with
  | None => mret None
  | Some d => let r := disk_get os k d in modify (set_disk r.2);; mret r.1
  end.

(** The best-effort insertion: its failure is only logged. *)
Definition store_disk (os : Os D) (k : NvrtcCacheKey) (v : CachedKernel) : cact unit :=
  s ← get;
  match disk s with
  | None => skip
  | Some d => modify (set_disk (disk_insert os k v d).2)
  end.

(** NVRTC itself, and the insertion of what it returns. *)
Definition run_nvrtc (os : Os D) (j : Job) : cact (result (list Z) GpuError) :=
  emit (RanNvrtc (j_src j) (into_cudarc (j_opts j)));;
  match compile_ptx (j_src j) (into_cudarc (j_opts j)) with
  | Err e => mret (Err (lib_err ("compile_ptx: " +:+ e)))
  | Ok p => store_disk os (cache_key j) (CachedKernel_new version p None);; mret (Ok p)
  end.

(** Step 3 of [handle_compile] *)
Definition obtain_ptx (os : Os D) (j : Job) (hit : option CachedKernel) : cact (result (list Z) GpuError) :=
  match hit with
  | Some entry =>
    match utf8_validate 0 (ptx entry) with
    | Some e => mret (Err (lib_err ("nvrtc cache: invalid UTF-8 PTX: " +:+ utf8_error e)))
    | None => mret (Ok (ptx entry))
    end
  | None => run_nvrtc os j
  end.

Definition insert_module (h : Z) (m : list Z) (c : Caches) : Caches :=
  {| modules := <[h := m]> (modules c); disk := disk c |}.

Definition handle_compile (os : Os D) (generation : Z) (j : Job) : cact (result KernelHandle GpuError) :=
  s ← get;
  match modules s !! hash_src (j_src j) with
  | Some m => mret (load_handle generation j m None None)
  | None =>
    hit ← lookup_disk os (cache_key j);
    p ← obtain_ptx os j hit;
    match p with
    | Err e => mret (Err e)
    | Ok p =>
      match load_module p with
      | Some e => mret (Err (lib_err ("load_module: " +:+ e)))
      | None =>
        modify (insert_module (hash_src (j_src j)) p);;
        mret (load_handle generation j p (Some p) (hit ≫= cubin))
      end
    end
  end.

(** The free function [compile_to_ptx] *)
Definition compile_to_ptx (os : Os D) (src : string) (o : NvrtcOpts) (d : option D) :
    result (list Z * option (list Z)) GpuError * option D :=
  let key := cache_key {| j_src := src; j_kernel := ""; j_opts := o |} in
  let r := match d with None => (None, None) | Some d => let r := disk_get os key d in (r.1, Some r.2) end in
  match r.1 with
  | Some hit => (Ok (ptx hit, cubin hit), r.2)
  | None =>
    match compile_ptx src (into_cudarc o) with
    | Err e => (Err (lib_err ("compile_ptx: " +:+ e)), r.2)
    | Ok p => (Ok (p, None), (λ d, (disk_insert os key (CachedKernel_new version p None) d).2) <$> r.2)
    end
  end.

(** *** Launch *)

Definition arg_refs (args : list KernelArg) : list GpuRef :=
  omap (λ a, match canonicalize a with DevSlice _ r => Some r | _ => None end) args.

Definition push_arg (a : KernelArg) : Arg :=
  match canonicalize a with
  | DevSlice _ r => ADev (slice r)
  | Scalar _ v | Usize v => AInt v
  | _ => ATag "unreachable"
  end.

Definition launch_config_args (c : LaunchConfig) : list Arg :=
  let '(gx, gy, gz) := grid_dim c in let '(bx, by', bz) := block_dim c in
  [AInt gx; AInt gy; AInt gz; AInt bx; AInt by'; AInt bz; AInt (shared_mem_bytes c)].

Definition launch_call (k : KernelHandle) (args : list KernelArg) (cfg : LaunchConfig) : Call :=
  {| cname := "launch";
     cargs := ATag (func k).2 :: (AInt <$> (func k).1) ++ launch_config_args cfg ++ (push_arg <$> args) |}.

Definition stale_kernel : GpuError := GpuRefStale "nvrtc kernel from prior context generation".
Definition launch_err (e : string) : GpuError := lib_err ("launch: " +:+ e).

(** The generation of the actor's device state; it holds a strong reference, so the
    state is live. *)
Definition current_generation (g : Gpu) : Z := match dev g with Some st => generation st | None => 0%Z end.

Definition handle_launch {S} (k : KernelHandle) (args : list KernelArg) (cfg : LaunchConfig) (reply : nat) :
    act (S * Gpu) KEff unit :=
  g ← get_gpu;
  if (kh_generation k =? current_generation g)%Z then
    kernel_request answer LIB (arg_refs args) [] [] launch_err (Ok (launch_call k args cfg)) Done reply
  else emit (Reply reply (Err stale_kernel)).

(** *** The handler *)

Inductive NvrtcInner : Type := Real (caches : Caches) | Mock.
Abbreviation nact := (act (NvrtcInner * Gpu) NEff).

Definition mock_err : GpuError := Unrecoverable "NvrtcActor in mock mode".

(** [NvrtcActor::props] and [props_with_cache] *)
Definition props_with_cache (d : option D) : NvrtcInner := Real {| modules := ∅; disk := d |}.
Definition nvrtc_props (opened : result D GpuError) : NvrtcInner :=
  props_with_cache match opened with Ok d => Some d | Err _ => None end.

(** A compile on some caches, with the actor's other state. *)
Definition with_caches (c : Caches) (os : Os D) (j : Job) (keep : Caches → NvrtcInner) (ch : nat) : nact unit :=
  s ← get;
  let '(r, c', es) := handle_compile os (current_generation s.2) j c in
  modify (λ s, (keep c', s.2));; emits es;; emit (Compiled ch r).

Definition nvrtc_handle (os : Os D) (m : NvrtcMsg) : nact unit :=
  s ← get;
  match s.1, m with
  | Mock, Compile _ ch | Mock, CompileAsync _ ch => emit (Compiled ch (Err mock_err))
  | Mock, Launch _ _ _ ch => emit (Kernel (Reply ch (Err mock_err)))
  | Real c, Compile j ch => with_caches c os j Real ch
  | Real _, CompileAsync j ch => emit (SpawnBlocking j ch)
  | Real _, Launch k args cfg ch => lift_kernel (handle_launch k args cfg ch)
  end.

(** The blocking task of a [CompileAsync]: a private map of modules, the shared disk. *)
Definition blocking_task (os : Os D) (j : Job) (ch : nat) : nact unit :=
  s ← get;
  match s.1 with
  | Mock => skip
  | Real c => with_caches {| modules := ∅; disk := disk c |} os j
      (λ c', Real {| modules := modules c; disk := disk c' |}) ch
  end.

(** Executions: a message, the run of a blocking task, another process that writes
    the cache directory, a change of the device or its buffers. *)
Inductive NEvent : Type :=
  | EMsg (os : Os D) (m : NvrtcMsg)
  | ETask (os : Os D) (j : Job) (ch : nat)
  | EElsewhere (d : D)
  | EGpu (g : Gpu).

Definition set_elsewhere (d : D) (i : NvrtcInner) : NvrtcInner :=
  match i with Real {| modules := m; disk := Some _ |} => Real {| modules := m; disk := Some d |} | _ => i end.
Definition nvrtc_event (e : NEvent) : nact unit :=
  match e with
  | EMsg os m => nvrtc_handle os m
  | ETask os j ch => blocking_task os j ch
  | EElsewhere d => modify (λ s, (set_elsewhere d s.1, s.2))
  | EGpu g => modify (λ s, (s.1, g))
  end.
Definition nvrtc_run (s : NvrtcInner * Gpu) (es : list NEvent) : NvrtcInner * Gpu :=
  foldl (λ s e, (exec (nvrtc_event e) s).1) s es.
End actor.

(** ** The cache of [NvrtcCache.v] keeps the law *)

Section disk.
Context (version : string).
Context (serialize : CachedKernel → result (list Z) string) (deserialize : list Z → option CachedKernel).

(** Whether the entry's file is readable, and what the system calls of an insertion answer. *)
#[local] Instance nvrtc_disk : DiskOps (Fs * NvrtcCache) := {|
  Os := bool * Io;
  disk_get os k d := let r := NvrtcCache.get version deserialize os.1 k d.1 d.2 in (r.1, (d.1, r.2));
  disk_insert os k v d := let r := NvrtcCache.insert serialize os.2 k v d.1 d.2 in (r.1.1, (r.1.2, r.2));
  disk_may d k e := memory_hit k d.2 = Some e ∨
    ∃ bytes, fs_read d.1 (entry_path (dir d.2) k) = Some bytes ∧ deserialize bytes = Some e;
  disk_ok d := fs_wf d.1;
|}.

Lemma remember_dir k v c : dir (remember k v c) = dir c.
Proof. unfold remember. by destruct (poisoned c). Qed.

Lemma remember_may k v c k' e :
  memory_hit k' (remember k v c) = Some e → (k' = k ∧ e = v) ∨ memory_hit k' c = Some e.
Proof.
  destruct (decide (k' = k)) as [->|Hne]; [|rewrite remember_hit by done; by right].
  unfold memory_hit, remember. destruct (poisoned c) eqn:Hp; simpl; rewrite Hp; [done|].
  rewrite lookup_insert_eq. intros [= ->]. by left.
Qed.

#[local] Instance nvrtc_disk_law `{!BincodeLaw serialize deserialize} : DiskLaw (Fs * NvrtcCache).
Proof.
  split.
  - intros [b io] k [fs c] Hwf Hk. cbn in *. split; [done|]. unfold NvrtcCache.get.
    destruct (memory_hit k c) as [hit|] eqn:Hm; [split; [|done]; intros e [= <-]; by left|].
    destruct b; [|done]. destruct (fs_read fs _) as [bytes|] eqn:Hr; [|done].
    destruct (deserialize bytes) as [entry|] eqn:Hd; [|done]. case_bool_decide; [|done]. cbn. split.
    + intros e [= <-]. right. by exists bytes.
    + intros k' e [[[-> ->]|Hmem]%remember_may|Hfile]; [right; by exists bytes|by left|].
      rewrite remember_dir in Hfile. by right.
  - intros [b io] k v [fs c] Hwf Hk. cbn in *.
    destruct (NvrtcCache.insert _ _ _ _ _ _) as [[r fs'] c'] eqn:Hi. cbn.
    apply insert_spec in Hi as [Hwf' Hr]; [|done..]. split; [done|]. intros k' e Hk'. destruct r as [[]|err].
    + destruct Hr as (fd & bs & Hs & Hv & Hf & ->). rewrite remember_dir.
      intros [[?|?]%remember_may|(bytes & Hb & Hd)]; [by left|right; by left|].
      destruct (decide (k' = k)) as [->|Hne].
      * left. split; [done|]. rewrite fs_read_view, Hv in Hb. injection Hb as <-.
        pose proof (bincode_roundtrip serialize deserialize v bs Hs) as Hbin. rewrite Hbin in Hd. by injection Hd.
      * right. right. exists bytes. split; [|done]. rewrite <-Hb. symmetry. eapply fs_frame_read; [exact Hf|].
        by apply (entry_other (dir c)).
    + destruct Hr as (Hf & -> & _). intros [?|(bytes & Hb & Hd)]; [right; by left|]. right. right.
      exists bytes. split; [|done]. rewrite <-Hb. symmetry. eapply fs_frame_read; [exact Hf|].
      apply not_elem_of_cons. split; [by apply entry_path_tmp|set_solver].
Qed.
End disk.

(** ** Compiling through the caches *)

Section laws.
Context {D : Type} `{!DiskOps D, !DiskLaw D}.
Context (version : string) (compile_ptx : string → CompileOptions → result (list Z) string).
Context (load_module : list Z → option string) (load_function : list Z → string → option string).
Context (answer : Call → option string) (sip : list Z → Z).

(** What NVRTC returns is the bytes of a [String]. *)
Class CompilerLaw : Prop :=
  compiled_utf8 : ∀ src o p, compile_ptx src o = Ok p → utf8_validate 0 p = None.

Abbreviation compile_job j := (compile_ptx (j_src j) (into_cudarc (j_opts j))).
Abbreviation hash_of j := (hash_src sip (j_src j)).

(** What a compile gives without any cache; the PTX and CUBIN a handle carries along
    for its reader are left out. *)
Definition erase (r : result KernelHandle GpuError) : result KernelHandle GpuError :=
  match r with
  | Err e => Err e
  | Ok h => Ok {| func := func h; kh_generation := kh_generation h; src_hash := src_hash h; kh_name := kh_name h;
                  lowered_names := lowered_names h; kh_ptx := None; kh_cubin := None |}
  end.
Definition fresh_compile (generation : Z) (j : Job) : result KernelHandle GpuError :=
  match compile_job j with
  | Err e => Err (lib_err ("compile_ptx: " +:+ e))
  | Ok p =>
    match load_module p with
    | Some e => Err (lib_err ("load_module: " +:+ e))
    | None => load_handle load_function sip generation j p None None
    end
  end.

Lemma fnv_opts_width h opts : in_width 64 h → in_width 64 (foldl write_option h opts).
Proof.
  revert h. induction opts as [|o opts IH]; intros h Hh; [done|].
  change (in_width 64 (foldl write_option (write_option h o) opts)). apply IH.
  unfold write_option. do 3 apply fnv_write_width. done.
Qed.

Lemma cache_key_wf j : key_wf (cache_key j).
Proof.
  split_and!; cbn.
  - by apply fnv_write_width.
  - destruct (opt_arch (j_opts j)) as [[]|]; cbn; unfold in_width; lia.
  - by apply fnv_opts_width.
Qed.

(** The requests in use: no two of them collide, and a source is used with options
    that make no difference. *)
Context (used : Job → Prop).
Definition keys_apart : Prop := ∀ j1 j2, used j1 → used j2 → cache_key j1 = cache_key j2 → compile_job j1 = compile_job j2.
Definition sources_once : Prop := ∀ j1 j2, used j1 → used j2 → hash_of j1 = hash_of j2 → compile_job j1 = compile_job j2.

(** The disk holds only what the compiler returned. *)
Definition trusted (d : D) : Prop :=
  disk_ok d ∧ ∀ j e, used j → disk_may d (cache_key j) e → compile_job j = Ok (ptx e).
Definition caches_ok (c : Caches) : Prop :=
  (∀ j m, used j → modules c !! hash_of j = Some m → compile_job j = Ok m ∧ load_module m = None) ∧
  ∀ d, disk c = Some d → trusted d.

Lemma erase_load generation j p a b :
  erase (load_handle load_function sip generation j p a b) =
  erase (load_handle load_function sip generation j p None None).
Proof. unfold load_handle. by destruct (load_function _ _). Qed.

Lemma lookup_disk_spec os j c :
  used j → caches_ok c →
  awp (lookup_disk os (cache_key j)) (λ hit c' es, caches_ok c' ∧ es = [] ∧ modules c' = modules c ∧
    ∀ e, hit = Some e → compile_job j = Ok (ptx e)) c.
Proof.
  intros Hj Hc. unfold lookup_disk. awp_steps. destruct (disk c) as [d|] eqn:Hd; awp_steps; [|done].
  destruct (proj2 Hc d Hd) as [Hok Ht].
  destruct (disk_get_sound os (cache_key j) d Hok (cache_key_wf j)) as (Hok' & Hhit & Hmono).
  split_and!; [|done|done|by intros e He%Hhit; apply Ht]. split; [apply Hc|]. cbn. intros d' [= <-].
  split; [done|]. intros j' e Hj' He%Hmono. by apply Ht.
Qed.

Lemma store_disk_spec os j p c :
  keys_apart → used j → caches_ok c → compile_job j = Ok p →
  awp (store_disk os (cache_key j) (CachedKernel_new version p None))
    (λ _ c' es, caches_ok c' ∧ es = [] ∧ modules c' = modules c) c.
Proof.
  intros Hk Hj Hc Hp. unfold store_disk. awp_steps. destruct (disk c) as [d|] eqn:Hd; awp_steps; [|done].
  destruct (proj2 Hc d Hd) as [Hok Ht].
  destruct (disk_insert_sound os (cache_key j) (CachedKernel_new version p None) d Hok (cache_key_wf j)) as [Hok' Hins].
  split_and!; [|done..]. split; [apply Hc|]. cbn. intros d' [= <-]. split; [done|]. intros j' e Hj' He.
  apply Hins in He as [[Hkk ->]|He]; [|by apply Ht|apply cache_key_wf].
  by rewrite (Hk j' j Hj' Hj Hkk).
Qed.

Lemma handle_compile_spec `{!CompilerLaw} os generation j c :
  keys_apart → sources_once → used j → caches_ok c →
  awp (handle_compile version compile_ptx load_module load_function sip os generation j)
    (λ r c' es, caches_ok c' ∧ Forall (λ e, e = RanNvrtc (j_src j) (into_cudarc (j_opts j))) es ∧
      erase r = fresh_compile generation j) c.
Proof.
  intros Hk Hs Hj Hc. unfold handle_compile, fresh_compile. awp_steps.
  destruct (modules c !! hash_of j) as [m|] eqn:Hm.
  { destruct (proj1 Hc j m Hj Hm) as [-> ->]. awp_steps. split_and!; [done|constructor|].
    unfold load_handle. by destruct (load_function _ _). }
  awp_steps. eapply awp_mono, lookup_disk_spec; [|done|done]. intros hit c1 es1 (Hc1 & -> & Hm1 & Hhit).
  awp_steps. apply (awp_mono _ (λ r c2 es2, caches_ok c2 ∧
    Forall (λ e, e = RanNvrtc (j_src j) (into_cudarc (j_opts j))) es2 ∧
    match r with Ok p => compile_job j = Ok p | Err e => ∃ m, compile_job j = Err m ∧ e = lib_err ("compile_ptx: " +:+ m) end)).
  - intros r c2 es2 (Hc2 & Hes & Hr). destruct r as [p|e].
    + rewrite Hr. destruct (load_module p) as [e|] eqn:Hl; awp_steps; rewrite ?app_nil_r;
        (split_and!; [| done |]); [done|done| |by unfold load_handle; destruct (load_function _ _)].
      split; [|apply Hc2]. intros j' m Hj'. cbn. rewrite lookup_insert_Some.
      intros [[He <-]|[_ Hl']]; [|by apply (proj1 Hc2 j' m)]. split; [|done]. rewrite <-Hr. by apply Hs.
    + destruct Hr as (m & -> & ->). awp_steps. split_and!; [done|by rewrite ?app_nil_r|done].
  - unfold obtain_ptx. destruct hit as [entry|].
    + pose proof (Hhit entry eq_refl) as He. rewrite (compiled_utf8 _ _ _ He). by awp_steps.
    + unfold run_nvrtc. awp_steps. destruct (compile_job j) as [p|e] eqn:Hp; awp_steps.
      * eapply awp_mono, store_disk_spec; [|done..]. intros _ c2 es2 (Hc2 & -> & _). awp_steps.
        split_and!; [done|by repeat constructor|done].
      * split_and!; [done|by repeat constructor|eauto].
Qed.

(** *** Executions *)

Abbreviation nhandle := (nvrtc_handle version compile_ptx load_module load_function answer sip).
Abbreviation ntask := (blocking_task version compile_ptx load_module load_function sip).
Abbreviation nevent := (nvrtc_event version compile_ptx load_module load_function answer sip).
Abbreviation nrun := (nvrtc_run version compile_ptx load_module load_function answer sip).

Definition event_ok (e : @NEvent D _) : Prop :=
  match e with
  | EMsg _ (Compile j _) | EMsg _ (CompileAsync j _) | ETask _ j _ => used j
  | EMsg _ (Launch _ _ _ _) | EGpu _ => True
  | EElsewhere d => trusted d
  end.
Definition inner_ok (i : NvrtcInner) : Prop := match i with Real c => caches_ok c | Mock => False end.

(** The effects of a compile: at most runs of NVRTC on the source, then the reply. *)
Definition compile_effects (j : Job) (ch : nat) (r : result KernelHandle GpuError) (es : list NEff) : Prop :=
  ∃ calls, es = calls ++ [Compiled ch r] ∧ Forall (λ e, e = RanNvrtc (j_src j) (into_cudarc (j_opts j))) calls.

Lemma awp_lift {S A} (m : act S KEff A) (Q : A → S → list NEff → Prop) s :
  awp m (λ a s' es, Q a s' (Kernel <$> es)) s → awp (lift_kernel m) Q s.
Proof. unfold awp, lift_kernel. by destruct (m s) as [[a s'] es]. Qed.

Lemma with_caches_spec `{!CompilerLaw} c os j keep ch s :
  keys_apart → sources_once → used j → caches_ok c →
  awp (with_caches version compile_ptx load_module load_function sip c os j keep ch) (λ _ s' es,
    ∃ c' r, caches_ok c' ∧ s' = (keep c', s.2) ∧ compile_effects j ch r es ∧
      erase r = fresh_compile (current_generation s.2) j) s.
Proof.
  intros Hk Hs Hj Hc. unfold with_caches. awp_steps.
  pose proof (handle_compile_spec os (current_generation s.2) j c Hk Hs Hj Hc) as Hspec. unfold awp in Hspec.
  destruct (handle_compile _ _ _ _ _ _ _ _ c) as [[r c'] es]. destruct Hspec as (Hc' & Hes & Hr).
  awp_steps. exists c', r. split_and!; [done|done| |done]. by exists es.
Qed.

Lemma exec_get {S E A} (k : S → act S E A) s : exec (get ≫= k) s = exec (k s) s.
Proof. unfold exec, mbind, act_bind, get. by destruct (k s s) as [[? ?] ?]. Qed.

Lemma compile_reply `{!CompilerLaw} os j ch c i g keep :
  keys_apart → sources_once → used j → caches_ok c →
  ∃ r, compile_effects j ch r
      (exec (with_caches version compile_ptx load_module load_function sip c os j keep ch) (i, g)).2 ∧
    erase r = fresh_compile (current_generation g) j.
Proof.
  intros Hk Hs Hj Hc. pose proof (with_caches_spec c os j keep ch (i, g) Hk Hs Hj Hc) as Hw.
  apply awp_exec in Hw. destruct (exec _ _) as [s' es]. destruct Hw as (c' & r & _ & _ & ? & ?). by exists r.
Qed.

Lemma handle_launch_quiet {S} k args cfg ch (s : S * Gpu) :
  awp (handle_launch answer k args cfg ch) (λ _ s' _, s'.1 = s.1) s.
Proof.
  unfold handle_launch, get_gpu. awp_steps. destruct (_ =? _)%Z; [|by awp_steps].
  eapply awp_mono, kernel_request_quiet. cbn. tauto.
Qed.

Lemma event_preserves `{!CompilerLaw} e s :
  keys_apart → sources_once → event_ok e → inner_ok s.1 → inner_ok (exec (nevent e) s).1.1.
Proof.
  intros Hk Hs He Hi. assert (Hw : awp (nevent e) (λ _ s' _, inner_ok s'.1) s).
  2:{ apply awp_exec in Hw. by destruct (exec _ s). }
  destruct e as [os m|os j ch|d|g]; cbn [nvrtc_event event_ok] in *.
  - unfold nvrtc_handle. awp_steps. destruct s as [[c|] g]; cbn [fst] in *; [|done].
    + destruct m as [j ch|j ch|k args cfg ch].
      * eapply awp_mono, with_caches_spec; [|done..]. by intros _ s' es (c' & r & ? & -> & _).
      * by awp_steps.
      * apply awp_lift. eapply awp_mono, handle_launch_quiet. intros _ s' es ->. done.
  - unfold blocking_task. awp_steps. destruct s as [[c|] g]; cbn [fst] in *; [|done].
    eapply awp_mono; [|apply with_caches_spec; try done].
    + intros _ s' es (c' & r & Hc' & -> & _). cbn. split; [apply Hi|apply Hc'].
    + split; [|apply Hi]. intros j' m _. cbn. by rewrite lookup_empty.
  - awp_steps. destruct s as [[[m [d'|]]|] g]; cbn in *; try done. split; [apply Hi|]. by intros d1 [= <-].
  - by awp_steps.
Qed.

Lemma nvrtc_run_inv `{!CompilerLaw} es s :
  keys_apart → sources_once → Forall event_ok es → inner_ok s.1 → inner_ok (nrun s es).1.
Proof.
  intros Hk Hs Hes. revert s. induction Hes as [|e es He _ IH]; intros s Hi; [done|].
  apply IH. by apply event_preserves.
Qed.

Lemma caches_new d0 : (∀ d, d0 = Some d → trusted d) → inner_ok (props_with_cache d0).
Proof. intros Hd. split; [intros j m _; cbn; by rewrite lookup_empty|done]. Qed.

(** C15 (the caches are invisible): after any events (compiles, launches, blocking
    tasks, other processes writing the cache directory, changes of the device), a
    compile answers, up to the bytes the handle carries along, exactly what
    compiling the source afresh would: the compiler's, the loader's or the name
    lookup's error, or a handle of the current generation on the named function of
    the compiled module.  This holds of a [Compile] and of the blocking task of a
    [CompileAsync].  It supposes that the hashes do not collide on the requests in
    use, that no source is compiled with options that give another module, and that
    the cache directory holds what the compiler returned. *)
Theorem nvrtc_compiles `{!CompilerLaw} d0 g0 es (os : Os D) (j : Job) (ch : nat) :
  keys_apart → sources_once → (∀ d, d0 = Some d → trusted d) → Forall event_ok es → used j →
  let s := nrun (props_with_cache d0, g0) es in
  ∃ r1 r2, compile_effects j ch r1 (exec (nhandle os (Compile j ch)) s).2 ∧
    compile_effects j ch r2 (exec (ntask os j ch) s).2 ∧
    erase r1 = fresh_compile (current_generation s.2) j ∧ erase r2 = fresh_compile (current_generation s.2) j.
Proof.
  intros Hk Hs Hd Hes Hj. pose proof (nvrtc_run_inv es (props_with_cache d0, g0) Hk Hs Hes (caches_new d0 Hd)) as Hi.
  destruct (nrun _ es) as [[c|] g]; [|done]. cbn [fst snd] in *.
  destruct (compile_reply os j ch c (Real c) g Real Hk Hs Hj Hi) as (r1 & He1 & Hr1).
  destruct (compile_reply os j ch {| modules := ∅; disk := disk c |} (Real c) g
    (λ c', Real {| modules := modules c; disk := disk c' |}) Hk Hs Hj) as (r2 & He2 & Hr2).
  { split; [|apply Hi]. intros j' m _. cbn. by rewrite lookup_empty. }
  exists r1, r2. split_and!; [|..|done|done]; unfold nvrtc_handle, blocking_task; by rewrite exec_get.
Qed.
End laws.

(** ** Launching *)

Section launch.
Context {S : Type} (answer : Call → option string).

Record LaunchMsg := { l_kernel : KernelHandle; l_args : list KernelArg; l_cfg : LaunchConfig; l_reply : nat }.

#[global] Instance launch_actor : KernelActor (S := S) LaunchMsg := {|
  operands m := arg_refs (l_args m);
  reply_of := l_reply;
  khandle m := handle_launch answer (l_kernel m) (l_args m) (l_cfg m) (l_reply m);
|}.

Lemma launch_slices k args cfg : call_slices (launch_call k args cfg) ⊆ slice <$> arg_refs args.
Proof.
  unfold call_slices, launch_call, launch_config_args. cbn [cargs].
  destruct (grid_dim cfg) as [[??]?], (block_dim cfg) as [[??]?]. cbn. rewrite omap_app.
  assert (Hn : omap (λ a, match a with ADev sl => Some sl | _ => None end) (AInt <$> (func k).1) = []).
  { by induction ((func k).1). }
  rewrite Hn. cbn. induction args as [|a args IH]; [done|]. unfold arg_refs. cbn. unfold push_arg at 1.
  destruct (canonicalize a); cbn; try exact IH. set_solver.
Qed.

Definition launch_effects (g : Gpu) (m : LaunchMsg) : list KEff :=
  if (kh_generation (l_kernel m) =? current_generation g)%Z then
    match access_list (dev g) (arg_refs (l_args m)) with
    | Err e => [Reply (l_reply m) (Err e)]
    | Ok _ =>
      match answer (launch_call (l_kernel m) (l_args m) (l_cfg m)) with
      | Some e => [Reply (l_reply m) (Err (launch_err e))]
      | None => [Enqueue (launch_call (l_kernel m) (l_args m) (l_cfg m))]
      end
    end
  else [Reply (l_reply m) (Err stale_kernel)].

Lemma handle_launch_spec (m : LaunchMsg) (st : S) g :
  Forall (holds (heap g)) (arg_refs (l_args m)) →
  awp (handle_launch answer (l_kernel m) (l_args m) (l_cfg m) (l_reply m)) (λ _ st' es,
    st'.1 = st ∧ kpost (l_reply m) g st'.2 es ∧ es = launch_effects g m ∧
    (es = [Enqueue (launch_call (l_kernel m) (l_args m) (l_cfg m))] →
      ∃ op t, queue st'.2 = queue g ++ [op] ∧ tasks st'.2 = tasks g ++ [t] ∧ t_reply t = l_reply m ∧
        t_keep t = slice <$> arg_refs (l_args m))) (st, g).
Proof.
  intros Hh. unfold handle_launch, get_gpu, launch_effects. awp_steps. cbn [snd].
  destruct (_ =? _)%Z; [|awp_steps; (split_and!; [done| |done|done]); split; [done|by left]].
  eapply awp_mono, kernel_request_spec; [|done|set_solver|].
  - intros _ st' es (-> & Hp & He). split; [done|]. split; [done|]. destruct (access_list _ _); [|by subst].
    destruct (answer _); [by subst|]. destruct He as (-> & Hq & Ht). split; [done|]. intros _. by eexists _, _.
  - intros _ [= <-]. apply launch_slices.
Qed.

#[global] Instance launch_law : KernelLaw S LaunchMsg.
Proof. intros m st g Hh. eapply awp_mono; [|by apply handle_launch_spec]. cbn. tauto. Qed.
End launch.

(** C16 (a kernel launches until the next rebuild): for a handle compiled on a device,
    and whatever happened to the device since (fewer than 2^64 rebuilds), a launch
    with buffers its sender holds is refused as stale exactly when the context was
    rebuilt; otherwise the first stale buffer refuses it, then the driver does, and
    else the launch is on the stream, with the function, the configuration and the
    arguments of the message, and its buffers are kept alive by its task. *)
Theorem nvrtc_launches {D} `{!DiskOps D} version compile load loadf answer sip c os st ops g args cfg ch h :
  in_width 64 (generation st) → (bumps ops < 2 ^ 64)%Z → kh_generation h = generation st →
  dev g = Some (apply_ops st ops) → Forall (holds (heap g)) (arg_refs args) →
  let '((c', g'), es) :=
    exec (nvrtc_handle (D := D) version compile load loadf answer sip os (Launch h args cfg ch)) (Real c, g) in
  c' = Real c ∧
  (bumps ops ≠ 0%Z → es = [Kernel (Reply ch (Err stale_kernel))] ∧ queue g' = queue g) ∧
  (bumps ops = 0%Z →
    match access_list (dev g) (arg_refs args) with
    | Err e => es = [Kernel (Reply ch (Err e))] ∧ queue g' = queue g
    | Ok _ =>
      match answer (launch_call h args cfg) with
      | Some e => es = [Kernel (Reply ch (Err (launch_err e)))] ∧ queue g' = queue g
      | None => es = [Kernel (Enqueue (launch_call h args cfg))] ∧
          ∃ op t, queue g' = queue g ++ [op] ∧ tasks g' = tasks g ++ [t] ∧ t_reply t = ch ∧
            t_keep t = slice <$> arg_refs args
      end
    end).
Proof.
  intros Hw Hb Hg Hd Hh. set (m := {| l_kernel := h; l_args := args; l_cfg := cfg; l_reply := ch |}).
  pose proof (handle_launch_spec answer m (Real c) g Hh) as Hs.
  assert (Hex : exec (nvrtc_handle (D := D) version compile load loadf answer sip os (Launch h args cfg ch)) (Real c, g)
    = exec (lift_kernel (handle_launch answer h args cfg ch)) (Real c, g)) by (unfold nvrtc_handle; by rewrite exec_get).
  rewrite Hex. unfold exec, lift_kernel. unfold awp in Hs. cbn [l_kernel l_args l_cfg l_reply m] in Hs.
  destruct (handle_launch _ _ _ _ _ _) as [[[] [c' g']] es]. cbn [fst snd] in Hs.
  destruct Hs as (-> & Hp & -> & Henq). split; [done|].
  unfold launch_effects, current_generation in *. cbn [l_kernel l_args l_cfg l_reply m] in *. rewrite Hd in *.
  pose proof (apply_ops_same_generation st ops Hw Hb) as Hgen.
  assert (Hquiet : ∀ r, kpost ch g g' [Reply ch r] → queue g' = queue g).
  { by intros r [_ [(? & _)|(op & t & _ & _ & _ & _ & _ & _ & Hn)]]. }
  split; intros Hbump.
  - rewrite (proj2 (Z.eqb_neq _ _)) in * by (rewrite Hg; naive_solver). by apply Hquiet in Hp.
  - rewrite (proj2 (Z.eqb_eq _ _)) in * by (rewrite Hg; symmetry; by apply Hgen).
    destruct (access_list _ _); [|by apply Hquiet in Hp].
    destruct (answer _); [by apply Hquiet in Hp|]. split; [done|]. by apply Henq.
Qed.

(** ** Instances *)

(** A compiler that returns the source with the architecture appended. *)
Definition toy_compile (src : string) (o : CompileOptions) : result (list Z) string :=
  let p := as_bytes (src +:+ default "" (co_arch o)) in
  match utf8_validate 0 p with None => Ok p | Some e => Err (utf8_error e) end.

Lemma toy_law : CompilerLaw toy_compile.
Proof. intros src o p. unfold toy_compile. destruct (utf8_validate _ _) eqn:Hv; [done|]. by intros [= <-]. Qed.

Definition job (src : string) (a : SmArch) : Job := {| j_src := src; j_kernel := "k"; j_opts := for_arch a |}.
Definition toy_sip : list Z → Z := fnv_write FNV_OFFSET_BASIS_64.
#[local] Instance toy_disk : DiskOps (Fs * NvrtcCache) := nvrtc_disk "0.3.0" tagged_serialize tagged_deserialize.
Definition toy_os : Os (Fs * NvrtcCache) := (true, io_ok).
Definition toy_device : DeviceState := DeviceState_new 0.
Definition toy_start : NvrtcInner * Gpu :=
  (props_with_cache (Some (race_fs, some_cache)), set_heap {[1 := 1; 2 := 1]} (Gpu_new (Some toy_device))).
Definition toy_event := nvrtc_event (D := Fs * NvrtcCache) "0.3.0" toy_compile (λ _, None) (λ _ _, None) (λ _, None) toy_sip.
Definition toy_run := nvrtc_run (D := Fs * NvrtcCache) "0.3.0" toy_compile (λ _, None) (λ _ _, None) (λ _, None) toy_sip.

Lemma empty_trusted used : trusted (D := Fs * NvrtcCache) toy_compile used (race_fs, some_cache).
Proof.
  split; [apply race_fs_wf|]. intros j e _ [Hm|(bs & Hr & _)]; cbn in *.
  - unfold memory_hit in Hm. cbn in Hm. by rewrite lookup_empty in Hm.
  - unfold fs_read in Hr. cbn in Hr. by rewrite lookup_empty in Hr.
Qed.

(** Two sources, one compiled by the actor and one by a blocking task. *)
Definition two_jobs : list Job := [job "a" Sm80; job "b" Sm90].
Definition two_events : list (@NEvent (Fs * NvrtcCache) _) := [EMsg toy_os (Compile (job "a" Sm80) 0); ETask toy_os (job "b" Sm90) 1].

Lemma nvrtc_compiles_witness : ∃ r,
  compile_effects (job "a" Sm80) 2 r (exec (toy_event (EMsg toy_os (Compile (job "a" Sm80) 2))) (toy_run toy_start two_events)).2 ∧
  erase r = Ok {| func := (as_bytes "acompute_80", "k"); kh_generation := 0; src_hash := hash_src toy_sip "a";
                  kh_name := "k"; lowered_names := ∅; kh_ptx := None; kh_cubin := None |}.
Proof.
  pose proof toy_law. pose proof (nvrtc_disk_law "0.3.0" tagged_serialize tagged_deserialize (BincodeLaw0 := tagged_law)) as HD.
  destruct (nvrtc_compiles (DiskLaw0 := HD) "0.3.0" toy_compile (λ _, None) (λ _ _, None) (λ _, None) toy_sip (λ j, j ∈ two_jobs)
    (Some (race_fs, some_cache)) (set_heap {[1 := 1; 2 := 1]} (Gpu_new (Some toy_device))) two_events toy_os (job "a" Sm80) 2) as (r1 & r2 & H1 & _ & Hr & _).
  - intros j1 j2. unfold two_jobs. rewrite !elem_of_cons.
    intros [->|[->|[]%elem_of_nil]] [->|[->|[]%elem_of_nil]] Hk; [exact eq_refl| | |exact eq_refl]; vm_compute in Hk; discriminate Hk.
  - intros j1 j2. unfold two_jobs. rewrite !elem_of_cons.
    intros [->|[->|[]%elem_of_nil]] [->|[->|[]%elem_of_nil]] Hk; [exact eq_refl| | |exact eq_refl]; vm_compute in Hk; discriminate Hk.
  - intros d [= <-]. apply empty_trusted.
  - repeat constructor.
  - by left.
  - exists r1. split; [exact H1|]. rewrite Hr. by vm_compute.
Defined.

(** A second compile of the same source, for another architecture, gives the module
    of the first. *)
Example options_ignored :
  (exec (toy_event (EMsg toy_os (Compile (job "a" Sm90) 3))) (toy_run toy_start two_events)).2 =
    [Compiled 3 (Ok {| func := (as_bytes "acompute_80", "k"); kh_generation := 0; src_hash := hash_src toy_sip "a";
                       kh_name := "k"; lowered_names := ∅; kh_ptx := None; kh_cubin := None |})].
Proof. by vm_compute. Qed.

(** The blocking task, with its own map of modules, gives the right one. *)
Example async_respects_options :
  (exec (toy_event (ETask toy_os (job "a" Sm90) 3)) (toy_run toy_start two_events)).2 =
    [RanNvrtc "a" (into_cudarc (for_arch Sm90));
     Compiled 3 (Ok {| func := (as_bytes "acompute_90", "k"); kh_generation := 0; src_hash := hash_src toy_sip "a";
                       kh_name := "k"; lowered_names := ∅; kh_ptx := Some (as_bytes "acompute_90"); kh_cubin := None |})].
Proof. by vm_compute. Qed.

(** Two options with one key: the program's name is not part of it. *)
Example name_not_in_key :
  build_flags default_opts =
    build_flags {| ftz := None; maxrregcount := None; opt_name := Some "p.cu"; use_fast_math := None; lto := false;
      cpp_std := None; opt_arch := None; name_expressions := []; extra_options := []; include_paths := [] |}.
Proof. done. Qed.

Definition toy_handle : KernelHandle :=
  {| func := ([], "k"); kh_generation := 0; src_hash := 0; kh_name := "k"; lowered_names := ∅; kh_ptx := None; kh_cubin := None |}.
Definition toy_args : list KernelArg := [DevSliceF32 (GpuRef_new 1 toy_device); Usize 16].
Definition toy_config : LaunchConfig := {| grid_dim := (1, 1, 1)%Z; block_dim := (32, 1, 1)%Z; shared_mem_bytes := 0 |}.

Lemma nvrtc_launches_witness :
  (exec (toy_event (EMsg toy_os (Launch toy_handle toy_args toy_config 4))) toy_start).2 =
    [Kernel (Enqueue (launch_call toy_handle toy_args toy_config))].
Proof.
  assert (Hl := nvrtc_launches (D := Fs * NvrtcCache) "0.3.0" toy_compile (λ _, None) (λ _ _, None) (λ _, None) toy_sip
    {| modules := ∅; disk := Some (race_fs, some_cache) |} toy_os toy_device [] toy_start.2 toy_args toy_config 4 toy_handle).
  change (exec (toy_event (EMsg toy_os (Launch toy_handle toy_args toy_config 4))) toy_start) with
    (exec (nvrtc_handle "0.3.0" toy_compile (λ _, None) (λ _ _, None) (λ _, None) toy_sip toy_os
      (Launch toy_handle toy_args toy_config 4)) (Real {| modules := ∅; disk := Some (race_fs, some_cache) |}, toy_start.2)).
  destruct (exec _ _) as [[c' g'] es]. destruct Hl as (_ & _ & Hl); try by vm_compute.
  - repeat constructor; vm_compute; lia.
  - by destruct (Hl eq_refl) as [-> _].
Defined.
