(* ===== verification/PyNvrtc.v ===== *)
(** * The Python bridge: [KernelArg], [NvrtcKernel]

    Models [crates/atomr-accel-py/src/nvrtc.rs] and [Device.compile_kernel].  A
    [KernelArg] is an object with an identity: its content is taken by the first launch
    that reaches it, so the objects of the interpreter are a store beside the GPU.  The
    elements of a [list] of arguments that are no [KernelArg] come with the exception of
    their extraction.  How a float is printed is a parameter. *)

From stdpp Require Import pretty.
From S2P Require Import NvrtcCache.
From S2P Require Import Prelude Actor Text Float64 Errors Dtype DeviceState DeviceActor Envelope Nvrtc Python PyDevice.

Module Inner.

Inductive KernelArgPyInner : Type :=
  | BufferF32 (b : PyGpuBuffer) | BufferF64 (b : PyGpuBuffer) | BufferI32 (b : PyGpuBuffer)
  | BufferU32 (b : PyGpuBuffer) | BufferU8 (b : PyGpuBuffer)
  | ScalarI32 (v : Z) | ScalarI64 (v : Z) | ScalarF32 (v : Z) | ScalarF64 (v : Z) | ScalarU32 (v : Z) | ScalarU64 (v : Z)
  | Usize (v : Z).
End Inner.
Import Inner (KernelArgPyInner).

(** The contents of the [KernelArg] objects; [None] is a consumed one. *)
Record PyState := { kargs : gmap nat (option KernelArgPyInner); gpu : Gpu }.
Definition set_gpu (g : Gpu) (s : PyState) : PyState := {| kargs := kargs s; gpu := g |}.
Definition set_karg (id : nat) (i : option KernelArgPyInner) (s : PyState) : PyState :=
  {| kargs := <[id := i]> (kargs s); gpu := gpu s |}.

Abbreviation pact := (act PyState (PyEff NvrtcMsg)).

(** ** Arguments *)

Definition wrap (i : KernelArgPyInner) : pact nat :=
  s ← get;
  let id := fresh (dom (kargs s)) in
  modify (set_karg id (Some i));; mret id.
Definition buffer_f32 (b : PyGpuBuffer) : pact nat := wrap (Inner.BufferF32 b).
Definition buffer_f64 (b : PyGpuBuffer) : pact nat := wrap (Inner.BufferF64 b).
Definition buffer_i32 (b : PyGpuBuffer) : pact nat := wrap (Inner.BufferI32 b).
Definition buffer_u32 (b : PyGpuBuffer) : pact nat := wrap (Inner.BufferU32 b).
Definition buffer_u8 (b : PyGpuBuffer) : pact nat := wrap (Inner.BufferU8 b).
Definition scalar_i32 (v : Z) : pact nat := wrap (Inner.ScalarI32 v).
Definition scalar_i64 (v : Z) : pact nat := wrap (Inner.ScalarI64 v).
Definition scalar_f32 (v : Z) : pact nat := wrap (Inner.ScalarF32 v).
Definition scalar_f64 (v : Z) : pact nat := wrap (Inner.ScalarF64 v).
Definition scalar_u32 (v : Z) : pact nat := wrap (Inner.ScalarU32 v).
Definition scalar_u64 (v : Z) : pact nat := wrap (Inner.ScalarU64 v).
Definition usize (v : Z) : pact nat := wrap (Inner.Usize v).

Definition arg_repr (show_f32 show_f64 : Z → string) (i : option KernelArgPyInner) : string :=
  "KernelArg(" +:+
  match i with
  | None => "consumed"
  | Some (Inner.BufferF32 _) => "buffer_f32"
  | Some (Inner.BufferF64 _) => "buffer_f64"
  | Some (Inner.BufferI32 _) => "buffer_i32"
  | Some (Inner.BufferU32 _) => "buffer_u32"
  | Some (Inner.BufferU8 _) => "buffer_u8"
  | Some (Inner.ScalarI32 v) => "scalar_i32=" +:+ pretty v
  | Some (Inner.ScalarI64 v) => "scalar_i64=" +:+ pretty v
  | Some (Inner.ScalarF32 v) => "scalar_f32=" +:+ show_f32 v
  | Some (Inner.ScalarF64 v) => "scalar_f64=" +:+ show_f64 v
  | Some (Inner.ScalarU32 v) => "scalar_u32=" +:+ pretty v
  | Some (Inner.ScalarU64 v) => "scalar_u64=" +:+ pretty v
  | Some (Inner.Usize v) => "usize=" +:+ pretty v
  end +:+ ")".

(** The arm of a buffer variant. *)
Definition take_buffer (name : string) (T : DType) (b : PyGpuBuffer) : pact (result KernelArg PyErr) :=
  match inner b with
  | None => mret (fails ("kernel arg: " +:+ name +:+ " buffer consumed"))
  | Some r => zoom gpu set_gpu (modify (clone_ref (slice r)));; mret (Ok (DevSlice T r))
  end.
Definition take_kernel_arg (id : nat) : pact (result KernelArg PyErr) :=
  s ← get;
  match kargs s !! id with
  | Some (Some i) =>
    modify (set_karg id None);;
    match i with
    | Inner.BufferF32 b => take_buffer "f32" F32 b
    | Inner.BufferF64 b => take_buffer "f64" F64 b
    | Inner.BufferI32 b => take_buffer "i32" I32 b
    | Inner.BufferU32 b => take_buffer "u32" U32 b
    | Inner.BufferU8 b => take_buffer "u8" U8 b
    | Inner.ScalarI32 v => mret (Ok (Scalar I32 v))
    | Inner.ScalarI64 v => mret (Ok (Scalar I64 v))
    | Inner.ScalarF32 v => mret (Ok (Scalar F32 v))
    | Inner.ScalarF64 v => mret (Ok (Scalar F64 v))
    | Inner.ScalarU32 v => mret (Ok (Scalar U32 v))
    | Inner.ScalarU64 v => mret (Ok (Scalar U64 v))
    | Inner.Usize v => mret (Ok (Usize v))
    end
  | _ => mret (fails "kernel arg already consumed by a prior launch")
  end.

(** An element of the list. *)
Inductive Item : Type := Obj (id : nat) | Alien (e : PyErr).
Definition drop_arg (a : KernelArg) (g : Gpu) : Gpu :=
  match a with DevSlice _ r => drop_ref (slice r) g | _ => g end.
(** The loop over the list; an early return drops the vector. *)
Fixpoint marshal (args : list Item) : pact (result (list KernelArg) PyErr) :=
  match args with
  | [] => mret (Ok [])
  | Alien e :: _ => mret (Err e)
  | Obj id :: args =>
    a ← take_kernel_arg id;
    match a with
    | Err e => mret (Err e)
    | Ok a =>
      r ← marshal args;
      match r with
      | Ok rust_args => mret (Ok (a :: rust_args))
      | Err e => zoom gpu set_gpu (modify (drop_arg a));; mret (Err e)
      end
    end
  end.

(** ** The kernel *)

(** [nk_actor] is the NVRTC actor's number. *)
Record PyNvrtcKernel := { nk_handle : KernelHandle; nk_actor : nat }.
Definition nk_name (k : PyNvrtcKernel) : string := kh_name (nk_handle k).
Definition nk_generation (k : PyNvrtcKernel) : Z := kh_generation (nk_handle k).
Definition nk_repr (k : PyNvrtcKernel) : string :=
  "NvrtcKernel(name='" +:+ nk_name k +:+ "', generation=" +:+ pretty (nk_generation k) +:+ ")".

Definition launch_config (grid block : Z * Z * Z) (shared : Z) : LaunchConfig :=
  {| grid_dim := grid; block_dim := block; shared_mem_bytes := shared |}.
Definition launch_async (k : PyNvrtcKernel) (grid block : Z * Z * Z) (args : list Item) (shared : Z) (timeout_secs : f64) :
    pact (result (Future NvrtcMsg) PyErr) :=
  r ← marshal args;
  mret (match r with
  | Err e => Err e
  | Ok rust_args => Ok {| fut_what := "nvrtc"; fut_label := "nvrtc launch"; fut_timeout := timeout_secs;
      fut_request := λ tx, Launch (nk_handle k) rust_args (launch_config grid block shared) tx |}
  end).
(** The blocking method awaits what the other one returns. *)
Definition launch (k : PyNvrtcKernel) (grid block : Z * Z * Z) (args : list Item) (shared : Z) (timeout_secs : f64)
    (tx : nat) (aw : Awaited unit) : pact (result unit PyErr) :=
  f ← launch_async k grid block args shared timeout_secs;
  match f with
  | Err e => mret (Err e)
  | Ok f => zoom gpu set_gpu (poll_future f tx aw)
  end.

(** ** Compiling *)

Definition compile_request (name src : string) : Request NvrtcMsg :=
  λ tx, Compile {| j_src := src; j_kernel := name; j_opts := default_opts |} tx.
Definition compile_via_actor (actor : nat) (name src : string) (timeout_secs : f64) (tx : nat)
    (aw : Awaited KernelHandle) : act Gpu (PyEff NvrtcMsg) (result PyNvrtcKernel PyErr) :=
  mapr (λ h, {| nk_handle := h; nk_actor := actor |})
    (ask "nvrtc" "nvrtc compile" timeout_secs (compile_request name src tx) aw).
Definition compile_via_actor_async (name src : string) (timeout_secs : f64) :
    act Gpu (PyEff NvrtcMsg) (result (Future NvrtcMsg) PyErr) :=
  future "nvrtc" "nvrtc compile" timeout_secs (request (compile_request name src)).
Definition poll_compile (actor : nat) (f : Future NvrtcMsg) (tx : nat) (aw : Awaited KernelHandle) :
    act Gpu (PyEff NvrtcMsg) (result PyNvrtcKernel PyErr) :=
  mapr (λ h, {| nk_handle := h; nk_actor := actor |}) (poll_future f tx aw).

(** Messages to two actors. *)
Inductive KMsg : Type := ToDevice (m : DeviceMsg) | ToNvrtc (actor : nat) (m : NvrtcMsg).
Definition relabel {M A} (f : M → KMsg) (m : act Gpu (PyEff M) A) : act Gpu (PyEff KMsg) A := λ g,
  let '(a, g', es) := m g in (a, g', (λ e : PyEff M, let 'Tell x := e in Tell (f x)) <$> es).
Definition compile_kernel (name src : string) (timeout_secs : f64) (tx : nat) (got : Got (option KernelChildren))
    (aw : Awaited KernelHandle) : act Gpu (PyEff KMsg) (result PyNvrtcKernel PyErr) :=
  bindr (relabel ToDevice (Handle.nvrtc timeout_secs tx got)) (λ actor,
  relabel (ToNvrtc actor) (compile_via_actor actor name src timeout_secs (tx + 1) aw)).
Definition compile_kernel_async (name src : string) (timeout_secs : f64) (tx : nat) (got : Got (option KernelChildren)) :
    act Gpu (PyEff KMsg) (result (nat * Future NvrtcMsg) PyErr) :=
  bindr (relabel ToDevice (Handle.nvrtc timeout_secs tx got)) (λ actor,
  mapr (pair actor) (relabel (ToNvrtc actor) (compile_via_actor_async name src timeout_secs))).

(** ** What they do *)

(** The argument a content stands for. *)
Definition arg_of (i : KernelArgPyInner) : option KernelArg :=
  match i with
  | Inner.BufferF32 b => DevSlice F32 <$> inner b
  | Inner.BufferF64 b => DevSlice F64 <$> inner b
  | Inner.BufferI32 b => DevSlice I32 <$> inner b
  | Inner.BufferU32 b => DevSlice U32 <$> inner b
  | Inner.BufferU8 b => DevSlice U8 <$> inner b
  | Inner.ScalarI32 v => Some (Scalar I32 v)
  | Inner.ScalarI64 v => Some (Scalar I64 v)
  | Inner.ScalarF32 v => Some (Scalar F32 v)
  | Inner.ScalarF64 v => Some (Scalar F64 v)
  | Inner.ScalarU32 v => Some (Scalar U32 v)
  | Inner.ScalarU64 v => Some (Scalar U64 v)
  | Inner.Usize v => Some (Usize v)
  end.
Definition clone_arg (g : Gpu) (a : KernelArg) : Gpu :=
  match a with DevSlice _ r => clone_ref (slice r) g | _ => g end.
Definition taken (m : gmap nat (option KernelArgPyInner)) (it : Item) : gmap nat (option KernelArgPyInner) :=
  match it with Obj id => <[id := None]> m | Alien _ => m end.
(** The item is an object that has not been consumed and stands for the argument. *)
Definition stands (m : gmap nat (option KernelArgPyInner)) (it : Item) (a : KernelArg) : Prop :=
  ∃ id i, it = Obj id ∧ m !! id = Some (Some i) ∧ arg_of i = Some a.
(** The buffers of the store are held by their Python objects. *)
Definition all_live (s : PyState) : Prop :=
  ∀ id i T r, kargs s !! id = Some (Some i) → arg_of i = Some (DevSlice T r) → 1 ≤ handles (gpu s) (slice r).

Lemma take_spec id s :
  match kargs s !! id with
  | Some (Some i) =>
    match arg_of i with
    | Some a => take_kernel_arg id s = (Ok a, {| kargs := <[id := None]> (kargs s); gpu := clone_arg (gpu s) a |}, [])
    | None => ∃ e, take_kernel_arg id s = (Err e, set_karg id None s, [])
    end
  | _ => take_kernel_arg id s = (fails "kernel arg already consumed by a prior launch", s, [])
  end.
Proof.
  unfold take_kernel_arg, take_buffer. act_unfold. destruct (kargs s !! id) as [[i|]|]; [|done..].
  destruct i as [[? [r|]]|[? [r|]]|[? [r|]]|[? [r|]]|[? [r|]]|v|v|v|v|v|v|v]; cbn; try done; by eexists.
Qed.

Lemma drop_clone_arg g a : (∀ T r, a = DevSlice T r → 1 ≤ handles g (slice r)) → drop_arg a (clone_arg g a) = g.
Proof. intros H. destruct a; try done. cbn. apply drop_clone. by eapply H. Qed.

Lemma all_live_take s id a : all_live s →
  all_live {| kargs := <[id := None]> (kargs s); gpu := clone_arg (gpu s) a |}.
Proof.
  intros Hl id' i T r. cbn. destruct (decide (id' = id)) as [->|].
  { by rewrite lookup_insert_eq. }
  rewrite lookup_insert_ne by done. intros Hi Ha. specialize (Hl id' i T r Hi Ha). destruct a; cbn; try done.
  rewrite handles_clone. case_decide as Hd; [|done]. rewrite Hd. lia.
Qed.

Lemma Forall2_impl_in {A B} (P Q : A → B → Prop) l k :
  (∀ x y, x ∈ l → P x y → Q x y) → Forall2 P l k → Forall2 Q l k.
Proof.
  intros H Hf. induction Hf as [|x y l k Hp _ IH]; constructor.
  - apply H; [by left|done].
  - apply IH. intros x' y' Hin. apply H. by right.
Qed.

(** Marshalling succeeds exactly on distinct objects that have not been consumed, which
    it consumes; a failure gives the references back but has consumed what came before. *)
Lemma marshal_spec args s : all_live s →
  (∃ rust_args, Forall2 (stands (kargs s)) args rust_args ∧ NoDup args ∧
     marshal args s = (Ok rust_args, {| kargs := foldl taken (kargs s) args; gpu := foldl clone_arg (gpu s) rust_args |}, [])) ∨
  (∃ e n, marshal args s = (Err e, {| kargs := foldl taken (kargs s) (take n args); gpu := gpu s |}, []) ∧
     ¬ (∃ rust_args, Forall2 (stands (kargs s)) args rust_args ∧ NoDup args)).
Proof.
  revert s. induction args as [|[id|e] args IH]; intros s Hl.
  - left. exists []. split_and!; [done|constructor|]. by destruct s.
  - pose proof (take_spec id s) as Ht. cbn [marshal]. act_unfold.
    destruct (kargs s !! id) as [[i|]|] eqn:Hi.
    2,3: rewrite Ht; right; eexists _, 0; (split; [by destruct s|]);
      intros (? & (? & ? & (? & ? & [= <-] & ? & _) & _)%Forall2_cons_inv_l & _); congruence.
    destruct (arg_of i) as [a|] eqn:Ha.
    2:{ destruct Ht as [e ->]. right. exists e, 1. split; [by destruct args|].
        intros (? & (? & ? & (? & ? & [= <-] & ? & ?) & _)%Forall2_cons_inv_l & _); congruence. }
    rewrite Ht. cbn. set (s1 := {| kargs := <[id := None]> (kargs s); gpu := clone_arg (gpu s) a |}).
    assert (Hst : ∀ it a', stands (kargs s1) it a' ↔ stands (kargs s) it a' ∧ it ≠ Obj id).
    { intros it a'. unfold stands. cbn. split.
      - intros (id' & i' & -> & Hi' & Ha'). apply lookup_insert_Some in Hi' as [[_ [=]]|[Hne ?]].
        split; [by eexists _, _|]. by intros [= ->].
      - intros [(id' & i' & -> & Hi' & Ha') Hne]. eexists _, _. split_and!; [done| |done].
        rewrite lookup_insert_ne; [done|]. by intros ->. }
    destruct (IH s1 (all_live_take s id a Hl)) as [(as' & Hf & Hnd & ->)|(e & n & -> & Hno)].
    + left. exists (a :: as'). split_and!; [|constructor; [|done]|done].
      * constructor; [by eexists _, _|]. eapply Forall2_impl; [exact Hf|]. intros it a' Hs. by apply Hst in Hs as [].
      * intros Hin. apply list_elem_of_lookup in Hin as [k Hk].
        destruct (Forall2_lookup_l _ _ _ _ _ Hf Hk) as (a' & _ & Hs). by apply Hst in Hs as [_ ?].
    + right. exists e, (S n). split; [|].
      * cbn. unfold set_gpu. cbn. by rewrite drop_clone_arg by (intros T r ->; by eapply Hl).
      * intros (as0 & Hf & Hnd). apply Hno. apply Forall2_cons_inv_l in Hf as (a0 & as1 & _ & Hf & ->).
        apply NoDup_cons in Hnd as [Hnin Hnd]. exists as1. split; [|done].
        eapply Forall2_impl_in; [|exact Hf]. intros it a' Hin Hs. apply Hst. split; [done|]. by intros ->.
  - right. exists e, 0. split; [by destruct s|].
    intros (? & (? & ? & (? & ? & [=] & _) & _)%Forall2_cons_inv_l & _).
Qed.

Lemma arg_of_canonical i a : arg_of i = Some a → canonicalize a = a.
Proof. destruct i as [[? []]|[? []]|[? []]|[? []]|[? []]|?|?|?|?|?|?|?]; cbn; by intros [= <-]. Qed.

(** The references of a list that was marshalled: their clones, and that they are held. *)
Lemma marshalled_refs early s args rust_args : all_live s → ginv early (gpu s) →
  Forall2 (stands (kargs s)) args rust_args →
  foldl clone_arg (gpu s) rust_args = foldl (flip clone_ref) (gpu s) (slice <$> arg_refs rust_args) ∧
  Forall (holds (heap (gpu s))) (arg_refs rust_args).
Proof.
  intros Hl Hg Hf. split.
  - generalize (gpu s). induction Hf as [|it a args l (id & i & _ & _ & Ha) _ IH]; intros g; [done|].
    cbn [foldl]. rewrite IH. unfold arg_refs. cbn. rewrite (arg_of_canonical i a Ha). by destruct a.
  - induction Hf as [|it a args l (id & i & _ & Hi & Ha) _ IH]; [constructor|].
    unfold arg_refs. cbn. rewrite (arg_of_canonical i a Ha). destruct a; try exact IH.
    constructor; [|exact IH]. eapply ginv_holds; [done|]. by eapply Hl.
Qed.

(** A launch raises and gives every reference back, or tells the launch of exactly the
    arguments of the list, which are distinct and now consumed, over clones of their
    buffers: the actor then does with it what it does with any launch whose sender holds
    its buffers. *)
Theorem python_launch {S} answer (st : S) early k grid block args shared timeout tx aw s :
  all_live s → ginv early (gpu s) →
  (∃ e n, launch k grid block args shared timeout tx aw s =
     (Err e, {| kargs := foldl taken (kargs s) (take n args); gpu := gpu s |}, [])) ∨
  (∃ rust_args, Forall2 (stands (kargs s)) args rust_args ∧ NoDup args ∧
     let m := {| l_kernel := nk_handle k; l_args := rust_args; l_cfg := launch_config grid block shared; l_reply := tx |} in
     let g' := foldl (flip clone_ref) (gpu s) (slice <$> arg_refs rust_args) in
     launch k grid block args shared timeout tx aw s =
       (finish "nvrtc" "nvrtc launch" timeout aw, {| kargs := foldl taken (kargs s) args; gpu := g' |},
        [Tell (Launch (l_kernel m) (l_args m) (l_cfg m) tx)]) ∧
     (exec (handle_launch answer (l_kernel m) (l_args m) (l_cfg m) tx) (st, g')).2 = launch_effects answer g' m).
Proof.
  intros Hl Hg. unfold launch, launch_async. act_unfold.
  destruct (marshal_spec args s Hl) as [(as' & Hf & Hnd & ->)|(e & n & -> & _)]; [right|left; by eexists _, _].
  exists as'. destruct (marshalled_refs early s args as' Hl Hg Hf) as [Hc Hh]. split; [done|]. split; [done|].
  cbv zeta. split; [by rewrite <-Hc|].
  set (m := Build_LaunchMsg _ _ _ _). set (g' := foldl _ _ _).
  assert (Hh' : Forall (holds (heap g')) (arg_refs (l_args m))) by (unfold g'; by destruct (clones_heap (gpu s) (slice <$> arg_refs as')) as [-> _]).
  pose proof (handle_launch_spec answer m st g' Hh') as Hs. unfold awp in Hs.
  destruct (handle_launch _ _ _ _ _ _) as [[[] st'] es]. by destruct Hs as (_ & _ & -> & _).
Qed.

(** Once a launch has taken an argument, every later launch whose list begins with it
    fails, whether the first one launched or not. *)
Lemma taken_once m args n id : Obj id ∈ take n args → foldl taken m (take n args) !! id = Some None.
Proof.
  generalize (take n args). clear args n. intros l. revert m.
  induction l as [|it l IH] using rev_ind; intros m; [by intros ?%elem_of_nil|].
  rewrite foldl_app. cbn. intros [Hin|Hin]%elem_of_app.
  - specialize (IH m Hin). destruct it as [id'|]; [|exact IH]. cbn. destruct (decide (id = id')) as [->|].
    + by rewrite lookup_insert_eq.
    + by rewrite lookup_insert_ne.
  - apply list_elem_of_singleton in Hin. subst it. cbn. by rewrite lookup_insert_eq.
Qed.

Lemma relaunch_refused k grid block id args shared timeout tx aw s : kargs s !! id = Some None →
  launch k grid block (Obj id :: args) shared timeout tx aw s =
    (fails "kernel arg already consumed by a prior launch", s, []).
Proof.
  intros Hi. unfold launch, launch_async. cbn [marshal]. unfold take_kernel_arg. act_unfold. by rewrite Hi.
Qed.

(** A list that names one object twice loses it without launching: the error leaves the
    object consumed, so that the corrected list is refused as well. *)
Example failed_launch_consumes k (g : Gpu) aw :
  let one := (1, 1, 1)%Z in
  let s := {| kargs := {[0 := Some (Inner.ScalarI32 5)]}; gpu := g |} in
  let '(r, s', es) := launch k one one [Obj 0; Obj 0] 0 (f64_of_Z 60) 7 aw s in
  r = fails "kernel arg already consumed by a prior launch" ∧ es = [] ∧
  launch k one one [Obj 0] 0 (f64_of_Z 60) 8 aw s' =
    (fails "kernel arg already consumed by a prior launch", s', []).
Proof. done. Qed.

(** A kernel is compiled with the default options, by the actor of the children the
    device answered. *)
Lemma compile_kernel_tells name src timeout tx kc actor h g : duration_error timeout = None → nvrtc kc = Some actor →
  compile_kernel name src timeout tx (Received (Some kc)) (Answered (Ok h)) g =
    (Ok {| nk_handle := h; nk_actor := actor |}, g,
     [Tell (ToDevice (SnapshotChildren tx)); Tell (ToNvrtc actor (compile_request name src (tx + 1)))]).
Proof.
  intros Ht Hk. unfold compile_kernel, Handle.nvrtc, enabled, require_children, snapshot_children, relabel,
    compile_via_actor, ask_got, ask, mapr, bindr, finish_got, finish. act_unfold. rewrite Ht. cbn. by rewrite Hk, ?Ht.
Qed.

(** *** At a concrete launch *)

Definition launch_gpu : Gpu := set_heap {[1 := 1]} (set_refs {[1 := 1]} (Gpu_new (Some toy_device))).
Definition launch_buffer : PyGpuBuffer := PyGpuBuffer_new PyGpuBufferF32 (GpuRef_new 1 toy_device).
Definition launch_state : PyState :=
  {| kargs := {[0 := Some (Inner.BufferF32 launch_buffer); 1 := Some (Inner.Usize 16)]}; gpu := launch_gpu |}.

Lemma launch_gpu_ginv : ginv false launch_gpu.
Proof.
  split; [|by intros _ op ?%elem_of_nil]. intros sl. unfold strong_count, handles. cbn.
  destruct (decide (sl = 1)) as [->|]; [by vm_compute|]. by rewrite !lookup_singleton_ne by done.
Qed.

Lemma python_launch_witness : ∃ m g',
  launch {| nk_handle := toy_handle; nk_actor := 4 |} (1, 1, 1)%Z (32, 1, 1)%Z [Obj 0; Obj 1] 0 (f64_of_Z 60) 7
    (Answered (Ok tt)) launch_state = (Ok tt, g', [Tell m]).
Proof.
  destruct (python_launch (λ _, None) 0 false {| nk_handle := toy_handle; nk_actor := 4 |} (1, 1, 1)%Z (32, 1, 1)%Z
    [Obj 0; Obj 1] 0 (f64_of_Z 60) 7 (Answered (Ok tt)) launch_state)
    as [(e & n & He)|(rust_args & _ & _ & Ha & _)]; [|apply launch_gpu_ginv|exfalso; by vm_compute in He|].
  - intros id i T r Hi Ha. cbn in Hi. apply lookup_insert_Some in Hi as [[_ [= <-]]|[_ Hi]].
    + injection Ha as _ <-. vm_compute. lia.
    + apply lookup_singleton_Some in Hi as [_ [= <-]]. done.
  - eexists _, _. rewrite Ha. by vm_compute.
Defined.
