(* ===== verification/Modules.v ===== *)
(** * Prebuilt modules and their launches

    Models [crates/atomr-accel-cuda/src/module/mod.rs]: the actor that loads a cubin
    or PTX image, hands out functions, launches them and unloads the module.  The
    driver is that of [Driver.v], so a module is an object that must be alive when
    it is used; the buffers of a launch are those of [Envelope.v].

    A launch takes its arguments by value: the handle of a buffer is dropped as soon
    as its address is read, before the kernel is on the stream, and the actor does
    not wait for the kernel.  Parameters are those of the driver and what binding
    the context to the thread answers. *)

From stdpp Require Import pretty.
From S2P Require Import Prelude Actor Errors DeviceState Envelope Objects Driver Nvrtc.

Record ModuleHandle := { mh_id : Z }.
Record FunctionHandle := { fh_module : Z; fh_function_id : Z }.

Inductive ModuleMsg : Type :=
  | LoadCubin (bytes : list Z) (reply : nat)
  | LoadPtx (src : list Z) (reply : nat)
  | GetFunction (h : ModuleHandle) (name : string) (reply : nat)
  | LaunchFn (cooperative : bool) (f : FunctionHandle) (cfg : LaunchConfig) (args : list KernelArg) (reply : nat)
  | Unload (h : ModuleHandle) (reply : nat).
Definition module_reply (m : ModuleMsg) : nat :=
  match m with
  | LoadCubin _ ch | LoadPtx _ ch | GetFunction _ _ ch | LaunchFn _ _ _ _ ch | Unload _ ch => ch
  end.
(** The handles a message owns. *)
Definition module_refs (m : ModuleMsg) : list GpuRef :=
  match m with LaunchFn _ _ _ args _ => arg_refs args | _ => [] end.

(** A function is the driver's number of it, and its name. *)
Record LoadedModule := { cu_module : Obj; functions : gmap Z (string * Z); next_function_id : Z }.
Record ModuleCtx := { mlib : Lib; modules : gmap Z LoadedModule; next_module_id : Z }.
Inductive ModuleInner : Type := MReal (c : ModuleCtx) | MMock.
Definition ModuleCtx_new : ModuleCtx := {| mlib := Lib_new; modules := ∅; next_module_id := 1 |}.

Inductive ModuleValue : Type := MDone | MModule (h : ModuleHandle) | MFunction (f : FunctionHandle).
Inductive ModuleEff : Type :=
  | MReply (ch : nat) (r : result ModuleValue GpuError)
  | MEnqueue (c : Call).

Definition set_mlib (l : Lib) (c : ModuleCtx) : ModuleCtx :=
  {| mlib := l; modules := modules c; next_module_id := next_module_id c |}.
Definition set_modules (m : gmap Z LoadedModule) (c : ModuleCtx) : ModuleCtx :=
  {| mlib := mlib c; modules := m; next_module_id := next_module_id c |}.

(** [ends_with(&[0])], and the NUL appended when there is none. *)
Definition ptx_image (src : list Z) : list Z :=
  match last src with Some x => if (x =? 0)%Z then src else src ++ [0%Z] | None => [0%Z] end.

Definition unknown_module (who : string) (id : Z) : GpuError :=
  Unrecoverable ("ModuleActor::" +:+ who +:+ ": unknown module " +:+ pretty id).
Definition unwired : GpuError := Unrecoverable "ModuleActor: KernelArg::DevSlice/Scalar dispatch not yet wired".

Inductive Bind : Type := Bound | BindErr (e : string) | BindPanic.

Section actor.
Context (loadable : string → bool) (lib_answer : nat → ObjCall → result Z string) (bind_to_thread : Bind).
Abbreviation mact := (act (ModuleCtx * Gpu) ModuleEff).

Definition on_driver {A} (m : act Lib ModuleEff A) : mact A := zoom (λ s, mlib s.1) (λ l s, (set_mlib l s.1, s.2)) m.
Definition upd_ctx (f : ModuleCtx → ModuleCtx) : mact unit := modify (λ s, (f s.1, s.2)).
Definition upd_gpu (f : Gpu → Gpu) : mact unit := modify (λ s, (s.1, f s.2)).

Definition load_image (bytes : list Z) : mact (result ModuleHandle GpuError) :=
  match bind_to_thread with
  | BindErr e => mret (Err (LibraryError "module" ("bind_to_thread: " +:+ e)))
  | BindPanic => mret (Err (Unrecoverable "ModuleActor::Load: CUDA driver not loadable"))
  | Bound =>
    r ← on_driver (module_load_data loadable lib_answer bytes);
    match r with
    | Err e => mret (Err e)
    | Ok m =>
      s ← get;
      let id := next_module_id s.1 in
      upd_ctx (λ c, {| mlib := mlib c;
                       modules := <[id := {| cu_module := m; functions := ∅; next_function_id := 1 |}]> (modules c);
                       next_module_id := id +₆₄ 1 |});;
      mret (Ok {| mh_id := id |})
    end
  end.

Definition get_function (h : ModuleHandle) (name : string) : mact (result FunctionHandle GpuError) :=
  s ← get;
  match modules s.1 !! mh_id h with
  | None => mret (Err (unknown_module "GetFunction" (mh_id h)))
  | Some m =>
    match Dot.nul_position name 0 with
    | Some i => mret (Err (Unrecoverable ("ModuleActor::GetFunction: NUL in name: " +:+ Dot.nul_error i)))
    | None =>
      r ← on_driver (module_get_function loadable lib_answer (cu_module m) name);
      match r with
      | Err e => mret (Err e)
      | Ok f =>
        let id := next_function_id m in
        upd_ctx (λ c, set_modules (<[mh_id h := {| cu_module := cu_module m; functions := <[id := (name, f)]> (functions m);
                                                  next_function_id := id +₆₄ 1 |}]> (modules c)) c);;
        mret (Ok {| fh_module := mh_id h; fh_function_id := id |})
      end
    end
  end.

(** [KernelArgScratch::from_arg] of each argument in turn: the address of a buffer is
    read and its handle dropped; on an error the arguments left are dropped. *)
Definition drop_refs (rs : list GpuRef) : mact unit := upd_gpu (λ g, foldr drop_ref g (slice <$> rs)).
Fixpoint scratch_args (args : list KernelArg) : mact (result (list Arg) GpuError) :=
  match args with
  | [] => mret (Ok [])
  | a :: rest =>
    match a with
    | DevSlice _ _ | Scalar _ _ => drop_refs (arg_refs (a :: rest));; mret (Err unwired)
    | DevSliceF32 r | DevSliceF64 r | DevSliceI32 r | DevSliceU32 r | DevSliceU8 r =>
      s ← get;
      match access r (dev s.2) with
      | Err e => drop_refs (arg_refs (a :: rest));; mret (Err e)
      | Ok sl =>
        drop_refs [r];;
        x ← scratch_args rest;
        mret match x with Ok l => Ok (ADev sl :: l) | Err e => Err e end
      end
    | ScalarF32 v | ScalarF64 v | ScalarI32 v | ScalarU32 v | ScalarU64 v | Usize v =>
      x ← scratch_args rest;
      mret match x with Ok l => Ok (AInt v :: l) | Err e => Err e end
    end
  end.

Definition launch_inner (f : FunctionHandle) (cfg : LaunchConfig) (args : list KernelArg) (cooperative : bool) :
    mact (result unit GpuError) :=
  s ← get;
  match modules s.1 !! fh_module f with
  | None => drop_refs (arg_refs args);; mret (Err (unknown_module "Launch" (fh_module f)))
  | Some m =>
    match functions m !! fh_function_id f with
    | None =>
      drop_refs (arg_refs args);;
      mret (Err (Unrecoverable ("ModuleActor::Launch: unknown function " +:+ pretty (fh_module f) +:+ "/" +:+ pretty (fh_function_id f))))
    | Some (_, cu_func) =>
      x ← scratch_args args;
      match x with
      | Err e => mret (Err e)
      | Ok params =>
        let call := {| cname := launch_op cooperative; cargs := AInt cu_func :: launch_config_args cfg ++ params |} in
        r ← on_driver (launch_kernel loadable lib_answer cooperative (cu_module m) (cargs call));
        match r with
        | Err e => mret (Err e)
        | Ok _ =>
          upd_gpu (λ g, {| heap := heap g; refs := refs g; dev := dev g;
                           queue := queue g ++ [{| op_id := next_op g; op_call := call |}];
                           next_op := next_op g + 1; tasks := tasks g |});;
          emit (MEnqueue call);;
          mret (Ok tt)
        end
      end
    end
  end.

Definition unload (h : ModuleHandle) : mact (result unit GpuError) :=
  s ← get;
  match modules s.1 !! mh_id h with
  | None => mret (Err (unknown_module "Unload" (mh_id h)))
  | Some m =>
    upd_ctx (λ c, set_modules (delete (mh_id h) (modules c)) c);;
    on_driver (module_unload loadable lib_answer (cu_module m))
  end.

Definition done_value (r : result unit GpuError) : result ModuleValue GpuError :=
  match r with Ok _ => Ok MDone | Err e => Err e end.
(** [handle_real] *)
Definition handle_real (m : ModuleMsg) : mact unit :=
  match m with
  | LoadCubin bytes ch =>
    r ← load_image bytes; emit (MReply ch (match r with Ok h => Ok (MModule h) | Err e => Err e end))
  | LoadPtx src ch =>
    r ← load_image (ptx_image src); emit (MReply ch (match r with Ok h => Ok (MModule h) | Err e => Err e end))
  | GetFunction h name ch =>
    r ← get_function h name; emit (MReply ch (match r with Ok f => Ok (MFunction f) | Err e => Err e end))
  | LaunchFn coop f cfg args ch => r ← launch_inner f cfg args coop; emit (MReply ch (done_value r))
  | Unload h ch => r ← unload h; emit (MReply ch (done_value r))
  end.

Definition module_mock : GpuError := Unrecoverable "ModuleActor in mock mode".
(** [ModuleActor::handle]; a mock drops the arguments of a launch with the message. *)
Definition module_handle (m : ModuleMsg) : act (ModuleInner * Gpu) ModuleEff unit :=
  s ← get;
  match s.1 with
  | MMock => emit (MReply (module_reply m) (Err module_mock));; modify (λ s, (s.1, foldr drop_ref s.2 (slice <$> module_refs m)))
  | MReal c => zoom (λ s, (c, s.2)) (λ s' _, (MReal s'.1, s'.2)) (handle_real m)
  end.

(** [ModuleInner::drop]; the modules are drained in some order, and the answers dropped. *)
Fixpoint unload_all (ms : list LoadedModule) : act Lib ModuleEff unit :=
  match ms with [] => skip | m :: ms => module_unload loadable lib_answer (cu_module m);; unload_all ms end.
Definition inner_drop (i : ModuleInner) : Lib :=
  match i with
  | MMock => Lib_new
  | MReal c => (exec (unload_all (snd <$> map_to_list (modules c))) (mlib c)).1
  end.

Fixpoint module_run (s : ModuleInner * Gpu) (ms : list ModuleMsg) : (ModuleInner * Gpu) * list ModuleEff :=
  match ms with
  | [] => (s, [])
  | m :: ms =>
    let '(s1, e1) := exec (module_handle m) s in
    let '(s2, e2) := module_run s1 ms in (s2, e1 ++ e2)
  end.
End actor.

(** ** Theorems *)

(** A PTX image ends in a NUL, and is the source when that already does. *)
Lemma ptx_image_terminated src :
  last (ptx_image src) = Some 0%Z ∧ (ptx_image src = src ∨ ptx_image src = src ++ [0%Z]).
Proof.
  unfold ptx_image. destruct (last src) as [x|] eqn:Hl.
  - destruct (Z.eqb_spec x 0) as [->|]; [by split; [|left]|]. split; [apply last_snoc|by right].
  - apply last_None in Hl as ->. split; [done|by right].
Qed.

Section proofs.
Context (loadable : string → bool) (lib_answer : nat → ObjCall → result Z string) (bind_to_thread : Bind).
Abbreviation mact := (act (ModuleCtx * Gpu) ModuleEff).
Abbreviation mhandle := (module_handle loadable lib_answer bind_to_thread).
Abbreviation mrun := (module_run loadable lib_answer bind_to_thread).

(** The live objects are the modules in the table, each under one handle; handles
    are below the next one. *)
Record module_inv (c : ModuleCtx) : Prop := {
  inv_live : ∃ L, lib_ok (mlib c) L ∧ ∀ o, o ∈ L ↔ ∃ id m, modules c !! id = Some m ∧ cu_module m = o;
  inv_one : ∀ id1 id2 m1 m2, modules c !! id1 = Some m1 → modules c !! id2 = Some m2 → cu_module m1 = cu_module m2 → id1 = id2;
  inv_fresh : ∀ id, is_Some (modules c !! id) → (1 ≤ id < next_module_id c)%Z;
  inv_next : (1 ≤ next_module_id c)%Z;
}.

(** What an operation does to the table: handles are not reused. *)
Definition grows (c c' : ModuleCtx) : Prop :=
  module_inv c' ∧ (next_module_id c ≤ next_module_id c' ≤ next_module_id c + 1)%Z ∧
  ∀ id, (id < next_module_id c)%Z → modules c !! id = None → modules c' !! id = None.

Lemma grows_refl c : module_inv c → grows c c.
Proof. intros H. split; [done|]. split; [lia|done]. Qed.

Lemma ModuleCtx_new_inv : module_inv ModuleCtx_new.
Proof.
  split; cbn; [exists ∅; split; [apply lib_new_ok|]|..]; try done; try lia.
  - intros o. split; [set_solver|]. by intros (id & m & Hm & _).
  - by intros id [m Hm].
Qed.

(** Driver calls that use one module keep the live objects. *)
Lemma on_driver_spec {A} (m : act Lib ModuleEff A) (Q : A → Lib → Prop) c g :
  awp m (λ a l es, es = [] ∧ Q a l) (mlib c) →
  awp (on_driver m) (λ a s es, es = [] ∧ ∃ l, s = (set_mlib l c, g) ∧ Q a l) (c, g).
Proof.
  intros H. unfold on_driver. apply awp_zoom. cbn. eapply awp_mono, H. intros a l es [-> HQ]. split; [done|]. by eexists.
Qed.

Lemma driver_call_spec op o args l L :
  lib_ok l L → o ∈ L →
  awp (E := ModuleEff) (driver_call loadable lib_answer op [o] args) (λ _ l' es, es = [] ∧ lib_ok l' L) l.
Proof.
  intros Hl Ho. apply guarded_spec; intros _; [|done]. awp_steps.
  eapply awp_mono, run_call_spec; [|exact Hl|by apply Forall_singleton]. intros r l' es (-> & _ & _ & Hl'). by awp_steps.
Qed.

(** The module table under the same table of objects. *)
Lemma inv_set_mlib l c : module_inv c → (∀ L, lib_ok (mlib c) L → lib_ok l L) → module_inv (set_mlib l c).
Proof. intros [(L & Hl & HL) H1 H2 H3] Hk. split; [|done..]. exists L. split; [by apply Hk|done]. Qed.

Lemma load_image_spec bytes c g :
  module_inv c → (next_module_id c + 1 < 2 ^ 64)%Z →
  awp (load_image loadable lib_answer bind_to_thread bytes) (λ r s es, es = [] ∧ s.2 = g ∧ grows c s.1 ∧
    match r with
    | Ok h => mh_id h = next_module_id c ∧ modules c !! mh_id h = None ∧ is_Some (modules s.1 !! mh_id h)
    | Err _ => modules s.1 = modules c
    end) (c, g).
Proof.
  intros Hc Hn. unfold load_image. destruct bind_to_thread as [|e|]; [|awp_steps; by split_and!; [..|apply grows_refl|]..].
  pose proof Hc as [(L & Hl & HL) Hone Hfr Hnx].
  apply awp_bind. eapply awp_mono.
  2:{ apply (on_driver_spec _ (λ r l, match r with Ok o => o ∉ L ∧ lib_ok l ({[o]} ∪ L) | Err _ => lib_ok l L end)).
      unfold module_load_data, driver_make. apply guarded_spec; intros _; [|done]. awp_steps.
      eapply awp_mono, create_spec; [|exact Hl|apply Forall_nil_2]. intros [o|e] l es (-> & _ & Hr); awp_steps; [|by split; [|apply Hr]].
      destruct Hr as (_ & ? & ?). by split_and!. }
  intros [o|e] s es (-> & l & -> & Hr); awp_steps; cbn [fst snd].
  2:{ split_and!; [done|done| |done]. split; [|split; [cbn; lia|done]]. apply inv_set_mlib; [done|].
      intros L' HL'. destruct Hl as [Hl _], HL' as [HL' _]. rewrite Hl in HL'. by injection HL' as <-. }
  assert (Hnone : modules c !! next_module_id c = None).
  { apply eq_None_not_Some. intros Hs%Hfr. lia. }
  destruct Hr as [Ho Hl']. split_and!; [done|done| |done|done|cbn; rewrite lookup_insert_eq; done].
  cbn [fst snd set_mlib next_module_id modules mlib]. unfold wadd. rewrite wrap_small by (unfold in_width; lia).
  split; [|split; cbn; [lia|intros id Hid Hx; by rewrite lookup_insert_ne by lia]].
  split; cbn.
  - exists ({[o]} ∪ L). split; [done|]. intros o'. rewrite elem_of_union, elem_of_singleton, HL. split.
    + intros [->|(id & m & Hm & <-)]; [exists (next_module_id c); eexists; by rewrite lookup_insert_eq|].
      exists id, m. split; [|done]. rewrite lookup_insert_ne; [done|]. intros <-. by rewrite Hnone in Hm.
    + intros (id & m & Hm & <-). apply lookup_insert_Some in Hm as [[<- <-]|[_ Hm]]; [by left|right; by exists id, m].
  - intros id1 id2 m1 m2 [[<- <-]|[? H1]]%lookup_insert_Some [[<- <-]|[? H2]]%lookup_insert_Some Heq; cbn in *; try done.
    + exfalso. apply Ho. rewrite HL. exists id2, m2. by rewrite Heq.
    + exfalso. apply Ho. rewrite HL. by exists id1, m1.
    + by apply (Hone id1 id2 m1 m2).
  - intros id [m [[<- <-]|[? Hm]]%lookup_insert_Some]; [lia|]. assert (1 ≤ id < next_module_id c)%Z by (apply Hfr; by exists m). lia.
  - lia.
Qed.

(** An operation on the module [m] of the table that keeps which modules there are. *)
Lemma on_module_spec op args id m c g :
  module_inv c → modules c !! id = Some m →
  awp (on_driver (driver_call loadable lib_answer op [cu_module m] args)) (λ _ s es, es = [] ∧
    ∃ l, s = (set_mlib l c, g) ∧ module_inv (set_mlib l c)) (c, g).
Proof.
  intros Hc Hm. pose proof (inv_live c Hc) as (L & Hl & HL).
  eapply awp_mono; [|apply (on_driver_spec _ (λ _ l, lib_ok l L)), driver_call_spec; [exact Hl|apply HL; by exists id, m]].
  intros r s es (-> & l & -> & Hl'). split; [done|]. exists l. split; [done|]. apply inv_set_mlib; [done|].
  intros L' [HL' _]. destruct Hl as [Hl _]. rewrite Hl in HL'. by injection HL' as <-.
Qed.

Lemma get_function_spec h name c g :
  module_inv c →
  awp (get_function loadable lib_answer h name) (λ r s es, es = [] ∧ s.2 = g ∧ grows c s.1 ∧
    (modules c !! mh_id h = None → r = Err (unknown_module "GetFunction" (mh_id h))) ∧
    (∀ f, r = Ok f → fh_module f = mh_id h ∧ ∃ m z, modules s.1 !! mh_id h = Some m ∧ functions m !! fh_function_id f = Some (name, z))) (c, g).
Proof.
  intros Hc. unfold get_function. awp_steps. cbn [fst]. destruct (modules c !! mh_id h) as [m|] eqn:Hm.
  2:{ awp_steps. split_and!; [done|done|by apply grows_refl|done|done]. }
  destruct (Dot.nul_position name 0); [awp_steps; split_and!; [done|done|by apply grows_refl|done|done]|].
  apply awp_bind. eapply awp_mono, on_module_spec; [|done|exact Hm]. intros r s es (-> & l & -> & Hi).
  destruct r as [z|e]; awp_steps; cbn [fst snd].
  2:{ split_and!; [done|done| |done|done]. split; [done|]. split; [cbn; lia|done]. }
  split_and!; [done|done| |done|].
  2:{ intros f [= <-]. split; [done|]. cbn. rewrite lookup_insert_eq. eexists _, z. split; [done|]. cbn. by rewrite lookup_insert_eq. }
  destruct Hi as [(L & Hl & HL) Hone Hfr Hnx]. split; [|split; cbn in *; [lia|]].
  2:{ intros i Hi Hx. rewrite lookup_insert_ne; [done|]. intros <-. by rewrite Hm in Hx. }
  set (m' := {| cu_module := _ |}).
  assert (Hlook : ∀ i x, <[mh_id h := m']> (modules c) !! i = Some x → ∃ y, modules c !! i = Some y ∧ cu_module y = cu_module x).
  { intros i x [[<- <-]|[_ Hx]]%lookup_insert_Some; [by exists m|by exists x]. }
  split; cbn in *.
  - exists L. split; [done|]. intros o. rewrite HL. split.
    + intros (i & x & Hx & <-). destruct (decide (i = mh_id h)) as [->|Hne].
      * exists (mh_id h), m'. rewrite lookup_insert_eq. split; [done|]. rewrite Hm in Hx. by injection Hx as <-.
      * exists i, x. by rewrite lookup_insert_ne.
    + intros (i & x & (y & Hy & Heq)%Hlook & <-). exists i, y. by rewrite <-Heq.
  - intros i j x y (x' & Hx & <-)%Hlook (y' & Hy & <-)%Hlook. by apply Hone.
  - intros i [x (y & Hy & _)%Hlook]. apply Hfr. by exists y.
  - done.
Qed.

(** Reading the arguments touches only the handles. *)
Lemma scratch_args_spec args c g :
  awp (scratch_args args) (λ _ s es, es = [] ∧ s.1 = c ∧ dev s.2 = dev g ∧ queue s.2 = queue g) (c, g).
Proof.
  assert (Hdrop : ∀ rs g, dev (foldr drop_ref g rs) = dev g ∧ queue (foldr drop_ref g rs) = queue g).
  { intros rs g0. induction rs as [|r rs [IH1 IH2]]; [done|]. cbn. unfold drop_ref at 1 3.
    by destruct (handles _ _) as [|[|]]. }
  revert g. induction args as [|a args IH]; intros g; [by awp_steps|].
  assert (Hscalar : ∀ v, awp (x ← scratch_args args; mret match x with Ok l => Ok (AInt v :: l) | Err e => Err e end)
    (λ (_ : result (list Arg) GpuError) s es, es = [] ∧ s.1 = c ∧ dev s.2 = dev g ∧ queue s.2 = queue g) (c, g)).
  { intros v. apply awp_bind. eapply awp_mono, IH. intros r s es (-> & H). by awp_steps. }
  assert (Hbuf : ∀ r rs, awp (s ← get; match access r (dev s.2) with
      | Err e => drop_refs rs;; mret (Err e)
      | Ok sl => drop_refs [r];; x ← scratch_args args; mret match x with Ok l => Ok (ADev sl :: l) | Err e => Err e end
      end) (λ (_ : result (list Arg) GpuError) s es, es = [] ∧ s.1 = c ∧ dev s.2 = dev g ∧ queue s.2 = queue g) (c, g)).
  { intros r rs. awp_steps. cbn [snd]. destruct (access r (dev g)); unfold drop_refs, upd_gpu; awp_steps; cbn [fst snd].
    - eapply awp_mono, IH. intros x s es (-> & H1 & H2 & H3). awp_steps.
      rewrite H2, H3. split_and!; [done|done|apply (Hdrop [_])|apply (Hdrop [_])].
    - split_and!; [done|done|apply Hdrop|apply Hdrop]. }
  destruct a; cbn [scratch_args]; (apply Hscalar || apply Hbuf || idtac).
  all: unfold drop_refs, upd_gpu; awp_steps; cbn [fst snd]; split_and!; [done|done|apply Hdrop|apply Hdrop].
Qed.

Lemma launch_inner_spec f cfg args coop c g :
  module_inv c →
  awp (launch_inner loadable lib_answer f cfg args coop) (λ r s es, grows c s.1 ∧ modules s.1 = modules c ∧
    match r with
    | Ok _ => ∃ call m fn, es = [MEnqueue call] ∧ queue s.2 = queue g ++ [{| op_id := next_op s.2 - 1; op_call := call |}] ∧
        modules c !! fh_module f = Some m ∧ functions m !! fh_function_id f = Some fn ∧ head (cargs call) = Some (AInt fn.2)
    | Err e => es = [] ∧ queue s.2 = queue g ∧ (modules c !! fh_module f = None → e = unknown_module "Launch" (fh_module f))
    end) (c, g).
Proof.
  intros Hc. unfold launch_inner. awp_steps. cbn [fst].
  assert (Hdrop : ∀ rs, queue (foldr drop_ref g rs) = queue g).
  { intros rs. by destruct (drop_refs_frame rs g). }
  destruct (modules c !! fh_module f) as [m|] eqn:Hm.
  2:{ unfold drop_refs, upd_gpu. awp_steps. cbn [fst snd]. split_and!; [by apply grows_refl|done|done|apply Hdrop|done]. }
  destruct (functions m !! fh_function_id f) as [[nm z]|] eqn:Hf.
  2:{ unfold drop_refs, upd_gpu. awp_steps. cbn [fst snd]. split_and!; [by apply grows_refl|done|done|apply Hdrop|done]. }
  apply awp_bind. eapply awp_mono, scratch_args_spec. intros x [c1 g1] es (-> & Hc1 & _ & Hq). cbn in Hc1, Hq. subst c1.
  destruct x as [params|e]; [|awp_steps; cbn [fst snd]; split_and!; [by apply grows_refl|done|done|done|done]].
  apply awp_bind. eapply (awp_mono _ (λ _ s es, es = [] ∧ ∃ l, s = (set_mlib l c, g1) ∧ module_inv (set_mlib l c))).
  2:{ unfold launch_kernel, driver_do, on_driver. apply awp_zoom. apply awp_bind.
      pose proof (on_module_spec (launch_op coop) (AInt z :: launch_config_args cfg ++ params) (fh_module f) m c g1 Hc Hm) as Hd.
      unfold on_driver, awp, zoom in Hd. unfold awp. destruct (driver_call _ _ _ _ _ _) as [[r l'] es'].
      cbn. by rewrite app_nil_r. }
  intros r s es (-> & l & -> & Hi).
  destruct r as [u|e]; unfold upd_gpu; awp_steps; cbn [fst snd].
  2:{ split_and!; [split; [done|]; split; [cbn; lia|done]|done|done|done|done]. }
  split; [split; [done|]; split; [cbn; lia|done]|]. split; [done|].
  eexists _, m, (nm, z). split_and!; [done| |done|done|done]. cbn. by rewrite Hq, Nat.add_sub.
Qed.

Lemma unload_spec h c g :
  module_inv c → loadable "cuModuleUnload" = true →
  awp (unload loadable lib_answer h) (λ r s es, es = [] ∧ s.2 = g ∧ grows c s.1 ∧ modules s.1 = delete (mh_id h) (modules c) ∧
    (modules c !! mh_id h = None → r = Err (unknown_module "Unload" (mh_id h)))) (c, g).
Proof.
  intros Hc Hld. unfold unload. awp_steps. cbn [fst]. destruct (modules c !! mh_id h) as [m|] eqn:Hm.
  2:{ awp_steps. split_and!; [done|done|by apply grows_refl| |done]. cbn. by rewrite delete_id. }
  unfold upd_ctx. awp_steps. cbn [fst snd]. pose proof Hc as [(L & Hl & HL) Hone Hfr Hnx].
  eapply awp_mono; [|apply (on_driver_spec _ (λ _ l, lib_ok l (L ∖ {[cu_module m]}))), driver_end_spec];
    [|exact Hl|apply HL; by exists (mh_id h), m|done].
  intros r s es (-> & l & -> & Hl'). split_and!; [done|done| |done|done].
  split; [|split; [cbn; lia|intros id _ Hx; cbn; by apply lookup_delete_None; right]].
  split; cbn.
  - exists (L ∖ {[cu_module m]}). split; [done|]. intros o. rewrite elem_of_difference, elem_of_singleton, HL. split.
    + intros ((id & x & Hx & <-) & Hne). exists id, x. rewrite lookup_delete_ne; [done|]. intros <-. rewrite Hm in Hx. by injection Hx as <-.
    + intros (id & x & [Hid Hx]%lookup_delete_Some & <-). split; [by exists id, x|]. intros Heq. apply Hid. symmetry. by apply (Hone id (mh_id h) x m).
  - intros i j x y [_ Hx]%lookup_delete_Some [_ Hy]%lookup_delete_Some. by apply Hone.
  - intros i [x [_ Hx]%lookup_delete_Some]. apply Hfr. by exists x.
  - done.
Qed.

(** One message: the invariant is kept, and it is answered once, on its channel. *)
Definition replies (e : ModuleEff) : list nat := match e with MReply ch _ => [ch] | MEnqueue _ => [] end.
Lemma module_handle_spec m c g :
  module_inv c → loadable "cuModuleUnload" = true → (next_module_id c + 1 < 2 ^ 64)%Z →
  awp (mhandle m) (λ _ s es, (∃ c', s.1 = MReal c' ∧ grows c c') ∧ es ≫= replies = [module_reply m]) (MReal c, g).
Proof.
  intros Hc Hld Hn. unfold module_handle. awp_steps. cbn [fst]. apply awp_zoom. cbn [fst snd].
  eapply (awp_mono _ (λ _ s es, grows c s.1 ∧ es ≫= replies = [module_reply m])).
  { intros _ s es [Hg He]. split; [by eexists|done]. }
  assert (Hload : ∀ bytes (k : result ModuleHandle GpuError → result ModuleValue GpuError) ch,
    awp (r ← load_image loadable lib_answer bind_to_thread bytes; emit (MReply ch (k r)))
      (λ _ s es, grows c s.1 ∧ es ≫= replies = [ch]) (c, g)).
  { intros bytes k ch. apply awp_bind. eapply awp_mono, load_image_spec; [|done..]. intros r s es (-> & _ & Hg & _). by awp_steps. }
  destruct m as [b ch|src ch|h nm ch|coop f cfg args ch|h ch]; cbn [handle_real module_reply].
  - apply (Hload b (λ r, match r with Ok h => Ok (MModule h) | Err e => Err e end)).
  - apply (Hload (ptx_image src) (λ r, match r with Ok h => Ok (MModule h) | Err e => Err e end)).
  - apply awp_bind. eapply awp_mono, get_function_spec; [|done]. intros r s es (-> & _ & Hg & _). by awp_steps.
  - apply awp_bind. eapply awp_mono, launch_inner_spec; [|done]. intros r s es (Hg & _ & Hr). awp_steps. split; [done|].
    destruct r; [by destruct Hr as (call & m & fn & -> & _)|by destruct Hr as [-> _]].
  - apply awp_bind. eapply awp_mono, unload_spec; [|done..]. intros r s es (-> & _ & Hg & _). by awp_steps.
Qed.

Lemma grows_trans c1 c2 c3 :
  grows c1 c2 → module_inv c3 ∧ (next_module_id c2 ≤ next_module_id c3)%Z ∧
    (∀ id, (id < next_module_id c2)%Z → modules c2 !! id = None → modules c3 !! id = None) →
  module_inv c3 ∧ (next_module_id c1 ≤ next_module_id c3)%Z ∧
    (∀ id, (id < next_module_id c1)%Z → modules c1 !! id = None → modules c3 !! id = None).
Proof. intros (_ & Hn & Hk) (H3 & Hn' & Hk'). split_and!; [done|lia|]. intros id Hid Hx. apply Hk'; [lia|]. by apply Hk. Qed.

Lemma module_run_spec ms c g :
  module_inv c → loadable "cuModuleUnload" = true → (next_module_id c + Z.of_nat (length ms) < 2 ^ 64)%Z →
  let '((i, g'), es) := mrun (MReal c, g) ms in
  (∃ c', i = MReal c' ∧ module_inv c' ∧ (next_module_id c ≤ next_module_id c')%Z ∧
     (∀ id, (id < next_module_id c)%Z → modules c !! id = None → modules c' !! id = None)) ∧
  es ≫= replies = module_reply <$> ms.
Proof.
  intros Hc Hld. revert c g Hc. induction ms as [|m ms IH]; intros c g Hc Hn; cbn [module_run fmap list_fmap].
  - split; [|done]. exists c. by split_and!.
  - pose proof (module_handle_spec m c g Hc Hld ltac:(cbn in Hn; lia)) as Hm. apply awp_exec in Hm.
    destruct (exec _ _) as [[i1 g1] e1]. cbn in Hm. destruct Hm as ((c1 & -> & Hg) & He1).
    specialize (IH c1 g1 (proj1 Hg)). destruct (mrun _ ms) as [[i2 g2] e2].
    destruct IH as ((c2 & -> & Hrest) & He2). { destruct Hg as (_ & Hb & _). cbn in Hn. lia. }
    split; [|by rewrite bind_app, He1, He2]. exists c2. split; [done|]. by apply (grows_trans c c1 c2).
Qed.

(** Dropping the actor unloads each module of its table. *)
Lemma unload_all_spec ms l L :
  lib_ok l L → NoDup (cu_module <$> ms) → loadable "cuModuleUnload" = true → (∀ m, m ∈ ms → cu_module m ∈ L) →
  awp (unload_all loadable lib_answer ms) (λ _ l' _, lib_ok l' (L ∖ list_to_set (cu_module <$> ms))) l.
Proof.
  intros Hl Hd Hld. revert l L Hl. induction ms as [|m ms IH]; intros l L Hl Hin; cbn [unload_all].
  - awp_steps. cbn. by replace (L ∖ ∅) with L by set_solver.
  - apply NoDup_cons in Hd as [Hm Hd]. apply awp_bind.
    eapply awp_mono, driver_end_spec; [|exact Hl|apply Hin; by left|done]. intros r l1 es (-> & Hl1).
    eapply awp_mono, IH; [|done|exact Hl1|].
    + intros u l2 es2 Hl2. cbn.
      by replace (L ∖ ({[cu_module m]} ∪ list_to_set (cu_module <$> ms))) with (L ∖ {[cu_module m]} ∖ list_to_set (cu_module <$> ms)) by (clear; set_solver).
    + intros m' Hm'. apply elem_of_difference. split; [apply Hin; by right|]. rewrite elem_of_singleton. intros Heq.
      apply Hm. rewrite <-Heq. by apply list_elem_of_fmap_2.
Qed.

Lemma inner_drop_spec c : module_inv c → loadable "cuModuleUnload" = true → live (inner_drop loadable lib_answer (MReal c)) = Some ∅.
Proof.
  intros [(L & Hl & HL) Hone Hfr Hnx] Hld. unfold inner_drop.
  assert (Hin : ∀ m, m ∈ (snd <$> map_to_list (modules c)) → ∃ id, modules c !! id = Some m).
  { intros m ([id m'] & -> & Hm%elem_of_map_to_list)%list_elem_of_fmap. by exists id. }
  pose proof (unload_all_spec (snd <$> map_to_list (modules c)) (mlib c) L Hl) as Hs.
  assert (HD : L ∖ list_to_set (cu_module <$> (snd <$> map_to_list (modules c))) = ∅).
  { apply leibniz_equiv. intros o. rewrite elem_of_difference, elem_of_list_to_set, HL. split; [|set_solver].
    intros ((id & m & Hm & <-) & Hn). exfalso. apply Hn. apply list_elem_of_fmap_2.
    apply list_elem_of_fmap. exists (id, m). split; [done|]. by apply elem_of_map_to_list. }
  rewrite HD in Hs. unfold awp, exec in *. destruct (unload_all _ _ _ _) as [[u l'] es]. cbn.
  apply Hs; [|done|].
  - rewrite <-list_fmap_compose. apply NoDup_fmap_2_strong; [|apply NoDup_map_to_list].
    intros [i x] [j y] Hi%elem_of_map_to_list Hj%elem_of_map_to_list Heq. cbn in Heq.
    assert (i = j) as -> by by apply (Hone i j x y). rewrite Hi in Hj. by injection Hj as ->.
  - intros m (id & Hm)%Hin. apply HL. by exists id, m.
Qed.

(** C17 (modules are loaded and unloaded once): through any messages, fewer than 2^64,
    the actor uses only modules that are loaded and not yet unloaded, keeps exactly
    those in its table under distinct handles, and answers each message once in order;
    when it is dropped, every module it loaded has been unloaded exactly once.  The
    symbol that unloads is in the driver. *)
Theorem modules_conserved ms g :
  loadable "cuModuleUnload" = true → (Z.of_nat (length ms) < 2 ^ 64 - 1)%Z →
  let '((i, _), es) := mrun (MReal ModuleCtx_new, g) ms in
  es ≫= replies = module_reply <$> ms ∧
  live (inner_drop loadable lib_answer i) = Some ∅ ∧
  ∃ c, i = MReal c ∧ (∃ L, live (mlib c) = Some L ∧ ∀ o, o ∈ L ↔ ∃ id m, modules c !! id = Some m ∧ cu_module m = o) ∧
    ∀ id1 id2 m1 m2, modules c !! id1 = Some m1 → modules c !! id2 = Some m2 → cu_module m1 = cu_module m2 → id1 = id2.
Proof.
  intros Hld Hn. pose proof (module_run_spec ms ModuleCtx_new g ModuleCtx_new_inv Hld ltac:(cbn; lia)) as H.
  destruct (mrun _ _) as [[i g'] es]. destruct H as ((c & -> & Hc & _ & _) & He).
  split; [done|]. split; [by apply inner_drop_spec|]. exists c. split; [done|].
  destruct Hc as [(L & [Hl _] & HL) Hone _ _]. split; [by exists L|done].
Qed.

(** A stale handle stays stale: once a module is unloaded, then after any further
    messages (fewer than 2^64 loads) its handle and its functions are unknown, whatever
    was loaded since: nothing is launched from it. *)
Theorem unloaded_stays_unknown h ms m c g :
  module_inv c → loadable "cuModuleUnload" = true → (mh_id h < next_module_id c)%Z →
  (next_module_id c + Z.of_nat (length ms) + 2 < 2 ^ 64)%Z →
  let '(s1, _) := exec (mhandle (Unload h 0)) (MReal c, g) in
  let '(s2, _) := mrun s1 ms in
  let '(_, es) := exec (mhandle m) s2 in
  match m with
  | GetFunction h' _ ch => h' = h → es = [MReply ch (Err (unknown_module "GetFunction" (mh_id h)))]
  | LaunchFn _ f _ _ ch => fh_module f = mh_id h → es = [MReply ch (Err (unknown_module "Launch" (mh_id h)))]
  | Unload h' ch => h' = h → es = [MReply ch (Err (unknown_module "Unload" (mh_id h)))]
  | LoadCubin _ ch | LoadPtx _ ch => ∀ h', es = [MReply ch (Ok (MModule h'))] → h' ≠ h
  end.
Proof.
  intros Hc Hld Hh Hn.
  assert (Hu : awp (mhandle (Unload h 0)) (λ _ s es, ∃ c1, s.1 = MReal c1 ∧ grows c c1 ∧ modules c1 !! mh_id h = None) (MReal c, g)).
  { unfold module_handle. awp_steps. cbn [fst]. apply awp_zoom. cbn [fst snd handle_real]. apply awp_bind.
    eapply awp_mono, unload_spec; [|done..]. intros r s es (-> & _ & Hg & Hm & _). awp_steps. eexists. split_and!; [done|done|].
    rewrite Hm. apply lookup_delete_eq. }
  apply awp_exec in Hu. destruct (exec (mhandle (Unload h 0)) _) as [[i1 g1] e1]. destruct Hu as (c1 & Hi1 & (Hc1 & Hb1 & _) & Hnone).
  cbn in Hi1. subst i1. pose proof (module_run_spec ms c1 g1 Hc1 Hld ltac:(lia)) as Hr.
  assert (Hbound : ∀ ms c g, module_inv c → (next_module_id c + Z.of_nat (length ms) < 2 ^ 64)%Z →
    let '((i, _), _) := mrun (MReal c, g) ms in ∃ c', i = MReal c' ∧ (next_module_id c' ≤ next_module_id c + Z.of_nat (length ms))%Z).
  { clear -Hld. intros ms. induction ms as [|m ms IH]; intros c g Hc Hn; cbn [module_run]; [exists c; split; [done|lia]|].
    pose proof (module_handle_spec m c g Hc Hld ltac:(cbn in Hn; lia)) as Hm. apply awp_exec in Hm.
    destruct (exec _ _) as [[i1 g1] e1]. cbn in Hm. destruct Hm as ((c1 & -> & Hg1 & Hb & _) & _).
    specialize (IH c1 g1 Hg1 ltac:(cbn in Hn; lia)). destruct (mrun _ ms) as [[i2 g2] e2]. destruct IH as (c2 & -> & Hb2).
    exists c2. split; [done|]. cbn. lia. }
  specialize (Hbound ms c1 g1 Hc1 ltac:(lia)). destruct (mrun _ ms) as [[i2 g2] e2].
  destruct Hr as ((c2 & -> & Hc2 & Hb2 & Hk) & _). destruct Hbound as (c2' & [= <-] & Hb3).
  assert (Hnone2 : modules c2 !! mh_id h = None) by (apply Hk; [lia|done]).
  assert (Hm : awp (mhandle m) (λ _ _ es,
    match m with
    | GetFunction h' _ ch => h' = h → es = [MReply ch (Err (unknown_module "GetFunction" (mh_id h)))]
    | LaunchFn _ f _ _ ch => fh_module f = mh_id h → es = [MReply ch (Err (unknown_module "Launch" (mh_id h)))]
    | Unload h' ch => h' = h → es = [MReply ch (Err (unknown_module "Unload" (mh_id h)))]
    | LoadCubin _ ch | LoadPtx _ ch => ∀ h', es = [MReply ch (Ok (MModule h'))] → h' ≠ h
    end) (MReal c2, g2)).
  { unfold module_handle. awp_steps. cbn [fst]. apply awp_zoom. cbn [fst snd].
    destruct m as [b ch|src ch|h' nm ch|coop f cfg args ch|h' ch]; cbn [handle_real]; apply awp_bind.
    1,2: (eapply awp_mono, load_image_spec; [|done|lia]; intros [x|e] s es (-> & _ & _ & Hx); awp_steps; [|done];
      intros h' [= <-] ->; destruct Hx as (Hid & _); lia).
    - eapply awp_mono, get_function_spec; [|done]. intros r s es (-> & _ & _ & Hr & _). awp_steps. intros ->. by rewrite Hr.
    - eapply awp_mono, launch_inner_spec; [|done]. intros r s es (_ & _ & Hr). awp_steps. intros Heq.
      destruct r as [u|e]; [destruct Hr as (call & m' & fn & _ & _ & Hx & _); by rewrite Heq, Hnone2 in Hx|].
      destruct Hr as (-> & _ & Hr). cbn. by rewrite Hr; rewrite Heq.
    - eapply awp_mono, unload_spec; [|done..]. intros r s es (-> & _ & _ & _ & Hr). awp_steps. intros ->. by rewrite Hr. }
  apply awp_exec in Hm. by destruct (exec (mhandle m) _) as [s es].
Qed.
End proofs.

(** ** At concrete messages *)

Definition any_answer (n : nat) (c : ObjCall) : result Z string := Ok 7%Z.
Definition toy_dev : DeviceState := DeviceState_new 0.
(** A buffer with one handle, which the launch takes. *)
Definition toy_heap : Gpu := set_refs {[1 := 1]} (set_heap {[1 := 1]} (Gpu_new (Some toy_dev))).
Definition a_function : FunctionHandle := {| fh_module := 1; fh_function_id := 1 |}.
Definition a_config : LaunchConfig := {| grid_dim := (1, 1, 1)%Z; block_dim := (32, 1, 1)%Z; shared_mem_bytes := 0 |}.
Definition load_and_launch : list ModuleMsg :=
  [LoadCubin [1; 2; 3]%Z 1; GetFunction {| mh_id := 1 |} "axpy" 2;
   LaunchFn false a_function a_config [DevSliceF32 (GpuRef_new 1 toy_dev); Usize 16] 3].
Definition toy_module_run := module_run (λ _, true) any_answer Bound.

(** The kernel is on the stream, its request is answered, and nothing holds the buffer
    it works on any more. *)
Example launch_dangles :
  let '((_, g), es) := toy_module_run (MReal ModuleCtx_new, toy_heap) load_and_launch in
  length (queue g) = 1 ∧ (op_call <$> queue g) ≫= call_slices = [1] ∧ strong_count (heap g) 1 = 0 ∧ tasks g = [] ∧
  last es = Some (MReply 3 (Ok MDone)).
Proof. vm_compute. by split_and!. Qed.

Lemma modules_conserved_witness :
  let '((i, _), es) := toy_module_run (MReal ModuleCtx_new, toy_heap) load_and_launch in
  live (inner_drop (λ _, true) any_answer i) = Some ∅ ∧ es ≫= replies = [1; 2; 3].
Proof.
  pose proof (modules_conserved (λ _, true) any_answer Bound load_and_launch toy_heap eq_refl ltac:(vm_compute; reflexivity)) as H.
  unfold toy_module_run. destruct (module_run _ _ _ _ _) as [[i g] es]. destruct H as (He & Hl & _). split; [exact Hl|exact He].
Defined.

Definition after_load : ModuleInner := (toy_module_run (MReal ModuleCtx_new, toy_heap) load_and_launch).1.1.
Definition loaded_ctx : ModuleCtx := match after_load with MReal c => c | MMock => ModuleCtx_new end.
Lemma loaded_ctx_inv : module_inv loaded_ctx.
Proof.
  pose proof (module_run_spec (λ _, true) any_answer Bound load_and_launch ModuleCtx_new toy_heap ModuleCtx_new_inv eq_refl
    ltac:(vm_compute; reflexivity)) as H.
  unfold loaded_ctx, after_load, toy_module_run. destruct (module_run _ _ _ _ _) as [[i g] es]. cbn.
  by destruct H as ((c & -> & Hc & _) & _).
Qed.
Lemma unloaded_stays_unknown_witness :
  let '(s1, _) := exec (module_handle (λ _, true) any_answer Bound (Unload {| mh_id := 1 |} 0)) (MReal loaded_ctx, toy_heap) in
  let '(s2, _) := toy_module_run s1 [LoadPtx [65]%Z 4] in
  (exec (module_handle (λ _, true) any_answer Bound (LaunchFn true a_function a_config [] 5)) s2).2 =
    [MReply 5 (Err (unknown_module "Launch" 1))].
Proof.
  pose proof (unloaded_stays_unknown (λ _, true) any_answer Bound {| mh_id := 1 |} [LoadPtx [65]%Z 4]
    (LaunchFn true a_function a_config [] 5) loaded_ctx toy_heap loaded_ctx_inv eq_refl
    ltac:(vm_compute; reflexivity) ltac:(vm_compute; reflexivity)) as H.
  unfold toy_module_run. destruct (exec _ (MReal loaded_ctx, toy_heap)) as [s1 e1]. destruct (module_run _ _ _ _ _) as [s2 e2].
  destruct (exec _ s2) as [s3 e3]. apply H. reflexivity.
Defined.
