(* ===== verification/TensorRt.v ===== *)
(** * TensorRT: configuration, building, execution

    Models [crates/atomr-accel-tensorrt/src]: the builder configuration
    ([builder.rs]), the runtime, engines and contexts ([runtime.rs], [engine.rs]), the
    two helpers of the actor that drive the library ([actor.rs]), the calibrators
    ([calibration.rs]) and the registration of plugins ([plugin.rs]).  The messages of
    [TrtActor] have no handler in the repository.

    The library's objects are those of [Objects.v].  A pointer-returning call answers
    [Err] for null, and a call with a status answers [Err] with the decimal text of a
    status that means failure.  Without the feature [tensorrt-link] nothing is called. *)

From stdpp Require Import pretty.
From S2P Require Import Prelude Actor Text Envelope Objects.

Inductive TrtError : Type :=
  | NotLinked (msg : string)
  | Build (msg : string)
  | RuntimeError (msg : string)
  | NullEngine
  | Execution (msg : string)
  | Onnx (msg : string)
  | Calibration (msg : string)
  | Plugin (msg : string)
  | RefitError (msg : string)
  | InvalidArg (msg : string).

(** [Display] *)
Definition trt_display (e : TrtError) : string :=
  match e with
  | NotLinked m => "libnvinfer not available: " +:+ m
  | Build m => "TensorRT builder failed: " +:+ m
  | RuntimeError m => "TensorRT runtime failed: " +:+ m
  | NullEngine => "TensorRT engine pointer was null"
  | Execution m => "TensorRT execution context error: " +:+ m
  | Onnx m => "ONNX parser error: " +:+ m
  | Calibration m => "INT8 calibrator error: " +:+ m
  | Plugin m => "plugin error: " +:+ m
  | RefitError m => "refit error: " +:+ m
  | InvalidArg m => "invalid argument: " +:+ m
  end.

(** ** The builder configuration *)

Module Builder.

(** [BuilderFlags] *)
Definition FP16 : Z := Z.shiftl 1 0.
Definition INT8 : Z := Z.shiftl 1 1.
Definition DEBUG_KERNELS : Z := Z.shiftl 1 2.
Definition REFIT : Z := Z.shiftl 1 4.
Definition TF32 : Z := Z.shiftl 1 6.
Definition SPARSE_WEIGHTS : Z := Z.shiftl 1 7.
Definition BF16 : Z := Z.shiftl 1 13.
Definition FP8 : Z := Z.shiftl 1 14.
Definition STRIP_PLAN : Z := Z.shiftl 1 15.
Definition contains (flags f : Z) : bool := (Z.land flags f =? f)%Z.

(** [TacticSources] *)
Definition CUBLAS : Z := Z.shiftl 1 0.
Definition CUBLAS_LT : Z := Z.shiftl 1 1.
Definition CUDNN : Z := Z.shiftl 1 2.
Definition EDGE_MASK_CONVOLUTIONS : Z := Z.shiftl 1 3.
Definition JIT_CONVOLUTIONS : Z := Z.shiftl 1 4.

Inductive Precision : Type := Fp32 | Fp16 | Bf16 | Int8 | Fp8 | Best.
Definition precision_flags (p : Precision) : Z :=
  match p with
  | Fp32 => TF32
  | Fp16 => Z.lor FP16 TF32
  | Bf16 => Z.lor BF16 TF32
  | Int8 => Z.lor INT8 TF32
  | Fp8 => Z.lor (Z.lor FP8 FP16) TF32
  | Best => Z.lor (Z.lor (Z.lor (Z.lor FP16 BF16) INT8) FP8) TF32
  end.

Inductive DeviceType : Type := DGpu | Dla (core : Z).
Inductive RefitPolicy : Type := Disabled | OnDemand | WeightsStreaming.

Record IBuilderConfig := {
  precision : Precision;
  device_type : DeviceType;
  structured_sparsity : bool;
  tactic_sources : Z;
  timing_cache : option (list Z);
  refit : RefitPolicy;
  workspace_bytes : Z;
  dla_sram_bytes : Z;
  extra_flags : Z;
}.
Definition IBuilderConfig_default : IBuilderConfig := {|
  precision := Fp32;
  device_type := DGpu;
  structured_sparsity := false;
  tactic_sources := Z.lor (Z.lor (Z.lor (Z.lor CUBLAS CUBLAS_LT) CUDNN) EDGE_MASK_CONVOLUTIONS) JIT_CONVOLUTIONS;
  timing_cache := None;
  refit := Disabled;
  workspace_bytes := Z.shiftl 1 30;
  dla_sram_bytes := 0;
  extra_flags := 0;
|}.

Definition effective_flags (c : IBuilderConfig) : Z :=
  let f := Z.lor (precision_flags (precision c)) (extra_flags c) in
  let f := if structured_sparsity c then Z.lor f SPARSE_WEIGHTS else f in
  match refit c with
  | Disabled => f
  | OnDemand => Z.lor f REFIT
  | WeightsStreaming => Z.lor f (Z.lor REFIT STRIP_PLAN)
  end.

(** The numbers of [sys::BuilderFlag] that the builder replays, with their flags. *)
Definition replayed : list (Z * Z) :=
  [(FP16, 0); (INT8, 1); (TF32, 6); (BF16, 13); (FP8, 14); (REFIT, 4); (SPARSE_WEIGHTS, 7); (STRIP_PLAN, 15)]%Z.
(** The flags set on the library's configuration, in order. *)
Definition replayed_flags (c : IBuilderConfig) : list Z :=
  snd <$> filter (λ f, contains (effective_flags c) f.1 = true) replayed.

Lemma testbit_one n i : (0 ≤ n → 0 ≤ i → Z.testbit (Z.shiftl 1 n) i = (i =? n))%Z.
Proof. intros Hn Hi. by rewrite Z.shiftl_1_l, Z.pow2_bits_eqb, Z.eqb_sym. Qed.

(** Each bit is asked for by the precision, the extra flags, the sparsity or the refit policy. *)
Lemma effective_flags_bits c i : (0 ≤ i)%Z →
  Z.testbit (effective_flags c) i =
    Z.testbit (precision_flags (precision c)) i || Z.testbit (extra_flags c) i ||
    (structured_sparsity c && (i =? 7)%Z) ||
    match refit c with Disabled => false | OnDemand => (i =? 4)%Z | WeightsStreaming => (i =? 4)%Z || (i =? 15)%Z end.
Proof.
  intros Hi. unfold effective_flags, SPARSE_WEIGHTS, REFIT, STRIP_PLAN.
  destruct (structured_sparsity c), (refit c); rewrite ?Z.lor_spec, ?testbit_one by lia;
    rewrite ?andb_true_l, ?andb_false_l, ?orb_false_r; by rewrite ?orb_assoc.
Qed.

(** A replayed flag is set exactly when its bit is, under the number of that bit. *)
Lemma replayed_flag_bit c n : n ∈ replayed_flags c ↔ n ∈ snd <$> replayed ∧ Z.testbit (effective_flags c) n = true.
Proof.
  assert (Hc : Forall (λ f, f.1 = Z.shiftl 1 f.2 ∧ (0 ≤ f.2)%Z) replayed) by (repeat constructor; done).
  assert (Hbit : ∀ f, f ∈ replayed → contains (effective_flags c) f.1 = Z.testbit (effective_flags c) f.2).
  { intros f Hf. rewrite Forall_forall in Hc. destruct (Hc f Hf) as [-> Hn]. unfold contains.
    rewrite Z.shiftl_1_l. destruct (Z.testbit (effective_flags c) f.2) eqn:Hb.
    - apply Z.eqb_eq, Z.bits_inj'. intros i Hi. rewrite Z.land_spec, Z.pow2_bits_eqb by lia.
      destruct (Z.eqb_spec f.2 i) as [<-|]; [by rewrite Hb|by rewrite andb_false_r].
    - apply Z.eqb_neq. intros He. assert (Hx : Z.testbit (Z.land (effective_flags c) (2 ^ f.2)) f.2 = true).
      { by rewrite He, Z.pow2_bits_true. }
      rewrite Z.land_spec, Hb in Hx. done. }
  unfold replayed_flags. rewrite !list_elem_of_fmap. setoid_rewrite list_elem_of_filter. split.
  - intros (f & -> & Hf & Hin). split; [by exists f|]. by rewrite <-Hbit.
  - intros [(f & -> & Hin) Hb]. exists f. by rewrite Hbit.
Qed.

(** Most of the configuration is not replayed: no other flag, and neither the device, the tactic
    sources, the timing cache nor the budget of the DLA. *)
Example debug_not_replayed :
  replayed_flags {| precision := Fp16; device_type := Dla 0; structured_sparsity := false; tactic_sources := 0;
    timing_cache := Some [1%Z]; refit := WeightsStreaming; workspace_bytes := 0; dla_sram_bytes := 1024; extra_flags := DEBUG_KERNELS |} =
  [0; 6; 4; 15]%Z.
Proof. reflexivity. Qed.
End Builder.

(** ** Objects that are freed and objects that stay *)

Section frees.
Context {E : Type} (lib_answer : nat → ObjCall → result Z string).

(** [m] uses the objects [own] and [keep], and of all live objects destroys exactly [own]. *)
Definition frees {A} (own keep : list Obj) (m : act Lib E A) : Prop :=
  ∀ l L, lib_ok l L → NoDup own → objs (own ++ keep) ⊆ L →
  awp m (λ _ l' es, es = [] ∧ calls l ≤ calls l' ∧ lib_ok l' (L ∖ objs own)) l.

Lemma frees_ret {A} keep (a : A) : frees [] keep (mret a).
Proof using Type.
  clear lib_answer. intros l L Hl _ _. awp_steps. split_and!; [done|done|]. unfold objs. cbn. by rewrite difference_empty_L. Qed.

Lemma frees_all {A} own os keep (a : A) : os ≡ₚ own → frees own keep (destroys os;; mret a).
Proof using Type.
  clear lib_answer.
  intros Hp l L Hl Hd HL. apply awp_bind. unfold objs in *. rewrite list_to_set_app in HL. rewrite <-Hp in *.
  eapply awp_mono, (destroys_spec os l L Hl Hd); [|unfold objs; set_solver].
  intros _ l' es (-> & Hc & Hl'). awp_steps. split_and!; [done|lia|]. rewrite <-Hp. exact Hl'.
Qed.

Lemma frees_one {A} o own keep (k : act Lib E A) :
  o ∉ keep → frees own keep k → frees (o :: own) keep (destroys [o];; k).
Proof using Type.
  clear lib_answer.
  intros Ho Hk l L Hl [Hn Hd]%NoDup_cons HL. unfold objs in *. cbn in HL.
  apply awp_bind. eapply awp_mono, (destroys_spec [o] l L Hl); [|by apply NoDup_singleton|unfold objs; set_solver].
  intros _ l1 es (-> & Hc & Hl1). unfold objs in Hl1. cbn in Hl1. rewrite union_empty_r_L in Hl1.
  eapply awp_mono, (Hk l1 _ Hl1 Hd); [|unfold objs; set_solver].
  intros _ l2 es (-> & Hc2 & Hl2). split_and!; [done|lia|]. unfold objs in *.
  replace (L ∖ list_to_set (o :: own)) with (L ∖ {[o]} ∖ (list_to_set own : gset Obj)) by set_solver. done.
Qed.

Lemma frees_run {A} own keep c (k : result Z string → act Lib E A) :
  ouses c ⊆ own ++ keep → (∀ r, frees own keep (k r)) → frees own keep (run_call lib_answer c ≫= k).
Proof.
  intros Hu Hk l L Hl Hd HL. apply awp_bind.
  eapply awp_mono, (run_call_spec lib_answer c l L Hl); [|by eapply uses_live].
  intros r l1 es (-> & _ & Hc & Hl1). eapply awp_mono, (Hk r l1 L Hl1 Hd HL).
  intros _ l2 es (-> & Hc2 & Hl2). split_and!; [done|lia|done].
Qed.

(** A made object is owned from then on. *)
Lemma frees_create {A} own keep c (k : result Obj string → act Lib E A) :
  ouses c ⊆ own ++ keep → (∀ e, frees own keep (k (Err e))) →
  (∀ o, o ∉ own ++ keep → frees (o :: own) keep (k (Ok o))) → frees own keep (create lib_answer c ≫= k).
Proof.
  intros Hu He Hk l L Hl Hd HL. apply awp_bind.
  eapply awp_mono, (create_spec lib_answer c l L Hl); [|by eapply uses_live].
  intros [o|e] l1 es (-> & Hc & Hr).
  - destruct Hr as (-> & Hn & Hl1). unfold objs in *.
    assert (Ho : calls l ∉ own ++ keep) by set_solver.
    eapply awp_mono, (Hk _ Ho l1 _ Hl1); [|constructor; [set_solver|done]|unfold objs; set_solver].
    intros _ l2 es (-> & Hc2 & Hl2). split_and!; [done|lia|]. unfold objs in Hl2. cbn in Hl2.
    replace (L ∖ list_to_set own) with (({[calls l]} ∪ L) ∖ ({[calls l]} ∪ (list_to_set own : gset Obj))) by set_solver.
    done.
  - destruct Hr as [_ Hl1]. eapply awp_mono, (He e l1 L Hl1 Hd HL).
    intros _ l2 es (-> & Hc2 & Hl2). split_and!; [done|lia|done].
Qed.
End frees.

(** ** Runtimes, engines, contexts *)

Module Runtime.

(** A wrapper owns its object; [None] is a null pointer. *)
Record TrtEngine := { engine_raw : option Obj; num_io : Z }.
Record ExecutionContext := { context_raw : option Obj; context_engine : TrtEngine }.
Record TrtRuntime := { runtime_raw : option Obj }.

(** [TrtEngine::from_raw] and [ExecutionContext::from_raw] *)
Definition engine_from_raw (raw : option Obj) (n : Z) : result TrtEngine TrtError :=
  match raw with None => Err NullEngine | _ => Ok {| engine_raw := raw; num_io := n |} end.
Definition context_from_raw (raw : option Obj) (e : TrtEngine) : result ExecutionContext TrtError :=
  match raw with
  | None => Err (Execution "null execution context")
  | _ => Ok {| context_raw := raw; context_engine := e |}
  end.
Definition refitter_from_raw (raw : option Obj) : result Obj TrtError :=
  match raw with None => Err (RefitError "null refitter") | Some o => Ok o end.
Definition parser_from_raw (raw : option Obj) : result Obj TrtError :=
  match raw with None => Err (Onnx "null parser") | Some o => Ok o end.

(** [Dims]: at most eight; [TensorShape::new] panics on more. *)
Record TensorShape := { nb_dims : nat; dims : list Z }.
Definition TensorShape_new (d : list Z) : option TensorShape :=
  if length d <=? 8 then Some {| nb_dims := length d; dims := d ++ replicate (8 - length d) 0%Z |} else None.
Definition shape_slice (s : TensorShape) : list Z := take (nb_dims s) (dims s).

Lemma shape_roundtrip d : match TensorShape_new d with
  | Some s => shape_slice s = d ∧ length (dims s) = 8
  | None => 8 < length d
  end.
Proof.
  unfold TensorShape_new. destruct (Nat.leb_spec (length d) 8); [|done]. unfold shape_slice. cbn.
  rewrite take_app_length, length_app, length_replicate. split; [done|lia].
Qed.

(** [ExecutionBindings] *)
Record ExecutionBindings := { addresses : gmap string Z; input_shapes : gmap string TensorShape }.
Definition bindings_new : ExecutionBindings := {| addresses := ∅; input_shapes := ∅ |}.
Definition bind_address (name : string) (ptr : Z) (b : ExecutionBindings) : ExecutionBindings :=
  {| addresses := <[name := ptr]> (addresses b); input_shapes := input_shapes b |}.
Definition set_shape (name : string) (s : TensorShape) (b : ExecutionBindings) : ExecutionBindings :=
  {| addresses := addresses b; input_shapes := <[name := s]> (input_shapes b) |}.

Section ops.
Context {E : Type} (lib_answer : nat → ObjCall → result Z string) (linked : bool).
Abbreviation lact := (act Lib E).

Definition call (name : string) (uses : list Obj) (args : list Arg) : ObjCall := {| oname := name; ouses := uses; oargs := args |}.

Definition TrtRuntime_new : lact (result TrtRuntime TrtError) :=
  if linked then
    r ← create lib_answer (call "runtime_create" [] [AInt 0]);
    mret (match r with
          | Ok o => Ok {| runtime_raw := Some o |}
          | Err _ => Err (RuntimeError "runtime create returned null")
          end)
  else mret (Err (NotLinked "TrtRuntime requires the `tensorrt-link` feature")).

(** [TrtActor::ensure_runtime]: the runtime is made once. *)
Definition ensure_runtime (cached : option TrtRuntime) : lact (option TrtRuntime * result unit TrtError) :=
  match cached with
  | Some r => mret (Some r, Ok tt)
  | None =>
    r ← TrtRuntime_new;
    mret (match r with Ok r => (Some r, Ok tt) | Err e => (None, Err e) end)
  end.

(** [c_int as usize] *)
Definition as_usize (x : Z) : Z := (x mod 2 ^ 64)%Z.

Definition deserialize (r : TrtRuntime) (plan : list Z) : lact (result TrtEngine TrtError) :=
  if linked then
    o ← create lib_answer (call "runtime_deserialize" (option_list (runtime_raw r)) [AInt (Z.of_nat (length plan))]);
    match o with
    | Err _ => mret (Err (RuntimeError "deserialize returned null"))
    | Ok o =>
      n ← run_call lib_answer (call "engine_num_io_tensors" [o] []);
      mret (engine_from_raw (Some o) (as_usize (match n with Ok n => n | Err _ => 0 end)))
    end
  else mret (Err (NotLinked "TrtRuntime::deserialize requires the `tensorrt-link` feature")).

(** [Drop] of a wrapper *)
Definition drop_raw (raw : option Obj) : lact unit :=
  if linked then match raw with Some o => destroys [o] | None => skip end else skip.

(** [io_tensor_name]: [None] past the tensors; the name is the library's, if it is text. *)
Definition io_tensor_name (name_of : Z → option string) (e : TrtEngine) (idx : Z) : option string :=
  if linked then if (num_io e <=? idx)%Z then None else name_of (wrap 32 (idx + 2 ^ 31) - 2 ^ 31)%Z else None.

(** A deserialised engine is one live object, and a failure leaves none. *)
Lemma deserialize_owns r plan l L :
  lib_ok l L → (∀ o, runtime_raw r = Some o → o ∈ L) →
  awp (deserialize r plan) (λ res l' es, es = [] ∧
    match res with
    | Ok e => ∃ o, engine_raw e = Some o ∧ o ∉ L ∧ lib_ok l' ({[o]} ∪ L)
    | Err _ => lib_ok l' L
    end) l.
Proof.
  intros Hl Hr. unfold deserialize. destruct linked; [|by awp_steps].
  apply awp_bind. eapply awp_mono, (create_spec lib_answer _ l L Hl).
  - intros [o|e] l1 es (-> & _ & H); [|awp_steps; by destruct H]. destruct H as (-> & Hn & Hl1).
    apply awp_bind. eapply awp_mono, (run_call_spec lib_answer _ l1 _ Hl1); [|cbn; constructor; [set_solver|done]].
    intros n l2 es (-> & _ & _ & Hl2). awp_steps. split; [done|]. eexists. by split_and!.
  - cbn. destruct (runtime_raw r) as [o|]; [|constructor]. constructor; [by apply Hr|constructor].
Qed.
End ops.
End Runtime.

(** ** Execution and building *)

Section actor.
Context {E : Type} (lib_answer : nat → ObjCall → result Z string).
(** The features [tensorrt-link] and [tensorrt-onnx]. *)
Context (linked onnx : bool).
Abbreviation lact := (act Lib E).
Import Runtime.

Definition nul_error (i : Z) : TrtError :=
  InvalidArg ("tensor name contains NUL: nul byte found in provided data at position: " +:+ pretty i).

(** [{:?}] of a name without characters that it escapes. *)
Definition quote : string := String (ascii_of_nat 34) EmptyString.
Definition too_many_dims (name : string) (n : nat) : TrtError :=
  InvalidArg ("tensor " +:+ quote +:+ name +:+ quote +:+ ": TensorRT supports at most 8 dims (got " +:+ pretty n +:+ ")").
Definition status_error (what rc : string) : TrtError := Execution (what +:+ " returned " +:+ rc).

(** A failure after the context was made destroys it. *)
Definition fail_with (ctx : Obj) (e : TrtError) : lact (result unit TrtError) := destroys [ctx];; mret (Err e).

Fixpoint bind_all (ctx : Obj) (bindings : list (string * Z)) (k : lact (result unit TrtError)) : lact (result unit TrtError) :=
  match bindings with
  | [] => k
  | (name, addr) :: rest =>
    match nul_position name with
    | Some i => fail_with ctx (nul_error i)
    | None =>
      r ← run_call lib_answer (call "context_set_tensor_address" [ctx] [ATag name; AInt addr]);
      match r with
      | Err rc => fail_with ctx (status_error ("set_tensor_address(" +:+ name +:+ ")") rc)
      | Ok _ => bind_all ctx rest k
      end
    end
  end.
Fixpoint set_shapes (ctx : Obj) (shapes : list (string * list Z)) (k : lact (result unit TrtError)) : lact (result unit TrtError) :=
  match shapes with
  | [] => k
  | (name, d) :: rest =>
    if 8 <? length d then fail_with ctx (too_many_dims name (length d))
    else
      match nul_position name with
      | Some i => fail_with ctx (nul_error i)
      | None =>
        r ← run_call lib_answer (call "context_set_input_shape" [ctx] (ATag name :: AInt (Z.of_nat (length d)) :: (AInt <$> d)));
        match r with
        | Err rc => fail_with ctx (status_error ("set_input_shape(" +:+ name +:+ ")") rc)
        | Ok _ => set_shapes ctx rest k
        end
      end
  end.

(** [TrtActor::execute]; the stream is a number. *)
Definition execute (engine : TrtEngine) (bindings : list (string * Z)) (shapes : list (string * list Z)) (stream : Z) :
    lact (result unit TrtError) :=
  if linked then
    c ← create lib_answer (call "engine_create_execution_context" (option_list (engine_raw engine)) []);
    match c with
    | Err _ => mret (Err (Execution "createExecutionContext returned null"))
    | Ok ctx =>
      set_shapes ctx shapes (bind_all ctx bindings (
        r ← run_call lib_answer (call "context_enqueue_v3" [ctx] [AInt stream]);
        destroys [ctx];;
        mret (match r with Err rc => Err (status_error "enqueueV3" rc) | Ok _ => Ok tt end)))
    end
  else mret (Err (NotLinked "TrtActor::execute requires the `tensorrt-link` feature")).

(** *** [TrtActor::build_from_onnx] *)

Fixpoint set_flags (cfg : Obj) (flags : list Z) (k : lact (result (list Z) TrtError)) : lact (result (list Z) TrtError) :=
  match flags with
  | [] => k
  | f :: flags => run_call lib_answer (call "config_set_flag" [cfg] [AInt f; AInt 1]);; set_flags cfg flags k
  end.

(** [plan] is what the bytes of a host memory object are read as. *)
Definition serialize (plan : Obj → list Z) (builder network parser cfg : Obj) : lact (result (list Z) TrtError) :=
  m ← create lib_answer (call "builder_build_serialized" [builder; network; cfg] []);
  match m with
  | Err _ => destroys [cfg; parser; builder];; mret (Err (Build "buildSerializedNetwork returned null"))
  | Ok mem =>
    run_call lib_answer (call "host_memory_data" [mem] []);;
    run_call lib_answer (call "host_memory_size" [mem] []);;
    destroys [mem];;
    destroys [cfg; parser; builder];;
    mret (match plan mem with [] => Err (Build "serialised plan was empty") | bytes => Ok bytes end)
  end.
Definition configure (plan : Obj → list Z) (c : Builder.IBuilderConfig) (builder network parser : Obj) : lact (result (list Z) TrtError) :=
  g ← create lib_answer (call "builder_create_config" [builder] []);
  match g with
  | Err _ => destroys [parser; builder];; mret (Err (Build "builder_create_config returned null"))
  | Ok cfg =>
    set_flags cfg (Builder.replayed_flags c) (
      if (0 <? Builder.workspace_bytes c)%Z then
        run_call lib_answer (call "config_set_memory_pool_limit" [cfg] [AInt 0; AInt (Builder.workspace_bytes c)]);;
        serialize plan builder network parser cfg
      else serialize plan builder network parser cfg)
  end.
Definition parse (plan : Obj → list Z) (onnx_bytes : list Z) (c : Builder.IBuilderConfig) (builder network : Obj) :
    lact (result (list Z) TrtError) :=
  p ← create lib_answer (call "onnx_parser_create" [network] [AInt 0]);
  match p with
  | Err _ => destroys [builder];; mret (Err (Onnx "onnx_parser_create returned null"))
  | Ok parser =>
    r ← run_call lib_answer (call "onnx_parser_parse" [parser] (AInt <$> onnx_bytes));
    match r with
    | Err rc =>
      n ← run_call lib_answer (call "onnx_parser_num_errors" [parser] []);
      destroys [parser];;
      destroys [builder];;
      mret (Err (Onnx ("onnx parse failed (rc=" +:+ rc +:+ ", errors=" +:+ pretty (match n with Ok n => n | Err _ => 0%Z end) +:+ ")")))
    | Ok _ => configure plan c builder network parser
    end
  end.

Definition build_from_onnx (plan : Obj → list Z) (onnx_bytes : list Z) (c : Builder.IBuilderConfig) : lact (result (list Z) TrtError) :=
  if linked && onnx then
    b ← create lib_answer (call "builder_create" [] [AInt 0]);
    match b with
    | Err _ => mret (Err (Build "builder_create returned null"))
    | Ok builder =>
      n ← create lib_answer (call "builder_create_network" [builder] [AInt 1]);
      match n with
      | Err _ => destroys [builder];; mret (Err (Build "create_network returned null"))
      | Ok network => parse plan onnx_bytes c builder network
      end
    end
  else mret (Err (NotLinked "TrtActor::build_from_onnx requires the `tensorrt-link` + `tensorrt-onnx` features")).

(** *** Who is left *)

Lemma set_shapes_frees ctx shapes keep k :
  frees [ctx] keep k → frees (E := E) [ctx] keep (set_shapes ctx shapes k).
Proof.
  intros Hk. induction shapes as [|[name d] shapes IH]; [done|]. cbn.
  case_match; [by apply frees_all|]. destruct (nul_position name); [by apply frees_all|].
  apply frees_run; [set_solver|]. intros [z|rc]; [done|by apply frees_all].
Qed.
Lemma bind_all_frees ctx bindings keep k :
  frees [ctx] keep k → frees (E := E) [ctx] keep (bind_all ctx bindings k).
Proof.
  intros Hk. induction bindings as [|[name a] bindings IH]; [done|]. cbn.
  destruct (nul_position name); [by apply frees_all|].
  apply frees_run; [set_solver|]. intros [z|rc]; [done|by apply frees_all].
Qed.

Lemma execute_frees engine bindings shapes stream :
  frees (E := E) [] (option_list (engine_raw engine)) (execute engine bindings shapes stream).
Proof.
  unfold execute. destruct linked; [|apply frees_ret]. apply frees_create; [done|intros; apply frees_ret|].
  intros ctx _. apply set_shapes_frees, bind_all_frees, frees_run; [set_solver|]. intros r. by apply frees_all.
Qed.

Lemma set_flags_frees cfg own keep flags k :
  cfg ∈ own → frees own keep k → frees (E := E) own keep (set_flags cfg flags k).
Proof.
  intros Hin Hk. induction flags as [|f flags IH]; [done|]. cbn. apply frees_run; [set_solver|done].
Qed.

Lemma serialize_frees plan builder network parser cfg :
  frees (E := E) [cfg; parser; builder] [network] (serialize plan builder network parser cfg).
Proof.
  unfold serialize. apply frees_create; [set_solver|intros; by apply frees_all|]. intros mem Hm.
  apply frees_run; [set_solver|]. intros _. apply frees_run; [set_solver|]. intros _.
  apply frees_one; [set_solver|]. by apply frees_all.
Qed.

Lemma parse_frees plan bytes c builder network :
  builder ≠ network → frees (E := E) [builder] [network] (parse plan bytes c builder network).
Proof.
  intros Hne. unfold parse. apply frees_create; [set_solver|intros; by apply frees_all|]. intros parser Hp.
  apply frees_run; [set_solver|]. intros [z|rc].
  - unfold configure. apply frees_create; [set_solver|intros; by apply frees_all|]. intros cfg Hc.
    apply set_flags_frees; [by left|]. case_match; [apply frees_run; [set_solver|]; intros _|]; apply serialize_frees.
  - apply frees_run; [set_solver|]. intros n. apply frees_one; [set_solver|]. by apply frees_all.
Qed.

(** Building destroys all it makes but the network, which nothing destroys: once one was
    made it stays alive whatever the rest answers. *)
Lemma build_leaks_network plan bytes c l L :
  lib_ok l L →
  awp (E := E) (build_from_onnx plan bytes c) (λ r l' es, es = [] ∧
    (lib_ok l' L ∧ (∃ e, r = Err e) ∨ ∃ network, network ∉ L ∧ lib_ok l' ({[network]} ∪ L))) l.
Proof.
  intros Hl. unfold build_from_onnx. destruct (linked && onnx); [|awp_steps; split; [done|left; eauto]].
  apply awp_bind. eapply awp_mono, (create_spec lib_answer _ l L Hl); [|constructor].
  intros [builder|e] l1 es (-> & _ & H1); [|awp_steps; split; [done|left; split; [by destruct H1|eauto]]].
  destruct H1 as (-> & Hn1 & Hl1). apply awp_bind.
  eapply awp_mono, (create_spec lib_answer _ l1 _ Hl1); [|constructor; [set_solver|constructor]].
  intros [network|e] l2 es (-> & _ & H2).
  - destruct H2 as (-> & Hn2 & Hl2). assert (Hne : calls l ≠ calls l1) by set_solver.
    eapply awp_mono, (parse_frees plan bytes c (calls l) (calls l1) Hne l2 _ Hl2); [|by apply NoDup_singleton|unfold objs; set_solver].
    intros r l3 es (-> & _ & Hl3). split; [done|]. right. exists (calls l1). split; [set_solver|].
    unfold objs in Hl3. cbn in Hl3. rewrite union_empty_r_L in Hl3.
    replace ({[calls l1]} ∪ L) with (({[calls l1]} ∪ ({[calls l]} ∪ L)) ∖ {[calls l]}) by set_solver. done.
  - destruct H2 as [_ Hl2]. apply awp_bind.
    eapply awp_mono, (destroys_spec [calls l] l2 _ Hl2); [|by apply NoDup_singleton|unfold objs; set_solver].
    intros _ l3 es (-> & _ & Hl3). awp_steps. split; [done|]. left. split; [|by eexists].
    unfold objs in Hl3. cbn in Hl3. rewrite union_empty_r_L in Hl3.
    replace L with (({[calls l]} ∪ L) ∖ {[calls l]}) by set_solver. done.
Qed.
End actor.

(** C39 (objects of TensorRT): executing on an engine uses only live objects and leaves the
    live ones as they were, whatever the library answers to each call; building from ONNX
    also leaves all that was alive, and besides it nothing but the network, which
    nothing destroys. *)
Theorem trt_objects {E} (lib_answer : nat → ObjCall → result Z string) linked onnx l L :
  lib_ok l L →
  (∀ engine bindings shapes stream, (∀ o, Runtime.engine_raw engine = Some o → o ∈ L) →
    awp (E := E) (execute lib_answer linked engine bindings shapes stream) (λ _ l' es, es = [] ∧ lib_ok l' L) l) ∧
  (∀ plan bytes c, awp (E := E) (build_from_onnx lib_answer linked onnx plan bytes c) (λ r l' es, es = [] ∧
    (lib_ok l' L ∧ (∃ e, r = Err e) ∨ ∃ network, network ∉ L ∧ lib_ok l' ({[network]} ∪ L))) l).
Proof.
  intros Hl. split.
  - intros engine bindings shapes stream He.
    eapply awp_mono, (execute_frees lib_answer linked engine bindings shapes stream l L Hl); [|constructor|].
    + intros r l' es (-> & _ & Hl'). split; [done|]. unfold objs in Hl'. cbn in Hl'. by rewrite difference_empty_L in Hl'.
    + unfold objs. cbn. destruct (Runtime.engine_raw engine) as [o|] eqn:Ho; cbn; [|set_solver].
      specialize (He o eq_refl). set_solver.
  - intros plan bytes c. by apply build_leaks_network.
Qed.

Definition an_engine : Runtime.TrtEngine := {| Runtime.engine_raw := Some 0; Runtime.num_io := 2 |}.
Definition engine_lib : Lib := {| calls := 1; events := [Created 0 (Runtime.call "runtime_deserialize" [] [])] |}.
Lemma engine_lib_ok : lib_ok engine_lib {[0]}.
Proof. split; [vm_compute; reflexivity|]. intros o ->%elem_of_singleton. cbn. lia. Qed.
Lemma trt_objects_witness :
  awp (E := Empty_set) (execute (λ _ _, Ok 0%Z) true an_engine [("in", 16%Z)] [] 7) (λ _ l' es, es = [] ∧ lib_ok l' {[0]}) engine_lib.
Proof.
  destruct (trt_objects (E := Empty_set) (λ _ _, Ok 0%Z) true true engine_lib {[0]} engine_lib_ok) as [H _].
  apply H. intros o [= <-]. set_solver.
Defined.

(** A shape of nine dimensions is refused after the context was made, which is destroyed. *)
Example nine_dims :
  (execute (E := Empty_set) (λ _ _, Ok 0%Z) true an_engine [] [("x", replicate 9 1%Z)] 7 engine_lib).1.1 =
    Err (too_many_dims "x" 9).
Proof. reflexivity. Qed.

(** A successful build leaves the network, the second object made. *)
Example network_left :
  let '(r, l', _) := build_from_onnx (E := Empty_set) (λ _ _, Ok 0%Z) true true (λ _, [1%Z]) [8%Z] Builder.IBuilderConfig_default Lib_new in
  r = Ok [1%Z] ∧ live l' = Some {[1]}.
Proof. vm_compute. done. Qed.

(** ** Calibration *)

Module Calibration.

Inductive CalibrationAlgo : Type := EntropyV2 | Entropy | MinMax | Legacy.
Record CalibrationBinding := { b_name : string; device_ptr : Z; b_bytes : Z }.

(** The three calibrators: the one for [FP8] has no cache. *)
Inductive Kind : Type := MinMaxCalibrator | EntropyCalibrator (legacy : bool) | Fp8Calibrator.
Record Calibrator := { kind : Kind; batches : list (list CalibrationBinding); cursor : nat; cache : option (list Z) }.

Definition new (k : Kind) (bs : list (list CalibrationBinding)) : Calibrator :=
  {| kind := k; batches := bs; cursor := 0; cache := None |}.
Definition algorithm (c : Calibrator) : CalibrationAlgo :=
  match kind c with
  | MinMaxCalibrator => MinMax
  | EntropyCalibrator true => Entropy
  | EntropyCalibrator false | Fp8Calibrator => EntropyV2
  end.
Definition next_batch (c : Calibrator) : option (list CalibrationBinding) * Calibrator :=
  match batches c !! cursor c with
  | None => (None, c)
  | Some b => (Some b, {| kind := kind c; batches := batches c; cursor := S (cursor c); cache := cache c |})
  end.
Definition has_cache (k : Kind) : bool := match k with Fp8Calibrator => false | _ => true end.
Definition read_cache (c : Calibrator) : option (list Z) := if has_cache (kind c) then cache c else None.
Definition write_cache (blob : list Z) (c : Calibrator) : Calibrator :=
  if has_cache (kind c) then {| kind := kind c; batches := batches c; cursor := cursor c; cache := Some blob |} else c.

(** [drain]: polls until there is no batch; [None] is fuel that ran out. *)
Fixpoint drain (fuel : nat) (count : nat) (c : Calibrator) : option (nat * Calibrator) :=
  match fuel with
  | 0 => None
  | S fuel =>
    match next_batch c with
    | (None, c) => Some (count, c)
    | (Some b, c) => drain fuel (count + length b) c
    end
  end.

(** Draining ends after the batches that are left and counts their bindings. *)
Lemma drain_counts c n :
  drain (S (length (batches c) - cursor c)) n c =
    Some (n + length (mjoin (drop (cursor c) (batches c))),
      {| kind := kind c; batches := batches c; cursor := Nat.max (cursor c) (length (batches c)); cache := cache c |}).
Proof.
  remember (length (batches c) - cursor c) as k eqn:Hk. revert c n Hk. induction k as [|k IH]; intros c n Hk.
  - cbn. unfold next_batch. rewrite lookup_ge_None_2, drop_ge by lia. cbn. rewrite Nat.add_0_r, Nat.max_l by lia. by destruct c.
  - destruct (lookup_lt_is_Some_2 (batches c) (cursor c)) as [b Hb]; [lia|].
    change (drain (S (S k)) n c) with (match next_batch c with
      | (None, c) => Some (n, c) | (Some b, c) => drain (S k) (n + length b) c end).
    unfold next_batch. rewrite Hb, IH by (cbn; lia). cbn [batches cursor kind cache].
    rewrite (drop_S (batches c) b (cursor c) Hb). cbn. rewrite length_app, Nat.add_assoc.
    by rewrite (Nat.max_r (S (cursor c))), (Nat.max_r (cursor c)) by lia.
Qed.

Lemma cache_roundtrip c blob : has_cache (kind c) = true → read_cache (write_cache blob c) = Some blob.
Proof. intros Hk. unfold write_cache. rewrite Hk. unfold read_cache. cbn. by rewrite Hk. Qed.
End Calibration.

(** ** Plugins *)

Module Plugins.

Section ops.
Context {E : Type} (lib_answer : nat → ObjCall → result Z string) (linked : bool).
Abbreviation lact := (act Lib E).

(** The box that keeps the plugin alive for the library is an object of its own. *)
Definition box_plugin : lact Obj :=
  n ← next_call; modify (log (Created n (Runtime.call "Box::into_raw" [] [])));; mret n.

Definition register_plugin : lact (result unit TrtError) :=
  if linked then
    user ← box_plugin;
    creator ← create lib_answer (Runtime.call "make_plugin_creator" [user] []);
    match creator with
    | Err _ => destroys [user];; mret (Err (Plugin "atomr_trt_make_plugin_creator returned null"))
    | Ok creator =>
      r ← run_call lib_answer (Runtime.call "register_plugin_creator" [creator] []);
      mret (match r with
            | Err rc => Err (Plugin ("registerCreator returned " +:+ rc +:+
                "; plugin name/namespace may collide with an existing entry"))
            | Ok _ => Ok tt
            end)
    end
  else mret (Err (NotLinked "register_plugin requires the `tensorrt-link` feature")).
End ops.

(** A refused registration leaves the creator and the plugin's box alive, which nobody owns. *)
Example refused_registration_leaks :
  let answer (n : nat) (c : ObjCall) := if String.eqb (oname c) "register_plugin_creator" then Err "-1" else Ok 0%Z in
  let '(r, l', _) := register_plugin (E := Empty_set) answer true Lib_new in
  is_ok r = false ∧ live l' = Some {[0; 1]}.
Proof. vm_compute. done. Qed.
Example refused_creator_frees :
  let '(r, l', _) := register_plugin (E := Empty_set) (λ _ _, Err "") true Lib_new in
  is_ok r = false ∧ live l' = Some ∅.
Proof. vm_compute. done. Qed.

(** [cstr_for_str]: the cache of the names given to the library; a name with a zero byte
    is given as the empty one. *)
Definition cstr_for_str (s : string) (cache : gmap string string) : gmap string string * string :=
  match cache !! s with
  | Some c => (cache, c)
  | None => let c := match nul_position s with Some _ => "" | None => s end in (<[s := c]> cache, c)
  end.

(** Asking again gives the same pointer's text, and no other name's changes. *)
Lemma cstr_stable s t cache : let '(cache', c) := cstr_for_str s cache in
  cstr_for_str s cache' = (cache', c) ∧ (cache !! t ≠ None → cache' !! t = cache !! t).
Proof.
  unfold cstr_for_str. destruct (cache !! s) as [c|] eqn:Hs; [by rewrite Hs|]. cbv zeta. rewrite lookup_insert_eq.
  split; [done|]. intros Ht. apply lookup_insert_ne. by intros ->.
Qed.
End Plugins.
