(* ===== verification/Telemetry.v ===== *)
(** * Telemetry

    Models [crates/atomr-accel-telemetry/src]: kernel traces over NVTX ([trace.rs],
    [nvtx.rs]), the actor that polls NVML ([nvml/actor.rs]) with the registration of
    its metrics ([nvml/probes.rs]), and the CUPTI session ([cupti/]); and the counters
    of [crates/atomr-accel-cuda/src/observability.rs].

    The two actors are tasks that own the receiver of a bounded channel and wait on it
    and on one more source, the channel first ([biased]); what they share is the first
    section.  Parameters are what the libraries answer, the clock, and which libraries
    can be opened. *)

From stdpp Require Import pretty.
From S2P Require Import Prelude Actor Text.

(** ** A task with a bounded channel *)

Section task.
Context {M S E X Y : Type} (cap : nat) (reply_of : M → nat).
(** One message, [false] when the loop ends; one turn of the other branch of the
    [select!]; and what others do to the shared state, [true] while the task runs. *)
Context (on_msg : M → act S E bool) (on_idle : X → act S E unit) (on_ext : bool → Y → act S E unit).

Record Task := { queue : list M; closed : bool; running : bool; t_state : S }.

Definition task_new (s : S) : Task := {| queue := []; closed := false; running := true; t_state := s |}.

Inductive Cmd : Type :=
  (** [sender.send(m)] *)
  | Send (m : M)
  (** The last sender is dropped. *)
  | Close
  (** The handle is dropped: [JoinHandle::abort]. *)
  | Abort
  (** The loop takes its next branch; [x] is what the other source has. *)
  | Turn (x : X)
  | Outside (y : Y).

(** [Waits]: the channel is full and the sender still holds the message.  [Lost]: the
    message is dropped unread. *)
Inductive TaskEff : Type := Did (e : E) | Waits (m : M) | Lost (m : M).

(** The receiver is dropped with what is in the channel. *)
Definition stopped (t : Task) : Task := {| queue := []; closed := closed t; running := false; t_state := t_state t |}.
Definition with_state (s : S) (t : Task) : Task :=
  {| queue := queue t; closed := closed t; running := running t; t_state := s |}.

Definition task_step (t : Task) (c : Cmd) : Task * list TaskEff :=
  match c with
  | Send m =>
    if negb (running t) then (t, [Lost m])
    else if (length (queue t) <? cap)%nat
    then ({| queue := queue t ++ [m]; closed := closed t; running := true; t_state := t_state t |}, [])
    else (t, [Waits m])
  | Close => ({| queue := queue t; closed := true; running := running t; t_state := t_state t |}, [])
  | Abort => (stopped t, Lost <$> queue t)
  | Turn x =>
    if negb (running t) then (t, [])
    else match queue t with
         | m :: q =>
           let '(go, s, es) := on_msg m (t_state t) in
           if go then ({| queue := q; closed := closed t; running := true; t_state := s |}, Did <$> es)
           else (stopped (with_state s t), (Did <$> es) ++ (Lost <$> q))
         | [] =>
           if closed t then (stopped t, [])
           else let '(_, s, es) := on_idle x (t_state t) in (with_state s t, Did <$> es)
         end
  | Outside y => let '(_, s, es) := on_ext (running t) y (t_state t) in (with_state s t, Did <$> es)
  end.

#[global] Instance task_actor : Actor Task Cmd TaskEff := task_step.

(** *** Replies *)

Context (answers : E → list nat).
Definition eff_replies (e : TaskEff) : list nat :=
  match e with Did e => answers e | Waits m | Lost m => [reply_of m] end.
Definition cmd_replies (c : Cmd) : list nat := match c with Send m => [reply_of m] | _ => [] end.

#[local] Instance task_channels : Replies Task Cmd TaskEff nat :=
  {| held := λ t, reply_of <$> queue t; arriving := cmd_replies; used := eff_replies |}.

(** Each message is answered on its channel, and nothing else is. *)
Definition answers_once : Prop := ∀ m s, (exec (on_msg m) s).2 ≫= answers = [reply_of m].
Definition quiet : Prop :=
  (∀ x s, (exec (on_idle x) s).2 ≫= answers = []) ∧ (∀ b y s, (exec (on_ext b y) s).2 ≫= answers = []).

Lemma did_replies (es : list E) : (Did <$> es) ≫= eff_replies = es ≫= answers.
Proof. induction es as [|e es IH]; [done|]. cbn. by rewrite IH. Qed.
Lemma lost_replies (ms : list M) : (Lost <$> ms) ≫= eff_replies = reply_of <$> ms.
Proof. induction ms as [|m ms IH]; [done|]. cbn. by rewrite IH. Qed.

Lemma task_reply_law : answers_once → quiet → ReplyLaw Task Cmd TaskEff nat.
Proof.
  intros Hone [Hidle Hext] t c. unfold handle, task_actor. destruct c as [m| | |x|y]; cbn [task_step held arriving used task_channels cmd_replies].
  - destruct (running t); cbn; [case_match; cbn|by rewrite Permutation_app_comm].
    + rewrite fmap_app. done.
    + by rewrite Permutation_app_comm.
  - by rewrite app_nil_r.
  - cbn. rewrite lost_replies, !app_nil_r. done.
  - rewrite app_nil_r. destruct (running t); cbn; [|done]. destruct (queue t) as [|m q] eqn:Hq.
    + destruct (closed t); cbn; [by rewrite ?Hq|].
      specialize (Hidle x (t_state t)). unfold exec in Hidle. destruct (on_idle x (t_state t)) as [[[] s] es].
      cbn in *. by rewrite did_replies, Hidle, Hq.
    + specialize (Hone m (t_state t)). unfold exec in Hone. destruct (on_msg m (t_state t)) as [[go s] es].
      destruct go; cbn in *; [by rewrite did_replies, Hone|].
      by rewrite bind_app, did_replies, lost_replies, Hone, app_nil_r.
  - rewrite app_nil_r. specialize (Hext (running t) y (t_state t)). unfold exec in Hext.
    destruct (on_ext (running t) y (t_state t)) as [[[] s] es]. cbn in *. by rewrite did_replies, Hext.
Qed.

(** A channel that arrives is answered, dropped, or still waiting. *)
Lemma task_replies s cs : answers_once → quiet →
  cs ≫= cmd_replies ≡ₚ
    ((run_actor (task_new s) cs).2 ≫= eff_replies) ++ (reply_of <$> queue (run_actor (task_new s) cs).1).
Proof.
  intros H1 H2. pose proof (task_reply_law H1 H2) as HL. exact (run_replies (task_new s) cs).
Qed.

(** A task that ended stays so. *)
Lemma stopped_stays t cs : running t = false → running (run_actor t cs).1 = false.
Proof.
  intros Ht. apply (run_preserved (λ t, running t = false)); [|done]. clear t Ht.
  intros t c Ht. unfold handle, task_actor, task_step. rewrite Ht. destruct c; cbn; try done.
  by destruct (on_ext false y (t_state t)) as [[? ?] ?].
Qed.
End task.
Arguments Task : clear implicits.
Arguments Cmd : clear implicits.
Arguments TaskEff : clear implicits.

(** ** Kernel traces *)

Module Trace.

Record KernelInfo := {
  lib_tag : string;
  op_name : string;
  device_index : option Z;
  correlation_id : option Z;
}.
Definition synthetic (lib op : string) : KernelInfo :=
  {| lib_tag := lib; op_name := op; device_index := None; correlation_id := None |}.

(** What [build_event] sets; the size of the structure is the library's. *)
Record EventAttributes := {
  version : Z;
  category : Z;
  color : Z;
  payload : Z;
  message : string;
}.
Definition build_event (msg : string) : EventAttributes :=
  {| version := 3; category := 0; color := 0; payload := 0; message := msg |}.

Inductive NvtxCall : Type :=
  | DomainCreate (name : string) (h : Z)
  | DomainDestroy (h : Z)
  | RangeStart (h : Z) (attr : EventAttributes) (id : Z)
  | RangeEnd (h : Z) (id : Z).

(** [Box<dyn Any + Send>]: the cookie of the no-op trace and of NVTX. *)
Inductive Cookie : Type := UnitCookie | NvtxCookie (range_id : Z) (start : Z).

(** The state is the number of ranges the library has started. *)
Abbreviation tact := (act nat NvtxCall).

Class KernelTrace (T : Type) := {
  before_enqueue : T → KernelInfo → tact Cookie;
  after_complete : T → KernelInfo → Cookie → Z → tact unit;
}.

Inductive NoopKernelTrace : Type := Noop.
#[global] Instance noop_trace : KernelTrace NoopKernelTrace :=
  {| before_enqueue := λ _ _, mret UnitCookie; after_complete := λ _ _ _ _, skip |}.

(** [CString::new(s).ok()] *)
Definition cstring (s : string) : option string :=
  match nul_position s with Some _ => None | None => Some s end.
Definition range_name (info : KernelInfo) : string :=
  match cstring (op_name info) with
  | Some c => c
  | None => default "kernel" (cstring (lib_tag info))
  end.

Record NvtxKernelTrace := { domain : Z }.
(** [with_domain_name], where the library answers the handle [h], and [Drop]. *)
Definition with_domain_name (name : string) (h : Z) : tact NvtxKernelTrace :=
  emit (DomainCreate name h);; mret {| domain := h |}.
Definition NvtxKernelTrace_new (h : Z) : tact NvtxKernelTrace := with_domain_name "atomr-accel" h.
Definition drop_domain (t : NvtxKernelTrace) : tact unit := emit (DomainDestroy (domain t)).

Section nvtx.
(** The identifier of the [n]-th range, and the clock when it starts. *)
Context (range_id clock : nat → Z).

Definition nvtx_before (t : NvtxKernelTrace) (info : KernelInfo) : tact Cookie :=
  n ← get;
  put (S n);;
  emit (RangeStart (domain t) (build_event (range_name info)) (range_id n));;
  mret (NvtxCookie (range_id n) (clock n)).
Definition nvtx_after (t : NvtxKernelTrace) (info : KernelInfo) (cookie : Cookie) (duration : Z) : tact unit :=
  match cookie with
  | NvtxCookie id _ => emit (RangeEnd (domain t) id)
  | UnitCookie => skip
  end.
#[local] Instance nvtx_trace : KernelTrace NvtxKernelTrace :=
  {| before_enqueue := nvtx_before; after_complete := nvtx_after |}.

(** Launches that share a trace.  A launch in flight holds its cookie: it completes,
    or its task is dropped. *)
Inductive Launch : Type :=
  | Enqueue (info : KernelInfo)
  | Complete (k : nat) (duration : Z)
  | Drop (k : nat).

Record Launches := { starts : nat; in_flight : list (KernelInfo * Cookie); abandoned : list Cookie }.
Definition no_launches : Launches := {| starts := 0; in_flight := []; abandoned := [] |}.

Definition launch_step {T} `{!KernelTrace T} (t : T) (s : Launches) (l : Launch) : Launches * list NvtxCall :=
  match l with
  | Enqueue info =>
    let '(c, n, es) := before_enqueue t info (starts s) in
    ({| starts := n; in_flight := in_flight s ++ [(info, c)]; abandoned := abandoned s |}, es)
  | Complete k d =>
    match in_flight s !! k with
    | None => (s, [])
    | Some (info, c) =>
      let '(_, n, es) := after_complete t info c d (starts s) in
      ({| starts := n; in_flight := delete k (in_flight s); abandoned := abandoned s |}, es)
    end
  | Drop k =>
    match in_flight s !! k with
    | None => (s, [])
    | Some (_, c) =>
      ({| starts := starts s; in_flight := delete k (in_flight s); abandoned := abandoned s ++ [c] |}, [])
    end
  end.

Fixpoint launches {T} `{!KernelTrace T} (t : T) (s : Launches) (ls : list Launch) : Launches * list NvtxCall :=
  match ls with
  | [] => (s, [])
  | l :: ls =>
    let '(s1, e1) := launch_step t s l in
    let '(s2, e2) := launches t s1 ls in (s2, e1 ++ e2)
  end.

Definition cookie_ids (c : Cookie) : list Z := match c with NvtxCookie id _ => [id] | UnitCookie => [] end.
Definition started (c : NvtxCall) : list Z := match c with RangeStart _ _ id => [id] | _ => [] end.
Definition ended (c : NvtxCall) : list Z := match c with RangeEnd _ id => [id] | _ => [] end.
Definition open_ids (s : Launches) : list Z :=
  ((snd <$> in_flight s) ≫= cookie_ids) ++ (abandoned s ≫= cookie_ids).

Lemma noop_calls ls s : (launches Noop s ls).2 = [].
Proof.
  revert s. induction ls as [|l ls IH]; intros s; [done|]. cbn [launches].
  assert ((launch_step Noop s l).2 = []) as Hl.
  { destruct l as [info|k d|k]; cbn; repeat case_match; simplify_eq/=; done. }
  destruct (launch_step Noop s l) as [s1 e1]. cbn in Hl. subst e1. specialize (IH s1).
  by destruct (launches Noop s1 ls).
Qed.

Lemma delete_cookies (fl : list (KernelInfo * Cookie)) k info c : fl !! k = Some (info, c) →
  (snd <$> fl) ≫= cookie_ids ≡ₚ cookie_ids c ++ ((snd <$> delete k fl) ≫= cookie_ids).
Proof. intros Hk. by rewrite (delete_Permutation _ _ _ Hk) at 1. Qed.

#[local] Arguments Nat.sub : simpl never.

(** One step: what it starts is ended by it or open after it. *)
Lemma nvtx_step t s l : let '(s', es) := launch_step t s l in
  open_ids s ++ (es ≫= started) ≡ₚ (es ≫= ended) ++ open_ids s' ∧
  (es ≫= started) = range_id <$> seq (starts s) (starts s' - starts s) ∧ starts s ≤ starts s'.
Proof.
  unfold open_ids. destruct l as [info|k d|k]; cbn.
  - split_and!; cbn [starts in_flight abandoned]; [|replace (S (starts s) - starts s) with 1 by lia; done|lia].
    rewrite fmap_app. cbn. rewrite bind_app, <-!app_assoc. f_equiv. by rewrite Permutation_app_comm.
  - destruct (in_flight s !! k) as [[info c]|] eqn:Hk; cbn.
    2:{ rewrite Nat.sub_diag, app_nil_r. done. }
    destruct c as [|id st]; cbn; rewrite (delete_cookies _ _ _ _ Hk); cbn; rewrite Nat.sub_diag, ?app_nil_r; done.
  - destruct (in_flight s !! k) as [[info c]|] eqn:Hk; cbn.
    2:{ rewrite Nat.sub_diag, app_nil_r. done. }
    rewrite (delete_cookies _ _ _ _ Hk), bind_app, bind_singleton, Nat.sub_diag, app_nil_r.
    split_and!; [solve_Permutation|done|lia].
Qed.

Lemma nvtx_run t s ls : let '(s', es) := launches t s ls in
  open_ids s ++ (es ≫= started) ≡ₚ (es ≫= ended) ++ open_ids s' ∧
  (es ≫= started) = range_id <$> seq (starts s) (starts s' - starts s) ∧ starts s ≤ starts s'.
Proof.
  revert s. induction ls as [|l ls IH]; intros s; cbn [launches].
  { rewrite Nat.sub_diag, app_nil_r. done. }
  pose proof (nvtx_step t s l) as Hl. destruct (launch_step t s l) as [s1 e1]. specialize (IH s1).
  destruct (launches t s1 ls) as [s2 e2]. destruct Hl as (H1&H2&H3), IH as (H4&H5&H6).
  rewrite !bind_app. split_and!; [|rewrite H2, H5|lia].
  - rewrite app_assoc, H1, <-app_assoc, H4. by rewrite app_assoc.
  - rewrite <-fmap_app. f_equal. replace (starts s2 - starts s) with ((starts s1 - starts s) + (starts s2 - starts s1)) by lia.
    rewrite seq_app. do 2 f_equal. lia.
Qed.

(** Where the library gives distinct identifiers, the trace ends a range at most once,
    only a range it started, and the ranges it started and did not end are those of
    the launches in flight or dropped: the range of a dropped launch is never ended. *)
Theorem nvtx_ranges t ls : Inj (=) (=) range_id →
  let '(s, es) := launches t no_launches ls in
  NoDup (es ≫= ended) ∧ (es ≫= started) ≡ₚ (es ≫= ended) ++ open_ids s ∧
  (∀ id c, c ∈ abandoned s → id ∈ cookie_ids c → id ∈ es ≫= started ∧ id ∉ es ≫= ended).
Proof.
  intros Hinj. pose proof (nvtx_run t no_launches ls) as H. destruct (launches t no_launches ls) as [s es].
  destruct H as (H1&H2&_). cbn in H1, H2.
  assert (Hnd : NoDup ((es ≫= ended) ++ open_ids s)).
  { rewrite <-H1, H2. apply NoDup_fmap_2; [done|]. apply NoDup_seq. }
  apply NoDup_app in Hnd as (Hn1&Hd&Hn2). split_and!; [done|done|]. intros id c Hc Hid.
  assert (Ho : id ∈ open_ids s).
  { unfold open_ids. apply elem_of_app. right. apply list_elem_of_bind. by exists c. }
  split; [|by intros ?%Hd].
  rewrite H1. apply elem_of_app. by right.
Qed.

(** Every call is on the domain of the trace. *)
Lemma nvtx_domain t s ls : Forall (λ c, match c with
  | RangeStart h _ _ | RangeEnd h _ => h = domain t | _ => False end) (launches t s ls).2.
Proof.
  revert s. induction ls as [|l ls IH]; intros s; [by apply Forall_nil|]. cbn [launches].
  assert (Forall (λ c, match c with RangeStart h _ _ | RangeEnd h _ => h = domain t | _ => False end)
    (launch_step t s l).2) as Hl.
  { destruct l as [info|k d|k]; [by repeat constructor| |]; cbn; destruct (in_flight s !! k) as [[? []]|]; by repeat constructor. }
  destruct (launch_step t s l) as [s1 e1]. specialize (IH s1). destruct (launches t s1 ls). by apply Forall_app.
Qed.
End nvtx.

(** A name with a zero byte gives way to the library's. *)
Example name_with_nul : range_name (synthetic "cublas" (String (ascii_of_nat 0) "gemm")) = "cublas"
  ∧ range_name (synthetic "cublas" "gemm") = "gemm".
Proof. done. Qed.

End Trace.

(** ** The NVML actor *)

Module Nvml.

Inductive NvmlError : Type :=
  | LibraryUnavailable (msg : string)
  | Call (func : string) (code : Z)
  | Closed.
Definition nvml_display (e : NvmlError) : string :=
  match e with
  | LibraryUnavailable m => "libnvidia-ml not available: " +:+ m
  | Call f c => "NVML call failed: " +:+ f +:+ " -> code " +:+ pretty c
  | Closed => "NVML actor channel closed"
  end.

Record NvmlProcess := { pid : Z; used_gpu_memory_bytes : Z }.
Record NvmlMigInstance := { gi_id : Z; ci_id : Z; memory_size_bytes : Z }.

Record NvmlDeviceSnapshot := {
  device_index : Z;
  uuid : option string;
  name : option string;
  power_milliwatts : option Z;
  power_average_milliwatts : option Z;
  temperature_gpu_c : option Z;
  temperature_memory_c : option Z;
  ecc_sbe_volatile : option Z;
  ecc_dbe_volatile : option Z;
  ecc_sbe_aggregate : option Z;
  ecc_dbe_aggregate : option Z;
  clock_sm_mhz : option Z;
  clock_mem_mhz : option Z;
  clock_video_mhz : option Z;
  throttle_reasons : option Z;
  pcie_tx_kib_per_s : option Z;
  pcie_rx_kib_per_s : option Z;
  mem_total_bytes : option Z;
  mem_used_bytes : option Z;
  mem_free_bytes : option Z;
  processes : list NvmlProcess;
  mig_mode_current : option Z;
  mig_mode_pending : option Z;
  mig_instances : list NvmlMigInstance;
}.
(** [NvmlDeviceSnapshot { device_index: i, ..Default::default() }], then the name. *)
Definition device_named (i : Z) (n : option string) : NvmlDeviceSnapshot :=
  {| device_index := i; uuid := None; name := n; power_milliwatts := None; power_average_milliwatts := None;
     temperature_gpu_c := None; temperature_memory_c := None; ecc_sbe_volatile := None; ecc_dbe_volatile := None;
     ecc_sbe_aggregate := None; ecc_dbe_aggregate := None; clock_sm_mhz := None; clock_mem_mhz := None;
     clock_video_mhz := None; throttle_reasons := None; pcie_tx_kib_per_s := None; pcie_rx_kib_per_s := None;
     mem_total_bytes := None; mem_used_bytes := None; mem_free_bytes := None; processes := [];
     mig_mode_current := None; mig_mode_pending := None; mig_instances := [] |}.

Record NvmlSnapshot := { devices : list NvmlDeviceSnapshot; generated_at_unix_nanos : Z }.
Definition NvmlSnapshot_default : NvmlSnapshot := {| devices := []; generated_at_unix_nanos := 0 |}.

(** Durations are in nanoseconds. *)
Record NvmlConfig := { interval : Z; library_path : option string }.
Definition NvmlConfig_default : NvmlConfig := {| interval := 1000000000; library_path := None |}.

(** *** Loading the library *)

Definition SYMBOLS : list string :=
  ["nvmlInit_v2"; "nvmlShutdown"; "nvmlDeviceGetCount_v2"; "nvmlDeviceGetHandleByIndex_v2"; "nvmlDeviceGetName"].
Definition DEFAULT_CANDIDATES : list string :=
  ["libnvidia-ml.so.1"; "libnvidia-ml.so"; "nvml.dll"; "libnvidia-ml.dylib"].

Section load.
(** Opening a library: an error, or the error of each symbol it lacks. *)
Context (open : string → result (string → option string) string).

Fixpoint first_missing (lacks : string → option string) (syms : list string) : option string :=
  match syms with
  | [] => None
  | s :: syms => match lacks s with Some e => Some e | None => first_missing lacks syms end
  end.

(** [None] is the panic after the loop. *)
Fixpoint load_from (cands : list string) (last_err : option string) : option (result string string) :=
  match cands with
  | [] =>
    match last_err with
    | Some e => Some (Err e)
    | None => match open "__atomr_accel_telemetry_no_nvml__" with Err e => Some (Err e) | Ok _ => None end
    end
  | c :: cands =>
    match open c with
    | Ok lacks => Some (match first_missing lacks SYMBOLS with Some e => Err e | None => Ok c end)
    | Err e => load_from cands (Some e)
    end
  end.
Definition load (override : option string) : option (result string string) :=
  load_from match override with Some p => [p] | None => DEFAULT_CANDIDATES end None.

(** [try_new] up to the spawn: the library whose [nvmlInit_v2] succeeded. *)
Definition try_new (init_status : Z) (config : NvmlConfig) : option (result string NvmlError) :=
  match load (library_path config) with
  | None => None
  | Some (Err e) => Some (Err (LibraryUnavailable e))
  | Some (Ok lib) => Some (if (init_status =? 0)%Z then Ok lib else Err (Call "nvmlInit_v2" init_status))
  end.

Definition opens (c : string) : bool := is_ok (open c).

(** Loading takes the first candidate that opens, and fails with its first missing
    symbol even when a later candidate has them all; when none opens, it fails with the
    error of the last. *)
Lemma load_from_spec cands e : cands ≠ [] →
  load_from cands e = match find opens cands with
    | Some c =>
      match open c with
      | Ok lacks => Some (match first_missing lacks SYMBOLS with Some e => Err e | None => Ok c end)
      | Err _ => None
      end
    | None => match last cands ≫= λ c, Some (open c) with Some (Err e) => Some (Err e) | _ => None end
    end.
Proof.
  revert e. induction cands as [|c cands IH]; intros e He; [done|]. cbn [load_from find]. unfold opens at 1.
  destruct (open c) as [lacks|err] eqn:Hc; cbn [is_ok]; [by rewrite Hc|].
  destruct cands as [|c2 cands]; [cbn; by rewrite Hc|]. rewrite IH by done. by destruct (find _ _).
Qed.
(** Loading never panics. *)
Lemma load_total override : is_Some (load override).
Proof.
  unfold load. set (cands := match override with Some p => [p] | None => _ end).
  assert (Hne : cands ≠ []) by (unfold cands; by destruct override).
  rewrite load_from_spec by done. destruct (find opens cands) as [c|] eqn:Hf.
  - apply find_some in Hf as [_ Hc]. unfold opens in Hc. destruct (open c); [by eexists|done].
  - destruct (last cands) as [c|] eqn:Hl; [|by apply last_None in Hl]. cbn.
    assert (Hc : opens c = false).
    { apply (find_none _ _ Hf), list_elem_of_In. rewrite last_lookup in Hl. by eapply list_elem_of_lookup_2. }
    unfold opens in Hc. destruct (open c); [done|by eexists].
Qed.
End load.

(** *** Polling *)

(** What the library and the clock answer during one poll. *)
Record NvmlAnswers := {
  count_status : Z;
  device_count : Z;
  handle_status : Z → Z;
  (** The status of [nvmlDeviceGetName], and the text before the zero byte. *)
  name_of : Z → Z * string;
  now : option Z;
}.

Definition poll_device (a : NvmlAnswers) (i : Z) : option NvmlDeviceSnapshot :=
  if negb (handle_status a i =? 0)%Z then None
  else Some (device_named i (if ((name_of a i).1 =? 0)%Z then Some (name_of a i).2 else None)).

Definition poll_once (a : NvmlAnswers) : result NvmlSnapshot NvmlError :=
  if negb (count_status a =? 0)%Z then Err (Call "nvmlDeviceGetCount_v2" (count_status a))
  else Ok {| devices := omap (poll_device a) (seqZ 0 (device_count a));
             generated_at_unix_nanos := default 0%Z (now a) |}.

(** A snapshot lists the devices that have a handle, in order, and of each its index
    and its name; every other field is as if the device did not expose it. *)
Lemma poll_once_spec a s : poll_once a = Ok s →
  (device_index <$> devices s) = filter (λ i, handle_status a i = 0%Z) (seqZ 0 (device_count a)) ∧
  ∀ d, d ∈ devices s → d = device_named (device_index d) (name d).
Proof.
  unfold poll_once. destruct (count_status a =? 0)%Z; cbn; intros [= <-]. cbn. split.
  - induction (seqZ 0 (device_count a)) as [|i l IH]; [done|]. rewrite filter_cons. cbn [omap list_omap]. unfold poll_device at 1.
    destruct (Z.eqb_spec (handle_status a i) 0); cbn; case_decide; try done. cbn. f_equal. exact IH.
  - intros d. rewrite list_elem_of_omap. intros (i&_&Hd). unfold poll_device in Hd.
    destruct (handle_status a i =? 0)%Z; cbn in Hd; by simplify_eq.
Qed.

(** *** The loop *)

Inductive NvmlMsg : Type :=
  | Snapshot (reply : nat)
  | SetInterval (interval : Z) (reply : nat)
  | Shutdown (reply : nat).
Definition nvml_reply (m : NvmlMsg) : nat :=
  match m with Snapshot r => r | SetInterval _ r => r | Shutdown r => r end.

Inductive NvmlEff : Type :=
  | ReplySnapshot (reply : nat) (r : result NvmlSnapshot NvmlError)
  | ReplyUnit (reply : nat) (r : result unit NvmlError)
  | NvmlShutdown
  | Polled (r : result NvmlSnapshot NvmlError)
  (** [tokio::time::interval] panics; the reply is dropped. *)
  | PeriodIsZero (reply : nat).
Definition nvml_answers (e : NvmlEff) : list nat :=
  match e with ReplySnapshot r _ | ReplyUnit r _ | PeriodIsZero r => [r] | NvmlShutdown | Polled _ => [] end.

Record NvmlState := { config : NvmlConfig; latest : NvmlSnapshot }.
Definition set_latest (sn : NvmlSnapshot) (s : NvmlState) : NvmlState := {| config := config s; latest := sn |}.
Definition set_interval (d : Z) (s : NvmlState) : NvmlState :=
  {| config := {| interval := d; library_path := library_path (config s) |}; latest := latest s |}.

Abbreviation nact := (act NvmlState NvmlEff).

Definition nvml_msg (m : NvmlMsg) : nact bool :=
  match m with
  | Snapshot reply => s ← get; emit (ReplySnapshot reply (Ok (latest s)));; mret true
  | SetInterval d reply =>
    modify (set_interval d);;
    (if (d =? 0)%Z then emit (PeriodIsZero reply);; mret false
     else emit (ReplyUnit reply (Ok ()));; mret true)
  | Shutdown reply => emit NvmlShutdown;; emit (ReplyUnit reply (Ok ()));; mret false
  end.
(** A tick. *)
Definition nvml_tick (a : NvmlAnswers) : nact unit :=
  emit (Polled (poll_once a));;
  match poll_once a with Ok snap => modify (set_latest snap) | Err _ => skip end.

Abbreviation NvmlTask := (Task NvmlMsg NvmlState).
Abbreviation NvmlCmd := (Cmd NvmlMsg NvmlAnswers Empty_set).
Abbreviation NvmlOut := (TaskEff NvmlMsg NvmlEff).

(** [mpsc::channel(64)]; nobody else writes the state. *)
Definition nvml_ext (alive : bool) (y : Empty_set) : nact unit := match y with end.
#[global] Instance nvml_actor : Actor NvmlTask NvmlCmd NvmlOut := task_actor 64 nvml_msg nvml_tick nvml_ext.
(** The spawned task: a zero interval panics before the loop. *)
Definition nvml_start (c : NvmlConfig) : NvmlTask :=
  let t := task_new {| config := c; latest := NvmlSnapshot_default |} in
  if (interval c =? 0)%Z then stopped t else t.

Lemma nvml_answers_once : answers_once nvml_reply nvml_msg nvml_answers.
Proof. intros [r|d r|r] s; try done. unfold nvml_msg. by case_match. Qed.
Lemma nvml_quiet : quiet nvml_tick nvml_ext nvml_answers.
Proof. split; [|by intros ? []]. intros a s. unfold nvml_tick. by destruct (poll_once a). Qed.

(** The last successful poll of a trace. *)
Definition poll_from (s : NvmlSnapshot) (es : list NvmlOut) : NvmlSnapshot :=
  foldl (λ s e, match e with Did (Polled (Ok s')) => s' | _ => s end) s es.
Definition last_poll : list NvmlOut → NvmlSnapshot := poll_from NvmlSnapshot_default.

Definition is_polled (e : NvmlOut) : bool := match e with Did (Polled _) => true | _ => false end.
Definition is_shutdown (e : NvmlOut) : bool := match e with Did NvmlShutdown => true | _ => false end.

Lemma app_cut {A} (l1 l2 k1 k2 : list A) x : l1 ++ l2 = k1 ++ x :: k2 →
  (∃ k, l1 = k1 ++ x :: k ∧ k2 = k ++ l2) ∨ (∃ k, k1 = l1 ++ k ∧ l2 = k ++ x :: k2).
Proof.
  intros [[k [-> Hk]]|[k [-> ->]]]%app_eq_inv; [|right; by exists k].
  destruct k as [|y k]; [right; exists []; by rewrite !app_nil_r|]. injection Hk as <- ->. left. by exists k.
Qed.

Lemma no_shutdown_cut (es k es2 : list NvmlOut) : existsb is_shutdown es = false → es ≠ k ++ Did NvmlShutdown :: es2.
Proof. intros H ->. rewrite existsb_app in H. cbn in H. by rewrite orb_true_r in H. Qed.

(** What one step of the loop leaves behind. *)
Lemma nvml_step_effects (t : NvmlTask) c : let '(t', es) := handle t c in
  (∃ a, es = [Did (Polled (poll_once a))] ∧ running t' = true ∧
        latest (t_state t') = match poll_once a with Ok s => s | Err _ => latest (t_state t) end) ∨
  (existsb is_polled es = false ∧ latest (t_state t') = latest (t_state t) ∧
   (∀ r x, Did (ReplySnapshot r x) ∈ es → x = Ok (latest (t_state t))) ∧
   (∀ k es2, es = k ++ Did NvmlShutdown :: es2 → running t' = false ∧ existsb is_shutdown es2 = false)).
Proof.
  assert (Hlost : ∀ ms : list NvmlMsg, existsb is_polled (Lost <$> ms) = false ∧
    existsb is_shutdown (Lost <$> ms) = false ∧ ∀ r x, Did (ReplySnapshot r x) ∉ (Lost <$> ms : list NvmlOut)).
  { induction ms as [|m ms (IH1&IH2&IH3)]; [split_and!; [done|done|by intros ?? ?%elem_of_nil]|].
    split_and!; [done|done|]. intros r x. cbn. rewrite elem_of_cons. intros [?|?]; [done|by eapply IH3]. }
  assert (Hno : ∀ (b : bool) (es : list NvmlOut), existsb is_shutdown es = false →
    ∀ k es2, es = k ++ Did NvmlShutdown :: es2 → b = false ∧ existsb is_shutdown es2 = false).
  { intros b es He k es2 ->. by destruct (no_shutdown_cut _ k es2 He). }
  assert (Hnil : ∀ (l : NvmlSnapshot) r x, Did (ReplySnapshot r x) ∈ ([] : list NvmlOut) → x = Ok l).
  { by intros ??? ?%elem_of_nil. }
  unfold handle, nvml_actor, task_actor, task_step. destruct c as [m| | |a|[]].
  - destruct (running t); cbn [negb]; [destruct (_ <? _)|]; right; (split_and!; [done|done|set_solver|by apply Hno]).
  - right. split_and!; [done|done|apply Hnil|by apply Hno].
  - right. destruct (Hlost (queue t)) as (H1&H2&H3). split_and!; [done|done| |by apply Hno].
    intros r x Hin. by apply H3 in Hin.
  - destruct (running t) eqn:Hr; cbn [negb]; [|right; split_and!; [done|done|apply Hnil|by apply Hno]].
    destruct (queue t) as [|m q] eqn:Hq.
    + destruct (closed t) eqn:Hc; [right; split_and!; [done|done|apply Hnil|by apply Hno]|].
      unfold nvml_tick. act_unfold. destruct (poll_once a) eqn:Hp; left; exists a; by rewrite Hp.
    + destruct (Hlost q) as (H1&H2&H3). destruct m as [r|d r|r]; unfold nvml_msg; act_unfold.
      * right. split_and!; [done|done| |by apply Hno]. intros r' x Hx%list_elem_of_singleton. by simplify_eq.
      * destruct (d =? 0)%Z; cbn; right; [rewrite H1|]; (split_and!; [done|done| |by apply Hno]).
        -- intros r' x. rewrite !elem_of_cons. intros [?|Hx]; [done|by apply H3 in Hx].
        -- intros r' x. by intros ?%list_elem_of_singleton.
      * right. cbn. rewrite H1. split_and!; [done|done| |].
        -- intros r' x. rewrite !elem_of_cons. intros [?|[?|Hx]]; [done..|by apply H3 in Hx].
        -- intros [|e k] es2 He; injection He; [by intros <-|]. intros Hk _. exfalso.
           by eapply (no_shutdown_cut (Did (ReplyUnit r (Ok ())) :: (Lost <$> q)) k es2).
Qed.

Lemma stopped_nvml_silent (t : NvmlTask) cs : running t = false →
  existsb is_polled (run_actor t cs).2 = false ∧ existsb is_shutdown (run_actor t cs).2 = false.
Proof.
  revert t. induction cs as [|c cs IH]; intros t Ht; [done|]. cbn [run_actor].
  pose proof (stopped_stays 64 nvml_msg nvml_tick nvml_ext t [c] Ht) as Hs. cbn [run_actor] in Hs.
  assert (existsb is_polled (handle t c).2 = false ∧ existsb is_shutdown (handle t c).2 = false
    ∧ running (handle t c).1 = false) as (H1&H2&H3).
  { unfold handle, nvml_actor in *. destruct (task_actor 64 nvml_msg nvml_tick nvml_ext t c) as [t1 e1] eqn:He.
    cbn in Hs. split_and!; [| |done]; unfold task_actor, task_step in He; rewrite Ht in He;
      destruct c as [m| | |a|[]]; cbn in He; simplify_eq/=; try done; induction (queue t); done. }
  destruct (handle t c) as [t1 e1]. cbn in *. destruct (IH t1 H3) as [H4 H5]. destruct (run_actor t1 cs).
  cbn in *. rewrite !existsb_app, H1, H2. done.
Qed.

Lemma poll_from_quiet s es : existsb is_polled es = false → poll_from s es = s.
Proof.
  induction es as [|e es IH] in s |- *; [done|]. cbn. intros [He H]%orb_false_iff.
  unfold poll_from in IH. rewrite IH by done. by destruct e as [[| | |[]|]| |].
Qed.

Lemma nvml_run t cs : let '(t', es) := run_actor t cs in
  latest (t_state t') = poll_from (latest (t_state t)) es ∧
  (∀ es1 r x es2, es = es1 ++ Did (ReplySnapshot r x) :: es2 → x = Ok (poll_from (latest (t_state t)) es1)) ∧
  (∀ es1 es2, es = es1 ++ Did NvmlShutdown :: es2 →
     existsb is_polled es2 = false ∧ existsb is_shutdown es2 = false).
Proof.
  revert t. induction cs as [|c cs IH]; intros t; cbn [run_actor].
  { split_and!; [done|by intros []..]. }
  pose proof (nvml_step_effects t c) as Hstep. destruct (handle t c) as [t1 e1].
  pose proof (stopped_nvml_silent t1 cs) as Hsil. specialize (IH t1). destruct (run_actor t1 cs) as [t2 e2].
  destruct IH as (I1&I2&I3). cbn in Hsil.
  assert (Hl : latest (t_state t1) = poll_from (latest (t_state t)) e1).
  { destruct Hstep as [(a&->&_&->)|(Hq&->&_)]; [|by rewrite poll_from_quiet]. cbn. by destruct (poll_once a). }
  unfold poll_from in *. split_and!.
  - by rewrite foldl_app, <-Hl.
  - intros es1 r x es2 [[k [He _]]|[k [-> He]]]%app_cut.
    + destruct Hstep as [(a&->&_)|(Hq&_&Hs&_)].
      * by destruct es1 as [|? []].
      * rewrite (Hs r x) by (rewrite He; set_solver). f_equal.
        pose proof (poll_from_quiet (latest (t_state t)) es1) as Hp. unfold poll_from in Hp. rewrite Hp; [done|].
        rewrite He, existsb_app in Hq. by apply orb_false_iff in Hq as [? _].
    + rewrite foldl_app, <-Hl. by eapply I2.
  - intros es1 es2 [[k [He ->]]|[k [-> He]]]%app_cut; [|by eapply I3].
    destruct Hstep as [(a&->&_)|(Hq&_&_&Hs)]; [by destruct es1 as [|? []]|].
    destruct (Hs _ _ He) as [Hrun Hk]. destruct (Hsil Hrun) as [H4 H5]. rewrite !existsb_app, H4, H5, Hk.
    rewrite He, existsb_app in Hq. apply orb_false_iff in Hq as [_ Hq]. cbn in Hq. by rewrite Hq.
Qed.

(** At every moment the snapshot others can read is the last successful poll, and so is
    every answer; once NVML is shut down it is neither polled nor shut down again; and
    every request is answered or its channel dropped, unless it still waits. *)
Theorem nvml_serves c cs : let '(t, es) := run_actor (nvml_start c) cs in
  latest (t_state t) = last_poll es ∧
  (∀ es1 r x es2, es = es1 ++ Did (ReplySnapshot r x) :: es2 → x = Ok (last_poll es1)) ∧
  (∀ es1 es2, es = es1 ++ Did NvmlShutdown :: es2 →
     existsb is_polled es2 = false ∧ existsb is_shutdown es2 = false) ∧
  cs ≫= cmd_replies nvml_reply ≡ₚ (es ≫= eff_replies nvml_reply nvml_answers) ++ (nvml_reply <$> queue t).
Proof.
  pose proof (nvml_run (nvml_start c) cs) as H.
  pose proof (task_reply_law 64 nvml_reply nvml_msg nvml_tick nvml_ext nvml_answers nvml_answers_once nvml_quiet) as HL.
  pose proof (run_replies (HL := HL) (nvml_start c) cs) as Hr.
  unfold nvml_actor in *. destruct (run_actor (nvml_start c) cs) as [t es]. cbn in Hr.
  assert (Hs : latest (t_state (nvml_start c)) = NvmlSnapshot_default ∧ queue (nvml_start c) = []).
  { unfold nvml_start. by case_match. }
  destruct Hs as [Hs Hq]. rewrite Hs in H. rewrite Hq in Hr. destruct H as (H1&H2&H3). by split_and!.
Qed.

(** Setting the interval to zero ends the task without an answer; what it has not read
    is dropped, and every later request too. *)
Example zero_interval_kills :
  (run_actor (nvml_start NvmlConfig_default)
     [Send (SetInterval 0 1); Send (Snapshot 2); Turn {| count_status := 0; device_count := 0; handle_status := λ _, 0%Z;
        name_of := λ _, (0%Z, EmptyString); now := None |}; Send (Snapshot 3)]).2
  = [Did (PeriodIsZero 1); Lost (Snapshot 2); Lost (Snapshot 3)].
Proof. done. Qed.

End Nvml.

(** ** Metric names *)

Module Probes.

Definition METRIC_NAMES : list string :=
  ["nvml.power.instant_milliwatts"; "nvml.power.average_milliwatts"; "nvml.temp.gpu_celsius";
   "nvml.temp.memory_celsius"; "nvml.ecc.sbe_volatile"; "nvml.ecc.dbe_volatile"; "nvml.ecc.sbe_aggregate";
   "nvml.ecc.dbe_aggregate"; "nvml.clock.sm_mhz"; "nvml.clock.mem_mhz"; "nvml.clock.video_mhz";
   "nvml.throttle.reasons_bitmask"; "nvml.pcie.tx_kib_per_s"; "nvml.pcie.rx_kib_per_s";
   "nvml.memory.total_bytes"; "nvml.memory.used_bytes"; "nvml.memory.free_bytes"; "nvml.processes.count";
   "nvml.mig.mode_current"; "nvml.mig.mode_pending"; "nvml.mig.instances_count"].

(** [Mutex<BTreeSet<&str>>]; a listing is in the order of the strings. *)
Abbreviation ProbeRegistration := (gset string).
Definition ProbeRegistration_new : ProbeRegistration := ∅.
Definition metric_count (reg : ProbeRegistration) : nat := size reg.
Definition metric_names (reg : ProbeRegistration) : list string := merge_sort String.le (elements reg).
(** [BTreeSet::insert]: whether the name is new. *)
Definition add (name : string) (reg : ProbeRegistration) : bool * ProbeRegistration :=
  (bool_decide (name ∉ reg), {[name]} ∪ reg).
Definition register (names : list string) (reg : ProbeRegistration) : nat * ProbeRegistration :=
  foldl (λ '(new, reg) name, let '(b, reg) := add name reg in (new + Nat.b2n b, reg)) (0, reg) names.
Definition register_all (reg : ProbeRegistration) : nat * ProbeRegistration := register METRIC_NAMES reg.

Lemma register_spec names reg :
  register names reg = (size (list_to_set names ∖ reg : gset string), list_to_set names ∪ reg).
Proof.
  unfold register. assert (∀ n, foldl (λ '(new, reg) name, let '(b, reg) := add name reg in (new + Nat.b2n b, reg)) (n, reg) names
    = (n + size (list_to_set names ∖ reg : gset string), list_to_set names ∪ reg)) as H; [|by rewrite H].
  induction names as [|x names IH] in reg |- *; intros n.
  { cbn. f_equal; [|set_solver]. replace (∅ ∖ reg) with (∅ : gset string) by set_solver. rewrite size_empty. lia. }
  cbn [foldl]. unfold add at 2. rewrite IH. cbn [list_to_set]. f_equal; [|set_solver].
  case_bool_decide as Hx; cbn [Nat.b2n].
  - set (Y := list_to_set names ∖ ({[x]} ∪ reg) : gset string).
    assert ((({[x]} ∪ list_to_set names) ∖ reg : gset string) = {[x]} ∪ Y) as ->.
    { apply set_eq. intros y. destruct (decide (y = x)); set_solver. }
    assert (size ({[x]} ∪ Y) = 1 + size Y) as ->; [|lia].
    rewrite <-(size_singleton (C := gset string) x). apply size_union. set_solver.
  - rewrite Nat.add_0_r. do 2 f_equal. set_solver.
Qed.

(** Registering counts the names that were not there and leaves all of them there; a
    second registration changes nothing. *)
Lemma register_all_idempotent reg : let '(n, reg1) := register_all reg in
  n = size (list_to_set METRIC_NAMES ∖ reg : gset string) ∧ metric_count reg1 = metric_count reg + n ∧
  (∀ x, x ∈ metric_names reg1 ↔ x ∈ METRIC_NAMES ∨ x ∈ reg) ∧ register_all reg1 = (0, reg1).
Proof.
  unfold register_all. rewrite !register_spec. generalize METRIC_NAMES. intros names.
  unfold metric_count, metric_names. split_and!; [done| | |].
  - rewrite union_comm_L. apply (size_union_alt (C := gset string)).
  - intros x. rewrite merge_sort_Permutation, elem_of_elements. set_solver.
  - assert (∀ R : gset string, (list_to_set names ∪ R) = R → size (list_to_set names ∖ R) = 0) as H.
    { intros R HR. apply (size_empty_iff (C := gset string)). set_solver. }
    assert (list_to_set names ∪ (list_to_set names ∪ reg) = list_to_set names ∪ reg) as He
      by (by rewrite assoc_L, union_idemp_L by apply _).
    by rewrite He, (H _ He).
Qed.

(** The listing is sorted and lists each name once. *)
Lemma metric_names_sorted reg : StronglySorted String.le (metric_names reg) ∧ NoDup (metric_names reg).
Proof.
  unfold metric_names. split; [apply (StronglySorted_merge_sort _)|].
  rewrite merge_sort_Permutation. apply NoDup_elements.
Qed.

Example all_metrics : metric_count (register_all ProbeRegistration_new).2 = 21.
Proof. run. Qed.
End Probes.

(** ** CUPTI sessions *)

Module Cupti.

Inductive ActivityCategory : Type := KernelLaunch | Memcpy | DriverApi | RuntimeApi | RangeProfiler.
#[global] Instance ActivityCategory_eq_dec : EqDecision ActivityCategory.
Proof. solve_decision. Defined.

Definition bit_index (c : ActivityCategory) : Z :=
  match c with KernelLaunch => 0 | Memcpy => 1 | DriverApi => 2 | RuntimeApi => 3 | RangeProfiler => 4 end.
Definition bit (c : ActivityCategory) : Z := Z.shiftl 1 (bit_index c).
Definition candidates : list ActivityCategory := [KernelLaunch; Memcpy; DriverApi; RuntimeApi; RangeProfiler].
Definition from_bitmask (mask : Z) : list ActivityCategory :=
  filter (λ c, Z.land mask (bit c) ≠ 0%Z) candidates.

Inductive ActivityKind : Type := CONCURRENT_KERNEL | MEMCPY | DRIVER | RUNTIME.
Definition cupti_kinds (c : ActivityCategory) : list ActivityKind :=
  match c with
  | KernelLaunch => [CONCURRENT_KERNEL]
  | Memcpy => [MEMCPY]
  | DriverApi => [DRIVER]
  | RuntimeApi => [RUNTIME]
  | RangeProfiler => []
  end.

(** The mask of a set of categories. *)
Definition mask_of (cs : list ActivityCategory) : Z := foldr Z.lor 0%Z (bit <$> cs).

Lemma land_bit mask c : Z.land mask (bit c) ≠ 0%Z ↔ Z.testbit mask (bit_index c) = true.
Proof.
  unfold bit. rewrite Z.shiftl_1_l. assert (Hi : (0 ≤ bit_index c)%Z) by (by destruct c).
  split.
  - intros Hne. destruct (Z.testbit mask (bit_index c)) eqn:Hb; [done|]. destruct Hne.
    apply Z.bits_inj'. intros n Hn. rewrite Z.land_spec, Z.bits_0, Z.pow2_bits_eqb by done.
    destruct (Z.eqb_spec (bit_index c) n) as [<-|]; [by rewrite Hb|by rewrite andb_false_r].
  - intros Hb He. apply (f_equal (λ z, Z.testbit z (bit_index c))) in He.
    by rewrite Z.land_spec, Hb, Z.pow2_bits_true, Z.bits_0 in He.
Qed.

Lemma mask_of_testbit cs c : Z.testbit (mask_of cs) (bit_index c) = true ↔ c ∈ cs.
Proof.
  unfold mask_of. induction cs as [|d cs IH]; cbn.
  { rewrite Z.bits_0. split; [done|by intros ?%elem_of_nil]. }
  rewrite Z.lor_spec, orb_true_iff, IH, elem_of_cons. unfold bit. rewrite Z.shiftl_1_l, Z.pow2_bits_eqb by (by destruct d).
  rewrite Z.eqb_eq. split; intros [H|H]; try (by right); left; [by destruct c, d|by subst].
Qed.

(** The categories come back from their mask, once each and in a fixed order; bits that
    stand for no category are ignored. *)
Theorem bitmask_round_trip cs : from_bitmask (mask_of cs) = filter (.∈ cs) candidates ∧
  ∀ mask, mask_of (from_bitmask mask) = Z.land mask 31.
Proof.
  split.
  - apply list_filter_iff. intros c. by rewrite land_bit, mask_of_testbit.
  - intros mask. apply Z.bits_inj'. intros n Hn. rewrite Z.land_spec.
    destruct (Z.ltb_spec n 5) as [Hlt|Hge].
    + assert (∃ c, n = bit_index c) as [c ->].
      { assert (n ∈ bit_index <$> candidates) as (c&->&_)%list_elem_of_fmap; [|by exists c].
        cbn. rewrite !elem_of_cons. lia. }
      assert (Z.testbit 31 (bit_index c) = true) as -> by (by destruct c). rewrite andb_true_r.
      apply eq_true_iff_eq. rewrite mask_of_testbit. unfold from_bitmask.
      rewrite list_elem_of_filter, land_bit. split; [by intros []|]. intros ?. split; [done|].
      destruct c; cbn; set_solver.
    + assert (Z.testbit 31 n = false) as -> by (apply Z.bits_above_log2; [done|]; cbn; lia).
      rewrite andb_false_r. apply not_true_iff_false. intros Hb.
      assert (∀ cs, Z.testbit (mask_of cs) n = false) as Hm; [|by rewrite Hm in Hb].
      clear Hb. induction cs0 as [|d cs0 IH]; [apply Z.bits_0|]. unfold mask_of in *. cbn.
      rewrite Z.lor_spec, IH, orb_false_r. unfold bit. rewrite Z.shiftl_1_l, Z.pow2_bits_eqb by (by destruct d).
      apply Z.eqb_neq. destruct d; cbn; lia.
Qed.

(** *** Records *)

(** An [f64] is its bits. *)
Inductive Activity : Type :=
  | Kernel (name : string) (device_id stream_id start_ns end_ns correlation_id : Z)
  | MemcpyRecord (kind bytes device_id stream_id start_ns end_ns correlation_id : Z)
  | DriverApiRecord (cbid thread_id start_ns end_ns correlation_id : Z)
  | RuntimeApiRecord (cbid thread_id start_ns end_ns correlation_id : Z)
  | RangeProfilerSample (range_name metric_name : string) (value : Z).
Definition is_sample (a : Activity) : bool := match a with RangeProfilerSample _ _ _ => true | _ => false end.

(** [RangeProfilerPass] is a configuration that nothing reads. *)
Record RangeProfilerPass := { metrics : list string; max_ranges_per_pass : Z }.

Inductive CuptiError : Type :=
  | LibraryUnavailable (msg : string)
  | NotBootstrapped
  | Call (func : string) (code : Z)
  | Empty
  | Closed.
Definition cupti_display (e : CuptiError) : string :=
  match e with
  | LibraryUnavailable m => "libcupti unavailable: " +:+ m
  | NotBootstrapped => "CUPTI not bootstrapped: install CuptiBootstrap before cuInit"
  | Call f c => "CUPTI call failed: " +:+ f +:+ " -> code " +:+ pretty c
  | Empty => "CUPTI session has no buffered records"
  | Closed => "CUPTI session channel closed"
  end.

(** [CuptiBootstrap]: the library that opened. *)
Section bootstrap.
Context (open : string → result unit string).

Definition CANDIDATES : list string :=
  ["libcupti.so"; "libcupti.so.12"; "libcupti.so.13"; "libcupti.so.11"; "cupti64.dll"].
Fixpoint install_from (cands : list string) (last_err : option string) : result string CuptiError :=
  match cands with
  | [] => Err (LibraryUnavailable (default "no libcupti candidates worked" last_err))
  | c :: cands => match open c with Ok _ => Ok c | Err e => install_from cands (Some e) end
  end.
Definition install : result string CuptiError := install_from CANDIDATES None.
Definition install_with_library_path (path : string) : result string CuptiError :=
  match open path with Ok _ => Ok path | Err e => Err (LibraryUnavailable e) end.

(** The first candidate that opens; if none does, the error of the last. *)
Lemma install_from_spec cands e c : install_from cands e = Ok c ↔ find (λ c, is_ok (open c)) cands = Some c.
Proof.
  revert e. induction cands as [|d cands IH]; intros e; [done|]. cbn [install_from find].
  destruct (open d); cbn [is_ok]; [split; by intros [= ->]|apply IH].
Qed.
Lemma install_error cands c err e : open c = Err err → Forall (λ c, is_ok (open c) = false) cands →
  install_from (cands ++ [c]) e = Err (LibraryUnavailable err).
Proof.
  intros Hc Hall. revert e. induction Hall as [|d cands Hd _ IH]; intros e; cbn; [by rewrite Hc|].
  destruct (open d); [done|apply IH].
Qed.
End bootstrap.

(** *** The session *)

Inductive CuptiMsg : Type :=
  | Start (categories : list ActivityCategory) (reply : nat)
  | Stop (reply : nat)
  | Drain (reply : nat).
Definition cupti_reply (m : CuptiMsg) : nat := match m with Start _ r | Stop r | Drain r => r end.

(** The records in the channel, the buffer of the task, and what it shares with others:
    the categories and the collector of samples. *)
Record Session := {
  records : list Activity;
  buffered : list Activity;
  samples : list Activity;
  categories : list ActivityCategory;
}.
Definition session_new : Session := {| records := []; buffered := []; samples := []; categories := [] |}.
Definition set_categories (cs : list ActivityCategory) (s : Session) : Session :=
  {| records := records s; buffered := buffered s; samples := samples s; categories := cs |}.
Definition set_records (rs bs : list Activity) (s : Session) : Session :=
  {| records := rs; buffered := bs; samples := samples s; categories := categories s |}.
Definition set_samples (bs ss : list Activity) (s : Session) : Session :=
  {| records := records s; buffered := bs; samples := ss; categories := categories s |}.

Inductive CuptiEff : Type :=
  | ReplyUnit (reply : nat) (r : result unit CuptiError)
  | ReplyRecords (reply : nat) (r : result (list Activity) CuptiError)
  (** A record or sample enters the channel or the collector, or is dropped with a warning. *)
  | Accepted (a : Activity)
  | Dropped (a : Activity).
Definition cupti_answers (e : CuptiEff) : list nat :=
  match e with ReplyUnit r _ | ReplyRecords r _ => [r] | Accepted _ | Dropped _ => [] end.

Abbreviation cact := (act Session CuptiEff).

Definition cupti_msg (m : CuptiMsg) : cact bool :=
  match m with
  | Start cs reply => modify (set_categories cs);; emit (ReplyUnit reply (Ok ()));; mret true
  | Stop reply => modify (set_categories []);; emit (ReplyUnit reply (Ok ()));; mret true
  | Drain reply =>
    s ← get;
    put (set_samples [] [] s);;
    emit (ReplyRecords reply (Ok (buffered s ++ samples s)));; mret true
  end.
(** [record_rx.recv()]; the sink the task itself holds keeps the channel open. *)
Definition cupti_idle (_ : unit) : cact unit :=
  s ← get;
  match records s with
  | [] => skip
  | r :: rs => put (set_records rs (buffered s ++ [r]) s)
  end.

(** [ActivitySink::push] and [RangeProfilerCollector::push], which others call. *)
Inductive Push : Type := PushActivity (a : Activity) | PushSample (a : Activity).
Definition RECORD_CAPACITY : nat := 4096.
Definition has_room (s : Session) : bool := length (records s) <? RECORD_CAPACITY.
Definition push (alive : bool) (p : Push) : cact unit :=
  match p with
  | PushActivity a =>
    s ← get;
    if alive && has_room s
    then put (set_records (records s ++ [a]) (buffered s) s);; emit (Accepted a)
    else emit (Dropped a)
  | PushSample a =>
    if is_sample a
    then modify (λ s, set_samples (buffered s) (samples s ++ [a]) s);; emit (Accepted a)
    else emit (Dropped a)
  end.

Abbreviation CuptiTask := (Task CuptiMsg Session).
Abbreviation CuptiCmd := (Cmd CuptiMsg unit Push).
Abbreviation CuptiOut := (TaskEff CuptiMsg CuptiEff).
#[global] Instance cupti_actor : Actor CuptiTask CuptiCmd CuptiOut := task_actor 256 cupti_msg cupti_idle push.
Definition cupti_spawn : CuptiTask := task_new session_new.

Lemma cupti_answers_once : answers_once cupti_reply cupti_msg cupti_answers.
Proof. by intros [cs r|r|r] s. Qed.
Lemma cupti_quiet : quiet cupti_idle push cupti_answers.
Proof.
  split.
  - intros [] s. unfold cupti_idle. act_unfold. by destruct (records s).
  - intros b [a|a] s; unfold push; act_unfold; [destruct (b && has_room s)|destruct (is_sample a)]; done.
Qed.

Definition accepted (e : CuptiOut) : list Activity := match e with Did (Accepted a) => [a] | _ => [] end.
Definition drained (e : CuptiOut) : list Activity :=
  match e with Did (ReplyRecords _ (Ok l)) => l | _ => [] end.
Definition unread (s : Session) : list Activity := buffered s ++ samples s ++ records s.

Lemma did_accepted es : (Did <$> es : list CuptiOut) ≫= accepted = es ≫= λ e, accepted (Did e).
Proof. induction es as [|e es IH]; [done|]. cbn. by rewrite IH. Qed.
Lemma did_drained es : (Did <$> es : list CuptiOut) ≫= drained = es ≫= λ e, drained (Did e).
Proof. induction es as [|e es IH]; [done|]. cbn. by rewrite IH. Qed.
Lemma lost_nothing (ms : list CuptiMsg) :
  (Lost <$> ms : list CuptiOut) ≫= accepted = [] ∧ (Lost <$> ms : list CuptiOut) ≫= drained = [].
Proof. induction ms as [|m ms [IH1 IH2]]; [done|]. cbn. by rewrite IH1, IH2. Qed.

Lemma msg_conserves m s : let '(b, s', es) := cupti_msg m s in
  b = true ∧ es ≫= (λ e, accepted (Did e)) = [] ∧ unread s ≡ₚ (es ≫= λ e, drained (Did e)) ++ unread s'.
Proof.
  destruct m as [cs r|r|r]; unfold cupti_msg, unread; act_unfold; split_and!; try done.
  by rewrite app_nil_r, <-app_assoc.
Qed.
Lemma idle_conserves x s : let '(_, s', es) := cupti_idle x s in es = [] ∧ unread s ≡ₚ unread s'.
Proof.
  unfold cupti_idle, unread. act_unfold. destruct (records s) as [|r rs] eqn:Hr; cbn; [by rewrite Hr|].
  split; [done|]. by rewrite <-Permutation_middle, <-app_assoc.
Qed.
Lemma push_conserves b p s : let '(_, s', es) := push b p s in
  es ≫= (λ e, drained (Did e)) = [] ∧ unread s ++ (es ≫= λ e, accepted (Did e)) ≡ₚ unread s'.
Proof.
  destruct p as [a|a]; unfold push, unread; act_unfold; [destruct (b && has_room s)|destruct (is_sample a)];
    cbn; (split; [done|]); rewrite ?app_nil_r; try done.
  - by rewrite <-!app_assoc.
  - rewrite <-!app_assoc. do 2 f_equiv. by rewrite Permutation_app_comm.
Qed.

Lemma cupti_step_conserves (t : CuptiTask) c : let '(t', es) := handle t c in
  unread (t_state t) ++ (es ≫= accepted) ≡ₚ (es ≫= drained) ++ unread (t_state t').
Proof.
  assert (Hnil : ∀ s : Session, unread s ++ [] ≡ₚ [] ++ unread s) by (intros s; by rewrite app_nil_r).
  unfold handle, cupti_actor, task_actor, task_step. destruct c as [m| | |x|p].
  - destruct (running t); cbn [negb]; [destruct (_ <? _)|]; apply Hnil.
  - apply Hnil.
  - destruct (lost_nothing (queue t)) as [-> ->]. apply Hnil.
  - destruct (running t); cbn [negb]; [|apply Hnil]. destruct (queue t) as [|m q].
    + destruct (closed t); [apply Hnil|]. pose proof (idle_conserves x (t_state t)) as H.
      destruct (cupti_idle x (t_state t)) as [[[] s'] es]. destruct H as [-> H]. cbn. by rewrite app_nil_r.
    + pose proof (msg_conserves m (t_state t)) as H. destruct (cupti_msg m (t_state t)) as [[b s'] es].
      destruct H as (->&Ha&H). rewrite did_accepted, did_drained, Ha, app_nil_r. done.
  - pose proof (push_conserves (running t) p (t_state t)) as H.
    destruct (push (running t) p (t_state t)) as [[[] s'] es]. destruct H as [Hd H].
    rewrite did_accepted, did_drained, Hd. done.
Qed.

(** Whatever is sent, pushed and dropped: the records and samples that were accepted are
    those that drains have returned and those not yet read, so none is returned twice or
    lost before a drain; and every request is answered once, dropped or still waiting. *)
Theorem cupti_conserves cs : let '(t, es) := run_actor cupti_spawn cs in
  es ≫= accepted ≡ₚ (es ≫= drained) ++ unread (t_state t) ∧
  cs ≫= cmd_replies cupti_reply ≡ₚ (es ≫= eff_replies cupti_reply cupti_answers) ++ (cupti_reply <$> queue t).
Proof.
  pose proof (task_replies 256 cupti_reply cupti_msg cupti_idle push cupti_answers session_new cs
    cupti_answers_once cupti_quiet) as Hr.
  assert (∀ t, let '(t', es) := run_actor t cs in
    unread (t_state t) ++ (es ≫= accepted) ≡ₚ (es ≫= drained) ++ unread (t_state t')) as H.
  { clear Hr. induction cs as [|c cs IH]; intros t; cbn [run_actor]; [by rewrite app_nil_r|].
    pose proof (cupti_step_conserves t c) as Hc. destruct (handle t c) as [t1 e1]. specialize (IH t1).
    destruct (run_actor t1 cs) as [t2 e2]. rewrite !bind_app, <-app_assoc, <-IH, !app_assoc.
    by rewrite Hc. }
  specialize (H cupti_spawn). unfold cupti_actor, cupti_spawn in *. destruct (run_actor (task_new session_new) cs) as [t es].
  split; [exact H|exact Hr].
Qed.

(** A drain returns what the task has taken from the channel: a record that is still in
    the channel is not among it. *)
Example drain_misses_channel : ∀ a, is_sample a = false →
  (run_actor cupti_spawn [Outside (PushActivity a); Send (Drain 1); Turn (); Turn (); Send (Drain 2); Turn ()]).2
  = [Did (Accepted a); Did (ReplyRecords 1 (Ok [])); Did (ReplyRecords 2 (Ok [a]))].
Proof. done. Qed.

(** The categories of a session decide nothing: whatever they are, the same commands
    have the same effects. *)
Definition recat (cats : list ActivityCategory) (t : CuptiTask) : CuptiTask :=
  with_state (set_categories cats (t_state t)) t.

Lemma recat_step t cats c : ∃ cats', handle (recat cats t) c = (recat cats' (handle t c).1, (handle t c).2).
Proof.
  unfold handle, cupti_actor, task_actor. destruct t as [q cl rn [rs bs ss ks]]. destruct c as [m| | |x|p]; cbn -[push].
  - destruct rn; cbn; [case_match|]; by exists cats.
  - by exists cats.
  - by exists cats.
  - destruct rn; cbn; [|by exists cats]. destruct q as [|m q].
    + destruct cl; [by exists cats|]. destruct rs; by exists cats.
    + destruct m as [cs r|r|r]; cbn.
      * by exists cs.
      * by exists [].
      * by exists cats.
  - exists cats. destruct p as [a|a]; unfold push; act_unfold; [|by destruct (is_sample a)].
    change (has_room {| records := rs; buffered := bs; samples := ss; categories := cats |})
      with (has_room {| records := rs; buffered := bs; samples := ss; categories := ks |}).
    by destruct (rn && has_room _).
Qed.
Lemma categories_ignored cs t cats : (run_actor (recat cats t) cs).2 = (run_actor t cs).2.
Proof.
  revert t cats. induction cs as [|c cs IH]; intros t cats; [done|]. cbn [run_actor].
  destruct (recat_step t cats c) as [cats' ->]. destruct (handle t c) as [t1 e1]. cbn [fst snd]. specialize (IH t1 cats').
  destruct (run_actor (recat cats' t1) cs), (run_actor t1 cs). cbn in *. by subst.
Qed.
End Cupti.

(** ** Counters *)

Module GpuProbes.

(** [u64] counters saturate. *)
Definition sat_add (w x y : Z) : Z := Z.min (2 ^ w - 1) (x + y).

Record GpuProbeState := {
  allocations_total : Z;
  oom_total : Z;
  max_generation_observed : Z;
  kernels_in_flight : Z;
  kernels_total : Z;
  vram_free_bytes : Z;
  vram_total_bytes : Z;
}.
Definition GpuProbes_new : GpuProbeState :=
  {| allocations_total := 0; oom_total := 0; max_generation_observed := 0; kernels_in_flight := 0;
     kernels_total := 0; vram_free_bytes := 0; vram_total_bytes := 0 |}.

(** The methods; each holds the lock from its first to its last access. *)
Inductive Probe : Type :=
  | RecordAllocOk
  | RecordAllocOom
  | RecordGeneration (gen : Z)
  | KernelEnter
  | KernelExit
  | RecordVram (free total : Z).

Definition record_alloc_ok (g : GpuProbeState) : GpuProbeState :=
  {| allocations_total := sat_add 64 (allocations_total g) 1; oom_total := oom_total g;
     max_generation_observed := max_generation_observed g; kernels_in_flight := kernels_in_flight g;
     kernels_total := kernels_total g; vram_free_bytes := vram_free_bytes g; vram_total_bytes := vram_total_bytes g |}.
Definition record_alloc_oom (g : GpuProbeState) : GpuProbeState :=
  {| allocations_total := allocations_total g; oom_total := sat_add 64 (oom_total g) 1;
     max_generation_observed := max_generation_observed g; kernels_in_flight := kernels_in_flight g;
     kernels_total := kernels_total g; vram_free_bytes := vram_free_bytes g; vram_total_bytes := vram_total_bytes g |}.
Definition record_generation (gen : Z) (g : GpuProbeState) : GpuProbeState :=
  if (max_generation_observed g <? gen)%Z
  then {| allocations_total := allocations_total g; oom_total := oom_total g; max_generation_observed := gen;
          kernels_in_flight := kernels_in_flight g; kernels_total := kernels_total g;
          vram_free_bytes := vram_free_bytes g; vram_total_bytes := vram_total_bytes g |}
  else g.
Definition kernel_enter (g : GpuProbeState) : GpuProbeState :=
  {| allocations_total := allocations_total g; oom_total := oom_total g;
     max_generation_observed := max_generation_observed g;
     kernels_in_flight := sat_add 32 (kernels_in_flight g) 1; kernels_total := sat_add 64 (kernels_total g) 1;
     vram_free_bytes := vram_free_bytes g; vram_total_bytes := vram_total_bytes g |}.
Definition kernel_exit (g : GpuProbeState) : GpuProbeState :=
  {| allocations_total := allocations_total g; oom_total := oom_total g;
     max_generation_observed := max_generation_observed g;
     kernels_in_flight := sat_sub (kernels_in_flight g) 1; kernels_total := kernels_total g;
     vram_free_bytes := vram_free_bytes g; vram_total_bytes := vram_total_bytes g |}.
Definition record_vram (free total : Z) (g : GpuProbeState) : GpuProbeState :=
  {| allocations_total := allocations_total g; oom_total := oom_total g;
     max_generation_observed := max_generation_observed g; kernels_in_flight := kernels_in_flight g;
     kernels_total := kernels_total g; vram_free_bytes := free; vram_total_bytes := total |}.

Definition probe_step (g : GpuProbeState) (p : Probe) : GpuProbeState :=
  match p with
  | RecordAllocOk => record_alloc_ok g
  | RecordAllocOom => record_alloc_oom g
  | RecordGeneration gen => record_generation gen g
  | KernelEnter => kernel_enter g
  | KernelExit => kernel_exit g
  | RecordVram free total => record_vram free total g
  end.
Definition probe_run (ps : list Probe) : GpuProbeState := foldl probe_step GpuProbes_new ps.

#[global] Instance Probe_eq_dec : EqDecision Probe.
Proof. solve_decision. Defined.
Definition count (p : Probe) (ps : list Probe) : Z := Z.of_nat (length (filter (p =.) ps)).
Definition generations (ps : list Probe) : list Z :=
  ps ≫= λ p, match p with RecordGeneration g => [g] | _ => [] end.
Definition vram (ps : list Probe) : Z * Z :=
  foldl (λ v p, match p with RecordVram f t => (f, t) | _ => v end) (0, 0)%Z ps.

Lemma probe_count_app p ps qs : count p (ps ++ qs) = (count p ps + count p qs)%Z.
Proof. unfold count. rewrite filter_app, length_app. lia. Qed.
Lemma count_nonneg p ps : (0 ≤ count p ps)%Z.
Proof. unfold count. lia. Qed.

Lemma count_single p q : count p [q] = Z.b2z (bool_decide (p = q)).
Proof. unfold count. rewrite filter_cons. case_decide; by rewrite ?bool_decide_true, ?bool_decide_false by done. Qed.
Ltac count_events := rewrite ?count_single; repeat match goal with
  | |- context [bool_decide (?a = ?b)] =>
    first [rewrite (bool_decide_true (a = b)) by done | rewrite (bool_decide_false (a = b)) by done]
  end; cbn -[Z.pow count].

(** Below their limits the counters are the numbers of the events, the generation is the
    largest seen, and the memory is the last report. *)
Lemma probes_count ps :
  allocations_total (probe_run ps) = Z.min (2 ^ 64 - 1) (count RecordAllocOk ps) ∧
  oom_total (probe_run ps) = Z.min (2 ^ 64 - 1) (count RecordAllocOom ps) ∧
  kernels_total (probe_run ps) = Z.min (2 ^ 64 - 1) (count KernelEnter ps) ∧
  max_generation_observed (probe_run ps) = foldl Z.max 0%Z (generations ps) ∧
  (vram_free_bytes (probe_run ps), vram_total_bytes (probe_run ps)) = vram ps.
Proof.
  unfold probe_run, vram. induction ps as [|p ps IH] using rev_ind; [done|].
  rewrite !probe_count_app. unfold generations in *. rewrite bind_app, !foldl_app.
  set (g := foldl probe_step GpuProbes_new ps) in *. destruct IH as (A1&A2&A3&A4&A5).
  pose proof (count_nonneg RecordAllocOk ps) as N1. pose proof (count_nonneg RecordAllocOom ps) as N2.
  pose proof (count_nonneg KernelEnter ps) as N3.
  destruct p as [| |gen| | |f t]; cbn [foldl probe_step]; rewrite ?bind_singleton; count_events;
    unfold record_generation, sat_add; try destruct (Z.ltb_spec (max_generation_observed g) gen); cbn -[Z.pow count];
    rewrite ?A1, ?A2, ?A3, ?A4, ?A5; split_and!; try done; lia.
Qed.

(** While exits do not outnumber entries and no more than [2^32 - 1] kernels are in
    flight, the gauge is their difference. *)
Lemma in_flight_exact ps :
  (∀ k, 0 ≤ count KernelEnter (take k ps) - count KernelExit (take k ps) < 2 ^ 32)%Z →
  kernels_in_flight (probe_run ps) = (count KernelEnter ps - count KernelExit ps)%Z.
Proof.
  unfold probe_run. induction ps as [|p ps IH] using rev_ind; intros Hb; [done|].
  assert (Hpre : ∀ k, (0 ≤ count KernelEnter (take k ps) - count KernelExit (take k ps) < 2 ^ 32)%Z).
  { intros k. specialize (Hb (k `min` length ps)). rewrite take_app_le in Hb by lia.
    destruct (decide (k ≤ length ps)); [by rewrite Nat.min_l in Hb by lia|].
    rewrite Nat.min_r in Hb by lia. rewrite firstn_all in Hb. by rewrite take_ge by lia. }
  specialize (IH Hpre). specialize (Hpre (length ps)). rewrite firstn_all in Hpre.
  specialize (Hb (length (ps ++ [p]))). rewrite firstn_all, !probe_count_app in Hb. rewrite foldl_app, !probe_count_app.
  set (g := foldl probe_step GpuProbes_new ps) in *. cbn [foldl]. revert Hb.
  destruct p as [| |gen| | |f t]; count_events; unfold record_generation, sat_add, sat_sub;
    try case_match; cbn -[Z.pow count]; lia.
Qed.
End GpuProbes.
