(* ===== verification/CubKernels.v ===== *)
(** * The CUDA kernels of the CUB actor

    Models the kernels whose text [crates/atomr-accel-cub/src/kernels/mod.rs]
    emits: reduction, scan, radix sort, histogram, select, partition and segmented
    reduction.  A kernel is the list of the writes its threads do; a buffer after
    a launch is the result of those writes in some order, and a theorem about a
    launch covers every order.  [block] and [items] are the two template parameters.

    The block-wide collectives of the CUB library are an interface ([CubBlock])
    whose law ([CubLaw]) is their documentation: a collective takes each thread's
    items in {e blocked} order, thread 0's items first. *)

From S2P Require Import Prelude Float64.

(** ** Memory *)

(** The writes of a launch in some order. *)
Definition stored {T} (ws : writes T) (b b' : list T) : Prop := ∃ order, order ≡ₚ ws ∧ b' = write_all order b.

Lemma stored_length {T} (ws : writes T) b b' : stored ws b b' → length b' = length b.
Proof. intros (o & _ & ->). apply write_all_length. Qed.

(** Distinct targets: the order of the threads does not matter. *)
Lemma stored_at {T} (ws : writes T) b b' p x :
  stored ws b b' → NoDup ws.*1 → (p, x) ∈ ws → p < length b → b' !! p = Some x.
Proof. intros (o & Ho & ->) Hd Hin Hp. apply write_all_at; [by rewrite Ho|by rewrite Ho|done]. Qed.

Lemma stored_other {T} (ws : writes T) b b' p : stored ws b b' → p ∉ ws.*1 → b' !! p = b !! p.
Proof. intros (o & Ho & ->) Hp. apply write_all_other. by rewrite Ho. Qed.

Lemma stored_deterministic {T} (ws : writes T) b b1 b2 :
  NoDup ws.*1 → stored ws b b1 → stored ws b b2 → b1 = b2.
Proof.
  intros Hd H1 H2. apply list_eq. intros p. destruct (decide (p ∈ ws.*1)) as [Hp|Hp].
  - apply list_elem_of_fmap in Hp as ([q x] & -> & Hin). cbn. destruct (decide (q < length b)).
    + by rewrite (stored_at ws b b1 q x), (stored_at ws b b2 q x).
    + rewrite !lookup_ge_None_2; [done|rewrite (stored_length ws b b2); [lia|done]|rewrite (stored_length ws b b1); [lia|done]].
  - by rewrite (stored_other ws b b1), (stored_other ws b b2).
Qed.

(** ** Prefix sums *)

(** The sums before each element, or up to it. *)
Fixpoint scan_from {T} (exclusive : bool) (add : T → T → T) (acc : T) (l : list T) : list T :=
  match l with
  | [] => []
  | x :: l => (if exclusive then acc else add acc x) :: scan_from exclusive add (add acc x) l
  end.

Lemma scan_from_length {T} ex (add : T → T → T) acc l : length (scan_from ex add acc l) = length l.
Proof. revert acc. induction l as [|x l IH]; intros acc; cbn; [done|]. by rewrite IH. Qed.

Lemma scan_from_lookup {T} (ex : bool) (add : T → T → T) acc l p x : l !! p = Some x →
  scan_from ex add acc l !! p = Some (if ex then foldl add acc (take p l) else foldl add acc (take (S p) l)).
Proof.
  revert acc p. induction l as [|y l IH]; intros acc [|p] Hp; simplify_eq/=; [by destruct ex|by apply IH].
Qed.

(** ** The collectives of CUB *)

Class CubBlock := {
  block_reduce {T} : (T → T → T) → list (list T) → option T;
  block_scan {T} : bool → (T → T → T) → T → list (list T) → list (list T) * T;
  block_sort {K V} : (K → K → bool) → list (list (K * V)) → list (list (K * V));
}.

(** Same number of items for each thread. *)
Definition shape {A B} (rows : list (list A)) (rows' : list (list B)) : Prop := length <$> rows = length <$> rows'.

Class CubLaw `{!CubBlock} : Prop := {
  (** an associative and commutative reduction, in whatever order *)
  block_reduce_ok {T} (op : T → T → T) rows x l : Assoc (=) op → Comm (=) op →
    mjoin rows = x :: l → block_reduce op rows = Some (foldl op x l);
  block_scan_ok {T} ex (add : T → T → T) zero rows : Assoc (=) add → LeftId (=) zero add →
    shape (block_scan ex add zero rows).1 rows ∧
    mjoin (block_scan ex add zero rows).1 = scan_from ex add zero (mjoin rows) ∧
    (block_scan ex add zero rows).2 = foldl add zero (mjoin rows);
  (** keys in order; the sort is stable *)
  block_sort_ok {K V} (le : K → K → bool) (rows : list (list (K * V))) :
    Total le → Transitive le →
    shape (block_sort le rows) rows ∧ mjoin (block_sort le rows) ≡ₚ mjoin rows ∧
    Sorted (λ a b, le a.1 b.1) (mjoin (block_sort le rows)) ∧
    ∀ k, filter (λ a, le a.1 k ∧ le k a.1) (mjoin (block_sort le rows)) = filter (λ a, le a.1 k ∧ le k a.1) (mjoin rows);
}.

(** *** A reference implementation *)

Section reference.
Context {K V : Type} (le : K → K → bool).

Fixpoint insert_by (x : K * V) (l : list (K * V)) : list (K * V) :=
  match l with [] => [x] | y :: l' => if le x.1 y.1 then x :: l else y :: insert_by x l' end.
Definition sort_by (l : list (K * V)) : list (K * V) := foldr insert_by [] l.

Lemma insert_by_perm x l : insert_by x l ≡ₚ x :: l.
Proof. induction l as [|y l IH]; cbn; [done|]. destruct (le _ _); [done|]. rewrite IH. constructor. Qed.
Lemma sort_by_perm l : sort_by l ≡ₚ l.
Proof. induction l as [|x l IH]; cbn; [done|]. by rewrite insert_by_perm, IH. Qed.

Lemma insert_by_hd (x y : K * V) l : le x.1 y.1 = false → Total le → HdRel (λ a b, le a.1 b.1) y l → 
  HdRel (λ a b, le a.1 b.1) y (insert_by x l).
Proof.
  intros Hxy Ht Hl. assert (Hyx : le y.1 x.1).
  { destruct (Ht y.1 x.1) as [?|Hx]; [done|]. by rewrite Hxy in Hx. }
  destruct l as [|z l]; cbn; [by constructor|]. destruct (le x.1 z.1); [by constructor|].
  inversion Hl; subst. by constructor.
Qed.

Lemma sort_by_sorted l : Total le → Sorted (λ a b, le a.1 b.1) (sort_by l).
Proof.
  intros Ht. induction l as [|x l IH]; cbn; [constructor|]. fold (sort_by l). revert IH. generalize (sort_by l). clear l.
  intros l. induction l as [|y l IH]; intros Hs; cbn; [by repeat constructor|]. inversion Hs as [|?? Hs' Hh]; subst.
  destruct (le x.1 y.1) eqn:Hxy.
  - constructor; [done|]. constructor. by rewrite Hxy.
  - constructor; [by apply IH|by apply insert_by_hd].
Qed.

Lemma insert_by_stable k x l : Transitive le →
  filter (λ a, le a.1 k ∧ le k a.1) (insert_by x l) = filter (λ a, le a.1 k ∧ le k a.1) (x :: l).
Proof.
  intros Htr. induction l as [|y l IH]; cbn; [done|]. destruct (le x.1 y.1) eqn:Hxy; [done|].
  rewrite !filter_cons, IH, filter_cons. case_decide as Hy; case_decide as Hx; try done.
  destruct Hx as [Hx _], Hy as [_ Hy]. assert (Hle : le x.1 y.1) by (by etransitivity). by rewrite Hxy in Hle.
Qed.
Lemma sort_by_stable k l : Transitive le →
  filter (λ a, le a.1 k ∧ le k a.1) (sort_by l) = filter (λ a, le a.1 k ∧ le k a.1) l.
Proof. intros Htr. induction l as [|x l IH]; [done|]. cbn [sort_by foldr]. fold (sort_by l). by rewrite insert_by_stable, !filter_cons, IH. Qed.
End reference.

Definition as_rows {A B} (rows : list (list A)) (l : list B) : list (list B) := reshape (length <$> rows) l.

Lemma as_rows_join {A B} (rows : list (list A)) (l : list B) : length l = length (mjoin rows) →
  shape (as_rows rows l) rows ∧ mjoin (as_rows rows l) = l.
Proof.
  intros Hl. rewrite length_join in Hl. split; [|by apply join_reshape]. unfold shape, as_rows.
  revert l Hl. induction rows as [|r rows IH]; intros l Hl; [done|]. cbn in *. rewrite length_take.
  f_equal; [lia|]. apply IH. rewrite length_drop. lia.
Qed.

#[global] Instance cub_reference : CubBlock := {
  block_reduce T op rows := match mjoin rows with [] => None | x :: l => Some (foldl op x l) end;
  block_scan T ex add zero rows := (as_rows rows (scan_from ex add zero (mjoin rows)), foldl add zero (mjoin rows));
  block_sort K V le rows := as_rows rows (sort_by le (mjoin rows));
}.
#[global] Instance cub_reference_law : CubLaw.
Proof.
  split; cbn.
  - intros T op rows x l _ _ ->. done.
  - intros T ex add zero rows _ _. destruct (as_rows_join rows (scan_from ex add zero (mjoin rows))); [|done].
    apply scan_from_length.
  - intros K V le rows Ht Htr. destruct (as_rows_join rows (sort_by le (mjoin rows))) as [Hs ->]; [by rewrite sort_by_perm|].
    split; [done|]. split; [apply sort_by_perm|]. split; [by apply sort_by_sorted|]. intros k. by apply sort_by_stable.
Qed.

(** ** A tile: [items] items for each of [block] threads *)

Section tile.
Context (block items : nat).

Definition tile : nat := block * items.
(** Per thread and item. *)
Definition each {A} (f : nat → nat → A) : list (list A) := (λ t, f t <$> seq 0 items) <$> seq 0 block.
Definition item {A} (rows : list (list A)) (t i : nat) : option A := (rows !! t) ≫= (.!! i).
(** [base + threadIdx.x + i * blockDim.x]: the items of a thread are striped. *)
Definition idx (base t i : nat) : nat := base + t + i * block.
Definition load {T} (pad : T) (d : list T) (n base : nat) : list (list T) :=
  each (λ t i, if idx base t i <? n then nth (idx base t i) d pad else pad).
(** [if (idx < n) d_out[idx] = data[i]] *)
Definition store_one {T} (n base : nat) (rows : list (list T)) (t i : nat) : writes T :=
  if idx base t i <? n then match item rows t i with Some x => [(idx base t i, x)] | None => [] end else [].
Definition stores {T} (n base : nat) (rows : list (list T)) : writes T := mjoin (mjoin (each (store_one n base rows))).
(** The writes of the blocks of a grid. *)
Definition on_grid {A} (grid : nat) (kernel : nat → list A) : list A := seq 0 grid ≫= kernel.

Lemma each_rows {A} (f : nat → nat → A) : Forall (λ l, length l = items) (each f).
Proof. apply Forall_fmap, Forall_forall. intros t _. cbn. by rewrite length_fmap, length_seq. Qed.

Lemma shape_rows {A} {f : nat → nat → A} {B} (rows : list (list B)) : shape rows (each f) → Forall (λ l, length l = items) rows.
Proof.
  unfold shape. intros Hs. apply Forall_forall. intros l Hl. assert (Hin : length l ∈ length <$> each f).
  { rewrite <-Hs. by apply list_elem_of_fmap_2. }
  apply list_elem_of_fmap in Hin as (l' & -> & Hl'). pose proof (each_rows f) as H. rewrite Forall_forall in H. by apply H.
Qed.

(** The blocked position of an item. *)
Lemma item_blocked {A B} (f : nat → nat → A) (rows : list (list B)) t i : shape rows (each f) → i < items →
  item rows t i = mjoin rows !! (t * items + i).
Proof.
  intros Hs Hi. apply option_eq. intros x. rewrite join_lookup_Some_same_length' by (done || by eapply shape_rows).
  unfold item. destruct (rows !! t); cbn; naive_solver.
Qed.

Lemma each_item {A} (f : nat → nat → A) t i : t < block → i < items → item (each f) t i = Some (f t i).
Proof.
  intros Ht Hi. unfold item, each. rewrite list_lookup_fmap, lookup_seq_lt by done. cbn.
  by rewrite list_lookup_fmap, lookup_seq_lt.
Qed.

Lemma length_each {A} (f : nat → nat → A) : length (mjoin (each f)) = tile.
Proof.
  rewrite length_join, (sum_list_fmap_same items) by apply each_rows. unfold each, tile. by rewrite length_fmap, length_seq.
Qed.

(** All tiles have the same shape. *)
Lemma each_shape {A B} (f : nat → nat → A) (g : nat → nat → B) : shape (each f) (each g).
Proof.
  unfold shape, each. rewrite <-!list_fmap_compose. apply list_fmap_ext. intros k s _. cbn. by rewrite !length_fmap.
Qed.

Lemma shape_length {A B} (f : nat → nat → A) (rows : list (list B)) : shape rows (each f) → length (mjoin rows) = tile.
Proof. intros Hs. rewrite length_join, Hs, <-length_join. apply length_each. Qed.

Lemma shape_item {A B} (f : nat → nat → A) (rows : list (list B)) t i : shape rows (each f) → t < block → i < items →
  is_Some (item rows t i).
Proof.
  intros Hs Ht Hi. erewrite item_blocked by done. apply lookup_lt_is_Some_2. erewrite shape_length by done. unfold tile. nia.
Qed.

(** A tile is known by its items. *)
Lemma each_unique {A B} (g : nat → nat → A) (f : nat → nat → B) rows : shape rows (each g) →
  (∀ t i, t < block → i < items → item rows t i = Some (f t i)) → mjoin rows = mjoin (each f).
Proof.
  intros Hs Hf. assert (Hl : length (mjoin rows) = tile) by by eapply shape_length.
  apply list_eq. intros q. destruct (decide (q < tile)) as [Hq|Hq].
  2:{ rewrite !lookup_ge_None_2; [done|rewrite length_each; lia|lia]. }
  unfold tile in Hq. assert (items ≠ 0) by nia. pose proof (Nat.div_mod q items) as Hdiv.
  pose proof (Nat.mod_upper_bound q items) as Hmod.
  assert (Ht : q / items < block) by (apply Nat.Div0.div_lt_upper_bound; lia).
  replace q with (q / items * items + q mod items) by lia.
  rewrite <-(item_blocked _ _ _ _ Hs), <-(item_blocked f (each f)) by (lia || apply each_shape).
  rewrite each_item, Hf by lia. done.
Qed.

(** The striped positions of a tile are those of an interval. *)
Lemma idx_decompose base p : base ≤ p < base + tile →
  ∃ t i, t < block ∧ i < items ∧ p = idx base t i.
Proof.
  unfold tile, idx. intros Hp. assert (block ≠ 0) by nia.
  exists ((p - base) mod block), ((p - base) / block). pose proof (Nat.div_mod (p - base) block). split_and!.
  - by apply Nat.mod_upper_bound.
  - apply Nat.Div0.div_lt_upper_bound. lia.
  - lia.
Qed.

Lemma idx_inj base t i t' i' : t < block → t' < block → idx base t i = idx base t' i' → t = t' ∧ i = i'.
Proof. unfold idx. intros Ht Ht' H. assert (i = i') by nia. subst. lia. Qed.

Lemma idx_perm base : mjoin (each (idx base)) ≡ₚ seq base tile.
Proof.
  rewrite list_join_bind. unfold each. rewrite list_fmap_bind. apply NoDup_Permutation.
  - apply NoDup_bind; [| |apply NoDup_seq].
    + intros t t' p Ht Ht' H H'. cbn in H, H'. apply list_elem_of_fmap in H as (i & -> & _).
      apply list_elem_of_fmap in H' as (i' & H' & _). rewrite elem_of_seq in Ht, Ht'.
      apply idx_inj in H' as [? _]; [done|lia|lia].
    + intros t Ht. rewrite elem_of_seq in Ht. apply NoDup_fmap_2_strong; [|apply NoDup_seq].
      intros i i' _ _ H. apply idx_inj in H as [_ ?]; [done|lia|lia].
  - apply NoDup_seq.
  - intros p. rewrite list_elem_of_bind, elem_of_seq. split.
    + intros (t & Hp & Ht). apply list_elem_of_fmap in Hp as (i & -> & Hi). rewrite elem_of_seq in Ht, Hi.
      unfold idx, tile. nia.
    + intros Hp. destruct (idx_decompose base p) as (t & i & Ht & Hi & ->); [done|]. exists t.
      rewrite elem_of_seq. split; [|lia]. apply list_elem_of_fmap_2. rewrite elem_of_seq. lia.
Qed.

Lemma each_fmap {A B} (f : nat → nat → A) (g : A → B) : mjoin (each (λ t i, g (f t i))) = g <$> mjoin (each f).
Proof.
  unfold each. generalize (seq 0 block). intros l. induction l as [|t l IH]; [done|].
  rewrite !fmap_cons. change (mjoin (?a :: ?b)) with (a ++ mjoin b). rewrite fmap_app, IH. f_equal.
  by rewrite <-list_fmap_compose.
Qed.
End tile.

Section grids.
Context (block items : nat).

Lemma elem_of_each {A} (f : nat → nat → A) x :
  x ∈ mjoin (each block items f) ↔ ∃ t i, t < block ∧ i < items ∧ x = f t i.
Proof.
  rewrite list_join_bind. unfold each. rewrite list_fmap_bind, list_elem_of_bind. setoid_rewrite elem_of_seq. split.
  - intros (t & Hx & Ht). apply list_elem_of_fmap in Hx as (i & -> & Hi). rewrite elem_of_seq in Hi. exists t, i. split_and!; [lia|lia|done].
  - intros (t & i & Ht & Hi & ->). exists t. split; [|lia]. apply list_elem_of_fmap_2. rewrite elem_of_seq. lia.
Qed.

Lemma elem_of_stores {T} n base (rows : list (list T)) p x :
  (p, x) ∈ stores block items n base rows ↔
  ∃ t i, t < block ∧ i < items ∧ p = idx block base t i ∧ p < n ∧ item rows t i = Some x.
Proof.
  unfold stores. rewrite list_elem_of_join. split.
  - intros (l & Hp & Hl). apply elem_of_each in Hl as (t & i & Ht & Hi & ->). unfold store_one in Hp.
    destruct (_ <? n) eqn:Hn; [|by apply elem_of_nil in Hp]. apply Nat.ltb_lt in Hn.
    destruct (item rows t i) as [y|] eqn:Hy; [|by apply elem_of_nil in Hp].
    apply list_elem_of_singleton in Hp as [= -> ->]. eauto 10.
  - intros (t & i & Ht & Hi & -> & Hn & Hx). exists (store_one block n base rows t i). split; [|apply elem_of_each; eauto].
    unfold store_one. rewrite (proj2 (Nat.ltb_lt _ _) Hn), Hx. by left.
Qed.

(** The targets of a tile's stores. *)
Lemma stores_targets {T A} (f : nat → nat → A) n base (rows : list (list T)) : shape rows (each block items f) →
  (stores block items n base rows).*1 = filter (λ p, p < n) (mjoin (each block items (idx block base))).
Proof.
  intros Hs. unfold stores.
  assert (H : ∀ t i, t < block → i < items → (store_one block n base rows t i).*1 = filter (λ p, p < n) [idx block base t i]).
  { intros t i Ht Hi. unfold store_one. destruct (shape_item block items f rows t i Hs Ht Hi) as [x ->].
    rewrite filter_cons. destruct (Nat.ltb_spec (idx block base t i) n); case_decide; try lia; done. }
  assert (Hjoin : ∀ l : list (list (nat * T)), (mjoin l).*1 = mjoin (fmap fst <$> l)).
  { induction l as [|w l IH]; [done|]. cbn. rewrite fmap_app. f_equal. exact IH. }
  assert (Hf : ∀ l : list nat, filter (λ p, p < n) l = mjoin ((λ p, filter (λ p, p < n) [p]) <$> l)).
  { induction l as [|p l IH]; [done|]. rewrite fmap_cons. change (mjoin (?a :: ?b)) with (a ++ mjoin b).
    rewrite <-IH, <-filter_app. done. }
  rewrite Hjoin, Hf, <-!each_fmap. f_equal. f_equal. unfold each. apply list_fmap_ext. intros k t Hk.
  apply lookup_seq in Hk as [-> Hk]. apply list_fmap_ext. intros k' i Hk'. apply lookup_seq in Hk' as [-> Hk'].
  by apply H.
Qed.

Lemma mjoin_cons {A} (l : list A) ls : mjoin (l :: ls) = l ++ mjoin ls.
Proof. done. Qed.

Lemma on_grid_perm {A} grid (f g : nat → list A) : (∀ b, b < grid → f b ≡ₚ g b) → on_grid grid f ≡ₚ on_grid grid g.
Proof.
  intros H. unfold on_grid. assert (Hs : ∀ b, b ∈ seq 0 grid → b < grid) by (intros b; rewrite elem_of_seq; lia).
  revert Hs. generalize (seq 0 grid). intros l. induction l as [|b l IH]; intros Hs; [done|]. rewrite !bind_cons.
  rewrite IH by (intros c Hc; apply Hs; by right). f_equiv. apply H, Hs. by left.
Qed.

Lemma on_grid_S {A} grid (f : nat → list A) : on_grid (S grid) f = on_grid grid f ++ f grid.
Proof. unfold on_grid. rewrite seq_S, bind_app, bind_singleton. done. Qed.

Lemma on_grid_singleton {A} grid (f : nat → A) : on_grid grid (λ b, [f b]) = f <$> seq 0 grid.
Proof. induction grid as [|grid IH]; [done|]. by rewrite on_grid_S, IH, seq_S, fmap_app. Qed.

Lemma grid_seq grid k : on_grid grid (λ b, seq (b * k) k) = seq 0 (grid * k).
Proof.
  induction grid as [|grid IH]; [done|]. rewrite on_grid_S, IH. replace (S grid * k) with (grid * k + k) by lia. by rewrite seq_app.
Qed.

Lemma on_grid_fmap {A B} grid (f : nat → list A) (g : A → B) : g <$> on_grid grid f = on_grid grid (λ b, g <$> f b).
Proof. induction grid as [|grid IH]; [done|]. by rewrite !on_grid_S, fmap_app, IH. Qed.

Lemma grid_idx grid :
  on_grid grid (λ b, mjoin (each block items (idx block (b * tile block items)))) ≡ₚ seq 0 (grid * tile block items).
Proof. rewrite <-grid_seq. apply on_grid_perm. intros b _. apply idx_perm. Qed.

(** No two threads of a grid store to the same place. *)
Lemma grid_stores_distinct {T A} (f : nat → nat → A) n grid (rows : nat → list (list T)) :
  (∀ b, b < grid → shape (rows b) (each block items f)) →
  NoDup (on_grid grid (λ b, stores block items n (b * tile block items) (rows b))).*1.
Proof.
  intros Hs. rewrite on_grid_fmap.
  assert (H : on_grid grid (λ b, (stores block items n (b * tile block items) (rows b)).*1) ≡ₚ
              filter (λ p, p < n) (seq 0 (grid * tile block items))).
  { rewrite <-grid_idx. clear -Hs. induction grid as [|grid IH]; [done|]. rewrite !on_grid_S, filter_app, IH by (intros; apply Hs; lia).
    f_equiv. erewrite stores_targets; [done|]. apply Hs. lia. }
  rewrite H. apply NoDup_filter, NoDup_seq.
Qed.

Lemma elem_of_on_grid {A} grid (f : nat → list A) x : x ∈ on_grid grid f ↔ ∃ b, b < grid ∧ x ∈ f b.
Proof. unfold on_grid. rewrite list_elem_of_bind. setoid_rewrite elem_of_seq. split; intros (b & ? & ?); exists b; split; (done || lia). Qed.
End grids.

(** What a tile loads, up to the order of its threads. *)
Lemma load_perm {T} block items (pad : T) d base :
  mjoin (load block items pad d (length d) base) ≡ₚ (λ p, nth p d pad) <$> seq base (tile block items).
Proof.
  unfold load. rewrite (each_fmap block items (idx block base) (λ p, if p <? length d then nth p d pad else pad)), idx_perm.
  erewrite list_fmap_ext; [done|]. intros _ p _. cbv beta. destruct (Nat.ltb_spec p (length d)); [done|]. by rewrite nth_overflow.
Qed.

Lemma nth_seq {T} (pad : T) d base k :
  (λ p, nth p d pad) <$> seq base k = take k (drop base d) ++ replicate (k - (length d - base)) pad.
Proof.
  revert base. induction k as [|k IH]; intros base; [done|]. cbn [seq]. rewrite fmap_cons, IH.
  destruct (Nat.lt_ge_cases base (length d)) as [Hb|Hb].
  - destruct (lookup_lt_is_Some_2 d base Hb) as [x Hx]. rewrite (drop_S _ _ _ Hx). cbn. f_equal; [by apply nth_lookup_Some|].
    f_equal. f_equal. lia.
  - rewrite !drop_ge by lia. rewrite !take_nil. cbn. rewrite nth_overflow by done.
    replace (S k - (length d - base)) with (S (k - (length d - S base))) by lia. done.
Qed.

(** A grid over an array sees it whole. *)
Lemma grid_tiles {T} (d : list T) grid k : length d ≤ grid * k → on_grid grid (λ b, take k (drop (b * k) d)) = d.
Proof.
  intros Hd. trans (take (grid * k) d); [|by apply take_ge]. clear Hd. induction grid as [|grid IH]; [done|].
  rewrite on_grid_S, IH. replace (S grid * k) with (grid * k + k) by lia. by rewrite take_take_drop.
Qed.

(** ** Reduction *)

Section fold.
Context {T : Type} (op : T → T → T) (e : T) `{!Assoc (=) op, !Comm (=) op}.

(** The padding is neutral for a value. *)
Definition padded_by (x : T) : Prop := op e x = x.

Lemma foldr_padded l : padded_by e → Forall padded_by l → padded_by (foldr op e l).
Proof. intros He Hl. induction Hl as [|x l Hx _ IH]; [done|]. cbn. unfold padded_by in *. by rewrite (assoc_L op), Hx. Qed.

Lemma foldr_app_padded l1 l2 : padded_by e → Forall padded_by l1 → Forall padded_by l2 →
  foldr op e (l1 ++ l2) = op (foldr op e l1) (foldr op e l2).
Proof.
  intros He H1 H2. induction H1 as [|x l Hx _ IH]; cbn; [by rewrite (foldr_padded l2)|]. by rewrite IH, (assoc_L op).
Qed.

Lemma foldl_foldr x l : padded_by x → foldl op x l = op x (foldr op e l).
Proof.
  revert x. induction l as [|y l IH]; intros x Hx; cbn.
  - rewrite (comm_L op). done.
  - rewrite IH, (assoc_L op); [done|]. unfold padded_by in *. by rewrite (assoc_L op), Hx.
Qed.

Lemma foldr_replicate k : padded_by e → foldr op e (replicate k e) = e.
Proof. intros He. induction k as [|k IH]; cbn; [done|]. by rewrite IH. Qed.

Lemma foldr_pad l k : padded_by e → Forall padded_by l → foldr op e (l ++ replicate k e) = foldr op e l.
Proof.
  intros He Hl. rewrite foldr_app_padded by (done || by apply Forall_replicate). rewrite foldr_replicate, (comm_L op) by done.
  by apply foldr_padded.
Qed.

Lemma foldr_perm l l' : l ≡ₚ l' → foldr op e l = foldr op e l'.
Proof. intros H. induction H as [| |x y l|]; cbn; [done|by f_equal| |by etransitivity]. by rewrite !(assoc_L op), (comm_L op x). Qed.

Lemma foldr_grid grid (f : nat → list T) : padded_by e → (∀ b, b < grid → Forall padded_by (f b)) →
  foldr op e (on_grid grid f) = foldr op e (on_grid grid (λ b, [foldr op e (f b)])).
Proof.
  intros He. induction grid as [|grid IH]; intros Hf; [done|]. rewrite !on_grid_S.
  assert (Hgrid : ∀ g, (∀ b, b < S grid → Forall padded_by (g b)) → Forall padded_by (on_grid grid g) ∧ Forall padded_by (g grid)).
  { intros g Hg. split; [|apply Hg; lia]. apply Forall_bind, Forall_forall. intros b. rewrite elem_of_seq. intros. apply Hg. lia. }
  destruct (Hgrid f Hf) as [H1 H2]. destruct (Hgrid (λ b, [foldr op e (f b)])) as [H3 H4].
  { intros b Hb. apply Forall_singleton, foldr_padded; auto. }
  rewrite !foldr_app_padded by done. rewrite IH by (intros; apply Hf; lia). f_equal. cbn. rewrite (comm_L op). symmetry.
  by apply foldr_padded.
Qed.
End fold.

Section reduce.
Context `{!CubBlock} (block items : nat).

Abbreviation tile := (tile block items).
Abbreviation load := (load block items).

(** [{kname}] and [{kname}_finalize] *)
Definition reduce_main {T} (op : T → T → T) (identity : T) (d_in : list T) (n b : nat) : writes T :=
  match block_reduce op (load identity d_in n (b * tile)) with Some r => [(b, r)] | None => [] end.
Definition reduce_finalize {T} (op : T → T → T) (identity : T) (d_partials : list T) (n_partials : nat) : writes T :=
  match block_reduce op (load identity d_partials n_partials 0) with Some r => [(0, r)] | None => [] end.

(** [grid_blocks_for] *)
Definition grid_blocks_for (n : nat) : nat := Nat.max ((n + (tile - 1)) / tile) 1.

Lemma grid_covers n : 0 < tile → n ≤ grid_blocks_for n * tile.
Proof.
  intros Ht. unfold grid_blocks_for. pose proof (Nat.div_mod (n + (tile - 1)) tile). pose proof (Nat.mod_upper_bound (n + (tile - 1)) tile).
  assert (n ≤ (n + (tile - 1)) / tile * tile) by lia. nia.
Qed.

Lemma grid_bound n k : 0 < tile → 1 ≤ k → n ≤ k * tile → grid_blocks_for n ≤ k.
Proof.
  intros Ht Hk Hn. unfold grid_blocks_for. apply Nat.max_lub; [|done]. apply Nat.lt_succ_r, Nat.Div0.div_lt_upper_bound. nia.
Qed.

Lemma reduce_tile `{!CubLaw} {T} (op : T → T → T) e d base : Assoc (=) op → Comm (=) op → 0 < tile →
  padded_by op e e → Forall (padded_by op e) d →
  block_reduce op (load e d (length d) base) = Some (foldr op e (take tile (drop base d))).
Proof.
  intros Ha Hc Ht He Hd. pose proof (load_perm block items e d base) as Hp. rewrite nth_seq in Hp.
  assert (Hall : Forall (padded_by op e) (mjoin (load e d (length d) base))).
  { rewrite Hp. apply Forall_app. split; [by apply Forall_take, Forall_drop|by apply Forall_replicate]. }
  destruct (mjoin _) as [|x l] eqn:Hl.
  - apply (f_equal length) in Hl. unfold load in Hl. rewrite length_each in Hl. cbn in Hl. lia.
  - erewrite block_reduce_ok by done. f_equal. apply Forall_cons in Hall as [Hx _].
    rewrite (foldl_foldr op e) by done. change (op x (foldr op e l)) with (foldr op e (x :: l)).
    rewrite (foldr_perm op e _ _ Hp). apply foldr_pad; [done..|]. by apply Forall_take, Forall_drop.
Qed.

(** The two launches of a reduction: for a commutative monoid, whatever the order of
    the threads, the first output is the reduction of the input. *)
Lemma reduce_launches `{!CubLaw} {T} (op : T → T → T) e d partials partials' out out' :
  Assoc (=) op → Comm (=) op → 0 < tile → padded_by op e e → Forall (padded_by op e) d →
  let grid := grid_blocks_for (length d) in
  grid ≤ tile → length partials = grid → 0 < length out →
  stored (on_grid grid (reduce_main op e d (length d))) partials partials' →
  stored (on_grid 1 (λ _, reduce_finalize op e partials' grid)) out out' →
  out' !! 0 = Some (foldr op e d) ∧ (∀ p, 0 < p → out' !! p = out !! p).
Proof.
  intros Ha Hc Ht He Hd grid Hg Hlen Hout Hmain Hfin.
  set (part := λ b, foldr op e (take tile (drop (b * tile) d))).
  assert (Hw : ∀ b, reduce_main op e d (length d) b = [(b, part b)]).
  { intros b. unfold reduce_main. by rewrite reduce_tile. }
  assert (Htargets : (on_grid grid (reduce_main op e d (length d))).*1 = seq 0 grid).
  { rewrite on_grid_fmap. clear -Hw. induction grid as [|g IH]; [done|]. by rewrite on_grid_S, IH, Hw, seq_S. }
  assert (Hp : partials' = part <$> seq 0 grid).
  { apply list_eq. intros b. destruct (decide (b < grid)) as [Hb|Hb].
    - rewrite list_lookup_fmap, lookup_seq_lt by done. eapply stored_at; [done|rewrite Htargets; apply NoDup_seq| |lia].
      apply elem_of_on_grid. exists b. split; [done|]. rewrite Hw. by left.
    - rewrite !lookup_ge_None_2; [done|rewrite length_fmap, length_seq; lia|]. rewrite (stored_length _ _ _ Hmain). lia. }
  assert (Hpad : Forall (padded_by op e) partials').
  { rewrite Hp. apply Forall_fmap, Forall_forall. intros b _. cbn. apply foldr_padded; [done..|]. by apply Forall_take, Forall_drop. }
  assert (Hlp : length partials' = grid) by (rewrite Hp, length_fmap, length_seq; done).
  assert (Hf : on_grid 1 (λ _, reduce_finalize op e partials' grid) = [(0, foldr op e d)]).
  { unfold on_grid. cbn. rewrite app_nil_r. unfold reduce_finalize. rewrite <-Hlp, reduce_tile by done.
    do 2 f_equal. rewrite drop_0, take_ge by lia. rewrite Hp.
    trans (foldr op e (on_grid grid (λ b, take tile (drop (b * tile) d)))); [|by rewrite grid_tiles by by apply grid_covers].
    rewrite (foldr_grid op e) by (done || intros; by apply Forall_take, Forall_drop). by rewrite on_grid_singleton. }
  rewrite Hf in Hfin. split.
  - eapply stored_at; [done|apply NoDup_singleton|by left|done].
  - intros p Hp0. eapply stored_other; [done|]. cbn. rewrite list_elem_of_singleton. lia.
Qed.
End reduce.

(** ** Scan *)

Section scan.
Context `{!CubBlock} (block items : nat).

Abbreviation tile := (tile block items).

Definition scan_block {T} (ex : bool) (add : T → T → T) (zero : T) (d_in : list T) (n base : nat) : list (list T) * T :=
  block_scan ex add zero (load block items zero d_in n base).
(** [{kname}]: the scanned elements and the block's total. *)
Definition scan_main {T} (ex : bool) (add : T → T → T) (zero : T) (d_in : list T) (n b : nat) : writes T :=
  stores block items n (b * tile) (scan_block ex add zero d_in n (b * tile)).1.
Definition scan_totals {T} (ex : bool) (add : T → T → T) (zero : T) (d_in : list T) (n b : nat) : writes T :=
  [(b, (scan_block ex add zero d_in n (b * tile)).2)].
(** [{kname}_block_sums], in place *)
Definition scan_sums {T} (add : T → T → T) (zero : T) (sums : list T) (n_blocks : nat) : writes T :=
  stores block items n_blocks 0 (scan_block true add zero sums n_blocks 0).1.
(** [{kname}_fixup] *)
Definition fixup_one {T} (add : T → T → T) (prefix : T) (d_out : list T) (n base t i : nat) : writes T :=
  if idx block base t i <? n then
    match d_out !! idx block base t i with Some x => [(idx block base t i, add x prefix)] | None => [] end
  else [].
Definition scan_fixup {T} (add : T → T → T) (d_out prefixes : list T) (n b : nat) : writes T :=
  if b =? 0 then []
  else match prefixes !! b with
       | Some prefix => mjoin (mjoin (each block items (fixup_one add prefix d_out n (b * tile))))
       | None => []
       end.

(** The three launches of [run_scan], each with the writes of its threads in some order. *)
Definition scan_launches {T} (ex : bool) (add : T → T → T) (zero : T) (d : list T) (out sums out' : list T) : Prop :=
  let n := length d in
  let grid := grid_blocks_for block items n in
  ∃ out1 sums1 sums2,
    stored (on_grid grid (scan_main ex add zero d n)) out out1 ∧
    stored (on_grid grid (scan_totals ex add zero d n)) sums sums1 ∧
    stored (scan_sums add zero sums1 grid) sums1 sums2 ∧
    stored (on_grid grid (scan_fixup add out1 sums2 n)) out1 out'.

Section sums.
Context {T : Type} (add : T → T → T) (zero : T) `{!Assoc (=) add, !Comm (=) add, !LeftId (=) zero add, !CubLaw}.

(** With at most one item for each thread, the blocked order is the striped one. *)
Lemma load_row (d : list T) t : 0 < items → length d ≤ block → t < block →
  (λ i, if idx block 0 t i <? length d then nth (idx block 0 t i) d zero else zero) <$> seq 0 items =
  nth t d zero :: replicate (items - 1) zero.
Proof.
  intros Hi Hd Ht. destruct items as [|k]; [lia|]. cbn [seq]. rewrite fmap_cons. f_equal.
  - unfold idx. replace (0 + t + 0 * block) with t by lia. destruct (Nat.ltb_spec t (length d)); [done|]. by rewrite nth_overflow.
  - replace (S k - 1) with k by lia. apply list_eq. intros i. destruct (decide (i < k)) as [Hik|Hik].
    + rewrite list_lookup_fmap, lookup_seq_lt, lookup_replicate_2 by done. cbn [fmap option_fmap option_map]. f_equal.
      destruct (Nat.ltb_spec (idx block 0 t (1 + i)) (length d)) as [Hlt|]; [|done]. unfold idx in Hlt. nia.
    + rewrite !lookup_ge_None_2; [done|rewrite length_replicate; lia|rewrite length_fmap, length_seq; lia].
Qed.

Lemma fold_zeros acc k : foldl add acc (replicate k zero) = acc.
Proof. revert acc. induction k as [|k IH]; intros acc; cbn; [done|]. by rewrite IH, (comm_L add), (left_id_L zero add). Qed.

Lemma fold_take_S (d : list T) t : foldl add zero (take (S t) d) = add (foldl add zero (take t d)) (nth t d zero).
Proof.
  destruct (d !! t) as [x|] eqn:Hx.
  - erewrite take_S_r, foldl_app by done. cbn. f_equal. symmetry. by apply nth_lookup_Some.
  - apply lookup_ge_None_1 in Hx. rewrite !take_ge by lia. rewrite nth_overflow by done.
    by rewrite (comm_L add), (left_id_L zero add).
Qed.

Lemma striped_prefix (d : list T) t k : 0 < items → length d ≤ block → t < block → k ≤ 1 →
  foldl add zero (take (t * items + k) (mjoin (load block items zero d (length d) 0))) = foldl add zero (take (t + k) d).
Proof.
  intros Hi Hd Ht Hk.
  set (row := λ t, (λ i, if idx block 0 t i <? length d then nth (idx block 0 t i) d zero else zero) <$> seq 0 items).
  assert (Hrow : ∀ s, s < block → row s = nth s d zero :: replicate (items - 1) zero) by (intros; by apply load_row).
  assert (Hlen : ∀ l, length (mjoin (row <$> l)) = length l * items).
  { intros l. rewrite length_join, (sum_list_fmap_same items); [by rewrite length_fmap|].
    apply Forall_fmap, Forall_forall. intros s _. cbn. unfold row. by rewrite length_fmap, length_seq. }
  assert (Hpre : ∀ s, s ≤ block → foldl add zero (mjoin (row <$> seq 0 s)) = foldl add zero (take s d)).
  { induction s as [|s IH]; intros Hs; [done|]. rewrite seq_S, fmap_app, join_app, foldl_app, IH by lia. cbn [fmap list_fmap mjoin list_join].
    rewrite app_nil_r. cbn [Nat.add]. rewrite Hrow by lia. cbn [foldl]. by rewrite fold_zeros, fold_take_S. }
  unfold load, each. fold row. replace block with (t + S (block - S t)) by lia.
  rewrite seq_app, fmap_app, join_app. cbn [seq]. rewrite fmap_cons.
  rewrite take_app_ge by (rewrite Hlen, length_seq; lia). rewrite Hlen, length_seq.
  replace (t * items + k - t * items) with k by lia. rewrite foldl_app, Hpre by lia.
  destruct k as [|[|k]]; [|..|lia].
  - by rewrite Nat.add_0_r.
  - cbn [Nat.add]. rewrite Hrow by lia. cbn. rewrite Nat.add_1_r. symmetry. apply fold_take_S.
Qed.

Lemma scan_block_at ex (d : list T) n base t i : t < block → i < items →
  item (scan_block ex add zero d n base).1 t i =
  Some (foldl add zero (take (t * items + i + if ex then 0 else 1) (mjoin (load block items zero d n base)))).
Proof.
  intros Ht Hi. unfold scan_block. destruct (block_scan_ok ex add zero (load block items zero d n base)) as (Hs & Hj & _); [done..|].
  unfold load in Hs. erewrite item_blocked by done. fold (load block items zero d n base) in Hs. rewrite Hj.
  destruct (lookup_lt_is_Some_2 (mjoin (load block items zero d n base)) (t * items + i)) as [x Hx].
  { unfold load. rewrite length_each. unfold CubKernels.tile. nia. }
  rewrite (scan_from_lookup _ _ _ _ _ _ Hx). destruct ex; f_equal; f_equal; f_equal; lia.
Qed.

Lemma scan_block_shape ex (d : list T) n base :
  shape (scan_block ex add zero d n base).1 (load block items zero d n base).
Proof. by apply block_scan_ok. Qed.

Lemma scan_block_total ex (d : list T) base :
  (scan_block ex add zero d (length d) base).2 = foldl add zero (take tile (drop base d)).
Proof.
  destruct (block_scan_ok ex add zero (load block items zero d (length d) base)) as (_ & _ & Ht); [done..|].
  unfold scan_block. rewrite Ht. assert (Hp : ∀ x, padded_by add zero x) by (intros x; apply (left_id_L zero add)).
  rewrite !(foldl_foldr add zero) by done. f_equal. rewrite (foldr_perm add zero _ _ (load_perm block items zero d base)), nth_seq.
  apply foldr_pad; [done..|]. by apply Forall_true.
Qed.

(** The block sums become the sums of the tiles before. *)
Lemma scan_sums_spec (totals sums : list T) b : 0 < items → length totals ≤ block → b < length totals →
  stored (scan_sums add zero totals (length totals)) totals sums → sums !! b = Some (foldl add zero (take b totals)).
Proof.
  intros Hi Hl Hb Hs. eapply stored_at; [done| | |done].
  - unfold scan_sums. rewrite (stores_targets _ _ _ _ _ _ (scan_block_shape true totals (length totals) 0)).
    by apply NoDup_filter; rewrite idx_perm; apply NoDup_seq.
  - apply elem_of_stores. exists b, 0. split_and!; [lia|done|unfold idx; lia|done|].
    rewrite scan_block_at by lia. rewrite !Nat.add_0_r. pose proof (striped_prefix totals b 0) as Hp.
    rewrite !Nat.add_0_r in Hp. by rewrite Hp by lia.
Qed.

(** A fixup is a store of the values it adds to. *)
Lemma fixup_stores prefix (d_out : list T) n base : n ≤ length d_out →
  mjoin (mjoin (each block items (fixup_one add prefix d_out n base))) =
  stores block items n base (each block items (λ t i, add (nth (idx block base t i) d_out zero) prefix)).
Proof.
  intros Hn. unfold stores. f_equal. f_equal. unfold each at 1 2. apply list_fmap_ext. intros k t Hk.
  apply lookup_seq in Hk as [-> Hk]. apply list_fmap_ext. intros k' i Hk'. apply lookup_seq in Hk' as [-> Hk'].
  unfold fixup_one, store_one. destruct (Nat.ltb_spec (idx block base (0 + k) (0 + k')) n) as [Hlt|]; [|done].
  rewrite each_item by done. destruct (lookup_lt_is_Some_2 d_out (idx block base (0 + k) (0 + k'))) as [x Hx]; [lia|].
  rewrite Hx. by rewrite (nth_lookup_Some _ _ _ _ Hx).
Qed.

Lemma fixup_writes (d_out prefixes : list T) n grid : n ≤ length d_out → length prefixes = grid →
  on_grid grid (scan_fixup add d_out prefixes n) =
  on_grid grid (λ b, if b =? 0 then [] else
    stores block items n (b * tile) (each block items (λ t i, add (nth (idx block (b * tile) t i) d_out zero) (nth b prefixes zero)))).
Proof.
  intros Hn Hg. unfold on_grid. apply Forall_bind_ext, Forall_forall. intros b. rewrite elem_of_seq. intros Hb. unfold scan_fixup.
  destruct (b =? 0); [done|]. destruct (lookup_lt_is_Some_2 prefixes b) as [x Hx]; [lia|].
  rewrite Hx, fixup_stores by done. by rewrite (nth_lookup_Some _ _ _ _ Hx).
Qed.

(** Dropping the writes of the first block keeps the targets distinct. *)
Lemma skip_first_distinct {A} grid (f : nat → writes A) :
  NoDup (on_grid grid f).*1 → NoDup (on_grid grid (λ b, if b =? 0 then [] else f b)).*1.
Proof.
  destruct grid as [|grid]; [done|]. unfold on_grid. cbn [seq]. rewrite !bind_cons. cbn [Nat.eqb app].
  rewrite fmap_app. intros (_ & _ & Hrest)%NoDup_app.
  replace (seq 1 grid ≫= λ b, if b =? 0 then [] else f b) with (seq 1 grid ≫= f); [done|].
  apply Forall_bind_ext, Forall_forall. intros b. rewrite elem_of_seq. intros Hb. by destruct b; [lia|].
Qed.

Definition local_prefix (ex : bool) (d : list T) (b t i : nat) : T :=
  foldl add zero (take (t * items + i + if ex then 0 else 1) (mjoin (load block items zero d (length d) (b * tile)))).

Lemma fold_totals ex (d : list T) b : foldl add zero ((λ b, (scan_block ex add zero d (length d) (b * tile)).2) <$> seq 0 b) =
  foldl add zero (take (b * tile) d).
Proof.
  assert (Hp : ∀ x, padded_by add zero x) by (intros x; apply (left_id_L zero add)).
  assert (Hz : ∀ x, add x zero = x) by (intros x; by rewrite (comm_L add), (left_id_L zero add)).
  induction b as [|b IH]; [done|]. rewrite seq_S, fmap_app, foldl_app, IH. cbn [fmap list_fmap foldl Nat.add].
  rewrite scan_block_total. replace (S b * tile) with (b * tile + tile) by lia. rewrite <-take_take_drop, foldl_app.
  rewrite !(foldl_foldr add zero) by done.
  by rewrite !(left_id_L zero add).
Qed.

(** What the three launches leave in the output: every element gets the sum of the
    tiles before its own and of the items that come before it in the {e blocked}
    order of its tile. *)
Lemma scan_launches_at ex (d out sums out' : list T) b t i :
  0 < items → 0 < block → length out = length d →
  let grid := grid_blocks_for block items (length d) in
  grid ≤ block → length sums = grid → scan_launches ex add zero d out sums out' →
  t < block → i < items → idx block (b * tile) t i < length d →
  out' !! idx block (b * tile) t i =
    Some (if b =? 0 then local_prefix ex d b t i else add (local_prefix ex d b t i) (foldl add zero (take (b * tile) d))).
Proof.
  intros Hi Hblock Hout grid Hg Hsums (out1 & sums1 & sums2 & H1 & H2 & H3 & H4) Ht Hit Hp.
  fold grid in H1, H2, H3, H4. set (p := idx block (b * tile) t i) in *.
  assert (Hb : b < grid).
  { assert (Htile : 0 < tile) by (unfold CubKernels.tile; nia). pose proof (grid_covers block items (length d) Htile) as Hcov.
    fold grid in Hcov.
    unfold p, idx in Hp. nia. }
  assert (Hd1 : NoDup (on_grid grid (scan_main ex add zero d (length d))).*1).
  { eapply (grid_stores_distinct block items (λ _ _, zero)). intros c _. unfold shape. rewrite scan_block_shape. apply each_shape. }
  assert (Hout1 : out1 !! p = Some (local_prefix ex d b t i)).
  { eapply stored_at; [exact H1|exact Hd1| |lia]. apply elem_of_on_grid. exists b. split; [done|].
    apply elem_of_stores. exists t, i. split_and!; [done..|]. by apply scan_block_at. }
  assert (Hl1 : length out1 = length d) by (rewrite (stored_length _ _ _ H1); lia).
  assert (Hsums1 : sums1 = (λ c, (scan_block ex add zero d (length d) (c * tile)).2) <$> seq 0 grid).
  { assert (Htg : ∀ g, (on_grid g (scan_totals ex add zero d (length d))).*1 = seq 0 g).
    { intros g. rewrite on_grid_fmap. unfold scan_totals. cbn. rewrite on_grid_singleton. by rewrite list_fmap_id. }
    apply list_eq. intros c. destruct (decide (c < grid)) as [Hc|Hc].
    - rewrite list_lookup_fmap, lookup_seq_lt by done. eapply stored_at; [exact H2|rewrite Htg; apply NoDup_seq| |lia].
      apply elem_of_on_grid. exists c. split; [done|]. by left.
    - rewrite !lookup_ge_None_2; [done|rewrite length_fmap, length_seq; lia|]. rewrite (stored_length _ _ _ H2). lia. }
  assert (Hls1 : length sums1 = grid) by (by rewrite Hsums1, length_fmap, length_seq).
  assert (Hs2 : sums2 !! b = Some (foldl add zero (take (b * tile) d))).
  { rewrite <-Hls1 in H3. rewrite (scan_sums_spec sums1 sums2 b) by (done || lia). f_equal.
    rewrite Hsums1, <-fmap_take, take_seq, Nat.min_l by lia. apply fold_totals. }
  assert (Hls2 : length sums2 = grid) by (rewrite (stored_length _ _ _ H3); done).
  rewrite fixup_writes in H4 by lia.
  set (rows := λ c, each block items (λ t i, add (nth (idx block (c * tile) t i) out1 zero) (nth c sums2 zero))) in *.
  assert (Hd4 : NoDup (on_grid grid (λ c, stores block items (length d) (c * tile) (rows c))).*1).
  { eapply (grid_stores_distinct block items (λ _ _, zero)). intros c _. apply each_shape. }
  destruct (Nat.eqb_spec b 0) as [->|Hb0].
  - rewrite <-Hout1. eapply stored_other; [exact H4|]. rewrite on_grid_fmap. intros Hin.
    apply elem_of_on_grid in Hin as (c & Hc & Hin). destruct (Nat.eqb_spec c 0) as [->|Hc0]; [by apply elem_of_nil in Hin|].
    apply list_elem_of_fmap in Hin as ([q x] & Hq & Hin). cbn in Hq. subst q. apply elem_of_stores in Hin as (t' & i' & Ht' & Hi' & Heq & _).
    unfold p, idx, CubKernels.tile in Heq. assert (t + i * block < block * items) by nia. assert (c * (block * items) ≥ block * items) by nia. nia.
  - eapply stored_at; [exact H4|by apply skip_first_distinct| |lia]. apply elem_of_on_grid. exists b. split; [done|].
    destruct (Nat.eqb_spec b 0); [done|]. apply elem_of_stores. exists t, i. split_and!; [done..|].
    unfold rows. rewrite each_item by done. f_equal. fold p. by rewrite (nth_lookup_Some _ _ _ _ Hout1), (nth_lookup_Some _ _ _ _ Hs2).
Qed.

(** Up to one item for each thread, the output is the scan. *)
Lemma scan_launches_correct ex (d out sums out' : list T) :
  0 < items → length d ≤ block → length out = length d → 0 < block → length sums = grid_blocks_for block items (length d) →
  scan_launches ex add zero d out sums out' → out' = scan_from ex add zero d.
Proof.
  intros Hi Hd Hout Hblock Hsums Hs.
  assert (Hlen : length out' = length d).
  { destruct Hs as (o1 & s1 & s2 & H1 & _ & _ & H4). rewrite (stored_length _ _ _ H4), (stored_length _ _ _ H1). done. }
  assert (Hg : grid_blocks_for block items (length d) ≤ block).
  { unfold grid_blocks_for, CubKernels.tile. apply Nat.max_lub; [|lia]. apply Nat.lt_succ_r, Nat.Div0.div_lt_upper_bound. nia. }
  apply list_eq. intros p. destruct (decide (p < length d)) as [Hp|Hp].
  2:{ rewrite !lookup_ge_None_2; [done|rewrite scan_from_length; lia|lia]. }
  destruct (lookup_lt_is_Some_2 d p Hp) as [x Hx]. rewrite (scan_from_lookup ex add zero d p x Hx).
  pose proof (scan_launches_at ex d out sums out' 0 p 0 Hi Hblock Hout Hg Hsums Hs) as Hat. unfold idx in Hat.
  cbn [Nat.mul Nat.add Nat.eqb] in Hat. rewrite Nat.add_0_r in Hat. rewrite Hat by lia. f_equal. unfold local_prefix. cbn [Nat.mul]. rewrite Nat.add_0_r.
  rewrite striped_prefix by (destruct ex; lia). destruct ex; f_equal; f_equal; lia.
Qed.
End sums.
End scan.
