(* ===== verification/CubTileOps.v ===== *)
(** * CUB: sort, select, partition, histogram, segmented reduction

    The other kernels of [crates/atomr-accel-cub/src/kernels/mod.rs], over the
    tiles, memory and collectives of [CubKernels.v].  Sort, select and partition
    are launched on one block; histogram and segmented reduction on a grid. *)

From Stdlib Require Import Floats.SpecFloat.
From S2P Require Import Prelude Float64 CubKernels.

(** ** Radix sort *)

Section sort.
Context `{!CubBlock} (block items : nat) {K V : Type} (le : K → K → bool) (zero : K * V).

(** The kernel on keys and values; a keys-only sort has values in [unit]. *)
Definition sort_rows (d_in : list (K * V)) (n : nat) : list (list (K * V)) := block_sort le (load block items zero d_in n 0).
Definition sort_kernel (d_in : list (K * V)) (n : nat) : writes (K * V) := stores block items n 0 (sort_rows d_in n).

Context `{!CubLaw, !Total le, !Transitive le}.

Lemma sort_shape d n : shape (sort_rows d n) (load block items zero d n 0).
Proof. by apply block_sort_ok. Qed.

Lemma sort_distinct d n : NoDup (sort_kernel d n).*1.
Proof.
  unfold sort_kernel. rewrite (stores_targets _ _ _ _ _ _ (sort_shape d n)). apply NoDup_filter. rewrite idx_perm. apply NoDup_seq.
Qed.

(** The sorted items are in blocked order and are stored in striped order: place
    [t + i * block] gets the item of rank [t * items + i]. *)
Lemma sort_at d out out' t i :
  t < block → i < items → stored (sort_kernel d (length d)) out out' → length out = length d → idx block 0 t i < length d →
  out' !! idx block 0 t i = mjoin (sort_rows d (length d)) !! (t * items + i).
Proof.
  intros Ht Hi Hs Hout Hp. destruct (shape_item _ _ _ (sort_rows d (length d)) t i (sort_shape _ _) Ht Hi) as [x Hx].
  rewrite <-(item_blocked block items _ _ _ _ (sort_shape d (length d))), Hx by done.
  eapply stored_at; [done|apply sort_distinct| |lia]. apply elem_of_stores. exists t, i. by split_and!.
Qed.

(** A full tile is permuted. *)
Lemma sort_full_perm d out out' :
  length d = tile block items → length out = length d → stored (sort_kernel d (length d)) out out' → out' ≡ₚ d.
Proof.
  intros Hd Hout Hs. pose proof (load_perm block items zero d 0) as Hload.
  rewrite nth_seq, drop_0, take_ge, Nat.sub_0_r, Hd, Nat.sub_diag, app_nil_r in Hload by lia.
  destruct (block_sort_ok le (load block items zero d (length d) 0)) as (_ & Hperm & _); [done..|].
  rewrite Hd in Hperm. rewrite <-Hload, <-Hperm. fold (sort_rows d (tile block items)). rewrite <-Hd.
  set (sorted := mjoin (sort_rows d (length d))).
  assert (Hl : length sorted = length d) by (rewrite Hd; eapply shape_length, sort_shape).
  assert (Hl' : length out' = length d) by (by rewrite (stored_length _ _ _ Hs)).
  trans ((λ p, nth p out' zero) <$> seq 0 (tile block items)).
  { rewrite nth_seq, drop_0, take_ge, Nat.sub_0_r, Hl', Hd, Nat.sub_diag, app_nil_r by lia. done. }
  rewrite <-idx_perm, <-each_fmap. unfold sorted. erewrite (each_unique _ _ _ _ (sort_rows d (length d)));
    [done|apply sort_shape|]. intros t i Ht Hi. cbv beta.
  assert (Hp : idx block 0 t i < length d) by (rewrite Hd; unfold idx, tile; nia).
  erewrite item_blocked by (done || apply sort_shape). rewrite <-(sort_at d out out') by done.
  destruct (lookup_lt_is_Some_2 out' (idx block 0 t i)) as [x Hx]; [lia|]. rewrite Hx. f_equal. symmetry. by apply nth_lookup_Some.
Qed.

(** A partial tile is sorted together with its padding, which comes first in an
    ascending sort of keys above it. *)
Lemma sort_padding_first d out out' :
  0 < block → 0 < items → 0 < length d → length d < tile block items → length out = length d →
  Forall (λ x, le x.1 zero.1 = false) d → stored (sort_kernel d (length d)) out out' →
  ∃ v, out' !! 0 = Some (zero.1, v).
Proof.
  intros Hb Hi Hn Hd Hout Hk Hs. pose proof (sort_at d out out' 0 0 Hb Hi Hs Hout) as Hat. unfold idx in Hat. cbn in Hat.
  rewrite Hat by lia. clear Hat.
  destruct (block_sort_ok le (load block items zero d (length d) 0)) as (_ & Hperm & Hsorted & _); [done..|].
  fold (sort_rows d (length d)) in Hperm, Hsorted.
  rewrite (load_perm block items zero d 0), nth_seq, drop_0, take_ge, Nat.sub_0_r in Hperm by lia.
  destruct (tile block items - length d) as [|k] eqn:Hpad; [lia|]. clear Hpad.
  destruct (mjoin (sort_rows d (length d))) as [|x l]; [by apply Permutation_nil_l, symmetry, app_eq_nil in Hperm as [_ ?]|].
  cbn. assert (Hz : zero ∈ x :: l) by (rewrite Hperm; apply elem_of_app; right; by left).
  assert (Hx : x ∈ d ++ replicate (S k) zero) by (rewrite <-Hperm; by left).
  apply elem_of_app in Hx as [Hx|Hx]; [|apply elem_of_replicate in Hx as [-> _]; by exists zero.2; destruct zero].
  rewrite Forall_forall in Hk. specialize (Hk x Hx). apply elem_of_cons in Hz as [<-|Hz].
  { exfalso. destruct (Total0 zero.1 zero.1) as [H1|H1]; by rewrite Hk in H1. }
  apply Sorted_StronglySorted in Hsorted; [|intros ??? ??; by etransitivity].
  apply StronglySorted_inv in Hsorted as [_ Hall]. rewrite Forall_forall in Hall. specialize (Hall zero Hz). cbn in Hall.
  by rewrite Hk in Hall.
Qed.
End sort.

(** ** Compaction *)

(** Consecutive places. *)
Lemma stored_consecutive {T} (l : list T) out out' : length l ≤ length out →
  stored (imap pair l) out out' → out' = l ++ drop (length l) out.
Proof.
  intros Hl Hs. assert (Htg : (imap pair l).*1 = seq 0 (length l)).
  { rewrite fmap_imap. clear. apply list_eq. intros k. rewrite list_lookup_imap.
    destruct (decide (k < length l)) as [Hk|Hk].
    - rewrite lookup_seq_lt by done. by destruct (lookup_lt_is_Some_2 l k Hk) as [x ->].
    - rewrite !lookup_ge_None_2; [done|rewrite length_seq; lia|lia]. }
  pose proof (stored_length _ _ _ Hs) as Hlen. apply list_eq. intros p. destruct (l !! p) as [x|] eqn:Hx.
  - pose proof (lookup_lt_Some _ _ _ Hx). rewrite lookup_app_l, Hx by done.
    eapply stored_at; [done|rewrite Htg; apply NoDup_seq| |lia].
    apply elem_of_lookup_imap. eauto.
  - apply lookup_ge_None_1 in Hx. rewrite lookup_app_r, lookup_drop by done. replace (length l + (p - length l)) with p by lia.
    eapply stored_other; [done|]. rewrite Htg, elem_of_seq. lia.
Qed.

Section compaction.
Context (b : nat → bool).

Definition rank (l : list nat) : nat := length (filter (λ p, b p) l).

Lemma rank_app l l' : rank (l ++ l') = rank l + rank l'.
Proof. unfold rank. by rewrite filter_app, length_app. Qed.

Lemma rank_flags l : foldl Nat.add 0 ((λ p, if b p then 1 else 0) <$> l) = rank l.
Proof.
  induction l as [|p l IH] using rev_ind; [done|]. rewrite fmap_app, foldl_app, IH, rank_app.
  assert (H : rank [p] = if b p then 1 else 0) by (unfold rank; rewrite filter_cons; by destruct (b p)). by rewrite H.
Qed.

(** Each chosen element goes to the number of those before it. *)
Lemma compact_writes {T} (g : nat → T) l :
  mjoin (imap (λ q p, if b p then [(rank (take q l), g p)] else []) l) = imap pair (g <$> filter (λ p, b p) l).
Proof.
  induction l as [|p l IH] using rev_ind; [done|]. rewrite imap_app, join_app, filter_app, fmap_app, imap_app.
  rewrite <-IH. f_equal.
  - f_equal. apply imap_ext. intros q p' Hq. apply lookup_lt_Some in Hq. by rewrite take_app_le by lia.
  - rewrite filter_cons, filter_nil. unfold imap at 1. cbn [mjoin list_join]. rewrite app_nil_r, Nat.add_0_r, take_app_length.
    destruct (b p); case_decide; try done. cbn. by rewrite length_fmap, Nat.add_0_r.
Qed.
End compaction.

(** ** Select and partition *)

Definition two32 : Z := (2 ^ 32)%Z.

Section select.
Context `{!CubBlock} (block items : nat) {T : Type}.

Abbreviation at_ := (idx block 0).

(** [thread_flag[i]], for a test on positions *)
Definition flag_rows (sel : nat → bool) (n : nat) : list (list nat) :=
  each block items (λ t i, if (at_ t i <? n) && sel (at_ t i) then 1 else 0).
Definition flag_offsets (sel : nat → bool) (n : nat) : list (list nat) * nat :=
  block_scan true Nat.add 0 (flag_rows sel n).
(** [d_flags[idx]]; [idx == 0] or different from its predecessor *)
Definition flagged (flags : list Z) (p : nat) : bool := match flags !! p with Some f => negb (f =? 0)%Z | None => false end.
Definition unique (neqb : T → T → bool) (d : list T) (p : nat) : bool :=
  match p with
  | 0 => true
  | S q => match d !! p, d !! q with Some x, Some y => neqb x y | _, _ => false end
  end.

Definition select_one (sel : nat → bool) (d_in : list T) (n : nat) (offsets : list (list nat)) (t i : nat) : writes T :=
  if (at_ t i <? n) && sel (at_ t i) then
    match item offsets t i, d_in !! at_ t i with Some o, Some x => [(o, x)] | _, _ => [] end
  else [].
Definition select_kernel (sel : nat → bool) (d_in : list T) (n : nat) : writes T :=
  mjoin (mjoin (each block items (select_one sel d_in n (flag_offsets sel n).1))).
(** [d_num_selected[0]] *)
Definition select_count (sel : nat → bool) (n : nat) : writes nat := [(0, (flag_offsets sel n).2)].

(** Rejected elements go to the tail; [unsigned int] arithmetic. *)
Definition tail_place (n p offset : nat) : nat :=
  let rej := ((Z.of_nat p - Z.of_nat offset) mod two32)%Z in Z.to_nat ((Z.of_nat n - 1 - rej) mod two32).
Definition partition_one (sel : nat → bool) (d_in : list T) (n : nat) (offsets : list (list nat)) (t i : nat) : writes T :=
  if at_ t i <? n then
    match item offsets t i, d_in !! at_ t i with
    | Some o, Some x => [(if sel (at_ t i) then o else tail_place n (at_ t i) o, x)]
    | _, _ => []
    end
  else [].
Definition partition_kernel (sel : nat → bool) (d_in : list T) (n : nat) : writes T :=
  mjoin (mjoin (each block items (partition_one sel d_in n (flag_offsets sel n).1))).

(** The positions of a tile in blocked order, and those that are selected. *)
Definition blocked : list nat := mjoin (each block items at_).
Definition chosen (sel : nat → bool) (n p : nat) : bool := (p <? n) && sel p.

Context `{!CubLaw}.

Lemma offsets_at sel n t i : t < block → i < items →
  item (flag_offsets sel n).1 t i = Some (rank (chosen sel n) (take (t * items + i) blocked)).
Proof.
  intros Ht Hi. unfold flag_offsets.
  destruct (block_scan_ok true Nat.add 0 (flag_rows sel n)) as (Hs & Hj & _); [exact Nat.add_assoc|exact Nat.add_0_l|].
  unfold flag_rows in Hs. erewrite item_blocked by done. fold (flag_rows sel n) in Hs. rewrite Hj.
  assert (Hf : mjoin (flag_rows sel n) = (λ p, if chosen sel n p then 1 else 0) <$> blocked).
  { unfold flag_rows, blocked. by rewrite <-each_fmap. }
  destruct (lookup_lt_is_Some_2 (mjoin (flag_rows sel n)) (t * items + i)) as [x Hx].
  { unfold flag_rows. rewrite length_each. unfold tile. nia. }
  rewrite (scan_from_lookup _ _ _ _ _ _ Hx), Hf, <-fmap_take. by rewrite rank_flags.
Qed.

Lemma count_total sel n : (flag_offsets sel n).2 = rank (chosen sel n) blocked.
Proof.
  unfold flag_offsets.
  destruct (block_scan_ok true Nat.add 0 (flag_rows sel n)) as (_ & _ & Ht); [exact Nat.add_assoc|exact Nat.add_0_l|].
  rewrite Ht. unfold flag_rows. rewrite (each_fmap _ _ at_ (λ p, if (p <? n) && sel p then 1 else 0)). apply rank_flags.
Qed.

(** A kernel whose writes follow the offsets, as a walk over the blocked positions. *)
Lemma blocked_writes (f : nat → nat → writes T) (g : nat → nat → writes T) :
  (∀ t i, t < block → i < items → f t i = g (t * items + i) (at_ t i)) → mjoin (each block items f) = imap g blocked.
Proof.
  intros Hf. apply list_eq. intros q. rewrite list_lookup_imap.
  assert (Hl : ∀ {A} (h : nat → nat → A), length (mjoin (each block items h)) = block * items) by (intros; apply length_each).
  destruct (decide (q < block * items)) as [Hq|Hq].
  2:{ rewrite !lookup_ge_None_2; [done|unfold blocked; rewrite Hl; lia|rewrite Hl; lia]. }
  assert (items ≠ 0) by nia. pose proof (Nat.div_mod q items) as Hdiv. pose proof (Nat.mod_upper_bound q items) as Hmod.
  assert (Ht : q / items < block) by (apply Nat.Div0.div_lt_upper_bound; lia).
  set (t := q / items) in *. set (i := q mod items) in *. replace q with (t * items + i) by lia.
  unfold blocked. rewrite <-(item_blocked block items f (each block items f)), <-(item_blocked block items at_ (each block items at_))
    by (lia || apply each_shape).
  rewrite !each_item by lia. cbn. by rewrite Hf by lia.
Qed.

Lemma blocked_perm : blocked ≡ₚ seq 0 (tile block items).
Proof. apply idx_perm. Qed.

(** With at most one item for each thread the blocked order is that of the array. *)
Lemma blocked_small n : 0 < items → n ≤ block → filter (λ p, p < n) blocked = seq 0 n.
Proof.
  intros Hi Hn. unfold blocked, each. rewrite list_join_bind, list_fmap_bind.
  assert (Hrow : ∀ t, filter (λ p, p < n) (at_ t <$> seq 0 items) = if decide (t < n) then [t] else []).
  { intros t. destruct items as [|k]; [lia|]. cbn [seq]. rewrite fmap_cons, filter_cons.
    replace (at_ t 0) with t by (unfold idx; lia).
    assert (Hrest : filter (λ p, p < n) (at_ t <$> seq 1 k) = []).
    { apply elem_of_nil_inv. intros p [Hlt Hp]%list_elem_of_filter. apply list_elem_of_fmap in Hp as (i & -> & Hin).
      rewrite elem_of_seq in Hin. unfold idx in Hlt. nia. }
    by rewrite Hrest. }
  assert (Hm : ∀ m, filter (λ p, p < n) (seq 0 m ≫= id ∘ (λ t, at_ t <$> seq 0 items)) = seq 0 (Nat.min m n)).
  { induction m as [|m IH]; [done|]. rewrite seq_S, bind_app, filter_app, IH, bind_singleton. cbn [compose id Nat.add]. rewrite Hrow.
    case_decide.
    - replace (Nat.min (S m) n) with (S (Nat.min m n)) by lia. rewrite seq_S. by replace (Nat.min m n) with m by lia.
    - rewrite app_nil_r. f_equal. lia. }
  rewrite Hm. by rewrite Nat.min_r.
Qed.

(** What a select leaves: the chosen elements in blocked order, then the old buffer. *)
Lemma select_writes sel (d : list T) (dflt : T) :
  length d ≤ tile block items →
  select_kernel sel d (length d) = imap pair ((λ p, nth p d dflt) <$> filter (λ p, chosen sel (length d) p) blocked).
Proof.
  intros Hd. rewrite <-compact_writes. unfold select_kernel. f_equal. apply blocked_writes. intros t i Ht Hi.
  unfold select_one, chosen. rewrite offsets_at by done.
  destruct ((at_ t i <? length d) && sel (at_ t i)) eqn:Hc; [|done]. apply andb_true_iff in Hc as [Hc _]. apply Nat.ltb_lt in Hc.
  destruct (lookup_lt_is_Some_2 d _ Hc) as [x Hx]. by rewrite Hx, (nth_lookup_Some _ _ _ _ Hx).
Qed.

Lemma filter_seq n m : n ≤ m → filter (λ p, p < n) (seq 0 m) = seq 0 n.
Proof.
  intros Hn. replace m with (n + (m - n)) by lia. rewrite seq_app, filter_app. cbn [Nat.add].
  assert (H1 : filter (λ p, p < n) (seq 0 n) = seq 0 n).
  { clear. assert (Hall : Forall (λ p, p < n) (seq 0 n)) by (apply Forall_forall; intros p; rewrite elem_of_seq; lia).
    induction Hall as [|p l Hp _ IH]; [done|]. by rewrite filter_cons_True, IH. }
  assert (H2 : filter (λ p, p < n) (seq n (m - n)) = []).
  { apply elem_of_nil_inv. intros p [Hlt Hp]%list_elem_of_filter. rewrite elem_of_seq in Hp. lia. }
  by rewrite H1, H2, app_nil_r.
Qed.

Lemma chosen_filter sel n (l : list nat) : filter (λ p, chosen sel n p) l = filter (λ p, sel p) (filter (λ p, p < n) l).
Proof.
  rewrite list_filter_filter. apply list_filter_iff. intros p. unfold chosen. rewrite andb_True, !Is_true_true.
  rewrite Nat.ltb_lt. tauto.
Qed.

(** The elements of an array at the positions a test keeps. *)
Definition kept (sel : nat → bool) (d : list T) : list T := mjoin (imap (λ p x, if sel p then [x] else []) d).

Lemma kept_positions sel (d : list T) dflt : kept sel d = (λ p, nth p d dflt) <$> filter (λ p, sel p) (seq 0 (length d)).
Proof.
  unfold kept. induction d as [|x d IH] using rev_ind; [done|]. rewrite imap_app, join_app, length_app, IH.
  rewrite seq_app, filter_app, fmap_app. f_equal.
  - apply list_fmap_ext. intros k p Hp. apply list_elem_of_lookup_2, list_elem_of_filter in Hp as [_ Hp]. rewrite elem_of_seq in Hp.
    by rewrite app_nth1 by lia.
  - cbn [length seq Nat.add]. rewrite (filter_singleton _ _ []). unfold imap. cbn [mjoin list_join]. rewrite Nat.add_0_r, app_nil_r.
    destruct (sel (length d)); case_decide; try done. cbn. by rewrite app_nth2, Nat.sub_diag by lia.
Qed.

(** A select keeps what the test keeps, and counts it; with at most one item for each
    thread the order is that of the array. *)
Lemma select_spec sel (d out out' : list T) counts counts' :
  0 < items → length d ≤ tile block items → length d ≤ length out → 0 < length counts →
  stored (select_kernel sel d (length d)) out out' → stored (select_count sel (length d)) counts counts' →
  ∃ l, l ≡ₚ kept sel d ∧ (length d ≤ block → l = kept sel d) ∧ out' = l ++ drop (length l) out ∧
       counts' !! 0 = Some (length (kept sel d)).
Proof.
  intros Hi Hd Hout Hcounts Hs Hc. destruct d as [|dflt d0] eqn:Hd0.
  { exists []. unfold kept. cbn. split_and!; [done|done| |].
    - assert (He : select_kernel sel [] 0 = []).
      { apply elem_of_nil_inv. intros w Hw. unfold select_kernel in Hw. apply list_elem_of_join in Hw as (l & Hw & Hl).
        apply elem_of_each in Hl as (t & i & _ & _ & ->). unfold select_one in Hw. by apply elem_of_nil in Hw. }
      cbn in Hs. rewrite He in Hs. destruct Hs as (o & Ho & ->). apply Permutation_nil_r in Ho as ->. done.
    - eapply stored_at; [exact Hc|apply NoDup_singleton| |done]. unfold select_count. rewrite count_total. unfold rank.
      rewrite chosen_filter. cbn [length]. assert (He : filter (λ p, p < 0) blocked = []).
      { apply elem_of_nil_inv. intros p [Hp _]%list_elem_of_filter. lia. }
      rewrite He. by left. }
  rewrite <-Hd0 in *. clear Hd0 d0. set (n := length d) in *.
  assert (Hperm : filter (λ p, chosen sel n p) blocked ≡ₚ filter (λ p, sel p) (seq 0 n)).
  { rewrite blocked_perm, chosen_filter. by rewrite filter_seq. }
  pose proof (select_writes sel d dflt Hd) as Hw. fold n in Hw. rewrite Hw in Hs. clear Hw.
  set (l := (λ p, nth p d dflt) <$> filter (λ p, chosen sel n p) blocked) in *.
  assert (Hl : l ≡ₚ kept sel d) by (unfold l; rewrite (kept_positions sel d dflt); by rewrite Hperm).
  assert (Hlen : length l ≤ n).
  { rewrite Hl, (kept_positions sel d dflt), length_fmap. etrans; [apply length_filter|]. by rewrite length_seq. }
  exists l. split_and!; [done| | |].
  - intros Hn. unfold l. rewrite (kept_positions sel d dflt), chosen_filter, blocked_small by done. done.
  - apply stored_consecutive; [lia|done].
  - eapply stored_at; [exact Hc|apply NoDup_singleton| |done]. unfold select_count. rewrite count_total.
    rewrite <-Hl. unfold l, rank. rewrite length_fmap. by left.
Qed.

(** The place of a rejected element that no more selected ones precede than there are
    elements. *)
Lemma tail_place_small n p o : o ≤ p → p < n → (Z.of_nat n ≤ two32)%Z → tail_place n p o = n - 1 - (p - o).
Proof.
  intros Ho Hp Hn. unfold tail_place. assert (0 < two32)%Z by done.
  rewrite (Z.mod_small (Z.of_nat p - Z.of_nat o)) by lia. rewrite Z.mod_small by lia. lia.
Qed.

Lemma rank_seq_le sel m : rank sel (seq 0 m) ≤ m.
Proof. unfold rank. etrans; [apply length_filter|]. by rewrite length_seq. Qed.

Lemma rank_row sel n t : 0 < items → n ≤ block → t < n → rank (chosen sel n) (take (t * items) blocked) = rank sel (seq 0 t).
Proof.
  intros Hi Hn Ht. unfold rank. rewrite chosen_filter.
  assert (Hsplit : take (t * items) blocked = mjoin ((λ t, at_ t <$> seq 0 items) <$> seq 0 t)).
  { unfold blocked, each. assert (Hseq : seq 0 block = seq 0 t ++ seq t (block - t)) by (rewrite <-seq_app; f_equal; lia).
    rewrite Hseq, fmap_app, join_app.
    rewrite take_app_length'; [done|]. rewrite length_join, (sum_list_fmap_same items).
    - by rewrite length_fmap, length_seq.
    - apply Forall_fmap, Forall_forall. intros s _. cbn. by rewrite length_fmap, length_seq. }
  f_equal. f_equal. rewrite Hsplit. clear Hsplit. induction t as [|t IH]; [done|].
  rewrite !seq_S, fmap_app, join_app, filter_app, IH by lia. f_equal. cbn [fmap list_fmap mjoin list_join Nat.add]. rewrite app_nil_r.
  destruct items as [|k]; [lia|]. cbn [seq fmap list_fmap]. replace (at_ t 0) with t by (unfold idx; lia).
  rewrite filter_cons_True by lia. f_equal. apply elem_of_nil_inv. intros p [Hlt Hp]%list_elem_of_filter.
  apply list_elem_of_fmap in Hp as (i & -> & Hin). rewrite elem_of_seq in Hin. unfold idx in Hlt. nia.
Qed.

(** With at most one item for each thread: the writes of a partition, by position. *)
Definition place (sel : nat → bool) (n p : nat) : nat :=
  if sel p then rank sel (seq 0 p) else n - 1 - (p - rank sel (seq 0 p)).

Lemma partition_writes sel (d : list T) dflt : 0 < items → length d ≤ block → (Z.of_nat (length d) ≤ two32)%Z →
  partition_kernel sel d (length d) = (λ p, (place sel (length d) p, nth p d dflt)) <$> seq 0 (length d).
Proof.
  intros Hi Hn H32. set (n := length d) in *. unfold partition_kernel.
  set (f := λ p, if p <? n then [(place sel n p, nth p d dflt)] else []).
  assert (Hw : mjoin (each block items (partition_one sel d n (flag_offsets sel n).1)) = f <$> blocked).
  { unfold blocked. rewrite <-each_fmap. f_equal. unfold each. apply list_fmap_ext. intros k t Hk. apply lookup_seq in Hk as [-> Hk].
    apply list_fmap_ext. intros k' i Hk'. apply lookup_seq in Hk' as [-> Hk']. cbn [Nat.add]. unfold partition_one, f.
    destruct (Nat.ltb_spec (at_ k k') n) as [Hlt|]; [|done].
    assert (k' = 0) as -> by (unfold idx in Hlt; nia). assert (at_ k 0 = k) as Hk0 by (unfold idx; lia). rewrite Hk0 in *.
    rewrite offsets_at by done. destruct (lookup_lt_is_Some_2 d k Hlt) as [x Hx]. rewrite Hx, (nth_lookup_Some _ _ _ _ Hx).
    rewrite Nat.add_0_r, rank_row by done. unfold place. destruct (sel k); [done|].
    by rewrite tail_place_small by (done || apply rank_seq_le). }
  rewrite Hw. assert (Hf : ∀ l : list nat, mjoin (f <$> l) = (λ p, (place sel n p, nth p d dflt)) <$> filter (λ p, p < n) l).
  { induction l as [|p l IH]; [done|]. rewrite fmap_cons. change (mjoin (f p :: (f <$> l))) with (f p ++ mjoin (f <$> l)).
    rewrite IH, filter_cons. unfold f. destruct (Nat.ltb_spec p n); case_decide; try lia; done. }
  by rewrite Hf, blocked_small.
Qed.

Lemma place_split sel (d : list T) dflt n m : m ≤ n →
  (λ p, (place sel n p, nth p d dflt)) <$> seq 0 m ≡ₚ
  imap pair ((λ p, nth p d dflt) <$> filter (λ p, sel p) (seq 0 m)) ++
  imap (λ k x, (n - 1 - k, x)) ((λ p, nth p d dflt) <$> filter (λ p, negb (sel p)) (seq 0 m)).
Proof.
  induction m as [|m IH]; intros Hm; [done|]. rewrite seq_S, !fmap_app, IH, !filter_app, !fmap_app, !imap_app by lia.
  rewrite !length_fmap, !(filter_singleton _ _ []). cbn [Nat.add fmap list_fmap].
  assert (Hr : length (filter (λ p, negb (sel p)) (seq 0 m)) = m - rank sel (seq 0 m)).
  { pose proof (Permutation_length (filter_app_complement (λ p, sel p) (seq 0 m))) as Hl. rewrite length_app, length_seq in Hl.
    unfold rank. rewrite (list_filter_iff _ (λ p, ¬ sel p)); [lia|]. intros p. apply negb_True. }
  rewrite Hr. unfold place. fold (rank sel (seq 0 m)). destruct (sel m); cbn [negb Is_true].
  - rewrite decide_True, decide_False by tauto. cbn. rewrite Nat.add_0_r, app_nil_r, <-!app_assoc. f_equiv. apply Permutation_app_comm.
  - rewrite decide_False, decide_True by tauto. cbn. by rewrite Nat.add_0_r, app_nil_r, <-app_assoc.
Qed.

Lemma tail_reverse {A} (l : list A) n : length l ≤ n →
  imap (λ k x, (n - 1 - k, x)) l ≡ₚ imap (λ k x, (n - length l + k, x)) (reverse l).
Proof.
  induction l as [|x l IH] using rev_ind; intros Hn; [done|]. rewrite length_app in *. cbn in Hn.
  rewrite imap_app, reverse_app, IH by lia. cbn [reverse rev_append app imap]. rewrite Permutation_app_comm.
  cbn [app]. assert (Hx : n - 1 - (length l + 0) = n - (length l + length [x]) + 0) by (cbn; lia). rewrite Hx.
  f_equiv. apply eq_subrelation; [apply _|]. apply imap_ext. intros k y _. cbn. f_equal. lia.
Qed.

(** With at most one item for each thread, a partition puts the selected elements
    first and the others after them, in reverse. *)
Lemma partition_spec sel (d out out' : list T) :
  0 < items → length d ≤ block → (Z.of_nat (length d) ≤ two32)%Z → length d ≤ length out →
  stored (partition_kernel sel d (length d)) out out' →
  out' = kept sel d ++ reverse (kept (λ p, negb (sel p)) d) ++ drop (length d) out.
Proof.
  intros Hi Hd H32 Hout Hs. destruct d as [|dflt d0] eqn:Hd0.
  { unfold partition_kernel in Hs. assert (He : partition_kernel sel [] 0 = []).
    { apply elem_of_nil_inv. intros w Hw. unfold partition_kernel in Hw. apply list_elem_of_join in Hw as (l & Hw & Hl).
      apply elem_of_each in Hl as (t & i & _ & _ & ->). unfold partition_one in Hw. by apply elem_of_nil in Hw. }
    unfold partition_kernel in He. cbn [length] in Hs. rewrite He in Hs. destruct Hs as (o & Ho & ->).
    by apply Permutation_nil_r in Ho as ->. }
  rewrite <-Hd0 in *. clear Hd0 d0. set (l := kept sel d ++ reverse (kept (λ p, negb (sel p)) d)).
  pose proof (Permutation_length (filter_app_complement (λ p, sel p) (seq 0 (length d)))) as Hlen. rewrite length_app, length_seq in Hlen.
  assert (Hkept : length (kept sel d) + length (kept (λ p, negb (sel p)) d) = length d).
  { rewrite !(kept_positions _ d dflt), !length_fmap. rewrite (list_filter_iff (λ p, negb (sel p)) (λ p, ¬ sel p)); [exact Hlen|].
    intros p. apply negb_True. }
  assert (Hl : length l = length d) by (unfold l; rewrite length_app, length_reverse; lia).
  assert (Hw : partition_kernel sel d (length d) ≡ₚ imap pair l).
  { rewrite (partition_writes sel d dflt), (place_split sel d dflt) by done. rewrite <-!kept_positions. unfold l. rewrite imap_app.
    f_equiv. rewrite tail_reverse by lia. apply eq_subrelation; [apply _|]. apply imap_ext. intros k y _. cbn. f_equal. lia. }
  rewrite app_assoc. fold l. rewrite <-Hl. apply stored_consecutive; [lia|]. destruct Hs as (o & Ho & ->). exists o. split; [by etrans|done].
Qed.
End select.

(** ** Histogram *)

(** Atomic additions on [unsigned int] counters. *)
Definition add_all (ws : list (nat * Z)) (b : list Z) : list Z := foldl (λ b w, alter (wadd 32 w.2) w.1 b) b ws.
Definition added (ws : list (nat * Z)) (b b' : list Z) : Prop := ∃ order, order ≡ₚ ws ∧ b' = add_all order b.
(** What is added to a counter. *)
Fixpoint sum_at (k : nat) (ws : list (nat * Z)) : Z :=
  match ws with [] => 0%Z | w :: ws => ((if decide (w.1 = k) then w.2 else 0) + sum_at k ws)%Z end.

Lemma sum_at_app k ws ws' : sum_at k (ws ++ ws') = (sum_at k ws + sum_at k ws')%Z.
Proof. induction ws as [|w ws IH]; cbn; [done|]. rewrite IH. lia. Qed.
#[global] Instance sum_at_perm k : Proper ((≡ₚ) ==> (=)) (sum_at k).
Proof. intros ws ws' H. induction H; cbn; lia. Qed.

Lemma add_all_at ws b k v : b !! k = Some (wrap 32 v) → add_all ws b !! k = Some (wrap 32 (v + sum_at k ws)).
Proof.
  revert b v. induction ws as [|[q c] ws IH]; intros b v Hv; [by rewrite Z.add_0_r|]. cbn -[wrap].
  rewrite Z.add_assoc. apply IH. case_decide as Hq.
  - subst q. rewrite list_lookup_alter_eq, Hv. cbn -[wrap]. f_equal. unfold wadd, wrap. by rewrite Zplus_mod_idemp_r, Z.add_comm.
  - by rewrite list_lookup_alter_ne, Z.add_0_r.
Qed.
Lemma added_at ws b b' k v : added ws b b' → b !! k = Some (wrap 32 v) → b' !! k = Some (wrap 32 (v + sum_at k ws)).
Proof. intros (o & Ho & ->) Hv. rewrite <-Ho. by apply add_all_at. Qed.

Definition BINS : nat := 256.

Section histogram.
Context (block items : nat) {T : Type} (bin_of : T → Z).

(** [atomicAdd(&s_bins[bin], 1u)] *)
Definition hit_one (d_in : list T) (n base t i : nat) : list (nat * Z) :=
  if idx block base t i <? n then
    match d_in !! idx block base t i with
    | Some x => if (0 <=? bin_of x)%Z && (bin_of x <? Z.of_nat BINS)%Z then [(Z.to_nat (bin_of x), 1%Z)] else []
    | None => []
    end
  else [].
Definition block_hits (d_in : list T) (n b : nat) : list (nat * Z) :=
  mjoin (mjoin (each block items (hit_one d_in n (b * tile block items)))).
(** [if (s_bins[b]) atomicAdd(&d_bins[b], s_bins[b])] *)
Definition merge_bins (s_bins : list Z) : list (nat * Z) :=
  mjoin (imap (λ k c, if (c =? 0)%Z then [] else [(k, c)]) s_bins).

(** One launch: each block counts in its shared memory, then adds to the output. *)
Definition histogram_launch (d : list T) (out out' : list Z) : Prop :=
  let n := length d in
  let grid := grid_blocks_for block items n in
  ∃ shared : nat → list Z,
    (∀ b, b < grid → added (block_hits d n b) (replicate BINS 0%Z) (shared b)) ∧
    added (on_grid grid (λ b, merge_bins (shared b))) out out'.

Definition in_bin (k : nat) (x : T) : bool := (bin_of x =? Z.of_nat k)%Z.
Definition bin_count (k : nat) (d : list T) : Z := Z.of_nat (length (filter (λ x, in_bin k x) d)).

Lemma sum_at_join k (wss : list (list (nat * Z))) : sum_at k (mjoin wss) = foldr (λ ws acc, sum_at k ws + acc)%Z 0%Z wss.
Proof. induction wss as [|ws wss IH]; [done|]. by rewrite mjoin_cons, sum_at_app, IH. Qed.

Lemma sum_fmap {A} (f : A → Z) (l l' : list A) : l ≡ₚ l' →
  foldr (λ x acc, f x + acc)%Z 0%Z l = foldr (λ x acc, f x + acc)%Z 0%Z l'.
Proof. intros H. induction H; cbn; lia. Qed.

Lemma bin_count_app k d d' : bin_count k (d ++ d') = (bin_count k d + bin_count k d')%Z.
Proof. unfold bin_count. rewrite filter_app, length_app. lia. Qed.

(** A block counts its tile. *)
Lemma block_hits_sum d b k : k < BINS →
  sum_at k (block_hits d (length d) b) = bin_count k (take (tile block items) (drop (b * tile block items) d)).
Proof.
  intros Hk. set (base := b * tile block items). unfold block_hits. fold base.
  set (hit := λ p, match d !! p with
    | Some x => if (0 <=? bin_of x)%Z && (bin_of x <? Z.of_nat BINS)%Z then [(Z.to_nat (bin_of x), 1%Z)] else []
    | None => [] end).
  assert (Hhit : ∀ t i, hit_one d (length d) base t i = hit (idx block base t i)).
  { intros t i. unfold hit_one, hit. destruct (Nat.ltb_spec (idx block base t i) (length d)); [done|].
    by rewrite lookup_ge_None_2. }
  rewrite sum_at_join. assert (Heach : mjoin (each block items (hit_one d (length d) base)) = hit <$> mjoin (each block items (idx block base))).
  { rewrite <-each_fmap. f_equal. unfold each. apply list_fmap_ext. intros _ t _. apply list_fmap_ext. intros _ i _. apply Hhit. }
  rewrite Heach, (sum_fmap (sum_at k) _ (hit <$> seq base (tile block items))) by by rewrite idx_perm.
  assert (Hone : ∀ x, sum_at k (if (0 <=? bin_of x)%Z && (bin_of x <? Z.of_nat BINS)%Z then [(Z.to_nat (bin_of x), 1%Z)] else []) =
                 bin_count k [x]).
  { intros x. unfold bin_count. rewrite (filter_singleton _ _ []). unfold in_bin.
    destruct (Z.leb_spec 0 (bin_of x)), (Z.ltb_spec (bin_of x) (Z.of_nat BINS)), (Z.eqb_spec (bin_of x) (Z.of_nat k)); cbn [andb sum_at fst snd Is_true];
      repeat case_decide; cbn; try done; lia. }
  clearbody base. clear Heach Hhit. generalize (tile block items). intros m. revert base. induction m as [|m IH]; intros base; [done|].
  cbn [seq]. rewrite fmap_cons. cbn [foldr]. rewrite IH. unfold hit at 1. destruct (d !! base) as [x|] eqn:Hx.
  - rewrite (drop_S d x base Hx). cbn [take]. change (x :: take m (drop (S base) d)) with ([x] ++ take m (drop (S base) d)).
    by rewrite bin_count_app, <-Hone.
  - apply lookup_ge_None_1 in Hx. by rewrite !drop_ge, !take_nil by lia.
Qed.

Lemma merge_sum k s : k < length s → sum_at k (merge_bins s) = nth k s 0%Z.
Proof.
  unfold merge_bins. enough (H : ∀ m, m ≤ k → k < m + length s →
    sum_at k (mjoin (imap (λ j c, if (c =? 0)%Z then [] else [(m + j, c)]) s)) = nth (k - m) s 0%Z).
  { intros Hk. specialize (H 0). cbn in H. rewrite Nat.sub_0_r in H. apply H; lia. }
  induction s as [|c s IH]; intros m Hm Hk; cbn [length] in *; [lia|]. rewrite imap_cons, mjoin_cons. cbn [compose].
  rewrite sum_at_app. rewrite Nat.add_0_r.
  assert (Hhead : sum_at k (if (c =? 0)%Z then [] else [(m, c)]) = if decide (m = k) then c else 0%Z).
  { destruct (Z.eqb_spec c 0) as [->|]; cbn; case_decide; lia. }
  rewrite Hhead. assert (Hrest : imap ((λ j c, if (c =? 0)%Z then [] else [(m + j, c)]) ∘ S) s =
    imap (λ j c, if (c =? 0)%Z then [] else [(S m + j, c)]) s).
  { apply imap_ext. intros j x _. cbn. by rewrite Nat.add_succ_r. }
  rewrite Hrest. case_decide as Hmk.
  - subst m. rewrite Nat.sub_diag. cbn [nth]. enough (Hz : sum_at k (mjoin (imap (λ j c, if (c =? 0)%Z then [] else [(S k + j, c)]) s)) = 0%Z) by lia.
    clear. assert (H : ∀ m, k < m → sum_at k (mjoin (imap (λ j c, if (c =? 0)%Z then [] else [(m + j, c)]) s)) = 0%Z); [|apply H; lia].
    induction s as [|c s IH]; intros m Hm; [done|]. rewrite imap_cons, mjoin_cons, sum_at_app.
    assert (Hrest : imap ((λ j c, if (c =? 0)%Z then [] else [(m + j, c)]) ∘ S) s = imap (λ j c, if (c =? 0)%Z then [] else [(S m + j, c)]) s).
    { apply imap_ext. intros j x _. cbn. by rewrite Nat.add_succ_r. }
    rewrite Hrest, IH by lia. destruct (c =? 0)%Z; cbn; [done|]. case_decide; lia.
  - rewrite IH by lia. by replace (k - m) with (S (k - S m)) by lia.
Qed.

Lemma shared_at d shared b k : k < BINS → added (block_hits d (length d) b) (replicate BINS 0%Z) shared →
  shared !! k = Some (wrap 32 (bin_count k (take (tile block items) (drop (b * tile block items) d)))).
Proof.
  intros Hk Hs. rewrite (added_at _ _ _ k 0 Hs) by (rewrite lookup_replicate_2; done). by rewrite block_hits_sum.
Qed.

Lemma shared_length d shared b : added (block_hits d (length d) b) (replicate BINS 0%Z) shared → length shared = BINS.
Proof.
  intros (o & _ & ->). assert (H : ∀ b, length (add_all o b) = length b).
  { induction o as [|w o IH]; intros c; [done|]. unfold add_all in *. cbn [foldl]. by rewrite IH, length_alter. }
  by rewrite H, length_replicate.
Qed.

(** Every counter grows by the number of elements in its bin, whatever the order of the
    atomic additions. *)
Lemma histogram_at d out out' k v : 0 < tile block items → k < BINS → in_width 32 v → out !! k = Some v →
  histogram_launch d out out' → out' !! k = Some (wrap 32 (v + bin_count k d)).
Proof.
  intros Ht Hk Hv Hout (shared & Hs & Ha). rewrite <-(wrap_small 32 v Hv) in Hout. rewrite (added_at _ _ _ k v Ha Hout). f_equal.
  set (grid := grid_blocks_for block items (length d)) in *.
  trans (wrap 32 (v + bin_count k (on_grid grid (λ b, take (tile block items) (drop (b * tile block items) d))))).
  2:{ by rewrite grid_tiles by by apply grid_covers. }
  clear Ha Hout. clearbody grid. induction grid as [|g IH]; [done|]. rewrite !on_grid_S, sum_at_app, bin_count_app.
  assert (Hm : sum_at k (merge_bins (shared g)) = wrap 32 (bin_count k (take (tile block items) (drop (g * tile block items) d)))).
  { rewrite merge_sum by (rewrite (shared_length d _ g); [done|apply Hs; lia]). apply nth_lookup_Some, shared_at; [done|]. apply Hs. lia. }
  rewrite Hm. specialize (IH (λ b Hb, Hs b (Nat.lt_lt_succ_r _ _ Hb))). unfold wrap in *.
  rewrite !Z.add_assoc, Zplus_mod_idemp_r. rewrite <-Zplus_mod_idemp_l, IH. by rewrite Zplus_mod_idemp_l.
Qed.

(** A launch adds only to counters of bins that some element falls into. *)
Lemma histogram_targets d (shared : nat → list Z) grid k c :
  (∀ b, b < grid → added (block_hits d (length d) b) (replicate BINS 0%Z) (shared b)) →
  (k, c) ∈ on_grid grid (λ b, merge_bins (shared b)) → k < BINS ∧ ∃ x, x ∈ d ∧ bin_of x = Z.of_nat k.
Proof.
  intros Hs (b & Hb & Hin)%elem_of_on_grid. unfold merge_bins in Hin. apply list_elem_of_join in Hin as (l & Hin & Hl).
  apply elem_of_lookup_imap in Hl as (j & c' & -> & Hj). destruct (Z.eqb_spec c' 0); [by apply elem_of_nil in Hin|].
  apply list_elem_of_singleton in Hin as [= -> ->].
  assert (Hk : j < BINS) by (rewrite <-(shared_length d (shared b) b); [by eapply lookup_lt_Some|by apply Hs]). split; [done|].
  rewrite (shared_at d (shared b) b j Hk (Hs b Hb)) in Hj. injection Hj as <-. unfold bin_count in n.
  destruct (filter _ _) as [|x l] eqn:Hf; [done|]. assert (Hx : x ∈ x :: l) by by left.
  rewrite <-Hf in Hx. apply list_elem_of_filter in Hx as [Hbin Hx]. exists x. unfold in_bin in Hbin. apply Is_true_true, Z.eqb_eq in Hbin.
  split; [|done]. by eapply subseteq_drop, subseteq_take.
Qed.
End histogram.

(** [(int)((v - lower_level) * scale)] for a finite [float]: towards zero, within [int]. *)
Definition f32_trunc (x : f32) : Z :=
  match x with
  | S754_finite s m e =>
    let a := if (e <? 0)%Z then (Z.pos m / 2 ^ (- e))%Z else (Z.pos m * 2 ^ e)%Z in
    Z.max (- 2 ^ 31) (Z.min (2 ^ 31 - 1) (if s then - a else a))
  | S754_infinity s => if s then - 2 ^ 31 else 2 ^ 31 - 1
  | _ => 0
  end%Z.
Definition bin_f32 (lower upper v : f32) : Z :=
  f32_trunc (f32_mul (f32_sub v lower) (f32_div (f32_of_Z (Z.of_nat BINS)) (f32_sub upper lower))).

(** ** Segmented reduction *)

Section segmented.
Context `{!CubBlock} (block : nat) {T : Type} (op : T → T → T) (identity : T).

(** [for (int idx = begin + threadIdx.x; idx < end; idx += blockDim.x)]; an element
    outside the buffer is not modelled. *)
Fixpoint seg_loop (fuel : nat) (d_in : list T) (i stop : nat) (acc : T) : T :=
  match fuel with
  | 0 => acc
  | S fuel => if i <? stop then seg_loop fuel d_in (i + block) stop (op acc (nth i d_in identity)) else acc
  end.
Definition seg_kernel (d_in : list T) (begins ends : list nat) (num_segments s : nat) : writes T :=
  if s <? num_segments then
    match begins !! s, ends !! s with
    | Some b, Some e =>
      match block_reduce op ((λ t, [seg_loop e d_in (b + t) e identity]) <$> seq 0 block) with
      | Some r => [(s, r)]
      | None => []
      end
    | _, _ => []
    end
  else [].
Definition seg_grid (num_segments : nat) : nat := Nat.max num_segments 1.

Context `{!CubLaw, !Assoc (=) op, !Comm (=) op}.

Lemma seg_loop_strided fuel d i stop acc : 0 < block → stop ≤ i + fuel * block →
  seg_loop fuel d i stop acc =
  foldl op acc ((λ p, nth p d identity) <$> filter (λ p, p < stop) ((λ k, i + k * block) <$> seq 0 fuel)).
Proof.
  intros Hb. revert i acc. induction fuel as [|fuel IH]; intros i acc Hf; [done|]. cbn [seg_loop seq].
  rewrite fmap_cons, filter_cons. replace (i + 0 * block) with i by lia.
  assert (Hseq : (λ k, i + k * block) <$> seq 1 fuel = (λ k, i + block + k * block) <$> seq 0 fuel).
  { rewrite <-fmap_S_seq, <-list_fmap_compose. apply list_fmap_ext. intros _ k _. cbn. lia. }
  destruct (Nat.ltb_spec i stop); case_decide; try lia.
  - rewrite IH by lia. by rewrite Hseq.
  - assert (Hnil : filter (λ p, p < stop) ((λ k, i + k * block) <$> seq 1 fuel) = []).
    { apply elem_of_nil_inv. intros p [Hlt Hp]%list_elem_of_filter. apply list_elem_of_fmap in Hp as (k & -> & _). nia. }
    by rewrite Hnil.
Qed.

Lemma strided_interval b e : 0 < block →
  on_grid block (λ t, filter (λ p, p < e) ((λ k, b + t + k * block) <$> seq 0 e)) ≡ₚ seq b (e - b).
Proof.
  intros Hb. assert (Hi : on_grid block (λ t, (λ k, b + t + k * block) <$> seq 0 e) ≡ₚ seq b (block * e)).
  { pose proof (idx_perm block e b) as Hp. unfold each in Hp. rewrite list_join_bind, list_fmap_bind in Hp. exact Hp. }
  assert (Hf : ∀ g, on_grid g (λ t, filter (λ p, p < e) ((λ k, b + t + k * block) <$> seq 0 e)) =
    filter (λ p, p < e) (on_grid g (λ t, (λ k, b + t + k * block) <$> seq 0 e))).
  { induction g as [|g IH]; [done|]. by rewrite !on_grid_S, filter_app, IH. }
  rewrite Hf, Hi. assert (Hsub : ∀ m, filter (λ p, p < e) (seq b m) = seq b (Nat.min m (e - b))).
  { induction m as [|m IH]; [done|]. rewrite seq_S, filter_app, IH, (filter_singleton _ _ []). case_decide.
    - replace (Nat.min (S m) (e - b)) with (S (Nat.min m (e - b))) by lia. rewrite seq_S. by replace (Nat.min m (e - b)) with m by lia.
    - rewrite app_nil_r. f_equal. lia. }
  rewrite Hsub. by rewrite Nat.min_r by nia.
Qed.

(** Each segment of the offsets gets the reduction of its slice. *)
Lemma seg_at d begins ends num out out' s b e :
  0 < block → padded_by op identity identity → Forall (padded_by op identity) d → num ≤ length out → s < num →
  begins !! s = Some b → ends !! s = Some e → e ≤ length d →
  stored (on_grid (seg_grid num) (seg_kernel d begins ends num)) out out' →
  out' !! s = Some (foldr op identity (drop b (take e d))).
Proof.
  intros Hb Hid Hd Hout Hs Hbegin Hend He Hst.
  assert (Hr : block_reduce op ((λ t, [seg_loop e d (b + t) e identity]) <$> seq 0 block) = Some (foldr op identity (drop b (take e d)))).
  { set (vals := λ t, (λ p, nth p d identity) <$> filter (λ p, p < e) ((λ k, b + t + k * block) <$> seq 0 e)).
    assert (Hpad : ∀ l, Forall (padded_by op identity) ((λ p, nth p d identity) <$> l)).
    { intros l. apply Forall_fmap, Forall_forall. intros p _. cbn. destruct (nth_in_or_default p d identity) as [Hin| ->]; [|done].
      rewrite Forall_forall in Hd. apply Hd. by apply list_elem_of_In. }
    assert (Hrow : ∀ t, seg_loop e d (b + t) e identity = foldr op identity (vals t)).
    { intros t. rewrite seg_loop_strided by (done || nia). rewrite (foldl_foldr op identity) by done. apply foldr_padded; [done..|]. apply Hpad. }
    assert (Hrows : mjoin ((λ t, [seg_loop e d (b + t) e identity]) <$> seq 0 block) = on_grid block (λ t, [foldr op identity (vals t)])).
    { rewrite list_join_bind, list_fmap_bind. unfold on_grid. apply list_bind_ext; [|done]. intros t. cbn. by rewrite Hrow. }
    assert (Hall : Forall (padded_by op identity) (on_grid block (λ t, [foldr op identity (vals t)]))).
    { apply Forall_bind, Forall_forall. intros t _. apply Forall_singleton, foldr_padded; [done..|]. apply Hpad. }
    destruct (on_grid block (λ t, [foldr op identity (vals t)])) as [|x l] eqn:Hl.
    { apply (f_equal length) in Hl. rewrite on_grid_singleton, length_fmap, length_seq in Hl. cbn in Hl. lia. }
    erewrite block_reduce_ok by done. f_equal. rewrite (foldl_foldr op identity) by (apply Forall_cons in Hall; tauto).
    change (op x (foldr op identity l)) with (foldr op identity (x :: l)). rewrite <-Hl.
    rewrite <-(foldr_grid op identity) by (done || intros; apply Hpad). unfold vals. rewrite <-on_grid_fmap.
    erewrite foldr_perm; [|apply _..|by rewrite strided_interval].
    rewrite nth_seq. replace (e - b - (length d - b)) with 0 by lia. cbn [replicate]. rewrite app_nil_r.
    rewrite take_drop_commute. destruct (Nat.le_gt_cases b e); [by replace (b + (e - b)) with e by lia|].
    by rewrite !drop_ge by (rewrite length_take; lia). }
  assert (Hone : ∀ g, (seg_kernel d begins ends num g).*1 = [g] ∨ (seg_kernel d begins ends num g).*1 = []).
  { intros g. unfold seg_kernel. destruct (g <? num); [|by right].
    destruct (begins !! g), (ends !! g); try by right. case_match; [by left|by right]. }
  eapply stored_at; [done| | |lia].
  - rewrite on_grid_fmap. apply NoDup_bind; [| |apply NoDup_seq].
    + intros g g' p _ _ Hp Hp'. destruct (Hone g) as [Ha|Ha], (Hone g') as [Hc|Hc]; rewrite Ha in Hp; rewrite Hc in Hp'; set_solver.
    + intros g _. destruct (Hone g) as [-> | ->]; [apply NoDup_singleton|constructor].
  - apply elem_of_on_grid. exists s. split; [unfold seg_grid; lia|]. unfold seg_kernel.
    destruct (Nat.ltb_spec s num); [|lia]. rewrite Hbegin, Hend, Hr. by left.
Qed.
End segmented.
