(* ===== verification/CubSource.v ===== *)
(** * CUB: the sources the kernels are compiled from

    Models the emitters of [crates/atomr-accel-cub/src/kernels/mod.rs]: the text of
    every kernel and its name.  A template is the format string of the source, with
    [~] for the double quote; [render] is [write!]'s substitution of named
    arguments. *)

From stdpp Require Import pretty.
From S2P Require Import Prelude Text Dtype CudaDtype.

Definition dq : ascii := "034".
Fixpoint quoted (s : string) : string :=
  match s with
  | EmptyString => EmptyString
  | String c s => String (if Ascii.eqb c "~" then dq else c) (quoted s)
  end.

Definition field_value (args : list (string * string)) (f : string) : string :=
  match list_find (λ a, a.1 = f) args with Some (_, (_, v)) => v | None => EmptyString end.
(** [write!] with named arguments; [{{] and [}}] are braces. *)
Fixpoint render_from (args : list (string * string)) (field : option string) (s : string) : string :=
  match s with
  | EmptyString => EmptyString
  | String c s' =>
    match field with
    | Some f =>
      if Ascii.eqb c "}" then field_value args f +:+ render_from args None s'
      else render_from args (Some (f +:+ String c EmptyString)) s'
    | None =>
      match s' with
      | String c' s'' =>
        if Ascii.eqb c "{" then
          if Ascii.eqb c' "{" then String c (render_from args None s'') else render_from args (Some EmptyString) s'
        else if Ascii.eqb c "}" && Ascii.eqb c' "}" then String c (render_from args None s'')
        else String c (render_from args None s')
      | EmptyString => s
      end
    end
  end.
Definition render (args : list (string * string)) (s : string) : string := render_from args None s.
Definition newline : string := String "010" EmptyString.

(** [str::contains] *)
Definition contains (hay needle : string) : bool := match String.index 0 needle hay with Some _ => true | None => false end.

(** ** Operations *)

Inductive ReductionOp : Type := Sum | Max | Min | ArgMax | ArgMin | Product.
Inductive ScanKind : Type := Inclusive | Exclusive.
Inductive SortDirection : Type := Ascending | Descending.
Inductive SelectMode : Type := Flagged | Unique.

Definition reduce_op_name (op : ReductionOp) : string :=
  match op with
  | Sum => "reduce_sum" | Max => "reduce_max" | Min => "reduce_min" | ArgMax => "reduce_argmax"
  | ArgMin => "reduce_argmin" | Product => "reduce_product"
  end.
Definition op_short (op : ReductionOp) : string :=
  match op with
  | Sum => "sum" | Max => "max" | Min => "min" | ArgMax => "argmax" | ArgMin => "argmin" | Product => "product"
  end.
Definition scan_op_name (k : ScanKind) : string :=
  match k with Inclusive => "scan_inclusive" | Exclusive => "scan_exclusive" end.
Definition op_suffix (d : SortDirection) : string := match d with Ascending => "asc" | Descending => "desc" end.
Definition select_op_name (m : SelectMode) : string :=
  match m with Flagged => "select_flagged" | Unique => "select_unique" end.

Definition BLOCK_THREADS : Z := 256.
Definition ITEMS_PER_THREAD : Z := 4.
Definition TILE_ELEMENTS : Z := BLOCK_THREADS * ITEMS_PER_THREAD.

(** [T::cuda_type_name()] of a [CudaDtype]. *)
Definition cname (e : Elem) : string := default EmptyString (cuda_type_name e).

Definition header_preamble (e : Elem) : string :=
  (if String.eqb (cname e) "__half" then "#define ATOMR_CUB_USE_FP16" +:+ newline
   else if String.eqb (cname e) "__nv_bfloat16" then "#define ATOMR_CUB_USE_BF16" +:+ newline else EmptyString) +:+
  quoted "#include ~atomr_cub_kernels.cuh~" +:+ newline +:+ newline.

Definition reduce_functor (op : ReductionOp) : string :=
  match op with
  | Sum => "cub::Sum()" | Max => "cub::Max()" | Min => "cub::Min()"
  | Product => "atomr_cub::Multiplies<decltype(thread_data[0])>()"
  | ArgMax => "cub::Max()" | ArgMin => "cub::Min()"
  end.
Definition reduce_identity (op : ReductionOp) (cname : string) : string :=
  match op with
  | Sum => "0"
  | Product => "1"
  | Max | ArgMax =>
    if String.eqb cname "float" then "-CUDART_INF_F" else if String.eqb cname "double" then "-CUDART_INF" else "0"
  | Min | ArgMin =>
    if String.eqb cname "float" then "CUDART_INF_F" else if String.eqb cname "double" then "CUDART_INF" else "0"
  end.

(** ** Templates *)

Definition reduce_template : string := quoted "
extern ~C~ __global__ void {kname}(
    const {cname}* __restrict__ d_in,
    {cname}* __restrict__ d_partials,
    unsigned long long n)
{{
    using BR = cub::BlockReduce<{cname}, {block}>;
    __shared__ typename BR::TempStorage tmp;
    constexpr int items = {items};
    const unsigned long long tile = blockDim.x * items;
    const unsigned long long base = (unsigned long long)blockIdx.x * tile;
    {cname} thread_data[items];
    #pragma unroll
    for (int i = 0; i < items; ++i) {{
        unsigned long long idx = base + threadIdx.x + (unsigned long long)i * blockDim.x;
        thread_data[i] = (idx < n) ? d_in[idx] : ({cname})({identity});
    }}
    {cname} block_result = BR(tmp).Reduce(thread_data, {functor});
    if (threadIdx.x == 0) d_partials[blockIdx.x] = block_result;
}}

extern ~C~ __global__ void {kname}_finalize(
    const {cname}* __restrict__ d_partials,
    {cname}* __restrict__ d_out,
    unsigned int n_partials)
{{
    using BR = cub::BlockReduce<{cname}, {block}>;
    __shared__ typename BR::TempStorage tmp;
    constexpr int items = {items};
    {cname} thread_data[items];
    #pragma unroll
    for (int i = 0; i < items; ++i) {{
        unsigned int idx = threadIdx.x + (unsigned int)i * blockDim.x;
        thread_data[i] = (idx < n_partials) ? d_partials[idx] : ({cname})({identity});
    }}
    {cname} final_result = BR(tmp).Reduce(thread_data, {functor});
    if (threadIdx.x == 0) d_out[0] = final_result;
}}
".

Definition scan_template : string := quoted "
extern ~C~ __global__ void {kname}(
    const {cname}* __restrict__ d_in,
    {cname}* __restrict__ d_out,
    {cname}* __restrict__ d_block_sums,
    unsigned long long n)
{{
    using BS = cub::BlockScan<{cname}, {block}>;
    __shared__ typename BS::TempStorage tmp;
    constexpr int items = {items};
    const unsigned long long tile = blockDim.x * items;
    const unsigned long long base = (unsigned long long)blockIdx.x * tile;
    {cname} thread_data[items];
    #pragma unroll
    for (int i = 0; i < items; ++i) {{
        unsigned long long idx = base + threadIdx.x + (unsigned long long)i * blockDim.x;
        thread_data[i] = (idx < n) ? d_in[idx] : ({cname})(0);
    }}
    {cname} block_total = ({cname})(0);
    {scan_call}
    #pragma unroll
    for (int i = 0; i < items; ++i) {{
        unsigned long long idx = base + threadIdx.x + (unsigned long long)i * blockDim.x;
        if (idx < n) d_out[idx] = thread_data[i];
    }}
    if (threadIdx.x == 0) d_block_sums[blockIdx.x] = block_total;
}}

// Single-block exclusive scan over per-block sums; the dispatcher
// launches this with one block of {block} threads. Output is written
// in-place into `d_block_sums` so the second-pass fixup kernel reads
// the per-block prefix from the same buffer.
extern ~C~ __global__ void {kname}_block_sums(
    {cname}* __restrict__ d_block_sums,
    unsigned int n_blocks)
{{
    using BS = cub::BlockScan<{cname}, {block}>;
    __shared__ typename BS::TempStorage tmp;
    constexpr int items = {items};
    {cname} thread_data[items];
    #pragma unroll
    for (int i = 0; i < items; ++i) {{
        unsigned int idx = threadIdx.x + (unsigned int)i * blockDim.x;
        thread_data[i] = (idx < n_blocks) ? d_block_sums[idx] : ({cname})(0);
    }}
    BS(tmp).ExclusiveSum(thread_data, thread_data);
    #pragma unroll
    for (int i = 0; i < items; ++i) {{
        unsigned int idx = threadIdx.x + (unsigned int)i * blockDim.x;
        if (idx < n_blocks) d_block_sums[idx] = thread_data[i];
    }}
}}

// Add each block's scanned prefix back into the per-element output.
extern ~C~ __global__ void {kname}_fixup(
    {cname}* __restrict__ d_out,
    const {cname}* __restrict__ d_block_prefix,
    unsigned long long n)
{{
    constexpr int items = {items};
    const unsigned long long tile = blockDim.x * items;
    const unsigned long long base = (unsigned long long)blockIdx.x * tile;
    if (blockIdx.x == 0) return;  // first block: prefix is 0
    {cname} prefix = d_block_prefix[blockIdx.x];
    #pragma unroll
    for (int i = 0; i < items; ++i) {{
        unsigned long long idx = base + threadIdx.x + (unsigned long long)i * blockDim.x;
        if (idx < n) d_out[idx] = d_out[idx] + prefix;
    }}
}}
".

Definition sort_pairs_template : string := quoted "
extern ~C~ __global__ void {kname}(
    const {kcname}* __restrict__ d_keys_in,
    {kcname}* __restrict__ d_keys_out,
    const {vcname}* __restrict__ d_values_in,
    {vcname}* __restrict__ d_values_out,
    unsigned int n)
{{
    using BRS = cub::BlockRadixSort<{kcname}, {block}, {items}, {vcname}>;
    __shared__ typename BRS::TempStorage tmp;
    constexpr int items = {items};
    {kcname} thread_keys[items];
    {vcname} thread_values[items];
    #pragma unroll
    for (int i = 0; i < items; ++i) {{
        unsigned int idx = threadIdx.x + (unsigned int)i * blockDim.x;
        thread_keys[i]   = (idx < n) ? d_keys_in[idx]   : ({kcname})(0);
        thread_values[i] = (idx < n) ? d_values_in[idx] : ({vcname})(0);
    }}
    BRS(tmp).{method}(thread_keys, thread_values);
    #pragma unroll
    for (int i = 0; i < items; ++i) {{
        unsigned int idx = threadIdx.x + (unsigned int)i * blockDim.x;
        if (idx < n) {{
            d_keys_out[idx]   = thread_keys[i];
            d_values_out[idx] = thread_values[i];
        }}
    }}
}}
".

Definition sort_keys_template : string := quoted "
extern ~C~ __global__ void {kname}(
    const {kcname}* __restrict__ d_keys_in,
    {kcname}* __restrict__ d_keys_out,
    unsigned int n)
{{
    using BRS = cub::BlockRadixSort<{kcname}, {block}, {items}>;
    __shared__ typename BRS::TempStorage tmp;
    constexpr int items = {items};
    {kcname} thread_keys[items];
    #pragma unroll
    for (int i = 0; i < items; ++i) {{
        unsigned int idx = threadIdx.x + (unsigned int)i * blockDim.x;
        thread_keys[i] = (idx < n) ? d_keys_in[idx] : ({kcname})(0);
    }}
    BRS(tmp).{method}(thread_keys);
    #pragma unroll
    for (int i = 0; i < items; ++i) {{
        unsigned int idx = threadIdx.x + (unsigned int)i * blockDim.x;
        if (idx < n) d_keys_out[idx] = thread_keys[i];
    }}
}}
".

Definition histogram_template : string := quoted "
extern ~C~ __global__ void {kname}(
    const {cname}* __restrict__ d_in,
    unsigned int* __restrict__ d_bins,
    unsigned long long n,
    float lower_level,
    float upper_level)
{{
    constexpr int BINS = 256;
    __shared__ unsigned int s_bins[BINS];
    for (int b = threadIdx.x; b < BINS; b += blockDim.x) s_bins[b] = 0;
    __syncthreads();

    constexpr int items = {items};
    const unsigned long long tile = blockDim.x * items;
    const unsigned long long base = (unsigned long long)blockIdx.x * tile;
    const float scale = (float)BINS / (upper_level - lower_level);

    #pragma unroll
    for (int i = 0; i < items; ++i) {{
        unsigned long long idx = base + threadIdx.x + (unsigned long long)i * blockDim.x;
        if (idx >= n) break;
        float v = (float)d_in[idx];
        int bin = (int)((v - lower_level) * scale);
        if (bin >= 0 && bin < BINS) atomicAdd(&s_bins[bin], 1u);
    }}
    __syncthreads();

    for (int b = threadIdx.x; b < BINS; b += blockDim.x) {{
        if (s_bins[b]) atomicAdd(&d_bins[b], s_bins[b]);
    }}
}}
".

Definition select_flagged_template : string := quoted "
extern ~C~ __global__ void {kname}(
    const {cname}* __restrict__ d_in,
    const unsigned char* __restrict__ d_flags,
    {cname}* __restrict__ d_out,
    unsigned int* __restrict__ d_num_selected,
    unsigned int n)
{{
    using BS = cub::BlockScan<unsigned int, {block}>;
    __shared__ typename BS::TempStorage tmp;
    constexpr int items = {items};
    {cname} thread_in[items];
    unsigned int thread_flag[items];
    #pragma unroll
    for (int i = 0; i < items; ++i) {{
        unsigned int idx = threadIdx.x + (unsigned int)i * blockDim.x;
        thread_in[i]   = (idx < n) ? d_in[idx]    : ({cname})(0);
        thread_flag[i] = (idx < n && d_flags[idx]) ? 1u : 0u;
    }}
    unsigned int total = 0;
    unsigned int thread_offset[items];
    BS(tmp).ExclusiveSum(thread_flag, thread_offset, total);
    #pragma unroll
    for (int i = 0; i < items; ++i) {{
        unsigned int idx = threadIdx.x + (unsigned int)i * blockDim.x;
        if (idx < n && thread_flag[i]) {{
            d_out[thread_offset[i]] = thread_in[i];
        }}
    }}
    if (threadIdx.x == 0) d_num_selected[0] = total;
}}
".

Definition select_unique_template : string := quoted "
extern ~C~ __global__ void {kname}(
    const {cname}* __restrict__ d_in,
    {cname}* __restrict__ d_out,
    unsigned int* __restrict__ d_num_selected,
    unsigned int n)
{{
    using BS = cub::BlockScan<unsigned int, {block}>;
    __shared__ typename BS::TempStorage scan_tmp;
    constexpr int items = {items};
    {cname} thread_in[items];
    unsigned int thread_flag[items];
    #pragma unroll
    for (int i = 0; i < items; ++i) {{
        unsigned int idx = threadIdx.x + (unsigned int)i * blockDim.x;
        thread_in[i] = (idx < n) ? d_in[idx] : ({cname})(0);
        if (idx == 0) {{
            thread_flag[i] = (idx < n) ? 1u : 0u;
        }} else if (idx < n) {{
            thread_flag[i] = (d_in[idx] != d_in[idx - 1]) ? 1u : 0u;
        }} else {{
            thread_flag[i] = 0u;
        }}
    }}
    unsigned int total = 0;
    unsigned int thread_offset[items];
    BS(scan_tmp).ExclusiveSum(thread_flag, thread_offset, total);
    #pragma unroll
    for (int i = 0; i < items; ++i) {{
        unsigned int idx = threadIdx.x + (unsigned int)i * blockDim.x;
        if (idx < n && thread_flag[i]) {{
            d_out[thread_offset[i]] = thread_in[i];
        }}
    }}
    if (threadIdx.x == 0) d_num_selected[0] = total;
}}
".

Definition partition_template : string := quoted "
extern ~C~ __global__ void {kname}(
    const {cname}* __restrict__ d_in,
    const unsigned char* __restrict__ d_flags,
    {cname}* __restrict__ d_out,
    unsigned int* __restrict__ d_num_selected,
    unsigned int n)
{{
    using BS = cub::BlockScan<unsigned int, {block}>;
    __shared__ typename BS::TempStorage tmp;
    constexpr int items = {items};
    {cname} thread_in[items];
    unsigned int thread_flag[items];
    #pragma unroll
    for (int i = 0; i < items; ++i) {{
        unsigned int idx = threadIdx.x + (unsigned int)i * blockDim.x;
        thread_in[i]   = (idx < n) ? d_in[idx]    : ({cname})(0);
        thread_flag[i] = (idx < n && d_flags[idx]) ? 1u : 0u;
    }}
    unsigned int total = 0;
    unsigned int thread_offset[items];
    BS(tmp).ExclusiveSum(thread_flag, thread_offset, total);
    #pragma unroll
    for (int i = 0; i < items; ++i) {{
        unsigned int idx = threadIdx.x + (unsigned int)i * blockDim.x;
        if (idx >= n) continue;
        if (thread_flag[i]) {{
            d_out[thread_offset[i]] = thread_in[i];
        }} else {{
            // Rejected items pack from the tail in reverse order to
            // match CUB's DevicePartition::Flagged contract.
            unsigned int rej_idx = idx - thread_offset[i];
            d_out[n - 1 - rej_idx] = thread_in[i];
        }}
    }}
    if (threadIdx.x == 0) d_num_selected[0] = total;
}}
".

Definition segmented_template : string := quoted "
extern ~C~ __global__ void {kname}(
    const {cname}* __restrict__ d_in,
    {cname}* __restrict__ d_out,
    const int* __restrict__ d_begin,
    const int* __restrict__ d_end,
    unsigned int num_segments)
{{
    if (blockIdx.x >= num_segments) return;
    using BR = cub::BlockReduce<{cname}, {block}>;
    __shared__ typename BR::TempStorage tmp;
    int begin = d_begin[blockIdx.x];
    int end   = d_end[blockIdx.x];
    {cname} thread_acc = ({cname})({identity});
    for (int idx = begin + threadIdx.x; idx < end; idx += blockDim.x) {{
        {cname} v = d_in[idx];
        thread_acc = {functor}(thread_acc, v);
    }}
    {cname} result = BR(tmp).Reduce(thread_acc, {functor});
    if (threadIdx.x == 0) d_out[blockIdx.x] = result;
}}
".

(** ** Emitters: the source and the main kernel's name *)

Definition block_arg : string * string := ("block", pretty BLOCK_THREADS).
Definition items_arg : string * string := ("items", pretty ITEMS_PER_THREAD).
Definition tile_arg : string * string := ("tile", pretty TILE_ELEMENTS).

Definition emit_reduce_source (op : ReductionOp) (t : Elem) : string * string :=
  let kname := "atomr_cub_" +:+ reduce_op_name op +:+ "_" +:+ NAME t in
  (header_preamble t +:+
   render [("op", reduce_op_name op); ("dtype", NAME t)]
     "// atomr-accel-cub: reduce {op} over <{dtype}> — block-level CUB, two-launch finalize." +:+ newline +:+
   render [("kname", kname); ("cname", cname t); block_arg; items_arg;
           ("identity", reduce_identity op (cname t)); ("functor", reduce_functor op)] reduce_template,
   kname).

Definition scan_call (k : ScanKind) : string :=
  match k with
  | Inclusive => "BS(tmp).InclusiveSum(thread_data, thread_data, block_total);"
  | Exclusive => "BS(tmp).ExclusiveSum(thread_data, thread_data, block_total);"
  end.
Definition emit_scan_source (k : ScanKind) (t : Elem) : string * string :=
  let kname := "atomr_cub_" +:+ scan_op_name k +:+ "_" +:+ NAME t in
  (header_preamble t +:+
   render [("kind", scan_op_name k); ("dtype", NAME t)]
     "// atomr-accel-cub: {kind} scan over <{dtype}> — block-level CUB, two-launch finalize (block scan + cross-block fixup)." +:+
   newline +:+
   render [("kname", kname); ("cname", cname t); block_arg; items_arg; ("scan_call", scan_call k)] scan_template,
   kname).

Definition sort_method (d : SortDirection) : string := match d with Ascending => "Sort" | Descending => "SortDescending" end.
(** [paired] is the element type of the values, if there are any. *)
Definition emit_sort_source (d : SortDirection) (k : Elem) (paired : option Elem) : string * string :=
  let kname :=
    match paired with
    | Some v => "atomr_cub_sort_" +:+ op_suffix d +:+ "_pairs_" +:+ NAME k +:+ "_" +:+ NAME v
    | None => "atomr_cub_sort_" +:+ op_suffix d +:+ "_" +:+ NAME k
    end in
  let args := [("kname", kname); ("kcname", cname k); block_arg; items_arg; ("method", sort_method d)] in
  (header_preamble k +:+
   render [("dir", op_suffix d); ("kdt", NAME k); ("vdt", match paired with Some v => ", " +:+ NAME v | None => EmptyString end); tile_arg]
     "// atomr-accel-cub: {dir} radix sort over <{kdt}{vdt}> — single-tile (n ≤ {tile}); larger inputs return GpuError from the dispatcher with a Phase 5.2 hint." +:+
   newline +:+
   match paired with
   | Some v => render (("vcname", cname v) :: args) sort_pairs_template
   | None => render args sort_keys_template
   end,
   kname).

Definition emit_histogram_source (t : Elem) : string * string :=
  let kname := "atomr_cub_histogram_even_" +:+ NAME t in
  (header_preamble t +:+
   render [("dtype", NAME t)] "// atomr-accel-cub: even-binned histogram over <{dtype}> — BINS=256 fixed in Phase 5.1." +:+ newline +:+
   render [("kname", kname); ("cname", cname t); items_arg] histogram_template,
   kname).

Definition emit_select_source (m : SelectMode) (t : Elem) : string * string :=
  let kname := "atomr_cub_" +:+ select_op_name m +:+ "_" +:+ NAME t in
  (header_preamble t +:+
   render [("op", select_op_name m); ("dtype", NAME t); tile_arg]
     "// atomr-accel-cub: {op} over <{dtype}> — single-tile (n ≤ {tile})." +:+ newline +:+
   render [("kname", kname); ("cname", cname t); block_arg; items_arg]
     match m with Flagged => select_flagged_template | Unique => select_unique_template end,
   kname).

Definition emit_partition_source (t : Elem) : string * string :=
  let kname := "atomr_cub_partition_flagged_" +:+ NAME t in
  (header_preamble t +:+
   render [("dtype", NAME t); tile_arg] "// atomr-accel-cub: partition_flagged over <{dtype}> — single-tile (n ≤ {tile})." +:+ newline +:+
   render [("kname", kname); ("cname", cname t); block_arg; items_arg] partition_template,
   kname).

Definition emit_segmented_reduce_source (op : ReductionOp) (t : Elem) : string * string :=
  let kname := "atomr_cub_segmented_reduce_" +:+ op_short op +:+ "_" +:+ NAME t in
  (header_preamble t +:+
   render [("op", op_short op); ("dtype", NAME t)] "// atomr-accel-cub: segmented {op} over <{dtype}> — one CTA per segment." +:+ newline +:+
   render [("kname", kname); ("cname", cname t); block_arg; ("identity", reduce_identity op (cname t)); ("functor", reduce_functor op)]
     segmented_template,
   kname).

(** The definition of an entry point, up to its parameters. *)
Definition entry_point (kname : string) : string := quoted "extern ~C~ __global__ void " +:+ kname +:+ "(".

Example reduce_sum_f32 :
  let '(src, kname) := emit_reduce_source Sum (Prim F32) in
  kname = "atomr_cub_reduce_sum_f32" ∧ contains src (entry_point kname) = true ∧
  contains src (entry_point (kname +:+ "_finalize")) = true ∧ contains src "cub::BlockReduce<float, 256>" = true.
Proof. by vm_compute. Qed.
Example sort_desc_pairs :
  let '(src, kname) := emit_sort_source Descending (Prim I32) (Some (Prim F32)) in
  kname = "atomr_cub_sort_desc_pairs_i32_f32" ∧ contains src "cub::BlockRadixSort<int, 256, 4, float>" = true ∧
  contains src ".SortDescending(thread_keys, thread_values);" = true.
Proof. by vm_compute. Qed.
