(* ===== verification/Cub.v ===== *)
(** * The CUB actor

    Models the rest of [crates/atomr-accel-cub/src]: [lib.rs] (messages, actor,
    cache of handles), [dispatch.rs] (compile or fetch, launch, configurations) and
    the request modules.  A request is checked and then driven by a task that asks
    the NVRTC actor ([Nvrtc.v]) for kernels and launches and awaits each answer;
    tasks run concurrently and share the cache.

    Parameters are the length of a buffer, the allocator, and which handles the
    NVRTC actor answers for a job. *)

From stdpp Require Import pretty.
From S2P Require Import Prelude Actor Errors Dtype CudaDtype DeviceState Envelope Nvrtc CubSource.

(** ** Configurations *)

Definition detect_sm_arch (major minor : option Z) : SmArch :=
  match default 8%Z major, default 0%Z minor with
  | 8, 0 => Sm80 | 8, 6 => Sm86 | 8, 9 => Sm89 | 9, 0 => Sm90
  | 10, _ => Sm100 | 12, _ => Sm120 | _, _ => Sm80
  end%Z.

(** The directories the build script found. *)
Record Includes := { cub_include : option string; cuda_include : option string; cccl_include : option string }.

Definition nvrtc_opts_for_cub (inc : Includes) (a : SmArch) : NvrtcOpts :=
  let opts := with_cpp_std Cpp17 (for_arch a) in
  let opts := match cub_include inc with Some p => with_include_path p opts | None => opts end in
  let opts := with_include_path (default "/usr/local/cuda/include" (cuda_include inc)) opts in
  match cccl_include inc with Some p => with_include_path p opts | None => opts end.

Definition grid_blocks (n : nat) : Z := Z.max ((Z.of_nat n + (TILE_ELEMENTS - 1)) / TILE_ELEMENTS) 1 mod 2 ^ 32.
Definition launch_config_for (n : nat) : LaunchConfig :=
  {| grid_dim := (grid_blocks n, 1, 1)%Z; block_dim := (BLOCK_THREADS, 1, 1)%Z; shared_mem_bytes := 0 |}.
Definition launch_config_single_block : LaunchConfig :=
  {| grid_dim := (1, 1, 1)%Z; block_dim := (BLOCK_THREADS, 1, 1)%Z; shared_mem_bytes := 0 |}.

(** ** Requests *)

Record ReduceRequest := { rd_type : Elem; rd_op : ReductionOp; rd_input : GpuRef; rd_output : GpuRef; rd_init : option Z; rd_reply : nat }.
Record ScanRequest := { sc_type : Elem; sc_kind : ScanKind; sc_input : GpuRef; sc_output : GpuRef; sc_init : option Z; sc_reply : nat }.
Record SortRequest := {
  so_key : Elem; so_value : Elem; so_direction : SortDirection; so_keys_in : GpuRef; so_keys_out : GpuRef;
  so_values_in : option GpuRef; so_values_out : option GpuRef; so_reply : nat;
}.
Record HistogramRequest := {
  hi_type : Elem; hi_input : GpuRef; hi_bins : GpuRef; hi_num_bins : Z; hi_lower : Z; hi_upper : Z; hi_reply : nat;
}.
Record SelectRequest := {
  se_type : Elem; se_mode : SelectMode; se_input : GpuRef; se_output : GpuRef; se_num_selected : GpuRef;
  se_flags : option GpuRef; se_reply : nat;
}.
Record PartitionRequest := {
  pa_type : Elem; pa_input : GpuRef; pa_output : GpuRef; pa_flags : GpuRef; pa_num_selected : GpuRef; pa_reply : nat;
}.
Record SegmentedReduceRequest := {
  sg_type : Elem; sg_op : ReductionOp; sg_input : GpuRef; sg_output : GpuRef; sg_begin : GpuRef; sg_end : GpuRef;
  sg_segments : Z; sg_reply : nat;
}.

Inductive CubMsg : Type :=
  | Reduce (r : ReduceRequest) | Scan (r : ScanRequest) | Sort (r : SortRequest) | Histogram (r : HistogramRequest)
  | Select (r : SelectRequest) | Partition (r : PartitionRequest) | SegmentedReduce (r : SegmentedReduceRequest).

Definition msg_reply (m : CubMsg) : nat :=
  match m with
  | Reduce r => rd_reply r | Scan r => sc_reply r | Sort r => so_reply r | Histogram r => hi_reply r
  | Select r => se_reply r | Partition r => pa_reply r | SegmentedReduce r => sg_reply r
  end.
Definition op_name (m : CubMsg) : string :=
  match m with
  | Reduce r => reduce_op_name (rd_op r) | Scan r => scan_op_name (sc_kind r)
  | Sort r => match so_direction r with Ascending => "sort_asc" | Descending => "sort_desc" end
  | Histogram _ => "histogram_even" | Select r => select_op_name (se_mode r) | Partition _ => "partition_flagged"
  | SegmentedReduce r => "segmented_" +:+ reduce_op_name (sg_op r)
  end.
Definition dtype_name_of (m : CubMsg) : string :=
  match m with
  | Reduce r => NAME (rd_type r) | Scan r => NAME (sc_type r) | Sort r => NAME (so_key r) | Histogram r => NAME (hi_type r)
  | Select r => NAME (se_type r) | Partition r => NAME (pa_type r) | SegmentedReduce r => NAME (sg_type r)
  end.

(** [ReduceRequest::new] and [with_init]; [SortRequest::keys_only] and [pairs]. *)
Definition ReduceRequest_new t op i o reply : ReduceRequest :=
  {| rd_type := t; rd_op := op; rd_input := i; rd_output := o; rd_init := None; rd_reply := reply |}.
Definition with_init (x : Z) (r : ReduceRequest) : ReduceRequest :=
  {| rd_type := rd_type r; rd_op := rd_op r; rd_input := rd_input r; rd_output := rd_output r; rd_init := Some x; rd_reply := rd_reply r |}.
Definition ScanRequest_new t k i o reply : ScanRequest :=
  {| sc_type := t; sc_kind := k; sc_input := i; sc_output := o; sc_init := None; sc_reply := reply |}.
Definition keys_only k d i o reply : SortRequest :=
  {| so_key := k; so_value := Prim U32; so_direction := d; so_keys_in := i; so_keys_out := o; so_values_in := None;
     so_values_out := None; so_reply := reply |}.
Definition pairs k v d i o vi vo reply : SortRequest :=
  {| so_key := k; so_value := v; so_direction := d; so_keys_in := i; so_keys_out := o; so_values_in := Some vi;
     so_values_out := Some vo; so_reply := reply |}.
Definition SelectRequest_new t m i o n reply : SelectRequest :=
  {| se_type := t; se_mode := m; se_input := i; se_output := o; se_num_selected := n; se_flags := None; se_reply := reply |}.
Definition with_flags (f : GpuRef) (r : SelectRequest) : SelectRequest :=
  {| se_type := se_type r; se_mode := se_mode r; se_input := se_input r; se_output := se_output r;
     se_num_selected := se_num_selected r; se_flags := Some f; se_reply := se_reply r |}.

(** ** The cache *)

Abbreviation Key := (string * string)%type.

Record KernelSourceCache := { inner : gmap Key (list Z); handles : gmap Key KernelHandle }.
Definition cache_empty : KernelSourceCache := {| inner := ∅; handles := ∅ |}.
Definition cache_get (op dtype : string) (c : KernelSourceCache) : option (list Z) := inner c !! (op, dtype).
Definition cache_insert (op dtype : string) (ptx : list Z) (c : KernelSourceCache) : KernelSourceCache :=
  {| inner := <[(op, dtype) := ptx]> (inner c); handles := handles c |}.
Definition get_handle (k : Key) (c : KernelSourceCache) : option KernelHandle := handles c !! k.
Definition insert_handle (k : Key) (h : KernelHandle) (c : KernelSourceCache) : KernelSourceCache :=
  {| inner := inner c; handles := <[k := h]> (handles c) |}.
Definition cache_len (c : KernelSourceCache) : nat := size (inner c).
Definition cache_is_empty (c : KernelSourceCache) : bool := cache_len c =? 0.
Definition handle_count (c : KernelSourceCache) : nat := size (handles c).
Definition kernel_key (op dtype : string) : string := "cub_" +:+ op +:+ "_" +:+ dtype.

(** ** Kernels: what the cache is keyed by, and what a compile job asks for *)

Inductive Pass : Type := First | Second | Third.
Inductive Kernel : Type :=
  | KReduce (finalize : bool) (op : ReductionOp) (t : Elem)
  | KScan (pass : Pass) (k : ScanKind) (t : Elem)
  | KSort (d : SortDirection) (k : Elem) (v : option Elem)
  | KHistogram (t : Elem)
  | KSelect (m : SelectMode) (t : Elem)
  | KPartition (t : Elem)
  | KSegmented (op : ReductionOp) (t : Elem).

Definition key (k : Kernel) : Key :=
  match k with
  | KReduce false op t => (reduce_op_name op, NAME t)
  | KReduce true op t => (reduce_op_name op +:+ "_finalize", NAME t)
  | KScan First k t => (scan_op_name k, NAME t)
  | KScan Second k t => (scan_op_name k +:+ "_block_sums", NAME t)
  | KScan Third k t => (scan_op_name k +:+ "_fixup", NAME t)
  | KSort d k None => ("sort_" +:+ op_suffix d +:+ "_keys", NAME k)
  | KSort d k (Some v) => ("sort_" +:+ op_suffix d +:+ "_pairs", NAME k +:+ "_" +:+ NAME v)
  | KHistogram t => ("histogram_even", NAME t)
  | KSelect m t => (select_op_name m, NAME t)
  | KPartition t => ("partition_flagged", NAME t)
  | KSegmented op t => ("segmented_" +:+ reduce_op_name op, NAME t)
  end.
Definition source_and_name (k : Kernel) : string * string :=
  match k with
  | KReduce fin op t =>
    let '(src, kname) := emit_reduce_source op t in (src, if fin then kname +:+ "_finalize" else kname)
  | KScan pass k t =>
    let '(src, kname) := emit_scan_source k t in
    (src, match pass with First => kname | Second => kname +:+ "_block_sums" | Third => kname +:+ "_fixup" end)
  | KSort d k v => emit_sort_source d k v
  | KHistogram t => emit_histogram_source t
  | KSelect m t => emit_select_source m t
  | KPartition t => emit_partition_source t
  | KSegmented op t => emit_segmented_reduce_source op t
  end.

(** Every type, and the types of a sort of pairs, have their own name. *)
Definition all_dtypes : list DType := [F32; F64; I8; I16; I32; I64; U8; U16; U32; U64; F16; Bf16; F8E4m3; F8E5m2; F4E2m1].
Definition all_elems : list Elem := (Prim <$> all_dtypes) ++ [C32; C64].
Lemma all_elems_all e : e ∈ all_elems.
Proof. apply (bool_decide_unpack _). by destruct e as [[]| |]. Qed.
Definition pair_names : list string := all_elems ≫= λ k, (λ v, NAME k +:+ "_" +:+ NAME v) <$> all_elems.

Fixpoint distinct (l : list string) : bool :=
  match l with [] => true | s :: l => negb (existsb (String.eqb s) l) && distinct l end.
Lemma distinct_NoDup l : distinct l = true → NoDup l.
Proof.
  induction l as [|s l IH]; cbn; intros H; [constructor|]. apply andb_true_iff in H as [H1 H2]. constructor; [|by apply IH].
  intros Hin. apply negb_true_iff in H1. enough (existsb (String.eqb s) l = true) by congruence.
  apply existsb_exists. exists s. split; [by apply list_elem_of_In|apply String.eqb_refl].
Qed.

Lemma pair_names_distinct : distinct pair_names = true.
Proof. run. Qed.
Lemma elem_names_distinct : distinct (NAME <$> all_elems) = true.
Proof. run. Qed.

Lemma NoDup_fmap_inj {A B} (f : A → B) l x y : NoDup (f <$> l) → x ∈ l → y ∈ l → f x = f y → x = y.
Proof.
  intros Hd Hx Hy Hf. apply list_elem_of_lookup in Hx as [i Hi], Hy as [j Hj].
  assert (i = j) as ->; [|congruence]. eapply NoDup_lookup; [exact Hd| |].
  - by rewrite list_lookup_fmap, Hi.
  - by rewrite list_lookup_fmap, Hj, Hf.
Qed.

Lemma NAME_inj a b : NAME a = NAME b → a = b.
Proof. intros H. eapply (NoDup_fmap_inj NAME all_elems); [apply distinct_NoDup, elem_names_distinct|apply all_elems_all..|done]. Qed.

Lemma pair_name_inj a b c d : NAME a +:+ "_" +:+ NAME b = NAME c +:+ "_" +:+ NAME d → a = c ∧ b = d.
Proof.
  intros H. pose (l := all_elems ≫= λ k, (λ v, (k, v)) <$> all_elems).
  assert (Hin : ∀ p, p ∈ l).
  { intros [x y]. apply list_elem_of_bind. exists x. split; [|apply all_elems_all]. apply list_elem_of_fmap_2, all_elems_all. }
  enough (Hp : (a, b) = (c, d)) by (by injection Hp).
  eapply (NoDup_fmap_inj (λ p, NAME p.1 +:+ "_" +:+ NAME p.2) l); [|done..].
  assert (Hl : (λ p : Elem * Elem, NAME p.1 +:+ "_" +:+ NAME p.2) <$> l = pair_names) by (by vm_compute).
  rewrite Hl. apply distinct_NoDup, pair_names_distinct.
Qed.

(** Two kernels never share an entry of the cache. *)
Lemma key_inj a b : key a = key b → a = b.
Proof.
  intros H. destruct a as [[] [] ?|[] [] ?|[] ? [?|]|?|[] ?|?|[] ?], b as [[] [] ?|[] [] ?|[] ? [?|]|?|[] ?|?|[] ?];
    cbn in H; try discriminate H; injection H as H;
    (apply NAME_inj in H as -> || (apply pair_name_inj in H as [-> ->])); done.
Qed.

(** ** Tasks *)

(** What is left of a task: it ends, reads or writes the shared cache, asks the NVRTC
    actor and awaits its answer ([None] when the actor dropped the reply), or
    allocates. *)
Inductive Task : Type :=
  | Finish (r : result unit GpuError)
  | Cached (k : Key) (next : option KernelHandle → Task)
  | Store (k : Key) (h : KernelHandle) (next : Task)
  | AskCompile (j : Job) (next : option (result KernelHandle GpuError) → Task)
  | Alloc (t : Elem) (n : Z) (next : result GpuRef string → Task)
  | AskLaunch (h : KernelHandle) (args : list KernelArg) (cfg : LaunchConfig)
      (next : option (result unit GpuError) → Task).

Section tasks.
Context (inc : Includes) (arch : SmArch) (len : slice_id → nat).

Definition job_of (k : Kernel) : Job :=
  let '(src, kname) := source_and_name k in
  {| j_src := src; j_kernel := kname; j_opts := nvrtc_opts_for_cub inc arch |}.

Definition dropped (during : string) : GpuError :=
  Unrecoverable ("atomr-accel-cub: NvrtcActor dropped reply during " +:+ during).

Definition compile_or_get_handle (k : Kernel) (next : KernelHandle → Task) : Task :=
  Cached (key k) (λ cached,
    match cached with
    | Some h => next h
    | None => AskCompile (job_of k) (λ answer,
        match answer with
        | Some (Ok h) => Store (key k) h (next h)
        | Some (Err e) => Finish (Err e)
        | None => Finish (Err (dropped "CompileAsync"))
        end)
    end).
Definition launch (h : KernelHandle) (args : list KernelArg) (cfg : LaunchConfig) (next : Task) : Task :=
  AskLaunch h args cfg (λ answer,
    match answer with
    | Some (Ok _) => next
    | Some (Err e) => Finish (Err e)
    | None => Finish (Err (dropped "Launch"))
    end).
Definition alloc_zeros (what : string) (t : Elem) (n : Z) (next : GpuRef → Task) : Task :=
  Alloc t n (λ r, match r with Ok ref => next ref | Err e => Finish (Err (OutOfMemory (what +:+ ": " +:+ e))) end).

Definition dev (t : Elem) (r : GpuRef) : KernelArg := DevSlice (KIND t) r.
Definition len_of (r : GpuRef) : nat := len (slice r).
Definition size_arg (n : nat) : KernelArg := Usize (Z.of_nat n).
Definition as_u32 (n : nat) : KernelArg := Scalar U32 (Z.of_nat n mod 2 ^ 32).
Definition done_ok : Task := Finish (Ok tt).

Definition run_reduce (r : ReduceRequest) : Task :=
  let t := rd_type r in
  compile_or_get_handle (KReduce false (rd_op r) t) (λ main,
  compile_or_get_handle (KReduce true (rd_op r) t) (λ finalize,
  let n := len_of (rd_input r) in
  let grid := grid_blocks n in
  alloc_zeros "cub partials alloc" t grid (λ partials,
  launch main [dev t (rd_input r); dev t partials; size_arg n] (launch_config_for n)
  (launch finalize [dev t partials; dev t (rd_output r); Usize grid] launch_config_single_block done_ok)))).

Definition run_scan (r : ScanRequest) : Task :=
  let t := sc_type r in
  compile_or_get_handle (KScan First (sc_kind r) t) (λ main,
  compile_or_get_handle (KScan Second (sc_kind r) t) (λ sums,
  compile_or_get_handle (KScan Third (sc_kind r) t) (λ fixup,
  let n := len_of (sc_input r) in
  let grid := grid_blocks n in
  alloc_zeros "cub scan block_sums alloc" t grid (λ block_sums,
  launch main [dev t (sc_input r); dev t (sc_output r); dev t block_sums; size_arg n] (launch_config_for n)
  (launch sums [dev t block_sums; Usize grid] launch_config_single_block
  (launch fixup [dev t (sc_output r); dev t block_sums; size_arg n] (launch_config_for n) done_ok)))))).

(** A sort is of pairs when both value buffers are given. *)
Definition sort_values (r : SortRequest) : option (GpuRef * GpuRef) :=
  match so_values_in r, so_values_out r with Some i, Some o => Some (i, o) | _, _ => None end.
Definition sort_kernel (r : SortRequest) : Kernel :=
  KSort (so_direction r) (so_key r) (match sort_values r with Some _ => Some (so_value r) | None => None end).
Definition run_sort (r : SortRequest) : Task :=
  compile_or_get_handle (sort_kernel r) (λ h,
  let n := len_of (so_keys_in r) in
  let keys := [dev (so_key r) (so_keys_in r); dev (so_key r) (so_keys_out r)] in
  let values := match sort_values r with Some (i, o) => [dev (so_value r) i; dev (so_value r) o] | None => [] end in
  launch h (keys ++ values ++ [size_arg n]) launch_config_single_block done_ok).

Definition run_histogram (r : HistogramRequest) : Task :=
  compile_or_get_handle (KHistogram (hi_type r)) (λ h,
  let n := len_of (hi_input r) in
  launch h [dev (hi_type r) (hi_input r); DevSlice U32 (hi_bins r); size_arg n; Scalar F32 (hi_lower r); Scalar F32 (hi_upper r)]
    (launch_config_for n) done_ok).

(** [flags.unwrap()] is after the check of [dispatch]. *)
Definition run_select (r : SelectRequest) : Task :=
  compile_or_get_handle (KSelect (se_mode r) (se_type r)) (λ h,
  let t := se_type r in
  let flags := match se_mode r, se_flags r with Flagged, Some f => [DevSlice U8 f] | _, _ => [] end in
  launch h (dev t (se_input r) :: flags ++ [dev t (se_output r); DevSlice U32 (se_num_selected r); as_u32 (len_of (se_input r))])
    launch_config_single_block done_ok).

Definition run_partition (r : PartitionRequest) : Task :=
  let t := pa_type r in
  compile_or_get_handle (KPartition t) (λ h,
  launch h [dev t (pa_input r); DevSlice U8 (pa_flags r); dev t (pa_output r); DevSlice U32 (pa_num_selected r);
            as_u32 (len_of (pa_input r))] launch_config_single_block done_ok).

Definition segmented_config (segments : Z) : LaunchConfig :=
  {| grid_dim := (Z.max segments 1, 1, 1)%Z; block_dim := (BLOCK_THREADS, 1, 1)%Z; shared_mem_bytes := 0 |}.
Definition run_segmented_reduce (r : SegmentedReduceRequest) : Task :=
  let t := sg_type r in
  compile_or_get_handle (KSegmented (sg_op r) t) (λ h,
  launch h [dev t (sg_input r); dev t (sg_output r); DevSlice I32 (sg_begin r); DevSlice I32 (sg_end r); Scalar U32 (sg_segments r)]
    (segmented_config (sg_segments r)) done_ok).

(** ** The actor *)

Definition unwired (who : string) : GpuError := Unrecoverable ("atomr-accel-cub::" +:+ who).
Definition not_wired (m : CubMsg) : GpuError :=
  unwired match m with
  | Reduce _ => "CubReduce: NvrtcActor not wired into CubActor" | Scan _ => "CubScan: NvrtcActor not wired into CubActor"
  | Sort _ => "CubSort: NvrtcActor not wired into CubActor" | Histogram _ => "CubHistogram: NvrtcActor not wired into CubActor"
  | Select _ => "CubSelect: NvrtcActor not wired into CubActor" | Partition _ => "CubPartition: NvrtcActor not wired"
  | SegmentedReduce _ => "CubSegmentedReduce: NvrtcActor not wired"
  end.
Definition too_big (n : nat) : bool := (TILE_ELEMENTS <? Z.of_nat n)%Z.
Definition sort_too_big (n : nat) : GpuError :=
  unwired ("CubSort: n=" +:+ pretty n +:+ " exceeds single-block limit (" +:+ pretty TILE_ELEMENTS +:+
           "); multi-block radix sort lands in Phase 5.2").
Definition tile_too_big (who : string) (n : nat) : GpuError :=
  unwired (who +:+ ": n=" +:+ pretty n +:+ " exceeds single-tile limit (" +:+ pretty TILE_ELEMENTS +:+
           "); multi-block lands in Phase 5.2").
Definition no_flags : GpuError := unwired "CubSelect: SelectMode::Flagged requires a flags buffer".

(** The [dispatch] of a request: refused at once, or the task that is spawned. *)
Definition dispatch (wired : bool) (m : CubMsg) : result Task GpuError :=
  if negb wired then Err (not_wired m)
  else match m with
  | Reduce r => Ok (run_reduce r)
  | Scan r => Ok (run_scan r)
  | Sort r =>
    let n := len_of (so_keys_in r) in if too_big n then Err (sort_too_big n) else Ok (run_sort r)
  | Histogram r => Ok (run_histogram r)
  | Select r =>
    let n := len_of (se_input r) in
    if too_big n then Err (tile_too_big "CubSelect" n)
    else match se_mode r, se_flags r with Flagged, None => Err no_flags | _, _ => Ok (run_select r) end
  | Partition r =>
    let n := len_of (pa_input r) in if too_big n then Err (tile_too_big "CubPartition" n) else Ok (run_partition r)
  | SegmentedReduce r => Ok (run_segmented_reduce r)
  end.

(** [CubInner]; the tasks it spawned are kept with it, under their reply channels. *)
Inductive CubInner : Type := Real (wired : bool) | Mock.
Record CubState := { ci : CubInner; kernel_cache : KernelSourceCache; running : list (nat * Task) }.
Inductive CEff : Type :=
  | Replied (ch : nat) (r : result unit GpuError)
  | Compiling (ch : nat) (j : Job)
  | Launching (ch : nat) (h : KernelHandle) (args : list KernelArg) (cfg : LaunchConfig).

Definition cub_mock : GpuError := Unrecoverable "CubActor in mock mode (no GPU available)".
Definition cub_props (nvrtc : bool) : CubState := {| ci := Real nvrtc; kernel_cache := cache_empty; running := [] |}.
Definition mock_props : CubState := {| ci := Mock; kernel_cache := cache_empty; running := [] |}.
Definition spawn_task (ch : nat) (t : Task) (s : CubState) : CubState :=
  {| ci := ci s; kernel_cache := kernel_cache s; running := running s ++ [(ch, t)] |}.

(** [CubActor::handle] *)
Definition cub_handle (m : CubMsg) : act CubState CEff unit :=
  s ← get;
  match ci s with
  | Mock => emit (Replied (msg_reply m) (Err cub_mock))
  | Real wired =>
    match dispatch wired m with
    | Err e => emit (Replied (msg_reply m) (Err e))
    | Ok t => modify (spawn_task (msg_reply m) t)
    end
  end.

(** A step of a task, whatever the NVRTC actor and the allocator answer. *)
Inductive task_step (compiled : Job → KernelHandle → Prop) (ch : nat) :
    KernelSourceCache → Task → list CEff → KernelSourceCache → Task → Prop :=
  | TCached c k next : task_step compiled ch c (Cached k next) [] c (next (get_handle k c))
  | TStore c k h next : task_step compiled ch c (Store k h next) [] (insert_handle k h c) next
  | TCompile c j next r : (∀ h, r = Some (Ok h) → compiled j h) →
      task_step compiled ch c (AskCompile j next) [Compiling ch j] c (next r)
  | TAlloc c t n next r : task_step compiled ch c (Alloc t n next) [] c (next r)
  | TLaunch c h args cfg next r : task_step compiled ch c (AskLaunch h args cfg next) [Launching ch h args cfg] c (next r).

Inductive cub_step (compiled : Job → KernelHandle → Prop) : CubState → list CubMsg → list CEff → CubState → Prop :=
  | CMsg m s s' es : exec (cub_handle m) s = (s', es) → cub_step compiled s [m] es s'
  | CTask i ch t t' c' es s : running s !! i = Some (ch, t) → task_step compiled ch (kernel_cache s) t es c' t' →
      cub_step compiled s [] es {| ci := ci s; kernel_cache := c'; running := <[i := (ch, t')]> (running s) |}
  | CDone i ch r s : running s !! i = Some (ch, Finish r) →
      cub_step compiled s [] [Replied ch r] {| ci := ci s; kernel_cache := kernel_cache s; running := delete i (running s) |}.

(** Executions, with the messages delivered and the effects. *)
Inductive cub_steps (compiled : Job → KernelHandle → Prop) (s0 : CubState) : list CubMsg → list CEff → CubState → Prop :=
  | CRefl : cub_steps compiled s0 [] [] s0
  | CSnoc ms es s ms' es' s' : cub_steps compiled s0 ms es s → cub_step compiled s ms' es' s' →
      cub_steps compiled s0 (ms ++ ms') (es ++ es') s'.
End tasks.

(** ** Every launch runs the kernel it was written for *)

Section safety.
Context (inc : Includes) (arch : SmArch) (len : slice_id → nat) (compiled : Job → KernelHandle → Prop).

Abbreviation job_of := (job_of inc arch).
Abbreviation dispatched := (dispatch inc arch len).
Abbreviation cub_steps := (cub_steps inc arch len compiled).
Abbreviation cub_step := (cub_step inc arch len compiled).

(** The kernels a request launches, in order. *)
Definition kernels_of (m : CubMsg) : list Kernel :=
  match m with
  | Reduce r => [KReduce false (rd_op r) (rd_type r); KReduce true (rd_op r) (rd_type r)]
  | Scan r => (λ p, KScan p (sc_kind r) (sc_type r)) <$> [First; Second; Third]
  | Sort r => [sort_kernel r]
  | Histogram r => [KHistogram (hi_type r)]
  | Select r => [KSelect (se_mode r) (se_type r)]
  | Partition r => [KPartition (pa_type r)]
  | SegmentedReduce r => [KSegmented (sg_op r) (sg_type r)]
  end.

Definition built (k : Kernel) (h : KernelHandle) : Prop := compiled (job_of k) h.
Definition entry_ok (k : Key) (h : KernelHandle) : Prop := ∀ kern, key kern = k → built kern h.
Definition cache_ok (c : KernelSourceCache) : Prop := ∀ k h, get_handle k c = Some h → entry_ok k h.

(** A task whose launches run the given kernels. *)
Fixpoint runs (ks : list Kernel) (t : Task) : Prop :=
  match t with
  | Finish _ => True
  | Cached k next => ∀ o, (∀ h, o = Some h → entry_ok k h) → runs ks (next o)
  | Store k h next => entry_ok k h ∧ runs ks next
  | AskCompile j next => ∀ r, (∀ h, r = Some (Ok h) → compiled j h) → runs ks (next r)
  | Alloc _ _ next => ∀ r, runs ks (next r)
  | AskLaunch h _ _ next => match ks with k :: ks => built k h ∧ ∀ r, runs ks (next r) | [] => False end
  end.

Lemma runs_compile ks k next : (∀ h, built k h → runs ks (next h)) → runs ks (compile_or_get_handle inc arch k next).
Proof.
  intros Hn [h|] Hh; [by apply Hn, Hh|]. intros [[h|e]|] Hr; cbn; [|done..].
  split; [|by apply Hn, Hr]. intros kern ->%key_inj. by apply Hr.
Qed.

Lemma runs_launch ks k h args cfg next : built k h → runs ks next → runs (k :: ks) (launch h args cfg next).
Proof. intros Hk Hn. split; [done|]. by intros [[]|]. Qed.

Lemma runs_alloc ks what t n next : (∀ r, runs ks (next r)) → runs ks (alloc_zeros what t n next).
Proof. intros Hn [r|e]; cbn; [apply Hn|done]. Qed.

Lemma dispatch_runs wired m t : dispatched wired m = Ok t → runs (kernels_of m) t.
Proof.
  unfold dispatch. destruct wired; [|done]. cbn [negb]. destruct m as [r|r|r|r|r|r|r]; cbn [kernels_of fmap list_fmap].
  - intros [= <-]. apply runs_compile. intros h1 H1. apply runs_compile. intros h2 H2. apply runs_alloc. intros p.
    by apply runs_launch, runs_launch.
  - intros [= <-]. apply runs_compile. intros h1 H1. apply runs_compile. intros h2 H2. apply runs_compile. intros h3 H3.
    apply runs_alloc. intros p. by apply runs_launch, runs_launch, runs_launch.
  - destruct (too_big _); [done|]. intros [= <-]. apply runs_compile. intros h H. by apply runs_launch.
  - intros [= <-]. apply runs_compile. intros h H. by apply runs_launch.
  - destruct (too_big _); [done|]. intros Ht. assert (t = run_select inc arch len r) as ->.
    { by destruct (se_mode r), (se_flags r); simplify_eq. }
    apply runs_compile. intros h H. by apply runs_launch.
  - destruct (too_big _); [done|]. intros [= <-]. apply runs_compile. intros h H. by apply runs_launch.
  - intros [= <-]. apply runs_compile. intros h H. by apply runs_launch.
Qed.

(** The handles a channel's task has launched, and the channels answered. *)
Definition launched (ch : nat) (es : list CEff) : list KernelHandle :=
  es ≫= λ e, match e with Launching ch' h _ _ => if decide (ch' = ch) then [h] else [] | _ => [] end.
Definition replied (es : list CEff) : list nat := es ≫= λ e, match e with Replied ch _ => [ch] | _ => [] end.

(** What a task does next, and what it still has to do then. *)
Lemma task_step_runs ch c t es c' t' ks : cache_ok c → runs ks t → task_step compiled ch c t es c' t' →
  cache_ok c' ∧ ∃ done ks', ks = done ++ ks' ∧ Forall2 built done (launched ch es) ∧ runs ks' t' ∧
    replied es = [] ∧ ∀ ch', ch' ≠ ch → launched ch' es = [].
Proof.
  intros Hc Hr Hs. destruct Hs as [c k next|c k h next|c j next r Hj|c ty n next r|c h args cfg next r]; cbn in Hr.
  - split; [done|]. exists [], ks. split_and!; [done|constructor|by apply Hr, Hc|done|done].
  - destruct Hr as [Hk Hr]. split.
    + intros k' h' Hl. unfold get_handle, insert_handle in Hl. cbn in Hl.
      apply lookup_insert_Some in Hl as [[<- <-]|[_ Hl]]; [done|by apply Hc].
    + exists [], ks. split_and!; [done|constructor|done|done|done].
  - split; [done|]. exists [], ks. split_and!; [done|constructor|by apply Hr|done|done].
  - split; [done|]. exists [], ks. split_and!; [done|constructor|by apply Hr|done|done].
  - destruct ks as [|k ks]; [done|]. destruct Hr as [Hk Hr]. split; [done|]. exists [k], ks. split_and!; [done| |by apply Hr|done|].
    + unfold launched. cbn. rewrite decide_True by done. by repeat constructor.
    + intros ch' Hne. unfold launched. cbn. by rewrite decide_False.
Qed.

(** The history of every message delivered so far. *)
Definition history_ok (s : CubState) (es : list CEff) (m : CubMsg) : Prop :=
  ∃ done ks, kernels_of m = done ++ ks ∧ Forall2 built done (launched (msg_reply m) es) ∧
    ∀ t, (msg_reply m, t) ∈ running s → runs ks t.
Definition cub_inv (ms : list CubMsg) (es : list CEff) (s : CubState) : Prop :=
  cache_ok (kernel_cache s) ∧ Forall (history_ok s es) ms ∧
  (∀ ch, ch ∉ msg_reply <$> ms → launched ch es = []) ∧
  (running s).*1 ++ replied es ≡ₚ msg_reply <$> ms.

Lemma launched_app ch es es' : launched ch (es ++ es') = launched ch es ++ launched ch es'.
Proof. unfold launched. by rewrite bind_app. Qed.
Lemma replied_app es es' : replied (es ++ es') = replied es ++ replied es'.
Proof. unfold replied. by rewrite bind_app. Qed.

Lemma cub_handle_cases m s s' es : exec (cub_handle inc arch len m) s = (s', es) →
  (∃ r, s' = s ∧ es = [Replied (msg_reply m) r]) ∨
  (∃ wired t, dispatched wired m = Ok t ∧ s' = spawn_task (msg_reply m) t s ∧ es = []).
Proof.
  intros He. enough (H : awp (cub_handle inc arch len m) (λ _ s' es,
    (∃ r, s' = s ∧ es = [Replied (msg_reply m) r]) ∨
    (∃ wired t, dispatched wired m = Ok t ∧ s' = spawn_task (msg_reply m) t s ∧ es = [])) s).
  { apply awp_exec in H. by rewrite He in H. }
  unfold cub_handle. awp_steps. destruct (ci s) as [wired|]; awp_steps; [|left; eauto].
  destruct (dispatched wired m) as [t|e] eqn:Hd; awp_steps; [right|left]; eauto.
Qed.

Lemma inv_message ms es s m s' es' : msg_reply m ∉ msg_reply <$> ms → cub_inv ms es s →
  exec (cub_handle inc arch len m) s = (s', es') → cub_inv (ms ++ [m]) (es ++ es') s'.
Proof.
  intros Hfresh (Hc & Hh & Hl & Hp) He. assert (Hnew : launched (msg_reply m) es = []) by by apply Hl.
  assert (Hnot : ∀ t, (msg_reply m, t) ∉ running s).
  { intros t Ht. apply Hfresh. rewrite <-Hp. apply elem_of_app. left. by apply (list_elem_of_fmap_2 fst _ (msg_reply m, t)). }
  assert (Hkeep : ∀ s1 es1, (∀ ch, launched ch es1 = []) → (∀ ch t, ch ≠ msg_reply m → (ch, t) ∈ running s1 → (ch, t) ∈ running s) →
    Forall (history_ok s1 (es ++ es1)) ms).
  { intros s1 es1 Hes Hrun. rewrite Forall_forall in Hh |- *. intros m' Hm'. destruct (Hh m' Hm') as (done & ks & Hk & Hf & Hr).
    exists done, ks. rewrite launched_app, Hes, app_nil_r. split_and!; [done|done|]. intros t Ht. apply Hr, Hrun; [|done].
    intros Heq. apply Hfresh. rewrite <-Heq. by apply list_elem_of_fmap_2. }
  apply cub_handle_cases in He as [(r & -> & ->)|(wired & t & Hd & -> & ->)].
  - split_and!; [done| | |].
    + apply Forall_app. split; [by apply Hkeep|]. apply Forall_singleton. exists [], (kernels_of m).
      rewrite launched_app, Hnew. split_and!; [done|constructor|]. intros t Ht. by apply Hnot in Ht.
    + intros ch Hch. rewrite fmap_app, not_elem_of_app in Hch. rewrite launched_app, Hl by tauto. done.
    + rewrite replied_app, fmap_app, app_assoc, Hp. done.
  - split_and!; [done| | |].
    + apply Forall_app. split.
      * apply Hkeep; [done|]. intros ch t' Hne Ht'. cbn in Ht'. apply elem_of_app in Ht' as [?|Ht']; [done|].
        apply list_elem_of_singleton in Ht' as [= -> _]. done.
      * apply Forall_singleton. exists [], (kernels_of m). rewrite launched_app, Hnew. split_and!; [done|constructor|].
        intros t' Ht'. cbn in Ht'. apply elem_of_app in Ht' as [Ht'|Ht']; [by apply Hnot in Ht'|].
        apply list_elem_of_singleton in Ht' as [= ->]. by eapply dispatch_runs.
    + intros ch Hch. rewrite fmap_app, not_elem_of_app in Hch. rewrite launched_app, Hl by tauto. done.
    + rewrite replied_app, app_nil_r. cbn [running spawn_task]. rewrite !fmap_app, <-Hp. cbn [fmap list_fmap fst].
      rewrite <-!app_assoc. f_equiv. apply Permutation_app_comm.
Qed.

Lemma inv_task ms es s i ch t t' c' es' : NoDup (msg_reply <$> ms) → cub_inv ms es s → running s !! i = Some (ch, t) →
  task_step compiled ch (kernel_cache s) t es' c' t' →
  cub_inv ms (es ++ es') {| ci := ci s; kernel_cache := c'; running := <[i := (ch, t')]> (running s) |}.
Proof.
  intros Hd (Hc & Hh & Hl & Hp) Hi Hs.
  assert (Hch : NoDup (running s).*1) by (rewrite <-Hp in Hd; by apply NoDup_app in Hd as [? _]).
  assert (Hkeys : (<[i := (ch, t')]> (running s)).*1 = (running s).*1).
  { rewrite list_fmap_insert. cbn. rewrite list_insert_id; [done|]. by rewrite list_lookup_fmap, Hi. }
  assert (Hin : (ch, t) ∈ running s) by by eapply list_elem_of_lookup_2.
  assert (Hmem : ch ∈ msg_reply <$> ms).
  { rewrite <-Hp. apply elem_of_app. left. by apply (list_elem_of_fmap_2 fst _ (ch, t)). }
  assert (Hme : ∃ m, m ∈ ms ∧ ch = msg_reply m) by (apply list_elem_of_fmap in Hmem as (m & ? & ?); eauto).
  destruct Hme as (m & Hm & ->). pose proof (proj1 (Forall_forall _ _) Hh m Hm) as (done & ks & Hk & Hf & Hr).
  destruct (task_step_runs _ _ _ _ _ _ ks Hc (Hr t Hin) Hs) as (Hc' & done' & ks' & -> & Hf' & Hr' & Hrep & Hoth).
  split_and!; cbn; [done| | |].
  - apply Forall_forall. intros m' Hm'. pose proof (proj1 (Forall_forall _ _) Hh m' Hm') as (done1 & ks1 & Hk1 & Hf1 & Hr1).
    destruct (decide (msg_reply m' = msg_reply m)) as [Heq|Hne].
    + assert (m' = m) as -> by (by eapply (NoDup_fmap_inj msg_reply)).
      exists (done ++ done'), ks'. rewrite launched_app. split_and!; [by rewrite Hk, app_assoc|by apply Forall2_app|].
      intros t1 Ht1. cbn in Ht1. apply list_elem_of_lookup in Ht1 as [j Hj]. apply list_lookup_insert_Some in Hj as [(<- & [= <-] & _)|(Hij & Hj)]; [done|].
      exfalso. apply Hij. eapply NoDup_lookup; [exact Hch| |]; rewrite list_lookup_fmap; [by rewrite Hi|by rewrite Hj].
    + exists done1, ks1. rewrite launched_app, (Hoth _ Hne), app_nil_r. split_and!; [done|done|]. intros t1 Ht1. apply Hr1. cbn in Ht1.
      apply list_elem_of_lookup in Ht1 as [j Hj]. apply list_lookup_insert_Some in Hj as [(_ & [= Heq _] & _)|(_ & Hj)]; [by rewrite Heq in Hne|].
      by eapply list_elem_of_lookup_2.
  - intros ch' Hch'. rewrite launched_app, Hl by done. rewrite Hoth; [done|]. intros ->. by apply Hch'.
  - by rewrite Hkeys, replied_app, Hrep, app_nil_r.
Qed.

Lemma inv_done ms es s i ch r : cub_inv ms es s → running s !! i = Some (ch, Finish r) →
  cub_inv ms (es ++ [Replied ch r]) {| ci := ci s; kernel_cache := kernel_cache s; running := delete i (running s) |}.
Proof.
  intros (Hc & Hh & Hl & Hp) Hi. split_and!; cbn; [done| | |].
  - eapply Forall_impl; [exact Hh|]. intros m (done & ks & Hk & Hf & Hr). exists done, ks. rewrite launched_app, app_nil_r.
    split_and!; [done|done|]. intros t Ht. apply Hr. cbn in Ht. rewrite (delete_Permutation (running s) i (ch, Finish r)) by done. by right.
  - intros ch' Hch'. by rewrite launched_app, Hl.
  - rewrite replied_app. rewrite <-Hp. pose proof (fmap_Permutation fst _ _ (delete_Permutation (running s) i _ Hi)) as Hperm.
    cbn in Hperm. rewrite Hperm. cbn. rewrite (Permutation_app_comm (replied es)). symmetry. apply (Permutation_middle _ _ ch).
Qed.

Lemma cub_steps_inv nvrtc ms es s : cub_steps (cub_props nvrtc) ms es s → NoDup (msg_reply <$> ms) → cub_inv ms es s.
Proof.
  intros Hs. induction Hs as [|ms es s ms' es' s' _ IH H1]; intros Hd.
  - split_and!; [|constructor|done|done]. intros k h Hk. by destruct (lookup_empty_Some k h Hk).
  - rewrite fmap_app in Hd. pose proof Hd as (Hd1 & Hd2 & _)%NoDup_app. specialize (IH Hd1).
    destruct H1 as [m s s' es' He|i ch t t' c' es' s Hi Ht|i ch r s Hi].
    + apply (inv_message ms es s m); [|done|done]. intros Hin. apply (Hd2 _ Hin). by left.
    + rewrite app_nil_r in *. by eapply inv_task.
    + rewrite app_nil_r in *. by apply inv_done.
Qed.
End safety.

(** C25 (requests to CUB): in every execution, with requests on distinct channels and
    tasks interleaved in any way, a request is still running or answered exactly
    once, and the launches of a request run handles that were compiled from its own
    kernels' sources, in their order, whether they came from the shared cache or
    from the compiler. *)
Theorem cub_serves inc arch len compiled nvrtc ms es s :
  cub_steps inc arch len compiled (cub_props nvrtc) ms es s → NoDup (msg_reply <$> ms) →
  (running s).*1 ++ replied es ≡ₚ msg_reply <$> ms ∧
  ∀ m, m ∈ ms → ∃ done rest, kernels_of m = done ++ rest ∧
    Forall2 (λ k h, compiled (job_of inc arch k) h) done (launched (msg_reply m) es).
Proof.
  intros Hs Hd. destruct (cub_steps_inv inc arch len compiled nvrtc ms es s Hs Hd) as (_ & Hh & _ & Hp). split; [done|].
  intros m Hm. rewrite Forall_forall in Hh. destruct (Hh m Hm) as (done & ks & Hk & Hf & _). eauto.
Qed.

(** A task that ends after at most so many steps, whatever is answered. *)
Fixpoint ends_in (n : nat) (t : Task) {struct t} : Prop :=
  match t with
  | Finish _ => True
  | Cached _ next => match n with 0 => False | S n => ∀ o, ends_in n (next o) end
  | Store _ _ next => match n with 0 => False | S n => ends_in n next end
  | AskCompile _ next => match n with 0 => False | S n => ∀ r, ends_in n (next r) end
  | Alloc _ _ next => match n with 0 => False | S n => ∀ r, ends_in n (next r) end
  | AskLaunch _ _ _ next => match n with 0 => False | S n => ∀ r, ends_in n (next r) end
  end.

Lemma ends_mono n m t : n ≤ m → ends_in n t → ends_in m t.
Proof.
  revert n m. induction t as [|k next IH|k h next IH|j next IH|ty z next IH|h args cfg next IH]; intros [|n] [|m] Hm;
    cbn; try done; try lia; intros H; [intros o|..|intros r|intros r|intros r]; (eapply IH; [|apply H]; lia).
Qed.
Lemma ends_compile inc arch n k next : (∀ h, ends_in n (next h)) → ends_in (3 + n) (compile_or_get_handle inc arch k next).
Proof.
  intros Hn [h|]; cbn; [eapply ends_mono; [|apply Hn]; lia|]. intros [[h|e]|]; cbn; [apply Hn|done..].
Qed.
Lemma ends_launch n h args cfg next : ends_in n next → ends_in (1 + n) (launch h args cfg next).
Proof. by intros Hn [[]|]. Qed.
Lemma ends_alloc n what t k next : (∀ r, ends_in n (next r)) → ends_in (1 + n) (alloc_zeros what t k next).
Proof. intros Hn [r|e]; cbn; [apply Hn|done]. Qed.

(** A spawned request ends within thirteen steps. *)
Theorem cub_task_ends inc arch len wired m t : dispatch inc arch len wired m = Ok t → ends_in 13 t.
Proof.
  assert (H0 : ends_in 0 done_ok) by done.
  assert (H1 : ∀ h args cfg, ends_in 1 (launch h args cfg done_ok)) by (intros; by apply (ends_launch 0)).
  unfold dispatch. destruct wired; [|done]. cbn [negb]. destruct m as [r|r|r|r|r|r|r].
  - intros [= <-]. eapply (ends_mono 9); [lia|]. apply (ends_compile _ _ 6). intros h1. apply (ends_compile _ _ 3). intros h2.
    apply (ends_alloc 2). intros p. apply (ends_launch 1), H1.
  - intros [= <-]. apply (ends_compile _ _ 10). intros h1. apply (ends_compile _ _ 7). intros h2. apply (ends_compile _ _ 4). intros h3.
    apply (ends_alloc 3). intros p. by apply (ends_launch 2), (ends_launch 1).
  - destruct (too_big _); [done|]. intros [= <-]. apply (ends_mono 4); [lia|]. apply (ends_compile _ _ 1). intros h. apply H1.
  - intros [= <-]. apply (ends_mono 4); [lia|]. apply (ends_compile _ _ 1). intros h. apply H1.
  - destruct (too_big _); [done|]. intros Ht. assert (t = run_select inc arch len r) as ->.
    { by destruct (se_mode r), (se_flags r); simplify_eq. }
    apply (ends_mono 4); [lia|]. apply (ends_compile _ _ 1). intros h. apply H1.
  - destruct (too_big _); [done|]. intros [= <-]. apply (ends_mono 4); [lia|]. apply (ends_compile _ _ 1). intros h. apply H1.
  - intros [= <-]. apply (ends_mono 4); [lia|]. apply (ends_compile _ _ 1). intros h. apply H1.
Qed.


(** *** Witnesses *)

Definition toy_inc : Includes := {| cub_include := None; cuda_include := None; cccl_include := None |}.
Definition toy_ref (sl : slice_id) : GpuRef := GpuRef_new sl (DeviceState_new 0).
Definition toy_request : CubMsg :=
  Histogram {| hi_type := Prim U8; hi_input := toy_ref 1; hi_bins := toy_ref 2; hi_num_bins := 256; hi_lower := 0; hi_upper := 0; hi_reply := 4 |}.
Definition toy_handle (j : Job) : KernelHandle :=
  {| func := ([], j_kernel j); kh_generation := 0; src_hash := 0; kh_name := j_kernel j; lowered_names := ∅; kh_ptx := None; kh_cubin := None |}.
Definition toy_compiled (j : Job) (h : KernelHandle) : Prop := h = toy_handle j.
Definition toy_job : Job := job_of toy_inc Sm80 (KHistogram (Prim U8)).
Definition toy_steps := cub_steps toy_inc Sm80 (λ _, 100) toy_compiled (cub_props true).

(** The request compiles its kernel, stores it, launches it and is answered. *)
Lemma toy_run : ∃ es s, toy_steps [toy_request] es s ∧ running s = [] ∧ launched 4 es = [toy_handle toy_job].
Proof.
  eexists _, _. split.
  - unfold toy_steps. eapply (CSnoc _ _ _ _ _ [toy_request] _ _ []).
    { eapply (CSnoc _ _ _ _ _ [toy_request] _ _ []).
      { eapply (CSnoc _ _ _ _ _ [toy_request] _ _ []).
        { eapply (CSnoc _ _ _ _ _ [toy_request] _ _ []).
          { eapply (CSnoc _ _ _ _ _ [toy_request] _ _ []).
            { eapply (CSnoc _ _ _ _ _ [] _ _ [toy_request]); [apply CRefl|]. apply CMsg. reflexivity. }
            eapply (CTask _ _ _ _ 0 4); [reflexivity|apply TCached]. }
          eapply (CTask _ _ _ _ 0 4); [reflexivity|apply (TCompile _ _ _ _ _ (Some (Ok (toy_handle toy_job)))); by intros h [= <-]]. }
        eapply (CTask _ _ _ _ 0 4); [reflexivity|apply TStore]. }
      eapply (CTask _ _ _ _ 0 4); [reflexivity|apply (TLaunch _ _ _ _ _ _ _ (Some (Ok tt)))]. }
    eapply (CDone _ _ _ _ 0 4 (Ok tt)); reflexivity.
  - split; [reflexivity|]. reflexivity.
Qed.

Lemma cub_serves_witness : ∃ es s, toy_steps [toy_request] es s ∧ replied es ≡ₚ [4].
Proof.
  destruct toy_run as (es & s & Hs & Hr & _). exists es, s. split; [exact Hs|].
  destruct (cub_serves toy_inc Sm80 (λ _, 100) toy_compiled true [toy_request] es s Hs (NoDup_singleton _)) as [Hp _].
  rewrite Hr in Hp. exact Hp.
Defined.
Lemma cub_task_ends_witness : ∃ t, dispatch toy_inc Sm80 (λ _, 100) true toy_request = Ok t ∧ ends_in 13 t.
Proof. eexists. split; [reflexivity|]. apply (cub_task_ends toy_inc Sm80 (λ _, 100) true toy_request). reflexivity. Defined.
