(* ===== verification/CubResults.v ===== *)
(** * CUB: what the launches compute

    The kernels of [CubKernels.v] and [CubTileOps.v] at the block and tile sizes of
    [crates/atomr-accel-cub/src/kernels/mod.rs], on the machine integers of the
    element types: the identities and functors of a reduction, the results of every
    request, and inputs on which they differ from what the request asks for. *)

From S2P Require Import Cub.
From S2P Require Import Prelude Float64 Dtype CudaDtype CubSource CubKernels CubTileOps.

Definition block : nat := Z.to_nat BLOCK_THREADS.
Definition items : nat := Z.to_nat ITEMS_PER_THREAD.
Abbreviation TILE := (tile block items).
Lemma TILE_pos : 0 < TILE.
Proof. apply Nat.ltb_lt. run. Qed.
Lemma TILE_two : 1 ≤ TILE - 1.
Proof. apply Nat.leb_le. run. Qed.

(** The grid a request computes is the one the kernels are written for. *)
Lemma grid_of_request n : (Z.of_nat n < 2 ^ 32)%Z → Cub.grid_blocks n = Z.of_nat (grid_blocks_for block items n).
Proof.
  intros Hn. unfold Cub.grid_blocks, grid_blocks_for. rewrite Nat2Z.inj_max, Nat2Z.inj_div, Nat2Z.inj_add.
  change (Z.of_nat (tile block items - 1)) with (TILE_ELEMENTS - 1)%Z. change (Z.of_nat (tile block items)) with TILE_ELEMENTS.
  change (Z.of_nat 1) with 1%Z. apply Z.mod_small. change TILE_ELEMENTS with 1024%Z.
  pose proof (Z.div_mod (Z.of_nat n + (1024 - 1)) 1024). pose proof (Z.mod_pos_bound (Z.of_nat n + (1024 - 1)) 1024). lia.
Qed.

(** ** Machine integers *)

Definition bits (d : DType) : Z := 8 * Z.of_nat (size_bytes d).
Definition offset (d : DType) : Z := if is_signed d then 2 ^ (bits d - 1) else 0.
(** Two's complement wrap-around. *)
Definition wrap_int (d : DType) (x : Z) : Z := ((x + offset d) mod 2 ^ bits d - offset d)%Z.
Definition in_range (d : DType) (x : Z) : bool := (wrap_int d x =? x)%Z.

Lemma bits_pos d : (0 < 2 ^ bits d)%Z.
Proof. apply Z.pow_pos_nonneg; [done|]. unfold bits. lia. Qed.

Lemma wrap_mod d x : (wrap_int d x mod 2 ^ bits d = x mod 2 ^ bits d)%Z.
Proof. unfold wrap_int. rewrite Zminus_mod, Zmod_mod, <-Zminus_mod. f_equal. lia. Qed.
Lemma wrap_congr d x y : (x mod 2 ^ bits d = y mod 2 ^ bits d)%Z → wrap_int d x = wrap_int d y.
Proof. intros H. unfold wrap_int. rewrite (Zplus_mod x), (Zplus_mod y), H. done. Qed.
Lemma wrap_idem d x : wrap_int d (wrap_int d x) = wrap_int d x.
Proof. apply wrap_congr, wrap_mod. Qed.
Lemma wrap_in_range d x : in_range d (wrap_int d x).
Proof. unfold in_range. apply Is_true_true, Z.eqb_eq, wrap_idem. Qed.
Lemma in_range_bounds d x : in_range d x ↔ (- offset d ≤ x < 2 ^ bits d - offset d)%Z.
Proof.
  unfold in_range. rewrite Is_true_true, Z.eqb_eq. unfold wrap_int. pose proof (Z.mod_pos_bound (x + offset d) (2 ^ bits d) (bits_pos d)). split; intros H1; [lia|].
  rewrite Z.mod_small by lia. lia.
Qed.

Record int (d : DType) := Int { int_val : Z; int_ok : in_range d int_val }.
Arguments Int {d}. Arguments int_val {d}. Arguments int_ok {d}.
Definition of_Z (d : DType) (x : Z) : int d := Int (wrap_int d x) (wrap_in_range d x).
Lemma int_eq {d} (a b : int d) : int_val a = int_val b → a = b.
Proof. destruct a as [x Hx], b as [y Hy]. cbn. intros ->. f_equal. apply proof_irrel. Qed.
Lemma int_wrap {d} (a : int d) : wrap_int d (int_val a) = int_val a.
Proof. destruct a as [x Hx]. cbn. by apply Is_true_true, Z.eqb_eq in Hx. Qed.

Lemma max_range {d} (a b : int d) : in_range d (Z.max (int_val a) (int_val b)).
Proof. destruct (Z.max_spec (int_val a) (int_val b)) as [[_ ->]|[_ ->]]; apply int_ok. Qed.
Lemma min_range {d} (a b : int d) : in_range d (Z.min (int_val a) (int_val b)).
Proof. destruct (Z.min_spec (int_val a) (int_val b)) as [[_ ->]|[_ ->]]; apply int_ok. Qed.

(** The functors of a reduction on an integer type. *)
Definition int_add {d} (a b : int d) : int d := of_Z d (int_val a + int_val b).
Definition int_mul {d} (a b : int d) : int d := of_Z d (int_val a * int_val b).
Definition int_max {d} (a b : int d) : int d := Int (Z.max (int_val a) (int_val b)) (max_range a b).
Definition int_min {d} (a b : int d) : int d := Int (Z.min (int_val a) (int_val b)) (min_range a b).
Definition functor (op : ReductionOp) {d} : int d → int d → int d :=
  match op with Sum => int_add | Product => int_mul | Max | ArgMax => int_max | Min | ArgMin => int_min end.
(** [(T)(identity)] for the literals of [reduce_identity]. *)
Definition identity (op : ReductionOp) (d : DType) : int d :=
  of_Z d (if String.eqb (reduce_identity op (cname (Prim d))) "1" then 1 else 0).

#[global] Instance int_add_assoc d : Assoc (=) (@int_add d).
Proof.
  intros a b c. apply int_eq. cbn. apply wrap_congr. rewrite Zplus_mod, wrap_mod, <-Zplus_mod.
  rewrite (Zplus_mod (wrap_int d _)), wrap_mod, <-Zplus_mod. f_equal. lia.
Qed.
#[global] Instance int_add_comm d : Comm (=) (@int_add d).
Proof. intros a b. apply int_eq. cbn. f_equal. lia. Qed.
#[global] Instance int_add_zero d : LeftId (=) (of_Z d 0) int_add.
Proof.
  intros a. apply int_eq. cbn. rewrite <-(int_wrap a) at 2. apply wrap_congr. rewrite Zplus_mod, wrap_mod, <-Zplus_mod. f_equal.
Qed.
#[global] Instance int_mul_assoc d : Assoc (=) (@int_mul d).
Proof.
  intros a b c. apply int_eq. cbn. apply wrap_congr. rewrite Zmult_mod, wrap_mod, <-Zmult_mod.
  rewrite (Zmult_mod (wrap_int d _)), wrap_mod, <-Zmult_mod. f_equal. lia.
Qed.
#[global] Instance int_mul_comm d : Comm (=) (@int_mul d).
Proof. intros a b. apply int_eq. cbn. f_equal. lia. Qed.
#[global] Instance int_max_assoc d : Assoc (=) (@int_max d).
Proof. intros a b c. apply int_eq. cbn. lia. Qed.
#[global] Instance int_max_comm d : Comm (=) (@int_max d).
Proof. intros a b. apply int_eq. cbn. lia. Qed.
#[global] Instance int_min_assoc d : Assoc (=) (@int_min d).
Proof. intros a b c. apply int_eq. cbn. lia. Qed.
#[global] Instance int_min_comm d : Comm (=) (@int_min d).
Proof. intros a b. apply int_eq. cbn. lia. Qed.
#[global] Instance functor_assoc op d : Assoc (=) (@functor op d).
Proof. destruct op; apply _. Qed.
#[global] Instance functor_comm op d : Comm (=) (@functor op d).
Proof. destruct op; apply _. Qed.

(** The operations whose padding is neutral. *)
Definition neutral_identity (op : ReductionOp) (d : DType) : bool :=
  match op with Sum | Product => true | Max | ArgMax => negb (is_signed d) | Min | ArgMin => false end.

Lemma identity_val op d : is_integer d = true → is_cuda_dtype (Prim d) = true →
  int_val (identity op d) = match op with Product => 1%Z | _ => 0%Z end.
Proof. by destruct d, op. Qed.

Lemma identity_zero op d : op ≠ Product → is_integer d = true → is_cuda_dtype (Prim d) = true → identity op d = of_Z d 0.
Proof. intros Hop Hd Hc. apply int_eq. rewrite identity_val by done. by destruct op, d. Qed.

Lemma neutral_padded op d : is_integer d = true → is_cuda_dtype (Prim d) = true → neutral_identity op d = true →
  ∀ a : int d, padded_by (functor op) (identity op d) a.
Proof.
  intros Hd Hc H a. unfold padded_by. assert (Hpos : is_signed d = false → (0 ≤ int_val a)%Z).
  { intros Hs. destruct (proj1 (in_range_bounds d (int_val a)) (int_ok a)) as [Ha _]. unfold offset in Ha. rewrite Hs in Ha. lia. }
  destruct op; try done; cbn [neutral_identity] in H.
  - rewrite identity_zero by done. apply (left_id_L (of_Z d 0) int_add).
  - apply int_eq. cbn [functor int_max int_val]. rewrite identity_val by done. apply negb_true_iff, Hpos in H. lia.
  - apply int_eq. cbn [functor int_max int_val]. rewrite identity_val by done. apply negb_true_iff, Hpos in H. lia.
  - apply int_eq. cbn [functor int_mul of_Z int_val]. rewrite identity_val by done. rewrite Z.mul_1_l. apply int_wrap.
Qed.

(** On an integer type the identity a reduction pads
    its tiles with is neutral exactly for sums, products and unsigned maxima. *)
Theorem identity_neutral op d : is_integer d = true → is_cuda_dtype (Prim d) = true →
  (∀ a : int d, functor op (identity op d) a = a) ↔ neutral_identity op d = true.
Proof.
  intros Hd Hc. split; [|by apply neutral_padded]. intros H. destruct op; try done; cbn;
    [specialize (H (of_Z _ (-1)))|specialize (H (of_Z d 1))|specialize (H (of_Z _ (-1)))|specialize (H (of_Z d 1))];
    apply (f_equal int_val) in H; by destruct d.
Qed.

(** ** Results *)

Section results.
Context `{!CubBlock, !CubLaw}.

(** The reduction itself. *)
Definition reduction {T} (op : T → T → T) (empty : T) (d : list T) : T :=
  match d with [] => empty | x :: l => foldl op x l end.

Lemma reduction_foldr {T} (op : T → T → T) e d : Assoc (=) op → Comm (=) op → Forall (padded_by op e) d →
  reduction op e d = foldr op e d.
Proof. intros Ha Hc Hd. destruct d as [|x l]; [done|]. apply Forall_cons in Hd as [Hx _]. cbn. by apply foldl_foldr. Qed.


(** The two launches of [run_reduce], with the writes of each in some order. *)
Definition reduce_runs (op : ReductionOp) (d : DType) (data out out' : list (int d)) : Prop :=
  let n := length data in
  let grid := grid_blocks_for block items n in
  ∃ partials partials', length partials = grid ∧
    stored (on_grid grid (reduce_main block items (functor op) (identity op d) data n)) partials partials' ∧
    stored (on_grid 1 (λ _, reduce_finalize block items (functor op) (identity op d) partials' grid)) out out'.


(** What any identity that is not neutral costs: a value that absorbs every element is
    the result as soon as the second launch pads. *)
Lemma foldl_absorbs {T} (op : T → T → T) e x l : Assoc (=) op → Comm (=) op → Forall (λ y, op e y = e) (x :: l) → e ∈ x :: l →
  foldl op x l = e.
Proof.
  intros Ha Hc. revert x. induction l as [|y l IH]; intros x Hall Hin; cbn.
  - by apply list_elem_of_singleton in Hin.
  - apply Forall_cons in Hall as [Hx Hall]. pose proof Hall as [Hy Hl]%Forall_cons. apply IH.
    + constructor; [|done]. by rewrite (assoc_L op), Hx.
    + apply elem_of_cons in Hin as [<-|Hin]; [rewrite Hy; by left|].
      apply elem_of_cons in Hin as [<-|Hin]; [|by right]. rewrite (comm_L op), Hx. by left.
Qed.

Lemma finalize_absorbs {T} (op : T → T → T) e partials out out' :
  Assoc (=) op → Comm (=) op → (∀ y, op e y = e) → length partials < TILE → 0 < length out →
  stored (on_grid 1 (λ _, reduce_finalize block items op e partials (length partials))) out out' → out' !! 0 = Some e.
Proof.
  intros Ha Hc He Hp Hout Hs. pose proof (load_perm block items e partials 0) as Hload.
  rewrite nth_seq, drop_0, take_ge, Nat.sub_0_r in Hload by lia.
  destruct (TILE - length partials) as [|k] eqn:Hk; [lia|].
  destruct (mjoin (load block items e partials (length partials) 0)) as [|x l] eqn:Hl.
  { apply Permutation_nil_l, symmetry, app_eq_nil in Hload as [_ ?]. done. }
  assert (Hr : reduce_finalize block items op e partials (length partials) = [(0, e)]).
  { unfold reduce_finalize. erewrite block_reduce_ok by done. do 2 f_equal. apply foldl_absorbs; [done|done|by apply Forall_true|].
    rewrite Hload. apply elem_of_app. right. by left. }
  eapply stored_at; [exact Hs| | |done]; unfold on_grid; cbn; rewrite app_nil_r, Hr; [apply NoDup_singleton|by left].
Qed.

(** The minimum of unsigned integers is 0 whatever they are, up to 1023 * 1024 of them. *)
Theorem unsigned_min_is_zero d (data out out' : list (int d)) :
  is_integer d = true → is_signed d = false → is_cuda_dtype (Prim d) = true → length data ≤ (TILE - 1) * TILE → 0 < length out →
  reduce_runs Min d data out out' → out' !! 0 = Some (of_Z d 0).
Proof.
  intros Hd Hs Hc Hlen Hout (partials & partials' & Hp & H1 & H2). rewrite <-(identity_zero Min) by done.
  assert (Hlp : length partials' = grid_blocks_for block items (length data)) by (by rewrite (stored_length _ _ _ H1)).
  rewrite <-Hlp in H2. eapply finalize_absorbs; [apply _|apply _| | |exact Hout|exact H2].
  - intros y. apply int_eq. cbn [functor int_min int_val]. rewrite identity_val by done.
    destruct (proj1 (in_range_bounds d (int_val y)) (int_ok y)) as [Hy _]. unfold offset in Hy. rewrite Hs in Hy. lia.
  - rewrite Hlp. pose proof (grid_bound block items (length data) (TILE - 1) TILE_pos TILE_two Hlen). pose proof TILE_pos. lia.
Qed.

(** Scans: of up to 256 integers, the three launches of a scan leave its prefix
    sums, inclusive or exclusive, in whatever order the threads write. *)
Theorem cub_scans ex d (data out sums out' : list (int d)) :
  length data ≤ block → length out = length data → length sums = grid_blocks_for block items (length data) →
  scan_launches block items ex int_add (of_Z d 0) data out sums out' →
  out' = scan_from ex int_add (of_Z d 0) data.
Proof. intros Hd Hout Hsums Hs. eapply (scan_launches_correct block items); try done; try apply _; apply Nat.ltb_lt; run. Qed.

(** Beyond, an element gets what precedes it in its tile's blocked order. *)
Theorem cub_scans_blocked ex d (data out sums out' : list (int d)) b t i :
  length out = length data → length data ≤ block * TILE → length sums = grid_blocks_for block items (length data) →
  scan_launches block items ex int_add (of_Z d 0) data out sums out' →
  t < block → i < items → idx block (b * TILE) t i < length data →
  out' !! idx block (b * TILE) t i =
    Some (if b =? 0 then local_prefix block items int_add (of_Z d 0) ex data b t i
          else int_add (local_prefix block items int_add (of_Z d 0) ex data b t i)
                       (foldl int_add (of_Z d 0) (take (b * TILE) data))).
Proof.
  intros Hout Hd Hsums Hs Ht Hi Hp. eapply (scan_launches_at block items); try done; try apply _; try (apply Nat.ltb_lt; run).
  apply grid_bound; [apply TILE_pos|apply Nat.leb_le; run|done].
Qed.

(** Selects: of up to 1024 elements, a select leaves in front exactly those its
    test keeps, and their number; up to 256 in the order of the input. *)
Theorem cub_selects {T} (sel : nat → bool) (d out out' : list T) counts counts' :
  length d ≤ TILE → length d ≤ length out → 0 < length counts →
  stored (select_kernel block items sel d (length d)) out out' →
  stored (select_count block items sel (length d)) counts counts' →
  ∃ l, l ≡ₚ kept sel d ∧ (length d ≤ block → l = kept sel d) ∧ out' = l ++ drop (length l) out ∧
       counts' !! 0 = Some (length (kept sel d)).
Proof. intros Hd Hout Hc H1 H2. eapply (select_spec block items); try done. apply Nat.ltb_lt; run. Qed.

(** Partitions: of up to 256 elements, a partition leaves those selected in order
    and then the others in reverse. *)
Theorem cub_partitions {T} (sel : nat → bool) (d out out' : list T) :
  length d ≤ block → length d ≤ length out → stored (partition_kernel block items sel d (length d)) out out' →
  out' = kept sel d ++ reverse (kept (λ p, negb (sel p)) d) ++ drop (length d) out.
Proof.
  intros Hd Hout Hs. eapply (partition_spec block items); try done; [apply Nat.ltb_lt; run|].
  assert (Hb : (Z.of_nat block ≤ two32)%Z) by (by vm_compute). lia.
Qed.

(** An ascending sort of one to 1023 keys above zero starts with a zero. *)
Theorem sort_starts_with_padding {K V} (le : K → K → bool) (zero : K * V) (d out out' : list (K * V)) :
  Total le → Transitive le → 0 < length d → length d < TILE → length out = length d →
  Forall (λ x, le x.1 zero.1 = false) d → stored (sort_kernel block items le zero d (length d)) out out' →
  ∃ v, out' !! 0 = Some (zero.1, v).
Proof. intros Ht Htr Hn Hd Hout Hk Hs. eapply (sort_padding_first block items le zero d); try done; apply Nat.ltb_lt; run. Qed.

(** A full tile is permuted; the item of rank [r] goes to place [r / 4 + 256 * (r mod 4)]. *)
Theorem sort_permutes {K V} (le : K → K → bool) (zero : K * V) (d out out' : list (K * V)) t i :
  Total le → Transitive le → length d = TILE → length out = length d → t < block → i < items →
  stored (sort_kernel block items le zero d (length d)) out out' →
  out' ≡ₚ d ∧ out' !! idx block 0 t i = mjoin (sort_rows block items le zero d (length d)) !! (t * items + i).
Proof.
  intros Ht Htr Hd Hout Hlt Hli Hs. split; [by eapply (sort_full_perm block items le zero)|].
  eapply (sort_at block items le zero); try done. rewrite Hd. unfold idx, tile. nia.
Qed.

(** Histograms: every one of the 256 counters grows by the number of elements that
    fall into its bin, modulo 2^32, in whatever order the atomic additions are done. *)
Theorem cub_histograms {T} (bin_of : T → Z) (d : list T) (out out' : list Z) k v :
  k < BINS → in_width 32 v → out !! k = Some v → histogram_launch block items bin_of d out out' →
  out' !! k = Some (wrap 32 (v + bin_count bin_of k d)).
Proof. intros Hk Hv Hout Hs. eapply (histogram_at block items); try done. apply TILE_pos. Qed.

(** A sum, a product or an unsigned maximum of every segment, which may
    be empty, is at the segment's place. *)
Theorem cub_reduces_segments op d (data out out' : list (int d)) begins ends num s b e :
  is_integer d = true → is_cuda_dtype (Prim d) = true → neutral_identity op d = true →
  num ≤ length out → s < num → begins !! s = Some b → ends !! s = Some e → e ≤ length data →
  stored (on_grid (seg_grid num) (seg_kernel block (functor op) (identity op d) data begins ends num)) out out' →
  out' !! s = Some (reduction (functor op) (identity op d) (drop b (take e data))).
Proof.
  intros Hd Hc Hn Hout Hs Hb He Hlen Hst.
  assert (Hall : ∀ l : list (int d), Forall (padded_by (functor op) (identity op d)) l).
  { intros l. apply Forall_true. by apply neutral_padded. }
  rewrite reduction_foldr by (apply _ || apply Hall).
  apply (seg_at block (functor op) (identity op d) data begins ends num out out' s b e); try done; [apply Nat.ltb_lt; run|by apply neutral_padded].
Qed.
End results.

(** *** Witnesses and counterexamples *)

Lemma stored_now {T} (ws : writes T) b : stored ws b (write_all ws b).
Proof. by exists ws. Qed.

Definition u32s (l : list Z) : list (int U32) := of_Z U32 <$> l.
Definition i32s (l : list Z) : list (int I32) := of_Z I32 <$> l.
Definition zeros (d : DType) (n : nat) : list (int d) := replicate n (of_Z d 0).
Definition values {d} (l : list (int d)) : list Z := int_val <$> l.

(** The launches of a reduction, each thread's write in turn. *)
Definition reduce_now (op : ReductionOp) {d} (data out : list (int d)) : list (int d) :=
  let n := length data in
  let grid := grid_blocks_for block items n in
  let partials := write_all (on_grid grid (reduce_main block items (functor op) (identity op d) data n)) (zeros d grid) in
  write_all (on_grid 1 (λ _, reduce_finalize block items (functor op) (identity op d) partials grid)) out.
Lemma reduce_now_runs op {d} (data out : list (int d)) : reduce_runs op d data out (reduce_now op data out).
Proof.
  eexists _, _. split; [apply length_replicate|]. split; apply stored_now.
Qed.

Definition toy_sum : list (int I32) := i32s [5; -7; 2147483647; 1]%Z.

Lemma identity_neutral_witness : functor Max (identity Max U8) (of_Z U8 200) = of_Z U8 200.
Proof. apply (identity_neutral Max U8); reflexivity. Defined.

(** The minimum of three unsigned integers. *)
Example min_of_unsigned : values (reduce_now Min (u32s [7; 5; 9]%Z) (zeros U32 1)) = [0%Z].
Proof. run. Qed.
(** The maximum of negative integers. *)
Example max_of_negative : values (reduce_now Max (i32s [-7; -5; -9]%Z) (zeros I32 1)) = [0%Z].
Proof. run. Qed.

(** The launches of a scan. *)
Definition scan_now (ex : bool) {d} (data : list (int d)) : list (int d) :=
  let n := length data in
  let grid := grid_blocks_for block items n in
  let out1 := write_all (on_grid grid (scan_main block items ex int_add (of_Z d 0) data n)) (zeros d n) in
  let sums1 := write_all (on_grid grid (scan_totals block items ex int_add (of_Z d 0) data n)) (zeros d grid) in
  let sums2 := write_all (scan_sums block items int_add (of_Z d 0) sums1 grid) sums1 in
  write_all (on_grid grid (scan_fixup block items int_add out1 sums2 n)) out1.
Lemma scan_now_launches ex {d} (data : list (int d)) :
  scan_launches block items ex int_add (of_Z d 0) data (zeros d (length data))
    (zeros d (grid_blocks_for block items (length data))) (scan_now ex data).
Proof. eexists _, _, _. split_and!; apply stored_now. Qed.

Definition toy_scan : list (int I32) := i32s [3; 1; 4; 1; 5]%Z.
Lemma cub_scans_witness : values (scan_now true toy_scan) = [0; 3; 4; 8; 9]%Z.
Proof.
  assert (Hlen : length toy_scan ≤ block) by (apply Nat.leb_le; run).
  rewrite (cub_scans true I32 toy_scan _ _ _ Hlen (length_replicate _ _) (length_replicate _ _) (scan_now_launches true toy_scan)).
  run.
Defined.

(** The inclusive scan of 257 ones: the second sum is 3. *)
Example scan_beyond_256 : int_val <$> (scan_now false (i32s (replicate 257 1%Z)) !! 1) = Some 3%Z.
Proof. run. Qed.

Definition toy_select : list Z := [10; 11; 12; 13; 14]%Z.
Definition toy_flags : nat → bool := flagged [1; 0; 1; 1; 0]%Z.
Lemma cub_selects_witness :
  write_all (select_kernel block items toy_flags toy_select 5) (replicate 5 0%Z) = [10; 12; 13; 0; 0]%Z ∧
  write_all (select_count block items toy_flags 5) [0] !! 0 = Some 3.
Proof.
  assert (H1 : length toy_select ≤ TILE) by (apply Nat.leb_le; run).
  assert (H2 : length toy_select ≤ block) by (apply Nat.leb_le; run).
  destruct (cub_selects toy_flags toy_select (replicate 5 0%Z) _ [0] _ H1 (le_n 5) Nat.lt_0_1 (stored_now _ _) (stored_now _ _))
    as (l & _ & Hl & Hout & Hc).
  rewrite (Hl H2) in Hout. split; [etransitivity; [exact Hout|run]|etransitivity; [exact Hc|run]].
Defined.

Lemma cub_partitions_witness :
  write_all (partition_kernel block items toy_flags toy_select 5) (replicate 5 0%Z) = [10; 12; 13; 14; 11]%Z.
Proof.
  assert (H : length toy_select ≤ block) by (apply Nat.leb_le; run).
  pose proof (cub_partitions toy_flags toy_select (replicate 5 0%Z) _ H (le_n 5) (stored_now _ _)) as Hp.
  etransitivity; [exact Hp|run].
Defined.

(** Of 1024 elements all but one of which are selected, the other one is written 764
    places behind the end of the output. *)
Definition all_but (p q : nat) : bool := negb (q =? p).
Example partition_out_of_bounds :
  ∃ x, (1788, x) ∈ partition_kernel block items (all_but 255) (Z.of_nat <$> seq 0 1024) 1024.
Proof.
  exists 255%Z. apply (bool_decide_unpack _). run.
Qed.

(** A sort of the reversed numbers 1 to 1024: the second place gets 5. *)
Definition sort_now (d : list Z) : list Z :=
  (write_all (sort_kernel block items Z.leb (0%Z, tt) ((λ x, (x, tt)) <$> d) (length d)) ((λ x, (x, tt)) <$> d)).*1.
Example sort_full_tile : take 3 (sort_now (reverse (Z.of_nat <$> seq 1 1024))) = [1; 5; 9]%Z.
Proof. run. Qed.
#[local] Instance leb_total : Total Z.leb.
Proof. intros x y. destruct (Z.le_ge_cases x y); [left|right]; apply Is_true_true; by apply Z.leb_le. Qed.
#[local] Instance leb_trans : Transitive Z.leb.
Proof. intros x y z Hx Hy. apply Is_true_true in Hx, Hy. apply Is_true_true, Z.leb_le. apply Z.leb_le in Hx, Hy. lia. Qed.
Lemma sort_starts_with_padding_witness :
  ∃ v, write_all (sort_kernel block items Z.leb (0%Z, tt) [(7%Z, tt); (5%Z, tt)] 2) [(9%Z, tt); (9%Z, tt)] !! 0 = Some (0%Z, v).
Proof.
  assert (H : 2 < TILE) by (apply Nat.ltb_lt; run).
  apply (sort_starts_with_padding Z.leb (0%Z, tt) [(7%Z, tt); (5%Z, tt)] [(9%Z, tt); (9%Z, tt)] _ leb_total leb_trans
    Nat.lt_0_2 H eq_refl); [by repeat constructor|apply stored_now].
Defined.

(** The launch of a histogram. *)
Definition histogram_now {T} (bin_of : T → Z) (d : list T) (out : list Z) : list Z :=
  let grid := grid_blocks_for block items (length d) in
  add_all (on_grid grid (λ b, merge_bins (add_all (block_hits block items bin_of d (length d) b) (replicate BINS 0%Z)))) out.
Lemma histogram_now_launch {T} (bin_of : T → Z) d out : histogram_launch block items bin_of d out (histogram_now bin_of d out).
Proof.
  exists (λ b, add_all (block_hits block items bin_of d (length d) b) (replicate BINS 0%Z)). split; [intros b _|]; by eexists.
Qed.
Lemma cub_histograms_witness : histogram_now id [3; 5; 3; 300; -1]%Z (replicate BINS 1%Z) !! 3 = Some 3%Z.
Proof.
  assert (Hk : 3 < BINS) by (apply Nat.ltb_lt; run).
  assert (Hv : in_width 32 1) by (split; [discriminate|reflexivity]).
  rewrite (cub_histograms id [3; 5; 3; 300; -1]%Z (replicate BINS 1%Z) _ 3 1 Hk Hv eq_refl (histogram_now_launch _ _ _)). run.
Defined.

(** A sample below the range is counted in the first bin, and a launch adds to counters
    that a shorter output does not have. *)
Example below_range_is_counted :
  bin_f32 (f32_of_Z 0) (f32_of_Z 256) (f32_div (f32_of_Z (-1)) (f32_of_Z 2)) = 0%Z.
Proof. run. Qed.
Example bins_are_not_num_bins :
  on_grid 1 (λ b, merge_bins (add_all (block_hits block items id [200%Z] 1 b) (replicate BINS 0%Z))) = [(200, 1%Z)].
Proof. run. Qed.

Definition seg_now (data : list (int U32)) : list (int U32) :=
  write_all (on_grid (seg_grid 2) (seg_kernel block (functor Max) (identity Max U32) data [0; 2] [2; 5] 2)) (zeros U32 2).
Lemma cub_reduces_segments_witness : seg_now (u32s [4; 9; 1; 8; 2]%Z) !! 1 = Some (of_Z U32 8).
Proof.
  assert (H1 : 1 < 2) by (apply Nat.ltb_lt; reflexivity). assert (H2 : 5 ≤ 5) by (apply Nat.leb_le; reflexivity).
  assert (H3 : 2 ≤ length (zeros U32 2)) by (apply Nat.leb_le; reflexivity).
  pose proof (cub_reduces_segments Max U32 (u32s [4; 9; 1; 8; 2]%Z) (zeros U32 2) _ [0; 2] [2; 5] 2 1 2 5 eq_refl eq_refl eq_refl
    H3 H1 eq_refl eq_refl H2 (stored_now _ _)) as H.
  etransitivity; [exact H|]. f_equal. apply int_eq. run.
Defined.
