(* ===== verification/CutlassRequests.v ===== *)
(** * CUTLASS requests: element types, templates, plan keys

    Models of [crates/atomr-accel-cutlass/src]: [dtype.rs], [gemm.rs],
    [grouped_gemm.rs], [conv.rs], [evt.rs], the plan keys of [plan_cache.rs] and
    the source emitters of [kernels/mod.rs].  A request's type parameter is a
    field of its record; an [f32] is its bit pattern.  The standard library's
    [DefaultHasher] is a parameter, a function of the bytes written to it. *)

From stdpp Require Import pretty.
From S2P Require Import Prelude Text.

(** ** [dtype.rs] *)

Inductive CutlassDtype : Type := F32 | F64 | F16 | Bf16 | F8E4m3 | F8E5m2 | F4E2m1 | I8 | I32 | U8.
Inductive SmArch : Type := Sm80 | Sm86 | Sm89 | Sm90 | Sm90a | Sm100 | Sm120.

#[global] Instance CutlassDtype_eq_dec : EqDecision CutlassDtype.
Proof. solve_decision. Defined.
#[global] Instance SmArch_eq_dec : EqDecision SmArch.
Proof. solve_decision. Defined.

Definition as_cutlass_type (d : CutlassDtype) : string :=
  match d with
  | F32 => "float"
  | F64 => "double"
  | F16 => "cutlass::half_t"
  | Bf16 => "cutlass::bfloat16_t"
  | F8E4m3 => "cutlass::float_e4m3_t"
  | F8E5m2 => "cutlass::float_e5m2_t"
  | F4E2m1 => "cutlass::float_e2m1_t"
  | I8 => "int8_t"
  | I32 => "int32_t"
  | U8 => "uint8_t"
  end.

Definition dtype_name (d : CutlassDtype) : string :=
  match d with
  | F32 => "f32" | F64 => "f64" | F16 => "f16" | Bf16 => "bf16" | F8E4m3 => "f8e4m3"
  | F8E5m2 => "f8e5m2" | F4E2m1 => "f4e2m1" | I8 => "i8" | I32 => "i32" | U8 => "u8"
  end.

Definition size_bits (d : CutlassDtype) : Z :=
  match d with
  | F64 => 64
  | F32 | I32 => 32
  | F16 | Bf16 => 16
  | F8E4m3 | F8E5m2 | I8 | U8 => 8
  | F4E2m1 => 4
  end%Z.

Definition nvrtc_flag (a : SmArch) : string :=
  match a with
  | Sm80 => "--gpu-architecture=compute_80"
  | Sm86 => "--gpu-architecture=compute_86"
  | Sm89 => "--gpu-architecture=compute_89"
  | Sm90 => "--gpu-architecture=compute_90"
  | Sm90a => "--gpu-architecture=compute_90a"
  | Sm100 => "--gpu-architecture=compute_100"
  | Sm120 => "--gpu-architecture=compute_120"
  end.

Definition arch_name (a : SmArch) : string :=
  match a with
  | Sm80 => "sm_80" | Sm86 => "sm_86" | Sm89 => "sm_89" | Sm90 => "sm_90" | Sm90a => "sm_90a"
  | Sm100 => "sm_100" | Sm120 => "sm_120"
  end.

Definition supports_fp8 (a : SmArch) : bool :=
  match a with Sm89 | Sm90 | Sm90a | Sm100 | Sm120 => true | _ => false end.
Definition supports_fp4 (a : SmArch) : bool := match a with Sm100 | Sm120 => true | _ => false end.
Definition supports_persistent_kernels (a : SmArch) : bool :=
  match a with Sm90 | Sm90a | Sm100 | Sm120 => true | _ => false end.

Definition is_supported_for (d : CutlassDtype) (a : SmArch) : bool :=
  match d with
  | F8E4m3 | F8E5m2 => supports_fp8 a
  | F4E2m1 => supports_fp4 a
  | _ => true
  end.

Definition all_dtypes : list CutlassDtype := [F32; F64; F16; Bf16; F8E4m3; F8E5m2; F4E2m1; I8; I32; U8].
Definition all_archs : list SmArch := [Sm80; Sm86; Sm89; Sm90; Sm90a; Sm100; Sm120].

(** ** The hasher of [plan_cache.rs]

    Three hashers that are fed the same fields, each with its own seed and its
    own twist of the integers. *)

Definition rotate_left (v : Z) (k : Z) : Z := Z.lor (wrap 32 (Z.shiftl v k)) (Z.shiftr v (32 - k)).

Record Hasher := { lane_a : list Z; lane_b : list Z; lane_c : list Z }.

Definition Hasher_new : Hasher :=
  {| lane_a := le_bytes 8 0xA5A5A5A5A5A5A5A5; lane_b := le_bytes 8 0x5A5A5A5A5A5A5A5A;
     lane_c := le_bytes 8 0xC3C3C3C3C3C3C3C3 |}.

Definition add_u8 (v : Z) (h : Hasher) : Hasher :=
  {| lane_a := lane_a h ++ [v]; lane_b := lane_b h ++ [wadd 8 v 0x55]; lane_c := lane_c h ++ [wadd 8 v 0xAA] |}.
Definition add_u32 (v : Z) (h : Hasher) : Hasher :=
  {| lane_a := lane_a h ++ le_bytes 4 v; lane_b := lane_b h ++ le_bytes 4 (rotate_left v 11);
     lane_c := lane_c h ++ le_bytes 4 (rotate_left v 23) |}.
Definition add_str (s : string) (h : Hasher) : Hasher :=
  {| lane_a := lane_a h ++ as_bytes s; lane_b := lane_b h ++ as_bytes s; lane_c := lane_c h ++ as_bytes s |}.

(** The calls of the key constructors, in order. *)
Inductive Field : Type := AddU8 (v : Z) | AddU32 (v : Z) | AddStr (s : string).
Definition feed (h : Hasher) (f : Field) : Hasher :=
  match f with AddU8 v => add_u8 v h | AddU32 v => add_u32 v h | AddStr s => add_str s h end.

Record PlanKey := { template_id : Z; payload : Z * Z * Z }.
#[global] Instance PlanKey_eq_dec : EqDecision PlanKey.
Proof. solve_decision. Defined.

Definition b2z (b : bool) : Z := if b then 1 else 0.

(** ** [gemm.rs] *)

Inductive GemmLayout : Type := RowMajor | ColMajor.
#[global] Instance GemmLayout_eq_dec : EqDecision GemmLayout.
Proof. solve_decision. Defined.

Definition layout_type (l : GemmLayout) : string :=
  match l with RowMajor => "cutlass::layout::RowMajor" | ColMajor => "cutlass::layout::ColumnMajor" end.
Definition layout_name (l : GemmLayout) : string := match l with RowMajor => "rm" | ColMajor => "cm" end.
(** [layout as u8] *)
Definition layout_u8 (l : GemmLayout) : Z := match l with RowMajor => 0 | ColMajor => 1 end.

Record GemmShape := { gm : Z; gn : Z; gk : Z }.

Inductive GemmEpilogue : Type :=
  | Linear (alpha beta : Z)
  | LinearReLU (alpha beta : Z)
  | LinearGelu (alpha beta : Z).

Definition epilogue_name (e : GemmEpilogue) : string :=
  match e with Linear _ _ => "linear" | LinearReLU _ _ => "linear_relu" | LinearGelu _ _ => "linear_gelu" end.
Definition epilogue_scalars (e : GemmEpilogue) : Z * Z :=
  match e with Linear a b | LinearReLU a b | LinearGelu a b => (a, b) end.

(** [GemmEpilogue::default]: alpha is 1.0 and beta 0.0. *)
Definition epilogue_default : GemmEpilogue := Linear 0x3F800000 0.

(** [==] of [f32]s given by their bits: NaNs differ from everything, the two
    zeros are equal. *)
Definition f32_is_nan (x : Z) : bool := (0x7F800000 <? Z.land x 0x7FFFFFFF)%Z.
Definition f32_eqb (x y : Z) : bool :=
  negb (f32_is_nan x) && negb (f32_is_nan y) &&
  ((x =? y)%Z || ((Z.land x 0x7FFFFFFF =? 0)%Z && (Z.land y 0x7FFFFFFF =? 0)%Z)).

(** The derived [PartialEq], and the bytes the written [Hash] feeds. *)
Definition epilogue_eqb (e1 e2 : GemmEpilogue) : bool :=
  match e1, e2 with
  | Linear a b, Linear c d | LinearReLU a b, LinearReLU c d | LinearGelu a b, LinearGelu c d =>
    f32_eqb a c && f32_eqb b d
  | _, _ => false
  end.
Definition epilogue_hash (e : GemmEpilogue) : list Z :=
  match e with
  | Linear a b => [0%Z] ++ le_bytes 4 a ++ le_bytes 4 b
  | LinearReLU a b => [1%Z] ++ le_bytes 4 a ++ le_bytes 4 b
  | LinearGelu a b => [2%Z] ++ le_bytes 4 a ++ le_bytes 4 b
  end.

Example epilogue_eq_without_hash :
  epilogue_eqb (Linear 0 0) (Linear 0x80000000 0) = true ∧ epilogue_hash (Linear 0 0) ≠ epilogue_hash (Linear 0x80000000 0).
Proof. split; [run|by vm_compute]. Qed.
Example epilogue_eq_not_reflexive : epilogue_eqb (Linear 0x7FC00000 0) (Linear 0x7FC00000 0) = false.
Proof. run. Qed.

Module Gemm.
Record GemmRequest := {
  dtype : CutlassDtype;   (* [T::DTYPE] *)
  shape : GemmShape;
  layout_a : GemmLayout; layout_b : GemmLayout; layout_c : GemmLayout;
  epilogue : GemmEpilogue;
  accum_dtype : CutlassDtype;
  output_dtype : CutlassDtype;
  arch : SmArch;
  persistent : bool;
}.

Definition new (t : CutlassDtype) (s : GemmShape) (a : SmArch) : GemmRequest :=
  {| dtype := t; shape := s; layout_a := RowMajor; layout_b := RowMajor; layout_c := RowMajor;
     epilogue := epilogue_default; accum_dtype := F32; output_dtype := t; arch := a;
     persistent := supports_persistent_kernels a |}.

Definition with_layouts (a b c : GemmLayout) (r : GemmRequest) : GemmRequest :=
  {| dtype := dtype r; shape := shape r; layout_a := a; layout_b := b; layout_c := c; epilogue := epilogue r;
     accum_dtype := accum_dtype r; output_dtype := output_dtype r; arch := arch r; persistent := persistent r |}.
Definition with_epilogue (e : GemmEpilogue) (r : GemmRequest) : GemmRequest :=
  {| dtype := dtype r; shape := shape r; layout_a := layout_a r; layout_b := layout_b r; layout_c := layout_c r;
     epilogue := e; accum_dtype := accum_dtype r; output_dtype := output_dtype r; arch := arch r;
     persistent := persistent r |}.
Definition with_accum_dtype (d : CutlassDtype) (r : GemmRequest) : GemmRequest :=
  {| dtype := dtype r; shape := shape r; layout_a := layout_a r; layout_b := layout_b r; layout_c := layout_c r;
     epilogue := epilogue r; accum_dtype := d; output_dtype := output_dtype r; arch := arch r;
     persistent := persistent r |}.
Definition with_output_dtype (d : CutlassDtype) (r : GemmRequest) : GemmRequest :=
  {| dtype := dtype r; shape := shape r; layout_a := layout_a r; layout_b := layout_b r; layout_c := layout_c r;
     epilogue := epilogue r; accum_dtype := accum_dtype r; output_dtype := d; arch := arch r;
     persistent := persistent r |}.
Definition with_persistent (p : bool) (r : GemmRequest) : GemmRequest :=
  {| dtype := dtype r; shape := shape r; layout_a := layout_a r; layout_b := layout_b r; layout_c := layout_c r;
     epilogue := epilogue r; accum_dtype := accum_dtype r; output_dtype := output_dtype r; arch := arch r;
     persistent := p |}.

Definition legacy (t : CutlassDtype) (m n k : Z) (l : GemmLayout) (alpha : Z) : GemmRequest :=
  with_epilogue (Linear alpha 0) (with_layouts l l l (new t {| gm := m; gn := n; gk := k |} Sm80)).

(** [PlanKey::gemm] *)
Definition fields (r : GemmRequest) : list Field :=
  [AddU32 (gm (shape r)); AddU32 (gn (shape r)); AddU32 (gk (shape r));
   AddU8 (layout_u8 (layout_a r)); AddU8 (layout_u8 (layout_b r)); AddU8 (layout_u8 (layout_c r));
   AddStr (dtype_name (dtype r)); AddStr (dtype_name (accum_dtype r)); AddStr (dtype_name (output_dtype r));
   AddStr (arch_name (arch r)); AddU8 (b2z (persistent r)); AddStr (epilogue_name (epilogue r));
   AddU32 (epilogue_scalars (epilogue r)).1; AddU32 (epilogue_scalars (epilogue r)).2].
End Gemm.

(** ** [grouped_gemm.rs] *)

Inductive GroupedLayout : Type := Uniform | VariableM | Variable_.
#[global] Instance GroupedLayout_eq_dec : EqDecision GroupedLayout.
Proof. solve_decision. Defined.
Definition grouped_name (g : GroupedLayout) : string :=
  match g with Uniform => "uniform" | VariableM => "var_m" | Variable_ => "var" end.

Module Grouped.
Record GroupedGemmRequest := {
  dtype : CutlassDtype;
  shapes : list GemmShape;
  layout_a : GemmLayout; layout_b : GemmLayout; layout_c : GemmLayout;
  grouped_layout : GroupedLayout;
  epilogue : GemmEpilogue;
  accum_dtype : CutlassDtype;
  output_dtype : CutlassDtype;
  arch : SmArch;
  persistent : bool;
}.

(** [iter().map(..).max().unwrap_or(0)] of unsigned integers. *)
Definition max_of (f : GemmShape → Z) (l : list GemmShape) : Z := foldr (λ s acc, Z.max (f s) acc) 0%Z l.
Definition summary (l : list GemmShape) : Z * Z * Z * nat := (max_of gm l, max_of gn l, max_of gk l, length l).
Definition group_count (r : GroupedGemmRequest) : nat := length (shapes r).

Definition new (t : CutlassDtype) (l : list GemmShape) (a : SmArch) : GroupedGemmRequest :=
  {| dtype := t; shapes := l; layout_a := RowMajor; layout_b := RowMajor; layout_c := RowMajor;
     grouped_layout := Uniform; epilogue := epilogue_default; accum_dtype := F32; output_dtype := t; arch := a;
     persistent := supports_persistent_kernels a |}.
Definition with_grouped_layout (g : GroupedLayout) (r : GroupedGemmRequest) : GroupedGemmRequest :=
  {| dtype := dtype r; shapes := shapes r; layout_a := layout_a r; layout_b := layout_b r; layout_c := layout_c r;
     grouped_layout := g; epilogue := epilogue r; accum_dtype := accum_dtype r; output_dtype := output_dtype r;
     arch := arch r; persistent := persistent r |}.
Definition with_layouts (a b c : GemmLayout) (r : GroupedGemmRequest) : GroupedGemmRequest :=
  {| dtype := dtype r; shapes := shapes r; layout_a := a; layout_b := b; layout_c := c;
     grouped_layout := grouped_layout r; epilogue := epilogue r; accum_dtype := accum_dtype r;
     output_dtype := output_dtype r; arch := arch r; persistent := persistent r |}.
Definition with_epilogue (e : GemmEpilogue) (r : GroupedGemmRequest) : GroupedGemmRequest :=
  {| dtype := dtype r; shapes := shapes r; layout_a := layout_a r; layout_b := layout_b r; layout_c := layout_c r;
     grouped_layout := grouped_layout r; epilogue := e; accum_dtype := accum_dtype r;
     output_dtype := output_dtype r; arch := arch r; persistent := persistent r |}.

(** [PlanKey::grouped_gemm] of the summary: the number of groups as a [u32],
    and no scalars of the epilogue. *)
Definition fields (r : GroupedGemmRequest) : list Field :=
  let '(m, n, k, count) := summary (shapes r) in
  [AddU32 m; AddU32 n; AddU32 k; AddU32 (wrap 32 (Z.of_nat count));
   AddU8 (layout_u8 (layout_a r)); AddU8 (layout_u8 (layout_b r)); AddU8 (layout_u8 (layout_c r));
   AddStr (grouped_name (grouped_layout r));
   AddStr (dtype_name (dtype r)); AddStr (dtype_name (accum_dtype r)); AddStr (dtype_name (output_dtype r));
   AddStr (arch_name (arch r)); AddU8 (b2z (persistent r)); AddStr (epilogue_name (epilogue r))].
End Grouped.

(** ** [conv.rs] *)

Inductive ConvLayout : Type := Nhwc | Nchw.
Inductive ConvKind : Type := Fprop | Dgrad | Wgrad.
#[global] Instance ConvLayout_eq_dec : EqDecision ConvLayout.
Proof. solve_decision. Defined.
#[global] Instance ConvKind_eq_dec : EqDecision ConvKind.
Proof. solve_decision. Defined.
Definition conv_layout_type (l : ConvLayout) : string :=
  match l with Nhwc => "cutlass::layout::TensorNHWC" | Nchw => "cutlass::layout::TensorNCHW" end.
Definition conv_layout_name (l : ConvLayout) : string := match l with Nhwc => "nhwc" | Nchw => "nchw" end.
Definition kind_name (k : ConvKind) : string :=
  match k with Fprop => "fprop" | Dgrad => "dgrad" | Wgrad => "wgrad" end.
Definition cutlass_kernel (k : ConvKind) : string :=
  match k with
  | Fprop => "cutlass::conv::device::ImplicitGemmConvolution"
  | Dgrad => "cutlass::conv::device::ImplicitGemmConvolutionDgrad"
  | Wgrad => "cutlass::conv::device::ImplicitGemmConvolutionWgrad"
  end.

Module Conv.
Record ConvShape := {
  n : Z; h : Z; w : Z; c : Z; k : Z; r : Z; s : Z;
  pad_h : Z; pad_w : Z; stride_h : Z; stride_w : Z; dil_h : Z; dil_w : Z;
}.
Definition nhwc (n h w c k r s : Z) : ConvShape :=
  {| n := n; h := h; w := w; c := c; k := k; r := r; s := s;
     pad_h := 0; pad_w := 0; stride_h := 1; stride_w := 1; dil_h := 1; dil_w := 1 |}.

(** The three request types differ in [kind] alone, a constant of each. *)
Record ConvRequest := {
  kind : ConvKind;
  dtype : CutlassDtype;
  shape : ConvShape;
  layout : ConvLayout;
  accum_dtype : CutlassDtype;
  output_dtype : CutlassDtype;
  arch : SmArch;
}.
Definition new (kd : ConvKind) (t : CutlassDtype) (sh : ConvShape) (a : SmArch) : ConvRequest :=
  {| kind := kd; dtype := t; shape := sh; layout := Nhwc; accum_dtype := F32; output_dtype := t; arch := a |}.
Definition with_layout (l : ConvLayout) (q : ConvRequest) : ConvRequest :=
  {| kind := kind q; dtype := dtype q; shape := shape q; layout := l; accum_dtype := accum_dtype q;
     output_dtype := output_dtype q; arch := arch q |}.
Definition with_accum_dtype (d : CutlassDtype) (q : ConvRequest) : ConvRequest :=
  {| kind := kind q; dtype := dtype q; shape := shape q; layout := layout q; accum_dtype := d;
     output_dtype := output_dtype q; arch := arch q |}.
Definition with_output_dtype (d : CutlassDtype) (q : ConvRequest) : ConvRequest :=
  {| kind := kind q; dtype := dtype q; shape := shape q; layout := layout q; accum_dtype := accum_dtype q;
     output_dtype := d; arch := arch q |}.

(** [PlanKey::conv] *)
Definition fields (q : ConvRequest) : list Field :=
  let sh := shape q in
  [AddStr (kind_name (kind q)); AddU32 (n sh); AddU32 (h sh); AddU32 (w sh); AddU32 (c sh); AddU32 (k sh);
   AddU32 (r sh); AddU32 (s sh); AddU32 (pad_h sh); AddU32 (pad_w sh); AddU32 (stride_h sh); AddU32 (stride_w sh);
   AddU32 (dil_h sh); AddU32 (dil_w sh);
   AddStr (conv_layout_name (layout q)); AddStr (dtype_name (dtype q)); AddStr (dtype_name (accum_dtype q));
   AddStr (dtype_name (output_dtype q)); AddStr (arch_name (arch q))].
End Conv.

(** ** Plan keys and sources: [plan_cache.rs], [kernels/mod.rs] *)

Definition nl : string := String "010" "".
Definition quote : string := String "034" "".
Definition pnat (n : nat) : string := pretty (N.of_nat n).
Definition pbool (b : bool) : string := if b then "true" else "false".

Definition header_preamble : string :=
  nl +:+ "#include <cutlass/cutlass.h>" +:+ nl +:+
  "#include <cutlass/numeric_types.h>" +:+ nl +:+
  "#include <cutlass/gemm/device/gemm_universal.h>" +:+ nl +:+
  "#include <cutlass/conv/device/implicit_gemm_convolution.h>" +:+ nl.

Definition sm_arch_num (a : SmArch) : Z :=
  match a with Sm80 => 80 | Sm86 => 86 | Sm89 => 89 | Sm90 => 90 | Sm90a => 90 | Sm100 => 100 | Sm120 => 120 end%Z.

(** [write!] of a list of pieces. *)
Definition text (l : list string) : string := foldr String.append "" l.

Section keys.
Context (sip : list Z → Z).

Definition finish (h : Hasher) : Z * Z * Z := (sip (lane_a h), sip (lane_b h), sip (lane_c h)).
Definition key_of (tid : Z) (fs : list Field) : PlanKey :=
  {| template_id := tid; payload := finish (foldl feed Hasher_new fs) |}.

Definition gemm_key (r : Gemm.GemmRequest) : PlanKey := key_of 1 (Gemm.fields r).
Definition grouped_key (r : Grouped.GroupedGemmRequest) : PlanKey := key_of 2 (Grouped.fields r).
Definition conv_key (q : Conv.ConvRequest) : PlanKey := key_of 3 (Conv.fields q).

(** The derived [Hash] of [PlanKey]: the tag, then the array as a slice: its
    length and its bytes. *)
Definition key_suffix (k : PlanKey) : string :=
  let '(a, b, c) := payload k in
  hex 16 (sip ([template_id k] ++ le_bytes 8 3 ++ le_bytes 8 a ++ le_bytes 8 b ++ le_bytes 8 c)).

Definition render_gemm (r : Gemm.GemmRequest) : string * string :=
  let kname := "atomr_cutlass_gemm_" +:+ key_suffix (gemm_key r) in
  (text [header_preamble;
     "// atomr-accel-cutlass: GEMM template instantiation"; nl;
     "//   shape=("; pretty (gm (Gemm.shape r)); ", "; pretty (gn (Gemm.shape r)); ", "; pretty (gk (Gemm.shape r));
     ") layout=("; layout_name (Gemm.layout_a r); ", "; layout_name (Gemm.layout_b r); ", ";
     layout_name (Gemm.layout_c r); ") dtype="; dtype_name (Gemm.dtype r); " accum="; dtype_name (Gemm.accum_dtype r);
     " out="; dtype_name (Gemm.output_dtype r); " arch="; arch_name (Gemm.arch r); " persistent=";
     pbool (Gemm.persistent r); nl;
     "using AtomrGemm = cutlass::gemm::device::GemmUniversal<"; nl;
     as_cutlass_type (Gemm.dtype r); ", "; layout_type (Gemm.layout_a r); ","; nl;
     as_cutlass_type (Gemm.dtype r); ", "; layout_type (Gemm.layout_b r); ","; nl;
     as_cutlass_type (Gemm.output_dtype r); ", "; layout_type (Gemm.layout_c r); ","; nl;
     as_cutlass_type (Gemm.accum_dtype r); ","; nl;
     "cutlass::arch::OpClassTensorOp,"; nl;
     "cutlass::arch::Sm"; pretty (sm_arch_num (Gemm.arch r)); ">;"; nl;
     "// epilogue: "; epilogue_name (Gemm.epilogue r); nl;
     "extern "; quote; "C"; quote; " __global__ void "; kname; "("; nl; "    AtomrGemm::Arguments args)"; nl;
     "{"; nl; "    // CUTLASS launches via a host-side adapter; the kernel body"; nl;
     "    // is generated by CUTLASS itself. This stub holds the"; nl;
     "    // device-side entry symbol so NVRTC's name-expression lookup"; nl;
     "    // resolves cleanly."; nl; "    (void)args;"; nl; "}"; nl], kname).

Definition render_grouped_gemm (r : Grouped.GroupedGemmRequest) : string * string :=
  let kname := "atomr_cutlass_grouped_gemm_" +:+ key_suffix (grouped_key r) in
  (text [header_preamble;
     "// atomr-accel-cutlass: Grouped GEMM template instantiation"; nl;
     "//   group_count="; pnat (Grouped.group_count r); " layout="; grouped_name (Grouped.grouped_layout r);
     " dtype="; dtype_name (Grouped.dtype r); " arch="; arch_name (Grouped.arch r); nl;
     "using AtomrGroupedGemm = cutlass::gemm::device::GemmUniversal /* grouped variant */<"; nl;
     as_cutlass_type (Grouped.dtype r); ", "; layout_type (Grouped.layout_a r); ","; nl;
     as_cutlass_type (Grouped.dtype r); ", "; layout_type (Grouped.layout_b r); ","; nl;
     as_cutlass_type (Grouped.output_dtype r); ", "; layout_type (Grouped.layout_c r); ","; nl;
     as_cutlass_type (Grouped.accum_dtype r); ">;"; nl;
     "// kernel: GroupedGemm symbol is generated by CUTLASS host-side adapter."; nl;
     "extern "; quote; "C"; quote; " __global__ void "; kname; "(int) {}"; nl], kname).

Definition render_conv (q : Conv.ConvRequest) : string * string :=
  let kname := "atomr_cutlass_conv_" +:+ kind_name (Conv.kind q) +:+ "_" +:+ key_suffix (conv_key q) in
  let sh := Conv.shape q in
  (text [header_preamble;
     "// atomr-accel-cutlass: Implicit-GEMM convolution"; nl;
     "//   kind="; kind_name (Conv.kind q); " shape=N"; pretty (Conv.n sh); "H"; pretty (Conv.h sh); "W";
     pretty (Conv.w sh); "C"; pretty (Conv.c sh); "K"; pretty (Conv.k sh); "R"; pretty (Conv.r sh); "S";
     pretty (Conv.s sh); " layout="; conv_layout_name (Conv.layout q); " dtype="; dtype_name (Conv.dtype q);
     " accum="; dtype_name (Conv.accum_dtype q); " out="; dtype_name (Conv.output_dtype q); " arch=";
     arch_name (Conv.arch q); nl;
     "using AtomrConv = "; cutlass_kernel (Conv.kind q); "</* simplified template arg list */>;"; nl;
     "// CUTLASS implicit-GEMM convolution; ImplicitGemmConvolution path."; nl;
     "extern "; quote; "C"; quote; " __global__ void "; kname; "(int) {}"; nl], kname).
End keys.

(** ** [evt.rs] *)

Module Evt.
Inductive ReduceKind : Type := Sum | Max | Min | Mean.
Definition reduce_name (k : ReduceKind) : string :=
  match k with Sum => "sum" | Max => "max" | Min => "min" | Mean => "mean" end.

Inductive EpilogueOp : Type :=
  | LinearCombination (alpha beta : Z)
  | BiasAdd (dtype : CutlassDtype)
  | Relu | Gelu | Silu | Tanh
  | Quantize (out_dtype : CutlassDtype) (per_channel : bool)
  | ResidualAdd (dtype : CutlassDtype)
  | Reduce (kind : ReduceKind).

Definition op_name (o : EpilogueOp) : string :=
  match o with
  | LinearCombination _ _ => "linear"
  | BiasAdd _ => "bias_add"
  | Relu => "relu" | Gelu => "gelu" | Silu => "silu" | Tanh => "tanh"
  | Quantize _ _ => "quantize"
  | ResidualAdd _ => "residual_add"
  | Reduce _ => "reduce"
  end.

(** The text before and after the previous node. *)
Definition op_open (o : EpilogueOp) : string :=
  match o with
  | LinearCombination _ _ => "cutlass::epilogue::fusion::Sm90LinearCombination<"
  | BiasAdd d => text ["cutlass::epilogue::fusion::Sm90Compute<cutlass::plus, "; as_cutlass_type d; ", "]
  | Relu => "cutlass::epilogue::fusion::Sm90Compute<cutlass::epilogue::thread::ReLu, float, "
  | Gelu => "cutlass::epilogue::fusion::Sm90Compute<cutlass::epilogue::thread::GELU_taylor, float, "
  | Silu => "cutlass::epilogue::fusion::Sm90Compute<cutlass::epilogue::thread::SiLu, float, "
  | Tanh => "cutlass::epilogue::fusion::Sm90Compute<cutlass::epilogue::thread::Tanh, float, "
  | Quantize d pc =>
    text ["cutlass::epilogue::fusion::Sm90"; if pc then "PerChannel" else "PerTensor"; "Quantize<"; as_cutlass_type d; ", "]
  | ResidualAdd d => text ["cutlass::epilogue::fusion::Sm90Residual<"; as_cutlass_type d; ", "]
  | Reduce k =>
    text ["cutlass::epilogue::fusion::Sm90Reduce<cutlass::reduce::";
          match k with Sum => "sum" | Max => "maximum" | Min => "minimum" | Mean => "mean" end; ", float, "]
  end.
Definition render_op (o : EpilogueOp) (prev : string) : string := op_open o +:+ prev +:+ ">".

(** [EpilogueVisitorTree]: the ops in order of insertion. *)
Definition EpilogueVisitorTree : Type := list EpilogueOp.
Definition render (t : EpilogueVisitorTree) : string :=
  foldl (λ s o, render_op o s) "cutlass::epilogue::fusion::Sm90AccFetch" t.

(** [str::hash] writes the bytes and [0xff]. *)
Definition hash_str (s : string) : list Z := as_bytes s ++ [0xff%Z].
Definition op_hash (o : EpilogueOp) : list Z :=
  hash_str (op_name o) ++
  match o with
  | BiasAdd d | ResidualAdd d | Quantize d _ => hash_str (dtype_name d)
  | Reduce k => hash_str (reduce_name k)
  | LinearCombination a b => le_bytes 4 a ++ le_bytes 4 b
  | _ => []
  end.
(** [id] is [sip (id_stream t)]. *)
Definition id_stream (t : EpilogueVisitorTree) : list Z := t ≫= op_hash.

(** [EvtBuilder]: its methods push one op each. *)
Definition push (o : EpilogueOp) (b : list EpilogueOp) : list EpilogueOp := b ++ [o].
Definition build (b : list EpilogueOp) : EpilogueVisitorTree := b.

(** Two trees with one id that render differently. *)
Example same_id_other_source :
  let t1 := build (push (Quantize I8 true) []) in
  let t2 := build (push (Quantize I8 false) []) in
  id_stream t1 = id_stream t2 ∧ render t1 ≠ render t2.
Proof. split; [run|by vm_compute]. Qed.
End Evt.

Example gemm_source_prefix :
  String.prefix header_preamble (render_gemm (λ _, 0%Z) (Gemm.new F16 {| gm := 64; gn := 64; gk := 64 |} Sm90a)).1 = true.
Proof. run. Qed.

(** ** The keys tell the requests apart *)

Lemma rotate_left_arith v k :
  in_width 32 v → (0 ≤ k ≤ 32)%Z →
  rotate_left v k = ((v mod 2 ^ (32 - k)) * 2 ^ k + v / 2 ^ (32 - k))%Z.
Proof.
  intros Hv Hk. unfold rotate_left, wrap. rewrite Z.shiftl_mul_pow2, Z.shiftr_div_pow2 by lia.
  assert (Hp : (2 ^ 32 = 2 ^ (32 - k) * 2 ^ k)%Z) by (rewrite <-Z.pow_add_r by lia; f_equal; lia).
  rewrite Hp at 1. rewrite Z.mul_mod_distr_r by (apply Z.pow_nonzero; lia).
  apply lor_add_low; [lia|]. unfold in_width in Hv.
  split; [apply Z.div_pos; lia|apply Z.div_lt_upper_bound; lia].
Qed.

Lemma rotate_left_inj k v w :
  (0 ≤ k ≤ 32)%Z → in_width 32 v → in_width 32 w → rotate_left v k = rotate_left w k → v = w.
Proof.
  intros Hk Hv Hw. rewrite !rotate_left_arith by done.
  assert (Hp : (2 ^ 32 = 2 ^ (32 - k) * 2 ^ k)%Z) by (rewrite <-Z.pow_add_r by lia; f_equal; lia).
  assert (0 < 2 ^ k)%Z by (apply Z.pow_pos_nonneg; lia).
  assert (0 < 2 ^ (32 - k))%Z by (apply Z.pow_pos_nonneg; lia).
  assert (Hq : ∀ x, in_width 32 x → (0 ≤ x / 2 ^ (32 - k) < 2 ^ k)%Z).
  { intros x [Hx Hx']. split; [by apply Z.div_pos|]. apply Z.div_lt_upper_bound; lia. }
  intros He.
  rewrite (Z.mul_comm (v mod _)), (Z.mul_comm (w mod _)) in He.
  apply Z.div_mod_unique in He as [Hm Hd]; [|left; by apply Hq..].
  rewrite (Z.div_mod v (2 ^ (32 - k))), (Z.div_mod w (2 ^ (32 - k))) by lia. by rewrite Hm, Hd.
Qed.

Lemma rotate_left_width k v : (0 ≤ k ≤ 32)%Z → in_width 32 v → in_width 32 (rotate_left v k).
Proof.
  intros Hk Hv. rewrite rotate_left_arith by done.
  assert (Hp : (2 ^ 32 = 2 ^ (32 - k) * 2 ^ k)%Z) by (rewrite <-Z.pow_add_r by lia; f_equal; lia).
  assert (0 < 2 ^ k)%Z by (apply Z.pow_pos_nonneg; lia).
  assert (0 < 2 ^ (32 - k))%Z by (apply Z.pow_pos_nonneg; lia).
  pose proof (Z.mod_pos_bound v (2 ^ (32 - k))). destruct Hv as [Hv Hv'].
  assert (0 ≤ v / 2 ^ (32 - k) < 2 ^ k)%Z.
  { split; [by apply Z.div_pos|]. apply Z.div_lt_upper_bound; lia. }
  unfold in_width. rewrite Hp. nia.
Qed.

(** One of the three hashers. *)
Inductive Lane : Type := LaneA | LaneB | LaneC.
Definition lane_of (l : Lane) (h : Hasher) : list Z :=
  match l with LaneA => lane_a h | LaneB => lane_b h | LaneC => lane_c h end.
Definition lane_u8 (l : Lane) (v : Z) : list Z :=
  match l with LaneA => [v] | LaneB => [wadd 8 v 0x55] | LaneC => [wadd 8 v 0xAA] end.
Definition lane_rot (l : Lane) : Z := match l with LaneA => 0 | LaneB => 11 | LaneC => 23 end.
Definition lane_u32 (l : Lane) (v : Z) : list Z :=
  le_bytes 4 (match l with LaneA => v | _ => rotate_left v (lane_rot l) end).
Definition enc (l : Lane) (f : Field) : list Z :=
  match f with AddU8 v => lane_u8 l v | AddU32 v => lane_u32 l v | AddStr s => as_bytes s end.

Lemma feed_lane l fs h : lane_of l (foldl feed h fs) = lane_of l h ++ (fs ≫= enc l).
Proof.
  revert h. induction fs as [|f fs IH]; intros h; [cbn; by rewrite app_nil_r|].
  cbn [foldl]. rewrite IH. cbn [mbind list_bind]. rewrite app_assoc. f_equal. by destruct l, f.
Qed.

Definition byte (v : Z) : Prop := (0 ≤ v < 256)%Z.

#[global] Instance lane_u8_code l : Code byte (lane_u8 l).
Proof.
  intros x y s t Hx Hy He. unfold byte, wadd, wrap in *.
  assert (Hm : ∀ a b c, byte a → byte b → ((a + c) mod 256 = (b + c) mod 256)%Z → a = b).
  { unfold byte. intros a b c Ha Hb Hc. rewrite (Z.add_mod a), (Z.add_mod b) in Hc by lia.
    pose proof (Z.mod_pos_bound c 256). rewrite (Z.mod_small a), (Z.mod_small b) in Hc by lia.
    destruct (Z.lt_ge_cases (a + c mod 256) 256), (Z.lt_ge_cases (b + c mod 256) 256);
      rewrite ?(Z.mod_small (a + _)), ?(Z.mod_small (b + _)) in Hc by lia;
      [lia|..]; rewrite <-?(Z_mod_plus_full (a + c mod 256) (-1)), <-?(Z_mod_plus_full (b + c mod 256) (-1)) in Hc;
      rewrite ?(Z.mod_small (a + _ + _)), ?(Z.mod_small (b + _ + _)) in Hc by lia; lia. }
  destruct l; injection He as He ->; (split; [|done]); [done|by eapply Hm..].
Qed.

#[global] Instance lane_u32_code l : Code (in_width 32) (lane_u32 l).
Proof.
  destruct l; [apply (le_bytes_code 4)|..].
  all: apply (code_compose _ _ _ _ (le_bytes_code 4)); intros *; [apply rotate_left_width; simpl; lia|].
  all: apply rotate_left_inj; simpl; lia.
Qed.

(** *** The names as codes *)

#[global] Instance dtype_code : Code (λ _ : CutlassDtype, True) (λ d, as_bytes (dtype_name d)).
Proof. apply (prefix_free_code _ all_dtypes); [intros []; set_solver|run]. Qed.

#[global] Instance kind_code : Code (λ _ : ConvKind, True) (λ k, as_bytes (kind_name k)).
Proof. apply (prefix_free_code _ [Fprop; Dgrad; Wgrad]); [intros []; set_solver|run]. Qed.

#[global] Instance conv_layout_code : Code (λ _ : ConvLayout, True) (λ l, as_bytes (conv_layout_name l)).
Proof. apply (prefix_free_code _ [Nhwc; Nchw]); [intros []; set_solver|run]. Qed.

#[global] Instance layout_code l : Code (λ _ : GemmLayout, True) (λ x, lane_u8 l (layout_u8 x)).
Proof. apply (prefix_free_code _ [RowMajor; ColMajor]); [intros []; set_solver|destruct l; run]. Qed.

(** [sm_90] is a prefix of [sm_90a]; the byte that follows decides. *)
Definition arch_persistent (l : Lane) (x : SmArch * bool) : list Z :=
  as_bytes (arch_name x.1) ++ lane_u8 l (b2z x.2).
Definition all_pairs {A B} (l : list A) (k : list B) : list (A * B) := l ≫= λ a, (λ b, (a, b)) <$> k.
Lemma all_pairs_elem {A B} (l : list A) (k : list B) x : x.1 ∈ l → x.2 ∈ k → x ∈ all_pairs l k.
Proof.
  intros Ha Hb. apply list_elem_of_bind. exists x.1. split; [|done].
  apply list_elem_of_fmap. exists x.2. by destruct x.
Qed.

#[global] Instance arch_persistent_code l : Code (λ _, True) (arch_persistent l).
Proof.
  apply (prefix_free_code _ (all_pairs all_archs [true; false])); [|destruct l; run].
  intros [[] []]; apply all_pairs_elem; set_solver.
Qed.

(** [var] is a prefix of [var_m]; no type name starts with an underscore. *)
Definition grouped_dtype (x : GroupedLayout * CutlassDtype) : list Z :=
  as_bytes (grouped_name x.1) ++ as_bytes (dtype_name x.2).

#[global] Instance grouped_dtype_code : Code (λ _, True) grouped_dtype.
Proof.
  apply (prefix_free_code _ (all_pairs [Uniform; VariableM; Variable_] all_dtypes)); [|run].
  intros [[] []]; apply all_pairs_elem; set_solver.
Qed.

(** The end of a GEMM key: a name of the epilogue and eight bytes. *)
Lemma epilogue_tail_inj l e1 e2 :
  (∀ x, x = e1 ∨ x = e2 → in_width 32 (epilogue_scalars x).1 ∧ in_width 32 (epilogue_scalars x).2) →
  as_bytes (epilogue_name e1) ++ lane_u32 l (epilogue_scalars e1).1 ++ lane_u32 l (epilogue_scalars e1).2 =
  as_bytes (epilogue_name e2) ++ lane_u32 l (epilogue_scalars e2).1 ++ lane_u32 l (epilogue_scalars e2).2 → e1 = e2.
Proof.
  intros Hwf He. destruct (Hwf e1 (or_introl eq_refl)) as [Ha1 Hb1], (Hwf e2 (or_intror eq_refl)) as [Ha2 Hb2].
  assert (Hl : ∀ v, length (lane_u32 l v) = 4) by (intros v; apply le_bytes_length).
  apply app_inj_2 in He as [Hn Ht]; [|by rewrite !length_app, !Hl].
  rewrite <-(app_nil_r (lane_u32 l (epilogue_scalars e1).2)), <-(app_nil_r (lane_u32 l (epilogue_scalars e2).2)) in Ht.
  apply lane_u32_code in Ht as [Ha Ht]; [|done..]. apply lane_u32_code in Ht as [Hb _]; [|done..].
  destruct e1, e2; try discriminate Hn; simpl in *; by subst.
Qed.

Definition shape_wf (s : GemmShape) : Prop := in_width 32 (gm s) ∧ in_width 32 (gn s) ∧ in_width 32 (gk s).
Definition scalars_wf (e : GemmEpilogue) : Prop := in_width 32 (epilogue_scalars e).1 ∧ in_width 32 (epilogue_scalars e).2.
Definition gemm_wf (r : Gemm.GemmRequest) : Prop := shape_wf (Gemm.shape r) ∧ scalars_wf (Gemm.epilogue r).
Definition conv_shape_wf (s : Conv.ConvShape) : Prop :=
  Forall (in_width 32) [Conv.n s; Conv.h s; Conv.w s; Conv.c s; Conv.k s; Conv.r s; Conv.s s; Conv.pad_h s;
    Conv.pad_w s; Conv.stride_h s; Conv.stride_w s; Conv.dil_h s; Conv.dil_w s].
Definition grouped_wf (r : Grouped.GroupedGemmRequest) : Prop :=
  Forall shape_wf (Grouped.shapes r) ∧ in_width 32 (Z.of_nat (Grouped.group_count r)).

Lemma gemm_stream_inj l r1 r2 :
  gemm_wf r1 → gemm_wf r2 → Gemm.fields r1 ≫= enc l = Gemm.fields r2 ≫= enc l → r1 = r2.
Proof.
  destruct r1 as [d1 [m1 n1 k1] a1 b1 c1 e1 x1 o1 s1 p1], r2 as [d2 [m2 n2 k2] a2 b2 c2 e2 x2 o2 s2 p2].
  intros [(?&?&?) Hs1] [(?&?&?) Hs2] He. unfold Gemm.fields in He.
  cbn [mbind list_bind enc Gemm.shape Gemm.layout_a Gemm.layout_b Gemm.layout_c Gemm.dtype Gemm.accum_dtype
    Gemm.output_dtype Gemm.arch Gemm.persistent Gemm.epilogue gm gn gk] in *.
  read (lane_u32_code l) in He as ->. read (lane_u32_code l) in He as ->. read (lane_u32_code l) in He as ->.
  read (layout_code l) in He as ->. read (layout_code l) in He as ->. read (layout_code l) in He as ->.
  read dtype_code in He as ->. read dtype_code in He as ->. read dtype_code in He as ->.
  rewrite !(app_assoc (as_bytes (arch_name _))) in He.
  apply (arch_persistent_code l (s1, p1) (s2, p2)) in He as [[= -> ->] He]; [|done..].
  rewrite !app_nil_r in He. apply epilogue_tail_inj in He as ->; [done|]. intros x [->| ->]; done.
Qed.

Lemma conv_stream_inj l q1 q2 :
  conv_shape_wf (Conv.shape q1) → conv_shape_wf (Conv.shape q2) →
  Conv.fields q1 ≫= enc l = Conv.fields q2 ≫= enc l → q1 = q2.
Proof.
  destruct q1 as [kd1 d1 [] l1 x1 o1 s1], q2 as [kd2 d2 [] l2 x2 o2 s2].
  unfold conv_shape_wf. rewrite !Forall_cons. intros H1 H2 He. destruct_and!.
  unfold Conv.fields in He. cbn [mbind list_bind enc Conv.kind Conv.shape Conv.layout Conv.dtype Conv.accum_dtype
    Conv.output_dtype Conv.arch Conv.n Conv.h Conv.w Conv.c Conv.k Conv.r Conv.s Conv.pad_h Conv.pad_w
    Conv.stride_h Conv.stride_w Conv.dil_h Conv.dil_w] in *.
  read kind_code in He as ->. do 13 (read (lane_u32_code l) in He as ?).
  read conv_layout_code in He as ->. read dtype_code in He as ->. read dtype_code in He as ->. read dtype_code in He as ->.
  rewrite !app_nil_r in He. apply (inj as_bytes) in He. simpl in *. subst.
  f_equal. by destruct s1, s2.
Qed.

(** What a key of a grouped GEMM says of its request. *)
Definition grouped_identity (r : Grouped.GroupedGemmRequest) :=
  (Grouped.summary (Grouped.shapes r), (Grouped.layout_a r, Grouped.layout_b r, Grouped.layout_c r),
   Grouped.grouped_layout r, (Grouped.dtype r, Grouped.accum_dtype r, Grouped.output_dtype r),
   (Grouped.arch r, Grouped.persistent r), epilogue_name (Grouped.epilogue r)).

Lemma max_of_width f l : Forall (λ s, in_width 32 (f s)) l → in_width 32 (Grouped.max_of f l).
Proof. unfold in_width. induction 1; simpl; lia. Qed.

Lemma grouped_stream_inj l r1 r2 :
  grouped_wf r1 → grouped_wf r2 → Grouped.fields r1 ≫= enc l = Grouped.fields r2 ≫= enc l →
  grouped_identity r1 = grouped_identity r2.
Proof.
  intros [Hs1 Hc1] [Hs2 Hc2] He. unfold Grouped.fields, Grouped.summary, Grouped.group_count in *.
  cbn [mbind list_bind enc] in He.
  assert (Hw : ∀ r, Forall shape_wf (Grouped.shapes r) →
    in_width 32 (Grouped.max_of gm (Grouped.shapes r)) ∧ in_width 32 (Grouped.max_of gn (Grouped.shapes r)) ∧
    in_width 32 (Grouped.max_of gk (Grouped.shapes r))).
  { intros r Hr. split_and!; apply max_of_width; (eapply Forall_impl; [exact Hr|]); by intros s (?&?&?). }
  destruct (Hw r1 Hs1) as (?&?&?), (Hw r2 Hs2) as (?&?&?). rewrite !wrap_small in He by done.
  read (lane_u32_code l) in He as Hm. read (lane_u32_code l) in He as Hn. read (lane_u32_code l) in He as Hk.
  read (lane_u32_code l) in He as Hc. apply Nat2Z.inj in Hc.
  read (layout_code l) in He as Ha. read (layout_code l) in He as Hb. read (layout_code l) in He as Hc'.
  rewrite !(app_assoc (as_bytes (grouped_name _))) in He.
  apply (grouped_dtype_code (_, _) (_, _)) in He as [[= Hg Hd] He]; [|done..].
  read dtype_code in He as Hx. read dtype_code in He as Ho.
  rewrite !(app_assoc (as_bytes (arch_name _))) in He.
  apply (arch_persistent_code l (_, _) (_, _)) in He as [[= Hs Hp] He]; [|done..].
  rewrite !app_nil_r in He. apply (inj as_bytes) in He.
  unfold grouped_identity, Grouped.summary. by rewrite Hm, Hn, Hk, Hc, Ha, Hb, Hc', Hg, Hd, Hx, Ho, Hs, Hp, He.
Qed.

Definition stream (l : Lane) (fs : list Field) : list Z := lane_of l (foldl feed Hasher_new fs).

Lemma stream_eq l fs1 fs2 : stream l fs1 = stream l fs2 ↔ fs1 ≫= enc l = fs2 ≫= enc l.
Proof. unfold stream. rewrite !feed_lane. split; [by intros ?%app_inv_head|by intros ->]. Qed.

Lemma grouped_identity_fields r1 r2 :
  grouped_identity r1 = grouped_identity r2 → Grouped.fields r1 = Grouped.fields r2.
Proof.
  unfold grouped_identity, Grouped.fields. intros [= Hm Hn Hk Hc -> -> -> -> -> -> -> -> -> ->].
  unfold Grouped.summary in *. by rewrite Hm, Hn, Hk, Hc.
Qed.

(** A plan key stands for one template instantiation: each of the three hashers
    behind a key is fed bytes that determine the request: all of it for a GEMM
    and a convolution, although names are written without separators; for a
    grouped GEMM all but the single shapes and the scalars of the epilogue, and
    requests that agree on the rest render the same source and kernel name.  So
    two requests that need different sources share a plan only if three hashes
    collide at once. *)
Theorem plan_keys_identify (l : Lane) :
  (∀ r1 r2, gemm_wf r1 → gemm_wf r2 → stream l (Gemm.fields r1) = stream l (Gemm.fields r2) ↔ r1 = r2) ∧
  (∀ q1 q2, conv_shape_wf (Conv.shape q1) → conv_shape_wf (Conv.shape q2) →
    stream l (Conv.fields q1) = stream l (Conv.fields q2) ↔ q1 = q2) ∧
  (∀ r1 r2, grouped_wf r1 → grouped_wf r2 →
    stream l (Grouped.fields r1) = stream l (Grouped.fields r2) ↔ grouped_identity r1 = grouped_identity r2) ∧
  (∀ sip r1 r2, grouped_identity r1 = grouped_identity r2 →
    grouped_key sip r1 = grouped_key sip r2 ∧ render_grouped_gemm sip r1 = render_grouped_gemm sip r2).
Proof.
  split_and!.
  - intros r1 r2 H1 H2. rewrite stream_eq. split; [by apply gemm_stream_inj|by intros ->].
  - intros q1 q2 H1 H2. rewrite stream_eq. split; [by apply conv_stream_inj|by intros ->].
  - intros r1 r2 H1 H2. rewrite stream_eq. split; [by apply grouped_stream_inj|].
    by intros ->%grouped_identity_fields.
  - intros sip r1 r2 He. assert (Hk : grouped_key sip r1 = grouped_key sip r2).
    { unfold grouped_key. by rewrite (grouped_identity_fields r1 r2 He). }
    split; [done|]. unfold render_grouped_gemm. rewrite Hk.
    unfold grouped_identity, Grouped.summary in He. injection He as _ _ _ Hc -> -> -> -> -> -> -> -> _ _.
    unfold Grouped.group_count. by rewrite Hc.
Qed.

Definition gemm_64 (alpha : Z) : Gemm.GemmRequest :=
  Gemm.with_epilogue (Linear alpha 0) (Gemm.new Bf16 {| gm := 64; gn := 64; gk := 64 |} Sm90a).

Lemma plan_keys_identify_witness :
  stream LaneB (Gemm.fields (gemm_64 1)) ≠ stream LaneB (Gemm.fields (gemm_64 2)).
Proof.
  assert (Hw : ∀ a, in_width 32 a → gemm_wf (gemm_64 a)) by (intros a Ha; split; [by vm_compute|by split; [|vm_compute]]).
  destruct (proj1 (plan_keys_identify LaneB) (gemm_64 1) (gemm_64 2) (Hw 1%Z ltac:(by vm_compute)) (Hw 2%Z ltac:(by vm_compute)))
    as [He _].
  intros Hs. apply He in Hs. by apply (f_equal (λ r, (epilogue_scalars (Gemm.epilogue r)).1)) in Hs.
Defined.
