(* ===== verification/Cutlass.v ===== *)
(** * CutlassActor: compiling each template once

    Models [PlanCache] of [crates/atomr-accel-cutlass/src/plan_cache.rs] and
    [actor.rs] of that crate.  The cache is any implementation of the interface
    of [Lru.v]; the compile sink is a closure given to the actor, its answers a
    parameter. *)

From stdpp Require Import pretty.
From S2P Require Import Prelude Actor Text Lru CutlassRequests.

Record CachedPlan := { key : PlanKey; source : string; kernel_name : string; kernel_handle : option nat }.

Record RefitMsg := { plan_key : PlanKey; weights : list Z }.

Inductive CutlassMsg : Type :=
  | Gemm (d : Gemm.GemmRequest)
  | GroupedGemm (d : Grouped.GroupedGemmRequest)
  | Conv (d : Conv.ConvRequest)
  | Refit (msg : RefitMsg) (reply : nat).

Inductive CutlassEff : Type :=
  | Compile (src name : string)
  | WarnSink (e : string)
  | ReplyRefit (reply : nat) (r : result unit string).

(** The sources handed to the sink. *)
Definition compiles (es : list CutlassEff) : list (string * string) :=
  omap (λ e, match e with Compile s n => Some (s, n) | _ => None end) es.

Section actor.
Context {C : Type} `{!LruOps PlanKey CachedPlan C}.
Context (sip : list Z → Z).
(** What the sink answers, when there is one. *)
Context (sink : option (string → string → result unit string)).

(** *** [PlanCache] *)

Record PlanCache := { inner : C; capacity : nat }.

Definition PlanCache_new (capacity : nat) : PlanCache :=
  let cap := Nat.max capacity 1 in {| inner := lru_new cap; capacity := cap |}.
Definition PlanCache_default : PlanCache := PlanCache_new 64.
Definition PlanCache_len (p : PlanCache) : nat := lru_len (inner p).
Definition PlanCache_is_empty (p : PlanCache) : bool := PlanCache_len p =? 0.
Definition set_inner (c : C) (p : PlanCache) : PlanCache := {| inner := c; capacity := capacity p |}.
Definition PlanCache_get (k : PlanKey) (p : PlanCache) : option CachedPlan * PlanCache :=
  let '(o, c) := lru_get k (inner p) in (o, set_inner c p).
Definition PlanCache_insert (plan : CachedPlan) (p : PlanCache) : PlanCache :=
  set_inner (lru_put (key plan) plan (inner p)) p.
Definition PlanCache_clear (p : PlanCache) : PlanCache := set_inner (lru_clear (inner p)) p.

(** *** The actor *)

Record CutlassInner := { plan_cache : PlanCache; dispatched : Z }.

Definition CutlassActor_new (plan_cache_capacity : nat) : CutlassInner :=
  {| plan_cache := PlanCache_new plan_cache_capacity; dispatched := 0 |}.

Definition count_dispatch (s : CutlassInner) : CutlassInner :=
  {| plan_cache := plan_cache s; dispatched := dispatched s +₆₄ 1 |}.
Definition set_cache (p : PlanCache) (s : CutlassInner) : CutlassInner :=
  {| plan_cache := p; dispatched := dispatched s |}.

(** [self.inner.plan_cache.get(&key)] *)
Definition cache_get (k : PlanKey) : act CutlassInner CutlassEff (option CachedPlan) :=
  s ← get;
  let '(o, p) := PlanCache_get k (plan_cache s) in
  put (set_cache p s);; mret o.

(** The answer of the sink is logged by [Gemm] and dropped by the others; either
    way the plan is stored. *)
Definition run_sink (logged : bool) (src name : string) : act CutlassInner CutlassEff unit :=
  match sink with
  | None => skip
  | Some f =>
    emit (Compile src name);;
    match f src name with
    | Err e => if logged then emit (WarnSink e) else skip
    | Ok _ => skip
    end
  end.

Definition dispatch (logged : bool) (k : PlanKey) (rendered : string * string) : act CutlassInner CutlassEff unit :=
  hit ← cache_get k;
  match hit with
  | Some _ => skip
  | None =>
    let '(src, name) := rendered in
    run_sink logged src name;;
    modify (λ s, set_cache (PlanCache_insert
      {| key := k; source := src; kernel_name := name; kernel_handle := None |} (plan_cache s)) s)
  end.

(** [{:?}] of a plan key. *)
Definition debug_key (k : PlanKey) : string :=
  let '(a, b, c) := payload k in
  text ["PlanKey { template_id: "; pretty (template_id k); ", payload: ["; pretty a; ", "; pretty b; ", "; pretty c; "] }"].

Definition cutlass_handle (m : CutlassMsg) : act CutlassInner CutlassEff unit :=
  modify count_dispatch;;
  match m with
  | Gemm d => dispatch true (gemm_key sip d) (render_gemm sip d)
  | GroupedGemm d => dispatch false (grouped_key sip d) (render_grouped_gemm sip d)
  | Conv d => dispatch false (conv_key sip d) (render_conv sip d)
  | Refit msg reply =>
    hit ← cache_get (plan_key msg);
    match hit with
    | Some _ => emit (ReplyRefit reply (Ok tt))
    | None => emit (ReplyRefit reply (Err ("cutlass refit: no plan for key " +:+ debug_key (plan_key msg))))
    end
  end.

#[global] Instance cutlass_actor : Actor CutlassInner CutlassMsg CutlassEff := λ s m, exec (cutlass_handle m) s.

(** ** Specification *)

(** The request of a message that is dispatched: its key and what it renders. *)
Definition request (m : CutlassMsg) : option (PlanKey * (string * string)) :=
  match m with
  | Gemm d => Some (gemm_key sip d, render_gemm sip d)
  | GroupedGemm d => Some (grouped_key sip d, render_grouped_gemm sip d)
  | Conv d => Some (conv_key sip d, render_conv sip d)
  | Refit _ _ => None
  end.

Definition plan_of (r : PlanKey * (string * string)) : CachedPlan :=
  {| key := r.1; source := r.2.1; kernel_name := r.2.2; kernel_handle := None |}.

Definition sink_effects (logged : bool) (r : string * string) : list CutlassEff :=
  match sink with
  | None => []
  | Some f =>
    Compile r.1 r.2 :: match f r.1 r.2 with Err e => if logged then [WarnSink e] else [] | Ok _ => [] end
  end.

Definition is_gemm (m : CutlassMsg) : bool := match m with Gemm _ => true | _ => false end.

(** The reference: [rs] are the requests compiled so far, in order. *)
Definition cutlass_step (rs : list (PlanKey * (string * string))) (m : CutlassMsg) :
    list (PlanKey * (string * string)) * list CutlassEff :=
  match request m, m with
  | Some r, _ => if decide (r.1 ∈ rs.*1) then (rs, []) else (rs ++ [r], sink_effects (is_gemm m) r.2)
  | None, Refit msg reply =>
    (rs, [ReplyRefit reply (if decide (plan_key msg ∈ rs.*1) then Ok tt
            else Err ("cutlass refit: no plan for key " +:+ debug_key (plan_key msg)))])
  | None, _ => (rs, [])
  end.

Fixpoint cutlass_spec (rs : list (PlanKey * (string * string))) (ms : list CutlassMsg) :
    list (PlanKey * (string * string)) * list CutlassEff :=
  match ms with
  | [] => (rs, [])
  | m :: ms =>
    let '(rs1, e1) := cutlass_step rs m in
    let '(rs2, e2) := cutlass_spec rs1 ms in (rs2, e1 ++ e2)
  end.

(** *** The cache holds exactly the compiled requests *)

Context `{!LruLaws PlanKey CachedPlan C}.

Definition holds (c : C) (rs : list (PlanKey * (string * string))) : Prop :=
  lru_wf c ∧ NoDup rs.*1 ∧ ∀ k, entry_find k (lru_entries c) = plan_of <$> find (λ r, bool_decide (r.1 = k)) rs.

Lemma find_key_None (rs : list (PlanKey * (string * string))) k :
  find (λ r, bool_decide (r.1 = k)) rs = None ↔ k ∉ rs.*1.
Proof.
  induction rs as [|r rs IH]; simpl; [split; [set_solver|done]|]. rewrite not_elem_of_cons.
  case_bool_decide; [naive_solver|]. rewrite IH. naive_solver.
Qed.

Lemma holds_keys c rs k : holds c rs → k ∈ (lru_entries c).*1 ↔ k ∈ rs.*1.
Proof.
  intros (_ & _ & Hf). rewrite <-entry_find_Some_key, Hf.
  destruct (find _ rs) as [r|] eqn:Hr; simpl.
  - split; [|done]. intros _. destruct (decide (k ∈ rs.*1)) as [|Hn]; [done|].
    apply find_key_None in Hn. congruence.
  - apply find_key_None in Hr. split; [by intros []|done].
Qed.

Lemma holds_get c rs k : holds c rs →
  holds (lru_get k c).2 rs ∧ lru_cap (lru_get k c).2 = lru_cap c ∧
  (lru_get k c).1 = plan_of <$> find (λ r, bool_decide (r.1 = k)) rs.
Proof.
  intros (Hwf & Hd & Hf). split_and!.
  - split_and!; [by apply lru_get_wf|done|]. intros k'. by rewrite lru_get_find.
  - destruct (entry_find k (lru_entries c)) as [v|] eqn:Hk; [by apply (lru_get_hit c k v)|by rewrite lru_get_miss].
  - rewrite <-Hf. destruct (entry_find k (lru_entries c)) as [v|] eqn:Hk; [by apply (lru_get_hit c k v)|by rewrite lru_get_miss].
Qed.

Lemma find_app_one (rs : list (PlanKey * (string * string))) r k :
  r.1 ∉ rs.*1 →
  find (λ r, bool_decide (r.1 = k)) (rs ++ [r]) =
    if decide (k = r.1) then Some r else find (λ r, bool_decide (r.1 = k)) rs.
Proof.
  induction rs as [|x rs IH]; simpl.
  - intros _. case_bool_decide; case_decide; naive_solver.
  - rewrite not_elem_of_cons. intros [Hx Hn]. case_bool_decide as Hk; [|by apply IH].
    rewrite decide_False; [done|]. simpl in *. congruence.
Qed.

Lemma holds_put c rs r :
  holds c rs → r.1 ∉ rs.*1 → length (lru_entries c) < lru_cap c →
  holds (lru_put r.1 (plan_of r) c) (rs ++ [r]) ∧ lru_cap (lru_put r.1 (plan_of r) c) = lru_cap c.
Proof.
  intros (Hwf & Hd & Hf) Hr Hl. split; [|by apply lru_put_entries]. split_and!.
  - by apply lru_put_wf.
  - rewrite fmap_app. apply NoDup_app. split_and!; [done|set_solver|apply NoDup_singleton].
  - intros k. rewrite find_app_one by done. rewrite lru_put_find; [|done| |done].
    + rewrite Hf. by case_decide.
    + rewrite Hf. by rewrite (proj2 (find_key_None rs r.1)).
Qed.

Definition keys_of (ms : list CutlassMsg) : list PlanKey := fst <$> omap request ms.

Lemma holds_room c rs ks k :
  holds c rs → (∀ x, x ∈ rs.*1 → x ∈ ks) → k ∈ ks → k ∉ rs.*1 → length ks ≤ lru_cap c →
  length (lru_entries c) < lru_cap c.
Proof.
  intros Hh Hks Hk Hn Hlen. eapply Nat.lt_le_trans; [|exact Hlen].
  rewrite <-(length_fmap fst). apply (submseteq_length (k :: (lru_entries c).*1)).
  apply NoDup_submseteq.
  - constructor; [by rewrite (holds_keys c rs)|]. apply Hh.
  - intros x [->|Hx]%elem_of_cons; [done|]. apply Hks. by rewrite <-(holds_keys c rs).
Qed.

(** One dispatch is one step of the reference. *)
Lemma dispatch_spec ks s rs logged r :
  holds (inner (plan_cache s)) rs → (∀ x, x ∈ rs.*1 → x ∈ ks) → r.1 ∈ ks → length ks ≤ lru_cap (inner (plan_cache s)) →
  awp (dispatch logged r.1 r.2) (λ _ s' es,
    dispatched s' = dispatched s ∧ lru_cap (inner (plan_cache s')) = lru_cap (inner (plan_cache s)) ∧
    if decide (r.1 ∈ rs.*1) then holds (inner (plan_cache s')) rs ∧ es = []
    else holds (inner (plan_cache s')) (rs ++ [r]) ∧ es = sink_effects logged r.2) s.
Proof.
  intros Hh Hks Hr Hlen. destruct (holds_get _ rs r.1 Hh) as (Hh1 & Hc1 & Hg).
  unfold awp, dispatch, cache_get, PlanCache_get, mbind, act_bind, get.
  destruct (lru_get r.1 (inner (plan_cache s))) as [o c1]. simpl in *. subst o.
  destruct (decide (r.1 ∈ rs.*1)) as [Hin|Hout].
  - destruct (find _ rs) as [x|] eqn:Hf; [|by apply find_key_None in Hf]. simpl. done.
  - rewrite (proj2 (find_key_None rs r.1)) by done. simpl. destruct r as [k [src name]]. simpl in *.
    destruct (holds_put c1 rs (k, (src, name)) Hh1 Hout) as [Hh2 Hc2].
    { eapply holds_room; [exact Hh1|exact Hks|exact Hr|exact Hout|by rewrite Hc1]. }
    unfold run_sink, sink_effects. destruct sink as [f|]; simpl.
    + destruct (f src name); [|destruct logged]; simpl; split_and!; try done; by etrans.
    + split_and!; try done. by etrans.
Qed.

Lemma cutlass_step_spec ks s rs m :
  holds (inner (plan_cache s)) rs → (∀ x, x ∈ rs.*1 → x ∈ ks) → (∀ x, x ∈ keys_of [m] → x ∈ ks) →
  length ks ≤ lru_cap (inner (plan_cache s)) →
  holds (inner (plan_cache (handle s m).1)) (cutlass_step rs m).1 ∧
  (handle s m).2 = (cutlass_step rs m).2 ∧ lru_cap (inner (plan_cache (handle s m).1)) = lru_cap (inner (plan_cache s)) ∧
  dispatched (handle s m).1 = dispatched s +₆₄ 1.
Proof.
  intros Hh Hks Hm Hlen. unfold handle, cutlass_actor, cutlass_handle.
  assert (Hreq : ∀ r logged, request m = Some r → is_gemm m = logged →
    let '(s', es) := exec (modify count_dispatch;; dispatch logged r.1 r.2) s in
    holds (inner (plan_cache s')) (cutlass_step rs m).1 ∧ es = (cutlass_step rs m).2 ∧
    lru_cap (inner (plan_cache s')) = lru_cap (inner (plan_cache s)) ∧ dispatched s' = dispatched s +₆₄ 1).
  { intros r logged Hr Hl. unfold cutlass_step. rewrite Hr, Hl.
    pose proof (dispatch_spec ks (count_dispatch s) rs logged r Hh Hks) as Hd. unfold awp in Hd.
    unfold exec, mbind, act_bind, modify. destruct (dispatch logged r.1 r.2 (count_dispatch s)) as [[a s'] es].
    destruct Hd as (Hd1 & Hd2 & Hd3); [|done|].
    { apply Hm. unfold keys_of. simpl. rewrite Hr. simpl. by left. }
    simpl. destruct (decide (r.1 ∈ rs.*1)); destruct Hd3 as [Hd3 ->]; by split_and!. }
  destruct m as [d|d|d|msg reply].
  - specialize (Hreq _ true eq_refl eq_refl). by destruct (exec _ s).
  - specialize (Hreq _ false eq_refl eq_refl). by destruct (exec _ s).
  - specialize (Hreq _ false eq_refl eq_refl). by destruct (exec _ s).
  - clear Hreq. destruct (holds_get _ rs (plan_key msg) Hh) as (Hh1 & Hc1 & Hg).
    unfold exec, cache_get, PlanCache_get, mbind, act_bind, modify, get. simpl.
    destruct (lru_get (plan_key msg) (inner (plan_cache s))) as [o c1]. simpl in *. subst o.
    destruct (decide (plan_key msg ∈ rs.*1)) as [Hin|Hout].
    + destruct (find _ rs) as [x|] eqn:Hf; [|by apply find_key_None in Hf]. by split_and!.
    + rewrite (proj2 (find_key_None rs _)) by done. by split_and!.
Qed.

Lemma cutlass_step_keys rs m x : x ∈ (cutlass_step rs m).1.*1 → x ∈ rs.*1 ∨ x ∈ keys_of [m].
Proof.
  unfold cutlass_step, keys_of. destruct (request m) as [r|] eqn:Hr; [|destruct m; by left].
  destruct (decide _); [by left|]. simpl. rewrite Hr, fmap_app, elem_of_app. simpl. tauto.
Qed.

Lemma cutlass_run_spec ks s rs ms :
  holds (inner (plan_cache s)) rs → (∀ x, x ∈ rs.*1 → x ∈ ks) → (∀ x, x ∈ keys_of ms → x ∈ ks) →
  length ks ≤ lru_cap (inner (plan_cache s)) →
  holds (inner (plan_cache (run_actor s ms).1)) (cutlass_spec rs ms).1 ∧ (run_actor s ms).2 = (cutlass_spec rs ms).2.
Proof.
  revert s rs. induction ms as [|m ms IH]; intros s rs Hh Hks Hm Hlen; [done|]. cbn [run_actor cutlass_spec].
  assert (Hk : ∀ x, x ∈ keys_of [m] ∨ x ∈ keys_of ms → x ∈ ks).
  { intros x Hx. apply Hm. unfold keys_of in *. simpl in *. destruct (request m); simpl in *; [|set_solver].
    rewrite elem_of_cons in *. set_solver. }
  destruct (cutlass_step_spec ks s rs m Hh Hks) as (Hh1 & He1 & Hc1 & _); [by auto|done|].
  pose proof (cutlass_step_keys rs m) as Hsk.
  destruct (handle s m) as [s1 e1], (cutlass_step rs m) as [rs1 e1']. simpl in *.
  destruct (IH s1 rs1 Hh1) as [Hh2 He2]; [|by auto|by rewrite Hc1|].
  { intros x Hx. destruct (Hsk x Hx); auto. }
  destruct (run_actor s1 ms) as [s2 e2], (cutlass_spec rs1 ms) as [rs2 e2']. simpl in *. by subst.
Qed.

(** The requests the reference ends with: the first of each key. *)
Lemma cutlass_spec_first rs ms k :
  find (λ r, bool_decide (r.1 = k)) (cutlass_spec rs ms).1 =
    match find (λ r, bool_decide (r.1 = k)) rs with
    | Some r => Some r
    | None => find (λ r, bool_decide (r.1 = k)) (omap request ms)
    end.
Proof.
  revert rs. induction ms as [|m ms IH]; intros rs; simpl; [by destruct (find _ rs)|].
  assert (Hs : find (λ r, bool_decide (r.1 = k)) (cutlass_step rs m).1 =
    match find (λ r, bool_decide (r.1 = k)) rs with
    | Some r => Some r
    | None => find (λ r, bool_decide (r.1 = k)) (omap request [m])
    end).
  { unfold cutlass_step. simpl. destruct (request m) as [r|]; [|by destruct m; simpl; destruct (find _ rs)].
    destruct (decide (r.1 ∈ rs.*1)) as [Hin|Hout]; simpl.
    - destruct (find _ rs) as [x|] eqn:Hf; [done|]. apply find_key_None in Hf. by rewrite bool_decide_eq_false_2 by (by intros <-).
    - rewrite find_app_one by done. case_bool_decide as Hk.
      + subst k. rewrite decide_True by done. by rewrite (proj2 (find_key_None rs r.1)).
      + rewrite decide_False by congruence. by destruct (find _ rs). }
  specialize (IH (cutlass_step rs m).1). destruct (cutlass_step rs m) as [rs1 e1]. simpl in *.
  destruct (cutlass_spec rs1 ms) as [rs2 e2]. simpl in *. rewrite IH, Hs.
  destruct (find _ rs); [done|]. destruct (request m) as [r|]; simpl; [|done]. by case_bool_decide.
Qed.

(** Each template is compiled once: for every implementation of the plan cache,
    every sink and every sequence of messages whose keys fit the capacity, the
    actor does what the reference does: the first request of each key is rendered
    and handed to the sink, whatever the sink answers, and later ones are not;
    a refit succeeds exactly when its key was dispatched before.  When no two
    different templates have the same key, every request finds the source and
    the kernel name it renders itself. *)
Theorem cutlass_compiles_once (capacity : nat) (ms : list CutlassMsg) (ks : list PlanKey) :
  (∀ x, x ∈ keys_of ms → x ∈ ks) → length ks ≤ capacity `max` 1 →
  let '(s, es) := run_actor (CutlassActor_new capacity) ms in
  es = (cutlass_spec [] ms).2 ∧ NoDup (cutlass_spec [] ms).1.*1 ∧
  ((∀ r1 r2, r1 ∈ omap request ms → r2 ∈ omap request ms → r1.1 = r2.1 → r1.2 = r2.2) →
    ∀ r, r ∈ omap request ms → (PlanCache_get r.1 (plan_cache s)).1 = Some (plan_of r)).
Proof.
  intros Hks Hlen. set (s0 := CutlassActor_new capacity).
  destruct (lru_entries_new (C := C) (capacity `max` 1)) as [He Hc].
  assert (Hh0 : holds (inner (plan_cache s0)) []).
  { split_and!; [apply lru_new_wf|constructor|]. intros k. simpl. by rewrite He. }
  pose proof (cutlass_run_spec ks s0 [] ms Hh0) as Hr.
  destruct (run_actor s0 ms) as [s es]. simpl in Hr. rewrite Hc in Hr.
  destruct Hr as [Hh ->]; [set_solver|done|done|]. split_and!; [done|apply Hh|].
  intros Hinj r Hin. unfold PlanCache_get. destruct (holds_get _ _ r.1 Hh) as (_ & _ & Hg).
  destruct (lru_get r.1 (inner (plan_cache s))) as [o c]. simpl in *. rewrite Hg, cutlass_spec_first. simpl.
  destruct (find _ (omap request ms)) as [x|] eqn:Hf.
  - apply find_some in Hf as [Hx%list_elem_of_In Hk%bool_decide_eq_true_1]. simpl. f_equal.
    destruct x as [k1 x], r as [k2 y]. simpl in *. subst. by rewrite (Hinj (k2, x) (k2, y) Hx Hin eq_refl : x = y).
  - apply find_key_None in Hf. destruct Hf. by apply list_elem_of_fmap_2.
Qed.

End actor.

(** ** An instance, and what a rejected source leaves behind *)

Definition sum_sip (l : list Z) : Z := fold_right (λ x acc, (x + 31 * acc) mod 2 ^ 64)%Z 7%Z l.
Definition rejecting (src name : string) : result unit string := Err "nvrtc: compilation failed".

Definition some_gemm : CutlassMsg := Gemm (gemm_64 1).
Definition some_key : PlanKey := gemm_key sum_sip (gemm_64 1).

(** The sink rejects the source; the plan is cached all the same, the template is
    never compiled again, and a refit of it succeeds. *)
Example rejected_source_is_cached :
  (λ e, match e with Compile _ _ => 1 | WarnSink _ => 2 | ReplyRefit _ (Ok _) => 3 | ReplyRefit _ (Err _) => 4 end)
    <$> (@run_actor _ _ _ (cutlass_actor (C := ListLru PlanKey CachedPlan) sum_sip (Some rejecting)) (CutlassActor_new 8)
      [some_gemm; some_gemm; Refit {| plan_key := some_key; weights := [] |} 0]).2 = [1; 2; 3].
Proof. vm_compute. reflexivity. Qed.

Lemma cutlass_compiles_once_witness :
  (λ es, compiles es) (@run_actor _ _ _ (cutlass_actor (C := ListLru PlanKey CachedPlan) sum_sip (Some rejecting))
     (CutlassActor_new 0) [some_gemm; Refit {| plan_key := some_key; weights := [] |} 0; some_gemm]).2 =
    [render_gemm sum_sip (gemm_64 1)].
Proof.
  pose proof (cutlass_compiles_once (C := ListLru PlanKey CachedPlan) sum_sip (Some rejecting) 0
    [some_gemm; Refit {| plan_key := some_key; weights := [] |} 0; some_gemm] [some_key]) as Hc.
  destruct (run_actor _ _) as [s es]. destruct Hc as (-> & _ & _).
  - intros x Hx. change (x ∈ [some_key; some_key]) in Hx. by apply elem_of_cons in Hx as [->|Hx]; [left|].
  - simpl. lia.
  - vm_compute. reflexivity.
Defined.
