(* ===== verification/Replay.v ===== *)
(** * ReplayHarness: record, persist, recover

    Models [crates/atomr-accel-cuda/src/replay/mod.rs] with the cargo feature
    [replay].  The persistence backend ([atomr_persistence::Journal]) and the
    serializer ([serde_json]) are classes; their laws state the journal
    contract the module relies on.  The clock is an input of every message. *)

From stdpp Require Import pretty.
From S2P Require Import Prelude Actor.

Inductive ReplayMode : Type := Off | RecordMode | ReplayM.

#[global] Instance ReplayMode_eq_dec : EqDecision ReplayMode.
Proof. solve_decision. Defined.

Inductive JournalEntry : Type :=
  | DeviceCmd (ts_micros : Z) (name payload : string)
  | KernelCmd (ts_micros : Z) (kind payload : string)
  | RngSeed (actor_path : string) (seed : Z)
  | BatchSize (actor_path : string) (size : nat).

(** ** The backend and the serializer *)

Record PersistentRepr {Bytes : Type} := {
  persistence_id : string;
  sequence_nr : Z;
  payload : Bytes;
  manifest : string;
  writer_uuid : string;
  deleted : bool;
  tags : list string;
}.
Arguments PersistentRepr : clear implicits.

Class Journal (J Bytes : Type) := {
  write_messages : J → list (PersistentRepr Bytes) → result unit string * J;
  highest_sequence_nr : J → string → Z → result Z string;
  replay_messages : J → string → Z → Z → Z → result (list (PersistentRepr Bytes)) string;
}.

Class Serde (Bytes : Type) := {
  to_vec : JournalEntry → result Bytes string;
  from_slice : Bytes → result JournalEntry string;
}.

(** The contract: a backend holds, per identifier, the messages in the order
    of their sequence numbers, which start at 1; the next one is accepted. *)
Class JournalLaw (J Bytes : Type) `{!Journal J Bytes} := {
  contents : J → string → list (PersistentRepr Bytes);
  law_highest : ∀ j pid,
    highest_sequence_nr j pid 0 = Ok (match last (contents j pid) with Some r => sequence_nr r | None => 0%Z end);
  law_write : ∀ j r,
    sequence_nr r = (match last (contents j (persistence_id r)) with Some q => sequence_nr q | None => 0%Z end + 1)%Z →
    ∃ j', write_messages j [r] = (Ok (), j') ∧
      contents j' (persistence_id r) = contents j (persistence_id r) ++ [r];
  law_replay : ∀ j pid from to max,
    replay_messages j pid from to max =
      Ok (take (Z.to_nat max) (filter (λ r, (from ≤ sequence_nr r ≤ to)%Z) (contents j pid)));
}.

Class SerdeLaw (Bytes : Type) `{!Serde Bytes} :=
  serde_roundtrip : ∀ e, ∃ b, to_vec e = Ok b ∧ from_slice b = Ok e.

Section replay.
Context {J Bytes : Type} `{!Journal J Bytes, !Serde Bytes}.

Record PersistenceState := { pid : string; next_seq : Z }.

(** The harness, and the backend it shares with its later incarnations. *)
Record Harness := {
  mode : ReplayMode;
  journal : list JournalEntry;
  persistence : option PersistenceState;
  store : J;
}.

Inductive ReplayMsg : Type :=
  | Record_ (e : JournalEntry)
  | Snapshot (reply : nat)
  | SetMode (m : ReplayMode)
  | LoadJournal (entries : list JournalEntry) (reply : nat)
  | ReplayAll
  | LoadFromJournal (from_sequence_nr max : Z) (reply : nat).

Inductive ReplayEff : Type :=
  | ReplySnapshot (reply : nat) (es : list JournalEntry)
  | ReplyUnit (reply : nat)
  | ReplyLoaded (reply : nat) (r : result nat string)
  | Warn (error : string).

Definition Harness_new (m : ReplayMode) (j : J) : Harness :=
  {| mode := m; journal := []; persistence := None; store := j |}.
Definition with_journal (m : ReplayMode) (j : J) (id : string) : Harness :=
  {| mode := m; journal := []; persistence := Some {| pid := id; next_seq := 0 |}; store := j |}.

Definition set_mode (m : ReplayMode) (h : Harness) : Harness :=
  {| mode := m; journal := journal h; persistence := persistence h; store := store h |}.
Definition set_journal (es : list JournalEntry) (h : Harness) : Harness :=
  {| mode := mode h; journal := es; persistence := persistence h; store := store h |}.
Definition set_backend (p : PersistenceState) (j : J) (h : Harness) : Harness :=
  {| mode := mode h; journal := journal h; persistence := Some p; store := j |}.

(** The time stamp of an entry that has one is that of its recording. *)
Definition stamp (ts : Z) (e : JournalEntry) : JournalEntry :=
  match e with
  | DeviceCmd _ n p => DeviceCmd ts n p
  | KernelCmd _ k p => KernelCmd ts k p
  | e => e
  end.

Definition make_repr (id : string) (seq : Z) (b : Bytes) : PersistentRepr Bytes :=
  {| persistence_id := id; sequence_nr := seq; payload := b;
     manifest := "atomr_accel_cuda::replay::JournalEntry"; writer_uuid := "atomr-accel-cuda";
     deleted := false; tags := [] |}.

(** The counter after the lazy initialisation. *)
Definition init_seq (p : PersistenceState) (j : J) : result Z string :=
  if (next_seq p =? 0)%Z then
    match highest_sequence_nr j (pid p) 0 with
    | Ok highest => Ok highest
    | Err e => Err ("highest_seq: " +:+ e)
    end
  else Ok (next_seq p).

Definition write_to_journal (p : PersistenceState) (j : J) (e : JournalEntry) :
    result unit string * PersistenceState * J :=
  match to_vec e with
  | Err err => (Err ("serde: " +:+ err), p, j)
  | Ok b =>
    match init_seq p j with
    | Err err => (Err err, p, j)
    | Ok s =>
      let seq := (s +₆₄ 1)%Z in
      let p := {| pid := pid p; next_seq := seq |} in
      let '(r, j) := write_messages j [make_repr (pid p) seq b] in
      (match r with Ok _ => Ok () | Err err => Err ("write_messages: " +:+ err) end, p, j)
    end
  end.

Definition handle_record (now : Z) (e : JournalEntry) : act Harness ReplayEff unit :=
  h ← get;
  if decide (mode h = RecordMode) then
    let e := stamp now e in
    modify (set_journal (journal h ++ [e]));;
    match persistence h with
    | None => skip
    | Some p =>
      let '(r, p', j') := write_to_journal p (store h) e in
      modify (set_backend p' j');;
      match r with Ok _ => skip | Err err => emit (Warn err) end
    end
  else skip.

(** The decoding loop; the first failure ends it. *)
Fixpoint decode_all (rs : list (PersistentRepr Bytes)) : result (list JournalEntry) string :=
  match rs with
  | [] => Ok []
  | r :: rs =>
    match from_slice (payload r) with
    | Err e => Err ("decode seq=" +:+ pretty (sequence_nr r) +:+ ": " +:+ e)
    | Ok e => match decode_all rs with Ok es => Ok (e :: es) | Err e => Err e end
    end
  end.

Definition u64_max : Z := 2 ^ 64 - 1.

Definition load_from_journal (from max : Z) (reply : nat) : act Harness ReplayEff unit :=
  h ← get;
  match persistence h with
  | None => emit (ReplyLoaded reply (Err "no persistence backend attached"))
  | Some p =>
    match replay_messages (store h) (pid p) from u64_max max with
    | Err e => emit (ReplyLoaded reply (Err ("journal replay failed: " +:+ e)))
    | Ok reprs =>
      match decode_all reprs with
      | Err e => emit (ReplyLoaded reply (Err e))
      | Ok decoded => modify (set_journal decoded);; emit (ReplyLoaded reply (Ok (length decoded)))
      end
    end
  end.

Definition replay_handle (now : Z) (m : ReplayMsg) : act Harness ReplayEff unit :=
  match m with
  | Record_ e => handle_record now e
  | Snapshot reply => h ← get; emit (ReplySnapshot reply (journal h))
  | SetMode m => modify (set_mode m)
  | LoadJournal es reply => modify (set_journal es);; emit (ReplyUnit reply)
  | ReplayAll => skip
  | LoadFromJournal from max reply => load_from_journal from max reply
  end.

(** The entries [replay_all] hands to the sink, each after the previous one
    was acknowledged. *)
Definition replay_all (h : Harness) : list JournalEntry :=
  if decide (mode h = ReplayM) then journal h else [].

(** ** Runs, with restarts of the actor *)

Inductive ReplayOp : Type :=
  | Message (now : Z) (m : ReplayMsg)
  (** The supervisor creates the actor anew from its props. *)
  | RestartActor.

Definition replay_op (init : ReplayMode) (id : string) (h : Harness) (op : ReplayOp) : Harness :=
  match op with
  | Message now m => (exec (replay_handle now m) h).1
  | RestartActor => with_journal init (store h) id
  end.

Definition replay_run (init : ReplayMode) (id : string) (h : Harness) (ops : list ReplayOp) : Harness :=
  foldl (replay_op init id) h ops.

(** What the operations record. *)
Fixpoint recorded (init m : ReplayMode) (ops : list ReplayOp) : list JournalEntry :=
  match ops with
  | [] => []
  | RestartActor :: ops => recorded init init ops
  | Message _ (SetMode m) :: ops => recorded init m ops
  | Message now (Record_ e) :: ops =>
    (if decide (m = RecordMode) then [stamp now e] else []) ++ recorded init m ops
  | Message _ _ :: ops => recorded init m ops
  end.

Context `{!JournalLaw J Bytes, !SerdeLaw Bytes}.

(** The backend holds the entries [es] under [id]. *)
Definition holds (j : J) (id : string) (es : list JournalEntry) : Prop :=
  ∃ bs, contents j id = imap (λ i b, make_repr id (Z.of_nat (S i)) b) bs ∧
    Forall2 (λ b e, from_slice b = Ok e) bs es.

Definition harness_inv (id : string) (h : Harness) (es : list JournalEntry) : Prop :=
  holds (store h) id es ∧
  ∃ p, persistence h = Some p ∧ pid p = id ∧ (next_seq p = 0 ∨ next_seq p = Z.of_nat (length es))%Z.

Lemma holds_highest j id es :
  holds j id es →
  match last (contents j id) with Some r => sequence_nr r | None => 0%Z end = Z.of_nat (length es).
Proof.
  intros (bs & -> & Hf%Forall2_length). rewrite <-Hf. destruct bs as [|b bs _] using rev_ind; [done|].
  rewrite imap_app. simpl. rewrite last_snoc, length_app. simpl. lia.
Qed.

Lemma write_to_journal_ok p j e es :
  holds j (pid p) es → (next_seq p = 0 ∨ next_seq p = Z.of_nat (length es))%Z →
  (Z.of_nat (length es) < u64_max)%Z →
  ∃ j', write_to_journal p j e =
      (Ok (), {| pid := pid p; next_seq := Z.of_nat (S (length es)) |}, j') ∧
    holds j' (pid p) (es ++ [e]).
Proof.
  intros Hj Hn Hmax. pose proof (holds_highest j (pid p) es Hj) as Hh.
  destruct (serde_roundtrip e) as (b & Hto & Hfrom). unfold write_to_journal. rewrite Hto.
  assert (Hi : init_seq p j = Ok (Z.of_nat (length es))).
  { unfold init_seq. destruct (Z.eqb_spec (next_seq p) 0); [by rewrite law_highest, Hh|].
    f_equal. lia. }
  rewrite Hi. assert (Hs : Z.of_nat (length es) +₆₄ 1 = Z.of_nat (S (length es))).
  { rewrite wadd_small; [lia|]. unfold in_width, u64_max in *. lia. }
  rewrite Hs. cbn [pid].
  destruct (law_write j (make_repr (pid p) (Z.of_nat (S (length es))) b)) as (j' & Hw & Hc).
  { simpl. rewrite Hh. lia. }
  rewrite Hw. exists j'. split; [done|]. destruct Hj as (bs & Hbs & Hf). exists (bs ++ [b]). split.
  - simpl in Hc. rewrite Hc, Hbs, imap_app. simpl. by rewrite Nat.add_0_r, (Forall2_length _ _ _ Hf).
  - by apply Forall2_app; [|constructor].
Qed.

Lemma record_inv id now e h es :
  harness_inv id h es → (Z.of_nat (length es) < u64_max)%Z →
  harness_inv id (exec (handle_record now e) h).1
    (es ++ if decide (mode h = RecordMode) then [stamp now e] else []) ∧
  mode (exec (handle_record now e) h).1 = mode h.
Proof.
  intros (Hj & p & Hp & <- & Hn) Hmax. unfold handle_record. act_unfold.
  destruct (decide (mode h = RecordMode)); simpl; [|rewrite app_nil_r; split; [split; eauto|done]].
  rewrite Hp. destruct (write_to_journal_ok p (store h) (stamp now e) es Hj Hn Hmax) as (j' & Hw & Hj').
  rewrite Hw. simpl. split; [|done]. split; [done|]. eexists. split_and!; [done..|]. right.
  rewrite length_app. simpl. f_equal. lia.
Qed.

Lemma load_inv id from max reply h es :
  harness_inv id h es → harness_inv id (exec (load_from_journal from max reply) h).1 es ∧
  mode (exec (load_from_journal from max reply) h).1 = mode h.
Proof.
  intros (Hj & p & Hp & Hid & Hn). unfold load_from_journal. act_unfold. rewrite Hp.
  destruct (replay_messages _ _ _ _ _) as [rs|err]; [destruct (decode_all rs)|]; simpl;
    (split; [split; [done|]; by exists p|done]).
Qed.

Lemma run_inv init id ops h es :
  harness_inv id h es → (Z.of_nat (length es + length ops) < u64_max)%Z →
  harness_inv id (replay_run init id h ops) (es ++ recorded init (mode h) ops).
Proof.
  revert h es. induction ops as [|op ops IH]; intros h es Hinv Hmax; simpl; [by rewrite app_nil_r|].
  cbn [length] in Hmax. destruct op as [now m|]; cycle 1.
  { apply (IH (with_journal init (store h) id)); [|lia]. destruct Hinv as [Hj _]. split; [done|].
    eexists. split_and!; [done..|by left]. }
  simpl. assert (Hsame : ∀ h', harness_inv id h' es → mode h' = mode h →
    harness_inv id (replay_run init id h' ops) (es ++ recorded init (mode h) ops)).
  { intros h' Hh' <-. apply IH; [done|lia]. }
  destruct m as [e|reply|m|es' reply| |from max reply]; try by apply Hsame.
  - destruct (record_inv id now e h es Hinv) as [Hi Hm]; [lia|]. cbn [replay_handle].
    rewrite app_assoc. specialize (IH _ _ Hi). rewrite Hm in IH. apply IH. rewrite length_app.
    case_decide; simpl; lia.
  - apply IH; [done|lia].
  - destruct (load_inv id from max reply h es Hinv). by apply Hsame.
Qed.

Lemma decode_repr id n bs es :
  Forall2 (λ b e, from_slice b = Ok e) bs es →
  decode_all (imap (λ i b, make_repr id (Z.of_nat (n + i)) b) bs) = Ok es.
Proof.
  intros Hf. revert n. induction Hf as [|b e bs es Hb _ IH]; intros n; [done|]. simpl. rewrite Hb.
  specialize (IH (S n)). erewrite imap_ext in IH; [by erewrite IH|]. intros i x _. simpl.
  unfold compose. by rewrite Nat.add_succ_r.
Qed.

Lemma filter_all {A} (P : A → Prop) `{∀ x, Decision (P x)} l : Forall P l → filter P l = l.
Proof. induction 1 as [|x l Hx _ IH]; [done|]. by rewrite filter_cons_True, IH. Qed.

Lemma replay_holds j id es max :
  holds j id es → (Z.of_nat (length es) ≤ u64_max)%Z →
  ∃ rs, replay_messages j id 1 u64_max max = Ok rs ∧ decode_all rs = Ok (take (Z.to_nat max) es).
Proof.
  intros (bs & Hbs & Hf) Hmax. rewrite law_replay. eexists. split; [done|]. rewrite Hbs.
  rewrite filter_all.
  - assert (Ht : take (Z.to_nat max) (imap (λ i b, make_repr id (Z.of_nat (S i)) b) bs) =
      imap (λ i b, make_repr id (Z.of_nat (1 + i)) b) (take (Z.to_nat max) bs)).
    { apply list_eq. intros i. rewrite !list_lookup_imap. destruct (decide (i < Z.to_nat max)) as [Hi|Hi].
      - by rewrite !lookup_take_lt, list_lookup_imap by done.
      - by rewrite !lookup_take_ge by lia. }
    rewrite Ht. apply (decode_repr id 1). by apply Forall2_take.
  - apply Forall_lookup_2. intros i r Hr. rewrite list_lookup_imap in Hr.
    destruct (bs !! i) as [b|] eqn:Hb; [|done]. simplify_eq/=. apply lookup_lt_Some in Hb.
    rewrite (Forall2_length _ _ _ Hf) in Hb. lia.
Qed.

Lemma recorded_length init m ops : length (recorded init m ops) ≤ length ops.
Proof.
  revert m. induction ops as [|[now [e|reply|m'|es reply| |from max reply]|] ops IH]; intros m; simpl;
    try (etrans; [apply IH|lia]); [done|].
  rewrite length_app. specialize (IH m). case_decide; simpl; lia.
Qed.
End replay.

(** C19 (the journal survives the actor): start a harness on a backend that holds
    nothing under its identifier, and let it handle any messages, in any mode,
    and be restarted any number of times.  Then [LoadFromJournal] from 1 loads
    exactly the entries recorded so far (the first [max] of them), in order,
    each with the time stamp of its recording, across all incarnations; in
    replay mode [replay_all] then hands these entries to the sink. *)
Theorem replay_recovers {J Bytes} `{JournalLaw J Bytes, SerdeLaw Bytes}
    (init : ReplayMode) (id : string) (j : J) (ops : list ReplayOp) (now max : Z) (reply : nat) :
  contents j id = [] → (Z.of_nat (length ops) < u64_max)%Z →
  let h := replay_run init id (with_journal init j id) ops in
  let entries := take (Z.to_nat max) (recorded init init ops) in
  ∃ h', exec (replay_handle now (LoadFromJournal 1 max reply)) h =
      (h', [ReplyLoaded reply (Ok (length entries))]) ∧
    journal h' = entries ∧ (mode h' = ReplayM → replay_all h' = entries).
Proof.
  intros Hj Hmax h entries.
  assert (Hinv : harness_inv id h (recorded init init ops)).
  { apply (run_inv init id ops (with_journal init j id) []); [|simpl; lia]. split; [by exists []|].
    eexists. split_and!; [done..|by left]. }
  destruct Hinv as (Hh & p & Hp & <- & _). pose proof (recorded_length init init ops) as Hlen.
  destruct (replay_holds (store h) (pid p) (recorded init init ops) max Hh) as (rs & Hr & Hd); [lia|].
  cbn [replay_handle]. unfold load_from_journal. act_unfold. rewrite Hp, Hr, Hd. eexists. split_and!; [done..|].
  unfold replay_all. simpl. intros ->. by rewrite decide_True.
Qed.

(** ** A backend that satisfies the contract *)

Module InMemory.
Abbreviation mem := (list (PersistentRepr JournalEntry)) (only parsing).

#[export] Instance mem_serde : Serde JournalEntry := {| to_vec := Ok; from_slice := Ok |}.

Definition of_pid (j : list (PersistentRepr JournalEntry)) (id : string) : list (PersistentRepr JournalEntry) :=
  filter (λ r, persistence_id r = id) j.

#[export] Instance mem_journal : Journal (list (PersistentRepr JournalEntry)) JournalEntry := {|
  write_messages := λ j rs, (Ok (), j ++ rs);
  highest_sequence_nr := λ j id _, Ok (match last (of_pid j id) with Some r => sequence_nr r | None => 0%Z end);
  replay_messages := λ j id from to max,
    Ok (take (Z.to_nat max) (filter (λ r, (from ≤ sequence_nr r ≤ to)%Z) (of_pid j id)));
|}.

#[export] Instance mem_serde_law : SerdeLaw JournalEntry.
Proof. intros e. by exists e. Defined.

#[export] Instance mem_journal_law : JournalLaw (list (PersistentRepr JournalEntry)) JournalEntry.
Proof.
  refine {| contents := of_pid |}; [done| |done].
  intros j r _. eexists. split; [done|]. unfold of_pid. rewrite filter_app. f_equal. by apply filter_singleton_True.
Defined.
End InMemory.

Import InMemory.

Definition two_runs : list (@ReplayOp) :=
  [Message 5 (Record_ (RngSeed "a" 1)); Message 9 (Record_ (DeviceCmd 0 "cmd" "p")); RestartActor;
   Message 2 (Record_ (BatchSize "b" 8)); Message 3 (SetMode ReplayM)].

Lemma replay_recovers_witness :
  let h := replay_run RecordMode "job" (with_journal RecordMode ([] : list (PersistentRepr JournalEntry)) "job") two_runs in
  ∃ h', exec (replay_handle 7 (LoadFromJournal 1 100 0)) h = (h', [ReplyLoaded 0 (Ok 3)]) ∧
    journal h' = [RngSeed "a" 1; DeviceCmd 9 "cmd" "p"; BatchSize "b" 8].
Proof.
  destruct (replay_recovers RecordMode "job" ([] : list (PersistentRepr JournalEntry)) two_runs 7 100 0)
    as (h' & Hh & Hj & _); [reflexivity|unfold u64_max; simpl; lia|].
  exists h'. split; [exact Hh|exact Hj].
Defined.

(** [ReplayAll] replies to nobody and hands nothing to a sink. *)
Example replay_all_message_is_silent (h : Harness (J := list (PersistentRepr JournalEntry))) :
  exec (replay_handle 0 ReplayAll) h = (h, []).
Proof. done. Qed.
