(* ===== verification/Train.v ===== *)
(** * Training: the parameter server and the data-parallel trainer

    Models [crates/atomr-accel-train/src/parameter_server.rs], [optimizer.rs]
    and [data_parallel.rs].  An [f32] is a binary32 number of the standard
    library's executable specification (precision 24, maximal exponent 128);
    the replicas of the trainer are parameters. *)

From Stdlib Require Import Floats.SpecFloat.
From stdpp Require Import pretty.
From S2P Require Import Prelude Actor Errors Float64.

Inductive OptimizerKind : Type :=
  | Sgd (lr momentum weight_decay : f32)
  | AdamW (lr beta1 beta2 eps weight_decay : f32).

Definition lr (o : OptimizerKind) : f32 := match o with Sgd lr _ _ => lr | AdamW lr _ _ _ _ => lr end.

(** ** [AsyncParameterServer] *)

Module ParameterServer.

Record ParameterServerStats := { st_version : Z; st_applied : Z; st_pulled : Z; avg_staleness : f32 }.

Inductive PSMsg : Type :=
  | PushGradient (worker worker_version : Z) (gradient : list f32) (reply : nat)
  | PullWeights (worker : Z) (reply : nat)
  | Stats (reply : nat).

Record Server := {
  weights : list f32;
  version : Z;
  optimizer : OptimizerKind;
  max_staleness : Z;
  gradients_applied : Z;
  weights_pulled : Z;
  staleness_window : list Z;
}.

Inductive PSEff : Type :=
  | ReplyPush (reply : nat) (r : result Z GpuError)
  | ReplyPull (reply : nat) (w : list f32) (version : Z)
  | ReplyStats (reply : nat) (s : ParameterServerStats).

Definition Server_new (w : list f32) (o : OptimizerKind) (max : Z) : Server :=
  {| weights := w; version := 0; optimizer := o; max_staleness := max; gradients_applied := 0;
     weights_pulled := 0; staleness_window := [] |}.

(** [weights.iter_mut().zip(grad.iter()).take(n)] *)
Fixpoint update_weights (l : f32) (ws gs : list f32) : list f32 :=
  match ws, gs with
  | w :: ws, g :: gs => f32_sub w (f32_mul l g) :: update_weights l ws gs
  | _, _ => ws
  end.

Definition apply_gradient (grad : list f32) (s : Server) : Server :=
  let n := length (weights s) `min` length grad in
  {| weights := update_weights (lr (optimizer s)) (weights s) (take n grad);
     version := version s +₆₄ 1; optimizer := optimizer s; max_staleness := max_staleness s;
     gradients_applied := gradients_applied s +₆₄ 1; weights_pulled := weights_pulled s;
     staleness_window := staleness_window s |}.

Definition push_staleness (st : Z) (s : Server) : Server :=
  let w := staleness_window s ++ [st] in
  {| weights := weights s; version := version s; optimizer := optimizer s; max_staleness := max_staleness s;
     gradients_applied := gradients_applied s; weights_pulled := weights_pulled s;
     staleness_window := if 128 <? length w then drop 1 w else w |}.

Definition count_pull (s : Server) : Server :=
  {| weights := weights s; version := version s; optimizer := optimizer s; max_staleness := max_staleness s;
     gradients_applied := gradients_applied s; weights_pulled := weights_pulled s +₆₄ 1;
     staleness_window := staleness_window s |}.

Definition stale_error (staleness max : Z) : GpuError :=
  Unrecoverable ("parameter server: staleness " +:+ pretty staleness +:+ " > max " +:+ pretty max).

(** The mean of the window; the integer sum wraps. *)
Definition mean_staleness (w : list Z) : f32 :=
  match w with
  | [] => f32_zero
  | _ => f32_div (f32_of_Z (foldl (wadd 64) 0%Z w)) (f32_of_Z (Z.of_nat (length w)))
  end.

Definition ps_handle (m : PSMsg) : act Server PSEff unit :=
  match m with
  | PushGradient _ worker_version gradient reply =>
    s ← get;
    let staleness := sat_sub (version s) worker_version in
    if (max_staleness s <? staleness)%Z then
      emit (ReplyPush reply (Err (stale_error staleness (max_staleness s))))
    else
      modify (apply_gradient gradient);;
      modify (push_staleness staleness);;
      s ← get; emit (ReplyPush reply (Ok (version s)))
  | PullWeights _ reply => modify count_pull;; s ← get; emit (ReplyPull reply (weights s) (version s))
  | Stats reply =>
    s ← get;
    emit (ReplyStats reply {| st_version := version s; st_applied := gradients_applied s;
      st_pulled := weights_pulled s; avg_staleness := mean_staleness (staleness_window s) |})
  end.

#[global] Instance ps_actor : Actor Server PSMsg PSEff := λ s m, exec (ps_handle m) s.

(** ** What the server promises *)

(** One step of gradient descent, coordinate by coordinate. *)
Definition sgd_step (l : f32) (w g : list f32) : list f32 :=
  imap (λ i x, match g !! i with Some d => f32_sub x (f32_mul l d) | None => x end) w.

(** The gradients accepted from version [v] on, with their staleness. *)
Fixpoint accepted (max : Z) (v : nat) (ms : list PSMsg) : list (Z * list f32) :=
  match ms with
  | PushGradient _ wv g _ :: ms =>
    let st := Z.max 0 (Z.of_nat v - wv) in
    if decide (st ≤ max)%Z then (st, g) :: accepted max (S v) ms else accepted max v ms
  | _ :: ms => accepted max v ms
  | [] => []
  end.

(** The answer to a message when [acc] gradients have been accepted before it. *)
Definition answer (o : OptimizerKind) (max : Z) (w0 : list f32) (acc : list (Z * list f32)) (m : PSMsg) (e : PSEff) :
    Prop :=
  let v := Z.of_nat (length acc) in
  let w := foldl (sgd_step (lr o)) w0 acc.*2 in
  match m with
  | PushGradient _ wv _ reply =>
    if decide (Z.max 0 (v - wv) ≤ max)%Z then e = ReplyPush reply (Ok (v + 1)%Z)
    else e = ReplyPush reply (Err (stale_error (Z.max 0 (v - wv)) max))
  | PullWeights _ reply => e = ReplyPull reply w v
  | Stats reply => ∃ s, e = ReplyStats reply s ∧ st_version s = v ∧ st_applied s = v ∧
      avg_staleness s = mean_staleness (drop (length acc - 128) acc.*1)
  end.

Record ps_inv (w0 : list f32) (o : OptimizerKind) (max : Z) (acc : list (Z * list f32)) (s : Server) : Prop := {
  psi_weights : weights s = foldl (sgd_step (lr o)) w0 acc.*2;
  psi_version : version s = Z.of_nat (length acc);
  psi_applied : gradients_applied s = Z.of_nat (length acc);
  psi_optimizer : optimizer s = o;
  psi_max : max_staleness s = max;
  psi_window : staleness_window s = drop (length acc - 128) acc.*1;
}.

Lemma sgd_step_nil l ws : sgd_step l ws [] = ws.
Proof. apply list_eq. intros i. unfold sgd_step. rewrite list_lookup_imap. by destruct (ws !! i). Qed.

Lemma update_weights_sgd l ws gs :
  update_weights l ws (take (length ws `min` length gs) gs) = sgd_step l ws gs.
Proof.
  revert gs. induction ws as [|w ws IH]; intros [|g gs]; [done|done|by rewrite sgd_step_nil|].
  cbn [length Nat.min take update_weights]. rewrite IH. done.
Qed.

Lemma ps_step w0 o max acc s m :
  ps_inv w0 o max acc s → in_width 64 (Z.of_nat (S (length acc))) →
  let '(s', es) := handle s m in
  ps_inv w0 o max (acc ++ accepted max (length acc) [m]) s' ∧ ∃ e, es = [e] ∧ answer o max w0 acc m e.
Proof.
  intros [Hw Hv Ha Ho Hm Hwin] Hmax. unfold handle, ps_actor, ps_handle, answer, sat_sub.
  assert (Hnext : Z.of_nat (length acc) +₆₄ 1 = (Z.of_nat (length acc) + 1)%Z).
  { rewrite wadd_small; [done|]. unfold in_width in *. lia. }
  destruct m as [wk wv g reply|wk reply|reply].
  - act_unfold. rewrite Hv, Hm. set (st := Z.max 0 (Z.of_nat (length acc) - wv)).
    destruct (Z.ltb_spec max st), (decide (st ≤ max)%Z); try lia; simpl.
    + rewrite app_nil_r. split; [done|]. by eexists.
    + split; [|eexists; split; [done|by rewrite Hv, Hnext]]. constructor; simpl; rewrite ?fmap_app, ?length_app.
      * by rewrite update_weights_sgd, Hw, Ho, foldl_app.
      * simpl. rewrite Hv, Hnext. lia.
      * simpl. rewrite Ha, Hnext. lia.
      * done.
      * done.
      * rewrite Hwin, length_drop, length_fmap. simpl.
        destruct (Nat.ltb_spec 128 (length acc - (length acc - 128) + 1)).
        -- rewrite drop_app_le by (rewrite length_drop, length_fmap; lia). rewrite drop_drop.
           rewrite drop_app_le by (rewrite length_fmap; lia). do 2 f_equal. lia.
        -- rewrite drop_app_le by (rewrite length_fmap; lia). do 2 f_equal. lia.
  - act_unfold. rewrite app_nil_r. split; [by constructor|]. eexists. split; [done|]. by rewrite Hw, Hv.
  - act_unfold. rewrite app_nil_r. split; [by constructor|]. eexists. split; [done|].
    eexists. split; [done|]. by rewrite Hv, Ha, Hwin.
Qed.

Lemma accepted_app max v ms m :
  accepted max v (ms ++ [m]) = accepted max v ms ++ accepted max (v + length (accepted max v ms)) [m].
Proof.
  revert v. induction ms as [|[wk wv g reply|wk reply|reply] ms IH]; intros v; simpl; rewrite ?Nat.add_0_r; try done.
  case_decide; [|done]. rewrite IH. simpl. by rewrite <-Nat.add_succ_comm.
Qed.

Lemma accepted_length max v ms : length (accepted max v ms) ≤ length ms.
Proof.
  revert v. induction ms as [|[wk wv g reply|wk reply|reply] ms IH]; intros v; simpl; try (etrans; [apply IH|lia]); [done|].
  case_decide; simpl; [specialize (IH (S v))|specialize (IH v)]; lia.
Qed.

Lemma ps_run w0 o max ms :
  in_width 64 (Z.of_nat (length ms)) →
  let '(s, es) := run_actor (Server_new w0 o max) ms in
  ps_inv w0 o max (accepted max 0 ms) s ∧
  Forall2 (λ '(pre, m) e, answer o max w0 (accepted max 0 pre) m e) (imap (λ i m, (take i ms, m)) ms) es.
Proof.
  induction ms as [|m ms IH] using rev_ind; [by repeat constructor|]. rewrite length_app. intros Hmax.
  rewrite run_actor_app. simpl in *. unfold in_width in *. destruct (run_actor (Server_new w0 o max) ms) as [s es].
  destruct IH as [Hinv Hes]; [lia|]. pose proof (accepted_length max 0 ms) as Hlen.
  pose proof (ps_step w0 o max _ s m Hinv) as Hs. destruct (handle s m) as [s' es'].
  destruct Hs as [Hinv' (e & -> & He)]; [unfold in_width; lia|].
  rewrite accepted_app, imap_app. simpl. split; [done|]. apply Forall2_app.
  - erewrite imap_ext; [done|]. intros i x Hx. simpl. apply lookup_lt_Some in Hx. by rewrite take_app_le by lia.
  - constructor; [|done]. by rewrite Nat.add_0_r, take_app_length.
Qed.

Lemma accepted_bounded max v ms : Forall (λ st, (0 ≤ st ≤ max)%Z) (accepted max v ms).*1.
Proof.
  revert v. induction ms as [|[wk wv g reply|wk reply|reply] ms IH]; intros v; [constructor| |apply IH..].
  simpl. case_decide; [|done]. constructor; [simpl; lia|apply IH].
Qed.


Definition one : f32 := f32_of_Z 1.
Definition train_msgs : list PSMsg :=
  [PushGradient 1 0 [one] 0; PushGradient 2 0 [one] 1; PushGradient 3 0 [one] 2; PullWeights 1 3].


(** AdamW, momentum and weight decay take the same step as plain SGD. *)
Example optimizer_is_always_sgd g :
  (handle (Server_new [one] (AdamW one one one one one) 4) (PushGradient 1 0 g 0)).2 =
  (handle (Server_new [one] (Sgd one f32_zero f32_zero) 4) (PushGradient 1 0 g 0)).2 ∧
  weights (handle (Server_new [one] (AdamW one one one one one) 4) (PushGradient 1 0 g 0)).1 =
  weights (handle (Server_new [one] (Sgd one f32_zero f32_zero) 4) (PushGradient 1 0 g 0)).1.
Proof. split; reflexivity. Qed.
End ParameterServer.

(** ** [DataParallelTrainer] *)

Module DataParallel.

Record ReplicaStepResult := { loss : f32; grad_norm : f32; samples : Z }.
Record StepStats := { st_loss : f32; st_grad_norm : f32; step_micros : Z }.

Section trainer.
Context {Sample : Type}.

Record Trainer := { replicas : list nat }.

Inductive TrainerMsg : Type :=
  | Step (batch : list Sample) (reply : nat)
  | SetReplicas (rs : list nat).

Inductive TrainerEff : Type :=
  | ReplyStep (reply : nat) (r : result StepStats GpuError)
  (** [replica.tell(P::make_step(chunk, tx))] *)
  | TellStep (replica : nat) (chunk : list Sample)
  (** The task that awaits the answers of [n] replicas. *)
  | Collect (n : nat) (reply : nat).

(** [out\[i % n\].push(s)] for the samples from index [i] on. *)
Fixpoint deal (n i : nat) (batch : list Sample) (out : list (list Sample)) : list (list Sample) :=
  match batch with
  | [] => out
  | s :: batch => deal n (S i) batch (alter (λ c, c ++ [s]) (i mod n) out)
  end.

Definition split_batch (t : Trainer) (batch : list Sample) : list (list Sample) :=
  let n := length (replicas t) `max` 1 in deal n 0 batch (replicate n []).

Definition no_replicas : GpuError := Unrecoverable "DataParallelTrainer::Step: no replicas configured".
Definition dropped_reply : GpuError := Unrecoverable "trainer: replica dropped reply".
Definition zero_samples : GpuError := Unrecoverable "trainer: zero samples".

Definition trainer_handle (m : TrainerMsg) : act Trainer TrainerEff unit :=
  match m with
  | SetReplicas rs => put {| replicas := rs |}
  | Step batch reply =>
    t ← get;
    if length (replicas t) =? 0 then emit (ReplyStep reply (Err no_replicas))
    else
      emits (zip_with TellStep (replicas t) (split_batch t batch));;
      emit (Collect (length (zip (replicas t) (split_batch t batch))) reply)
  end.

(** The collecting task: the answers in replica order, [None] where the
    replica dropped its sender. *)
Fixpoint collect (rxs : list (option (result ReplicaStepResult GpuError))) (total_loss total_norm : f32)
    (total_samples micros : Z) : result StepStats GpuError :=
  match rxs with
  | [] =>
    if (total_samples =? 0)%Z then Err zero_samples
    else Ok {| st_loss := f32_div total_loss (f32_of_Z total_samples);
               st_grad_norm := f32_div total_norm (f32_of_Z total_samples); step_micros := micros |}
  | Some (Ok r) :: rxs =>
    collect rxs (f32_add total_loss (f32_mul (loss r) (f32_of_Z (samples r))))
      (f32_add total_norm (f32_mul (grad_norm r) (f32_of_Z (samples r))))
      (total_samples +₆₄ samples r) micros
  | Some (Err e) :: _ => Err e
  | None :: _ => Err dropped_reply
  end.

Definition collect_step (rxs : list (option (result ReplicaStepResult GpuError))) (micros : Z) :
    result StepStats GpuError := collect rxs f32_zero f32_zero 0 micros.

Lemma deal_length n i batch out : length (deal n i batch out) = length out.
Proof. revert i out. induction batch as [|s batch IH]; intros i out; [done|]. simpl. by rewrite IH, length_alter. Qed.

Lemma deal_app n i b1 b2 out : deal n i (b1 ++ b2) out = deal n (i + length b1) b2 (deal n i b1 out).
Proof.
  revert i out. induction b1 as [|s b1 IH]; intros i out; simpl; [by rewrite Nat.add_0_r|].
  by rewrite IH, Nat.add_succ_r.
Qed.

(** The chunk of replica [j]: samples [j], [j + n], [j + 2 n], ... *)
Definition strided (n j : nat) (batch c : list Sample) : Prop := ∀ i, c !! i = batch !! (j + i * n).

Lemma strided_length n j batch c :
  0 < n → j = length batch mod n → strided n j batch c → length c = length batch / n.
Proof.
  intros Hn -> Hc. pose proof (Nat.div_mod_eq (length batch) n) as Hk.
  apply Nat.le_antisymm.
  - apply lookup_ge_None. rewrite Hc. apply lookup_ge_None. lia.
  - destruct (length batch / n) as [|q] eqn:Hq; [lia|].
    assert (Hs : is_Some (c !! q)); [|by apply lookup_lt_is_Some in Hs].
    rewrite Hc. apply lookup_lt_is_Some. nia.
Qed.

Lemma strided_snoc n j batch c s :
  0 < n → j < n → strided n j batch c →
  strided n j (batch ++ [s]) (if decide (j = length batch mod n) then c ++ [s] else c).
Proof.
  intros Hn Hj Hc i. case_decide as Hjk.
  - pose proof (strided_length n j batch c Hn Hjk Hc) as Hlen. pose proof (Nat.div_mod_eq (length batch) n) as Hk.
    destruct (lt_eq_lt_dec i (length c)) as [[Hi| ->]|Hi].
    + rewrite !lookup_app_l; [apply Hc|nia|done].
    + rewrite !list_lookup_middle; [done|nia|done].
    + rewrite !lookup_ge_None_2; [done|..]; rewrite length_app; simpl; nia.
  - rewrite Hc. destruct (lt_eq_lt_dec (j + i * n) (length batch)) as [[Hi|Hi]|Hi].
    + by rewrite lookup_app_l.
    + exfalso. apply Hjk. rewrite <-Hi, Nat.Div0.mod_add. symmetry. by apply Nat.mod_small.
    + rewrite !lookup_ge_None_2; [done|..]; rewrite ?length_app; simpl; lia.
Qed.

Lemma deal_strided n batch j :
  0 < n → j < n → ∃ c, deal n 0 batch (replicate n []) !! j = Some c ∧ strided n j batch c.
Proof.
  intros Hn Hj. induction batch as [|s batch IH] using rev_ind.
  { exists []. split; [by apply lookup_replicate_2|]. intros i. by rewrite !lookup_nil. }
  destruct IH as (c & Hc & Hs). rewrite deal_app. cbn [deal Nat.add]. eexists. split; [|by apply strided_snoc].
  rewrite list_lookup_alter. destruct (decide (j = length batch mod n)) as [->|Hne].
  - by rewrite decide_True, Hc by done.
  - by rewrite decide_False, Hc by congruence.
Qed.

Lemma alter_join (out : list (list Sample)) k s :
  k < length out → mjoin (alter (λ c, c ++ [s]) k out) ≡ₚ s :: mjoin out.
Proof.
  revert k. induction out as [|c out IH]; intros [|k] Hk; [cbn in Hk; lia..| |].
  - change ((c ++ [s]) ++ mjoin out ≡ₚ s :: c ++ mjoin out). solve_Permutation.
  - change (c ++ mjoin (alter (λ c, c ++ [s]) k out) ≡ₚ s :: c ++ mjoin out).
    rewrite IH by (cbn in Hk; lia). solve_Permutation.
Qed.

Lemma deal_perm n i batch out :
  0 < n → length out = n → mjoin (deal n i batch out) ≡ₚ batch ++ mjoin out.
Proof.
  intros Hn. revert i out. induction batch as [|s batch IH]; intros i out Hl; [done|]. simpl.
  rewrite IH by (by rewrite length_alter). rewrite alter_join; [solve_Permutation|].
  rewrite Hl. apply Nat.mod_upper_bound. lia.
Qed.

Lemma collect_pre pre rxs l g n micros :
  Forall (λ a, ∃ r, a = Some (Ok r)) pre →
  ∃ l' g' n', collect (pre ++ rxs) l g n micros = collect rxs l' g' n' micros.
Proof.
  intros Hp. revert l g n. induction Hp as [|a pre [r ->] _ IH]; intros l g n; [by eexists _, _, _|]. apply IH.
Qed.
End trainer.

(** Data-parallel step: with replicas configured, every sample of the batch
    is sent to exactly one replica: replica [j] of [n] is told one chunk, made
    of the samples [j], [j + n], [j + 2n], ... in order; the answers of all
    [n] replicas are awaited, and the first replica, in replica order, that
    fails or drops its sender decides the error of the step. *)
Theorem data_parallel_step {Sample} (rs : list nat) (batch : list Sample) (reply : nat) :
  rs ≠ [] →
  ∃ chunks, exec (trainer_handle (Step batch reply)) {| replicas := rs |} =
      ({| replicas := rs |}, zip_with TellStep rs chunks ++ [Collect (length rs) reply]) ∧
    length chunks = length rs ∧ mjoin chunks ≡ₚ batch ∧
    (∀ j c, chunks !! j = Some c → strided (length rs) j batch c) ∧
    ∀ pre post micros, Forall (λ a, ∃ r, a = Some (Ok r)) pre →
      (∀ e, collect_step (pre ++ Some (Err e) :: post) micros = Err e) ∧
      collect_step (pre ++ None :: post) micros = Err dropped_reply.
Proof.
  intros Hne. assert (Hn : 0 < length rs) by (destruct rs; simpl; [done|lia]).
  set (chunks := split_batch {| replicas := rs |} batch). exists chunks.
  assert (Hmax : length rs `max` 1 = length rs) by lia.
  assert (Hlen : length chunks = length rs).
  { unfold chunks, split_batch. simpl. by rewrite Hmax, deal_length, length_replicate. }
  split_and!.
  - unfold trainer_handle. act_unfold. fold chunks. destruct (Nat.eqb_spec (length rs) 0); [lia|].
    simpl. rewrite length_zip_with, Hlen, Nat.min_id. by rewrite ?app_nil_r.
  - done.
  - unfold chunks, split_batch. simpl. rewrite Hmax, deal_perm by (rewrite ?length_replicate; lia).
    assert (Hnil : mjoin (replicate (length rs) ([] : list Sample)) = []) by (clear; by induction (length rs)).
    by rewrite Hnil, app_nil_r.
  - intros j c Hj. pose proof (lookup_lt_Some _ _ _ Hj) as Hlt.
    destruct (deal_strided (length rs) batch j Hn) as (c' & Hc' & Hs); [lia|].
    unfold chunks, split_batch in Hj. simpl in Hj. rewrite Hmax in Hj. rewrite Hc' in Hj. by simplify_eq.
  - intros pre post micros Hpre. unfold collect_step.
    split; [intros e|]; (edestruct (collect_pre pre) as (l & g & n & ->); [done|done]).
Qed.

Lemma data_parallel_step_witness :
  ∃ chunks, exec (trainer_handle (Step [1; 2; 3; 4; 5] 0)) {| replicas := [7; 8] |} =
      ({| replicas := [7; 8] |}, zip_with TellStep [7; 8] chunks ++ [Collect 2 0]) ∧
    chunks = [[1; 3; 5]; [2; 4]].
Proof.
  destruct (data_parallel_step [7; 8] [1; 2; 3; 4; 5] 0) as (chunks & Hr & Hl & _); [discriminate|].
  exists chunks. split; [exact Hr|]. destruct chunks as [|c1 [|c2 [|? ?]]]; try discriminate Hl.
  vm_compute in Hr. by simplify_eq.
Defined.
End DataParallel.
