(* ===== verification/ParallelTrain.v ===== *)
(** * The tensor- and pipeline-parallel trainers

    Models [tensor_parallel.rs] and [pipeline_parallel.rs] of
    [crates/atomr-accel-train/src].  The shards and stages are parameters: what
    each answers, [None] when it drops its sender.  The optimizer configuration
    is not read by either trainer. *)

From S2P Require Import Prelude Actor Errors Float64 Train.

Module TensorParallel.

Record ShardStepResult := { partial_output : list f32; sh_loss : f32; sh_grad_norm : f32; sh_samples : Z }.

Inductive TPEff : Type :=
  | ReplyStep (reply : nat) (r : result (list f32 * DataParallel.StepStats) GpuError)
  | TellShard (shard : nat) (chunk : list f32)
  (** The task that awaits the answers of [n] shards. *)
  | Collect (n : nat) (reply : nat).

(** [usize::div_ceil] *)
Definition div_ceil (a b : nat) : nat := a / b + (if a mod b =? 0 then 0 else 1).

Definition chunks (n : nat) (input : list f32) : list (list f32) :=
  let chunk_size := div_ceil (length input) n in
  (λ i, let lo := (i * chunk_size) `min` length input in
        let hi := ((i + 1) * chunk_size) `min` length input in
        take (hi - lo) (drop lo input)) <$> seq 0 n.

Definition no_shards : GpuError := Unrecoverable "TensorParallelTrainer::Step: no shards".
Definition shard_dropped : GpuError := Unrecoverable "tensor-parallel: shard dropped reply".

(** The handler of [Step]; the state is the list of shards. *)
Definition step (input : list f32) (reply : nat) : act (list nat) TPEff unit :=
  shards ← get;
  if length shards =? 0 then emit (ReplyStep reply (Err no_shards))
  else
    emits (zip_with TellShard shards (chunks (length shards) input));;
    emit (Collect (length (zip shards (chunks (length shards) input))) reply).

(** [acc.resize(m, 0.0)], then [acc\[i\] += v] for the partial's elements. *)
Fixpoint add_into (acc part : list f32) : list f32 :=
  match acc, part with
  | a :: acc, v :: part => f32_add a v :: add_into acc part
  | acc, [] => acc
  | [], _ :: _ => part
  end.
Definition resize (m : nat) (acc : list f32) : list f32 := take m acc ++ replicate (m - length acc) f32_zero.
Definition accumulate (summed : option (list f32)) (part : list f32) : list f32 :=
  match summed with
  | None => part
  | Some acc =>
    if length acc =? length part then add_into acc part
    else add_into (resize (length acc `max` length part) acc) part
  end.

(** The collecting task, in shard order. *)
Fixpoint collect (rxs : list (option (result ShardStepResult GpuError))) (summed : option (list f32))
    (total_loss total_grad : f32) (total_samples micros : Z) :
    result (list f32 * DataParallel.StepStats) GpuError :=
  match rxs with
  | [] =>
    let mean x := if (0 <? total_samples)%Z then f32_div x (f32_of_Z total_samples) else f32_zero in
    Ok (default [] summed,
        {| DataParallel.st_loss := mean total_loss; DataParallel.st_grad_norm := mean total_grad;
           DataParallel.step_micros := micros |})
  | Some (Ok r) :: rxs =>
    collect rxs (Some (accumulate summed (partial_output r)))
      (f32_add total_loss (f32_mul (sh_loss r) (f32_of_Z (sh_samples r))))
      (f32_add total_grad (f32_mul (sh_grad_norm r) (f32_of_Z (sh_samples r))))
      (total_samples +₆₄ sh_samples r) micros
  | Some (Err e) :: _ => Err e
  | None :: _ => Err shard_dropped
  end.
Definition collect_step rxs micros := collect rxs None f32_zero f32_zero 0 micros.

(** *** Chunks *)

Lemma div_ceil_bound a b : 0 < b → a ≤ b * div_ceil a b.
Proof.
  intros Hb. unfold div_ceil. pose proof (Nat.div_mod_eq a b). pose proof (Nat.mod_upper_bound a b).
  destruct (Nat.eqb_spec (a mod b) 0); nia.
Qed.

Lemma chunk_take c i (input : list f32) :
  take (((i + 1) * c) `min` length input - (i * c) `min` length input)
    (drop ((i * c) `min` length input) input) = take c (drop (i * c) input).
Proof.
  destruct (Nat.le_gt_cases (length input) (i * c)) as [Hle|Hlt].
  - rewrite !drop_ge by lia. by rewrite !take_nil.
  - rewrite (Nat.min_l (i * c)) by lia. destruct (Nat.le_gt_cases ((i + 1) * c) (length input)).
    + f_equal. lia.
    + rewrite !take_ge by (rewrite length_drop; lia). done.
Qed.

Lemma chunks_prefix c (input : list f32) k :
  mjoin ((λ i, take c (drop (i * c) input)) <$> seq 0 k) = take (k * c) input.
Proof.
  induction k as [|k IH]; [done|]. rewrite seq_S, fmap_app, join_app, IH.
  change (mjoin ((λ i, take c (drop (i * c) input)) <$> [0 + k])) with (take c (drop (k * c) input) ++ []).
  rewrite app_nil_r, take_take_drop. f_equal. lia.
Qed.

Lemma chunks_spec n input : 0 < n →
  length (chunks n input) = n ∧ mjoin (chunks n input) = input ∧
  ∀ i, i < n → chunks n input !! i =
    Some (take (div_ceil (length input) n) (drop (i * div_ceil (length input) n) input)).
Proof.
  intros Hn. unfold chunks. cbn zeta.
  rewrite (list_fmap_ext _ (λ i, take (div_ceil (length input) n) (drop (i * div_ceil (length input) n) input)))
    by (intros; apply chunk_take).
  split_and!.
  - by rewrite length_fmap, length_seq.
  - rewrite chunks_prefix. apply take_ge. by apply div_ceil_bound.
  - intros i Hi. by rewrite list_lookup_fmap, lookup_seq_lt.
Qed.

(** *** The sum *)

Lemma add_into_lookup acc part i : length part ≤ length acc →
  add_into acc part !! i =
    match acc !! i, part !! i with
    | Some a, Some v => Some (f32_add a v) | o, None => o | None, Some _ => None
    end.
Proof.
  revert part i. induction acc as [|a acc IH]; intros [|v part] [|i]; simpl; try done; try lia.
  - by destruct (acc !! i).
  - intros. apply IH. lia.
Qed.

Lemma accumulate_lookup acc part i :
  accumulate (Some acc) part !! i =
    match acc !! i, part !! i with
    | Some a, Some v => Some (f32_add a v)
    | Some a, None => Some a
    | None, Some v => Some (f32_add f32_zero v)
    | None, None => None
    end.
Proof.
  unfold accumulate. destruct (Nat.eqb_spec (length acc) (length part)) as [He|Hne].
  - rewrite add_into_lookup by lia. destruct (acc !! i) eqn:Ha, (part !! i) eqn:Hp; try done.
    apply lookup_lt_Some in Hp. apply lookup_ge_None in Ha. lia.
  - set (m := length acc `max` length part).
    assert (Hr : resize m acc = acc ++ replicate (m - length acc) f32_zero).
    { unfold resize. by rewrite take_ge by lia. }
    rewrite Hr, add_into_lookup by (rewrite length_app, length_replicate; lia).
    destruct (acc !! i) as [a|] eqn:Ha.
    + rewrite (lookup_app_l_Some _ _ _ _ Ha). by destruct (part !! i).
    + apply lookup_ge_None in Ha. rewrite lookup_app_r by done.
      destruct (part !! i) as [v|] eqn:Hp.
      * apply lookup_lt_Some in Hp. by rewrite lookup_replicate_2 by lia.
      * apply lookup_ge_None in Hp. rewrite lookup_ge_None_2; [done|]. rewrite length_replicate. lia.
Qed.

(** Position [i] of the sum of the partial outputs that have one. *)
Definition sum_at (i : nat) (parts : list (list f32)) : option f32 :=
  match parts with
  | [] => None
  | p :: parts =>
    foldl (λ acc q, match acc, q !! i with
                    | Some a, Some v => Some (f32_add a v)
                    | None, Some v => Some (f32_add f32_zero v)
                    | o, None => o
                    end) (p !! i) parts
  end.

Lemma collect_ok rs summed l g n micros :
  ∃ out st, collect (Some <$> (Ok <$> rs)) summed l g n micros = Ok (out, st) ∧
    ∀ i, out !! i = match summed with
      | None => sum_at i (partial_output <$> rs)
      | Some acc => sum_at i (acc :: (partial_output <$> rs))
      end.
Proof.
  revert summed l g n. induction rs as [|r rs IH]; intros summed l g n.
  { eexists _, _. split; [done|]. intros i. by destruct summed. }
  destruct (IH (Some (accumulate summed (partial_output r)))
    (f32_add l (f32_mul (sh_loss r) (f32_of_Z (sh_samples r))))
    (f32_add g (f32_mul (sh_grad_norm r) (f32_of_Z (sh_samples r)))) (n +₆₄ sh_samples r)) as (out & st & Hc & Ho).
  exists out, st. split; [exact Hc|]. intros i. rewrite Ho. destruct summed as [acc|]; [|done].
  cbn [sum_at fmap list_fmap foldl]. rewrite accumulate_lookup. by destruct (acc !! i), (partial_output r !! i).
Qed.

Lemma collect_fail pre post summed l g n micros :
  (∀ e, collect ((Some <$> (Ok <$> pre)) ++ Some (Err e) :: post) summed l g n micros = Err e) ∧
  collect ((Some <$> (Ok <$> pre)) ++ None :: post) summed l g n micros = Err shard_dropped.
Proof. revert summed l g n. induction pre as [|r pre IH]; intros summed l g n; [done|apply IH]. Qed.

(** Tensor-parallel step: with shards configured, the input is cut into one
    contiguous slice per shard, in order and of equal length but for the tail, the
    slices make up the input and shard [i] is told slice [i]; when all shards
    answer, position [i] of the output is the sum, in shard order, of the partial
    outputs long enough to have it; and the first failing shard, in order, decides
    the error. *)
Theorem tensor_parallel_step (shards : list nat) (input : list f32) (reply : nat) :
  shards ≠ [] →
  ∃ cs, exec (step input reply) shards = (shards, zip_with TellShard shards cs ++ [Collect (length shards) reply]) ∧
    length cs = length shards ∧ mjoin cs = input ∧
    (∀ i, i < length shards → ∃ size, size = div_ceil (length input) (length shards) ∧
       cs !! i = Some (take size (drop (i * size) input))) ∧
    (∀ rs micros, ∃ out st, collect_step (Some <$> (Ok <$> rs)) micros = Ok (out, st) ∧
       ∀ i, out !! i = sum_at i (partial_output <$> rs)) ∧
    (∀ pre post micros e, collect_step ((Some <$> (Ok <$> pre)) ++ Some (Err e) :: post) micros = Err e) ∧
    (∀ pre post micros, collect_step ((Some <$> (Ok <$> pre)) ++ None :: post) micros = Err shard_dropped).
Proof.
  intros Hne. assert (Hn : 0 < length shards) by (destruct shards; simpl; [done|lia]).
  destruct (chunks_spec (length shards) input Hn) as (Hlen & Hjoin & Hcs).
  exists (chunks (length shards) input). split_and!; [|done|done| | | |].
  - unfold step. act_unfold. rewrite (proj2 (Nat.eqb_neq _ 0)) by lia.
    rewrite length_zip_with, Hlen, Nat.min_id. by rewrite ?app_nil_r.
  - intros i Hi. eexists. split; [done|]. by apply Hcs.
  - intros rs micros. apply (collect_ok rs None).
  - intros pre post micros e. apply collect_fail.
  - intros pre post micros. apply collect_fail.
Qed.

Lemma tensor_parallel_step_witness :
  ∃ cs, exec (step (f32_of_Z <$> [1; 2; 3; 4; 5]%Z) 0) [7; 8] = ([7; 8], zip_with TellShard [7; 8] cs ++ [Collect 2 0]) ∧
    mjoin cs = f32_of_Z <$> [1; 2; 3; 4; 5]%Z.
Proof.
  destruct (tensor_parallel_step [7; 8] (f32_of_Z <$> [1; 2; 3; 4; 5]%Z) 0) as (cs & Hr & _ & Hj & _); [done|].
  exists cs. split; [exact Hr|exact Hj].
Defined.
End TensorParallel.

Module PipelineParallel.
Section pipeline.
Context {Activation : Type}.

Inductive PPEff : Type :=
  | ReplyStep (reply : nat) (r : result DataParallel.StepStats GpuError)
  | TellForward (stage : nat) (input : Activation)
  | TellFinal (stage : nat) (input : Activation).

Definition no_stages : GpuError := Unrecoverable "PipelineParallelTrainer::Step: no stages".
Definition stage_dropped : GpuError := Unrecoverable "pipeline: stage dropped reply".
Definition final_dropped : GpuError := Unrecoverable "pipeline: final stage dropped reply".

(** What stages answer: [None] when the sender is dropped. *)
Context (forward : nat → Activation → option (result Activation GpuError)).
Context (final_forward : nat → Activation → option (result (f32 * f32) GpuError)).
Context (micros : Z).

(** The task of a step: every stage but the last is told the activation and its
    answer awaited; the last answers the loss and the gradient norm. *)
Fixpoint run_stages (stages : list nat) (act : Activation) (reply : nat) : list PPEff :=
  match stages with
  | [] => []
  | [s] =>
    [TellFinal s act;
     ReplyStep reply
       match final_forward s act with
       | Some (Ok lg) => Ok {| DataParallel.st_loss := lg.1; DataParallel.st_grad_norm := lg.2;
                               DataParallel.step_micros := micros |}
       | Some (Err e) => Err e
       | None => Err final_dropped
       end]
  | s :: stages =>
    TellForward s act ::
    match forward s act with
    | Some (Ok next) => run_stages stages next reply
    | Some (Err e) => [ReplyStep reply (Err e)]
    | None => [ReplyStep reply (Err stage_dropped)]
    end
  end.

Definition step (stages : list nat) (input : Activation) (reply : nat) : list PPEff :=
  if length stages =? 0 then [ReplyStep reply (Err no_stages)] else run_stages stages input reply.

(** The activation after some stages, or the failure of one. *)
Fixpoint through (stages : list nat) (act : Activation) : result Activation GpuError :=
  match stages with
  | [] => Ok act
  | s :: stages =>
    match forward s act with
    | Some (Ok next) => through stages next
    | Some (Err e) => Err e
    | None => Err stage_dropped
    end
  end.

Definition told (e : PPEff) : list nat :=
  match e with ReplyStep _ _ => [] | TellForward s _ | TellFinal s _ => [s] end.
Definition answered (e : PPEff) : list (nat * result DataParallel.StepStats GpuError) :=
  match e with ReplyStep c r => [(c, r)] | _ => [] end.

Definition final_result (s : nat) (act : Activation) : result DataParallel.StepStats GpuError :=
  match final_forward s act with
  | Some (Ok lg) => Ok {| DataParallel.st_loss := lg.1; DataParallel.st_grad_norm := lg.2;
                          DataParallel.step_micros := micros |}
  | Some (Err e) => Err e
  | None => Err final_dropped
  end.

Lemma run_stages_spec stages s act reply :
  run_stages (stages ++ [s]) act reply ≫= answered =
    [(reply, match through stages act with Ok a => final_result s a | Err e => Err e end)] ∧
  (run_stages (stages ++ [s]) act reply ≫= told) `prefix_of` (stages ++ [s]) ∧
  (is_ok (through stages act) = true → run_stages (stages ++ [s]) act reply ≫= told = stages ++ [s]).
Proof.
  revert act. induction stages as [|t stages IH]; intros act; [done|].
  assert (Hrun : run_stages ((t :: stages) ++ [s]) act reply = TellForward t act ::
    match forward t act with
    | Some (Ok next) => run_stages (stages ++ [s]) next reply
    | Some (Err e) => [ReplyStep reply (Err e)]
    | None => [ReplyStep reply (Err stage_dropped)]
    end) by (cbn; by destruct (stages ++ [s]) eqn:He; [by destruct stages|]).
  rewrite Hrun. rewrite !bind_cons. cbn [through told answered app].
  destruct (forward t act) as [[next|e]|].
  - destruct (IH next) as (-> & Hpre & Hall). split_and!; [done| |].
    + by apply prefix_cons.
    + intros Hok. by rewrite Hall.
  - split_and!; [done|by apply prefix_cons, prefix_nil|done].
  - split_and!; [done|by apply prefix_cons, prefix_nil|done].
Qed.
End pipeline.

(** Pipeline-parallel step: the request is answered exactly once, with the
    final stage's loss and gradient norm on the activation that the earlier stages
    compose to, or with the error of the first stage that fails or drops its
    sender; stages are told in order, each at most once, and all of them when no
    earlier stage fails; without stages the step is refused. *)
Theorem pipeline_parallel_step {A} forward final_forward micros (stages : list nat) (s : nat) (input : A) reply :
  let es := step forward final_forward micros (stages ++ [s]) input reply in
  es ≫= answered =
    [(reply, match through forward stages input with
             | Ok a => final_result final_forward micros s a
             | Err e => Err e
             end)] ∧
  (es ≫= told) `prefix_of` (stages ++ [s]) ∧
  (is_ok (through forward stages input) = true → es ≫= told = stages ++ [s]) ∧
  step forward final_forward micros [] input reply = [ReplyStep reply (Err no_stages)].
Proof.
  intros es. unfold es, step. rewrite (proj2 (Nat.eqb_neq _ 0)) by (rewrite length_app; simpl; lia).
  destruct (run_stages_spec forward final_forward micros stages s input reply) as (? & ? & ?). done.
Qed.
End PipelineParallel.
